(* ===== verification/_CoqProject ===== *)
-Q . S2P
Prelude.v
GoStd.v
GoPath.v
Disk.v
External.v
Credentials.v
Replay.v
Signing.v
Privileged.v
HostOps.v
RuntimeConfig.v
Effective.v
Retry.v
Enrollment.v
NetStatic.v
Inodes.v
Files.v
Uploads.v
Systemd.v
HostFs.v
HostService.v
HostPolicy.v
HostBootstrap.v
HostSeal.v
HostPanel.v
HostFetch.v
HostTx.v
HostFrame.v
HostCrash.v
HostUpgrade.v
HostApply.v
HostApplied.v
HostInstall.v
HostDemo.v
Session.v
Delivery.v
Grants.v
Receipts.v
Baseline.v
Renewal.v
Dpop.v
Executions.v
SessionDemo.v
Rescue.v
RescueSsh.v
RescueActions.v
RescueWatch.v
RescueHelper.v
RescueDemo.v
GoUrl.v
Accounts.v
Workspace.v
Relay.v
FileService.v
RemoteSession.v
Telemetry.v
WorkspaceDemo.v
LocalAuth.v
Resolver.v
Probes.v
Subscriptions.v
Polls.v
Startup.v
StartDemo.v
FileTree.v
FileOps.v
FileCopy.v
FileView.v
Downloads.v
FileDemo.v
Worker.v
Update.v
Traffic.v
Launch.v
Login.v
