(* ===== verification/Prelude.v ===== *)
(** * Komari agent: verification library

    The agent enrols a host with a panel, keeps the credentials the panel
    issues, reports metrics, and carries out what the panel signs. This library
    models, file by file, the parts of the Go program that decide what the
    panel may do and that keep state on the host, and proves what they promise.

    ** The program and its model

    Each operation is a function of its component's state and of what it reads
    from outside (the clock, random bytes, the server's answers), in the order
    of the source; an error return is a value of the component's error type. A
    method that runs under a mutex is one step of the state.

    - [Prelude]: results and their early-return notations, the case-analysis
      tactics, lemmas shared by all files.
    - [GoStd], [GoPath]: the standard library the code uses: integers with
      their wrap-around, instants and durations, strings, number parsing,
      base64 and hex, [path/filepath] on Unix.
    - [Disk]: files by path, system calls that may fail one by one, and the
      trace of file systems a sequence goes through. [replace_file] is the
      temporary-file-and-rename sequence all the agent's stores share, with its
      atomicity theorem; the advisory lock of [core/statelock] is here too.
    - [External]: what is not under [src/]: signature scheme, digests, protobuf
      and JSON codecs, message types. Codecs and cryptography are classes whose
      laws are the documented behaviour; theorems that need a law name it, and
      the witnesses instantiate it.
    - [Credentials] ([core/credentials/store.go]): the identity file and the
      two-phase token rotation.
    - [Replay], [Signing] ([core/signing]): the nonce guard and the decision
      whether an instruction came from the panel.
    - [Privileged] ([core/privileged]): the settings that grant capabilities:
      delivery, approval, baseline, roll-back, receipts, and the commit under a
      file lock.
    - [HostOps] ([core/hostops]): the administrator's manifest, policy and
      trust, signed host revisions and operations, helper releases.
    - [RuntimeConfig] ([core/runtimeconfig/store.go], [receipt.go]): the
      settings the panel changes online.
    - [Effective] ([core/runtimeconfig/effective.go], [core/capability]): the
      intersection of settings, policy and process mode, and the report.
    - [Retry] ([clientcore/retry.go]): how long to wait before dialling again.
    - [Enrollment] ([core/enrollment]): the device-code polling loop,
      re-authentication and the signed token refresh.
    - [NetStatic] ([monitoring/netstatic]): traffic counters, their records and
      their file.
    - [Inodes], [Files], [Uploads] ([files/]): a file system with inodes, the
      simple file operations, and uploads as interleaved goroutines.
    - the host tool ([internal/hostcmd], and the parts of [core/hostops] only
      it uses), on a file system with kinds, modes and owners ([HostFs]), whose
      steps may each fail and each leave a file system on the trace:
      [Systemd] (unit quoting, the parsing of [systemctl show], the loop that
      waits for a stable process), [HostService] (calls of systemctl, the
      heartbeat of the rescue helper), [HostPolicy] (ceilings and consent),
      [HostBootstrap] (the legacy command line), [HostSeal] (taking the state
      directories over and giving them back), [HostPanel] (manifests, PAM, the
      lock, trust, the panel's answers), [HostFetch] (helper releases),
      [HostTx] (backups, the transaction, its restoration, receipts),
      [HostUpgrade] (coordinated upgrades), [HostApply] ([apply] and [resume]),
      [HostInstall] (installation and migration). [HostFrame] holds the frame
      rules of all these operations, [HostCrash] and [HostApplied] what they
      promise together, and [HostDemo] a small installation on which the
      theorems are applied.
    - the panel session ([clientcore]): [Session] (its state, its errors, what
      it needs of the panel), [Delivery] ([privileged_apply.go],
      [host_applied.go], [baseline.go]: revisions, host results, receipts and
      their outboxes), with its theorems in [Grants], [Receipts] and [Baseline];
      [Renewal] ([credential_renewal.go]), [Executions] (remote executions and
      [server/execution.go]), [Dpop] ([requestheaders/dpop.go]), [FileService]
      ([files.go]), [RemoteSession] (terminal sessions and
      [terminal/terminal.go]), [Telemetry] ([Run], metrics and reports),
      [Subscriptions] (the loop six workers share), [Polls] (the two probe
      workers), [Startup] ([New], and the loop of [cmd/root.go]). [SessionDemo],
      [WorkspaceDemo] and [StartDemo] hold concrete runs.
    - the rescue helper ([rescue/]): [Rescue] (the machine it acts on and its
      state files), [RescueSsh] (temporary SSH access), [RescueActions]
      (isolation, restart, power, diagnostics), [RescueWatch] (the gate that
      opens and closes with the daemon's heartbeats), [RescueHelper]
      (assignments), [RescueDemo].
    - accounts and files: [GoUrl] ([net/url]), [Accounts] ([core/osidentity] and
      the shell of [terminal]), [Workspace] and [Worker] (both ends of
      [files/worker.go]), [Relay] ([files/worker_transfer.go]), [FileTree] (a
      file system as a tree of inodes with directories and links), [FileOps]
      (the operations of [files/ops.go] and [files/execute.go] on it),
      [FileCopy] and [FileView] (what copies and views guarantee), [Downloads]
      ([files/stream.go]), [FileDemo].
    - [LocalAuth] ([core/localauth]), [Resolver] ([dnsresolver]), [Probes]
      ([server/task.go], [server/route.go]), [Update] ([update/]).
    - the command line ([cmd/]): [Launch] (how every command puts its settings
      together, the start of the daemon, discovery, what is shown and reported
      of an installation: [root.go], [service_config.go], [autodiscovery.go],
      [cmd/flags], [core/installation]), [Login] ([login.go]: login, refresh,
      reauth, logout, trust). [Traffic] ([monitoring/unit/net.go],
      [utils/utils.go]): which interfaces count, and since which day.

    [Signing] calls [Replay]; [Enrollment] works on the identities of
    [Credentials]; [HostOps] reuses the verifier of [Signing] and the approval
    window of [Privileged]; [Effective] reads the stores of [Privileged] and
    [RuntimeConfig] and the policy of [HostOps]. [Credentials], [Replay],
    [Privileged], [HostOps] and [RuntimeConfig] write through [Disk]. The host
    tool verifies what the panel sends with [HostOps]; [HostApply] composes the
    other parts in the order of [apply]. [Startup] opens the stores of
    [Credentials], [Privileged] and [HostOps] and builds the [Session] that
    [Delivery], [Renewal], [Telemetry], [Executions], [Subscriptions] and [Polls]
    run on; [Polls] calls [Probes]; the daemon's loop takes its pauses from
    [Retry]. [RescueHelper] composes [RescueActions] and [RescueSsh], which act on
    the machine of [Rescue]; [RescueWatch] closes the windows of [RescueSsh].
    [FileService] runs an operation through the pool of [Workspace], which
    resolves accounts with [Accounts] and passes transfers through [Relay]; the
    child of [Worker] runs [FileOps] and [Downloads] on a [FileTree]. [Launch]
    produces the launch settings [Startup] takes; [Login] drives [Enrollment] and
    [Credentials] from the terminal; [Traffic] reads the totals of [NetStatic].

    ** What the theorems show

    - The host transaction can be killed at any point: up to the claim nothing
      but the tool's own files has changed
      ([HostApplied.review_and_claim_change_nothing]); when it starts to change
      things the backups are complete ([back_up_complete]); from then on every
      file system on the way holds a journal and backups from which the files
      come back ([HostCrash.executeTransaction_recoverable],
      [restoreTransaction_recoverable], [interrupted_then_restored]), and an
      error that says so has put them back ([HostApplied.failed_apply_restores]).
      The fence takes every state file to a fresh inode of root and the recovery
      returns the owners ([HostSeal.fence_takes_over],
      [fence_restore_roundtrip]). Upgrades keep the originals and put them back
      ([HostUpgrade.failed_upgrade_restores], [upgrade_backups_survive]), an
      installation replaces nothing ([HostInstall.install_replaces_nothing]).
    - What the host tool trusts: [HostFetch.prepareHelper_verified],
      [HostService.ReadHelperStatus_bound], [Systemd.verify_loop_stable], and
      that a settled service is recognised ([HostService.verifyService_settles]);
      [HostPolicy.validated_task_is_allowed], [ceilings_agree] (the two places
      that compare with the ceilings agree) and
      [HostBootstrap.captureBootstrap_keeps_deny] keep the administrator's
      restrictions. [Systemd.unitQuote_roundtrip] and
      [HostApply.hostRecoveryCommand_words] are about quoting,
      [HostBootstrap.parse_args_typed] about the types of a configuration, and
      [HostFrame.ensure_dir_terminates] about the recursion towards the root.
    - Crash atomicity: at every point of every writer, under every schedule of
      failing calls, the file is the old one or the complete new one
      ([Credentials.credentials_crash_atomic],
      [RuntimeConfig.persist_file_atomic], [HostOps.atomicWrite_crash_atomic]).
    - Authenticity: [Signing.Verify_refines] states the decision abstractly and
      proves the code implements it; [HostOps.VerifyRevision_spec] and
      [host_signature_binds_message], [Enrollment.refresh_response_bound] and
      [verifyPinnedEnvelope_threshold] do it for host revisions and refreshes.
    - Freshness: [Replay.Consume_no_replay], [Credentials.CommitRefresh_ok],
      [CommitRefresh_once], [Privileged.sequence_monotone].
    - Containment: nothing widens what was granted
      ([Privileged.no_grant_only_narrows], [active_is_signed],
      [Effective.effective_bounded], [detect_sound]).
    - Invariants over all reachable states: [Privileged.privileged_invariant],
      [RuntimeConfig.runtime_invariant].
    - Concurrency: [Privileged.commit_no_lost_update] (two processes on one
      file), [Uploads.upload_exact] (an uploaded file is the file sent, for any
      interleaving), [Uploads.cancel_blocks_streams].
    - Accounting and arithmetic: [NetStatic.traffic_accounting],
      [flush_conserves_total], [save_load_roundtrip], [Retry.backoffDelay_spec]
      and [next_bounds], [Uploads.parseUploadStreamSpec_tiles] (no wrap-around).
    - The session: only what the panel signed is granted
      ([Baseline.session_grants_only_signed]), a client is tied to the trust of
      its host ([Startup.New_is_tied_to_its_identity]), reports describe the
      host ([Receipts.reports_describe_host]) and every receipt is accounted for
      ([flush_runtime_accounts]), a rotation is all or nothing
      ([Renewal.refresh_all_or_nothing]), executions and terminals run on
      command and report what happened ([Executions.executions_are_commanded],
      [execution_reports_are_faithful], [RemoteSession.session_is_faithful],
      [terminal_is_gated]), no loop turns without a pause
      ([Subscriptions.subscriptions_are_paced], [Polls.assignments_are_answered],
      [Startup.daemon_restarts_at_its_pace]).
    - The rescue helper acts on command ([RescueHelper.execute_is_commanded])
      while the daemon vouches for it ([RescueWatch.authorization_is_fresh],
      [withdrawal_closes_window]); open ports are on record and closed in time
      ([RescueSsh.open_ports_are_recorded], [reconcile_enforces_deadline]).
    - Files: operations run as their account and answers reach their caller
      ([Workspace.operations_run_as_their_account], [answers_are_routed],
      [Worker.requests_are_answered_once]); a copy adds and never overwrites
      unasked ([FileCopy.copy_only_adds]) and is a copy
      ([copied_directory_is_copy]); views change nothing
      ([FileView.views_change_nothing]); a download is its range
      ([Downloads.download_sends_its_range]); a relay serves one request
      ([Relay.relay_is_one_shot]).
    - Commands: a login enrols completely or changes nothing
      ([Login.login_is_all_or_nothing]) and only an unenrolled machine,
      [Login.reauth_keeps_the_machine]; a local denial survives every other
      source of settings ([Launch.denial_is_kept]), whose precedence is
      [Launch.settings_precedence]; discovery registers a host once
      ([Launch.discovery_registers_once]); the day traffic is counted from is
      the last reset date ([Traffic.last_reset_is_the_latest]).
    - [LocalAuth.Verify_rests_on_a_command], [Probes.route_is_faithful],
      [Resolver.dial_follows_preference] and [clients_match_their_settings],
      [Update.selected_release_is_newest].
    - Where the code does not do what it means to, a theorem says what it does
      instead: [Signing.Verify_replay_window],
      [repeated_signature_meets_threshold],
      [Uploads.failed_sync_then_retry_zeroes], [NetStatic.purge_window],
      [ForceReplaceRecord_nil_panics], [Retry.auth_wait_below_floor],
      [clampHint_exceeds_cap], [Credentials.CommitRefresh_error],
      [Privileged.commit_locked_out_after_flush_failure], [Files.mode_bits],
      [HostApplied.dotted_service_escapes],
      [Baseline.reconcile_without_store_panics],
      [Renewal.renewal_spins_without_token], [short_lived_token_is_due],
      [Dpop.retried_stream_has_no_body],
      [SessionDemo.redelivered_assignment_reported_failed],
      [RescueSsh.failed_removal_forgets_window],
      [unreadable_deadline_never_closes], [RescueDemo.second_grant_forgets_first],
      [RemoteSession.close_overtakes_output],
      [Telemetry.denial_after_refresh_is_ridden_out],
      [WorkspaceDemo.idle_scope_changes_account],
      [LocalAuth.root_verifies_nobody], [Subscriptions.failed_ack_is_passed_over],
      [FileDemo.move_over_parent_loses_data], [copy_into_itself_through_link],
      [Launch.unparsable_denial_is_ignored],
      [discovery_token_is_world_readable], [verification_ignores_the_rest].

    ** Bounds and fuel

    Recursions are structural, most of them on lists. Four of the basic ones take fuel:
    [GoStd.utoa_go] (twenty digits are enough for every 64-bit integer),
    [HostOps.trusted_go] (the length of the path, more than it has ancestors;
    [trusted_go_spec] holds for any fuel above that number), [Replay.evict] (the
    size of the map, one entry per iteration) and [Retry.backoff_loop] (the
    doublings the source makes). A loop that waits for the outside (enrollment
    polling) is driven by the list of answers it receives; a map ranged over in
    Go's unspecified order is an arbitrary permutation ([iter]). In the host
    tool: [HostSeal.seal] recurses on the nine levels the depth limit admits,
    [HostFs.ensure_dir] on the elements of the path plus two (more than it needs:
    [ensure_dir_terminates]), the loops of [verifyService] (30), [waitHelper]
    (60) and the upgrade check (5) count what the source counts, and
    [HostInstall.eval_links] stops at the 255 links of [filepath.EvalSymlinks].

    What answers from outside is an oracle: a function of the number of the call
    or step ([Outside], [System], [AuthHost], the machine of [Rescue]), so that
    theorems hold for every answer. Concurrent goroutines are sequences of
    their steps in any order ([Workspace], [Worker], [RemoteSession],
    [Executions], [RescueWatch]); loops that run for the life of the daemon take
    a number of turns and their theorems hold for any ([Telemetry],
    [Subscriptions], [Polls]). [Delivery.flush_runtime] is given one turn more
    than its queue has entries, which its theorem shows to be enough; reports of
    an execution are tried three times, as in the source.
    [FileTree.walk_dir] and [remove_all] recurse on a depth: running out is the
    error [Unfinished], apart from every other, and theorems about success
    exclude it. [Update.list_pages] takes the number of pages ([listing_ends]
    says how many are enough).

    ** What is not modelled

    Sockets, HTTP, gRPC streams, pseudo-terminals and processes are parameters;
    so are PAM, sudo, firewall tools and packet parsers. Not modelled at all:
    the readings of [/proc], vendor tools and libraries in [monitoring/unit]
    (all but the interfaces of [net.go]);
    Windows variants; [terminal/file_manager.go], which nothing uses since
    [files/] replaced it; the text commands print and the parsing of their flags;
    the description of the device sent at enrolment; compression. File
    ownership and permissions beyond the mode bits are modelled in [Inodes],
    [HostFs] and [FileTree] only; permission checks of the kernel are refusals of
    its oracle. Other processes changing the protected directories while the
    host tool runs are not considered (only root can; services the tool starts
    change files through [e_daemon]). *)

From Stdlib Require Export ZArith Lia.
From stdpp Require Export base tactics gmap fin_maps strings list.

#[export] Set Default Goal Selector "!".

(** ** Fallible results

    A Go function that returns [(T, error)] is modelled as [result T E], with
    one error constructor per distinct failure of the component. *)

Inductive result (A E : Type) : Type :=
| Ok (a : A)
| Err (e : E).
Arguments Ok {A E} _.
Arguments Err {A E} _.

Definition is_ok {A E} (r : result A E) : bool :=
  match r with Ok _ => true | Err _ => false end.

Definition result_map_err {A E F} (f : E -> F) (r : result A E) : result A F :=
  match r with Ok a => Ok a | Err e => Err (f e) end.

Declare Scope go_scope.
Delimit Scope go_scope with go.

(** [guard? c else e in k]: the early return [if !c { return e }]. *)
Notation "'guard?' c 'else' e 'in' k" :=
  (if c then k else Err e) (at level 10, c at level 100, e at level 100, k at level 200) : go_scope.
(** [try? p := m in k]: the idiom [p, err := m; if err != nil { return err }]. *)
Notation "'try?' p ':=' m 'in' k" :=
  (match m with Ok p => k | Err err_ => Err err_ end)
    (at level 10, p pattern, m at level 100, k at level 200) : go_scope.
Global Open Scope go_scope.

(** ** Case-analysis automation *)

(** [break_match] splits on one [match]/[if] of the goal or of a hypothesis. *)
Ltac break_match_in H :=
  match type of H with
  | context [match ?x with _ => _ end] => let E := fresh "E" in destruct x eqn:E
  end.
Ltac break_match_goal :=
  match goal with
  | |- context [match ?x with _ => _ end] => let E := fresh "E" in destruct x eqn:E
  end.
Ltac break_match :=
  match goal with
  | H : context [match ?x with _ => _ end] |- _ => let E := fresh "E" in destruct x eqn:E
  | |- context [match ?x with _ => _ end] => let E := fresh "E" in destruct x eqn:E
  end.

(** Peel the guards of a hypothesis [H : ... = Ok _]; every failing branch is
    closed by discrimination. *)
Ltac ok_inv H :=
  repeat (break_match_in H; try discriminate H; simplify_eq/=).

(** Boolean hypotheses to propositions. *)
Create HintDb go_bool.
#[export] Hint Rewrite
  andb_true_iff andb_false_iff orb_true_iff orb_false_iff negb_true_iff negb_false_iff
  Z.ltb_lt Z.ltb_ge Z.leb_le Z.leb_gt Z.eqb_eq Z.eqb_neq
  Nat.ltb_lt Nat.ltb_ge Nat.leb_le Nat.leb_gt Nat.eqb_eq Nat.eqb_neq
  String.eqb_eq String.eqb_neq bool_decide_eq_true bool_decide_eq_false : go_bool.

Ltac bool_hyps :=
  autorewrite with go_bool in *; destruct_and?; simplify_eq/=.

(** Close arithmetic goals that mix boolean and propositional comparisons. *)
Ltac zbool := bool_hyps; try lia.

(** ** Generic lemmas *)

Lemma is_ok_true {A E} (r : result A E) : is_ok r = true <-> exists a, r = Ok a.
Proof. destruct r; simpl; naive_solver. Qed.

Lemma existsb_In {A} (f : A -> bool) l :
  existsb f l = true <-> exists x, x ∈ l /\ f x = true.
Proof.
  rewrite existsb_exists. setoid_rewrite list_elem_of_In. done.
Qed.

Lemma forallb_In {A} (f : A -> bool) l :
  forallb f l = true <-> forall x, x ∈ l -> f x = true.
Proof.
  rewrite forallb_forall. setoid_rewrite list_elem_of_In. done.
Qed.

Lemma exists_cons {A} (P : A -> Prop) x l :
  (exists y, y ∈ x :: l /\ P y) <-> P x \/ exists y, y ∈ l /\ P y.
Proof.
  split.
  - intros (y & [->|Hy]%elem_of_cons & HP); eauto.
  - intros [HP|(y & Hy & HP)]; [exists x|exists y]; (split; [apply elem_of_cons; auto|done]).
Qed.

Lemma length_filter_le {A} (P : A -> Prop) `{!forall x, Decision (P x)} (l : list A) :
  (length (filter P l) <= length l)%nat.
Proof.
  induction l as [|x l IH]; [done|].
  rewrite filter_cons. case_decide; simpl; lia.
Qed.

(** A run [x] whose outcome is [a], as an equation on the whole triple: lets a
    closed instance evaluate the outcome without normalising the states. *)
Lemma run_outcome {A B C} (x : A * B * C) a : fst (fst x) = a -> x = (a, snd (fst x), snd x).
Proof. by destruct x as [[? ?] ?]; simpl; intros ->. Qed.
Lemma run_outcome2 {A B} (x : A * B) a : fst x = a -> x = (a, snd x).
Proof. by destruct x as [? ?]; simpl; intros ->. Qed.

(** The last [n] elements of a list, as a Go slice [s[len(s)-n:]]. *)
Definition last_n {A} (n : nat) (l : list A) : list A := drop (length l - n) l.

Lemma length_last_n {A} n (l : list A) : length (last_n n l) = Nat.min n (length l).
Proof. unfold last_n. rewrite length_drop. lia. Qed.

Lemma last_n_suffix {A} n (l : list A) : last_n n l `suffix_of` l.
Proof. exists (take (length l - n) l). unfold last_n. by rewrite take_drop. Qed.

Lemma elem_of_rev {A} (x : A) l : x ∈ rev l <-> x ∈ l.
Proof. rewrite !list_elem_of_In. symmetry. apply in_rev. Qed.

Lemma filter_all {A} (f : A -> bool) l : (forall x, x ∈ l -> f x = true) -> List.filter f l = l.
Proof.
  induction l as [|x l IH]; intros H; simpl; [done|].
  rewrite (H x) by (by left). f_equal. apply IH. intros y Hy. apply H. by right.
Qed.
