(* ===== verification/GoStd.v ===== *)
(** * The parts of Go and of its standard library that the agent uses

    Strings are byte strings ([string]), integers are [Z] with the wrap-around
    of their width written out, [time.Time] is the instant in nanoseconds since
    Go's zero time (January 1, year 1, UTC) and [time.Duration] is a signed
    64-bit number of nanoseconds. *)

From Stdlib Require Export Ascii.
From Stdlib Require String.
From S2P Require Import Prelude.

Local Open Scope string_scope.
Local Open Scope Z_scope.

(** ** Fixed-width integers *)

Definition max_int64 : Z := 2 ^ 63 - 1.
Definition min_int64 : Z := - 2 ^ 63.
Definition max_uint64 : Z := 2 ^ 64 - 1.

Definition wrap64 (z : Z) : Z := (z + 2 ^ 63) mod 2 ^ 64 - 2 ^ 63.
Definition wrapu64 (z : Z) : Z := z mod 2 ^ 64.
Definition wrapu32 (z : Z) : Z := z mod 2 ^ 32.

Definition is_int64 (z : Z) : Prop := min_int64 <= z <= max_int64.
Definition is_uint64 (z : Z) : Prop := 0 <= z <= max_uint64.

(** Go's signed division truncates towards zero. *)
Definition idiv (a b : Z) : Z := Z.quot a b.

Lemma wrap64_range z : is_int64 (wrap64 z).
Proof.
  unfold is_int64, wrap64, min_int64, max_int64.
  pose proof (Z.mod_pos_bound (z + 2 ^ 63) (2 ^ 64) ltac:(lia)). lia.
Qed.

Lemma wrap64_id z : is_int64 z -> wrap64 z = z.
Proof.
  unfold is_int64, wrap64, min_int64, max_int64. intros H.
  rewrite Z.mod_small; lia.
Qed.

Lemma wrapu64_range z : is_uint64 (wrapu64 z).
Proof.
  unfold is_uint64, wrapu64, max_uint64.
  pose proof (Z.mod_pos_bound z (2 ^ 64) ltac:(lia)). lia.
Qed.

Lemma wrapu64_id z : is_uint64 z -> wrapu64 z = z.
Proof. unfold is_uint64, wrapu64, max_uint64. intros. apply Z.mod_small. lia. Qed.

Lemma wrapu64_add_l a b : wrapu64 (wrapu64 a + b) = wrapu64 (a + b).
Proof. unfold wrapu64. apply Zplus_mod_idemp_l. Qed.

Lemma wrapu64_add_r a b : wrapu64 (a + wrapu64 b) = wrapu64 (a + b).
Proof. unfold wrapu64. apply Zplus_mod_idemp_r. Qed.

Create HintDb go_int.
#[export] Hint Resolve wrap64_range wrapu64_range : go_int.
#[export] Hint Rewrite wrapu64_add_l wrapu64_add_r : go_int.

(** ** Time *)

Abbreviation time := Z (only parsing).
Abbreviation duration := Z (only parsing).

Definition millisecond : duration := 1000000.
Definition second : duration := 1000000000.
Definition minute : duration := 60 * second.
Definition hour : duration := 60 * minute.

Definition zero_time : time := 0.
Definition is_zero (t : time) : bool := t =? 0.
Definition before (t u : time) : bool := t <? u.
Definition after (t u : time) : bool := u <? t.
Definition t_add (t : time) (d : duration) : time := t + d.
(** [t.Unix()]: seconds since 1970, as an [int64]. *)
Definition unix_epoch_seconds : Z := 62135596800.
Definition t_unix (t : time) : Z := t / second - unix_epoch_seconds.

#[export] Hint Unfold is_zero before after t_add zero_time : core.

(** Unfold the time comparisons and let [lia] finish. *)
Ltac tlia :=
  unfold is_zero, before, after, t_add, zero_time in *; zbool.

(** ** Strings *)

Abbreviation bytes := string (only parsing).
Definition chars (s : string) : list ascii := String.list_ascii_of_string s.
Definition of_chars (l : list ascii) : string := String.string_of_list_ascii l.
Definition slen (s : string) : Z := Z.of_nat (String.length s).
Definition byte_of (n : nat) : ascii := ascii_of_nat n.
Definition code (a : ascii) : nat := nat_of_ascii a.

Definition has_prefix (s p : string) : bool := String.prefix p s.
Definition trim_prefix (s p : string) : string :=
  if has_prefix s p then of_chars (drop (String.length p) (chars s)) else s.
Definition srev (s : string) : string := of_chars (rev (chars s)).
Definition has_suffix (s p : string) : bool := has_prefix (srev s) (srev p).
Definition trim_suffix (s p : string) : string :=
  if has_suffix s p then of_chars (take (String.length s - String.length p) (chars s)) else s.

Fixpoint contains (s sub : string) : bool :=
  String.prefix sub s ||
  match s with EmptyString => false | String _ r => contains r sub end.

Definition count_char (c : ascii) (s : string) : nat :=
  length (filter (fun a => a = c) (chars s)).

(** [strings.Split(s, sep)] for a one-byte separator. *)
Fixpoint split_go (c : ascii) (acc : list ascii) (l : list ascii) : list string :=
  match l with
  | [] => [of_chars (rev acc)]
  | a :: r => if Ascii.eqb a c then of_chars (rev acc) :: split_go c [] r
              else split_go c (a :: acc) r
  end.
Definition split_on (c : ascii) (s : string) : list string := split_go c [] (chars s).

(** [strings.Join(parts, sep)]. *)
Fixpoint join (sep : string) (parts : list string) : string :=
  match parts with
  | [] => ""
  | [p] => p
  | p :: ps => p ++ sep ++ join sep ps
  end.

(** [strings.TrimSpace] removes the UTF-8 encodings of Unicode White_Space:
    the six ASCII ones, U+0085, U+00A0, U+1680, U+2000..U+200A, U+2028, U+2029,
    U+202F, U+205F and U+3000. [space1 a], [space2 a b], [space3 a b c] are the
    one-, two- and three-byte encodings. *)
Definition space1 (a : ascii) : bool :=
  let n := code a in (Nat.leb 9 n && Nat.leb n 13) || Nat.eqb n 32.
Definition space2 (a b : ascii) : bool :=
  Nat.eqb (code a) 194 && (Nat.eqb (code b) 133 || Nat.eqb (code b) 160).
Definition space3 (a b c : ascii) : bool :=
  let x := code a in let y := code b in let z := code c in
  (Nat.eqb x 225 && Nat.eqb y 154 && Nat.eqb z 128) ||
  (Nat.eqb x 226 && Nat.eqb y 128 &&
     ((Nat.leb 128 z && Nat.leb z 138) || Nat.eqb z 168 || Nat.eqb z 169 || Nat.eqb z 175)) ||
  (Nat.eqb x 226 && Nat.eqb y 129 && Nat.eqb z 159) ||
  (Nat.eqb x 227 && Nat.eqb y 128 && Nat.eqb z 128).

(** Strip leading spaces; [rv] reads multi-byte encodings backwards, which is
    how the right-hand side is trimmed on the reversed string. *)
Fixpoint drop_spaces (rv : bool) (l : list ascii) : list ascii :=
  match l with
  | [] => []
  | a :: r1 =>
      if space1 a then drop_spaces rv r1 else
      match r1 with
      | [] => l
      | b :: r2 =>
          if (if rv then space2 b a else space2 a b) then drop_spaces rv r2 else
          match r2 with
          | [] => l
          | c :: r3 =>
              if (if rv then space3 c b a else space3 a b c) then drop_spaces rv r3 else l
          end
      end
  end.
Definition trim_space (s : string) : string :=
  of_chars (rev (drop_spaces true (rev (drop_spaces false (chars s))))).
Definition blank (s : string) : bool := (trim_space s =? "")%string.

(** ** Number formatting and parsing *)

Definition digit (n : nat) : ascii := byte_of (48 + n).

Fixpoint utoa_go (fuel : nat) (n : Z) (acc : list ascii) : list ascii :=
  match fuel with
  | O => acc
  | S f => let acc' := digit (Z.to_nat (n mod 10)) :: acc in
           if n / 10 =? 0 then acc' else utoa_go f (n / 10) acc'
  end.
(** Decimal rendering; 20 digits are enough for every 64-bit integer. *)
Definition utoa (n : Z) : string := of_chars (utoa_go 20 n []).
Definition itoa (n : Z) : string := if n <? 0 then "-" ++ utoa (- n) else utoa n.

(** [strconv.ParseUint(s, 8, 32)]: octal digits only, failing on overflow. *)
Fixpoint parse_octal_go (acc : Z) (l : list ascii) : option Z :=
  match l with
  | [] => Some acc
  | a :: r =>
      let d := Z.of_nat (code a) - 48 in
      if (0 <=? d) && (d <=? 7) then
        let acc' := acc * 8 + d in
        if acc' <? 2 ^ 32 then parse_octal_go acc' r else None
      else None
  end.
Definition parse_octal32 (s : string) : option Z :=
  match chars s with [] => None | l => parse_octal_go 0 l end.

(** [strconv.Atoi]: optional sign, decimal digits, 64-bit range. *)
Fixpoint parse_dec_go (acc : Z) (l : list ascii) : option Z :=
  match l with
  | [] => Some acc
  | a :: r =>
      let d := Z.of_nat (code a) - 48 in
      if (0 <=? d) && (d <=? 9) then parse_dec_go (acc * 10 + d) r else None
  end.
Definition parse_udec (l : list ascii) : option Z :=
  match l with [] => None | _ => parse_dec_go 0 l end.
Definition atoi (s : string) : option Z :=
  let signed :=
    match chars s with
    | "-"%char :: r => option_map Z.opp (parse_udec r)
    | "+"%char :: r => parse_udec r
    | l => parse_udec l
    end in
  match signed with
  | Some z => if (min_int64 <=? z) && (z <=? max_int64) then Some z else None
  | None => None
  end.

(** ** Hexadecimal and base64 *)

Definition hex_digit (n : nat) : ascii :=
  if Nat.ltb n 10 then byte_of (48 + n) else byte_of (87 + n).
Fixpoint hex_encode (s : string) : string :=
  match s with
  | EmptyString => EmptyString
  | String a r =>
      String (hex_digit (Nat.div (code a) 16)) (String (hex_digit (Nat.modulo (code a) 16)) (hex_encode r))
  end.

(** Big-endian bytes of a 32-bit word ([binary.BigEndian.AppendUint32]). *)
Definition be32 (z : Z) : string :=
  of_chars (map (fun k => byte_of (Z.to_nat (Z.land (Z.shiftr z k) 255))) [24; 16; 8; 0]).

Definition b64_alphabet (n : Z) : ascii :=
  if n <? 26 then byte_of (Z.to_nat (65 + n))
  else if n <? 52 then byte_of (Z.to_nat (71 + n))
  else if n <? 62 then byte_of (Z.to_nat (n - 4))
  else if n =? 62 then "+"%char else "/"%char.
Definition b64_value (a : ascii) : option Z :=
  let n := Z.of_nat (code a) in
  if (65 <=? n) && (n <=? 90) then Some (n - 65)
  else if (97 <=? n) && (n <=? 122) then Some (n - 71)
  else if (48 <=? n) && (n <=? 57) then Some (n + 4)
  else if n =? 43 then Some 62 else if n =? 47 then Some 63 else None.
Definition b64_word (a b c d : Z) : Z := a * 262144 + b * 4096 + c * 64 + d.

(** [base64.StdEncoding.EncodeToString]. *)
Fixpoint b64_encode_go (l : list ascii) : list ascii :=
  match l with
  | [] => []
  | [x] => let v := Z.of_nat (code x) * 65536 in
           [b64_alphabet (v / 262144); b64_alphabet (v / 4096 mod 64); "="%char; "="%char]
  | [x; y] => let v := Z.of_nat (code x) * 65536 + Z.of_nat (code y) * 256 in
              [b64_alphabet (v / 262144); b64_alphabet (v / 4096 mod 64);
               b64_alphabet (v / 64 mod 64); "="%char]
  | x :: y :: z :: r =>
      let v := Z.of_nat (code x) * 65536 + Z.of_nat (code y) * 256 + Z.of_nat (code z) in
      b64_alphabet (v / 262144) :: b64_alphabet (v / 4096 mod 64) ::
      b64_alphabet (v / 64 mod 64) :: b64_alphabet (v mod 64) :: b64_encode_go r
  end.
Definition b64_encode (s : string) : string := of_chars (b64_encode_go (chars s)).

(** [base64.StdEncoding.DecodeString]: carriage returns and newlines are
    skipped, padding is mandatory and nothing may follow it. *)
Fixpoint b64_decode_go (l : list ascii) : option (list ascii) :=
  let byte z := byte_of (Z.to_nat (z mod 256)) in
  match l with
  | [] => Some []
  | a :: b :: c :: d :: r =>
      match b64_value a, b64_value b with
      | Some a, Some b =>
          if Ascii.eqb c "="%char then
            if Ascii.eqb d "="%char && match r with [] => true | _ => false end
            then Some [byte (b64_word a b 0 0 / 65536)] else None
          else match b64_value c with
          | None => None
          | Some c =>
              if Ascii.eqb d "="%char then
                match r with
                | [] => let v := b64_word a b c 0 in Some [byte (v / 65536); byte (v / 256)]
                | _ => None
                end
              else match b64_value d with
              | None => None
              | Some d =>
                  let v := b64_word a b c d in
                  match b64_decode_go r with
                  | Some t => Some (byte (v / 65536) :: byte (v / 256) :: byte v :: t)
                  | None => None
                  end
              end
          end
      | _, _ => None
      end
  | _ => None
  end.
Definition is_newline (a : ascii) : bool := Nat.eqb (code a) 10 || Nat.eqb (code a) 13.
Definition b64_decode (s : string) : option string :=
  option_map of_chars (b64_decode_go (List.filter (fun a => negb (is_newline a)) (chars s))).

Example b64_ex : b64_encode "komari!" = "a29tYXJpIQ==" /\ b64_decode "a29tYXJpIQ==" = Some "komari!".
Proof. split; reflexivity. Qed.
Example trim_ex : trim_space "  a b	 " = "a b".
Proof. reflexivity. Qed.
Example itoa_ex : itoa (-120) = "-120" /\ itoa 0 = "0" /\ atoi "-17" = Some (-17) /\ atoi "1x" = None.
Proof. repeat split; reflexivity. Qed.

(** ** Lemmas about the string functions *)

Lemma chars_of_chars l : chars (of_chars l) = l.
Proof. apply String.list_ascii_of_string_of_list_ascii. Qed.
Lemma of_chars_chars s : of_chars (chars s) = s.
Proof. apply String.string_of_list_ascii_of_string. Qed.
Create HintDb go_string.
#[export] Hint Rewrite chars_of_chars of_chars_chars : go_string.

Lemma chars_app s t : chars (s ++ t) = (chars s ++ chars t)%list.
Proof. induction s; simpl; [done|]. by rewrite IHs. Qed.

Lemma prefix_iff p s : String.prefix p s = true <-> exists r, s = p ++ r.
Proof.
  revert s. induction p as [|a p IH]; intros s; simpl.
  - split; [by eauto|]. by destruct s.
  - destruct s as [|b s]; simpl.
    + split; [done|]. by intros [r ?].
    + destruct (ascii_dec a b) as [->|Hne].
      * rewrite IH. split; intros [r Hr]; exists r; [by rewrite Hr|by injection Hr].
      * split; [done|]. intros [r Hr]. by injection Hr as ? ?.
Qed.

Lemma trim_prefix_app p s : trim_prefix (p ++ s) p = s.
Proof.
  unfold trim_prefix, has_prefix.
  replace (String.prefix p (p ++ s)) with true by (symmetry; apply prefix_iff; eauto).
  rewrite chars_app.
  assert (Hl : length (chars p) = String.length p) by (induction p; simpl; congruence).
  rewrite drop_app_length'; [|done]. apply of_chars_chars.
Qed.

Lemma hex_digit_inj m n : (m < 16)%nat -> (n < 16)%nat -> hex_digit m = hex_digit n -> m = n.
Proof.
  intros Hm Hn He. apply (f_equal nat_of_ascii) in He. unfold hex_digit, byte_of in He.
  destruct (Nat.ltb_spec m 10), (Nat.ltb_spec n 10); rewrite !nat_ascii_embedding in He; lia.
Qed.

Lemma hex_encode_inj s t : hex_encode s = hex_encode t -> s = t.
Proof.
  revert t. induction s as [|a s IH]; intros [|b t]; try done. cbn [hex_encode]. intros He.
  assert (H1 : hex_digit (Nat.div (code a) 16) = hex_digit (Nat.div (code b) 16)) by congruence.
  assert (H2 : hex_digit (Nat.modulo (code a) 16) = hex_digit (Nat.modulo (code b) 16)) by congruence.
  assert (H3 : hex_encode s = hex_encode t) by congruence.
  assert (Hc : forall x, (code x < 256)%nat) by (intros x; apply nat_ascii_bounded).
  pose proof (Hc a). pose proof (Hc b).
  apply hex_digit_inj in H1; [|apply Nat.Div0.div_lt_upper_bound; lia|apply Nat.Div0.div_lt_upper_bound; lia].
  apply hex_digit_inj in H2; [|apply Nat.mod_upper_bound; lia|apply Nat.mod_upper_bound; lia].
  rewrite (IH t H3). f_equal.
  assert (code a = code b) as Hab by (rewrite (Nat.div_mod_eq (code a) 16), (Nat.div_mod_eq (code b) 16); lia).
  unfold code in Hab. rewrite <- (ascii_nat_embedding a), <- (ascii_nat_embedding b). by rewrite Hab.
Qed.

Lemma slen_zero s : slen s = 0 <-> s = "".
Proof. unfold slen. destruct s; simpl; split; [done|done|lia|done]. Qed.

(** ** Decimal numbers are read back *)

Lemma parse_dec_digit d acc l : 0 <= d < 10 -> parse_dec_go acc (digit (Z.to_nat d) :: l) = parse_dec_go (acc * 10 + d) l.
Proof.
  intros Hd. assert (d = 0 \/ d = 1 \/ d = 2 \/ d = 3 \/ d = 4 \/ d = 5 \/ d = 6 \/ d = 7 \/ d = 8 \/ d = 9) as Hc by lia.
  destruct Hc as [->|[->|[->|[->|[->|[->|[->|[->|[->| ->]]]]]]]]]; reflexivity.
Qed.
Lemma parse_utoa_go fuel n acc a :
  0 <= n < 10 ^ Z.of_nat fuel -> (0 < fuel)%nat ->
  exists k, parse_dec_go a (utoa_go fuel n acc) = parse_dec_go (a * k + n) acc.
Proof.
  revert n acc a. induction fuel as [|fuel IH]; intros n acc a Hn Hf; [lia|]. cbn [utoa_go].
  pose proof (Z.mod_pos_bound n 10 ltac:(lia)) as Hm. pose proof (Z.div_mod n 10 ltac:(lia)) as Hd.
  destruct (Z.eqb_spec (n / 10) 0) as [H0|H0].
  - exists 10. rewrite parse_dec_digit by done. f_equal. lia.
  - assert (Hlt : 0 <= n / 10 < 10 ^ Z.of_nat fuel).
    { split; [apply Z.div_pos; lia|]. apply Z.div_lt_upper_bound; [lia|]. rewrite Nat2Z.inj_succ, Z.pow_succ_r in Hn by lia. lia. }
    destruct fuel as [|fuel]; [simpl in Hlt; lia|].
    destruct (IH (n / 10) (digit (Z.to_nat (n mod 10)) :: acc) a Hlt ltac:(lia)) as [k ->].
    exists (k * 10). rewrite parse_dec_digit by done. f_equal. lia.
Qed.
Lemma utoa_go_nonempty fuel n acc : (0 < fuel)%nat -> utoa_go fuel n acc <> [].
Proof.
  revert n acc. induction fuel as [|fuel IH]; intros n acc Hf; [lia|]. cbn [utoa_go]. destruct (n / 10 =? 0); [done|].
  destruct fuel; [done|]. apply IH. lia.
Qed.
Lemma parse_udec_utoa n : 0 <= n < 2 ^ 64 -> parse_udec (chars (utoa n)) = Some n.
Proof.
  intros Hn. unfold utoa. rewrite chars_of_chars. pose proof (utoa_go_nonempty 20 n [] ltac:(lia)) as Hne.
  unfold parse_udec. destruct (parse_utoa_go 20 n [] 0) as [k Hk]; [lia..|]. destruct (utoa_go 20 n []); [done|]. exact Hk.
Qed.
Lemma utoa_inj m n : 0 <= m < 2 ^ 32 -> 0 <= n < 2 ^ 32 -> utoa m = utoa n -> m = n.
Proof.
  intros Hm Hn H. apply (f_equal (fun s => parse_udec (chars s))) in H. rewrite !parse_udec_utoa in H by lia. by injection H.
Qed.
