(* ===== verification/GoPath.v ===== *)
(** * [path/filepath] on Unix

    Lexical path operations: a path is split at its separators into elements,
    as [filepath.Clean] does with its index loop. *)

From S2P Require Import Prelude.
From S2P Require Import GoStd.

Local Open Scope string_scope.
Local Open Scope Z_scope.

Definition sep : ascii := "/"%char.
Definition sep_str : string := "/".

(** [filepath.IsAbs]. *)
Definition is_abs (p : string) : bool := has_prefix p sep_str.

(** One step of [Clean]: [stack] holds the kept elements, last first. *)
Definition clean_step (rooted : bool) (stack : list string) (e : string) : list string :=
  if (e =? "")%string || (e =? ".")%string then stack
  else if (e =? "..")%string then
    match stack with
    | top :: rest => if (top =? "..")%string then ".." :: stack else rest
    | [] => if rooted then [] else [".."]
    end
  else e :: stack.

Definition clean_elems (rooted : bool) (es : list string) : list string :=
  rev (fold_left (clean_step rooted) es []).

Definition elems (p : string) : list string := clean_elems (is_abs p) (split_on sep p).

(** [filepath.Clean]. *)
Definition clean (p : string) : string :=
  match is_abs p, elems p with
  | true, es => "/" ++ join "/" es
  | false, [] => "."
  | false, es => join "/" es
  end.

(** [strings.LastIndex] of the separator: what precedes it (included) and what
    follows it. *)
Fixpoint split_last_go (l : list ascii) (before cur : list ascii) : list ascii * list ascii :=
  match l with
  | [] => (before, cur)
  | a :: r => if Ascii.eqb a sep then split_last_go r (before ++ cur ++ [a]) []
              else split_last_go r before (cur ++ [a])
  end%list.
Definition split_last (p : string) : string * string :=
  let '(d, b) := split_last_go (chars p) [] [] in (of_chars d, of_chars b).

(** [filepath.Dir]. *)
Definition dir (p : string) : string := clean (fst (split_last p)).

(** [filepath.Base]. *)
Fixpoint strip_seps (l : list ascii) : list ascii :=
  match l with
  | a :: r => if Ascii.eqb a sep then strip_seps r else l
  | [] => []
  end.
Definition base (p : string) : string :=
  if (p =? "")%string then "." else
  let stripped := of_chars (rev (strip_seps (rev (chars p)))) in
  let b := snd (split_last stripped) in
  if (b =? "")%string then "/" else b.

(** [filepath.Join]. *)
Definition join_path (es : list string) : string :=
  match List.filter (fun e => negb (e =? "")%string) es with
  | [] => ""
  | es' => clean (join "/" es')
  end.

(** [filepath.Rel]: [None] is the error result. *)
Fixpoint strip_common (b t : list string) : list string * list string :=
  match b, t with
  | x :: b', y :: t' => if (x =? y)%string then strip_common b' t' else (b, t)
  | _, _ => (b, t)
  end.
Definition rel (basepath targpath : string) : option string :=
  let b := clean basepath in
  let t := clean targpath in
  if (b =? t)%string then Some "." else
  if negb (Bool.eqb (is_abs b) (is_abs t)) then None else
  match strip_common (elems b) (elems t) with
  | ([], rest) => Some (join "/" rest)
  | (x :: up, rest) =>
      if (x =? "..")%string then None
      else Some (join "/" (map (fun _ => "..") (x :: up) ++ rest))%list
  end.

Example clean_ex : map clean ["a//b/./c/.."; "/../x"; "../../y"; ""; "/"] = ["a/b"; "/x"; "../../y"; "."; "/"].
Proof. vm_compute. reflexivity. Qed.
Example dir_ex : map dir ["/opt/k/c.json"; "c.json"; "/c"] = ["/opt/k"; "."; "/"].
Proof. vm_compute. reflexivity. Qed.
Example rel_ex : rel "/a/b" "/a/b/c/d" = Some "c/d" /\ rel "/a/b" "/a/x" = Some "../x" /\ rel "/a" "b" = None.
Proof. repeat split; vm_compute; reflexivity. Qed.
Example base_ex : map base ["/a/b.txt"; "/"; "a/"; ""] = ["b.txt"; "/"; "a"; "."].
Proof. vm_compute. reflexivity. Qed.

(** ** Clean absolute paths *)

(** An element a cleaned absolute path may contain. *)
Definition plain (e : string) : Prop := e <> "" /\ e <> "." /\ e <> ".." /\ sep ∉ chars e.
Definition abs_path (es : list string) : string := "/" ++ join "/" es.

Lemma split_go_app acc l : sep ∉ l -> forall r, split_go sep acc (l ++ sep :: r)%list = of_chars (rev acc ++ l)%list :: split_go sep [] r.
Proof.
  revert acc. induction l as [|a l IH]; intros acc Hl r; simpl.
  - by rewrite app_nil_r.
  - apply not_elem_of_cons in Hl as [Ha Hl]. destruct (Ascii.eqb_spec a sep) as [->|_]; [done|].
    rewrite IH by done. simpl. by rewrite <- app_assoc.
Qed.
Lemma split_go_last acc l : sep ∉ l -> split_go sep acc l = [of_chars (rev acc ++ l)%list].
Proof.
  revert acc. induction l as [|a l IH]; intros acc Hl; simpl; [by rewrite app_nil_r|].
  apply not_elem_of_cons in Hl as [Ha Hl]. destruct (Ascii.eqb_spec a sep) as [->|_]; [done|].
  rewrite IH by done. simpl. by rewrite <- app_assoc.
Qed.
Lemma split_go_plain acc l e : e ∈ split_go sep acc l -> sep ∉ acc -> sep ∉ chars e.
Proof.
  revert acc. induction l as [|a l IH]; intros acc; simpl.
  - intros ->%list_elem_of_singleton Ha. rewrite chars_of_chars, elem_of_rev. done.
  - destruct (Ascii.eqb_spec a sep) as [->|Hne].
    + intros [->|He]%elem_of_cons Ha; [by rewrite chars_of_chars, elem_of_rev|]. eapply IH; [done|]. apply not_elem_of_nil.
    + intros He Ha. eapply IH; [done|]. apply not_elem_of_cons. done.
Qed.

Lemma plain_join_sep e es : plain e -> Forall plain es ->
  split_go sep [] (chars (join "/" (e :: es))) = e :: es.
Proof.
  revert e. induction es as [|e' es IH]; intros e He Hes; simpl.
  - rewrite split_go_last by apply He. simpl. by rewrite of_chars_chars.
  - apply Forall_cons in Hes as [He' Hes]. rewrite chars_app.
    change (chars ("/" ++ ?s)) with (sep :: chars s).
    rewrite split_go_app by apply He. simpl. rewrite of_chars_chars. f_equal. by apply IH.
Qed.

Lemma fold_plain es stack : Forall plain es -> fold_left (clean_step true) es stack = (rev es ++ stack)%list.
Proof.
  revert stack. induction es as [|e es IH]; intros stack Hall; simpl; [done|].
  apply Forall_cons in Hall as [(H1 & H2 & H3 & _) Hall]. rewrite IH by done. unfold clean_step.
  rewrite (proj2 (String.eqb_neq _ _) H1), (proj2 (String.eqb_neq _ _) H2), (proj2 (String.eqb_neq _ _) H3).
  simpl. by rewrite <- app_assoc.
Qed.

Lemma clean_step_plain stack e :
  sep ∉ chars e -> Forall plain stack -> Forall plain (clean_step true stack e).
Proof.
  intros Hs Hall. unfold clean_step.
  destruct (e =? "")%string eqn:E1; [done|]. destruct (e =? ".")%string eqn:E2; [done|]. simpl.
  destruct (e =? "..")%string eqn:E3.
  - destruct stack as [|top rest]; [done|]. apply Forall_cons in Hall as [(_ & _ & Ht & _) Hall].
    by rewrite (proj2 (String.eqb_neq _ _) Ht).
  - constructor; [|done]. apply String.eqb_neq in E1, E2, E3. done.
Qed.

(** [clean] of an absolute path is the canonical path of its plain elements. *)
Lemma elems_plain p : is_abs p = true -> Forall plain (elems p).
Proof.
  intros Hp. unfold elems, clean_elems. rewrite Hp.
  assert (Hall : forall es stack, Forall (fun e => sep ∉ chars e) es -> Forall plain stack ->
    Forall plain (fold_left (clean_step true) es stack)).
  { induction es as [|e es IH]; intros stack He Hs; simpl; [done|]. apply Forall_cons in He as [He Hes].
    apply IH; [done|]. by apply clean_step_plain. }
  apply Forall_rev, Hall; [|constructor]. apply Forall_forall. intros e He.
  eapply split_go_plain; [exact He|]. apply not_elem_of_nil.
Qed.
Lemma clean_abs p : is_abs p = true -> clean p = abs_path (elems p).
Proof. unfold clean. by intros ->. Qed.

Lemma is_abs_path es : is_abs (abs_path es) = true.
Proof. unfold is_abs, has_prefix, abs_path, sep_str. apply prefix_iff. eauto. Qed.

Lemma elems_abs_path es : Forall plain es -> elems (abs_path es) = es.
Proof.
  intros Hall. unfold elems, clean_elems. rewrite is_abs_path. unfold split_on, abs_path.
  change (chars ("/" ++ ?s)) with (sep :: chars s). simpl.
  replace (of_chars []) with "" by done. unfold clean_step at 2. simpl.
  destruct es as [|e es]; [done|]. pose proof Hall as [He Hes]%Forall_cons.
  rewrite plain_join_sep by done. rewrite fold_plain by done. by rewrite app_nil_r, rev_involutive.
Qed.

(** Elements that need no more than cleaning: names and dots. *)
Lemma join_free e es : sep ∉ chars e -> Forall (fun e => sep ∉ chars e) es ->
  split_go sep [] (chars (join "/" (e :: es))) = e :: es.
Proof.
  revert e. induction es as [|e' es IH]; intros e He Hes; simpl.
  - rewrite split_go_last by done. simpl. by rewrite of_chars_chars.
  - apply Forall_cons in Hes as [He' Hes]. rewrite chars_app.
    change (chars ("/" ++ ?s)) with (sep :: chars s).
    rewrite split_go_app by done. simpl. rewrite of_chars_chars. f_equal. by apply IH.
Qed.
Lemma clean_abs_path es : Forall (fun e => sep ∉ chars e) es -> clean (abs_path es) = abs_path (clean_elems true es).
Proof.
  intros Hall. rewrite clean_abs by apply is_abs_path. f_equal. unfold elems. rewrite is_abs_path. unfold split_on, abs_path.
  change (chars ("/" ++ ?s)) with (sep :: chars s). simpl.
  replace (of_chars []) with "" by done. unfold clean_elems. simpl. destruct es as [|e es]; [done|].
  apply Forall_cons in Hall as [He Hes]. by rewrite join_free.
Qed.

Lemma split_last_go_spec l before cur :
  sep ∉ cur ->
  let '(d, b) := split_last_go l before cur in
  (d ++ b = before ++ cur ++ l)%list /\ sep ∉ b /\ (d = before \/ exists d', d = d' ++ [sep])%list.
Proof.
  revert before cur. induction l as [|a l IH]; intros before cur Hc; simpl.
  - rewrite app_nil_r. auto.
  - destruct (Ascii.eqb_spec a sep) as [->|Hne].
    + specialize (IH (before ++ cur ++ [sep])%list [] ltac:(apply not_elem_of_nil)).
      destruct (split_last_go l _ _) as [d b]. destruct IH as (H1 & H2 & H3). split_and!; [|done|].
      * rewrite H1. simpl. by rewrite <- !app_assoc.
      * right. destruct H3 as [->|H3]; [|done]. exists (before ++ cur)%list. by rewrite app_assoc.
    + specialize (IH before (cur ++ [a])%list).
      destruct (split_last_go l _ _) as [d b]. destruct IH as (H1 & H2 & H3).
      { rewrite elem_of_app, list_elem_of_singleton. naive_solver. }
      split_and!; [|done|done]. rewrite H1. by rewrite <- !app_assoc.
Qed.

Lemma split_go_trailing acc l : split_go sep acc (l ++ [sep])%list = (split_go sep acc l ++ [""])%list.
Proof.
  revert acc. induction l as [|a l IH]; intros acc; simpl; [done|].
  destruct (Ascii.eqb a sep); simpl; by rewrite IH.
Qed.

Lemma elems_trailing l : is_abs (of_chars l) = true -> elems (of_chars (l ++ [sep])%list) = elems (of_chars l).
Proof.
  intros Hl. unfold elems, clean_elems, split_on. rewrite Hl.
  assert (is_abs (of_chars (l ++ [sep])%list) = true) as ->.
  { unfold is_abs, has_prefix in *. apply prefix_iff in Hl as [r Hr]. apply prefix_iff.
    destruct l as [|a l]; [done|]. injection Hr as -> _. by exists (of_chars (l ++ [sep])%list). }
  by rewrite !chars_of_chars, split_go_trailing, fold_left_app.
Qed.

Lemma last_sep_unique (d b d0 b0 : list ascii) :
  (d ++ sep :: b = d0 ++ sep :: b0)%list -> sep ∉ b -> sep ∉ b0 -> d = d0 /\ b = b0.
Proof.
  revert d0. induction d as [|x d IH]; intros [|y d0] He Hb Hb0; simpl in *.
  - by injection He as ->.
  - injection He as <- ->. destruct Hb. apply elem_of_app. right. by left.
  - injection He as -> <-. destruct Hb0. apply elem_of_app. right. by left.
  - injection He as -> He. by destruct (IH d0 He Hb Hb0) as [-> ->].
Qed.

Lemma join_snoc es e : es <> [] -> join "/" (es ++ [e])%list = join "/" es ++ "/" ++ e.
Proof.
  assert (Happ : forall a b c : string, (a ++ b) ++ c = a ++ b ++ c).
  { clear. induction a as [|x a IH]; intros b c; [done|].
    change (String x ((a ++ b) ++ c) = String x (a ++ b ++ c)). by rewrite IH. }
  induction es as [|a [|b es] IH]; intros Hne; [done|done|].
  change (a ++ "/" ++ join "/" ((b :: es) ++ [e])%list = (a ++ "/" ++ join "/" (b :: es)) ++ "/" ++ e).
  rewrite IH by done. by rewrite !Happ.
Qed.

(** [dir] removes the last element of a clean absolute path. *)
Lemma dir_abs_path es e : Forall plain es -> plain e -> dir (abs_path (es ++ [e])) = abs_path es.
Proof.
  intros Hes He. unfold dir, split_last.
  set (pre := match es with [] => [] | _ => chars (abs_path es) end).
  assert (Hp : chars (abs_path (es ++ [e])) = (pre ++ sep :: chars e)%list).
  { unfold pre, abs_path. destruct es as [|e0 es]; [done|].
    rewrite join_snoc by done. rewrite !chars_app. simpl. reflexivity. }
  pose proof (split_last_go_spec (chars (abs_path (es ++ [e]))) [] [] ltac:(apply not_elem_of_nil)) as Hs.
  rewrite Hp in *. destruct (split_last_go _ _ _) as [d b]. destruct Hs as (H1 & H2 & H3).
  change (d ++ b = pre ++ sep :: chars e)%list in H1.
  assert (Hd : d = (pre ++ [sep])%list).
  { destruct H3 as [->|[d' ->]].
    - simpl in H1. destruct H2. rewrite H1. apply elem_of_app. right. by left.
    - rewrite <- app_assoc in H1. simpl in H1. apply last_sep_unique in H1 as [-> _]; [done|done|apply He]. }
  subst d. simpl. destruct es as [|e0 es]; [done|].
  assert (Hpre : of_chars pre = abs_path (e0 :: es)) by (unfold pre; apply of_chars_chars).
  assert (Habs : is_abs (of_chars pre) = true) by (rewrite Hpre; apply is_abs_path).
  assert (Habs2 : is_abs (of_chars (pre ++ [sep])%list) = true).
  { unfold is_abs, has_prefix in *. apply prefix_iff in Habs as [r Hr]. apply prefix_iff. unfold pre in *. simpl. eauto. }
  rewrite clean_abs, elems_trailing by done. by rewrite Hpre, elems_abs_path.
Qed.
Lemma dir_root : dir (abs_path []) = abs_path [].
Proof. reflexivity. Qed.
