(* ===== verification/Disk.v ===== *)
(** * Files, I/O faults and atomic replacement

    Every store of the agent publishes its state the same way: create a
    temporary file beside the destination, restrict it, write it, flush it,
    close it and rename it over the destination. This file models the file
    system calls those sequences use. Each call may fail: [w_faults] decides,
    call by call, so a theorem over all worlds is a theorem over every failure
    schedule; [w_trace] records every intermediate file system, so that a
    property of the trace is a property of a crash at any point. *)

From S2P Require Import Prelude.
From S2P Require Import GoStd.
From S2P Require Import GoPath.

Local Open Scope string_scope.
Local Open Scope Z_scope.

Record File := mkFile { f_data : string; f_mode : Z }.
Abbreviation fsys := (gmap string File).

(** The calls that can fail. *)
Inductive io_op :=
| OpMkdirAll | OpCreateTemp | OpChmod | OpWrite | OpSync | OpClose | OpRename
| OpSyncDir | OpRead | OpRemove | OpLock.

Inductive io_err :=
| Fault (op : io_op)        (** the operating system refused the call *)
| NotExist                  (** [os.ErrNotExist] *)
| NoTempName                (** [os.CreateTemp] ran out of names to try *)
| EncodeFailed              (** serialising the value failed *)
| DecodeFailed.             (** the contents did not parse *)

Record World := mkWorld {
  w_fs : fsys;
  w_faults : list bool;      (** does the next call fail? (no entry: it succeeds) *)
  w_rand : list string;      (** the random suffixes [os.CreateTemp] will try *)
  w_trace : list fsys;       (** every file system so far, latest first *)
}.

(** Start recording afresh, between two operations. *)
Definition forget_trace (w : World) : World := mkWorld (w_fs w) (w_faults w) (w_rand w) [].

Definition IO (A : Type) : Type := World -> result A io_err * World.

Definition io_ret {A} (a : A) : IO A := fun w => (Ok a, w).
Definition io_fail {A} (e : io_err) : IO A := fun w => (Err e, w).
Definition io_bind {A B} (m : IO A) (k : A -> IO B) : IO B :=
  fun w => match m w with
           | (Ok a, w') => k a w'
           | (Err e, w') => (Err e, w')
           end.
Notation "'io' p <- m ; k" := (io_bind m (fun p => k))
  (at level 100, p pattern, m at next level, k at level 200, right associativity) : go_scope.
Notation "m ;; k" := (io_bind m (fun _ => k))
  (at level 100, k at level 200, right associativity) : go_scope.

Definition set_fs (m : fsys) (w : World) : World :=
  mkWorld m (w_faults w) (w_rand w) (m :: w_trace w).

(** One system call: it either faults, leaving the files alone, or runs [f]. *)
Definition call {A} (op : io_op) (f : World -> result A io_err * World) : IO A :=
  fun w =>
    let w' := mkWorld (w_fs w) (tail (w_faults w)) (w_rand w) (w_trace w) in
    if hd false (w_faults w) then (Err (Fault op), w') else f w'.

(** Calls whose effect on the modelled files is nil when they succeed. *)
Definition pure_call (op : io_op) : IO unit := call op (fun w => (Ok tt, w)).

Definition mkdir_all (path : string) : IO unit := pure_call OpMkdirAll.
Definition sync_file (name : string) : IO unit := pure_call OpSync.
Definition close_file (name : string) : IO unit := pure_call OpClose.
Definition sync_directory (path : string) : IO unit := pure_call OpSyncDir.

Definition temp_name (d prefix suffix : string) : string :=
  if has_suffix d "/" then d ++ prefix ++ suffix else d ++ "/" ++ prefix ++ suffix.

(** [os.CreateTemp]: the file is created with [O_EXCL], so the first suffix
    that names no existing file is taken. *)
Fixpoint pick_temp (m : fsys) (d prefix : string) (rand : list string) : option (string * list string) :=
  match rand with
  | [] => None
  | r :: rs => match m !! temp_name d prefix r with
               | None => Some (temp_name d prefix r, rs)
               | Some _ => pick_temp m d prefix rs
               end
  end.
Definition create_temp (d prefix : string) : IO string :=
  call OpCreateTemp (fun w =>
    match pick_temp (w_fs w) d prefix (w_rand w) with
    | None => (Err NoTempName, w)
    | Some (name, rs) =>
        let m := <[name := mkFile "" 384]> (w_fs w) in
        (Ok name, mkWorld m (w_faults w) rs (m :: w_trace w))
    end).

Definition chmod (name : string) (mode : Z) : IO unit :=
  call OpChmod (fun w => match w_fs w !! name with
    | None => (Err NotExist, w)
    | Some f => (Ok tt, set_fs (<[name := mkFile (f_data f) mode]> (w_fs w)) w)
    end).
(** [File.Write] on a fresh temporary file: appends; a fault in the middle is
    [Fault OpWrite] with a prefix written, which the temporary absorbs. *)
Definition write_file (name data : string) : IO unit :=
  call OpWrite (fun w => match w_fs w !! name with
    | None => (Err NotExist, w)
    | Some f => (Ok tt, set_fs (<[name := mkFile (f_data f ++ data) (f_mode f)]> (w_fs w)) w)
    end).
Definition rename (from to : string) : IO unit :=
  call OpRename (fun w => match w_fs w !! from with
    | None => (Err NotExist, w)
    | Some f => (Ok tt, set_fs (<[to := f]> (delete from (w_fs w))) w)
    end).
Definition remove (name : string) : IO unit :=
  call OpRemove (fun w => match w_fs w !! name with
    | None => (Err NotExist, w)
    | Some _ => (Ok tt, set_fs (delete name (w_fs w)) w)
    end).
Definition read_file (name : string) : IO string :=
  call OpRead (fun w => match w_fs w !! name with
    | None => (Err NotExist, w)
    | Some f => (Ok (f_data f), w)
    end).
(** [os.WriteFile]: create or truncate, then write. *)
Definition overwrite_file (name data : string) (mode : Z) : IO unit :=
  call OpWrite (fun w =>
    let m := match w_fs w !! name with Some f => f_mode f | None => mode end in
    (Ok tt, set_fs (<[name := mkFile data m]> (w_fs w)) w)).

(** [defer os.Remove(name)]: runs whatever the body returned, and its own error
    is discarded. *)
Definition with_removed {A} (name : string) (body : IO A) : IO A :=
  fun w => let '(r, w1) := body w in let '(_, w2) := remove name w1 in (r, w2).

(** The part every writer shares. *)
Definition fill_temp (name data : string) (mode : Z) : IO unit :=
  chmod name mode ;; write_file name data ;; sync_file name ;; close_file name.

(** ** Frame reasoning

    [keeps P m]: started in a file system that satisfies [P], [m] goes through
    such file systems only and ends in one, whatever it returns. *)

Definition grows (P : fsys -> Prop) (w w' : World) : Prop :=
  P (w_fs w') /\ exists new, w_trace w' = (new ++ w_trace w)%list /\ Forall P new.
Definition keeps {A} (P : fsys -> Prop) (m : IO A) : Prop :=
  forall w, P (w_fs w) -> grows P w (snd (m w)).

(** A predicate that ignores the path [name]. *)
Definition stable_off (name : string) (P : fsys -> Prop) : Prop :=
  forall m f, P m -> P (<[name := f]> m) /\ P (delete name m).

Lemma grows_same P w w' : P (w_fs w') -> w_trace w' = w_trace w -> grows P w w'.
Proof. intros HP Ht. split; [done|]. by exists []. Qed.
Lemma grows_step P w w' : P (w_fs w') -> w_trace w' = w_fs w' :: w_trace w -> grows P w w'.
Proof. intros HP Ht. split; [done|]. exists [w_fs w']. by split; [|constructor]. Qed.
Lemma grows_trans P w1 w2 w3 : grows P w1 w2 -> grows P w2 w3 -> grows P w1 w3.
Proof.
  intros [_ (n1 & H1 & F1)] [HP (n2 & H2 & F2)]. split; [done|]. exists (n2 ++ n1)%list.
  split; [by rewrite H2, H1, app_assoc|by apply Forall_app].
Qed.
Lemma grows_Forall (P Q : fsys -> Prop) w w' :
  (forall m, P m -> Q m) -> grows P w w' -> Forall Q (w_trace w) -> Forall Q (w_trace w').
Proof.
  intros HPQ [_ (new & -> & Hn)] Hw. apply Forall_app. split; [|done]. eapply Forall_impl; [exact Hn|done].
Qed.

Lemma keeps_ret {A} P (a : A) : keeps P (io_ret a).
Proof. intros w H. by apply grows_same. Qed.

Lemma keeps_bind {A B} P (m : IO A) (k : A -> IO B) :
  keeps P m -> (forall a, keeps P (k a)) -> keeps P (io_bind m k).
Proof.
  intros Hm Hk w Hw. unfold io_bind. specialize (Hm w Hw).
  destruct (m w) as [[a|e] w']; simpl in *; [|done]. eapply grows_trans; [exact Hm|]. apply Hk, Hm.
Qed.

Lemma keeps_call {A} P op (f : World -> result A io_err * World) :
  keeps P f -> keeps P (call op f).
Proof.
  intros Hf w Hw. unfold call. destruct (hd false (w_faults w)); simpl; [by apply grows_same|].
  apply (Hf (mkWorld (w_fs w) (tail (w_faults w)) (w_rand w) (w_trace w)) Hw).
Qed.

Lemma keeps_pure P op : keeps P (pure_call op).
Proof. apply keeps_call. intros w Hw. by apply grows_same. Qed.

Lemma keeps_read P name : keeps P (read_file name).
Proof. apply keeps_call. intros w Hw. destruct (w_fs w !! name); by apply grows_same. Qed.

Create HintDb disk.
#[export] Hint Resolve keeps_ret keeps_pure keeps_read : disk.

Section Stable.
Context (P : fsys -> Prop) (name : string) (HP : stable_off name P).

Lemma keeps_chmod mode : keeps P (chmod name mode).
Proof.
  apply keeps_call. intros w Hw. destruct (w_fs w !! name); [|by apply grows_same].
  apply grows_step; [|done]. by apply HP.
Qed.
Lemma keeps_write data : keeps P (write_file name data).
Proof.
  apply keeps_call. intros w Hw. destruct (w_fs w !! name); [|by apply grows_same].
  apply grows_step; [|done]. by apply HP.
Qed.
Lemma keeps_remove : keeps P (remove name).
Proof.
  apply keeps_call. intros w Hw. destruct (w_fs w !! name); [|by apply grows_same].
  apply grows_step; [|done]. by apply (HP (w_fs w) (mkFile "" 0)).
Qed.
Lemma keeps_fill data mode : keeps P (fill_temp name data mode).
Proof.
  apply keeps_bind; [apply keeps_chmod|intros _].
  apply keeps_bind; [apply keeps_write|intros _].
  apply keeps_bind; [apply keeps_pure|intros _]. apply keeps_pure.
Qed.
Lemma keeps_with_removed {A} (body : IO A) : keeps P body -> keeps P (with_removed name body).
Proof.
  intros Hb w Hw. unfold with_removed. specialize (Hb w Hw).
  destruct (body w) as [r w1]; simpl in *. pose proof (keeps_remove w1 (proj1 Hb)) as H2.
  destruct (remove name w1) as [r2 w2]; simpl in *. by eapply grows_trans.
Qed.
End Stable.
#[export] Hint Resolve keeps_fill keeps_with_removed : disk.

(** ** Atomic replacement

    The one shape all writers of the agent have. [publish] is what happens
    between the closed temporary file and the return of the writer. *)

Definition replace_file (d prefix data : string) (mode : Z) (publish : string -> IO unit) : IO unit :=
  mkdir_all d ;;
  io name <- create_temp d prefix ;
  with_removed name (fill_temp name data mode ;; publish name).

(** The destination is as it was, or holds the new file entirely. *)
Definition old_or_new (path : string) (f : File) (m0 m : fsys) : Prop :=
  m !! path = m0 !! path \/ m !! path = Some f.

(** No temporary name the writer may draw is the destination itself. *)
Definition temps_avoid (d prefix path : string) (w : World) : Prop :=
  forall r, r ∈ w_rand w -> temp_name d prefix r <> path.

Lemma temps_avoid_all d prefix path w :
  Forall (fun r => temp_name d prefix r <> path) (w_rand w) -> temps_avoid d prefix path w.
Proof. rewrite Forall_forall. intros H r Hr.
  by apply H. Qed.

Definition triple {A} (Pre : World -> Prop) (m : IO A) (Post : result A io_err -> World -> Prop) : Prop :=
  forall w r w', Pre w -> m w = (r, w') -> Post r w'.

Lemma triple_bind {A B} (Pre : World -> Prop) (m : IO A) (k : A -> IO B) Mid Post :
  triple Pre m (fun r w => match r with Ok a => Mid a w | Err e => Post (Err e) w end) ->
  (forall a, triple (Mid a) (k a) Post) ->
  triple Pre (io_bind m k) Post.
Proof.
  intros Hm Hk w r w' Hpre Hrun. unfold io_bind in Hrun.
  destruct (m w) as [[a|e] w1] eqn:E; pose proof (Hm _ _ _ Hpre E) as H1; simpl in H1.
  - by eapply Hk.
  - by injection Hrun as <- <-.
Qed.

Lemma triple_consequence {A} (Pre Pre' : World -> Prop) (m : IO A) (Post Post' : _ -> _ -> Prop) :
  triple Pre' m Post' -> (forall w, Pre w -> Pre' w) -> (forall r w, Post' r w -> Post r w) ->
  triple Pre m Post.
Proof. intros H H1 H2 w r w' Hp Hr. eauto. Qed.

Section Publish.
Context (m0 : fsys) (name path : string) (f : File).
Hypothesis Hfresh : m0 !! name = None.
Hypothesis Hne : name <> path.

(** While the temporary is being prepared: only [name] may differ from [m0]. *)
Definition preparing (m : fsys) : Prop := delete name m = m0.
Definition traced (w : World) : Prop := Forall (old_or_new path f m0) (w_trace w).

Lemma preparing_old_or_new m : preparing m -> old_or_new path f m0 m.
Proof. intros <-. left. by rewrite lookup_delete_ne. Qed.

Lemma preparing_update m g : preparing m -> preparing (<[name := g]> m).
Proof. unfold preparing. intros <-. by rewrite delete_insert_eq. Qed.

Definition step_ok (g : File) (w : World) : Prop :=
  preparing (w_fs w) /\ w_fs w !! name = Some g /\ traced w.
Definition step_err (w : World) : Prop := preparing (w_fs w) /\ traced w.
Definition step_post {A} (g : File) (r : result A io_err) (w : World) : Prop :=
  match r with Ok _ => step_ok g w | Err e => e <> Fault OpSyncDir /\ step_err w end.

Lemma step_pure op g : op <> OpSyncDir -> triple (step_ok g) (pure_call op) (step_post g).
Proof.
  intros Hop w r w' (Hp & Hl & Ht) Hrun. unfold pure_call, call in Hrun.
  destruct (hd false (w_faults w)); injection Hrun as <- <-; repeat split; first [done|congruence].
Qed.

Lemma step_chmod g mode : triple (step_ok g) (chmod name mode) (step_post (mkFile (f_data g) mode)).
Proof.
  intros w r w' (Hp & Hl & Ht) Hrun. unfold chmod, call in Hrun. simpl in Hrun. rewrite Hl in Hrun.
  destruct (hd false (w_faults w)); injection Hrun as <- <-; simpl; [by repeat split|].
  pose proof (preparing_update _ (mkFile (f_data g) mode) Hp).
  repeat split; simpl; [done|apply lookup_insert_eq|].
  constructor; [by apply preparing_old_or_new|done].
Qed.

Lemma step_write g data :
  triple (step_ok g) (write_file name data) (step_post (mkFile (f_data g ++ data) (f_mode g))).
Proof.
  intros w r w' (Hp & Hl & Ht) Hrun. unfold write_file, call in Hrun. simpl in Hrun. rewrite Hl in Hrun.
  destruct (hd false (w_faults w)); injection Hrun as <- <-; simpl; [by repeat split|].
  pose proof (preparing_update _ (mkFile (f_data g ++ data) (f_mode g)) Hp).
  repeat split; simpl; [done|apply lookup_insert_eq|].
  constructor; [by apply preparing_old_or_new|done].
Qed.

Lemma step_seq {A B} g g1 g2 (m : IO A) (k : IO B) :
  triple (step_ok g) m (step_post g1) -> triple (step_ok g1) k (step_post g2) ->
  triple (step_ok g) (m ;; k) (step_post g2).
Proof.
  intros Hm Hk. apply (triple_bind _ _ _ (fun _ => step_ok g1)); [|by intros _].
  eapply triple_consequence; [exact Hm|done|]. by intros [].
Qed.

Lemma step_fill g data mode :
  triple (step_ok g) (fill_temp name data mode) (step_post (mkFile (f_data g ++ data) mode)).
Proof.
  eapply step_seq; [apply step_chmod|]. eapply step_seq; [apply step_write|].
  eapply step_seq; by apply step_pure.
Qed.

(** After the rename the destination is new and the temporary is gone. *)
Definition published (w : World) : Prop := w_fs w = <[path := f]> m0 /\ traced w.

Lemma published_holds m : m = <[path := f]> m0 -> old_or_new path f m0 m.
Proof. intros ->. right. apply lookup_insert_eq. Qed.

Lemma step_rename :
  triple (step_ok f) (rename name path)
    (fun r w => match r with Ok _ => published w | Err e => e <> Fault OpSyncDir /\ step_err w end).
Proof.
  intros w r w' (Hp & Hl & Ht) Hrun. unfold rename, call in Hrun. simpl in Hrun. rewrite Hl in Hrun.
  destruct (hd false (w_faults w)); injection Hrun as <- <-; simpl; [by repeat split|].
  assert (Heq : <[path := f]> (delete name (w_fs w)) = <[path := f]> m0) by (by rewrite Hp).
  split; simpl; [done|]. constructor; [by apply published_holds|done].
Qed.

Lemma step_syncdir d :
  triple published (sync_directory d)
    (fun r w => match r with
                | Ok _ => published w
                | Err e => e = Fault OpSyncDir /\ published w
                end).
Proof.
  intros w r w' Hp Hrun. unfold sync_directory, pure_call, call in Hrun.
  destruct (hd false (w_faults w)); by injection Hrun as <- <-.
Qed.

(** Removing the temporary afterwards changes nothing that matters. *)
Lemma remove_published w : published w -> published (snd (remove name w)).
Proof.
  intros [Hf Ht]. unfold remove, call. destruct (hd false (w_faults w)); simpl; [done|].
  rewrite Hf, lookup_insert_ne by done. by rewrite Hfresh.
Qed.
Lemma remove_preparing w : step_err w -> step_err (snd (remove name w)).
Proof.
  intros [Hf Ht]. unfold remove, call. destruct (hd false (w_faults w)); simpl; [done|].
  destruct (w_fs w !! name) eqn:E; simpl; [|done].
  assert (Hp : preparing (delete name (w_fs w))) by (unfold preparing in *; by rewrite delete_delete_eq).
  split; simpl; [done|]. constructor; [by apply preparing_old_or_new|done].
Qed.
End Publish.

(** ** What every writer promises *)

(** The contract of an atomic writer of [f] at [path]. *)
Record atomic_write (path : string) (f : File) (w : World) (r : result unit io_err) (w' : World) : Prop := {
  aw_ok : r = Ok tt -> w_fs w' = <[path := f]> (w_fs w);
  aw_err : forall e, r = Err e ->
    (e <> Fault OpSyncDir /\ w_fs w' !! path = w_fs w !! path) \/
    (e = Fault OpSyncDir /\ w_fs w' = <[path := f]> (w_fs w));
  aw_frame : forall q, q ∈ dom (w_fs w) -> q <> path -> w_fs w' !! q = w_fs w !! q;
  aw_crash : Forall (old_or_new path f (w_fs w)) (w_trace w');
}.

Lemma pick_temp_fresh m d prefix rand name rs :
  pick_temp m d prefix rand = Some (name, rs) ->
  m !! name = None /\ exists r, r ∈ rand /\ name = temp_name d prefix r.
Proof.
  induction rand as [|r rand IH]; simpl; [done|].
  destruct (m !! temp_name d prefix r) eqn:E; intros H.
  - apply IH in H as (? & r' & ? & ?). split; [done|]. exists r'. set_solver.
  - injection H as <- <-. split; [done|]. exists r. set_solver.
Qed.

Lemma atomic_write_unchanged path f w e w' :
  Forall (old_or_new path f (w_fs w)) (w_trace w) ->
  e <> Fault OpSyncDir -> w_fs w' = w_fs w -> w_trace w' = w_trace w ->
  atomic_write path f w (Err e) w'.
Proof. intros Htr He Hf Ht. split; rewrite ?Hf, ?Ht; naive_solver. Qed.

(** A value that does not serialise is refused before any call. *)
Lemma atomic_write_fail path f w e r w' :
  Forall (old_or_new path f (w_fs w)) (w_trace w) ->
  e <> Fault OpSyncDir -> io_fail e w = (r, w') -> atomic_write path f w r w'.
Proof. intros Htr He [= <- <-]. by apply atomic_write_unchanged. Qed.

Section Writers.
Context (d prefix path data : string) (mode : Z).
Let f := mkFile data mode.

(** A [publish] step that turns a filled temporary into the destination. *)
Definition publishes (publish : string -> IO unit) : Prop :=
  forall m0 name, m0 !! name = None -> name <> path ->
    triple (step_ok m0 name path f f) (publish name)
      (fun r w => match r with
         | Ok _ => published m0 path f w
         | Err e => (e <> Fault OpSyncDir /\ step_err m0 name path f w) \/
                    (e = Fault OpSyncDir /\ published m0 path f w)
         end).

(** The same for everything done with the temporary, from its creation. *)
Definition fills_and_publishes (body : string -> IO unit) : Prop :=
  forall m0 name, m0 !! name = None -> name <> path ->
    triple (step_ok m0 name path f (mkFile "" 384)) (body name)
      (fun r w => match r with
         | Ok _ => published m0 path f w
         | Err e => (e <> Fault OpSyncDir /\ step_err m0 name path f w) \/
                    (e = Fault OpSyncDir /\ published m0 path f w)
         end).

Lemma with_temp_atomic body w r w' :
  fills_and_publishes body -> temps_avoid d prefix path w ->
  Forall (old_or_new path f (w_fs w)) (w_trace w) ->
  (io name <- create_temp d prefix ; with_removed name (body name)) w = (r, w') ->
  atomic_write path f w r w'.
Proof.
  intros Hpub Havoid Htr. unfold create_temp, call, io_bind at 1.
  destruct (hd false (w_faults w)) eqn:E1; intros Hrun.
  { injection Hrun as <- <-. by apply atomic_write_unchanged. }
  simpl in Hrun. destruct (pick_temp _ _ _ _) as [[name rs]|] eqn:Hpick.
  2: { injection Hrun as <- <-. by apply atomic_write_unchanged. }
  apply pick_temp_fresh in Hpick as (Hfresh & r0 & Hr0 & Hname).
  assert (Hne : name <> path) by (subst; by apply Havoid).
  set (w1 := mkWorld _ _ _ _) in Hrun.
  unfold with_removed in Hrun. destruct (body name w1) as [r2 w2] eqn:Hbody.
  destruct (remove name w2) as [r3 w3] eqn:Hrem. injection Hrun as <- <-.
  replace w3 with (snd (remove name w2)) by (by rewrite Hrem).
  assert (Hpre : step_ok (w_fs w) name path f (mkFile "" 384) w1).
  { assert (preparing (w_fs w) name (w_fs w1)) by (unfold preparing; simpl; by rewrite delete_insert_id).
    repeat split; simpl; [done|apply lookup_insert_eq|].
    constructor; [|done]. by apply (preparing_old_or_new _ name). }
  apply (Hpub _ _ Hfresh Hne) in Hbody; [|exact Hpre].
  assert (Herr : forall e w', e <> Fault OpSyncDir -> step_err (w_fs w) name path f w' ->
            atomic_write path f w (Err e) w').
  { intros e w' He [Hp Ht]. split; [done|..|done].
    - intros e' [= <-]. left. split; [done|]. rewrite <- Hp. by rewrite lookup_delete_ne.
    - intros q Hq Hqp. rewrite <- Hp. rewrite lookup_delete_ne; [done|].
      intros <-. apply elem_of_dom in Hq as [? Hq]. congruence. }
  assert (Hdone : forall w', published (w_fs w) path f w' ->
    (forall q, q ∈ dom (w_fs w) -> q <> path -> w_fs w' !! q = w_fs w !! q)).
  { intros w' [-> _] q _ Hq. by rewrite lookup_insert_ne. }
  destruct r2 as [[]|e].
  - apply (remove_published _ name) in Hbody; [|done..]. split; [by intros _; apply Hbody|done|by apply Hdone|].
    apply Hbody.
  - destruct Hbody as [[He Hb]|[-> Hb]].
    + apply Herr; [done|]. by apply remove_preparing.
    + apply (remove_published _ name) in Hb; [|done..].
      split; [done| |by apply Hdone|apply Hb].
      intros e [= <-]. right. split; [done|]. apply Hb.
Qed.

Lemma fill_then_publish publish :
  publishes publish -> fills_and_publishes (fun name => fill_temp name data mode ;; publish name).
Proof.
  intros Hpub m0 name Hfresh Hne. eapply (triple_bind _ _ _ (fun _ => step_ok m0 name path f f)).
  - eapply triple_consequence; [apply step_fill; done|done|]. intros [[]|e] w'; simpl; [done|]. intros ?. by left.
  - intros _. apply (Hpub _ _ Hfresh Hne).
Qed.

Lemma replace_file_atomic publish w r w' :
  publishes publish -> temps_avoid d prefix path w ->
  Forall (old_or_new path f (w_fs w)) (w_trace w) ->
  replace_file d prefix data mode publish w = (r, w') ->
  atomic_write path f w r w'.
Proof.
  intros Hpub Havoid Htr. unfold replace_file. unfold io_bind at 1. unfold mkdir_all, pure_call, call.
  destruct (hd false (w_faults w)) eqn:E1; intros Hrun.
  { injection Hrun as <- <-. by apply atomic_write_unchanged. }
  apply with_temp_atomic in Hrun as [H1 H2 H3 H4]; [by split|by apply fill_then_publish|done|done].
Qed.

Lemma publishes_rename : publishes (fun name => rename name path).
Proof.
  intros m0 name Hfresh Hne. eapply triple_consequence; [by apply step_rename|done|].
  intros [[]|e] w; simpl; auto.
Qed.

Lemma publishes_rename_sync d' : publishes (fun name => rename name path ;; sync_directory d').
Proof.
  intros m0 name Hfresh Hne.
  apply (triple_bind _ _ _ (fun _ => published m0 path f)).
  - eapply triple_consequence; [by apply step_rename|done|]. intros [[]|e] w H; simpl; [exact H|]. by left.
  - intros _. eapply triple_consequence; [by apply step_syncdir|done|]. intros [[]|e] w; simpl; auto.
Qed.
End Writers.
#[export] Hint Resolve publishes_rename publishes_rename_sync : disk.

(** With no failing call and an unused temporary name, the replacement
    succeeds. *)
Lemma replace_file_succeeds d prefix path data mode w r rs :
  w_faults w = [] -> w_rand w = r :: rs -> w_fs w !! temp_name d prefix r = None ->
  exists w', replace_file d prefix data mode (fun name => rename name path) w = (Ok tt, w') /\
    w_faults w' = [] /\ w_rand w' = rs.
Proof.
  intros Hf Hr Hn. destruct w as [m fl rd tr]. simpl in *. subst fl rd. set (name := temp_name d prefix r) in *.
  unfold replace_file, mkdir_all, pure_call, create_temp, call, io_bind at 1. simpl.
  unfold io_bind at 1. simpl. fold name. rewrite Hn. simpl.
  unfold with_removed, fill_temp, chmod, write_file, sync_file, close_file, pure_call, rename, remove, call, io_bind.
  simpl. rewrite lookup_insert_eq. simpl. rewrite lookup_insert_eq. simpl. rewrite lookup_insert_eq. simpl.
  match goal with |- context [match ?x with Some _ => _ | None => _ end] => destruct x end; by eexists.
Qed.

(** ** Writer locks ([core/statelock/lock.go])

    [Acquire] creates the lock file and takes the advisory lock without
    waiting: a lock another process holds is one more failing call. Releasing
    leaves the lock file behind, so the release has no effect here. *)

Definition open_lock (path : string) : IO unit :=
  call OpLock (fun w =>
    match w_fs w !! path with
    | Some _ => (Ok tt, w)
    | None => (Ok tt, set_fs (<[path := mkFile "" 384]> (w_fs w)) w)
    end).
Definition Acquire (path : string) : IO unit :=
  mkdir_all (dir path) ;; open_lock path ;; pure_call OpLock.

(** Locking touches no other file, now or at any point on the way. *)
Lemma Acquire_frame path w r w' :
  Acquire path w = (r, w') ->
  (forall q, q <> path -> w_fs w' !! q = w_fs w !! q) /\
  w_rand w' = w_rand w /\
  (forall q f m0, q <> path -> m0 !! q = w_fs w !! q ->
     Forall (old_or_new q f m0) (w_trace w) -> Forall (old_or_new q f m0) (w_trace w')) /\
  (forall e, r = Err e -> e <> Fault OpSyncDir) /\
  (w_faults w = [] -> r = Ok tt /\ w_faults w' = []).
Proof.
  unfold Acquire, mkdir_all, open_lock, pure_call, call, io_bind. destruct w as [m fl rd tr]. simpl.
  destruct (hd false fl) eqn:E1; simpl; [intros [= <- <-]; simpl; split_and!; try done; [congruence|by intros ->]|].
  destruct (hd false (tail fl)) eqn:E2; simpl; [intros [= <- <-]; simpl; split_and!; try done; [congruence|by intros ->]|].
  destruct (m !! path) eqn:El; simpl.
  - destruct (hd false (tail (tail fl))) eqn:E3; simpl; intros [= <- <-]; simpl; split_and!; try done; try congruence; by intros ->.
  - assert (Hq : forall q, q <> path -> <[path := mkFile "" 384]> m !! q = m !! q)
      by (intros q Hq; by rewrite lookup_insert_ne).
    assert (Ht : forall q f m0, q <> path -> m0 !! q = m !! q -> Forall (old_or_new q f m0) tr ->
      Forall (old_or_new q f m0) (<[path := mkFile "" 384]> m :: tr)).
    { intros q f m0 Hne Hm Hall. constructor; [|done]. left. by rewrite Hq, Hm. }
    destruct (hd false (tail (tail fl))) eqn:E3; simpl; intros [= <- <-]; simpl; split_and!; try done; try congruence; by intros ->.
Qed.
