(* ===== verification/External.v ===== *)
(** * What the agent relies on but does not implement

    The message types are the parts of the generated protobuf messages the
    agent reads; their codecs, the well-known timestamp conversions, the
    signature scheme and the JSON encoder are parameters, with the documented
    behaviour a theorem needs stated as a law. *)

From S2P Require Import Prelude.
From S2P Require Import GoStd.

(** ** Cryptography *)

Class Crypto := {
  sha256 : bytes -> bytes;
  ed25519_verify : bytes -> bytes -> bytes -> bool;   (** key, payload, signature *)
  ed25519_sign : bytes -> bytes -> bytes;             (** private key, payload *)
  ed25519_public : bytes -> bytes;
}.

Definition PublicKeySize : Z := 32.
Definition PrivateKeySize : Z := 64.

(** ** Serialisation *)

(** [encoding/json] for the persisted type [A]: [None] is an error. *)
Class Json (A : Type) := {
  json_marshal : A -> option bytes;
  json_unmarshal : bytes -> option A;
}.
(** Values whose encoding decodes to themselves (valid UTF-8 strings, years
    JSON can carry). *)
Class JsonLaws (A : Type) `{Json A} := {
  json_ok : A -> Prop;
  json_roundtrip : forall a s, json_ok a -> json_marshal a = Some s -> json_unmarshal s = Some a;
}.

(** A concrete codec for any countable type, to instantiate the parameter: the
    bits of stdpp's encoding. *)
Fixpoint bits_of (p : positive) : string :=
  match p with
  | xH => ""
  | xO p => String "0" (bits_of p)
  | xI p => String "1" (bits_of p)
  end.
Fixpoint of_bits (s : string) : option positive :=
  match s with
  | "" => Some xH
  | String "0" r => xO <$> of_bits r
  | String "1" r => xI <$> of_bits r
  | _ => None
  end%string.
Lemma of_bits_of p : of_bits (bits_of p) = Some p.
Proof. induction p as [p IH|p IH|]; simpl; by rewrite ?IH. Qed.

Definition countable_json (A : Type) `{Countable A} : Json A :=
  {| json_marshal := fun a => Some (bits_of (encode a));
     json_unmarshal := fun s => of_bits s ≫= decode |}.
Definition countable_json_laws (A : Type) `{Countable A} : @JsonLaws A (countable_json A).
Proof.
  unshelve refine {| json_ok := fun _ => True |}. simpl. intros a s _ [= <-].
  rewrite of_bits_of. simpl. apply decode_encode.
Defined.

(** [encoding/json] decoding one document of type [A] with unknown fields
    refused: the value and the input left over. *)
Class StrictJson (A : Type) := { decode_strict : bytes -> option (A * bytes) }.
Definition json_space (a : ascii) : bool :=
  let n := code a in Nat.eqb n 32 || Nat.eqb n 9 || Nat.eqb n 10 || Nat.eqb n 13.
(** A second [Decode] reports [io.EOF]: only white space is left. *)
Definition at_eof (rest : bytes) : bool := forallb json_space (chars rest).

(** Protobuf wire encoding of the message type [A]. *)
Class Wire (A : Type) := {
  wire_marshal : A -> option bytes;
  wire_unmarshal : bytes -> option A;
}.

(** ** Timestamps *)

Record Timestamp := mkTimestamp { ts_seconds : Z; ts_nanos : Z }.

(** [Timestamp.CheckValid] and [AsTime] on a non-nil value. *)
Class ProtoTime := {
  ts_check : Timestamp -> bool;
  ts_time : Timestamp -> time;
}.

Section Timestamps.
Context `{ProtoTime}.

(** [IsValid]: a nil timestamp is not valid. *)
Definition is_valid (t : option Timestamp) : bool :=
  match t with Some t => ts_check t | None => false end.
(** [AsTime]: a nil timestamp reads as the Unix epoch. *)
Definition as_time (t : option Timestamp) : time :=
  match t with Some t => ts_time t | None => unix_epoch_seconds * second end%Z.
(** [timeOrZero] of the agent's packages is built on these two. *)
Definition is_nil (t : option Timestamp) : bool :=
  match t with Some _ => false | None => true end.
End Timestamps.

(** ** Messages *)

Record Signature := mkSignature {
  sig_algorithm : Z;
  sig_key_id : string;
  sig_value : bytes;
}.

Record SignedEnvelope := mkEnvelope {
  env_payload : bytes;
  env_signatures : list Signature;
}.

Record SignedInstruction := mkSignedInstruction {
  si_agent_id : string;
  si_nonce : string;
  si_instruction_type : string;
  si_body : bytes;
  si_issued_at : option Timestamp;
  si_expires_at : option Timestamp;
}.

Record AgentCredentials := mkAgentCredentials {
  ac_agent_id : string;
  ac_access_token : string;
  ac_access_expires : option Timestamp;
  ac_refresh_token : string;
  ac_refresh_expires : option Timestamp;
  ac_scopes : list string;
}.

(** Enumerations, by their protocol numbers. *)
Abbreviation PrivilegeMode := Z (only parsing).
Definition PRIVILEGE_MODE_UNSPECIFIED : PrivilegeMode := 0%Z.
Definition SIGNATURE_ALGORITHM_ED25519 : Z := 1%Z.

(** [PrivilegedConfig]: optional booleans whose getters default to false. *)
Record PrivilegedConfig := mkPrivilegedConfig {
  pc_required_mode : PrivilegeMode;
  pc_remote_control : option bool;
  pc_webssh : option bool;
  pc_execution : option bool;
  pc_gpu : option bool;
  pc_rescue_helper : option bool;
  pc_unknown : bytes;          (** [ProtoReflect().GetUnknown()] *)
}.
Definition get_bool (b : option bool) : bool := default false b.

Record HostAuthorization := mkHostAuthorization {
  ha_agent_id : string;
  ha_service_id : string;
  ha_revision : Z;
  ha_config_hash : string;
  ha_approval_generation : Z;
  ha_actions : list Z;
  ha_target_mode : PrivilegeMode;
  ha_nonce : string;
  ha_approved_by : string;
  ha_issued_at : option Timestamp;
  ha_expires_at : option Timestamp;
  ha_unknown : bytes;
}.
#[export] Instance Timestamp_eq : EqDecision Timestamp.
Proof. solve_decision. Defined.
#[export] Instance HostAuthorization_eq : EqDecision HostAuthorization.
Proof. solve_decision. Defined.

Record ManualTask := mkManualTask { mt_task_id : string; mt_nonce : string; mt_expires_at : option Timestamp }.
Record UpgradePlan := mkUpgradePlan {
  up_class : Z;
  up_reasons : list string;
  up_manual_task : option ManualTask;
}.

Record PrivilegedRevision := mkPrivilegedRevision {
  pr_protocol_version : Z;
  pr_installation_baseline : bool;
  pr_state : Z;
  pr_agent_id : string;
  pr_revision : Z;
  pr_config_hash : string;
  pr_approval_generation : Z;
  pr_update_sequence : Z;
  pr_privileged : option PrivilegedConfig;
  pr_authorization : option HostAuthorization;
  pr_plan : option UpgradePlan;
  pr_signature : option SignedEnvelope;
  pr_received_at : option Timestamp;
  pr_unknown : bytes;
}.

#[export] Instance Signature_eq : EqDecision Signature.
Proof. solve_decision. Defined.
#[export] Instance SignedEnvelope_eq : EqDecision SignedEnvelope.
Proof. solve_decision. Defined.
#[export] Instance PrivilegedConfig_eq : EqDecision PrivilegedConfig.
Proof. solve_decision. Defined.
#[export] Instance ManualTask_eq : EqDecision ManualTask.
Proof. solve_decision. Defined.
#[export] Instance UpgradePlan_eq : EqDecision UpgradePlan.
Proof. solve_decision. Defined.
#[export] Instance PrivilegedRevision_eq : EqDecision PrivilegedRevision.
Proof. solve_decision. Defined.

Record HostOperation := mkHostOperation {
  ho_operation_id : string;
  ho_phase : Z;
  ho_authorization : option HostAuthorization;
  ho_lease_expires_at : option Timestamp;
  ho_signature : option SignedEnvelope;
  ho_unknown : bytes;
}.

(** The numbers the protocol gives to the enumeration values the agent tests. *)
Class ProtoEnums := {
  DELIVERY_STATE_AWAITING_AGENT : Z;
  DELIVERY_STATE_APPLYING : Z;
  PHASE_LOCAL_APPLIED : Z;
}.

(** A codec that knows one message, to instantiate the parameter. *)
Definition one_wire {A} `{EqDecision A} (m : A) (b : bytes) : Wire A :=
  {| wire_marshal := fun x => if decide (x = m) then Some b else None;
     wire_unmarshal := fun s => if (s =? b)%string then Some m else None |}.
Lemma one_wire_roundtrip {A} `{EqDecision A} (m : A) (b : bytes) x s :
  @wire_marshal _ (one_wire m b) x = Some s -> @wire_unmarshal _ (one_wire m b) s = Some x.
Proof. simpl. case_decide; [|done]. intros [= <-]. by rewrite String.eqb_refl; subst. Qed.

(** ** Runtime configuration messages *)

Record Duration := mkDuration { du_seconds : Z; du_nanos : Z }.
(** [Duration.CheckValid] and [AsDuration] on a non-nil value. *)
Class ProtoDuration := {
  du_check : Duration -> bool;
  du_value : Duration -> duration;
}.

(** [configv1.RuntimeConfig]; [rt_populated] are the numbers of the fields that
    [ProtoReflect().Range] visits. *)
Record RuntimeConfig := mkRuntimeConfig {
  rt_unknown : bytes;
  rt_populated : list Z;
  rt_MemoryIncludeCache : option bool;
  rt_EnableGpu : option bool;
  rt_DetailedGpu : option bool;
  rt_IncludeNics : list string;
  rt_ExcludeNics : list string;
  rt_IncludeMountpoints : list string;
  rt_TrafficResetDay : option Z;
  rt_GetIpAddrFromNic : option bool;
  rt_RemoteControlEnabled : option bool;
  rt_ReportInterval : option Duration;
}.
Record DesiredConfig := mkDesiredConfig { dc_Revision : Z; dc_Runtime : option RuntimeConfig }.
