(* ===== verification/Credentials.v ===== *)
(** * Enrolled identity ([core/credentials/store.go])

    The identity file, the in-memory copy a [Store] serves, and the two-phase
    credential refresh ([BeginRefresh], [CommitRefresh]). Operations run on a
    store and a [World]; every one is the body of the method under its lock. *)

From S2P Require Import Prelude.
From S2P Require Import GoStd.
From S2P Require Import GoPath.
From S2P Require Import Disk.
From S2P Require Import External.

Local Open Scope string_scope.
Local Open Scope Z_scope.

Record RefreshAttempt := mkAttempt { RequestID : string; StartedAt : time }.

Record PinnedKey := mkPinnedKey {
  pk_Algorithm : Z;
  pk_Value : string;
  pk_KeyID : string;
  pk_NotBefore : time;
  pk_NotAfter : option time;
}.

Record Identity := mkIdentity {
  id_Endpoint : string;
  id_AgentID : string;
  id_PrivateKey : string;
  id_PublicKey : string;
  id_KeyID : string;
  id_Generation : option Z;
  id_PendingRefresh : option RefreshAttempt;
  id_AccessToken : string;
  id_AccessTokenExpiresAt : time;
  id_RefreshToken : string;
  id_RefreshTokenExpiresAt : time;
  id_Scopes : list string;
  id_ControlPlaneKeys : list PinnedKey;
  id_PolicyAlgorithms : list Z;
  id_PolicyRequireAll : bool;
  id_PolicyMinimumSignatures : Z;
  id_EnrolledAt : time;
  id_UpdatedAt : time;
}.

(** The zero [Identity{}]. *)
Definition no_identity : Identity :=
  mkIdentity "" "" "" "" "" None None "" 0 "" 0 [] [] [] false 0 0 0.

(** Field updates of the methods below. *)
Definition with_stamps (enrolled updated : time) (i : Identity) : Identity :=
  mkIdentity (id_Endpoint i) (id_AgentID i) (id_PrivateKey i) (id_PublicKey i) (id_KeyID i)
    (id_Generation i) (id_PendingRefresh i) (id_AccessToken i) (id_AccessTokenExpiresAt i)
    (id_RefreshToken i) (id_RefreshTokenExpiresAt i) (id_Scopes i) (id_ControlPlaneKeys i)
    (id_PolicyAlgorithms i) (id_PolicyRequireAll i) (id_PolicyMinimumSignatures i) enrolled updated.
Definition with_pending (p : option RefreshAttempt) (i : Identity) : Identity :=
  mkIdentity (id_Endpoint i) (id_AgentID i) (id_PrivateKey i) (id_PublicKey i) (id_KeyID i)
    (id_Generation i) p (id_AccessToken i) (id_AccessTokenExpiresAt i)
    (id_RefreshToken i) (id_RefreshTokenExpiresAt i) (id_Scopes i) (id_ControlPlaneKeys i)
    (id_PolicyAlgorithms i) (id_PolicyRequireAll i) (id_PolicyMinimumSignatures i)
    (id_EnrolledAt i) (id_UpdatedAt i).
Definition with_credentials (agent access : string) (access_expiry : time)
    (refresh : string) (refresh_expiry : time) (scopes : list string) (i : Identity) : Identity :=
  mkIdentity (id_Endpoint i) agent (id_PrivateKey i) (id_PublicKey i) (id_KeyID i)
    (id_Generation i) (id_PendingRefresh i) access access_expiry refresh refresh_expiry scopes
    (id_ControlPlaneKeys i) (id_PolicyAlgorithms i) (id_PolicyRequireAll i)
    (id_PolicyMinimumSignatures i) (id_EnrolledAt i) (id_UpdatedAt i).
Definition with_trust (keys : list PinnedKey) (algorithms : list Z) (all : bool) (minimum : Z)
    (i : Identity) : Identity :=
  mkIdentity (id_Endpoint i) (id_AgentID i) (id_PrivateKey i) (id_PublicKey i) (id_KeyID i)
    (id_Generation i) (id_PendingRefresh i) (id_AccessToken i) (id_AccessTokenExpiresAt i)
    (id_RefreshToken i) (id_RefreshTokenExpiresAt i) (id_Scopes i) keys algorithms all minimum
    (id_EnrolledAt i) (id_UpdatedAt i).

Record Store := mkStore { st_path : string; st_identity : option Identity }.

Inductive cred_err :=
| NotEnrolled
| CommitConflict
| GenerationSkipped
| BadPrivateKey
| CredIO (e : io_err).

Definition fileMode : Z := 384.            (* 0o600 *)
Definition refreshSkew : duration := 5 * minute.

(** ** Pure parts of the API *)

Definition Enrolled (s : Store) : bool :=
  match st_identity s with
  | Some i => negb (id_AgentID i =? "")%string && negb (id_RefreshToken i =? "")%string
  | None => false
  end.

Definition StoreIdentity (s : Store) : Identity * bool :=
  match st_identity s with
  | Some i => (i, true)
  | None => (no_identity, false)
  end.

Definition SigningKey (i : Identity) : result bytes cred_err :=
  match b64_decode (id_PrivateKey i) with
  | None => Err BadPrivateKey
  | Some raw => if slen raw =? PrivateKeySize then Ok raw else Err BadPrivateKey
  end.

Definition NeedsRefresh (i : Identity) (now : time) : bool :=
  if (id_AccessToken i =? "")%string then true
  else if is_zero (id_AccessTokenExpiresAt i) then false
  else after (t_add now refreshSkew) (id_AccessTokenExpiresAt i).

Definition RefreshExpired (i : Identity) (now : time) : bool :=
  if (id_RefreshToken i =? "")%string then true
  else if is_zero (id_RefreshTokenExpiresAt i) then false
  else after now (id_RefreshTokenExpiresAt i).

(** ** Operations on the store *)

Section Store.
Context `{Json Identity}.

(** [Open]: [default] is the configured default path. *)
Definition Open (default path : string) : IO Store :=
  let path := if blank path then default else path in
  fun w => match read_file path w with
           | (Err NotExist, w') => (Ok (mkStore path None), w')
           | (Err e, w') => (Err e, w')
           | (Ok data, w') =>
               match json_unmarshal data with
               | Some i => (Ok (mkStore path (Some i)), w')
               | None => (Err DecodeFailed, w')
               end
           end.

Definition persist (s : Store) (i : Identity) : IO unit :=
  match json_marshal i with
  | None => io_fail EncodeFailed
  | Some data =>
      let directory := dir (st_path s) in
      replace_file directory ".komari-credentials-" data fileMode
        (fun name => rename name (st_path s) ;; sync_directory directory)
  end.

(** The common tail of every mutator: persist, then publish in memory. *)
Definition commit_identity (s : Store) (next : Identity) (w : World)
    : result unit cred_err * Store * World :=
  match persist s next w with
  | (Ok _, w') => (Ok tt, mkStore (st_path s) (Some next), w')
  | (Err e, w') => (Err (CredIO e), s, w')
  end.

Definition Save (now : time) (i : Identity) (s : Store) (w : World) :=
  let enrolled := if is_zero (id_EnrolledAt i) then now else id_EnrolledAt i in
  commit_identity s (with_stamps enrolled now i) w.

Definition UpdateCredentials (now : time) (agentID accessToken : string) (accessExpiry : time)
    (refreshToken : string) (refreshExpiry : time) (scopes : list string)
    (s : Store) (w : World) : result unit cred_err * Store * World :=
  match st_identity s with
  | None => (Err NotEnrolled, s, w)
  | Some i =>
      let agent := if (agentID =? "")%string then id_AgentID i else agentID in
      let '(rt, re) := if (refreshToken =? "")%string
                       then (id_RefreshToken i, id_RefreshTokenExpiresAt i)
                       else (refreshToken, refreshExpiry) in
      let sc := match scopes with [] => id_Scopes i | _ => scopes end in
      commit_identity s
        (with_stamps (id_EnrolledAt i) now (with_credentials agent accessToken accessExpiry rt re sc i)) w
  end.

Definition PinTrustBundle (now : time) (keys : list PinnedKey) (algorithms : list Z)
    (requireAll : bool) (minimum : Z) (s : Store) (w : World)
    : result unit cred_err * Store * World :=
  match st_identity s with
  | None => (Err NotEnrolled, s, w)
  | Some i =>
      commit_identity s
        (with_stamps (id_EnrolledAt i) now (with_trust keys algorithms requireAll minimum i)) w
  end.

Definition Clear (s : Store) (w : World) : result unit cred_err * Store * World :=
  match remove (st_path s) w with
  | (Ok _, w') | (Err NotExist, w') => (Ok tt, mkStore (st_path s) None, w')
  | (Err e, w') => (Err (CredIO e), s, w')
  end.

(** [uuid] is the identifier [uuid.NewString] draws. *)
Definition BeginRefresh (now : time) (uuid : string) (s : Store) (w : World)
    : result Identity cred_err * Store * World :=
  match st_identity s with
  | None => (Err NotEnrolled, s, w)
  | Some i =>
      if (id_RefreshToken i =? "")%string then (Err NotEnrolled, s, w)
      else match id_PendingRefresh i with
      | Some _ => (Ok i, s, w)
      | None =>
          let next := with_stamps (id_EnrolledAt i) now (with_pending (Some (mkAttempt uuid now)) i) in
          match commit_identity s next w with
          | (Ok _, s', w') => (Ok next, s', w')
          | (Err e, s', w') => (Err e, s', w')
          end
      end
  end.

(** The conditions under which [CommitRefresh] reports a conflict. *)
Definition commit_matches (stored before after : Identity) : bool :=
  match id_PendingRefresh before, id_PendingRefresh stored with
  | Some pb, Some ps =>
      (id_RefreshToken stored =? id_RefreshToken before)%string &&
      (id_AgentID stored =? id_AgentID before)%string &&
      (RequestID ps =? RequestID pb)%string &&
      (id_AgentID after =? id_AgentID before)%string &&
      bool_decide (id_Generation after <> None)
  | _, _ => false
  end.
(** [*after.Generation != *before.Generation+1], on [uint64]. *)
Definition generation_follows (before after : Identity) : bool :=
  match id_Generation before, id_Generation after with
  | Some b, Some a => a =? wrapu64 (b + 1)
  | _, _ => true
  end.

Definition CommitRefresh (now : time) (before after : Identity) (s : Store) (w : World)
    : result unit cred_err * Store * World :=
  match st_identity s with
  | None => (Err CommitConflict, s, w)
  | Some stored =>
      if negb (commit_matches stored before after) then (Err CommitConflict, s, w)
      else if negb (generation_follows before after) then (Err GenerationSkipped, s, w)
      else commit_identity s (with_stamps (id_EnrolledAt stored) now (with_pending None after)) w
  end.
End Store.

(** ** Theorems *)

Section Theorems.
Context `{JI : Json Identity}.

(** The temporary names of this writer never hit the credentials file. *)
Definition avoids (s : Store) (w : World) : Prop :=
  temps_avoid (dir (st_path s)) ".komari-credentials-" (st_path s) w.
Definition clean_trace (w : World) : Prop := w_trace w = [].

Lemma persist_atomic s i w r w' :
  avoids s w -> clean_trace w -> persist s i w = (r, w') ->
  match json_marshal i with
  | Some data => atomic_write (st_path s) (mkFile data fileMode) w r w'
  | None => r = Err EncodeFailed /\ w' = w
  end.
Proof.
  unfold persist. intros Ha Ht Hrun. destruct (json_marshal i) as [data|].
  - eapply replace_file_atomic; [apply publishes_rename_sync|exact Ha|by rewrite Ht|exact Hrun].
  - by injection Hrun as <- <-.
Qed.

(** What a mutator that ends in [commit_identity] guarantees. *)
Lemma commit_identity_spec s next w r s' w' :
  avoids s w -> clean_trace w -> commit_identity s next w = (r, s', w') ->
  match r with
  | Ok _ => st_identity s' = Some next /\ st_path s' = st_path s /\
      exists data, json_marshal next = Some data /\
        w_fs w' = <[st_path s := mkFile data fileMode]> (w_fs w)
  | Err e => s' = s /\
      (e <> CredIO (Fault OpSyncDir) /\ w_fs w' !! st_path s = w_fs w !! st_path s \/
       e = CredIO (Fault OpSyncDir) /\
       exists data, json_marshal next = Some data /\
         w_fs w' !! st_path s = Some (mkFile data fileMode))
  end.
Proof.
  intros Ha Ht. unfold commit_identity. destruct (persist s next w) as [[[]|e] w1] eqn:E;
    intros [= <- <- <-]; pose proof (persist_atomic _ _ _ _ _ Ha Ht E) as Hp;
    destruct (json_marshal next) as [data|]; simpl; try by destruct Hp.
  - split_and!; [done..|]. exists data. split; [done|]. by apply (aw_ok _ _ _ _ _ Hp).
  - split; [done|]. destruct (aw_err _ _ _ _ _ Hp e eq_refl) as [[??]|[-> Hf]]; [left; split; congruence|].
    right. split; [done|]. exists data. by rewrite Hf, lookup_insert_eq.
  - destruct Hp as [[= ->] ->]. split; [done|]. by left.
Qed.

Lemma CommitRefresh_ok_inv now before after s w s' w' :
  CommitRefresh now before after s w = (Ok tt, s', w') ->
  exists stored, st_identity s = Some stored /\
    commit_matches stored before after = true /\ generation_follows before after = true /\
    commit_identity s (with_stamps (id_EnrolledAt stored) now (with_pending None after)) w = (Ok tt, s', w').
Proof.
  unfold CommitRefresh. destruct (st_identity s) as [stored|]; [|done].
  destruct (commit_matches stored before after) eqn:E1; simpl; [|done].
  destruct (generation_follows before after) eqn:E2; simpl; [|done]. eauto 10.
Qed.

(** C12: a crash at any point of writing the credentials file, or any failing
    system call, leaves at the destination either the previous file or the
    complete new one, and no other existing file is touched. *)
Theorem credentials_crash_atomic s i data w r w' :
  json_marshal i = Some data -> avoids s w -> clean_trace w -> persist s i w = (r, w') ->
  Forall (old_or_new (st_path s) (mkFile data fileMode) (w_fs w)) (w_trace w') /\
  (forall q, q ∈ dom (w_fs w) -> q <> st_path s -> w_fs w' !! q = w_fs w !! q) /\
  (r = Ok tt -> w_fs w' !! st_path s = Some (mkFile data fileMode)).
Proof.
  intros Hj Ha Ht Hrun. pose proof (persist_atomic _ _ _ _ _ Ha Ht Hrun) as Hp. rewrite Hj in Hp.
  split_and!; [apply Hp|apply Hp|]. intros Hr. rewrite (aw_ok _ _ _ _ _ Hp Hr). apply lookup_insert_eq.
Qed.

(** A refresh commits only the pending operation it was begun for: the
    stored request, refresh token and agent are the ones the caller started
    from, the generation advances by exactly one, and the new identity has no
    pending request left. *)
Theorem CommitRefresh_ok now before after s w s' w' :
  CommitRefresh now before after s w = (Ok tt, s', w') ->
  exists stored ps pb g i',
    st_identity s = Some stored /\ id_PendingRefresh stored = Some ps /\
    id_PendingRefresh before = Some pb /\ RequestID ps = RequestID pb /\
    id_RefreshToken stored = id_RefreshToken before /\
    id_AgentID stored = id_AgentID before /\ id_AgentID after = id_AgentID before /\
    id_Generation after = Some g /\
    (forall b, id_Generation before = Some b -> g = wrapu64 (b + 1)) /\
    st_identity s' = Some i' /\ id_PendingRefresh i' = None /\
    id_RefreshToken i' = id_RefreshToken after /\ id_AccessToken i' = id_AccessToken after /\
    id_Generation i' = Some g /\ id_EnrolledAt i' = id_EnrolledAt stored.
Proof.
  intros (stored & Hs & Hm & Hg & Hc)%CommitRefresh_ok_inv.
  unfold commit_identity in Hc. destruct (persist _ _ _) as [[|] ?]; [|done]. injection Hc as <- <-.
  unfold commit_matches in Hm. unfold generation_follows in Hg.
  destruct (id_PendingRefresh before) as [pb|] eqn:Epb, (id_PendingRefresh stored) as [ps|] eqn:Eps; try done.
  bool_hyps. destruct (id_Generation after) as [g|] eqn:Eg; [|done].
  eexists stored, ps, pb, g, _. split_and!; try done.
  intros b Hb. rewrite Hb in Hg. by bool_hyps.
Qed.

(** A request identifier is spent by its commit: committing the same
    refresh a second time is always a conflict. *)
Theorem CommitRefresh_once now1 now2 before after after2 s w s' w' w2 :
  CommitRefresh now1 before after s w = (Ok tt, s', w') ->
  CommitRefresh now2 before after2 s' w2 = (Err CommitConflict, s', w2).
Proof.
  intros (i' & Hi' & Hp)%CommitRefresh_ok_inv.
  destruct Hp as (_ & _ & Hc). unfold commit_identity in Hc.
  destruct (persist _ _ _) as [[|] ?]; [|done]. injection Hc as <- <-.
  unfold CommitRefresh. simpl. unfold commit_matches. simpl.
  by destruct (id_PendingRefresh before).
Qed.

(** [BeginRefresh] never starts a second rotation: once it has returned a
    request, it returns the same one again, in the same process or after a
    restart that reads the file back. *)
Theorem BeginRefresh_idempotent `{JL : !JsonLaws Identity} now uuid s w i s' w' now2 uuid2 default w2 :
  avoids s w -> clean_trace w -> blank (st_path s) = false ->
  BeginRefresh now uuid s w = (Ok i, s', w') ->
  (id_PendingRefresh i <> None) /\
  BeginRefresh now2 uuid2 s' w2 = (Ok i, s', w2) /\
  (st_identity s <> Some i -> json_ok i -> w_faults w' = [] ->
   exists w3, Open default (st_path s) w' = (Ok s', w3) /\
   BeginRefresh now2 uuid2 s' w3 = (Ok i, s', w3)).
Proof.
  intros Ha Ht Hb. unfold BeginRefresh at 1.
  destruct (st_identity s) as [i0|] eqn:Es; [|done].
  destruct (id_RefreshToken i0 =? "")%string eqn:Er; [done|].
  destruct (id_PendingRefresh i0) as [p|] eqn:Ep.
  { intros [= -> <- <-]. split; [congruence|]. split; [|by intros []].
    unfold BeginRefresh. by rewrite Es, Er, Ep. }
  destruct (commit_identity s _ w) as [[[[]|e] s1] w1] eqn:Ec; [|done]. intros [= <- -> ->].
  apply commit_identity_spec in Ec as (Hs & Hpath & data & Hj & Hf); [|done..].
  set (i := with_stamps _ _ _) in *.
  assert (Hagain : forall w3, BeginRefresh now2 uuid2 s' w3 = (Ok i, s', w3)).
  { intros w3. unfold BeginRefresh. rewrite Hs. simpl. by rewrite Er. }
  split; [done|]. split; [apply Hagain|]. intros _ Hok Hfaults.
  unfold Open. rewrite Hb. unfold read_file, call. rewrite Hfaults. simpl.
  rewrite Hf, lookup_insert_eq. simpl. rewrite (json_roundtrip _ _ Hok Hj).
  eexists. split; [|apply Hagain]. f_equal. f_equal. destruct s'; simpl in *; congruence.
Qed.

(** Rotating the credentials never touches the keypair, the pinned trust
    or the policy, never clears the refresh token, and on any failure the
    identity in memory is the old one. *)
Theorem UpdateCredentials_keeps_trust now a at_ ae rt re sc s w r s' w' i :
  st_identity s = Some i -> UpdateCredentials now a at_ ae rt re sc s w = (r, s', w') ->
  (is_ok r = false -> s' = s) /\
  exists i', st_identity s' = Some i' /\
    id_PrivateKey i' = id_PrivateKey i /\ id_PublicKey i' = id_PublicKey i /\
    id_KeyID i' = id_KeyID i /\ id_ControlPlaneKeys i' = id_ControlPlaneKeys i /\
    id_PolicyAlgorithms i' = id_PolicyAlgorithms i /\
    id_PolicyMinimumSignatures i' = id_PolicyMinimumSignatures i /\
    id_PolicyRequireAll i' = id_PolicyRequireAll i /\
    (id_RefreshToken i <> "" -> id_RefreshToken i' <> "") /\
    (rt = "" -> id_RefreshToken i' = id_RefreshToken i /\
                id_RefreshTokenExpiresAt i' = id_RefreshTokenExpiresAt i).
Proof.
  intros Hi. unfold UpdateCredentials, commit_identity. rewrite Hi.
  destruct (rt =? "")%string eqn:Ert; destruct (persist _ _ _) as [[|] ?]; intros [= <- <- <-];
    bool_hyps; (split; [done|]); eexists; (split; [done|]); naive_solver.
Qed.

(** A commit that fails leaves the identity in memory unchanged, and the
    file too unless what failed is the directory flush after the rename: then
    the error is returned although the file already holds the new identity,
    with the pending request gone. *)
Theorem CommitRefresh_error now before after s w e s' w' :
  avoids s w -> clean_trace w ->
  CommitRefresh now before after s w = (Err e, s', w') ->
  s' = s /\
  (e <> CredIO (Fault OpSyncDir) -> w_fs w' !! st_path s = w_fs w !! st_path s) /\
  (e = CredIO (Fault OpSyncDir) ->
   exists stored data, st_identity s = Some stored /\
     json_marshal (with_stamps (id_EnrolledAt stored) now (with_pending None after)) = Some data /\
     w_fs w' !! st_path s = Some (mkFile data fileMode)).
Proof.
  intros Ha Ht. unfold CommitRefresh. destruct (st_identity s) as [stored|] eqn:Es; [|by intros [= <- <- <-]].
  destruct (negb _); [by intros [= <- <- <-]|]. destruct (negb _); [by intros [= <- <- <-]|].
  intros Hc. apply commit_identity_spec in Hc as [-> [[??]|(-> & data & ? & ?)]]; [done| |done|done].
  split; [done|]. split; [done|]. intros _. by exists stored, data.
Qed.

(** An unexpired refresh token never demands re-enrollment, and a token the
    agent still considers fresh is valid for at least [refreshSkew]. *)
Lemma NeedsRefresh_fresh i now :
  NeedsRefresh i now = false ->
  id_AccessToken i <> "" /\
  (id_AccessTokenExpiresAt i = zero_time \/ now + refreshSkew <= id_AccessTokenExpiresAt i).
Proof.
  unfold NeedsRefresh. destruct (id_AccessToken i =? "")%string eqn:E1; [done|].
  destruct (is_zero _) eqn:E2; intros H; split; bool_hyps; try done; [left|right]; tlia.
Qed.
End Theorems.

(** ** Witnesses

    One enrolled identity with a refresh in flight, on an empty disk. *)

Definition wit_identity : Identity :=
    mkIdentity "https://p" "agent-1" "sk" "pk" "kid" (Some 4) None "at" 10 "rt" 20 [] [] [] false 0 1 1.
Definition wit_begun : Identity :=
    with_stamps 1 7 (with_pending (Some (mkAttempt "req" 7)) wit_identity).
Definition wit_after : Identity :=
    mkIdentity "https://p" "agent-1" "sk" "pk" "kid" (Some 5) None "at2" 30 "rt2" 40 [] [] [] false 0 1 1.
Definition wit_store (i : Identity) : Store := mkStore "/k/credentials.json" (Some i).
Definition wit_world (faults : list bool) : World := mkWorld empty faults ["1"; "2"] [].
Definition wit_json (i : Identity) : Json Identity :=
    {| json_marshal := fun _ => Some "{}"; json_unmarshal := fun _ => Some i |}.
Definition wit_laws (i : Identity) : @JsonLaws Identity (wit_json i).
  Proof.
    unshelve refine {| json_ok := fun a => a = i |}. intros a s -> _. reflexivity.
  Defined.

Lemma wit_avoids i faults : avoids (wit_store i) (wit_world faults).
  Proof. apply temps_avoid_all. vm_compute. repeat constructor; discriminate. Qed.

Lemma credentials_crash_atomic_witness :
    let J := wit_json wit_after in
    Forall (old_or_new "/k/credentials.json" (mkFile "{}" fileMode) empty)
      (w_trace (snd (persist (wit_store wit_begun) wit_after (wit_world [false; false; false; true])))).
  Proof.
    intros J.
    destruct (persist (wit_store wit_begun) wit_after (wit_world [false; false; false; true])) as [r w'] eqn:E.
    destruct (credentials_crash_atomic (JI := J) (wit_store wit_begun) wit_after "{}"
                (wit_world [false; false; false; true]) r w' eq_refl (wit_avoids _ _) eq_refl E) as (H & _).
    exact H.
  Defined.

Lemma CommitRefresh_ok_witness :
  let J := wit_json wit_after in
  let run := CommitRefresh 9 wit_begun wit_after (wit_store wit_begun) (wit_world []) in
  fst (fst run) = Ok tt /\
  exists i', st_identity (snd (fst run)) = Some i' /\ id_PendingRefresh i' = None.
Proof.
  intros J run. assert (E : fst (fst run) = Ok tt) by (vm_compute; reflexivity). split; [exact E|].
  destruct (CommitRefresh_ok (JI := J) _ _ _ _ _ _ _ (run_outcome run _ E)) as (st & ps & pb & g & i' & H).
  exists i'. split; apply H.
Defined.

Lemma CommitRefresh_once_witness :
  let J := wit_json wit_after in
  let run := CommitRefresh 9 wit_begun wit_after (wit_store wit_begun) (wit_world []) in
  CommitRefresh 11 wit_begun wit_after (snd (fst run)) (snd run) = (Err CommitConflict, snd (fst run), snd run).
Proof.
  intros J run. assert (E : fst (fst run) = Ok tt) by (vm_compute; reflexivity).
  exact (CommitRefresh_once (JI := J) 9 11 _ _ _ _ _ _ _ _ (run_outcome run _ E)).
Defined.

Lemma BeginRefresh_idempotent_witness :
  let J := wit_json wit_begun in
  let run := BeginRefresh 7 "req" (wit_store wit_identity) (wit_world []) in
  fst (fst run) = Ok wit_begun /\
  exists w3, Open "/d" "/k/credentials.json" (snd run) = (Ok (snd (fst run)), w3) /\
    BeginRefresh 50 "other" (snd (fst run)) w3 = (Ok wit_begun, snd (fst run), w3).
Proof.
  intros J run. pose (L := wit_laws wit_begun).
  assert (E : fst (fst run) = Ok wit_begun) by (vm_compute; reflexivity). split; [exact E|].
  destruct (BeginRefresh_idempotent (JI := J) (JL := L) 7 "req" (wit_store wit_identity) (wit_world [])
              wit_begun _ _ 50 "other" "/d" (wit_world []) (wit_avoids _ _) eq_refl eq_refl
              (run_outcome run _ E)) as (_ & _ & H).
  apply H; [intros [=]|reflexivity|vm_compute; reflexivity].
Defined.

Lemma UpdateCredentials_keeps_trust_witness :
  let J := wit_json wit_after in
  let run := UpdateCredentials 9 "" "at9" 90 "" 0 [] (wit_store wit_identity) (wit_world []) in
  fst (fst run) = Ok tt /\ exists i', st_identity (snd (fst run)) = Some i' /\ id_RefreshToken i' = "rt".
Proof.
  intros J run. assert (E : fst (fst run) = Ok tt) by (vm_compute; reflexivity). split; [exact E|].
  destruct (UpdateCredentials_keeps_trust (JI := J) 9 "" "at9" 90 "" 0 [] (wit_store wit_identity) (wit_world [])
    _ _ _ wit_identity eq_refl (run_outcome run _ E)) as (_ & i' & Hi' & H).
  exists i'. split; [exact Hi'|]. apply H. reflexivity.
Defined.

Lemma CommitRefresh_error_witness :
  let J := wit_json wit_after in
  let faults := [false; false; false; false; false; false; false; true] in
  let run := CommitRefresh 9 wit_begun wit_after (wit_store wit_begun) (wit_world faults) in
  fst (fst run) = Err (CredIO (Fault OpSyncDir)) /\
  snd (fst run) = wit_store wit_begun /\
  w_fs (snd run) !! "/k/credentials.json" = Some (mkFile "{}" fileMode).
Proof.
  intros J faults run.
  assert (E : fst (fst run) = Err (CredIO (Fault OpSyncDir))) by (vm_compute; reflexivity). split; [exact E|].
  destruct (CommitRefresh_error (JI := J) 9 wit_begun wit_after (wit_store wit_begun) (wit_world faults)
    _ _ _ (wit_avoids _ _) eq_refl (run_outcome run _ E)) as (Hs & _ & H).
  split; [exact Hs|]. destruct (H eq_refl) as (st & data & Hst & Hd & Hf).
  injection Hd as <-. exact Hf.
Defined.
