(* ===== verification/Replay.v ===== *)
(** * Replay protection ([core/signing/replay.go])

    The guard keeps the nonces already carried out, in memory and in a file.
    [iter] is the order in which Go happens to range over a map: any
    permutation of its entries. *)

From S2P Require Import Prelude.
From S2P Require Import GoStd.
From S2P Require Import GoPath.
From S2P Require Import Disk.
From S2P Require Import External.

Local Open Scope string_scope.
Local Open Scope Z_scope.

Definition maximumEntries : nat := 4096.
Definition fileMode : Z := 384.            (* 0o600 *)

Abbreviation entries := (gmap string time).

Record ReplayGuard := mkGuard {
  rg_path : string;
  rg_entries : entries;
  rg_loaded : bool;
}.

Inductive replay_err :=
| NoNonce | Unavailable (e : io_err) | AlreadyUsed | NoExpiry | NotRecorded (e : io_err).

Definition NewReplayGuard (default path : string) : ReplayGuard :=
  mkGuard (if blank path then default else path) empty false.

Section Guard.
(** The JSON object; [None] is the [null] document (a nil map). *)
Context `{Json (option entries)}.
Variable iter : entries -> list (string * time).

Definition load (g : ReplayGuard) : World -> result unit io_err * ReplayGuard * World := fun w =>
  if rg_loaded g then (Ok tt, g, w)
  else match read_file (rg_path g) w with
  | (Err NotExist, w') => (Ok tt, mkGuard (rg_path g) (rg_entries g) true, w')
  | (Err e, w') => (Err e, g, w')
  | (Ok data, w') =>
      match json_unmarshal data with
      | None => (Err DecodeFailed, g, w')
      | Some (Some stored) => (Ok tt, mkGuard (rg_path g) stored true, w')
      | Some None => (Ok tt, mkGuard (rg_path g) (rg_entries g) true, w')
      end
  end.

Definition oldest_step (acc : string * time) (kv : string * time) : string * time :=
  if (fst acc =? "")%string || before (snd kv) (snd acc) then kv else acc.
Definition oldest (m : entries) : string * time := fold_left oldest_step (iter m) ("", zero_time).

(** The eviction loop; [fuel] bounds its iterations by the map's size. *)
Fixpoint evict (fuel : nat) (m : entries) : entries :=
  match fuel with
  | O => m
  | S fuel =>
      if Nat.leb (size m) maximumEntries then m
      else let o := fst (oldest m) in
           if (o =? "")%string then m else evict fuel (delete o m)
  end.

Definition drop_expired (now : time) (m : entries) : entries :=
  filter (fun kv => after now (snd kv) = false) m.
Definition prune (now : time) (m : entries) : entries :=
  let live := drop_expired now m in evict (size live) live.
Definition pruneLocked (now : time) (g : ReplayGuard) : ReplayGuard :=
  mkGuard (rg_path g) (prune now (rg_entries g)) (rg_loaded g).

Definition persistLocked (g : ReplayGuard) : IO unit :=
  match json_marshal (Some (rg_entries g)) with
  | None => io_fail EncodeFailed
  | Some data =>
      replace_file (dir (rg_path g)) ".komari-nonces-" data fileMode (fun name => rename name (rg_path g))
  end.

Definition Consume (now : time) (nonce : string) (expiresAt : time) (g : ReplayGuard) (w : World)
    : result unit replay_err * ReplayGuard * World :=
  let trimmed := trim_space nonce in
  if (trimmed =? "")%string then (Err NoNonce, g, w) else
  match load g w with
  | (Err e, g, w) => (Err (Unavailable e), g, w)
  | (Ok _, g, w) =>
      let g := pruneLocked now g in
      match rg_entries g !! trimmed with
      | Some _ => (Err AlreadyUsed, g, w)
      | None =>
          if is_zero expiresAt then (Err NoExpiry, g, w) else
          let g' := mkGuard (rg_path g) (<[trimmed := expiresAt]> (rg_entries g)) (rg_loaded g) in
          match persistLocked g' w with
          | (Ok _, w) => (Ok tt, g', w)
          | (Err e, w) =>
              (Err (NotRecorded e), mkGuard (rg_path g) (delete trimmed (rg_entries g')) (rg_loaded g), w)
          end
      end
  end.

Definition Seen (now : time) (nonce : string) (g : ReplayGuard) (w : World) : bool * ReplayGuard * World :=
  match load g w with
  | (Err _, g, w) => (true, g, w)
  | (Ok _, g, w) =>
      let g := pruneLocked now g in
      (bool_decide (is_Some (rg_entries g !! trim_space nonce)), g, w)
  end.
End Guard.

(** ** Pruning *)

Section Pruning.
Variable iter : entries -> list (string * time).
Hypothesis iter_perm : forall m, iter m ≡ₚ map_to_list m.

(** The fold finds an entry of the list with the least expiry. *)
Lemma oldest_fold l acc :
  Forall (fun kv => fst kv <> "") l -> fst acc <> "" ->
  let r := fold_left oldest_step l acc in
  (r = acc \/ r ∈ l) /\ snd r <= snd acc /\ Forall (fun kv => snd r <= snd kv) l.
Proof.
  revert acc. induction l as [|kv l IH]; intros acc Hl Hacc; simpl; [split_and!; [by left|lia|constructor]|].
  apply Forall_cons in Hl as [Hkv Hl].
  assert (Hstep : oldest_step acc kv = if before (snd kv) (snd acc) then kv else acc)
    by (unfold oldest_step; by rewrite (proj2 (String.eqb_neq _ _) Hacc)).
  rewrite Hstep. destruct (before (snd kv) (snd acc)) eqn:E.
  - destruct (IH kv Hl Hkv) as (H1 & H2 & H3). split_and!; [set_solver|tlia|by constructor].
  - destruct (IH acc Hl Hacc) as (H1 & H2 & H3). split_and!; [set_solver|tlia|].
    constructor; [tlia|done].
Qed.

Definition named (m : entries) : Prop := m !! "" = None.

Lemma oldest_spec m :
  named m -> m <> empty ->
  exists k e, oldest iter m = (k, e) /\ m !! k = Some e /\ k <> "" /\
    forall k' e', m !! k' = Some e' -> e <= e'.
Proof.
  intros Hn Hm. unfold oldest.
  assert (Hin : forall kv, kv ∈ iter m <-> m !! fst kv = Some (snd kv)).
  { intros [k e]. rewrite iter_perm. apply elem_of_map_to_list. }
  assert (Hall : Forall (fun kv => fst kv <> "") (iter m)).
  { apply Forall_forall. intros kv Hkv%Hin Heq. rewrite Heq in Hkv. by rewrite Hn in Hkv. }
  destruct (iter m) as [|kv l] eqn:El.
  { destruct Hm. apply map_to_list_empty_iff, Permutation_nil. by rewrite <- iter_perm, El. }
  simpl. unfold oldest_step at 2. simpl.
  apply Forall_cons in Hall as [Hkv Hl].
  destruct (oldest_fold l kv Hl Hkv) as (H1 & H2 & H3).
  destruct (fold_left oldest_step l kv) as [k e] eqn:Er. exists k, e.
  assert (Hk : (k, e) ∈ kv :: l) by (destruct H1 as [<-|H1]; set_solver).
  split_and!; [done|by apply (proj1 (Hin (k, e)))| |].
  - apply (proj1 (Hin (k, e))) in Hk. simpl in Hk. intros ->. by rewrite Hn in Hk.
  - intros k' e' Hk'%(proj2 (Hin (k', e'))). apply elem_of_cons in Hk' as [<-|Hk']; [done|].
    rewrite Forall_forall in H3. by apply (H3 (k', e')).
Qed.

Lemma evict_spec fuel m :
  named m -> (size m <= fuel)%nat ->
  evict iter fuel m ⊆ m /\ (size (evict iter fuel m) <= maximumEntries)%nat /\
  ((size m <= maximumEntries)%nat -> evict iter fuel m = m) /\
  (forall k e k' e', m !! k = Some e -> evict iter fuel m !! k = None ->
     evict iter fuel m !! k' = Some e' -> e <= e').
Proof.
  revert m. induction fuel as [|fuel IH]; intros m Hn Hs; simpl.
  { split_and!; [done|lia|done|]. intros k e k' e' H1 H2. by rewrite H1 in H2. }
  destruct (Nat.leb_spec (size m) maximumEntries) as [Hle|Hgt].
  { split_and!; [done|done|done|]. intros k e k' e' H1 H2. by rewrite H1 in H2. }
  assert (Hne : m <> empty) by (intros ->; rewrite map_size_empty in Hgt; lia).
  destruct (oldest_spec m Hn Hne) as (o & e & -> & Ho & Hoe & Hmin). simpl.
  replace (o =? "")%string with false by (symmetry; by apply String.eqb_neq).
  assert (Hsz : size m = S (size (delete o m))) by (rewrite map_size_delete_Some by eauto; lia).
  destruct (IH (delete o m)) as (H1 & H2 & H3 & H4);
    [unfold named; by rewrite lookup_delete_None; right|lia|].
  split_and!; [etrans; [exact H1|apply delete_subseteq]|done|lia|].
  intros k e1 k' e2 Hk Hk0 Hk'. destruct (decide (k = o)) as [->|Hko].
  - rewrite Ho in Hk. injection Hk as <-. apply Hmin with k'. eapply lookup_weaken; [exact Hk'|]. etrans; [exact H1|apply delete_subseteq].
  - apply (H4 k e1 k' e2); [by rewrite lookup_delete_ne|done|done].
Qed.

Lemma drop_expired_lookup now m k e :
  drop_expired now m !! k = Some e <-> m !! k = Some e /\ now <= e.
Proof.
  unfold drop_expired. rewrite map_lookup_filter_Some. simpl. unfold after. by rewrite Z.ltb_ge.
Qed.

Lemma named_drop now m : named m -> named (drop_expired now m).
Proof. intros Hn. unfold named, drop_expired. rewrite map_lookup_filter_None. by left. Qed.

(** Pruning leaves at most [maximumEntries] nonces, forgets no unexpired
    nonce while they fit, and when they do not, the ones it forgets expire no
    later than every one it keeps. *)
Theorem prune_spec now m :
  named m ->
  (size (prune iter now m) <= maximumEntries)%nat /\
  (forall k e, prune iter now m !! k = Some e -> m !! k = Some e /\ now <= e) /\
  ((size (drop_expired now m) <= maximumEntries)%nat ->
     forall k e, m !! k = Some e -> now <= e -> prune iter now m !! k = Some e) /\
  (forall k e k' e', m !! k = Some e -> now <= e -> prune iter now m !! k = None ->
     prune iter now m !! k' = Some e' -> e <= e').
Proof.
  intros Hn. unfold prune.
  destruct (evict_spec (size (drop_expired now m)) (drop_expired now m)) as (H1 & H2 & H3 & H4);
    [by apply named_drop|done|].
  split_and!; [done| | |].
  - intros k e Hk. apply drop_expired_lookup. by eapply lookup_weaken.
  - intros Hs k e Hk He. rewrite H3 by done. by apply drop_expired_lookup.
  - intros k e k' e' Hk He. apply H4. by apply drop_expired_lookup.
Qed.
End Pruning.

(** ** No replay *)

(** What can happen to a guard between two presentations of a nonce: any other
    operation of the process, or a restart, which keeps only the file. *)
Inductive event :=
| EvConsume (now : time) (nonce : string) (expiresAt : time)
| EvSeen (now : time) (nonce : string)
| EvRestart.

Definition ev_before (t : time) (ev : event) : Prop :=
  match ev with EvConsume now _ _ | EvSeen now _ => now <= t | EvRestart => True end.

Section NoReplay.
Context `{JI : Json (option entries)} {JL : JsonLaws (option entries)}.
Variable iter : entries -> list (string * time).
Hypothesis iter_perm : forall m, iter m ≡ₚ map_to_list m.
(** Nonces are proto3 strings, hence valid UTF-8: every record encodes. *)
Hypothesis encodable : forall m : entries, json_ok (Some m).

Definition run_event (ev : event) (gw : ReplayGuard * World) : ReplayGuard * World :=
  let '(g, w) := gw in
  match ev with
  | EvConsume now nonce exp => let '(_, g', w') := Consume iter now nonce exp g (forget_trace w) in (g', w')
  | EvSeen now nonce => let '(_, g', w') := Seen iter now nonce g (forget_trace w) in (g', w')
  | EvRestart => (mkGuard (rg_path g) empty false, w)
  end.

(** The file at the guard's path holds a record that contains [n]. *)
Definition on_disk (n : string) (e : time) (path : string) (w : World) : Prop :=
  exists f m, w_fs w !! path = Some f /\ json_unmarshal (f_data f) = Some (Some m) /\
    named m /\ m !! n = Some e.
(** [n] is recorded: on disk, and in memory once the file was read. *)
Definition recorded (n : string) (e : time) (g : ReplayGuard) (w : World) : Prop :=
  on_disk n e (rg_path g) w /\
  (rg_loaded g = true -> named (rg_entries g) /\ rg_entries g !! n = Some e).

(** The record the next operation works on still fits: nothing is evicted. *)
Definition fits (now : time) (g : ReplayGuard) (w : World) : Prop :=
  forall g' w', load g (forget_trace w) = (Ok tt, g', w') ->
    (size (drop_expired now (rg_entries g')) <= maximumEntries)%nat.
Definition ev_fits (ev : event) (g : ReplayGuard) (w : World) : Prop :=
  match ev with EvConsume now _ _ | EvSeen now _ => fits now g w | EvRestart => True end.

Definition safe_temps (g : ReplayGuard) : Prop :=
  forall r, temp_name (dir (rg_path g)) ".komari-nonces-" r <> rg_path g.

Lemma load_recorded n e g w r g' w' :
  recorded n e g w -> load g w = (r, g', w') ->
  recorded n e g' w' /\ rg_path g' = rg_path g /\ w_trace w' = w_trace w /\
  (r = Ok tt -> rg_loaded g' = true) /\ (rg_loaded g = true -> g' = g).
Proof.
  intros [(f & m & Hf & Hd & Hn & Hm) Hmem] Hl. unfold load in Hl.
  destruct (rg_loaded g) eqn:El.
  { injection Hl as <- <- <-. split_and!; try done. split; [by exists f, m|]. intros _. by apply Hmem. }
  assert (Hdisk : forall w2, w_fs w2 = w_fs w -> on_disk n e (rg_path g) w2)
    by (intros w2 Hw; exists f, m; by rewrite Hw).
  unfold read_file, call in Hl. simpl in Hl. rewrite Hf in Hl. destruct (hd false (w_faults w)).
  - injection Hl as <- <- <-. split_and!; try done. split; [by apply Hdisk|by rewrite El].
  - rewrite Hd in Hl. injection Hl as <- <- <-. split_and!; try done. split; [by apply Hdisk|done].
Qed.

Lemma prune_recorded n e now g w :
  recorded n e g w -> rg_loaded g = true -> now <= e ->
  (size (drop_expired now (rg_entries g)) <= maximumEntries)%nat ->
  recorded n e (pruneLocked iter now g) w.
Proof.
  intros [Hd Hm] Hl Hnow Hs. split; [done|]. intros _. simpl. destruct (Hm Hl) as [Hn Hk].
  destruct (prune_spec iter iter_perm now (rg_entries g) Hn) as (_ & Hsub & Hkeep & _).
  split; [|by apply Hkeep]. unfold named. destruct (prune iter now (rg_entries g) !! "") eqn:E; [|done].
  apply Hsub in E as [E _]. by rewrite Hn in E.
Qed.

Lemma persist_recorded n e g w r w' :
  safe_temps g -> w_trace w = [] -> recorded n e g w -> rg_loaded g = true ->
  persistLocked g w = (r, w') -> on_disk n e (rg_path g) w'.
Proof.
  intros Hs Ht [(f & m & Hf & Hd & Hn & Hm) Hmem] Hl Hp. unfold persistLocked in Hp.
  destruct (json_marshal _) as [data|] eqn:Ej.
  2: { injection Hp as <- <-. by exists f, m. }
  apply (replace_file_atomic _ _ (rg_path g)) in Hp as [Hok Herr _ _];
    [|apply publishes_rename|by intros r0 _; apply Hs|by rewrite Ht].
  destruct (Hmem Hl) as [Hn' Hm'].
  assert (Hnew : w_fs w' = <[rg_path g := mkFile data fileMode]> (w_fs w) -> on_disk n e (rg_path g) w').
  { intros Hw. exists (mkFile data fileMode), (rg_entries g).
    split_and!; [by rewrite Hw, lookup_insert_eq| |done|done].
    by apply (json_roundtrip (Some (rg_entries g))). }
  destruct r as [[]|e']; [by apply Hnew, Hok|].
  destruct (Herr e' eq_refl) as [[_ Hsame]|[_ Hw]]; [|by apply Hnew].
  exists f, m. by rewrite Hsame.
Qed.

Lemma run_event_recorded n e ev g w :
  safe_temps g -> recorded n e g w -> ev_before e ev -> ev_fits ev g w -> trim_space n = n ->
  let '(g', w') := run_event ev (g, w) in recorded n e g' w' /\ rg_path g' = rg_path g.
Proof.
  intros Hs Hr Hb Hfit Htrim.
  assert (Hr' : recorded n e g (forget_trace w)) by done.
  destruct ev as [now nonce exp|now nonce|]; simpl in *.
  - unfold Consume. destruct (trim_space nonce =? "")%string eqn:Eb; [done|].
    destruct (load g (forget_trace w)) as [[r g1] w1] eqn:El.
    destruct (load_recorded _ _ _ _ _ _ _ Hr' El) as (Hr1 & Hp1 & Ht1 & Hl1 & _).
    destruct r as [[]|]; [|done].
    assert (Hr2 := prune_recorded _ _ now _ _ Hr1 (Hl1 eq_refl) Hb (Hfit _ _ El)).
    destruct (rg_entries (pruneLocked iter now g1) !! trim_space nonce) eqn:Eseen; [done|].
    destruct (is_zero exp); [done|].
    set (g2 := pruneLocked iter now g1) in *. set (g3 := mkGuard _ (<[_ := _]> _) _).
    assert (Hne : trim_space nonce <> n).
    { intros Heq. destruct Hr2 as [_ Hm]. destruct (Hm (Hl1 eq_refl)) as [_ Hk]. rewrite Heq in Eseen. congruence. }
    assert (Hr3 : recorded n e g3 w1).
    { destruct Hr2 as [Hd Hm]. split; [done|]. intros _. simpl. destruct (Hm (Hl1 eq_refl)) as [Hn Hk].
      split; [|by rewrite lookup_insert_ne]. unfold named.
      rewrite lookup_insert_ne; [done|]. by apply String.eqb_neq in Eb. }
    assert (Hs3 : safe_temps g3) by (unfold safe_temps in *; simpl; by rewrite Hp1).
    destruct (persistLocked g3 w1) as [r2 w2] eqn:Ep.
    pose proof (persist_recorded _ _ _ _ _ _ Hs3 Ht1 Hr3 (Hl1 eq_refl) Ep) as Hd3.
    destruct r2; split; try done; (split; [done|]); intros _; simpl; [by apply Hr3, Hl1|].
    destruct Hr2 as [_ Hm]. rewrite delete_insert_id by done. by apply Hm, Hl1.
  - unfold Seen. destruct (load g (forget_trace w)) as [[r g1] w1] eqn:El.
    destruct (load_recorded _ _ _ _ _ _ _ Hr' El) as (Hr1 & Hp1 & Ht1 & Hl1 & _).
    destruct r as [[]|]; [|done]. split; [|done]. apply prune_recorded; auto. by apply (Hfit _ _ El).
  - split; [|done]. destruct Hr as [Hd _]. by split.
Qed.

(** Runs of the guard during which the record always fits. *)
Inductive runs (e : time) : ReplayGuard * World -> ReplayGuard * World -> Prop :=
| runs_refl gw : runs e gw gw
| runs_step g w ev gw' :
    ev_before e ev -> ev_fits ev g w -> runs e (run_event ev (g, w)) gw' -> runs e (g, w) gw'.

Lemma runs_recorded n e gw gw' :
  runs e gw gw' -> safe_temps (fst gw) -> trim_space n = n ->
  recorded n e (fst gw) (snd gw) ->
  recorded n e (fst gw') (snd gw') /\ rg_path (fst gw') = rg_path (fst gw).
Proof.
  induction 1 as [gw|g w ev gw' Hb Hf Hruns IH]; intros Hs Ht Hr; [done|].
  pose proof (run_event_recorded n e ev g w Hs Hr Hb Hf Ht) as Hstep.
  destruct (run_event ev (g, w)) as [g1 w1]; simpl in *. destruct Hstep as [Hr1 Hp1].
  destruct IH as [Hr2 Hp2]; [unfold safe_temps in *; by rewrite Hp1|done|done|].
  split; [done|congruence].
Qed.

(** C13: once a nonce is consumed, no later presentation of it succeeds until
    its expiry, whatever else the process consumes, however often it
    restarts and whichever writes fail meanwhile, as long as no more than
    [maximumEntries] unexpired nonces are held. *)
Theorem Consume_no_replay n e now0 g0 w0 g1 w1 gw2 now e' r g3 w3 :
  safe_temps g0 -> trim_space n = n -> (forall g w, load g0 (forget_trace w0) = (Ok tt, g, w) -> named (rg_entries g)) ->
  Consume iter now0 n e g0 (forget_trace w0) = (Ok tt, g1, w1) ->
  runs e (g1, w1) gw2 -> now <= e -> fits now (fst gw2) (snd gw2) ->
  Consume iter now n e' (fst gw2) (forget_trace (snd gw2)) = (r, g3, w3) ->
  r = Err AlreadyUsed \/ exists ioe, r = Err (Unavailable ioe).
Proof.
  intros Hs Ht Hnamed Hc Hruns Hnow Hfit Hagain.
  assert (Hrec : recorded n e g1 w1 /\ rg_path g1 = rg_path g0 /\ n <> "").
  { unfold Consume in Hc. rewrite Ht in Hc. destruct (n =? "")%string eqn:En; [done|].
    apply String.eqb_neq in En.
    destruct (load g0 (forget_trace w0)) as [[[[]|] g] w] eqn:El; [|done]. specialize (Hnamed _ _ eq_refl).
    assert (Hl : rg_loaded g = true /\ rg_path g = rg_path g0 /\ w_trace w = []).
    { revert El. unfold load, read_file, call. repeat case_match; intros [= <- <-]; naive_solver. }
    destruct Hl as (Hl & Hp & Htr).
    destruct (rg_entries (pruneLocked iter now0 g) !! n) eqn:Eseen; [done|]. destruct (is_zero e); [done|].
    set (g3' := mkGuard _ (<[_ := _]> _) _) in Hc. destruct (persistLocked g3' w) as [[[]|] w'] eqn:Ep; [|done].
    injection Hc as <- <-. simpl. split_and!; [|done|done].
    assert (Hn3 : named (rg_entries g3') /\ rg_entries g3' !! n = Some e).
    { simpl. split; [|apply lookup_insert_eq]. unfold named. rewrite lookup_insert_ne by done.
      destruct (prune iter now0 (rg_entries g) !! "") eqn:E; [|done].
      apply (prune_spec iter iter_perm now0 _ Hnamed) in E as [E _]. by rewrite Hnamed in E. }
    split; [|done]. unfold persistLocked in Ep. destruct (json_marshal _) as [data|] eqn:Ej; [|done].
    apply (replace_file_atomic _ _ (rg_path g3')) in Ep as [Hok _ _ _];
      [|apply publishes_rename|intros r0 _; simpl; rewrite Hp; apply Hs|by rewrite Htr].
    exists (mkFile data fileMode), (rg_entries g3'). rewrite (Hok eq_refl). simpl in *.
    split_and!; [by rewrite lookup_insert_eq|by eapply json_roundtrip|apply Hn3|apply Hn3]. }
  destruct Hrec as (Hrec & Hp1 & Hn).
  destruct (runs_recorded n e (g1, w1) gw2 Hruns) as [Hrec2 _]; [unfold safe_temps in *; simpl; by rewrite Hp1|done|done|].
  destruct gw2 as [g2 w2]; simpl in *.
  unfold Consume in Hagain. rewrite Ht, (proj2 (String.eqb_neq _ _) Hn) in Hagain.
  destruct (load g2 (forget_trace w2)) as [[r4 g4] w4] eqn:El.
  assert (Hrec3 : recorded n e g2 (forget_trace w2)) by done.
  destruct (load_recorded n e _ _ _ _ _ Hrec3 El) as (Hr4 & _ & _ & Hl4 & _).
  destruct r4 as [[]|ioe]; [|injection Hagain as <- <- <-; eauto].
  pose proof (prune_recorded n e now _ _ Hr4 (Hl4 eq_refl) Hnow (Hfit _ _ El)) as [_ Hm].
  destruct (Hm (Hl4 eq_refl)) as [_ Hk]. rewrite Hk in Hagain. injection Hagain as <- <- <-. by left.
Qed.
End NoReplay.

(** ** Forgetting an expired nonce *)

Section Forgetting.
Context `{JI : Json (option entries)}.
Variable iter : entries -> list (string * time).

Lemma evict_subseteq fuel m : evict iter fuel m ⊆ m.
Proof.
  revert m. induction fuel as [|fuel IH]; intros m; simpl; [done|].
  destruct (Nat.leb _ _); [done|]. destruct (String.eqb _ _); [done|].
  etrans; [apply IH|apply delete_subseteq].
Qed.

Lemma Consume_ok_state now n exp g w g' w' :
  Consume iter now n exp g w = (Ok tt, g', w') ->
  rg_loaded g' = true /\ rg_path g' = rg_path g /\ rg_entries g' !! trim_space n = Some exp /\
  trim_space n <> "" /\ exp <> zero_time.
Proof.
  unfold Consume. destruct (trim_space n =? "")%string eqn:En; [done|].
  destruct (load g w) as [[[[]|] g1] w1] eqn:El; [|done].
  assert (Hl : rg_loaded g1 = true /\ rg_path g1 = rg_path g).
  { revert El. unfold load, read_file, call. repeat case_match; intros [= <- <-]; naive_solver. }
  destruct (rg_entries (pruneLocked iter now g1) !! trim_space n); [done|].
  destruct (is_zero exp) eqn:Ez; [done|]. destruct (persistLocked _ _) as [[[]|] w2]; [|done].
  intros [= <- _]. simpl. split_and!; [apply Hl|apply Hl|apply lookup_insert_eq|by apply String.eqb_neq|tlia].
Qed.

(** A nonce whose expiry has passed is accepted as new when the disk works. *)
Lemma Consume_forgets now n exp g w r rs :
  rg_loaded g = true -> trim_space n <> "" -> exp <> zero_time ->
  (forall e, rg_entries g !! trim_space n = Some e -> e < now) ->
  w_faults w = [] -> w_rand w = r :: rs ->
  w_fs w !! temp_name (dir (rg_path g)) ".komari-nonces-" r = None ->
  (forall m : entries, json_marshal (Some m) <> None) ->
  exists g' w', Consume iter now n exp g w = (Ok tt, g', w').
Proof.
  intros Hl Hn Hexp Hold Hf Hr Hfresh Hj. unfold Consume, load.
  rewrite (proj2 (String.eqb_neq _ _) Hn), Hl. simpl.
  destruct (prune iter now (rg_entries g) !! trim_space n) as [e|] eqn:Ep.
  { eapply lookup_weaken in Ep; [|apply evict_subseteq].
    apply map_lookup_filter_Some in Ep as [Hk Ha]. apply Hold in Hk. simpl in Ha. tlia. }
  destruct (is_zero exp) eqn:Ez; [tlia|]. unfold persistLocked. simpl.
  destruct (json_marshal _) as [data|] eqn:Ej; [|by apply Hj in Ej].
  edestruct replace_file_succeeds as (w' & -> & _); [done..|]. by eexists _, _.
Qed.
End Forgetting.

(** ** Witnesses *)

Definition wit_guard : ReplayGuard := NewReplayGuard "/k/nonces.json" "".
Definition wit_world : World := mkWorld empty [] ["1"; "2"; "3"] [].

Definition wit_entries : entries := <["a" := 10]> (<["b" := 30]> empty).

Lemma wit_guard_temps : safe_temps wit_guard.
Proof. intros r. vm_compute. discriminate. Qed.

Lemma prune_spec_witness :
  (size (prune map_to_list 20 wit_entries) <= maximumEntries)%nat /\
  prune map_to_list 20 wit_entries !! "b" = Some 30.
Proof.
  destruct (prune_spec map_to_list (fun m => reflexivity _) 20 wit_entries) as (H1 & _ & H3 & _);
    [vm_compute; reflexivity|].
  split; [exact H1|]. apply H3; [vm_compute; lia|vm_compute; reflexivity|lia].
Defined.

(** Consumed at 5, restarted, another nonce consumed at 6, presented again at 50. *)
Lemma Consume_no_replay_witness :
  let J := countable_json (option entries) in
  let run0 := Consume map_to_list 5 "n" 100 wit_guard (forget_trace wit_world) in
  let gw1 := (snd (fst run0), snd run0) in
  let gw2 := run_event map_to_list (EvConsume 6 "m" 90) (run_event map_to_list EvRestart gw1) in
  let again := Consume map_to_list 50 "n" 100 (fst gw2) (forget_trace (snd gw2)) in
  fst (fst run0) = Ok tt /\
  (fst (fst again) = Err AlreadyUsed \/ exists ioe, fst (fst again) = Err (Unavailable ioe)).
Proof.
  intros J run0 gw1 gw2 again. pose (L := countable_json_laws (option entries)).
  assert (E : fst (fst run0) = Ok tt) by (vm_compute; reflexivity). split; [exact E|].
  assert (Hruns : runs map_to_list 100 gw1 gw2).
  { unfold gw2, gw1. apply (runs_step _ _ _ _ EvRestart); [exact I|exact I|].
    apply (runs_step _ _ _ _ (EvConsume 6 "m" 90)); [simpl; lia| |destruct (run_event _ _ _); apply runs_refl].
    intros g' w' Hl.
    assert (Hs : (size (drop_expired 6 (rg_entries (snd (fst
               (load (mkGuard (rg_path (snd (fst run0))) empty false) (forget_trace (snd run0)))))))
             <= maximumEntries)%nat) by (vm_compute; lia).
    rewrite Hl in Hs. exact Hs. }
  assert (Hfit : fits 50 (fst gw2) (snd gw2)).
  { intros g' w' Hl.
    assert (Hs : (size (drop_expired 50 (rg_entries (snd (fst
               (load (fst gw2) (forget_trace (snd gw2))))))) <= maximumEntries)%nat) by (vm_compute; lia).
    rewrite Hl in Hs. exact Hs. }
  apply (Consume_no_replay (JI := J) (JL := L) map_to_list (fun m => reflexivity _) (fun _ => I)
    "n" 100 5 wit_guard wit_world (snd (fst run0)) (snd run0) gw2 50 100 (fst (fst again)) (snd (fst again)) (snd again) wit_guard_temps eq_refl).
  - intros g w Hl. assert (Hg : rg_entries (snd (fst (load wit_guard (forget_trace wit_world)))) = empty)
      by (vm_compute; reflexivity). rewrite Hl in Hg. simpl in Hg. rewrite Hg. reflexivity.
  - exact (run_outcome run0 _ E).
  - exact Hruns.
  - lia.
  - exact Hfit.
  - exact (run_outcome again _ eq_refl).
Defined.
