(* ===== verification/Signing.v ===== *)
(** * Signed instructions ([core/signing/verify.go], [recorded.go])

    The decision whether an instruction really came from the panel this agent
    enrolled with: signatures against the pinned keys under the delivered
    policy, then the binding carried inside the payload, then the nonce. *)

From S2P Require Import Prelude.
From S2P Require Import GoStd.
From S2P Require Import GoPath.
From S2P Require Import Disk.
From S2P Require Import External.
From S2P Require Import Credentials.
From S2P Require Import Replay.

Local Open Scope string_scope.
Local Open Scope Z_scope.

Definition maximumClockSkew : duration := 2 * minute.

Record Policy := mkPolicy {
  AcceptedAlgorithms : list Z;
  RequireAll : bool;
  MinimumSignatures : Z;
}.

Record Verifier := mkVerifier {
  v_agentID : string;
  v_keys : list PinnedKey;
  v_policy : Policy;
  v_replay : option ReplayGuard;
}.

Record Instruction := mkInstruction {
  in_AgentID : string;
  in_Nonce : string;
  in_InstructionType : string;
  in_Body : bytes;
  in_IssuedAt : time;
  in_ExpiresAt : time;
  in_VerifiedBy : string;
}.

Inductive sign_err :=
| NoEnvelope | NoPinnedKeys | NoPayload
| NoSignature | PresentUnverified | BelowThreshold (minimum got : Z)
| BadPayload
| WrongAgent | BlankNonce | NoDeadline | Expired | FutureDated
| NoIssuance
| Replayed (e : replay_err).

(** [New]: an identity without an algorithm list accepts Ed25519 only. *)
Definition New (i : Identity) (replay : option ReplayGuard) : Verifier :=
  let algorithms := match id_PolicyAlgorithms i with
                    | [] => [SIGNATURE_ALGORITHM_ED25519]
                    | l => l
                    end in
  mkVerifier (id_AgentID i) (id_ControlPlaneKeys i)
    (mkPolicy algorithms (id_PolicyRequireAll i) (id_PolicyMinimumSignatures i)) replay.

Section Verify.
Context `{Crypto} `{ProtoTime} `{Wire SignedInstruction} `{Json (option entries)}.
Variable iter : entries -> list (string * time).

Definition timeOrZero (t : option Timestamp) : time :=
  if is_valid t then as_time t else zero_time.

(** Algorithms 2, 3 and 4 (ML-DSA-65, ML-DSA-87, FN-DSA-512) are stubs that
    never verify, like every unknown one. *)
Definition verifyOne (algorithm : Z) (key payload signature : bytes) : bool :=
  if algorithm =? SIGNATURE_ALGORITHM_ED25519 then
    if slen key =? PublicKeySize then ed25519_verify key payload signature else false
  else false.

(** The guards of one iteration of [findKey]'s loop. *)
Definition key_applies (keyID : string) (algorithm : Z) (now : time) (k : PinnedKey) : bool :=
  (pk_Algorithm k =? algorithm) &&
  ((keyID =? "")%string || (pk_KeyID k =? keyID)%string) &&
  (is_zero (pk_NotBefore k) || negb (before (t_add now maximumClockSkew) (pk_NotBefore k))) &&
  match pk_NotAfter k with
  | Some t => negb (after (t_add now (- maximumClockSkew)) t)
  | None => true
  end.
Fixpoint find_key (keyID : string) (algorithm : Z) (now : time) (ks : list PinnedKey) : option bytes :=
  match ks with
  | [] => None
  | k :: ks =>
      if key_applies keyID algorithm now k then
        match b64_decode (pk_Value k) with
        | Some raw => Some raw
        | None => find_key keyID algorithm now ks
        end
      else find_key keyID algorithm now ks
  end.
Definition findKey (v : Verifier) (keyID : string) (algorithm : Z) (now : time) : option bytes :=
  find_key keyID algorithm now (v_keys v).

(** The loop of [verifySignatures]: the algorithms present, those verified,
    and the key identifiers of the verified signatures, in order. *)
Record tally := mkTally { present : gset Z; verified : gset Z; verifiedKeyIDs : list string }.
Definition accepted (v : Verifier) (algorithm : Z) : bool :=
  bool_decide (algorithm ∈ AcceptedAlgorithms (v_policy v)).
Definition signature_verifies (v : Verifier) (now : time) (payload : bytes) (s : Signature) : bool :=
  match findKey v (sig_key_id s) (sig_algorithm s) now with
  | Some key => verifyOne (sig_algorithm s) key payload (sig_value s)
  | None => false
  end.
Definition tally_step (v : Verifier) (now : time) (payload : bytes) (t : tally) (s : Signature) : tally :=
  if negb (accepted v (sig_algorithm s)) then t else
  let p := {[sig_algorithm s]} ∪ present t in
  if signature_verifies v now payload s
  then mkTally p ({[sig_algorithm s]} ∪ verified t) (verifiedKeyIDs t ++ [sig_key_id s])%list
  else mkTally p (verified t) (verifiedKeyIDs t).

Definition minimum_signatures (v : Verifier) : Z :=
  if MinimumSignatures (v_policy v) <=? 0 then 1 else MinimumSignatures (v_policy v).

Definition verifySignatures (v : Verifier) (now : time) (payload : bytes) (signatures : list Signature)
    : result string sign_err :=
  match signatures with
  | [] => Err NoSignature
  | _ =>
      let t := fold_left (tally_step v now payload) signatures (mkTally ∅ ∅ []) in
      if RequireAll (v_policy v) && negb (bool_decide (present t ⊆ verified t)) then Err PresentUnverified else
      let got := Z.of_nat (length (verifiedKeyIDs t)) in
      if got <? minimum_signatures v then Err (BelowThreshold (minimum_signatures v) got)
      else Ok (join "," (verifiedKeyIDs t))
  end.

Definition checkBinding (v : Verifier) (i : SignedInstruction) (now : time) : result unit sign_err :=
  if negb (si_agent_id i =? v_agentID v)%string then Err WrongAgent
  else if blank (si_nonce i) then Err BlankNonce
  else let expires := timeOrZero (si_expires_at i) in
  if is_zero expires then Err NoDeadline
  else if after (t_add now (- maximumClockSkew)) expires then Err Expired
  else let issued := timeOrZero (si_issued_at i) in
  if negb (is_zero issued) && after issued (t_add now maximumClockSkew) then Err FutureDated
  else Ok tt.

Definition instruction_of (i : SignedInstruction) (verifiedBy : string) : Instruction :=
  mkInstruction (si_agent_id i) (si_nonce i) (si_instruction_type i) (si_body i)
    (timeOrZero (si_issued_at i)) (timeOrZero (si_expires_at i)) verifiedBy.

(** Everything [Verify] checks before it touches the replay guard. *)
Definition authenticate (v : Verifier) (now : time) (envelope : option SignedEnvelope)
    : result (SignedInstruction * string) sign_err :=
  match envelope with
  | None => Err NoEnvelope
  | Some e =>
      match v_keys v with
      | [] => Err NoPinnedKeys
      | _ =>
          if slen (env_payload e) =? 0 then Err NoPayload else
          try? verifiedBy := verifySignatures v now (env_payload e) (env_signatures e) in
          match wire_unmarshal (env_payload e) with
          | None => Err BadPayload
          | Some i => try? _ := checkBinding v i now in Ok (i, verifiedBy)
          end
      end
  end.

(** [Verify]. [now] is the verifier's clock, [wall] the clock [Consume]
    reads; the guard is threaded because [Consume] updates it. *)
Definition Verify (v : Verifier) (now wall : time) (envelope : option SignedEnvelope) (w : World)
    : result Instruction sign_err * option ReplayGuard * World :=
  match authenticate v now envelope with
  | Err e => (Err e, v_replay v, w)
  | Ok (i, verifiedBy) =>
      match v_replay v with
      | None => (Ok (instruction_of i verifiedBy), None, w)
      | Some g =>
          match Consume iter wall (si_nonce i) (timeOrZero (si_expires_at i)) g w with
          | (Ok _, g, w) => (Ok (instruction_of i verifiedBy), Some g, w)
          | (Err e, g, w) => (Err (Replayed e), Some g, w)
          end
      end
  end.

Definition with_replay (g : option ReplayGuard) (v : Verifier) : Verifier :=
  mkVerifier (v_agentID v) (v_keys v) (v_policy v) g.

(** [VerifyRecorded]: the clock is the instruction's own issuance time and no
    nonce is consumed. *)
Definition VerifyRecorded (v : Verifier) (envelope : option SignedEnvelope) : result Instruction sign_err :=
  match envelope with
  | None => Err NoEnvelope
  | Some e =>
      match wire_unmarshal (env_payload e) with
      | None => Err BadPayload
      | Some i =>
          if negb (is_valid (si_issued_at i)) then Err NoIssuance
          else fst (fst (Verify (with_replay None v) (as_time (si_issued_at i)) zero_time envelope
                           (mkWorld empty [] [] [])))
      end
  end.
End Verify.

(** ** Specification *)

Section Spec.
Context `{CR : Crypto} `{PT : ProtoTime} `{WI : Wire SignedInstruction}.

(** A signature that counts: its algorithm is in the policy and a pinned key
    verifies it. *)
Definition counts (v : Verifier) (now : time) (payload : bytes) (s : Signature) : bool :=
  accepted v (sig_algorithm s) && signature_verifies v now payload s.

(** What the policy asks of an envelope, declaratively. *)
Definition policy_satisfied (v : Verifier) (now : time) (e : SignedEnvelope) : Prop :=
  minimum_signatures v <= Z.of_nat (length (List.filter (counts v now (env_payload e)) (env_signatures e))) /\
  (RequireAll (v_policy v) = true ->
   forall s, s ∈ env_signatures e -> accepted v (sig_algorithm s) = true ->
   exists s', s' ∈ env_signatures e /\ sig_algorithm s' = sig_algorithm s /\ counts v now (env_payload e) s' = true).

(** What the payload must bind. *)
Definition bound_to (v : Verifier) (now : time) (i : SignedInstruction) : Prop :=
  si_agent_id i = v_agentID v /\ blank (si_nonce i) = false /\
  (exists t, si_expires_at i = Some t /\ ts_check t = true /\ ts_time t <> zero_time /\
             now - maximumClockSkew <= ts_time t) /\
  (timeOrZero (si_issued_at i) = zero_time \/ timeOrZero (si_issued_at i) <= now + maximumClockSkew).

Definition authentic (v : Verifier) (now : time) (e : SignedEnvelope) (i : SignedInstruction) : Prop :=
  v_keys v <> [] /\ env_payload e <> "" /\ policy_satisfied v now e /\
  wire_unmarshal (env_payload e) = Some i /\ bound_to v now i.

Lemma minimum_positive v : 1 <= minimum_signatures v.
Proof. unfold minimum_signatures. case_match; bool_hyps; lia. Qed.

Lemma tally_step_spec v now payload t s :
  let r := tally_step v now payload t s in
  verifiedKeyIDs r = (verifiedKeyIDs t ++ if counts v now payload s then [sig_key_id s] else [])%list /\
  (forall a, a ∈ present r <-> a ∈ present t \/ (a = sig_algorithm s /\ accepted v (sig_algorithm s) = true)) /\
  (forall a, a ∈ verified r <-> a ∈ verified t \/ (a = sig_algorithm s /\ counts v now payload s = true)).
Proof.
  unfold tally_step, counts. destruct (accepted v (sig_algorithm s)); simpl.
  - destruct (signature_verifies v now payload s); simpl;
      (split_and!; [by rewrite ?app_nil_r|set_solver|set_solver]).
  - split_and!; [by rewrite app_nil_r|naive_solver|naive_solver].
Qed.

(** The loop computes the three components of the specification. *)
Lemma tally_fold v now payload l t :
  let r := fold_left (tally_step v now payload) l t in
  verifiedKeyIDs r = (verifiedKeyIDs t ++ map sig_key_id (List.filter (counts v now payload) l))%list /\
  (forall a, a ∈ present r <->
     a ∈ present t \/ exists s, s ∈ l /\ a = sig_algorithm s /\ accepted v (sig_algorithm s) = true) /\
  (forall a, a ∈ verified r <->
     a ∈ verified t \/ exists s, s ∈ l /\ a = sig_algorithm s /\ counts v now payload s = true).
Proof.
  revert t. induction l as [|s l IH]; intros t; simpl.
  { split_and!; [by rewrite app_nil_r|set_solver|set_solver]. }
  destruct (IH (tally_step v now payload t s)) as (H1 & H2 & H3).
  destruct (tally_step_spec v now payload t s) as (G1 & G2 & G3). split_and!.
  - rewrite H1, G1, <- app_assoc. by destruct (counts v now payload s).
  - intros a. rewrite H2, G2, exists_cons. tauto.
  - intros a. rewrite H3, G3, exists_cons. tauto.
Qed.

Lemma verifySignatures_ok v now e by_ :
  verifySignatures v now (env_payload e) (env_signatures e) = Ok by_ <->
  policy_satisfied v now e /\
  by_ = join "," (map sig_key_id (List.filter (counts v now (env_payload e)) (env_signatures e))).
Proof.
  pose proof (tally_fold v now (env_payload e) (env_signatures e) (mkTally ∅ ∅ [])) as (H1 & H2 & H3).
  unfold verifySignatures, policy_satisfied.
  destruct (env_signatures e) as [|s l] eqn:El.
  { split; [done|]. intros [[Hm _] _]. pose proof (minimum_positive v). simpl in Hm. lia. }
  rewrite <- El in *. clear El s l. set (t := fold_left _ _ _) in *. rewrite H1. simpl.
  rewrite length_map.
  assert (Hsub : present t ⊆ verified t <->
    forall s, s ∈ env_signatures e -> accepted v (sig_algorithm s) = true ->
      exists s', s' ∈ env_signatures e /\ sig_algorithm s' = sig_algorithm s /\ counts v now (env_payload e) s' = true).
  { split.
    - intros Hs s Hin Ha. assert (Hp : sig_algorithm s ∈ present t) by (apply H2; right; eauto).
      apply Hs, H3 in Hp as [?|(s' & ? & ? & ?)]; [set_solver|by eauto].
    - intros Hall a [?|(s & Hin & -> & Ha)]%H2; [set_solver|].
      apply H3. right. destruct (Hall s Hin Ha) as (s' & ? & ? & ?). by eauto. }
  destruct (RequireAll (v_policy v)); simpl.
  - case_bool_decide as Hb; simpl.
    + case_match; bool_hyps; split; try (intros [= <-]); naive_solver lia.
    + split; [done|]. intros [[_ Hall] _]. destruct Hb. by apply Hsub, Hall.
  - case_match; bool_hyps; split; try (intros [= <-]); naive_solver lia.
Qed.

Lemma checkBinding_ok v i now : checkBinding v i now = Ok tt <-> bound_to v now i.
Proof.
  unfold checkBinding, bound_to, timeOrZero, is_valid, as_time.
  destruct (si_agent_id i =? v_agentID v)%string eqn:E1; bool_hyps; simpl; [|by split; [|intros [? _]]].
  destruct (blank (si_nonce i)); [by split; [|intros (_ & ? & _)]|].
  destruct (si_expires_at i) as [t|]; simpl.
  2: { split; [done|]. by intros (_ & _ & (? & ? & _) & _). }
  destruct (ts_check t) eqn:Et; simpl.
  2: { split; [done|]. intros (_ & _ & (? & [= <-] & ? & _) & _). congruence. }
  destruct (is_zero (ts_time t)) eqn:Ez.
  { split; [done|]. intros (_ & _ & (? & [= <-] & _ & ? & _) & _). tlia. }
  destruct (after _ (ts_time t)) eqn:Ea.
  { split; [done|]. intros (_ & _ & (? & [= <-] & _ & _ & ?) & _). tlia. }
  generalize (if (match si_issued_at i with Some t0 => ts_check t0 | None => false end)
              then (match si_issued_at i with Some t0 => ts_time t0 | None => unix_epoch_seconds * second end)
              else zero_time).
  intros issued. destruct (negb (is_zero issued) && after issued (t_add now maximumClockSkew)) eqn:Ei.
  - split; [done|]. intros (_ & _ & _ & Hi). tlia.
  - split; [intros _|done]. split; [done|]. split; [done|]. split; [exists t; split_and!; [done|done|tlia|tlia]|].
    unfold is_zero, after, t_add, zero_time in *. bool_hyps. lia.
Qed.

Lemma authenticate_ok v now e i by_ :
  authenticate v now (Some e) = Ok (i, by_) <->
  authentic v now e i /\
  by_ = join "," (map sig_key_id (List.filter (counts v now (env_payload e)) (env_signatures e))).
Proof.
  unfold authenticate, authentic. destruct (v_keys v) as [|k ks]; [by split; [|intros [[? _] _]]|].
  destruct (slen (env_payload e) =? 0) eqn:Ep; bool_hyps.
  { split; [done|]. intros [(_ & Hp & _) _]. destruct Hp. unfold slen in Ep.
    destruct (env_payload e); simpl in *; [done|lia]. }
  assert (Hp : env_payload e <> "") by (intros Heq; by rewrite Heq in Ep).
  pose proof (verifySignatures_ok v now e) as Hv.
  destruct (verifySignatures v now (env_payload e) (env_signatures e)) as [b|er].
  2: { split; [done|]. intros [(_ & _ & Hpol & _) ->].
       discriminate (proj2 (Hv _) (conj Hpol eq_refl)). }
  destruct (proj1 (Hv b) eq_refl) as [Hpol Hb].
  destruct (wire_unmarshal (env_payload e)) as [i'|]; [|by split; [|intros [(_ & _ & _ & ? & _) _]]].
  pose proof (checkBinding_ok v i' now) as Hc. destruct (checkBinding v i' now) as [[]|er].
  - split; [intros [= <- <-]|intros [(_ & _ & _ & [= ->] & _) ->]; by rewrite Hb].
    split_and!; try done. by apply Hc.
  - split; [done|]. intros [(_ & _ & _ & [= ->] & Hbd) _]. by apply Hc in Hbd.
Qed.
End Spec.

(** ** Theorems *)

Section Theorems.
Context `{CR : Crypto} `{PT : ProtoTime} `{WI : Wire SignedInstruction}.
Context `{JI : Json (option entries)}.
Variable iter : entries -> list (string * time).


(** A recorded instruction is accepted exactly when it was authentic at
    its own issuance time; no nonce is consumed. *)
Theorem VerifyRecorded_refines v e out :
  VerifyRecorded iter v (Some e) = Ok out <->
  exists i, is_valid (si_issued_at i) = true /\ authentic v (as_time (si_issued_at i)) e i /\
    out = instruction_of i (join "," (map sig_key_id
            (List.filter (counts v (as_time (si_issued_at i)) (env_payload e)) (env_signatures e)))).
Proof.
  unfold VerifyRecorded, Verify. destruct (wire_unmarshal (env_payload e)) as [i|] eqn:Ew.
  2: { split; [done|]. intros (i & _ & (_ & _ & _ & ? & _) & _). congruence. }
  assert (Hsame : forall now i by_, authenticate (with_replay None v) now (Some e) = Ok (i, by_) <->
    authentic v now e i /\ by_ = join "," (map sig_key_id (List.filter (counts v now (env_payload e)) (env_signatures e))))
    by exact (fun now i by_ => authenticate_ok (with_replay None v) now e i by_).
  destruct (is_valid (si_issued_at i)) eqn:Ei; cbn [negb v_replay with_replay].
  2: { split; [done|]. intros (i2 & H1 & (_ & _ & _ & H2 & _) & _). congruence. }
  specialize (Hsame (as_time (si_issued_at i))).
  destruct (authenticate _ _ _) as [[i2 b]|er]; cbn [fst].
  - destruct (proj1 (Hsame i2 b) eq_refl) as [Hi2 ->].
    assert (i2 = i) as -> by (destruct Hi2 as (_ & _ & _ & ? & _); congruence).
    split; [intros [= <-]; by exists i|].
    intros (i3 & _ & (_ & _ & _ & H3 & _) & ->). by rewrite Ew in H3; injection H3 as <-.
  - split; [done|]. intros (i3 & _ & Hi3 & _).
    assert (i3 = i) as -> by (destruct Hi3 as (_ & _ & _ & ? & _); congruence).
    discriminate (proj2 (Hsame i _) (conj Hi3 eq_refl)).
Qed.

(** The threshold counts signatures, not keys: one key that verifies one
    signature reaches any [MinimumSignatures] when the envelope repeats it. *)
Theorem repeated_signature_meets_threshold v now payload s n :
  counts v now payload s = true -> (1 <= n)%nat -> minimum_signatures v <= Z.of_nat n ->
  verifySignatures v now payload (repeat s n) = Ok (join "," (repeat (sig_key_id s) n)).
Proof.
  intros Hc Hn Hmin.
  pose proof (verifySignatures_ok v now (mkEnvelope payload (repeat s n))) as Hv. simpl in Hv.
  assert (Hf : List.filter (counts v now payload) (repeat s n) = repeat s n).
  { clear Hn Hmin Hv. induction n as [|n IH]; simpl; [done|]. by rewrite Hc, IH. }
  apply Hv. rewrite Hf, map_repeat. split; [|done]. split; simpl; rewrite ?Hf.
  - by rewrite repeat_length.
  - intros _ s' Hs' _. apply list_elem_of_In, repeat_spec in Hs' as ->.
    exists s. split_and!; [|done|done]. apply list_elem_of_In. destruct n; [lia|by left].
Qed.

(** The replay window. The guard forgets a nonce once its expiry has
    passed, but [checkBinding] accepts the instruction until
    [maximumClockSkew] after it: an instruction carried out before its expiry
    is carried out again when it is presented inside that window. *)
Theorem Verify_replay_window v now1 wall1 e w out g' w' now2 wall2 r rs :
  Verify iter v now1 wall1 (Some e) w = (Ok out, Some g', w') ->
  now1 <= now2 -> in_ExpiresAt out < wall2 -> now2 <= in_ExpiresAt out + maximumClockSkew ->
  policy_satisfied v now2 e ->
  (forall m : entries, json_marshal (Some m) <> None) ->
  w_faults w' = [] -> w_rand w' = r :: rs ->
  w_fs w' !! temp_name (dir (rg_path g')) ".komari-nonces-" r = None ->
  exists out2 g2 w2,
    Verify iter (with_replay (Some g') v) now2 wall2 (Some e) w' = (Ok out2, Some g2, w2) /\
    in_Nonce out2 = in_Nonce out /\ in_Body out2 = in_Body out.
Proof.
  intros Hv Hmono Hexp Hskew Hpol Hj Hf Hr Hfresh.
  unfold Verify in Hv. destruct (authenticate v now1 (Some e)) as [[i b]|] eqn:Ea; [|done].
  destruct (v_replay v) as [g|]; [|done].
  destruct (Consume _ _ _ _ _ _) as [[[[]|] g1] w1] eqn:Ec; [|done]. injection Hv as <- <- <-.
  apply authenticate_ok in Ea as [(Hk & Hpl & _ & Hw & Hb) _].
  assert (Hauth : authentic v now2 e i).
  { destruct Hb as (Ha & Hnn & (t & Ht & Hck & Hz & _) & Hi). split_and!; [done..|].
    split_and!; [done|done| |destruct Hi; [by left|right; lia]].
    exists t. split_and!; [done..|]. revert Hskew. simpl. unfold timeOrZero. rewrite Ht. simpl. rewrite Hck. lia. }
  apply Consume_ok_state in Ec as (Hl & _ & Hin & Hnn & Hz).
  destruct (Consume_forgets iter wall2 (si_nonce i) (timeOrZero (si_expires_at i)) g1 w1 r rs)
    as (g2 & w2 & Hc2); [done..| |done|done|done|done|].
  { intros e0 He0. rewrite Hin in He0. injection He0 as <-. exact Hexp. }
  unfold Verify.
  assert (Ha2 : exists b2, authenticate (with_replay (Some g1) v) now2 (Some e) = Ok (i, b2)).
  { eexists. apply authenticate_ok. split; [exact Hauth|reflexivity]. }
  destruct Ha2 as [b2 ->]. cbn [v_replay with_replay]. rewrite Hc2. by eexists _, g2, w2.
Qed.
End Theorems.

(** ** Witnesses

    One pinned key; a signature is the key followed by the payload. *)

Definition wit_crypto : Crypto :=
  {| sha256 := fun s => s;
     ed25519_verify := fun k p s => (s =? k ++ p)%string;
     ed25519_sign := fun k p => (k ++ p)%string;
     ed25519_public := fun k => k |}.
Definition wit_time : ProtoTime := {| ts_check := fun _ => true; ts_time := fun t => ts_seconds t * second |}.
Definition wit_key : bytes := "0123456789abcdef0123456789abcdef".
Definition wit_instr : SignedInstruction :=
  mkSignedInstruction "agent-1" "n" "task" "reboot" (Some (mkTimestamp 1000 0)) (Some (mkTimestamp 1060 0)).
Definition wit_wire : Wire SignedInstruction :=
  {| wire_marshal := fun _ => Some "P"; wire_unmarshal := fun s => if (s =? "P")%string then Some wit_instr else None |}.
Definition wit_sig : Signature := mkSignature SIGNATURE_ALGORITHM_ED25519 "k1" (wit_key ++ "P").
Definition wit_env : SignedEnvelope := mkEnvelope "P" [wit_sig].
Definition wit_verifier (minimum : Z) : Verifier :=
  mkVerifier "agent-1" [mkPinnedKey SIGNATURE_ALGORITHM_ED25519 (b64_encode wit_key) "k1" zero_time None]
    (mkPolicy [SIGNATURE_ALGORITHM_ED25519] false minimum) (Some (NewReplayGuard "/k/nonces.json" "")).
Definition wit_disk : World := mkWorld empty [] ["1"; "2"; "3"] [].


Lemma repeated_signature_meets_threshold_witness :
  let C := wit_crypto in let T := wit_time in
  verifySignatures (wit_verifier 3) (1030 * second) "P" [wit_sig; wit_sig; wit_sig] = Ok "k1,k1,k1".
Proof.
  intros C T.
  exact (repeated_signature_meets_threshold (CR := C) (wit_verifier 3) (1030 * second) "P" wit_sig 3
    ltac:(vm_compute; reflexivity) ltac:(lia) ltac:(vm_compute; discriminate)).
Defined.

(** Carried out at 1030 s, expired at 1060 s, carried out again at 1100 s. *)
Lemma Verify_replay_window_witness :
  let C := wit_crypto in let T := wit_time in let W := wit_wire in let J := countable_json (option entries) in
  let run := Verify map_to_list (wit_verifier 1) (1030 * second) (1030 * second) (Some wit_env) wit_disk in
  exists out g' out2 g2 w2,
    fst run = (Ok out, Some g') /\
    Verify map_to_list (with_replay (Some g') (wit_verifier 1)) (1100 * second) (1100 * second)
      (Some wit_env) (snd run) = (Ok out2, Some g2, w2) /\ in_Body out2 = "reboot".
Proof.
  intros C T W J run.
  assert (Hg : exists g', fst run = (Ok (instruction_of wit_instr "k1"), Some g') /\ rg_path g' = "/k/nonces.json").
  { vm_compute. eexists. split; reflexivity. }
  destruct Hg as (g' & E & Hpath).
  destruct (Verify_replay_window (CR := C) (PT := T) (WI := W) (JI := J) map_to_list (wit_verifier 1)
    (1030 * second) (1030 * second) wit_env wit_disk (instruction_of wit_instr "k1") g' (snd run) (1100 * second) (1100 * second) "2" ["3"])
    as (out2 & g2 & w2 & H & _ & Hb).
  - rewrite <- E. exact (surjective_pairing run).
  - vm_compute. discriminate.
  - vm_compute. reflexivity.
  - vm_compute. discriminate.
  - split; [vm_compute; discriminate|intros [=]].
  - intros m [=].
  - vm_compute. reflexivity.
  - vm_compute. reflexivity.
  - rewrite Hpath. vm_compute. reflexivity.
  - exists (instruction_of wit_instr "k1"), g', out2, g2, w2. split; [exact E|]. split; [exact H|]. rewrite Hb. reflexivity.
Defined.
