(* ===== verification/Privileged.v ===== *)
(** * The privileged track ([core/privileged])

    The settings that decide which capabilities this host grants the panel:
    delivery records an intention ([RecordPending]), only a verified approval
    ([ApplyApproved], [ApplyHostApproved], [AdoptBaseline]) makes it active, and
    the host alone may narrow it again ([Rollback], [Effective]). *)

From S2P Require Import Prelude.
From S2P Require Import GoStd.
From S2P Require Import GoPath.
From S2P Require Import Disk.
From S2P Require Import External.

Local Open Scope string_scope.
Local Open Scope Z_scope.

Definition fileMode : Z := 384.            (* 0o600 *)
Definition maximum_outbox : nat := 1024.
Definition maximum_rejected : nat := 128.

Record Settings := mkSettings {
  RequiredPrivilegeMode : PrivilegeMode;
  RemoteControlEnabled : bool;
  WebSSHEnabled : bool;
  ExecutionEnabled : bool;
  EnableGPU : bool;
  RescueHelperEnabled : bool;
}.
#[export] Instance Settings_eq : EqDecision Settings.
Proof. solve_decision. Defined.
(** The zero value: every capability off. *)
Definition restrictive : Settings := mkSettings 0 false false false false false.

Record Receipt := mkReceipt {
  rc_ID : string;
  rc_Kind : string;
  rc_Payload : bytes;
  rc_Rejected : string;
}.

Record State := mkState {
  ps_LastSequence : Z;
  ps_ActiveSignedRevision : bytes;
  ps_Outbox : list Receipt;
  ps_RejectedReceipts : list Receipt;
  ps_AppliedRevision : Z;
  ps_Active : Settings;
  ps_Previous : option Settings;
  ps_PreviousRevision : Z;
  ps_PendingRevision : Z;
  ps_Pending : option Settings;
  ps_PendingClass : Z;
  ps_PendingReasons : list string;
  ps_PendingTaskID : string;
  ps_PendingNonce : string;
  ps_PendingExpiry : time;
  ps_UpdatedAt : time;
}.
Definition zero_state : State :=
  mkState 0 "" [] [] 0 restrictive None 0 0 None 0 [] "" "" zero_time zero_time.

Record Store := mkStore { pst_path : string; pst_state : State; pst_diskHash : bytes }.

(** The zero value of a [[32]byte]. *)
Definition zero_hash : bytes := of_chars (repeat (byte_of 0) 32).

Inductive priv_err :=
| PrivIO (e : io_err) | StaleDisk
| RevisionRequired | NotNewer | StalePending
| NoPrevious | RollbackWidens | PromoteRetired
| ApprovalRequired | ApprovalBinding | ApprovalExpired | ApprovalHash | ApprovalIdentity
| HostApprovalMismatch | StaleApproval | OutboxFull | ProtoEncode
| BaselineInvalid | BaselineExceeds | BaselineActions | BaselineHistory | BaselineConflict
| ModeMismatch | RescueUnavailable.

(** ** Pure parts *)

Definition settingsFromProto (value : option PrivilegedConfig) : Settings :=
  match value with
  | None => restrictive
  | Some v =>
      mkSettings (pc_required_mode v) (get_bool (pc_remote_control v)) (get_bool (pc_webssh v))
        (get_bool (pc_execution v)) (get_bool (pc_gpu v)) (get_bool (pc_rescue_helper v))
  end.
Definition Proto (s : Settings) : PrivilegedConfig :=
  mkPrivilegedConfig (RequiredPrivilegeMode s) (Some (RemoteControlEnabled s)) (Some (WebSSHEnabled s))
    (Some (ExecutionEnabled s)) (Some (EnableGPU s)) (Some (RescueHelperEnabled s)) "".

Definition Subset (a b : Settings) : bool :=
  ((RequiredPrivilegeMode a =? RequiredPrivilegeMode b) || (RequiredPrivilegeMode a =? 0)) &&
  (negb (RemoteControlEnabled a) || RemoteControlEnabled b) &&
  (negb (WebSSHEnabled a) || WebSSHEnabled b) &&
  (negb (ExecutionEnabled a) || ExecutionEnabled b) &&
  (negb (EnableGPU a) || EnableGPU b) &&
  (negb (RescueHelperEnabled a) || RescueHelperEnabled b).

(** The bytes [Hash] digests. *)
Definition flag_byte (b : bool) : ascii := byte_of (if b then 1 else 0).
Definition hash_input (s : Settings) : bytes :=
  "komari.privileged-settings.v1" ++
  of_chars (byte_of 0 :: map flag_byte [RemoteControlEnabled s; WebSSHEnabled s; ExecutionEnabled s;
                                      EnableGPU s; RescueHelperEnabled s]) ++
  be32 (wrapu32 (RequiredPrivilegeMode s)).
Definition Hash `{Crypto} (s : Settings) : string := hex_encode (sha256 (hash_input s)).

Definition checkSupported (s : Settings) (actual : PrivilegeMode) : result unit priv_err :=
  if negb (RequiredPrivilegeMode s =? PRIVILEGE_MODE_UNSPECIFIED) && negb (RequiredPrivilegeMode s =? actual)
  then Err ModeMismatch
  else if RescueHelperEnabled s then Err RescueUnavailable else Ok tt.

Definition clearPending (s : State) : State :=
  mkState (ps_LastSequence s) (ps_ActiveSignedRevision s) (ps_Outbox s) (ps_RejectedReceipts s)
    (ps_AppliedRevision s) (ps_Active s) (ps_Previous s) (ps_PreviousRevision s)
    0 None 0 [] "" "" zero_time (ps_UpdatedAt s).
Definition with_updated (now : time) (s : State) : State :=
  mkState (ps_LastSequence s) (ps_ActiveSignedRevision s) (ps_Outbox s) (ps_RejectedReceipts s)
    (ps_AppliedRevision s) (ps_Active s) (ps_Previous s) (ps_PreviousRevision s)
    (ps_PendingRevision s) (ps_Pending s) (ps_PendingClass s) (ps_PendingReasons s)
    (ps_PendingTaskID s) (ps_PendingNonce s) (ps_PendingExpiry s) now.
Definition with_receipts (outbox rejected : list Receipt) (s : State) : State :=
  mkState (ps_LastSequence s) (ps_ActiveSignedRevision s) outbox rejected
    (ps_AppliedRevision s) (ps_Active s) (ps_Previous s) (ps_PreviousRevision s)
    (ps_PendingRevision s) (ps_Pending s) (ps_PendingClass s) (ps_PendingReasons s)
    (ps_PendingTaskID s) (ps_PendingNonce s) (ps_PendingExpiry s) (ps_UpdatedAt s).
(** Replace what is active. *)
Definition with_active (sequence : Z) (signed : bytes) (revision : Z) (active : Settings)
    (previous : option Settings) (previousRevision : Z) (s : State) : State :=
  mkState sequence signed (ps_Outbox s) (ps_RejectedReceipts s)
    revision active previous previousRevision
    (ps_PendingRevision s) (ps_Pending s) (ps_PendingClass s) (ps_PendingReasons s)
    (ps_PendingTaskID s) (ps_PendingNonce s) (ps_PendingExpiry s) (ps_UpdatedAt s).

(** [Effective]: grants narrowed by what a pending revision would withdraw. *)
Definition Effective (s : Store) : Settings :=
  let a := ps_Active (pst_state s) in
  match ps_Pending (pst_state s) with
  | None => a
  | Some p =>
      mkSettings (RequiredPrivilegeMode a)
        (RemoteControlEnabled a && RemoteControlEnabled p) (WebSSHEnabled a && WebSSHEnabled p)
        (ExecutionEnabled a && ExecutionEnabled p) (EnableGPU a && EnableGPU p)
        (RescueHelperEnabled a && RescueHelperEnabled p)
  end.

(** ** Operations *)

Section Ops.
Context `{Crypto} `{ProtoTime} `{ProtoEnums} `{Json State} `{Wire PrivilegedRevision}.
(** [Time.Format(time.RFC3339)]. *)
Variable rfc3339 : time -> string.

Definition Open (default path : string) (w : World) : result Store io_err * World :=
  let path := if blank path then default else path in
  match read_file path w with
  | (Err NotExist, w) => (Ok (mkStore path zero_state zero_hash), w)
  | (Err e, w) => (Err e, w)
  | (Ok data, w) =>
      match json_unmarshal data with
      | None => (Err DecodeFailed, w)
      | Some st => (Ok (mkStore path st (sha256 data)), w)
      end
  end.

Definition Op (A : Type) := Store -> World -> result A priv_err * Store * World.

(** [commit]: under the writer lock, refuse if the file is not the one this
    store last read or wrote; then replace it; only then update memory. *)
Definition commit (now : time) (next : State) : Op unit := fun s w =>
  match Acquire (pst_path s ++ ".write.lock") w with
  | (Err e, w) => (Err (PrivIO e), s, w)
  | (Ok _, w) =>
      let '(disk, w) := read_file (pst_path s) w in
      match (match disk with
             | Ok data => Ok (sha256 data)
             | Err NotExist => Ok zero_hash
             | Err e => Err e
             end) with
      | Err e => (Err (PrivIO e), s, w)
      | Ok hash =>
          if negb (hash =? pst_diskHash s)%string then (Err StaleDisk, s, w) else
          let next := with_updated now next in
          match json_marshal next with
          | None => (Err (PrivIO EncodeFailed), s, w)
          | Some data =>
              let directory := dir (pst_path s) in
              match replace_file directory ".komari-privileged-" data fileMode
                      (fun name => rename name (pst_path s) ;; sync_directory directory) w with
              | (Err e, w) => (Err (PrivIO e), s, w)
              | (Ok _, w) => (Ok tt, mkStore (pst_path s) next (sha256 data), w)
              end
          end
      end
  end.

(** The state [RecordPending] stores for [revision]. *)
Definition pending_state (revision : PrivilegedRevision) (s : State) : State :=
  let manual := pr_plan revision ≫= up_manual_task in
  mkState (pr_update_sequence revision) (ps_ActiveSignedRevision s) (ps_Outbox s) (ps_RejectedReceipts s)
    (ps_AppliedRevision s) (ps_Active s) (ps_Previous s) (ps_PreviousRevision s)
    (pr_revision revision) (Some (settingsFromProto (pr_privileged revision)))
    (match pr_plan revision with Some p => up_class p | None => 0 end)
    (match pr_plan revision with Some p => up_reasons p | None => [] end)
    (match manual with Some t => mt_task_id t | None => "" end)
    (match manual with Some t => mt_nonce t | None => "" end)
    (match manual with
     | Some t => if is_valid (mt_expires_at t) then as_time (mt_expires_at t) else zero_time
     | None => zero_time
     end)
    (ps_UpdatedAt s).

Definition RecordPending (now : time) (revision : option PrivilegedRevision) : Op unit := fun s w =>
  match revision with
  | None => (Err RevisionRequired, s, w)
  | Some r =>
      match pr_privileged r with
      | None => (Err RevisionRequired, s, w)
      | Some _ =>
          if pr_revision r <=? ps_AppliedRevision (pst_state s) then (Err NotNewer, s, w) else
          if (pr_revision r <? ps_PendingRevision (pst_state s)) ||
             (pr_update_sequence r <? ps_LastSequence (pst_state s)) then (Err StalePending, s, w) else
          commit now (pending_state r (pst_state s)) s w
      end
  end.

Definition Promote (actual : PrivilegeMode) : Op Settings := fun s w => (Err PromoteRetired, s, w).

Definition Rollback (now : time) : Op (Settings * Z) := fun s w =>
  let st := pst_state s in
  match ps_Previous st with
  | None => (Err NoPrevious, s, w)
  | Some restored =>
      if negb (Subset restored (ps_Active st)) then (Err RollbackWidens, s, w) else
      let next := with_active (ps_LastSequence st) "" (ps_PreviousRevision st) restored None 0 st in
      match commit now next s w with
      | (Err e, s, w) => (Err e, s, w)
      | (Ok _, s, w) => (Ok (restored, ps_PreviousRevision st), s, w)
      end
  end.

Definition DiscardPending (now : time) : Op unit := fun s w =>
  match ps_Pending (pst_state s) with
  | None => (Ok tt, s, w)
  | Some _ => commit now (clearPending (pst_state s)) s w
  end.

(** [t1] and [t2] are the two readings of the clock. *)
Definition approval_window (issued expires : option Timestamp) (t1 t2 : time) : bool :=
  match issued, expires with
  | Some i, Some x =>
      ts_check i && ts_check x && negb (after (ts_time i) (t_add t1 minute)) &&
      before t2 (ts_time x) && after (ts_time x) (ts_time i)
  | _, _ => false
  end.
Definition required_mode (p : option PrivilegedConfig) : PrivilegeMode :=
  match p with Some v => pc_required_mode v | None => 0 end.

Definition ValidateApproval (r : option PrivilegedRevision) (agent service : string)
    (actual : PrivilegeMode) (t1 t2 : time) : result (PrivilegedRevision * HostAuthorization) priv_err :=
  match r with
  | None => Err ApprovalRequired
  | Some r =>
      match pr_signature r, pr_authorization r with
      | Some _, Some a =>
          guard? (pr_protocol_version r =? 2) && negb (pr_installation_baseline r) &&
            (pr_state r =? DELIVERY_STATE_AWAITING_AGENT) && negb (pr_revision r =? 0) &&
            negb (pr_approval_generation r =? 0) else ApprovalRequired in
          guard? (slen (ha_unknown a) =? 0) && (ha_agent_id a =? agent)%string &&
            (pr_agent_id r =? agent)%string && (ha_service_id a =? service)%string &&
            negb (service =? "")%string && (ha_revision a =? pr_revision r) &&
            (ha_config_hash a =? pr_config_hash r)%string &&
            (ha_approval_generation a =? pr_approval_generation r) &&
            bool_decide (ha_actions a = []) && (ha_target_mode a =? actual) &&
            (required_mode (pr_privileged r) =? actual) &&
            negb (ha_nonce a =? "")%string && negb (ha_approved_by a =? "")%string else ApprovalBinding in
          guard? approval_window (ha_issued_at a) (ha_expires_at a) t1 t2 else ApprovalExpired in
          guard? (pr_config_hash r =? Hash (settingsFromProto (pr_privileged r)))%string else ApprovalHash in
          guard? (RequiredPrivilegeMode (settingsFromProto (pr_privileged r)) =? actual) else ApprovalIdentity in
          Ok (r, a)
      | _, _ => Err ApprovalRequired
      end
  end.

Definition commitApproved (now : time) (r : PrivilegedRevision) (receipt : Receipt) : Op unit := fun s w =>
  let st := pst_state s in
  if (pr_revision r <=? ps_AppliedRevision st) || (pr_revision r <? ps_PendingRevision st) ||
     (pr_update_sequence r <? ps_LastSequence st) then (Err StaleApproval, s, w) else
  if Nat.leb maximum_outbox (length (ps_Outbox st)) then (Err OutboxFull, s, w) else
  match wire_marshal r with
  | None => (Err ProtoEncode, s, w)
  | Some encoded =>
      let next := with_active (pr_update_sequence r) encoded (pr_revision r)
                    (settingsFromProto (pr_privileged r)) (Some (ps_Active st)) (ps_AppliedRevision st) st in
      commit now (clearPending (with_receipts (ps_Outbox st ++ [receipt])%list (ps_RejectedReceipts st) next)) s w
  end.

Definition ApplyApproved (t1 t2 now : time) (r : option PrivilegedRevision) (actual : PrivilegeMode)
    (receipt : Receipt) : Op unit := fun s w =>
  let agent := match r with Some r => pr_agent_id r | None => "" end in
  let service := match r ≫= pr_authorization with Some a => ha_service_id a | None => "" end in
  match ValidateApproval r agent service actual t1 t2 with
  | Err e => (Err e, s, w)
  | Ok (r, _) => commitApproved now r receipt s w
  end.

Definition ApplyHostApproved (now : time) (r : PrivilegedRevision) (op : option HostOperation)
    (actual : PrivilegeMode) (receipt : Receipt) : Op unit := fun s w =>
  match op with
  | None => (Err HostApprovalMismatch, s, w)
  | Some op =>
      if (pr_state r =? DELIVERY_STATE_APPLYING) && (pr_protocol_version r =? 2) &&
         (ho_phase op =? PHASE_LOCAL_APPLIED) && negb (ho_operation_id op =? "")%string &&
         bool_decide (pr_authorization r = ho_authorization op) &&
         (required_mode (pr_privileged r) =? actual) &&
         (pr_config_hash r =? Hash (settingsFromProto (pr_privileged r)))%string
      then commitApproved now r receipt s w
      else (Err HostApprovalMismatch, s, w)
  end.

Definition AdoptBaseline (now : time) (r : PrivilegedRevision) (local : Settings)
    (actual : PrivilegeMode) (receipt : Receipt) : Op unit := fun s w =>
  let st := pst_state s in
  let fail e := (Err e, s, w) in
  if negb (pr_installation_baseline r && (pr_revision r =? 1) && (pr_protocol_version r =? 2) &&
           (pr_approval_generation r =? 1)) then fail BaselineInvalid else
  if negb ((RequiredPrivilegeMode local =? actual) && negb (RescueHelperEnabled local) &&
           bool_decide (settingsFromProto (pr_privileged r) = local) &&
           (pr_config_hash r =? Hash local)%string) then fail BaselineExceeds else
  match pr_authorization r with
  | None => fail BaselineActions
  | Some a =>
      if negb (bool_decide (ha_actions a = []) && negb (ha_service_id a =? "")%string) then fail BaselineActions else
      if (1 <? ps_AppliedRevision st) || (1 <? ps_PendingRevision st) then fail BaselineHistory else
      if (ps_AppliedRevision st =? 1) && negb (bool_decide (ps_Active st = local)) then fail BaselineConflict else
      if Nat.leb maximum_outbox (length (ps_Outbox st)) then fail OutboxFull else
      match wire_marshal r with
      | None => fail ProtoEncode
      | Some encoded =>
          let next := with_active (ps_LastSequence st) encoded 1 local (ps_Previous st) (ps_PreviousRevision st) st in
          commit now (clearPending (with_receipts (ps_Outbox st ++ [receipt])%list (ps_RejectedReceipts st) next)) s w
      end
  end.

Definition Enqueue (now : time) (receipt : Receipt) : Op unit := fun s w =>
  let st := pst_state s in
  if Nat.leb maximum_outbox (length (ps_Outbox st)) then (Err OutboxFull, s, w) else
  if existsb (fun r => rc_ID r =? rc_ID receipt)%string (ps_Outbox st) then (Ok tt, s, w) else
  commit now (with_receipts (ps_Outbox st ++ [receipt])%list (ps_RejectedReceipts st) st) s w.

(** Append the rejected copies of the receipts called [id]. *)
Definition reject (now : time) (rejected : string) (r : Receipt) : Receipt :=
  mkReceipt (rc_ID r) (rc_Kind r) (rc_Payload r) (rfc3339 now ++ ": " ++ rejected).
Definition FinishReceipt (t now : time) (id rejected : string) : Op unit := fun s w =>
  let st := pst_state s in
  let pending := List.filter (fun r => negb (rc_ID r =? id)%string) (ps_Outbox st) in
  let matching := List.filter (fun r => rc_ID r =? id)%string (ps_Outbox st) in
  let refused := if (rejected =? "")%string then ps_RejectedReceipts st
                 else (ps_RejectedReceipts st ++ map (reject t rejected) matching)%list in
  let refused := if Nat.ltb maximum_rejected (length refused) then last_n maximum_rejected refused else refused in
  commit now (with_receipts pending refused st) s w.
End Ops.

(** ** The commit protocol *)

Section Commit.
Context `{CR : Crypto} `{PT : ProtoTime} `{PE : ProtoEnums} `{JI : Json State} `{WI : Wire PrivilegedRevision}.

Definition avoids (s : Store) (w : World) : Prop :=
  temps_avoid (dir (pst_path s)) ".komari-privileged-" (pst_path s) w.

Definition file_hash (path : string) (w : World) : bytes :=
  match w_fs w !! path with Some f => sha256 (f_data f) | None => zero_hash end.

Lemma lock_path_ne p : p ++ ".write.lock" <> p.
Proof.
  intros Hp. apply (f_equal String.length) in Hp.
  assert (Hl : forall a b, String.length (a ++ b) = (String.length a + String.length b)%nat).
  { clear. induction a as [|c a IH]; intros b; [done|]. change (S (String.length (a ++ b)) = S (String.length a + String.length b)%nat). by rewrite IH. }
  rewrite Hl in Hp. simpl in Hp. lia.
Qed.

(** What [commit] does to the store alone. *)
Lemma commit_state now next s w r s' w' :
  commit now next s w = (r, s', w') ->
  match r with
  | Ok _ => pst_state s' = with_updated now next /\ pst_path s' = pst_path s
  | Err _ => s' = s
  end.
Proof.
  unfold commit. destruct (Acquire _ w) as [[[]|] w1]; [|by intros [= <- <- <-]].
  destruct (read_file _ w1) as [disk w2]. destruct (match disk with Ok _ => _ | Err _ => _ end); [|by intros [= <- <- <-]].
  destruct (negb _); [by intros [= <- <- <-]|]. destruct (json_marshal _); [|by intros [= <- <- <-]].
  destruct (replace_file _ _ _ _ _ _) as [[[]|] w3]; by intros [= <- <- <-].
Qed.

(** Everything a caller of [commit] can observe of the disk. *)
Record commit_post (next : State) (s : Store) (w : World) (r : result unit priv_err) (s' : Store) (w' : World) : Prop := {
  cp_ok : r = Ok tt ->
    file_hash (pst_path s) w = pst_diskHash s /\
    exists data, json_marshal next = Some data /\
      s' = mkStore (pst_path s) next (sha256 data) /\
      w_fs w' !! pst_path s = Some (mkFile data fileMode);
  cp_err : forall e, r = Err e -> s' = s;
  cp_disk : forall e, r = Err e -> e <> PrivIO (Fault OpSyncDir) -> w_fs w' !! pst_path s = w_fs w !! pst_path s;
  cp_sync : r = Err (PrivIO (Fault OpSyncDir)) ->
    file_hash (pst_path s) w = pst_diskHash s /\
    exists data, json_marshal next = Some data /\ w_fs w' !! pst_path s = Some (mkFile data fileMode);
  cp_crash : Forall (fun m => m !! pst_path s = w_fs w !! pst_path s \/
    exists data, json_marshal next = Some data /\ m !! pst_path s = Some (mkFile data fileMode)) (w_trace w');
}.

Lemma commit_refused next s w e w' :
  e <> PrivIO (Fault OpSyncDir) -> w_fs w' !! pst_path s = w_fs w !! pst_path s ->
  (forall f, Forall (old_or_new (pst_path s) f (w_fs w)) (w_trace w')) ->
  commit_post next s w (Err e) s w'.
Proof.
  intros He Hw Ht. split; try done; [congruence|].
  destruct (json_marshal next) as [data|].
  - eapply Forall_impl; [apply (Ht (mkFile data fileMode))|]. intros m [?|?]; eauto.
  - (* the new file is impossible, pick two different ones *)
    pose proof (Ht (mkFile "" 0)) as H0. pose proof (Ht (mkFile "" 1)) as H1.
    rewrite Forall_forall in H0, H1. apply Forall_forall. intros m Hm. left.
    destruct (H0 m Hm) as [?|E0], (H1 m Hm) as [?|E1]; [done|done|done|congruence].
Qed.

Lemma read_outcome path w disk w' :
  read_file path w = (disk, w') ->
  w_fs w' = w_fs w /\ w_trace w' = w_trace w /\ w_rand w' = w_rand w /\
  (disk = Err (Fault OpRead) \/
   match disk with Ok data => Ok (sha256 data) | Err NotExist => Ok zero_hash | Err e => Err e end =
     @Ok _ io_err (file_hash path w)).
Proof.
  unfold read_file, call, file_hash. destruct (hd false (w_faults w)); [intros [= <- <-]; by auto|]. simpl.
  destruct (w_fs w !! path); intros [= <- <-]; simpl; auto.
Qed.

Lemma commit_spec now next s w r s' w' :
  avoids s w -> w_trace w = [] -> commit now next s w = (r, s', w') ->
  commit_post (with_updated now next) s w r s' w'.
Proof.
  intros Ha Hw. unfold commit.
  destruct (Acquire (pst_path s ++ ".write.lock") w) as [r1 w1] eqn:El.
  apply Acquire_frame in El as (Hfs & Hrand & Htr & Herr & _).
  assert (Hne : pst_path s <> pst_path s ++ ".write.lock") by (intros Hp; by eapply lock_path_ne).
  specialize (Hfs (pst_path s) Hne).
  assert (Ht1 : forall f, Forall (old_or_new (pst_path s) f (w_fs w)) (w_trace w1))
    by (intros f; apply (Htr _ _ (w_fs w)); [done|done|by rewrite Hw]).
  destruct r1 as [[]|e].
  2: { intros [= <- <- <-]. apply commit_refused; [|done|done]. specialize (Herr e eq_refl). congruence. }
  destruct (read_file (pst_path s) w1) as [disk w2] eqn:Er.
  apply read_outcome in Er as (Hfs2 & Htr2 & Hr2 & Hhash). rewrite <- Htr2 in Ht1.
  assert (Hp2 : w_fs w2 !! pst_path s = w_fs w !! pst_path s) by congruence.
  replace (file_hash (pst_path s) w1) with (file_hash (pst_path s) w) in Hhash
    by (unfold file_hash; by rewrite Hfs).
  destruct Hhash as [->| ->]; [intros [= <- <- <-]; by apply commit_refused|].
  destruct (file_hash (pst_path s) w =? pst_diskHash s)%string eqn:Eh; simpl.
  2: { intros [= <- <- <-]. by apply commit_refused. }
  apply String.eqb_eq in Eh.
  destruct (json_marshal (with_updated now next)) as [data|] eqn:Ej.
  2: { intros [= <- <- <-]. by apply commit_refused. }
  destruct (replace_file _ _ _ _ _ w2) as [r3 w3] eqn:E3.
  eapply replace_file_atomic in E3 as [Hok He3 _ Hcr];
    [|apply publishes_rename_sync|unfold avoids, temps_avoid in *; by rewrite Hr2, Hrand|].
  2: { eapply Forall_impl; [apply Ht1|]. intros m. unfold old_or_new. by rewrite Hp2. }
  assert (Hcrash : Forall (fun m => m !! pst_path s = w_fs w !! pst_path s \/
    exists data, json_marshal (with_updated now next) = Some data /\ m !! pst_path s = Some (mkFile data fileMode)) (w_trace w3)).
  { eapply Forall_impl; [apply Hcr|]. intros m [Hm|Hm]; [left; congruence|right; eauto]. }
  destruct r3 as [[]|e]; intros [= <- <- <-]; split; try done; try congruence.
  - intros _. split; [done|]. exists data. split_and!; [done|done|]. by rewrite (Hok eq_refl), lookup_insert_eq.
  - intros e' [= <-] Hns. destruct (He3 e eq_refl) as [[_ Hsame]|[-> _]]; [congruence|done].
  - intros [= ->]. split; [done|]. exists data. split; [done|].
    destruct (He3 _ eq_refl) as [[? _]|[_ Hnew]]; [done|]. by rewrite Hnew, lookup_insert_eq.
Qed.
End Commit.

(** ** Runs

    Any sequence of the store's operations, with any arguments, on any disk. *)

Inductive request :=
| QRecord (now : time) (r : option PrivilegedRevision)
| QPromote (actual : PrivilegeMode)
| QRollback (now : time)
| QDiscard (now : time)
| QEnqueue (now : time) (receipt : Receipt)
| QFinish (t now : time) (id rejected : string)
| QApprove (t1 t2 now : time) (r : option PrivilegedRevision) (actual : PrivilegeMode) (receipt : Receipt)
| QHostApprove (now : time) (r : PrivilegedRevision) (op : option HostOperation) (actual : PrivilegeMode) (receipt : Receipt)
| QBaseline (now : time) (r : PrivilegedRevision) (local : Settings) (actual : PrivilegeMode) (receipt : Receipt).

(** The operations that may add a capability. *)
Definition grants (q : request) : bool :=
  match q with QApprove _ _ _ _ _ _ | QHostApprove _ _ _ _ _ | QBaseline _ _ _ _ _ => true | _ => false end.

Section Runs.
Context `{CR : Crypto} `{PT : ProtoTime} `{PE : ProtoEnums} `{JI : Json State} `{WI : Wire PrivilegedRevision}.
Variable rfc3339 : time -> string.

Definition perform (q : request) (s : Store) (w : World) : Store * World :=
  match q with
  | QRecord now r => let '(_, s, w) := RecordPending now r s w in (s, w)
  | QPromote actual => let '(_, s, w) := Promote actual s w in (s, w)
  | QRollback now => let '(_, s, w) := Rollback now s w in (s, w)
  | QDiscard now => let '(_, s, w) := DiscardPending now s w in (s, w)
  | QEnqueue now receipt => let '(_, s, w) := Enqueue now receipt s w in (s, w)
  | QFinish t now id rejected => let '(_, s, w) := FinishReceipt rfc3339 t now id rejected s w in (s, w)
  | QApprove t1 t2 now r actual receipt =>
      let '(_, s, w) := ApplyApproved t1 t2 now r actual receipt s w in (s, w)
  | QHostApprove now r op actual receipt =>
      let '(_, s, w) := ApplyHostApproved now r op actual receipt s w in (s, w)
  | QBaseline now r local actual receipt =>
      let '(_, s, w) := AdoptBaseline now r local actual receipt s w in (s, w)
  end.
Definition perform_all (qs : list request) (sw : Store * World) : Store * World :=
  fold_left (fun sw q => perform q (fst sw) (snd sw)) qs sw.

(** What a request may turn the state into, when it is carried out. *)
Inductive effect (st : State) : request -> State -> Prop :=
| eff_record now r :
    ps_AppliedRevision st < pr_revision r -> ps_PendingRevision st <= pr_revision r ->
    ps_LastSequence st <= pr_update_sequence r ->
    effect st (QRecord now (Some r)) (with_updated now (pending_state r st))
| eff_rollback now p :
    ps_Previous st = Some p -> Subset p (ps_Active st) = true ->
    effect st (QRollback now)
      (with_updated now (with_active (ps_LastSequence st) "" (ps_PreviousRevision st) p None 0 st))
| eff_discard now : effect st (QDiscard now) (with_updated now (clearPending st))
| eff_enqueue now receipt :
    (length (ps_Outbox st) < maximum_outbox)%nat ->
    effect st (QEnqueue now receipt)
      (with_updated now (with_receipts (ps_Outbox st ++ [receipt])%list (ps_RejectedReceipts st) st))
| eff_finish t now id rejected outbox refused :
    (length outbox <= length (ps_Outbox st))%nat -> (length refused <= maximum_rejected)%nat ->
    effect st (QFinish t now id rejected) (with_updated now (with_receipts outbox refused st))
| eff_approved q now r receipt encoded :
    grants q = true -> wire_marshal r = Some encoded ->
    ps_AppliedRevision st < pr_revision r -> ps_PendingRevision st <= pr_revision r ->
    ps_LastSequence st <= pr_update_sequence r -> (length (ps_Outbox st) < maximum_outbox)%nat ->
    effect st q (with_updated now (clearPending (with_receipts (ps_Outbox st ++ [receipt])%list (ps_RejectedReceipts st)
      (with_active (pr_update_sequence r) encoded (pr_revision r) (settingsFromProto (pr_privileged r))
         (Some (ps_Active st)) (ps_AppliedRevision st) st))))
| eff_baseline now r local actual receipt encoded :
    wire_marshal r = Some encoded -> pr_revision r = 1 -> settingsFromProto (pr_privileged r) = local ->
    ps_AppliedRevision st <= 1 -> (length (ps_Outbox st) < maximum_outbox)%nat ->
    effect st (QBaseline now r local actual receipt)
      (with_updated now (clearPending (with_receipts (ps_Outbox st ++ [receipt])%list (ps_RejectedReceipts st)
        (with_active (ps_LastSequence st) encoded 1 local (ps_Previous st) (ps_PreviousRevision st) st)))).

Lemma length_list_filter_le {A} (f : A -> bool) (l : list A) : (length (List.filter f l) <= length l)%nat.
Proof. induction l as [|x l IH]; simpl; [done|]. destruct (f x); simpl; lia. Qed.

Lemma commit_effect q now next s w r s' w' :
  effect (pst_state s) q (with_updated now next) -> commit now next s w = (r, s', w') ->
  s' = s \/ effect (pst_state s) q (pst_state s').
Proof. intros Hq Hc. apply commit_state in Hc. destruct r as [[]|]; [destruct Hc as [-> _]|]; auto. Qed.

Lemma commitApproved_effect q now r receipt s w x s' w' :
  grants q = true -> commitApproved now r receipt s w = (x, s', w') ->
  s' = s \/ effect (pst_state s) q (pst_state s').
Proof.
  intros Hg. unfold commitApproved.
  destruct (_ || _) eqn:E1; [intros [= <- <- <-]; by left|].
  destruct (Nat.leb _ _) eqn:E2; [intros [= <- <- <-]; by left|].
  destruct (wire_marshal r) as [encoded|] eqn:Ew; [|intros [= <- <- <-]; by left].
  apply commit_effect. bool_hyps. by constructor.
Qed.

(** Every operation leaves the store alone or has its effect. *)
Lemma perform_effect q s w :
  fst (perform q s w) = s \/ effect (pst_state s) q (pst_state (fst (perform q s w))).
Proof.
  destruct q as [now r|a|now|now|now receipt|t now id rejected|t1 t2 now r actual receipt|now r op actual receipt|now r local actual receipt];
    simpl; [| | | | | | | |].
  - destruct (RecordPending now r s w) as [[x s'] w'] eqn:E; simpl. unfold RecordPending in E.
    destruct r as [r|]; [|injection E as <- <- <-; by left].
    destruct (pr_privileged r) eqn:Ep; [|injection E as <- <- <-; by left].
    destruct (_ <=? _) eqn:E1; [injection E as <- <- <-; by left|].
    destruct (_ || _) eqn:E2; [injection E as <- <- <-; by left|].
    eapply commit_effect; [|exact E]. bool_hyps. by constructor.
  - by left.
  - unfold Rollback. destruct (ps_Previous _) as [p|] eqn:Ep; [|by left].
    destruct (Subset p _) eqn:Es; simpl; [|by left].
    destruct (commit _ _ _ _) as [[[[]|] s'] w'] eqn:E; simpl; (eapply commit_effect; [|exact E]; by constructor).
  - destruct (DiscardPending now s w) as [[x s'] w'] eqn:E; simpl. unfold DiscardPending in E.
    destruct (ps_Pending _); [|injection E as <- <- <-; by left].
    eapply commit_effect; [|exact E]. constructor.
  - destruct (Enqueue now receipt s w) as [[x s'] w'] eqn:E; simpl. unfold Enqueue in E.
    destruct (Nat.leb _ _) eqn:E1; [injection E as <- <- <-; by left|].
    destruct (existsb _ _); [injection E as <- <- <-; by left|].
    eapply commit_effect; [|exact E]. bool_hyps. by constructor.
  - destruct (FinishReceipt rfc3339 t now id rejected s w) as [[x s'] w'] eqn:E; simpl. unfold FinishReceipt in E.
    eapply commit_effect; [|exact E]. constructor; [apply length_list_filter_le|].
    destruct (Nat.ltb _ _) eqn:El; bool_hyps; [rewrite length_last_n|]; lia.
  - destruct (ApplyApproved t1 t2 now r actual receipt s w) as [[x s'] w'] eqn:E; simpl. unfold ApplyApproved in E.
    destruct (ValidateApproval _ _ _ _ _ _) as [[r' a]|]; [|injection E as <- <- <-; by left].
    by eapply commitApproved_effect.
  - destruct (ApplyHostApproved now r op actual receipt s w) as [[x s'] w'] eqn:E; simpl. unfold ApplyHostApproved in E.
    destruct op as [op|]; [|injection E as <- <- <-; by left].
    destruct (_ && _); [|injection E as <- <- <-; by left]. by eapply commitApproved_effect.
  - destruct (AdoptBaseline now r local actual receipt s w) as [[x s'] w'] eqn:E; simpl. unfold AdoptBaseline in E.
    destruct (negb _) eqn:E1; [injection E as <- <- <-; by left|].
    destruct (negb _) eqn:E2 in E; [injection E as <- <- <-; by left|].
    destruct (pr_authorization r); [|injection E as <- <- <-; by left].
    destruct (negb _) eqn:E3 in E; [injection E as <- <- <-; by left|].
    destruct (_ || _) eqn:E4; [injection E as <- <- <-; by left|].
    destruct (_ && _) eqn:E5 in E; [injection E as <- <- <-; by left|].
    destruct (Nat.leb _ _) eqn:E6; [injection E as <- <- <-; by left|].
    destruct (wire_marshal r) as [encoded|] eqn:Ew; [|injection E as <- <- <-; by left].
    eapply commit_effect; [|exact E]. bool_hyps. by constructor.
Qed.

(** Induction over runs from the effect of one request. *)
Lemma perform_all_ind (Q : request -> Prop) (R : State -> State -> Prop) qs sw :
  (forall st, R st st) -> (forall a b c, R a b -> R b c -> R a c) ->
  (forall st q st', Q q -> effect st q st' -> R st st') ->
  Forall Q qs -> R (pst_state (fst sw)) (pst_state (fst (perform_all qs sw))).
Proof.
  intros Hrefl Htrans Hstep. revert sw. induction qs as [|q qs IH]; intros sw Hall; [apply Hrefl|].
  apply Forall_cons in Hall as [Hq Hqs]. unfold perform_all in *. simpl.
  eapply Htrans; [|by apply IH].
  destruct (perform_effect q (fst sw) (snd sw)) as [->|He]; [apply Hrefl|by eapply Hstep].
Qed.
End Runs.

(** ** Theorems *)

(** The state the agent keeps: bounded receipts, a pending revision newer than
    the applied one, a previous revision older than it. *)
Record well_formed (st : State) : Prop := {
  wf_outbox : (length (ps_Outbox st) <= maximum_outbox)%nat;
  wf_rejected : (length (ps_RejectedReceipts st) <= maximum_rejected)%nat;
  wf_pending : match ps_Pending st with
               | Some _ => ps_AppliedRevision st < ps_PendingRevision st
               | None => ps_PendingRevision st = 0 /\ ps_PendingTaskID st = "" /\ ps_PendingNonce st = ""
               end;
  wf_previous : ps_Previous st <> None -> ps_PreviousRevision st < ps_AppliedRevision st;
}.

(** The signed revision kept beside the active settings is the one that granted
    them. *)
Definition signed_by_active `{Wire PrivilegedRevision} (st : State) : Prop :=
  ps_ActiveSignedRevision st = "" \/
  exists r, wire_unmarshal (ps_ActiveSignedRevision st) = Some r /\
    pr_revision r = ps_AppliedRevision st /\ settingsFromProto (pr_privileged r) = ps_Active st.

Lemma Subset_refl a : Subset a a = true.
Proof. unfold Subset. destruct a as [m [] [] [] [] []]; simpl; by rewrite Z.eqb_refl. Qed.

Lemma orb_impl x y : negb x || y = true <-> (x = true -> y = true).
Proof. destruct x, y; simpl; naive_solver. Qed.

Lemma Subset_trans a b c : Subset a b = true -> Subset b c = true -> Subset a c = true.
Proof.
  unfold Subset. rewrite !andb_true_iff, !orb_impl, !orb_true_iff, !Z.eqb_eq.
  intros H1 H2. destruct_and?. split_and!; auto. intuition congruence.
Qed.

Section Theorems.
Context `{CR : Crypto} `{PT : ProtoTime} `{PE : ProtoEnums} `{JI : Json State} `{WI : Wire PrivilegedRevision}.
Variable rfc3339 : time -> string.

(** C8: every state the privileged store reaches is well formed: at most
    1024 receipts wait and 128 rejected ones are kept, a pending revision is
    newer than the applied one, and no pending task or nonce outlives it. *)
Theorem privileged_invariant qs s w :
  well_formed (pst_state s) -> well_formed (pst_state (fst (perform_all rfc3339 qs (s, w)))).
Proof.
  apply (perform_all_ind rfc3339 (fun _ => True) (fun a b => well_formed a -> well_formed b)) with (sw := (s, w)); [done|auto| |].
  2: { apply Forall_forall. done. }
  intros st q st' _ He [Ho Hr Hp Hv]. destruct He; split; simpl; rewrite ?length_app; simpl; try done; try lia.
  - destruct (ps_Pending st) as [q|]; [|done]. assert (Hpv : ps_Previous st <> None) by congruence. specialize (Hv Hpv). lia.
  - intros Hn. specialize (Hv Hn). lia.
Qed.
(** Without a verified approval the agent's capabilities only shrink:
    whatever is delivered, queued, discarded or rolled back, the settings in
    force and the effective settings are a subset of those active before. *)
Theorem no_grant_only_narrows qs s w :
  Forall (fun q => grants q = false) qs ->
  let s' := fst (perform_all rfc3339 qs (s, w)) in
  Subset (ps_Active (pst_state s')) (ps_Active (pst_state s)) = true /\
  Subset (Effective s') (ps_Active (pst_state s)) = true.
Proof.
  intros Hall s'.
  assert (Hs : Subset (ps_Active (pst_state s')) (ps_Active (pst_state s)) = true).
  { apply (perform_all_ind rfc3339 (fun q => grants q = false)
      (fun a b => Subset (ps_Active b) (ps_Active a) = true)) with (sw := (s, w)); [intros; apply Subset_refl| | |done].
    - intros a b c H1 H2. by eapply Subset_trans.
    - intros st q st' Hq He. destruct He; simpl in *; try apply Subset_refl; congruence. }
  split; [done|]. eapply Subset_trans; [|exact Hs]. unfold Effective, Subset.
  destruct (ps_Pending (pst_state s')) as [p|]; simpl; rewrite Z.eqb_refl; simpl;
    destruct (ps_Active (pst_state s')) as [m a1 a2 a3 a4 a5]; simpl.
  - destruct p as [pm p1 p2 p3 p4 p5]; simpl. by destruct a1, a2, a3, a4, a5, p1, p2, p3, p4, p5.
  - by destruct a1, a2, a3, a4, a5.
Qed.

(** The update sequence never goes back, whatever is delivered or rolled
    back, so an older delivery cannot replace a newer one. *)
Theorem sequence_monotone qs s w :
  ps_LastSequence (pst_state s) <= ps_LastSequence (pst_state (fst (perform_all rfc3339 qs (s, w)))).
Proof.
  apply (perform_all_ind rfc3339 (fun _ => True)
    (fun a b => ps_LastSequence a <= ps_LastSequence b)) with (sw := (s, w)); [lia|lia| |by apply Forall_forall].
  intros st q st' _ He. destruct He; simpl; lia.
Qed.

(** The signed revision stored beside the active settings is always the
    one that granted them: it decodes to their revision number and settings,
    or there is none (nothing approved yet, or a local rollback). *)
Theorem active_is_signed qs s w :
  (forall (r : PrivilegedRevision) b, wire_marshal r = Some b -> wire_unmarshal b = Some r) ->
  signed_by_active (pst_state s) -> signed_by_active (pst_state (fst (perform_all rfc3339 qs (s, w)))).
Proof.
  intros Hrt. apply (perform_all_ind rfc3339 (fun _ => True)
    (fun a b => signed_by_active a -> signed_by_active b)) with (sw := (s, w)); [done|auto| |by apply Forall_forall].
  intros st q st' _ He Hs. unfold signed_by_active in *. destruct He; simpl; eauto 10.
Qed.

(** A successful approval was bound to this agent state: the revision is
    signed, current and same-identity, its hash is that of the settings it
    carries, it is strictly newer than the applied one; afterwards exactly
    those settings are active, the old ones are kept for rollback, the pending
    candidate is gone and the receipt is queued. A refused one changes nothing. *)
Theorem ApplyApproved_spec t1 t2 now r actual receipt s w x s' w' :
  ApplyApproved t1 t2 now r actual receipt s w = (x, s', w') ->
  (is_ok x = false -> s' = s) /\
  (x = Ok tt -> exists rv a,
     r = Some rv /\ pr_authorization rv = Some a /\ pr_signature rv <> None /\
     pr_state rv = DELIVERY_STATE_AWAITING_AGENT /\ pr_installation_baseline rv = false /\
     ha_actions a = [] /\ ha_revision a = pr_revision rv /\ ha_nonce a <> "" /\
     ha_target_mode a = actual /\ RequiredPrivilegeMode (ps_Active (pst_state s')) = actual /\
     (exists e, ha_expires_at a = Some e /\ t2 < ts_time e) /\
     pr_config_hash rv = Hash (ps_Active (pst_state s')) /\
     ps_Active (pst_state s') = settingsFromProto (pr_privileged rv) /\
     ps_AppliedRevision (pst_state s) < ps_AppliedRevision (pst_state s') /\
     ps_AppliedRevision (pst_state s') = pr_revision rv /\
     ps_Previous (pst_state s') = Some (ps_Active (pst_state s)) /\
     ps_PreviousRevision (pst_state s') = ps_AppliedRevision (pst_state s) /\
     ps_Pending (pst_state s') = None /\
     ps_Outbox (pst_state s') = (ps_Outbox (pst_state s) ++ [receipt])%list).
Proof.
  unfold ApplyApproved. destruct (ValidateApproval _ _ _ _ _ _) as [[rv a]|e] eqn:Ev.
  2: { by intros [= <- <- <-]. }
  intros Hc. unfold commitApproved in Hc.
  destruct (_ || _) eqn:E1; [injection Hc as <- <- <-; done|].
  destruct (Nat.leb _ _) eqn:E2; [injection Hc as <- <- <-; done|].
  destruct (wire_marshal rv) as [encoded|]; [|injection Hc as <- <- <-; done].
  apply commit_state in Hc. destruct x as [[]|e]; [|done]. destruct Hc as [Hst _].
  split; [done|]. intros _. rewrite Hst. simpl.
  unfold ValidateApproval in Ev. destruct r as [rv'|]; [|done].
  destruct (pr_signature rv') eqn:Esig; [|done]. destruct (pr_authorization rv') as [a'|] eqn:Eau; [|done].
  ok_inv Ev. unfold approval_window in *. destruct (ha_issued_at a) as [i|]; [|done].
  destruct (ha_expires_at a) as [ex|] eqn:Eex; [|done].
  exists rv, a. bool_hyps. split_and!; try done; try congruence; try lia. exists ex. split; [done|tlia].
Qed.

(** Two stores on one file never lose an update: once one of them has
    committed, the other, which has not read that commit, is refused and the
    file keeps the committed state, whatever else goes wrong. *)
Theorem commit_no_lost_update now1 n1 s1 w s1' w1 now2 n2 s2 r s2' w2 :
  avoids s1 w -> w_trace w = [] -> commit now1 n1 s1 w = (Ok tt, s1', w1) ->
  pst_path s2 = pst_path s1 -> pst_diskHash s2 <> pst_diskHash s1' ->
  avoids s2 w1 -> commit now2 n2 s2 (forget_trace w1) = (r, s2', w2) ->
  is_ok r = false /\ s2' = s2 /\
  exists data, json_marshal (with_updated now1 n1) = Some data /\
    w_fs w2 !! pst_path s1 = Some (mkFile data fileMode).
Proof.
  intros Ha1 Ht Hc1 Hp Hne Ha2 Hc2.
  destruct (commit_spec _ _ _ _ _ _ _ Ha1 Ht Hc1) as [Hok _ _ _ _].
  destruct (Hok eq_refl) as (_ & data & Hj & -> & Hf). simpl in Hne.
  destruct (commit_spec _ _ _ (forget_trace w1) _ _ _ Ha2 eq_refl Hc2) as [Hok2 Herr2 Hdisk2 Hsync2 _].
  assert (Hstale : file_hash (pst_path s2) (forget_trace w1) <> pst_diskHash s2)
    by (unfold file_hash; simpl; rewrite Hp, Hf; simpl; congruence).
  destruct r as [[]|e]; [by destruct (Hok2 eq_refl)|].
  split; [done|]. split; [by eapply Herr2|]. exists data. split; [done|].
  rewrite <- Hp. rewrite (Hdisk2 e eq_refl); [by simpl; rewrite Hp|].
  intros ->. by destruct (Hsync2 eq_refl).
Qed.

(** When only the directory flush after the rename fails, the commit is
    reported as failed and the state in memory is the old one, but the file
    already holds the new one; as its digest is not the remembered one, every
    further commit of this store is refused. *)
Theorem commit_locked_out_after_flush_failure now1 n1 s w s' w1 now2 n2 r s2 w2 :
  avoids s w -> w_trace w = [] ->
  commit now1 n1 s w = (Err (PrivIO (Fault OpSyncDir)), s', w1) ->
  (forall data, json_marshal (with_updated now1 n1) = Some data -> sha256 data <> pst_diskHash s) ->
  avoids s w1 -> commit now2 n2 s' (forget_trace w1) = (r, s2, w2) ->
  s' = s /\ is_ok r = false /\ s2 = s /\
  exists data, json_marshal (with_updated now1 n1) = Some data /\ w_fs w2 !! pst_path s = Some (mkFile data fileMode).
Proof.
  intros Ha Ht Hc1 Hfresh Ha2 Hc2.
  destruct (commit_spec _ _ _ _ _ _ _ Ha Ht Hc1) as [_ Herr _ Hsync _].
  specialize (Herr _ eq_refl). subst s'. destruct (Hsync eq_refl) as (_ & data & Hj & Hf).
  destruct (commit_spec _ _ _ (forget_trace w1) _ _ _ Ha2 eq_refl Hc2) as [Hok2 Herr2 Hdisk2 Hsync2 _].
  assert (Hstale : file_hash (pst_path s) (forget_trace w1) <> pst_diskHash s)
    by (unfold file_hash; simpl; rewrite Hf; simpl; auto).
  destruct r as [[]|e]; [by destruct (Hok2 eq_refl)|].
  split_and!; [done|done|by eapply Herr2|]. exists data. split; [done|].
  rewrite (Hdisk2 e eq_refl); [done|]. intros ->. by destruct (Hsync2 eq_refl).
Qed.
End Theorems.

(** ** The settings digest *)

Lemma of_chars_app l1 l2 : of_chars (l1 ++ l2)%list = of_chars l1 ++ of_chars l2.
Proof. induction l1 as [|a l1 IH]; [done|]. change (String a (of_chars (l1 ++ l2)%list) = String a (of_chars l1 ++ of_chars l2)). by rewrite IH. Qed.

Lemma be32_inj a b : 0 <= a < 2 ^ 32 -> 0 <= b < 2 ^ 32 -> be32 a = be32 b -> a = b.
Proof.
  intros Ha Hb He. apply (f_equal chars) in He. unfold be32 in He. rewrite !chars_of_chars in He.
  assert (Hbyte : forall x y k, byte_of (Z.to_nat (Z.land (Z.shiftr x k) 255)) = byte_of (Z.to_nat (Z.land (Z.shiftr y k) 255)) ->
    Z.land (Z.shiftr x k) 255 = Z.land (Z.shiftr y k) 255).
  { intros x y k Hk. change 255 with (Z.ones 8) in *. rewrite !Z.land_ones in * by lia.
    apply (f_equal nat_of_ascii) in Hk. unfold byte_of in Hk.
    pose proof (Z.mod_pos_bound (Z.shiftr x k) (2 ^ 8) ltac:(lia)).
    pose proof (Z.mod_pos_bound (Z.shiftr y k) (2 ^ 8) ltac:(lia)).
    rewrite !nat_ascii_embedding in Hk by lia. lia. }
  simpl in He. injection He as H1 H2 H3 H4.
  apply Hbyte in H1, H2, H3, H4. change 255 with (Z.ones 8) in *. rewrite !Z.land_ones, !Z.shiftr_div_pow2 in * by lia.
  change (2 ^ 24) with 16777216 in *. change (2 ^ 16) with 65536 in *. change (2 ^ 8) with 256 in *. change (2 ^ 0) with 1 in *. change (2 ^ 32) with 4294967296 in *.
  rewrite Z.div_1_r in *.
  assert (Hdec : forall z, 0 <= z < 4294967296 ->
    z = z / 16777216 mod 256 * 16777216 + z / 65536 mod 256 * 65536 + z / 256 mod 256 * 256 + z mod 256).
  { intros z Hz. Z.div_mod_to_equations. lia. }
  rewrite (Hdec a Ha), (Hdec b Hb). rewrite Z.div_1_r in H4. congruence.
Qed.

(** The digest an approval must quote covers every setting: no two settings
    with 32-bit modes have the same digest input. *)
Theorem hash_input_injective a b :
  0 <= RequiredPrivilegeMode a < 2 ^ 32 -> 0 <= RequiredPrivilegeMode b < 2 ^ 32 ->
  hash_input a = hash_input b -> a = b.
Proof.
  intros Ha Hb He. unfold hash_input in He. apply (f_equal chars) in He.
  rewrite !chars_app, !chars_of_chars in He. apply app_inv_head in He.
  destruct a as [ma a1 a2 a3 a4 a5], b as [mb b1 b2 b3 b4 b5]; simpl in *.
  injection He as H1 H2 H3 H4 H5 H6.
  assert (Hf : forall x y, flag_byte x = flag_byte y -> x = y) by (by intros [] []).
  apply Hf in H1, H2, H3, H4, H5. subst.
  assert (Hm : be32 (wrapu32 ma) = be32 (wrapu32 mb)).
  { unfold be32. simpl. congruence. }
  unfold wrapu32 in Hm. rewrite !Z.mod_small in Hm by lia. apply be32_inj in Hm; [by subst|done|done].
Qed.

Lemma settingsFromProto_Proto s : settingsFromProto (Some (Proto s)) = s.
Proof. by destruct s. Qed.

(** ** Witnesses

    A host with nothing granted, and a panel approval of execution for the mode
    numbered 2, on an empty disk. *)

Definition wit_crypto : Crypto :=
  {| sha256 := fun s => s; ed25519_verify := fun _ _ _ => true; ed25519_sign := fun k p => p; ed25519_public := fun k => k |}.
Definition wit_time : ProtoTime := {| ts_check := fun _ => true; ts_time := fun t => ts_seconds t * second |}.
Definition wit_enums : ProtoEnums :=
  {| DELIVERY_STATE_AWAITING_AGENT := 2; DELIVERY_STATE_APPLYING := 5; PHASE_LOCAL_APPLIED := 3 |}.
Definition wit_settings : Settings := mkSettings 2 false false true false false.
Definition wit_authorization : HostAuthorization :=
  mkHostAuthorization "agent-1" "komari" 7 (@Hash wit_crypto wit_settings) 1 [] 2 "nonce" "operator"
    (Some (mkTimestamp 1000 0)) (Some (mkTimestamp 1060 0)) "".
Definition wit_revision : PrivilegedRevision :=
  mkPrivilegedRevision 2 false 2 "agent-1" 7 (@Hash wit_crypto wit_settings) 1 4 (Some (Proto wit_settings))
    (Some wit_authorization) None (Some (mkEnvelope "" [])) None "".
Definition wit_wire : Wire PrivilegedRevision := one_wire wit_revision "R".
(** The encoding only has to tell the state's sequence numbers apart here. *)
Definition wit_json : Json State :=
  {| json_marshal := fun st => Some (utoa (ps_LastSequence st)); json_unmarshal := fun _ => None |}.
Definition wit_store : Store := mkStore "/k/privileged.json" zero_state zero_hash.
Definition wit_world (faults : list bool) : World := mkWorld empty faults ["1"; "2"; "3"; "4"] [].
Definition wit_receipt : Receipt := mkReceipt "r1" "privileged" "" "".

Lemma priv_wit_avoids s faults : pst_path s = "/k/privileged.json" -> avoids s (wit_world faults).
Proof. intros Hp. unfold avoids. rewrite Hp. apply temps_avoid_all. vm_compute. repeat constructor; discriminate. Qed.
Lemma wit_zero_formed : well_formed zero_state.
Proof. split; simpl; try done; lia. Qed.

Definition wit_qs : list request :=
  [QRecord 1 (Some wit_revision); QApprove (1030 * second) (1030 * second) 2 (Some wit_revision) 2 wit_receipt;
   QEnqueue 3 (mkReceipt "r2" "k" "" ""); QFinish 4 4 "r1" "refused"].

Lemma privileged_invariant_witness :
  let C := wit_crypto in let T := wit_time in let P := wit_enums in let J := wit_json in let W := wit_wire in
  let s' := fst (perform_all itoa wit_qs (wit_store, wit_world [])) in
  ps_Active (pst_state s') = wit_settings /\ (length (ps_RejectedReceipts (pst_state s')) <= maximum_rejected)%nat.
Proof.
  intros C T P J W s'. split; [vm_compute; reflexivity|].
  exact (wf_rejected _ (privileged_invariant (CR := C) (PT := T) (PE := P) (JI := J) (WI := W) itoa wit_qs wit_store
           (wit_world []) wit_zero_formed)).
Defined.

Lemma no_grant_only_narrows_witness :
  let C := wit_crypto in let T := wit_time in let P := wit_enums in let J := wit_json in let W := wit_wire in
  let s' := fst (perform_all itoa [QRecord 1 (Some wit_revision); QRollback 2] (wit_store, wit_world [])) in
  ps_Pending (pst_state s') = Some wit_settings /\ Subset (Effective s') restrictive = true.
Proof.
  intros C T P J W s'. split; [vm_compute; reflexivity|].
  apply (no_grant_only_narrows (CR := C) (PT := T) (PE := P) (JI := J) (WI := W) itoa _ wit_store (wit_world [])).
  repeat constructor.
Defined.

Lemma active_is_signed_witness :
  let C := wit_crypto in let T := wit_time in let P := wit_enums in let J := wit_json in let W := wit_wire in
  signed_by_active (pst_state (fst (perform_all itoa wit_qs (wit_store, wit_world [])))).
Proof.
  intros C T P J W.
  apply (active_is_signed (CR := C) (PT := T) (PE := P) (JI := J) (WI := W) itoa wit_qs wit_store (wit_world [])).
  - apply one_wire_roundtrip.
  - left. reflexivity.
Defined.

Lemma ApplyApproved_spec_witness :
  let C := wit_crypto in let T := wit_time in let P := wit_enums in let J := wit_json in let W := wit_wire in
  let run := ApplyApproved (1030 * second) (1030 * second) 2 (Some wit_revision) 2 wit_receipt wit_store (wit_world []) in
  fst (fst run) = Ok tt /\
  ps_AppliedRevision (pst_state wit_store) < ps_AppliedRevision (pst_state (snd (fst run))).
Proof.
  intros C T P J W run. assert (E : fst (fst run) = Ok tt) by (vm_compute; reflexivity). split; [exact E|].
  destruct (ApplyApproved_spec (CR := C) (PT := T) (PE := P) (JI := J) (WI := W) _ _ _ _ _ _ _ _ _ _ _
    (run_outcome run _ E)) as [_ H].
  destruct (H eq_refl) as (rv & a & H1). apply H1.
Defined.

(** Two handles on one file, opened before either wrote. *)
Lemma commit_no_lost_update_witness :
  let C := wit_crypto in let J := wit_json in
  let run1 := commit 1 (@pending_state wit_time wit_revision zero_state) wit_store (wit_world []) in
  let run2 := commit 2 zero_state wit_store (forget_trace (snd run1)) in
  fst (fst run1) = Ok tt /\ is_ok (fst (fst run2)) = false.
Proof.
  intros C J run1 run2. assert (E : fst (fst run1) = Ok tt) by (vm_compute; reflexivity). split; [exact E|].
  refine (proj1 (commit_no_lost_update (CR := C) (JI := J) 1 (@pending_state wit_time wit_revision zero_state) wit_store (wit_world []) (snd (fst run1)) (snd run1)
    2 zero_state wit_store (fst (fst run2)) (snd (fst run2)) (snd run2) _ eq_refl (run_outcome run1 _ E) eq_refl _ _ (run_outcome run2 (fst (fst run2)) eq_refl))).
  - apply priv_wit_avoids; reflexivity.
  - vm_compute. discriminate.
  - apply temps_avoid_all. vm_compute. repeat constructor; discriminate.
Defined.

Lemma commit_locked_out_witness :
  let C := wit_crypto in let J := wit_json in
  let faults := [false; false; false; false; false; false; false; false; false; false; false; true] in
  let run1 := commit 1 (@pending_state wit_time wit_revision zero_state) wit_store (wit_world faults) in
  let run2 := commit 2 zero_state (snd (fst run1)) (forget_trace (snd run1)) in
  fst (fst run1) = Err (PrivIO (Fault OpSyncDir)) /\ is_ok (fst (fst run2)) = false.
Proof.
  intros C J faults run1 run2.
  assert (E : fst (fst run1) = Err (PrivIO (Fault OpSyncDir))) by (vm_compute; reflexivity). split; [exact E|].
  refine (proj1 (proj2 (commit_locked_out_after_flush_failure (CR := C) (JI := J) 1 (@pending_state wit_time wit_revision zero_state) wit_store (wit_world faults)
    (snd (fst run1)) (snd run1) 2 zero_state (fst (fst run2)) (snd (fst run2)) (snd run2) _ eq_refl (run_outcome run1 _ E) _ _ (run_outcome run2 (fst (fst run2)) eq_refl)))).
  - apply priv_wit_avoids; reflexivity.
  - intros data [= <-]. vm_compute. discriminate.
  - apply temps_avoid_all. vm_compute. repeat constructor; discriminate.
Defined.

Lemma hash_input_injective_witness :
  wit_settings = wit_settings /\ hash_input wit_settings = hash_input (settingsFromProto (Some (Proto wit_settings))).
Proof.
  assert (H : hash_input wit_settings = hash_input (settingsFromProto (Some (Proto wit_settings)))) by (vm_compute; reflexivity).
  split; [|exact H].
  exact (hash_input_injective wit_settings (settingsFromProto (Some (Proto wit_settings)))
    ltac:(simpl; lia) ltac:(simpl; lia) H).
Defined.
