(* ===== verification/HostOps.v ===== *)
(** * Administrator-managed host metadata ([core/hostops])

    The installation manifest, the local policy and the pinned host trust, and
    the verification of what the panel signs for the host: privileged revisions,
    host operations and helper releases. *)

From S2P Require Import Prelude.
From S2P Require Import GoStd.
From S2P Require Import GoPath.
From S2P Require Import Disk.
From S2P Require Import External.
From S2P Require Import Credentials.
From S2P Require Import Replay.
From S2P Require Import Signing.
From S2P Require Import Privileged.

Local Open Scope string_scope.
Local Open Scope Z_scope.

Definition ManifestVersion : Z := 2.
Definition maximum_metadata : Z := 1048576.     (* 1 << 20 *)

Record AccessConfig := mkAccess { acc_ClientID : string; acc_ClientSecret : string }.

Record Trust := mkTrust {
  tr_Version : Z;
  tr_AgentID : string;
  tr_Endpoint : string;
  tr_ServiceID : string;
  tr_ServiceUser : string;
  tr_PanelKeys : list PinnedKey;
  tr_ReleaseKeys : list PinnedKey;
  tr_AccessConfigFile : string;
}.

Record Manifest := mkManifest {
  mf_Version : Z;
  mf_ServiceName : string;
  mf_ServiceUser : string;
  mf_InitSystem : string;
  mf_Executable : string;
  mf_HostTool : string;
  mf_HostPolicyFile : string;
  mf_ConfigFile : string;
  mf_CredentialsFile : string;
  mf_RuntimeStateFile : string;
  mf_PrivilegedStateFile : string;
  mf_ReplayStateFile : string;
  mf_ManifestPath : string;
}.

#[export] Instance Manifest_eq : EqDecision Manifest.
Proof. solve_decision. Defined.
Record Policy := mkPolicy {
  po_Version : Z;
  po_ServiceID : string;
  po_PrivilegeMode : Z;
  po_AllowRemoteControl : bool;
  po_AllowWebSSH : bool;
  po_AllowExecution : bool;
  po_AllowGPU : bool;
  po_ForceDenyRemoteControl : bool;
  po_BaselineRemoteControl : bool;
  po_BaselineWebSSH : bool;
  po_BaselineExecution : bool;
  po_BaselineGPU : bool;
  po_AllowRescueHelper : bool;
  po_ForceDenyRescueHelper : bool;
  po_HelperAuthorized : bool;
  po_HelperInstalled : bool;
  po_DisableSource : string;
  po_HostRevision : Z;
  po_HostSettings : option Settings;
}.

Inductive host_err :=
| HostIO (e : io_err)
| UntrustedPath | BadMetadata | TrailingContent
| AccessRelative | AccessIncomplete
| TrustEndpoint | TrustIncomplete | TrustKeys | TrustService
| PolicyMissing | PolicyMismatch
| NotRegular
| HostSignature (e : sign_err) | SchemaMismatch | MessageEncode | BodyMismatch
| MissingRevision | RevisionBinding | ApprovalTimes | UnknownAction | ConflictingActions
| MissingOperation | LeaseMismatch
| ReleaseUntrusted | ReleasePayload_ | ReleaseMismatch | ReleaseHash.

(** ** Trusted paths and metadata files *)

(** What [os.Lstat] reports. *)
Record Stat := mkStat { st_uid : Z; st_perm : Z; st_symlink : bool }.
Definition trusted_stat (st : Stat) : bool :=
  (st_uid st =? 0) && (Z.land (st_perm st) 18 =? 0) && negb (st_symlink st).      (* 0o022 *)

Section Metadata.
(** The file system's metadata. *)
Variable lstat : string -> option Stat.
Variable is_regular : string -> bool.

Fixpoint trusted_go (fuel : nat) (p : string) : bool :=
  match fuel with
  | O => false
  | S fuel =>
      match lstat p with
      | None => false
      | Some st =>
          if negb (trusted_stat st) then false
          else if (p =? "/")%string then true else trusted_go fuel (dir p)
      end
  end.
(** The loop visits the path and each of its ancestors: one more than it has
    elements. *)
Definition TrustedPath (path : string) : bool :=
  if negb (is_abs path) then false else trusted_go (S (length (elems path))) (clean path).

Definition ReadJSON {A} `{StrictJson A} (path : string) (trusted : bool) (w : World)
    : result A host_err * World :=
  if trusted && negb (TrustedPath path) then (Err UntrustedPath, w) else
  match read_file path w with
  | (Err e, w) => (Err (HostIO e), w)
  | (Ok data, w) =>
      if negb (is_regular path) || (maximum_metadata <? slen data) then (Err BadMetadata, w) else
      match decode_strict data with
      | None => (Err BadMetadata, w)
      | Some (a, rest) =>
          if at_eof rest then (Ok a, w) else (Err TrailingContent, w)
      end
  end.

Definition ReadAccess `{StrictJson AccessConfig} (t : Trust) (w : World) : result AccessConfig host_err * World :=
  if (tr_AccessConfigFile t =? "")%string then (Ok (mkAccess "" ""), w) else
  if negb (is_abs (tr_AccessConfigFile t)) then (Err AccessRelative, w) else
  match ReadJSON (tr_AccessConfigFile t) true w with
  | (Err e, w) => (Err e, w)
  | (Ok a, w) =>
      if (acc_ClientID a =? "")%string || (acc_ClientSecret a =? "")%string
      then (Err AccessIncomplete, w) else (Ok a, w)
  end.

Definition resolve_path (d p : string) : string :=
  if negb (p =? "")%string && negb (is_abs p) then join_path [d; p] else p.
Definition ReadManifest `{StrictJson Manifest} (path : string) (w : World) : result Manifest host_err * World :=
  match ReadJSON path false w with
  | (Err e, w) => (Err e, w)
  | (Ok m, w) =>
      if (ManifestVersion <=? mf_Version m) && negb (TrustedPath path) then (Err UntrustedPath, w) else
      let at_ := resolve_path (dir path) in
      (Ok (mkManifest (mf_Version m) (mf_ServiceName m) (mf_ServiceUser m) (mf_InitSystem m)
             (at_ (mf_Executable m)) (at_ (mf_HostTool m)) (at_ (mf_HostPolicyFile m)) (at_ (mf_ConfigFile m))
             (at_ (mf_CredentialsFile m)) (at_ (mf_RuntimeStateFile m)) (at_ (mf_PrivilegedStateFile m))
             (at_ (mf_ReplayStateFile m)) path), w)
  end.

Definition ReadPolicy `{StrictJson Policy} (m : option Manifest) (w : World) : result Policy host_err * World :=
  match m with
  | None => (Err PolicyMissing, w)
  | Some m =>
      if negb (mf_Version m =? ManifestVersion) || (mf_HostPolicyFile m =? "")%string then (Err PolicyMissing, w) else
      match ReadJSON (mf_HostPolicyFile m) true w with
      | (Err e, w) => (Err e, w)
      | (Ok p, w) =>
          if negb (po_Version p =? ManifestVersion) || negb (po_ServiceID p =? mf_ServiceName m)%string
          then (Err PolicyMismatch, w) else (Ok p, w)
      end
  end.

Definition TrustPath (m : Manifest) : string :=
  join_path [dir (mf_HostPolicyFile m); mf_ServiceName m ++ ".trust.json"].
Definition AppliedPath (m : Manifest) : string :=
  join_path [dir (mf_HostPolicyFile m); mf_ServiceName m ++ ".applied.json"].
Definition HelperStatusPath (m : Manifest) : string :=
  join_path ["/run/komari"; mf_ServiceName m ++ ".helper.json"].

Definition service_char (a : ascii) : bool :=
  let n := code a in
  (Nat.leb 97 n && Nat.leb n 122) || (Nat.leb 65 n && Nat.leb n 90) || (Nat.leb 48 n && Nat.leb n 57) ||
  Nat.eqb n 95 || Nat.eqb n 46 || Nat.eqb n 45.
Definition ValidService (name : string) : bool :=
  negb ((name =? "")%string || (128 <? slen name) || has_prefix name "-") && forallb service_char (chars name).

(** [url.Parse], by the parts [Validate] reads. *)
Record Url := mkUrl {
  u_Scheme : string; u_Host : string; u_Hostname : string; u_User : bool; u_RawQuery : string; u_Fragment : string }.
Variable parse_url : string -> option Url.

Definition trusted_key (k : PinnedKey) : bool :=
  match b64_decode (pk_Value k) with
  | None => false
  | Some b => (slen b =? PublicKeySize) && negb (pk_KeyID k =? "")%string && (pk_Algorithm k =? 1)
  end.
Definition endpoint_allowed (u : Url) : bool :=
  negb (u_Host u =? "")%string &&
  ((u_Scheme u =? "https")%string ||
   ((u_Scheme u =? "http")%string && ((u_Hostname u =? "127.0.0.1")%string || (u_Hostname u =? "::1")%string))) &&
  negb (u_User u) && (u_RawQuery u =? "")%string && (u_Fragment u =? "")%string.
Definition Validate (t : Trust) : result unit host_err :=
  match parse_url (tr_Endpoint t) with
  | None => Err TrustEndpoint
  | Some u =>
      guard? endpoint_allowed u else TrustEndpoint in
      guard? (tr_Version t =? 2) && negb (tr_AgentID t =? "")%string && ValidService (tr_ServiceID t) &&
        ValidService (tr_ServiceUser t) && negb (Nat.eqb (length (tr_PanelKeys t)) 0) else TrustIncomplete in
      guard? forallb trusted_key (tr_PanelKeys t ++ tr_ReleaseKeys t)%list else TrustKeys in
      Ok tt
  end.

Definition ReadTrust `{StrictJson Trust} (m : Manifest) (w : World) : result Trust host_err * World :=
  match ReadJSON (TrustPath m) true w with
  | (Err e, w) => (Err e, w)
  | (Ok t, w) =>
      match Validate t with
      | Err e => (Err e, w)
      | Ok _ => if negb (tr_ServiceID t =? mf_ServiceName m)%string then (Err TrustService, w) else (Ok t, w)
      end
  end.

(** [atomicWrite]: the temporary is closed whatever happened to it, and the
    owner is changed only when one is given ([chown] of [-1] leaves it). *)
Definition write_and_close (name data : string) (mode : Z) (owned : bool) : IO unit := fun w =>
  let '(r, w1) := ((if owned then pure_call OpChmod else io_ret tt) ;;
                   chmod name mode ;; write_file name data ;; sync_file name) w in
  let '(c, w2) := close_file name w1 in
  match r with Err e => (Err e, w2) | Ok _ => (c, w2) end.
Definition atomicWrite (path data : string) (mode uid gid : Z) (w : World) : result unit host_err * World :=
  if bool_decide (is_Some (w_fs w !! path)) && negb (is_regular path) then (Err NotRegular, w) else
  match (io name <- create_temp (dir path) ".komari-" ;
         with_removed name (write_and_close name data mode ((0 <=? uid) || (0 <=? gid)) ;;
                            rename name path ;; sync_directory (dir path))) w with
  | (Ok _, w) => (Ok tt, w)
  | (Err e, w) => (Err (HostIO e), w)
  end.
End Metadata.

(** ** Panel signatures on host messages *)

Section Signatures.
Context `{Crypto} `{ProtoTime} `{Wire SignedInstruction} `{Json (option entries)}.
Context `{Wire PrivilegedRevision} `{Wire HostOperation}.
Variable iter : entries -> list (string * time).

(** [Trust.Identity]: Ed25519 only, one signature. *)
Definition TrustIdentity (t : Trust) : Identity :=
  mkIdentity (tr_Endpoint t) (tr_AgentID t) "" "" "" None None "" zero_time "" zero_time []
    (tr_PanelKeys t) [1] false 1 zero_time zero_time.

(** The verifier [verifyBody] builds: no replay guard. *)
Definition host_verifier (t : Trust) : Verifier := New (TrustIdentity t) None.

Definition verifyBody (t : Trust) (now : time) (envelope : option SignedEnvelope)
    (unknown : bytes) (message : option bytes) (kind : string) : result unit host_err :=
  match fst (fst (Verify iter (host_verifier t) now zero_time envelope (mkWorld empty [] [] []))) with
  | Err e => Err (HostSignature e)
  | Ok i =>
      guard? (in_InstructionType i =? kind)%string && (slen unknown =? 0) else SchemaMismatch in
      match message with
      | None => Err MessageEncode
      | Some b => guard? (b =? in_Body i)%string else BodyMismatch in Ok tt
      end
  end.

Definition unsigned_revision (r : PrivilegedRevision) : PrivilegedRevision :=
  mkPrivilegedRevision (pr_protocol_version r) (pr_installation_baseline r) (pr_state r) (pr_agent_id r)
    (pr_revision r) (pr_config_hash r) (pr_approval_generation r) (pr_update_sequence r) (pr_privileged r)
    (pr_authorization r) (pr_plan r) None (pr_received_at r) (pr_unknown r).
Definition unsigned_operation (o : HostOperation) : HostOperation :=
  mkHostOperation (ho_operation_id o) (ho_phase o) (ho_authorization o) (ho_lease_expires_at o) None (ho_unknown o).

Definition revision_kind : string := "komari.config.v2.PrivilegedRevision".
Definition operation_kind : string := "komari.host.v1.HostOperation".

Definition VerifySignedRevision (t : Trust) (now : time) (r : option PrivilegedRevision)
    : result PrivilegedRevision host_err :=
  match r with
  | None => Err MissingRevision
  | Some r =>
      try? _ := verifyBody t now (pr_signature r) (pr_unknown r) (wire_marshal (unsigned_revision r)) revision_kind in
      match pr_privileged r with
      | None => Err RevisionBinding
      | Some p =>
          guard? (pr_protocol_version r =? 2) && (pr_agent_id r =? tr_AgentID t)%string &&
            (slen (pc_unknown p) =? 0) && (pr_config_hash r =? Hash (settingsFromProto (Some p)))%string
            else RevisionBinding in
          Ok r
      end
  end.

(** The loop over the authorized actions: 1, 2 and 3 at most once each. *)
Fixpoint collect_actions (seen : gset Z) (actions : list Z) : option (gset Z) :=
  match actions with
  | [] => Some seen
  | a :: rest =>
      if (a <? 1) || (3 <? a) || bool_decide (a ∈ seen) then None
      else collect_actions ({[a]} ∪ seen) rest
  end.
Definition check_actions (actions : list Z) : result unit host_err :=
  match collect_actions ∅ actions with
  | None => Err UnknownAction
  | Some seen => if bool_decide (2 ∈ seen) && bool_decide (3 ∈ seen) then Err ConflictingActions else Ok tt
  end.

Definition authorization_bound (t : Trust) (r : PrivilegedRevision) (a : HostAuthorization) : bool :=
  negb (pr_revision r =? 0) && negb (pr_installation_baseline r) && (slen (ha_unknown a) =? 0) &&
  (ha_agent_id a =? tr_AgentID t)%string && (ha_service_id a =? tr_ServiceID t)%string &&
  (ha_revision a =? pr_revision r) && (ha_config_hash a =? pr_config_hash r)%string &&
  (ha_approval_generation a =? pr_approval_generation r) && negb (ha_approval_generation a =? 0) &&
  negb (ha_nonce a =? "")%string && negb (ha_approved_by a =? "")%string &&
  (ha_target_mode a =? required_mode (pr_privileged r)).

(** [t0] is the clock of the signature check, [t1] and [t2] the two readings
    of the approval window. *)
Definition VerifyRevision (t : Trust) (t0 t1 t2 : time) (r : option PrivilegedRevision)
    : result unit host_err :=
  try? r := VerifySignedRevision t t0 r in
  match pr_authorization r with
  | None => Err RevisionBinding
  | Some a =>
      guard? authorization_bound t r a else RevisionBinding in
      guard? approval_window (ha_issued_at a) (ha_expires_at a) t1 t2 else ApprovalTimes in
      check_actions (ha_actions a)
  end.

Definition VerifyOperation (t : Trust) (t0 t1 : time) (op : option HostOperation)
    (a : option HostAuthorization) (id : string) : result unit host_err :=
  match op with
  | None => Err MissingOperation
  | Some op =>
      try? _ := verifyBody t t0 (ho_signature op) (ho_unknown op) (wire_marshal (unsigned_operation op)) operation_kind in
      match ho_lease_expires_at op with
      | None => Err LeaseMismatch
      | Some l =>
          guard? (ho_operation_id op =? id)%string && negb (id =? "")%string &&
            bool_decide (a = ho_authorization op) && ts_check l &&
            negb ((ho_phase op <? 3) && negb (before t1 (ts_time l))) &&
            negb (after (ts_time l) (as_time (a ≫= ha_expires_at))) else LeaseMismatch in
          Ok tt
      end
  end.
End Signatures.

(** ** Helper releases ([release.go]) *)

Record ReleaseManifest := mkRelease { rm_Payload : bytes; rm_KeyID : string; rm_Signature : bytes }.
Record ReleasePayload := mkPayload {
  rp_Schema : string; rp_Component : string; rp_Version : string; rp_OS : string; rp_Arch : string; rp_SHA256 : string }.

Section Releases.
Context `{Crypto} `{Json ReleasePayload}.
(** [runtime.GOOS] and [runtime.GOARCH]. *)
Variables goos goarch : string.

Definition release_key_verifies (m : ReleaseManifest) (now : time) (k : PinnedKey) : bool :=
  match b64_decode (pk_Value k) with
  | None => false
  | Some key =>
      (slen key =? PublicKeySize) && (pk_Algorithm k =? 1) && (pk_KeyID k =? rm_KeyID m)%string &&
      negb (after (pk_NotBefore k) now) &&
      match pk_NotAfter k with None => true | Some t => before now t end &&
      ed25519_verify key (rm_Payload m) (rm_Signature m)
  end.
Definition VerifyRelease (t : Trust) (now : time) (m : ReleaseManifest) (binary : bytes)
    : result ReleasePayload host_err :=
  guard? existsb (release_key_verifies m now) (tr_ReleaseKeys t) else ReleaseUntrusted in
  match json_unmarshal (rm_Payload m) with
  | None => Err ReleasePayload_
  | Some p =>
      guard? match json_marshal p with Some c => (c =? rm_Payload m)%string | None => false end &&
        (rp_Schema p =? "komari.release.v1")%string && (rp_Component p =? "komari-agent-rescue")%string &&
        negb (rp_Version p =? "")%string && (rp_OS p =? goos)%string && (rp_Arch p =? goarch)%string
        else ReleaseMismatch in
      guard? (rp_SHA256 p =? hex_encode (sha256 binary))%string else ReleaseHash in
      Ok p
  end.
End Releases.

(** ** Theorems *)

Section PathTheorems.
Variable lstat : string -> option Stat.

Definition path_trusted (p : string) : Prop := exists st, lstat p = Some st /\ trusted_stat st = true.

Lemma trusted_go_spec es fuel :
  Forall plain es -> (length es < fuel)%nat ->
  trusted_go lstat fuel (abs_path es) = true <->
  forall k, (k <= length es)%nat -> path_trusted (abs_path (take k es)).
Proof.
  revert fuel. induction es as [|e es IH] using rev_ind; intros fuel Hes Hf; (destruct fuel as [|fuel]; [lia|]); cbn [trusted_go].
  - unfold path_trusted. destruct (lstat (abs_path [])) as [st|] eqn:El.
    2: { split; [done|]. intros Hk. destruct (Hk 0%nat) as (? & ? & _); [simpl; lia|]. simpl in *. congruence. }
    destruct (trusted_stat st) eqn:Et; simpl; split; try done.
    + intros _ k Hk. destruct k; [|simpl in Hk; lia]. simpl. eauto.
    + intros Hk. destruct (Hk 0%nat) as (? & ? & ?); [simpl; lia|]. simpl in *. congruence.
  - rewrite length_app in *. change (length [e]) with 1%nat in *. apply Forall_app in Hes as [Hes He]. rewrite Forall_singleton in He.
    assert (Hroot : (abs_path (es ++ [e]) =? "/")%string = false).
    { apply String.eqb_neq. intros Hr. apply (f_equal elems) in Hr.
      rewrite elems_abs_path in Hr by (apply Forall_app; split; [done|by constructor]).
      vm_compute in Hr. by destruct es. }
    rewrite Hroot, dir_abs_path by done. specialize (IH fuel Hes ltac:(lia)).
    assert (Htake : forall k, (k <= length es)%nat -> take k (es ++ [e]) = take k es)
      by (intros k Hk; rewrite take_app_le; [done|lia]).
    assert (Hfull : (take (length es + 1) (es ++ [e]) = es ++ [e])%list) by (apply take_ge; rewrite length_app; simpl; lia).
    unfold path_trusted in *. destruct (lstat (abs_path (es ++ [e]))) as [st|] eqn:El.
    2: { split; [done|]. intros Hk. destruct (Hk (length es + 1)%nat) as (? & ? & _); [lia|]. rewrite Hfull in *. congruence. }
    destruct (trusted_stat st) eqn:Et; cbn [negb].
    + rewrite IH. split.
      * intros Hk k Hle. destruct (decide (k = length es + 1)%nat) as [->|Hne]; [rewrite Hfull; eauto|].
        rewrite Htake by lia. apply Hk. lia.
      * intros Hk k Hle. rewrite <- Htake by lia. apply Hk. lia.
    + split; [done|]. intros Hk. destruct (Hk (length es + 1)%nat) as (? & ? & ?); [lia|]. rewrite Hfull in *. congruence.
Qed.

(** A path is trusted exactly when it is absolute and it and every one of
    its ancestors, up to the root, is owned by root, writable by neither group
    nor others and not a symbolic link; the loop always reaches the root. *)
Theorem TrustedPath_spec path :
  TrustedPath lstat path = true <->
  is_abs path = true /\
  forall k, (k <= length (elems path))%nat -> path_trusted (abs_path (take k (elems path))).
Proof.
  unfold TrustedPath. destruct (is_abs path) eqn:Ea; simpl negb; cbv iota; [|by split; [|intros [? _]]].
  rewrite clean_abs by done. rewrite trusted_go_spec; [by split; [|intros [_ ?]]|by apply elems_plain|lia].
Qed.

(** A service name is one path element of letters, digits and [_.-]. *)
Lemma ValidService_plain name : ValidService name = true -> name <> "" /\ sep ∉ chars name.
Proof.
  unfold ValidService. rewrite andb_true_iff, negb_true_iff, !orb_false_iff.
  intros [[[H1 _] _] H2]. split; [by apply String.eqb_neq|]. intros Hin.
  rewrite forallb_In in H2. specialize (H2 sep Hin). done.
Qed.
End PathTheorems.

Section SignatureTheorems.
Context `{CR : Crypto} `{PT : ProtoTime} `{WI : Wire SignedInstruction} `{JI : Json (option entries)}.
Context `{WR : Wire PrivilegedRevision} `{WO : Wire HostOperation}.
Variable iter : entries -> list (string * time).

(** [e] carries a panel signature of this host on [body] as a [kind]. *)
Definition signed_as (t : Trust) (now : time) (e : option SignedEnvelope) (kind body : string) : Prop :=
  exists env i, e = Some env /\ authentic (host_verifier t) now env i /\
    si_instruction_type i = kind /\ si_body i = body.

Lemma verifyBody_ok t now e unknown message kind :
  verifyBody iter t now e unknown message kind = Ok tt <->
  unknown = "" /\ exists body, message = Some body /\ signed_as t now e kind body.
Proof.
  unfold verifyBody, Verify. destruct e as [e|]; [|split; [done|intros (_ & b & _ & (? & ? & ? & _)); done]].
  pose proof (authenticate_ok (host_verifier t) now e) as Ha.
  cbn [v_replay host_verifier New]. destruct (authenticate _ _ _) as [[i by_]|er]; cbn [fst].
  2: { split; [done|]. intros (_ & b & _ & (env & i & [= <-] & Hi & _)).
       discriminate (proj2 (Ha i _) (conj Hi eq_refl)). }
  destruct (proj1 (Ha i by_) eq_refl) as [Hi _]. simpl.
  assert (Huniq : forall env i2, Some e = Some env -> authentic (host_verifier t) now env i2 -> i2 = i).
  { intros env i2 [= <-] (_ & _ & _ & H2 & _). destruct Hi as (_ & _ & _ & H1 & _). congruence. }
  destruct (String.eqb_spec (si_instruction_type i) kind) as [Ht|Ht]; simpl.
  2: { split; [done|]. intros (_ & b & _ & (env & i2 & He & Hi2 & Hk & _)). by rewrite (Huniq _ _ He Hi2) in Hk. }
  destruct (slen unknown =? 0) eqn:Eu; bool_hyps; rewrite slen_zero in *.
  2: { split; [done|]. by intros [? _]. }
  destruct message as [b|]; [|split; [done|by intros (_ & b & ? & _)]].
  destruct (String.eqb_spec b (si_body i)) as [Hb|Hb].
  - split; [intros _|done]. split; [done|]. exists b. split; [done|]. by exists e, i.
  - split; [done|]. intros (_ & b' & [= <-] & (env & i2 & He & Hi2 & _ & Hk)).
    by rewrite (Huniq _ _ He Hi2) in Hk.
Qed.

Lemma collect_actions_spec seen actions out :
  collect_actions seen actions = Some out <->
  Forall (fun a => 1 <= a <= 3 /\ a ∉ seen) actions /\ NoDup actions /\ out = list_to_set actions ∪ seen.
Proof.
  revert seen. induction actions as [|a l IH]; intros seen; simpl.
  { split; [intros [= ->]|intros (_ & _ & ->)]; [|f_equal]; [split_and!; [constructor|constructor|]|]; apply set_eq; set_solver. }
  destruct ((a <? 1) || (3 <? a) || bool_decide (a ∈ seen)) eqn:E.
  - split; [done|]. intros [[[Ha Hn] _]%Forall_cons _].
    rewrite bool_decide_eq_false_2 in E by done. zbool.
  - rewrite !orb_false_iff, bool_decide_eq_false in E. destruct E as [[H1 H2] H3]. rewrite IH, NoDup_cons, Forall_cons, !Forall_forall.
    split.
    + intros (Hall & Hnd & ->). split_and!; [zbool|zbool|done| |intros Hin|done|apply set_eq; set_solver].
      * intros x Hx. destruct (Hall x Hx). split; [done|set_solver].
      * destruct (Hall a Hin). set_solver.
    + intros ([_ Hall] & [Hnin Hnd] & ->). split_and!; [|done|apply set_eq; set_solver].
      intros x Hx. destruct (Hall x Hx). split; [done|]. intros [->%elem_of_singleton|?]%elem_of_union; done.
Qed.

(** The actions of an authorization are accepted exactly when they are
    known, distinct and do not both install and remove the helper. *)
Theorem check_actions_spec actions :
  check_actions actions = Ok tt <->
  Forall (fun a => 1 <= a <= 3) actions /\ NoDup actions /\ ~ (2 ∈ actions /\ 3 ∈ actions).
Proof.
  unfold check_actions. destruct (collect_actions ∅ actions) as [out|] eqn:E.
  - apply collect_actions_spec in E as (Hall & Hnd & ->).
    assert (Hall' : Forall (fun a => 1 <= a <= 3) actions) by (eapply Forall_impl; [exact Hall|]; by intros ? []).
    rewrite <- !bool_decide_and. case_bool_decide as Hb; split; try done.
    + intros (_ & _ & Hn). destruct Hn. set_solver.
    + intros _. split_and!; [done|done|]. intros [??]. apply Hb. set_solver.
  - split; [done|]. intros (Hall & Hnd & _).
    assert (Hn : collect_actions ∅ actions = Some (list_to_set actions ∪ ∅)); [|congruence].
    apply collect_actions_spec. split_and!; [|done|done]. eapply Forall_impl; [exact Hall|]. intros a Ha. split; [done|set_solver].
Qed.

(** What a host approval asserts, once its signature is verified. *)
Record approved_revision (t : Trust) (t1 t2 : time) (r : PrivilegedRevision) (a : HostAuthorization) : Prop := {
  ar_version : pr_protocol_version r = 2;
  ar_agent : pr_agent_id r = tr_AgentID t /\ ha_agent_id a = tr_AgentID t;
  ar_service : ha_service_id a = tr_ServiceID t;
  ar_hash : exists p, pr_privileged r = Some p /\ pc_unknown p = "" /\
              pr_config_hash r = Hash (settingsFromProto (Some p));
  ar_bound : pr_authorization r = Some a /\ ha_revision a = pr_revision r /\ ha_config_hash a = pr_config_hash r /\
             ha_approval_generation a = pr_approval_generation r /\ ha_target_mode a = required_mode (pr_privileged r);
  ar_fresh : pr_revision r <> 0 /\ pr_installation_baseline r = false /\ ha_approval_generation a <> 0 /\
             ha_nonce a <> "" /\ ha_approved_by a <> "" /\ ha_unknown a = "";
  ar_window : approval_window (ha_issued_at a) (ha_expires_at a) t1 t2 = true;
  ar_actions : Forall (fun x => 1 <= x <= 3) (ha_actions a) /\ NoDup (ha_actions a) /\
               ~ (2 ∈ ha_actions a /\ 3 ∈ ha_actions a);
}.

Lemma VerifySignedRevision_ok t now r rv :
  VerifySignedRevision iter t now r = Ok rv <->
  r = Some rv /\ pr_unknown rv = "" /\
  (exists body, wire_marshal (unsigned_revision rv) = Some body /\
     signed_as t now (pr_signature rv) revision_kind body) /\
  pr_protocol_version rv = 2 /\ pr_agent_id rv = tr_AgentID t /\
  exists p, pr_privileged rv = Some p /\ pc_unknown p = "" /\ pr_config_hash rv = Hash (settingsFromProto (Some p)).
Proof.
  unfold VerifySignedRevision. destruct r as [r|]; [|by split; [|intros [? _]]].
  pose proof (verifyBody_ok t now (pr_signature r) (pr_unknown r) (wire_marshal (unsigned_revision r)) revision_kind) as Hb.
  destruct (verifyBody _ _ _ _ _ _ _) as [[]|e].
  2: { split; [done|]. intros ([= <-] & H1 & H2 & _). discriminate (proj2 Hb (conj H1 H2)). }
  destruct (proj1 Hb eq_refl) as [Hu Hs]. destruct (pr_privileged r) as [p|] eqn:Ep.
  2: { split; [done|]. intros ([= <-] & _ & _ & _ & _ & (p & Hp & _)). congruence. }
  destruct (_ && _) eqn:Eg.
  - split; [intros [= <-]|by intros [[= <-] _]].
    rewrite !andb_true_iff, !Z.eqb_eq, !String.eqb_eq, slen_zero in Eg. destruct_and?. split_and!; try done. by exists p.
  - split; [done|]. intros ([= <-] & _ & _ & Hv & Ha & (p' & Hp' & Hpu & Hh)).
    rewrite Hp' in Ep. injection Ep as <-.
    rewrite Hv, Ha, Hh, !String.eqb_refl, (proj2 (slen_zero _) Hpu) in Eg. done.
Qed.

Lemma authorization_bound_ok t r a :
  authorization_bound t r a = true <->
  pr_revision r <> 0 /\ pr_installation_baseline r = false /\ ha_unknown a = "" /\
  ha_agent_id a = tr_AgentID t /\ ha_service_id a = tr_ServiceID t /\ ha_revision a = pr_revision r /\
  ha_config_hash a = pr_config_hash r /\ ha_approval_generation a = pr_approval_generation r /\
  ha_approval_generation a <> 0 /\ ha_nonce a <> "" /\ ha_approved_by a <> "" /\
  ha_target_mode a = required_mode (pr_privileged r).
Proof.
  unfold authorization_bound.
  rewrite !andb_true_iff, !negb_true_iff, !Z.eqb_neq, !Z.eqb_eq, !String.eqb_eq, !String.eqb_neq, slen_zero. tauto.
Qed.

(** C34: a host revision is accepted exactly when the panel key pinned by the
    local administrator signed precisely this message for this host and it is
    a complete, current approval: right agent and service, settings digest,
    generation, nonce, time window and actions. *)
Theorem VerifyRevision_spec t t0 t1 t2 r :
  VerifyRevision iter t t0 t1 t2 r = Ok tt <->
  exists rv a body,
    r = Some rv /\ pr_unknown rv = "" /\ wire_marshal (unsigned_revision rv) = Some body /\
    signed_as t t0 (pr_signature rv) revision_kind body /\ approved_revision t t1 t2 rv a.
Proof.
  unfold VerifyRevision. destruct (VerifySignedRevision iter t t0 r) as [rv|e] eqn:Es.
  2: { split; [done|]. intros (rv & a & body & -> & Hu & Hm & Hs & Ha). destruct Ha.
       assert (VerifySignedRevision iter t t0 (Some rv) = Ok rv); [|congruence].
       apply VerifySignedRevision_ok. split_and!; try done; [by exists body|by destruct ar_agent0]. }
  apply VerifySignedRevision_ok in Es as (-> & Hu & (body & Hm & Hs) & Hv & Hag & Hp).
  destruct (pr_authorization rv) as [a|] eqn:Ea.
  2: { split; [done|]. intros (rv' & a & b & [= <-] & _ & _ & _ & Har). destruct Har as [_ _ _ _ [Hx _] _ _ _]. congruence. }
  pose proof (authorization_bound_ok t rv a) as Hb. pose proof (check_actions_spec (ha_actions a)) as Hc.
  assert (Hsame : forall rv' a', Some rv = Some rv' -> approved_revision t t1 t2 rv' a' -> rv' = rv /\ a' = a).
  { intros rv' a' [= <-] [_ _ _ _ [Hx _] _ _ _]. split; congruence. }
  destruct (authorization_bound t rv a).
  2: { split; [done|]. intros (rv' & a' & b & He & _ & _ & _ & Har). destruct (Hsame _ _ He Har) as [-> ->].
       destruct Har as [H1 H2 H3 H4 H5 H6 _ _]. destruct_and?. discriminate (proj2 Hb ltac:(split_and!; done)). }
  destruct (approval_window _ _ _ _) eqn:Ew.
  2: { split; [done|]. intros (rv' & a' & b & He & _ & _ & _ & Har). destruct (Hsame _ _ He Har) as [-> ->].
       destruct Har. congruence. }
  rewrite Hc. split.
  - intros Hact. exists rv, a, body. split_and!; try done.
    destruct (proj1 Hb eq_refl) as (? & ? & ? & ? & ? & ? & ? & ? & ? & ? & ? & ?). split; done.
  - intros (rv' & a' & b & He & _ & _ & _ & Har). destruct (Hsame _ _ He Har) as [-> ->]. by destruct Har.
Qed.

(** One signature authorizes one message: two revisions accepted under the
    same envelope are the same revision, and an envelope accepted for a
    revision is never accepted for a host operation. *)
Theorem host_signature_binds_message t now1 now2 r1 r2 op a id now3 now4 :
  (forall (r : PrivilegedRevision) b, wire_marshal r = Some b -> wire_unmarshal b = Some r) ->
  VerifySignedRevision iter t now1 (Some r1) = Ok r1 ->
  (VerifySignedRevision iter t now2 (Some r2) = Ok r2 -> pr_signature r2 = pr_signature r1 -> r2 = r1) /\
  (ho_signature op = pr_signature r1 -> VerifyOperation iter t now3 now4 (Some op) a id <> Ok tt).
Proof.
  intros Hrt (_ & _ & (b1 & Hm1 & (e1 & i1 & He1 & Hi1 & Hk1 & Hb1)) & _)%VerifySignedRevision_ok.
  assert (Hi : forall e2 i2 now, Some e2 = pr_signature r1 -> authentic (host_verifier t) now e2 i2 -> i2 = i1).
  { intros e2 i2 now He2 (_ & _ & _ & H2 & _). destruct Hi1 as (_ & _ & _ & H1 & _).
    rewrite He1 in He2. injection He2 as ->. congruence. }
  split.
  - intros (_ & _ & (b2 & Hm2 & (e2 & i2 & He2 & Hi2 & Hk2 & Hb2)) & _)%VerifySignedRevision_ok Hsig.
    rewrite Hsig in He2. rewrite (Hi _ _ _ (eq_sym He2) Hi2) in Hb2.
    apply Hrt in Hm1, Hm2. rewrite <- Hb2, Hb1, Hm1 in Hm2. injection Hm2. intros Hu.
    destruct r1, r2; unfold unsigned_revision in *; simpl in *. congruence.
  - intros Hsig. unfold VerifyOperation.
    pose proof (verifyBody_ok t now3 (ho_signature op) (ho_unknown op) (wire_marshal (unsigned_operation op)) operation_kind) as Hb.
    destruct (verifyBody _ _ _ _ _ _ _) as [[]|]; [|done].
    destruct (proj1 Hb eq_refl) as (_ & b & _ & (e2 & i2 & He2 & Hi2 & Hk2 & _)). rewrite Hsig in He2.
    rewrite (Hi _ _ _ (eq_sym He2) Hi2), Hk1 in Hk2. done.
Qed.

(** A host operation is executed only under an unexpired lease: its phase
    may start ([phase < 3]) only before the lease ends, the lease never
    outlives the authorization, and it names exactly this operation. *)
Theorem VerifyOperation_lease t t0 t1 op a id :
  VerifyOperation iter t t0 t1 (Some op) a id = Ok tt ->
  ho_operation_id op = id /\ id <> "" /\ ho_authorization op = a /\
  (exists body, wire_marshal (unsigned_operation op) = Some body /\ signed_as t t0 (ho_signature op) operation_kind body) /\
  exists l, ho_lease_expires_at op = Some l /\ ts_check l = true /\
    (ho_phase op < 3 -> t1 < ts_time l) /\ ts_time l <= as_time (a ≫= ha_expires_at).
Proof.
  unfold VerifyOperation.
  pose proof (verifyBody_ok t t0 (ho_signature op) (ho_unknown op) (wire_marshal (unsigned_operation op)) operation_kind) as Hb.
  destruct (verifyBody _ _ _ _ _ _ _) as [[]|]; [|done]. destruct (proj1 Hb eq_refl) as (_ & Hs).
  destruct (ho_lease_expires_at op) as [l|]; [|done]. destruct (_ && _) eqn:Eg; [|done]. intros _.
  rewrite !andb_true_iff, !negb_true_iff, andb_false_iff, String.eqb_eq, String.eqb_neq, bool_decide_eq_true in Eg.
  destruct_and?. split_and!; [done..|]. exists l. split_and!; [done|done| |tlia].
  intros Hp. match goal with H : _ \/ _ |- _ => destruct H as [H|H] end; tlia.
Qed.
End SignatureTheorems.

Section ReleaseTheorems.
Context `{CR : Crypto} `{JP : Json ReleasePayload}.
Variables goos goarch : string.

(** A signed release manifest admits one helper binary: whatever it
    accepts has the digest its payload names, for this platform, and two
    accepted binaries have the same digest. *)
Theorem VerifyRelease_pins_binary t now1 now2 m b1 b2 p1 p2 :
  VerifyRelease goos goarch t now1 m b1 = Ok p1 -> VerifyRelease goos goarch t now2 m b2 = Ok p2 ->
  p1 = p2 /\ sha256 b1 = sha256 b2 /\ rp_OS p1 = goos /\ rp_Arch p1 = goarch /\
  json_marshal p1 = Some (rm_Payload m) /\
  exists k key, k ∈ tr_ReleaseKeys t /\ b64_decode (pk_Value k) = Some key /\ pk_KeyID k = rm_KeyID m /\
    ed25519_verify key (rm_Payload m) (rm_Signature m) = true.
Proof.
  unfold VerifyRelease. destruct (existsb (release_key_verifies m now1) _) eqn:Ek; [|done].
  destruct (existsb (release_key_verifies m now2) _); [|done].
  destruct (json_unmarshal (rm_Payload m)) as [p|]; [|done].
  destruct (_ && _) eqn:Eg; [|done].
  destruct (rp_SHA256 p =? hex_encode (sha256 b1))%string eqn:E1; [|done].
  destruct (rp_SHA256 p =? hex_encode (sha256 b2))%string eqn:E2; [|done].
  intros [= <-] [= <-]. apply String.eqb_eq in E1, E2.
  apply existsb_In in Ek as (k & Hk & Hv). unfold release_key_verifies in Hv.
  destruct (b64_decode (pk_Value k)) as [key|] eqn:Ed; [|done].
  rewrite !andb_true_iff, !String.eqb_eq in Eg, Hv. destruct_and?.
  destruct (json_marshal p) as [c|]; [|done]. split_and!; try done; [apply hex_encode_inj; congruence|..].
  - by apply String.eqb_eq.
  - by apply String.eqb_eq.
  - f_equal. by apply String.eqb_eq.
  - exists k. exists key. split_and!; try done; by apply String.eqb_eq.
Qed.
End ReleaseTheorems.

Section WriteTheorems.
Variable is_regular : string -> bool.

Lemma step_write_and_close m0 name path data mode owned :
  m0 !! name = None -> name <> path ->
  triple (step_ok m0 name path (mkFile data mode) (mkFile "" 384)) (write_and_close name data mode owned)
    (step_post m0 name path (mkFile data mode) (mkFile data mode)).
Proof.
  intros Hf Hne w r w' Hpre. unfold write_and_close.
  set (first := (_ ;; _) : IO unit). destruct (first w) as [r1 w1] eqn:E1.
  destruct (close_file name w1) as [c w2] eqn:E2.
  assert (H1 : step_post m0 name path (mkFile data mode) (mkFile data mode) r1 w1).
  { revert E1. unfold first. revert Hpre. generalize w, r1, w1.
    change (triple (step_ok m0 name path (mkFile data mode) (mkFile "" 384))
      ((if owned then pure_call OpChmod else io_ret tt) ;;
       chmod name mode ;; write_file name data ;; sync_file name)
      (step_post m0 name path (mkFile data mode) (mkFile data mode))).
    eapply step_seq; [destruct owned; [by apply step_pure|]|].
    { intros w3 r3 w4 Hw [= <- <-]. exact Hw. }
    eapply step_seq; [by apply step_chmod|]. eapply step_seq; [by apply step_write|]. by apply step_pure. }
  intros Hrun. destruct r1 as [[]|e]; injection Hrun as <- <-.
  - eapply (step_pure _ _ _ _ OpClose); [done|exact H1|exact E2].
  - destruct H1 as [He [Hp Ht]]. split; [done|]. unfold close_file, pure_call, call in E2.
    destruct (hd false (w_faults w1)); injection E2 as <- <-; done.
Qed.

(** The host's writer is atomic too: a crash at any point leaves at the
    destination the previous file or the complete new one with its mode, no
    other existing file changes, and anything but a regular file there is
    refused untouched. *)
Theorem atomicWrite_crash_atomic path data mode uid gid w r w' :
  temps_avoid (dir path) ".komari-" path w -> w_trace w = [] ->
  atomicWrite is_regular path data mode uid gid w = (r, w') ->
  Forall (old_or_new path (mkFile data mode) (w_fs w)) (w_trace w') /\
  (forall q, q ∈ dom (w_fs w) -> q <> path -> w_fs w' !! q = w_fs w !! q) /\
  (r = Ok tt -> w_fs w' !! path = Some (mkFile data mode)) /\
  (is_Some (w_fs w !! path) -> is_regular path = false -> r = Err NotRegular /\ w' = w).
Proof.
  intros Ha Ht Hrun. unfold atomicWrite in Hrun.
  destruct (bool_decide (is_Some (w_fs w !! path)) && negb (is_regular path)) eqn:Er.
  { injection Hrun as <- <-. rewrite Ht. by split_and!; [constructor|..]. }
  assert (Hreg : is_Some (w_fs w !! path) -> is_regular path = false -> False).
  { intros Hs Hn. by rewrite bool_decide_eq_true_2, Hn in Er. }
  match type of Hrun with (let (_, _) := ?m in _) = _ => destruct m as [x w1] eqn:E end.
  apply (with_temp_atomic _ _ path data mode) in E as [H1 _ H3 H4];
    [|intros m0 name Hf Hne|exact Ha|by rewrite Ht].
  - assert (Hfinal : w_fs w1 !! path = Some (mkFile data mode) \/ x <> Ok tt).
    { destruct x as [[]|e]; [left|by right]. by rewrite (H1 eq_refl), lookup_insert_eq. }
    destruct x as [[]|e]; injection Hrun as <- <-; (split_and!; [done|done| |by intros ? ?%Hreg]); [|done].
    by destruct Hfinal.
  - apply (triple_bind _ _ _ (fun _ => step_ok (m0) name path (mkFile data mode) (mkFile data mode))).
    + eapply triple_consequence; [by apply step_write_and_close|done|]. intros [[]|e] w0; simpl; [done|]. by left.
    + intros _. by apply (publishes_rename_sync path data mode (dir path)).
Qed.
End WriteTheorems.

(** ** Witnesses

    One panel key and one release key; a signature is the key followed by the
    payload. *)

Definition hwit_crypto : Crypto := Signing.wit_crypto.
Definition hwit_key (id : string) : PinnedKey := mkPinnedKey 1 (b64_encode Signing.wit_key) id zero_time None.
Definition hwit_trust : Trust := mkTrust 2 "agent-1" "https://p" "komari" "komari" [hwit_key "k1"] [hwit_key "rel"] "".
Definition hwit_auth : HostAuthorization :=
  mkHostAuthorization "agent-1" "komari" 7 (@Hash hwit_crypto Privileged.wit_settings) 1 [1; 2] 2 "nonce" "operator"
    (Some (mkTimestamp 1000 0)) (Some (mkTimestamp 1100 0)) "".
Definition hwit_env (payload : bytes) : SignedEnvelope :=
  mkEnvelope payload [mkSignature 1 "k1" (Signing.wit_key ++ payload)].
Definition hwit_revision : PrivilegedRevision :=
  mkPrivilegedRevision 2 false 5 "agent-1" 7 (@Hash hwit_crypto Privileged.wit_settings) 1 4
    (Some (Proto Privileged.wit_settings)) (Some hwit_auth) None (Some (hwit_env "P")) None "".
Definition hwit_operation : HostOperation :=
  mkHostOperation "op-1" 1 (Some hwit_auth) (Some (mkTimestamp 1050 0)) (Some (hwit_env "Q")) "".
Definition hwit_instr (kind body : string) : SignedInstruction :=
  mkSignedInstruction "agent-1" "n" kind body (Some (mkTimestamp 1000 0)) (Some (mkTimestamp 1060 0)).
Definition hwit_wire : Wire SignedInstruction :=
  {| wire_marshal := fun _ => None;
     wire_unmarshal := fun s => if (s =? "P")%string then Some (hwit_instr revision_kind "R")
                                else Some (hwit_instr operation_kind "O") |}.
Definition hwit_wire_rev : Wire PrivilegedRevision := one_wire (unsigned_revision hwit_revision) "R".
Definition hwit_wire_op : Wire HostOperation :=
  {| wire_marshal := fun _ => Some "O"; wire_unmarshal := fun _ => None |}.

Lemma host_signature_binds_message_witness :
  let C := hwit_crypto in let T := Signing.wit_time in let W := hwit_wire in
  let R := hwit_wire_rev in let O := hwit_wire_op in let J := countable_json (option entries) in
  VerifySignedRevision map_to_list hwit_trust (1030 * second) (Some hwit_revision) = Ok hwit_revision /\
  VerifyOperation map_to_list hwit_trust (1030 * second) (1030 * second)
    (Some (mkHostOperation "op-1" 1 (Some hwit_auth) (Some (mkTimestamp 1050 0)) (Some (hwit_env "P")) ""))
    (Some hwit_auth) "op-1" <> Ok tt.
Proof.
  intros C T W R O J.
  assert (E : VerifySignedRevision map_to_list hwit_trust (1030 * second) (Some hwit_revision) = Ok hwit_revision)
    by (vm_compute; reflexivity).
  split; [exact E|].
  exact (proj2 (host_signature_binds_message (CR := C) (PT := T) (WI := W) (JI := J) (WR := R) (WO := O) map_to_list
    hwit_trust (1030 * second) 0 hwit_revision hwit_revision
    (mkHostOperation "op-1" 1 (Some hwit_auth) (Some (mkTimestamp 1050 0)) (Some (hwit_env "P")) "")
    (Some hwit_auth) "op-1" (1030 * second) (1030 * second)
    (one_wire_roundtrip (unsigned_revision hwit_revision) "R") E) eq_refl).
Defined.

Lemma VerifyOperation_lease_witness :
  let C := hwit_crypto in let T := Signing.wit_time in let W := hwit_wire in
  let R := hwit_wire_rev in let O := hwit_wire_op in let J := countable_json (option entries) in
  ho_authorization hwit_operation = Some hwit_auth.
Proof.
  intros C T W R O J.
  assert (E : VerifyOperation map_to_list hwit_trust (1030 * second) (1030 * second) (Some hwit_operation) (Some hwit_auth) "op-1" = Ok tt)
    by (vm_compute; reflexivity).
  apply (VerifyOperation_lease (CR := C) (PT := T) (WI := W) (JI := J) (WO := O) map_to_list _ _ _ _ _ _ E).
Defined.

Definition hwit_payload : ReleasePayload :=
  mkPayload "komari.release.v1" "komari-agent-rescue" "1.0" "linux" "amd64" (hex_encode "binary").
Definition hwit_payload_json : Json ReleasePayload :=
  {| json_marshal := fun _ => Some "payload"; json_unmarshal := fun s => Some hwit_payload |}.

Lemma VerifyRelease_pins_binary_witness :
  let C := hwit_crypto in let J := hwit_payload_json in
  let m := mkRelease "payload" "rel" (Signing.wit_key ++ "payload") in
  VerifyRelease "linux" "amd64" hwit_trust 5 m "binary" = Ok hwit_payload /\ rp_Arch hwit_payload = "amd64".
Proof.
  intros C J m.
  assert (E : VerifyRelease "linux" "amd64" hwit_trust 5 m "binary" = Ok hwit_payload) by (vm_compute; reflexivity).
  split; [exact E|].
  apply (VerifyRelease_pins_binary (CR := C) (JP := J) "linux" "amd64" hwit_trust 5 5 m "binary" "binary" _ _ E E).
Defined.

Lemma atomicWrite_crash_atomic_witness :
  let w := mkWorld {[ "/etc/k.json" := mkFile "old" 416 ]} [] ["1"] [] in
  let run := atomicWrite (fun _ => true) "/etc/k.json" "new" 384 0 0 w in
  fst run = Ok tt /\ w_fs (snd run) !! "/etc/k.json" = Some (mkFile "new" 384).
Proof.
  intros w run. assert (E : fst run = Ok tt) by (vm_compute; reflexivity). split; [exact E|].
  refine (proj1 (proj2 (proj2 (atomicWrite_crash_atomic (fun _ => true) "/etc/k.json" "new" 384 0 0 w (fst run) (snd run)
    _ eq_refl (run_outcome2 run (fst run) eq_refl)))) E).
  apply temps_avoid_all. vm_compute. repeat constructor; discriminate.
Defined.
