(* ===== verification/RuntimeConfig.v ===== *)
(** * Online configuration ([core/runtimeconfig])

    The settings the panel may change while the agent runs: validated, applied
    by revision, persisted with a backup before they take effect, and rolled
    back locally. *)

From S2P Require Import Prelude.
From S2P Require Import GoStd.
From S2P Require Import GoPath.
From S2P Require Import Disk.
From S2P Require Import External.

Local Open Scope string_scope.
Local Open Scope Z_scope.

Definition minimumReportInterval : duration := second.
Definition maximumReportInterval : duration := 5 * minute.
Definition maximum_receipts : nat := 1024.

Record Snapshot := mkSnapshot {
  sn_Revision : Z;
  sn_MemoryIncludeCache : bool;
  sn_EnableGPU : bool;
  sn_DetailedGPU : bool;
  sn_IncludeNics : list string;
  sn_ExcludeNics : list string;
  sn_IncludeMountpoints : list string;
  sn_ReportInterval : duration;
  sn_TrafficResetDay : Z;
  sn_RemoteControlEnabled : bool;
  sn_GetIPAddrFromNIC : bool;
}.
#[export] Instance Snapshot_eq : EqDecision Snapshot.
Proof. solve_decision. Defined.

Record persistedState := mkPersisted {
  pe_Receipts : list bytes;
  pe_Current : Snapshot;
  pe_Previous : option Snapshot;
}.

Record Store := mkStore {
  rs_path : string;
  rs_current : Snapshot;
  rs_previous : option Snapshot;
  rs_receipts : list bytes;
}.

Inductive rc_err :=
| IntervalRange | ResetDay | BadList
| UnknownFields | UnsupportedFields | GpuInstallOnly | RemoteInstallOnly | BadInterval
| ConfigRequired | RevisionZero | StaleRevision | OutboxFull | SameRevisionDiffers | NoPrevious
| RcIO (e : io_err).

(** The flags [FromFlags] and the policy view read. [fl_Interval] is the
    configured number of seconds already converted to a duration. *)
Record Config := mkConfig {
  fl_ServiceManifestFile : string;
  fl_Token : string;
  fl_Interval : duration;
  fl_IncludeNics : string;
  fl_ExcludeNics : string;
  fl_IncludeMountpoints : string;
  fl_MonthRotate : Z;
  fl_MemoryIncludeCache : bool;
  fl_EnableGPU : bool;
  fl_DetailedGPU : bool;
  fl_DisableRemoteControl : bool;
  fl_GetIpAddrFromNic : bool;
}.

Definition clean (values : list string) : list string :=
  List.filter (fun v => negb (v =? "")%string) (map trim_space values).
Definition split (value : string) (separator : ascii) : list string :=
  if blank value then [] else clean (split_on separator value).

Definition FromFlags (c : Config) : Snapshot :=
  let interval := if fl_Interval c =? 0 then 3 * second else fl_Interval c in
  mkSnapshot 0 (fl_MemoryIncludeCache c) (fl_EnableGPU c) (fl_DetailedGPU c)
    (split (fl_IncludeNics c) ",") (split (fl_ExcludeNics c) ",") (split (fl_IncludeMountpoints c) ";")
    interval (wrapu32 (Z.max (fl_MonthRotate c) 0))
    (negb (fl_Token c =? "")%string && negb (fl_DisableRemoteControl c)) (fl_GetIpAddrFromNic c).

Definition list_ok (values : list string) : bool :=
  Nat.leb (length values) 128 && forallb (fun item => slen item <=? 512) values.
Definition validate (v : Snapshot) : result unit rc_err :=
  if (sn_ReportInterval v <? minimumReportInterval) || (maximumReportInterval <? sn_ReportInterval v)
  then Err IntervalRange
  else if 31 <? sn_TrafficResetDay v then Err ResetDay
  else if list_ok (sn_IncludeNics v) && list_ok (sn_ExcludeNics v) && list_ok (sn_IncludeMountpoints v)
  then Ok tt else Err BadList.

(** The runtime fields the agent can change online, by number. *)
Definition supported_fields : list Z := [1; 3; 4; 5; 6; 7; 8; 19].

Section Ops.
Context `{ProtoDuration} `{Json persistedState}.

Definition fromProto (base : Snapshot) (revision : Z) (v : RuntimeConfig) : result Snapshot rc_err :=
  if negb (slen (rt_unknown v) =? 0) then Err UnknownFields else
  if existsb (fun f => bool_decide (f ∉ supported_fields)) (rt_populated v) then Err UnsupportedFields else
  match rt_EnableGpu v with
  | Some _ => Err GpuInstallOnly
  | None =>
      match rt_RemoteControlEnabled v with
      | Some _ => Err RemoteInstallOnly
      | None =>
          match (match rt_ReportInterval v with
                 | None => Some (sn_ReportInterval base)
                 | Some d => if du_check d then Some (du_value d) else None
                 end) with
          | None => Err BadInterval
          | Some interval =>
              let r := mkSnapshot revision
                (default (sn_MemoryIncludeCache base) (rt_MemoryIncludeCache v))
                (sn_EnableGPU base)
                (default (sn_DetailedGPU base) (rt_DetailedGpu v))
                (clean (rt_IncludeNics v)) (clean (rt_ExcludeNics v)) (clean (rt_IncludeMountpoints v))
                interval
                (default (sn_TrafficResetDay base) (rt_TrafficResetDay v))
                (sn_RemoteControlEnabled base)
                (default (sn_GetIPAddrFromNIC base) (rt_GetIpAddrFromNic v)) in
              try? _ := validate r in Ok r
          end
      end
  end.

(** [writeBackup]: atomic, without creating the directory. *)
Definition writeBackup (path data : string) : IO unit :=
  io name <- create_temp (dir path) ".runtime-backup-" ;
  with_removed name (fill_temp name data 384 ;; rename name path).

(** Between the filled temporary and the flush of the directory: the old
    file, if there is one, is saved as [.bak]. *)
Definition backup_then_rename (path name : string) : IO unit := fun w =>
  match (match read_file path w with
         | (Ok existing, w) => writeBackup (path ++ ".bak") existing w
         | (Err NotExist, w) => (Ok tt, w)
         | (Err e, w) => (Err e, w)
         end) with
  | (Err e, w) => (Err e, w)
  | (Ok _, w) => (rename name path ;; sync_directory (dir path)) w
  end.
Definition persist_file (path data : string) : IO unit :=
  io name <- create_temp (dir path) ".runtime-config-" ;
  with_removed name (fill_temp name data 384 ;; backup_then_rename path name).

Definition persist (s : Store) (state : persistedState) : IO unit :=
  if (rs_path s =? "")%string then io_ret tt else
  mkdir_all (dir (rs_path s)) ;;
  match json_marshal state with
  | None => io_fail EncodeFailed
  | Some data => persist_file (rs_path s) data
  end.

Definition load (s : Store) (w : World) : result Store rc_err * World :=
  match read_file (rs_path s) w with
  | (Err e, w) => (Err (RcIO e), w)
  | (Ok data, w) =>
      match json_unmarshal data with
      | None => (Err (RcIO DecodeFailed), w)
      | Some st =>
          match validate (pe_Current st) with
          | Err e => (Err e, w)
          | Ok _ => (Ok (mkStore (rs_path s) (pe_Current st) (pe_Previous st) (pe_Receipts st)), w)
          end
      end
  end.
Definition New (default : string) (initial : Snapshot) (path : string) (w : World) : result Store rc_err * World :=
  let path := if (path =? "")%string then default else path in
  match validate initial with
  | Err e => (Err e, w)
  | Ok _ =>
      let s := mkStore path initial None [] in
      match load s w with
      | (Ok s, w) => (Ok s, w)
      | (Err (RcIO NotExist), w) => (Ok s, w)
      | (Err e, w) => (Err e, w)
      end
  end.

(** The snapshot returned beside the error, the store and the disk. *)
Definition Op := Store -> World -> (Snapshot * option rc_err) * Store * World.
Definition refuse (e : rc_err) : Op := fun s w => ((rs_current s, Some e), s, w).

Definition ApplyWithReceipt (desired : option DesiredConfig) (receipt : bytes) : Op := fun s w =>
  match desired ≫= (fun d => (fun r => (dc_Revision d, r)) <$> dc_Runtime d) with
  | None => refuse ConfigRequired s w
  | Some (revision, runtime) =>
      let current := rs_current s in
      if revision =? 0 then refuse RevisionZero s w else
      if revision <? sn_Revision current then refuse StaleRevision s w else
      if (0 <? slen receipt) && Nat.leb maximum_receipts (length (rs_receipts s)) then refuse OutboxFull s w else
      match fromProto current revision runtime with
      | Err e => refuse e s w
      | Ok next =>
          if revision =? sn_Revision current then
            if negb (bool_decide (next = current)) then refuse SameRevisionDiffers s w else
            if slen receipt =? 0 then ((current, None), s, w) else
            let receipts := (rs_receipts s ++ [receipt])%list in
            match persist s (mkPersisted receipts current (rs_previous s)) w with
            | (Err e, w) => refuse (RcIO e) s w
            | (Ok _, w) => ((current, None), mkStore (rs_path s) current (rs_previous s) receipts, w)
            end
          else
            let receipts := if 0 <? slen receipt then (rs_receipts s ++ [receipt])%list else rs_receipts s in
            match persist s (mkPersisted receipts next (Some current)) w with
            | (Err e, w) => refuse (RcIO e) s w
            | (Ok _, w) => ((next, None), mkStore (rs_path s) next (Some current) receipts, w)
            end
      end
  end.
Definition Apply (desired : option DesiredConfig) : Op := ApplyWithReceipt desired "".

Definition Rollback : Op := fun s w =>
  match rs_previous s with
  | None => refuse NoPrevious s w
  | Some p =>
      match persist s (mkPersisted (rs_receipts s) p (Some (rs_current s))) w with
      | (Err e, w) => refuse (RcIO e) s w
      | (Ok _, w) => ((p, None), mkStore (rs_path s) p (Some (rs_current s)) (rs_receipts s), w)
      end
  end.

Definition next_receipt (s : Store) : option bytes := head (rs_receipts s).
Definition with_queue (receipts : list bytes) (s : Store) : Store :=
  mkStore (rs_path s) (rs_current s) (rs_previous s) receipts.
Definition save_queue (receipts : list bytes) : Op := fun s w =>
  match persist s (mkPersisted receipts (rs_current s) (rs_previous s)) w with
  | (Err e, w) => refuse (RcIO e) s w
  | (Ok _, w) => ((rs_current s, None), with_queue receipts s, w)
  end.
Definition QueueReceipt (payload : bytes) : Op := fun s w =>
  if Nat.leb maximum_receipts (length (rs_receipts s)) then refuse OutboxFull s w
  else save_queue (rs_receipts s ++ [payload])%list s w.
Definition FinishReceipt (payload : bytes) : Op := fun s w =>
  match rs_receipts s with
  | r :: rest => if (payload =? r)%string then save_queue rest s w else ((rs_current s, None), s, w)
  | [] => ((rs_current s, None), s, w)
  end.
End Ops.

(** ** Applying revisions *)

Section Theorems.
Context `{PD : ProtoDuration} `{JP : Json persistedState}.

Lemma fromProto_ok base revision v next :
  fromProto base revision v = Ok next ->
  sn_Revision next = revision /\ validate next = Ok tt /\
  sn_EnableGPU next = sn_EnableGPU base /\ sn_RemoteControlEnabled next = sn_RemoteControlEnabled base /\
  rt_EnableGpu v = None /\ rt_RemoteControlEnabled v = None /\ sn_IncludeNics next = clean (rt_IncludeNics v) /\
  (forall f, f ∈ rt_populated v -> f ∈ supported_fields).
Proof.
  unfold fromProto. destruct (negb _); [done|]. destruct (existsb _ _) eqn:Ef; [done|].
  destruct (rt_EnableGpu v); [done|]. destruct (rt_RemoteControlEnabled v); [done|].
  destruct (match rt_ReportInterval v with Some _ => _ | None => _ end); [|done].
  destruct (validate _) as [[]|] eqn:Ev; [|done]. intros [= <-]. split_and!; try done.
  intros f Hf. destruct (decide (f ∈ supported_fields)) as [|Hn]; [done|].
  assert (existsb (fun f => bool_decide (f ∉ supported_fields)) (rt_populated v) = true); [|congruence].
  apply existsb_In. exists f. split; [done|]. by apply bool_decide_eq_true.
Qed.

(** Decoding a revision over its own result changes nothing. *)
Lemma fromProto_idempotent base revision v next :
  fromProto base revision v = Ok next -> fromProto next revision v = Ok next.
Proof.
  unfold fromProto. destruct (negb _); [done|]. destruct (existsb _ _); [done|].
  destruct (rt_EnableGpu v); [done|]. destruct (rt_RemoteControlEnabled v); [done|].
  destruct (rt_ReportInterval v) as [d|]; [destruct (du_check d); [|done]|];
    (destruct (validate _) as [[]|] eqn:Ev; [|done]); intros [= <-]; simpl;
    destruct (rt_MemoryIncludeCache v), (rt_DetailedGpu v), (rt_TrafficResetDay v), (rt_GetIpAddrFromNic v);
    simpl in *; by rewrite Ev.
Qed.

Lemma clean_spec l x : x ∈ clean l <-> x <> "" /\ exists v, v ∈ l /\ x = trim_space v.
Proof.
  unfold clean. rewrite list_elem_of_In, filter_In, in_map_iff, negb_true_iff, String.eqb_neq.
  setoid_rewrite list_elem_of_In. naive_solver.
Qed.

(** What [ApplyWithReceipt] does to the store. *)
Lemma Apply_cases d receipt s w out s' w' :
  ApplyWithReceipt d receipt s w = (out, s', w') ->
  (exists e, out = (rs_current s, Some e) /\ s' = s) \/
  (exists dc v next, d = Some dc /\ dc_Runtime dc = Some v /\ out = (next, None) /\
     fromProto (rs_current s) (dc_Revision dc) v = Ok next /\ dc_Revision dc <> 0 /\
     sn_Revision (rs_current s) <= dc_Revision dc /\
     rs_receipts s' = (rs_receipts s ++ if (0 <? slen receipt) then [receipt] else [])%list /\
     (0 < slen receipt -> (length (rs_receipts s) < maximum_receipts)%nat) /\
     rs_path s' = rs_path s /\ rs_current s' = next /\
     ((next = rs_current s /\ dc_Revision dc = sn_Revision (rs_current s) /\ rs_previous s' = rs_previous s) \/
      (sn_Revision (rs_current s) < dc_Revision dc /\ rs_previous s' = Some (rs_current s)))).
Proof.
  unfold ApplyWithReceipt, refuse. destruct d as [[rev [v|]]|]; simpl; [|intros [= <- <- <-]; eauto|intros [= <- <- <-]; eauto].
  destruct (rev =? 0) eqn:E0; [intros [= <- <- <-]; eauto|].
  destruct (rev <? _) eqn:E1; [intros [= <- <- <-]; eauto|].
  destruct (_ && _) eqn:E2; [intros [= <- <- <-]; eauto|].
  destruct (fromProto _ _ _) as [next|] eqn:Ef; [|intros [= <- <- <-]; eauto].
  assert (Hroom : 0 < slen receipt -> (length (rs_receipts s) < maximum_receipts)%nat).
  { intros Hr. rewrite (proj2 (Z.ltb_lt _ _) Hr) in E2. simpl in E2. by apply Nat.leb_gt. }
  destruct (rev =? sn_Revision (rs_current s)) eqn:E3.
  - case_bool_decide as Hn; simpl; [|intros [= <- <- <-]; eauto].
    destruct (slen receipt =? 0) eqn:E4.
    + intros [= <- <- <-]. right. eexists _, v, next. split_and!; try done; try (by subst); try (bool_hyps; lia).
      * zbool. replace (0 <? slen receipt) with false by lia. by rewrite app_nil_r.
      * left. split_and!; [done|zbool|done].
    + destruct (persist _ _ _) as [[|] ?]; intros [= <- <- <-]; eauto.
      right. eexists _, v, next. split_and!; try done; try (by subst); try (bool_hyps; lia).
      * simpl. replace (0 <? slen receipt) with true; [done|]. unfold slen in *. zbool.
      * left. split_and!; [done|zbool|done].
  - destruct (persist _ _ _) as [[|] ?]; intros [= <- <- <-]; eauto.
    right. eexists _, v, next. split_and!; try done; try (bool_hyps; lia).
    + simpl. destruct (0 <? slen receipt); [done|by rewrite app_nil_r].
    + right. split; [zbool|done].
Qed.

(** An accepted revision is valid and never older than the one in force;
    it cannot switch the install-only settings, keeps the previous snapshot
    for rollback and queues its receipt; a refused one leaves the store as it
    was and reports the snapshot in force. *)
Theorem Apply_spec d receipt s w sn e s' w' :
  ApplyWithReceipt d receipt s w = ((sn, e), s', w') ->
  sn = rs_current s' /\
  match e with
  | Some _ => s' = s
  | None =>
      exists dc v, d = Some dc /\ dc_Runtime dc = Some v /\ sn_Revision sn = dc_Revision dc /\ validate sn = Ok tt /\
        sn_Revision (rs_current s) <= sn_Revision sn /\
        sn_EnableGPU sn = sn_EnableGPU (rs_current s) /\
        sn_RemoteControlEnabled sn = sn_RemoteControlEnabled (rs_current s) /\
        sn_IncludeNics sn = clean (rt_IncludeNics v) /\
        (sn_Revision (rs_current s) < sn_Revision sn -> rs_previous s' = Some (rs_current s)) /\
        (sn_Revision (rs_current s) = sn_Revision sn -> sn = rs_current s /\ rs_previous s' = rs_previous s) /\
        (slen receipt > 0 -> rs_receipts s' = (rs_receipts s ++ [receipt])%list)
  end.
Proof.
  intros [(e' & [= -> ->] & ->)|(dc & v & next & -> & Hv & [= -> ->] & Hf & H0 & Hle & Hr & _ & _ & Hc & Hp)]%Apply_cases; [done|].
  split; [done|]. pose proof (fromProto_ok _ _ _ _ Hf) as (Hrev & Hval & Hg & Hrc & _ & _ & Hnic & _).
  exists dc, v. split_and!; try done; try lia.
  - intros Hlt. destruct Hp as [(_ & ? & _)|[_ ?]]; [lia|done].
  - intros Heq. destruct Hp as [(? & ? & ?)|[? _]]; [done|lia].
  - intros Hs. rewrite Hr. by replace (0 <? slen receipt) with true by lia.
Qed.

(** Applying the same desired configuration again is accepted without
    touching the store or the disk. *)
Theorem Apply_idempotent d s w sn s' w' w2 :
  Apply d s w = ((sn, None), s', w') -> Apply d s' w2 = ((sn, None), s', w2).
Proof.
  intros [(e' & [=] & _)|(dc & v & next & -> & Hv & [= ->] & Hf & H0 & Hle & Hr & _ & _ & Hc & Hp)]%Apply_cases.
  unfold Apply, ApplyWithReceipt. simpl. rewrite Hv. simpl.
  pose proof (fromProto_ok _ _ _ _ Hf) as (Hrev & _).
  rewrite (proj2 (Z.eqb_neq _ _) H0), Hc, Hrev, Z.ltb_irrefl, (fromProto_idempotent _ _ _ _ Hf), Z.eqb_refl.
  by rewrite bool_decide_eq_true_2.
Qed.

(** A rollback exchanges the current and the previous snapshot, so two
    rollbacks restore both; a failed one changes nothing. *)
Theorem Rollback_involutive s w sn1 s1 w1 w2 sn2 s2 w3 :
  Rollback s w = ((sn1, None), s1, w1) -> Rollback s1 w2 = ((sn2, None), s2, w3) ->
  rs_previous s = Some sn1 /\ rs_current s1 = sn1 /\ rs_previous s1 = Some (rs_current s) /\
  s2 = s /\ sn2 = rs_current s.
Proof.
  unfold Rollback, refuse. destruct (rs_previous s) as [p|] eqn:Ep; [|done].
  destruct (persist _ _ w) as [[|] ?]; [|done]. intros [= -> <- <-]. simpl.
  destruct (persist _ _ w2) as [[|] ?]; [|done]. intros [= <- <- <-].
  split_and!; try done. destruct s; simpl in *; congruence.
Qed.

(** Every snapshot the store may bring into force is valid, and the outbox is
    bounded. *)
Record valid_store (s : Store) : Prop := {
  vs_current : validate (rs_current s) = Ok tt;
  vs_previous : forall p, rs_previous s = Some p -> validate p = Ok tt;
  vs_receipts : (length (rs_receipts s) <= maximum_receipts)%nat;
}.

Inductive request :=
| QApply (desired : option DesiredConfig) (receipt : bytes)
| QRollback
| QQueue (payload : bytes)
| QFinish (payload : bytes).
Definition perform (q : request) (s : Store) (w : World) : Store * World :=
  let '(_, s, w) := match q with
    | QApply d receipt => ApplyWithReceipt d receipt s w
    | QRollback => Rollback s w
    | QQueue payload => QueueReceipt payload s w
    | QFinish payload => FinishReceipt payload s w
    end in (s, w).

Lemma perform_valid q s w : valid_store s -> valid_store (fst (perform q s w)).
Proof.
  intros Hs. pose proof Hs as [Hc Hp Hr]. unfold perform. destruct q as [d receipt| |payload|payload]; simpl.
  - destruct (ApplyWithReceipt d receipt s w) as [[out s'] w'] eqn:E. simpl.
    apply Apply_cases in E as [(e & _ & ->)|(dc & v & next & _ & _ & _ & Hf & _ & _ & Hr' & Hroom & _ & Hc' & Hp')]; [done|].
    apply fromProto_ok in Hf as (_ & Hv & _). split.
    + by rewrite Hc'.
    + intros p Hp2. destruct Hp' as [(_ & _ & Heq)|[_ Heq]]; [apply Hp; congruence|].
      rewrite Heq in Hp2. by injection Hp2 as <-.
    + rewrite Hr', length_app. destruct (0 <? slen receipt) eqn:E; simpl; [|lia].
      specialize (Hroom ltac:(lia)). lia.
  - unfold Rollback. destruct (rs_previous s) as [p|] eqn:Ep; [|done].
    destruct (persist _ _ w) as [[|] ?]; [|done]. split; simpl; [by apply Hp|by intros q [= <-]|done].
  - unfold QueueReceipt, save_queue. destruct (Nat.leb _ _) eqn:El; [done|].
    destruct (persist _ _ w) as [[|] ?]; [|done]. split; simpl; [done|done|].
    rewrite length_app. simpl. bool_hyps. lia.
  - unfold FinishReceipt, save_queue. destruct (rs_receipts s) as [|r rest] eqn:El; [done|].
    destruct (String.eqb _ _); [|done]. destruct (persist _ _ w) as [[|] ?]; [|done].
    split; simpl in *; [done|done|lia].
Qed.

(** C35: whatever the panel delivers, whatever is rolled back and whichever
    writes fail, the configuration in force is valid, so is the one kept for
    rollback, and at most 1024 receipts are queued. *)
Theorem runtime_invariant qs s w :
  valid_store s -> valid_store (fst (fold_left (fun sw q => perform q (fst sw) (snd sw)) qs (s, w))).
Proof.
  revert s w. induction qs as [|q qs IH]; intros s w Hs; simpl; [done|].
  destruct (perform q s w) as [s1 w1] eqn:E. apply IH. pose proof (perform_valid q s w Hs) as H. by rewrite E in H.
Qed.

Lemma New_valid dflt initial path w s w' :
  New dflt initial path w = (Ok s, w') ->
  validate (rs_current s) = Ok tt.
Proof.
  unfold New, load. destruct (validate initial) as [[]|] eqn:Ei; [|done].
  destruct (read_file _ w) as [[data|e] w1].
  - destruct (json_unmarshal data) as [st|]; [|done].
    destruct (validate (pe_Current st)) as [[]|ev] eqn:Ev; [by intros [= <- _]|].
    destruct ev; try done. destruct e; try done. by intros [= <- _].
  - destruct e; try done. by intros [= <- _].
Qed.
End Theorems.

(** ** The backup and the replacement *)

Section Persist.
Context (path : string).
Let bak := path ++ ".bak".

Lemma bak_ne : bak <> path.
Proof.
  intros Hp. apply (f_equal chars) in Hp. unfold bak in Hp. rewrite chars_app in Hp.
  apply (f_equal length) in Hp. rewrite length_app in Hp. simpl in Hp. lia.
Qed.

(** [writeBackup] keeps both the destination and the waiting temporary. *)
Definition both (name : string) (f0 f : File) (m : fsys) : Prop := m !! path = Some f0 /\ m !! name = Some f.

Lemma writeBackup_keeps name f0 f data : name <> bak -> keeps (both name f0 f) (writeBackup bak data).
Proof.
  intros Hn w Hw. unfold writeBackup, create_temp, io_bind at 1, call.
  destruct (hd false (w_faults w)); simpl; [by apply grows_same|].
  destruct (pick_temp _ _ _ _) as [[name2 rs]|] eqn:Hpick; simpl; [|by apply grows_same].
  apply pick_temp_fresh in Hpick as (Hfresh & _).
  assert (H2 : name2 <> path /\ name2 <> name) by (destruct Hw; split; intros ->; congruence).
  assert (Hstable : stable_off name2 (both name f0 f)).
  { intros m g [Hm1 Hm2]. unfold both. rewrite !lookup_insert_ne, !lookup_delete_ne by naive_solver. done. }
  set (w1 := mkWorld _ _ _ _).
  assert (Hw1 : both name f0 f (w_fs w1)) by (by apply (Hstable _ (mkFile "" 384))).
  eapply (grows_trans _ _ w1); [by apply grows_step|].
  revert Hw1. generalize w1.
  change (keeps (both name f0 f) (with_removed name2 (fill_temp name2 data 384 ;; rename name2 bak))).
  apply keeps_with_removed; [done|]. apply keeps_bind; [by apply keeps_fill|intros _].
  apply keeps_call. intros w2 [Hp2 Hn2]. destruct (w_fs w2 !! name2); [|by apply grows_same].
  apply grows_step; [|done]. unfold both. simpl.
  rewrite !lookup_insert_ne by (done || apply bak_ne). rewrite !lookup_delete_ne by naive_solver. done.
Qed.

(** No random suffix makes a temporary one of the two files. *)
Definition safe_names : Prop :=
  (forall r, temp_name (dir path) ".runtime-config-" r <> path) /\
  (forall r, temp_name (dir path) ".runtime-config-" r <> bak) /\
  (forall r, temp_name (dir bak) ".runtime-backup-" r <> bak).

(** What a run of the publishing step leaves, from the prepared temporary. *)
Definition saved (m0 : fsys) (f : File) (r : result unit io_err) (w : World) : Prop :=
  Forall (old_or_new path f m0) (w_trace w) /\
  match r with
  | Ok _ => w_fs w !! path = Some f /\
      (forall old, m0 !! path = Some old -> w_fs w !! bak = Some (mkFile (f_data old) 384))
  | Err e => w_fs w !! path = m0 !! path \/ e = Fault OpSyncDir /\ w_fs w !! path = Some f
  end.

Lemma step_rename_sync m0 name f w r w' :
  name <> path -> m0 !! path = w_fs w !! path -> w_fs w !! name = Some f ->
  Forall (old_or_new path f m0) (w_trace w) ->
  (forall old, m0 !! path = Some old -> w_fs w !! bak = Some (mkFile (f_data old) 384)) ->
  name <> bak ->
  (rename name path ;; sync_directory (dir path)) w = (r, w') -> saved m0 f r w'.
Proof.
  intros Hne Hp Hn Ht Hb Hnb. unfold rename, sync_directory, pure_call, call, io_bind. simpl. rewrite Hn.
  destruct (hd false (w_faults w)); [intros [= <- <-]; by split; [|left]|]. simpl.
  assert (Ht' : Forall (old_or_new path f m0) (<[path := f]> (delete name (w_fs w)) :: w_trace w)).
  { constructor; [|done]. right. apply lookup_insert_eq. }
  destruct (hd false (tail (w_faults w))); intros [= <- <-]; (split; [done|]); simpl.
  - right. split; [done|]. apply lookup_insert_eq.
  - split; [apply lookup_insert_eq|]. intros old Ho. rewrite lookup_insert_ne by (intros Hx; by destruct bak_ne).
    rewrite lookup_delete_ne by done. by apply Hb.
Qed.

Lemma backup_then_rename_saved m0 name f w r w' :
  safe_names -> name <> path -> name <> bak -> preparing m0 name (w_fs w) -> w_fs w !! name = Some f ->
  Forall (preparing m0 name) (w_trace w) ->
  backup_then_rename path name w = (r, w') -> saved m0 f r w'.
Proof.
  intros (_ & _ & Hsafe) Hne Hnb Hprep Hn Ht. unfold backup_then_rename.
  assert (Hold : forall q g m, name <> q -> preparing m0 name m -> old_or_new q g m0 m).
  { intros q g m Hq <-. left. by rewrite lookup_delete_ne. }
  assert (Htp : Forall (old_or_new path f m0) (w_trace w)) by (eapply Forall_impl; [exact Ht|naive_solver]).
  assert (Hp : m0 !! path = w_fs w !! path) by (rewrite <- Hprep; by rewrite lookup_delete_ne).
  unfold read_file at 1, call. simpl. destruct (hd false (w_faults w)).
  { intros [= <- <-]. split; [done|]. by left. }
  set (w3 := mkWorld (w_fs w) (tail (w_faults w)) (w_rand w) (w_trace w)).
  destruct (w_fs w !! path) as [old|] eqn:Eold.
  2: { intros Hrun. eapply (step_rename_sync m0 name f w3); try done; [by simpl; congruence|]. congruence. }
  change (path ++ ".bak") with bak. destruct (writeBackup bak (f_data old) w3) as [rb w4] eqn:Eb.
  pose proof (writeBackup_keeps name old f (f_data old) Hnb w3 (conj Eold Hn)) as Hg. rewrite Eb in Hg. simpl in Hg.
  assert (Ht4 : Forall (old_or_new path f m0) (w_trace w4)).
  { eapply grows_Forall; [|exact Hg|exact Htp]. intros m [Hm _]. left. congruence. }
  destruct Hg as [[Hp4 Hn4] _]. destruct rb as [[]|e].
  2: { simpl. intros [= <- <-]. split; [done|]. left. congruence. }
  intros Hrun. eapply (step_rename_sync m0 name f w4); try done; [congruence|].
  intros old' Ho. assert (old' = old) as -> by congruence.
  eapply (with_temp_atomic (dir bak) ".runtime-backup-" bak (f_data old) 384) in Eb as [Hok _ _ _].
  - by rewrite (Hok eq_refl), lookup_insert_eq.
  - apply fill_then_publish, publishes_rename.
  - intros r0 _. apply Hsafe.
  - eapply Forall_impl; [exact Ht|]. intros m Hm. left. simpl.
    transitivity (m0 !! bak); [rewrite <- Hm|rewrite <- Hprep]; by rewrite lookup_delete_ne.
Qed.

(** Saving the configuration is atomic and keeps a backup: at any point of
    the sequence the file is the previous one or the complete new one; when it
    succeeds the previous contents are in the [.bak] file; when it fails the
    file is the previous one, unless only the final directory flush failed. *)
Theorem persist_file_atomic data w r w' :
  safe_names -> w_trace w = [] -> persist_file path data w = (r, w') ->
  saved (w_fs w) (mkFile data 384) r w'.
Proof.
  intros Hsafe Ht. pose proof Hsafe as (Hs1 & Hs2 & _). unfold persist_file, create_temp, io_bind at 1, call.
  destruct (hd false (w_faults w)); [intros [= <- <-]; split; simpl; [by rewrite Ht|by left]|]. simpl.
  destruct (pick_temp _ _ _ _) as [[name rs]|] eqn:Hpick; [|intros [= <- <-]; split; simpl; [by rewrite Ht|by left]].
  apply pick_temp_fresh in Hpick as (Hfresh & r0 & _ & ->). set (name := temp_name _ _ r0) in *.
  assert (Hne : name <> path) by apply Hs1. assert (Hnb : name <> bak) by apply Hs2.
  set (w1 := mkWorld _ _ _ _). set (f := mkFile data 384).
  assert (Hp1 : preparing (w_fs w) name (w_fs w1)) by (unfold preparing; simpl; by rewrite delete_insert_id).
  assert (Hstable : stable_off name (preparing (w_fs w) name)).
  { intros m g Hm. unfold preparing in *. by rewrite delete_insert_eq, delete_delete_eq. }
  unfold with_removed. destruct ((_ ;; _) w1) as [r2 w2] eqn:Ebody. destruct (remove name w2) as [r3 w3] eqn:Erem.
  intros [= <- <-].
  assert (Hs : saved (w_fs w) f r2 w2).
  { unfold io_bind in Ebody at 1. destruct (fill_temp name data 384 w1) as [rf wf] eqn:Ef.
    pose proof (keeps_fill _ _ Hstable data 384 w1 Hp1) as Hg. rewrite Ef in Hg. simpl in Hg.
    assert (Htf : Forall (preparing (w_fs w) name) (w_trace wf)).
    { eapply grows_Forall; [|exact Hg|]; [done|]. simpl. rewrite Ht. by constructor. }
    assert (Hold : Forall (old_or_new path f (w_fs w)) (w_trace wf)).
    { eapply Forall_impl; [exact Htf|]. intros m. by apply preparing_old_or_new. }
    destruct Hg as [Hpf _]. eapply (step_fill (w_fs w) name path f) in Ef; [|done|done|].
    2: { split_and!; [exact Hp1|apply lookup_insert_eq|]. unfold traced. simpl. rewrite Ht. constructor; [|constructor].
         by apply (preparing_old_or_new _ name). }
    destruct rf as [[]|e].
    - eapply backup_then_rename_saved; try done. by destruct Ef as (_ & Hn & _).
    - injection Ebody as <- <-. split; [done|]. left. rewrite <- Hpf. by rewrite lookup_delete_ne. }
  assert (Hrem : w_fs w3 = w_fs w2 /\ w_trace w3 = w_trace w2 \/
            w_fs w3 = delete name (w_fs w2) /\ w_trace w3 = w_fs w3 :: w_trace w2).
  { revert Erem. unfold remove, call. destruct (hd false (w_faults w2)); [intros [= _ <-]; by left|]. simpl.
    destruct (w_fs w2 !! name); intros [= _ <-]; [by right|by left]. }
  destruct Hs as [Htr Hfin]. destruct Hrem as [[Hf3 Ht3]|[Hf3 Ht3]].
  - split; [by rewrite Ht3|]. by rewrite Hf3.
  - assert (Hq : forall q, q <> name -> w_fs w3 !! q = w_fs w2 !! q) by (intros q Hq; by rewrite Hf3, lookup_delete_ne).
    split.
    + rewrite Ht3. constructor; [|done]. unfold old_or_new. rewrite Hq by done.
      destruct r2 as [[]|e]; [right; apply Hfin|]. destruct Hfin as [?|[_ ?]]; auto.
    + rewrite !Hq by done. exact Hfin.
Qed.
End Persist.

(** ** Witnesses

    A default configuration, and revision 3 from the panel. *)

Definition wit_pd : ProtoDuration := {| du_check := fun _ => true; du_value := fun d => du_seconds d * second |}.
Definition wit_json : Json persistedState := {| json_marshal := fun _ => Some "{}"; json_unmarshal := fun _ => None |}.
Definition wit_flags : Config := mkConfig "" "" 0 "eth0, ,eth1" "" "" 1 true false false false false.
Definition wit_store : Store := mkStore "/k/rc.json" (FromFlags wit_flags) None [].
Definition wit_world : World := mkWorld empty [] ["1"; "2"; "3"; "4"] [].
Definition wit_desired : option DesiredConfig :=
  Some (mkDesiredConfig 3 (Some (mkRuntimeConfig "" [1; 5; 8] (Some false) None None [" wan "; " "] [] []
    (Some 7) None None (Some (mkDuration 10 0))))).

Lemma rc_wit_valid : valid_store wit_store.
Proof. split; [vm_compute; reflexivity|intros p [=]|simpl; lia]. Qed.

Lemma Apply_spec_witness :
  let D := wit_pd in let J := wit_json in
  let run := ApplyWithReceipt wit_desired "receipt" wit_store wit_world in
  snd (fst (fst run)) = None /\ rs_current (snd (fst run)) = fst (fst (fst run)) /\ sn_IncludeNics (rs_current (snd (fst run))) = ["wan"].
Proof.
  intros D J run. assert (E : snd (fst (fst run)) = None) by (vm_compute; reflexivity). split; [exact E|].
  assert (Hrun : run = ((fst (fst (fst run)), snd (fst (fst run))), snd (fst run), snd run))
    by (destruct run as [[[? ?] ?] ?]; reflexivity).
  split; [|vm_compute; reflexivity]. symmetry.
  exact (proj1 (Apply_spec (PD := D) (JP := J) wit_desired "receipt" wit_store wit_world _ _ _ _ Hrun)).
Defined.

Lemma Apply_idempotent_witness :
  let D := wit_pd in let J := wit_json in
  let run := Apply wit_desired wit_store wit_world in
  Apply wit_desired (snd (fst run)) (snd run) = ((fst (fst (fst run)), None), snd (fst run), snd run).
Proof.
  intros D J run. assert (E : snd (fst (fst run)) = None) by (vm_compute; reflexivity).
  assert (Hrun : run = ((fst (fst (fst run)), None), snd (fst run), snd run))
    by (rewrite <- E at 1; destruct run as [[[? ?] ?] ?]; reflexivity).
  exact (Apply_idempotent (PD := D) (JP := J) wit_desired wit_store wit_world _ _ _ (snd run) Hrun).
Defined.

Lemma Rollback_involutive_witness :
  let D := wit_pd in let J := wit_json in
  let s := snd (fst (Apply wit_desired wit_store wit_world)) in
  let run1 := Rollback s wit_world in
  let run2 := Rollback (snd (fst run1)) wit_world in
  snd (fst run2) = s.
Proof.
  intros D J s run1 run2.
  assert (E1 : snd (fst (fst run1)) = None) by (vm_compute; reflexivity).
  assert (E2 : snd (fst (fst run2)) = None) by (vm_compute; reflexivity).
  assert (H1 : run1 = ((fst (fst (fst run1)), None), snd (fst run1), snd run1))
    by (rewrite <- E1 at 1; destruct run1 as [[[? ?] ?] ?]; reflexivity).
  assert (H2 : run2 = ((fst (fst (fst run2)), None), snd (fst run2), snd run2))
    by (rewrite <- E2 at 1; destruct run2 as [[[? ?] ?] ?]; reflexivity).
  apply (Rollback_involutive (JP := J) s wit_world _ _ _ wit_world _ _ _ H1 H2).
Defined.

Lemma runtime_invariant_witness :
  let D := wit_pd in let J := wit_json in
  valid_store (fst (fold_left (fun sw q => perform q (fst sw) (snd sw))
    [QApply wit_desired "r"; QRollback; QQueue "r2"; QFinish "r"] (wit_store, wit_world))).
Proof.
  intros D J. exact (runtime_invariant (PD := D) (JP := J) _ wit_store wit_world rc_wit_valid).
Defined.

Lemma persist_file_atomic_witness :
  let w := mkWorld {[ "/k/rc.json" := mkFile "old" 384 ]} [] ["1"; "2"; "3"] [] in
  let run := persist_file "/k/rc.json" "new" w in
  fst run = Ok tt /\ w_fs (snd run) !! "/k/rc.json.bak" = Some (mkFile "old" 384).
Proof.
  intros w run. assert (E : fst run = Ok tt) by (vm_compute; reflexivity). split; [exact E|].
  assert (Hs : safe_names "/k/rc.json") by (split_and!; intros r; vm_compute; discriminate).
  destruct (persist_file_atomic "/k/rc.json" "new" w (Ok tt) (snd run) Hs eq_refl (run_outcome2 run _ E)) as (_ & _ & H).
  apply (H (mkFile "old" 384)). reflexivity.
Defined.
