(* ===== verification/Effective.v ===== *)
(** * What the agent may do ([core/runtimeconfig/effective.go], [core/capability])

    The one view the collectors, the capability report and the gates use: the
    applied settings, intersected with the administrator's protected policy and
    the local switches, and reduced to nothing when any of them cannot be read. *)

From S2P Require Import Prelude.
From S2P Require Import GoStd.
From S2P Require Import GoPath.
From S2P Require Import Disk.
From S2P Require Import External.
From S2P Require Import Privileged.
From S2P Require Import HostOps.
From S2P Require Import RuntimeConfig.

Local Open Scope string_scope.
Local Open Scope Z_scope.

Record EffectiveConfig := mkEffective {
  ef_Runtime : Snapshot;
  ef_Privileged : Settings;
  ef_Source : string;
  ef_Sources : gmap string string;
  ef_Blocked : gmap string string;
  ef_BlockedReason : string;
}.

Definition PolicyAllows (s : Settings) (p : option Policy) : bool :=
  match p with
  | None => false
  | Some p =>
      (RequiredPrivilegeMode s =? po_PrivilegeMode p) &&
      (negb (RemoteControlEnabled s) || (po_AllowRemoteControl p && negb (po_ForceDenyRemoteControl p))) &&
      (negb (WebSSHEnabled s) || po_AllowWebSSH p) &&
      (negb (ExecutionEnabled s) || po_AllowExecution p) &&
      (negb (EnableGPU s) || po_AllowGPU p) &&
      (negb (RescueHelperEnabled s) ||
       (po_AllowRescueHelper p && negb (po_ForceDenyRescueHelper p) && po_HelperInstalled p && po_HelperAuthorized p))
  end.

(** [s.X = s.X && x] for the five capabilities. *)
Definition mask (remote webssh execution gpu rescue : bool) (s : Settings) : Settings :=
  mkSettings (RequiredPrivilegeMode s) (RemoteControlEnabled s && remote) (WebSSHEnabled s && webssh)
    (ExecutionEnabled s && execution) (EnableGPU s && gpu) (RescueHelperEnabled s && rescue).
Definition policy_mask (p : Policy) : Settings -> Settings :=
  mask (po_AllowRemoteControl p && negb (po_ForceDenyRemoteControl p)) (po_AllowWebSSH p) (po_AllowExecution p)
    (po_AllowGPU p)
    (po_AllowRescueHelper p && negb (po_ForceDenyRescueHelper p) && po_HelperInstalled p && po_HelperAuthorized p).
Definition settings_mask (t : Settings) : Settings -> Settings :=
  mask (RemoteControlEnabled t) (WebSSHEnabled t) (ExecutionEnabled t) (EnableGPU t) (RescueHelperEnabled t).

Definition runtime_fields : list string :=
  ["memory_include_cache"; "detailed_gpu"; "include_nics"; "exclude_nics"; "include_mountpoints";
   "report_interval"; "traffic_reset_day"; "get_ip_addr_from_nic"].
Definition privileged_fields : list string :=
  ["remote_control_enabled"; "webssh_enabled"; "execution_enabled"; "enable_gpu"; "rescue_helper_enabled";
   "required_privilege_mode"].
Definition set_all (fields : list string) (v : string) (m : gmap string string) : gmap string string :=
  fold_left (fun m f => <[f := v]> m) fields m.

Section Inspect.
Context `{StrictJson Manifest} `{StrictJson Policy}.
Variable lstat : string -> option Stat.
Variable is_regular : string -> bool.
(** The text of an error. *)
Variable describe : host_err -> string.

(** The policy the manifest of [config] leads to. *)
Definition read_policy (path : string) (w : World) : result Policy host_err * World :=
  match ReadManifest lstat is_regular path w with
  | (Err e, w) => (Err e, w)
  | (Ok m, w) => ReadPolicy lstat is_regular (Some m) w
  end.

Definition denials (p : Policy) : list string :=
  (if negb (po_AllowRemoteControl p) || po_ForceDenyRemoteControl p then ["remote_control_enabled"] else []) ++
  (if negb (po_AllowWebSSH p) then ["webssh_enabled"] else []) ++
  (if negb (po_AllowExecution p) then ["execution_enabled"] else []) ++
  (if negb (po_AllowGPU p) then ["enable_gpu"] else []) ++
  (if negb (po_AllowRescueHelper p) || po_ForceDenyRescueHelper p || negb (po_HelperInstalled p) ||
      negb (po_HelperAuthorized p) then ["rescue_helper_enabled"] else []).

(** The protected policy applied to what was granted. *)
Definition apply_policy (ps : option Privileged.Store) (p : Policy) (e : EffectiveConfig) : EffectiveConfig :=
  let s := ef_Privileged e in
  let blocked := set_all (denials p) "protected local policy" (ef_Blocked e) in
  let mismatch := negb (RequiredPrivilegeMode s =? 0) && negb (RequiredPrivilegeMode s =? po_PrivilegeMode p) in
  let s := policy_mask p (if mismatch then restrictive else s) in
  let reason := if mismatch then "applied identity differs from protected installation policy" else ef_BlockedReason e in
  let '(s, sources) :=
    match ps, po_HostSettings p with
    | Some st, Some target =>
        if ps_AppliedRevision (pst_state st) <=? po_HostRevision p
        then (settings_mask target s,
              <["host_transition_ceiling" := "protected host revision r" ++ utoa (po_HostRevision p)]> (ef_Sources e))
        else (s, ef_Sources e)
    | _, _ => (s, ef_Sources e)
    end in
  let reason := if po_ForceDenyRemoteControl p then "protected local force-deny" else reason in
  mkEffective (ef_Runtime e) s (ef_Source e) sources blocked reason.

(** The local switch, and the dependencies between capabilities. *)
Definition finish (c : Config) (raw : Snapshot) (e : EffectiveConfig) : EffectiveConfig :=
  let '(s, blocked, sources) :=
    if fl_DisableRemoteControl c
    then (mask false true true true true (ef_Privileged e),
          <["remote_control_enabled" := "local force-deny"]> (ef_Blocked e),
          <["remote_control_enabled" := "local force-deny"]> (ef_Sources e))
    else (ef_Privileged e, ef_Blocked e, ef_Sources e) in
  let blocked := if (ef_BlockedReason e =? "")%string then blocked
                 else <["privileged" := ef_BlockedReason e]> blocked in
  let s := mask true (RemoteControlEnabled s) (RemoteControlEnabled s) true true s in
  let r := ef_Runtime e in
  let runtime := mkSnapshot (sn_Revision r) (sn_MemoryIncludeCache r) (EnableGPU s)
                   (sn_DetailedGPU raw && EnableGPU s) (sn_IncludeNics r) (sn_ExcludeNics r)
                   (sn_IncludeMountpoints r) (sn_ReportInterval r) (sn_TrafficResetDay r)
                   (RemoteControlEnabled s) (sn_GetIPAddrFromNIC r) in
  mkEffective runtime s (ef_Source e) sources blocked (ef_BlockedReason e).

(** What is granted before the local policy is consulted. *)
Definition granted (raw : Snapshot) (ps : option Privileged.Store) : EffectiveConfig :=
  let runtimeSource := if 0 <? sn_Revision raw then "applied runtime r" ++ utoa (sn_Revision raw) else "bootstrap flags" in
  let '(s, source) :=
    match ps with
    | Some st => (Privileged.Effective st, "applied privileged snapshot intersected with signed pending restrictions")
    | None => (mkSettings 0 (sn_RemoteControlEnabled raw) (sn_RemoteControlEnabled raw) (sn_RemoteControlEnabled raw)
                 (sn_EnableGPU raw) false, "bootstrap flags")
    end in
  mkEffective raw s source (set_all privileged_fields source (set_all runtime_fields runtimeSource ∅)) ∅ "".

Definition raw_config (c : Config) (rs : option RuntimeConfig.Store) : Snapshot :=
  match rs with Some s => rs_current s | None => FromFlags c end.

Definition Inspect (c : Config) (rs : option RuntimeConfig.Store) (ps : option Privileged.Store) (w : World)
    : EffectiveConfig * World :=
  let raw := raw_config c rs in
  let e := granted raw ps in
  if (fl_ServiceManifestFile c =? "")%string then (finish c raw e, w) else
  match read_policy (fl_ServiceManifestFile c) w with
  | (Err err, w) =>
      (finish c raw (mkEffective (ef_Runtime e) restrictive (ef_Source e) (ef_Sources e) (ef_Blocked e)
                       ("protected installation policy unavailable: " ++ describe err)), w)
  | (Ok p, w) => (finish c raw (apply_policy ps p e), w)
  end.

Definition EffectiveForMode (actual : PrivilegeMode) (c : Config) (rs : option RuntimeConfig.Store)
    (ps : option Privileged.Store) (w : World) : EffectiveConfig * World :=
  let '(e, w) := Inspect c rs ps w in
  let required := RequiredPrivilegeMode (ef_Privileged e) in
  if negb (required =? 0) && negb (required =? actual) then
    let r := ef_Runtime e in
    (mkEffective (mkSnapshot (sn_Revision r) (sn_MemoryIncludeCache r) false false (sn_IncludeNics r)
                    (sn_ExcludeNics r) (sn_IncludeMountpoints r) (sn_ReportInterval r) (sn_TrafficResetDay r)
                    false (sn_GetIPAddrFromNIC r))
       restrictive (ef_Source e) (ef_Sources e) (ef_Blocked e)
       "actual daemon identity differs from applied privileged snapshot", w)
  else (e, w).
End Inspect.

(** ** Capabilities ([capability.go]) *)

Record CapabilityState := mkCap { cap_Available : bool; cap_Limitation : string }.
Definition available : CapabilityState := mkCap true "".
Definition limited (reason : string) : CapabilityState := mkCap false reason.

Record AgentCapabilities := mkCaps {
  caps_PrivilegeMode : PrivilegeMode;
  caps_Gpu : CapabilityState;
  caps_DetailedGpu : CapabilityState;
  caps_NetworkInterfaces : CapabilityState;
  caps_MountPoints : CapabilityState;
  caps_RemoteControl : CapabilityState;
  caps_ServiceControl : CapabilityState;
  caps_Execution : CapabilityState;
  caps_Webssh : CapabilityState;
  caps_ReturnRouteProbe : CapabilityState;
  caps_RescueHelper : CapabilityState;
}.

Section Capability.
(** [runtime.GOOS]. *)
Variable goos : string.

(** [privilegedOS] and [limitation] come from the operating system. *)
Definition remoteAllowed (store : option Privileged.Store) (enabled : bool) (mode : PrivilegeMode)
    (privilegedOS : bool) (limitation : string) : bool * string :=
  if negb enabled then (false, "remote control is disabled by effective configuration or local policy")
  else if privilegedOS then (true, "")
  else match store with
       | Some s =>
           if negb (ps_AppliedRevision (pst_state s) =? 0) &&
              (RequiredPrivilegeMode (ps_Active (pst_state s)) =? mode)
           then (true, "") else (false, "same-identity signed authorization required; " ++ limitation)
       | None => (false, "same-identity signed authorization required; " ++ limitation)
       end.

(** [detect], from the effective configuration for the detected mode. *)
Definition detect (store : option Privileged.Store) (cfg : EffectiveConfig) (remoteControlEnabled : bool)
    (privilege : PrivilegeMode) (privileged : bool) (privilegeLimitation : string) : AgentCapabilities :=
  let '(allowed, reason) := remoteAllowed store remoteControlEnabled privilege privileged privilegeLimitation in
  let base := if allowed then available else limited reason in
  let p := ef_Privileged cfg in
  let checked := bool_decide (is_Some store) || negb (RemoteControlEnabled p) in
  let denied := limited "remote control denied by effective configuration" in
  let remote := if checked && negb (RemoteControlEnabled p) then denied else base in
  let execution := if checked && negb (ExecutionEnabled p)
                   then limited "execution denied by effective configuration" else remote in
  let webssh := if checked && negb (WebSSHEnabled p)
                then limited "WebSSH denied by effective configuration" else remote in
  let service := if privileged then available else limited privilegeLimitation in
  let service := if negb (goos =? "linux")%string && negb (goos =? "windows")%string
                 then limited "service control capability is platform-dependent" else service in
  mkCaps privilege
    (if sn_EnableGPU (ef_Runtime cfg) then available else limited "GPU disabled by effective configuration")
    (if sn_DetailedGPU (ef_Runtime cfg) then available else limited "detailed GPU disabled by effective configuration")
    available available remote service execution webssh available
    (if RescueHelperEnabled p then available else limited "rescue helper is not installed").
End Capability.

(** ** Theorems *)

(** [a] has no capability [b] lacks. *)
Definition caps_within (a b : Settings) : Prop :=
  (RemoteControlEnabled a = true -> RemoteControlEnabled b = true) /\
  (WebSSHEnabled a = true -> WebSSHEnabled b = true) /\
  (ExecutionEnabled a = true -> ExecutionEnabled b = true) /\
  (EnableGPU a = true -> EnableGPU b = true) /\
  (RescueHelperEnabled a = true -> RescueHelperEnabled b = true).

#[export] Instance caps_within_preorder : PreOrder caps_within.
Proof. split; [intros a; unfold caps_within; tauto|intros a b c; unfold caps_within; tauto]. Qed.

Create HintDb go_caps.
Lemma mask_within r w x g h s : caps_within (mask r w x g h s) s.
Proof. unfold caps_within, mask. simpl. rewrite !andb_true_iff. tauto. Qed.
Lemma mask_within_bits r w x g h s t :
  caps_within (mkSettings 0 r w x g h) t -> caps_within (mask r w x g h s) t.
Proof. unfold caps_within, mask. simpl. rewrite !andb_true_iff. tauto. Qed.
Lemma restrictive_within s : caps_within restrictive s.
Proof. done. Qed.
Lemma if_within (b : bool) s : caps_within (if b then restrictive else s) s.
Proof. destruct b; [apply restrictive_within|reflexivity]. Qed.
#[export] Hint Resolve mask_within restrictive_within : go_caps.

(** The capabilities a policy leaves open. *)
Definition policy_caps (p : Policy) : Settings :=
  mkSettings 0 (po_AllowRemoteControl p && negb (po_ForceDenyRemoteControl p)) (po_AllowWebSSH p) (po_AllowExecution p)
    (po_AllowGPU p)
    (po_AllowRescueHelper p && negb (po_ForceDenyRescueHelper p) && po_HelperInstalled p && po_HelperAuthorized p).

Section Theorems.
Context `{SM : StrictJson Manifest} `{SP : StrictJson Policy}.
Variable lstat : string -> option Stat.
Variable is_regular : string -> bool.
Variable describe : host_err -> string.

Lemma finish_within c raw e :
  caps_within (ef_Privileged (finish c raw e)) (ef_Privileged e) /\
  (fl_DisableRemoteControl c = true -> RemoteControlEnabled (ef_Privileged (finish c raw e)) = false) /\
  (forall b, WebSSHEnabled (ef_Privileged (finish c raw e)) = true \/
             ExecutionEnabled (ef_Privileged (finish c raw e)) = true ->
             RemoteControlEnabled (ef_Privileged (finish c raw e)) = b -> b = true) /\
  sn_EnableGPU (ef_Runtime (finish c raw e)) = EnableGPU (ef_Privileged (finish c raw e)) /\
  sn_RemoteControlEnabled (ef_Runtime (finish c raw e)) = RemoteControlEnabled (ef_Privileged (finish c raw e)) /\
  (sn_DetailedGPU (ef_Runtime (finish c raw e)) = true -> EnableGPU (ef_Privileged (finish c raw e)) = true).
Proof.
  unfold finish, mask, caps_within. destruct e as [r [m s1 s2 s3 s4 s5] src srcs bl br]; simpl.
  destruct (fl_DisableRemoteControl c), s1, s2, s3, s4, s5, (sn_DetailedGPU raw); simpl; naive_solver.
Qed.

Lemma apply_policy_within ps p e :
  caps_within (ef_Privileged (apply_policy ps p e)) (ef_Privileged e) /\
  caps_within (ef_Privileged (apply_policy ps p e)) (policy_caps p) /\
  (forall st t, ps = Some st -> po_HostSettings p = Some t ->
     ps_AppliedRevision (pst_state st) <= po_HostRevision p ->
     caps_within (ef_Privileged (apply_policy ps p e)) t).
Proof.
  unfold apply_policy. set (mm := negb _ && negb _). set (s0 := if mm then restrictive else ef_Privileged e).
  assert (H0 : caps_within (policy_mask p s0) (ef_Privileged e)).
  { etrans; [apply mask_within|]. unfold s0. destruct mm; [done|reflexivity]. }
  assert (H1 : caps_within (policy_mask p s0) (policy_caps p)) by (apply mask_within_bits; reflexivity).
  destruct ps as [st|], (po_HostSettings p) as [t|]; simpl; try (split_and!; [exact H0|exact H1|naive_solver]).
  destruct (_ <=? _) eqn:El; simpl; split_and!; try done.
  - etrans; [apply mask_within|exact H0].
  - etrans; [apply mask_within|exact H1].
  - intros st' t' _ [= <-] _. apply mask_within_bits. destruct t as [m t1 t2 t3 t4 t5]. done.
  - intros st' t' [= <-] _ Hle. zbool.
Qed.

(** C37: the effective view never widens what was granted. It is bounded by the
    applied settings; when a manifest is configured, also by the protected
    policy and its host ceiling, and it is empty if that policy cannot be
    read; the local switch removes remote control, and a terminal or a command
    is never allowed without it. *)
Theorem effective_bounded c rs ps w :
  let e := fst (Inspect lstat is_regular describe c rs ps w) in
  let s := ef_Privileged e in
  (forall st, ps = Some st -> caps_within s (Privileged.Effective st)) /\
  (fl_ServiceManifestFile c <> "" ->
     match fst (read_policy lstat is_regular (fl_ServiceManifestFile c) w) with
     | Err _ => caps_within s restrictive
     | Ok p => caps_within s (policy_caps p) /\
         (forall st t, ps = Some st -> po_HostSettings p = Some t ->
            ps_AppliedRevision (pst_state st) <= po_HostRevision p -> caps_within s t)
     end) /\
  (fl_DisableRemoteControl c = true -> RemoteControlEnabled s = false) /\
  (WebSSHEnabled s = true \/ ExecutionEnabled s = true -> RemoteControlEnabled s = true) /\
  sn_EnableGPU (ef_Runtime e) = EnableGPU s /\ sn_RemoteControlEnabled (ef_Runtime e) = RemoteControlEnabled s /\
  (sn_DetailedGPU (ef_Runtime e) = true -> EnableGPU s = true).
Proof.
  set (raw := raw_config c rs). unfold Inspect. fold raw.
  assert (Hg : forall st, ps = Some st -> caps_within (ef_Privileged (granted raw ps)) (Privileged.Effective st))
    by (intros st ->; reflexivity).
  destruct (fl_ServiceManifestFile c =? "")%string eqn:Em.
  { destruct (finish_within c raw (granted raw ps)) as (H1 & H2 & H3 & H4 & H5 & H6). simpl fst.
    split_and!; try done; [|by intros ?; bool_hyps|eauto]. intros st Hst. etrans; [exact H1|by apply Hg]. }
  destruct (read_policy _ _ _ w) as [[p|er] w1]; simpl fst.
  - destruct (finish_within c raw (apply_policy ps p (granted raw ps))) as (H1 & H2 & H3 & H4 & H5 & H6).
    destruct (apply_policy_within ps p (granted raw ps)) as (P1 & P2 & P3).
    split_and!; try done; [| |eauto].
    + intros st Hst. etrans; [exact H1|]. etrans; [exact P1|by apply Hg].
    + intros _. split; [by etrans|]. intros st t Hst Ht Hle. etrans; [exact H1|by eapply P3].
  - set (e0 := mkEffective _ _ _ _ _ _). destruct (finish_within c raw e0) as (H1 & H2 & H3 & H4 & H5 & H6).
    split_and!; try done; [|eauto]. intros st Hst. etrans; [exact H1|apply restrictive_within].
Qed.

(** A capability the agent reports is one it has: execution and WebSSH
    only with remote control, the last only if it is switched on and the
    process is privileged or runs under the mode a signed revision approved;
    with a privileged store each also needs its own effective grant. *)
Theorem detect_sound goos store cfg enabled mode privileged limitation :
  let caps := detect goos store cfg enabled mode privileged limitation in
  (cap_Available (caps_RemoteControl caps) = true ->
     enabled = true /\ RemoteControlEnabled (ef_Privileged cfg) = true /\
     (privileged = true \/ exists s, store = Some s /\ ps_AppliedRevision (pst_state s) <> 0 /\
        RequiredPrivilegeMode (ps_Active (pst_state s)) = mode)) /\
  (cap_Available (caps_Execution caps) = true \/ cap_Available (caps_Webssh caps) = true ->
     cap_Available (caps_RemoteControl caps) = true) /\
  (store <> None ->
     (cap_Available (caps_Execution caps) = true -> ExecutionEnabled (ef_Privileged cfg) = true) /\
     (cap_Available (caps_Webssh caps) = true -> WebSSHEnabled (ef_Privileged cfg) = true)).
Proof.
  assert (Hr : forall r, remoteAllowed store enabled mode privileged limitation = (true, r) -> enabled = true /\
     (privileged = true \/ exists s, store = Some s /\ ps_AppliedRevision (pst_state s) <> 0 /\
        RequiredPrivilegeMode (ps_Active (pst_state s)) = mode)).
  { intros r. unfold remoteAllowed. destruct enabled; [|done]. simpl. destruct privileged; [by auto|].
    destruct store as [s|]; [|done]. destruct (_ && _) eqn:E; [|done]. intros _. split; [done|]. right.
    exists s. bool_hyps. done. }
  unfold detect. destruct (remoteAllowed _ _ _ _ _) as [allowed reason].
  destruct (ef_Privileged cfg) as [m s1 s2 s3 s4 s5]; simpl.
  destruct store as [st|]; simpl.
  - destruct allowed, s1, s2, s3; simpl; split_and!; try done; naive_solver.
  - destruct allowed, s1, s2, s3; simpl; split_and!; try done; naive_solver.
Qed.
End Theorems.
