(* ===== verification/Retry.v ===== *)
(** * Retry pacing ([clientcore/retry.go])

    How long the agent waits before it dials again: exponential back-off with a
    cap per kind of failure, a server hint that outranks it, and a jitter that
    only shortens. Durations are [int64] nanoseconds. *)

From S2P Require Import Prelude.
From S2P Require Import GoStd.

Local Open Scope string_scope.
Local Open Scope Z_scope.

Definition retryMaxDelay : duration := 5 * minute.
Definition retryAuthMinDelay : duration := 60 * second.
Definition retryAuthMaxDelay : duration := 15 * minute.
Definition retryServerHintCap : duration := 30 * minute.

(** The failures the policy tells apart: an error that is not a Connect error,
    or one with its code and the [Retry-After] header of its metadata. *)
Inductive code_ := CodeUnauthenticated | CodePermissionDenied | CodeResourceExhausted | CodeOther.
Inductive failure := Transport | ConnectError (c : code_) (retry_after : string).

Record retryPolicy := mkRetry { attempt : Z }.
Definition Reset (p : retryPolicy) : retryPolicy := mkRetry 0.

(** [rand.Float64()] is [n / 2^53] for a random [n]; the jitter removes that
    fraction of a fifth of the delay. *)
Definition rand_max : Z := 2 ^ 53.
Definition jitter_cut (n : Z) (d : duration) : duration := n * d / (5 * rand_max).
Definition jitter (n : Z) (d : duration) : duration :=
  if d <=? 0 then second else
  let reduced := d - jitter_cut n d in
  if reduced <? second then second else reduced.

Fixpoint backoff_loop (iterations : nat) (delay limit : duration) : duration :=
  match iterations with
  | O => if limit <? delay then limit else delay
  | S k => if idiv limit 2 <=? delay then limit else backoff_loop k (wrap64 (delay * 2)) limit
  end.
Definition backoffDelay (base limit : duration) (a : Z) : duration :=
  let base := if base <=? 0 then second else base in
  let limit := if limit <? base then base else limit in
  backoff_loop (Z.to_nat (a - 1)) base limit.

Section Config.
(** [flags.GlobalConfig.ReconnectInterval], an [int] of seconds. *)
Variable ReconnectInterval : Z.
(** [http.ParseTime]. *)
Variable parse_time : string -> option time.

Definition baseInterval : duration := wrap64 (Z.max ReconnectInterval 1 * second).

Definition clampHint (d : duration) : duration :=
  if d <? baseInterval then baseInterval
  else if retryServerHintCap <? d then retryServerHintCap else d.

Definition retryAfterHint (now : time) (err : failure) : option duration :=
  match err with
  | Transport => None
  | ConnectError _ raw =>
      if (raw =? "")%string then None else
      match atoi raw with
      | Some seconds => if seconds <=? 0 then None else Some (clampHint (wrap64 (seconds * second)))
      | None =>
          match parse_time raw with
          | Some at_ => if 0 <? at_ - now then Some (clampHint (at_ - now)) else None
          | None => None
          end
      end
  end.

Definition isAuthRejection (err : failure) : bool :=
  match err with
  | ConnectError CodeUnauthenticated _ | ConnectError CodePermissionDenied _ => true
  | _ => false
  end.
Definition isRateLimited (err : failure) : bool :=
  match err with ConnectError CodeResourceExhausted _ => true | _ => false end.
Definition isTransientRejection (err : failure) : bool := isRateLimited err || isAuthRejection err.

(** The delay before jitter, for the attempt just counted. *)
Definition planned (now : time) (a : Z) (err : failure) : duration :=
  match retryAfterHint now err with
  | Some hint => hint
  | None => if isAuthRejection err then backoffDelay retryAuthMinDelay retryAuthMaxDelay a
            else backoffDelay baseInterval retryMaxDelay a
  end.
Definition next (n : Z) (now : time) (err : option failure) (p : retryPolicy) : duration * retryPolicy :=
  match err with
  | None => (jitter n baseInterval, mkRetry 0)
  | Some e => let p := mkRetry (wrap64 (attempt p + 1)) in (jitter n (planned now (attempt p) e), p)
  end.
Definition RestartDelay (n : Z) (a : Z) : duration :=
  jitter n (backoffDelay baseInterval retryMaxDelay (if a <? 1 then 1 else a)).

(** ** Properties *)

Lemma jitter_bounds n d :
  0 <= n < rand_max -> second <= jitter n d /\ (second <= d -> d - d / 5 <= jitter n d <= d).
Proof.
  intros Hn. unfold jitter, second. destruct (d <=? 0) eqn:Ed; [zbool|].
  assert (Hc : 0 <= jitter_cut n d <= d / 5).
  { unfold jitter_cut, rand_max in *. bool_hyps. split.
    - apply Z.div_pos; [|lia]. apply Z.mul_nonneg_nonneg; lia.
    - rewrite (Z.mul_comm 5), <- Z.div_div by lia. apply Z.div_le_mono; [lia|].
      apply Z.div_le_upper_bound; [lia|]. nia. }
  pose proof (Z.div_le_upper_bound d 5 d ltac:(lia)).
  destruct (d - jitter_cut n d <? 1000000000) eqn:Er; bool_hyps; [|lia].
  split; [lia|]. intros Hd. split; lia.
Qed.

Lemma backoff_loop_spec k delay limit :
  0 < delay <= limit -> limit <= max_int64 -> limit mod 2 = 0 ->
  backoff_loop k delay limit = Z.min limit (delay * 2 ^ Z.of_nat k).
Proof.
  revert delay. induction k as [|k IH]; intros delay Hd Hl He; cbn [backoff_loop].
  - simpl (Z.of_nat 0). rewrite Z.pow_0_r, Z.mul_1_r. destruct (limit <? delay) eqn:E; zbool.
  - assert (Hhalf : idiv limit 2 = limit / 2) by (apply Z.quot_div_nonneg; lia).
    assert (H2 : limit = 2 * (limit / 2)) by (pose proof (Z.div_mod limit 2 ltac:(lia)); lia).
    rewrite Hhalf. assert (Hp : 2 ^ Z.of_nat (S k) = 2 * 2 ^ Z.of_nat k) by (rewrite Nat2Z.inj_succ, Z.pow_succ_r; lia).
    assert (Hpos : 0 < 2 ^ Z.of_nat k) by (apply Z.pow_pos_nonneg; lia).
    destruct (limit / 2 <=? delay) eqn:E; bool_hyps.
    + rewrite Hp. rewrite Z.min_l; [done|]. nia.
    + rewrite wrap64_id by (unfold is_int64, min_int64, max_int64 in *; lia).
      rewrite IH by lia. rewrite Hp. f_equal. ring.
Qed.

(** The back-off is the doubling sequence cut at its cap: the [a]-th retry
    waits [min cap (base * 2^(a-1))], the first exactly the base, and no
    intermediate product leaves [int64]. *)
Theorem backoffDelay_spec base limit a :
  0 < base <= limit -> limit <= max_int64 -> limit mod 2 = 0 -> 1 <= a ->
  backoffDelay base limit a = Z.min limit (base * 2 ^ (a - 1)).
Proof.
  intros Hb Hl He Ha. unfold backoffDelay.
  destruct (base <=? 0) eqn:E1; [zbool|]. destruct (limit <? base) eqn:E2; [zbool|].
  rewrite backoff_loop_spec by done. by rewrite Z2Nat.id by lia.
Qed.

(** The cap holds whatever the arguments. *)
Lemma backoff_loop_le k delay limit : backoff_loop k delay limit <= limit.
Proof.
  revert delay. induction k as [|k IH]; intros delay; simpl; destruct (_ : bool) eqn:E; zbool. apply IH.
Qed.
Lemma backoffDelay_le base limit a : backoffDelay base limit a <= Z.max limit (Z.max base second).
Proof.
  unfold backoffDelay. destruct (base <=? 0) eqn:E1, (limit <? _) eqn:E2;
    (etrans; [apply backoff_loop_le|]); unfold second in *; zbool.
Qed.

Lemma baseInterval_small : ReconnectInterval <= 9000000000 -> baseInterval = Z.max ReconnectInterval 1 * second.
Proof. intros Hr. unfold baseInterval. apply wrap64_id. unfold is_int64, min_int64, max_int64, second. lia. Qed.

Lemma clampHint_bounds d :
  baseInterval <= clampHint d /\ clampHint d <= Z.max retryServerHintCap baseInterval \/
  retryServerHintCap < baseInterval.
Proof. unfold clampHint. destruct (d <? baseInterval) eqn:E1; [zbool|]. destruct (_ <? d) eqn:E2; zbool. Qed.

Lemma clampHint_le d : clampHint d <= Z.max retryServerHintCap baseInterval.
Proof. unfold clampHint. destruct (d <? baseInterval) eqn:E1; [zbool|]. destruct (_ <? d) eqn:E2; zbool. Qed.

(** Whatever fails and whatever the server answers, a retry loop waits at
    least a second and at most the cap of its kind of failure: 5 minutes, 15
    after a rejected credential, 30 for a server hint (or the configured
    reconnect interval, when that is longer). *)
Theorem next_bounds n now err p :
  0 <= n < rand_max -> ReconnectInterval <= 9000000000 ->
  let cap := match err with
             | None => baseInterval
             | Some e => match retryAfterHint now e with
                         | Some _ => Z.max retryServerHintCap baseInterval
                         | None => if isAuthRejection e then retryAuthMaxDelay else Z.max retryMaxDelay baseInterval
                         end
             end in
  second <= fst (next n now err p) <= cap.
Proof.
  intros Hn Hr cap.
  assert (Hb : second <= baseInterval) by (rewrite baseInterval_small by done; unfold second; lia).
  assert (Hj : forall d c, d <= c -> second <= c -> second <= jitter n d <= c).
  { intros d c Hdc Hc. destruct (jitter_bounds n d Hn) as [H1 H2]. split; [done|].
    destruct (decide (second <= d)) as [Hd|Hd]; [specialize (H2 Hd); lia|].
    unfold jitter in *. destruct (d <=? 0) eqn:Ed; [done|].
    destruct (d - jitter_cut n d <? second) eqn:E; [done|].
    assert (Hcut : 0 <= jitter_cut n d).
    { unfold jitter_cut, rand_max in *. bool_hyps. apply Z.div_pos; [apply Z.mul_nonneg_nonneg; lia|lia]. }
    lia. }
  destruct err as [e|]; simpl; [|apply Hj; unfold cap; lia].
  unfold planned, cap. destruct (retryAfterHint now e) as [h|] eqn:Eh.
  - assert (h <= Z.max retryServerHintCap baseInterval); [|apply Hj; lia].
    unfold retryAfterHint in Eh. destruct e as [|c raw]; [done|]. ok_inv Eh; apply clampHint_le.
  - destruct (isAuthRejection e).
    + apply Hj; [|vm_compute; discriminate]. etrans; [apply backoffDelay_le|]. vm_compute. discriminate.
    + apply Hj; [|lia]. etrans; [apply backoffDelay_le|]. lia.
Qed.

(** The planned delays of a loop that keeps failing in the same way. *)
Fixpoint delays (now : time) (errs : list failure) (p : retryPolicy) : list duration :=
  match errs with
  | [] => []
  | e :: errs => let p := mkRetry (wrap64 (attempt p + 1)) in planned now (attempt p) e :: delays now errs p
  end.

(** Consecutive rejections of the credential escalate as 1, 2, 4, 8 and
    then 15 minutes, and a clean close starts over. *)
Theorem auth_escalation now k c raw (n : Z) p :
  (c = CodeUnauthenticated \/ c = CodePermissionDenied) -> retryAfterHint now (ConnectError c raw) = None ->
  (Z.of_nat k <= max_int64) ->
  delays now (repeat (ConnectError c raw) k) (snd (next n now None p)) =
  map (fun i => Z.min retryAuthMaxDelay (retryAuthMinDelay * 2 ^ Z.of_nat i)) (seq 0 k).
Proof.
  intros Hc Hh Hk. simpl.
  assert (Hgen : forall k i, Z.of_nat (i + k) <= max_int64 -> delays now (repeat (ConnectError c raw) k) (mkRetry (Z.of_nat i)) =
    map (fun i => Z.min retryAuthMaxDelay (retryAuthMinDelay * 2 ^ Z.of_nat i)) (seq i k)).
  { clear k Hk. induction k as [|k IH]; intros i Hi; [done|]. cbn [repeat delays seq map]. f_equal.
    - unfold planned. rewrite Hh. replace (isAuthRejection (ConnectError c raw)) with true by (by destruct Hc as [->| ->]).
      cbn [attempt]. rewrite wrap64_id by (unfold is_int64, min_int64, max_int64 in *; lia).
      rewrite backoffDelay_spec; [|vm_compute; split; [done|discriminate]|vm_compute; discriminate|done|lia].
      by replace (Z.of_nat i + 1 - 1) with (Z.of_nat i) by lia.
    - cbn [attempt]. rewrite wrap64_id by (unfold is_int64, min_int64, max_int64 in *; lia).
      replace (Z.of_nat i + 1) with (Z.of_nat (S i)) by lia. apply IH. lia. }
  apply (Hgen k 0%nat). lia.
Qed.

(** The floor after a rejected credential is not a floor on the wait: the
    jitter is applied after it, so the first retry may come after 48 seconds. *)
Theorem auth_wait_below_floor now c raw p :
  (c = CodeUnauthenticated \/ c = CodePermissionDenied) -> retryAfterHint now (ConnectError c raw) = None ->
  attempt p = 0 ->
  exists n, 0 <= n < rand_max /\ 48 * second <= fst (next n now (Some (ConnectError c raw)) p) < retryAuthMinDelay /\
    fst (next n now (Some (ConnectError c raw)) p) <= 48 * second + 1.
Proof.
  intros Hc Hh Hp. exists (rand_max - 1). split; [vm_compute; split; [discriminate|done]|].
  unfold next, planned. rewrite Hh. replace (isAuthRejection _) with true by (by destruct Hc as [->| ->]).
  cbn [fst attempt]. rewrite Hp. vm_compute. repeat split; discriminate.
Qed.

(** A delay in seconds large enough to overflow [int64] is taken for a hint
    below the floor. *)
Lemma retry_after_overflow now :
  ReconnectInterval = 5 ->
  retryAfterHint now (ConnectError CodeResourceExhausted "9223372037") = Some (5 * second).
Proof.
  intros Hr. unfold retryAfterHint, clampHint, baseInterval. rewrite Hr. vm_compute. done.
Qed.
End Config.

(** A server hint is not bounded by [retryServerHintCap] when the operator
    configured a longer reconnect interval. *)
Theorem clampHint_exceeds_cap ri d :
  1800 < ri <= 9000000000 -> d < baseInterval ri ->
  clampHint ri d = ri * second /\ retryServerHintCap < clampHint ri d.
Proof.
  intros Hri Hd. unfold clampHint. rewrite (proj2 (Z.ltb_lt _ _) Hd), baseInterval_small by lia.
  unfold retryServerHintCap, minute, second. lia.
Qed.

(** ** Witnesses *)

Lemma backoffDelay_spec_witness : backoffDelay (5 * second) retryMaxDelay 4 = 40 * second.
Proof.
  exact (backoffDelay_spec (5 * second) retryMaxDelay 4 ltac:(vm_compute; split; [done|discriminate])
    ltac:(vm_compute; discriminate) eq_refl ltac:(lia)).
Defined.
Lemma next_bounds_witness :
  second <= fst (next 5 (fun _ => None) 1000 0 (Some Transport) (mkRetry 7)) <= 300 * second.
Proof.
  exact (next_bounds 5 (fun _ => None) 1000 0 (Some Transport) (mkRetry 7) ltac:(vm_compute; split; [discriminate|done]) ltac:(lia)).
Defined.
Lemma auth_escalation_witness :
  delays 5 (fun _ => None) 0 (repeat (ConnectError CodeUnauthenticated "") 6) (mkRetry 0) =
  map (fun m => m * minute) [1; 2; 4; 8; 15; 15].
Proof.
  exact (auth_escalation 5 (fun _ => None) 0 6 CodeUnauthenticated "" 0 (mkRetry 9) (or_introl eq_refl) eq_refl
    ltac:(vm_compute; discriminate)).
Defined.
Lemma auth_wait_below_floor_witness :
  exists n, 0 <= n < rand_max /\
    fst (next 5 (fun _ => None) n 0 (Some (ConnectError CodePermissionDenied "")) (mkRetry 0)) < 60 * second.
Proof.
  destruct (auth_wait_below_floor 5 (fun _ => None) 0 CodePermissionDenied "" (mkRetry 0) (or_intror eq_refl) eq_refl eq_refl)
    as (n & Hn & [_ H] & _).
  exists n. split; [exact Hn|exact H].
Defined.
Lemma clampHint_exceeds_cap_witness : clampHint 3600 (60 * second) = 3600 * second.
Proof.
  exact (proj1 (clampHint_exceeds_cap 3600 (60 * second) ltac:(lia) ltac:(vm_compute; done))).
Defined.
