(* ===== verification/Enrollment.v ===== *)
(** * Enrollment and credential rotation ([core/enrollment])

    The device-code grant, its polling loop, and the versioned refresh whose
    response must be signed by pinned panel keys and bound to one request. What
    the server answers is an argument of each operation. *)

From S2P Require Import Prelude.
From S2P Require Import GoStd.
From S2P Require Import Disk.
From S2P Require Import External.
From S2P Require Import Credentials.

Local Open Scope string_scope.
Local Open Scope Z_scope.

Definition minimumPollInterval : duration := 2 * second.
Definition defaultPollInterval : duration := 5 * second.
Definition maximumPollInterval : duration := 30 * second.

Definition boundInterval (value : duration) : duration :=
  if value <=? 0 then defaultPollInterval
  else if value <? minimumPollInterval then minimumPollInterval
  else if maximumPollInterval <? value then maximumPollInterval
  else value.

(** ** The server's answers *)

Record BeginResponse := mkBegin {
  be_VerificationUri : string;
  be_VerificationUriComplete : string;
  be_UserCode : string;
  be_DeviceCode : string;
  be_ExpiresAt : option Timestamp;
  be_PollInterval : option Duration;
}.
Inductive EnrollmentState :=
| STATE_PENDING | STATE_SLOW_DOWN | STATE_APPROVED | STATE_DENIED | STATE_EXPIRED | STATE_OTHER.
Record PollResponse := mkPoll {
  poll_state : EnrollmentState;
  poll_interval : option Duration;
  poll_credentials : option AgentCredentials;
  poll_error : option string;
}.
(** One turn of the loop: the context ended, the call failed, or an answer. *)
Inductive poll_event := Cancelled | CallFailed | Answered (r : PollResponse).

Record TrustKey := mkTrustKey {
  tk_algorithm : Z; tk_value : bytes; tk_key_id : string;
  tk_not_before : option Timestamp; tk_not_after : option Timestamp }.
Record TrustBundle := mkBundle {
  tb_keys : list TrustKey;
  tb_algorithms : list Z;
  tb_require_all : bool;
  tb_minimum : Z;
}.

Record Prompt := mkPrompt {
  pm_VerificationURI : string;
  pm_VerificationURIComplete : string;
  pm_UserCode : string;
  pm_ExpiresAt : time;
}.

Inductive enroll_err :=
| KeyGeneration | BadStoredKey | KeypairMismatch | BeginFailed | NoDeviceCode
| ContextDone | PollFailed | ApprovedWithoutCredentials | Denied | RequestExpired
| ServerError (message : string) | UnknownState
| NoAgentID | OtherMachine
| NoRefreshToken | NoPending | NoTrust | BadRequestID | ProofEncode | RefreshCall
| MissingSignature | NoSupportedAlgorithm | RequiresEvery | Insufficient | Unbound
| EndpointRequired | EndpointInvalid | EndpointScheme | EndpointHost.

Section Enroll.
Context `{Crypto} `{ProtoTime} `{ProtoDuration}.

(** [AsDuration] of an absent value is zero. *)
Definition as_duration (d : option Duration) : duration :=
  match d with Some d => du_value d | None => 0 end.
Definition timeOrZero (t : option Timestamp) : time :=
  if is_nil t || negb (is_valid t) then zero_time else as_time t.

Definition instruction (b : BeginResponse) : Prompt :=
  mkPrompt (be_VerificationUri b) (be_VerificationUriComplete b) (be_UserCode b)
    (if is_valid (be_ExpiresAt b) then as_time (be_ExpiresAt b) else zero_time).

Definition approved_identity (endpoint publicKey privateKey keyID : string) (now : time) (issued : AgentCredentials) : Identity :=
  mkIdentity endpoint (ac_agent_id issued) privateKey publicKey keyID None None
    (ac_access_token issued) (timeOrZero (ac_access_expires issued))
    (ac_refresh_token issued) (timeOrZero (ac_refresh_expires issued)) (ac_scopes issued)
    [] [] false 0 now zero_time.

(** The polling loop over what happens, turn by turn: the outcome, if one was
    reached, and the waits so far. *)
Fixpoint poll_loop (accept : AgentCredentials -> Identity) (interval : duration) (events : list poll_event)
    : option (result Identity enroll_err) * list duration :=
  match events with
  | [] => (None, [])
  | ev :: events =>
      let '(out, waits) :=
        match ev with
        | Cancelled => (Some (Err ContextDone), [])
        | CallFailed => (Some (Err PollFailed), [])
        | Answered r =>
            let next := as_duration (poll_interval r) in
            let interval := if 0 <? next then boundInterval next else interval in
            match poll_state r with
            | STATE_PENDING => poll_loop accept interval events
            | STATE_SLOW_DOWN => poll_loop accept (boundInterval (wrap64 (interval * 2))) events
            | STATE_APPROVED =>
                (Some match poll_credentials r with
                      | None => Err ApprovedWithoutCredentials
                      | Some issued => Ok (accept issued)
                      end, [])
            | STATE_DENIED => (Some (Err Denied), [])
            | STATE_EXPIRED => (Some (Err RequestExpired), [])
            | STATE_OTHER =>
                (Some (Err match poll_error r with Some m => ServerError m | None => UnknownState end), [])
            end
        end in
      (out, interval :: waits)
  end.

(** [credentials.GenerateKeypair] from the random key it draws. *)
Variable raw_url_b64 : bytes -> string.     (* base64.RawURLEncoding *)
Definition GenerateKeypair (drawn : option (bytes * bytes)) : result (string * string * string) enroll_err :=
  match drawn with
  | None => Err KeyGeneration
  | Some (public, private) =>
      Ok (b64_encode public, b64_encode private, raw_url_b64 (of_chars (take 16 (chars (sha256 public)))))
  end.

(** The keypair the request offers: a new one, or the enrolled one. *)
Definition offered_keypair (drawn : option (bytes * bytes)) (existing : option Identity)
    : result (string * string * string) enroll_err :=
  try? fresh := GenerateKeypair drawn in
  match existing with
  | None => Ok fresh
  | Some i =>
      match SigningKey i with
      | Err _ => Err BadStoredKey
      | Ok private =>
          match b64_decode (id_PublicKey i) with
          | Some expected =>
              if (ed25519_public private =? expected)%string
              then Ok (id_PublicKey i, id_PrivateKey i, id_KeyID i) else Err KeypairMismatch
          | None => Err KeypairMismatch
          end
      end
  end.

(** [enroll]: [None] while the grant is still pending. *)
Definition enroll (endpoint : string) (drawn : option (bytes * bytes)) (existing : option Identity)
    (begin : option BeginResponse) (events : list poll_event) (now : time)
    : option (result Identity enroll_err) * list duration :=
  match offered_keypair drawn existing with
  | Err e => (Some (Err e), [])
  | Ok (publicKey, privateKey, keyID) =>
      match b64_decode publicKey with
      | None => (Some (Err KeyGeneration), [])
      | Some _ =>
          match begin with
          | None => (Some (Err BeginFailed), [])
          | Some b =>
              if blank (be_DeviceCode b) then (Some (Err NoDeviceCode), []) else
              poll_loop (approved_identity endpoint publicKey privateKey keyID now)
                (boundInterval (as_duration (be_PollInterval b))) events
          end
      end
  end.

Definition with_trust (keys : list PinnedKey) (algorithms : list Z) (all : bool) (minimum : Z) (i : Identity) : Identity :=
  mkIdentity (id_Endpoint i) (id_AgentID i) (id_PrivateKey i) (id_PublicKey i) (id_KeyID i) (id_Generation i)
    (id_PendingRefresh i) (id_AccessToken i) (id_AccessTokenExpiresAt i) (id_RefreshToken i)
    (id_RefreshTokenExpiresAt i) (id_Scopes i) keys algorithms all minimum (id_EnrolledAt i) (id_UpdatedAt i).

(** [Reauth]: enroll again with the stored keypair, for the same machine. *)
Definition Reauth (endpoint : string) (drawn : option (bytes * bytes)) (i : Identity)
    (begin : option BeginResponse) (events : list poll_event) (now : time) : option (result Identity enroll_err) :=
  if (id_AgentID i =? "")%string then Some (Err NoAgentID) else
  match fst (enroll endpoint drawn (Some i) begin events now) with
  | None => None
  | Some (Err e) => Some (Err e)
  | Some (Ok next) =>
      if negb (id_AgentID next =? id_AgentID i)%string then Some (Err OtherMachine) else
      Some (Ok (with_trust (id_ControlPlaneKeys i) (id_PolicyAlgorithms i) (id_PolicyRequireAll i)
                  (id_PolicyMinimumSignatures i) next))
  end.

Definition pin (k : TrustKey) : PinnedKey :=
  mkPinnedKey (tk_algorithm k) (b64_encode (tk_value k)) (tk_key_id k) (timeOrZero (tk_not_before k))
    (if is_valid (tk_not_after k) then Some (as_time (tk_not_after k)) else None).
Definition FetchTrustBundle (response : option TrustBundle) : option (list PinnedKey * list Z * bool * Z) :=
  (fun b => (map pin (tb_keys b), tb_algorithms b, tb_require_all b, tb_minimum b)) <$> response.

(** ** The versioned refresh *)

Record refreshV2Request := mkRefreshRequest {
  rq_Protocol : Z; rq_AgentID : string; rq_RefreshToken : string; rq_RequestID : string;
  rq_Generation : option Z; rq_Timestamp : string; rq_Nonce : string }.
Record refreshV2Response := mkRefreshResponse {
  rp_Protocol : Z; rp_AgentID : string; rp_RequestID : string; rp_Generation : Z; rp_CredentialsSHA256 : string }.

Context `{Json refreshV2Request} `{StrictJson refreshV2Response} `{Wire AgentCredentials}.
(** [uuid.Parse] succeeds. *)
Variable uuid_ok : string -> bool.

(** [timestamp] and [nonce] are the clock in RFC 3339 and a new UUID. *)
Definition signRefreshV2 (timestamp nonce : string) (i : Identity) : result SignedEnvelope enroll_err :=
  match id_PendingRefresh i with
  | None => Err NoPending
  | Some p =>
      guard? uuid_ok (RequestID p) else BadRequestID in
      match SigningKey i with
      | Err _ => Err BadStoredKey
      | Ok key =>
          match json_marshal (mkRefreshRequest 2 (id_AgentID i) (id_RefreshToken i) (RequestID p)
                                (id_Generation i) timestamp nonce) with
          | None => Err ProofEncode
          | Some payload =>
              Ok (mkEnvelope payload
                    [mkSignature SIGNATURE_ALGORITHM_ED25519 (id_KeyID i) (ed25519_sign key payload)])
          end
      end
  end.

(** A pin that may verify [sig], and does. *)
Definition pin_verifies (now : time) (payload : bytes) (sig : Signature) (p : PinnedKey) : bool :=
  negb (negb (pk_Algorithm p =? 1) ||
        (negb (pk_KeyID p =? "")%string && negb (sig_key_id sig =? pk_KeyID p)%string) ||
        before now (pk_NotBefore p) ||
        match pk_NotAfter p with Some t => negb (before now t) | None => false end) &&
  match b64_decode (pk_Value p) with
  | Some raw => (slen raw =? PublicKeySize) && ed25519_verify raw payload (sig_value sig)
  | None => false
  end.
Definition verifying_pin (now : time) (payload : bytes) (keys : list PinnedKey) (sig : Signature) : option PinnedKey :=
  if sig_algorithm sig =? SIGNATURE_ALGORITHM_ED25519
  then List.find (pin_verifies now payload sig) keys else None.
(** The loop over the signatures: the set of pinned values that verified one. *)
Fixpoint verify_pins (all : bool) (now : time) (payload : bytes) (keys : list PinnedKey)
    (sigs : list Signature) (verified : gset string) : result (gset string) enroll_err :=
  match sigs with
  | [] => Ok verified
  | sig :: sigs =>
      match verifying_pin now payload keys sig with
      | Some p => verify_pins all now payload keys sigs ({[pk_Value p]} ∪ verified)
      | None => if all then Err RequiresEvery else verify_pins all now payload keys sigs verified
      end
  end.
Definition verifyPinnedEnvelope (now : time) (envelope : option SignedEnvelope) (i : Identity) : result unit enroll_err :=
  match envelope with
  | None => Err MissingSignature
  | Some e =>
      guard? negb (bool_decide (env_signatures e = [])) else MissingSignature in
      guard? bool_decide (id_PolicyAlgorithms i = []) || bool_decide (1 ∈ id_PolicyAlgorithms i)
        else NoSupportedAlgorithm in
      try? verified := verify_pins (id_PolicyRequireAll i) now (env_payload e) (id_ControlPlaneKeys i) (env_signatures e) ∅ in
      guard? negb (Z.of_nat (size verified) <? Z.max 1 (id_PolicyMinimumSignatures i)) else Insufficient in
      Ok tt
  end.

Definition generation_step (current : option Z) (proposed : Z) : bool :=
  match current with
  | None => true
  | Some g => negb (g =? max_uint64) && (proposed =? wrapu64 (g + 1))
  end.
Definition expires_later (now : time) (t : option Timestamp) : bool :=
  match t with Some t => ts_check t && before now (ts_time t) | None => false end.

(** [t0] is the clock of the signature check, [t1] and [t2] those of the two
    expiry checks. *)
Definition verifyRefreshV2Response (t0 t1 t2 : time) (envelope : option SignedEnvelope) (i : Identity)
    (issued : option AgentCredentials) : result Z enroll_err :=
  match envelope, issued, id_PendingRefresh i with
  | Some e, Some c, Some p =>
      guard? slen (env_payload e) <=? 4096 else Unbound in
      try? _ := verifyPinnedEnvelope t0 envelope i in
      match decode_strict (env_payload e) with
      | None => Err Unbound
      | Some (proof, rest) =>
          guard? at_eof rest else Unbound in
          guard? (rp_Protocol proof =? 2) && (rp_AgentID proof =? id_AgentID i)%string &&
            (ac_agent_id c =? id_AgentID i)%string && (rp_RequestID proof =? RequestID p)%string &&
            negb (rp_Generation proof =? 0) else Unbound in
          guard? generation_step (id_Generation i) (rp_Generation proof) else Unbound in
          match wire_marshal c with
          | None => Err Unbound
          | Some raw =>
              guard? (rp_CredentialsSHA256 proof =? hex_encode (sha256 raw))%string &&
                negb (ac_access_token c =? "")%string && negb (ac_refresh_token c =? "")%string &&
                negb (ac_access_token c =? id_AccessToken i)%string &&
                negb (ac_refresh_token c =? id_RefreshToken i)%string else Unbound in
              guard? expires_later t1 (ac_access_expires c) && expires_later t2 (ac_refresh_expires c) else Unbound in
              Ok (rp_Generation proof)
          end
      end
  | _, _, _ => Err Unbound
  end.

Definition refreshed (generation : Z) (issued : AgentCredentials) (i : Identity) : Identity :=
  let rotated := negb (ac_refresh_token issued =? "")%string in
  mkIdentity (id_Endpoint i) (if (ac_agent_id issued =? "")%string then id_AgentID i else ac_agent_id issued)
    (id_PrivateKey i) (id_PublicKey i) (id_KeyID i) (Some generation) (id_PendingRefresh i)
    (ac_access_token issued) (timeOrZero (ac_access_expires issued))
    (if rotated then ac_refresh_token issued else id_RefreshToken i)
    (if rotated then timeOrZero (ac_refresh_expires issued) else id_RefreshTokenExpiresAt i)
    (ac_scopes issued) (id_ControlPlaneKeys i) (id_PolicyAlgorithms i) (id_PolicyRequireAll i)
    (id_PolicyMinimumSignatures i) (id_EnrolledAt i) (id_UpdatedAt i).

(** [Refresh]: [call] answers the refresh request that carries the proof. *)
Definition Refresh (t0 t1 t2 : time) (timestamp nonce : string) (bundle : option TrustBundle)
    (call : string -> SignedEnvelope -> option (option SignedEnvelope * option AgentCredentials))
    (i : Identity) : result Identity enroll_err :=
  if blank (id_RefreshToken i) then Err NoRefreshToken else
  match id_PendingRefresh i with
  | None => Err NoPending
  | Some _ =>
      try? i :=
        match id_ControlPlaneKeys i with
        | _ :: _ => Ok i
        | [] =>
            match FetchTrustBundle bundle with
            | Some (_ :: _ as keys, algorithms, all, minimum) => Ok (with_trust keys algorithms all minimum i)
            | _ => Err NoTrust
            end
        end in
      try? proof := signRefreshV2 timestamp nonce i in
      match call (id_RefreshToken i) proof with
      | None => Err RefreshCall
      | Some (signed, issued) =>
          try? generation := verifyRefreshV2Response t0 t1 t2 signed i issued in
          match issued with
          | Some c => Ok (refreshed generation c i)
          | None => Err Unbound
          end
      end
  end.
End Enroll.

(** ** Theorems *)

Section Pins.
Context `{CR : Crypto}.

(** What the pins verified: each a pin that verifies some signature. *)
Lemma verify_pins_ok all now payload keys sigs acc out :
  verify_pins all now payload keys sigs acc = Ok out ->
  acc ⊆ out /\
  (forall v, v ∈ out -> v ∈ acc \/ exists sig p, sig ∈ sigs /\ p ∈ keys /\ pk_Value p = v /\
     sig_algorithm sig = SIGNATURE_ALGORITHM_ED25519 /\ pin_verifies now payload sig p = true) /\
  (all = true -> forall sig, sig ∈ sigs -> verifying_pin now payload keys sig <> None).
Proof.
  revert acc. induction sigs as [|sig sigs IH]; intros acc; simpl.
  { intros [= <-]. split_and!; [done|auto|]. intros _ sig H. by apply not_elem_of_nil in H. }
  destruct (verifying_pin now payload keys sig) as [p|] eqn:Ep.
  - intros (H1 & H2 & H3)%IH. split_and!; [set_solver| |].
    + intros v [Hv|(s & q & Hs & ?)]%H2; [|right; exists s, q; split; [by right|done]].
      apply elem_of_union in Hv as [->%elem_of_singleton|Hv]; [|by left]. right.
      unfold verifying_pin in Ep. destruct (sig_algorithm sig =? _) eqn:Ea; [|done].
      apply List.find_some in Ep as [Hin Hp]. exists sig, p. apply list_elem_of_In in Hin. apply Z.eqb_eq in Ea.
      split_and!; [by left|done..].
    + intros Hall s [->|Hs]%elem_of_cons; [congruence|by apply H3].
  - destruct all; [done|]. intros (H1 & H2 & H3)%IH. split_and!; [done| |done].
    intros v [Hv|(s & q & Hs & ?)]%H2; [by left|right; exists s, q; split; [by right|done]].
Qed.

(** The refresh response threshold counts distinct keys: an accepted
    envelope was signed by at least [max 1 PolicyMinimumSignatures] different
    pinned key values, each valid at that time, and under a require-all policy
    every signature verified. *)
Theorem verifyPinnedEnvelope_threshold now e i :
  verifyPinnedEnvelope now (Some e) i = Ok tt ->
  exists values : list string,
    NoDup values /\ Z.max 1 (id_PolicyMinimumSignatures i) <= Z.of_nat (length values) /\
    Forall (fun v => exists sig p, sig ∈ env_signatures e /\ p ∈ id_ControlPlaneKeys i /\ pk_Value p = v /\
      sig_algorithm sig = SIGNATURE_ALGORITHM_ED25519 /\ pin_verifies now (env_payload e) sig p = true) values /\
    (id_PolicyRequireAll i = true -> forall sig, sig ∈ env_signatures e ->
       verifying_pin now (env_payload e) (id_ControlPlaneKeys i) sig <> None).
Proof.
  unfold verifyPinnedEnvelope. destruct (negb _); [|done]. destruct (_ || _); [|done].
  destruct (verify_pins _ _ _ _ _ _) as [out|] eqn:Ev; [|done].
  destruct (negb _) eqn:Em; [|done]. intros _. apply verify_pins_ok in Ev as (_ & H2 & H3).
  exists (elements out). split_and!; [apply NoDup_elements| | |done].
  - zbool. unfold size, set_size in *. simpl in *. lia.
  - apply Forall_forall. intros v Hv%elem_of_elements. destruct (H2 v Hv) as [Hx|Hx]; [set_solver|exact Hx].
Qed.
End Pins.

Section Theorems.
Context `{CR : Crypto} `{PT : ProtoTime} `{PD : ProtoDuration}.
Context `{JR : Json refreshV2Request} `{SR : StrictJson refreshV2Response} `{WC : Wire AgentCredentials}.
Context `{JI : Json Identity}.
Variable raw_url_b64 : bytes -> string.
Variable uuid_ok : string -> bool.

Lemma boundInterval_range v : minimumPollInterval <= boundInterval v <= maximumPollInterval.
Proof.
  unfold boundInterval, minimumPollInterval, maximumPollInterval, defaultPollInterval, second.
  repeat case_match; zbool.
Qed.

(** A turn that ends the loop. *)
Definition terminal (ev : poll_event) : bool :=
  match ev with
  | Answered r => match poll_state r with STATE_PENDING | STATE_SLOW_DOWN => false | _ => true end
  | _ => true
  end.

Lemma poll_loop_spec accept interval events :
  minimumPollInterval <= interval <= maximumPollInterval ->
  Forall (fun d => minimumPollInterval <= d <= maximumPollInterval) (snd (poll_loop accept interval events)) /\
  (fst (poll_loop accept interval events) = None <-> Forall (fun ev => terminal ev = false) events) /\
  (length (snd (poll_loop accept interval events)) <= length events)%nat.
Proof.
  revert interval. induction events as [|ev events IH]; intros interval Hi; simpl.
  { split_and!; [constructor|by split|lia]. }
  assert (Hend : forall out : result Identity enroll_err, terminal ev = true ->
    Forall (fun d => minimumPollInterval <= d <= maximumPollInterval) [interval] /\
    (Some out = None <-> Forall (fun ev => terminal ev = false) (ev :: events)) /\
    (length [interval] <= S (length events))%nat).
  { intros out Ht. split_and!; [by constructor| |simpl; lia]. split; [done|]. intros [Hf _]%Forall_cons. congruence. }
  assert (Hgo : forall i, minimumPollInterval <= i <= maximumPollInterval -> terminal ev = false ->
    let '(out, waits) := poll_loop accept i events in
    Forall (fun d => minimumPollInterval <= d <= maximumPollInterval) (interval :: waits) /\
    (out = None <-> Forall (fun ev => terminal ev = false) (ev :: events)) /\
    (length (interval :: waits) <= S (length events))%nat).
  { intros i Hb Ht. specialize (IH i Hb). destruct (poll_loop accept i events) as [out waits]. simpl in *.
    destruct IH as (H1 & H2 & H3). split_and!; [by constructor| |lia]. rewrite Forall_cons, H2. tauto. }
  destruct ev as [| |r]; [by apply Hend|by apply Hend|]. simpl.
  set (next := if 0 <? _ then _ else interval).
  assert (Hn : minimumPollInterval <= next <= maximumPollInterval)
    by (unfold next; destruct (0 <? _); [apply boundInterval_range|done]).
  destruct (poll_state r) eqn:Es; try (apply Hend; simpl; by rewrite Es).
  - specialize (Hgo next Hn ltac:(simpl; by rewrite Es)). by destruct (poll_loop accept next events).
  - specialize (Hgo _ (boundInterval_range (wrap64 (next * 2))) ltac:(simpl; by rewrite Es)).
    by destruct (poll_loop accept _ events).
Qed.

(** Enrollment never polls faster than every 2 seconds nor slower than
    every 30, whatever interval the server asks for; it ends at the first
    answer that is not "pending" or "slow down", and only then. *)
Theorem enroll_polling endpoint drawn existing b events now :
  let r := enroll raw_url_b64 endpoint drawn existing (Some b) events now in
  Forall (fun d => minimumPollInterval <= d <= maximumPollInterval) (snd r) /\
  (is_ok (offered_keypair raw_url_b64 drawn existing) = true -> blank (be_DeviceCode b) = false ->
   (fst r = None -> Forall (fun ev => terminal ev = false) events) /\
   (length (snd r) <= length events)%nat).
Proof.
  unfold enroll. destruct (offered_keypair _ _ _) as [[[pub priv] kid]|e]; simpl; [|done].
  destruct (b64_decode pub); [|by split; [constructor|split; [done|simpl; lia]]].
  destruct (blank _); [by split|].
  destruct (poll_loop_spec (approved_identity endpoint pub priv kid now) (boundInterval (as_duration (be_PollInterval b))) events
    (boundInterval_range _)) as (H1 & H2 & H3).
  split; [done|]. intros _ _. split; [apply H2|done].
Qed.

(** Re-authentication keeps the machine: the identity it returns has the
    agent ID, the keypair, the pinned trust and the policy of the stored one. *)
Theorem Reauth_keeps_machine endpoint drawn i b events now next :
  Reauth raw_url_b64 endpoint drawn i (Some b) events now = Some (Ok next) ->
  id_AgentID next = id_AgentID i /\ id_PrivateKey next = id_PrivateKey i /\ id_PublicKey next = id_PublicKey i /\
  id_KeyID next = id_KeyID i /\ id_ControlPlaneKeys next = id_ControlPlaneKeys i /\
  id_PolicyAlgorithms next = id_PolicyAlgorithms i /\ id_PolicyRequireAll next = id_PolicyRequireAll i /\
  id_PolicyMinimumSignatures next = id_PolicyMinimumSignatures i.
Proof.
  unfold Reauth. destruct (id_AgentID i =? "")%string; [done|].
  destruct (fst (enroll _ _ _ _ _ _ _)) as [[got|e]|] eqn:Ee; [|done|done].
  destruct (negb _) eqn:Ea; [done|]. intros [= <-]. simpl. bool_hyps.
  unfold enroll in Ee. destruct (offered_keypair _ _ _) as [[[pub priv] kid]|e] eqn:Ek; [|done].
  assert (Hkey : pub = id_PublicKey i /\ priv = id_PrivateKey i /\ kid = id_KeyID i).
  { unfold offered_keypair in Ek. ok_inv Ek; done. }
  destruct Hkey as (-> & -> & ->). destruct (b64_decode (id_PublicKey i)); [|done].
  destruct (blank _); [done|].
  assert (Hacc : forall interval evs, fst (poll_loop (approved_identity endpoint (id_PublicKey i) (id_PrivateKey i) (id_KeyID i) now) interval evs)
    = Some (Ok got) -> exists issued, got = approved_identity endpoint (id_PublicKey i) (id_PrivateKey i) (id_KeyID i) now issued).
  { intros interval evs. revert interval. induction evs as [|[| |r] evs IH]; intros interval; simpl; try done.
    destruct (poll_state r); simpl; try done.
    - specialize (IH (if 0 <? as_duration (poll_interval r) then boundInterval (as_duration (poll_interval r)) else interval)).
      by destruct (poll_loop _ _ evs).
    - match goal with |- context [poll_loop ?a ?x evs] => specialize (IH x) end. by destruct (poll_loop _ _ evs).
    - destruct (poll_credentials r) as [issued|]; [|done]. intros [= <-]. by exists issued. }
  apply Hacc in Ee as [issued ->]. done.
Qed.

Lemma verifyRefreshV2Response_ok t0 t1 t2 envelope i issued g :
  verifyRefreshV2Response t0 t1 t2 envelope i issued = Ok g ->
  exists e c p proof rest raw,
    envelope = Some e /\ issued = Some c /\ id_PendingRefresh i = Some p /\
    verifyPinnedEnvelope t0 envelope i = Ok tt /\
    decode_strict (env_payload e) = Some (proof, rest) /\ rp_Generation proof = g /\ g <> 0 /\
    rp_AgentID proof = id_AgentID i /\ ac_agent_id c = id_AgentID i /\ rp_RequestID proof = RequestID p /\
    generation_step (id_Generation i) g = true /\
    wire_marshal c = Some raw /\ rp_CredentialsSHA256 proof = hex_encode (sha256 raw) /\
    ac_access_token c <> "" /\ ac_refresh_token c <> "" /\
    ac_access_token c <> id_AccessToken i /\ ac_refresh_token c <> id_RefreshToken i /\
    expires_later t1 (ac_access_expires c) = true /\ expires_later t2 (ac_refresh_expires c) = true.
Proof.
  unfold verifyRefreshV2Response. destruct envelope as [e|], issued as [c|], (id_PendingRefresh i) as [p|]; try done.
  intros Hv. ok_inv Hv. repeat match goal with u : unit |- _ => destruct u end. do 6 eexists. bool_hyps. split_and!; done.
Qed.

(** A refresh response is accepted for one request only: the same signed
    response cannot answer another request identifier, and it carries exactly
    one set of credentials (up to the digest). *)
Theorem refresh_response_bound t0 t1 t2 t0' t1' t2' e i i' c c' g g' :
  verifyRefreshV2Response t0 t1 t2 (Some e) i (Some c) = Ok g ->
  verifyRefreshV2Response t0' t1' t2' (Some e) i' (Some c') = Ok g' ->
  g = g' /\ id_AgentID i = id_AgentID i' /\
  RequestID <$> id_PendingRefresh i = RequestID <$> id_PendingRefresh i' /\
  exists raw raw', wire_marshal c = Some raw /\ wire_marshal c' = Some raw' /\ sha256 raw = sha256 raw'.
Proof.
  intros (e1 & c1 & p1 & pr1 & r1 & raw1 & [= <-] & [= <-] & Hp1 & _ & Hd1 & Hg1 & _ & Ha1 & _ & Hr1 & _ & Hw1 & Hs1 & _)%verifyRefreshV2Response_ok.
  intros (e2 & c2 & p2 & pr2 & r2 & raw2 & [= <-] & [= <-] & Hp2 & _ & Hd2 & Hg2 & _ & Ha2 & _ & Hr2 & _ & Hw2 & Hs2 & _)%verifyRefreshV2Response_ok.
  assert (pr1 = pr2) as -> by congruence. rewrite Hp1, Hp2. simpl. split_and!; [congruence|congruence|congruence|].
  exists raw1, raw2. split_and!; [done|done|]. apply hex_encode_inj. congruence.
Qed.

(** A refresh that succeeds advances the generation by one without
    wrapping, rotates both tokens and changes neither keypair nor pinned
    trust; and the credential store accepts it: committing it against the
    identity it was started from fails, if at all, only in the write. *)
Theorem Refresh_commits t0 t1 t2 ts nonce bundle call i next s w now :
  Refresh uuid_ok t0 t1 t2 ts nonce bundle call i = Ok next ->
  st_identity s = Some i ->
  (exists g, id_Generation next = Some g /\ (forall b, id_Generation i = Some b -> 0 <= b <= max_uint64 -> g = b + 1)) /\
  id_PrivateKey next = id_PrivateKey i /\ id_PublicKey next = id_PublicKey i /\ id_AgentID next = id_AgentID i /\
  (id_ControlPlaneKeys i <> [] -> id_ControlPlaneKeys next = id_ControlPlaneKeys i) /\
  id_AccessToken next <> id_AccessToken i /\ id_RefreshToken next <> id_RefreshToken i /\
  match CommitRefresh now i next s w with
  | (Ok _, s', _) => st_identity s' = Some (with_stamps (id_EnrolledAt i) now (with_pending None next))
  | (Err e, s', _) => s' = s /\ exists ioe, e = CredIO ioe
  end.
Proof.
  unfold Refresh. destruct (blank (id_RefreshToken i)); [done|].
  destruct (id_PendingRefresh i) as [p|] eqn:Ep; [|done].
  set (trust := match id_ControlPlaneKeys i with [] => _ | _ :: _ => _ end).
  assert (Htrust : forall j, trust = Ok j -> id_PendingRefresh j = Some p /\ id_RefreshToken j = id_RefreshToken i /\
    id_AccessToken j = id_AccessToken i /\ id_Generation j = id_Generation i /\ id_AgentID j = id_AgentID i /\
    id_PrivateKey j = id_PrivateKey i /\ id_PublicKey j = id_PublicKey i /\
    (id_ControlPlaneKeys i <> [] -> id_ControlPlaneKeys j = id_ControlPlaneKeys i)).
  { intros j. unfold trust. destruct (id_ControlPlaneKeys i) as [|k ks] eqn:Ek; [|by intros [= <-]].
    destruct (FetchTrustBundle bundle) as [[[[[|k ks] algs] all] m]|]; try done.
    intros [= <-]. simpl. split_and!; try done. }
  destruct trust as [j|]; [|done]. destruct (Htrust j eq_refl) as (J1 & J2 & J3 & J4 & J5 & J6 & J7 & J8).
  destruct (signRefreshV2 _ _ _ j) as [proof|]; [|done].
  destruct (call (id_RefreshToken j) proof) as [[signed issued]|]; [|done].
  destruct (verifyRefreshV2Response t0 t1 t2 signed j issued) as [g|] eqn:Ev; [|done].
  apply verifyRefreshV2Response_ok in Ev as (e & c & p' & pr & rest & raw & -> & -> & Hp' & _ & _ & _ & Hg0 & _ & Hag & _ & Hgen & _ & _ & Hat & Hrt & Hna & Hnr & _).
  intros [= <-] Hs. rewrite J1 in Hp'. injection Hp' as <-.
  assert (Hag2 : id_AgentID (refreshed g c j) = id_AgentID i).
  { simpl. destruct (ac_agent_id c =? "")%string; congruence. }
  assert (Hrt2 : id_RefreshToken (refreshed g c j) = ac_refresh_token c).
  { simpl. by rewrite (proj2 (String.eqb_neq _ _) Hrt). }
  unfold generation_step in Hgen. rewrite J4 in Hgen.
  assert (Hcommit : commit_matches i i (refreshed g c j) = true /\ generation_follows i (refreshed g c j) = true).
  { unfold commit_matches, generation_follows. rewrite Ep. rewrite !String.eqb_refl, Hag2, String.eqb_refl. simpl.
    split; [done|]. destruct (id_Generation i) as [b|]; [|done]. by bool_hyps. }
  split_and!; try done.
  - exists g. split; [done|]. intros b Hb Hr. rewrite Hb in Hgen. bool_hyps.
    apply wrapu64_id. unfold is_uint64. lia.
  - simpl. congruence.
  - congruence.
  - unfold CommitRefresh. rewrite Hs. destruct Hcommit as [-> ->]. simpl. unfold commit_identity.
    destruct (persist _ _ w) as [[[]|er] w1]; simpl; [done|]. split; [done|]. by eexists.
Qed.
End Theorems.

(** ** Witnesses

    A panel key that signs by prefixing the payload, and an identity with
    request ["req"] in flight at generation 4. *)

Definition ewit_crypto : Crypto :=
  {| sha256 := fun s => s; ed25519_verify := fun k p s => (s =? k ++ p)%string;
     ed25519_sign := fun k p => p; ed25519_public := fun k => "pub" |}.
Definition ewit_time : ProtoTime := {| ts_check := fun _ => true; ts_time := fun t => ts_seconds t * second |}.
Definition ewit_dur : ProtoDuration := {| du_check := fun _ => true; du_value := fun d => du_seconds d * second |}.
Definition ewit_panel : bytes := "0123456789abcdef0123456789abcdef".
Definition ewit_pin : PinnedKey := mkPinnedKey 1 (b64_encode ewit_panel) "k1" zero_time None.
Definition ewit_identity : Identity :=
  mkIdentity "https://p" "agent-1" (b64_encode (ewit_panel ++ ewit_panel)) (b64_encode "pub") "kid" (Some 4)
    (Some (mkAttempt "req" 7)) "at" 10 "rt" 20 [] [ewit_pin] [1] true 1 1 1.
Definition ewit_issued : AgentCredentials :=
  mkAgentCredentials "agent-1" "at2" (Some (mkTimestamp 50 0)) "rt2" (Some (mkTimestamp 90 0)) ["report"].
Definition ewit_envelope : SignedEnvelope :=
  mkEnvelope "P" [mkSignature 1 "k1" (ewit_panel ++ "P")].
Definition ewit_request_json : Json refreshV2Request :=
  {| json_marshal := fun _ => Some "request"; json_unmarshal := fun _ => None |}.
Definition ewit_response : StrictJson refreshV2Response :=
  {| decode_strict := fun _ => Some (mkRefreshResponse 2 "agent-1" "req" 5 (hex_encode "C"), "") |}.
Definition ewit_wire : Wire AgentCredentials :=
  {| wire_marshal := fun _ => Some "C"; wire_unmarshal := fun _ => None |}.
Definition ewit_json : Json Identity :=
  {| json_marshal := fun _ => Some "{}"; json_unmarshal := fun _ => None |}.

Lemma Reauth_keeps_machine_witness :
  let C := ewit_crypto in let T := ewit_time in let D := ewit_dur in
  let b := mkBegin "u" "u" "CODE" "dev" None None in
  let events := [Answered (mkPoll STATE_PENDING None None None); Answered (mkPoll STATE_APPROVED None (Some ewit_issued) None)] in
  match Reauth (fun s => s) "https://p" (Some ("new", "new")) ewit_identity (Some b) events 99 with
  | Some (Ok next) => id_PrivateKey next = id_PrivateKey ewit_identity
  | _ => False
  end.
Proof.
  intros C T D b events.
  destruct (Reauth (fun s => s) "https://p" (Some ("new", "new")) ewit_identity (Some b) events 99) as [[next|e]|] eqn:E;
    [|vm_compute in E; discriminate|vm_compute in E; discriminate].
  apply (Reauth_keeps_machine (CR := C) (PT := T) (PD := D) (fun s => s) "https://p" (Some ("new", "new")) ewit_identity b events 99 next E).
Defined.

Lemma verifyPinnedEnvelope_threshold_witness :
  let C := ewit_crypto in
  exists values : list string, NoDup values /\ (1 <= length values)%nat.
Proof.
  intros C.
  assert (E : verifyPinnedEnvelope 30 (Some ewit_envelope) ewit_identity = Ok tt) by (vm_compute; reflexivity).
  destruct (verifyPinnedEnvelope_threshold (CR := C) 30 ewit_envelope ewit_identity E) as (values & Hn & Hl & _).
  exists values. split; [exact Hn|simpl in Hl; lia].
Defined.

Lemma ewit_accepts :
  @verifyRefreshV2Response ewit_crypto ewit_time ewit_response ewit_wire (30 * second) (30 * second) (30 * second) (Some ewit_envelope)
    ewit_identity (Some ewit_issued) = Ok 5.
Proof. vm_compute. reflexivity. Qed.

Lemma refresh_response_bound_witness :
  let C := ewit_crypto in let T := ewit_time in let R := ewit_response in let W := ewit_wire in
  exists raw raw', wire_marshal ewit_issued = Some raw /\ wire_marshal ewit_issued = Some raw' /\ sha256 raw = sha256 raw'.
Proof.
  intros C T R W.
  destruct (refresh_response_bound (CR := C) (PT := T) (SR := R) (WC := W) _ _ _ _ _ _ _ _ _ _ _ _ _ ewit_accepts ewit_accepts)
    as (_ & _ & _ & H). exact H.
Defined.

Lemma Refresh_commits_witness :
  let C := ewit_crypto in let T := ewit_time in let Q := ewit_request_json in let R := ewit_response in
  let W := ewit_wire in let J := ewit_json in
  let call := fun _ _ => Some (Some ewit_envelope, Some ewit_issued) in
  let s := mkStore "/k/credentials.json" (Some ewit_identity) in
  match Refresh (fun _ => true) (30 * second) (30 * second) (30 * second) "t" "n" None call ewit_identity with
  | Ok next => id_Generation next = Some 5 /\ id_PublicKey next = id_PublicKey ewit_identity
  | Err _ => False
  end.
Proof.
  intros C T Q R W J call s.
  destruct (Refresh (fun _ => true) (30 * second) (30 * second) (30 * second) "t" "n" None call ewit_identity) as [next|e] eqn:E;
    [|vm_compute in E; discriminate].
  destruct (Refresh_commits (CR := C) (PT := T) (JR := Q) (SR := R) (WC := W) (JI := J) (fun _ => true) _ _ _ _ _ _ _ _ _ s
    (mkWorld empty [] [] []) 50 E eq_refl) as ((g & Hg & Hstep) & _ & Hpk & _).
  rewrite Hg, (Hstep 4 eq_refl) by (unfold max_uint64; lia). split; [reflexivity|exact Hpk].
Defined.
