(* ===== verification/NetStatic.v ===== *)
(** * Interface traffic accounting ([monitoring/netstatic/static.go])

    Counters are sampled into a cache of deltas, flushed as one record per
    interface, expired, saved and summed. The package's variables are one state
    [Sys]; every exported function runs under its mutex, so the state changes
    one operation at a time. A range over a map treats its keys independently
    and is written with [merge]. The two goroutines are the operations they run
    at each tick, [sampleOnceLocked] and [save_tick]; the tickers themselves
    (which panic on a period that is not positive) are left out. *)

From S2P Require Import Prelude.
From S2P Require Import GoStd.
From S2P Require Import GoPath.
From S2P Require Import Disk.
From S2P Require Import External.

Local Open Scope string_scope.
Local Open Scope Z_scope.

Record TrafficData := mkTraffic { td_Timestamp : Z; td_Tx : Z; td_Rx : Z }.
#[export] Instance TrafficData_eq : EqDecision TrafficData.
Proof. solve_decision. Defined.

(** The configuration, its [float64] fields as the durations they denote. *)
Record NetStaticConfig := mkNetConfig {
  nc_DataPreserve : duration;
  nc_DetectInterval : duration;
  nc_SaveInterval : duration;
  nc_Nics : option (list string);        (** [None] is the nil slice *)
}.
Definition day : duration := 24 * hour.
Definition DefaultDataPreserve : duration := 31 * day.
Definition DefaultDetectInterval : duration := 2 * second.
Definition DefaultSaveInterval : duration := 600 * second.

Abbreviation records := (gmap string (list TrafficData)).
Record NetStatic := mkNetStatic { ns_Interfaces : option records; ns_Config : NetStaticConfig }.

(** [store], [staticCache], [config], [lastCounters] and [running]. Only
    [Interfaces] can be a nil map when it is written: [staticCache] is made by
    [ensureInitLocked] before the first sample and never nil again. *)
Record Sys := mkSys {
  sy_store : NetStatic;
  sy_cache : records;
  sy_config : NetStaticConfig;
  sy_last : gmap string (Z * Z);
  sy_running : bool;
}.

Definition configOrDefault (c : NetStaticConfig) : NetStaticConfig :=
  mkNetConfig
    (if nc_DataPreserve c =? 0 then DefaultDataPreserve else nc_DataPreserve c)
    (if nc_DetectInterval c =? 0 then DefaultDetectInterval else nc_DetectInterval c)
    (if nc_SaveInterval c =? 0 then DefaultSaveInterval else nc_SaveInterval c)
    (nc_Nics c).

Definition nics (c : NetStaticConfig) : list string := default [] (nc_Nics c).
Definition isNicAllowed (c : NetStaticConfig) (name : string) : bool :=
  match nics c with [] => true | l => bool_decide (name ∈ l) end.

Definition ensureInitLocked (s : Sys) : Sys :=
  mkSys (mkNetStatic (Some (default ∅ (ns_Interfaces (sy_store s)))) (ns_Config (sy_store s)))
    (sy_cache s) (configOrDefault (sy_config s)) (sy_last s) (sy_running s).

Definition with_interfaces (i : option records) (s : Sys) : Sys :=
  mkSys (mkNetStatic i (ns_Config (sy_store s))) (sy_cache s) (sy_config s) (sy_last s) (sy_running s).

(** The cut-off of [purgeExpiredLocked]: a Unix time converted to [uint64]. *)
Definition cutoff (now : time) (c : NetStaticConfig) : Z := wrapu64 (t_unix (t_add now (- nc_DataPreserve c))).
Definition keep_recent (c : Z) (arr : list TrafficData) : option (list TrafficData) :=
  match List.filter (fun td => c <=? td_Timestamp td) arr with [] => None | kept => Some kept end.
Definition purgeExpiredLocked (now : time) (s : Sys) : Sys :=
  with_interfaces (option_map (omap (M := gmap string) (keep_recent (cutoff now (sy_config s)))) (ns_Interfaces (sy_store s))) s.

Definition safeDelta (cur prev : Z) : Z := if prev <=? cur then cur - prev else 0.

(** One interface of a sample: its name and its cumulative counters. *)
Definition sample_one (ts : Z) (s : Sys) (nic : string * (Z * Z)) : Sys :=
  let '(name, (curTx, curRx)) := nic in
  if negb (isNicAllowed (sy_config s) name) then s else
  let cache :=
    match sy_last s !! name with
    | Some (prevTx, prevRx) =>
        let dtx := safeDelta curTx prevTx in
        let drx := safeDelta curRx prevRx in
        if (0 <? dtx) || (0 <? drx)
        then <[name := (default [] (sy_cache s !! name) ++ [mkTraffic ts dtx drx])%list]> (sy_cache s)
        else sy_cache s
    | None => sy_cache s
    end in
  mkSys (sy_store s) cache (sy_config s) (<[name := (curTx, curRx)]> (sy_last s)) (sy_running s).
(** [None]: reading the counters failed. *)
Definition sampleOnceLocked (now : time) (ios : option (list (string * (Z * Z)))) (s : Sys) : Sys :=
  match ios with
  | None => s
  | Some ios => fold_left (sample_one (wrapu64 (t_unix now))) ios s
  end.

Definition sum_of (f : TrafficData -> Z) (arr : list TrafficData) : Z :=
  fold_left (fun acc td => wrapu64 (acc + f td)) arr 0.
Definition sum_tx : list TrafficData -> Z := sum_of td_Tx.
Definition sum_rx : list TrafficData -> Z := sum_of td_Rx.

Definition flush_name (ts : Z) (stored cached : option (list TrafficData)) : option (list TrafficData) :=
  match cached with
  | None => stored
  | Some arr =>
      if (0 <? sum_tx arr) || (0 <? sum_rx arr)
      then Some (default [] stored ++ [mkTraffic ts (sum_tx arr) (sum_rx arr)])%list else stored
  end.
Definition has_traffic (kv : string * list TrafficData) : bool := (0 <? sum_tx (snd kv)) || (0 <? sum_rx (snd kv)).
(** [None] is the run-time panic of a write to the nil [Interfaces] map. *)
Definition flushCacheLocked (ts : Z) (s : Sys) : option Sys :=
  match ns_Interfaces (sy_store s) with
  | Some i =>
      Some (mkSys (mkNetStatic (Some (merge (flush_name ts) i (sy_cache s))) (ns_Config (sy_store s)))
              ∅ (sy_config s) (sy_last s) (sy_running s))
  | None =>
      if existsb has_traffic (map_to_list (sy_cache s)) then None
      else Some (mkSys (sy_store s) ∅ (sy_config s) (sy_last s) (sy_running s))
  end.

(** ** Reading *)

Definition in_range (start end_ ts : Z) : bool :=
  ((start =? 0) || (start <=? ts)) && ((end_ =? 0) || (ts <=? end_)).
Definition interfaces (s : Sys) : records := default ∅ (ns_Interfaces (sy_store s)).

Definition GetNetStatic (s : Sys) : Sys * NetStatic :=
  let s := ensureInitLocked s in
  (s, mkNetStatic (Some (merge (fun a b => match a, b with
                                         | None, None => None
                                         | _, _ => Some (default [] a ++ default [] b)%list
                                         end) (interfaces s) (sy_cache s)))
        (configOrDefault (sy_config s))).

Definition nonempty (l : list TrafficData) : option (list TrafficData) := match l with [] => None | _ => Some l end.
Definition GetNetStaticBetween (start end_ : Z) (s : Sys) : Sys * NetStatic :=
  let s := ensureInitLocked s in
  let f := List.filter (fun td => in_range start end_ (td_Timestamp td)) in
  (s, mkNetStatic (Some (merge (fun a b => nonempty (f (default [] a) ++ f (default [] b))%list) (interfaces s) (sy_cache s)))
        (configOrDefault (sy_config s))).

Definition GetTotalTraffic (s : Sys) : Sys * gmap string TrafficData :=
  let s := ensureInitLocked s in
  (s, merge (fun a b => match a, b with
                      | None, None => None
                      | _, _ => Some (mkTraffic 0 (wrapu64 (sum_tx (default [] a) + sum_tx (default [] b)))
                                        (wrapu64 (sum_rx (default [] a) + sum_rx (default [] b))))
                      end) (interfaces s) (sy_cache s)).

(** One source of [GetTotalTrafficBetween]: nothing is added when both sums are
    zero. *)
Definition between_sum (start end_ : Z) (arr : option (list TrafficData)) : option (Z * Z) :=
  let l := List.filter (fun td => in_range start end_ (td_Timestamp td)) (default [] arr) in
  if (0 <? sum_tx l) || (0 <? sum_rx l) then Some (sum_tx l, sum_rx l) else None.
Definition GetTotalTrafficBetween (start end_ : Z) (s : Sys) : Sys * gmap string TrafficData :=
  let s := ensureInitLocked s in
  (s, merge (fun a b => match between_sum start end_ a, between_sum start end_ b with
                      | None, None => None
                      | x, y => let '(tx, rx) := default (0, 0) x in let '(tx', rx') := default (0, 0) y in
                                Some (mkTraffic 0 (wrapu64 (tx + tx')) (wrapu64 (rx + rx')))
                      end) (interfaces s) (sy_cache s)).

Definition Clear (s : Sys) : Sys :=
  let s := ensureInitLocked s in
  mkSys (mkNetStatic (Some ∅) (ns_Config (sy_store s))) ∅ (sy_config s) ∅ (sy_running s).
Definition ForceReplaceRecord (now : time) (rec : option records) (s : Sys) : Sys :=
  purgeExpiredLocked now (with_interfaces rec (ensureInitLocked s)).

(** ** Persistence *)

Section Files.
Context `{Json NetStatic}.
Variable SaveFilePath : string.

(** The file carries the effective configuration. *)
Definition with_config (s : Sys) : Sys :=
  mkSys (mkNetStatic (ns_Interfaces (sy_store s)) (configOrDefault (sy_config s))) (sy_cache s) (sy_config s)
    (sy_last s) (sy_running s).
Definition saveToFileLocked (s : Sys) (w : World) : result unit io_err * Sys * World :=
  match mkdir_all (dir SaveFilePath) w with
  | (Err e, w) => (Err e, s, w)
  | (Ok _, w) =>
      let s := with_config s in
      match json_marshal (sy_store s) with
      | None => (Err EncodeFailed, s, w)
      | Some b =>
          let '(r, w) := (overwrite_file (SaveFilePath ++ ".tmp") b 420 ;;
                          rename (SaveFilePath ++ ".tmp") SaveFilePath) w in (r, s, w)
      end
  end.

(** [nil] histories are replaced by empty ones; a damaged file is set aside. *)
Definition fresh (s : Sys) : Sys :=
  let s := ensureInitLocked s in
  mkSys (mkNetStatic (ns_Interfaces (sy_store s)) (configOrDefault (sy_config s))) (sy_cache s) (sy_config s)
    (sy_last s) (sy_running s).
Definition loadFromFileLocked (now : time) (s : Sys) (w : World) : result unit io_err * Sys * World :=
  match read_file SaveFilePath w with
  | (Err NotExist, w) => (Ok tt, fresh s, w)
  | (Err e, w) => (Err e, s, w)
  | (Ok data, w) =>
      if (data =? "")%string then (Ok tt, fresh s, w) else
      match json_unmarshal data with
      | None => let '(_, w) := rename SaveFilePath (SaveFilePath ++ ".bak") w in (Ok tt, fresh s, w)
      | Some ns =>
          let s := mkSys ns (sy_cache s) (configOrDefault (ns_Config ns)) (sy_last s) (sy_running s) in
          (Ok tt, purgeExpiredLocked now (ensureInitLocked s), w)
      end
  end.

Definition StartOrContinue (now : time) (s : Sys) (w : World) : result unit io_err * Sys * World :=
  if sy_running s then (Ok tt, s, w) else
  match loadFromFileLocked now (ensureInitLocked s) w with
  | (Err e, s, w) => (Err e, s, w)
  | (Ok _, s, w) => (Ok tt, mkSys (sy_store s) (sy_cache s) (sy_config s) (sy_last s) true, w)
  end.

(** One tick of the saving goroutine, at [t]. *)
Definition save_tick (t now : time) (s : Sys) (w : World) : option (Sys * World) :=
  match flushCacheLocked (wrapu64 (t_unix t)) s with
  | None => None
  | Some s => let '(_, s, w) := saveToFileLocked (purgeExpiredLocked now s) w in Some (s, w)
  end.

Definition Stop (now : time) (s : Sys) (w : World) : option (result unit io_err * Sys * World) :=
  if negb (sy_running s) then Some (Ok tt, s, w) else
  match flushCacheLocked (wrapu64 (t_unix now)) (mkSys (sy_store s) (sy_cache s) (sy_config s) (sy_last s) false) with
  | None => None
  | Some s => Some (saveToFileLocked (purgeExpiredLocked now s) w)
  end.

Definition merged_config (new cur : NetStaticConfig) : NetStaticConfig :=
  configOrDefault (mkNetConfig
    (if nc_DataPreserve new =? 0 then nc_DataPreserve cur else nc_DataPreserve new)
    (if nc_DetectInterval new =? 0 then nc_DetectInterval cur else nc_DetectInterval new)
    (if nc_SaveInterval new =? 0 then nc_SaveInterval cur else nc_SaveInterval new)
    (match nc_Nics new with Some l => Some l | None => nc_Nics cur end)).
Definition SetNewConfig (now : time) (new : NetStaticConfig) (s : Sys) (w : World) : Sys * World :=
  let s := ensureInitLocked s in
  let cfg := merged_config new (ns_Config (sy_store s)) in
  let restricted := sy_running s && negb (Nat.eqb (length (nics cfg)) 0) in
  let cache := if restricted then filter (fun kv => kv.1 ∈ nics cfg) (sy_cache s) else sy_cache s in
  let last := if restricted then filter (fun kv => kv.1 ∈ nics cfg) (sy_last s) else sy_last s in
  let s := mkSys (mkNetStatic (ns_Interfaces (sy_store s)) cfg) cache cfg last (sy_running s) in
  let '(_, s, w) := saveToFileLocked s w in
  (purgeExpiredLocked now s, w).
End Files.

(** ** Sums *)

Lemma fold_sum f arr acc :
  is_uint64 acc -> fold_left (fun acc td => wrapu64 (acc + f td)) arr acc = wrapu64 (acc + sum_of f arr).
Proof.
  unfold sum_of. revert acc. induction arr as [|td arr IH]; intros acc Ha; simpl.
  - by rewrite Z.add_0_r, wrapu64_id.
  - rewrite IH by apply wrapu64_range. rewrite (IH (wrapu64 _)) by apply wrapu64_range.
    unfold wrapu64. rewrite !Zplus_mod_idemp_l, !Zplus_mod_idemp_r. f_equal. ring_simplify.
    done.
Qed.
Lemma sum_range f arr : is_uint64 (sum_of f arr).
Proof.
  destruct arr as [|td arr]; [vm_compute; split; discriminate|]. unfold sum_of. simpl.
  rewrite fold_sum by apply wrapu64_range. apply wrapu64_range.
Qed.
Lemma sum_app f l1 l2 : sum_of f (l1 ++ l2) = wrapu64 (sum_of f l1 + sum_of f l2).
Proof. unfold sum_of at 1. rewrite fold_left_app. apply fold_sum, sum_range. Qed.
Lemma sum_one f td : sum_of f [td] = wrapu64 (f td).
Proof. done. Qed.

(** ** Totals *)

Definition total (s : Sys) (name : string) : Z * Z :=
  match snd (GetTotalTraffic s) !! name with Some t => (td_Tx t, td_Rx t) | None => (0, 0) end.
Definition stored (s : Sys) (name : string) : list TrafficData := default [] (interfaces s !! name).
Definition cached (s : Sys) (name : string) : list TrafficData := default [] (sy_cache s !! name).

Lemma total_spec s name :
  total s name = (wrapu64 (sum_tx (stored s name) + sum_tx (cached s name)),
                  wrapu64 (sum_rx (stored s name) + sum_rx (cached s name))).
Proof.
  unfold total, GetTotalTraffic, stored, cached. simpl. rewrite lookup_merge.
  replace (interfaces (ensureInitLocked s)) with (interfaces s) by (by unfold interfaces, ensureInitLocked; destruct (ns_Interfaces _)).
  destruct (interfaces s !! name), (sy_cache s !! name); done.
Qed.

Lemma cached_traffic s : existsb has_traffic (map_to_list (sy_cache s)) = true <->
  exists name arr, sy_cache s !! name = Some arr /\ (0 < sum_tx arr \/ 0 < sum_rx arr).
Proof.
  rewrite existsb_In. unfold has_traffic. split.
  - intros ([name arr] & Hin & Hs). exists name, arr. apply elem_of_map_to_list in Hin. split; [done|].
    apply orb_true_iff in Hs as [?|?]; [left|right]; simpl in *; zbool.
  - intros (name & arr & Hl & Hs). exists (name, arr). split; [by apply elem_of_map_to_list|]. simpl.
    apply orb_true_iff. destruct Hs; [left|right]; zbool.
Qed.

Lemma flush_totals ts s s' :
  flushCacheLocked ts s = Some s' ->
  sy_cache s' = ∅ /\ forall name, total s' name = total s name.
Proof.
  intros Hf.
  assert (Hzero : forall x, is_uint64 x -> (0 <? x) = false -> x = 0) by (unfold is_uint64; intros; zbool).
  assert (Hc : sy_cache s' = ∅) by (unfold flushCacheLocked in Hf; destruct (ns_Interfaces _); [|destruct (existsb _ _)]; by simplify_eq).
  split; [done|]. intros name. rewrite !total_spec.
  assert (Hs : stored s' name = match sy_cache s !! name with
     | None => stored s name
     | Some arr => if (0 <? sum_tx arr) || (0 <? sum_rx arr)
                   then (stored s name ++ [mkTraffic ts (sum_tx arr) (sum_rx arr)])%list else stored s name end).
  { unfold flushCacheLocked in Hf. destruct (ns_Interfaces (sy_store s)) as [i|] eqn:Ei.
    - injection Hf as <-. unfold stored, interfaces. rewrite Ei. simpl. rewrite lookup_merge. unfold flush_name.
      destruct (i !! name), (sy_cache s !! name) as [arr|]; simpl; try done; by destruct (_ || _).
    - destruct (existsb _ _) eqn:Ex; [done|]. injection Hf as <-. unfold stored, interfaces. simpl. rewrite !Ei. simpl.
      destruct (sy_cache s !! name) as [arr|] eqn:Ea; [|done]. destruct (_ || _) eqn:Eb; [|done].
      assert (existsb has_traffic (map_to_list (sy_cache s)) = true); [|congruence].
      apply cached_traffic. exists name, arr. split; [done|]. apply orb_true_iff in Eb as [?|?]; [left|right]; zbool. }
  rewrite Hs. unfold cached. rewrite Hc, lookup_empty. simpl.
  change (sum_tx []) with 0. change (sum_rx []) with 0. rewrite !Z.add_0_r.
  destruct (sy_cache s !! name) as [arr|]; simpl; [|change (sum_tx []) with 0; change (sum_rx []) with 0; by rewrite !Z.add_0_r].
  destruct (_ || _) eqn:Eb; unfold sum_tx, sum_rx in *.
  - rewrite !sum_app, !sum_one. simpl. rewrite !(wrapu64_id (sum_of _ arr)) by apply sum_range.
    by rewrite !(wrapu64_id (wrapu64 _)) by apply wrapu64_range.
  - apply orb_false_iff in Eb as [E1 E2]. apply Hzero in E1, E2; try apply sum_range. by rewrite E1, E2, !Z.add_0_r.
Qed.

(** Saving loses and invents no traffic. A flush empties the cache and, for
    every interface, the totals before and after agree (on [uint64]); it
    panics exactly when traffic is cached while [Interfaces] is nil. *)
Theorem flush_conserves_total ts s :
  match flushCacheLocked ts s with
  | Some s' => sy_cache s' = ∅ /\ sy_config s' = sy_config s /\ sy_last s' = sy_last s /\
               forall name, total s' name = total s name
  | None => ns_Interfaces (sy_store s) = None /\
            exists name arr, sy_cache s !! name = Some arr /\ (0 < sum_tx arr \/ 0 < sum_rx arr)
  end.
Proof.
  destruct (flushCacheLocked ts s) as [s'|] eqn:Hf.
  - destruct (flush_totals _ _ _ Hf) as [Hc Ht]. unfold flushCacheLocked in Hf.
    destruct (ns_Interfaces _); [|destruct (existsb _ _)]; by simplify_eq.
  - unfold flushCacheLocked in Hf. destruct (ns_Interfaces _); [done|]. split; [done|].
    destruct (existsb _ _) eqn:Ex; [|done]. by apply cached_traffic.
Qed.

(** ** Expiry *)

Lemma stored_purge now s name :
  stored (purgeExpiredLocked now s) name =
  List.filter (fun td => cutoff now (sy_config s) <=? td_Timestamp td) (stored s name).
Proof.
  unfold stored, purgeExpiredLocked, interfaces. simpl. destruct (ns_Interfaces (sy_store s)) as [i|]; simpl; [|done].
  rewrite lookup_omap. destruct (i !! name) as [arr|]; simpl; [|done]. unfold keep_recent. by destruct (List.filter _ arr).
Qed.

(** Expiry. A purge keeps, of every interface, exactly the records of the
    retention window, in their order; but a window that reaches back before
    1970 makes the cut-off a huge [uint64] and every record is dropped, however
    recent. *)
Theorem purge_window now s name td :
  let start := t_unix (t_add now (- nc_DataPreserve (sy_config s))) in
  - 2 ^ 63 <= start < 2 ^ 63 -> 0 <= td_Timestamp td < 2 ^ 63 ->
  td ∈ stored (purgeExpiredLocked now s) name <->
  td ∈ stored s name /\ 0 <= start <= td_Timestamp td.
Proof.
  intros start Hs Ht. rewrite stored_purge, list_elem_of_In, filter_In, <- list_elem_of_In.
  rewrite Z.leb_le. unfold cutoff. fold start. destruct (decide (0 <= start)) as [H0|H0].
  - rewrite wrapu64_id by (unfold is_uint64, max_uint64; lia). tauto.
  - assert (wrapu64 start = start + 2 ^ 64) as ->; [|intuition lia].
    unfold wrapu64. rewrite <- (Z.mod_add _ 1) by lia. rewrite Z.mod_small; lia.
Qed.

(** What one interface's counters add. *)
Definition delta (last : option (Z * Z)) (cur : Z * Z) : Z * Z :=
  match last with Some p => (safeDelta cur.1 p.1, safeDelta cur.2 p.2) | None => (0, 0) end.

Lemma safeDelta_range cur prev : is_uint64 cur -> is_uint64 prev -> is_uint64 (safeDelta cur prev).
Proof. unfold safeDelta, is_uint64. destruct (prev <=? cur) eqn:E; zbool. Qed.

Lemma sample_one_other ts s name nm cur :
  nm <> name ->
  total (sample_one ts s (nm, cur)) name = total s name /\
  sy_last (sample_one ts s (nm, cur)) !! name = sy_last s !! name /\
  sy_config (sample_one ts s (nm, cur)) = sy_config s /\ sy_store (sample_one ts s (nm, cur)) = sy_store s.
Proof.
  intros Hne. rewrite !total_spec. unfold sample_one, stored, cached, interfaces. destruct cur as [ctx crx].
  destruct (negb _); [done|]. simpl. rewrite lookup_insert_ne by done. split_and!; try done.
  destruct (sy_last s !! nm) as [[ptx prx]|]; [|done]. destruct (_ || _); [|done]. by rewrite lookup_insert_ne.
Qed.

Lemma sample_one_same ts s name cur :
  isNicAllowed (sy_config s) name = true -> is_uint64 cur.1 -> is_uint64 cur.2 ->
  (forall p, sy_last s !! name = Some p -> is_uint64 p.1 /\ is_uint64 p.2) ->
  let d := delta (sy_last s !! name) cur in
  total (sample_one ts s (name, cur)) name = (wrapu64 ((total s name).1 + d.1), wrapu64 ((total s name).2 + d.2)) /\
  sy_last (sample_one ts s (name, cur)) !! name = Some cur /\
  sy_config (sample_one ts s (name, cur)) = sy_config s /\ sy_store (sample_one ts s (name, cur)) = sy_store s.
Proof.
  intros Ha H1 H2 Hl d. rewrite !total_spec. unfold sample_one, stored, cached, interfaces. destruct cur as [ctx crx].
  rewrite Ha. simpl. split_and!; [|by rewrite lookup_insert_eq|done|done]. unfold d, delta.
  destruct (sy_last s !! name) as [[ptx prx]|]; simpl in *; [|by rewrite !Z.add_0_r, !(wrapu64_id (wrapu64 _)) by apply wrapu64_range].
  destruct (Hl _ eq_refl) as [L1 L2]. simpl in *.
  pose proof (safeDelta_range ctx ptx H1 L1) as D1. pose proof (safeDelta_range crx prx H2 L2) as D2.
  destruct (_ || _) eqn:Eb.
  - rewrite lookup_insert_eq. simpl. unfold sum_tx, sum_rx. rewrite !sum_app, !sum_one. simpl.
    autorewrite with go_int. rewrite (wrapu64_id _ D1), (wrapu64_id _ D2). f_equal; f_equal; lia.
  - apply orb_false_iff in Eb as [E1 E2].
    assert (safeDelta ctx ptx = 0) as -> by (unfold is_uint64 in *; zbool).
    assert (safeDelta crx prx = 0) as -> by (unfold is_uint64 in *; zbool).
    by rewrite !Z.add_0_r, !(wrapu64_id (wrapu64 _)) by apply wrapu64_range.
Qed.

(** A sample that lists [name] once, with the counters [cur]. *)
Lemma sample_fold ts l1 cur l2 s name :
  name ∉ l1.*1 -> name ∉ l2.*1 -> isNicAllowed (sy_config s) name = true -> is_uint64 cur.1 -> is_uint64 cur.2 ->
  (forall p, sy_last s !! name = Some p -> is_uint64 p.1 /\ is_uint64 p.2) ->
  let s' := fold_left (sample_one ts) (l1 ++ (name, cur) :: l2) s in
  let d := delta (sy_last s !! name) cur in
  total s' name = (wrapu64 ((total s name).1 + d.1), wrapu64 ((total s name).2 + d.2)) /\
  sy_last s' !! name = Some cur /\ sy_config s' = sy_config s /\ sy_store s' = sy_store s.
Proof.
  assert (Hskip : forall l s, name ∉ l.*1 -> let s' := fold_left (sample_one ts) l s in
    total s' name = total s name /\ sy_last s' !! name = sy_last s !! name /\
    sy_config s' = sy_config s /\ sy_store s' = sy_store s).
  { clear. induction l as [|[nm c] l IH]; intros s0 Hn; [done|]. cbn [fmap list_fmap fold_left fst] in *.
    apply not_elem_of_cons in Hn as [Hne Hn]. destruct (IH (sample_one ts s0 (nm, c)) Hn) as (I1 & I2 & I3 & I4).
    destruct (sample_one_other ts s0 name nm c) as (J1 & J2 & J3 & J4); [congruence|]. split_and!; congruence. }
  intros H1 H2 Ha Hc1 Hc2 Hl s' d. unfold s'. rewrite fold_left_app. cbn [fold_left].
  destruct (Hskip l1 s H1) as (A1 & A2 & A3 & A4). set (s1 := fold_left (sample_one ts) l1 s) in *.
  destruct (sample_one_same ts s1 name cur) as (B1 & B2 & B3 & B4); [by rewrite A3|done|done|by rewrite A2|].
  destruct (Hskip l2 (sample_one ts s1 (name, cur)) H2) as (C1 & C2 & C3 & C4).
  cbv zeta in *. unfold d. rewrite <- A1, <- A2, C1, C2, C3, C4, B1, B2, B3, B4. done.
Qed.

(** The daemon's two goroutines, between two purges: samples and flushes. *)
Inductive event := Sample (now : time) (ios : list (string * (Z * Z))) | Flush (ts : Z).
Definition step (s : Sys) (ev : event) : option Sys :=
  match ev with
  | Sample now ios => Some (sampleOnceLocked now (Some ios) s)
  | Flush ts => flushCacheLocked ts s
  end.
Fixpoint run (evs : list event) (s : Sys) : option Sys :=
  match evs with [] => Some s | ev :: evs => step s ev ≫= run evs end.

(** The events in which every sample reads [name] once, its counters never
    fall, and [first] and [final] are the counters before and after. *)
Inductive reads (name : string) : Z * Z -> list event -> Z * Z -> Prop :=
| reads_nil c : reads name c [] c
| reads_flush c ts evs c' : reads name c evs c' -> reads name c (Flush ts :: evs) c'
| reads_sample c now l1 d l2 evs c' :
    name ∉ l1.*1 -> name ∉ l2.*1 -> c.1 <= d.1 <= max_uint64 -> c.2 <= d.2 <= max_uint64 ->
    reads name d evs c' -> reads name c (Sample now (l1 ++ (name, d) :: l2) :: evs) c'.

(** C36: accounting. However samples and flushes interleave, the traffic
    recorded for an interface grows by exactly what its counters grew, as long
    as they are not reset, and no flush fails. *)
Theorem traffic_accounting name first final evs s :
  reads name first evs final -> isNicAllowed (sy_config s) name = true ->
  ns_Interfaces (sy_store s) <> None -> sy_last s !! name = Some first -> 0 <= first.1 -> 0 <= first.2 ->
  first.1 <= max_uint64 -> first.2 <= max_uint64 ->
  exists s', run evs s = Some s' /\
    total s' name = (wrapu64 ((total s name).1 + (final.1 - first.1)), wrapu64 ((total s name).2 + (final.2 - first.2))).
Proof.
  intros Hr. revert s. induction Hr as [c|c ts evs c' Hr IH|c now l1 d l2 evs c' H1 H2 Hd1 Hd2 Hr IH];
    intros s Ha Hn Hl P1 P2 Q1 Q2; simpl.
  - exists s. split; [done|]. rewrite !Z.sub_diag, !Z.add_0_r, total_spec. simpl.
    by rewrite !(wrapu64_id (wrapu64 _)) by apply wrapu64_range.
  - destruct (flushCacheLocked ts s) as [s1|] eqn:Ef.
    2: { unfold flushCacheLocked in Ef. by destruct (ns_Interfaces (sy_store s)). }
    destruct (flush_totals _ _ _ Ef) as [_ Ht]. simpl. rewrite <- Ht. unfold flushCacheLocked in Ef.
    destruct (ns_Interfaces (sy_store s)); [|done]. injection Ef as <-. by apply IH.
  - destruct (sample_fold (wrapu64 (t_unix now)) l1 d l2 s name) as (A1 & A2 & A3 & A4); try done.
    + unfold is_uint64. lia.
    + unfold is_uint64. lia.
    + rewrite Hl. intros p [= <-]. unfold is_uint64. lia.
    + simpl. destruct (IH (sampleOnceLocked now (Some (l1 ++ (name, d) :: l2)%list) s)) as (s' & Hrun & Ht); simpl; try done; try lia.
      * by rewrite A3.
      * by rewrite A4.
      * exists s'. split; [done|]. rewrite Ht. simpl. rewrite A1, Hl. simpl. unfold safeDelta.
        rewrite !(proj2 (Z.leb_le _ _)) by lia. autorewrite with go_int. f_equal; f_equal; lia.
Qed.


(** ** Saving and loading *)

(** Which files a save may touch, and what a successful one leaves. *)
Lemma save_ok `{Json NetStatic} path s w s' w' :
  saveToFileLocked path s w = (Ok tt, s', w') ->
  s' = with_config s /\ exists b, json_marshal (sy_store s') = Some b /\ f_data <$> w_fs w' !! path = Some b.
Proof.
  unfold saveToFileLocked. destruct (mkdir_all _ _) as [[[]|] w0]; [|done].
  destruct (json_marshal _) as [b|] eqn:Eb; [|done]. unfold io_bind, overwrite_file, rename, call. simpl.
  destruct (hd false (w_faults w0)); [done|]. simpl. destruct (hd false _); [done|].
  rewrite lookup_insert_eq. simpl. intros [= <- <-]. split; [done|]. exists b. split; [done|].
  simpl. by rewrite lookup_insert_eq.
Qed.

(** A save survives a restart. What a later process loads is the saved
    history, less what has expired in between, and the saved configuration. *)
Theorem save_load_roundtrip `{JL : JsonLaws NetStatic} path now s w s1 w1 s0 :
  saveToFileLocked path s w = (Ok tt, s1, w1) -> json_ok (sy_store s1) ->
  json_marshal (sy_store s1) <> Some "" -> hd false (w_faults w1) = false ->
  exists s2 w2, loadFromFileLocked path now s0 w1 = (Ok tt, s2, w2) /\
    sy_config s2 = configOrDefault (sy_config s) /\ sy_cache s2 = sy_cache s0 /\
    forall name, stored s2 name = List.filter (fun td => cutoff now (configOrDefault (sy_config s)) <=? td_Timestamp td) (stored s name).
Proof.
  intros Hs Hok Hne Hf. apply save_ok in Hs as (-> & b & Hb & Hfile).
  unfold loadFromFileLocked, read_file, call. rewrite Hf.
  change (w_fs {| w_fs := w_fs w1; w_faults := tail (w_faults w1); w_rand := w_rand w1; w_trace := w_trace w1 |}) with (w_fs w1).
  destruct (w_fs w1 !! path) as [f|]; simpl in Hfile; [|done]. injection Hfile as Hfile. rewrite Hfile.
  destruct (b =? "")%string eqn:Ee; [apply String.eqb_eq in Ee; congruence|].
  rewrite (json_roundtrip _ _ Hok Hb).
  assert (Hcc : forall c, configOrDefault (configOrDefault c) = configOrDefault c).
  { intros [p d sv n]. unfold configOrDefault. cbn [nc_DataPreserve nc_DetectInterval nc_SaveInterval nc_Nics].
    by destruct (p =? 0) eqn:E1, (d =? 0) eqn:E2, (sv =? 0) eqn:E3; rewrite ?E1, ?E2, ?E3. }
  eexists _, _. split; [done|]. split_and!; [simpl; by rewrite !Hcc|done|].
  intros name. rewrite stored_purge. f_equal. simpl. by rewrite !Hcc.
Qed.

(** ** The nil map *)

(** [ForceReplaceRecord(nil)] is accepted, and the next flush that has
    traffic to store writes to a nil map and panics, whatever is sampled in
    between (the state stays broken until a function that initialises it). *)
Theorem ForceReplaceRecord_nil_panics now now' ios s ts name arr :
  let s1 := ForceReplaceRecord now None s in
  let s2 := sampleOnceLocked now' ios s1 in
  sy_cache s2 !! name = Some arr -> 0 < sum_tx arr \/ 0 < sum_rx arr -> flushCacheLocked ts s2 = None.
Proof.
  intros s1 s2 Hl Hp.
  assert (Hstore : forall l s, sy_store (fold_left (sample_one (wrapu64 (t_unix now'))) l s) = sy_store s).
  { clear. induction l as [|[nm [c1 c2]] l IH]; intros s; [done|]. cbn [fold_left]. rewrite IH.
    unfold sample_one. by destruct (negb _). }
  assert (Hn : ns_Interfaces (sy_store s2) = None).
  { unfold s2, sampleOnceLocked. destruct ios; [rewrite Hstore|]; done. }
  unfold flushCacheLocked. rewrite Hn.
  rewrite (proj2 (cached_traffic s2)); [done|by exists name, arr].
Qed.

(** ** Instances *)

Definition net_config0 : NetStaticConfig := mkNetConfig 0 0 0 None.
Definition net_state0 : Sys :=
  mkSys (mkNetStatic (Some {["eth0" := [mkTraffic 1700000000 5 7]]}) net_config0) ∅
    (configOrDefault net_config0) {["eth0" := (100, 200)]} true.
Definition net_now : time := (1700000100 + unix_epoch_seconds) * second.

#[export] Instance NetStaticConfig_eq : EqDecision NetStaticConfig.
Proof. solve_decision. Defined.
#[export] Instance NetStatic_eq : EqDecision NetStatic.
Proof. solve_decision. Defined.
#[export] Instance TrafficData_countable : Countable TrafficData.
Proof.
  refine (inj_countable' (fun t => (td_Timestamp t, td_Tx t, td_Rx t)) (fun '(a, b, c) => mkTraffic a b c) _). by intros [].
Defined.
#[export] Instance NetStaticConfig_countable : Countable NetStaticConfig.
Proof.
  refine (inj_countable' (fun c => (nc_DataPreserve c, nc_DetectInterval c, nc_SaveInterval c, nc_Nics c))
            (fun '(a, b, c, d) => mkNetConfig a b c d) _). by intros [].
Defined.
#[export] Instance NetStatic_countable : Countable NetStatic.
Proof.
  refine (inj_countable' (fun n => (ns_Interfaces n, ns_Config n)) (fun '(a, b) => mkNetStatic a b) _). by intros [].
Defined.

Lemma traffic_accounting_witness :
  exists s', run [Sample net_now [("lo", (1, 1)); ("eth0", (150, 260))]; Flush 1700000050; Sample net_now [("eth0", (151, 300))]] net_state0 = Some s' /\
    total s' "eth0" = (wrapu64 (5 + (151 - 100)), wrapu64 (7 + (300 - 200))).
Proof.
  refine (traffic_accounting "eth0" (100, 200) (151, 300)
    [Sample net_now [("lo", (1, 1)); ("eth0", (150, 260))]; Flush 1700000050; Sample net_now [("eth0", (151, 300))]]
    net_state0 _ eq_refl _ eq_refl _ _ _ _); simpl; try (unfold max_uint64; lia); [|discriminate].
  apply (reads_sample _ _ _ [("lo", (1, 1))] (150, 260) []); try (simpl; unfold max_uint64; lia).
  - simpl. rewrite list_elem_of_singleton. discriminate.
  - apply not_elem_of_nil.
  - apply reads_flush. apply (reads_sample _ _ _ [] (151, 300) []); try (simpl; unfold max_uint64; lia); try apply not_elem_of_nil.
    apply reads_nil.
Defined.

Lemma purge_window_witness :
  mkTraffic 1700000000 5 7 ∈ stored (purgeExpiredLocked net_now net_state0) "eth0".
Proof.
  apply (purge_window net_now net_state0 "eth0" (mkTraffic 1700000000 5 7)).
  - vm_compute. split; [discriminate|reflexivity].
  - vm_compute. split; [discriminate|reflexivity].
  - split; [vm_compute; by left|]. vm_compute. split; discriminate.
Defined.

Lemma save_load_roundtrip_witness :
  let J := countable_json NetStatic in
  let r := saveToFileLocked (H := J) "/data/net_static.json" net_state0 (mkWorld ∅ [] [] []) in
  exists s2 w2, loadFromFileLocked (H := J) "/data/net_static.json" net_now net_state0 (snd r) = (Ok tt, s2, w2) /\
    sy_config s2 = configOrDefault (sy_config net_state0) /\ sy_cache s2 = sy_cache net_state0 /\
    forall name, stored s2 name =
      List.filter (fun td => cutoff net_now (configOrDefault (sy_config net_state0)) <=? td_Timestamp td) (stored net_state0 name).
Proof.
  refine (@save_load_roundtrip (countable_json NetStatic) (countable_json_laws NetStatic) "/data/net_static.json" net_now net_state0 (mkWorld ∅ [] [] [])
    (with_config net_state0) (snd (saveToFileLocked (H := countable_json NetStatic) "/data/net_static.json" net_state0 (mkWorld ∅ [] [] [])))
    net_state0 _ I _ eq_refl).
  - apply run_outcome2. reflexivity.
  - vm_compute. discriminate.
Defined.

Lemma ForceReplaceRecord_nil_panics_witness :
  flushCacheLocked 1700000200 (sampleOnceLocked net_now (Some [("eth0", (150, 260))]) (ForceReplaceRecord net_now None net_state0)) = None.
Proof.
  refine (ForceReplaceRecord_nil_panics net_now net_now (Some [("eth0", (150, 260))]) net_state0 1700000200 "eth0" [mkTraffic 1700000100 50 60] _ _).
  - vm_compute. reflexivity.
  - left. vm_compute. reflexivity.
Defined.
