(* ===== verification/Inodes.v ===== *)
(** * A file system with inodes, for the file operations ([files/])

    Uploads keep descriptors open across renames, so a path is bound to an
    inode and a descriptor is an inode: a rename moves the binding, and a write
    through an old descriptor reaches the file wherever it is bound by then.
    Every system call may be refused: it takes the next element of a list of
    faults. Directories are not represented (a missing one is a refused call),
    and no component of a path is a symbolic link. *)

From S2P Require Import Prelude.
From S2P Require Import GoStd.
From S2P Require Import GoPath.

Local Open Scope string_scope.

(** The failures of the package, one constructor per message. *)
Inductive file_err :=
| OsFault | OsNotExist
| ModeRequired | InvalidMode | PathRequired | NonRegularTarget | OwnershipLost | RootRefused
| SamePaths | IntoItself | DestinationExists
| UploadIdRequired | UploadPathNotFile | InvalidMetadata | ChunkSizeRange | ChunkCountMismatch
| InvalidChunkOffset | InvalidChunkSize | CountAndSizeRequired
| UnknownSession | TargetMismatch | TotalMismatch | ChunkSizeMismatch | PartCountMismatch
| Incomplete | PartMissing | PartShort | SessionCancelled | StreamShort.
#[export] Instance file_err_eq : EqDecision file_err.
Proof. solve_decision. Defined.

(** The mode bits are Unix ones. *)
Record Inode := mkInode { in_regular : bool; in_mode : Z; in_owner : Z * Z; in_data : list ascii }.
Record FS := mkFS { f_paths : gmap string nat; f_inodes : gmap nat Inode; f_next : nat }.

Definition OS (A : Type) : Type := FS * list bool -> result A file_err * (FS * list bool).
Definition os_ret {A} (a : A) : OS A := fun w => (Ok a, w).
Definition os_fail {A} (e : file_err) : OS A := fun w => (Err e, w).
Definition os_bind {A B} (m : OS A) (k : A -> OS B) : OS B :=
  fun w => match m w with (Ok a, w) => k a w | (Err e, w) => (Err e, w) end.
Notation "'os' p <- m ; k" := (os_bind m (fun p => k))
  (at level 100, p pattern, m at next level, k at level 200, right associativity) : go_scope.
Definition run_os {A} (faults : list bool) (m : OS A) (fs : FS) : result A file_err * FS :=
  let '(r, (fs', _)) := m (fs, faults) in (r, fs').

Definition syscall {A} (f : FS -> result A file_err * FS) : OS A :=
  fun '(fs, faults) =>
    if hd false faults then (Err OsFault, (fs, tail faults))
    else let '(r, fs') := f fs in (r, (fs', tail faults)).

Definition lookup_path (fs : FS) (p : string) : option Inode := f_paths fs !! p ≫= fun i => f_inodes fs !! i.
Definition contents (fs : FS) (p : string) : option (list ascii) := in_data <$> lookup_path fs p.
Definition set_inode (i : nat) (n : Inode) (fs : FS) : FS := mkFS (f_paths fs) (<[i := n]> (f_inodes fs)) (f_next fs).
Definition bind_path (p : string) (i : nat) (fs : FS) : FS := mkFS (<[p := i]> (f_paths fs)) (f_inodes fs) (f_next fs).
Definition unlink (p : string) (fs : FS) : FS := mkFS (delete p (f_paths fs)) (f_inodes fs) (f_next fs).
Definition with_data (d : list ascii) (n : Inode) : Inode := mkInode (in_regular n) (in_mode n) (in_owner n) d.
Definition with_mode (m : Z) (n : Inode) : Inode := mkInode (in_regular n) m (in_owner n) (in_data n).
Definition with_owner (o : Z * Z) (n : Inode) : Inode := mkInode (in_regular n) (in_mode n) o (in_data n).

(** ** Calls *)

(** [os.OpenFile(p, O_WRONLY|O_CREATE[|O_TRUNC], mode)]: the inode opened. *)
Definition open_create (trunc : bool) (p : string) (mode : Z) : OS nat :=
  syscall (fun fs =>
    match f_paths fs !! p with
    | Some i =>
        match f_inodes fs !! i with
        | Some n => if in_regular n then (Ok i, if trunc then set_inode i (with_data [] n) fs else fs) else (Err OsFault, fs)
        | None => (Err OsFault, fs)
        end
    | None =>
        let i := f_next fs in
        (Ok i, mkFS (<[p := i]> (f_paths fs)) (<[i := mkInode true mode (0, 0)%Z []]> (f_inodes fs)) (S i))
    end).
Definition close_fd : OS unit := syscall (fun fs => (Ok tt, fs)).
Definition sync_fd : OS unit := syscall (fun fs => (Ok tt, fs)).
Definition mkdir_all_os (d : string) : OS unit := syscall (fun fs => (Ok tt, fs)).
(** [syncUploadDirectory]: open and [Sync]. *)
Definition syncUploadDirectory (d : string) : OS unit := syscall (fun fs => (Ok tt, fs)).

Definition stat_os (p : string) : OS Inode :=
  syscall (fun fs => match lookup_path fs p with Some n => (Ok n, fs) | None => (Err OsNotExist, fs) end).
Definition update_inode (f : Inode -> Inode) (p : string) : OS unit :=
  syscall (fun fs => match f_paths fs !! p with
    | Some i => match f_inodes fs !! i with
                | Some n => (Ok tt, set_inode i (f n) fs)
                | None => (Err OsNotExist, fs)
                end
    | None => (Err OsNotExist, fs)
    end).
Definition truncate_os (p : string) (size : nat) : OS unit := update_inode (fun n => with_data (take size (in_data n)) n) p.
Definition chmod_os (p : string) (mode : Z) : OS unit := update_inode (with_mode mode) p.
Definition changeOwnership (p : string) (o : Z * Z) : OS unit := update_inode (with_owner o) p.
Definition remove_os (p : string) : OS unit :=
  syscall (fun fs => match f_paths fs !! p with
    | Some _ => (Ok tt, unlink p fs)
    | None => (Err OsNotExist, fs)
    end).
(** [replaceFile]: rename over whatever the destination is. *)
Definition replaceFile (p q : string) : OS unit :=
  syscall (fun fs => match f_paths fs !! p with
    | Some i => (Ok tt, bind_path q i (unlink p fs))
    | None => (Err OsNotExist, fs)
    end).

(** Bytes of a descriptor: [WriteAt] past the end leaves a hole of zeros. *)
Definition write_at (off : nat) (bs c : list ascii) : list ascii :=
  match bs with
  | [] => c
  | _ => (take off (c ++ replicate (off - length c) zero) ++ bs ++ drop (off + length bs) c)%list
  end.
Definition write_fd (i : nat) (off : nat) (bs : list ascii) (fs : FS) : FS :=
  match f_inodes fs !! i with
  | Some n => set_inode i (with_data (write_at off bs (in_data n)) n) fs
  | None => fs
  end.

(** ** Modes *)

(** [fs.FileMode]: permission bits 0-8, [ModeSetuid], [ModeSetgid] and
    [ModeSticky] at bits 23, 22 and 20; [os.Chmod] maps them to Unix bits. *)
Definition ModePerm : Z := 511.
Definition ModeSetuid : Z := 2 ^ 23.
Definition ModeSetgid : Z := 2 ^ 22.
Definition ModeSticky : Z := 2 ^ 20.
Definition flag (b : bool) (v : Z) : Z := if b then v else 0%Z.
Definition syscallMode (m : Z) : Z :=
  Z.lor (Z.lor (Z.lor (Z.land m ModePerm) (flag (Z.testbit m 23) 2048)) (flag (Z.testbit m 22) 1024)) (flag (Z.testbit m 20) 512).
(** The mode of a file as [os.FileInfo] reports it. *)
Definition fileMode_of_unix (u : Z) : Z :=
  Z.lor (Z.lor (Z.lor (Z.land u ModePerm) (flag (Z.testbit u 11) ModeSetuid)) (flag (Z.testbit u 10) ModeSetgid)) (flag (Z.testbit u 9) ModeSticky).

(** ** The shared steps of a replacement *)

(** [replaceableFile]: absent, or a regular file. *)
Definition replaceableFile (p : string) : OS (option Inode) :=
  syscall (fun fs => match lookup_path fs p with
    | None => (Ok None, fs)
    | Some n => if in_regular n then (Ok (Some n), fs) else (Err NonRegularTarget, fs)
    end).
(** [preserveReplacementMetadata]: owner and mode of the file replaced, or mode
    0644. *)
Definition preserveReplacementMetadata (temporary : string) (existing : option Inode) : OS unit :=
  match existing with
  | None => chmod_os temporary (syscallMode 420)
  | Some n =>
      fun w => match changeOwnership temporary (in_owner n) w with
               | (Err _, w) => (Err OwnershipLost, w)
               | (Ok _, w) =>
                   chmod_os temporary (syscallMode (Z.land (fileMode_of_unix (in_mode n))
                     (Z.lor (Z.lor (Z.lor ModePerm ModeSetuid) ModeSetgid) ModeSticky))) w
               end
  end.
