(* ===== verification/Files.v ===== *)
(** * File operations ([files/ops.go], Unix)

    The arguments of a request, the path and mode arithmetic, and the
    operations that create, re-mode and remove. Uploads are in [Uploads]. *)

From S2P Require Import Prelude.
From S2P Require Import GoStd.
From S2P Require Import GoPath.
From S2P Require Import Disk.
From S2P Require Import Inodes.

Local Open Scope string_scope.
Local Open Scope Z_scope.

Definition defaultTransferChunkSize : Z := 25 * 1024 * 1024.
Definition maxTransferChunkSize : Z := 128 * 1024 * 1024.

(** A decoded JSON argument; a number is given by its conversion to [int64]
    ([wrap64] states the range). *)
Inductive value := VString (s : string) | VBool (b : bool) | VNumber (n : Z) | VOther.
Abbreviation arguments := (gmap string value).

Definition argString (args : arguments) (key : string) : string :=
  match args !! key with Some (VString s) => s | _ => "" end.
Definition argBool (args : arguments) (key : string) : bool :=
  match args !! key with Some (VBool b) => b | _ => false end.
Definition argInt64 (args : arguments) (key : string) : Z :=
  match args !! key with Some (VNumber n) => wrap64 n | _ => 0 end.

Section Paths.
(** [os.UserHomeDir], when it succeeds. *)
Variable home : option string.

Definition resolveFilePath (path : string) : string :=
  let trimmed := trim_space path in
  let trimmed := if (trimmed =? "")%string then "/" else trimmed in
  let fallback := clean trimmed in
  if (trimmed =? "~")%string || has_prefix trimmed "~/" || has_prefix trimmed "~\" then
    match home with
    | Some h =>
        if (h =? "")%string then fallback else
        if (trimmed =? "~")%string then h
        else join_path [h; of_chars (drop 2 (chars trimmed))]
    | None => fallback
    end
  else fallback.
End Paths.

Definition samePath (left right : string) : bool := (clean left =? clean right)%string.
Definition pathContains (parent child : string) : bool :=
  match rel (clean parent) (clean child) with
  | None => false
  | Some r =>
      if (r =? ".")%string || (r =? "..")%string || has_prefix r ("../") then false else negb (is_abs r)
  end.

Definition uploadChunkCount (size chunkSize : Z) : Z :=
  if (size <=? 0) || (chunkSize <=? 0) then 0 else idiv (wrap64 (size + chunkSize - 1)) chunkSize.

Definition uploadPartPathFor (targetPath uploadID : string) : string :=
  let name := base targetPath in
  let name := if (name =? "")%string || (name =? ".")%string || (name =? "/")%string then "upload" else name in
  join_path [dir targetPath; "." ++ name ++ ".komari-upload-" ++ uploadID ++ ".part"].

(** ** Modes *)

Definition parseMode (value : string) : result Z file_err :=
  let value := trim_space value in
  if (value =? "")%string then Err ModeRequired else
  match parse_octal32 (trim_prefix value "0o") with
  | Some parsed => Ok parsed
  | None => Err InvalidMode
  end.

(** [createFileWithMode]'s reading of the mode: special bits become Go flags. *)
Definition requestedMode (modeValue : string) : result (option Z) file_err :=
  if blank modeValue then Ok None else
  try? parsed := parseMode modeValue in
  if 4095 <? parsed then Err InvalidMode else
  Ok (Some (Z.lor (Z.lor (Z.lor (Z.land parsed 511)
    (flag (negb (Z.land parsed 2048 =? 0)) ModeSetuid))
    (flag (negb (Z.land parsed 1024 =? 0)) ModeSetgid))
    (flag (negb (Z.land parsed 512 =? 0)) ModeSticky))).

Section Operations.
Variable home : option string.

Definition chmodPath (path modeValue : string) : OS Z :=
  let path := resolveFilePath home path in
  match parseMode modeValue with
  | Err e => os_fail e
  | Ok mode => os _ <- chmod_os path (syscallMode mode) ; os_ret mode
  end.

(** [os.CreateTemp] draws from [names]; the deferred removal of the temporary
    runs on every path but the successful one. *)
Definition remove_quietly {A} (p : string) (m : OS A) : OS A := fun w =>
  match m w with
  | (Ok a, w) => (Ok a, w)
  | (Err e, w) => let '(_, w) := remove_os p w in (Err e, w)
  end.
Fixpoint pick_name (fs : FS) (d prefix : string) (names : list string) : option string :=
  match names with
  | [] => None
  | n :: ns => let p := temp_name d prefix n in
               match f_paths fs !! p with None => Some p | Some _ => pick_name fs d prefix ns end
  end.
Definition create_temp_os (d prefix : string) (names : list string) : OS string := fun w =>
  match pick_name (fst w) d prefix names with
  | None => (Err OsFault, w)
  | Some p => (os _ <- open_create false p 384 ; os_ret p) w
  end.

Definition createFileWithMode (path modeValue : string) (names : list string) : OS unit :=
  match requestedMode modeValue with
  | Err e => os_fail e
  | Ok mode =>
      let path := resolveFilePath home path in
      if (path =? "/")%string || (path =? ".")%string then os_fail PathRequired else
      let directory := dir path in
      os _ <- mkdir_all_os directory ;
      os existing <- replaceableFile path ;
      os temporary <- create_temp_os directory ".komari-empty-" names ;
      os _ <- remove_quietly temporary
        (os _ <- preserveReplacementMetadata temporary existing ;
         os _ <- match mode with Some m => chmod_os temporary (syscallMode m) | None => os_ret tt end ;
         os _ <- close_fd ;
         replaceFile temporary path) ;
      syncUploadDirectory directory
  end.

(** A plain [os.Remove] or a recursive one is [remove]. *)
Definition deletePath (remove : string -> OS unit) (path : string) : OS unit :=
  let cleaned := resolveFilePath home path in
  if (cleaned =? "/")%string || (cleaned =? "")%string then os_fail RootRefused else
  os _ <- stat_os cleaned ; remove cleaned.
End Operations.

(** ** Containment *)

Lemma strip_common_spec b t : exists common, b = (common ++ fst (strip_common b t))%list /\ t = (common ++ snd (strip_common b t))%list /\
  (forall x xs y ys, fst (strip_common b t) = x :: xs -> snd (strip_common b t) = y :: ys -> x <> y).
Proof.
  revert t. induction b as [|x b IH]; intros t; simpl; [by exists []|].
  destruct t as [|y t]; [by exists []|]. destruct (x =? y)%string eqn:E.
  - apply String.eqb_eq in E as ->. destruct (IH t) as (c & H1 & H2 & H3). exists (y :: c). simpl. by rewrite <- H1, <- H2.
  - apply String.eqb_neq in E. exists []. simpl. split_and!; [done|done|]. by intros ? ? ? ? [= -> ->] [= -> ->].
Qed.

Lemma elems_clean p : is_abs p = true -> elems (clean p) = elems p /\ is_abs (clean p) = true.
Proof.
  intros H. rewrite clean_abs by done. split; [|apply is_abs_path]. apply elems_abs_path, elems_plain, H.
Qed.

Lemma join_plain_rel e es : plain e -> is_abs (join "/" (e :: es)) = false /\ join "/" (e :: es) <> "." /\
  join "/" (e :: es) <> ".." /\ has_prefix (join "/" (e :: es)) "../" = false.
Proof.
  intros (H0 & H1 & H2 & H3).
  assert (Hs : exists r, join "/" (e :: es) = e ++ r /\ (r = "" \/ exists r', r = "/" ++ r')).
  { destruct es as [|x es]; simpl; [exists ""|eexists ("/" ++ _)]; split; eauto.
    clear. induction e as [|a e IH]; [done|]. change (String a e = String a (e ++ "")). by f_equal. }
  destruct Hs as (r & -> & Hr).
  destruct e as [|a e]; [done|]. simpl in H3. unfold is_abs, has_prefix, sep, sep_str in *. apply not_elem_of_cons in H3 as [Ha H3].
  change (String a e ++ r) with (String a (e ++ r)). cbn [String.prefix].
  destruct (ascii_dec "/" a) as [Hs|_]; [congruence|]. split; [done|].
  destruct (ascii_dec "." a) as [<-|Hd]; [|repeat split; congruence].
  destruct e as [|a' e]; [done|]. change (String a' e ++ r) with (String a' (e ++ r)). cbn [String.prefix]. simpl in H3. apply not_elem_of_cons in H3 as [Ha' H3].
  split; [congruence|]. destruct (ascii_dec "." a') as [<-|Hd]; [|split; [congruence|done]].
  destruct e as [|a2 e]; [done|]. change (String a2 e ++ r) with (String a2 (e ++ r)). cbn [String.prefix]. simpl in H3. apply not_elem_of_cons in H3 as [Ha2 _].
  split; [congruence|]. by destruct (ascii_dec "/" a2) as [<-|].
Qed.

Lemma join_dots l : join "/" (".." :: l) = ".." \/ has_prefix (join "/" (".." :: l)) "../" = true.
Proof.
  destruct l as [|x l]; [by left|right].
  change (has_prefix ("../" ++ join "/" (x :: l)) "../" = true).  apply prefix_iff. by eexists.
Qed.

(** What [movePath] and [copyPath] refuse. For absolute paths,
    [pathContains] holds exactly when the child lies strictly below the
    parent, element by element. *)
Theorem pathContains_spec parent child :
  is_abs parent = true -> is_abs child = true ->
  pathContains parent child = true <->
  exists below, below <> [] /\ elems child = (elems parent ++ below)%list.
Proof.
  intros Hp Hc. destruct (elems_clean _ Hp) as [Ep Ap], (elems_clean _ Hc) as [Ec Ac].
  unfold pathContains, rel. rewrite !(clean_abs (clean _)) by done. rewrite !is_abs_path, !elems_abs_path by (apply elems_plain; done).
  rewrite Ep, Ec. cbn [Bool.eqb negb]. pose proof (elems_plain _ Hp) as Pp. pose proof (elems_plain _ Hc) as Pc.
  destruct (strip_common_spec (elems parent) (elems child)) as (common & H1 & H2 & H3).
  destruct (strip_common (elems parent) (elems child)) as [up rest]. cbn [fst snd] in *.
  destruct (abs_path (elems parent) =? abs_path (elems child))%string eqn:Eq.
  - simpl. split; [done|]. intros (below & Hb & He). exfalso.
    apply String.eqb_eq, (f_equal elems) in Eq. rewrite !elems_abs_path in Eq by done. rewrite Eq in He.
    apply (f_equal length) in He. rewrite length_app in He. destruct below; simpl in He; [done|lia].
  - apply String.eqb_neq in Eq. destruct up as [|x up].
    + rewrite app_nil_r in H1. destruct rest as [|y rest]; [rewrite app_nil_r in H2; congruence|].
      rewrite H2 in Pc. apply Forall_app in Pc as [_ Pc]. apply Forall_cons in Pc as [Py _].
      destruct (join_plain_rel y rest Py) as (R1 & R2 & R3 & R4). rewrite R1, R4.
      rewrite !(proj2 (String.eqb_neq _ _)) by done. simpl. split; [|done]. intros _. exists (y :: rest). by rewrite H1, H2.
    + assert (Hx : plain x) by (rewrite H1 in Pp; apply Forall_app in Pp as [_ Pp]; by apply Forall_cons in Pp as [? _]).
      destruct (x =? "..")%string eqn:Ex; [by apply String.eqb_eq in Ex; destruct Hx as (_ & _ & ? & _)|].
      assert (Hnot : ~ exists below, below <> [] /\ elems child = (elems parent ++ below)%list).
      { intros (below & Hb & He). rewrite H1, H2, <- app_assoc in He. apply app_inv_head in He. simpl in He. subst rest.
        by apply (H3 x up x (up ++ below)%list). }
      cbn [map app]. destruct (join_dots (map (fun _ => "..") up ++ rest)) as [Hj|Hj]; rewrite Hj;
        rewrite ?orb_true_r; simpl; split; done.
Qed.

Lemma pathContains_spec_witness :
  pathContains "/srv/www" "/srv/./www/site/../x" = true <->
  exists below, below <> [] /\ elems "/srv/./www/site/../x" = (elems "/srv/www" ++ below)%list.
Proof. exact (pathContains_spec "/srv/www" "/srv/./www/site/../x" eq_refl eq_refl). Defined.

(** ** Modes *)

Lemma requested_exact p : 0 <= p <= 4095 ->
  syscallMode (Z.lor (Z.lor (Z.lor (Z.land p 511)
    (flag (negb (Z.land p 2048 =? 0)) ModeSetuid))
    (flag (negb (Z.land p 1024 =? 0)) ModeSetgid))
    (flag (negb (Z.land p 512 =? 0)) ModeSticky)) = p.
Proof.
  intros Hp.
  assert (Hall : forallb (fun n => let p := Z.of_nat n in
    syscallMode (Z.lor (Z.lor (Z.lor (Z.land p 511)
      (flag (negb (Z.land p 2048 =? 0)) ModeSetuid))
      (flag (negb (Z.land p 1024 =? 0)) ModeSetgid))
      (flag (negb (Z.land p 512 =? 0)) ModeSticky)) =? p) (seq 0 4096) = true) by (vm_compute; reflexivity).
  rewrite forallb_forall in Hall. specialize (Hall (Z.to_nat p)). rewrite Z2Nat.id in Hall by lia.
  apply Z.eqb_eq, Hall, in_seq. lia.
Qed.
Lemma syscallMode_small p : 0 <= p <= 4095 -> syscallMode p = Z.land p 511.
Proof.
  intros Hp.
  assert (Hall : forallb (fun n => syscallMode (Z.of_nat n) =? Z.land (Z.of_nat n) 511) (seq 0 4096) = true) by (vm_compute; reflexivity).
  rewrite forallb_forall in Hall. specialize (Hall (Z.to_nat p)). rewrite Z2Nat.id in Hall by lia.
  apply Z.eqb_eq, Hall, in_seq. lia.
Qed.

Lemma parse_octal_go_nonneg l : forall acc r, 0 <= acc -> parse_octal_go acc l = Some r -> 0 <= r.
Proof.
  induction l as [|a l IH]; intros acc r Ha; simpl; [by intros [= <-]|].
  destruct (_ && _) eqn:E; [|done]. destruct (_ <? 2 ^ 32) eqn:E2; [|done]. apply IH.
  apply andb_true_iff in E as [E _]. apply Z.leb_le in E. lia.
Qed.
Lemma parseMode_nonneg s p : parseMode s = Ok p -> 0 <= p.
Proof.
  unfold parseMode. destruct (_ =? _)%string; [done|]. unfold parse_octal32.
  destruct (chars _) as [|c l]; [done|]. destruct (parse_octal_go 0 (c :: l)) as [r|] eqn:E; [|done].
  intros [= <-]. by eapply parse_octal_go_nonneg.
Qed.

(** Modes. A file is created with exactly the Unix mode requested, special
    bits included, and a mode above 07777 is refused; [chmodPath] applies the
    permission bits alone, although it reports the mode it was given. *)
Theorem mode_bits home path s :
  (forall m, requestedMode s = Ok (Some m) ->
     exists p, parseMode s = Ok p /\ 0 <= p <= 4095 /\ syscallMode m = p) /\
  (forall fs faults reported fs',
     run_os faults (chmodPath home path s) fs = (Ok reported, fs') ->
     parseMode s = Ok reported /\
     exists n, lookup_path fs (resolveFilePath home path) = Some n /\
       lookup_path fs' (resolveFilePath home path) = Some (with_mode (syscallMode reported) n) /\
       (reported <= 4095 -> syscallMode reported = Z.land reported 511)).
Proof.
  split.
  - intros m. unfold requestedMode. destruct (blank s); [done|]. destruct (parseMode s) as [p|] eqn:Ep; [|done].
    destruct (4095 <? p) eqn:El; [done|]. intros [= <-]. apply parseMode_nonneg in Ep as Hp. apply Z.ltb_ge in El.
    exists p. split; [done|]. split; [done|]. by apply requested_exact.
  - intros fs faults reported fs'. unfold chmodPath, run_os. destruct (parseMode s) as [p|] eqn:Ep; [|done].
    unfold os_bind, chmod_os, update_inode, syscall. destruct (hd false faults); [done|].
    destruct (f_paths fs !! _) as [i|] eqn:Ei; [|done]. destruct (f_inodes fs !! i) as [n|] eqn:En; [|done].
    intros [= <- <-]. split; [done|]. exists n. unfold lookup_path. simpl. rewrite Ei. simpl. rewrite lookup_insert_eq.
    split_and!; [done|done|]. intros H. apply syscallMode_small. split; [by eapply parseMode_nonneg|done].
Qed.
