(* ===== verification/Uploads.v ===== *)
(** * Uploads ([files/stream.go] and the upload half of [files/ops.go])

    An upload is a session: HTTP streams write the chunks of one part file at
    their offsets, concurrently, and a commit renames the part file to its
    destination. The goroutines are interleaved at the granularity of the
    sections they run under the package's mutexes, of the opening of the part
    file and of the single writes; [step] is one such section of one task.

    An upload has one write lock here, held or free; the source drops a mutex
    from its map while others may wait on it. The end of a cancel's wait and
    its removal of the part file are one step: a stream could only start in
    between if the tombstone expired first. A commit's calls from [os.Stat] to
    the rename are one step as well; streams that started after its wait run
    before and after it. *)

From stdpp Require Import gmap.
From S2P Require Import Prelude.
From S2P Require Import GoStd.
From S2P Require Import GoPath.
From S2P Require Import Inodes.
From S2P Require Import Files.

Local Open Scope string_scope.
Local Open Scope Z_scope.

Definition uploadCancelTombstoneTTL : duration := 15 * minute.

Record uploadStreamSpec := mkSpec {
  sp_Path : string; sp_UploadID : string; sp_Offset : Z; sp_ChunkIndex : Z; sp_ChunkCount : Z;
  sp_TotalSize : Z; sp_ChunkSize : Z; sp_Expected : Z; sp_First : bool;
}.
Record uploadChunkState := mkChunks {
  cs_Size : Z; cs_ExpectedSize : Z; cs_ChunkSize : Z; cs_TargetPath : string;
  cs_Parts : gset Z; cs_PartCount : Z; cs_TempPath : string; cs_CreatedAt : time;
}.
(** [idle] is closed exactly when [active] is zero. *)
Record uploadStreamLifecycle := mkLife {
  lc_active : nat; lc_canceled : bool; lc_canceledAt : time; lc_streams : gset string;
}.

Definition parseUploadStreamSpec (home : option string) (args : arguments) : result uploadStreamSpec file_err :=
  let path := resolveFilePath home (argString args "path") in
  let id := trim_space (argString args "upload_id") in
  let offset := argInt64 args "offset" in
  let index := argInt64 args "chunk_index" in
  let count := argInt64 args "chunk_count" in
  let total := argInt64 args "total_size" in
  let size := argInt64 args "chunk_size" in
  let size := if size =? 0 then defaultTransferChunkSize else size in
  guard? negb (id =? "")%string else UploadIdRequired in
  guard? negb ((path =? "/")%string || (path =? ".")%string) else UploadPathNotFile in
  guard? negb ((offset <? 0) || (count <=? 0) || (total <=? 0)) else InvalidMetadata in
  guard? negb ((size <=? 0) || (maxTransferChunkSize <? size)) else ChunkSizeRange in
  guard? count =? idiv (wrap64 (wrap64 (total + size) - 1)) size else ChunkCountMismatch in
  guard? negb ((index <? 0) || (count <=? index) || negb (offset =? wrap64 (index * size))) else InvalidChunkOffset in
  let expected := Z.min size (wrap64 (total - offset)) in
  guard? 0 <? expected else InvalidChunkSize in
  Ok (mkSpec path id offset index count total size expected (argBool args "first")).

(** ** The package's state *)

(** A stream, after its request was accepted: [Begun] by [beginUploadStream];
    [Joined] the session, with the part path it read there; [Writing] the part
    file it opened, with the bytes written so far; [Ended] and about to leave
    the lifecycle. *)
Inductive phase :=
| Begun
| Joined (part : string)
| Writing (part : string) (fd : nat) (written : nat)
| Ended (r : result Z file_err).
(** [tk_body] is the body of the HTTP response the stream reads. *)
Record task := mkTask { tk_spec : uploadStreamSpec; tk_stream : string; tk_body : list ascii; tk_phase : phase }.

(** A commit: waiting for the streams, for the write lock, holding it after its
    checks passed, after the rename. *)
Inductive commit_phase := Waiting | Ready | Checked (part : string) | Renamed.
Record commit := mkCommit {
  cm_id : string; cm_path : string; cm_total : Z; cm_chunk : Z; cm_count : Z; cm_phase : commit_phase;
}.

(** [sy_locks] are the uploads whose write lock is held; [sy_renamed] is a
    history variable: the uploads whose part file was renamed. *)
Record Sys := mkSys {
  sy_fs : FS;
  sy_chunks : gmap string uploadChunkState;
  sy_life : gmap string uploadStreamLifecycle;
  sy_tasks : gmap nat task;
  sy_commits : gmap nat commit;
  sy_locks : gset string;
  sy_renamed : gset string;
}.
Definition with_fs fs s := mkSys fs (sy_chunks s) (sy_life s) (sy_tasks s) (sy_commits s) (sy_locks s) (sy_renamed s).
Definition with_chunks c s := mkSys (sy_fs s) c (sy_life s) (sy_tasks s) (sy_commits s) (sy_locks s) (sy_renamed s).
Definition with_life l s := mkSys (sy_fs s) (sy_chunks s) l (sy_tasks s) (sy_commits s) (sy_locks s) (sy_renamed s).
Definition with_task t v s := mkSys (sy_fs s) (sy_chunks s) (sy_life s) (<[t := v]> (sy_tasks s)) (sy_commits s) (sy_locks s) (sy_renamed s).
Definition drop_task t s := mkSys (sy_fs s) (sy_chunks s) (sy_life s) (delete t (sy_tasks s)) (sy_commits s) (sy_locks s) (sy_renamed s).
Definition with_commit c v s := mkSys (sy_fs s) (sy_chunks s) (sy_life s) (sy_tasks s) (<[c := v]> (sy_commits s)) (sy_locks s) (sy_renamed s).
Definition lock u s := mkSys (sy_fs s) (sy_chunks s) (sy_life s) (sy_tasks s) (sy_commits s) ({[u]} ∪ sy_locks s) (sy_renamed s).
(** A commit that returns, with the deferred unlock when it holds the lock. *)
Definition leave (c : nat) (u : string) (s : Sys) : Sys :=
  mkSys (sy_fs s) (sy_chunks s) (sy_life s) (sy_tasks s) (delete c (sy_commits s)) (sy_locks s ∖ {[u]}) (sy_renamed s).
Definition renamed u s := mkSys (sy_fs s) (sy_chunks s) (sy_life s) (sy_tasks s) (sy_commits s) (sy_locks s) ({[u]} ∪ sy_renamed s).
Definition in_phase (p : phase) (v : task) : task := mkTask (tk_spec v) (tk_stream v) (tk_body v) p.

(** ** Lifecycles *)

Definition idle_life : uploadStreamLifecycle := mkLife 0 false zero_time ∅.
Definition expired (now : time) (l : uploadStreamLifecycle) : bool :=
  lc_canceled l && Nat.eqb (lc_active l) 0 &&
  (is_zero (lc_canceledAt l) || (uploadCancelTombstoneTTL <=? now - lc_canceledAt l)).
Definition pruneUploadLifecyclesLocked (now : time) (m : gmap string uploadStreamLifecycle) :=
  omap (fun l => if expired now l then None else Some l) m.
Definition life_of (u : string) (m : gmap string uploadStreamLifecycle) : uploadStreamLifecycle := default idle_life (m !! u).

Definition beginUploadStream (now : time) (u stream : string) (m : gmap string uploadStreamLifecycle) :
  result unit file_err * gmap string uploadStreamLifecycle :=
  let m := pruneUploadLifecyclesLocked now m in
  let l := life_of u m in
  if lc_canceled l then (Err SessionCancelled, <[u := l]> m)
  else (Ok tt, <[u := mkLife (S (lc_active l)) false (lc_canceledAt l)
                       (if (stream =? "")%string then lc_streams l else {[stream]} ∪ lc_streams l)]> m).
(** The closure [beginUploadStream] returns, run once. *)
Definition endActive (u stream : string) (m : gmap string uploadStreamLifecycle) : gmap string uploadStreamLifecycle :=
  match m !! u with
  | None => m
  | Some l =>
      let streams := lc_streams l ∖ {[stream]} in
      match lc_active l with
      | O => <[u := mkLife 0 (lc_canceled l) (lc_canceledAt l) streams]> m
      | S n => if Nat.eqb n 0 && negb (lc_canceled l) then delete u m
               else <[u := mkLife n (lc_canceled l) (lc_canceledAt l) streams]> m
      end
  end.
(** [waitUploadStreams]: [None] while a stream is active. *)
Definition waitUploadStreams (u : string) (m : gmap string uploadStreamLifecycle) : option (gmap string uploadStreamLifecycle) :=
  match m !! u with
  | None => Some m
  | Some l => if Nat.eqb (lc_active l) 0 then Some (if lc_canceled l then m else delete u m) else None
  end.
(** The registered streams are also cancelled, which ends them with an error. *)
Definition cancelUploadStreams (now : time) (u : string) (m : gmap string uploadStreamLifecycle) : gmap string uploadStreamLifecycle :=
  let m := pruneUploadLifecyclesLocked now m in
  let l := life_of u m in
  <[u := mkLife (lc_active l) true now (lc_streams l)]> m.

(** ** Streams *)

(** The comparisons every stream and commit makes with the session. *)
Definition session_matches (st : uploadChunkState) (target_ok : bool) (total size count : Z) : result unit file_err :=
  guard? (cs_TargetPath st =? "")%string || target_ok else TargetMismatch in
  guard? (cs_ExpectedSize st =? 0) || (cs_ExpectedSize st =? total) else TotalMismatch in
  guard? (cs_ChunkSize st =? 0) || (cs_ChunkSize st =? size) else ChunkSizeMismatch in
  guard? (cs_PartCount st =? 0) || (cs_PartCount st =? count) else PartCountMismatch in
  Ok tt.

Definition new_session (sp : uploadStreamSpec) : uploadChunkState :=
  mkChunks 0 (sp_TotalSize sp) (sp_ChunkSize sp) (sp_Path sp) ∅ (sp_ChunkCount sp)
    (uploadPartPathFor (sp_Path sp) (sp_UploadID sp)) zero_time.

(** [writeUploadStreamChunk] up to the first unlock: join the session, which
    the first stream creates with an empty part file. The result is the part
    path. *)
Definition join_session (sp : uploadStreamSpec) (faults : list bool) (s : Sys) : result string file_err * Sys :=
  let part := uploadPartPathFor (sp_Path sp) (sp_UploadID sp) in
  let admit_ (st : uploadChunkState) (s : Sys) :=
    match session_matches st (clean (cs_TargetPath st) =? clean (sp_Path sp))%string
            (sp_TotalSize sp) (sp_ChunkSize sp) (sp_ChunkCount sp) with
    | Err e => (Err e, s)
    | Ok _ => (Ok (if (cs_TempPath st =? "")%string then part else cs_TempPath st), s)
    end in
  match sy_chunks s !! sp_UploadID sp with
  | Some st => admit_ st s
  | None =>
      if sp_First sp then
        match run_os faults (os _ <- open_create true part 384 ; close_fd) (sy_fs s) with
        | (Err e, fs) => (Err e, with_fs fs s)
        | (Ok _, fs) =>
            let st := new_session sp in
            admit_ st (with_chunks (<[sp_UploadID sp := st]> (sy_chunks s)) (with_fs fs s))
        end
      else (Err UnknownSession, s)
  end.

(** The bytes [io.CopyBuffer] moves: the body, limited to the chunk. *)
Definition limited (v : task) : list ascii := take (Z.to_nat (sp_Expected (tk_spec v))) (tk_body v).
(** One [Write] of at most [n] more bytes. *)
Definition write_some (v : task) (fd written n : nat) (fs : FS) : nat * FS :=
  let bs := take n (drop written (limited v)) in
  ((written + length bs)%nat, write_fd fd (Z.to_nat (sp_Offset (tk_spec v)) + written) bs fs).

(** [writeUploadStreamChunk] after the copy: the chunk counts only if every
    byte arrived, the file was flushed and closed, and the session is still
    there. *)
Definition record_chunk (sp : uploadStreamSpec) (part : string) (written now : Z) (st : uploadChunkState) : uploadChunkState :=
  mkChunks (Z.max (cs_Size st) (wrap64 (sp_Offset sp + written))) (sp_TotalSize sp) (sp_ChunkSize sp)
    (if (cs_TargetPath st =? "")%string then sp_Path sp else cs_TargetPath st)
    ({[sp_ChunkIndex sp]} ∪ cs_Parts st) (sp_ChunkCount sp) part now.
Definition finish_chunk (sp : uploadStreamSpec) (part : string) (written : nat) (faults : list bool) (now : time)
  (s : Sys) : result Z file_err * Sys :=
  if negb (Z.of_nat written =? sp_Expected sp) then (Err StreamShort, s) else
  match run_os faults (os _ <- sync_fd ; close_fd) (sy_fs s) with
  | (Err e, fs) => (Err e, with_fs fs s)
  | (Ok _, fs) =>
      match sy_chunks s !! sp_UploadID sp with
      | None => (Err SessionCancelled, with_fs fs s)
      | Some st =>
          (Ok (sp_Offset sp + Z.of_nat written),
           with_chunks (<[sp_UploadID sp := record_chunk sp part (Z.of_nat written) now st]> (sy_chunks s)) (with_fs fs s))
      end
  end.

(** ** Commit and cancel *)

Section Requests.
Variable home : option string.

(** [commitFileUpload] before it waits. *)
Definition commit_request (args : arguments) : result commit file_err :=
  let id := trim_space (argString args "upload_id") in
  let path := resolveFilePath home (argString args "path") in
  let total := argInt64 args "total_size" in
  let size := argInt64 args "chunk_size" in
  let count := argInt64 args "chunk_count" in
  guard? negb (id =? "")%string else UploadIdRequired in
  guard? negb ((path =? "/")%string || (path =? ".")%string) else UploadPathNotFile in
  guard? negb ((total <=? 0) || (count <=? 0)) else CountAndSizeRequired in
  let size := if size =? 0 then defaultTransferChunkSize else size in
  guard? negb ((size <=? 0) || (maxTransferChunkSize <? size)) else ChunkSizeRange in
  guard? count =? uploadChunkCount total size else ChunkCountMismatch in
  Ok (mkCommit id path total size count Waiting).

(** The checks under the write lock. The result is the part path. *)
Definition commit_check (c : commit) (chunks : gmap string uploadChunkState) : result string file_err :=
  match chunks !! cm_id c with
  | None => Err UnknownSession
  | Some st =>
      try? _ := session_matches st (samePath (cs_TargetPath st) (cm_path c)) (cm_total c) (cm_chunk c) (cm_count c) in
      guard? Z.of_nat (size (cs_Parts st)) =? cm_count c else Incomplete in
      guard? negb (cs_TempPath st =? "")%string else PartMissing in
      Ok (cs_TempPath st)
  end.

(** From [os.Stat] of the part file to its rename. *)
Definition publish (c : commit) (part : string) : OS unit :=
  os info <- stat_os part ;
  let length_ := Z.of_nat (length (in_data info)) in
  if length_ <? cm_total c then os_fail PartShort else
  os _ <- if cm_total c <? length_ then truncate_os part (Z.to_nat (cm_total c)) else os_ret tt ;
  os _ <- mkdir_all_os (dir (cm_path c)) ;
  os existing <- replaceableFile (cm_path c) ;
  os _ <- preserveReplacementMetadata part existing ;
  replaceFile part (cm_path c).

(** [cancelFileUpload] under the write lock, the streams gone. *)
Definition removeUploadFileLocked (u : string) (chunks : gmap string uploadChunkState) (faults : list bool) (fs : FS) :
  result unit file_err * gmap string uploadChunkState * FS :=
  match chunks !! u with
  | None => (Ok tt, chunks, fs)
  | Some st =>
      if (cs_TempPath st =? "")%string then (Ok tt, delete u chunks, fs) else
      match run_os faults (remove_os (cs_TempPath st)) fs with
      | (Err OsNotExist, fs) | (Ok _, fs) => (Ok tt, delete u chunks, fs)
      | (Err e, fs) => (Err e, chunks, fs)
      end
  end.
Definition cancel_upload (args : arguments) (faults : list bool) (s : Sys) : result unit file_err * Sys :=
  let u := trim_space (argString args "upload_id") in
  let target := trim_space (argString args "path") in
  let target := if (target =? "")%string then "" else resolveFilePath home target in
  match sy_chunks s !! u with
  | Some st =>
      if negb (target =? "")%string && negb (cs_TargetPath st =? "")%string && negb (samePath target (cs_TargetPath st))
      then (Err TargetMismatch, s)
      else let '(r, chunks, fs) := removeUploadFileLocked u (sy_chunks s) faults (sy_fs s) in
           (r, with_chunks chunks (with_fs fs s))
  | None =>
      if (target =? "")%string then (Ok tt, s) else
      match run_os faults (remove_os (uploadPartPathFor target u)) (sy_fs s) with
      | (Err OsNotExist, fs) | (Ok _, fs) => (Ok tt, with_fs fs s)
      | (Err e, fs) => (Err e, with_fs fs s)
      end
  end.

(** ** Interleaving *)

Inductive event :=
| EBegin (t : nat) (args : arguments) (body : list ascii) (now : time)
| EJoin (t : nat) (faults : list bool)
| EOpen (t : nat) (faults : list bool)
| EWrite (t n : nat)
| EFinish (t : nat) (faults : list bool) (now : time)
| EFail (t : nat) (e : file_err)      (** the request, the body or a write failed *)
| EEnd (t : nat)
| ECommit (c : nat) (args : arguments)
| EWaited (c : nat)
| ECheck (c : nat)
| EPublish (c : nat) (faults : list bool)
| EForget (c : nat)
| ECancel (args : arguments) (now : time)
| ERemove (args : arguments) (faults : list bool).

(** [None]: the section cannot run now. *)
Definition step (ev : event) (s : Sys) : option Sys :=
  match ev with
  | EBegin t args body now =>
      match sy_tasks s !! t with
      | Some _ => None
      | None =>
          match parseUploadStreamSpec home args with
          | Err _ => Some s
          | Ok sp =>
              let stream := trim_space (argString args "transfer_id") in
              match beginUploadStream now (sp_UploadID sp) stream (sy_life s) with
              | (Err _, life) => Some (with_life life s)
              | (Ok _, life) => Some (with_task t (mkTask sp stream body Begun) (with_life life s))
              end
          end
      end
  | EJoin t faults =>
      match sy_tasks s !! t with
      | Some v => match tk_phase v with
          | Begun => match join_session (tk_spec v) faults s with
                     | (Ok part, s) => Some (with_task t (in_phase (Joined part) v) s)
                     | (Err e, s) => Some (with_task t (in_phase (Ended (Err e)) v) s)
                     end
          | _ => None
          end
      | None => None
      end
  | EOpen t faults =>
      match sy_tasks s !! t with
      | Some v => match tk_phase v with
          | Joined part =>
              match run_os faults (open_create false part 384) (sy_fs s) with
              | (Ok fd, fs) => Some (with_task t (in_phase (Writing part fd 0) v) (with_fs fs s))
              | (Err e, fs) => Some (with_task t (in_phase (Ended (Err e)) v) (with_fs fs s))
              end
          | _ => None
          end
      | None => None
      end
  | EWrite t n =>
      match sy_tasks s !! t with
      | Some v => match tk_phase v with
          | Writing part fd written =>
              let '(written, fs) := write_some v fd written n (sy_fs s) in
              Some (with_task t (in_phase (Writing part fd written) v) (with_fs fs s))
          | _ => None
          end
      | None => None
      end
  | EFinish t faults now =>
      match sy_tasks s !! t with
      | Some v => match tk_phase v with
          | Writing part fd written =>
              let '(r, s) := finish_chunk (tk_spec v) part written faults now s in
              Some (with_task t (in_phase (Ended r) v) s)
          | _ => None
          end
      | None => None
      end
  | EFail t e =>
      match sy_tasks s !! t with
      | Some v => match tk_phase v with
          | Ended _ => None
          | _ => Some (with_task t (in_phase (Ended (Err e)) v) s)
          end
      | None => None
      end
  | EEnd t =>
      match sy_tasks s !! t with
      | Some v => match tk_phase v with
          | Ended _ => Some (drop_task t (with_life (endActive (sp_UploadID (tk_spec v)) (tk_stream v) (sy_life s)) s))
          | _ => None
          end
      | None => None
      end
  | ECommit c args =>
      match sy_commits s !! c, commit_request args with
      | Some _, _ => None
      | None, Err _ => Some s
      | None, Ok cm => Some (with_commit c cm s)
      end
  | EWaited c =>
      match sy_commits s !! c with
      | Some (mkCommit u p tot sz n Waiting) =>
          match waitUploadStreams u (sy_life s) with
          | Some life => Some (with_commit c (mkCommit u p tot sz n Ready) (with_life life s))
          | None => None
          end
      | _ => None
      end
  | ECheck c =>
      match sy_commits s !! c with
      | Some (mkCommit u p tot sz n Ready as cm) =>
          if bool_decide (u ∈ sy_locks s) then None else
          match commit_check cm (sy_chunks s) with
          | Ok part => Some (with_commit c (mkCommit u p tot sz n (Checked part)) (lock u s))
          | Err _ => Some (leave c u s)
          end
      | _ => None
      end
  | EPublish c faults =>
      match sy_commits s !! c with
      | Some (mkCommit u p tot sz n (Checked part) as cm) =>
          match publish cm part (sy_fs s, faults) with
          | (Err _, (fs, _)) => Some (leave c u (with_fs fs s))
          | (Ok _, (fs, faults)) =>
              match run_os faults (syncUploadDirectory (dir p)) fs with
              | (Err _, fs) => Some (leave c u (renamed u (with_fs fs s)))
              | (Ok _, fs) => Some (with_commit c (mkCommit u p tot sz n Renamed) (renamed u (with_fs fs s)))
              end
          end
      | _ => None
      end
  | EForget c =>
      match sy_commits s !! c with
      | Some (mkCommit u p tot sz n Renamed) => Some (leave c u (with_chunks (delete u (sy_chunks s)) s))
      | _ => None
      end
  | ECancel args now =>
      let u := trim_space (argString args "upload_id") in
      if (u =? "")%string then Some s else Some (with_life (cancelUploadStreams now u (sy_life s)) s)
  | ERemove args faults =>
      let u := trim_space (argString args "upload_id") in
      if (u =? "")%string then Some s else
      match waitUploadStreams u (sy_life s) with
      | None => None
      | Some life =>
          if bool_decide (u ∈ sy_locks s) then None
          else Some (snd (cancel_upload args faults (with_life life s)))
      end
  end.

Fixpoint run (evs : list event) (s : Sys) : option Sys :=
  match evs with [] => Some s | ev :: evs => step ev s ≫= run evs end.
End Requests.
Definition init (fs : FS) : Sys := mkSys fs ∅ ∅ ∅ ∅ ∅ ∅.

(** ** Descriptors and paths

    Facts about one file system, used for every interleaving. *)

Record fs_ok (fs : FS) : Prop := {
  ok_bound : forall p i, f_paths fs !! p = Some i -> (i < f_next fs)%nat /\ is_Some (f_inodes fs !! i);
  ok_inj : forall p q i, f_paths fs !! p = Some i -> f_paths fs !! q = Some i -> p = q;
}.

Lemma length_write_at off bs c : bs <> [] -> length (write_at off bs c) = Nat.max (length c) (off + length bs).
Proof.
  intros Hne. unfold write_at. destruct bs as [|b bs]; [done|].
  rewrite !length_app, length_take, length_drop, length_app, length_replicate. simpl. lia.
Qed.
Lemma lookup_write_in off bs c j : (off <= j < off + length bs)%nat -> write_at off bs c !! j = bs !! (j - off)%nat.
Proof.
  intros Hj. unfold write_at. destruct bs as [|b bs'] eqn:Eb; [simpl in Hj; lia|]. rewrite <- Eb in *. clear Eb b bs'.
  assert (length (take off (c ++ replicate (off - length c) zero)) = off) as Ht by (rewrite length_take, length_app, length_replicate; lia).
  rewrite lookup_app_r by lia. rewrite Ht. by rewrite lookup_app_l by lia.
Qed.
Lemma lookup_write_out off bs c j : ~ (off <= j < off + length bs)%nat -> (j < length c)%nat -> write_at off bs c !! j = c !! j.
Proof.
  intros Hj Hc. unfold write_at. destruct bs as [|b bs'] eqn:Eb; [done|]. rewrite <- Eb in *. clear Eb b bs'.
  assert (length (take off (c ++ replicate (off - length c) zero)) = off) as Ht by (rewrite length_take, length_app, length_replicate; lia).
  destruct (decide (j < off)%nat) as [H1|H1].
  - rewrite lookup_app_l by lia. rewrite lookup_take_lt by lia. by rewrite lookup_app_l by lia.
  - rewrite lookup_app_r, Ht by lia. rewrite lookup_app_r by lia. rewrite lookup_drop. f_equal. lia.
Qed.

(** [c] agrees with [data] on the bytes from [a] to [b]. *)
Definition covered (c data : list ascii) (a b : nat) : Prop :=
  forall j, (a <= j < b)%nat -> c !! j = data !! j /\ is_Some (data !! j).

(** Bytes of [data] written in their place keep every range already right, and
    make theirs right. *)
Lemma covered_write c data off bs :
  (forall j b, bs !! j = Some b -> data !! (off + j)%nat = Some b) ->
  (length c <= length data)%nat ->
  (length (write_at off bs c) <= length data)%nat /\
  covered (write_at off bs c) data off (off + length bs) /\
  (forall a b, covered c data a b -> covered (write_at off bs c) data a b).
Proof.
  intros Hbs Hlen.
  assert (Hin : covered (write_at off bs c) data off (off + length bs)).
  { intros j Hj. rewrite lookup_write_in by done.
    destruct (lookup_lt_is_Some_2 bs (j - off)%nat) as [x Hx]; [lia|].
    specialize (Hbs _ _ Hx). replace (off + (j - off))%nat with j in Hbs by lia. rewrite Hx, Hbs. split; [done|by eexists]. }
  split; [|split; [done|]].
  - destruct bs as [|b bs'] eqn:Eb; [done|]. rewrite length_write_at by done. rewrite <- Eb in *.
    destruct (lookup_lt_is_Some_2 bs (length bs - 1)%nat) as [x Hx]; [rewrite Eb; simpl; lia|].
    apply Hbs, lookup_lt_Some in Hx. assert (0 < length bs)%nat by (rewrite Eb; simpl; lia). lia.
  - intros a b Hc j Hj. destruct (decide (off <= j < off + length bs)%nat) as [Hr|Hr]; [by apply Hin|].
    destruct (Hc j Hj) as [He Hs]. rewrite lookup_write_out; [done|done|]. apply lookup_lt_is_Some. by rewrite He.
Qed.

(** Every byte right and no byte more. *)
Lemma covered_all c data : covered c data 0 (length data) -> (length c <= length data)%nat -> c = data.
Proof.
  intros Hc Hl. apply list_eq. intros j. destruct (decide (j < length data)%nat) as [Hj|Hj]; [by apply Hc; lia|].
  rewrite !lookup_ge_None_2; [done|lia|lia].
Qed.

(** ** Chunks *)

(** What an accepted request says: its chunk is one of [ceil(total / size)]
    equal pieces, the last one shorter, and nothing wrapped around. *)
Definition chunk_spec (sp : uploadStreamSpec) : Prop :=
  0 < sp_ChunkSize sp <= maxTransferChunkSize /\ 0 < sp_TotalSize sp <= max_int64 /\
  0 <= sp_ChunkIndex sp < sp_ChunkCount sp /\
  sp_ChunkCount sp = (sp_TotalSize sp + sp_ChunkSize sp - 1) / sp_ChunkSize sp /\
  sp_Offset sp = sp_ChunkIndex sp * sp_ChunkSize sp /\
  sp_Expected sp = Z.min (sp_ChunkSize sp) (sp_TotalSize sp - sp_Offset sp) /\
  0 < sp_Expected sp.

Lemma ceil_index total size k : 0 < size -> 0 < total -> k < (total + size - 1) / size <-> k * size < total.
Proof.
  intros Hs Ht. split; intros H.
  - assert ((k + 1) * size <= total + size - 1); [|lia].
    pose proof (Z.mul_div_le (total + size - 1) size Hs). nia.
  - assert (k + 1 <= (total + size - 1) / size); [|lia]. apply Z.div_le_lower_bound; nia.
Qed.

Lemma no_wrap_count total size count :
  0 < size <= maxTransferChunkSize -> 0 < total <= max_int64 -> 0 < count ->
  count = idiv (wrap64 (wrap64 (total + size) - 1)) size -> total + size - 1 <= max_int64 /\ count = (total + size - 1) / size.
Proof.
  unfold maxTransferChunkSize, max_int64, idiv. intros Hs Ht Hc He.
  destruct (decide (total + size - 1 <= 2 ^ 63 - 1)) as [Hle|Hgt].
  - split; [done|]. rewrite He. destruct (decide (total + size <= 2 ^ 63 - 1)).
    + rewrite !(wrap64_id) by (rewrite ?wrap64_id; unfold is_int64, min_int64, max_int64; lia).
      rewrite Z.quot_div_nonneg by lia. done.
    + assert (total + size = 2 ^ 63) as -> by lia. rewrite Z.quot_div_nonneg; [reflexivity|vm_compute; discriminate|lia].
  - exfalso. assert (wrap64 (wrap64 (total + size) - 1) = total + size - 1 - 2 ^ 64) as Hw.
    { assert (wrap64 (total + size) = total + size - 2 ^ 64) as ->.
      - unfold wrap64. rewrite <- (Z.mod_add _ (-1)) by lia. rewrite Z.mod_small; lia.
      - rewrite wrap64_id; unfold is_int64, min_int64, max_int64; lia. }
    rewrite Hw in He. assert (Z.quot (total + size - 1 - 2 ^ 64) size <= 0); [|lia].
    replace (total + size - 1 - 2 ^ 64) with (- (2 ^ 64 - (total + size - 1))) by lia. rewrite Z.quot_opp_l by lia.
    pose proof (Z.quot_pos (2 ^ 64 - (total + size - 1)) size). lia.
Qed.

Lemma parse_chunk home args sp : parseUploadStreamSpec home args = Ok sp -> chunk_spec sp.
Proof.
  unfold parseUploadStreamSpec. set (size0 := if argInt64 args "chunk_size" =? 0 then _ else _).
  set (total := argInt64 args "total_size"). set (offset := argInt64 args "offset").
  set (index := argInt64 args "chunk_index"). set (count := argInt64 args "chunk_count"). intros H.
  assert (Hr : forall key, is_int64 (argInt64 args key)).
  { intros key. unfold argInt64. destruct (args !! key) as [[]|]; try apply wrap64_range; unfold is_int64, min_int64, max_int64; lia. }
  pose proof (Hr "total_size") as Ht. pose proof (Hr "offset") as Ho. pose proof (Hr "chunk_index") as Hi. fold total offset index in Ht, Ho, Hi.
  ok_inv H. clearbody size0 total offset index count. clear Hr. unfold chunk_spec.
  cbn [sp_ChunkSize sp_TotalSize sp_ChunkIndex sp_ChunkCount sp_Offset sp_Expected]. bool_hyps. unfold is_int64 in *.
  set (count0 := idiv _ size0) in *.
  destruct (no_wrap_count total size0 count0) as [Hmax Hcount]; [lia|lia|lia|done|]. clearbody count0. subst count0.
  pose proof (proj1 (ceil_index total size0 index ltac:(lia) ltac:(lia)) ltac:(lia)) as Hit.
  assert (Hiw : wrap64 (index * size0) = index * size0) by (apply wrap64_id; unfold is_int64, min_int64; nia).
  rewrite Hiw in *. rewrite (wrap64_id (total - _)) in * by (unfold is_int64, min_int64; nia).
  split_and!; try lia; done.
Qed.

(** Chunks. An accepted stream request names one of [ceil(total/size)]
    chunks, no arithmetic wrapped around, and its bytes are exactly those whose
    index divided by the chunk size is the chunk's: the chunks of an upload are
    disjoint and cover the file. *)
Theorem parseUploadStreamSpec_tiles home args sp :
  parseUploadStreamSpec home args = Ok sp ->
  chunk_spec sp /\
  (forall j, 0 <= j < sp_TotalSize sp ->
     0 <= j / sp_ChunkSize sp < sp_ChunkCount sp /\
     (sp_Offset sp <= j < sp_Offset sp + sp_Expected sp <-> j / sp_ChunkSize sp = sp_ChunkIndex sp)).
Proof.
  intros H%parse_chunk. split; [done|]. destruct H as (Hs & Ht & Hi & Hc & Ho & He & Hp). intros j Hj.
  pose proof (Z.div_mod j (sp_ChunkSize sp) ltac:(lia)) as Hd. pose proof (Z.mod_pos_bound j (sp_ChunkSize sp) ltac:(lia)) as Hm.
  split.
  - split; [apply Z.div_pos; lia|]. rewrite Hc. apply ceil_index; [lia|lia|]. nia.
  - rewrite He, !Ho. split.
    + intros Hb. symmetry. apply (Z.div_unique_pos _ _ _ (j - sp_ChunkIndex sp * sp_ChunkSize sp)); nia.
    + intros <-. rewrite !(Z.mul_comm (j / _)). lia.
Qed.

Definition wit_args (index : Z) : arguments :=
  {["path" := VString "/srv/file"; "upload_id" := VString "u1"; "offset" := VNumber (index * 4); "chunk_index" := VNumber index;
    "chunk_count" := VNumber 3; "total_size" := VNumber 10; "chunk_size" := VNumber 4; "first" := VBool true;
    "transfer_id" := VString "t"]}.
Definition wit_spec (index : Z) : uploadStreamSpec :=
  mkSpec "/srv/file" "u1" (index * 4) index 3 10 4 (Z.min 4 (10 - index * 4)) true.

Lemma parseUploadStreamSpec_tiles_witness :
  chunk_spec (wit_spec 2) /\
  (forall j, 0 <= j < 10 -> 0 <= j / 4 < 3 /\ (8 <= j < 8 + 2 <-> j / 4 = 2)).
Proof. apply (parseUploadStreamSpec_tiles None (wit_args 2) (wit_spec 2)). vm_compute. reflexivity. Defined.

(** ** Integrity

    The uploads [ids], with the destination, bytes and chunk size of each. *)

Section Integrity.
Context (home : option string) (ids : list string) (path : string -> string) (data : string -> list ascii) (chunk : string -> Z).
Definition part_of (u : string) : string := uploadPartPathFor (path u) u.
Definition total (u : string) : Z := Z.of_nat (length (data u)).
Definition chunks_of (u : string) : Z := (total u + chunk u - 1) / chunk u.

(** No upload's part file is another's, nor any upload's destination. *)
Definition separate : Prop := forall u u', u ∈ ids -> u' ∈ ids ->
  path u <> "" /\ (part_of u = part_of u' -> u = u') /\ clean (path u) <> clean (part_of u').
Context (Hsep : separate).

(** What a stream of the panel sends. *)
Definition honest_stream (sp : uploadStreamSpec) (body : list ascii) : Prop :=
  sp_UploadID sp ∈ ids /\ sp_Path sp = path (sp_UploadID sp) /\
  sp_TotalSize sp = total (sp_UploadID sp) /\ sp_ChunkSize sp = chunk (sp_UploadID sp) /\
  forall j b, take (Z.to_nat (sp_Expected sp)) body !! j = Some b -> data (sp_UploadID sp) !! (Z.to_nat (sp_Offset sp) + j)%nat = Some b.
Definition honest (ev : event) : Prop :=
  match ev with
  | EBegin _ args body _ => forall sp, parseUploadStreamSpec home args = Ok sp -> honest_stream sp body
  | ERemove args _ =>
      let target := trim_space (argString args "path") in
      target = "" \/ forall u, u ∈ ids -> u <> trim_space (argString args "upload_id") ->
        uploadPartPathFor (resolveFilePath home target) (trim_space (argString args "upload_id")) <> part_of u
  | _ => True
  end.

Definition tk_id (v : task) : string := sp_UploadID (tk_spec v).

(** *** Steps of one upload leave the files of the others alone *)

(** A descriptor of the upload [u]: bound, if at all, at its part path or its
    destination. *)
Definition owned (u : string) (fd : nat) (fs : FS) : Prop :=
  (fd < f_next fs)%nat /\
  forall q, f_paths fs !! q = Some fd -> q = part_of u \/ clean q = clean (path u).
Record evolves (u0 : string) (fs fs' : FS) : Prop := {
  ev_ok : fs_ok fs';
  ev_owned : forall u fd, u ∈ ids -> owned u fd fs -> owned u fd fs';
  ev_other : forall u i, u ∈ ids -> u <> u0 -> f_paths fs !! part_of u = Some i ->
    f_paths fs' !! part_of u = Some i /\ f_inodes fs' !! i = f_inodes fs !! i;
}.

Lemma evolves_refl u0 fs : fs_ok fs -> evolves u0 fs fs.
Proof. intros H. split; [done|done|]. by intros. Qed.
Lemma evolves_trans u0 a b c : evolves u0 a b -> evolves u0 b c -> evolves u0 a c.
Proof.
  intros [o1 w1 e1] [o2 w2 e2]. split; [done|by auto|]. intros u i Hu Hne Hi.
  destruct (e1 u i Hu Hne Hi) as [H1 H2]. destruct (e2 u i Hu Hne H1) as [H3 H4]. split; [done|congruence].
Qed.

Lemma evolves_set_inode u0 i n n0 fs :
  fs_ok fs -> f_inodes fs !! i = Some n0 -> (forall u, u ∈ ids -> u <> u0 -> f_paths fs !! part_of u <> Some i) ->
  evolves u0 fs (set_inode i n fs).
Proof.
  intros [Hb Hi] Hn Hne. split; [split|done|].
  - intros p j Hp. simpl in *. destruct (Hb p j Hp) as [H1 H2]. split; [done|].
    destruct (decide (i = j)) as [->|Hij]; [by rewrite lookup_insert_eq|by rewrite lookup_insert_ne].
  - done.
  - intros u j Hu Hu0 Hp. split; [done|]. simpl. rewrite lookup_insert_ne; [done|]. intros ->. by apply (Hne u).
Qed.
Lemma evolves_unlink u0 p fs :
  fs_ok fs -> (forall u, u ∈ ids -> u <> u0 -> p <> part_of u) -> evolves u0 fs (unlink p fs).
Proof.
  intros [Hb Hi] Hne. split; [split|..].
  - intros q j. simpl. rewrite lookup_delete_Some. intros [_ Hq]. by apply (Hb q).
  - intros q r i. simpl. rewrite !lookup_delete_Some. intros [_ H1] [_ H2]. by apply (Hi q r i).
  - intros u fd Hu [H1 H2]. split; [done|]. intros q. simpl. rewrite lookup_delete_Some. intros [_ Hq]. by apply H2.
  - intros u i Hu Hu0 Hp. split; [|done]. simpl. rewrite lookup_delete_ne; [done|]. by apply Hne.
Qed.
Lemma part_unique u u' : u ∈ ids -> u' ∈ ids -> part_of u = part_of u' -> u = u'.
Proof. intros H1 H2. by apply Hsep. Qed.

Lemma evolves_open u0 trunc mode fs fd fs' faults :
  u0 ∈ ids -> fs_ok fs -> run_os faults (open_create trunc (part_of u0) mode) fs = (Ok fd, fs') ->
  evolves u0 fs fs' /\ owned u0 fd fs' /\ f_paths fs' !! part_of u0 = Some fd /\
  exists n, f_inodes fs' !! fd = Some n /\ in_regular n = true /\
    (trunc = true -> in_data n = []) /\
    (trunc = false -> forall i n0, f_paths fs !! part_of u0 = Some i -> f_inodes fs !! i = Some n0 -> fd = i /\ n = n0).
Proof.
  intros Hu [Hb Hi]. unfold run_os, open_create, syscall. destruct (hd false faults); [done|].
  destruct (f_paths fs !! part_of u0) as [i|] eqn:Ei.
  - destruct (f_inodes fs !! i) as [n|] eqn:En; [|done]. destruct (in_regular n) eqn:Er; [|done].
    intros [= <- <-].
    assert (Hown : owned u0 i fs).
    { split; [by eapply Hb|]. intros q Hq. left. by eapply Hi. }
    destruct trunc.
    + split; [|split; [done|split; [done|]]].
      * eapply evolves_set_inode; [by split|done|]. intros u Hu' Hne Hp. apply Hne. eapply part_unique; [done..|]. by eapply Hi.
      * exists (with_data [] n). simpl. by rewrite lookup_insert_eq.
    + split; [apply evolves_refl; by split|]. split; [done|]. split; [done|]. exists n. split_and!; try done. intros _ ? ? [= <-] ?. split; congruence.
  - intros [= <- <-].
    assert (Hfresh : forall q, f_paths fs !! q <> Some (f_next fs)) by (intros q Hq; apply Hb in Hq as [? _]; lia).
    split; [split; [split|..]|split; [split|split]]; simpl.
    + intros q j. rewrite lookup_insert_Some. intros [[<- <-]|[Hne Hq]]; [rewrite lookup_insert_eq; split; [lia|done]|].
      destruct (Hb q j Hq) as [H1 H2]. rewrite lookup_insert_ne by lia. split; [lia|done].
    + intros q r j. rewrite !lookup_insert_Some.
      intros [[<- <-]|[? H1]] [[<- E2]|[? H2]]; subst; try done; try (by apply Hfresh in H1); try (by apply Hfresh in H2). by eapply Hi.
    + intros u fd Hu' [H1 H2]. split; simpl; [lia|]. intros q. rewrite lookup_insert_Some.
      intros [[<- <-]|[? Hq]]; [lia|]. by apply H2.
    + intros u i Hu' Hne Hp. rewrite lookup_insert_ne by (intros Heq; apply Hne; by eapply part_unique).
      split; [done|]. rewrite lookup_insert_ne; [done|]. intros <-. by apply Hfresh in Hp.
    + lia.
    + intros q. rewrite lookup_insert_Some. intros [[<- _]|[_ Hq]]; [by left|by apply Hfresh in Hq].
    + apply lookup_insert_eq.
    + exists (mkInode true mode (0, 0) []). by rewrite lookup_insert_eq.
Qed.

(** *** Runs of system calls *)

Definition os_triple {A} (P : FS -> Prop) (m : OS A) (Q : A -> FS -> Prop) (E : FS -> Prop) : Prop :=
  forall fs faults r fs' faults', P fs -> m (fs, faults) = (r, (fs', faults')) ->
    match r with Ok a => Q a fs' | Err _ => E fs' end.
Lemma os_triple_bind {A B} P (m : OS A) Q (k : A -> OS B) R E :
  os_triple P m Q E -> (forall a, os_triple (Q a) (k a) R E) -> os_triple P (os_bind m k) R E.
Proof.
  intros Hm Hk fs faults r fs' faults' HP. unfold os_bind. destruct (m (fs, faults)) as [[a|e] [fs1 faults1]] eqn:Em.
  - apply Hk. by apply (Hm _ _ _ _ _ HP Em).
  - intros [= <- <- <-]. by apply (Hm _ _ _ _ _ HP Em).
Qed.
Lemma os_triple_ret {A} (P : FS -> Prop) (a : A) E : os_triple P (os_ret a) (fun _ => P) E.
Proof. by intros fs faults r fs' faults' HP [= <- <- <-]. Qed.
Lemma os_triple_fail {A} (P : FS -> Prop) e (Q : A -> FS -> Prop) : os_triple P (os_fail e) Q P.
Proof. by intros fs faults r fs' faults' HP [= <- <- <-]. Qed.
Lemma os_triple_call {A} (P : FS -> Prop) (f : FS -> result A file_err * FS) (Q : A -> FS -> Prop) :
  (forall fs, P fs -> match f fs with (Ok a, fs') => Q a fs' | (Err _, fs') => P fs' end) ->
  os_triple P (syscall f) Q P.
Proof.
  intros Hf fs faults r fs' faults' HP. unfold syscall. destruct (hd false faults); [by intros [= <- <- <-]|].
  specialize (Hf fs HP). destruct (f fs) as [r1 fs1]. by intros [= <- <- <-].
Qed.
Lemma os_triple_run {A} P (m : OS A) Q E fs faults r fs' :
  os_triple P m Q E -> P fs -> run_os faults m fs = (r, fs') -> match r with Ok a => Q a fs' | Err _ => E fs' end.
Proof.
  intros Hm HP. unfold run_os. destruct (m (fs, faults)) as [r1 [fs1 faults1]] eqn:Em. intros [= <- <-].
  by apply (Hm _ _ _ _ _ HP Em).
Qed.

Section Publish.
Context (u0 : string) (q : string) (Hu0 : u0 ∈ ids) (Hq : clean q = clean (path u0)).

Lemma q_not_part u : u ∈ ids -> q <> part_of u.
Proof. intros Hu ->. by apply (Hsep u0 u Hu0 Hu). Qed.

Lemma evolves_rename i fs :
  fs_ok fs -> f_paths fs !! part_of u0 = Some i -> evolves u0 fs (bind_path q i (unlink (part_of u0) fs)).
Proof.
  intros [Hb Hi] Hp. split; [split|..]; simpl.
  - intros p j. rewrite lookup_insert_Some, lookup_delete_Some.
    intros [[<- <-]|[_ [_ Hj]]]; [by apply (Hb (part_of u0))|by apply (Hb p)].
  - intros p r j. rewrite !lookup_insert_Some, !lookup_delete_Some.
    intros [[<- <-]|[? [N1 H1]]] [[<- E2]|[? [N2 H2]]]; subst; try done.
    + exfalso. apply N2. by eapply Hi.
    + exfalso. apply N1. by eapply Hi.
    + by eapply Hi.
  - intros u fd Hu [H1 H2]. split; simpl; [done|]. intros p. rewrite lookup_insert_Some, lookup_delete_Some.
    intros [[<- <-]|[_ [_ Hj]]]; [|by apply H2]. right.
    destruct (H2 _ Hp) as [He|He]; [by rewrite <- (part_unique u0 u)|]. exfalso. by apply (Hsep u u0 Hu Hu0).
  - intros u j Hu Hne Hj. split; [|done]. rewrite lookup_insert_ne by (by apply q_not_part).
    rewrite lookup_delete_ne; [done|]. intros He. apply Hne. by eapply part_unique.
Qed.

(** The part file is at inode [i] with contents [d]. *)
Definition holds (i : nat) (d : list ascii) (fs : FS) : Prop :=
  f_paths fs !! part_of u0 = Some i /\ exists n, f_inodes fs !! i = Some n /\ in_data n = d.

(** A state reached from [fs0] by calls on the part file. *)
Definition reached (fs0 : FS) (i : nat) (d : list ascii) (fs : FS) : Prop := evolves u0 fs0 fs /\ holds i d fs.

Lemma update_reached fs0 i d d' (f : Inode -> Inode) :
  (forall n, in_data n = d -> in_data (f n) = d') ->
  os_triple (reached fs0 i d) (update_inode f (part_of u0)) (fun _ => reached fs0 i d') (reached fs0 i d).
Proof.
  intros Hd. apply os_triple_call. intros fs [He [Hp (n & Hn & Hdat)]]. rewrite Hp, Hn. split.
  - eapply evolves_trans; [exact He|]. eapply evolves_set_inode; [apply He|done|].
    intros u Hu Hne Hpu. apply Hne. eapply part_unique; [done..|]. eapply (ok_inj _ (ev_ok _ _ _ He)); done.
  - split; [done|]. exists (f n). simpl. rewrite lookup_insert_eq. split; [done|by apply Hd].
Qed.
Lemma preserve_reached fs0 i d existing :
  os_triple (reached fs0 i d) (preserveReplacementMetadata (part_of u0) existing) (fun _ => reached fs0 i d) (reached fs0 i d).
Proof.
  unfold preserveReplacementMetadata. destruct existing as [n|]; [|by apply update_reached].
  intros fs faults r fs' faults' HP. destruct (changeOwnership _ _ _) as [r1 [fs1 f1]] eqn:E1.
  assert (H1 : reached fs0 i d fs1).
  { pose proof (update_reached fs0 i d d (with_owner (in_owner n)) (fun _ H => H) _ _ _ _ _ HP E1) as H1.
    by destruct r1. }
  destruct r1 as [a|e]; [|by intros [= <- <- <-]]. intros E2.
  exact (update_reached fs0 i d d (with_mode _) (fun _ H => H) _ _ _ _ _ H1 E2).
Qed.

(** A commit publishes exactly the part file, cut to the total; a refused
    one leaves it in place, whole if it was not too long. *)
Lemma publish_spec c fs0 i d :
  cm_path c = q ->
  os_triple (fun fs => fs = fs0 /\ fs_ok fs0 /\ holds i d fs0) (publish c (part_of u0))
    (fun _ fs => evolves u0 fs0 fs /\ contents fs q = Some (take (Z.to_nat (cm_total c)) d) /\ cm_total c <= Z.of_nat (length d))
    (fun fs => evolves u0 fs0 fs /\ exists d', holds i d' fs /\ (Z.of_nat (length d) <= cm_total c -> d' = d)).
Proof.
  intros Hc. unfold publish. rewrite Hc.
  assert (Hstart : forall fs, fs = fs0 /\ fs_ok fs0 /\ holds i d fs0 -> reached fs0 i d fs).
  { intros fs (-> & Hok & Hh). split; [by apply evolves_refl|done]. }
  intros fs faults r fs' faults' HP%Hstart Hrun. revert fs faults r fs' faults' HP Hrun.
  change (os_triple (reached fs0 i d) (publish (mkCommit (cm_id c) q (cm_total c) (cm_chunk c) (cm_count c) (cm_phase c)) (part_of u0))
    (fun _ fs => evolves u0 fs0 fs /\ contents fs q = Some (take (Z.to_nat (cm_total c)) d) /\ cm_total c <= Z.of_nat (length d))
    (fun fs => evolves u0 fs0 fs /\ exists d', holds i d' fs /\ (Z.of_nat (length d) <= cm_total c -> d' = d))).
  set (E := fun fs => evolves u0 fs0 fs /\ exists d', holds i d' fs /\ (Z.of_nat (length d) <= cm_total c -> d' = d)).
  assert (HE : forall fs, reached fs0 i d fs -> E fs) by (intros fs [? ?]; split; [done|]; by exists d).
  unfold publish. cbn [cm_total cm_path].
  set (d' := take (Z.to_nat (cm_total c)) d).
  assert (HE' : forall fs, reached fs0 i d' fs -> E fs).
  { intros fs [? ?]; split; [done|]. exists d'. split; [done|]. intros Hl. unfold d'. rewrite take_ge; [done|lia]. }
  assert (Hweak : forall {A} (m : OS A) P Q (E1 : FS -> Prop), os_triple P m Q E1 -> (forall fs, E1 fs -> E fs) -> os_triple P m Q E).
  { intros A m P Q E1 Hm HE1 fs faults r fs' faults' HP Hr. specialize (Hm _ _ _ _ _ HP Hr). destruct r; auto. }
  apply (os_triple_bind _ _ (fun info fs => reached fs0 i d fs /\ in_data info = d)).
  { eapply Hweak; [|exact HE]. apply os_triple_call. intros fs [He [Hp (n & Hn & Hd)]]. unfold lookup_path. rewrite Hp. simpl.
    rewrite Hn. split; [|done]. split; [done|]. split; [done|]. by exists n. }
  intros info fs faults r fs' faults' [HP Hinfo]. rewrite Hinfo. destruct (_ <? _) eqn:Elen.
  { intros [= <- <- <-]. by apply HE. }
  apply Z.ltb_ge in Elen.
  assert (Hrest : os_triple (reached fs0 i d') (os _ <- mkdir_all_os (dir q) ; os existing <- replaceableFile q ;
      os _ <- preserveReplacementMetadata (part_of u0) existing ; replaceFile (part_of u0) q)
    (fun _ fs => evolves u0 fs0 fs /\ contents fs q = Some d' /\ cm_total c <= Z.of_nat (length d)) E).
  { eapply Hweak; [|exact HE']. apply (os_triple_bind _ _ (fun _ => reached fs0 i d')).
    { by apply os_triple_call. }
    intros _. apply (os_triple_bind _ _ (fun _ => reached fs0 i d')).
    { apply os_triple_call. intros f Hf. destruct (lookup_path f q) as [n|]; [|done]. by destruct (in_regular n). }
    intros existing. eapply os_triple_bind; [apply preserve_reached|]. intros [].  simpl.
    apply os_triple_call. intros f [He [Hp (n & Hn & Hd)]]. rewrite Hp. split; [|split; [|done]].
    - eapply evolves_trans; [exact He|]. apply evolves_rename; [apply He|done].
    - unfold contents, lookup_path. simpl. rewrite lookup_insert_eq. simpl. by rewrite Hn; simpl; rewrite Hd. }
  refine (os_triple_bind (reached fs0 i d) _ (fun _ => reached fs0 i d') _ _ E _ (fun _ => Hrest) fs faults r fs' faults' HP).
  destruct (cm_total c <? Z.of_nat (length d)) eqn:Et.
  - eapply Hweak; [|exact HE]. apply update_reached. by intros n ->.
  - apply Z.ltb_ge in Et. intros f f1 r1 f2 f3 [He Hh] [= <- <- <-]. split; [done|]. unfold d'. by rewrite take_ge by lia.
Qed.
End Publish.

Lemma publish_evolves u0 c faults r fs fs' faults' :
  u0 ∈ ids -> clean (cm_path c) = clean (path u0) -> fs_ok fs ->
  publish c (part_of u0) (fs, faults) = (r, (fs', faults')) -> evolves u0 fs fs'.
Proof.
  intros Hu Hq Hok Hrun. destruct (f_paths fs !! part_of u0) as [i|] eqn:Ei.
  - destruct (ok_bound _ Hok _ _ Ei) as [_ [n Hn]].
    assert (Hh : holds u0 i (in_data n) fs) by (split; [done|by exists n]).
    pose proof (publish_spec u0 (cm_path c) Hu Hq c fs i (in_data n) eq_refl _ _ _ _ _ (conj eq_refl (conj Hok Hh)) Hrun) as Hp.
    destruct r; apply Hp.
  - revert Hrun. unfold publish, os_bind, stat_os, syscall. destruct (hd false faults); [intros [= <- <- <-]; by apply evolves_refl|].
    unfold lookup_path. rewrite Ei. intros [= <- <- <-]. by apply evolves_refl.
Qed.

(** *** Lifecycles count the streams *)

Definition count (u : string) (tasks : gmap nat task) : nat := size (filter (fun kv => tk_id kv.2 = u) tasks).

Lemma count_update u t v v' tasks : tasks !! t = Some v -> tk_id v' = tk_id v -> count u (<[t := v']> tasks) = count u tasks.
Proof.
  intros Ht Hid. unfold count. rewrite <- (insert_id tasks t v Ht) at 2. rewrite <- (insert_delete_eq tasks t v'), <- (insert_delete_eq tasks t v).
  rewrite !map_filter_insert. simpl. rewrite Hid. destruct (decide (tk_id v = u)); [|done].
  rewrite !map_size_insert_None; [done|..]; apply map_lookup_filter_None; left; apply lookup_delete_eq.
Qed.
Lemma count_add u t v tasks : tasks !! t = None -> count u (<[t := v]> tasks) = (count u tasks + if decide (tk_id v = u) then 1 else 0)%nat.
Proof.
  intros Ht. unfold count. rewrite map_filter_insert. simpl. destruct (decide (tk_id v = u)).
  - rewrite map_size_insert_None; [lia|]. apply map_lookup_filter_None. by left.
  - rewrite delete_id by done. lia.
Qed.
Lemma count_drop u t v tasks : tasks !! t = Some v -> (count u (delete t tasks) + if decide (tk_id v = u) then 1 else 0)%nat = count u tasks.
Proof.
  intros Ht. rewrite <- (count_add u t v (delete t tasks)) by apply lookup_delete_eq. by rewrite insert_delete_eq, insert_id.
Qed.
Lemma count_zero u tasks t v : count u tasks = 0%nat -> tasks !! t = Some v -> tk_id v <> u.
Proof.
  intros Hc Ht Hid. unfold count in Hc. apply map_size_empty_inv in Hc. apply (f_equal (lookup t)) in Hc.
  rewrite lookup_empty, map_lookup_filter_None in Hc. destruct Hc as [Hc|Hc]; [congruence|]. by apply (Hc v).
Qed.

Definition actives (m : gmap string uploadStreamLifecycle) (u : string) : nat := lc_active (life_of u m).
Lemma actives_insert m u u' l : actives (<[u := l]> m) u' = if decide (u = u') then lc_active l else actives m u'.
Proof. unfold actives, life_of. destruct (decide (u = u')) as [->|]; [by rewrite lookup_insert_eq|by rewrite lookup_insert_ne]. Qed.
Lemma actives_delete m u u' : actives (delete u m) u' = if decide (u = u') then 0%nat else actives m u'.
Proof. unfold actives, life_of. destruct (decide (u = u')) as [->|]; [by rewrite lookup_delete_eq|by rewrite lookup_delete_ne]. Qed.
Lemma actives_prune now m u : actives (pruneUploadLifecyclesLocked now m) u = actives m u.
Proof.
  unfold actives, life_of, pruneUploadLifecyclesLocked. rewrite lookup_omap. destruct (m !! u) as [l|]; simpl; [|done].
  destruct (expired now l) eqn:E; [|done]. simpl. unfold expired in E. apply andb_true_iff in E as [E _]. apply andb_true_iff in E as [_ E].
  by apply Nat.eqb_eq in E.
Qed.
Lemma actives_begin now u stream m m' u' r : beginUploadStream now u stream m = (r, m') ->
  actives m' u' = (actives m u' + if is_ok r then if decide (u = u') then 1 else 0 else 0)%nat.
Proof.
  unfold beginUploadStream. pose proof (actives_prune now m) as Hp. set (m1 := pruneUploadLifecyclesLocked now m) in *.
  destruct (lc_canceled _); intros [= <- <-]; rewrite actives_insert, <- Hp; simpl; destruct (decide (u = u')) as [->|]; unfold actives; lia.
Qed.
Lemma actives_end u stream m u' : (0 < actives m u)%nat ->
  (actives (endActive u stream m) u' + if decide (u = u') then 1 else 0)%nat = actives m u'.
Proof.
  intros H. unfold endActive. assert (Hm : exists l, m !! u = Some l) by (unfold actives, life_of in H; destruct (m !! u); [by eexists|simpl in H; lia]).
  destruct Hm as [l Hl]. rewrite Hl. assert (Ha : actives m u = lc_active l) by (unfold actives, life_of; by rewrite Hl).
  rewrite Ha in H. destruct (lc_active l) as [|n] eqn:En; [lia|].
  destruct (Nat.eqb n 0 && negb (lc_canceled l)) eqn:Ed.
  - apply andb_true_iff in Ed as [Ed _]. apply Nat.eqb_eq in Ed as ->. rewrite actives_delete.
    destruct (decide (u = u')) as [<-|]; lia.
  - rewrite actives_insert. destruct (decide (u = u')) as [<-|]; simpl; lia.
Qed.
Lemma actives_wait u m m' u' : waitUploadStreams u m = Some m' -> actives m' u' = actives m u' /\ actives m u = 0%nat.
Proof.
  unfold waitUploadStreams. destruct (m !! u) as [l|] eqn:El.
  - assert (Ha : actives m u = lc_active l) by (unfold actives, life_of; by rewrite El).
    destruct (Nat.eqb (lc_active l) 0) eqn:E; [|done]. apply Nat.eqb_eq in E. rewrite Ha. intros [= <-]. split; [|done].
    destruct (lc_canceled l); [done|]. rewrite actives_delete. destruct (decide (u = u')) as [<-|]; congruence.
  - intros [= <-]. split; [done|]. unfold actives, life_of. by rewrite El.
Qed.
Lemma actives_cancel now u m u' : actives (cancelUploadStreams now u m) u' = actives m u'.
Proof.
  unfold cancelUploadStreams. rewrite actives_insert. rewrite <- (actives_prune now m u'). destruct (decide (u = u')) as [<-|]; done.
Qed.

(** *** The invariant *)

Record session_fields (u : string) (st : uploadChunkState) : Prop := {
  sf_id : u ∈ ids;
  sf_temp : cs_TempPath st = part_of u;
  sf_target : cs_TargetPath st = path u;
  sf_total : cs_ExpectedSize st = total u;
  sf_chunk : cs_ChunkSize st = chunk u;
  sf_count : cs_PartCount st = chunks_of u;
  sf_positive : 0 < total u /\ 0 < chunk u /\ 0 < chunks_of u;
}.
Definition offset_of (v : task) : nat := Z.to_nat (sp_Offset (tk_spec v)).
(** Before the first publication of [u]: the recorded chunks and what the
    streams wrote are in the part file, which every stream of [u] has open. *)
Definition upload_inv (u : string) (fs : FS) (ost : option uploadChunkState) (tasks : gmap nat task) : Prop :=
  match ost with
  | None => forall t v, tasks !! t = Some v -> tk_id v = u -> tk_phase v = Begun \/ exists r, tk_phase v = Ended r
  | Some st =>
      exists i c, holds u i c fs /\ (length c <= length (data u))%nat /\
        (forall k, k ∈ cs_Parts st -> 0 <= k < chunks_of u /\
           covered c (data u) (Z.to_nat (k * chunk u)) (Z.to_nat (Z.min ((k + 1) * chunk u) (total u)))) /\
        (forall t v p fd w, tasks !! t = Some v -> tk_id v = u -> tk_phase v = Writing p fd w ->
           fd = i /\ covered c (data u) (offset_of v) (offset_of v + w))
  end.
Definition phase_ok (v : task) (fs : FS) (ph : phase) : Prop :=
  match ph with
  | Begun | Ended _ => True
  | Joined p => p = part_of (tk_id v)
  | Writing p fd w => p = part_of (tk_id v) /\ owned (tk_id v) fd fs /\ (w <= length (limited v))%nat
  end.
Definition task_ok (v : task) (fs : FS) : Prop :=
  chunk_spec (tk_spec v) /\ honest_stream (tk_spec v) (tk_body v) /\ phase_ok v fs (tk_phase v).
Definition holding (cm : commit) : Prop := match cm_phase cm with Checked _ | Renamed => True | _ => False end.
Definition commit_ok (s : Sys) (cm : commit) : Prop :=
  match cm_phase cm with
  | Checked part =>
      cm_id cm ∈ ids /\ part = part_of (cm_id cm) /\ clean (cm_path cm) = clean (path (cm_id cm)) /\
      cm_total cm = total (cm_id cm) /\
      (cm_id cm ∉ sy_renamed s -> exists st, sy_chunks s !! cm_id cm = Some st /\
         forall k, 0 <= k < chunks_of (cm_id cm) -> k ∈ cs_Parts st)
  | Renamed => cm_id cm ∈ sy_renamed s
  | _ => True
  end.
Record Inv (s : Sys) : Prop := {
  inv_fs : fs_ok (sy_fs s);
  inv_session : forall u st, sy_chunks s !! u = Some st -> session_fields u st;
  inv_task : forall t v, sy_tasks s !! t = Some v -> task_ok v (sy_fs s);
  inv_active : forall u, actives (sy_life s) u = count u (sy_tasks s);
  inv_lock : forall c cm, sy_commits s !! c = Some cm -> holding cm -> cm_id cm ∈ sy_locks s;
  inv_holder : forall c c' cm cm', sy_commits s !! c = Some cm -> sy_commits s !! c' = Some cm' ->
    holding cm -> holding cm' -> cm_id cm = cm_id cm' -> c = c';
  inv_commit : forall c cm, sy_commits s !! c = Some cm -> commit_ok s cm;
  inv_upload : forall u, u ∈ ids -> u ∉ sy_renamed s -> upload_inv u (sy_fs s) (sy_chunks s !! u) (sy_tasks s);
}.

Lemma upload_inv_other u u0 fs fs' ost tasks tasks' :
  u ∈ ids -> u <> u0 -> evolves u0 fs fs' ->
  (forall t v, tasks' !! t = Some v -> tk_id v = u -> tasks !! t = Some v) ->
  upload_inv u fs ost tasks -> upload_inv u fs' ost tasks'.
Proof.
  intros Hu Hne He Ht. destruct ost as [st|]; simpl; [|by eauto].
  intros (i & c & [Hp (n & Hn & Hc)] & Hlen & Hparts & Hw). exists i, c. split; [|by eauto 10].
  destruct (ev_other _ _ _ He u i Hu Hne Hp) as [H1 H2]. split; [done|]. exists n. by rewrite H2.
Qed.
Lemma task_ok_evolves u0 v fs fs' : evolves u0 fs fs' -> task_ok v fs -> task_ok v fs'.
Proof.
  intros He (H1 & H2 & H3). split; [done|]. split; [done|]. destruct (tk_phase v); simpl in *; try done.
  destruct H3 as (? & ? & ?). split_and!; [done|apply He; [apply H2|done]|done].
Qed.

(** A task of the upload [u0] moves to another phase, its session changing at
    most in [u0]'s entry. *)
Lemma Inv_task s t v ph fs' ost :
  Inv s -> sy_tasks s !! t = Some v ->
  evolves (tk_id v) (sy_fs s) fs' ->
  (forall st, sy_chunks s !! tk_id v = Some st -> exists st', ost = Some st' /\ cs_Parts st ⊆ cs_Parts st') ->
  (forall st, ost = Some st -> session_fields (tk_id v) st) ->
  phase_ok v fs' ph ->
  (tk_id v ∉ sy_renamed s -> upload_inv (tk_id v) fs' ost (<[t := in_phase ph v]> (sy_tasks s))) ->
  Inv (with_task t (in_phase ph v) (with_chunks (partial_alter (fun _ => ost) (tk_id v) (sy_chunks s)) (with_fs fs' s))).
Proof.
  intros [Ifs Ise Ita Iac Ilo Iho Ico Iup] Ht He Hst Hfields Hph Hup. set (u0 := tk_id v) in *. split; simpl; try done.
  - apply He.
  - intros u st. destruct (decide (u = u0)) as [->|Hne].
    + rewrite lookup_partial_alter_eq. by apply Hfields.
    + rewrite lookup_partial_alter_ne by done. apply Ise.
  - intros t' v'. rewrite lookup_insert_Some. intros [[<- <-]|[Hne Hv]].
    + destruct (Ita t v Ht) as (A1 & A2 & _). split; [done|]. split; [done|]. done.
    + eapply task_ok_evolves; [exact He|by eapply Ita].
  - intros u. rewrite Iac. symmetry. by apply (count_update u t v).
  - intros c cm Hc. specialize (Ico c cm Hc). unfold commit_ok in *. simpl. destruct (cm_phase cm); try done.
    destruct Ico as (C1 & C2 & C3 & C4 & C5). split_and!; try done. intros Hr. destruct (C5 Hr) as (st & S1 & S2).
    destruct (decide (cm_id cm = u0)) as [E|Hne].
    + rewrite E in *. destruct (Hst st S1) as (st' & -> & Hsub). exists st'. rewrite lookup_partial_alter_eq. split; [done|]. set_solver.
    + exists st. by rewrite lookup_partial_alter_ne.
  - intros u Hu Hr. destruct (decide (u = u0)) as [->|Hne].
    + rewrite lookup_partial_alter_eq. by apply Hup.
    + rewrite lookup_partial_alter_ne by done. eapply upload_inv_other; [done|exact Hne|exact He| |by apply Iup].
      intros t' v'. rewrite lookup_insert_Some. intros [[<- <-]|[_ Hv]] Hid; [|done]. by destruct Hne.
Qed.
Lemma Inv_task_same s t v ph fs' :
  Inv s -> sy_tasks s !! t = Some v -> evolves (tk_id v) (sy_fs s) fs' -> phase_ok v fs' ph ->
  (tk_id v ∉ sy_renamed s -> upload_inv (tk_id v) fs' (sy_chunks s !! tk_id v) (<[t := in_phase ph v]> (sy_tasks s))) ->
  Inv (with_task t (in_phase ph v) (with_fs fs' s)).
Proof.
  intros HI Ht He Hph Hup.
  pose proof (Inv_task s t v ph fs' (sy_chunks s !! tk_id v) HI Ht He) as H.
  replace (with_task t (in_phase ph v) (with_fs fs' s)) with
    (with_task t (in_phase ph v) (with_chunks (partial_alter (fun _ => sy_chunks s !! tk_id v) (tk_id v) (sy_chunks s)) (with_fs fs' s))).
  - apply H; [by eauto|apply HI|done|done].
  - unfold with_task, with_chunks, with_fs. simpl. by rewrite partial_alter_self.
Qed.
(** A phase in which a task has nothing open weakens what [upload_inv] asks. *)
Lemma upload_inv_close u fs ost tasks t v r :
  tasks !! t = Some v -> upload_inv u fs ost tasks -> upload_inv u fs ost (<[t := in_phase (Ended r) v]> tasks).
Proof.
  intros Ht. destruct ost as [st|]; simpl.
  - intros (i & c & H1 & H2 & H3 & H4). exists i, c. split_and!; [done..|].
    intros t' v' p fd w. rewrite lookup_insert_Some. intros [[<- <-]|[_ Hv]]; [done|]. by apply (H4 t' v' p fd w).
  - intros H t' v'. rewrite lookup_insert_Some. intros [[<- <-]|[_ Hv]]; [intros _; right; by exists r|by apply (H t')].
Qed.
Lemma upload_inv_phase u fs ost tasks t v ph :
  tasks !! t = Some v -> (forall p fd w, ph <> Writing p fd w) ->
  (ost = None -> ph = Begun \/ exists r, ph = Ended r) ->
  upload_inv u fs ost tasks -> upload_inv u fs ost (<[t := in_phase ph v]> tasks).
Proof.
  intros Ht Hw Hn. destruct ost as [st|]; simpl.
  - intros (i & c & H1 & H2 & H3 & H4). exists i, c. split_and!; [done..|].
    intros t' v' p fd w. rewrite lookup_insert_Some. intros [[<- <-]|[_ Hv]]; [intros _ Hp; by destruct (Hw _ _ _ Hp)|by apply (H4 t' v' p fd w)].
  - intros H t' v'. rewrite lookup_insert_Some. intros [[<- <-]|[_ Hv]]; [intros _; by apply Hn|by apply (H t')].
Qed.

Lemma run_two {A} faults (m : OS A) (k : OS unit) fs r fs' :
  (forall fs fl, fst (snd (k (fs, fl))) = fs) ->
  run_os faults (os _ <- m ; k) fs = (r, fs') ->
  match run_os faults m fs with (Ok _, fs1) => fs' = fs1 | (Err e, fs1) => fs' = fs1 /\ r = Err e end.
Proof.
  intros Hk. unfold run_os, os_bind. destruct (m (fs, faults)) as [[a|e] [fs1 fl]]; [|by intros [= <- <-]].
  specialize (Hk fs1 fl). destruct (k (fs1, fl)) as [r2 [fs2 fl2]]. simpl in Hk. by intros [= _ <-].
Qed.
Lemma quiet_calls fs fl : fst (snd (close_fd (fs, fl))) = fs /\ fst (snd (sync_fd (fs, fl))) = fs.
Proof. unfold close_fd, sync_fd, syscall. by destruct (hd false fl). Qed.

Lemma open_err faults trunc p mode fs e fs' : run_os faults (open_create trunc p mode) fs = (Err e, fs') -> fs' = fs.
Proof.
  unfold run_os, open_create, syscall. destruct (hd false faults); [by intros [= _ <-]|].
  destruct (f_paths fs !! p) as [i|]; [|done]. destruct (f_inodes fs !! i) as [n|]; [|by intros [= _ <-]].
  destruct (in_regular n); [done|by intros [= _ <-]].
Qed.

Lemma fresh_fields u sp :
  sp_UploadID sp = u -> chunk_spec sp -> honest_stream sp [] -> session_fields u (new_session sp).
Proof.
  intros <- (Hs & Ht & Hi & Hc & Ho & He & Hp) (Hid & Hpa & Hto & Hch & _). unfold new_session. split; simpl; try done.
  - unfold part_of. by rewrite Hpa.
  - unfold chunks_of. by rewrite <- Hto, <- Hch.
  - unfold chunks_of. rewrite <- Hto, <- Hch, <- Hc. lia.
Qed.
Lemma honest_nil sp body : honest_stream sp body -> honest_stream sp [].
Proof. intros (H1 & H2 & H3 & H4 & _). split_and!; try done. intros j b. by rewrite take_nil, lookup_nil. Qed.

Lemma with_chunks_self s : with_chunks (sy_chunks s) (with_fs (sy_fs s) s) = s.
Proof. by destruct s. Qed.

Lemma Inv_join s t v faults r s' :
  Inv s -> sy_tasks s !! t = Some v -> tk_phase v = Begun -> join_session (tk_spec v) faults s = (r, s') ->
  Inv (with_task t (in_phase (match r with Ok part => Joined part | Err e => Ended (Err e) end) v) s').
Proof.
  intros HI Ht Hph Hrun. destruct (inv_task _ HI t v Ht) as (Hsp & Hh & _).
  assert (Hid : tk_id v ∈ ids) by apply Hh.
  assert (Hpart : uploadPartPathFor (sp_Path (tk_spec v)) (sp_UploadID (tk_spec v)) = part_of (tk_id v)).
  { unfold part_of, tk_id. by destruct Hh as (_ & -> & _). }
  unfold join_session in Hrun. cbv zeta in Hrun. rewrite Hpart in Hrun. fold (tk_id v) in Hrun.
  destruct (sy_chunks s !! tk_id v) as [st|] eqn:Est.
  - pose proof (inv_session _ HI _ _ Est) as Hf. rewrite (sf_temp _ _ Hf) in Hrun.
    assert (Hs' : s' = s /\ (r = Ok (part_of (tk_id v)) \/ exists e, r = Err e)).
    { destruct (session_matches _ _ _ _ _); injection Hrun as <- <-; [|by eauto]. split; [done|]. left. by destruct (_ =? _)%string. }
    destruct Hs' as [-> Hr]. rewrite <- (with_chunks_self s). rewrite with_chunks_self at 1.
    apply (Inv_task_same s t v _ (sy_fs s) HI Ht); [apply evolves_refl, HI| |].
    + by destruct Hr as [->|[e ->]].
    + intros Hre. apply upload_inv_phase; [done|by destruct Hr as [->|[e ->]]| |by apply HI]. by rewrite Est.
  - assert (Hnone : tk_id v ∉ sy_renamed s -> upload_inv (tk_id v) (sy_fs s) None (sy_tasks s)).
    { intros Hr. rewrite <- Est. by apply HI. }
    destruct (sp_First (tk_spec v)).
    2: { injection Hrun as <- <-. apply (Inv_task_same s t v _ (sy_fs s) HI Ht); [apply evolves_refl, HI|done|].
         intros Hr. rewrite Est. apply upload_inv_phase; [done|done|by eauto|by apply Hnone]. }
    destruct (run_os faults _ (sy_fs s)) as [r1 fs1] eqn:E1.
    apply run_two in E1 as E2; [|by intros; apply quiet_calls].
    destruct (run_os faults (open_create true (part_of (tk_id v)) 384) (sy_fs s)) as [[fd|e] fs2] eqn:E3.
    2: { destruct E2 as [-> ->]. apply open_err in E3 as ->. injection Hrun as <- <-.
         apply (Inv_task_same s t v _ (sy_fs s) HI Ht); [apply evolves_refl, HI|done|].
         intros Hr. rewrite Est. apply upload_inv_phase; [done|done|by eauto|by apply Hnone]. }
    subst fs2. destruct (evolves_open _ true 384 _ _ _ _ Hid (inv_fs _ HI) E3) as (He & Hown & Hp & n & Hn & _ & Hd & _).
    destruct r1 as [[]|e].
    2: { injection Hrun as <- <-. apply (Inv_task_same s t v _ fs1 HI Ht); [done|done|].
         intros Hr. rewrite Est. apply upload_inv_phase; [done|done|by eauto|by apply Hnone]. }
    pose proof (fresh_fields (tk_id v) (tk_spec v) eq_refl Hsp (honest_nil _ _ Hh)) as Hf.
    assert (Hs' : exists ph, s' = with_chunks (<[tk_id v := new_session (tk_spec v)]> (sy_chunks s)) (with_fs fs1 s) /\
      (match r with Ok part => Joined part | Err e => Ended (Err e) end) = ph /\ phase_ok v fs1 ph /\ forall p fd w, ph <> Writing p fd w).
    { destruct (session_matches _ _ _ _ _); injection Hrun as <- <-; eexists; (split; [done|split; [done|split; [|done]]]); [|done].
      simpl. rewrite Hpart. by destruct (_ =? _)%string. }
    destruct Hs' as (ph & -> & -> & Hpho & Hnw).
    apply (Inv_task s t v ph fs1 (Some (new_session (tk_spec v))) HI Ht He); [by rewrite Est|by intros st [= <-]|done|].
    intros Hr. exists fd, []. split; [split; [done|]; exists n; by rewrite Hd|]. split; [simpl; lia|]. split; [set_solver|].
    intros t' v' p fd' w. rewrite lookup_insert_Some. intros [[<- <-]|[_ Hv]] Hid' Hw; [by apply Hnw in Hw|].
    destruct (Hnone Hr t' v' Hv Hid') as [Hb|[r' Hb]]; congruence.
Qed.

Lemma Inv_open s t v part faults r fs' :
  Inv s -> sy_tasks s !! t = Some v -> tk_phase v = Joined part ->
  run_os faults (open_create false part 384) (sy_fs s) = (r, fs') ->
  Inv (with_task t (in_phase (match r with Ok fd => Writing part fd 0 | Err e => Ended (Err e) end) v) (with_fs fs' s)).
Proof.
  intros HI Ht Hph Hrun. destruct (inv_task _ HI t v Ht) as (Hsp & Hh & Hpo). rewrite Hph in Hpo. simpl in Hpo. subst part.
  assert (Hid : tk_id v ∈ ids) by apply Hh. destruct r as [fd|e].
  - destruct (evolves_open _ false 384 _ _ _ _ Hid (inv_fs _ HI) Hrun) as (He & Hown & Hp & n & Hn & _ & _ & Hsame).
    apply (Inv_task_same s t v _ fs' HI Ht He); [simpl; split_and!; [done|done|lia]|].
    intros Hr. pose proof (inv_upload _ HI _ Hid Hr) as Hu. destruct (sy_chunks s !! tk_id v) as [st|]; simpl in Hu |- *.
    + destruct Hu as (i & c & [Hpi (n0 & Hn0 & Hc)] & Hlen & Hparts & Hw).
      destruct (Hsame eq_refl i n0 Hpi Hn0) as [-> ->]. exists i, c. split; [split; [done|by exists n0]|]. split_and!; [done|done|].
      intros t' v' p fd w. rewrite lookup_insert_Some. intros [[<- <-]|[_ Hv]]; [|by apply (Hw t' v' p fd w)].
      intros _ [= <- <- <-]. split; [done|]. intros j Hj. lia.
    + destruct (Hu t v Ht eq_refl) as [Hb|[r Hb]]; congruence.
  - apply open_err in Hrun as ->. apply (Inv_task_same s t v _ (sy_fs s) HI Ht); [apply evolves_refl, HI|done|].
    intros Hr. apply upload_inv_phase; [done|done|by eauto|by apply HI].
Qed.

Lemma Inv_write s t v part fd w n w' fs' :
  Inv s -> sy_tasks s !! t = Some v -> tk_phase v = Writing part fd w ->
  write_some v fd w n (sy_fs s) = (w', fs') ->
  Inv (with_task t (in_phase (Writing part fd w') v) (with_fs fs' s)).
Proof.
  intros HI Ht Hph Hrun. destruct (inv_task _ HI t v Ht) as (Hsp & Hh & Hpo). rewrite Hph in Hpo. destruct Hpo as (-> & Hown & Hw).
  assert (Hid : tk_id v ∈ ids) by apply Hh. unfold write_some in Hrun. set (bs := take n (drop w (limited v))) in *.
  injection Hrun as <- <-. fold (offset_of v).
  assert (Hbs : forall j b, bs !! j = Some b -> data (tk_id v) !! (offset_of v + w + j)%nat = Some b).
  { intros j b Hb. unfold bs in Hb. apply lookup_take_Some in Hb as [Hb _]. rewrite lookup_drop in Hb.
    destruct Hh as (_ & _ & _ & _ & Hh). apply Hh in Hb. by rewrite <- Nat.add_assoc. }
  assert (Hle : (w + length bs <= length (limited v))%nat) by (unfold bs; rewrite length_take, length_drop; lia).
  assert (He : evolves (tk_id v) (sy_fs s) (write_fd fd (offset_of v + w) bs (sy_fs s))).
  { unfold write_fd. destruct (f_inodes (sy_fs s) !! fd) as [nd|] eqn:End; [|apply evolves_refl, HI].
    eapply evolves_set_inode; [apply HI|done|]. intros u Hu Hne Hpu. destruct Hown as [_ Hown].
    destruct (Hown _ Hpu) as [Hq|Hq]; [apply Hne; by eapply part_unique|by apply (Hsep _ _ Hid Hu)]. }
  apply (Inv_task_same s t v _ _ HI Ht He); [simpl; split_and!; [done|by apply He|done]|].
  intros Hr. pose proof (inv_upload _ HI _ Hid Hr) as Hu. destruct (sy_chunks s !! tk_id v) as [st|]; simpl in Hu |- *.
  - destruct Hu as (i & c & [Hpi (nd & Hnd & Hc)] & Hlen & Hparts & Hwr).
    destruct (Hwr t v _ _ _ Ht eq_refl Hph) as [-> Hcov].
    destruct (covered_write c (data (tk_id v)) (offset_of v + w) bs Hbs Hlen) as (C1 & C2 & C3).
    exists i, (write_at (offset_of v + w) bs c). unfold write_fd. rewrite Hnd. split_and!.
    + split; [done|]. exists (with_data (write_at (offset_of v + w) bs (in_data nd)) nd). simpl.
      by rewrite lookup_insert_eq, Hc.
    + done.
    + intros k Hk. destruct (Hparts k Hk) as [? ?]. split; [done|]. by apply C3.
    + intros t' v' p fd w0. rewrite lookup_insert_Some. intros [[<- <-]|[_ Hv]].
      * intros _ [= <- <- <-]. split; [done|]. intros j Hj. change (offset_of (in_phase (Writing (part_of (tk_id v)) i (w + length bs)) v)) with (offset_of v) in Hj.
        destruct (decide (j < offset_of v + w)%nat); [apply (C3 _ _ Hcov); lia|apply C2; lia].
      * intros Hid' Hp'. destruct (Hwr t' v' p fd w0 Hv Hid' Hp') as [-> Hc']. split; [done|]. by apply C3.
  - destruct (Hu t v Ht eq_refl) as [Hb|[r Hb]]; congruence.
Qed.

Lemma Inv_finish s t v part fd w faults now r s' :
  Inv s -> sy_tasks s !! t = Some v -> tk_phase v = Writing part fd w ->
  finish_chunk (tk_spec v) part w faults now s = (r, s') ->
  Inv (with_task t (in_phase (Ended r) v) s').
Proof.
  intros HI Ht Hph Hrun. destruct (inv_task _ HI t v Ht) as (Hsp & Hh & Hpo). rewrite Hph in Hpo. destruct Hpo as (-> & Hown & Hw).
  assert (Hid : tk_id v ∈ ids) by apply Hh.
  assert (Hsame : Inv (with_task t (in_phase (Ended r) v) (with_fs (sy_fs s) s))).
  { apply (Inv_task_same s t v _ (sy_fs s) HI Ht); [apply evolves_refl, HI|done|].
    intros Hr. apply upload_inv_close; [done|by apply HI]. }
  assert (Hwf : with_fs (sy_fs s) s = s) by (by destruct s).
  unfold finish_chunk in Hrun. destruct (negb _) eqn:Elen; [injection Hrun as <- <-; by rewrite Hwf in Hsame|].
  apply negb_false_iff, Z.eqb_eq in Elen.
  destruct (run_os faults _ (sy_fs s)) as [r1 fs1] eqn:E1.
  assert (fs1 = sy_fs s) as ->.
  { apply run_two in E1; [|by intros; apply quiet_calls]. unfold run_os in E1. destruct (quiet_calls (sy_fs s) faults) as [_ Hq].
    destruct (sync_fd (sy_fs s, faults)) as [[a|e] [fs2 fl]]; simpl in Hq; subst; [done|by destruct E1]. }
  destruct r1 as [[]|e]; [|injection Hrun as <- <-; exact Hsame]. fold (tk_id v) in Hrun.
  destruct (sy_chunks s !! tk_id v) as [st|] eqn:Est; [|injection Hrun as <- <-; exact Hsame].
  injection Hrun as <- <-. set (st' := record_chunk _ _ _ _ _).
  pose proof (inv_session _ HI _ _ Est) as Hf.
  assert (Hf' : session_fields (tk_id v) st').
  { destruct Hf. destruct Hh as (_ & _ & Hto & Hch & _). destruct Hsp as (_ & _ & _ & Hcn & _). fold (tk_id v) in *. split; try done.
    - simpl. destruct (cs_TargetPath st =? "")%string eqn:E; [|done]. apply String.eqb_eq in E. rewrite E in *. by destruct (inv_task _ HI t v Ht) as (_ & (_ & -> & _) & _).
    - simpl. unfold chunks_of. by rewrite <- Hto, <- Hch. }
  apply (Inv_task s t v (Ended _) (sy_fs s) (Some st') HI Ht); [apply evolves_refl, HI| |by intros ? [= <-]|done|].
  { intros st0 Hst0. rewrite Est in Hst0. injection Hst0 as <-. exists st'. split; [done|]. simpl. set_solver. }
  intros Hr. pose proof (inv_upload _ HI _ Hid Hr) as Hu. rewrite Est in Hu.
  eapply (upload_inv_close _ _ (Some st')); [done|].
  destruct Hu as (i & c & Hh1 & Hlen & Hparts & Hwr). exists i, c. split_and!; [done|done| |done].
  intros k. simpl. rewrite elem_of_union, elem_of_singleton. intros [->|Hk]; [|by apply Hparts].
  destruct (Hwr t v _ _ _ Ht eq_refl Hph) as [_ Hcov].
  destruct Hh as (_ & _ & Hto & Hch & _). fold (tk_id v) in Hto, Hch. destruct Hsp as (S1 & S2 & S3 & S4 & S5 & S6 & S7).
  rewrite Hto, Hch in *. split; [unfold chunks_of; lia|].
  intros j Hj. apply Hcov. unfold offset_of. lia.
Qed.

Lemma Inv_begin s t sp stream body now life :
  Inv s -> sy_tasks s !! t = None -> chunk_spec sp -> honest_stream sp body ->
  beginUploadStream now (sp_UploadID sp) stream (sy_life s) = (Ok tt, life) ->
  Inv (with_task t (mkTask sp stream body Begun) (with_life life s)).
Proof.
  intros [Ifs Ise Ita Iac Ilo Iho Ico Iup] Ht Hsp Hh Hb. split; simpl; try done.
  - intros t' v'. rewrite lookup_insert_Some. intros [[<- <-]|[_ Hv]]; [by split_and!|by eapply Ita].
  - intros u. rewrite (count_add u t _ _ Ht), <- Iac. rewrite (actives_begin _ _ _ _ _ u _ Hb). simpl. unfold tk_id. simpl. lia.
  - intros u Hu Hr. specialize (Iup u Hu Hr). destruct (sy_chunks s !! u) as [st|]; simpl in *.
    + destruct Iup as (i & c & H1 & H2 & H3 & H4). exists i, c. split_and!; [done..|].
      intros t' v' p fd w. rewrite lookup_insert_Some. intros [[<- <-]|[_ Hv]]; [done|by apply (H4 t' v' p fd w)].
    + intros t' v'. rewrite lookup_insert_Some. intros [[<- <-]|[_ Hv]]; [by left|by apply (Iup t' v')].
Qed.

Lemma Inv_end s t v r :
  Inv s -> sy_tasks s !! t = Some v -> tk_phase v = Ended r ->
  Inv (drop_task t (with_life (endActive (tk_id v) (tk_stream v) (sy_life s)) s)).
Proof.
  intros [Ifs Ise Ita Iac Ilo Iho Ico Iup] Ht Hp. split; simpl; try done.
  - intros t' v'. rewrite lookup_delete_Some. intros [_ Hv]. by eapply Ita.
  - intros u. pose proof (count_drop u t v _ Ht) as Hc. pose proof (count_drop (tk_id v) t v _ Ht) as Hc0.
    rewrite decide_True in Hc0 by done. pose proof (actives_end (tk_id v) (tk_stream v) (sy_life s) u) as Ha.
    rewrite !Iac in Ha. specialize (Ha ltac:(lia)). lia.
  - intros u Hu Hr. specialize (Iup u Hu Hr). destruct (sy_chunks s !! u) as [st|]; simpl in *.
    + destruct Iup as (i & c & H1 & H2 & H3 & H4). exists i, c. split_and!; [done..|].
      intros t' v' p fd w. rewrite lookup_delete_Some. intros [_ Hv]. by apply (H4 t' v' p fd w).
    + intros t' v'. rewrite lookup_delete_Some. intros [_ Hv]. by apply (Iup t' v').
Qed.

Lemma Inv_life s life : Inv s -> (forall u, actives life u = actives (sy_life s) u) -> Inv (with_life life s).
Proof. intros [Ifs Ise Ita Iac Ilo Iho Ico Iup] Ha. split; simpl; try done. intros u. by rewrite Ha. Qed.

Lemma Inv_fs s u0 fs' :
  Inv s -> evolves u0 (sy_fs s) fs' ->
  (u0 ∈ ids -> u0 ∉ sy_renamed s -> upload_inv u0 fs' (sy_chunks s !! u0) (sy_tasks s)) ->
  Inv (with_fs fs' s).
Proof.
  intros [Ifs Ise Ita Iac Ilo Iho Ico Iup] He Hu0. split; simpl; try done.
  - apply He.
  - intros t v Hv. eapply task_ok_evolves; [exact He|by eapply Ita].
  - intros u Hu Hr. destruct (decide (u = u0)) as [->|Hne]; [by apply Hu0|].
    eapply upload_inv_other; [done|exact Hne|exact He|by eauto|by apply Iup].
Qed.
Lemma Inv_renamed s u0 fs' : Inv s -> evolves u0 (sy_fs s) fs' -> Inv (renamed u0 (with_fs fs' s)).
Proof.
  intros [Ifs Ise Ita Iac Ilo Iho Ico Iup] He. split; simpl; try done.
  - apply He.
  - intros t v Hv. eapply task_ok_evolves; [exact He|by eapply Ita].
  - intros c cm Hc. specialize (Ico c cm Hc). unfold commit_ok in *. simpl. destruct (cm_phase cm); try done; [|set_solver].
    destruct Ico as (C1 & C2 & C3 & C4 & C5). split_and!; try done. intros Hr. apply C5. set_solver.
  - intros u Hu Hr. eapply upload_inv_other; [done| |exact He|by eauto|apply Iup; [done|set_solver]]. set_solver.
Qed.

Lemma Inv_set_commit s c cm :
  Inv s -> ~ holding cm -> (forall cm0, sy_commits s !! c = Some cm0 -> ~ holding cm0) -> Inv (with_commit c cm s).
Proof.
  intros [Ifs Ise Ita Iac Ilo Iho Ico Iup] Hn H0. split; simpl; try done.
  - intros c' cm'. rewrite lookup_insert_Some. intros [[<- <-]|[_ Hc]]; [done|by apply (Ilo c')].
  - intros c1 c2 cm1 cm2. rewrite !lookup_insert_Some.
    intros [[<- <-]|[_ H1]] [[<- <-]|[_ H2]]; try done. by eapply Iho.
  - intros c' cm'. rewrite lookup_insert_Some. intros [[<- <-]|[_ Hc]]; [|by apply (Ico c')].
    unfold commit_ok, holding in *. by destruct (cm_phase cm).
Qed.
Lemma Inv_leave s c cm :
  Inv s -> sy_commits s !! c = Some cm -> holding cm \/ cm_id cm ∉ sy_locks s -> Inv (leave c (cm_id cm) s).
Proof.
  intros [Ifs Ise Ita Iac Ilo Iho Ico Iup] Hc Hl. split; simpl; try done.
  - intros c' cm'. rewrite lookup_delete_Some. intros [Hne Hc'] Hh. apply elem_of_difference. split; [by apply (Ilo c')|].
    rewrite elem_of_singleton. intros He. destruct Hl as [Hh0|Hn]; [apply Hne; by eapply Iho|].
    apply Hn. rewrite <- He. by apply (Ilo c').
  - intros c1 c2 cm1 cm2. rewrite !lookup_delete_Some. intros [_ H1] [_ H2]. by eapply Iho.
  - intros c' cm'. rewrite lookup_delete_Some. intros [_ Hc']. by apply (Ico c').
Qed.
Lemma session_matches_ok u st ok tot sz n :
  session_fields u st -> session_matches st ok tot sz n = Ok tt -> ok = true /\ tot = total u /\ n = chunks_of u.
Proof.
  intros [Hid Ht Htg Hto Hch Hco (P1 & P2 & P3)]. unfold session_matches. rewrite Htg, Hto, Hch, Hco.
  assert (path u <> "") by (by apply (Hsep u u)).
  rewrite !(proj2 (Z.eqb_neq _ 0)) by lia. rewrite (proj2 (String.eqb_neq (path u) "")) by done. simpl. intros Hk.
  destruct ok; [|done]. destruct (total u =? tot) eqn:E1; [|done]. destruct (chunk u =? sz); [|done].
  destruct (chunks_of u =? n) eqn:E2; [|done]. bool_hyps. done.
Qed.
(** Distinct numbers below [n], [n] of them: all of them. *)
Lemma all_parts (parts : gset Z) n :
  (forall k, k ∈ parts -> 0 <= k < n) -> Z.of_nat (size parts) = n -> forall k, 0 <= k < n -> k ∈ parts.
Proof.
  intros Hp Hs k Hk. destruct (decide (k ∈ parts)) as [|Hn]; [done|]. exfalso.
  assert (Hsub : {[k]} ∪ parts ⊆ list_to_set (map Z.of_nat (seq 0 (Z.to_nat n)))).
  { intros x. rewrite elem_of_union, elem_of_singleton, elem_of_list_to_set. intros Hx.
    apply list_elem_of_In, in_map_iff. exists (Z.to_nat x). rewrite in_seq.
    assert (0 <= x < n) by (destruct Hx as [->|Hx]; [done|by apply Hp]). lia. }
  apply subseteq_size in Hsub. rewrite size_union, size_singleton in Hsub by set_solver.
  rewrite size_list_to_set in Hsub.
  - rewrite length_map, length_seq in Hsub. lia.
  - apply (NoDup_fmap_2 Z.of_nat), NoDup_seq.
Qed.

Lemma Inv_check s c u p tot sz n part :
  Inv s -> sy_commits s !! c = Some (mkCommit u p tot sz n Ready) -> u ∉ sy_locks s ->
  commit_check (mkCommit u p tot sz n Ready) (sy_chunks s) = Ok part ->
  Inv (with_commit c (mkCommit u p tot sz n (Checked part)) (lock u s)).
Proof.
  intros HI Hc Hu Hk. unfold commit_check in Hk. simpl in Hk.
  destruct (sy_chunks s !! u) as [st|] eqn:Est; [|done]. pose proof (inv_session _ HI _ _ Est) as Hf.
  destruct (session_matches _ _ _ _ _) as [[]|] eqn:Em; [|done].
  apply (session_matches_ok u) in Em as (Epath & -> & ->); [|done]. apply String.eqb_eq in Epath.
  rewrite (sf_target _ _ Hf) in Epath. rewrite (sf_temp _ _ Hf) in Hk.
  destruct (_ =? chunks_of u) eqn:Esz; [|done]. apply Z.eqb_eq in Esz. destruct (negb _); [|done]. injection Hk as <-.
  assert (Hin : u ∈ ids) by apply Hf.
  destruct HI as [Ifs Ise Ita Iac Ilo Iho Ico Iup]. split; simpl; try done.
  - intros c' cm'. rewrite lookup_insert_Some. intros [[<- <-]|[_ Hc']] Hh; simpl; [set_solver|]. apply elem_of_union_r. by apply (Ilo c').
  - intros c1 c2 cm1 cm2. rewrite !lookup_insert_Some.
    intros [[<- <-]|[_ H1]] [[<- <-]|[_ H2]] Hh1 Hh2 Heq; try done.
    + exfalso. apply Hu. simpl in Heq. rewrite Heq. by apply (Ilo c2).
    + exfalso. apply Hu. simpl in Heq. rewrite <- Heq. by apply (Ilo c1).
    + by eapply Iho.
  - intros c' cm'. rewrite lookup_insert_Some. intros [[<- <-]|[_ Hc']]; [|by apply (Ico c')].
    unfold commit_ok. simpl. split_and!; try done. intros Hr. exists st. split; [done|].
    specialize (Iup u Hin Hr). rewrite Est in Iup. destruct Iup as (i & c0 & _ & _ & Hparts & _).
    apply all_parts; [|done]. intros k Hk. by apply Hparts.
Qed.

Lemma Inv_publish s c u p tot sz n part faults :
  Inv s -> sy_commits s !! c = Some (mkCommit u p tot sz n (Checked part)) ->
  match publish (mkCommit u p tot sz n (Checked part)) part (sy_fs s, faults) with
  | (Err _, (fs, _)) => Inv (leave c u (with_fs fs s))
  | (Ok _, (fs, _)) => evolves u (sy_fs s) fs /\ (u ∉ sy_renamed s -> contents fs p = Some (data u))
  end.
Proof.
  intros HI Hc. pose proof (inv_commit _ HI _ _ Hc) as Hco. unfold commit_ok in Hco. cbn [cm_phase cm_id cm_path cm_total] in Hco.
  destruct Hco as (Hid & -> & Hq & -> & Hst).
  set (cm := mkCommit u p (total u) sz n (Checked (part_of u))) in *.
  destruct (publish cm (part_of u) (sy_fs s, faults)) as [r [fs fl]] eqn:Ep.
  pose proof (publish_evolves u cm faults r (sy_fs s) fs fl Hid Hq (inv_fs _ HI) Ep) as He.
  assert (Hspec : u ∉ sy_renamed s -> exists i, match r with
     | Ok _ => contents fs p = Some (data u)
     | Err _ => exists d, holds u i d (sy_fs s) /\ holds u i d fs end).
  { intros Hr. destruct (Hst Hr) as (st & Est & Hall). pose proof (inv_upload _ HI _ Hid Hr) as Hu. rewrite Est in Hu.
    destruct Hu as (i & d & Hh & Hlen & Hparts & _). exists i.
    pose proof (publish_spec u p Hid Hq cm (sy_fs s) i d eq_refl _ _ _ _ _ (conj eq_refl (conj (inv_fs _ HI) Hh)) Ep) as Hp.
    destruct (sf_positive _ _ (inv_session _ HI _ _ Est)) as (P1 & P2 & P3). destruct r as [[]|e].
    - destruct Hp as (_ & -> & Hge). cbn [cm_total cm] in *. f_equal.
      assert (d = data u) as ->; [|by rewrite take_ge; [done|unfold cm, total; simpl; lia]].
      apply covered_all; [|done]. intros j Hj. set (k := Z.of_nat j / chunk u).
      assert (Hk : 0 <= k < chunks_of u).
      { split; [apply Z.div_pos; lia|]. unfold chunks_of. apply ceil_index; [lia|lia|]. unfold k, total.
        pose proof (Z.mul_div_le (Z.of_nat j) (chunk u)). lia. }
      destruct (Hparts k (Hall k Hk)) as [_ Hcov]. apply Hcov.
      pose proof (Z.div_mod (Z.of_nat j) (chunk u) ltac:(lia)) as Hd. pose proof (Z.mod_pos_bound (Z.of_nat j) (chunk u) ltac:(lia)) as Hm.
      fold k in Hd. unfold total in *. nia.
    - destruct Hp as (_ & d' & Hh' & Hd'). exists d. split; [done|]. rewrite <- Hd'; [done|]. unfold cm, total. simpl. lia. }
  destruct r as [[]|e]; [split; [done|]; intros Hr; by destruct (Hspec Hr)|].
  apply (Inv_leave (with_fs fs s) c cm); [|done|by left].
  apply (Inv_fs s u fs HI He). intros _ Hr. destruct (Hspec Hr) as (i & d & [Hp0 (n0 & Hn0 & Hd0)] & Hh').
  pose proof (inv_upload _ HI _ Hid Hr) as Hu. destruct (sy_chunks s !! u) as [st|]; [|done].
  destruct Hu as (i' & d' & [Hp1 (n1 & Hn1 & Hd1)] & H2 & H3 & H4). exists i, d.
  assert (i' = i) as -> by congruence. assert (d' = d) as -> by congruence. done.
Qed.

Lemma Inv_remove s args faults life :
  Inv s -> honest (ERemove args faults) ->
  let u := trim_space (argString args "upload_id") in
  waitUploadStreams u (sy_life s) = Some life -> u ∉ sy_locks s ->
  Inv (snd (cancel_upload home args faults (with_life life s))).
Proof.
  intros HI Hh u Hw Hl. apply actives_wait with (u' := u) in Hw as Ha. destruct Ha as [_ Ha].
  assert (HI1 : Inv (with_life life s)).
  { apply Inv_life; [done|]. intros u'. by apply (actives_wait u). }
  assert (Hnone : forall t v, sy_tasks s !! t = Some v -> tk_id v <> u).
  { intros t v. apply count_zero. by rewrite <- (inv_active _ HI). }
  clear Hw. set (s1 := with_life life s) in *. assert (Ht1 : sy_tasks s1 = sy_tasks s) by done. assert (Hl1 : u ∉ sy_locks s1) by done.
  clearbody s1. unfold cancel_upload. fold u. simpl in Hh. fold u in Hh. cbv zeta.
  assert (Hrm : forall p r fs, (forall u', u' ∈ ids -> u' <> u -> p <> part_of u') -> run_os faults (remove_os p) (sy_fs s1) = (r, fs) ->
    evolves u (sy_fs s1) fs).
  { intros p r fs Hp. unfold run_os, remove_os, syscall. pose proof (evolves_refl u _ (inv_fs _ HI1)) as Hrefl.
    destruct (hd false faults); [by intros [= _ <-]|]. destruct (f_paths (sy_fs s1) !! p); [|by intros [= _ <-]].
    intros [= _ <-]. apply evolves_unlink; [apply HI1|done]. }
  destruct (sy_chunks s1 !! u) as [st|] eqn:Est.
  - pose proof (inv_session _ HI1 _ _ Est) as Hf. destruct (_ && _ && _); [done|].
    unfold removeUploadFileLocked. rewrite Est, (sf_temp _ _ Hf).
    assert (Hdel : forall fs, evolves u (sy_fs s1) fs -> Inv (with_chunks (delete u (sy_chunks s1)) (with_fs fs s1))).
    { intros fs He. destruct HI1 as [Ifs Ise Ita Iac Ilo Iho Ico Iup]. split; simpl; try done.
      - apply He.
      - intros u' st'. rewrite lookup_delete_Some. intros [_ Hs]. by apply Ise.
      - intros t v Hv. eapply task_ok_evolves; [exact He|by eapply Ita].
      - intros c cm Hc. specialize (Ico c cm Hc). unfold commit_ok in *. simpl. destruct (cm_phase cm) eqn:Ep; try done.
        destruct Ico as (C1 & C2 & C3 & C4 & C5). split_and!; try done. intros Hr. destruct (C5 Hr) as (st0 & S1 & S2).
        exists st0. rewrite lookup_delete_ne; [done|]. intros ->. apply Hl1. apply (Ilo c cm Hc). unfold holding. by rewrite Ep.
      - intros u' Hu' Hr. destruct (decide (u' = u)) as [->|Hne].
        + rewrite lookup_delete_eq. simpl. intros t v. rewrite Ht1. intros Hv Hid. by destruct (Hnone t v Hv).
        + rewrite lookup_delete_ne by done. eapply upload_inv_other; [done|exact Hne|exact He|by eauto|by apply Iup]. }
    destruct (part_of u =? "")%string eqn:Ee; [apply Hdel, evolves_refl, HI1|].
    destruct (run_os faults (remove_os (part_of u)) (sy_fs s1)) as [r fs] eqn:Er.
    assert (He : evolves u (sy_fs s1) fs).
    { apply (Hrm (part_of u) r fs); [|done]. intros u' Hu' Hne Heq. apply Hne. symmetry. eapply part_unique; [apply Hf|done|done]. }
    assert (Hchunks : forall e, r = Err e -> e <> OsNotExist -> Inv (with_chunks (sy_chunks s1) (with_fs fs s1))).
    { intros e -> Hne. replace fs with (sy_fs s1); [by rewrite with_chunks_self|].
      revert Er. unfold run_os, remove_os, syscall. destruct (hd false faults); [by intros [= _ <-]|].
      destruct (f_paths (sy_fs s1) !! part_of u); [done|]. by intros [= _ <-]. }
    destruct r as [[]|[]]; simpl; first [by apply Hdel|by eapply Hchunks].
  - destruct (_ =? _)%string eqn:Et; [done|].
    assert (Htarget : trim_space (argString args "path") <> "").
    { intros E. rewrite E in Et. by destruct (_ =? _)%string eqn:? in Et. }
    rewrite (proj2 (String.eqb_neq _ "")) by done. destruct Hh as [Hh|Hh]; [done|].
    destruct (run_os faults _ _) as [r fs] eqn:Er. apply Hrm in Er as He; [|by intros; apply not_eq_sym, not_eq_sym, Hh].
    assert (Hfs : Inv (with_fs fs s1)).
    { apply (Inv_fs s1 u fs HI1 He). intros _ _. rewrite Est. simpl. intros t v. rewrite Ht1. intros Hv Hid. by destruct (Hnone t v Hv). }
    destruct r as [[]|[]]; done.
Qed.

Lemma Inv_init fs : fs_ok fs -> Inv (init fs).
Proof.
  intros Hok. split; simpl; try done.
  all: intros; try (by rewrite lookup_empty in *).
Qed.

Lemma Inv_publish_step s c faults s' : Inv s -> step home (EPublish c faults) s = Some s' -> Inv s'.
Proof.
  intros HI. simpl.
  destruct (sy_commits s !! c) as [[u p tot sz n []]|] eqn:Ec; try done.
  pose proof (Inv_publish s c u p tot sz n part faults HI Ec) as Hp.
  destruct (publish _ part (sy_fs s, faults)) as [[[]|e] [fs fl]]; [|by intros [= <-]]. destruct Hp as [He _].
  pose proof (Inv_renamed s u fs HI He) as HI1.
  destruct (run_os fl (syncUploadDirectory (dir p)) fs) as [r fs1] eqn:Es.
  assert (fs1 = fs) as -> by (revert Es; unfold run_os, syncUploadDirectory, syscall; destruct (hd false fl); by intros [= _ <-]).
  destruct r as [[]|e]; intros [= <-].
  + destruct HI1 as [Ifs Ise Ita Iac Ilo Iho Ico Iup]. simpl in *. split; simpl; try done.
    * intros c' cm'. rewrite lookup_insert_Some. intros [[<- <-]|[_ Hc]]; [|by apply (Ilo c')].
      intros _. apply (Ilo c _ Ec). by unfold holding.
    * intros c1 c2 cm1 cm2. rewrite !lookup_insert_Some. intros [[<- <-]|[_ H1]] [[<- <-]|[_ H2]] Hh1 Hh2 Heq; try done.
      -- by eapply (Iho c c2 _ cm2 Ec H2).
      -- by eapply (Iho c1 c cm1 _ H1 Ec).
      -- by eapply Iho.
    * intros c' cm'. rewrite lookup_insert_Some. intros [[<- <-]|[_ Hc]]; [unfold commit_ok; simpl; set_solver|].
      by apply (Ico c').
  + by apply (Inv_leave (renamed u (with_fs fs s)) c (mkCommit u p tot sz n (Checked part))); [|done|left].
Qed.

Lemma Inv_forget_step s c s' : Inv s -> step home (EForget c) s = Some s' -> Inv s'.
Proof.
  intros HI. simpl.
  destruct (sy_commits s !! c) as [[u p tot sz n []]|] eqn:Ec; try done. intros [= <-].
  pose proof (inv_commit _ HI _ _ Ec) as Hr. unfold commit_ok in Hr. cbn in Hr.
  apply (Inv_leave (with_chunks (delete u (sy_chunks s)) s) c (mkCommit u p tot sz n Renamed)); [|done|by left].
  destruct HI as [Ifs Ise Ita Iac Ilo Iho Ico Iup]. split; simpl; try done.
  + intros u' st'. rewrite lookup_delete_Some. intros [_ Hs]. by apply Ise.
  + intros c' cm' Hc. specialize (Ico c' cm' Hc). unfold commit_ok in *. simpl. destruct (cm_phase cm'); try done.
    destruct Ico as (C1 & C2 & C3 & C4 & C5). split_and!; try done. intros Hn. destruct (C5 Hn) as (st & S1 & S2).
    exists st. rewrite lookup_delete_ne; [done|]. by intros ->.
  + intros u' Hu' Hn. rewrite lookup_delete_ne by (by intros <-). by apply Iup.
Qed.

Lemma Inv_step ev s s' : Inv s -> honest ev -> step home ev s = Some s' -> Inv s'.
Proof.
  intros HI Hh. destruct ev as [t args body now|t faults|t faults|t n|t faults now|t e|t|c args|c|c|c faults|c|args now|args faults]; simpl.
  - destruct (sy_tasks s !! t) eqn:Et; [done|]. destruct (parseUploadStreamSpec home args) as [sp|] eqn:Ep; [|by intros [= <-]].
    destruct (beginUploadStream _ _ _ _) as [[[]|e] life] eqn:Eb; intros [= <-].
    + eapply Inv_begin; [done|done|by eapply parse_chunk|by apply Hh|done].
    + apply Inv_life; [done|]. intros u. rewrite (actives_begin _ _ _ _ _ u _ Eb). simpl. lia.
  - destruct (sy_tasks s !! t) as [v|] eqn:Et; [|done]. destruct (tk_phase v) eqn:Ep; try done.
    destruct (join_session (tk_spec v) faults s) as [r s1] eqn:Ej. pose proof (Inv_join _ _ _ _ _ _ HI Et Ep Ej) as H.
    by destruct r; intros [= <-].
  - destruct (sy_tasks s !! t) as [v|] eqn:Et; [|done]. destruct (tk_phase v) eqn:Ep; try done.
    destruct (run_os faults _ _) as [r fs] eqn:Eo. pose proof (Inv_open _ _ _ _ _ _ _ HI Et Ep Eo) as H.
    by destruct r; intros [= <-].
  - destruct (sy_tasks s !! t) as [v|] eqn:Et; [|done]. destruct (tk_phase v) eqn:Ep; try done.
    destruct (write_some v fd written n (sy_fs s)) as [w fs] eqn:Ew. intros [= <-]. by eapply Inv_write.
  - destruct (sy_tasks s !! t) as [v|] eqn:Et; [|done]. destruct (tk_phase v) eqn:Ep; try done.
    destruct (finish_chunk _ _ _ _ _ _) as [r s1] eqn:Ef. intros [= <-]. by eapply Inv_finish.
  - destruct (sy_tasks s !! t) as [v|] eqn:Et; [|done].
    assert (Hs : with_fs (sy_fs s) s = s) by (by destruct s).
    assert (H : Inv (with_task t (in_phase (Ended (Err e)) v) s)).
    { rewrite <- Hs. apply (Inv_task_same s t v _ (sy_fs s) HI Et); [apply evolves_refl, HI|done|].
      intros Hr. apply upload_inv_close; [done|]. apply HI; [apply (inv_task _ HI _ _ Et)|done]. }
    destruct (tk_phase v); try done; by intros [= <-].
  - destruct (sy_tasks s !! t) as [v|] eqn:Et; [|done]. destruct (tk_phase v) eqn:Ep; try done.
    intros [= <-]. by eapply Inv_end.
  - destruct (sy_commits s !! c) eqn:Ec; [done|]. destruct (commit_request home args) as [cm|] eqn:Er; [|by intros [= <-]].
    intros [= <-]. apply Inv_set_commit; [done| |by rewrite Ec].
    unfold commit_request in Er. ok_inv Er. unfold holding. simpl. tauto.
  - destruct (sy_commits s !! c) as [[u p tot sz n []]|] eqn:Ec; try done.
    destruct (waitUploadStreams u (sy_life s)) as [life|] eqn:Ew; [|done]. intros [= <-].
    apply (Inv_set_commit (with_life life s)); [|unfold holding; simpl; tauto|simpl; rewrite Ec; intros ? [= <-]; unfold holding; simpl; tauto].
    apply Inv_life; [done|]. intros u'. by apply (actives_wait u).
  - destruct (sy_commits s !! c) as [[u p tot sz n []]|] eqn:Ec; try done.
    case_bool_decide as Hl; [done|]. destruct (commit_check _ _) as [part|e] eqn:Ek; intros [= <-].
    + by eapply Inv_check.
    + apply (Inv_leave s c (mkCommit u p tot sz n Ready)); [done|done|by right].
  - by apply Inv_publish_step with (c := c) (faults := faults).
  - by apply Inv_forget_step with (c := c).
  - destruct (_ =? _)%string; [by intros [= <-]|]. intros [= <-]. apply Inv_life; [done|]. intros u. apply actives_cancel.
  - destruct (_ =? _)%string; [by intros [= <-]|]. destruct (waitUploadStreams _ _) as [life|] eqn:Ew; [|done].
    case_bool_decide as Hl; [done|]. intros [= <-]. by eapply Inv_remove.
Qed.

Lemma Inv_run evs s s' : Inv s -> Forall honest evs -> run home evs s = Some s' -> Inv s'.
Proof.
  revert s. induction evs as [|ev evs IH]; intros s HI; simpl; [by intros _ [= <-]|].
  intros [Hh Hall]%Forall_cons. destruct (step home ev s) as [s1|] eqn:Es; [|done]. simpl. apply IH; [|done].
  by eapply Inv_step.
Qed.
End Integrity.


(** ** An upload of ten bytes in three chunks *)

Definition wit_data : list ascii := chars "abcdefghij".
Definition wit_body (index : nat) : list ascii := take 4 (drop (4 * index) wit_data).
Definition wit_begin (t index : nat) : event := EBegin t (wit_args (Z.of_nat index)) (wit_body index) 1000.
Definition wit_stream (t index : nat) : list event :=
  [wit_begin t index; EJoin t []; EOpen t []; EWrite t 3; EWrite t 3; EFinish t [] 1000; EEnd t].
Definition wit_commit_args : arguments :=
  {["path" := VString "/srv/./file"; "upload_id" := VString "u1"; "total_size" := VNumber 10; "chunk_size" := VNumber 4; "chunk_count" := VNumber 3]}.
(** The first two streams interleave; the third one follows. *)
Definition wit_events : list event :=
  [wit_begin 0 1; wit_begin 1 0; EJoin 0 []; EJoin 1 []; EOpen 1 []; EWrite 1 2; EOpen 0 []; EWrite 0 4; EWrite 1 4;
   EFinish 1 [] 1000; EFinish 0 [] 1000; EEnd 0; EEnd 1] ++ wit_stream 2 2 ++ [ECommit 0 wit_commit_args; EWaited 0; ECheck 0].
Definition wit_fs : FS := mkFS ∅ ∅ 0.
Definition wit_honest := honest None ["u1"] (fun _ => "/srv/file") (fun _ => wit_data) (fun _ => 4).

Lemma wit_separate : separate ["u1"] (fun _ => "/srv/file").
Proof.
  intros u u' ->%list_elem_of_singleton ->%list_elem_of_singleton. split; [done|]. split; [done|]. vm_compute. discriminate.
Qed.
Lemma wit_fs_ok : fs_ok wit_fs.
Proof. split; simpl; intros *; by rewrite lookup_empty. Qed.
Lemma wit_begin_honest t index : (index < 3)%nat -> wit_honest (wit_begin t index).
Proof.
  intros Hi sp Hsp.
  assert (Hcase : index = 0%nat \/ index = 1%nat \/ index = 2%nat) by lia.
  assert (Hpre : forall off n body, body = take n (drop off wit_data) -> forall j b, body !! j = Some b -> wit_data !! (off + j)%nat = Some b).
  { intros off n body -> j b [H _]%lookup_take_Some. by rewrite lookup_drop in H. }
  destruct Hcase as [->|[->| ->]]; vm_compute in Hsp; injection Hsp as <-; split_and!; try (vm_compute; by left); try done.
  all: first [by apply (Hpre 0%nat 4%nat)|by apply (Hpre 4%nat 4%nat)|by apply (Hpre 8%nat 2%nat)].
Qed.
Ltac wit_all_honest :=
  repeat (apply Forall_cons; split; [first [exact I | apply wit_begin_honest; lia]|]); exact (Forall_nil_2 _).


(** A flaw of [commitFileUpload]: when flushing the directory fails after
    the rename, the session stays, its part file gone; the panel's retry of the
    last chunk is accepted and the next commit succeeds, replacing the complete
    file by one whose other bytes are zero. *)
Theorem failed_sync_then_retry_zeroes :
  exists evs s, Forall wit_honest evs /\ run None evs (init wit_fs) = Some s /\
    (exists cm, sy_commits s !! 1%nat = Some cm /\ cm_phase cm = Renamed) /\
    contents (sy_fs s) "/srv/file" = Some (replicate 8 zero ++ wit_body 2)%list.
Proof.
  set (evs := (wit_events ++ [EPublish 0 [false; false; false; false; false; true]] ++ wit_stream 3 2 ++
    [ECommit 1 wit_commit_args; EWaited 1; ECheck 1; EPublish 1 []])%list).
  exists evs, (default (init wit_fs) (run None evs (init wit_fs))). split_and!.
  - wit_all_honest.
  - vm_compute. reflexivity.
  - eexists. split; vm_compute; reflexivity.
  - vm_compute. reflexivity.
Qed.

(** ** Cancelled uploads *)

Section Tombstone.
Context (home : option string) (u : string) (now0 : time).
Definition tombstone (m : gmap string uploadStreamLifecycle) : Prop :=
  exists l, m !! u = Some l /\ lc_canceled l = true /\ now0 <= lc_canceledAt l.
Definition in_window (ev : event) : Prop :=
  match ev with
  | EBegin _ _ _ now | ECancel _ now => 0 < now0 <= now /\ now < now0 + uploadCancelTombstoneTTL
  | _ => True
  end.

Lemma tombstone_prune now m :
  0 < now0 <= now /\ now < now0 + uploadCancelTombstoneTTL -> tombstone m -> tombstone (pruneUploadLifecyclesLocked now m).
Proof.
  intros Hn (l & Hl & Hc & Ha). exists l. split; [|done]. unfold pruneUploadLifecyclesLocked. rewrite lookup_omap, Hl. simpl.
  assert (expired now l = false) as ->; [|done]. unfold expired. rewrite Hc. simpl. apply andb_false_iff. right.
  apply orb_false_iff. unfold is_zero. split; [apply Z.eqb_neq; lia|apply Z.leb_gt; lia].
Qed.
Lemma tombstone_insert m v l : (v = u -> lc_canceled l = true /\ now0 <= lc_canceledAt l) -> tombstone m -> tombstone (<[v := l]> m).
Proof.
  intros Hl (l0 & H0 & Hc). destruct (decide (v = u)) as [->|Hne]; [exists l; rewrite lookup_insert_eq; auto|].
  exists l0. by rewrite lookup_insert_ne.
Qed.
Lemma tombstone_life m : tombstone m -> lc_canceled (life_of u m) = true /\ now0 <= lc_canceledAt (life_of u m).
Proof. intros (l & Hl & H). unfold life_of. by rewrite Hl. Qed.
Lemma tombstone_wait v m m' : waitUploadStreams v m = Some m' -> tombstone m -> tombstone m'.
Proof.
  unfold waitUploadStreams. destruct (m !! v) as [l|] eqn:El; [|by intros [= <-]]. destruct (Nat.eqb _ _); [|done]. intros [= <-].
  destruct (lc_canceled l) eqn:Ec; [done|]. intros (l0 & H0 & Hc & Ha). exists l0. split; [|done].
  rewrite lookup_delete_ne; [done|]. intros ->. congruence.
Qed.
Lemma tombstone_end v stream m : tombstone m -> tombstone (endActive v stream m).
Proof.
  intros Ht. unfold endActive. destruct (m !! v) as [l|] eqn:El; [|done].
  assert (Hl : v = u -> lc_canceled l = true /\ now0 <= lc_canceledAt l) by (intros ->; apply tombstone_life in Ht; unfold life_of in Ht; by rewrite El in Ht).
  destruct (lc_active l) as [|n]; [by apply tombstone_insert|]. destruct (Nat.eqb n 0 && negb (lc_canceled l)) eqn:Ed; [|by apply tombstone_insert].
  apply andb_true_iff in Ed as [_ Ed]. apply negb_true_iff in Ed. destruct Ht as (l0 & H0 & Hc & Ha). exists l0. split; [|done].
  rewrite lookup_delete_ne; [done|]. intros ->. congruence.
Qed.

(** The sections that leave lifecycles and tasks alone. *)
Lemma join_quiet sp faults s r s1 : join_session sp faults s = (r, s1) -> sy_life s1 = sy_life s /\ sy_tasks s1 = sy_tasks s.
Proof.
  unfold join_session. destruct (sy_chunks s !! _); [destruct (session_matches _ _ _ _ _); by intros [= _ <-]|].
  destruct (sp_First sp); [|by intros [= _ <-]]. destruct (run_os _ _ _) as [[]]; [|by intros [= _ <-]].
  destruct (session_matches _ _ _ _ _); by intros [= _ <-].
Qed.
Lemma finish_quiet sp part w faults now s r s1 :
  finish_chunk sp part w faults now s = (r, s1) -> sy_life s1 = sy_life s /\ sy_tasks s1 = sy_tasks s.
Proof.
  unfold finish_chunk. destruct (negb _); [by intros [= _ <-]|].
  destruct (run_os _ _ _) as [[]]; [|by intros [= _ <-]]. destruct (sy_chunks s !! _); by intros [= _ <-].
Qed.
Lemma cancel_quiet args faults s :
  sy_life (snd (cancel_upload home args faults s)) = sy_life s /\ sy_tasks (snd (cancel_upload home args faults s)) = sy_tasks s.
Proof.
  unfold cancel_upload. cbv zeta. destruct (sy_chunks s !! _).
  - destruct (_ && _ && _); [done|]. by destruct (removeUploadFileLocked _ _ _ _) as [[]].
  - destruct (_ =? _)%string; [done|]. destruct (run_os _ _ _) as [[|[]]]; done.
Qed.

Lemma step_others ev s s' : step home ev s = Some s' ->
  match ev with EBegin _ _ _ _ | ECancel _ _ => True | _ => tombstone (sy_life s) -> tombstone (sy_life s') end /\
  match ev with
  | EBegin _ _ _ _ => True
  | _ => forall t v, sy_tasks s' !! t = Some v -> exists v0, sy_tasks s !! t = Some v0 /\ tk_id v0 = tk_id v
  end.
Proof.
  assert (Hupd : forall t v ph m, sy_tasks s !! t = Some v -> m = <[t := in_phase ph v]> (sy_tasks s) ->
    forall t' v', m !! t' = Some v' -> exists v0, sy_tasks s !! t' = Some v0 /\ tk_id v0 = tk_id v').
  { intros t v ph m Ht -> t' v'. rewrite lookup_insert_Some. intros [[<- <-]|[_ Hv]]; eauto. }
  destruct ev as [t args body now|t faults|t faults|t n|t faults now|t e|t|c args|c|c|c faults|c|args now|args faults]; simpl; intros Hs.
  - done.
  - destruct (sy_tasks s !! t) as [v|] eqn:Et; [|done]. destruct (tk_phase v) eqn:Ep; try done.
    destruct (join_session (tk_spec v) faults s) as [r s1] eqn:Ej. destruct (join_quiet _ _ _ _ _ Ej) as [Hl Ht].
    destruct r; injection Hs as <-; simpl; rewrite Hl, Ht; split; auto; by eapply Hupd.
  - destruct (sy_tasks s !! t) as [v|] eqn:Et; [|done]. destruct (tk_phase v) eqn:Ep; try done.
    destruct (run_os faults _ _) as [[] fs]; injection Hs as <-; simpl; split; auto; by eapply Hupd.
  - destruct (sy_tasks s !! t) as [v|] eqn:Et; [|done]. destruct (tk_phase v) eqn:Ep; try done.
    injection Hs as <-; simpl; split; auto; by eapply Hupd.
  - destruct (sy_tasks s !! t) as [v|] eqn:Et; [|done]. destruct (tk_phase v) eqn:Ep; try done.
    destruct (finish_chunk _ _ _ _ _ _) as [r s1] eqn:Ef. destruct (finish_quiet _ _ _ _ _ _ _ _ Ef) as [Hl Ht].
    injection Hs as <-; simpl; rewrite Hl, Ht; split; auto; by eapply Hupd.
  - destruct (sy_tasks s !! t) as [v|] eqn:Et; [|done]. destruct (tk_phase v) eqn:Ep; try done; injection Hs as <-; simpl; split; auto; by eapply Hupd.
  - destruct (sy_tasks s !! t) as [v|] eqn:Et; [|done]. destruct (tk_phase v) eqn:Ep; try done. injection Hs as <-. simpl.
    split; [apply tombstone_end|]. intros t' v'. rewrite lookup_delete_Some. intros [_ Hv]. eauto.
  - destruct (sy_commits s !! c); [done|]. destruct (commit_request home args); injection Hs as <-; simpl; split; eauto.
  - destruct (sy_commits s !! c) as [[? ? ? ? ? []]|]; try done. destruct (waitUploadStreams _ _) eqn:Ew; [|done]. injection Hs as <-. simpl.
    split; [by eapply tombstone_wait|eauto].
  - destruct (sy_commits s !! c) as [[? ? ? ? ? []]|]; try done. case_bool_decide; [done|].
    destruct (commit_check _ _); injection Hs as <-; simpl; split; eauto.
  - destruct (sy_commits s !! c) as [[? ? ? ? ? []]|]; try done. destruct (publish _ _ _) as [[] [fs fl]]; [destruct (run_os _ _ _) as [[] ?]|];
      injection Hs as <-; simpl; split; eauto.
  - destruct (sy_commits s !! c) as [[? ? ? ? ? []]|]; try done. injection Hs as <-; simpl; split; eauto.
  - split; [done|]. destruct (_ =? _)%string; injection Hs as <-; simpl; eauto.
  - destruct (_ =? _)%string; [injection Hs as <-; split; eauto|]. destruct (waitUploadStreams _ _) as [life|] eqn:Ew; [|done].
    case_bool_decide; [done|]. injection Hs as <-. destruct (cancel_quiet args faults (with_life life s)) as [-> ->]. simpl.
    split; [by eapply tombstone_wait|eauto].
Qed.

Lemma tombstone_step ev s s' : in_window ev -> step home ev s = Some s' -> tombstone (sy_life s) ->
  tombstone (sy_life s') /\
  forall t v, sy_tasks s' !! t = Some v -> tk_id v = u -> exists v0, sy_tasks s !! t = Some v0 /\ tk_id v0 = u.
Proof.
  intros Hw Hs Ht. pose proof (step_others ev s s' Hs) as [H1 H2].
  destruct ev as [t args body now| | | | | | | | | | | |args now|]; try (split; [by apply H1|intros t' v' Hv <-; by apply H2]); simpl in *.
  - destruct (sy_tasks s !! t) eqn:Et; [done|]. destruct (parseUploadStreamSpec home args) as [sp|] eqn:Ep; [|injection Hs as <-; eauto].
    unfold beginUploadStream in Hs. pose proof (tombstone_prune now _ Hw Ht) as Hp. set (m := pruneUploadLifecyclesLocked now (sy_life s)) in *.
    destruct (lc_canceled (life_of (sp_UploadID sp) m)) eqn:Ec; injection Hs as <-; simpl.
    + split; [|eauto]. apply tombstone_insert; [|done]. intros ->. by apply tombstone_life.
    + assert (Hne : sp_UploadID sp <> u) by (intros He; rewrite He in Ec; apply tombstone_life in Hp as [? _]; congruence).
      split; [by apply tombstone_insert|]. intros t' v'. rewrite lookup_insert_Some. intros [[<- <-]|[_ Hv]] Hid; [done|eauto].
  - split; [|intros t v Hv <-; by apply H2]. destruct (_ =? _)%string; injection Hs as <-; simpl; [done|].
    unfold cancelUploadStreams. apply tombstone_insert; [|by apply tombstone_prune]. simpl. intros _. split; [done|lia].
Qed.
End Tombstone.

(** A cancelled upload takes no new stream for fifteen minutes, whatever
    else happens meanwhile: every stream it still has was there when it was
    cancelled. *)
Theorem cancel_blocks_streams home args now s s1 evs s2 :
  let u := trim_space (argString args "upload_id") in
  u <> "" -> 0 < now ->
  step home (ECancel args now) s = Some s1 -> Forall (in_window now) evs -> run home evs s1 = Some s2 ->
  forall t v, sy_tasks s2 !! t = Some v -> tk_id v = u -> exists v0, sy_tasks s !! t = Some v0 /\ tk_id v0 = u.
Proof.
  intros u Hu Hnow Hs Hall Hrun.
  assert (Hstart : tombstone u now (sy_life s1) /\ sy_tasks s1 = sy_tasks s).
  { simpl in Hs. rewrite (proj2 (String.eqb_neq _ "")) in Hs by done. injection Hs as <-. split; [|done]. simpl.
    unfold cancelUploadStreams. eexists. rewrite lookup_insert_eq. split; [done|]. simpl. split; [done|lia]. }
  destruct Hstart as [Ht <-]. clear Hs. revert s1 Ht Hrun.
  induction evs as [|ev evs IH]; intros s1 Ht; simpl; [intros [= <-]; eauto|].
  apply Forall_cons in Hall as [Hev Hall]. destruct (step home ev s1) as [s3|] eqn:Es; [|done]. simpl. intros Hrun t v Hv Hid.
  destruct (tombstone_step home u now ev s1 s3 Hev Es Ht) as [Ht3 Hold].
  destruct (IH Hall s3 Ht3 Hrun t v Hv Hid) as (v0 & Hv0 & Hid0). by apply (Hold t v0).
Qed.

Lemma cancel_blocks_streams_witness :
  let s := default (init wit_fs) (run None [wit_begin 0 0] (init wit_fs)) in
  exists v0, sy_tasks s !! 0%nat = Some v0 /\ tk_id v0 = "u1".
Proof.
  intros s. set (s1 := default s (step None (ECancel wit_commit_args 1000) s)).
  set (s2 := default s1 (run None [wit_begin 1 1] s1)).
  apply (cancel_blocks_streams None wit_commit_args 1000 s s1 [wit_begin 1 1] s2) with
    (v := mkTask (wit_spec 0) "t" (wit_body 0) Begun).
  - discriminate.
  - reflexivity.
  - subst s s1. vm_compute. reflexivity.
  - apply Forall_cons. split; [|exact (Forall_nil_2 _)]. vm_compute. repeat split; discriminate.
  - subst s s1 s2. vm_compute. reflexivity.
  - subst s s1 s2. vm_compute. reflexivity.
  - reflexivity.
Defined.
