(* ===== verification/Systemd.v ===== *)
(** * Reading what systemd says ([internal/hostcmd/systemd.go], [profile_linux.go])

    The host tool parses [systemctl show] as data: an observation of a service,
    its argument vector, the identity and capabilities of its process. It
    writes units whose arguments it quotes itself. *)

From S2P Require Import Prelude.
From S2P Require Import GoStd.

Local Open Scope string_scope.
Local Open Scope Z_scope.

(** ** The string functions of the package [strings] used here *)

(** [strings.Cut(s, sub)]. *)
Fixpoint cut (s sub : string) : option (string * string) :=
  if has_prefix s sub then Some ("", trim_prefix s sub) else
  match s with
  | EmptyString => None
  | String a r => match cut r sub with Some (b, t) => Some (String a b, t) | None => None end
  end.
(** [strings.Count(s, sub)] of a non-empty [sub]: occurrences do not overlap. *)
Fixpoint count_go (sub : string) (skip : nat) (s : string) : nat :=
  match s with
  | EmptyString => O
  | String _ r =>
      match skip with
      | S k => count_go sub k r
      | O => if has_prefix s sub then S (count_go sub (pred (String.length sub)) r) else count_go sub 0 r
      end
  end.
(** [strings.Fields]. *)
Definition push (t : list ascii) (acc : list string) : list string :=
  match t with [] => acc | _ => of_chars (rev t) :: acc end.
Fixpoint fields_go (t : list ascii) (acc : list string) (l : list ascii) : list string :=
  match l with
  | [] => rev (push t acc)
  | a :: r1 =>
      if space1 a then fields_go [] (push t acc) r1 else
      match r1 with
      | [] => rev (push (a :: t) acc)
      | b :: r2 =>
          if space2 a b then fields_go [] (push t acc) r2 else
          match r2 with
          | c :: r3 => if space3 a b c then fields_go [] (push t acc) r3 else fields_go (a :: t) acc r1
          | [] => fields_go (a :: t) acc r1
          end
      end
  end.
Definition fields (s : string) : list string := fields_go [] [] (chars s).
(** [strings.ReplaceAll(s, c, by)] of a one-byte pattern. *)
Definition replace1 (c : ascii) (by_ : list ascii) (l : list ascii) : list ascii :=
  concat (map (fun a => if Ascii.eqb a c then by_ else [a]) l).

Definition hex_value (a : ascii) : option Z :=
  let n := Z.of_nat (code a) in
  if (48 <=? n) && (n <=? 57) then Some (n - 48)
  else if (97 <=? n) && (n <=? 102) then Some (n - 87)
  else if (65 <=? n) && (n <=? 70) then Some (n - 55) else None.
Fixpoint parse_hex_go (acc : Z) (l : list ascii) : option Z :=
  match l with
  | [] => Some acc
  | a :: r => match hex_value a with Some d => parse_hex_go (acc * 16 + d) r | None => None end
  end.
(** The value [strconv.ParseUint(s, 16, 64)] returns, its error ignored: 0 for
    what is not a number, the maximum for a number out of range. *)
Definition hex64 (s : string) : Z :=
  match chars s with
  | [] => 0
  | l => match parse_hex_go 0 l with Some n => Z.min n max_uint64 | None => 0 end
  end.

(** ** Argument vectors *)

Inductive argv_err :=
| TruncatedEscape | InvalidHexEscape | InvalidEscapedByte | UnsupportedEscape | ControlByte | UnclosedQuote
| NotSimpleCommand | UnsupportedSerialization | AmbiguousArgv | NotAbsolute.

Definition dquote : ascii := byte_of 34.
Definition backslash : ascii := byte_of 92.
Definition quote_char (c : ascii) : bool := Ascii.eqb c dquote || Ascii.eqb c "'"%char.
Definition space_char (c : ascii) : bool := Ascii.eqb c " "%char || Nat.eqb (code c) 9.
Definition control_char (c : ascii) : bool := Nat.eqb (code c) 10 || Nat.eqb (code c) 0.
Definition finish_word (started : bool) (token : list ascii) (args : list string) : list string :=
  if started then (args ++ [of_chars token])%list else args.

(** The loop of [splitWords]: [quote] is the open quote, [started] whether a
    word (perhaps empty) has begun. *)
Fixpoint split_words (l : list ascii) (args : list string) (token : list ascii) (quote : option ascii) (started : bool)
    : result (list string) argv_err :=
  match l with
  | [] => match quote with Some _ => Err UnclosedQuote | None => Ok (finish_word started token args) end
  | c :: r =>
      if Ascii.eqb c backslash then
        match r with
        | [] => Err TruncatedEscape
        | c :: r =>
            if Ascii.eqb c "x"%char then
              match r with
              | a :: b :: r =>
                  match hex_value a, hex_value b with
                  | Some x, Some y =>
                      if x * 16 + y =? 0 then Err InvalidEscapedByte
                      else split_words r args (token ++ [byte_of (Z.to_nat (x * 16 + y))])%list quote true
                  | _, _ => Err InvalidEscapedByte
                  end
              | _ => Err InvalidHexEscape
              end
            else if Ascii.eqb c backslash || quote_char c || Ascii.eqb c " "%char
            then split_words r args (token ++ [c])%list quote true else Err UnsupportedEscape
        end
      else
        let plain_char :=
          if (match quote with None => true | Some _ => false end) && space_char c then
            split_words r (finish_word started token args) (if started then [] else token) quote false
          else if control_char c then Err ControlByte
          else split_words r args (token ++ [c])%list quote true in
        if quote_char c then
          match quote with
          | None => split_words r args token (Some c) true
          | Some q => if Ascii.eqb q c then split_words r args token None started else plain_char
          end
        else plain_char
  end.
Definition splitWords (value : string) : result (list string) argv_err := split_words (chars value) [] [] None false.

Definition unitQuote (s : string) : string :=
  of_chars (dquote ::
    replace1 "$"%char ["$"; "$"]%char (replace1 "%"%char ["%"; "%"]%char
      (replace1 dquote [backslash; dquote] (replace1 backslash [backslash; backslash] (chars s)))) ++ [dquote])%list.

Definition parseExecStart (value : string) : result (list string) argv_err :=
  guard? Nat.eqb (count_go "{ path=" 0 value) 1 else NotSimpleCommand in
  match cut value " ; argv[]=" with
  | None => Err UnsupportedSerialization
  | Some (_, tail_) =>
      match cut tail_ " ; ignore_errors=" with
      | None => Err AmbiguousArgv
      | Some (argv, _) =>
          guard? negb (contains argv " ; ") else AmbiguousArgv in
          try? args := splitWords argv in
          match args with
          | a :: _ => guard? has_prefix a "/" else NotAbsolute in Ok args
          | [] => Err NotAbsolute
          end
      end
  end.

(** ** Observations *)

Record serviceObservation := mkObservation {
  so_User : string; so_WorkingDirectory : string; so_FragmentPath : string; so_DropInPaths : string;
  so_MainPID : string; so_ExecStart : string }.

(** The value of the last line that starts with [key] and [sep]. *)
Definition line_value (sepr key : string) (lines : list string) : string :=
  fold_left (fun v line => match cut line sepr with
    | Some (k, x) => if (k =? key)%string then x else v
    | None => v
    end) lines "".
Definition parse_observation (value : string) : serviceObservation :=
  let get k := line_value "=" k (split_on (byte_of 10) value) in
  mkObservation (get "User") (get "WorkingDirectory") (get "FragmentPath") (get "DropInPaths") (get "MainPID") (get "ExecStart").
(** What [observe] accepts of the output of [systemctl show]. *)
Definition observed (value : string) : option serviceObservation :=
  let o := parse_observation value in
  if (so_FragmentPath o =? "")%string || (so_ExecStart o =? "")%string then None else Some o.

(** ** The identity of a running service *)

Definition required_caps : Z := 6303939.   (* 1<<0 | 1<<1 | 1<<6 | 1<<7 | 1<<12 | 1<<13 | 1<<21 | 1<<22 *)
Definition cap_net_raw : Z := 8192.        (* 1 << 13 *)

(** The checks on [/proc/PID/status]. *)
Definition valid_process (wantUID mode : Z) (status : string) : bool :=
  let v k := trim_space (line_value ":" k (split_on (byte_of 10) status)) in
  let uids := fields (v "Uid") in
  let bound := hex64 (v "CapBnd") in
  let eff := hex64 (v "CapEff") in
  Nat.eqb (length uids) 4 && forallb (fun u => (u =? itoa wantUID)%string) uids &&
  (if mode =? 1 then
     (v "NoNewPrivs" =? "0")%string && (Z.land bound required_caps =? required_caps) &&
     (Z.land eff required_caps =? required_caps)
   else (v "NoNewPrivs" =? "1")%string && (bound =? cap_net_raw)).

(** One attempt of [verifyService]: the main PID and the status of the process,
    when both could be read. *)
Definition sample : Type := option (string * string).
Definition usable (pid : string) : bool := negb (pid =? "0")%string && negb (pid =? "")%string.
Definition verify_step (wantUID mode : Z) (st : string * Z) (s : sample) : string * Z :=
  let '(previous, stable) := st in
  match s with
  | None => st
  | Some (pid, status) =>
      if negb (usable pid) then st
      else if negb (valid_process wantUID mode status) then (previous, 0)
      else if (pid =? previous)%string then (previous, stable + 1) else (pid, 1)
  end.
Fixpoint verify_loop (wantUID mode : Z) (st : string * Z) (samples : list sample) : bool :=
  match samples with
  | [] => false
  | s :: rest =>
      let st' := verify_step wantUID mode st s in
      if 3 <=? snd st' then true else verify_loop wantUID mode st' rest
  end.
Definition attempts : nat := 30.

(** ** Quoting is read back *)

(** systemd itself halves the doubled [%] and [$]. *)
Definition doubled (s : string) : string := of_chars (replace1 "$"%char ["$"; "$"]%char (replace1 "%"%char ["%"; "%"]%char (chars s))).
Definition quotable (s : string) : Prop := forall c, c ∈ chars s -> control_char c = false.

Definition esc (c : ascii) : list ascii :=
  if Ascii.eqb c backslash then [backslash; backslash] else if Ascii.eqb c dquote then [backslash; dquote]
  else if Ascii.eqb c "%"%char then ["%"; "%"]%char else if Ascii.eqb c "$"%char then ["$"; "$"]%char else [c].
Definition dbl (c : ascii) : list ascii :=
  if Ascii.eqb c "%"%char then ["%"; "%"]%char else if Ascii.eqb c "$"%char then ["$"; "$"]%char else [c].

Lemma replace1_app c r a b : replace1 c r (a ++ b) = (replace1 c r a ++ replace1 c r b)%list.
Proof. unfold replace1. by rewrite map_app, concat_app. Qed.
Lemma replace1_flat c r l : replace1 c r l = flat_map (fun a => if Ascii.eqb a c then r else [a]) l.
Proof. unfold replace1. by rewrite flat_map_concat_map. Qed.

(** The nested replacements act character by character. *)
Lemma unitQuote_body l :
  replace1 "$"%char ["$"; "$"]%char (replace1 "%"%char ["%"; "%"]%char
    (replace1 dquote [backslash; dquote] (replace1 backslash [backslash; backslash] l))) = flat_map esc l.
Proof.
  induction l as [|c l IH]; [done|]. change (c :: l) with ([c] ++ l)%list. rewrite !replace1_app, IH. simpl.
  f_equal. unfold replace1, esc. cbn [map concat app].
  destruct (Ascii.eqb_spec c backslash) as [->|H1]; [done|]. cbn [map concat app].
  destruct (Ascii.eqb_spec c dquote) as [->|H2]; [done|]. cbn [map concat app].
  destruct (Ascii.eqb_spec c "%"%char) as [->|H3]; [done|]. cbn [map concat app].
  destruct (Ascii.eqb_spec c "$"%char) as [->|H4]; [done|]. done.
Qed.
Lemma doubled_body s : doubled s = of_chars (flat_map dbl (chars s)).
Proof.
  unfold doubled. f_equal. induction (chars s) as [|c l IH]; [done|]. change (c :: l) with ([c] ++ l)%list.
  rewrite !replace1_app, IH. simpl. f_equal. unfold replace1, dbl. cbn [map concat app].
  destruct (Ascii.eqb_spec c "%"%char) as [->|H3]; [done|]. cbn [map concat app].
  destruct (Ascii.eqb_spec c "$"%char) as [->|H4]; [done|]. done.
Qed.

Lemma split_words_plain c r args token q started :
  c <> backslash -> quote_char c = false ->
  split_words (c :: r) args token q started =
  if (match q with None => true | Some _ => false end) && space_char c
  then split_words r (finish_word started token args) (if started then [] else token) q false
  else if control_char c then Err ControlByte else split_words r args (token ++ [c])%list q true.
Proof. intros Hc Hq. cbn [split_words]. apply Ascii.eqb_neq in Hc. by rewrite Hc, Hq. Qed.

(** One escaped character inside double quotes. *)
Lemma split_words_esc c r args token :
  control_char c = false ->
  split_words (esc c ++ r) args token (Some dquote) true = split_words r args (token ++ dbl c)%list (Some dquote) true.
Proof.
  intros Hc. unfold esc, dbl.
  destruct (Ascii.eqb_spec c backslash) as [->|H1]; [done|].
  destruct (Ascii.eqb_spec c dquote) as [->|H2]; [done|].
  destruct (Ascii.eqb_spec c "%"%char) as [->|H3].
  { simpl. by rewrite <- app_assoc. }
  destruct (Ascii.eqb_spec c "$"%char) as [->|H4].
  { simpl. by rewrite <- app_assoc. }
  change ([c] ++ r)%list with (c :: r). destruct (quote_char c) eqn:Eq.
  - unfold quote_char in Eq. apply orb_true_iff in Eq as [Eq|Eq]; apply Ascii.eqb_eq in Eq as ->; [done|]. reflexivity.
  - rewrite split_words_plain by done. simpl. by rewrite Hc.
Qed.
Lemma split_words_body l r args token :
  (forall c, c ∈ l -> control_char c = false) ->
  split_words (flat_map esc l ++ r) args token (Some dquote) true =
  split_words r args (token ++ flat_map dbl l)%list (Some dquote) true.
Proof.
  revert token. induction l as [|c l IH]; intros token Hl; simpl; [by rewrite app_nil_r|].
  rewrite <- app_assoc, split_words_esc by (apply Hl; by left). rewrite IH, app_assoc; [done|].
  intros x Hx. apply Hl. by right.
Qed.
Lemma split_words_quoted s r args :
  quotable s ->
  split_words (chars (unitQuote s) ++ r) args [] None false = split_words r args (chars (doubled s)) None true.
Proof.
  intros Hs. unfold unitQuote. rewrite chars_of_chars, unitQuote_body. simpl. rewrite <- app_assoc, split_words_body by done.
  simpl. by rewrite doubled_body, chars_of_chars.
Qed.
Lemma split_words_space r args token :
  split_words (" "%char :: r) args token None true = split_words r (args ++ [of_chars token])%list [] None false.
Proof. reflexivity. Qed.

(** The argument vector the host tool quotes into a unit is read back as
    the same words, whatever quotes, backslashes and blanks they contain, up to
    the doubling of [%] and [$] that systemd undoes. *)
Theorem unitQuote_roundtrip args :
  Forall quotable args ->
  splitWords (join " " (map unitQuote args)) = Ok (map doubled args).
Proof.
  intros Hq. unfold splitWords. assert (Hg : forall acc, args <> [] ->
    split_words (chars (join " " (map unitQuote args))) acc [] None false = Ok (acc ++ map doubled args)%list).
  { induction Hq as [|a args Ha Hargs IH]; [done|]. intros acc _. destruct args as [|b args].
    - change (join _ _) with (unitQuote a). rewrite <- (app_nil_r (chars (unitQuote a))), split_words_quoted by done. simpl. by rewrite of_chars_chars.
    - cbn [map join]. change (unitQuote a ++ " " ++ ?x) with (unitQuote a ++ (" " ++ x)). rewrite chars_app, split_words_quoted by done.
      change (chars (" " ++ ?x)) with (" "%char :: chars x).
      rewrite split_words_space, of_chars_chars. cbn [map] in IH. rewrite IH by done. by rewrite <- app_assoc. }
  destruct args as [|a args]; [done|]. by rewrite Hg.
Qed.

(** ** A verified service stayed up *)

Definition witnessed (wantUID mode : Z) (pid : string) (s : sample) : Prop :=
  exists status, s = Some (pid, status) /\ usable pid = true /\ valid_process wantUID mode status = true.
(** An attempt that could not observe the process says nothing. *)
Definition silent (s : sample) : Prop := s = None \/ exists pid status, s = Some (pid, status) /\ usable pid = false.

(** [n] observations of [pid] end [l], with only silent ones in between. *)
Inductive streak (wantUID mode : Z) (pid : string) : nat -> list sample -> Prop :=
| streak_none l : streak wantUID mode pid 0 l
| streak_seen n l s : streak wantUID mode pid n l -> witnessed wantUID mode pid s -> streak wantUID mode pid (S n) (l ++ [s])
| streak_silent n l s : streak wantUID mode pid n l -> silent s -> streak wantUID mode pid n (l ++ [s]).

Lemma verify_step_streak wantUID mode previous n l s :
  streak wantUID mode previous n l ->
  let '(p, k) := verify_step wantUID mode (previous, Z.of_nat n) s in
  exists n', k = Z.of_nat n' /\ streak wantUID mode p n' (l ++ [s]).
Proof.
  intros Hst. unfold verify_step. destruct s as [[pid status]|].
  2: { exists n. split; [done|]. apply streak_silent; [done|by left]. }
  destruct (usable pid) eqn:Eu; cbn [negb].
  2: { exists n. split; [done|]. apply streak_silent; [done|]. right. eauto. }
  destruct (valid_process wantUID mode status) eqn:Ev; cbn [negb].
  2: { exists O. split; [done|]. constructor. }
  assert (Hw : witnessed wantUID mode pid (Some (pid, status))) by (exists status; done).
  destruct (String.eqb_spec pid previous) as [->|].
  - exists (S n). split; [lia|]. by constructor.
  - exists 1%nat. split; [done|]. constructor; [constructor|done].
Qed.

(** [verifyService] reports success only after three observations of one
    process, all with the wanted identity and capability profile, between which
    no other process and no other profile was observed. *)
Theorem verify_loop_stable wantUID mode samples :
  verify_loop wantUID mode ("", 0) samples = true ->
  exists pid before_ after_, samples = (before_ ++ after_)%list /\ streak wantUID mode pid 3 before_.
Proof.
  assert (Hg : forall l p n, streak wantUID mode p n l -> (n < 3)%nat ->
    verify_loop wantUID mode (p, Z.of_nat n) samples = true ->
    exists pid b a, (l ++ samples = b ++ a)%list /\ streak wantUID mode pid 3 b).
  { induction samples as [|s samples IH]; intros l p n Hst Hn Hv; [done|]. cbn [verify_loop] in Hv.
    pose proof (verify_step_streak wantUID mode p n l s Hst) as Hs.
    destruct (verify_step wantUID mode (p, Z.of_nat n) s) as [p' k] eqn:E. destruct Hs as (n' & -> & Hs'). cbn [snd] in Hv.
    replace (l ++ s :: samples)%list with ((l ++ [s]) ++ samples)%list by (by rewrite <- app_assoc).
    destruct (3 <=? Z.of_nat n') eqn:E3.
    - assert (Hn' : (n' <= S n)%nat).
      { unfold verify_step in E. destruct s as [[pid status]|]; [|injection E as _ E; lia].
        destruct (negb (usable pid)); [injection E as _ E; lia|]. destruct (negb _); [injection E as _ E; lia|].
        destruct (pid =? p)%string; injection E as _ E; lia. }
      zbool. assert (n' = 3)%nat as -> by lia. exists p', (l ++ [s])%list, samples. done.
    - zbool. by apply (IH (l ++ [s])%list p' n'); [|lia|]. }
  intros Hv. apply (Hg [] "" 0%nat); [constructor|lia|done].
Qed.

Lemma unitQuote_roundtrip_witness :
  let args := ["/bin/a b"; of_chars (chars "it's 100%" ++ [backslash; dquote])] in
  splitWords (join " " (map unitQuote args)) = Ok ["/bin/a b"; of_chars (chars "it's 100%%" ++ [backslash; dquote])].
Proof.
  intros args. rewrite (unitQuote_roundtrip args); [vm_compute; reflexivity|].
  repeat constructor; intros c Hc; vm_compute in Hc; repeat (apply elem_of_cons in Hc as [->|Hc]; [reflexivity|]); by apply elem_of_nil in Hc.
Defined.

Definition status_demo : string :=
  of_chars (chars "Uid:	1000 1000 1000 1000" ++ byte_of 10 :: chars "NoNewPrivs:	1" ++ byte_of 10 :: chars "CapBnd:	0000000000002000")%list.
Lemma verify_loop_stable_witness :
  let run := [Some ("7", status_demo); None; Some ("7", status_demo); Some ("7", status_demo)] in
  exists pid before_ after_, run = (before_ ++ after_)%list /\ streak 1000 2 pid 3 before_.
Proof. intros run. apply (verify_loop_stable 1000 2 run). vm_compute. reflexivity. Defined.
