(* ===== verification/HostFs.v ===== *)
(** * The host the administrator's tool changes ([internal/hostcmd])

    The privileged command edits files with their owners and modes, runs
    [systemctl], asks the panel and writes a journal, as one process that may
    be killed at any point. This file is that world: a file system of nodes with
    metadata and inode numbers, the process's journal in memory, an environment
    of oracles indexed by the number of the call (which calls fail, what
    [systemctl] and the panel answer, what running services do to the files),
    and the trace of every file system the process leaves behind. *)

From S2P Require Import Prelude.
From S2P Require Import GoStd.
From S2P Require Import GoPath.
From S2P Require Import External.
From S2P Require Import Privileged.
From S2P Require Import HostOps.

Local Open Scope string_scope.
Local Open Scope Z_scope.

(** ** Nodes *)

Inductive kind := KDir | KReg | KSymlink | KSpecial.
#[export] Instance kind_eq : EqDecision kind.
Proof. solve_decision. Defined.

(** [n_mode] are the permission bits; hard links exist as a count only. *)
Record HNode := mkHNode {
  n_kind : kind; n_mode : Z; n_uid : Z; n_gid : Z; n_nlink : Z; n_dev : Z; n_ino : Z; n_data : string }.
#[export] Instance HNode_eq : EqDecision HNode.
Proof. solve_decision. Defined.
Abbreviation hfs := (gmap string HNode).

Definition is_dir (n : HNode) : bool := bool_decide (n_kind n = KDir).
Definition is_reg (n : HNode) : bool := bool_decide (n_kind n = KReg).
Definition is_link (n : HNode) : bool := bool_decide (n_kind n = KSymlink).
Definition with_owner_of (u g : Z) (n : HNode) : HNode :=
  mkHNode (n_kind n) (n_mode n) u g (n_nlink n) (n_dev n) (n_ino n) (n_data n).
Definition with_perm (p : Z) (n : HNode) : HNode :=
  mkHNode (n_kind n) p (n_uid n) (n_gid n) (n_nlink n) (n_dev n) (n_ino n) (n_data n).
Definition with_contents (d : string) (n : HNode) : HNode :=
  mkHNode (n_kind n) (n_mode n) (n_uid n) (n_gid n) (n_nlink n) (n_dev n) (n_ino n) d.

(** ** The journal ([hostJournal]); its directory is a parameter of the
    operations, since it is not part of the file *)

Record fileBackup := mkBackup { b_Path : string; b_Backup : string; b_Mode : Z; b_UID : Z; b_GID : Z; b_Exists : bool }.
Record ownership := mkOwn { w_Path : string; w_UID : Z; w_GID : Z; w_Mode : Z }.
Record hostJournal := mkJournal {
  j_Version : Z;
  j_Manifest : string;
  j_ID : string;
  j_Phase : string;
  j_Operator : string;
  j_Revision : bytes;
  j_Operation : bytes;
  j_Receipt : bytes;
  j_SupersededReceipts : list bytes;
  j_Backups : list fileBackup;
  j_Ownership : list ownership;
  j_RecoveryOwnership : list ownership;
  j_Error : string;
  j_PreviousMode : Z;
  j_PreviousUID : Z;
  j_PreviousHelper : bool;
  j_FenceStage : string;
  j_LegacyRemoteControlConsent : bool;
}.
#[export] Instance fileBackup_eq : EqDecision fileBackup.
Proof. solve_decision. Defined.
#[export] Instance ownership_eq : EqDecision ownership.
Proof. solve_decision. Defined.
#[export] Instance hostJournal_eq : EqDecision hostJournal.
Proof. solve_decision. Defined.

Definition set_Phase (v : string) (j : hostJournal) : hostJournal :=
  mkJournal (j_Version j) (j_Manifest j) (j_ID j) v (j_Operator j) (j_Revision j) (j_Operation j) (j_Receipt j)
    (j_SupersededReceipts j) (j_Backups j) (j_Ownership j) (j_RecoveryOwnership j) (j_Error j) (j_PreviousMode j)
    (j_PreviousUID j) (j_PreviousHelper j) (j_FenceStage j) (j_LegacyRemoteControlConsent j).
Definition set_Operation (v : bytes) (j : hostJournal) : hostJournal :=
  mkJournal (j_Version j) (j_Manifest j) (j_ID j) (j_Phase j) (j_Operator j) (j_Revision j) v (j_Receipt j)
    (j_SupersededReceipts j) (j_Backups j) (j_Ownership j) (j_RecoveryOwnership j) (j_Error j) (j_PreviousMode j)
    (j_PreviousUID j) (j_PreviousHelper j) (j_FenceStage j) (j_LegacyRemoteControlConsent j).
Definition set_Receipt (v : bytes) (superseded : list bytes) (j : hostJournal) : hostJournal :=
  mkJournal (j_Version j) (j_Manifest j) (j_ID j) (j_Phase j) (j_Operator j) (j_Revision j) (j_Operation j) v
    superseded (j_Backups j) (j_Ownership j) (j_RecoveryOwnership j) (j_Error j) (j_PreviousMode j)
    (j_PreviousUID j) (j_PreviousHelper j) (j_FenceStage j) (j_LegacyRemoteControlConsent j).
Definition set_Backups (v : list fileBackup) (j : hostJournal) : hostJournal :=
  mkJournal (j_Version j) (j_Manifest j) (j_ID j) (j_Phase j) (j_Operator j) (j_Revision j) (j_Operation j) (j_Receipt j)
    (j_SupersededReceipts j) v (j_Ownership j) (j_RecoveryOwnership j) (j_Error j) (j_PreviousMode j)
    (j_PreviousUID j) (j_PreviousHelper j) (j_FenceStage j) (j_LegacyRemoteControlConsent j).
Definition set_Error (v : string) (j : hostJournal) : hostJournal :=
  mkJournal (j_Version j) (j_Manifest j) (j_ID j) (j_Phase j) (j_Operator j) (j_Revision j) (j_Operation j) (j_Receipt j)
    (j_SupersededReceipts j) (j_Backups j) (j_Ownership j) (j_RecoveryOwnership j) v (j_PreviousMode j)
    (j_PreviousUID j) (j_PreviousHelper j) (j_FenceStage j) (j_LegacyRemoteControlConsent j).
Definition set_FenceStage (v : string) (j : hostJournal) : hostJournal :=
  mkJournal (j_Version j) (j_Manifest j) (j_ID j) (j_Phase j) (j_Operator j) (j_Revision j) (j_Operation j) (j_Receipt j)
    (j_SupersededReceipts j) (j_Backups j) (j_Ownership j) (j_RecoveryOwnership j) (j_Error j) (j_PreviousMode j)
    (j_PreviousUID j) (j_PreviousHelper j) v (j_LegacyRemoteControlConsent j).
(** [entries := &j.Ownership; if recovery { entries = &j.RecoveryOwnership }]. *)
Definition captured (recovery : bool) (j : hostJournal) : list ownership :=
  if recovery then j_RecoveryOwnership j else j_Ownership j.
Definition set_captured (recovery : bool) (v : list ownership) (j : hostJournal) : hostJournal :=
  mkJournal (j_Version j) (j_Manifest j) (j_ID j) (j_Phase j) (j_Operator j) (j_Revision j) (j_Operation j) (j_Receipt j)
    (j_SupersededReceipts j) (j_Backups j)
    (if recovery then j_Ownership j else v) (if recovery then v else j_RecoveryOwnership j) (j_Error j) (j_PreviousMode j)
    (j_PreviousUID j) (j_PreviousHelper j) (j_FenceStage j) (j_LegacyRemoteControlConsent j).

(** ** The environment *)

(** One observation of a service: [systemctl show], then the [Uid], [CapBnd],
    [CapEff] and [NoNewPrivs] of the process, when it could be read. *)
Record ProcStatus := mkProc { ps_Uid : list string; ps_CapBnd : Z; ps_CapEff : Z; ps_NoNewPrivs : string }.

Record Env := mkEnv {
  e_fault : nat -> bool;                              (** does this call fail? *)
  e_rand : nat -> list Z;                             (** the numbers [os.CreateTemp] tries *)
  e_daemon : nat -> hfs -> hfs;                       (** what the services do meanwhile *)
  e_systemctl : nat -> list string -> option string;  (** the output, unless it failed *)
  e_readdir : nat -> list string -> list string;      (** the order of directory entries *)
  e_now : nat -> time;
  e_uuid : nat -> string;
  e_user : string -> option (string * string);        (** [user.Lookup]: uid and gid *)
  e_proc : nat -> string -> option string;            (** a file of [/proc] *)
  e_exe : nat -> string -> result string bool;        (** [os.Readlink]; the error: was it a permission? *)
  e_env : string -> string;                           (** [os.Getenv] *)
  e_pam : nat -> string -> bool;                      (** does [pamtester] authenticate the account? *)
  e_self : option string;                             (** [os.Executable] *)
}.

(** ** The process *)

Record Host := mkHost {
  h_fs : hfs;
  h_ino : Z;              (** the next inode number *)
  h_tick : nat;           (** calls made so far *)
  h_j : hostJournal;      (** the journal in memory *)
  h_trace : list hfs;     (** every file system so far, latest first *)
}.

Inductive cmd_err :=
| EFault | ENotExist | ELoop | EIsDir | ENotEmpty | EExist | ENoName | EEncode | EDecode
| EHost (e : host_err)
| EUntrusted | ENonRegular | EUnsafeBackup
| EDepth | EUnexpectedOwner | EEntryLimit | EFileTooLarge | EMigrationLimit | ETooManyEntries | EGrew | ERootNotDir
| EStatePathUnclean | EDedicatedDirectory | ENestedRoots
| EProfileUnsupported | EUserDiffers | EIdentityAction | ECeilings | EReleaseKey | EHelperActions | ENoActions | ERootAccount
| ESystemctl | EUserUnknown | EBadNumber | ESuperseded | ENotApplying | EConsentChanged | EBecameSymlink
| ERestoredPolicyDiffers | EUnverified | EHelperNotReady | EHelperStale | EHelperProcess | ENotFoundUnit | EServiceName
| EPanel | EPanelNotFound | EEarlierReceipt | EReceiptRejected | ENoAuthorization
| EJournalExists | EJournalVersion | EJournalIncomplete | EJournalDiffers | EUnknownPhase
| ENotCurrentTask | EWorkingDirectory | EArtifacts | EApprovalChanged | EUnexpectedPhase | EAuthentication
| EManifest | EPolicy | ETrustExists | EPamProfile | ELocked | EBootstrap | EReleaseTag | EDownload | EConsent | EHelperArtifact | EUpgradePending | EUpgradePhase | EUpgradeJournal | EUpgradeModes
| EUpgradeBackup | EMultiplePending | ETransactionPending | ENotInstalled | EVersion | EUnhealthy | ETransitioning
| EBadArguments | ERegistered | EConversion | ENoTerminal
| EReceiptPending (e : cmd_err)  (** put back, but the panel was not told *)
| ERestored (e : cmd_err)   (** the operation failed; everything was put back *)
| EIncomplete (e : cmd_err). (** the operation failed, and so did putting things back *)

Definition HM (A : Type) : Type := Host -> result A cmd_err * Host.

Declare Scope host_scope.
Delimit Scope host_scope with host.
Definition h_ret {A} (a : A) : HM A := fun h => (Ok a, h).
Definition h_err {A} (e : cmd_err) : HM A := fun h => (Err e, h).
Definition h_bind {A B} (m : HM A) (k : A -> HM B) : HM B :=
  fun h => match m h with (Ok a, h') => k a h' | (Err e, h') => (Err e, h') end.
Notation "'let!' p := m 'in' k" := (h_bind m (fun p => k))
  (at level 200, p pattern, m at level 100, k at level 200) : host_scope.
Notation "m ;;; k" := (h_bind m (fun _ => k))
  (at level 100, k at level 200, right associativity) : host_scope.
(** [require c e]: [if !c { return e }]. *)
Definition require (c : bool) (e : cmd_err) : HM unit := if c then h_ret tt else h_err e.
Definition h_lift {A} (o : option A) (e : cmd_err) : HM A := match o with Some a => h_ret a | None => h_err e end.
(** [_ = m] and the errors the code ignores. *)
Definition h_try {A} (m : HM A) : HM (result A cmd_err) := fun h => let '(r, h') := m h in (Ok r, h').
Local Open Scope host_scope.

(** A loop that stops at the first error. *)
Fixpoint h_fold {A B} (f : B -> A -> HM B) (l : list A) (b : B) : HM B :=
  match l with
  | [] => h_ret b
  | a :: l => let! b' := f b a in h_fold f l b'
  end.
Definition h_iter {A} (f : A -> HM unit) (l : list A) : HM unit := h_fold (fun _ a => f a) l tt.

Definition get_j : HM hostJournal := fun h => (Ok (h_j h), h).
Definition set_j (f : hostJournal -> hostJournal) : HM unit :=
  fun h => (Ok tt, mkHost (h_fs h) (h_ino h) (h_tick h) (f (h_j h)) (h_trace h)).

Definition ticked (h : Host) : Host := mkHost (h_fs h) (h_ino h) (S (h_tick h)) (h_j h) (h_trace h).
Definition put_fs (m : hfs) (h : Host) : Host := mkHost m (h_ino h) (h_tick h) (h_j h) (m :: h_trace h).
Definition fresh_ino (h : Host) : Host := mkHost (h_fs h) (h_ino h + 1) (h_tick h) (h_j h) (h_trace h).
Definition forget_htrace (h : Host) : Host := mkHost (h_fs h) (h_ino h) (h_tick h) (h_j h) [].

(** ** System calls *)

Section Calls.
Context (E : Env).

(** [f] sees the number of the call and the file system. *)
Definition sys {A} (f : nat -> Host -> result A cmd_err * Host) : HM A :=
  fun h => if e_fault E (h_tick h) then (Err EFault, ticked h) else f (h_tick h) (ticked h).
(** Calls without effect on the model when they succeed: [Sync], [Close], ... *)
Definition nop : HM unit := sys (fun _ h => (Ok tt, h)).
Definition read_fs {A} (f : nat -> hfs -> result A cmd_err) : HM A := sys (fun t h => (f t (h_fs h), h)).
Definition update_node (p : string) (f : HNode -> HNode) : HM unit :=
  sys (fun _ h => match h_fs h !! p with
    | None => (Err ENotExist, h)
    | Some n => (Ok tt, put_fs (<[p := f n]> (h_fs h)) h)
    end).

Definition lookup_node (p : string) (m : hfs) : result HNode cmd_err :=
  match m !! p with Some n => Ok n | None => Err ENotExist end.
Definition h_lstat (p : string) : HM HNode := read_fs (fun _ => lookup_node p).
(** [unix.Open] with [O_NOFOLLOW], then [Stat] of the descriptor. *)
Definition h_open_nofollow (p : string) : HM HNode :=
  read_fs (fun _ m => match m !! p with
    | Some n => if is_link n then Err ELoop else Ok n
    | None => Err ENotExist
    end).
Definition h_chown (p : string) (u g : Z) : HM unit := update_node p (with_owner_of u g).
Definition h_chmod (p : string) (mode : Z) : HM unit := update_node p (with_perm mode).
Definition h_read (p : string) : HM string :=
  read_fs (fun _ m => match m !! p with
    | Some n => if is_dir n then Err EIsDir else Ok (n_data n)
    | None => Err ENotExist
    end).

(** [filepath.Join(p, name)] of a clean directory. *)
Definition child (p name : string) : string := p ++ "/" ++ name.
Definition under (p q : string) : bool := (p =? q)%string || has_prefix q (p ++ "/").
(** The names directly in [p]. *)
Definition child_name (p q : string) : option string :=
  if has_prefix q (p ++ "/") then
    let r := trim_prefix q (p ++ "/") in
    if (r =? "")%string || bool_decide (sep ∈ chars r) then None else Some r
  else None.
Definition children (p : string) (m : hfs) : list string := omap (child_name p) (map_to_list m).*1.
Definition h_readdir (p : string) (limit : nat) : HM (list string) :=
  read_fs (fun t m => Ok (take limit (e_readdir E t (children p m)))).

Fixpoint pick_name (m : hfs) (d prefix : string) (rand : list Z) : option string :=
  match rand with
  | [] => None
  | r :: rs => match m !! child d (prefix ++ utoa r) with
               | None => Some (child d (prefix ++ utoa r))
               | Some _ => pick_name m d prefix rs
               end
  end.
Definition dev_of (d : string) (m : hfs) : Z := match m !! d with Some n => n_dev n | None => 0 end.
Definition new_file (d : string) (mode : Z) (h : Host) : HNode := mkHNode KReg mode 0 0 1 (dev_of d (h_fs h)) (h_ino h) "".
(** [os.CreateTemp]: mode 0600, a new inode, root's. *)
Definition h_create_temp (d prefix : string) : HM string :=
  sys (fun t h => match pick_name (h_fs h) d prefix (e_rand E t) with
    | None => (Err ENoName, h)
    | Some name => (Ok name, put_fs (<[name := new_file d 384 h]> (h_fs h)) (fresh_ino h))
    end).
(** [os.OpenFile(p, O_CREATE|O_EXCL|O_WRONLY, mode)]. *)
Definition h_create_excl (p : string) (mode : Z) : HM unit :=
  sys (fun _ h => match h_fs h !! p with
    | Some _ => (Err EExist, h)
    | None => (Ok tt, put_fs (<[p := new_file (dir p) mode h]> (h_fs h)) (fresh_ino h))
    end).
Definition h_write (p data : string) : HM unit := update_node p (fun n => with_contents (n_data n ++ data) n).
Definition h_rename (p q : string) : HM unit :=
  sys (fun _ h => match h_fs h !! p with
    | None => (Err ENotExist, h)
    | Some n => match h_fs h !! q with
                | Some d => if is_dir d then (Err EIsDir, h) else (Ok tt, put_fs (<[q := n]> (delete p (h_fs h))) h)
                | None => (Ok tt, put_fs (<[q := n]> (delete p (h_fs h))) h)
                end
    end).
Definition h_remove (p : string) : HM unit :=
  sys (fun _ h => match h_fs h !! p with
    | None => (Err ENotExist, h)
    | Some n => if is_dir n && negb (bool_decide (children p (h_fs h) = [])) then (Err ENotEmpty, h)
                else (Ok tt, put_fs (delete p (h_fs h)) h)
    end).
Definition h_mkdir (p : string) (mode : Z) : HM unit :=
  sys (fun _ h => match h_fs h !! p with
    | Some _ => (Err EExist, h)
    | None => (Ok tt, put_fs (<[p := mkHNode KDir mode 0 0 2 (dev_of (dir p) (h_fs h)) (h_ino h) ""]> (h_fs h)) (fresh_ino h))
    end).
(** [defer os.Remove(name)]. *)
Definition h_with_removed {A} (name : string) (body : HM A) : HM A :=
  fun h => let '(r, h1) := body h in let '(_, h2) := h_remove name h1 in (r, h2).

Definition stat_of (m : hfs) (p : string) : option Stat :=
  (fun n => mkStat (n_uid n) (n_mode n) (is_link n)) <$> m !! p.
Definition h_trusted (p : string) : HM unit :=
  read_fs (fun _ m => if TrustedPath (stat_of m) p then Ok tt else Err EUntrusted).

Definition now : HM time := fun h => (Ok (e_now E (h_tick h)), ticked h).
Definition uuid : HM string := fun h => (Ok (e_uuid E (h_tick h)), ticked h).

(** [exec] of the fixed systemctl, after its own trust check; the services it
    starts or stops run meanwhile. *)
Definition systemctl (args : list string) : HM string :=
  h_trusted "/usr/bin/systemctl" ;;;
  fun h => let h1 := put_fs (e_daemon E (h_tick h) (h_fs h)) (ticked h) in
    match e_systemctl E (h_tick h) args with
    | Some out => (Ok out, h1)
    | None => (Err ESystemctl, h1)
    end.

(** [atomicWrite]; the owner is changed only when one is given. *)
Definition h_atomic_write (path data : string) (mode : Z) (owner : option (Z * Z)) : HM unit :=
  let! st := h_try (h_lstat path) in
  match st with
  | Ok n => require (is_reg n) ENonRegular
  | Err ENotExist => h_ret tt
  | Err e => h_err e
  end ;;;
  let! name := h_create_temp (dir path) ".komari-" in
  h_with_removed name (
    match owner with Some (u, g) => h_chown name u g | None => h_ret tt end ;;;
    h_chmod name mode ;;; h_write name data ;;; nop ;;; nop ;;;
    h_rename name path ;;; nop).
Definition AtomicWrite (path data : string) (mode : Z) : HM unit := h_atomic_write path data mode None.
Definition AtomicWriteOwned (path data : string) (mode u g : Z) : HM unit := h_atomic_write path data mode (Some (u, g)).
Definition newline : string := String (byte_of 10) "".
Definition WriteJSON {A} `{Json A} (path : string) (a : A) (mode : Z) : HM unit :=
  let! data := h_lift (json_marshal a) EEncode in AtomicWrite path (data ++ newline) mode.
Definition h_read_json {A} `{StrictJson A} (path : string) : HM A :=
  h_trusted path ;;;
  let! n := h_open_nofollow path in
  require (is_reg n && (slen (n_data n) <=? maximum_metadata)) (EHost BadMetadata) ;;;
  match decode_strict (n_data n) with
  | None => h_err (EHost BadMetadata)
  | Some (a, rest) => if at_eof rest then h_ret a else h_err (EHost TrailingContent)
  end.

(** [ensureTrustedDir]: creates the missing ancestors, outermost first. *)
Fixpoint ensure_dir (fuel : nat) (p : string) : HM unit :=
  match fuel with
  | O => h_err EUntrusted
  | S fuel =>
      let! st := h_try (h_lstat p) in
      match st with
      | Ok _ => h_ret tt
      | Err ENotExist => ensure_dir fuel (dir p) ;;; h_mkdir p 493
      | Err e => h_err e
      end ;;;
      h_trusted p
  end.
Definition ensureTrustedDir (p : string) : HM unit :=
  require (is_abs p) EUntrusted ;;; ensure_dir (S (S (length (elems p)))) p.
End Calls.

(** ** Reasoning about every crash point

    [hspec I P Pre m Q]: from a state that satisfies [Pre], whose journal
    satisfies [I] and whose files satisfy [P], every file system [m] goes
    through satisfies [P], the journal in memory satisfies [I] at the end, and
    a successful result satisfies [Q]. A kill at any moment leaves a file
    system of the trace. *)

Definition hgrows (P : hfs -> Prop) (h h' : Host) : Prop :=
  P (h_fs h') /\ exists new, h_trace h' = (new ++ h_trace h)%list /\ Forall P new.

Lemma hgrows_trans P h1 h2 h3 : hgrows P h1 h2 -> hgrows P h2 h3 -> hgrows P h1 h3.
Proof.
  intros [_ (n1 & H1 & F1)] [HP (n2 & H2 & F2)]. split; [done|]. exists (n2 ++ n1)%list.
  split; [by rewrite H2, H1, app_assoc|by apply Forall_app].
Qed.
Lemma hgrows_same (P : hfs -> Prop) h h' : P (h_fs h') -> h_trace h' = h_trace h -> hgrows P h h'.
Proof. intros HP Ht. split; [done|]. by exists []. Qed.
Lemma hgrows_put (P : hfs -> Prop) h h' m : P m -> h_trace h' = h_trace h -> hgrows P h (put_fs m h').
Proof. intros HP Ht. split; [done|]. exists [m]. simpl. rewrite Ht. split; [done|by constructor]. Qed.
Lemma hgrows_Forall (P : hfs -> Prop) h h' : hgrows P h h' -> Forall P (h_trace h) -> Forall P (h_trace h').
Proof. intros [_ (new & -> & Hn)] Hw. by apply Forall_app. Qed.

(** Creating, replacing or removing [p] does not disturb [P]. *)
Definition stable_at (p : string) (P : hfs -> Prop) : Prop :=
  forall m, P m -> P (delete p m) /\ forall n, P (<[p := n]> m).
Definition stable_temps (P : hfs -> Prop) : Prop := forall d s, sep ∉ chars s -> stable_at (child d (".komari-" ++ s)) P.

(** ** Temporary names

    They end in a decimal number, so their last element starts with [.komari-]. *)

Lemma digit_not_sep k : (k < 10)%nat -> digit k <> sep.
Proof. intros Hk. do 10 (destruct k as [|k]; [done|]). lia. Qed.
Lemma utoa_go_no_sep fuel n acc : sep ∉ acc -> sep ∉ utoa_go fuel n acc.
Proof.
  revert n acc. induction fuel as [|fuel IH]; intros n acc Ha; simpl; [done|].
  assert (Hd : sep ∉ digit (Z.to_nat (n mod 10)) :: acc).
  { intros [Heq|Hin]%elem_of_cons; [|done]. symmetry in Heq. revert Heq. apply digit_not_sep.
    pose proof (Z.mod_pos_bound n 10). lia. }
  destruct (n / 10 =? 0); [done|]. by apply IH.
Qed.
Lemma utoa_no_sep n : sep ∉ chars (utoa n).
Proof. unfold utoa. rewrite chars_of_chars. apply utoa_go_no_sep. set_solver. Qed.
Lemma sep_app s r : sep ∉ chars s -> sep ∉ chars (s ++ utoa r).
Proof. intros Hs. rewrite chars_app, elem_of_app. pose proof (utoa_no_sep r). naive_solver. Qed.

Section Spec.
Context (E : Env) (I : hostJournal -> Prop) (P : hfs -> Prop).

Definition hspec {A} (Pre : Host -> Prop) (m : HM A) (Q : A -> Host -> Prop) : Prop :=
  forall h, I (h_j h) -> P (h_fs h) -> Pre h ->
    let '(r, h') := m h in I (h_j h') /\ hgrows P h h' /\ forall a, r = Ok a -> Q a h'.
Definition hkeeps {A} (m : HM A) : Prop := hspec (fun _ => True) m (fun _ _ => True).

Lemma hspec_run {A} Pre (m : HM A) Q h r h' :
  hspec Pre m Q -> I (h_j h) -> P (h_fs h) -> Pre h -> m h = (r, h') ->
  I (h_j h') /\ hgrows P h h' /\ forall a, r = Ok a -> Q a h'.
Proof. intros Hs HI HP Hpre Hm. specialize (Hs h HI HP Hpre). by rewrite Hm in Hs. Qed.

Lemma hspec_bind {A B} Pre (m : HM A) (k : A -> HM B) Mid Q :
  hspec Pre m Mid -> (forall a, hspec (Mid a) (k a) Q) -> hspec Pre (h_bind m k) Q.
Proof.
  intros Hm Hk h HI HP Hpre. unfold h_bind. specialize (Hm h HI HP Hpre).
  destruct (m h) as [[a|e] h1]; destruct Hm as (HI1 & HG1 & HQ1).
  - specialize (Hk a h1 HI1 (proj1 HG1) (HQ1 a eq_refl)). destruct (k a h1) as [r h2].
    destruct Hk as (HI2 & HG2 & HQ2). split; [done|]. split; [by eapply hgrows_trans|done].
  - split; [done|]. split; [done|]. done.
Qed.
Lemma hspec_conseq {A} (Pre Pre' : Host -> Prop) (m : HM A) (Q Q' : A -> Host -> Prop) :
  hspec Pre' m Q' -> (forall h, Pre h -> Pre' h) -> (forall a h, Q' a h -> Q a h) -> hspec Pre m Q.
Proof.
  intros Hs H1 H2 h HI HP Hpre. specialize (Hs h HI HP (H1 h Hpre)). destruct (m h) as [r h'].
  destruct Hs as (? & ? & HQ). split_and!; [done|done|]. intros a Ha. by apply H2, HQ.
Qed.
Lemma hspec_keeps {A} Pre (m : HM A) : hkeeps m -> hspec Pre m (fun _ _ => True).
Proof. intros Hk. by eapply hspec_conseq. Qed.
Lemma hkeeps_of {A} (m : HM A) Q : hspec (fun _ => True) m Q -> hkeeps m.
Proof. intros Hk. by eapply hspec_conseq. Qed.

Lemma hspec_ret {A} (a : A) Pre : hspec Pre (h_ret a) (fun b h => b = a /\ Pre h).
Proof. intros h HI HP Hpre. simpl. split; [done|]. split; [by apply hgrows_same|]. by intros b [= ->]. Qed.
Lemma hspec_err {A} e Pre (Q : A -> Host -> Prop) : hspec Pre (h_err e) Q.
Proof. intros h HI HP Hpre. simpl. split; [done|]. by split; [apply hgrows_same|]. Qed.
Lemma hspec_require Pre c e : hspec Pre (require c e) (fun _ h => Pre h /\ c = true).
Proof.
  destruct c; simpl; [|apply hspec_err]. eapply hspec_conseq; [apply (hspec_ret tt Pre)|done|].
  by intros a h [_ H].
Qed.
Lemma hspec_lift {A} Pre (o : option A) e : hspec Pre (h_lift o e) (fun a h => Pre h /\ o = Some a).
Proof.
  destruct o; simpl; [|apply hspec_err]. eapply hspec_conseq; [apply (hspec_ret a Pre)|done|].
  by intros b h [-> H].
Qed.
Lemma hspec_sys {A} Pre (f : nat -> Host -> result A cmd_err * Host) Q :
  (forall t h, I (h_j h) -> P (h_fs h) -> Pre h ->
     let '(r, h') := f t (ticked h) in I (h_j h') /\ hgrows P h h' /\ forall a, r = Ok a -> Q a h') ->
  hspec Pre (sys E f) Q.
Proof.
  intros Hf h HI HP Hpre. unfold sys. destruct (e_fault E (h_tick h)).
  - split; [done|]. split; [by apply hgrows_same|done].
  - apply (Hf (h_tick h) h HI HP Hpre).
Qed.

(** Assertions about the files only. *)
Definition on_fs (F : hfs -> Prop) (h : Host) : Prop := F (h_fs h).

Lemma hspec_read {A} F (f : nat -> hfs -> result A cmd_err) :
  hspec (on_fs F) (read_fs E f) (fun a h => on_fs F h /\ exists t, f t (h_fs h) = Ok a).
Proof.
  apply hspec_sys. intros t h HI HP Hpre. split; [done|]. split; [by apply hgrows_same|].
  intros a Ha. split; [done|]. by exists t.
Qed.
Lemma hspec_nop F : hspec (on_fs F) (nop E) (fun _ => on_fs F).
Proof. apply hspec_sys. intros t h HI HP Hpre. split; [done|]. by split; [apply hgrows_same|]. Qed.

Lemma hspec_update F p f :
  (forall m n, F m -> P m -> m !! p = Some n -> P (<[p := f n]> m)) ->
  hspec (on_fs F) (update_node E p f)
    (fun _ h => exists m n, F m /\ m !! p = Some n /\ h_fs h = <[p := f n]> m).
Proof.
  intros Hst. apply hspec_sys. intros t h HI HP Hpre. simpl. destruct (h_fs h !! p) as [n|] eqn:El.
  - split; [done|]. split.
    + apply hgrows_put; [|done]. by apply Hst.
    + intros a _. by exists (h_fs h), n.
  - split; [done|]. by split; [apply hgrows_same|].
Qed.
Lemma hkeeps_update p f : stable_at p P -> hkeeps (update_node E p f).
Proof.
  intros Hst. apply (hkeeps_of _ (fun _ h => exists m n, True /\ m !! p = Some n /\ h_fs h = <[p := f n]> m)).
  eapply hspec_conseq; [apply (hspec_update (fun _ => True))|done|done].
  intros m n _ HP _. by apply Hst.
Qed.

Lemma hspec_try {A} Pre (m : HM A) Q : hspec Pre m Q -> hspec Pre (h_try m) (fun _ _ => True).
Proof.
  intros Hm h HI HP Hpre. unfold h_try. specialize (Hm h HI HP Hpre). destruct (m h) as [r h'].
  destruct Hm as (? & ? & ?). by split.
Qed.
Lemma hspec_set_j Pre f : (forall j, I j -> I (f j)) -> hspec (on_fs Pre) (set_j f) (fun _ => on_fs Pre).
Proof. intros Hf h HI HP Hpre. simpl. split; [by apply Hf|]. by split; [apply hgrows_same|]. Qed.
Lemma hspec_get_j Pre : hspec Pre get_j (fun j h => Pre h /\ I j /\ j = h_j h).
Proof. intros h HI HP Hpre. simpl. split; [done|]. split; [by apply hgrows_same|]. by intros a [= <-]. Qed.
Lemma hspec_pure {A} (v : nat -> A) F :
  hspec (on_fs F) (fun h => (Ok (v (h_tick h)), ticked h)) (fun _ => on_fs F).
Proof. intros h HI HP Hpre. simpl. split; [done|]. by split; [apply hgrows_same|]. Qed.

Lemma pick_name_fresh m d prefix rand name :
  pick_name m d prefix rand = Some name -> m !! name = None /\ exists r, name = child d (prefix ++ utoa r).
Proof.
  induction rand as [|r rand IH]; simpl; [done|]. destruct (m !! child d (prefix ++ utoa r)) eqn:El; [exact IH|].
  intros [= <-]. split; [done|]. by exists r.
Qed.

Lemma hkeeps_remove p : stable_at p P -> hkeeps (h_remove E p).
Proof.
  intros Hst. apply hspec_sys. intros t h HI HP _. simpl. destruct (h_fs h !! p) as [n|].
  2: { split; [done|]. by split; [apply hgrows_same|]. }
  destruct (is_dir n && _); simpl; (split; [done|]; split; [|done]).
  - by apply hgrows_same.
  - apply hgrows_put; [|done]. by apply Hst.
Qed.

Lemma hkeeps_with_removed {A} Pre name (body : HM A) Q :
  stable_at name P -> hspec Pre body Q ->
  (forall a h, Q a h -> h_fs h !! name = None) ->
  hspec Pre (h_with_removed E name body) (fun a h => exists h0, Q a h0 /\ h_fs h = h_fs h0 /\ h_j h = h_j h0).
Proof.
  intros Hst Hb Hgone h HI HP Hpre. unfold h_with_removed. specialize (Hb h HI HP Hpre).
  destruct (body h) as [r h1] eqn:Eb. destruct Hb as (HI1 & HG1 & HQ1).
  pose proof (hkeeps_remove name Hst h1 HI1 (proj1 HG1) Logic.I) as Hr.
  destruct (h_remove E name h1) as [r2 h2] eqn:Er. destruct Hr as (HI2 & HG2 & _).
  split; [done|]. split; [by eapply hgrows_trans|]. intros a Ha.
  specialize (HQ1 a Ha). exists h1. split; [done|]. unfold h_remove, sys in Er.
  destruct (e_fault E (h_tick h1)); [by injection Er as <- <-|]. simpl in Er.
  rewrite (Hgone _ _ HQ1) in Er. by injection Er as <- <-.
Qed.

Lemma hspec_try_read {A} F (f : nat -> hfs -> result A cmd_err) :
  hspec (on_fs F) (h_try (read_fs E f)) (fun _ => on_fs F).
Proof.
  intros h HI HP Hpre. unfold h_try, read_fs, sys. destruct (e_fault E (h_tick h)); simpl.
  - split; [done|]. by split; [apply hgrows_same|].
  - split; [done|]. by split; [apply hgrows_same|].
Qed.

(** ** The atomic writer *)

Definition not_temp (p : string) : Prop := forall d s, sep ∉ chars s -> p <> child d (".komari-" ++ s).
Definition written (data : string) (mode : Z) (owner : option (Z * Z)) (n : HNode) : Prop :=
  n_kind n = KReg /\ n_data n = data /\ n_mode n = mode /\ (n_uid n, n_gid n) = default (0, 0) owner.

Section Writer.
Context (m0 : hfs) (path data : string) (mode : Z) (owner : option (Z * Z)).
Hypothesis Htemps : stable_temps P.
Hypothesis Hpath : not_temp path.
Hypothesis Hnew : forall n, written data mode owner n -> P m0 -> P (<[path := n]> m0).

Lemma temp_update d s n f (name := child d (".komari-" ++ s)) :
  sep ∉ chars s ->
  hspec (on_fs (eq (<[name := n]> m0))) (update_node E name f) (fun _ => on_fs (eq (<[name := f n]> m0))).
Proof.
  intros Hs. eapply hspec_conseq; [apply (hspec_update (eq (<[name := n]> m0)))|done|].
  - intros m n' <- HP Hl. by apply (Htemps d s).
  - intros _ h (m & n' & <- & Hl & Hh). rewrite lookup_insert_eq in Hl. injection Hl as <-.
    unfold on_fs. by rewrite Hh, insert_insert_eq.
Qed.

Lemma temp_rename d s n (name := child d (".komari-" ++ s)) :
  m0 !! name = None -> written data mode owner n -> P m0 ->
  hspec (on_fs (eq (<[name := n]> m0))) (h_rename E name path) (fun _ => on_fs (eq (<[path := n]> m0))).
Proof.
  intros Hfresh Hn HP0. apply hspec_sys. intros t h HI HP Hpre. unfold on_fs in Hpre. simpl.
  rewrite <- Hpre, lookup_insert_eq.
  assert (Heq : <[path := n]> (delete name (<[name := n]> m0)) = <[path := n]> m0)
    by (f_equal; rewrite delete_insert_eq; by rewrite delete_id).
  assert (Hput : hgrows P h (put_fs (<[path := n]> m0) (ticked h))) by (apply hgrows_put; [by apply Hnew|done]).
  rewrite Heq. destruct (<[name:=n]> m0 !! path) as [x|]; [destruct (is_dir x)|]; simpl;
    (split; [done|]; split; [|try done]); try exact Hput.
  by apply hgrows_same.
Qed.

Lemma hspec_create_temp d s0 :
  P m0 -> (exists s1, s0 = ".komari-" ++ s1 /\ sep ∉ chars s1) ->
  hspec (on_fs (eq m0)) (h_create_temp E d s0)
    (fun name h => exists r n, name = child d (s0 ++ utoa r) /\ m0 !! name = None /\ n_kind n = KReg /\ n_data n = "" /\
       n_uid n = 0 /\ n_gid n = 0 /\ h_fs h = <[name := n]> m0).
Proof.
  intros HP0 (s1 & -> & Hs1). apply hspec_sys. intros t h HI HP Hpre. unfold on_fs in Hpre. simpl. rewrite <- Hpre.
  destruct (pick_name m0 d (".komari-" ++ s1) (e_rand E t)) as [name|] eqn:Hp.
  2: { split; [done|]. split; [by apply hgrows_same|done]. }
  apply pick_name_fresh in Hp as (Hfresh & r & ->). split; [done|]. split.
  - apply hgrows_put; [|done]. exact (proj2 (Htemps d (s1 ++ utoa r) (sep_app s1 r Hs1) m0 HP0) _).
  - intros a [= <-]. exists r, (new_file d 384 (ticked h)). by split_and!.
Qed.

Lemma app_str_assoc (a b c : string) : (a ++ b) ++ c = a ++ (b ++ c).
Proof. induction a as [|x a IH]; [done|]. change (String x ((a ++ b) ++ c) = String x (a ++ (b ++ c))). by rewrite IH. Qed.

Lemma hspec_atomic_write :
  P m0 ->
  hspec (on_fs (eq m0)) (h_atomic_write E path data mode owner)
    (fun _ h => exists n, written data mode owner n /\ h_fs h = <[path := n]> m0).
Proof.
  intros HP0. unfold h_atomic_write.
  eapply hspec_bind; [apply hspec_try_read|]. intros st.
  eapply (hspec_bind _ _ _ (fun _ => on_fs (eq m0))).
  { destruct st as [n|[]]; try apply hspec_err.
    - eapply hspec_conseq; [apply (hspec_require (on_fs (eq m0)))|done|]. by intros _ h [? _].
    - eapply hspec_conseq; [apply (hspec_ret tt (on_fs (eq m0)))|done|]. by intros _ h [_ ?]. }
  intros _. eapply hspec_bind; [apply (hspec_create_temp (dir path) ".komari-"); [done|exists ""; split; [done|set_solver]]|].
  intros name h HI HP (r & n & -> & Hfresh & Hk & Hd & Hu & Hg & Hfs).
  revert h HI HP Hfs. set (nm := child (dir path) (".komari-" ++ utoa r)) in *. pose proof (utoa_no_sep r) as Hr.
  change (hspec (fun h => h_fs h = <[nm := n]> m0)
    (h_with_removed E nm (match owner with Some (u, g) => h_chown E nm u g | None => h_ret tt end ;;;
       h_chmod E nm mode ;;; h_write E nm data ;;; nop E ;;; nop E ;;; h_rename E nm path ;;; nop E)%host)
    (fun _ h => exists n, written data mode owner n /\ h_fs h = <[path := n]> m0)).
  set (n1 := match owner with Some (u, g) => with_owner_of u g n | None => n end).
  set (n3 := with_contents (n_data (with_perm mode n1) ++ data) (with_perm mode n1)).
  assert (Hn3 : written data mode owner n3).
  { unfold n3, n1, written. destruct owner as [[u g]|]; simpl; rewrite Hd; split_and!; try done.
    by rewrite Hu, Hg. }
  eapply hspec_conseq; [apply (hkeeps_with_removed (on_fs (eq (<[nm := n]> m0))) nm _ (fun _ => on_fs (eq (<[path := n3]> m0))))| |].
  - by apply Htemps.
  - eapply (hspec_bind _ _ _ (fun _ => on_fs (eq (<[nm := n1]> m0)))).
    { subst n1. destruct owner as [[u g]|]; [by apply (temp_update (dir path) (utoa r) n (with_owner_of u g))|].
      eapply hspec_conseq; [apply (hspec_ret tt (on_fs (eq (<[nm := n]> m0))))|done|]. by intros _ h [_ ?]. }
    intros []. eapply hspec_bind; [by apply (temp_update (dir path) (utoa r))|]. intros [].
    eapply hspec_bind; [by apply (temp_update (dir path) (utoa r))|]. intros [].
    eapply hspec_bind; [apply hspec_nop|]. intros []. eapply hspec_bind; [apply hspec_nop|]. intros [].
    eapply hspec_bind; [by apply (temp_rename (dir path) (utoa r))|]. intros []. apply hspec_nop.
  - intros _ h Hh. unfold on_fs in Hh. rewrite <- Hh, lookup_insert_ne; [done|]. by apply Hpath.
  - by intros h Hh.
  - intros _ h (h0 & Hh0 & Hfs & _). exists n3. split; [done|]. rewrite Hfs. by symmetry.
Qed.
End Writer.

Lemma hkeeps_at {A} (m : HM A) :
  (forall m0, P m0 -> hspec (on_fs (eq m0)) m (fun _ _ => True)) -> hkeeps m.
Proof. intros Hm h HI HP _. exact (Hm (h_fs h) HP h HI HP eq_refl). Qed.

Lemma hkeeps_atomic_write path data mode owner :
  stable_temps P -> not_temp path ->
  (forall m n, P m -> written data mode owner n -> P (<[path := n]> m)) ->
  hkeeps (h_atomic_write E path data mode owner).
Proof.
  intros Ht Hp Hn. apply hkeeps_at. intros m0 HP0.
  eapply hspec_conseq; [apply hspec_atomic_write; eauto|done|done].
Qed.
End Spec.

(** ** Inversion of successful runs *)

Lemma h_bind_ok {A B} (m : HM A) (k : A -> HM B) h b h' :
  h_bind m k h = (Ok b, h') -> exists a h1, m h = (Ok a, h1) /\ k a h1 = (Ok b, h').
Proof. unfold h_bind. destruct (m h) as [[a|e] h1]; [eauto|done]. Qed.
Lemma require_ok c e h a h' : require c e h = (Ok a, h') -> c = true /\ h' = h.
Proof. unfold require. destruct c; [by intros [= _ <-]|done]. Qed.
Lemma h_lift_ok {A} (o : option A) e h a h' : h_lift o e h = (Ok a, h') -> o = Some a /\ h' = h.
Proof. destruct o; [by intros [= <- <-]|done]. Qed.
Lemma h_ret_ok {A} (a b : A) h h' : h_ret a h = (Ok b, h') -> b = a /\ h' = h.
Proof. by intros [= <- <-]. Qed.
Lemma get_j_ok h j h' : get_j h = (Ok j, h') -> j = h_j h /\ h' = h.
Proof. by intros [= <- <-]. Qed.
Lemma set_j_ok f h a h' :
  set_j f h = (Ok a, h') -> h' = mkHost (h_fs h) (h_ino h) (h_tick h) (f (h_j h)) (h_trace h).
Proof. by intros [= _ <-]. Qed.
Lemma h_try_ok {A} (m : HM A) h r h' : h_try m h = (Ok r, h') -> m h = (r, h').
Proof. unfold h_try. destruct (m h) as [r1 h1]. by intros [= <- <-]. Qed.

Section Inversion.
Context (E : Env).

Lemma sys_ok {A} (f : nat -> Host -> result A cmd_err * Host) h a h' :
  sys E f h = (Ok a, h') -> f (h_tick h) (ticked h) = (Ok a, h').
Proof. unfold sys. by destruct (e_fault E (h_tick h)). Qed.
Lemma read_fs_ok {A} (f : nat -> hfs -> result A cmd_err) h a h' :
  read_fs E f h = (Ok a, h') -> f (h_tick h) (h_fs h) = Ok a /\ h' = ticked h.
Proof. intros H%sys_ok. by injection H. Qed.
Lemma nop_ok h a h' : nop E h = (Ok a, h') -> h' = ticked h.
Proof. intros H%sys_ok. by injection H. Qed.
Lemma update_ok p f h a h' :
  update_node E p f h = (Ok a, h') -> exists n, h_fs h !! p = Some n /\ h' = put_fs (<[p := f n]> (h_fs h)) (ticked h).
Proof. intros H%sys_ok. simpl in H. destruct (h_fs h !! p) as [n|]; [|done]. exists n. by injection H. Qed.
Lemma lstat_ok p h n h' : h_lstat E p h = (Ok n, h') -> h_fs h !! p = Some n /\ h' = ticked h.
Proof. intros [H ->]%read_fs_ok. unfold lookup_node in H. by destruct (h_fs h !! p); [injection H as ->|]. Qed.
Lemma open_nofollow_ok p h n h' :
  h_open_nofollow E p h = (Ok n, h') -> h_fs h !! p = Some n /\ is_link n = false /\ h' = ticked h.
Proof. intros [H ->]%read_fs_ok. destruct (h_fs h !! p) as [x|]; [|done]. destruct (is_link x) eqn:El; [done|]. by injection H as ->. Qed.
Lemma create_temp_ok d pre h name h' :
  h_create_temp E d pre h = (Ok name, h') ->
  (exists r, name = child d (pre ++ utoa r)) /\ h_fs h !! name = None /\
  h' = put_fs (<[name := new_file d 384 h]> (h_fs h)) (fresh_ino (ticked h)).
Proof.
  intros H%sys_ok. simpl in H. destruct (pick_name _ _ _ _) as [nm|] eqn:Hp; [|done].
  injection H as <- <-. apply pick_name_fresh in Hp as [? ?]. by split_and!.
Qed.
Lemma rename_ok p q h a h' :
  h_rename E p q h = (Ok a, h') ->
  exists n, h_fs h !! p = Some n /\ h' = put_fs (<[q := n]> (delete p (h_fs h))) (ticked h).
Proof.
  intros H%sys_ok. simpl in H. destruct (h_fs h !! p) as [n|]; [|done]. exists n. split; [done|].
  destruct (h_fs h !! q) as [d|]; [destruct (is_dir d)|]; by inversion H.
Qed.
Lemma with_removed_ok {A} name (body : HM A) h a h' :
  h_with_removed E name body h = (Ok a, h') ->
  exists h1, body h = (Ok a, h1) /\ (h_fs h1 !! name = None -> h_fs h' = h_fs h1) /\ h_j h' = h_j h1 /\ h_ino h' = h_ino h1.
Proof.
  unfold h_with_removed. destruct (body h) as [r h1]. destruct (h_remove E name h1) as [r2 h2] eqn:Er.
  intros [= -> <-]. exists h1. split; [done|]. unfold h_remove, sys in Er.
  destruct (e_fault E (h_tick h1)); [by injection Er as <- <-|]. simpl in Er.
  destruct (h_fs h1 !! name) as [n|]; [destruct (is_dir n && _)|]; injection Er as <- <-; by split_and!.
Qed.
Lemma trusted_ok p h a h' :
  h_trusted E p h = (Ok a, h') -> TrustedPath (stat_of (h_fs h)) p = true /\ h' = ticked h.
Proof. intros [H ->]%read_fs_ok. by destruct (TrustedPath _ p). Qed.
Lemma try_read_ok {A} (f : nat -> hfs -> result A cmd_err) h r h' :
  h_try (read_fs E f) h = (Ok r, h') -> h' = ticked h.
Proof. intros H%h_try_ok. unfold read_fs, sys in H. destruct (e_fault E (h_tick h)); by injection H. Qed.
End Inversion.

(** One step of the inversion of a successful run. *)
Ltac h_ok1 H :=
  lazymatch type of H with
  | h_bind ?m ?k ?h = (Ok ?b, ?h') =>
      let a := fresh "a" in let h1 := fresh "h1" in let H1 := fresh "H" in
      apply h_bind_ok in H as (a & h1 & H1 & H)
  | require _ _ _ = (Ok _, _) => apply require_ok in H as [H ->]
  | h_lift _ _ _ = (Ok _, _) => apply h_lift_ok in H as [H ->]
  | h_ret _ _ = (Ok _, _) => apply h_ret_ok in H as [-> ->]
  | get_j _ = (Ok _, _) => apply get_j_ok in H as [-> ->]
  | set_j _ _ = (Ok _, _) => apply set_j_ok in H as ->
  | nop _ _ = (Ok _, _) => apply nop_ok in H as ->
  | h_err _ _ = (Ok _, _) => discriminate H
  end.

Section WriterInversion.
Context (E : Env).

Lemma atomic_write_ok path data mode owner h a h' :
  not_temp path ->
  h_atomic_write E path data mode owner h = (Ok a, h') ->
  exists n, written data mode owner n /\ n_ino n = h_ino h /\ h_fs h' = <[path := n]> (h_fs h) /\
    h_ino h' = h_ino h + 1 /\ h_j h' = h_j h.
Proof.
  intros Hnt Hw. unfold h_atomic_write in Hw. h_ok1 Hw. apply try_read_ok in H as ->.
  h_ok1 Hw. assert (h1 = ticked h) as ->.
  { destruct a0 as [n|[]]; try discriminate H; [by apply require_ok in H as [_ ->]|by apply h_ret_ok in H as [_ ->]]. }
  clear H. h_ok1 Hw. apply create_temp_ok in H as ((r & ->) & Hfresh & ->).
  set (nm := child (dir path) (".komari-" ++ utoa r)) in *. set (n0 := new_file (dir path) 384 (ticked h)) in *.
  apply with_removed_ok in Hw as (h2 & Hw & Hfs & Hj & Hino). simpl in Hfresh.
  h_ok1 Hw. set (n1 := match owner with Some (u, g) => with_owner_of u g n0 | None => n0 end).
  assert (exists k tr, h1 = mkHost (<[nm := n1]> (h_fs h)) (h_ino h + 1) k (h_j h) tr) as (k & tr & ->).
  { subst n1. destruct owner as [[u g]|].
    - apply update_ok in H as (n & Hl & ->). cbn [h_fs put_fs ticked fresh_ino] in *. rewrite lookup_insert_eq in Hl. injection Hl as <-.
      eexists _, _. cbn. by rewrite insert_insert_eq.
    - apply h_ret_ok in H as [_ ->]. by eexists _, _. }
  clear H. h_ok1 Hw. apply update_ok in H as (n & Hl & ->). cbn [h_fs] in Hl. rewrite lookup_insert_eq in Hl. injection Hl as <-.
  h_ok1 Hw. apply update_ok in H as (n & Hl & ->). cbn [h_fs put_fs ticked] in Hl. rewrite lookup_insert_eq in Hl. injection Hl as <-.
  h_ok1 Hw. apply nop_ok in H as ->. h_ok1 Hw. apply nop_ok in H as ->.
  h_ok1 Hw. apply rename_ok in H as (n & Hl & ->). cbn [h_fs put_fs ticked] in Hl. rewrite lookup_insert_eq in Hl. injection Hl as <-.
  apply nop_ok in Hw as ->. cbn [h_fs put_fs ticked h_ino h_j] in *.
  set (n3 := with_contents _ _) in *. exists n3.
  assert (Heq : <[path := n3]> (delete nm (<[nm:=n3]> (<[nm:=with_perm mode n1]> (<[nm:=n1]> (h_fs h))))) = <[path := n3]> (h_fs h)).
  { rewrite !insert_insert_eq. f_equal. rewrite delete_insert_eq. by rewrite delete_id. }
  rewrite Heq in Hfs. split_and!; [| |apply Hfs; rewrite lookup_insert_ne; [done|by apply Hnt, utoa_no_sep]|done|done].
  - subst n3 n1. unfold written. destruct owner as [[u g]|]; by split_and!.
  - subst n3 n1. by destruct owner as [[u g]|].
Qed.
End WriterInversion.

(** ** Preservation, rule by rule *)

Section Keeps.
Context (E : Env) (I : hostJournal -> Prop) (P : hfs -> Prop).

Lemma hk_bind {A B} (m : HM A) (k : A -> HM B) :
  hkeeps I P m -> (forall a, hkeeps I P (k a)) -> hkeeps I P (h_bind m k).
Proof. intros Hm Hk. eapply hspec_bind; [exact Hm|]. intros a. by eapply hspec_conseq; [apply Hk|..]. Qed.
Lemma hk_same {A} (f : Host -> result A cmd_err * Host) :
  (forall h, h_fs (snd (f h)) = h_fs h /\ h_trace (snd (f h)) = h_trace h /\ h_j (snd (f h)) = h_j h) -> hkeeps I P f.
Proof.
  intros Hf h HI HP _. specialize (Hf h). destruct (f h) as [r h']. destruct Hf as (Hfs & Ht & Hj). simpl in *.
  split; [by rewrite Hj|]. split; [|done]. apply hgrows_same; [by rewrite Hfs|done].
Qed.
Lemma hk_ret {A} (a : A) : hkeeps I P (h_ret a).
Proof. by apply hk_same. Qed.
Lemma hk_err {A} e : hkeeps I P (@h_err A e).
Proof. by apply hk_same. Qed.
Lemma hk_require c e : hkeeps I P (require c e).
Proof. destruct c; [apply hk_ret|apply hk_err]. Qed.
Lemma hk_lift {A} (o : option A) e : hkeeps I P (h_lift o e).
Proof. destruct o; [apply hk_ret|apply hk_err]. Qed.
Lemma hk_get_j : hkeeps I P get_j.
Proof. by apply hk_same. Qed.
Lemma hk_set_j f : (forall j, I j -> I (f j)) -> hkeeps I P (set_j f).
Proof. intros Hf h HI HP _. simpl. split; [by apply Hf|]. by split; [apply hgrows_same|]. Qed.
Lemma hk_try {A} (m : HM A) : hkeeps I P m -> hkeeps I P (h_try m).
Proof.
  intros Hm h HI HP _. unfold h_try. specialize (Hm h HI HP Logic.I). destruct (m h) as [r h'].
  by destruct Hm as (? & ? & ?).
Qed.
Lemma hk_read {A} (f : nat -> hfs -> result A cmd_err) : hkeeps I P (read_fs E f).
Proof. apply hk_same. intros h. unfold read_fs, sys. by destruct (e_fault E (h_tick h)). Qed.
Lemma hk_nop : hkeeps I P (nop E).
Proof. apply hk_same. intros h. unfold nop, sys. by destruct (e_fault E (h_tick h)). Qed.
Lemma hk_tick {A} (v : Host -> result A cmd_err) : hkeeps I P (fun h => (v h, ticked h)).
Proof. by apply hk_same. Qed.
Lemma hk_fold {A B} (f : B -> A -> HM B) l b :
  (forall b a, a ∈ l -> hkeeps I P (f b a)) -> hkeeps I P (h_fold f l b).
Proof.
  revert b. induction l as [|a l IH]; intros b Hf; cbn [h_fold]; [apply hk_ret|].
  apply hk_bind; [apply Hf; by left|]. intros b'. apply IH. intros b1 a1 Ha. apply Hf. by right.
Qed.
Lemma hk_iter {A} (f : A -> HM unit) l : (forall a, a ∈ l -> hkeeps I P (f a)) -> hkeeps I P (h_iter f l).
Proof. intros Hf. apply hk_fold. intros [] a Ha. by apply Hf. Qed.

(** Services may do what they like to the files [P] does not depend on. *)
Definition services_keep : Prop := forall t m, P m -> P (e_daemon E t m).
Lemma hk_systemctl args : services_keep -> hkeeps I P (systemctl E args).
Proof.
  intros Hd. unfold systemctl. apply hk_bind; [apply hk_read|]. intros _ h HI HP _.
  pose proof (Hd (h_tick h) (h_fs h) HP) as HP'.
  destruct (e_systemctl E (h_tick h) args); (split; [done|]; split; [by apply hgrows_put|done]).
Qed.
Lemma hk_create_excl p mode : stable_at p P -> hkeeps I P (h_create_excl E p mode).
Proof.
  intros Hst. apply hspec_sys. intros t h HI HP _. simpl. destruct (h_fs h !! p).
  - split; [done|]. by split; [apply hgrows_same|].
  - split; [done|]. split; [|done]. apply hgrows_put; [|done]. by apply Hst.
Qed.
(** Creating a directory where there is nothing. *)
Definition stable_new : Prop := forall m p n, P m -> m !! p = None -> P (<[p := n]> m).
Lemma hk_mkdir p mode : stable_new -> hkeeps I P (h_mkdir E p mode).
Proof.
  intros Hst. apply hspec_sys. intros t h HI HP _. simpl. destruct (h_fs h !! p) eqn:El.
  - split; [done|]. by split; [apply hgrows_same|].
  - split; [done|]. split; [|done]. apply hgrows_put; [|done]. by apply Hst.
Qed.
Lemma hk_trusted p : hkeeps I P (h_trusted E p).
Proof. apply hk_read. Qed.
Lemma hk_ensure_dir fuel p : stable_new -> hkeeps I P (ensure_dir E fuel p).
Proof.
  intros Hst. revert p. induction fuel as [|fuel IH]; intros p; cbn [ensure_dir]; [apply hk_err|].
  apply hk_bind; [apply hk_try, hk_read|]. intros st. apply hk_bind; [|intros _; apply hk_trusted].
  destruct st as [n|[]]; try apply hk_err; [apply hk_ret|]. apply hk_bind; [apply IH|]. intros _. by apply hk_mkdir.
Qed.
Lemma hk_ensureTrustedDir p : stable_new -> hkeeps I P (ensureTrustedDir E p).
Proof. intros Hst. apply hk_bind; [apply hk_require|]. intros _. by apply hk_ensure_dir. Qed.
Lemma hk_atomic_write_off path data mode owner :
  stable_temps P -> not_temp path -> stable_at path P -> hkeeps I P (h_atomic_write E path data mode owner).
Proof. intros Ht Hn Hs. apply hkeeps_atomic_write; [done|done|]. intros m n HP _. by apply Hs. Qed.
Lemma hk_write_json {A} `{JA : Json A} path (a : A) mode :
  stable_temps P -> not_temp path -> stable_at path P -> hkeeps I P (WriteJSON E path a mode).
Proof. intros Ht Hn Hs. apply hk_bind; [apply hk_lift|]. intros d. by apply hk_atomic_write_off. Qed.
Lemma hk_read_json {A} `{SA : StrictJson A} path : hkeeps I P (@h_read_json E A SA path).
Proof.
  apply hk_bind; [apply hk_trusted|]. intros _. apply hk_bind; [apply hk_read|]. intros n.
  apply hk_bind; [apply hk_require|]. intros _. destruct (decode_strict _) as [[a rest]|]; [|apply hk_err].
  destruct (at_eof rest); [apply hk_ret|apply hk_err].
Qed.
Lemma hk_if {A} (c : bool) (m k : HM A) : hkeeps I P m -> hkeeps I P k -> hkeeps I P (if c then m else k).
Proof. by destruct c. Qed.
End Keeps.

Create HintDb host.
#[export] Hint Resolve hk_bind hk_ret hk_err hk_require hk_lift hk_get_j hk_try hk_read hk_nop hk_tick hk_trusted
  hk_read_json hk_if hkeeps_update hkeeps_remove hk_systemctl hk_ensureTrustedDir hk_atomic_write_off hk_write_json : host.
