(* ===== verification/HostService.v ===== *)
(** * Services under the host tool's eye
    ([internal/hostcmd/systemd.go], [profile_linux.go], [core/hostops/helper_linux.go])

    Every claim about a running service is observed: its unit from systemd, its
    identity and capabilities from [/proc], the rescue helper's readiness from a
    heartbeat that names the process it came from. *)

From S2P Require Import Prelude.
From S2P Require Import GoStd.
From S2P Require Import GoPath.
From S2P Require Import External.
From S2P Require Import HostOps.
From S2P Require Import Systemd.
From S2P Require Import HostFs.

Local Open Scope string_scope.
Local Open Scope Z_scope.
Local Open Scope host_scope.

Record HelperStatus := mkHelperStatus {
  hs_PID : Z; hs_StartTicks : Z; hs_Executable : string; hs_Authorized : bool; hs_LeaseReady : bool; hs_ObservedAt : time }.

(** [strconv.ParseUint(s, 10, 64)]. *)
Definition parse_uint64 (s : string) : option Z :=
  match parse_udec (chars s) with
  | Some n => if n <=? max_uint64 then Some n else None
  | None => None
  end.
(** [s[strings.LastIndex(s, sub)+len(sub):]]. *)
Fixpoint after_last (sub s : string) : option string :=
  match s with
  | EmptyString => None
  | String _ r =>
      match after_last sub r with
      | Some t => Some t
      | None => if has_prefix s sub then Some (trim_prefix s sub) else None
      end
  end.
(** The twentieth field after the command name in [/proc/PID/stat]. *)
Definition start_ticks (stat : string) : option Z :=
  match after_last ") " stat with
  | None => None
  | Some rest => nth_error (fields rest) 19 ≫= parse_uint64
  end.
(** Every [Uid:] line has four zero fields; the last one decides. *)
Definition root_process (status : string) : bool :=
  fold_left (fun root line =>
    if has_prefix line "Uid:" then
      let f := fields (trim_prefix line "Uid:") in Nat.eqb (length f) 4 && forallb (fun v => (v =? "0")%string) f
    else root) (split_on (byte_of 10) status) false.

Section Services.
Context (E : Env).

Definition observe (service : string) : HM serviceObservation :=
  require (ValidService service) EServiceName ;;;
  let! out := systemctl E ["show"; service; "--property=User,WorkingDirectory,FragmentPath,DropInPaths,MainPID,ExecStart"] in
  h_lift (observed out) ENotFoundUnit.

Definition restartReviewedService (service : string) : HM unit :=
  let! r := h_try (systemctl E ["reset-failed"; service]) in
  match r with
  | Ok _ => h_ret tt
  | Err e =>
      let! state := h_try (systemctl E ["show"; service; "--property=LoadState"; "--value"]) in
      match state with
      | Ok s => require (trim_space s =? "loaded")%string e
      | Err _ => h_err e
      end
  end ;;;
  let! _ := systemctl E ["restart"; service] in h_ret tt.

Definition read_proc (path : string) : HM (option string) := fun h => (Ok (e_proc E (h_tick h) path), ticked h).

(** One attempt of [verifyService]. *)
Definition attempt (service : string) : HM sample :=
  let! o := h_try (observe service) in
  match o with
  | Err _ => h_ret None
  | Ok o =>
      if negb (usable (so_MainPID o)) then h_ret (Some (so_MainPID o, "")) else
      let! b := read_proc ("/proc/" ++ so_MainPID o ++ "/status") in
      h_ret (match b with Some status => Some (so_MainPID o, status) | None => None end)
  end.
Fixpoint verify_attempts (k : nat) (service : string) (wantUID mode : Z) (st : string * Z) : HM unit :=
  match k with
  | O => h_err EUnverified
  | S k =>
      let! s := attempt service in
      let st' := verify_step wantUID mode st s in
      if 3 <=? snd st' then h_ret tt else verify_attempts k service wantUID mode st'
  end.
Definition verifyService (service : string) (wantUID mode : Z) : HM unit :=
  verify_attempts attempts service wantUID mode ("", 0).

Definition upgradeServiceActive (service : string) (helper : bool) : HM bool :=
  let! value := systemctl E ["show"; service; "--property=ActiveState"; "--value"] in
  let s := trim_space value in
  if (s =? "active")%string then h_ret true
  else if (s =? "inactive")%string || (s =? "failed")%string then h_ret false
  else if (s =? "activating")%string && helper then
    let! sub := systemctl E ["show"; service; "--property=SubState"; "--value"] in
    if (trim_space sub =? "auto-restart")%string then h_ret true else h_err ETransitioning
  else h_err ETransitioning.

Definition read_exe (path : string) : HM (result string bool) := fun h => (Ok (e_exe E (h_tick h) path), ticked h).
Fixpoint healthy (k : nat) (service executable pid : string) : HM unit :=
  match k with
  | O => h_ret tt
  | S k =>
      let! o := h_try (observe service) in
      match o with
      | Err _ => h_err EUnhealthy
      | Ok o =>
          let! exe := read_exe ("/proc/" ++ so_MainPID o ++ "/exe") in
          require (usable pid && (so_MainPID o =? pid)%string &&
                   match exe with Ok x => (x =? executable)%string | Err _ => false end) EUnhealthy ;;;
          healthy k service executable pid
      end
  end.
Definition verifyUpgradeService (service executable : string) : HM unit :=
  let! o := observe service in healthy 5 service executable (so_MainPID o).

Definition helperUnit (m : Manifest) : string := mf_ServiceName m ++ "-rescue.service".
Definition helperBinary (m : Manifest) : string := join_path [dir (mf_HostTool m); "komari-agent-rescue"].
Definition helperConfig (m : Manifest) : string := join_path [dir (mf_HostTool m); "rescue.json"].
Definition helperUnitPath (m : Manifest) : string := join_path ["/etc/systemd/system"; helperUnit m].

Context `{StrictJson HelperStatus}.
(** [os.Geteuid()]: the daemon reads the heartbeat too. *)
Variable euid : Z.

(** Every start of the root helper; an existing directory is never repaired. *)
Definition PrepareHelperStatus (m : Manifest) : HM unit :=
  require ((euid =? 0) && (mf_InitSystem m =? "systemd")%string && ValidService (mf_ServiceName m)) EManifest ;;;
  let d := dir (HelperStatusPath m) in
  h_trusted E (dir d) ;;;
  let! made := h_try (h_mkdir E d 493) in
  match made with Ok _ | Err EExist => h_ret tt | Err e => h_err e end ;;;
  h_trusted E d ;;;
  let! info := h_lstat E d in
  require (is_dir info) EUntrusted ;;;
  h_chmod E d 493.

Definition ReadHelperStatus (m : Manifest) : HM HelperStatus :=
  let! s := h_read_json E (HelperStatusPath m) in
  let! t0 := now E in
  let! t1 := now E in
  require (negb ((hs_PID s <=? 1) || (10 * second <? t0 - hs_ObservedAt s) || after (hs_ObservedAt s) (t_add t1 second))) EHelperStale ;;;
  let prefix := "/proc/" ++ itoa (hs_PID s) in
  let! b := read_proc (prefix ++ "/status") in
  let! b := h_lift b EHelperProcess in
  require (root_process b) EHelperProcess ;;;
  let expected := helperBinary m in
  let! exe := read_exe (prefix ++ "/exe") in
  let! exe := match exe with
              | Ok x => h_ret x
              | Err permission => require (permission && negb (euid =? 0)) EHelperProcess ;;; h_ret (hs_Executable s)
              end in
  require ((exe =? expected)%string && (hs_Executable s =? expected)%string) EHelperProcess ;;;
  let! stat := read_proc (prefix ++ "/stat") in
  let! ticks := h_lift (stat ≫= start_ticks) EHelperProcess in
  require (negb (ticks =? 0) && (ticks =? hs_StartTicks s)) EHelperProcess ;;;
  let! cgroup := read_proc (prefix ++ "/cgroup") in
  let! cgroup := h_lift cgroup EHelperProcess in
  require (contains cgroup ("/" ++ mf_ServiceName m ++ "-rescue.service")) EHelperProcess ;;;
  h_trusted E exe ;;;
  h_ret s.

Fixpoint wait_helper (k : nat) (m : Manifest) : HM unit :=
  match k with
  | O => h_err EHelperNotReady
  | S k =>
      let! r := h_try (ReadHelperStatus m) in
      match r with
      | Ok s => if hs_Authorized s && hs_LeaseReady s then h_ret tt else wait_helper k m
      | Err _ => wait_helper k m
      end
  end.
Definition waitHelper (m : Manifest) : HM unit := wait_helper 60 m.
End Services.

(** ** Theorems *)

Section ServiceTheorems.
Context (E : Env).

Lemma verify_attempts_samples k service wantUID mode st h a h' :
  verify_attempts E k service wantUID mode st h = (Ok a, h') ->
  exists samples, (length samples <= k)%nat /\ verify_loop wantUID mode st samples = true.
Proof.
  revert st h. induction k as [|k IH]; intros st h Hr; [done|]. cbn [verify_attempts] in Hr. h_ok1 Hr.
  destruct (3 <=? snd (verify_step wantUID mode st a0)) eqn:E3.
  - exists [a0]. split; [simpl; lia|]. simpl. by rewrite E3.
  - apply IH in Hr as (l & Hl & Hv). exists (a0 :: l). split; [simpl; lia|]. simpl. by rewrite E3.
Qed.

(** A heartbeat is believed only when the process it names is there now:
    observed less than ten seconds ago, running as root, started at the tick the
    heartbeat gives, in the rescue unit of this service, from this
    installation's helper binary, which only root can have written. *)
Theorem ReadHelperStatus_bound `{SJ : StrictJson HelperStatus} euid m h s h' :
  ReadHelperStatus E euid m h = (Ok s, h') ->
  1 < hs_PID s /\ hs_Executable s = helperBinary m /\
  (exists t0 t1, e_now E t0 - hs_ObservedAt s <= 10 * second /\ hs_ObservedAt s <= e_now E t1 + second) /\
  (exists t b, e_proc E t ("/proc/" ++ itoa (hs_PID s) ++ "/status") = Some b /\ root_process b = true) /\
  (exists t b, e_proc E t ("/proc/" ++ itoa (hs_PID s) ++ "/stat") = Some b /\ start_ticks b = Some (hs_StartTicks s)) /\
  (exists t b, e_proc E t ("/proc/" ++ itoa (hs_PID s) ++ "/cgroup") = Some b /\
     contains b ("/" ++ mf_ServiceName m ++ "-rescue.service") = true) /\
  (exists t, e_exe E t ("/proc/" ++ itoa (hs_PID s) ++ "/exe") = Ok (helperBinary m) \/
     e_exe E t ("/proc/" ++ itoa (hs_PID s) ++ "/exe") = Err true /\ euid <> 0) /\
  exists fs, TrustedPath (stat_of fs) (helperBinary m) = true.
Proof.
  intros Hr. unfold ReadHelperStatus in Hr. h_ok1 Hr. clear H.
  h_ok1 Hr. injection H as <- <-. h_ok1 Hr. injection H as <- <-. cbn [h_tick ticked] in Hr.
  h_ok1 Hr. apply require_ok in H as [Hfresh ->]. h_ok1 Hr. injection H as <- <-. h_ok1 Hr. apply h_lift_ok in H as [Hst ->].
  h_ok1 Hr. apply require_ok in H as [Hroot ->]. h_ok1 Hr. injection H as <- <-. h_ok1 Hr. rename H into Hexe.
  h_ok1 Hr. apply require_ok in H as [Hx ->]. h_ok1 Hr. injection H as <- <-. h_ok1 Hr. apply h_lift_ok in H as [Hstat ->].
  h_ok1 Hr. apply require_ok in H as [Ht ->]. h_ok1 Hr. injection H as <- <-. h_ok1 Hr. apply h_lift_ok in H as [Hcg ->].
  h_ok1 Hr. apply require_ok in H as [Hc ->]. h_ok1 Hr. apply trusted_ok in H as [Htr ->]. apply h_ret_ok in Hr as [-> _].
  bool_hyps. rewrite !app_str_assoc in *. apply bind_Some in Hstat as (b & Hb & Hsb). unfold after, t_add in *. bool_hyps.
  split_and!; try done.
  - eexists _, _. split; eassumption.
  - eexists _, _. split; [exact Hst|done].
  - eexists _, _. split; [exact Hb|done].
  - eexists _, _. split; [exact Hcg|done].
  - match type of Hexe with context [e_exe E ?t ?p] => exists t; destruct (e_exe E t p) as [x|perm] eqn:Ee end.
    + apply h_ret_ok in Hexe as [<- ->]. by left.
    + h_ok1 Hexe. apply require_ok in H0 as [Hp ->]. bool_hyps. by right.
  - eexists. eassumption.
Qed.
End ServiceTheorems.

Section Liveness.
Context (E : Env).
Variables (service pid status out : string).

(** An environment in which the service has settled: nothing fails, systemd
    answers with one process, its status can be read. *)
Record settled (wantUID mode : Z) : Prop := {
  se_fault : forall t, e_fault E t = false;
  se_show : forall t, e_systemctl E t ["show"; service; "--property=User,WorkingDirectory,FragmentPath,DropInPaths,MainPID,ExecStart"] = Some out;
  se_out : exists o, observed out = Some o /\ so_MainPID o = pid;
  se_proc : forall t, e_proc E t ("/proc/" ++ pid ++ "/status") = Some status;
  se_usable : usable pid = true;
  se_valid : valid_process wantUID mode status = true;
  se_trusted : forall t fs, TrustedPath (stat_of fs) "/usr/bin/systemctl" = true ->
    TrustedPath (stat_of (e_daemon E t fs)) "/usr/bin/systemctl" = true;
}.
Context (wantUID mode : Z).
Hypothesis Hset : settled wantUID mode.
Hypothesis Hname : ValidService service = true.

Lemma attempt_settled h :
  TrustedPath (stat_of (h_fs h)) "/usr/bin/systemctl" = true ->
  exists h', attempt E service h = (Ok (Some (pid, status)), h') /\ TrustedPath (stat_of (h_fs h')) "/usr/bin/systemctl" = true.
Proof.
  intros Ht. destruct (se_out _ _ Hset) as (o & Ho & Hp).
  unfold attempt, observe, systemctl, h_trusted, read_fs, sys, require, h_bind at 1, h_try. rewrite Hname.
  unfold h_bind, h_ret. rewrite (se_fault _ _ Hset). cbn [h_fs ticked]. rewrite Ht. cbn [h_tick ticked].
  rewrite (se_show _ _ Hset). unfold h_lift. rewrite Ho. unfold h_ret. rewrite Hp, (se_usable _ _ Hset). cbn [negb].
  unfold read_proc. rewrite (se_proc _ _ Hset). eexists. split; [reflexivity|]. cbn [h_fs ticked put_fs]. by apply (se_trusted _ _ Hset).
Qed.
Lemma attempts_settled k st h :
  0 <= snd st -> TrustedPath (stat_of (h_fs h)) "/usr/bin/systemctl" = true ->
  (if (fst st =? pid)%string then 3 - snd st <= Z.of_nat k /\ snd st < 3 else 3 <= Z.of_nat k) ->
  exists h', verify_attempts E k service wantUID mode st h = (Ok tt, h').
Proof.
  revert st h. induction k as [|k IH]; intros [prev n] h Hn Ht Hk; cbn [fst snd] in *.
  { destruct (prev =? pid)%string; lia. }
  cbn [verify_attempts]. unfold h_bind at 1. destruct (attempt_settled h Ht) as (h1 & -> & Ht1).
  unfold verify_step. rewrite (se_usable _ _ Hset), (se_valid _ _ Hset). cbn [negb]. rewrite String.eqb_sym.
  destruct (prev =? pid)%string eqn:Ep; cbn [snd].
  - destruct (3 <=? n + 1) eqn:E3; [by eexists|]. apply IH; cbn [fst snd]; [lia|done|]. rewrite Ep. lia.
  - apply IH; cbn [fst snd]; [lia|done|]. rewrite String.eqb_refl. lia.
Qed.

(** A service that has settled into the wanted profile is recognised: when
    nothing fails and systemd keeps naming one process whose status fits,
    [verifyService] succeeds. *)
Theorem verifyService_settles h :
  TrustedPath (stat_of (h_fs h)) "/usr/bin/systemctl" = true ->
  exists h', verifyService E service wantUID mode h = (Ok tt, h').
Proof.
  intros Ht. unfold verifyService. apply attempts_settled; [done|done|]. cbn [fst snd].
  pose proof (se_usable _ _ Hset) as Hu. unfold usable in Hu. apply andb_true_iff in Hu as [_ Hu].
  destruct (String.eqb_spec "" pid) as [<-|_]; [done|]. unfold attempts. lia.
Qed.
End Liveness.
