(* ===== verification/HostPolicy.v ===== *)
(** * What an approved host task may ask of this host
    ([internal/hostcmd/legacy_policy_linux.go], [transaction_linux.go])

    Before anything is stopped, the requested settings are compared with the
    administrator's ceilings and the requested actions with the difference
    between the host and the target. After the lease is checked again, the
    policy is rewritten to the target. *)

From S2P Require Import Prelude.
From S2P Require Import GoStd.
From S2P Require Import External.
From S2P Require Import Credentials.
From S2P Require Import Privileged.
From S2P Require Import HostOps.
From S2P Require Import RuntimeConfig.
From S2P Require Import Effective.
From S2P Require Import Systemd.
From S2P Require Import HostFs.

Local Open Scope string_scope.
Local Open Scope Z_scope.

Definition with_force_deny_remote (b : bool) (p : Policy) : Policy :=
  mkPolicy (po_Version p) (po_ServiceID p) (po_PrivilegeMode p) (po_AllowRemoteControl p) (po_AllowWebSSH p)
    (po_AllowExecution p) (po_AllowGPU p) b (po_BaselineRemoteControl p) (po_BaselineWebSSH p)
    (po_BaselineExecution p) (po_BaselineGPU p) (po_AllowRescueHelper p) (po_ForceDenyRescueHelper p)
    (po_HelperAuthorized p) (po_HelperInstalled p) (po_DisableSource p) (po_HostRevision p) (po_HostSettings p).
Definition with_disable_source (s : string) (p : Policy) : Policy :=
  mkPolicy (po_Version p) (po_ServiceID p) (po_PrivilegeMode p) (po_AllowRemoteControl p) (po_AllowWebSSH p)
    (po_AllowExecution p) (po_AllowGPU p) (po_ForceDenyRemoteControl p) (po_BaselineRemoteControl p) (po_BaselineWebSSH p)
    (po_BaselineExecution p) (po_BaselineGPU p) (po_AllowRescueHelper p) (po_ForceDenyRescueHelper p)
    (po_HelperAuthorized p) (po_HelperInstalled p) s (po_HostRevision p) (po_HostSettings p).
Definition with_rescue_ceilings (allow deny : bool) (p : Policy) : Policy :=
  mkPolicy (po_Version p) (po_ServiceID p) (po_PrivilegeMode p) (po_AllowRemoteControl p) (po_AllowWebSSH p)
    (po_AllowExecution p) (po_AllowGPU p) (po_ForceDenyRemoteControl p) (po_BaselineRemoteControl p) (po_BaselineWebSSH p)
    (po_BaselineExecution p) (po_BaselineGPU p) allow deny
    (po_HelperAuthorized p) (po_HelperInstalled p) (po_DisableSource p) (po_HostRevision p) (po_HostSettings p).

(** ** Legacy restrictions *)

Definition legacyRemoteControlReview (p : Policy) (r : PrivilegedRevision) : Policy * bool :=
  let review := po_ForceDenyRemoteControl p && po_AllowRemoteControl p &&
    (po_DisableSource p =? "legacy-unknown-preserve")%string &&
    RemoteControlEnabled (settingsFromProto (pr_privileged r)) in
  (if review then with_force_deny_remote false p else p, review).

(** The first line of at most 512 bytes of what the administrator typed. *)
Fixpoint read_line (limit : nat) (l : list ascii) : option (list ascii) :=
  match limit, l with
  | S k, c :: r => if Nat.eqb (code c) 10 then Some [] else cons c <$> read_line k r
  | _, _ => None
  end.
Definition readLegacyRemoteControlConsent (typed service : string) (revision : Z) : bool :=
  match read_line 512 (chars typed) with
  | None => false
  | Some line => (trim_space (of_chars line) =? "authorize " ++ service ++ " " ++ utoa revision)%string
  end.

(** ** Ceilings *)

Definition when (b : bool) (s : string) : list string := if b then [s] else [].
Definition localCeilingViolations (p : Policy) (s : Settings) (installingHelper : bool) : list string :=
  ((if RemoteControlEnabled s then
      when (po_ForceDenyRemoteControl p)
        ("remote_control_enabled blocked by force_deny_remote_control=true (source=" ++ po_DisableSource p ++ ")") ++
      when (negb (po_AllowRemoteControl p)) "remote_control_enabled blocked by allow_remote_control=false"
    else []) ++
   when (WebSSHEnabled s && negb (po_AllowWebSSH p)) "webssh_enabled blocked by allow_webssh=false" ++
   when (ExecutionEnabled s && negb (po_AllowExecution p)) "execution_enabled blocked by allow_execution=false" ++
   when (EnableGPU s && negb (po_AllowGPU p)) "enable_gpu blocked by allow_gpu=false" ++
   (if RescueHelperEnabled s then
      when (po_ForceDenyRescueHelper p) "rescue_helper_enabled blocked by force_deny_rescue_helper=true" ++
      when (negb (po_AllowRescueHelper p) && negb installingHelper)
        "rescue_helper_enabled blocked by allow_rescue_helper=false without a signed install action"
    else []))%list.

(** ** Actions *)

Definition ACTION_IDENTITY : Z := 1.
Definition ACTION_INSTALL_RESCUE_HELPER : Z := 2.
Definition ACTION_REMOVE_RESCUE_HELPER : Z := 3.
Definition requested (action : Z) (a : HostAuthorization) : bool := existsb (Z.eqb action) (ha_actions a).
(** The profile a systemd user stands for: 1 root, 2 not root. *)
Definition mode_of_user (user : string) : Z := if (user =? "")%string || (user =? "root")%string then 1 else 2.

Definition validateActions (p : Policy) (t : Trust) (r : PrivilegedRevision) (a : HostAuthorization) (o : serviceObservation)
    : result unit cmd_err :=
  let target := ha_target_mode a in
  guard? (target =? 1) || (target =? 2) else EProfileUnsupported in
  let current := mode_of_user (so_User o) in
  guard? current =? po_PrivilegeMode p else EUserDiffers in
  guard? Bool.eqb (requested ACTION_IDENTITY a) (negb (current =? target)) else EIdentityAction in
  let settings := settingsFromProto (pr_privileged r) in
  guard? Nat.eqb (length (localCeilingViolations p settings (requested ACTION_INSTALL_RESCUE_HELPER a))) 0 else ECeilings in
  guard? negb (requested ACTION_INSTALL_RESCUE_HELPER a && Nat.eqb (length (tr_ReleaseKeys t)) 0) else EReleaseKey in
  guard? Bool.eqb (requested ACTION_INSTALL_RESCUE_HELPER a) (RescueHelperEnabled settings && negb (po_HelperInstalled p)) &&
         Bool.eqb (requested ACTION_REMOVE_RESCUE_HELPER a) (negb (RescueHelperEnabled settings) && po_HelperInstalled p)
    else EHelperActions in
  guard? negb (Nat.eqb (length (ha_actions a)) 0) else ENoActions in
  guard? negb (tr_ServiceUser t =? "root")%string else ERootAccount in
  Ok tt.

(** ** The policy the transaction writes *)

Definition target_policy (p : Policy) (r : PrivilegedRevision) (a : HostAuthorization) : Policy :=
  let s := settingsFromProto (pr_privileged r) in
  mkPolicy (po_Version p) (po_ServiceID p) (RequiredPrivilegeMode s) (po_AllowRemoteControl p) (po_AllowWebSSH p)
    (po_AllowExecution p) (po_AllowGPU p) (po_ForceDenyRemoteControl p) (po_BaselineRemoteControl p) (po_BaselineWebSSH p)
    (po_BaselineExecution p) (po_BaselineGPU p) (requested ACTION_INSTALL_RESCUE_HELPER a || po_AllowRescueHelper p)
    (po_ForceDenyRescueHelper p) (RescueHelperEnabled s) (RescueHelperEnabled s) (po_DisableSource p) (pr_revision r) (Some s).
(** With the administrator's consent the historical restriction is lifted first;
    [None]: it changed since the consent. *)
Definition consented_policy (consent : bool) (p : Policy) (r : PrivilegedRevision) : option Policy :=
  if consent then
    let '(preview, permitted) := legacyRemoteControlReview p r in
    if permitted then Some (with_disable_source "legacy-remote-control-reauthorized" preview) else None
  else Some p.

(** ** Theorems *)

Lemma when_nil b s : when b s = [] <-> b = false.
Proof. destruct b; simpl; by split. Qed.
Lemma length_eqb_0 {A} (l : list A) : Nat.eqb (length l) 0 = true <-> l = [].
Proof. by destruct l. Qed.

(** C39: the ceilings a host task is checked against are the ones the restarted
    daemon applies: there is no violation exactly when the daemon's policy check
    allows the approved settings under the policy the transaction writes. *)
Theorem ceilings_agree p r a :
  let s := settingsFromProto (pr_privileged r) in
  localCeilingViolations p s (requested ACTION_INSTALL_RESCUE_HELPER a) = [] <->
  PolicyAllows s (Some (target_policy p r a)) = true.
Proof.
  intros s. unfold localCeilingViolations, PolicyAllows, target_policy. fold s. cbn [po_PrivilegeMode po_AllowRemoteControl
    po_ForceDenyRemoteControl po_AllowWebSSH po_AllowExecution po_AllowGPU po_AllowRescueHelper po_ForceDenyRescueHelper
    po_HelperInstalled po_HelperAuthorized].
  rewrite !app_nil, !when_nil, Z.eqb_refl, !andb_true_iff.
  assert (Hgate : forall want have, want && negb have = false <-> negb want || have = true) by (by intros [] []).
  rewrite !Hgate.
  assert (Hremote : (if RemoteControlEnabled s then
      when (po_ForceDenyRemoteControl p)
        ("remote_control_enabled blocked by force_deny_remote_control=true (source=" ++ po_DisableSource p ++ ")") ++
      when (negb (po_AllowRemoteControl p)) "remote_control_enabled blocked by allow_remote_control=false"
    else [])%list = [] <->
    negb (RemoteControlEnabled s) || po_AllowRemoteControl p && negb (po_ForceDenyRemoteControl p) = true).
  { destruct (RemoteControlEnabled s); [|by split]. rewrite app_nil, !when_nil.
    destruct (po_ForceDenyRemoteControl p), (po_AllowRemoteControl p); simpl; naive_solver. }
  rewrite Hremote.
  assert (Hrescue : (if RescueHelperEnabled s then
      when (po_ForceDenyRescueHelper p) "rescue_helper_enabled blocked by force_deny_rescue_helper=true" ++
      when (negb (po_AllowRescueHelper p) && negb (requested ACTION_INSTALL_RESCUE_HELPER a))
        "rescue_helper_enabled blocked by allow_rescue_helper=false without a signed install action"
    else [])%list = [] <->
    negb (RescueHelperEnabled s) || (requested ACTION_INSTALL_RESCUE_HELPER a || po_AllowRescueHelper p) &&
      negb (po_ForceDenyRescueHelper p) && RescueHelperEnabled s && RescueHelperEnabled s = true).
  { destruct (RescueHelperEnabled s); [|by split]. rewrite app_nil, !when_nil.
    destruct (po_ForceDenyRescueHelper p), (po_AllowRescueHelper p), (requested _ _); simpl; naive_solver. }
  rewrite Hrescue. tauto.
Qed.

Lemma review_restores p r preview :
  legacyRemoteControlReview p r = (preview, true) ->
  po_DisableSource p = "legacy-unknown-preserve" /\ po_AllowRemoteControl p = true /\
  preview = with_force_deny_remote false p /\ RemoteControlEnabled (settingsFromProto (pr_privileged r)) = true.
Proof.
  unfold legacyRemoteControlReview. destruct (_ && _ && _ && _) eqn:E; [|done]. intros [= <-]. bool_hyps. by split_and!.
Qed.

(** What [validateActions] establishes. *)
Lemma validateActions_ok p t r a o :
  validateActions p t r a o = Ok tt ->
  let s := settingsFromProto (pr_privileged r) in
  mode_of_user (so_User o) = po_PrivilegeMode p /\
  requested ACTION_IDENTITY a = negb (mode_of_user (so_User o) =? ha_target_mode a) /\
  localCeilingViolations p s (requested ACTION_INSTALL_RESCUE_HELPER a) = [] /\
  (requested ACTION_INSTALL_RESCUE_HELPER a = true -> tr_ReleaseKeys t <> []) /\
  requested ACTION_INSTALL_RESCUE_HELPER a = RescueHelperEnabled s && negb (po_HelperInstalled p) /\
  requested ACTION_REMOVE_RESCUE_HELPER a = negb (RescueHelperEnabled s) && po_HelperInstalled p.
Proof.
  unfold validateActions. set (s := settingsFromProto _). intros Hval. ok_inv Hval.
  rewrite length_eqb_0 in *. bool_hyps. rewrite !Bool.eqb_true_iff in *. split_and!; try done.
  intros Hr Hk. destruct E3 as [E3|E3]; [congruence|]. by rewrite Hk in E3.
Qed.

(** A task whose actions were validated, consent to lift a historical
    restriction included, is one the restarted daemon will be allowed to run:
    the policy written allows the approved settings, in the identity the task
    asks for, with the rescue helper installed exactly when they ask for it. *)
Theorem validated_task_is_allowed p t r a o preview review p' :
  legacyRemoteControlReview p r = (preview, review) ->
  validateActions preview t r a o = Ok tt ->
  consented_policy review p r = Some p' ->
  let s := settingsFromProto (pr_privileged r) in
  let final := target_policy p' r a in
  PolicyAllows s (Some final) = true /\ po_HelperInstalled final = RescueHelperEnabled s /\
  po_PrivilegeMode final = RequiredPrivilegeMode s /\
  (mode_of_user (so_User o) <> ha_target_mode a <-> requested ACTION_IDENTITY a = true) /\
  (requested ACTION_INSTALL_RESCUE_HELPER a = true -> po_HelperInstalled p = false /\ tr_ReleaseKeys t <> []).
Proof.
  intros Hrev Hval Hcons s final.
  assert (Hsame : p' = (if review then with_disable_source "legacy-remote-control-reauthorized" preview else preview)).
  { unfold consented_policy in Hcons. destruct review; [rewrite Hrev in Hcons; by injection Hcons|].
    injection Hcons as <-. unfold legacyRemoteControlReview in Hrev. destruct (_ && _ && _ && _); [done|]. by injection Hrev. }
  assert (Hinst : po_HelperInstalled preview = po_HelperInstalled p).
  { unfold legacyRemoteControlReview in Hrev. injection Hrev as <- _. by destruct (_ && _ && _ && _). }
  apply validateActions_ok in Hval as (Hmode & Hid & E2 & Hkeys & Hins & _). fold s in Hid, E2, Hins.
  assert (Hallow : PolicyAllows s (Some final) = true).
  { apply ceilings_agree. subst final p'. fold s. destruct review; [|exact E2]. apply app_nil in E2 as [E2 E2'].
    apply app_nil. split; [|exact E2']. destruct (RemoteControlEnabled s); [|done].
    apply app_nil in E2 as [Ha Hb]. rewrite when_nil in Ha, Hb. simpl. by rewrite Ha, Hb. }
  split_and!; [done|done|done| |].
  - rewrite Hid, negb_true_iff. by rewrite Z.eqb_neq.
  - intros Hr. rewrite Hr, Hinst in Hins. split; [by destruct (po_HelperInstalled p), (RescueHelperEnabled s)|by apply Hkeys].
Qed.

Definition policy_demo : Policy :=
  mkPolicy 2 "komari" 2 true true true true true false false false false false false false false "legacy-unknown-preserve" 0 None.
Definition auth_demo : HostAuthorization := mkHostAuthorization "a" "komari" 7 "h" 1 [1; 2] 1 "n" "admin" None None "".
Definition revision_demo : PrivilegedRevision :=
  mkPrivilegedRevision 2 false 3 "a" 7 "h" 1 1
    (Some (mkPrivilegedConfig 1 (Some true) (Some true) (Some true) None (Some true) "")) (Some auth_demo) None None None "".
Definition trust_demo : Trust := mkTrust 2 "a" "https://p" "komari" "komari" [] [mkPinnedKey 1 "v" "k" 0 None] "".

Lemma validated_task_is_allowed_witness :
  PolicyAllows (settingsFromProto (pr_privileged revision_demo)) (Some (target_policy
    (with_disable_source "legacy-remote-control-reauthorized" (with_force_deny_remote false policy_demo)) revision_demo auth_demo)) = true.
Proof.
  refine (proj1 (validated_task_is_allowed policy_demo trust_demo revision_demo auth_demo
    (mkObservation "komari" "" "f" "" "12" "x") (with_force_deny_remote false policy_demo) true _ _ _ _)); vm_compute; reflexivity.
Defined.
