(* ===== verification/HostBootstrap.v ===== *)
(** * The settings carried over to the reviewed service
    ([internal/hostcmd/profile_linux.go], [core/hostops/candidate_linux.go])

    A conversion replaces the service's command line by a file. The old
    arguments are read as data, through the JSON names of the fields of
    [flags.Config]; a configuration file they name is merged in; environment
    overrides are refused. The structure, which the code fills by reflection, is
    a map from field names to values here. *)

From S2P Require Import Prelude.
From S2P Require Import GoStd.
From S2P Require Import GoPath.
From S2P Require Import External.
From S2P Require Import HostOps.
From S2P Require Import Systemd.
From S2P Require Import HostFs.

Local Open Scope string_scope.
Local Open Scope Z_scope.
Local Open Scope host_scope.

(** Floating-point values by their bits. *)
Inductive cfg_value := VStr (s : string) | VBool (b : bool) | VInt (z : Z) | VFloat (bits : Z).
#[export] Instance cfg_value_eq : EqDecision cfg_value.
Proof. solve_decision. Defined.
Abbreviation Config := (gmap string cfg_value).

Inductive cfg_kind := FStr | FBool | FInt | FFloat.
#[export] Instance cfg_kind_eq : EqDecision cfg_kind.
Proof. solve_decision. Defined.
(** The JSON names of [flags.Config], with [-] for [_], and their kinds. *)
Definition config_fields : list (string * cfg_kind) := [
  ("auto-discovery-key", FStr); ("server-name", FStr); ("disable-auto-update", FBool); ("token", FStr); ("endpoint", FStr);
  ("interval", FFloat); ("ignore-unsafe-cert", FBool); ("max-retries", FInt); ("reconnect-interval", FInt);
  ("info-report-interval", FInt); ("include-nics", FStr); ("exclude-nics", FStr); ("include-mountpoints", FStr);
  ("month-rotate", FInt); ("memory-include-cache", FBool); ("custom-dns", FStr); ("cf-access-client-id", FStr);
  ("cf-access-client-secret", FStr); ("enable-gpu", FBool); ("detailed-gpu", FBool); ("disable-remote-control", FBool);
  ("show-warning", FBool); ("custom-ipv4", FStr); ("custom-ipv6", FStr); ("get-ip-addr-from-nic", FBool); ("host-proc", FStr);
  ("config-file", FStr); ("disable-compression", FBool); ("prefer-ip-version", FStr); ("runtime-state-file", FStr);
  ("privileged-state-file", FStr); ("replay-state-file", FStr); ("credentials-file", FStr)].
Definition config_aliases : list (string * string) := [
  ("include-mountpoint", "include-mountpoints"); ("auto-discovery", "auto-discovery-key"); ("config", "config-file"); ("gpu", "enable-gpu")].
Definition short_options : list (string * string) := [
  ("-e", "--endpoint"); ("-t", "--token"); ("-i", "--interval"); ("-r", "--max-retries"); ("-u", "--ignore-unsafe-cert");
  ("-c", "--reconnect-interval")].
Definition assoc {B} (k : string) (l : list (string * B)) : option B := snd <$> List.find (fun e => (e.1 =? k)%string) l.
(** The field an option name stands for. *)
Definition field_of (name : string) : option (string * cfg_kind) :=
  let f := match assoc name config_aliases with Some f => f | None => name end in
  match assoc f config_fields with Some k => Some (f, k) | None => None end.

(** [strconv.ParseBool]. *)
Definition parse_bool (s : string) : option bool :=
  if existsb (String.eqb s) ["1"; "t"; "T"; "true"; "TRUE"; "True"] then Some true
  else if existsb (String.eqb s) ["0"; "f"; "F"; "false"; "FALSE"; "False"] then Some false else None.

Section Bootstrap.
(** [strconv.ParseFloat] and [json.Unmarshal] onto the structure. *)
Variable parse_float : string -> option Z.
Variable merge_json : bytes -> Config -> option Config.
Context (E : Env).

Definition parse_value (k : cfg_kind) (v : string) : option cfg_value :=
  match k with
  | FStr => Some (VStr v)
  | FBool => VBool <$> parse_bool v
  | FInt => VInt <$> atoi v
  | FFloat => VFloat <$> parse_float v
  end.

(** The loop over the arguments after the program. *)
Fixpoint parse_args (args : list string) (c : Config) : option Config :=
  match args with
  | [] => Some c
  | a :: rest =>
      let '(key, val) := match cut a "=" with Some (k, v) => (k, Some v) | None => (a, None) end in
      let key := if (slen key =? 2) && has_prefix key "-" then match assoc key short_options with Some l => l | None => key end else key in
      if (key =? "--service-manifest")%string then
        match val, rest with
        | Some _, _ => parse_args rest c
        | None, _ :: rest => parse_args rest c
        | None, [] => None
        end
      else
        match (if has_prefix key "--" then field_of (trim_prefix key "--") else None) with
        | None => None
        | Some (f, k) =>
            match val, k, rest with
            | Some v, _, _ => match parse_value k v with Some x => parse_args rest (<[f := x]> c) | None => None end
            | None, FBool, _ => parse_args rest (<[f := VBool true]> c)
            | None, _, v :: rest => match parse_value k v with Some x => parse_args rest (<[f := x]> c) | None => None end
            | None, _, [] => None
            end
        end
  end.
Definition zero_config : Config :=
  list_to_map (map (fun '(f, k) => (f, match k with FStr => VStr "" | FBool => VBool false | FInt => VInt 0 | FFloat => VFloat 0 end)) config_fields).
(** [Interval: 3] is the float 3.0. *)
Definition default_config : Config :=
  <["interval" := VFloat 4613937818241073152]> (<["info-report-interval" := VInt 5]> (<["reconnect-interval" := VInt 5]>
    (<["max-retries" := VInt 3]> zero_config))).
Definition cfg_bool (f : string) (c : Config) : bool := match c !! f with Some (VBool b) => b | _ => false end.
Definition cfg_str (f : string) (c : Config) : string := match c !! f with Some (VStr s) => s | _ => "" end.

(** [ReadCandidate] walks by descriptors and follows no link. *)
Definition plain_dir (m : hfs) (p : string) : bool := match m !! p with Some n => is_dir n | None => false end.
Definition candidate (m : hfs) (path : string) : result bytes cmd_err :=
  guard? forallb (fun k => plain_dir m (abs_path (take k (elems path)))) (seq 0 (length (elems path))) else ENotExist in
  match m !! path with
  | None => Err ENotExist
  | Some n =>
      guard? negb (is_link n) else ELoop in
      guard? is_reg n && (slen (n_data n) <=? maximum_metadata) else EBootstrap in
      Ok (n_data n)
  end.
Definition ReadCandidate (path : string) : HM bytes :=
  require (is_abs path && (clean path =? path)%string) EBootstrap ;;;
  read_fs E (fun _ m => candidate m path).

Definition parseLegacyBootstrap (args : list string) : HM Config :=
  let! c := h_lift (parse_args (tail args) default_config) EBootstrap in
  let localDeny := cfg_bool "disable-remote-control" c in
  let! c := (if (cfg_str "config-file" c =? "")%string then h_ret c else
             let! data := ReadCandidate (cfg_str "config-file" c) in
             h_lift (merge_json data c) EBootstrap) in
  h_ret (<["disable-remote-control" := VBool (cfg_bool "disable-remote-control" c || localDeny)]> c).

(** Any non-empty value in the output of [systemctl show]. *)
Definition environment_overrides (env : string) : bool :=
  existsb (fun line => match cut line "=" with Some (_, v) => negb (v =? "")%string | None => false end) (split_on (byte_of 10) env).
Definition captureBootstrap (m : Manifest) (o : serviceObservation) (t : Trust) : HM Config :=
  let! args := match parseExecStart (so_ExecStart o) with Ok a => h_ret a | Err _ => h_err EBootstrap end in
  require (hd "" args =? mf_Executable m)%string EBootstrap ;;;
  let! c := parseLegacyBootstrap args in
  let! env := systemctl E ["show"; mf_ServiceName m; "--property=Environment,EnvironmentFiles,PassEnvironment"] in
  require (negb (environment_overrides env)) EBootstrap ;;;
  h_ret (<["endpoint" := VStr (tr_Endpoint t)]> c).
End Bootstrap.

(** ** Theorems *)

Section BootstrapTheorems.
Variable parse_float : string -> option Z.
Variable merge_json : bytes -> Config -> option Config.
Context (E : Env).

(** A restriction given on the command line survives the configuration
    file: whatever the JSON document says, the captured settings keep remote
    control disabled when the service's own arguments disabled it; and they name
    the pinned endpoint and were read under no environment override. *)
Theorem captureBootstrap_keeps_deny m o t h c h' args c0 :
  captureBootstrap parse_float merge_json E m o t h = (Ok c, h') ->
  parseExecStart (so_ExecStart o) = Ok args -> parse_args parse_float (tail args) default_config = Some c0 ->
  (cfg_bool "disable-remote-control" c0 = true -> cfg_bool "disable-remote-control" c = true) /\
  cfg_str "endpoint" c = tr_Endpoint t /\ hd "" args = mf_Executable m /\
  exists n env, e_systemctl E n ["show"; mf_ServiceName m; "--property=Environment,EnvironmentFiles,PassEnvironment"] = Some env /\
    environment_overrides env = false.
Proof.
  intros Hrun Hargs Hc0. unfold captureBootstrap in Hrun. rewrite Hargs in Hrun. h_ok1 Hrun. apply h_ret_ok in H as [-> ->].
  h_ok1 Hrun. apply require_ok in H as [Hexe ->]. h_ok1 Hrun. rename a0 into c1, H into Hp.
  h_ok1 Hrun. rename a0 into env, H into Henv. h_ok1 Hrun. apply require_ok in H as [Hov ->]. apply h_ret_ok in Hrun as [-> ->].
  unfold parseLegacyBootstrap in Hp. rewrite Hc0 in Hp. h_ok1 Hp. apply h_lift_ok in H as [[= <-] ->].
  h_ok1 Hp. clear H. apply h_ret_ok in Hp as [-> ->].
  unfold systemctl in Henv. h_ok1 Henv. clear H. destruct (e_systemctl _ _ _) as [out|] eqn:Eout; [|done]. injection Henv as <- <-.
  split_and!.
  - intros Hd. unfold cfg_bool at 1. rewrite lookup_insert_ne, lookup_insert_eq by done. by rewrite Hd, orb_true_r.
  - unfold cfg_str. by rewrite lookup_insert_eq.
  - by apply String.eqb_eq.
  - eexists _, out. split; [exact Eout|]. by apply negb_true_iff.
Qed.

(** The kind of a value, and settings whose fields have their declared kinds. *)
Definition kind_of (v : cfg_value) : cfg_kind :=
  match v with VStr _ => FStr | VBool _ => FBool | VInt _ => FInt | VFloat _ => FFloat end.
Definition well_typed (c : Config) : Prop := forall f v, c !! f = Some v -> assoc f config_fields = Some (kind_of v).

Lemma field_of_declared name f k : field_of name = Some (f, k) -> assoc f config_fields = Some k.
Proof. unfold field_of. destruct (assoc _ config_fields) as [k'|] eqn:Ek; [|done]. by intros [= <- <-]. Qed.
Lemma parse_value_kind k v x : parse_value parse_float k v = Some x -> kind_of x = k.
Proof.
  destruct k; cbn [parse_value]; [by intros [= <-]|destruct (parse_bool v)|destruct (atoi v)|destruct (parse_float v)]; by intros [= <-].
Qed.
Lemma well_typed_insert c f k x :
  well_typed c -> assoc f config_fields = Some k -> kind_of x = k -> well_typed (<[f := x]> c).
Proof.
  intros Hc Hf Hx g v. destruct (decide (g = f)) as [->|Hne]; [rewrite lookup_insert_eq|rewrite lookup_insert_ne by done; apply Hc].
  intros [= <-]. by rewrite Hx.
Qed.

End BootstrapTheorems.

Definition boot_env : Env :=
  mkEnv (fun _ => false) (fun _ => [1]) (fun _ m => m) (fun _ _ => Some "Environment=") (fun _ l => l) (fun _ => 0) (fun _ => "id")
    (fun _ => None) (fun _ _ => None) (fun _ _ => Err true) (fun _ => "") (fun _ _ => true) (Some "/usr/lib/komari/komari-host").
Definition boot_fs : hfs :=
  let d := mkHNode KDir 493 0 0 2 1 1 "" in
  {[ "/" := d; "/usr" := d; "/usr/bin" := d; "/usr/bin/systemctl" := mkHNode KReg 493 0 0 1 1 2 "" ]}.
Definition journal_demo : hostJournal :=
  mkJournal 3 "/m" "op" "claiming" "root" "" "" "" [] [] [] [] "" 2 1000 false "" false.
Definition boot_host : Host := mkHost boot_fs 10 0 journal_demo [].
Definition exec_demo : string :=
  "{ path=/bin/agent ; argv[]=/bin/agent --disable-remote-control -e https://old ; ignore_errors=no }".
Definition boot_manifest : Manifest :=
  mkManifest 2 "komari" "komari" "systemd" "/bin/agent" "/usr/lib/komari/komari-host" "/etc/komari/services/komari.policy.json" ""
    "/var/lib/komari/komari/credentials.json" "/var/lib/komari/komari/runtime.json" "/var/lib/komari/komari/privileged.json"
    "/var/lib/komari/komari/nonces.json" "/etc/komari/services/komari.json".
Definition boot_trust : Trust := mkTrust 2 "a" "https://panel" "komari" "komari" [] [] "".
Lemma captureBootstrap_keeps_deny_witness :
  let run := captureBootstrap (fun _ => None) (fun _ c => Some c) boot_env boot_manifest
    (mkObservation "komari" "" "/f" "" "1" exec_demo) boot_trust boot_host in
  exists c, fst run = Ok c /\ cfg_bool "disable-remote-control" c = true /\ cfg_str "endpoint" c = "https://panel".
Proof.
  intros run.
  assert (E1 : is_ok (fst run) = true) by (vm_compute; reflexivity). apply is_ok_true in E1 as [c Ec].
  exists c. split; [exact Ec|].
  assert (E2 : match parse_args (fun _ => None) (tail ["/bin/agent"; "--disable-remote-control"; "-e"; "https://old"]) default_config with
               | Some c0 => cfg_bool "disable-remote-control" c0 | None => false end = true) by (vm_compute; reflexivity).
  destruct (parse_args _ _ _) as [c0|] eqn:E0; [|discriminate E2].
  pose proof (captureBootstrap_keeps_deny (fun _ => None) (fun _ c => Some c) boot_env boot_manifest
    (mkObservation "komari" "" "/f" "" "1" exec_demo) boot_trust boot_host c (snd run) _ c0
    (eq_trans (surjective_pairing run) (f_equal (fun r => (r, snd run)) Ec)) ltac:(vm_compute; reflexivity) E0) as (H1 & H2 & _).
  split; [exact (H1 E2)|exact H2].
Defined.

Lemma default_config_typed : well_typed default_config.
Proof.
  assert (Hall : Forall (fun fv => assoc fv.1 config_fields = Some (kind_of fv.2)) (map_to_list default_config)).
  { apply (bool_decide_unpack _). vm_compute. exact Logic.I. }
  intros f v Hf. rewrite Forall_forall in Hall. apply (Hall (f, v)). by apply elem_of_map_to_list.
Qed.
