(* ===== verification/HostSeal.v ===== *)
(** * Fencing a stopped daemon's state ([internal/hostcmd/transaction_linux.go])

    Before a root daemon uses the files of a daemon that ran unprivileged, the
    transaction takes them over: every directory and file below the state roots
    becomes root's, and every file is copied to a fresh inode, because a
    descriptor the old daemon kept open would still write to the old one. The
    owners and modes found are recorded in the journal, which is saved before
    each change. *)

From S2P Require Import Prelude.
From S2P Require Import GoStd.
From S2P Require Import GoPath.
From S2P Require Import External.
From S2P Require Import HostOps.
From S2P Require Import HostFs.

Local Open Scope string_scope.
Local Open Scope Z_scope.
Local Open Scope host_scope.

Definition maxStateFileBytes : Z := 268435456.      (* 256 << 20 *)
Definition maxStateTreeBytes : Z := 536870912.      (* 512 << 20 *)
Definition maxStateEntries : Z := 512.
(** [seal] accepts depths 0 to 8. *)
Definition max_depth : nat := 9.

Record stateFenceBudget := mkBudget { sb_entries : Z; sb_bytes : Z }.

Section Seal.
Context (E : Env) `{Json hostJournal}.
(** [j.dir]. *)
Variable jdir : string.

Definition journal_file : string := child jdir "transaction.json".
Definition save : HM unit := let! j := get_j in WriteJSON E journal_file j 384.

Definition copySealedStateFile (path : string) (limit : Z) : HM Z :=
  let! name := h_create_temp E (dir path) ".komari-state-" in
  h_with_removed E name (
    h_chmod E name 384 ;;;
    let! input := h_read E path in
    let n := Z.min (slen input) (limit + 1) in
    h_write E name (of_chars (take (Z.to_nat n) (chars input))) ;;;
    require (n <=? limit) EGrew ;;;
    nop E ;;; nop E ;;;
    h_rename E name path ;;; nop E ;;;
    h_ret n).

(** The owner, device and type checks of [seal]. *)
Definition acceptable (owner device : Z) (st : HNode) : bool :=
  (n_dev st =? device) && ((n_uid st =? owner) || (n_uid st =? 0)) &&
  (is_dir st || (is_reg st && (n_nlink st =? 1))).
Definition known (path : string) (l : list ownership) : bool := existsb (fun e => (w_Path e =? path)%string) l.
Definition record_owner (path : string) (st : HNode) (recovery : bool) : HM unit :=
  let! j := get_j in
  if known path (captured recovery j) then h_ret tt else
  require (Z.of_nat (length (captured recovery j)) <? maxStateEntries) EMigrationLimit ;;;
  set_j (fun j => set_captured recovery (captured recovery j ++ [mkOwn path (n_uid st) (n_gid st) (n_mode st)])%list j).

(** [room] is how many more levels the depth limit allows. *)
Fixpoint seal (room : nat) (recovery : bool) (owner device : Z) (path : string) (b : stateFenceBudget) : HM stateFenceBudget :=
  match room with
  | O => h_err EDepth
  | S room =>
      let! st := h_open_nofollow E path in
      require (acceptable owner device st) EUnexpectedOwner ;;;
      let entries := sb_entries b + 1 in
      require (entries <=? maxStateEntries) EEntryLimit ;;;
      let remaining := Z.min maxStateFileBytes (maxStateTreeBytes - sb_bytes b) in
      require (is_dir st || (slen (n_data st) <=? remaining)) EFileTooLarge ;;;
      record_owner path st recovery ;;;
      save ;;;
      h_chown E path 0 0 ;;;
      h_chmod E path (if is_dir st then 448 else 384) ;;;
      if is_dir st then
        let! names := h_readdir E path (Z.to_nat (maxStateEntries + 1)) in
        require (Z.of_nat (length names) <=? maxStateEntries) ETooManyEntries ;;;
        let! b := h_fold (fun b name => seal room recovery owner device (child path name) b) names
                    (mkBudget entries (sb_bytes b)) in
        nop E ;;; h_ret b
      else
        let! n := copySealedStateFile path remaining in
        h_ret (mkBudget entries (sb_bytes b + n))
  end.

Definition fence_root (owner : Z) (recovery : bool) (b : stateFenceBudget) (d : string) : HM stateFenceBudget :=
  let! st := h_lstat E d in
  require (is_dir st) ERootNotDir ;;;
  seal max_depth recovery owner (n_dev st) d b.
Definition fenceStateDirectories (dirs : list string) (owner : Z) (recovery : bool) : HM unit :=
  let! j := get_j in
  if recovery && (j_FenceStage j =? "sealing")%string then h_ret tt else
  (if recovery then h_ret tt else set_j (set_FenceStage "sealing") ;;; save) ;;;
  let! _ := h_fold (fence_root owner recovery) dirs (mkBudget 0 0) in
  h_ret tt.

(** ** The state roots *)

Definition shared_directories : list string := ["/"; "/etc"; "/var"; "/var/lib"; "/opt"; "/usr"].
(** The loop over the roots found so far: [None] when [d] nests with one. *)
Fixpoint find_root (d : string) (dirs : list string) (found : bool) : option bool :=
  match dirs with
  | [] => Some found
  | x :: dirs =>
      if (d =? x)%string then find_root d dirs true
      else if has_prefix d (x ++ "/") || has_prefix x (d ++ "/") then None
      else find_root d dirs found
  end.
Definition add_root (dirs : list string) (p : string) : HM (list string) :=
  require (is_abs p && (clean p =? p)%string) EStatePathUnclean ;;;
  let d := dir p in
  require (negb (existsb (fun x => (d =? x)%string) shared_directories)) EDedicatedDirectory ;;;
  match find_root d dirs false with
  | None => h_err ENestedRoots
  | Some true => h_ret dirs
  | Some false => h_trusted E (dir d) ;;; h_ret (dirs ++ [d])%list
  end.
Definition stateDirectories (m : Manifest) : HM (list string) :=
  h_fold add_root [mf_CredentialsFile m; mf_RuntimeStateFile m; mf_PrivilegedStateFile m; mf_ReplayStateFile m] [].

(** ** Giving the files back *)

(** [changeOwnership]: [target] is the account, or none for the recorded one. *)
Definition change_one (target : option (Z * Z)) (e : ownership) : HM unit :=
  let! st := h_try (h_lstat E (w_Path e)) in
  match st with
  | Err ENotExist => h_ret tt
  | Err x => h_err x
  | Ok st =>
      require (negb (is_link st)) EBecameSymlink ;;;
      let '(u, g) := match target with Some ug => ug | None => (w_UID e, w_GID e) end in
      h_chown E (w_Path e) u g ;;;
      h_chmod E (w_Path e) (match target with
                            | None => w_Mode e
                            | Some _ => if is_dir st then 448 else 384
                            end)
  end.
Definition changeOwnership (entries : list ownership) (target : option (Z * Z)) : HM unit :=
  h_iter (change_one target) (rev entries).

Definition find_own (path : string) (l : list ownership) : option ownership :=
  List.find (fun e => (w_Path e =? path)%string) (rev l).

(** The entry a file captured during recovery is given: that of its state root
    when the root was sealed before. [None]: the file is gone. *)
Fixpoint adopted (original : list ownership) (dirs : list string) (e : ownership) : HM ownership :=
  match dirs with
  | [] => h_ret e
  | d :: dirs =>
      if negb (under d (w_Path e)) then adopted original dirs e else
      match find_own d original with
      | None => h_ret e
      | Some root =>
          let e1 := mkOwn (w_Path e) (w_UID root) (w_GID root) 384 in
          let! st := h_try (h_lstat E (w_Path e)) in
          match st with
          | Err ENotExist => h_ret e1
          | Err x => h_err x
          | Ok st => h_ret (if is_dir st then mkOwn (w_Path e) (w_UID root) (w_GID root) 448 else e1)
          end
      end
  end.
Definition restoreStateOwnership (dirs : list string) : HM unit :=
  let! j := get_j in
  let! entries := h_fold (fun entries e =>
      if known (w_Path e) (j_Ownership j) then h_ret entries else
      let! e := adopted (j_Ownership j) dirs e in h_ret (entries ++ [e])%list)
    (j_RecoveryOwnership j) (j_Ownership j) in
  changeOwnership entries None.
End Seal.

(** ** Paths below a directory *)

Definition plain_name (n : string) : Prop := n <> "" /\ sep ∉ chars n.

Lemma under_spec p q : under p q = true <-> q = p \/ exists r, q = child p r.
Proof.
  unfold under, has_prefix, child. rewrite orb_true_iff, String.eqb_eq, prefix_iff.
  setoid_rewrite app_str_assoc. naive_solver.
Qed.
Lemma under_refl p : under p p = true.
Proof. apply under_spec. by left. Qed.
Lemma under_child p n : under p (child p n) = true.
Proof. apply under_spec. right. by exists n. Qed.
Lemma child_assoc p a b : child (child p a) b = child p (a ++ "/" ++ b).
Proof. unfold child. by rewrite !app_str_assoc. Qed.
Lemma under_trans p q r : under p q = true -> under q r = true -> under p r = true.
Proof.
  rewrite !under_spec. intros [->|[a ->]] [->|[b ->]]; eauto. right. exists (a ++ "/" ++ b). apply child_assoc.
Qed.

Lemma chars_child p n : chars (child p n) = (chars p ++ sep :: chars n)%list.
Proof. unfold child. by rewrite !chars_app. Qed.
Lemma child_length p n : String.length (child p n) = S (String.length p + String.length n).
Proof.
  unfold child. induction p as [|a p IH]; [done|].
  change (S (String.length (p ++ "/" ++ n)) = S (S (String.length p + String.length n))). by rewrite IH.
Qed.
Lemma child_neq p n : child p n <> p.
Proof. intros Heq. apply (f_equal String.length) in Heq. rewrite child_length in Heq. lia. Qed.
Lemma child_inj p a b : child p a = child p b -> a = b.
Proof. unfold child. intros Heq. apply (inj (String.append p)) in Heq. by injection Heq. Qed.
Lemma chars_inj a b : chars a = chars b -> a = b.
Proof. intros Heq. rewrite <- (of_chars_chars a), <- (of_chars_chars b). by rewrite Heq. Qed.

(** The parent of a path strictly below [c] is below [c]. *)
Lemma parent_under p n c r : sep ∉ chars n -> child p n = child c r -> under c p = true.
Proof.
  intros Hn Heq. apply (f_equal chars) in Heq. rewrite !chars_child in Heq.
  apply app_eq_inv in Heq as [(k & Hp & Hk)|(k & Hp & Hk)]; destruct k as [|x k]; simpl in Hk.
  - rewrite app_nil_r in Hp. apply chars_inj in Hp as ->. apply under_refl.
  - injection Hk as <- Hk. apply under_spec. right. exists (of_chars k). apply chars_inj.
    by rewrite chars_child, chars_of_chars.
  - rewrite app_nil_r in Hp. apply chars_inj in Hp as ->. apply under_refl.
  - injection Hk as <- Hk. exfalso. apply Hn. rewrite Hk. set_solver.
Qed.

Lemma split_sep (a b s t : list ascii) :
  sep ∉ a -> sep ∉ b -> (s = [] \/ exists s', s = sep :: s') -> (t = [] \/ exists t', t = sep :: t') ->
  (a ++ s = b ++ t -> a = b)%list.
Proof.
  intros Ha Hb Hs Ht. revert b Hb. induction a as [|x a IH]; intros [|y b] Hb Heq; simpl in Heq; [done| | |].
  - destruct Hs as [->|[s' ->]]; [done|]. injection Heq as <- _. set_solver.
  - destruct Ht as [->|[t' ->]]; [done|]. injection Heq as -> _. set_solver.
  - injection Heq as <- Heq. f_equal. apply IH; set_solver.
Qed.
Lemma under_chars p q : under p q = true -> exists t, chars q = (chars p ++ t)%list /\ (t = [] \/ exists t', t = sep :: t').
Proof.
  rewrite under_spec. intros [->|[r ->]].
  - exists []. rewrite app_nil_r. by split; [|left].
  - exists (sep :: chars r). rewrite chars_child. split; [done|]. right. by exists (chars r).
Qed.
(** Subtrees of two entries of a directory are disjoint. *)
Lemma siblings_disjoint p a b q :
  plain_name a -> plain_name b -> under (child p a) q = true -> under (child p b) q = true -> a = b.
Proof.
  intros [_ Ha] [_ Hb] (s & Hs & Hss)%under_chars (t & Ht & Htt)%under_chars. rewrite Hs in Ht.
  rewrite !chars_child, <- !app_assoc in Ht. apply app_inv_head in Ht. simpl in Ht. injection Ht as Ht.
  apply chars_inj. by apply (split_sep _ _ s t).
Qed.

Lemma child_name_spec p q n : child_name p q = Some n <-> q = child p n /\ plain_name n.
Proof.
  unfold child_name, has_prefix, plain_name. split.
  - destruct (String.prefix (p ++ "/") q) eqn:Hp; [|done]. apply prefix_iff in Hp as [r ->].
    rewrite trim_prefix_app. destruct (String.eqb_spec r ""); [done|]. simpl. case_bool_decide; [done|].
    intros [= <-]. split; [|done]. unfold child. by rewrite app_str_assoc.
  - intros [-> [H1 H2]]. unfold child. rewrite <- app_str_assoc.
    assert (Hp : String.prefix (p ++ "/") ((p ++ "/") ++ n) = true) by (apply prefix_iff; by exists n).
    rewrite Hp, trim_prefix_app. apply String.eqb_neq in H1. rewrite H1. simpl. by rewrite bool_decide_eq_false_2.
Qed.
Lemma elem_of_children p m n : n ∈ children p m <-> plain_name n /\ is_Some (m !! child p n).
Proof.
  unfold children. rewrite list_elem_of_omap. setoid_rewrite list_elem_of_fmap. split.
  - intros (q & ([q1 nd] & Hq1 & Hq%elem_of_map_to_list) & Hc). simpl in Hq1. subst q1. apply child_name_spec in Hc as [-> Hn]. by split.
  - intros [Hn [nd Hl]]. exists (child p n). split.
    + exists (child p n, nd). split; [done|]. by apply elem_of_map_to_list.
    + by apply child_name_spec.
Qed.
Lemma NoDup_children p m : NoDup (children p m).
Proof.
  unfold children. pose proof (NoDup_fst_map_to_list m) as Hnd. induction (map_to_list m).*1 as [|q l IH]; [constructor|].
  apply NoDup_cons in Hnd as [Hq Hnd]. simpl. destruct (child_name p q) as [n|] eqn:Hn; [|by apply IH].
  constructor; [|by apply IH]. apply child_name_spec in Hn as [-> Hn].
  intros (q' & Hq' & [-> _]%child_name_spec)%list_elem_of_omap. done.
Qed.

(** Below [root], everything but [root] sits in a directory. *)
Definition tree (root : string) (m : hfs) : Prop :=
  forall q n, m !! q = Some n -> under root q = true -> q <> root ->
    exists p name pn, q = child p name /\ plain_name name /\ under root p = true /\
      m !! p = Some pn /\ is_dir pn = true.

Lemma tree_child root m q n :
  tree root m -> m !! q = Some n -> under root q = true -> q <> root ->
  exists name, plain_name name /\ is_Some (m !! child root name) /\ under (child root name) q = true.
Proof.
  intros Ht. remember (String.length q) as k eqn:Hk. revert q n Hk.
  induction k as [k IH] using lt_wf_ind. intros q n -> Hq Hu Hne.
  destruct (Ht q n Hq Hu Hne) as (p & name & pn & -> & Hn & Hp & Hpn & _).
  destruct (decide (p = root)) as [->|Hpr].
  { exists name. split_and!; [done|by exists n|apply under_refl]. }
  destruct (IH (String.length p)) with (q := p) (n := pn) as (nm & H1 & H2 & H3); try done.
  { rewrite child_length. lia. }
  exists nm. split_and!; [done|done|]. eapply under_trans; [exact H3|]. apply under_child.
Qed.
Lemma tree_leaf root m q x n :
  tree root m -> m !! q = Some x -> under root q = true -> m !! root = Some n -> is_dir n = false -> q = root.
Proof.
  intros Ht. remember (String.length q) as k eqn:Hk. revert q x Hk.
  induction k as [k IH] using lt_wf_ind. intros q x -> Hq Hu Hroot Hd. destruct (decide (q = root)) as [|Hne]; [done|].
  destruct (Ht q x Hq Hu Hne) as (p & name & pn & -> & _ & Hp & Hpn & Hpd).
  rewrite (IH (String.length p)) with (q := p) (x := pn) in Hpn; try done; [|rewrite child_length; lia].
  congruence.
Qed.
Lemma tree_sub root m name : tree root m -> tree (child root name) m.
Proof.
  intros Ht q n Hq Hu Hne. apply under_spec in Hu as [->|[r ->]]; [done|].
  destruct (Ht (child (child root name) r) n Hq) as (p & nm & pn & Heq & Hn & _ & Hp & Hd).
  - eapply under_trans; apply under_child.
  - intros Heq. apply (f_equal String.length) in Heq. rewrite !child_length in Heq. lia.
  - exists p, nm, pn. split_and!; try done. eapply parent_under; [|by symmetry]. apply Hn.
Qed.
Lemma tree_ext root m m' : (forall q, under root q = true -> m' !! q = m !! q) -> tree root m -> tree root m'.
Proof.
  intros He Ht q n Hq Hu Hne. rewrite He in Hq by done.
  destruct (Ht q n Hq Hu Hne) as (p & nm & pn & ? & ? & Hp & ? & ?). exists p, nm, pn. by rewrite He.
Qed.

(** ** What sealing achieves *)

(** A node taken over: root's, private, and a file on an inode not older than
    [ino0], with its contents. *)
Definition sealed_of (ino0 : Z) (n n' : HNode) : Prop :=
  if is_dir n then n' = with_perm 448 (with_owner_of 0 0 n)
  else is_reg n = true /\ n_kind n' = KReg /\ n_mode n' = 384 /\ n_uid n' = 0 /\ n_gid n' = 0 /\
       ino0 <= n_ino n' /\ n_data n' = n_data n.
Definition sealed_at (ino0 : Z) (o o' : option HNode) : Prop :=
  match o, o' with
  | None, None => True
  | Some n, Some n' => sealed_of ino0 n n'
  | _, _ => False
  end.
Definition sealed_tree (ino0 : Z) (root : string) (m m' : hfs) : Prop :=
  forall q, under root q = true -> sealed_at ino0 (m !! q) (m' !! q).

Lemma sealed_at_weaken i1 i2 o o' : i1 <= i2 -> sealed_at i2 o o' -> sealed_at i1 o o'.
Proof.
  intros Hi. destruct o as [n|], o' as [n'|]; simpl; try done. unfold sealed_of.
  destruct (is_dir n); [done|]. intros (? & ? & ? & ? & ? & ? & ?). split_and!; try done. lia.
Qed.

Section SealTheorems.
Context (E : Env) `{JJ : Json hostJournal} (jdir : string).
Let jf := journal_file jdir.
Hypothesis Hjf : not_temp jf.

Lemma journal_save_ok h a h' :
  save E jdir h = (Ok a, h') ->
  exists n, h_fs h' = <[jf := n]> (h_fs h) /\ h_ino h' = h_ino h + 1 /\ h_j h' = h_j h /\
    n_kind n = KReg /\ exists data, json_marshal (h_j h) = Some data /\ n_data n = data ++ newline.
Proof.
  intros Hs. unfold save, WriteJSON in Hs. h_ok1 Hs. apply get_j_ok in H as [-> ->]. h_ok1 Hs.
  apply h_lift_ok in H as [Hm ->]. apply atomic_write_ok in Hs as (n & (Hk & Hd & _) & _ & Hf & Hi & Hj); [|done].
  exists n. split_and!; try done. by exists a0.
Qed.

Lemma copy_ok path limit h n h' :
  is_Some (h_fs h !! path) ->
  copySealedStateFile E path limit h = (Ok n, h') ->
  exists old nd, h_fs h !! path = Some old /\ h_fs h' = <[path := nd]> (h_fs h) /\
    written (n_data old) 384 None nd /\ n_ino nd = h_ino h /\ h_ino h' = h_ino h + 1 /\ h_j h' = h_j h /\
    n = slen (n_data old) /\ n <= limit.
Proof.
  intros [old Hold] Hc. unfold copySealedStateFile in Hc. h_ok1 Hc.
  apply create_temp_ok in H as ((r & ->) & Hfresh & ->). set (nm := child (dir path) _) in *.
  assert (Hne : nm <> path) by (intros Hnp; rewrite Hnp in Hfresh; cbn in Hfresh; congruence).
  apply with_removed_ok in Hc as (h2 & Hc & Hfs & Hj & Hino).
  h_ok1 Hc. apply update_ok in H as (n1 & Hl & ->). cbn [h_fs put_fs ticked fresh_ino] in Hl. rewrite lookup_insert_eq in Hl. injection Hl as <-.
  h_ok1 Hc. apply read_fs_ok in H as [Hr ->]. cbn [h_fs put_fs ticked fresh_ino] in Hr.
  rewrite !lookup_insert_ne, Hold in Hr by done. destruct (is_dir old); [done|]. injection Hr as <-.
  h_ok1 Hc. apply update_ok in H as (n2 & Hl & ->). cbn [h_fs put_fs ticked fresh_ino] in Hl. rewrite lookup_insert_eq in Hl. injection Hl as <-.
  h_ok1 Hc. apply require_ok in H as [Hlim ->]. h_ok1 Hc. apply nop_ok in H as ->. h_ok1 Hc. apply nop_ok in H as ->.
  h_ok1 Hc. apply rename_ok in H as (n3 & Hl & ->). cbn [h_fs put_fs ticked fresh_ino] in Hl. rewrite lookup_insert_eq in Hl. injection Hl as <-.
  h_ok1 Hc. apply nop_ok in H as ->. apply h_ret_ok in Hc as [-> ->].
  cbn [h_fs put_fs ticked fresh_ino h_ino h_j] in *. set (n3 := with_contents _ _) in *.
  assert (Hn : Z.min (slen (n_data old)) (limit + 1) = slen (n_data old)) by zbool.
  assert (Hd : n_data n3 = n_data old).
  { subst n3. cbn [n_data with_contents with_perm new_file]. rewrite Hn. unfold slen. rewrite Nat2Z.id, take_ge.
    - by rewrite of_chars_chars.
    - unfold chars. clear. induction (n_data old) as [|x s IH]; simpl; lia. }
  exists old, n3. split_and!; [done| |by repeat split|done|done|done|done|zbool].
  rewrite Hfs.
  - rewrite !insert_insert_eq. f_equal. rewrite delete_insert_eq. by rewrite delete_id.
  - by rewrite lookup_insert_ne, lookup_delete_eq.
Qed.

(** ** What a run that takes over a region does

    Inside the region [R] every node is taken over; outside, only the journal
    file changes; the journal in memory gains the owner and mode of every node
    of the region it did not hold, as found. *)

Definition own_of (q : string) (n : HNode) : ownership := mkOwn q (n_uid n) (n_gid n) (n_mode n).
Definition recorded (R : string -> Prop) (m : hfs) (e : ownership) : Prop :=
  R (w_Path e) /\ exists n, m !! w_Path e = Some n /\ e = own_of (w_Path e) n.

Record sealed_run (recovery : bool) (R : string -> Prop) (h h' : Host) : Prop := {
  sr_in : forall q, R q -> sealed_at (h_ino h) (h_fs h !! q) (h_fs h' !! q);
  sr_off : forall q, ~ R q -> q <> jf -> h_fs h' !! q = h_fs h !! q;
  sr_ino : h_ino h <= h_ino h';
  sr_own : exists new, h_j h' = set_captured recovery (captured recovery (h_j h) ++ new)%list (h_j h) /\
    Forall (recorded R (h_fs h)) new /\
    (NoDup (w_Path <$> captured recovery (h_j h)) -> NoDup (w_Path <$> captured recovery (h_j h'))) /\
    forall q, R q -> is_Some (h_fs h !! q) -> q ∈ w_Path <$> captured recovery (h_j h');
}.

Lemma captured_set recovery l j : captured recovery (set_captured recovery l j) = l.
Proof. by destruct recovery. Qed.
Lemma set_captured_twice recovery l l' j : set_captured recovery l (set_captured recovery l' j) = set_captured recovery l j.
Proof. by destruct recovery. Qed.
Lemma set_captured_id recovery j : set_captured recovery (captured recovery j) j = j.
Proof. by destruct recovery, j. Qed.
Lemma known_spec q l : known q l = true <-> q ∈ w_Path <$> l.
Proof.
  unfold known. rewrite existsb_In, list_elem_of_fmap. setoid_rewrite String.eqb_eq. naive_solver.
Qed.

Lemma sealed_run_refl recovery (R : string -> Prop) h : (forall q, ~ R q) -> sealed_run recovery R h h.
Proof.
  intros HR. split; [by intros q Hq; destruct (HR q)|done|lia|]. exists []. rewrite app_nil_r, set_captured_id.
  split_and!; [done|constructor|done|]. intros q Hq. by destruct (HR q).
Qed.

Lemma sealed_run_trans recovery (R1 R2 : string -> Prop) h h1 h2 :
  (forall q, R1 q -> R2 q -> False) -> ~ R1 jf -> ~ R2 jf -> (forall q, R1 q \/ ~ R1 q) ->
  sealed_run recovery R1 h h1 -> sealed_run recovery R2 h1 h2 -> sealed_run recovery (fun q => R1 q \/ R2 q) h h2.
Proof.
  intros Hdis Hj1 Hj2 Hdec [In1 Off1 I1 (n1 & J1 & F1 & N1 & K1)] [In2 Off2 I2 (n2 & J2 & F2 & N2 & K2)].
  assert (Hne : forall q, R1 q \/ R2 q -> q <> jf) by (intros q [Hq|Hq] ->; done).
  assert (H2 : forall q, R2 q -> h_fs h1 !! q = h_fs h !! q) by (intros q Hq; apply Off1; [by intros ?; eapply Hdis|by apply Hne; right]).
  split.
  - intros q [Hq|Hq].
    + rewrite Off2; [by apply In1|by intros ?; eapply Hdis|by apply Hne; left].
    + rewrite <- (H2 q Hq). eapply sealed_at_weaken; [exact I1|]. by apply In2.
  - intros q Hq Hqj. rewrite Off2, Off1; naive_solver.
  - lia.
  - set (C := captured recovery (h_j h)) in *.
    assert (C1 : captured recovery (h_j h1) = (C ++ n1)%list) by (by rewrite J1, captured_set).
    assert (C2 : captured recovery (h_j h2) = ((C ++ n1) ++ n2)%list) by (by rewrite J2, captured_set, C1).
    exists (n1 ++ n2)%list. split_and!.
    + by rewrite J2, J1, set_captured_twice, captured_set, app_assoc.
    + apply Forall_app. split; (eapply Forall_impl; [eassumption|]).
      * intros e [He ?]. split; [by left|done].
      * intros e [He (n & Hn & ?)]. split; [by right|]. exists n. by rewrite <- H2.
    + auto.
    + intros q [Hq|Hq] Hs; [|apply K2; [done|by rewrite H2]].
      rewrite C2, fmap_app. apply elem_of_app. left. rewrite <- C1. by apply K1.
Qed.

Lemma sealed_run_ext recovery (R R' : string -> Prop) h h' :
  (forall q, R q <-> R' q) -> sealed_run recovery R h h' -> sealed_run recovery R' h h'.
Proof.
  intros He [H1 H2 H3 (n & H4 & H5 & H6 & H7)]. split.
  - intros q Hq. by apply H1, He.
  - intros q Hq. apply H2. by rewrite He.
  - done.
  - exists n. split_and!; [done| |done|].
    + eapply Forall_impl; [exact H5|]. intros e [? ?]. split; [by apply He|done].
    + intros q Hq. by apply H7, He.
Qed.

(** A region may be enlarged by paths that hold nothing. *)
Lemma sealed_run_widen recovery (R R' : string -> Prop) h h' :
  (forall q, R q -> R' q) -> (forall q, R q \/ ~ R q) -> (forall q, R' q -> ~ R q -> h_fs h !! q = None) -> ~ R' jf ->
  sealed_run recovery R h h' -> sealed_run recovery R' h h'.
Proof.
  intros Hsub Hdec Hnone Hj [A1 A2 A3 (new & A4 & A5 & A6 & A7)]. split; [|by intros q Hq; apply A2; auto|done|].
  - intros q Hq. destruct (Hdec q) as [HR|HR]; [by apply A1|]. rewrite A2, Hnone; [done|done|done|done|by intros ->].
  - exists new. split_and!; [done| |done|].
    + eapply Forall_impl; [exact A5|]. intros e [He ?]. split; [by apply Hsub|done].
    + intros q Hq Hs. destruct (Hdec q) as [HR|HR]; [by apply A7|]. rewrite Hnone in Hs by done. by destruct Hs.
Qed.

(** A loop whose rounds take over disjoint regions. *)
Lemma fold_seals {A B} recovery (f : B -> A -> HM B) (path : A -> string) l b h b' h' :
  (forall a b h b' h', f b a h = (Ok b', h') -> tree (path a) (h_fs h) -> under (path a) jf = false ->
     sealed_run recovery (fun q => under (path a) q = true) h h') ->
  NoDup l ->
  (forall a a' q, a ∈ l -> a' ∈ l -> under (path a) q = true -> under (path a') q = true -> a = a') ->
  (forall a, a ∈ l -> tree (path a) (h_fs h) /\ under (path a) jf = false) ->
  h_fold f l b h = (Ok b', h') ->
  sealed_run recovery (fun q => exists a, a ∈ l /\ under (path a) q = true) h h'.
Proof.
  intros Hf. revert b h. induction l as [|a l IH]; intros b h Hnd Hdis Htree Hr; cbn [h_fold] in Hr.
  { apply h_ret_ok in Hr as [-> ->]. apply sealed_run_refl. intros q (? & ? & _). set_solver. }
  apply h_bind_ok in Hr as (b1 & h1 & H1 & Hr). apply NoDup_cons in Hnd as [Hna Hnd].
  destruct (Htree a ltac:(by left)) as [Hta Hja]. apply Hf in H1; [|done|done].
  assert (Hd : forall x q, x ∈ l -> under (path x) q = true -> under (path a) q = true -> False).
  { intros x q Hx Hq Hq'. apply Hna. rewrite (Hdis a x q); [done|by left|by right|done|done]. }
  assert (Hjl : forall x, x ∈ l -> under (path x) jf = false) by (intros x Hx; apply (Htree x); by right).
  apply IH in Hr; [|done| |].
  - eapply sealed_run_ext; [|eapply sealed_run_trans; [| | | |exact H1|exact Hr]].
    + intros q. cbn beta. by rewrite exists_cons.
    + intros q Hq (x & Hx & Hq'). by eapply Hd.
    + simpl. by rewrite Hja.
    + intros (x & Hx & Hq). by rewrite Hjl in Hq.
    + intros q. cbn beta. destruct (under (path a) q); [by left|right; discriminate].
  - intros x y q Hx Hy. apply Hdis; by right.
  - intros x Hx. split; [|by apply Hjl]. apply (tree_ext _ (h_fs h)); [|apply Htree; by right].
    intros q Hq. apply (sr_off _ _ _ _ H1); [intros Ha; by eapply Hd|]. intros ->. by rewrite Hjl in Hq.
Qed.

(** The journal after the owner of [path] is noted. *)
Definition noted (path : string) (st : HNode) (recovery : bool) (j : hostJournal) : hostJournal :=
  if known path (captured recovery j) then j
  else set_captured recovery (captured recovery j ++ [own_of path st])%list j.
Lemma record_owner_ok path st recovery h a h' :
  record_owner path st recovery h = (Ok a, h') ->
  h_fs h' = h_fs h /\ h_ino h' = h_ino h /\ h_j h' = noted path st recovery (h_j h).
Proof.
  intros Hr. unfold record_owner in Hr. h_ok1 Hr. apply get_j_ok in H as [-> ->]. unfold noted.
  destruct (known _ _); [by apply h_ret_ok in Hr as [_ ->]|]. h_ok1 Hr. apply require_ok in H as [_ ->].
  by apply set_j_ok in Hr as ->.
Qed.

Hypothesis Hdirs : forall t l, e_readdir E t l ≡ₚ l.

(** The state [hs] in which [path] itself, of the tree [h] found, is taken
    over, all but the copy of a file. *)
Record own_taken (recovery : bool) (path : string) (st : HNode) (h hs : Host) : Prop := {
  ot_tree : tree path (h_fs h);
  ot_off_journal : under path jf = false;
  ot_was : h_fs h !! path = Some st;
  ot_is : h_fs hs !! path = Some (with_perm (if is_dir st then 448 else 384) (with_owner_of 0 0 st));
  ot_off : forall q, q <> path -> q <> jf -> h_fs hs !! q = h_fs h !! q;
  ot_ino : h_ino h <= h_ino hs;
  ot_j : h_j hs = noted path st recovery (h_j h);
}.

Lemma child_not_above path n : under (child path n) path = false.
Proof.
  apply not_true_is_false. intros [Hq|[r Hq]]%under_spec; apply (f_equal String.length) in Hq; rewrite ?child_length in Hq; lia.
Qed.
Lemma under_false_trans p q r : under p r = false -> under p q = true -> under q r = false.
Proof. intros Hr Hq. apply not_true_is_false. intros Hu. by rewrite (under_trans p q r Hq Hu) in Hr. Qed.

(** The entry of [path] itself, as a run over the one-element region. *)
Lemma taken_run recovery path st h h' :
  h_fs h !! path = Some st -> path <> jf -> h_ino h <= h_ino h' ->
  (forall q, q <> path -> q <> jf -> h_fs h' !! q = h_fs h !! q) ->
  sealed_at (h_ino h) (Some st) (h_fs h' !! path) -> h_j h' = noted path st recovery (h_j h) ->
  sealed_run recovery (fun q => q = path) h h'.
Proof.
  intros Hst Hpj Hi Hoff Hs Hj. split; [intros q ->; by rewrite Hst|by apply Hoff|done|]. rewrite Hj. unfold noted.
  destruct (known path (captured recovery (h_j h))) eqn:Ek.
  - exists []. rewrite app_nil_r, set_captured_id. split_and!; [done|constructor|done|].
    intros q -> _. by apply known_spec.
  - exists [own_of path st]. rewrite captured_set, fmap_app. split_and!; [done| | |].
    + constructor; [|constructor]. split; [done|]. by exists st.
    + intros Hnd. apply NoDup_app. split_and!; [done| |apply NoDup_singleton].
      intros q Hq ->%list_elem_of_singleton. apply not_true_iff_false in Ek. by apply Ek, known_spec.
    + intros q -> _. simpl. set_solver.
Qed.

(** [f] takes over the subtree of one entry. *)
Definition seals (recovery : bool) (f : string -> stateFenceBudget -> HM stateFenceBudget) : Prop :=
  forall path b h b' h', f path b h = (Ok b', h') -> tree path (h_fs h) -> under path jf = false ->
    sealed_run recovery (fun q => under path q = true) h h'.

Lemma seal_directory recovery f path st names b h hs b' h' :
  own_taken recovery path st h hs -> is_dir st = true -> seals recovery f -> names ≡ₚ children path (h_fs hs) ->
  h_fold (fun b name => f (child path name) b) names b hs = (Ok b', h') ->
  sealed_run recovery (fun q => under path q = true) h h'.
Proof.
  intros [Htree Hnj Hst His Hoff Hino Hjn] Ed Hf Hperm Hloop. rewrite Ed in His.
  assert (Hpj : path <> jf) by (intros ->; by rewrite under_refl in Hnj).
  assert (Hel : forall n, n ∈ names <-> plain_name n /\ is_Some (h_fs hs !! child path n)).
  { intros n. rewrite Hperm. apply elem_of_children. }
  assert (Hjc : forall n, under (child path n) jf = false) by (intros n; eapply under_false_trans; [exact Hnj|apply under_child]).
  assert (Hpres : forall n q, under (child path n) q = true -> h_fs hs !! q = h_fs h !! q).
  { intros n q Hq. apply Hoff; intros ->; [by rewrite child_not_above in Hq|by rewrite Hjc in Hq]. }
  apply (fold_seals recovery _ (child path)) in Hloop.
  - assert (Hself : sealed_run recovery (fun q => q = path) h hs).
    { eapply taken_run; try done. rewrite His. simpl. unfold sealed_of. by rewrite Ed. }
    eapply (sealed_run_widen recovery (fun q => q = path \/ exists n, n ∈ names /\ under (child path n) q = true)).
    + intros q [->|(n & _ & Hq)]; [apply under_refl|]. eapply under_trans; [apply under_child|exact Hq].
    + intros q. destruct (decide (q = path)) as [->|Hne]; [by left; left|].
      destruct (existsb (fun n => under (child path n) q) names) eqn:En.
      * apply existsb_In in En. by left; right.
      * right. intros [?|Hn]; [done|]. apply existsb_In in Hn. congruence.
    + intros q Hq Hno. destruct (h_fs h !! q) as [x|] eqn:Ex; [|done]. exfalso. apply Hno.
      destruct (decide (q = path)) as [->|Hne]; [by left|]. right.
      destruct (tree_child path (h_fs h) q x Htree Ex Hq Hne) as (n & Hn & Hs1 & Hu). exists n. split; [|done].
      apply Hel. split; [done|]. rewrite (Hpres n); [done|apply under_refl].
    + by rewrite Hnj.
    + eapply sealed_run_trans; [| | | |exact Hself|exact Hloop].
      * intros q -> (n & _ & Hu). by rewrite child_not_above in Hu.
      * by intros ->.
      * intros (n & _ & Hu). by rewrite Hjc in Hu.
      * intros q. cbn beta. destruct (decide (q = path)); auto.
  - intros n b1 h1 b2 h2 Hr Ht Hj. exact (Hf _ _ _ _ _ Hr Ht Hj).
  - rewrite Hperm. apply NoDup_children.
  - intros n n' q Hn Hn'. apply siblings_disjoint; [by apply Hel in Hn as []|by apply Hel in Hn' as []].
  - intros n Hn. split; [|by apply Hjc]. apply (tree_ext _ (h_fs h)); [apply Hpres|by apply tree_sub].
Qed.

Lemma seal_file recovery path st h hs limit n h' :
  own_taken recovery path st h hs -> is_dir st = false -> is_reg st = true ->
  copySealedStateFile E path limit hs = (Ok n, h') ->
  sealed_run recovery (fun q => under path q = true) h h'.
Proof.
  intros [Htree Hnj Hst His Hoff Hino Hjn] Ed Hr Hc. rewrite Ed in His.
  assert (Hpj : path <> jf) by (intros ->; by rewrite under_refl in Hnj).
  apply copy_ok in Hc as (old & nd & Hold & Hf & (Hk & Hd & Hm & Hug) & Hn & Hi & Hj & _); [|by rewrite His; eexists].
  rewrite His in Hold. injection Hold as <-. simpl in Hd, Hug. injection Hug as Hu Hg.
  assert (Hself : sealed_run recovery (fun q => q = path) h h').
  { eapply taken_run; try done; [lia| | |by rewrite Hj].
    - intros q Hq Hqj. by rewrite Hf, lookup_insert_ne, Hoff.
    - rewrite Hf, lookup_insert_eq. simpl. unfold sealed_of. rewrite Ed. split_and!; try done. lia. }
  eapply sealed_run_widen; [| | | |exact Hself].
  - intros q ->. apply under_refl.
  - intros q. cbn beta. destruct (decide (q = path)); auto.
  - intros q Hq Hne. destruct (h_fs h !! q) as [x|] eqn:Ex; [|done]. exfalso. apply Hne. by apply (tree_leaf path (h_fs h) q x st).
  - by rewrite Hnj.
Qed.

Lemma seal_seals room recovery owner device :
  seals recovery (fun path b => seal E jdir room recovery owner device path b).
Proof.
  induction room as [|room IH]; intros path b h b' h' Hrun Htree Hnj; [done|].
  cbn [seal] in Hrun. h_ok1 Hrun. apply open_nofollow_ok in H as (Hst & Hlink & ->). cbn [h_fs ticked] in Hst. rename a into st.
  h_ok1 Hrun. apply require_ok in H as [Hacc ->]. h_ok1 Hrun. apply require_ok in H as [_ ->].
  h_ok1 Hrun. apply require_ok in H as [_ ->].
  h_ok1 Hrun. apply record_owner_ok in H as (Hf1 & Hi1 & Hj1). h_ok1 Hrun. apply journal_save_ok in H as (jn & Hf2 & Hi2 & Hj2 & _).
  assert (Hpj : path <> jf) by (intros ->; by rewrite under_refl in Hnj).
  cbn [ticked h_fs h_ino h_j] in Hf1, Hi1, Hj1.
  h_ok1 Hrun. apply update_ok in H as (n1 & Hl1 & ->). rewrite Hf2, Hf1, lookup_insert_ne, Hst in Hl1 by done. injection Hl1 as <-.
  h_ok1 Hrun. apply update_ok in H as (n1 & Hl1 & ->). cbn [h_fs put_fs ticked] in Hl1. rewrite lookup_insert_eq in Hl1. injection Hl1 as <-.
  set (hs := put_fs _ _) in Hrun.
  assert (Htaken : own_taken recovery path st h hs).
  { split; try done; subst hs; cbn [h_fs h_ino h_j put_fs ticked]; [by rewrite lookup_insert_eq| |lia|congruence].
    intros q Hq Hqj. by rewrite Hf2, Hf1, !lookup_insert_ne. }
  clearbody hs. clear Hf1 Hi1 Hj1 Hf2 Hi2 Hj2. destruct (is_dir st) eqn:Ed.
  - h_ok1 Hrun. apply read_fs_ok in H as [Hnames ->]. injection Hnames as Hnames. h_ok1 Hrun. apply require_ok in H as [Hlen ->].
    h_ok1 Hrun. rename H into Hloop. h_ok1 Hrun. apply nop_ok in H as ->. apply h_ret_ok in Hrun as [-> ->].
    set (l := e_readdir E (h_tick hs) (children path (h_fs hs))) in *. bool_hyps.
    assert (Hall : take (Z.to_nat (maxStateEntries + 1)) l = l).
    { apply take_ge. rewrite length_take in Hlen. unfold maxStateEntries in *. lia. }
    rewrite Hall in Hloop.
    apply (seal_directory recovery _ path st l _ h (ticked hs)) in Hloop; [|destruct Htaken; by split| done|exact IH|apply Hdirs].
    destruct Hloop; by split.
  - h_ok1 Hrun. apply h_ret_ok in Hrun as [-> ->]. unfold acceptable in Hacc. rewrite Ed in Hacc. simpl in Hacc. bool_hyps.
    by eapply seal_file.
Qed.

(** ** The roots are apart *)

Definition apart (dirs : list string) : Prop :=
  NoDup dirs /\ forall d d', d ∈ dirs -> d' ∈ dirs -> d <> d' -> under d d' = false.

Lemma under_comparable p p' q : under p q = true -> under p' q = true -> under p p' = true \/ under p' p = true.
Proof.
  intros (t & Hq & Ht)%under_chars (t' & Hq' & Ht')%under_chars. rewrite Hq in Hq'.
  assert (Hup : forall a b k, chars b = (chars a ++ sep :: k)%list -> under a b = true).
  { intros a b k Hb. apply under_spec. right. exists (of_chars k). apply chars_inj. by rewrite chars_child, chars_of_chars. }
  apply app_eq_inv in Hq' as [(k & Hp & Hk)|(k & Hp & Hk)]; destruct k as [|x k];
    try (rewrite app_nil_r in Hp; apply chars_inj in Hp as ->; left; apply under_refl).
  - right. destruct Ht' as [->|[s' ->]]; [done|]. injection Hk as <- _. by eapply Hup.
  - left. destruct Ht as [->|[s' ->]]; [done|]. injection Hk as <- _. by eapply Hup.
Qed.
Lemma apart_disjoint dirs d d' q :
  apart dirs -> d ∈ dirs -> d' ∈ dirs -> under d q = true -> under d' q = true -> d = d'.
Proof.
  intros [_ Ha] Hd Hd' Hq Hq'. destruct (decide (d = d')) as [|Hne]; [done|].
  destruct (under_comparable d d' q Hq Hq') as [Hu|Hu]; rewrite Ha in Hu by (done || by intros ->); done.
Qed.

Lemma find_root_spec d dirs found r :
  find_root d dirs found = Some r ->
  (forall x, x ∈ dirs -> x <> d -> under d x = false /\ under x d = false) /\ (r = false -> d ∉ dirs).
Proof.
  revert found. induction dirs as [|x dirs IH]; intros found Hr; simpl in Hr; [split; [set_solver|set_solver]|].
  destruct (String.eqb_spec d x) as [->|Hne].
  { destruct (IH _ Hr) as [H1 H2]. split; [intros y [->|Hy]%elem_of_cons Hn; [done|by apply H1]|].
    intros ->. exfalso. clear -Hr. induction dirs as [|y dirs IH]; simpl in Hr; [done|].
    destruct (x =? y)%string; [done|]. destruct (_ || _); [done|]. by apply IH. }
  destruct (has_prefix d (x ++ "/") || has_prefix x (d ++ "/")) eqn:Ep; [done|]. apply orb_false_iff in Ep as [Ep1 Ep2].
  destruct (IH _ Hr) as [H1 H2]. split.
  - intros y [->|Hy]%elem_of_cons Hn; [|by apply H1]. unfold under. rewrite Ep1, Ep2.
    apply String.eqb_neq in Hne. rewrite Hne. rewrite String.eqb_sym in Hne. by rewrite Hne.
  - intros ->. specialize (H2 eq_refl). set_solver.
Qed.

Lemma add_root_ok dirs p h out h' :
  apart dirs -> add_root E dirs p h = (Ok out, h') -> apart out /\ h_fs h' = h_fs h /\ h_ino h' = h_ino h.
Proof.
  intros [Hnd Ha] Hr. unfold add_root in Hr. h_ok1 Hr. apply require_ok in H as [_ ->].
  h_ok1 Hr. apply require_ok in H as [_ ->]. destruct (find_root (dir p) dirs false) as [[]|] eqn:Ef; [|  |done].
  { by apply h_ret_ok in Hr as [-> ->]. }
  h_ok1 Hr. apply trusted_ok in H as [_ ->]. apply h_ret_ok in Hr as [-> ->]. split; [|done].
  apply find_root_spec in Ef as [H1 H2]. specialize (H2 eq_refl). split.
  - apply NoDup_app. split_and!; [done|set_solver|apply NoDup_singleton].
  - intros d d' Hd Hd' Hne. rewrite elem_of_app, list_elem_of_singleton in Hd, Hd'. destruct Hd as [Hd|Hd], Hd' as [Hd'|Hd']; subst.
    + by apply Ha.
    + by apply H1.
    + apply H1; [done|]. by intros ->.
    + done.
Qed.
Lemma stateDirectories_ok m h dirs h' :
  stateDirectories E m h = (Ok dirs, h') -> apart dirs /\ h_fs h' = h_fs h /\ h_ino h' = h_ino h.
Proof.
  unfold stateDirectories. set (ps := [mf_CredentialsFile m; _; _; _]). clearbody ps.
  assert (Hn : apart []) by (split; [constructor|set_solver]). revert Hn h. generalize (@nil string) as acc.
  induction ps as [|p ps IH]; intros acc Hacc h Hr; cbn [h_fold] in Hr.
  - by apply h_ret_ok in Hr as [-> ->].
  - h_ok1 Hr. apply add_root_ok in H as (H1 & H2 & H3); [|done].
    destruct (IH _ H1 _ Hr) as (? & ? & ?). split_and!; [done|congruence|congruence].
Qed.

Lemma fence_roots owner recovery dirs b h b' h' :
  apart dirs -> (forall d, d ∈ dirs -> tree d (h_fs h) /\ under d jf = false) ->
  h_fold (fence_root E jdir owner recovery) dirs b h = (Ok b', h') ->
  sealed_run recovery (fun q => exists d, d ∈ dirs /\ under d q = true) h h'.
Proof.
  intros Hap Htree Hr. apply (fold_seals recovery _ (fun d => d)) in Hr; [done| |apply Hap|by intros; eapply apart_disjoint|done].
  clear Hap Htree Hr. intros d b1 h1 b2 h2 Hr Htd Hnj. unfold fence_root in Hr.
  h_ok1 Hr. apply lstat_ok in H as [Hst ->]. h_ok1 Hr. apply require_ok in H as [_ ->].
  apply (seal_seals max_depth recovery owner (n_dev a) d) in Hr as [H1 H2 H3 H4]; [by split|done|done].
Qed.

(** ** Giving back *)

Definition give (e : ownership) (n : HNode) : HNode := with_perm (w_Mode e) (with_owner_of (w_UID e) (w_GID e) n).
Fixpoint given (l : list ownership) (m : hfs) : hfs :=
  match l with
  | [] => m
  | e :: l => given l (alter (give e) (w_Path e) m)
  end.

Lemma change_all_ok l h a h' :
  h_iter (change_one E None) l h = (Ok a, h') -> h_fs h' = given l (h_fs h).
Proof.
  unfold h_iter. generalize tt as u. revert h. induction l as [|e l IH]; intros h u Hr; cbn [h_fold] in Hr.
  { by apply h_ret_ok in Hr as [_ ->]. }
  h_ok1 Hr. simpl. rewrite (IH _ _ Hr). f_equal. unfold change_one in H. h_ok1 H. apply h_try_ok in H0.
  unfold h_lstat, read_fs, sys, lookup_node in H0. destruct (e_fault E (h_tick h)); [injection H0 as <- <-; discriminate H|].
  simpl in H0. destruct (h_fs h !! w_Path e) as [n|] eqn:El; injection H0 as <- <-.
  - h_ok1 H. apply require_ok in H0 as [_ ->]. h_ok1 H. apply update_ok in H0 as (n1 & Hl1 & ->). simpl in Hl1. rewrite El in Hl1. injection Hl1 as <-.
    apply update_ok in H as (n1 & Hl1 & ->). cbn [h_fs put_fs ticked] in *. rewrite lookup_insert_eq in Hl1. injection Hl1 as <-.
    rewrite insert_insert_eq. apply map_eq. intros q. destruct (decide (q = w_Path e)) as [->|Hne].
    + by rewrite lookup_insert_eq, lookup_alter_eq, El.
    + by rewrite lookup_insert_ne, lookup_alter_ne.
  - apply h_ret_ok in H as [_ ->]. simpl. symmetry. apply map_eq. intros q.
    destruct (decide (q = w_Path e)) as [->|Hne]; [by rewrite lookup_alter_eq, El|by rewrite lookup_alter_ne].
Qed.

Lemma given_lookup l m q :
  NoDup (w_Path <$> l) ->
  given l m !! q = match List.find (fun e => (w_Path e =? q)%string) l with
                   | Some e => give e <$> m !! q
                   | None => m !! q
                   end.
Proof.
  revert m. induction l as [|e l IH]; intros m Hnd; simpl; [done|]. apply NoDup_cons in Hnd as [Hn Hnd].
  rewrite IH by done. destruct (String.eqb_spec (w_Path e) q) as [<-|Hne].
  - destruct (List.find _ l) as [e'|] eqn:Ef; [|by rewrite lookup_alter_eq].
    apply List.find_some in Ef as [Hin Hp%String.eqb_eq]. exfalso. apply Hn. rewrite <- Hp. apply list_elem_of_fmap_2. by apply list_elem_of_In.
  - by rewrite lookup_alter_ne.
Qed.

(** The same file, on whatever inode. *)
Definition same_file (n n' : HNode) : Prop :=
  n_kind n' = n_kind n /\ n_mode n' = n_mode n /\ n_uid n' = n_uid n /\ n_gid n' = n_gid n /\ n_data n' = n_data n.

(** What the journal recorded of a region taken over gives it all back. *)
Lemma given_back R h h' l q n :
  sealed_run false R h h' -> j_Ownership (h_j h) = [] -> l ≡ₚ j_Ownership (h_j h') -> R q -> h_fs h !! q = Some n ->
  exists n', given l (h_fs h') !! q = Some n' /\ same_file n n'.
Proof.
  intros [In Off _ (new & Hj & Hrec & Hnd & Hall)] H0 Hl Hq Hn. unfold captured in *. rewrite H0 in Hj, Hnd.
  assert (Hnew : j_Ownership (h_j h') = new) by (by rewrite Hj).
  assert (Hndl : NoDup (w_Path <$> l)) by (rewrite Hl; apply Hnd; constructor).
  specialize (Hall q Hq ltac:(by exists n)). rewrite given_lookup by done.
  specialize (In q Hq). rewrite Hn in In. simpl in In. destruct (h_fs h' !! q) as [n'|] eqn:En'; [|done].
  destruct (List.find (fun e => (w_Path e =? q)%string) l) as [e|] eqn:Ef.
  - apply List.find_some in Ef as [Hin Hp%String.eqb_eq]. apply list_elem_of_In in Hin.
    rewrite Hl, Hnew in Hin. rewrite Forall_forall in Hrec. destruct (Hrec e Hin) as [_ (n0 & Hn0 & He)].
    rewrite Hp, Hn in Hn0. injection Hn0 as <-. rewrite Hp in He. exists (give e n'). split; [done|].
    rewrite He. unfold sealed_of in In. unfold same_file. destruct (is_dir n) eqn:Ed.
    + by rewrite In.
    + destruct In as (Hr & Hk & _ & _ & _ & _ & Hd). split_and!; try done. simpl. unfold is_reg in Hr. bool_hyps. congruence.
  - exfalso. apply list_elem_of_fmap in Hall as (e & He & Hin). rewrite <- Hl in Hin.
    apply list_elem_of_In, (List.find_none _ _ Ef e) in Hin. by rewrite He, String.eqb_refl in Hin.
Qed.

Lemma restoreStateOwnership_plain dirs h a h' :
  j_RecoveryOwnership (h_j h) = [] ->
  restoreStateOwnership E dirs h = (Ok a, h') -> h_fs h' = given (rev (j_Ownership (h_j h))) (h_fs h).
Proof.
  intros Hr Hrun. unfold restoreStateOwnership in Hrun. h_ok1 Hrun. apply get_j_ok in H as [-> ->].
  rewrite Hr in Hrun. cbn [h_fold] in Hrun. h_ok1 Hrun. apply h_ret_ok in H as [-> ->].
  by apply change_all_ok in Hrun.
Qed.

(** ** The fence *)

(** The roots, as [stateDirectories] returns them, are trees that do not
    contain the journal. *)
Definition fenceable (dirs : list string) (m : hfs) : Prop :=
  forall d, d ∈ dirs -> tree d m /\ under d jf = false.

Lemma fence_run dirs owner recovery h a h' :
  apart dirs -> fenceable dirs (h_fs h) ->
  recovery && (j_FenceStage (h_j h) =? "sealing")%string = false ->
  fenceStateDirectories E jdir dirs owner recovery h = (Ok a, h') ->
  exists h1, sealed_run recovery (fun q => exists d, d ∈ dirs /\ under d q = true) h1 h' /\
    (forall q, q <> jf -> h_fs h1 !! q = h_fs h !! q) /\ h_ino h <= h_ino h1 /\
    h_j h1 = (if recovery then h_j h else set_FenceStage "sealing" (h_j h)).
Proof.
  intros Hap Hf Hs Hrun. unfold fenceStateDirectories in Hrun. h_ok1 Hrun. apply get_j_ok in H as [-> ->]. rewrite Hs in Hrun.
  h_ok1 Hrun. h_ok1 Hrun. apply h_ret_ok in Hrun as [_ ->].
  assert (Hpre : (forall q, q <> jf -> h_fs h1 !! q = h_fs h !! q) /\ h_ino h <= h_ino h1 /\
    h_j h1 = (if recovery then h_j h else set_FenceStage "sealing" (h_j h))).
  { destruct recovery; [apply h_ret_ok in H as [_ ->]; split_and!; [done|lia|done]|].
    h_ok1 H. apply set_j_ok in H1 as ->. apply journal_save_ok in H as (n & Hfs & Hi & Hj & _). cbn [h_fs h_ino h_j] in *.
    split_and!; [|lia|done]. intros q Hq. by rewrite Hfs, lookup_insert_ne. }
  destruct Hpre as (Hfs & Hi & Hj). exists h1. split_and!; try done.
  apply (fence_roots owner recovery dirs) in H0; [done|done|].
  intros d Hd. destruct (Hf d Hd) as [Ht Hnj]. split; [|done]. apply (tree_ext _ (h_fs h)); [|done].
  intros q Hq. apply Hfs. by intros ->; congruence.
Qed.

(** A fence that succeeds takes the state over completely: every node
    below a state root is root's and closed to others, every regular file is on
    an inode created during the fence with the contents it had, so that no
    descriptor opened before reaches it; nothing appears or disappears. *)
Theorem fence_takes_over m h0 h dirs owner recovery a h' d q :
  stateDirectories E m h0 = (Ok dirs, h) -> fenceable dirs (h_fs h) ->
  recovery && (j_FenceStage (h_j h) =? "sealing")%string = false ->
  fenceStateDirectories E jdir dirs owner recovery h = (Ok a, h') -> d ∈ dirs -> under d q = true ->
  (is_Some (h_fs h' !! q) <-> is_Some (h_fs h !! q)) /\
  forall n', h_fs h' !! q = Some n' ->
    n_uid n' = 0 /\ n_gid n' = 0 /\
    (n_kind n' = KDir /\ n_mode n' = 448 \/ n_kind n' = KReg /\ n_mode n' = 384 /\ h_ino h <= n_ino n') /\
    exists n, h_fs h !! q = Some n /\ n_data n' = n_data n.
Proof.
  intros Hsd Hf Hs Hrun Hd Hq. apply stateDirectories_ok in Hsd as (Hap & _ & _).
  apply fence_run in Hrun as (h1 & [In _ _ _] & Hfs & Hi & _); [|done..].
  assert (Hqj : q <> jf) by (intros ->; by rewrite (proj2 (Hf d Hd)) in Hq).
  specialize (In q ltac:(by exists d)). rewrite Hfs in In by done.
  destruct (h_fs h !! q) as [n|], (h_fs h' !! q) as [n'|]; simpl in In; try done.
  split; [by split|]. intros n2 [= <-]. unfold sealed_of in In. destruct (is_dir n) eqn:Ed.
  - rewrite In. simpl. unfold is_dir in Ed. bool_hyps. split_and!; auto. by exists n.
  - destruct In as (_ & Hk & Hm & Hu & Hg & Hino & Hdt). split_and!; auto; [right; split_and!; auto; lia|]. by exists n.
Qed.

(** C10: fencing the state and restoring its ownership, as the recovery of a
    transaction interrupted before any profile was published does, leaves every
    file and directory below the state roots with the type, contents, mode and
    owner it had. *)
Theorem fence_restore_roundtrip m h0 h dirs owner a h1 a' h2 d q n :
  stateDirectories E m h0 = (Ok dirs, h) -> fenceable dirs (h_fs h) ->
  j_Ownership (h_j h) = [] -> j_RecoveryOwnership (h_j h) = [] ->
  fenceStateDirectories E jdir dirs owner false h = (Ok a, h1) ->
  restoreStateOwnership E dirs h1 = (Ok a', h2) ->
  d ∈ dirs -> under d q = true -> h_fs h !! q = Some n ->
  exists n', h_fs h2 !! q = Some n' /\ same_file n n'.
Proof.
  intros Hsd Hf Ho Hro Hrun Hrest Hd Hq Hn. apply stateDirectories_ok in Hsd as (Hap & _ & _).
  apply fence_run in Hrun as (hs & Hseal & Hfs & Hi & Hj); [|done..].
  apply restoreStateOwnership_plain in Hrest.
  - rewrite Hrest. eapply (given_back _ hs h1); [exact Hseal|by rewrite Hj|symmetry; apply Permutation_rev|by exists d|].
    rewrite Hfs; [done|]. intros ->. by rewrite (proj2 (Hf d Hd)) in Hq.
  - destruct Hseal as [_ _ _ (new & Hjn & _)]. rewrite Hjn, Hj. done.
Qed.
End SealTheorems.
