(* ===== verification/HostPanel.v ===== *)
(** * Who the host tool talks to, and as whom ([internal/hostcmd/panel.go],
    [trust_linux.go], [auth_linux.go], [lock_linux.go])

    The administrator's manifest, policy and pinned trust, read from root-owned
    files; the panel, reached with the enrolled credentials once they match the
    pinned identity; the local PAM authentication; the lock that makes host
    operations exclusive. *)

From S2P Require Import Prelude.
From S2P Require Import GoStd.
From S2P Require Import GoPath.
From S2P Require Import External.
From S2P Require Import Credentials.
From S2P Require Import Replay.
From S2P Require Import Signing.
From S2P Require Import Privileged.
From S2P Require Import HostOps.
From S2P Require Import RuntimeConfig.
From S2P Require Import Effective.
From S2P Require Import Systemd.
From S2P Require Import HostFs.
From S2P Require Import HostService.
From S2P Require Import HostPolicy.
From S2P Require Import HostBootstrap.

Local Open Scope string_scope.
Local Open Scope Z_scope.
Local Open Scope host_scope.

Definition Registry : string := "/etc/komari/services".

Section Files.
Context (E : Env).
Context `{StrictJson Manifest} `{StrictJson Policy} `{StrictJson Trust} `{StrictJson AccessConfig}.
Variable parse_url : string -> option Url.

(** A symbolic link fails here; the source follows it and fails in the trust
    check that every accepted manifest goes through. *)
Definition h_ReadManifest (path : string) : HM Manifest :=
  let! n := h_open_nofollow E path in
  require (is_reg n && (slen (n_data n) <=? maximum_metadata)) (EHost BadMetadata) ;;;
  let! m := match decode_strict (n_data n) with
            | Some (m, rest) => if at_eof rest then h_ret m else h_err (EHost TrailingContent)
            | None => h_err (EHost BadMetadata)
            end in
  (if ManifestVersion <=? mf_Version m then h_trusted E path else h_ret tt) ;;;
  let at_ := resolve_path (dir path) in
  h_ret (mkManifest (mf_Version m) (mf_ServiceName m) (mf_ServiceUser m) (mf_InitSystem m)
           (at_ (mf_Executable m)) (at_ (mf_HostTool m)) (at_ (mf_HostPolicyFile m)) (at_ (mf_ConfigFile m))
           (at_ (mf_CredentialsFile m)) (at_ (mf_RuntimeStateFile m)) (at_ (mf_PrivilegedStateFile m))
           (at_ (mf_ReplayStateFile m)) path).
Definition h_ReadPolicy (m : Manifest) : HM Policy :=
  require ((mf_Version m =? ManifestVersion) && negb (mf_HostPolicyFile m =? "")%string) EPolicy ;;;
  let! p := h_read_json E (mf_HostPolicyFile m) in
  require ((po_Version p =? ManifestVersion) && (po_ServiceID p =? mf_ServiceName m)%string) EPolicy ;;;
  h_ret p.
Definition h_ReadTrust (m : Manifest) : HM Trust :=
  let! t := h_read_json E (TrustPath m) in
  match Validate parse_url t with
  | Err e => h_err (EHost e)
  | Ok _ => require (tr_ServiceID t =? mf_ServiceName m)%string (EHost TrustService) ;;; h_ret t
  end.
Definition h_ReadAccess (t : Trust) : HM AccessConfig :=
  if (tr_AccessConfigFile t =? "")%string then h_ret (mkAccess "" "") else
  require (is_abs (tr_AccessConfigFile t)) (EHost AccessRelative) ;;;
  let! a := h_read_json E (tr_AccessConfigFile t) in
  require (negb ((acc_ClientID a =? "")%string || (acc_ClientSecret a =? "")%string)) (EHost AccessIncomplete) ;;;
  h_ret a.

Definition resolveManifest (path : string) : HM Manifest :=
  let! path := (if (path =? "")%string
                then let! exe := h_lift (e_self E) EManifest in h_ret (join_path [dir exe; "service-config.json"])
                else h_ret path) in
  let! m := h_ReadManifest path in
  require ((mf_Version m =? 2) && (mf_InitSystem m =? "systemd")%string && ValidService (mf_ServiceName m) &&
           negb (has_suffix (mf_ServiceName m) ".service")) EManifest ;;;
  h_iter (h_trusted E) [mf_Executable m; mf_HostTool m; mf_ManifestPath m; mf_HostPolicyFile m] ;;;
  h_ret m.

(** ** Local authentication *)

Definition pamProfile : string :=
  of_chars (chars "# Komari host: fresh local password and account validity" ++ byte_of 10 ::
            chars "auth required pam_unix.so" ++ byte_of 10 :: chars "account required pam_unix.so" ++ [byte_of 10])%list.
Definition pamPath : string := "/etc/pam.d/komari-host".
Definition installPAM : HM unit :=
  h_trusted E "/etc/pam.d" ;;;
  let! b := h_try (h_read E pamPath) in
  match b with
  | Ok b => require (b =? pamProfile)%string EPamProfile ;;; h_trusted E pamPath
  | Err ENotExist => AtomicWrite E pamPath pamProfile 420
  | Err e => h_err e
  end.
Definition authenticationReady : HM unit :=
  h_trusted E "/usr/bin/pamtester" ;;;
  h_trusted E pamPath ;;;
  let! b := h_read E pamPath in
  require (b =? pamProfile)%string EPamProfile.
(** What the daemon reports of the host tool: everything an application needs
    is in place. *)
Definition HostActionsReady (m : Manifest) : HM bool :=
  if negb (mf_InitSystem m =? "systemd")%string then h_ret false
  else
    let! r := h_try (let! _ := h_ReadTrust m in
                     h_trusted E (mf_HostTool m) ;;; h_trusted E "/usr/bin/pamtester" ;;; h_trusted E pamPath ;;;
                     h_read E pamPath) in
    h_ret (match r with Ok b => (b =? pamProfile)%string | Err _ => false end).
(** The account the password of which is asked: root, or the caller of sudo. *)
Definition authenticate : HM string :=
  authenticationReady ;;;
  let sudo := e_env E "SUDO_USER" in
  let! account := (if (sudo =? "")%string then h_ret "root" else
                   require (match e_user E sudo with Some (uid, _) => (uid =? e_env E "SUDO_UID")%string | None => false end) EAuthentication ;;;
                   h_ret sudo) in
  require (ValidService account) EAuthentication ;;;
  require (match e_user E account with Some (uid, _) => match atoi uid with Some _ => true | None => false end | None => false end)
    EAuthentication ;;;
  nop E ;;;
  fun h => if e_pam E (h_tick h) account then (Ok account, ticked h) else (Err EAuthentication, ticked h).

(** ** The lock *)

Definition lock_path : string := "/var/lib/komari-host/.operations.lock".
(** The advisory lock is one more call that may fail; it is released when the
    process ends. *)
Definition acquireHostLock : HM unit :=
  ensureTrustedDir E "/var/lib/komari-host" ;;;
  let! st := h_try (h_lstat E lock_path) in
  match st with
  | Ok n => require (negb (is_link n)) ELoop
  | Err ENotExist => h_create_excl E lock_path 384
  | Err e => h_err e
  end ;;;
  h_trusted E lock_path ;;;
  nop E.

(** ** Pinning the trust ([komari-host trust]) *)

Record TrustArgs := mkTrustArgs {
  ta_endpoint : string; ta_agent : string; ta_key : string; ta_kid : string; ta_rkey : string; ta_rkid : string;
  ta_account : string; ta_helper : bool; ta_denyHelper : bool; ta_access : string }.
Definition trim_right_slashes (s : string) : string :=
  of_chars (rev ((fix go (l : list ascii) := match l with a :: r => if Ascii.eqb a sep then go r else l | [] => [] end) (rev (chars s)))).
Definition trust_of (a : TrustArgs) (m : Manifest) (account : string) : Trust :=
  mkTrust 2 (ta_agent a) (trim_right_slashes (ta_endpoint a)) (mf_ServiceName m) account
    [mkPinnedKey 1 (ta_key a) (ta_kid a) zero_time None]
    (if (ta_rkey a =? "")%string && (ta_rkid a =? "")%string then [] else [mkPinnedKey 1 (ta_rkey a) (ta_rkid a) zero_time None])
    (ta_access a).
Definition trust `{Json Policy} `{Json Trust} (root : bool) (manifest : string) (a : TrustArgs) : HM unit :=
  require (negb (ta_helper a && ta_denyHelper a)) EManifest ;;;
  require root EUntrusted ;;;
  acquireHostLock ;;;
  let! m := resolveManifest manifest in
  let account := if (ta_account a =? "")%string then mf_ServiceUser m else ta_account a in
  let! u := h_lift (e_user E account) EUserUnknown in
  require (negb (fst u =? "0")%string) ERootAccount ;;;
  let t := trust_of a m account in
  let! _ := h_ReadAccess t in
  match Validate parse_url t with Err e => h_err (EHost e) | Ok _ => h_ret tt end ;;;
  let! st := h_try (h_lstat E (TrustPath m)) in
  match st with Err ENotExist => h_ret tt | _ => h_err ETrustExists end ;;;
  installPAM ;;;
  let! p := h_ReadPolicy m in
  WriteJSON E (mf_HostPolicyFile m) (with_rescue_ceilings (ta_helper a) (ta_denyHelper a) p) 420 ;;;
  WriteJSON E (TrustPath m) t 420.
End Files.

(** ** The panel *)

(** What the panel answers, call by call: [None] and [Err] are failed calls,
    [Err true] the answer that there is no such operation. *)
Record Panel := mkPanel {
  pn_prepare : nat -> option (option HostOperation);
  pn_report : nat -> option bool;
  pn_get : nat -> result (option HostOperation) bool;
  pn_delivery : nat -> option (option PrivilegedRevision);
}.

Section Panel.
Context (E : Env) (N : Panel).
Context `{Crypto} `{ProtoTime} `{Wire SignedInstruction} `{Json (option entries)} `{Wire PrivilegedRevision} `{Wire HostOperation}.
Context `{StrictJson AccessConfig} `{Json Identity}.
Variable iter : entries -> list (string * time).

(** The client: the pinned trust and the token it authenticates with. *)
Record panel := mkClient { pl_trust : Trust; pl_token : string; pl_access : AccessConfig }.
Definition newPanel (m : Manifest) (t : Trust) : HM panel :=
  let! a := h_ReadAccess E t in
  let! b := ReadCandidate E (mf_CredentialsFile m) in
  let! id := h_lift (json_unmarshal b) EPanel in
  require (negb (negb (id_AgentID id =? tr_AgentID t)%string || negb (id_Endpoint id =? tr_Endpoint t)%string || (id_AccessToken id =? "")%string)) EPanel ;;;
  h_ret (mkClient t (id_AccessToken id) a).

Definition ask {A} (f : nat -> A) : HM A := fun h => (Ok (f (h_tick h)), ticked h).
Definition verify_now (r : result unit host_err) : HM unit := match r with Ok _ => h_ret tt | Err e => h_err (EHost e) end.

Definition panel_current (p : panel) : HM PrivilegedRevision :=
  let! r := ask (pn_delivery N) in
  let! r := h_lift r EPanel in
  let! t0 := now E in let! t1 := now E in let! t2 := now E in
  verify_now (VerifyRevision iter (pl_trust p) t0 t1 t2 r) ;;;
  h_lift r EPanel.
Definition panel_get (id : string) : HM (option HostOperation) :=
  let! r := ask (pn_get N) in
  match r with
  | Ok op => h_ret op
  | Err true => h_err EPanelNotFound
  | Err false => h_err EPanel
  end.
Definition check_operation (p : panel) (op : option HostOperation) (a : option HostAuthorization) (id : string) : HM unit :=
  let! t0 := now E in let! t1 := now E in
  verify_now (VerifyOperation iter (pl_trust p) t0 t1 op a id).
Definition phase_of (op : option HostOperation) : Z := match op with Some o => ho_phase o | None => 0 end.
End Panel.
