(* ===== verification/HostFetch.v ===== *)
(** * Getting the rescue helper ([internal/hostcmd/fetch_linux.go], [platform_linux.go])

    A privileged install never resolves "latest": it takes an administrator's
    file, the root-owned cache or the publisher's release of one exact tag, and
    in each case the publisher's signature on the digest of the binary. *)

From S2P Require Import Prelude.
From S2P Require Import GoStd.
From S2P Require Import GoPath.
From S2P Require Import External.
From S2P Require Import Credentials.
From S2P Require Import Signing.
From S2P Require Import Privileged.
From S2P Require Import HostOps.
From S2P Require Import HostFs.
From S2P Require Import HostPanel.

Local Open Scope string_scope.
Local Open Scope Z_scope.
Local Open Scope host_scope.

Definition tag_char (a : ascii) : bool :=
  let n := code a in
  (Nat.leb 97 n && Nat.leb n 122) || (Nat.leb 65 n && Nat.leb n 90) || (Nat.leb 48 n && Nat.leb n 57) ||
  Nat.eqb n 46 || Nat.eqb n 95 || Nat.eqb n 45 || Nat.eqb n 43.
Definition validateReleaseTag (version : string) : bool :=
  negb ((version =? "")%string || (100 <? slen version) || contains version "..") &&
  forallb tag_char (chars version) &&
  negb ((version =? "latest")%string || (version =? ".")%string).

(** [CheckRedirect] of the release client. *)
Definition publisher_hosts : list string := ["github.com"; "release-assets.githubusercontent.com"; "objects.githubusercontent.com"].
Definition redirect_allowed (via : Z) (scheme : string) (has_user : bool) (port hostname : string) : bool :=
  negb ((5 <? via) || negb (scheme =? "https")%string || has_user || (negb (port =? "")%string && negb (port =? "443")%string)) &&
  existsb (String.eqb hostname) publisher_hosts.

Definition elf_magic : string := String (byte_of 127) "ELF".
Definition helper_limit : Z := 268435456.     (* 256 << 20 *)

(** [strings.EqualFold] of two ASCII strings. *)
Definition lower (a : ascii) : ascii := let n := code a in if Nat.leb 65 n && Nat.leb n 90 then byte_of (n + 32) else a.
Definition equal_fold (a b : string) : bool := bool_decide (map lower (chars a) = map lower (chars b)).

Section Fetch.
Context (E : Env).
(** An HTTP answer: status, declared length, body. *)
Variable http : nat -> string -> option (Z * Z * bytes).
Variables goos goarch : string.
Context `{Crypto} `{Json ReleasePayload} `{Json ReleaseManifest} `{StrictJson ReleaseManifest}.
Context `{StrictJson Manifest} `{StrictJson Trust}.
Variable parse_url : string -> option Url.

Definition download (url : string) (limit : Z) : HM bytes :=
  let! r := (fun h => (Ok (http (h_tick h) url), ticked h)) in
  match r with
  | None => h_err EDownload
  | Some (status, length, body) =>
      require ((status =? 200) && (length <=? limit)) EDownload ;;;
      require (slen body <=? limit) EDownload ;;;
      h_ret body
  end.
Definition release_error (e : host_err) : cmd_err := EHost e.
Definition verify_release (t : Trust) (signed : ReleaseManifest) (binary : bytes) : HM ReleasePayload :=
  let! t0 := now E in
  match VerifyRelease goos goarch t t0 signed binary with Ok p => h_ret p | Err e => h_err (release_error e) end.

Definition release_url (version : string) : string :=
  "https://github.com/r11234567/komari-agent/releases/download/" ++ version ++ "/komari-agent-rescue-" ++ goos ++ "-" ++ goarch.
Definition downloadHelper (t : Trust) (version : string) : HM (bytes * ReleaseManifest * ReleasePayload) :=
  require (validateReleaseTag version) EReleaseTag ;;;
  require (negb (Nat.eqb (length (tr_ReleaseKeys t)) 0)) EReleaseKey ;;;
  let! metadata := download (release_url version ++ ".release.json") 1048576 in
  let! signed := h_lift (json_unmarshal metadata) EDownload in
  let! binary := download (release_url version) helper_limit in
  let! payload := verify_release t signed binary in
  require (rp_Version payload =? version)%string EDownload ;;;
  require (has_prefix binary elf_magic) EDownload ;;;
  h_ret (binary, signed, payload).

Definition helperCache (m : Manifest) : string := join_path ["/var/cache/komari"; mf_ServiceName m; "komari-agent-rescue"].
Definition cacheHelper (m : Manifest) (t : Trust) (version : string) : HM (bytes * ReleasePayload) :=
  let! (binary, signed, payload) := downloadHelper t version in
  let path := helperCache m in
  ensureTrustedDir E (dir path) ;;;
  AtomicWrite E path binary 384 ;;;
  WriteJSON E (path ++ ".release.json") signed 420 ;;;
  h_ret (binary, payload).

Definition readHelper (t : Trust) (artifact release : string) : HM (bytes * ReleasePayload) :=
  let! signed := h_read_json E release in
  h_trusted E artifact ;;;
  let! st := h_lstat E artifact in
  require (is_reg st && (slen (n_data st) <=? helper_limit)) EHelperArtifact ;;;
  let! binary := h_read E artifact in
  let! payload := verify_release t signed binary in
  require (has_prefix binary elf_magic) EHelperArtifact ;;;
  h_ret (binary, payload).

Definition prepareHelper (m : Manifest) (t : Trust) (artifact release version : string) : HM (bytes * string) :=
  if negb (artifact =? "")%string then
    let! (binary, payload) := readHelper t artifact release in h_ret (binary, rp_Version payload)
  else
    require (validateReleaseTag version) EReleaseTag ;;;
    let path := helperCache m in
    let! cached := h_try (readHelper t path (path ++ ".release.json")) in
    match cached with
    | Ok (binary, payload) =>
        if (rp_Version payload =? version)%string then h_ret (binary, rp_Version payload)
        else let! (binary, payload) := cacheHelper m t version in h_ret (binary, rp_Version payload)
    | Err ENotExist => let! (binary, payload) := cacheHelper m t version in h_ret (binary, rp_Version payload)
    | Err e => h_err e
    end.

(** [verifiedArtifact]: a root-owned ELF with the digest the administrator
    gives. *)
Definition verifiedArtifact (path want : string) : HM bytes :=
  require (slen want =? 64) EHelperArtifact ;;;
  h_trusted E path ;;;
  let! st := h_lstat E path in
  require (is_reg st && (slen (n_data st) <=? helper_limit)) EHelperArtifact ;;;
  let! b := h_read E path in
  require (equal_fold want (hex_encode (sha256 b))) EHelperArtifact ;;;
  require (has_prefix b elf_magic) EHelperArtifact ;;;
  h_ret b.

(** [komari-host fetch-helper]: the cache alone is written. *)
Definition fetchHelper (root : bool) (manifest version : string) : HM ReleasePayload :=
  require (validateReleaseTag version) EReleaseTag ;;;
  require root EUntrusted ;;;
  acquireHostLock E ;;;
  let! m := resolveManifest E manifest in
  let! t := h_ReadTrust E parse_url m in
  let! (_, payload) := cacheHelper m t version in
  nop E ;;; h_ret payload.
End Fetch.

(** ** Theorems *)

(** An accepted release tag names one directory of the publisher's
    releases: it is not empty, has at most 100 bytes, is not [latest], and
    contains neither a slash nor a parent step. *)
Lemma validateReleaseTag_ok v :
  validateReleaseTag v = true -> v <> "" /\ slen v <= 100 /\ v <> "latest" /\ sep ∉ chars v /\ contains v ".." = false.
Proof.
  unfold validateReleaseTag. intros Hv. bool_hyps. split_and!; try done.
  intros Hin. rewrite forallb_In in H2. by specialize (H2 sep Hin).
Qed.

Section FetchTheorems.
Context (E : Env) (http : nat -> string -> option (Z * Z * bytes)) (goos goarch : string).
Context `{CR : Crypto} `{JP : Json ReleasePayload} `{JM : Json ReleaseManifest} `{SM : StrictJson ReleaseManifest}.

(** A binary the publisher signed for this platform. *)
Definition publisher_signed (t : Trust) (binary : bytes) (payload : ReleasePayload) : Prop :=
  exists signed at_, VerifyRelease goos goarch t at_ signed binary = Ok payload /\ has_prefix binary elf_magic = true.

Lemma verify_release_ok t signed binary h p h' :
  verify_release E goos goarch t signed binary h = (Ok p, h') ->
  VerifyRelease goos goarch t (e_now E (h_tick h)) signed binary = Ok p.
Proof.
  intros Hr. unfold verify_release in Hr. h_ok1 Hr. injection H as <- <-.
  destruct (VerifyRelease _ _ _ _ _ _) as [q|e]; [by apply h_ret_ok in Hr as [-> _]|done].
Qed.
Lemma readHelper_ok t artifact release h b p h' :
  readHelper E goos goarch t artifact release h = (Ok (b, p), h') -> publisher_signed t b p.
Proof.
  intros Hr. unfold readHelper in Hr. h_ok1 Hr. clear H. h_ok1 Hr. clear H. h_ok1 Hr. clear H. h_ok1 Hr. clear H. h_ok1 Hr. clear H.
  h_ok1 Hr. apply verify_release_ok in H. h_ok1 Hr. apply require_ok in H0 as [He ->]. apply h_ret_ok in Hr as [[= -> ->] _].
  eexists _, _. by split.
Qed.
Lemma cacheHelper_ok m t version h b p h' :
  cacheHelper E http goos goarch m t version h = (Ok (b, p), h') -> publisher_signed t b p /\ rp_Version p = version.
Proof.
  intros Hr. unfold cacheHelper in Hr. h_ok1 Hr. destruct a as [[b1 s1] p1]. rename H into Hd.
  h_ok1 Hr. clear H. h_ok1 Hr. clear H. h_ok1 Hr. clear H. apply h_ret_ok in Hr as [[= -> ->] _].
  unfold downloadHelper in Hd. h_ok1 Hd. clear H. h_ok1 Hd. clear H. h_ok1 Hd. clear H. h_ok1 Hd. clear H. h_ok1 Hd. clear H.
  h_ok1 Hd. apply verify_release_ok in H. h_ok1 Hd. apply require_ok in H0 as [Hv ->]. h_ok1 Hd. apply require_ok in H0 as [He ->].
  apply h_ret_ok in Hd as [[= -> -> ->] _]. split; [|by apply String.eqb_eq]. eexists _, _. by split.
Qed.

(** Whatever the download or the cache holds, the helper the host tool
    goes on with is an ELF binary whose digest, platform and version the pinned
    publisher signed; without an administrator's file it is of exactly the
    requested release. *)
Theorem prepareHelper_verified m t artifact release version h b v h' :
  prepareHelper E http goos goarch m t artifact release version h = (Ok (b, v), h') ->
  (exists payload, publisher_signed t b payload /\ rp_Version payload = v) /\ (artifact = "" -> v = version).
Proof.
  intros Hr. unfold prepareHelper in Hr. destruct (String.eqb_spec artifact "") as [->|Hne]; cbn [negb] in Hr.
  - h_ok1 Hr. clear H.
    assert (Hcache : forall h1, (let! (binary, payload) := cacheHelper E http goos goarch m t version in
        h_ret (binary, rp_Version payload))%host h1 = (Ok (b, v), h') ->
      (exists payload, publisher_signed t b payload /\ rp_Version payload = v) /\ ("" = "" -> v = version)).
    { intros h3 Hc. h_ok1 Hc. destruct a0 as [b1 p1]. apply cacheHelper_ok in H as [Hs Hv].
      apply h_ret_ok in Hc as [[= -> ->] _]. split; [by exists p1|done]. }
    h_ok1 Hr. apply h_try_ok in H. destruct a0 as [[b1 p1]|[]]; try discriminate Hr; [|by eapply Hcache].
    apply readHelper_ok in H. destruct (String.eqb_spec (rp_Version p1) version) as [Hv|Hv]; [|by eapply Hcache].
    apply h_ret_ok in Hr as [[= -> ->] _]. split; [by exists p1|done].
  - h_ok1 Hr. destruct a as [b1 p1]. apply readHelper_ok in H. apply h_ret_ok in Hr as [[= -> ->] _]. split; [by exists p1|done].
Qed.
End FetchTheorems.
