(* ===== verification/HostTx.v ===== *)
(** * The journalled host transaction ([internal/hostcmd/transaction_linux.go])

    An approved change of the service's identity or of its rescue helper stops
    the service, fences its state, rewrites policy, bootstrap and unit, starts
    the target and reports. Every step is preceded by a save of the journal, so
    that [resume] and [restore] know, after a crash at any point, what was
    touched and what it was before. *)

From S2P Require Import Prelude.
From S2P Require Import GoStd.
From S2P Require Import GoPath.
From S2P Require Import External.
From S2P Require Import Credentials.
From S2P Require Import Replay.
From S2P Require Import Signing.
From S2P Require Import Privileged.
From S2P Require Import HostOps.
From S2P Require Import RuntimeConfig.
From S2P Require Import Effective.
From S2P Require Import Systemd.
From S2P Require Import HostFs.
From S2P Require Import HostService.
From S2P Require Import HostPolicy.
From S2P Require Import HostBootstrap.
From S2P Require Import HostSeal.
From S2P Require Import HostPanel.
From S2P Require Import HostFetch.

Local Open Scope string_scope.
Local Open Scope Z_scope.
Local Open Scope host_scope.

Definition hostJournalVersion : Z := 3.
Definition journalDir (m : Manifest) : string := join_path ["/var/lib/komari-host"; mf_ServiceName m].
Definition profilePath (m : Manifest) : string :=
  join_path ["/etc/systemd/system"; mf_ServiceName m ++ ".service.d/95-komari-host-profile.conf"].
Definition bootstrapPath (m : Manifest) : string := join_path [dir (mf_Executable m); "host-bootstrap.json"].
(** The files a transaction may touch, in the order they are backed up. *)
Definition transaction_paths (m : Manifest) : list string :=
  [profilePath m; bootstrapPath m; mf_HostPolicyFile m; AppliedPath m; helperBinary m; helperConfig m; helperUnitPath m].

Record AppliedRecord := mkApplied { ap_Version : Z; ap_Revision : bytes; ap_Operation : bytes }.
Record ActionConfig := mkActionConfig {
  ac_AgentPath : string; ac_ServiceName : string; ac_ControlPlaneURL : string; ac_IsolationStatePath : string }.
Record RescueConfig := mkRescueConfig {
  rc_Endpoint : string; rc_AgentID : string; rc_Version : string; rc_HostManifest : string; rc_CredentialsFile : string;
  rc_InstanceIDPath : string; rc_ReplayFile : string; rc_CFAccessClientID : string; rc_CFAccessClientSecret : string;
  rc_Action : ActionConfig }.
Record ReportHostOperationRequest := mkReport {
  rr_AgentId : string; rr_OperationId : string; rr_ReceiptId : string; rr_Phase : Z; rr_Error : string;
  rr_LocalAuthentication : string; rr_Operator : string }.

(** The numbers of the phases and states named by the protocol; the code
    compares prepared, applying and locally applied with 1, 2 and 3. *)
Class HostPhases := {
  PHASE_APPLYING : Z;
  PHASE_HOST_LOCAL_APPLIED : Z;
  PHASE_RESTORED : Z;
  STATE_NEEDS_MANUAL_AUTHORIZATION : Z;
  STATE_APPLYING : Z;
  STATE_DELIVERED : Z;
}.

(** What one iteration of the wait for the daemon receives. *)
Inductive wait_event := Cancelled | DeadlineReached | Tick.

(** The outcome of a finished command. *)
Inductive finish := Acknowledged | AcknowledgementPending | Recovered | Archived.

Section Transaction.
Context (E : Env) (N : Panel).
Context `{Crypto} `{ProtoTime} `{Wire SignedInstruction} `{Json (option entries)} `{Wire PrivilegedRevision} `{Wire HostOperation}.
Context `{StrictJson Manifest} `{StrictJson Policy} `{StrictJson Trust} `{StrictJson AccessConfig} `{Json Identity}.
Context `{Json hostJournal} `{StrictJson hostJournal} `{Json Policy} `{Json Config} `{Json AppliedRecord} `{Json RescueConfig}.
Context `{Wire ReportHostOperationRequest} `{StrictJson HelperStatus} `{HostPhases}.
Variable iter : entries -> list (string * time).
Variable parse_url : string -> option Url.

(** ** Backups *)

Definition backup_path (jdir : string) (n : nat) : string := child jdir ("backup-" ++ utoa (Z.of_nat n)).
Definition add_backup (b : fileBackup) (j : hostJournal) : hostJournal := set_Backups (j_Backups j ++ [b])%list j.
Definition backup (jdir path : string) : HM unit :=
  let! j := get_j in
  if existsb (fun b => (b_Path b =? path)%string) (j_Backups j) then h_ret tt else
  let bp := backup_path jdir (length (j_Backups j)) in
  let! st := h_try (h_lstat E path) in
  match st with
  | Err ENotExist => set_j (add_backup (mkBackup path bp 0 0 0 false)) ;;; save E jdir
  | Err e => h_err e
  | Ok st =>
      require (is_reg st && (slen (n_data st) <=? maxStateFileBytes)) EUnsafeBackup ;;;
      h_trusted E path ;;;
      let! input := h_read E path in
      h_create_excl E bp 384 ;;;
      h_write E bp input ;;; nop E ;;; nop E ;;;
      set_j (add_backup (mkBackup path bp (n_mode st) (n_uid st) (n_gid st) true)) ;;;
      save E jdir
  end.

(** ** Reports to the panel *)

Definition prepareRestorationReceipt (jdir : string) : HM unit :=
  let! j := get_j in
  (if (j_Receipt j =? "")%string then h_ret tt else
   let! r := h_lift (wire_unmarshal (j_Receipt j)) EDecode in
   if rr_Phase r =? PHASE_RESTORED then h_ret tt
   else set_j (set_Receipt "" (j_SupersededReceipts j ++ [j_Receipt j]))) ;;;
  save E jdir.

Definition report (jdir : string) (p : panel) (phase : Z) (detail : string) : HM unit :=
  let! j := get_j in
  (if (j_Receipt j =? "")%string then
     let! id := uuid E in
     let! b := h_lift (wire_marshal (mkReport (tr_AgentID (pl_trust p)) (j_ID j) id phase detail
                 "PAM:komari-host:authenticate+acct_mgmt" (j_Operator j))) EEncode in
     set_j (set_Receipt b (j_SupersededReceipts j)) ;;; save E jdir
   else h_ret tt) ;;;
  let! j := get_j in
  let! req := h_lift (wire_unmarshal (j_Receipt j)) EDecode in
  require (rr_Phase req =? phase) EEarlierReceipt ;;;
  let! resp := ask (pn_report N) in
  match resp with
  | None => h_err EPanel
  | Some accepted => require accepted EReceiptRejected
  end ;;;
  set_j (set_Receipt "" (j_SupersededReceipts j)) ;;;
  save E jdir.

Definition reportRestoration (jdir : string) (p : panel) (detail : string) : HM unit :=
  prepareRestorationReceipt jdir ;;;
  let! j := get_j in
  let! op := panel_get N (j_ID j) in
  if phase_of op =? PHASE_RESTORED then
    let! original := h_lift (wire_unmarshal (j_Revision j)) EDecode in
    require (match pr_authorization original with Some _ => true | None => false end) ENoAuthorization ;;;
    check_operation E iter p op (pr_authorization original) (j_ID j) ;;;
    (if (j_Receipt j =? "")%string then h_ret tt else set_j (set_Receipt "" (j_SupersededReceipts j ++ [j_Receipt j]))) ;;;
    save E jdir
  else report jdir p PHASE_RESTORED detail.

(** [archiveJournal] renames the directory with everything in it. *)
Definition move_path (from to q : string) : string := if (q =? from)%string then to else to ++ trim_prefix q from.
Definition h_rename_dir (from to : string) : HM unit :=
  sys E (fun _ h => match h_fs h !! from with
    | None => (Err ENotExist, h)
    | Some _ =>
        if bool_decide (is_Some (h_fs h !! to)) then (Err EExist, h) else
        let moved := list_to_map (map (fun '(q, n) => if under from q then (move_path from to q, n) else (q, n)) (map_to_list (h_fs h))) in
        (Ok tt, put_fs moved h)
    end).
Definition archiveJournal (jdir : string) : HM unit :=
  let! j := get_j in
  h_rename_dir jdir (jdir ++ "-" ++ j_ID j) ;;; nop E.

(** ** Applying *)

(** [user.Lookup] and both [strconv.Atoi]. *)
Definition account (name : string) : HM (Z * Z * string) :=
  let! (uid, gid) := h_lift (e_user E name) EUserUnknown in
  let! u := h_lift (atoi uid) EBadNumber in
  let! g := h_lift (atoi gid) EBadNumber in
  h_ret (u, g, gid).

Definition lines (l : list string) : string := join newline l ++ newline.
Definition unit_exec (m : Manifest) : string :=
  "ExecStart=" ++ unitQuote (mf_Executable m) ++ " --service-manifest " ++ unitQuote (mf_ManifestPath m) ++ " --config " ++ unitQuote (bootstrapPath m).
Definition profile_unit (m : Manifest) (t : Trust) (gid workingDir : string) (mode : Z) : string :=
  if mode =? 1 then
    lines ["[Service]"; "User=root"; "Group=root"; "SupplementaryGroups="; "ExecStart="; unit_exec m; "Environment="; "EnvironmentFile=";
           "PassEnvironment="; "WorkingDirectory=" ++ workingDir; "NoNewPrivileges=false"; "CapabilityBoundingSet=~"; "AmbientCapabilities="]
  else
    lines ["[Service]"; "User=" ++ tr_ServiceUser t; "Group=" ++ gid; "SupplementaryGroups="; "ExecStart="; unit_exec m; "Environment=";
           "EnvironmentFile="; "PassEnvironment="; "WorkingDirectory=" ++ workingDir; "NoNewPrivileges=true"; "CapabilityBoundingSet=";
           "CapabilityBoundingSet=CAP_NET_RAW"; "AmbientCapabilities="; "AmbientCapabilities=CAP_NET_RAW"].

Definition helper_state (m : Manifest) : string := join_path ["/var/lib/komari-rescue"; mf_ServiceName m].
Definition helper_settings (m : Manifest) (t : Trust) (c : Config) (version : string) : RescueConfig :=
  mkRescueConfig (tr_Endpoint t) (tr_AgentID t) version (mf_ManifestPath m) (mf_CredentialsFile m)
    (child (helper_state m) "instance") (child (helper_state m) "replay.json")
    (cfg_str "cf-access-client-id" c) (cfg_str "cf-access-client-secret" c)
    (mkActionConfig (mf_Executable m) (mf_ServiceName m) (tr_Endpoint t) (child (helper_state m) "isolation.json")).
Definition helper_unit_text (m : Manifest) : string :=
  lines ["[Unit]"; "Description=Komari bounded rescue helper"; "After=network-online.target"; "Wants=network-online.target"; "[Service]";
         "Type=simple"; "User=root"; "Group=root"; "ExecStart=" ++ unitQuote (helperBinary m) ++ " --config " ++ unitQuote (helperConfig m);
         "WorkingDirectory=/"; "Environment=PATH=/usr/sbin:/usr/bin:/sbin:/bin"; "NoNewPrivileges=false"; "CapabilityBoundingSet=~";
         "Restart=on-failure"; "RestartSec=5"; "UMask=0077"; "[Install]"; "WantedBy=multi-user.target"].
Definition installHelper (m : Manifest) (t : Trust) (c : Config) (binary : bytes) (version : string) : HM unit :=
  AtomicWrite E (helperBinary m) binary 493 ;;;
  ensureTrustedDir E (helper_state m) ;;;
  h_chmod E (helper_state m) 448 ;;;
  WriteJSON E (helperConfig m) (helper_settings m t c version) 384 ;;;
  AtomicWrite E (helperUnitPath m) (helper_unit_text m) 420.

(** [err != nil && !os.IsNotExist(err)]. *)
Definition remove_if_present (p : string) : HM unit :=
  let! r := h_try (h_remove E p) in
  match r with Ok _ => h_ret tt | Err ENotExist => h_ret tt | Err e => h_err e end.
Definition exists_path (p : string) : HM bool :=
  let! r := h_try (h_lstat E p) in h_ret (match r with Ok _ => true | Err _ => false end).
Definition ctl (args : list string) : HM unit := let! _ := systemctl E args in h_ret tt.

(** The settings the bootstrap is given besides the captured ones. *)
Definition reviewed_config (m : Manifest) (t : Trust) (deny_remote : bool) (c : Config) : Config :=
  <["auto-discovery-key" := VStr ""]> (<["token" := VStr ""]> (<["disable-auto-update" := VBool true]>
  (<["disable-remote-control" := VBool deny_remote]> (<["ignore-unsafe-cert" := VBool false]> (<["host-proc" := VStr ""]>
  (<["config-file" := VStr ""]> (<["replay-state-file" := VStr (mf_ReplayStateFile m)]>
  (<["privileged-state-file" := VStr (mf_PrivilegedStateFile m)]> (<["runtime-state-file" := VStr (mf_RuntimeStateFile m)]>
  (<["credentials-file" := VStr (mf_CredentialsFile m)]> (<["endpoint" := VStr (tr_Endpoint t)]> c))))))))))).

(** What is known before the service is stopped. *)
Record Plan := mkPlan {
  pl_manifest : Manifest; pl_policy : Policy; pl_pinned : Trust; pl_revision : PrivilegedRevision; pl_auth : HostAuthorization;
  pl_dirs : list string; pl_bootstrap : Config; pl_helper : bytes; pl_helperVersion : string; pl_workingDir : string }.

(** The live check of the approval and of the lease, after the daemon is
    stopped and fenced. *)
Definition check_lease (x : Plan) : HM unit :=
  let! p := newPanel E (pl_manifest x) (pl_pinned x) in
  let! current := panel_current E N iter p in
  require (bool_decide (pr_authorization current = Some (pl_auth x)) && (pr_state current =? STATE_APPLYING)) ESuperseded ;;;
  let! j := get_j in
  let! op := panel_get N (j_ID j) in
  check_operation E iter p op (Some (pl_auth x)) (j_ID j) ;;;
  require (phase_of op =? 2) ENotApplying.

(** From the boundary marker on: the files of the target profile. *)
Definition write_profile (jdir : string) (x : Plan) (policy : Policy) (gid : string) : HM unit :=
  let m := pl_manifest x in
  let t := pl_pinned x in
  set_j (set_FenceStage "profile") ;;; save E jdir ;;;
  WriteJSON E (mf_HostPolicyFile m) policy 420 ;;;
  WriteJSON E (bootstrapPath m) (reviewed_config m t (po_ForceDenyRemoteControl policy) (pl_bootstrap x)) 384 ;;;
  ensureTrustedDir E (dir (profilePath m)) ;;;
  AtomicWrite E (profilePath m) (profile_unit m t gid (pl_workingDir x) (po_PrivilegeMode policy)) 420.

Definition change_helper (x : Plan) (policy : Policy) : HM unit :=
  let m := pl_manifest x in
  let enabled := po_HelperInstalled policy in
  (if enabled && negb (pl_helper x =? "")%string then installHelper m (pl_pinned x)
     (reviewed_config m (pl_pinned x) (po_ForceDenyRemoteControl policy) (pl_bootstrap x)) (pl_helper x) (pl_helperVersion x)
   else h_ret tt) ;;;
  if enabled then h_ret tt else
  let! there := exists_path (helperUnitPath m) in
  if there then
    ctl ["stop"; helperUnit m] ;;; ctl ["disable"; helperUnit m] ;;;
    h_iter remove_if_present [helperUnitPath m; helperBinary m; helperConfig m]
  else h_ret tt.

Definition start_target (x : Plan) (policy : Policy) (uid : Z) : HM unit :=
  let m := pl_manifest x in
  ctl ["daemon-reload"] ;;;
  (if po_HelperInstalled policy then
     ctl ["enable"; helperUnit m] ;;; restartReviewedService E (helperUnit m) ;;;
     verifyService E (mf_ServiceName m ++ "-rescue") 0 1
   else h_ret tt) ;;;
  restartReviewedService E (mf_ServiceName m) ;;;
  verifyService E (mf_ServiceName m) (if po_PrivilegeMode policy =? 1 then 0 else uid) (po_PrivilegeMode policy) ;;;
  (if po_HelperInstalled policy then waitHelper E 0 m else h_ret tt).

Definition executeTransaction (jdir : string) (x : Plan) : HM unit :=
  let m := pl_manifest x in
  ctl ["stop"; mf_ServiceName m] ;;;
  let! (uid, gid, gid_text) := account (tr_ServiceUser (pl_pinned x)) in
  fenceStateDirectories E jdir (pl_dirs x) uid false ;;;
  check_lease x ;;;
  let! j := get_j in
  let! p := h_lift (consented_policy (j_LegacyRemoteControlConsent j) (pl_policy x) (pl_revision x)) EConsentChanged in
  let policy := target_policy p (pl_revision x) (pl_auth x) in
  write_profile jdir x policy gid_text ;;;
  change_helper x policy ;;;
  (if po_PrivilegeMode policy =? 2 then
     let! j := get_j in
     changeOwnership E (j_Ownership j) (Some (uid, gid)) ;;;
     h_chown E (bootstrapPath m) 0 gid ;;; h_chmod E (bootstrapPath m) 416
   else h_ret tt) ;;;
  start_target x policy uid ;;;
  let! j := get_j in
  WriteJSON E (AppliedPath m) (mkApplied 2 (j_Revision j) (j_Operation j)) 420.

(** ** Restoring *)

Definition restore_backup (b : fileBackup) : HM unit :=
  if negb (b_Exists b) then remove_if_present (b_Path b)
  else
    let! data := h_read E (b_Backup b) in
    AtomicWriteOwned E (b_Path b) data (b_Mode b) (b_UID b) (b_GID b).
Definition restart_original (m : Manifest) : HM unit :=
  let! j := get_j in
  ctl ["daemon-reload"] ;;;
  (if j_PreviousHelper j then ctl ["enable"; helperUnit m] ;;; restartReviewedService E (helperUnit m) else h_ret tt) ;;;
  restartReviewedService E (mf_ServiceName m) ;;;
  let! policy := h_ReadPolicy E m in
  require (po_PrivilegeMode policy =? j_PreviousMode j) ERestoredPolicyDiffers ;;;
  verifyService E (mf_ServiceName m) (j_PreviousUID j) (j_PreviousMode j).
Definition stop_target (m : Manifest) : HM unit :=
  ctl ["stop"; mf_ServiceName m] ;;;
  let! there := exists_path (helperUnitPath m) in
  if there then
    ctl ["stop"; helperUnit m] ;;;
    let! _ := h_try (systemctl E ["disable"; helperUnit m]) in h_ret tt
  else h_ret tt.
(** The fence of whatever runs now, the backed up files and the owners. *)
Definition put_back (jdir : string) (m : Manifest) : HM unit :=
  stop_target m ;;;
  let! dirs := stateDirectories E m in
  let! t := h_ReadTrust E parse_url m in
  let! (uid, _) := h_lift (e_user E (tr_ServiceUser t)) EUserUnknown in
  let! owner := h_lift (atoi uid) EBadNumber in
  fenceStateDirectories E jdir dirs owner true ;;;
  let! j := get_j in
  h_iter restore_backup (rev (j_Backups j)) ;;;
  restoreStateOwnership E dirs ;;;
  restart_original m.
Definition restoreTransaction (jdir : string) (m : Manifest) : HM unit :=
  set_j (set_Phase "restoring") ;;; save E jdir ;;;
  put_back jdir m ;;;
  set_j (set_Phase "restored") ;;; save E jdir.

(** ** Waiting for the daemon's acknowledgement *)

Fixpoint finishHost (jdir : string) (p : panel) (events : list wait_event) : HM finish :=
  match events with
  | [] | DeadlineReached :: _ => h_ret AcknowledgementPending
  | Cancelled :: _ => h_err EPanel
  | Tick :: events =>
      let! resp := ask (pn_delivery N) in
      match resp with
      | None => finishHost jdir p events
      | Some r =>
          let! j := get_j in
          let! old := h_lift (wire_unmarshal (j_Revision j)) EDecode in
          let! t0 := now E in
          let! r := match VerifySignedRevision iter (pl_trust p) t0 r with Ok r => h_ret r | Err e => h_err (EHost e) end in
          require ((pr_revision r =? pr_revision old) && (pr_approval_generation r =? pr_approval_generation old)) ESuperseded ;;;
          if pr_state r =? STATE_DELIVERED then
            set_j (set_Phase "completed") ;;; save E jdir ;;; archiveJournal jdir ;;; h_ret Acknowledged
          else finishHost jdir p events
      end
  end.
End Transaction.
