(* ===== verification/HostFrame.v ===== *)
(** * What each part of the host tool leaves alone

    A frame rule per operation of the tool: reading, asking and waiting keep
    every property [P] of the files that the services keep; an operation that
    writes keeps [P] when [P] does not depend on the paths it writes. The rules
    form the hint database [host]; the tactic [hk] follows the program. *)

From S2P Require Import Prelude.
From S2P Require Import GoStd.
From S2P Require Import GoPath.
From S2P Require Import External.
From S2P Require Import Credentials.
From S2P Require Import Replay.
From S2P Require Import Signing.
From S2P Require Import Privileged.
From S2P Require Import HostOps.
From S2P Require Import Systemd.
From S2P Require Import HostFs.
From S2P Require Import HostService.
From S2P Require Import HostPolicy.
From S2P Require Import HostBootstrap.
From S2P Require Import HostSeal.
From S2P Require Import HostPanel.
From S2P Require Import HostFetch.
From S2P Require Import HostTx.

Local Open Scope string_scope.
Local Open Scope Z_scope.
Local Open Scope host_scope.

(** ** Names *)

Lemma sep_free_const s : forallb (fun c => negb (Ascii.eqb c sep)) (chars s) = true -> sep ∉ chars s.
Proof. rewrite forallb_In. intros Hall Hin. specialize (Hall sep Hin). by rewrite Ascii.eqb_refl in Hall. Qed.
(** The names directly in a directory split in one way. *)
Lemma child_inj_both p q a b : sep ∉ chars a -> sep ∉ chars b -> child p a = child q b -> p = q /\ a = b.
Proof.
  intros Ha Hb Heq. assert (Hp : under p q = true) by (by apply (parent_under q b p a); [|symmetry]).
  assert (Hq : under q p = true) by (by apply (parent_under p a q b)).
  assert (p = q) as ->; [|split; [done|by apply child_inj in Heq]].
  apply under_spec in Hp as [->|[r ->]]; [done|]. apply under_spec in Hq as [Hq|[s Hq]]; [done|].
  apply (f_equal String.length) in Hq. rewrite !child_length in Hq. lia.
Qed.
Lemma komari_no_sep s : sep ∉ chars s -> sep ∉ chars (".komari-" ++ s).
Proof.
  intros Hs. rewrite chars_app, elem_of_app. intros [Hin|Hin]; [|done]. revert Hin. by apply sep_free_const.
Qed.
Lemma plain_not_temp d n : sep ∉ chars n -> has_prefix n ".komari-" = false -> not_temp (child d n).
Proof.
  intros Hn Hp d' s Hs Heq. apply child_inj_both in Heq as [_ ->]; [|done|by apply komari_no_sep].
  unfold has_prefix in Hp. apply not_true_iff_false in Hp. apply Hp. apply prefix_iff. by exists s.
Qed.

(** A decidable sufficient condition. *)
Definition ordinary (p : string) : bool :=
  (p =? child (dir p) (base p))%string && forallb (fun c => negb (Ascii.eqb c sep)) (chars (base p)) && negb (has_prefix (base p) ".komari-").
Lemma ordinary_not_temp p : ordinary p = true -> not_temp p.
Proof.
  unfold ordinary. rewrite !andb_true_iff, negb_true_iff. intros [[Heq%String.eqb_eq Hs] Hp]. rewrite Heq. apply plain_not_temp; [|done].
  intros Hin. rewrite forallb_In in Hs. specialize (Hs sep Hin). by rewrite Ascii.eqb_refl in Hs.
Qed.

(** ** Rules *)

(** What holds of the journal in memory is known of the one that is read. *)
Lemma hk_with_j {A} (I : hostJournal -> Prop) P (k : hostJournal -> HM A) :
  (forall j, I j -> hkeeps I P (k j)) -> hkeeps I P (h_bind get_j k).
Proof.
  intros Hk. eapply hspec_bind; [apply hspec_get_j|]. intros j h HI HP (_ & Hj & _). exact (Hk j Hj h HI HP Logic.I).
Qed.

Lemma hk_run {A} (I : hostJournal -> Prop) P (p : HM A) h a h' :
  hkeeps I P p -> I (h_j h) -> P (h_fs h) -> p h = (a, h') -> I (h_j h') /\ P (h_fs h') /\ hgrows P h h'.
Proof. intros Hk HI HP Hp. destruct (hspec_run _ _ _ _ _ _ _ _ Hk HI HP Logic.I Hp) as (? & Hg & _). split_and!; [done|apply Hg|done]. Qed.

(** Membership in a literal list. *)
Ltac in_list := first [apply list_elem_of_here | apply list_elem_of_further; in_list].

(** Follows the structure of a program and closes the leaves with the rules. *)
Ltac hk1 :=
  lazymatch goal with
  | |- hkeeps _ _ (h_bind get_j _) => apply hk_with_j; intros ? ?; cbn beta
  | |- hkeeps _ _ (h_bind _ _) => apply hk_bind; [|intros ?; cbn beta]
  | |- hkeeps _ _ (h_try _) => apply hk_try
  | |- hkeeps _ _ (h_iter _ _) => apply hk_iter; intros ? ?
  | |- hkeeps _ _ (h_fold _ _ _) => apply hk_fold; intros ? ? ?
  | |- hkeeps _ _ (match ?x with _ => _ end) => destruct x
  | |- hkeeps _ _ _ => solve [eauto with host]
  end.
Ltac hk := repeat hk1.

Section Reading.
Context (E : Env) (N : Panel) (I : hostJournal -> Prop) (P : hfs -> Prop).
Hypothesis Hserv : services_keep E P.

Lemma hk_now : hkeeps I P (now E). Proof. apply hk_tick. Qed.
Lemma hk_uuid : hkeeps I P (uuid E). Proof. apply hk_tick. Qed.
Lemma hk_read_proc p : hkeeps I P (read_proc E p). Proof. apply hk_tick. Qed.
Lemma hk_read_exe p : hkeeps I P (read_exe E p). Proof. apply hk_tick. Qed.
Lemma hk_ask {A} (f : nat -> A) : hkeeps I P (ask f). Proof. apply hk_tick. Qed.
Lemma hk_lstat p : hkeeps I P (h_lstat E p). Proof. apply hk_read. Qed.
Lemma hk_read_file p : hkeeps I P (h_read E p). Proof. apply hk_read. Qed.
Lemma hk_open p : hkeeps I P (h_open_nofollow E p). Proof. apply hk_read. Qed.
Lemma hk_readdir p k : hkeeps I P (h_readdir E p k). Proof. apply hk_read. Qed.
Hint Resolve hk_now hk_uuid hk_read_proc hk_read_exe hk_ask hk_lstat hk_read_file hk_open hk_readdir : host.

Lemma hk_ctl args : hkeeps I P (ctl E args).
Proof. unfold ctl. hk. Qed.
Hint Resolve hk_ctl : host.
Lemma hk_observe s : hkeeps I P (observe E s).
Proof. unfold observe. hk. Qed.
Hint Resolve hk_observe : host.
Lemma hk_restart s : hkeeps I P (restartReviewedService E s).
Proof. unfold restartReviewedService. hk. Qed.
Lemma hk_attempt s : hkeeps I P (attempt E s).
Proof. unfold attempt. hk. Qed.
Hint Resolve hk_restart hk_attempt : host.
Lemma hk_verify_attempts k s u m st : hkeeps I P (verify_attempts E k s u m st).
Proof. revert st. induction k as [|k IH]; intros st; cbn [verify_attempts]; hk. Qed.
Lemma hk_verifyService s u m : hkeeps I P (verifyService E s u m).
Proof. apply hk_verify_attempts. Qed.
Lemma hk_healthy k s x pid : hkeeps I P (healthy E k s x pid).
Proof. induction k as [|k IH]; cbn [healthy]; hk. Qed.
Hint Resolve hk_verifyService hk_healthy : host.
Lemma hk_verifyUpgradeService s x : hkeeps I P (verifyUpgradeService E s x).
Proof. unfold verifyUpgradeService. hk. Qed.
Lemma hk_upgradeServiceActive s b : hkeeps I P (upgradeServiceActive E s b).
Proof. unfold upgradeServiceActive. hk. Qed.
Lemma hk_ReadHelperStatus `{StrictJson HelperStatus} u m : hkeeps I P (ReadHelperStatus E u m).
Proof. unfold ReadHelperStatus. hk. Qed.
Hint Resolve hk_ReadHelperStatus : host.
Lemma hk_waitHelper `{StrictJson HelperStatus} u m : hkeeps I P (waitHelper E u m).
Proof. unfold waitHelper. generalize 60%nat as k. induction k as [|k IH]; cbn [wait_helper]; hk. Qed.
Hint Resolve hk_verifyUpgradeService hk_upgradeServiceActive hk_waitHelper : host.

Lemma hk_ReadManifest `{StrictJson Manifest} p : hkeeps I P (h_ReadManifest E p).
Proof. unfold h_ReadManifest. hk. Qed.
Lemma hk_ReadPolicy `{StrictJson Policy} m : hkeeps I P (h_ReadPolicy E m).
Proof. unfold h_ReadPolicy. hk. Qed.
Lemma hk_ReadTrust `{StrictJson Trust} parse_url m : hkeeps I P (h_ReadTrust E parse_url m).
Proof. unfold h_ReadTrust. hk. Qed.
Lemma hk_ReadAccess `{StrictJson AccessConfig} t : hkeeps I P (h_ReadAccess E t).
Proof. unfold h_ReadAccess. hk. Qed.
Lemma hk_ReadCandidate p : hkeeps I P (ReadCandidate E p).
Proof. unfold ReadCandidate. hk. Qed.
Hint Resolve hk_ReadManifest hk_ReadPolicy hk_ReadTrust hk_ReadAccess hk_ReadCandidate : host.
Lemma hk_resolveManifest `{StrictJson Manifest} p : hkeeps I P (resolveManifest E p).
Proof. unfold resolveManifest. hk. Qed.
Lemma hk_newPanel `{StrictJson AccessConfig} `{Json Identity} m t : hkeeps I P (newPanel E m t).
Proof. unfold newPanel. hk. Qed.
Lemma hk_verify_now r : hkeeps I P (verify_now r).
Proof. unfold verify_now. hk. Qed.
Hint Resolve hk_resolveManifest hk_newPanel hk_verify_now : host.
Lemma hk_panel_get id : hkeeps I P (panel_get N id).
Proof. unfold panel_get. hk. Qed.
Lemma hk_panel_current `{Crypto} `{ProtoTime} `{Wire SignedInstruction} `{Json (option entries)} `{Wire PrivilegedRevision} iter p :
  hkeeps I P (panel_current E N iter p).
Proof. unfold panel_current. hk. Qed.
Lemma hk_check_operation `{Crypto} `{ProtoTime} `{Wire SignedInstruction} `{Json (option entries)} `{Wire HostOperation} iter p op a id :
  hkeeps I P (check_operation E iter p op a id).
Proof. unfold check_operation. hk. Qed.
Hint Resolve hk_panel_get hk_panel_current hk_check_operation : host.

Lemma hk_authenticate : hkeeps I P (authenticate E).
Proof. unfold authenticate, authenticationReady. hk. apply hk_same. intros h. by destruct (e_pam _ _ _). Qed.
Lemma hk_account name : hkeeps I P (account E name).
Proof. unfold account. hk. Qed.
Lemma hk_exists_path p : hkeeps I P (exists_path E p).
Proof. unfold exists_path. hk. Qed.
Lemma hk_stateDirectories m : hkeeps I P (stateDirectories E m).
Proof. unfold stateDirectories, add_root. hk. Qed.
Lemma hk_readHelper `{Crypto} `{Json ReleasePayload} `{StrictJson ReleaseManifest} goos goarch t a r :
  hkeeps I P (readHelper E goos goarch t a r).
Proof. unfold readHelper, verify_release. hk. Qed.
Lemma hk_verifiedArtifact `{Crypto} p w : hkeeps I P (verifiedArtifact E p w).
Proof. unfold verifiedArtifact. hk. Qed.
Lemma hk_captureBootstrap pf mj m o t : hkeeps I P (captureBootstrap pf mj E m o t).
Proof. unfold captureBootstrap, parseLegacyBootstrap. hk. Qed.

Lemma hk_remove_if_present p : stable_at p P -> hkeeps I P (remove_if_present E p).
Proof. intros Hp. unfold remove_if_present. hk. Qed.
Lemma hk_chown p u g : stable_at p P -> hkeeps I P (h_chown E p u g).
Proof. apply hkeeps_update. Qed.
Lemma hk_chmod p m : stable_at p P -> hkeeps I P (h_chmod E p m).
Proof. apply hkeeps_update. Qed.
Lemma hk_write p d : stable_at p P -> hkeeps I P (h_write E p d).
Proof. apply hkeeps_update. Qed.
Lemma hk_rename p q : stable_at p P -> stable_at q P -> hkeeps I P (h_rename E p q).
Proof.
  intros Hp Hq. apply hspec_sys. intros t h HI HP _. simpl.
  assert (Hsame : I (h_j (ticked h)) /\ hgrows P h (ticked h)) by (split; [done|by apply hgrows_same]).
  destruct (h_fs h !! p) as [n|]; [|by destruct Hsame].
  assert (Hmoved : hgrows P h (put_fs (<[q:=n]> (delete p (h_fs h))) (ticked h))).
  { apply hgrows_put; [|done]. by apply Hq, Hp. }
  destruct (h_fs h !! q) as [d|]; [destruct (is_dir d)|]; destruct Hsame; by split_and!.
Qed.
Hint Resolve hk_chown hk_chmod hk_write hk_rename hk_remove_if_present : host.

(** ** Sealing and giving back *)

Section State.
Context `{Json hostJournal}.
Variable jdir : string.
Variable dirs : list string.
Definition in_dirs (q : string) : Prop := exists d, d ∈ dirs /\ under d q = true.
Hypothesis Hsave : hkeeps I P (save E jdir).
Hypothesis Htemps : stable_temps P.
Hypothesis Hoff : forall q, in_dirs q -> stable_at q P.

Lemma in_dirs_child p n : in_dirs p -> in_dirs (child p n).
Proof. intros (d & Hd & Hu). exists d. split; [done|]. eapply under_trans; [exact Hu|apply under_child]. Qed.
Hint Resolve in_dirs_child : host.

Lemma app_komari_state r : ".komari-state-" ++ r = ".komari-" ++ ("state-" ++ r).
Proof. reflexivity. Qed.
Lemma stable_state_temp d r : stable_at (child d (".komari-state-" ++ utoa r)) P.
Proof. rewrite app_komari_state. apply Htemps. apply sep_app. by apply sep_free_const. Qed.
Lemma hk_copy path limit : in_dirs path -> hkeeps I P (copySealedStateFile E path limit).
Proof.
  intros Hp. unfold copySealedStateFile.
  apply (hspec_bind _ _ _ _ _ (fun name _ => exists r, name = child (dir path) (".komari-state-" ++ utoa r))).
  - eapply hspec_conseq with (Pre' := fun _ => True); [|done|intros name h Hn; exact Hn].
    apply hspec_sys. intros t h HI HP _. simpl. destruct (pick_name _ _ _ _) as [name|] eqn:Ep.
    + apply pick_name_fresh in Ep as (_ & r & ->). split; [done|]. split; [|intros a [= <-]; by exists r].
      apply hgrows_put; [|done]. by apply stable_state_temp.
    + split; [done|]. by split; [apply hgrows_same|].
  - intros name h HI HP (r & ->). revert h HI HP.
    pose proof (stable_state_temp (dir path) r) as Ht. set (nm := child (dir path) _) in *. clearbody nm.
    assert (Hk : hkeeps I P (h_with_removed E nm (
      h_chmod E nm 384 ;;;
      let! input := h_read E path in
      let n := Z.min (slen input) (limit + 1) in
      h_write E nm (of_chars (take (Z.to_nat n) (chars input))) ;;;
      require (n <=? limit) EGrew ;;; nop E ;;; nop E ;;; h_rename E nm path ;;; nop E ;;; h_ret n))).
    { intros h HI HP _. unfold h_with_removed.
      match goal with |- context [let '(r, h1) := ?m h in _] => assert (Hb : hkeeps I P m) by hk; specialize (Hb h HI HP Logic.I);
        destruct (m h) as [x h1] end. destruct Hb as (HI1 & HG1 & _).
      pose proof (hkeeps_remove E I P nm Ht h1 HI1 (proj1 HG1) Logic.I) as Hr. destruct (h_remove E nm h1) as [y h2].
      destruct Hr as (HI2 & HG2 & _). split; [done|]. split; [by eapply hgrows_trans|done]. }
    intros h HI HP. by apply (Hk h HI HP).
Qed.
Hint Resolve hk_copy : host.

(** The journal in memory only gains entries about paths below the roots. *)
Hypothesis Hgain : forall recovery j e, I j -> in_dirs (w_Path e) -> I (set_captured recovery (captured recovery j ++ [e])%list j).
Lemma hk_record path st recovery : in_dirs path -> hkeeps I P (record_owner path st recovery).
Proof.
  intros Hp. unfold record_owner. apply hk_bind; [apply hk_get_j|]. intros j.
  destruct (known path (captured recovery j)); [apply hk_ret|]. apply hk_bind; [apply hk_require|]. intros _.
  apply hk_set_j. intros j' Hj'. by apply Hgain.
Qed.
Hint Resolve hk_record : host.
Lemma hk_seal room recovery owner device path b : in_dirs path -> hkeeps I P (seal E jdir room recovery owner device path b).
Proof. revert path b. induction room as [|room IH]; intros path b Hp; cbn [seal]; hk. Qed.
Hypothesis Hstage : forall v j, I j -> I (set_FenceStage v j).
Lemma hk_fence owner recovery : hkeeps I P (fenceStateDirectories E jdir dirs owner recovery).
Proof.
  unfold fenceStateDirectories. apply hk_bind; [apply hk_get_j|]. intros j. destruct (_ && _); [apply hk_ret|].
  apply hk_bind; [destruct recovery; [apply hk_ret|]; apply hk_bind; [by apply hk_set_j, Hstage|by intros _]|]. intros _.
  apply hk_bind; [|intros ?; apply hk_ret]. apply hk_fold. intros b d Hd. unfold fence_root.
  apply hk_bind; [apply hk_lstat|]. intros st. apply hk_bind; [apply hk_require|]. intros _. apply hk_seal.
  exists d. split; [done|apply under_refl].
Qed.

Lemma hk_change_one target e : in_dirs (w_Path e) -> hkeeps I P (change_one E target e).
Proof. intros He. unfold change_one. hk. Qed.
Lemma hk_changeOwnership l target : Forall (fun e => in_dirs (w_Path e)) l -> hkeeps I P (changeOwnership E l target).
Proof.
  intros Hl. apply hk_iter. intros e He. rewrite elem_of_rev in He. apply hk_change_one. rewrite Forall_forall in Hl. by apply Hl.
Qed.
Lemma adopted_path original' dirs' e h e' h' : adopted E original' dirs' e h = (Ok e', h') -> w_Path e' = w_Path e.
Proof.
  revert h. induction dirs' as [|d dirs' IH]; intros h Hr; cbn [adopted] in Hr; [by apply h_ret_ok in Hr as [-> _]|].
  destruct (negb _); [by apply IH in Hr|]. destruct (find_own d original') as [root|]; [|by apply h_ret_ok in Hr as [-> _]].
  h_ok1 Hr. destruct a as [st|[]]; try discriminate Hr; [|by apply h_ret_ok in Hr as [-> _]].
  apply h_ret_ok in Hr as [-> _]. by destruct (is_dir st).
Qed.
Lemma hk_adopted original' dirs' e : hkeeps I P (adopted E original' dirs' e).
Proof. induction dirs' as [|d dirs' IH]; cbn [adopted]; hk. Qed.
(** A run whose result is [Q] whatever the state. *)
Lemma hspec_always {A} (p : HM A) (Q : A -> Prop) :
  hkeeps I P p -> (forall h a h', p h = (Ok a, h') -> Q a) -> hspec I P (fun _ => True) p (fun a _ => Q a).
Proof.
  intros Hk HQ h HI HP _. specialize (Hk h HI HP Logic.I). destruct (p h) as [r h'] eqn:Ep.
  destruct Hk as (? & ? & _). split_and!; [done|done|]. intros a ->. by eapply HQ.
Qed.
Lemma gathered own l acc h out h' :
  Forall (fun e => in_dirs (w_Path e)) l -> Forall (fun e => in_dirs (w_Path e)) acc ->
  h_fold (fun entries e => if known (w_Path e) own then h_ret entries else
            let! e := adopted E own dirs e in h_ret (entries ++ [e])%list) l acc h = (Ok out, h') ->
  Forall (fun e => in_dirs (w_Path e)) out.
Proof.
  intros Hl. revert acc h. induction l as [|e l IH]; intros acc h Hacc Hr; cbn [h_fold] in Hr; [by apply h_ret_ok in Hr as [-> _]|].
  apply Forall_cons in Hl as [He Hl]. apply h_bind_ok in Hr as (acc1 & h1 & Hstep & Hr). eapply (IH Hl); [|exact Hr].
  destruct (known (w_Path e) own); [by apply h_ret_ok in Hstep as [-> _]|].
  apply h_bind_ok in Hstep as (e1 & h2 & Hpath%adopted_path & [-> _]%h_ret_ok).
  apply Forall_app. split; [done|]. constructor; [|constructor]. by rewrite Hpath.
Qed.
Hypothesis Hown : forall j, I j -> Forall (fun e => in_dirs (w_Path e)) (j_Ownership j ++ j_RecoveryOwnership j)%list.
Lemma hk_restoreState : hkeeps I P (restoreStateOwnership E dirs).
Proof.
  unfold restoreStateOwnership. apply hk_with_j. intros j [Ho Hr]%Hown%Forall_app.
  eapply hspec_bind.
  - apply (hspec_always _ (Forall (fun e => in_dirs (w_Path e)))); [|intros h out h'; by apply gathered].
    apply hk_fold. intros acc e _. destruct (known _ _); [apply hk_ret|]. apply hk_bind; [apply hk_adopted|]. intros e'. apply hk_ret.
  - intros entries h HI HP Hall. exact (hk_changeOwnership entries None Hall h HI HP Logic.I).
Qed.
End State.
End Reading.

#[export] Hint Resolve hk_now hk_uuid hk_read_proc hk_read_exe hk_ask hk_lstat hk_read_file hk_open hk_readdir hk_ctl hk_observe
  hk_restart hk_attempt hk_verifyService hk_healthy hk_verifyUpgradeService hk_upgradeServiceActive hk_ReadHelperStatus hk_waitHelper
  hk_ReadManifest hk_ReadPolicy hk_ReadTrust hk_ReadAccess hk_ReadCandidate hk_resolveManifest hk_newPanel hk_verify_now
  hk_panel_get hk_panel_current hk_check_operation hk_authenticate hk_account hk_exists_path hk_stateDirectories hk_readHelper
  hk_verifiedArtifact hk_captureBootstrap hk_remove_if_present hk_chown hk_chmod hk_write hk_rename hk_copy hk_record hk_seal hk_fence
  hk_change_one hk_changeOwnership hk_restoreState : host.

(** ** Programs that keep [P] and whose results satisfy [Q] *)

Definition hq {A} (P : hfs -> Prop) (p : HM A) (Q : A -> Prop) : Prop :=
  hspec (fun _ => True) P (fun _ => True) p (fun a _ => Q a).
Section Results.
Variable P : hfs -> Prop.
Lemma hq_bind {A A'} (p : HM A) (k : A -> HM A') R Q : hq P p R -> (forall a, R a -> hq P (k a) Q) -> hq P (h_bind p k) Q.
Proof. intros Hp Hk. eapply hspec_bind; [exact Hp|]. intros a h HI HP Ha. exact (Hk a Ha h HI HP Logic.I). Qed.
Lemma hq_keep {A A'} (p : HM A) (k : A -> HM A') Q :
  hkeeps (fun _ => True) P p -> (forall a, hq P (k a) Q) -> hq P (h_bind p k) Q.
Proof. intros Hp Hk. apply (hq_bind p k (fun _ => True)); [exact Hp|]. intros a _. apply Hk. Qed.
Lemma hq_ret {A} (a : A) (Q : A -> Prop) : Q a -> hq P (h_ret a) Q.
Proof. intros Ha h HI HP _. simpl. split; [done|]. split; [by apply hgrows_same|]. by intros b [= <-]. Qed.
Lemma hq_err {A} e (Q : A -> Prop) : hq P (h_err e) Q.
Proof. apply hspec_err. Qed.
Lemma hq_keeps {A} (p : HM A) Q : hq P p Q -> hkeeps (fun _ => True) P p.
Proof. apply hkeeps_of. Qed.
Lemma hq_of {A} (p : HM A) Q : hkeeps (fun _ => True) P p -> (forall h a h', p h = (Ok a, h') -> Q a) -> hq P p Q.
Proof. apply hspec_always. Qed.
Lemma hkeeps_hq {A} (p : HM A) : hkeeps (fun _ => True) P p -> hq P p (fun _ => True).
Proof. done. Qed.
End Results.


(** ** One file that is left alone *)

Definition one_file (q : string) (n : HNode) (fs : hfs) : Prop := fs !! q = Some n.
Section OneFile.
Context (E : Env).
Variables (q : string) (n : HNode).
Let P : hfs -> Prop := one_file q n.
Lemma stable_other p : p <> q -> stable_at p P.
Proof. intros Hp fs HP. unfold P, one_file in *. split; [by rewrite lookup_delete_ne|]. intros x. by rewrite lookup_insert_ne. Qed.
Lemma stable_new_q : stable_new P.
Proof. intros fs p x HP Hx. unfold P, one_file. rewrite lookup_insert_ne; [done|]. intros ->. unfold P, one_file in HP. congruence. Qed.
Lemma stable_temps_q : not_temp q -> stable_temps P.
Proof. intros Hqt d s Hs. apply stable_other. intros <-. by apply (Hqt d s). Qed.
Lemma services_keep_q : (forall t fs, e_daemon E t fs !! q = fs !! q) -> services_keep E P.
Proof. intros Hqd t fs HP. unfold P, one_file. by rewrite Hqd. Qed.

(** What is created was not [q]. *)
Lemma hq_mkdir p mode : hq P (h_mkdir E p mode) (fun _ => p <> q).
Proof.
  apply hspec_sys. intros t h _ HP _. simpl. destruct (h_fs h !! p) eqn:El.
  - split; [done|]. by split; [apply hgrows_same|].
  - split; [done|]. split; [apply hgrows_put; [by apply stable_new_q|done]|]. intros a _ ->. unfold P, one_file in HP. congruence.
Qed.
Lemma hk_create_new p mode : hkeeps (fun _ => True) P (h_create_excl E p mode).
Proof.
  apply hspec_sys. intros t h _ HP _. simpl. destruct (h_fs h !! p) eqn:El; (split; [done|]; split; [|done]).
  - by apply hgrows_same.
  - apply hgrows_put; [by apply stable_new_q|done].
Qed.
(** Where [os.Lstat] finds nothing is not [q]. *)
Lemma hq_missing p : hq P (h_try (h_lstat E p)) (fun st => st = Err ENotExist -> p <> q).
Proof.
  intros h _ HP _. unfold h_try, h_lstat, read_fs, sys, lookup_node. destruct (e_fault E (h_tick h)); simpl.
  - split; [done|]. split; [by apply hgrows_same|]. by intros a [= <-].
  - split; [done|]. split; [by apply hgrows_same|]. intros a [= <-] Hnone ->. unfold P, one_file in HP. by rewrite HP in Hnone.
Qed.
Lemma hk_lock_file : hkeeps (fun _ => True) P (acquireHostLock E).
Proof. pose proof stable_new_q. unfold acquireHostLock. hk. apply hk_create_new. Qed.
End OneFile.

(** ** Creating the missing ancestors ends *)

Lemma dir_shorter es e : Forall plain (es ++ [e])%list -> dir (abs_path (es ++ [e])%list) = abs_path es.
Proof. intros [H1 H2]%Forall_app. apply dir_abs_path; [done|]. by apply Forall_inv in H2. Qed.
Lemma lstat_same E p h r h' : h_try (h_lstat E p) h = (r, h') -> h_fs h' = h_fs h.
Proof. unfold h_try, h_lstat, read_fs, sys. destruct (e_fault E (h_tick h)); by intros [= _ <-]. Qed.

(** Creating a trusted directory terminates: with the root directory there,
    one level per element of the path is all the recursion needs, so that any
    larger bound gives the same run. *)
Theorem ensure_dir_terminates E p h k :
  is_abs p = true -> clean p = p -> is_Some (h_fs h !! "/") -> (length (elems p) < k)%nat ->
  ensure_dir E k p h = ensureTrustedDir E p h.
Proof.
  intros Ha Hc Hroot Hk. unfold ensureTrustedDir, require. rewrite Ha. unfold h_bind at 1, h_ret.
  rewrite clean_abs in Hc by done. pose proof (elems_plain p Ha) as Hpl. rewrite <- Hc. rewrite elems_abs_path by done.
  set (es := elems p) in *. clearbody es. clear Ha Hc.
  assert (Hgo : forall a b h, is_Some (h_fs h !! "/") -> (length es < a)%nat -> (length es < b)%nat ->
    ensure_dir E a (abs_path es) h = ensure_dir E b (abs_path es) h).
  2: { apply Hgo; [done|done|lia]. }
  clear Hk Hroot h k. induction es as [|e es IH] using rev_ind; intros a b h Hroot Ha Hb.
  - destruct a as [|a], b as [|b]; try (simpl in *; lia). cbn [ensure_dir]. unfold h_bind, h_try, h_lstat, read_fs, sys.
    change (abs_path []) with "/". destruct (e_fault E (h_tick h)); [done|]. cbn [h_fs ticked]. unfold lookup_node.
    destruct (h_fs h !! "/") as [n|]; [done|]. by destruct Hroot.
  - rewrite length_app in Ha, Hb. simpl in Ha, Hb. destruct a as [|a], b as [|b]; try lia.
    cbn [ensure_dir]. unfold h_bind at 1. unfold h_bind at 3. destruct (h_try _ h) as [[st|x] h1] eqn:Es; [|done].
    apply lstat_same in Es. destruct st as [n|[]]; try done. rewrite (dir_shorter es e Hpl).
    apply Forall_app in Hpl as [Hpl _]. unfold h_bind. rewrite (IH Hpl a b h1); [done|by rewrite Es|lia|lia].
Qed.
