(* ===== verification/HostCrash.v ===== *)
(** * Every crash of a host transaction can be recovered from

    The journal and the backups are all that a later run knows. These theorems
    say that they are enough: from the durable [mutating] marker on, every file
    system the transaction goes through holds a journal that reads back with the
    reviewed backups, and every backup with the contents it was taken of; and a
    restoration that succeeds, from whichever of these file systems, puts every
    file of the transaction back with its contents, mode and owner. *)

From S2P Require Import Prelude.
From S2P Require Import GoStd.
From S2P Require Import GoPath.
From S2P Require Import External.
From S2P Require Import Credentials.
From S2P Require Import Replay.
From S2P Require Import Signing.
From S2P Require Import Privileged.
From S2P Require Import HostOps.
From S2P Require Import RuntimeConfig.
From S2P Require Import Effective.
From S2P Require Import Systemd.
From S2P Require Import HostFs.
From S2P Require Import HostService.
From S2P Require Import HostPolicy.
From S2P Require Import HostBootstrap.
From S2P Require Import HostSeal.
From S2P Require Import HostPanel.
From S2P Require Import HostFetch.
From S2P Require Import HostTx.
From S2P Require Import HostFrame.

Local Open Scope string_scope.
Local Open Scope Z_scope.
Local Open Scope host_scope.

(** ** What is on disk *)

Section Recoverable.
Variables (jdir : string) (B : list fileBackup) (original : string -> string) (dirs : list string).

(** The phases a restoration goes on from. *)
Definition interrupted (phase : string) : Prop := phase = "mutating" \/ phase = "local_applied" \/ phase = "restoring".
(** A journal of this transaction: its backups are [B], and it gives back
    nothing but paths below the state roots. *)
Definition journal_of (j : hostJournal) : Prop :=
  interrupted (j_Phase j) /\ j_Backups j = B /\
  Forall (fun e => in_dirs dirs (w_Path e)) (j_Ownership j ++ j_RecoveryOwnership j)%list.
Definition backup_intact (m : hfs) (b : fileBackup) : Prop :=
  b_Exists b = true -> exists n, m !! b_Backup b = Some n /\ is_dir n = false /\ n_data n = original (b_Path b).
Record recoverable `{StrictJson hostJournal} (m : hfs) : Prop := {
  rc_journal : exists n j rest, m !! journal_file jdir = Some n /\ is_reg n = true /\
    decode_strict (n_data n) = Some (j, rest) /\ at_eof rest = true /\ journal_of j;
  rc_backups : Forall (backup_intact m) B;
}.
(** Every file of the transaction as the backups describe it. *)
Definition put_back_file (m : hfs) (b : fileBackup) : Prop :=
  if b_Exists b then exists n, m !! b_Path b = Some n /\ written (original (b_Path b)) (b_Mode b) (Some (b_UID b, b_GID b)) n
  else m !! b_Path b = None.
Definition all_back (m : hfs) : Prop := Forall (put_back_file m) B.

(** The paths a crash recovery depends on. *)
Definition evidence : list string := journal_file jdir :: (b_Backup <$> B).
Lemma recoverable_frame `{StrictJson hostJournal} m m' :
  (forall q, q ∈ evidence -> m' !! q = m !! q) -> recoverable m -> recoverable m'.
Proof.
  intros Heq [(n & j & rest & Hn & Hj) Hb]. split.
  - exists n, j, rest. by rewrite Heq by (by left).
  - rewrite Forall_forall in Hb |- *. intros b Hin He. rewrite Heq; [by apply Hb|]. right. by apply list_elem_of_fmap_2.
Qed.
Lemma all_back_frame m m' : (forall b, b ∈ B -> m' !! b_Path b = m !! b_Path b) -> all_back m -> all_back m'.
Proof.
  intros Heq. unfold all_back. rewrite !Forall_forall. intros Hb b Hin. specialize (Hb b Hin). unfold put_back_file in *.
  by rewrite Heq.
Qed.
End Recoverable.

(** ** The state roots of an installation

    What [stateDirectories] returns depends on the manifest alone. *)

Definition root_step (dirs : option (list string)) (p : string) : option (list string) :=
  match dirs with
  | None => None
  | Some dirs => (fun found : bool => if found then dirs else dirs ++ [dir p])%list <$> find_root (dir p) dirs false
  end.
Definition state_roots (m : Manifest) : option (list string) :=
  fold_left root_step [mf_CredentialsFile m; mf_RuntimeStateFile m; mf_PrivilegedStateFile m; mf_ReplayStateFile m] (Some []).
Lemma stateDirectories_roots E m h dirs h' : stateDirectories E m h = (Ok dirs, h') -> state_roots m = Some dirs.
Proof.
  unfold stateDirectories, state_roots. generalize [mf_CredentialsFile m; mf_RuntimeStateFile m; mf_PrivilegedStateFile m; mf_ReplayStateFile m] as ps.
  intros ps. revert h. generalize (@nil string) as acc.
  induction ps as [|p ps IH]; intros acc h Hr; cbn [h_fold fold_left] in *; [by apply h_ret_ok in Hr as [-> _]|].
  h_ok1 Hr. apply IH in Hr. rewrite <- Hr. f_equal. unfold add_root in H. do 2 (h_ok1 H; apply require_ok in H0 as [_ ->]).
  simpl. destruct (find_root (dir p) acc false) as [[]|]; [by apply h_ret_ok in H as [-> _]| |done].
  h_ok1 H. by apply h_ret_ok in H as [-> _].
Qed.

(** ** The layout the transaction relies on *)

(** The journal directory, the files of the transaction and the state roots are
    apart, and services write in none but the state roots. *)
Record tx_layout (E : Env) (jdir : string) (m : Manifest) (dirs : list string) (B : list fileBackup) : Prop := {
  lay_roots : state_roots m = Some dirs;
  lay_backups : forall b, b ∈ B -> exists n, b_Backup b = backup_path jdir n;
  lay_paths : forall b, b ∈ B -> b_Path b ∈ transaction_paths m;
  lay_nodup : NoDup (b_Path <$> B);
  lay_dirs : forall d q, d ∈ dirs -> under jdir q = true -> under d q = false;
  lay_written : forall p, p ∈ helper_state m :: transaction_paths m -> under jdir p = false /\ not_temp p;
  lay_state : forall d p, d ∈ dirs -> p ∈ transaction_paths m -> under d p = false;
  lay_services : forall t fs q, under jdir q = true \/ q ∈ transaction_paths m -> e_daemon E t fs !! q = fs !! q;
}.

Lemma chars_backup n : sep ∉ chars ("backup-" ++ utoa (Z.of_nat n)).
Proof. apply sep_app. by apply sep_free_const. Qed.
Section Crash.
Context (E : Env) (N : Panel).
Context `{Crypto} `{ProtoTime} `{Wire SignedInstruction} `{Json (option entries)} `{Wire PrivilegedRevision} `{Wire HostOperation}.
Context `{StrictJson Manifest} `{StrictJson Policy} `{StrictJson Trust} `{StrictJson AccessConfig} `{Json Identity}.
Context `{Json hostJournal} `{StrictJson hostJournal} `{Json Policy} `{Json Config} `{Json AppliedRecord} `{Json RescueConfig}.
Context `{Wire ReportHostOperationRequest} `{StrictJson HelperStatus} `{HostPhases}.
Variable iter : entries -> list (string * time).
Variable parse_url : string -> option Url.

Variables (jdir : string) (m : Manifest) (dirs : list string) (B : list fileBackup) (original : string -> string).
Hypothesis Hlay : tx_layout E jdir m dirs B.
Abbreviation I := (journal_of B dirs).
Abbreviation P := (recoverable jdir B original dirs).

(** The documented round trip of the journal's codec, as far as it is relied
    on: a journal of this transaction reads back as one. *)
Hypothesis Hcodec : forall j s, I j -> json_marshal j = Some s ->
  exists j' rest, decode_strict (s ++ newline) = Some (j', rest) /\ at_eof rest = true /\ I j'.

Lemma evidence_spec q : q ∈ evidence jdir B -> under jdir q = true /\ not_temp q.
Proof.
  intros [->|(b & -> & Hb)%list_elem_of_fmap]%elem_of_cons.
  - split; [apply under_child|]. apply plain_not_temp; [by apply sep_free_const|done].
  - destruct (lay_backups _ _ _ _ _ Hlay b Hb) as [n ->]. split; [apply under_child|].
    apply plain_not_temp; [apply chars_backup|done].
Qed.
Lemma stable_off p : p ∉ evidence jdir B -> stable_at p P.
Proof.
  intros Hp fs HP. split; [|intros n]; (eapply recoverable_frame; [|exact HP]); intros q Hq;
    [apply lookup_delete_ne|apply lookup_insert_ne]; by intros ->.
Qed.
Lemma stable_outside p : under jdir p = false -> stable_at p P.
Proof. intros Hp. apply stable_off. intros [Hq _]%evidence_spec. congruence. Qed.
Lemma stable_temps_tx : stable_temps P.
Proof. intros d s Hs. apply stable_off. intros [_ Hq]%evidence_spec. by apply (Hq d s). Qed.
Lemma stable_new_tx : stable_new P.
Proof.
  intros fs p n HP Hn. pose proof HP as [(nj & j & rest & Hnj & _) Hb].
  destruct (decide (p ∈ evidence jdir B)) as [Hp|Hp]; [|by apply stable_off].
  split.
  - destruct HP as [(nj' & j' & rest' & Hnj' & Hj') _]. exists nj', j', rest'. split; [|done].
    rewrite lookup_insert_ne; [done|]. intros ->. congruence.
  - rewrite Forall_forall in Hb |- *. intros b Hin He. destruct (Hb b Hin He) as (x & Hx & ?). exists x. split; [|done].
    rewrite lookup_insert_ne; [done|]. intros ->. congruence.
Qed.
Lemma services_keep_tx : services_keep E P.
Proof.
  intros t fs HP. eapply recoverable_frame; [|exact HP]. intros q Hq. apply (lay_services _ _ _ _ _ Hlay). left.
  by apply evidence_spec.
Qed.
Lemma stable_dirs q : in_dirs dirs q -> stable_at q P.
Proof.
  intros (d & Hd & Hu). apply stable_outside. apply not_true_iff_false. intros Hj.
  apply (lay_dirs _ _ _ _ _ Hlay d _ Hd) in Hj. congruence.
Qed.
Lemma stable_written p : p ∈ helper_state m :: transaction_paths m -> stable_at p P.
Proof. intros Hp. apply stable_outside. by apply (lay_written _ _ _ _ _ Hlay). Qed.

Lemma recoverable_new_journal fs n j d :
  P fs -> I j -> json_marshal j = Some d -> written (d ++ newline) 384 None n -> P (<[journal_file jdir := n]> fs).
Proof.
  intros [_ Hb] Hj Hd (Hk & Hdata & _). destruct (Hcodec j d Hj Hd) as (j' & rest & Hdec & Heof & Hj'). split.
  - exists n, j', rest. rewrite lookup_insert_eq, Hdata. unfold is_reg. rewrite Hk. by rewrite bool_decide_eq_true_2.
  - rewrite Forall_forall in Hb |- *. intros b Hin He. destruct (Hb b Hin He) as (x & Hx & ?). exists x. split; [|done].
    rewrite lookup_insert_ne; [done|]. destruct (lay_backups _ _ _ _ _ Hlay b Hin) as [k ->]. unfold journal_file, backup_path.
    intros Heq%child_inj. apply (f_equal chars) in Heq. rewrite chars_app in Heq. discriminate Heq.
Qed.
Lemma hk_save_tx : hkeeps I P (save E jdir).
Proof.
  apply hk_with_j. intros j Hj.
  unfold WriteJSON. destruct (json_marshal j) as [d|] eqn:Ed; cbn [h_lift].
  - change (hkeeps I P (AtomicWrite E (journal_file jdir) (d ++ newline) 384)).
    apply hkeeps_atomic_write; [apply stable_temps_tx|apply evidence_spec; by left|].
    intros fs n HP Hn. by eapply recoverable_new_journal.
  - by apply hk_same.
Qed.
Lemma journal_gain recovery j e :
  I j -> in_dirs dirs (w_Path e) -> I (set_captured recovery (captured recovery j ++ [e])%list j).
Proof.
  intros (Hp & Hb & Ho) He. split; [done|]. split; [done|]. apply Forall_app in Ho as [Ho Hr].
  destruct recovery; simpl; rewrite !Forall_app; auto.
Qed.
Lemma journal_stage v j : I j -> I (set_FenceStage v j).
Proof. done. Qed.
Lemma journal_phase v j : interrupted v -> I j -> I (set_Phase v j).
Proof. by intros Hv (_ & ? & ?). Qed.
Hint Resolve stable_temps_tx stable_new_tx services_keep_tx stable_dirs hk_save_tx journal_gain journal_stage : host.

Lemma hk_fence_tx owner recovery : hkeeps I P (fenceStateDirectories E jdir dirs owner recovery).
Proof.
  apply hk_fence; [apply hk_save_tx|apply stable_temps_tx|apply stable_dirs|apply journal_gain|apply journal_stage].
Qed.
Lemma hk_write_tx {A} `{Json A} p (a : A) mode : p ∈ transaction_paths m -> hkeeps I P (WriteJSON E p a mode).
Proof.
  intros Hp. apply hk_write_json; [apply stable_temps_tx|apply (lay_written _ _ _ _ _ Hlay); by right|apply stable_written; by right].
Qed.
Lemma hk_atomic_tx p d mode owner : p ∈ transaction_paths m -> hkeeps I P (h_atomic_write E p d mode owner).
Proof.
  intros Hp. apply hk_atomic_write_off; [apply stable_temps_tx|apply (lay_written _ _ _ _ _ Hlay); by right|apply stable_written; by right].
Qed.
Lemma stable_tx p : p ∈ transaction_paths m -> stable_at p P.
Proof. intros Hp. apply stable_written. by right. Qed.
Lemma stable_helper_state : stable_at (helper_state m) P.
Proof. apply stable_written. by left. Qed.
Hint Extern 3 (_ ∈ transaction_paths _) => solve [unfold transaction_paths; in_list] : host.
Hint Resolve hk_fence_tx hk_write_tx hk_atomic_tx stable_tx stable_helper_state : host.

Lemma hk_check_lease x : hkeeps I P (check_lease E N iter x).
Proof. unfold check_lease. hk. Qed.
Lemma hk_write_profile x p gid : pl_manifest x = m -> hkeeps I P (write_profile E jdir x p gid).
Proof.
  intros Hm. unfold write_profile. rewrite Hm. apply hk_bind; [apply hk_set_j; apply journal_stage|]. intros _. unfold AtomicWrite. hk.
Qed.
Lemma hk_change_helper x p : pl_manifest x = m -> hkeeps I P (change_helper E x p).
Proof.
  intros Hm. unfold change_helper, installHelper, AtomicWrite. rewrite Hm. hk.
  apply hk_remove_if_present, stable_tx. unfold transaction_paths.
  match goal with Hin : _ ∈ _ |- _ => repeat (apply elem_of_cons in Hin as [->|Hin]; [in_list|]); by apply elem_of_nil in Hin end.
Qed.
Lemma hk_start_target x p uid : hkeeps I P (start_target E x p uid).
Proof. unfold start_target. hk. Qed.
Hint Resolve hk_check_lease hk_write_profile hk_change_helper hk_start_target : host.

Lemma hk_change_all j target : I j -> hkeeps I P (changeOwnership E (j_Ownership j) target).
Proof.
  intros (_ & _ & Hj). apply (hk_changeOwnership E I P dirs stable_dirs). by apply Forall_app in Hj as [? _].
Qed.
Hint Resolve hk_change_all : host.
Lemma hk_execute x : pl_manifest x = m -> pl_dirs x = dirs -> hkeeps I P (executeTransaction E N iter jdir x).
Proof. intros Hm Hd. unfold executeTransaction. rewrite Hm, Hd. hk. Qed.

(** From the durable [mutating] marker on, a crash of the transaction loses
    nothing: every file system it goes through, whatever fails, whatever the
    panel and the services do, holds a journal that reads back with the reviewed
    backups and state roots, and every backup with the contents it was taken
    of. *)
Theorem executeTransaction_recoverable x h r h' :
  pl_manifest x = m -> pl_dirs x = dirs -> journal_of B dirs (h_j h) -> recoverable jdir B original dirs (h_fs h) ->
  executeTransaction E N iter jdir x h = (r, h') ->
  journal_of B dirs (h_j h') /\ recoverable jdir B original dirs (h_fs h') /\
  exists new, h_trace h' = (new ++ h_trace h)%list /\ Forall (recoverable jdir B original dirs) new.
Proof.
  intros Hm Hd HI HP Hr. destruct (hspec_run _ _ _ _ _ _ _ _ (hk_execute x Hm Hd) HI HP Logic.I Hr) as (? & [? ?] & _).
  by split_and!.
Qed.

(** ** The way back *)

Lemma hk_restore_backup b : b ∈ B -> hkeeps I P (restore_backup E b).
Proof.
  intros Hb. apply (lay_paths _ _ _ _ _ Hlay) in Hb. unfold restore_backup, AtomicWriteOwned. hk.
Qed.
Lemma journal_owns j : I j -> Forall (fun e => in_dirs dirs (w_Path e)) (j_Ownership j ++ j_RecoveryOwnership j)%list.
Proof. by intros (_ & _ & ?). Qed.
Hint Resolve hk_restore_backup hk_restoreState journal_owns : host.
Lemma hk_stop_target : hkeeps I P (stop_target E m).
Proof. unfold stop_target. hk. Qed.
Lemma hk_restart_original : hkeeps I P (restart_original E m).
Proof. unfold restart_original. hk. Qed.
Hint Resolve hk_stop_target hk_restart_original : host.

Lemma hk_with_roots {A} (k : list string -> HM A) :
  hkeeps I P (k dirs) -> hkeeps I P (h_bind (stateDirectories E m) k).
Proof.
  intros Hk. eapply hspec_bind.
  - apply (hspec_always I P _ (eq dirs)); [apply hk_stateDirectories|]. intros h ds h' Es.
    apply stateDirectories_roots in Es. rewrite (lay_roots _ _ _ _ _ Hlay) in Es. by injection Es.
  - intros ds h HI HP <-. exact (Hk h HI HP Logic.I).
Qed.
Lemma hk_put_back : hkeeps I P (put_back E parse_url jdir m).
Proof.
  unfold put_back. apply hk_bind; [apply hk_stop_target|]. intros _. apply hk_with_roots.
  apply hk_bind; [apply hk_ReadTrust|]. intros t. apply hk_bind; [apply hk_lift|]. intros [uid gid].
  apply hk_bind; [apply hk_lift|]. intros owner. apply hk_bind; [apply hk_fence_tx|]. intros _.
  apply hk_with_j. intros j (_ & -> & _). apply hk_bind; [|intros _; by hk]. apply hk_iter. intros b Hb. rewrite elem_of_rev in Hb. by apply hk_restore_backup.
Qed.

Lemma remove_ok p h a h' : remove_if_present E p h = (Ok a, h') -> h_fs h' = delete p (h_fs h) /\ h_j h' = h_j h.
Proof.
  intros Hr. unfold remove_if_present in Hr. apply h_bind_ok in Hr as (r & h1 & Hx & Hr). apply h_try_ok in Hx.
  unfold h_remove, sys in Hx. destruct (e_fault E (h_tick h)); [injection Hx as <- <-; discriminate Hr|].
  simpl in Hx. destruct (h_fs h !! p) as [n|] eqn:En.
  - destruct (is_dir n && _); injection Hx as <- <-; [discriminate Hr|]. by apply h_ret_ok in Hr as [_ ->].
  - injection Hx as <- <-. apply h_ret_ok in Hr as [_ ->]. simpl. by rewrite delete_id.
Qed.
Lemma restore_backup_ok b h a h' :
  b ∈ B -> Forall (backup_intact original (h_fs h)) B -> restore_backup E b h = (Ok a, h') ->
  put_back_file original (h_fs h') b /\ (forall q, q <> b_Path b -> h_fs h' !! q = h_fs h !! q) /\ h_j h' = h_j h.
Proof.
  intros Hb Hall Hr. unfold restore_backup in Hr. unfold put_back_file. destruct (b_Exists b) eqn:Ee; cbn [negb] in Hr.
  - apply h_bind_ok in Hr as (d & h1 & Hd & Hr). apply read_fs_ok in Hd as [Hd ->].
    rewrite Forall_forall in Hall. destruct (Hall b Hb Ee) as (x & Hx & Hdir & Hdata). rewrite Hx, Hdir in Hd. injection Hd as <-.
    apply atomic_write_ok in Hr as (n & Hn & _ & Hfs & _ & Hj).
    + cbn [h_fs ticked] in Hfs. rewrite Hfs, Hdata in *. split_and!; [|by intros q Hq; apply lookup_insert_ne|done].
      exists n. by rewrite lookup_insert_eq.
    + apply (lay_written _ _ _ _ _ Hlay). right. by apply (lay_paths _ _ _ _ _ Hlay).
  - apply remove_ok in Hr as [-> Hj]. split_and!; [apply lookup_delete_eq|by intros q Hq; apply lookup_delete_ne|done].
Qed.
Lemma path_not_evidence b q : b ∈ B -> q ∈ evidence jdir B -> q <> b_Path b.
Proof.
  intros Hb [Hq _]%evidence_spec ->. apply (lay_paths _ _ _ _ _ Hlay) in Hb.
  destruct (lay_written _ _ _ _ _ Hlay (b_Path b)) as [Hw _]; [by right|congruence].
Qed.
Lemma intact_frame fs fs' :
  (forall q, q ∈ evidence jdir B -> fs' !! q = fs !! q) -> Forall (backup_intact original fs) B -> Forall (backup_intact original fs') B.
Proof.
  intros Heq. rewrite !Forall_forall. intros Hall b Hb He. rewrite Heq; [by apply Hall|]. right. by apply list_elem_of_fmap_2.
Qed.
Lemma restore_all_ok l h a h' :
  (forall b, b ∈ l -> b ∈ B) -> NoDup (b_Path <$> l) -> Forall (backup_intact original (h_fs h)) B ->
  h_iter (restore_backup E) l h = (Ok a, h') ->
  Forall (put_back_file original (h_fs h')) l /\ (forall q, q ∉ b_Path <$> l -> h_fs h' !! q = h_fs h !! q).
Proof.
  unfold h_iter. generalize tt as u. revert h. induction l as [|b l IH]; intros h u Hl Hnd Hall Hr; cbn [h_fold] in Hr.
  { apply h_ret_ok in Hr as [_ ->]. by split. }
  apply h_bind_ok in Hr as (u1 & h1 & Hb & Hr). apply NoDup_cons in Hnd as [Hnb Hnd].
  apply restore_backup_ok in Hb as (Hput & Hoff & _); [|apply Hl; by left|done].
  apply IH in Hr as [Hrest Hoff2]; [|intros x Hx; apply Hl; by right|done|].
  - split.
    + constructor; [|done]. unfold put_back_file in *. by rewrite Hoff2.
    + intros q Hq. rewrite Hoff2, Hoff; [done|set_solver|set_solver].
  - eapply intact_frame; [|exact Hall]. intros q Hq. apply Hoff. apply path_not_evidence; [apply Hl; by left|done].
Qed.

(** Once every file is back, nothing that follows touches one. *)
Abbreviation Back := (all_back B original).
Lemma stable_back p : p ∉ transaction_paths m -> stable_at p Back.
Proof.
  intros Hp fs HP. split; [|intros n]; (eapply all_back_frame; [|exact HP]); intros b Hb%(lay_paths _ _ _ _ _ Hlay);
    [apply lookup_delete_ne|apply lookup_insert_ne]; by intros ->.
Qed.
Lemma stable_temps_back : stable_temps Back.
Proof.
  intros d s Hs. apply stable_back. intros Hp. destruct (lay_written _ _ _ _ _ Hlay _ (list_elem_of_further _ _ _ Hp)) as [_ Hnt].
  by apply (Hnt d s).
Qed.
Lemma stable_back_dirs q : in_dirs dirs q -> stable_at q Back.
Proof. intros (d & Hd & Hu). apply stable_back. intros Hp. rewrite (lay_state _ _ _ _ _ Hlay d q Hd Hp) in Hu. discriminate Hu. Qed.
Lemma services_keep_back : services_keep E Back.
Proof.
  intros t fs HP. eapply all_back_frame; [|exact HP]. intros b Hb. apply (lay_services _ _ _ _ _ Hlay). right.
  by apply (lay_paths _ _ _ _ _ Hlay).
Qed.
Lemma journal_file_back : stable_at (journal_file jdir) Back.
Proof.
  apply stable_back. intros Hp. destruct (lay_written _ _ _ _ _ Hlay _ (list_elem_of_further _ _ _ Hp)) as [Hu _].
  unfold journal_file in Hu. by rewrite under_child in Hu.
Qed.
Lemma hk_save_back : hkeeps (fun _ => True) Back (save E jdir).
Proof.
  unfold save. apply hk_with_j. intros j _. apply hk_write_json; [apply stable_temps_back|apply evidence_spec; by left|apply journal_file_back].
Qed.

Lemma hk_restart_original_back : hkeeps I Back (restart_original E m).
Proof. pose proof services_keep_back. unfold restart_original. hk. Qed.
Lemma put_back_ok h a h' : I (h_j h) -> P (h_fs h) -> put_back E parse_url jdir m h = (Ok a, h') -> Back (h_fs h').
Proof.
  intros HI HP Hr. unfold put_back in Hr.
  apply h_bind_ok in Hr as (u0 & h0 & H_ & Hr). apply (hk_run _ _ _ _ _ _ hk_stop_target HI HP) in H_ as (HI0 & HP0 & _).
  apply h_bind_ok in Hr as (ds & h1 & H_ & Hr). assert (ds = dirs) as ->.
  { apply stateDirectories_roots in H_. rewrite (lay_roots _ _ _ _ _ Hlay) in H_. by injection H_. }
  apply (hk_run _ _ _ _ _ _ (hk_stateDirectories E I P m) HI0 HP0) in H_ as (HI1 & HP1 & _).
  apply h_bind_ok in Hr as (t & h2 & H_ & Hr). apply (hk_run _ _ _ _ _ _ (hk_ReadTrust E I P parse_url m) HI1 HP1) in H_ as (HI2 & HP2 & _).
  apply h_bind_ok in Hr as ([uid gid] & h3 & [_ ->]%h_lift_ok & Hr). apply h_bind_ok in Hr as (owner & h4 & [_ ->]%h_lift_ok & Hr).
  apply h_bind_ok in Hr as (u1 & h5 & H_ & Hr). apply (hk_run _ _ _ _ _ _ (hk_fence_tx owner true) HI2 HP2) in H_ as (HI5 & HP5 & _).
  apply h_bind_ok in Hr as (j & h6 & [-> ->]%get_j_ok & Hr). destruct (HI5) as (_ & Hbk & _). rewrite Hbk in Hr.
  apply h_bind_ok in Hr as (u2 & h7 & Hloop & Hr). pose proof Hloop as Hkeep.
  apply (hk_run I P _ _ _ _ (hk_iter I P (restore_backup E) (rev B) (fun b Hb => hk_restore_backup b (proj1 (elem_of_rev _ _) Hb))) HI5 HP5)
    in Hkeep as (HI7 & _ & _).
  apply restore_all_ok in Hloop as [Hall _]; [|by intros b Hb; rewrite elem_of_rev in Hb| |apply HP5].
  2: { rewrite <- (Permutation_rev B). apply (lay_nodup _ _ _ _ _ Hlay). }
  assert (HB : Back (h_fs h7)).
  { unfold all_back. rewrite Forall_forall in Hall |- *. intros b Hb. apply Hall. by apply elem_of_rev. }
  apply h_bind_ok in Hr as (u3 & h8 & H_ & Hr).
  apply (hk_run I Back _ _ _ _ (hk_restoreState E I Back dirs stable_back_dirs journal_owns) HI7 HB) in H_ as (HI8 & HB8 & _).
  by apply (hk_run I Back _ _ _ _ (hk_restart_original_back) HI8 HB8) in Hr as (_ & ? & _).
Qed.
(** The last two steps of a restoration. *)
Definition close_restoration : HM unit := set_j (set_Phase "restored") ;;; save E jdir.
Lemma hk_close : hkeeps (fun _ => True) Back close_restoration.
Proof. unfold close_restoration. apply hk_bind; [by apply hk_set_j|]. intros _. apply hk_save_back. Qed.
Lemma hk_open_restoration : hkeeps I P (set_j (set_Phase "restoring") ;;; save E jdir).
Proof. apply hk_bind; [apply hk_set_j; intros j; apply journal_phase; right; by right|]. intros _. apply hk_save_tx. Qed.

Lemma h_bind_assoc {A1 A2 A3} (p : HM A1) (k1 : A1 -> HM A2) (k2 : A2 -> HM A3) h :
  h_bind p (fun a => h_bind (k1 a) k2) h = h_bind (h_bind p k1) k2 h.
Proof. unfold h_bind. by destruct (p h) as [[a|e] h1]. Qed.
(** A restoration: the marker, the work, the closing. *)
Lemma restoreTransaction_parts h :
  restoreTransaction E parse_url jdir m h =
  ((set_j (set_Phase "restoring") ;;; save E jdir) ;;; (put_back E parse_url jdir m ;;; close_restoration)) h.
Proof. unfold restoreTransaction. apply (h_bind_assoc (set_j (set_Phase "restoring")) (fun _ => save E jdir)). Qed.

(** A restoration may be interrupted too: every file system it goes
    through either can still be recovered from, or has every file of the
    transaction back already. *)
Theorem restoreTransaction_recoverable h r h' :
  journal_of B dirs (h_j h) -> recoverable jdir B original dirs (h_fs h) -> restoreTransaction E parse_url jdir m h = (r, h') ->
  exists new, h_trace h' = (new ++ h_trace h)%list /\
    Forall (fun fs => recoverable jdir B original dirs fs \/ all_back B original fs) (h_fs h' :: new).
Proof.
  intros HI HP Hr. rewrite restoreTransaction_parts in Hr. unfold h_bind at 1 in Hr.
  destruct ((set_j (set_Phase "restoring") ;;; save E jdir) h) as [r0 h0] eqn:E0.
  apply (hk_run _ _ _ _ _ _ hk_open_restoration HI HP) in E0 as (HI0 & HP0 & G0).
  assert (Hw : forall k k', hgrows P k k' -> hgrows (fun fs => P fs \/ Back fs) k k').
  { intros k k' (HQ & new & Hn & HF). split; [by left|]. exists new. split; [done|]. eapply Forall_impl; [exact HF|]. by left. }
  assert (Hend : hgrows (fun fs => P fs \/ Back fs) h h' ->
    exists new, h_trace h' = (new ++ h_trace h)%list /\ Forall (fun fs => P fs \/ Back fs) (h_fs h' :: new)).
  { intros (HQ & new & Hn & HF). exists new. split; [done|]. by constructor. }
  apply Hend. destruct r0 as [[]|e]; [|injection Hr as _ <-; by apply Hw].
  unfold h_bind at 1 in Hr. destruct (put_back E parse_url jdir m h0) as [r1 h1] eqn:E1. pose proof E1 as Eback.
  apply (hk_run _ _ _ _ _ _ hk_put_back HI0 HP0) in E1 as (HI1 & HP1 & G1).
  eapply hgrows_trans; [apply Hw, G0|]. destruct r1 as [[]|e]; [|injection Hr as _ <-; by apply Hw].
  eapply hgrows_trans; [apply Hw, G1|]. apply put_back_ok in Eback; [|done|done].
  apply (hk_run (fun _ => True) Back _ _ _ _ hk_close Logic.I Eback) in Hr as (_ & _ & (HQ & new & Hn & HF)).
  split; [by right|]. exists new. split; [done|]. eapply Forall_impl; [exact HF|]. by right.
Qed.

Lemma restored_ok h a h' :
  I (h_j h) -> P (h_fs h) -> restoreTransaction E parse_url jdir m h = (Ok a, h') -> Back (h_fs h').
Proof.
  intros HI HP Hr. rewrite restoreTransaction_parts in Hr.
  apply h_bind_ok in Hr as (u0 & h0 & H0_ & Hr). apply (hk_run _ _ _ _ _ _ hk_open_restoration HI HP) in H0_ as (HI0 & HP0 & _).
  apply h_bind_ok in Hr as (u1 & h1 & H1_ & Hr). apply put_back_ok in H1_; [|done|done].
  by apply (hk_run (fun _ => True) Back _ _ _ _ hk_close Logic.I H1_) in Hr as (_ & ? & _).
Qed.
Lemma read_journal_ok h j h' : P (h_fs h) -> h_read_json E (journal_file jdir) h = (Ok j, h') -> I j /\ h_fs h' = h_fs h.
Proof.
  intros [(n & j0 & rest & Hn & _ & Hdec & Heof & Hj0) _] Hr. unfold h_read_json in Hr.
  apply h_bind_ok in Hr as (u & h1 & [_ ->]%trusted_ok & Hr).
  apply h_bind_ok in Hr as (n1 & h2 & (Hn1 & _ & ->)%open_nofollow_ok & Hr). cbn [h_fs ticked] in Hn1. rewrite Hn in Hn1. injection Hn1 as <-.
  apply h_bind_ok in Hr as (u1 & h3 & [_ ->]%require_ok & Hr). rewrite Hdec, Heof in Hr. by apply h_ret_ok in Hr as [-> ->].
Qed.

(** C2: kill the transaction anywhere, read the journal it left and restore:
    when the restoration succeeds, every file of the transaction has the
    contents, mode and owner its backup recorded, and the files that did not
    exist are gone. *)
Theorem interrupted_then_restored x h r h' fs h1 j h2 a h3 b :
  pl_manifest x = m -> pl_dirs x = dirs -> journal_of B dirs (h_j h) -> recoverable jdir B original dirs (h_fs h) ->
  executeTransaction E N iter jdir x h = (r, h') ->
  fs = h_fs h' \/ fs ∈ take (length (h_trace h') - length (h_trace h)) (h_trace h') ->
  h_fs h1 = fs -> h_read_json E (journal_file jdir) h1 = (Ok j, h2) ->
  restoreTransaction E parse_url jdir m (mkHost (h_fs h2) (h_ino h2) (h_tick h2) j (h_trace h2)) = (Ok a, h3) ->
  b ∈ B -> put_back_file original (h_fs h3) b.
Proof.
  intros Hm Hd HI HP Hrun Hfs Hh1 Hread Hrest Hb.
  apply (hk_run _ _ _ _ _ _ (hk_execute x Hm Hd) HI HP) in Hrun as (_ & _ & (HP' & new & Htr & Hnew)).
  assert (HPfs : P fs).
  { destruct Hfs as [->|Hin]; [done|]. rewrite Htr, length_app in Hin. rewrite Forall_forall in Hnew. apply Hnew.
    replace (length new + length (h_trace h) - length (h_trace h))%nat with (length new) in Hin by lia.
    by rewrite take_app_length in Hin. }
  apply read_journal_ok in Hread as [HIj Hfs2]; [|by rewrite Hh1].
  apply restored_ok in Hrest; [|done|cbn [h_fs]; by rewrite Hfs2, Hh1]. unfold all_back in Hrest. rewrite Forall_forall in Hrest. by apply Hrest.
Qed.
End Crash.
