(* ===== verification/HostUpgrade.v ===== *)
(** * Software upgrades of an installed host
    ([internal/hostcmd/upgrade_state_linux.go], [upgrade_linux.go], [platform_linux.go])

    The daemon, the host tool and the rescue helper of one release replace the
    installed ones together. The originals are backed up before anything is
    stopped, in a directory with a journal; a failure puts them back; a retry
    after a crash goes on from the same backups. Without a helper, [update]
    replaces the daemon alone. *)

From S2P Require Import Prelude.
From S2P Require Import GoStd.
From S2P Require Import GoPath.
From S2P Require Import External.
From S2P Require Import Credentials.
From S2P Require Import Signing.
From S2P Require Import Privileged.
From S2P Require Import HostOps.
From S2P Require Import Systemd.
From S2P Require Import HostFs.
From S2P Require Import HostService.
From S2P Require Import HostPolicy.
From S2P Require Import HostBootstrap.
From S2P Require Import HostSeal.
From S2P Require Import HostPanel.
From S2P Require Import HostFetch.
From S2P Require Import HostTx.
From S2P Require Import HostFrame.

Local Open Scope string_scope.
Local Open Scope Z_scope.
Local Open Scope host_scope.

Record softwareUpgrade := mkUpgrade {
  su_Phase : string; su_Version : string; su_Manifest : string; su_Paths : list string; su_Modes : list Z;
  su_Active : list bool; su_At : time; su_PreviousAttempt : string }.
Definition upgradePaths (m : Manifest) : list string := [mf_Executable m; mf_HostTool m; helperBinary m; helperConfig m].

(** [update.json]: the document of [update]. *)
Record updateJournal := mkUpdate { uj_phase : string; uj_sha256 : option string; uj_service : string; uj_at : time }.

(** ** Pure checks *)

(** The [i]-th mode: nothing but permission bits, not writable by others,
    readable; executable for the three programs, private for the configuration. *)
Definition safe_mode (i : nat) (mode : Z) : bool :=
  (Z.ldiff mode 511 =? 0) && (Z.land mode 18 =? 0) && negb (Z.land mode 256 =? 0) &&
  (if Nat.ltb i 3 then negb (Z.land mode 73 =? 0) else Z.land mode 63 =? 0).
Fixpoint safe_modes (i : nat) (modes : list Z) : bool :=
  match modes with
  | [] => true
  | mode :: modes => safe_mode i mode && safe_modes (S i) modes
  end.
Definition validateUpgradeJournal (m : Manifest) (s : softwareUpgrade) : result unit cmd_err :=
  guard? existsb (String.eqb (su_Phase s)) ["prepared"; "replacing"; "restore_failed"] else EUpgradePhase in
  guard? (su_Manifest s =? mf_ManifestPath m)%string && bool_decide (su_Paths s = upgradePaths m) &&
         Nat.eqb (length (su_Modes s)) 4 && Nat.eqb (length (su_Active s)) 2 else EUpgradeJournal in
  guard? safe_modes 0 (su_Modes s) else EUpgradeModes in
  Ok tt.

(** The lexicographic order of [sort.Strings]. *)
Fixpoint insert_sorted (s : string) (l : list string) : list string :=
  match l with
  | [] => [s]
  | x :: r => if String.leb s x then s :: l else x :: insert_sorted s r
  end.
Definition sort_strings (l : list string) : list string := fold_right insert_sorted [] l.

Section Upgrade.
Context (E : Env).
(** An HTTP answer, and the platform. *)
Variable http : nat -> string -> option (Z * Z * bytes).
Variables goos goarch : string.
Context `{Crypto} `{Json ReleasePayload} `{Json ReleaseManifest} `{StrictJson ReleaseManifest}.
Context `{StrictJson Manifest} `{StrictJson Policy} `{StrictJson Trust} `{StrictJson AccessConfig}.
Context `{StrictJson softwareUpgrade} `{Json softwareUpgrade} `{StrictJson RescueConfig} `{Json RescueConfig} `{Json updateJournal}.
Variable parse_url : string -> option Url.
(** [ReleaseVersion] of this build. *)
Variable ReleaseVersion : string.

Definition lift_result {A} (r : result A cmd_err) : HM A := match r with Ok a => h_ret a | Err e => h_err e end.

(** ** What is pending *)

Definition noPendingHostTransaction (m : Manifest) : HM unit :=
  let! st := h_try (h_lstat E (journal_file (journalDir m))) in
  match st with
  | Ok _ => h_err ETransactionPending
  | Err ENotExist => h_ret tt
  | Err e => h_err e
  end.

(** [filepath.Glob(dir/upgrade-*/upgrade.json)]: an error of reading a directory
    is an empty directory. *)
Definition names_of (p : string) : HM (list string) :=
  let! r := h_try (read_fs E (fun _ m =>
    match m !! p with Some n => if is_dir n then Ok (children p m) else Err ENotExist | None => Err ENotExist end)) in
  h_ret (match r with Ok l => l | Err _ => [] end).
Definition glob_upgrades (jdir : string) : HM (list string) :=
  let! names := names_of jdir in
  h_fold (fun found name =>
      let d := child jdir name in
      let! inner := names_of d in
      h_ret (found ++ (if existsb (String.eqb "upgrade.json") inner then [child d "upgrade.json"] else []))%list)
    (sort_strings (List.filter (fun n => has_prefix n "upgrade-") names)) [].

Definition pendingSoftwareUpgrade (m : Manifest) : HM (option (softwareUpgrade * string)) :=
  let! paths := glob_upgrades (journalDir m) in
  h_fold (fun pending path =>
      let! state := h_read_json E path in
      if (su_Phase state =? "completed")%string || (su_Phase state =? "restored")%string then h_ret pending else
      lift_result (validateUpgradeJournal m state) ;;;
      match pending with
      | Some _ => h_err EMultiplePending
      | None => h_ret (Some (state, dir path))
      end) paths None.
Definition rejectPendingSoftwareUpgrade (m : Manifest) : HM unit :=
  let! s := pendingSoftwareUpgrade m in
  match s with Some _ => h_err EUpgradePending | None => h_ret tt end.

Definition backup_file (d : string) (i : nat) : string := child d (utoa (Z.of_nat i)).
Definition read_original (d : string) (acc : list bytes) (i : nat) : HM (list bytes) :=
  let path := backup_file d i in
  h_trusted E path ;;;
  let! info := h_lstat E path in
  require (is_reg info && (slen (n_data info) <=? maxStateFileBytes)) EUpgradeBackup ;;;
  let! b := h_read E path in
  require (negb (Nat.ltb i 3) || has_prefix b elf_magic) EUpgradeBackup ;;;
  h_ret (acc ++ [b])%list.
Definition readUpgradeBackups (m : Manifest) (s : softwareUpgrade) (d : string) : HM (list bytes) :=
  lift_result (validateUpgradeJournal m s) ;;;
  h_fold (read_original d) [0; 1; 2; 3]%nat [].

Definition with_manifest_path (p : string) (m : Manifest) : Manifest :=
  mkManifest (mf_Version m) (mf_ServiceName m) (mf_ServiceUser m) (mf_InitSystem m) (mf_Executable m) (mf_HostTool m)
    (mf_HostPolicyFile m) (mf_ConfigFile m) (mf_CredentialsFile m) (mf_RuntimeStateFile m) (mf_PrivilegedStateFile m)
    (mf_ReplayStateFile m) p.
Definition validateUpgradeConfig (m : Manifest) (t : Trust) (cfg : RescueConfig) : HM unit :=
  let! hm := resolveManifest E (rc_HostManifest cfg) in
  require (bool_decide (with_manifest_path (mf_ManifestPath m) hm = m) && (rc_CredentialsFile cfg =? mf_CredentialsFile m)%string &&
           (rc_AgentID cfg =? tr_AgentID t)%string && (rc_Endpoint cfg =? tr_Endpoint t)%string &&
           (ac_ServiceName (rc_Action cfg) =? mf_ServiceName m)%string && (ac_AgentPath (rc_Action cfg) =? mf_Executable m)%string) EUpgradeJournal.

Definition checkUpgrade (root : bool) (manifest : string) : HM unit :=
  require root EUntrusted ;;;
  acquireHostLock E ;;;
  let! m := resolveManifest E manifest in
  noPendingHostTransaction m ;;;
  let! p := h_ReadPolicy E m in
  let! pending := pendingSoftwareUpgrade m in
  match pending with
  | None => h_ret tt
  | Some (s, backup) =>
      require (po_HelperInstalled p) ENotInstalled ;;;
      let! _ := readUpgradeBackups m s backup in h_ret tt
  end ;;;
  nop E.

(** ** Undoing *)

(** [defer func() { if result != nil { undo } }()]: [undo] answers whether
    everything was put back. *)
Definition h_rollback {A} (body : HM A) (undo : HM bool) : HM A := fun h =>
  match body h with
  | (Ok a, h1) => (Ok a, h1)
  | (Err e, h1) => match undo h1 with
                   | (Ok true, h2) => (Err (ERestored e), h2)
                   | (_, h2) => (Err (EIncomplete e), h2)
                   end
  end.
(** Runs [m] and says whether it succeeded. *)
Definition succeeds (m : HM unit) : HM bool := let! r := h_try m in h_ret (match r with Ok _ => true | Err _ => false end).
(** Every element, whatever the others did. *)
Fixpoint h_all {A} (f : A -> HM bool) (l : list A) : HM bool :=
  match l with
  | [] => h_ret true
  | a :: l => let! b := f a in let! r := h_all f l in h_ret (b && r)
  end.

(** ** The daemon alone *)

Definition update_file (m : Manifest) : string := child (journalDir m) "update.json".
Definition write_update (m : Manifest) (phase : string) (digest : option string) : HM unit :=
  let! t := now E in
  WriteJSON E (update_file m) (mkUpdate phase digest (mf_ServiceName m) t) 384.
Definition update (root : bool) (manifest artifact digest : string) : HM unit :=
  require root EUntrusted ;;;
  acquireHostLock E ;;;
  let! m := h_ReadManifest E manifest in
  let! p := h_ReadPolicy E m in
  noPendingHostTransaction m ;;;
  rejectPendingSoftwareUpgrade m ;;;
  require (negb (po_HelperInstalled p)) ENotInstalled ;;;
  h_trusted E (mf_Executable m) ;;;
  let! data := verifiedArtifact E artifact digest in
  ensureTrustedDir E (journalDir m) ;;;
  let! old := h_read E (mf_Executable m) in
  AtomicWrite E (child (journalDir m) "agent.previous") old 448 ;;;
  write_update m "prepared" (Some digest) ;;;
  h_rollback
    (AtomicWrite E (mf_Executable m) data 493 ;;; write_update m "binary_replaced" (Some digest) ;;; nop E)
    (let! back := succeeds (AtomicWrite E (mf_Executable m) old 493) in
     if back then succeeds (write_update m "restored" None) else h_ret false).

(** ** The three programs together *)

Record UpgradeArgs := mkUpgradeArgs {
  ua_agent : string; ua_agentHash : string; ua_host : string; ua_hostHash : string; ua_helper : string; ua_signature : string;
  ua_version : string }.
(** What the replacement and its undoing share. *)
Record Replacement := mkReplacement {
  re_manifest : Manifest; re_version : string; re_backup : string; re_modes : list Z; re_active : list bool;
  re_previous : string; re_originals : list bytes; re_programs : list bytes; re_config : RescueConfig }.

Definition upgrade_units (m : Manifest) : list string := [mf_ServiceName m; helperUnit m].
Definition upgrade_file (d : string) : string := child d "upgrade.json".
Definition writePhase (x : Replacement) (phase : string) : HM unit :=
  let! t := now E in
  WriteJSON E (upgrade_file (re_backup x))
    (mkUpgrade phase (re_version x) (mf_ManifestPath (re_manifest x)) (upgradePaths (re_manifest x)) (re_modes x) (re_active x) t (re_previous x)) 384.
Definition start_unit (m : Manifest) (i : nat) (service : string) : HM unit :=
  restartReviewedService E service ;;;
  verifyUpgradeService E service (if Nat.eqb i 1 then helperBinary m else mf_Executable m).
(** The units that were active, with their numbers. *)
Definition active_units (x : Replacement) : list (nat * string) :=
  omap (fun '(i, service) => if nth i (re_active x) false then Some (i, service) else None)
       (zip (seq 0 2) (upgrade_units (re_manifest x))).
Definition with_version (v : string) (c : RescueConfig) : RescueConfig :=
  mkRescueConfig (rc_Endpoint c) (rc_AgentID c) v (rc_HostManifest c) (rc_CredentialsFile c) (rc_InstanceIDPath c)
    (rc_ReplayFile c) (rc_CFAccessClientID c) (rc_CFAccessClientSecret c) (rc_Action c).
Definition stop_unit (service : string) : HM unit := ctl E ["stop"; service].

Definition replace_programs (x : Replacement) : HM unit :=
  let m := re_manifest x in
  h_iter stop_unit (upgrade_units m) ;;;
  writePhase x "replacing" ;;;
  h_iter (fun '(path, (data, mode)) => AtomicWrite E path data mode)
    (zip (upgradePaths m) (zip (re_programs x) (re_modes x))) ;;;
  WriteJSON E (helperConfig m) (with_version (re_version x) (re_config x)) (nth 3 (re_modes x) 0) ;;;
  h_iter (fun '(i, service) => start_unit m i service) (active_units x) ;;;
  writePhase x "completed" ;;;
  nop E.
Definition restore_programs (x : Replacement) : HM bool :=
  let m := re_manifest x in
  let! stopped := h_all (fun service => succeeds (stop_unit service)) (upgrade_units m) in
  let! written := h_all (fun '(path, (data, mode)) => succeeds (AtomicWrite E path data mode))
                    (zip (upgradePaths m) (zip (re_originals x) (re_modes x))) in
  let! started := (if stopped && written then h_all (fun '(i, service) => succeeds (start_unit m i service)) (active_units x)
                   else h_ret false) in
  let! _ := h_try (writePhase x (if started then "restored" else "restore_failed")) in
  h_ret started.

(** [os.MkdirTemp(parent, "upgrade-")]. *)
Definition h_mkdir_temp (d prefix : string) : HM string :=
  sys E (fun t h => match pick_name (h_fs h) d prefix (e_rand E t) with
    | None => (Err ENoName, h)
    | Some name => (Ok name, put_fs (<[name := mkHNode KDir 448 0 0 2 (dev_of d (h_fs h)) (h_ino h) ""]> (h_fs h)) (fresh_ino h))
    end).
Definition read_installed (acc : list bytes * list Z) (path : string) : HM (list bytes * list Z) :=
  h_trusted E path ;;;
  let! info := h_lstat E path in
  require (is_reg info && (slen (n_data info) <=? maxStateFileBytes)) EUpgradeBackup ;;;
  let! b := h_read E path in
  h_ret (acc.1 ++ [b], acc.2 ++ [n_mode info])%list.
Definition new_backup (m : Manifest) : HM (string * list Z * list bool * list bytes) :=
  let! a0 := upgradeServiceActive E (mf_ServiceName m) false in
  let! a1 := upgradeServiceActive E (helperUnit m) true in
  ensureTrustedDir E (journalDir m) ;;;
  let! (originals, modes) := h_fold read_installed (upgradePaths m) ([], []) in
  let! backup := h_mkdir_temp (journalDir m) "upgrade-" in
  h_chmod E backup 448 ;;;
  h_iter (fun '(i, data) => AtomicWrite E (backup_file backup i) data 384) (zip (seq 0 4) originals) ;;;
  h_ret (backup, modes, [a0; a1], originals).
(** The attempt that failed is kept beside the backups it reuses. *)
Definition keep_attempt (backup : string) : HM string :=
  let! t := now E in
  let name := "attempt-" ++ itoa (wrap64 (t - unix_epoch_seconds * second)) ++ ".json" in
  let! b := h_read E (upgrade_file backup) in
  AtomicWrite E (child backup name) b 384 ;;;
  h_ret name.

(** The programs, verified, and the configuration of the installed helper. *)
Definition preflight (m : Manifest) (t : Trust) (a : UpgradeArgs) (pending : option (softwareUpgrade * string))
    : HM (list bytes * list bytes * RescueConfig) :=
  let! agentBytes := verifiedArtifact E (ua_agent a) (ua_agentHash a) in
  let! hostBytes := verifiedArtifact E (ua_host a) (ua_hostHash a) in
  let! (helperBytes, payload) := readHelper E goos goarch t (ua_helper a) (ua_signature a) in
  require (rp_Version payload =? ua_version a)%string EVersion ;;;
  require ((ReleaseVersion =? "")%string || (ReleaseVersion =? ua_version a)%string) EVersion ;;;
  let! (originals, configPath) := match pending with
    | Some (s, d) => let! o := readUpgradeBackups m s d in h_ret (o, child d "3")
    | None => h_ret ([], helperConfig m)
    end in
  let! cfg := h_read_json E configPath in
  validateUpgradeConfig m t cfg ;;;
  h_trusted E (helperUnitPath m) ;;;
  let! actual := observe E (helperUnit m) in
  require (match parseExecStart (so_ExecStart actual) with
           | Ok argv => bool_decide (argv = [helperBinary m; "--config"; helperConfig m])
           | Err _ => false
           end && (so_FragmentPath actual =? helperUnitPath m)%string && (so_User actual =? "root")%string &&
           (so_DropInPaths actual =? "")%string) EUpgradeJournal ;;;
  h_ret ([agentBytes; hostBytes; helperBytes], originals, cfg).

Definition upgradeInstalledRescue (root : bool) (manifest : string) (a : UpgradeArgs) : HM unit :=
  require (validateReleaseTag (ua_version a)) EReleaseTag ;;;
  require root EUntrusted ;;;
  acquireHostLock E ;;;
  let! m := resolveManifest E manifest in
  noPendingHostTransaction m ;;;
  let! p := h_ReadPolicy E m in
  require (po_HelperInstalled p) ENotInstalled ;;;
  let! pending := pendingSoftwareUpgrade m in
  let! t := h_ReadTrust E parse_url m in
  let! (programs, kept, cfg) := preflight m t a pending in
  let! x := match pending with
    | Some (s, backup) =>
        let! previous := keep_attempt backup in
        h_ret (mkReplacement m (ua_version a) backup (su_Modes s) (su_Active s) previous kept programs cfg)
    | None =>
        let! (backup, modes, active, originals) := new_backup m in
        h_ret (mkReplacement m (ua_version a) backup modes active "" originals programs cfg)
    end in
  lift_result (validateUpgradeJournal m (mkUpgrade "prepared" "" (mf_ManifestPath m) (upgradePaths m) (re_modes x) (re_active x) zero_time "")) ;;;
  writePhase x "prepared" ;;;
  h_rollback (replace_programs x) (restore_programs x).
End Upgrade.

(** ** Theorems *)

Section UpgradeFrames.
Context (E : Env) (I : hostJournal -> Prop) (P : hfs -> Prop).
Lemma hk_succeeds p : hkeeps I P p -> hkeeps I P (succeeds p).
Proof. intros Hp. unfold succeeds. hk. Qed.
Lemma hk_all {A} (f : A -> HM bool) l : (forall a, a ∈ l -> hkeeps I P (f a)) -> hkeeps I P (h_all f l).
Proof.
  induction l as [|a l IH]; intros Hf; cbn [h_all]; [apply hk_ret|]. apply hk_bind; [apply Hf; by left|]. intros b.
  apply hk_bind; [apply IH; intros x Hx; apply Hf; by right|]. intros r. apply hk_ret.
Qed.
Lemma hk_rollback {A} (p : HM A) undo : hkeeps I P p -> hkeeps I P undo -> hkeeps I P (h_rollback p undo).
Proof.
  intros Hp Hu h HI HP _. unfold h_rollback. specialize (Hp h HI HP Logic.I). destruct (p h) as [[a|e] h1]; [by destruct Hp as (? & ? & _)|].
  destruct Hp as (HI1 & HG1 & _). specialize (Hu h1 HI1 (proj1 HG1) Logic.I). destruct (undo h1) as [[[]|] h2];
    destruct Hu as (? & ? & _); (split; [done|]; split; [by eapply hgrows_trans|done]).
Qed.
End UpgradeFrames.

Lemma h_all_true {A} (f : A -> HM bool) l h h' :
  h_all f l h = (Ok true, h') ->
  match l with
  | [] => h' = h
  | a :: l => exists h1, f a h = (Ok true, h1) /\ h_all f l h1 = (Ok true, h')
  end.
Proof.
  destruct l as [|a l]; cbn [h_all]; intros Hr; [by apply h_ret_ok in Hr as [_ ->]|].
  apply h_bind_ok in Hr as (b & h1 & Hb & Hr). apply h_bind_ok in Hr as (r & h2 & Hrest & Hr). apply h_ret_ok in Hr as [Heq ->].
  symmetry in Heq. apply andb_true_iff in Heq as [-> ->]. by exists h1.
Qed.
Lemma succeeds_ok p h h' : succeeds p h = (Ok true, h') -> p h = (Ok tt, h').
Proof.
  intros Hr. unfold succeeds in Hr. apply h_bind_ok in Hr as (r & h1 & Hp & Hr). apply h_try_ok in Hp.
  apply h_ret_ok in Hr as [Heq ->]. by destruct r as [[]|].
Qed.

Section UpgradeTheorems.
Context (E : Env) `{Json softwareUpgrade} `{Json RescueConfig}.
Variable x : Replacement.
Let m := re_manifest x.
Let files := zip (upgradePaths m) (zip (re_originals x) (re_modes x)).

(** The layout of an upgrade: four different files, apart from the backups,
    which services do not write. *)
Record upgrade_layout : Prop := {
  ul_four : length (re_originals x) = 4%nat;
  ul_nodup : NoDup (upgradePaths m);
  ul_plain : forall p, p ∈ upgradePaths m -> not_temp p /\ under (re_backup x) p = false;
  ul_services : forall t fs q, q ∈ upgradePaths m \/ under (re_backup x) q = true -> e_daemon E t fs !! q = fs !! q;
}.
Hypothesis Hlay : upgrade_layout.

Lemma upgrade_file_not_temp : not_temp (upgrade_file (re_backup x)).
Proof. apply plain_not_temp; [by apply sep_free_const|done]. Qed.

Definition write_file '(p, (d, mode)) : HM bool := succeeds (AtomicWrite E p d mode).
Lemma write_files_ok l h h' :
  NoDup l.*1 -> (forall p, p ∈ l.*1 -> not_temp p) -> h_all write_file l h = (Ok true, h') ->
  (forall p d mode, (p, (d, mode)) ∈ l -> exists n, h_fs h' !! p = Some n /\ written d mode None n) /\
  (forall q, q ∉ l.*1 -> h_fs h' !! q = h_fs h !! q).
Proof.
  revert h. induction l as [|[p [d mode]] l IH]; intros h Hnd Hnt Hr; apply h_all_true in Hr.
  { subst h'. split; [set_solver|done]. }
  destruct Hr as (h1 & Hw%succeeds_ok & Hr). apply NoDup_cons in Hnd as [Hp Hnd].
  apply atomic_write_ok in Hw as (n & Hn & _ & Hfs & _); [|apply Hnt; by left].
  apply IH in Hr as [Hall Hoff]; [|done|intros q Hq; apply Hnt; by right]. split.
  - intros p' d' mode' [Heq|Hin]%elem_of_cons; [|by apply Hall]. injection Heq as -> -> ->. exists n. split; [|done].
    rewrite Hoff by done. by rewrite Hfs, lookup_insert_eq.
  - intros q Hq. simpl in Hq. rewrite Hoff by set_solver. rewrite Hfs, lookup_insert_ne; [done|set_solver].
Qed.

(** The installed files as they were. *)
Definition originals_back (fs : hfs) : Prop :=
  forall p d mode, (p, (d, mode)) ∈ files -> exists n, fs !! p = Some n /\ written d mode None n.
Lemma files_path p : p ∈ files.*1 -> p ∈ upgradePaths m.
Proof. intros ([a b] & -> & Hin)%list_elem_of_fmap. by apply elem_of_zip_l in Hin. Qed.
Lemma nodup_zip {A B} (l : list A) (k : list B) : NoDup l -> NoDup (zip l k).*1.
Proof.
  revert k. induction l as [|a l IH]; intros [|b k] Hnd; try constructor; apply NoDup_cons in Hnd as [Ha Hnd].
  - intros Hin. apply list_elem_of_fmap in Hin as ([a' b'] & Heq & Hin). simpl in Heq. subst a'. apply Ha. by apply elem_of_zip_l in Hin.
  - by apply IH.
Qed.
Lemma stable_originals q : q ∉ upgradePaths m -> stable_at q originals_back.
Proof.
  intros Hq fs Hfs. assert (Hne : forall p v, (p, v) ∈ files -> q <> p) by (intros p v Hin ->; by apply Hq; apply elem_of_zip_l in Hin).
  split; [|intros n0]; intros p d mode Hin; destruct (Hfs p d mode Hin) as (n & Hn & Hw); exists n; split; try done;
    [rewrite lookup_delete_ne|rewrite lookup_insert_ne]; eauto.
Qed.
Lemma stable_temps_originals : stable_temps originals_back.
Proof. intros d s Hs. apply stable_originals. intros Hp. destruct (ul_plain Hlay _ Hp) as [Hnt _]. by apply (Hnt d s). Qed.
Lemma services_originals : services_keep E originals_back.
Proof.
  intros t fs Hfs p d mode Hin. destruct (Hfs p d mode Hin) as (n & Hn & Hw). exists n. split; [|done].
  rewrite (ul_services Hlay); [done|]. left. by apply elem_of_zip_l in Hin.
Qed.
Lemma hk_writePhase_originals phase : hkeeps (fun _ => True) originals_back (writePhase E x phase).
Proof.
  unfold writePhase. apply hk_bind; [apply hk_now|]. intros t.
  apply hk_write_json; [apply stable_temps_originals|apply upgrade_file_not_temp|]. apply stable_originals.
  intros Hp. destruct (ul_plain Hlay _ Hp) as [_ Hu]. unfold upgrade_file in Hu. by rewrite under_child in Hu.
Qed.
Lemma restore_programs_ok h h' : restore_programs E x h = (Ok true, h') -> originals_back (h_fs h').
Proof.
  intros Hr. unfold restore_programs in Hr. fold m in Hr. apply h_bind_ok in Hr as (stopped & h1 & _ & Hr).
  apply h_bind_ok in Hr as (ok & h2 & Hw & Hr). apply h_bind_ok in Hr as (started & h3 & Hs & Hr).
  apply h_bind_ok in Hr as (r & h4 & Hph & Hr). apply h_ret_ok in Hr as [<- ->].
  assert (Hok : ok = true) by (destruct stopped, ok; try done; by apply h_ret_ok in Hs as [? _]). subst ok.
  change (h_all write_file files h1 = (Ok true, h2)) in Hw.
  apply write_files_ok in Hw as [Hall _]; [|apply nodup_zip, (ul_nodup Hlay)|intros p Hp%files_path; by apply (ul_plain Hlay)].
  assert (H2 : originals_back (h_fs h2)) by exact Hall. clear Hall.
  pose proof services_originals as Hsv.
  apply (hk_run (fun _ => True) originals_back) in Hs as (_ & H3 & _); [| |done|exact H2].
  - apply h_try_ok in Hph. by apply (hk_run _ _ _ _ _ _ (hk_writePhase_originals "restored") Logic.I H3) in Hph as (_ & ? & _).
  - destruct (stopped && true); [|apply hk_ret]. apply hk_all. intros [i service] _. apply hk_succeeds. unfold start_unit. hk.
Qed.


(** ** The backups *)

Definition backups_kept (fs : hfs) : Prop :=
  forall i d, re_originals x !! i = Some d -> exists n, fs !! backup_file (re_backup x) i = Some n /\ is_reg n = true /\ n_data n = d.
Lemma stable_backups q :
  (forall i, (i < 4)%nat -> q <> backup_file (re_backup x) i) -> stable_at q backups_kept.
Proof.
  intros Hq fs Hfs.
  assert (Hne : forall i d, re_originals x !! i = Some d -> q <> backup_file (re_backup x) i).
  { intros i d Hi. apply Hq. rewrite <- (ul_four Hlay). by eapply lookup_lt_Some. }
  split; [|intros n0]; intros i d Hin; destruct (Hfs i d Hin) as (n & Hn & Hw); exists n; split; try done;
    [rewrite lookup_delete_ne|rewrite lookup_insert_ne]; eauto.
Qed.
Lemma backup_name i : (i < 4)%nat -> sep ∉ chars (utoa (Z.of_nat i)) /\ has_prefix (utoa (Z.of_nat i)) ".komari-" = false /\
  utoa (Z.of_nat i) <> "upgrade.json".
Proof. intros Hi. split; [apply utoa_no_sep|]. do 4 (destruct i as [|i]; [done|]). lia. Qed.
Lemma stable_upgrade_path q : q ∈ upgradePaths m -> stable_at q backups_kept.
Proof.
  intros Hq. apply stable_backups. intros i _ ->. destruct (ul_plain Hlay _ Hq) as [_ Hu]. unfold backup_file in Hu.
  by rewrite under_child in Hu.
Qed.
Lemma stable_temps_backups : stable_temps backups_kept.
Proof.
  intros d s Hs. apply stable_backups. intros i Hi Heq. destruct (backup_name i Hi) as (Hn & Hp & _). symmetry in Heq.
  by apply (plain_not_temp (re_backup x) _ Hn Hp d s).
Qed.
Lemma services_backups : services_keep E backups_kept.
Proof.
  intros t fs Hfs i d Hin. destruct (Hfs i d Hin) as (n & Hn & Hw). exists n. split; [|done].
  rewrite (ul_services Hlay); [done|]. right. apply under_child.
Qed.
Lemma hk_writePhase_backups phase : hkeeps (fun _ => True) backups_kept (writePhase E x phase).
Proof.
  unfold writePhase. apply hk_bind; [apply hk_now|]. intros t.
  apply hk_write_json; [apply stable_temps_backups|apply upgrade_file_not_temp|]. apply stable_backups.
  intros i Hi Heq%child_inj. by destruct (backup_name i Hi) as (_ & _ & Hne).
Qed.
Lemma hk_write_backups p d mode : p ∈ upgradePaths m -> hkeeps (fun _ => True) backups_kept (AtomicWrite E p d mode).
Proof.
  intros Hp. apply hk_atomic_write_off; [apply stable_temps_backups|by apply (ul_plain Hlay)|by apply stable_upgrade_path].
Qed.
Lemma hk_start_unit i service : hkeeps (fun _ => True) backups_kept (start_unit E m i service).
Proof. pose proof services_backups. unfold start_unit. hk. Qed.
Lemma hk_stop_unit service : hkeeps (fun _ => True) backups_kept (stop_unit E service).
Proof. pose proof services_backups. unfold stop_unit. hk. Qed.
Hint Resolve hk_writePhase_backups hk_start_unit hk_stop_unit : host.
Lemma hk_replace_programs : hkeeps (fun _ => True) backups_kept (replace_programs E x).
Proof.
  unfold replace_programs. fold m. apply hk_bind; [apply hk_iter; intros s _; apply hk_stop_unit|]. intros _.
  apply hk_bind; [apply hk_writePhase_backups|]. intros _. apply hk_bind.
  { apply hk_iter. intros [p [d mode]] Hin. apply hk_write_backups. by apply elem_of_zip_l in Hin. }
  intros _. apply hk_bind; [|intros _; by hk]. unfold WriteJSON. apply hk_bind; [apply hk_lift|]. intros d.
  apply hk_write_backups. unfold upgradePaths. in_list.
Qed.
Lemma hk_restore_programs : hkeeps (fun _ => True) backups_kept (restore_programs E x).
Proof.
  unfold restore_programs. fold m. apply hk_bind; [apply hk_all; intros s _; apply hk_succeeds, hk_stop_unit|]. intros stopped.
  apply hk_bind.
  { apply hk_all. intros [p [d mode]] Hin. apply hk_succeeds, hk_write_backups. by apply elem_of_zip_l in Hin. }
  intros ok. apply hk_bind.
  { destruct (stopped && ok); [|apply hk_ret]. apply hk_all. intros [i s] _. apply hk_succeeds, hk_start_unit. }
  intros started. hk.
Qed.

(** The originals outlive every crash of an upgrade: whatever fails, in
    every file system the replacement and its undoing go through, the four
    protected backups hold the contents they were made with, so that a retry
    recovers the installation of before the first attempt. *)
Theorem upgrade_backups_survive h r h' :
  backups_kept (h_fs h) ->
  h_rollback (replace_programs E x) (restore_programs E x) h = (r, h') ->
  exists new, h_trace h' = (new ++ h_trace h)%list /\ Forall backups_kept (h_fs h' :: new).
Proof.
  intros HP Hr. eapply (hk_run (fun _ => True) backups_kept) in Hr as (_ & HP' & _ & new & Htr & Hnew);
    [|by apply hk_rollback; [apply hk_replace_programs|apply hk_restore_programs]|done|exact HP].
  exists new. split; [done|]. by constructor.
Qed.
End UpgradeTheorems.
