(* ===== verification/HostApply.v ===== *)
(** * Applying, resuming and restoring host tasks
    ([apply] and [resume] of [internal/hostcmd/transaction_linux.go])

    [apply] reviews the approved task, authenticates the administrator, claims
    the operation at the panel and runs the transaction, putting the original
    service back when it fails. [resume] reads the journal a previous run left
    and goes on from its phase; [restore] always puts the original back. *)

From S2P Require Import Prelude.
From S2P Require Import GoStd.
From S2P Require Import GoPath.
From S2P Require Import External.
From S2P Require Import Credentials.
From S2P Require Import Replay.
From S2P Require Import Signing.
From S2P Require Import Privileged.
From S2P Require Import HostOps.
From S2P Require Import RuntimeConfig.
From S2P Require Import Effective.
From S2P Require Import Systemd.
From S2P Require Import HostFs.
From S2P Require Import HostService.
From S2P Require Import HostPolicy.
From S2P Require Import HostBootstrap.
From S2P Require Import HostSeal.
From S2P Require Import HostPanel.
From S2P Require Import HostFetch.
From S2P Require Import HostTx.
From S2P Require Import HostUpgrade.

Local Open Scope string_scope.
Local Open Scope Z_scope.
Local Open Scope host_scope.

(** [strings.ReplaceAll] of one byte. *)
Fixpoint replace_char (c : ascii) (by_ : string) (l : list ascii) : string :=
  match l with
  | [] => ""
  | x :: l => (if Ascii.eqb x c then by_ else String x "") ++ replace_char c by_ l
  end.
Definition single_quote : ascii := "'"%char.
Definition quoted_quote : string := String single_quote (String dquote (String single_quote (String dquote (String single_quote "")))).
Definition shell_quote (s : string) : string :=
  String single_quote (replace_char single_quote quoted_quote (chars s)) ++ String single_quote "".
Definition hostRecoveryCommand (m : Manifest) (action : string) : string :=
  "sudo " ++ shell_quote (mf_HostTool m) ++ " " ++ action ++ " --manifest " ++ shell_quote (mf_ManifestPath m).

Record ApplyArgs := mkApplyArgs { aa_manifest : string; aa_revision : Z; aa_artifact : string; aa_release : string }.
(** What the review of the task finds, before anybody is asked anything. *)
Record Review := mkReview {
  rv_manifest : Manifest; rv_policy : Policy; rv_trust : Trust; rv_panel : panel; rv_revision : PrivilegedRevision;
  rv_legacy : bool; rv_previousUID : Z; rv_dirs : list string; rv_workingDir : string; rv_bootstrap : Config; rv_install : bool }.

Definition literal_path (d : string) : bool :=
  is_abs d && (GoPath.clean d =? d)%string && negb (existsb (fun c => Nat.eqb (code c) 10 || Nat.eqb (code c) 13 || Nat.eqb (code c) 37) (chars d)).
Definition resumable : list string := ["claiming"; "prepared"; "mutating"; "local_applied"; "restoring"; "restored"].

Section Apply.
Context (E : Env) (N : Panel).
Variable http : nat -> string -> option (Z * Z * bytes).
Variables goos goarch : string.
Context `{Crypto} `{ProtoTime} `{Wire SignedInstruction} `{Json (option entries)} `{Wire PrivilegedRevision} `{Wire HostOperation}.
Context `{StrictJson Manifest} `{StrictJson Policy} `{StrictJson Trust} `{StrictJson AccessConfig} `{Json Identity}.
Context `{Json hostJournal} `{StrictJson hostJournal} `{Json Policy} `{Json Config} `{Json AppliedRecord} `{Json RescueConfig}.
Context `{Wire ReportHostOperationRequest} `{StrictJson HelperStatus} `{HostPhases}.
Context `{Json ReleasePayload} `{Json ReleaseManifest} `{StrictJson ReleaseManifest} `{StrictJson softwareUpgrade}.
Variable iter : entries -> list (string * time).
Variable parse_url : string -> option Url.
Variable parse_float : string -> option Z.
Variable merge_json : bytes -> Config -> option Config.
Variable ReleaseVersion : string.
(** The text of an error, which the errors of this model do not carry. *)
Variable error_text : cmd_err -> string.

Definition dir_of (m : Manifest) : string := journalDir m.

(** The account the running service belongs to. *)
Definition previous_uid (p : Policy) (o : serviceObservation) : HM Z :=
  if po_PrivilegeMode p =? 2 then
    let! (uid, _) := h_lift (e_user E (so_User o)) EUserUnknown in
    h_lift (atoi uid) EBadNumber
  else h_ret 0.
Definition check_working_dir (d : string) (dirs : list string) : HM unit :=
  require (literal_path d) EWorkingDirectory ;;;
  if existsb (fun s => (s =? d)%string) dirs then h_ret tt else h_trusted E d.

(** Up to the first question to the administrator. *)
Definition review (root : bool) (a : ApplyArgs) : HM Review :=
  require (negb (aa_revision a =? 0)) EBadArguments ;;;
  require root EUntrusted ;;;
  acquireHostLock E ;;;
  let! m := resolveManifest E (aa_manifest a) in
  rejectPendingSoftwareUpgrade E m ;;;
  let! p := h_ReadPolicy E m in
  let! t := h_ReadTrust E parse_url m in
  ensureTrustedDir E (dir_of m) ;;;
  h_chmod E (dir_of m) 448 ;;;
  let! st := h_try (h_lstat E (journal_file (dir_of m))) in
  match st with Err ENotExist => h_ret tt | _ => h_err EJournalExists end ;;;
  let! pl := newPanel E m t in
  let! r := panel_current E N iter pl in
  require ((pr_revision r =? aa_revision a) && (pr_state r =? STATE_NEEDS_MANUAL_AUTHORIZATION)) ENotCurrentTask ;;;
  let! o := observe E (mf_ServiceName m) in
  let '(preview, legacy) := legacyRemoteControlReview p r in
  let! auth := h_lift (pr_authorization r) ENoAuthorization in
  lift_result (validateActions preview t r auth o) ;;;
  let! previousUID := previous_uid p o in
  let! dirs := stateDirectories E m in
  let workingDir := if (so_WorkingDirectory o =? "")%string then "/" else so_WorkingDirectory o in
  check_working_dir workingDir dirs ;;;
  let! bootstrap := captureBootstrap parse_float merge_json E m o t in
  let install := requested ACTION_INSTALL_RESCUE_HELPER auth in
  let artifact := negb (aa_artifact a =? "")%string in
  let release := negb (aa_release a =? "")%string in
  require (Bool.eqb artifact release && (install || negb (artifact || release))) EArtifacts ;;;
  h_ret (mkReview m p t pl r legacy previousUID dirs workingDir bootstrap install).

(** [confirmLegacyRemoteControl]: [typed] is what comes from the terminal. *)
Definition confirmLegacyRemoteControl (typed : option string) (m : Manifest) (r : PrivilegedRevision) : HM unit :=
  match typed with
  | None => h_err ENoTerminal
  | Some line => require (readLegacyRemoteControlConsent line (mf_ServiceName m) (pr_revision r)) EConsent
  end.

(** The operation as this host claims it. *)
Definition new_journal (v : Review) (operator id : string) (revision : bytes) : hostJournal :=
  mkJournal hostJournalVersion (mf_ManifestPath (rv_manifest v)) id "claiming" operator revision "" "" [] [] [] [] ""
    (po_PrivilegeMode (rv_policy v)) (rv_previousUID v) (po_HelperInstalled (rv_policy v)) "" (rv_legacy v).

(** From the consent to the claimed and reported operation. *)
Definition claim (a : ApplyArgs) (typed : option string) (v : Review) : HM (PrivilegedRevision * bytes * string) :=
  let m := rv_manifest v in
  (if rv_legacy v then confirmLegacyRemoteControl typed m (rv_revision v) else h_ret tt) ;;;
  let! operator := authenticate E in
  let! (helper, version) := (if rv_install v then prepareHelper E http goos goarch m (rv_trust v) (aa_artifact a) (aa_release a) ReleaseVersion
                             else h_ret ("", "")) in
  let! current := panel_current E N iter (rv_panel v) in
  require (bool_decide (pr_authorization current = pr_authorization (rv_revision v)) &&
           (pr_state current =? pr_state (rv_revision v))) EApprovalChanged ;;;
  let! id := uuid E in
  let! b := h_lift (wire_marshal current) EEncode in
  set_j (fun _ => new_journal v operator id b) ;;;
  save E (dir_of m) ;;;
  let! response := ask (pn_prepare N) in
  let! op := h_lift response EPanel in
  check_operation E iter (rv_panel v) op (pr_authorization current) id ;;;
  require (phase_of op =? 1) EUnexpectedPhase ;;;
  let! b := h_lift (op ≫= wire_marshal) EEncode in
  set_j (set_Operation b) ;;; set_j (set_Phase "prepared") ;;; save E (dir_of m) ;;;
  report E N (dir_of m) (rv_panel v) PHASE_APPLYING "" ;;;
  h_ret (current, helper, version).

Definition plan_of (v : Review) (auth : HostAuthorization) (current : PrivilegedRevision) (helper version : string) : Plan :=
  mkPlan (rv_manifest v) (rv_policy v) (rv_trust v) current auth (rv_dirs v) (rv_bootstrap v) helper version (rv_workingDir v).

(** [executeTransaction], and the way back. *)
Definition execute_or_restore (v : Review) (x : Plan) : HM unit :=
  let m := rv_manifest v in
  let! done := h_try (executeTransaction E N iter (dir_of m) x) in
  match done with
  | Ok _ => h_ret tt
  | Err e =>
      set_j (set_Error (error_text e)) ;;;
      let! _ := h_try (save E (dir_of m)) in
      let! restored := h_try (restoreTransaction E parse_url (dir_of m) m) in
      match restored with
      | Err _ => h_err (EIncomplete e)
      | Ok _ =>
          let! told := h_try (reportRestoration E N iter (dir_of m) (rv_panel v) (error_text e)) in
          match told with
          | Err _ => h_err (EReceiptPending e)
          | Ok _ =>
              let! archived := h_try (archiveJournal E (dir_of m)) in
              match archived with
              | Err _ => h_err (EReceiptPending e)
              | Ok _ => h_err (ERestored e)
              end
          end
      end
  end.

(** The backups, then the durable marker of the mutation. *)
Definition back_up (m : Manifest) : HM unit :=
  h_iter (backup E (dir_of m)) (transaction_paths m) ;;;
  set_j (set_Phase "mutating") ;;; save E (dir_of m).

Definition apply (root : bool) (a : ApplyArgs) (typed : option string) (events : list wait_event) : HM finish :=
  let! v := review root a in
  let! (current, helper, version) := claim a typed v in
  let! auth := h_lift (pr_authorization current) ENoAuthorization in
  back_up (rv_manifest v) ;;;
  execute_or_restore v (plan_of v auth current helper version) ;;;
  set_j (set_Phase "local_applied") ;;; save E (dir_of (rv_manifest v)) ;;;
  report E N (dir_of (rv_manifest v)) (rv_panel v) PHASE_HOST_LOCAL_APPLIED "" ;;;
  finishHost E N iter (dir_of (rv_manifest v)) (rv_panel v) events.

(** ** Going on after an interruption *)

Definition resolveJournalManifest (m : Manifest) (j : hostJournal) : HM Manifest :=
  require (j_Version j =? hostJournalVersion) EJournalVersion ;;;
  require (negb ((j_ID j =? "")%string || (j_Manifest j =? "")%string)) EJournalIncomplete ;;;
  let! original := resolveManifest E (j_Manifest j) in
  require (bool_decide (with_manifest_path (mf_ManifestPath m) original = m)) EJournalDiffers ;;;
  h_ret original.

(** The claim may never have reached the panel. *)
Definition unclaimed (m : Manifest) (j : hostJournal) : HM bool :=
  if (j_Phase j =? "claiming")%string && (j_Operation j =? "")%string && Nat.eqb (length (j_Backups j)) 0 &&
     Nat.eqb (length (j_Ownership j)) 0 then
    let! t := h_ReadTrust E parse_url m in
    let! p := newPanel E m t in
    let! op := h_try (panel_get N (j_ID j)) in
    match op with
    | Err EPanelNotFound => set_j (set_Phase "unclaimed") ;;; save E (dir_of m) ;;; archiveJournal E (dir_of m) ;;; h_ret true
    | Err e => h_err e
    | Ok _ => h_ret false
    end
  else h_ret false.

Definition recover (m : Manifest) (j : hostJournal) : HM finish :=
  (if (j_Phase j =? "restored")%string then h_ret tt
   else if (j_Phase j =? "claiming")%string || (j_Phase j =? "prepared")%string then set_j (set_Phase "restored") ;;; save E (dir_of m)
   else restoreTransaction E parse_url (dir_of m) m) ;;;
  let! t := h_ReadTrust E parse_url m in
  let! p := newPanel E m t in
  reportRestoration E N iter (dir_of m) p "interrupted operation restored by local administrator" ;;;
  archiveJournal E (dir_of m) ;;;
  nop E ;;;
  h_ret Recovered.

(** The service runs as the policy on disk says. *)
Definition check_running (m : Manifest) (t : Trust) : HM unit :=
  let! policy := h_ReadPolicy E m in
  let! uid := (if po_PrivilegeMode policy =? 2
               then let! (uid, _) := h_lift (e_user E (tr_ServiceUser t)) EUserUnknown in h_lift (atoi uid) EBadNumber
               else h_ret 0) in
  verifyService E (mf_ServiceName m) uid (po_PrivilegeMode policy) ;;;
  if po_HelperInstalled policy then waitHelper E 0 m else h_ret tt.

Definition confirm (m : Manifest) (events : list wait_event) : HM finish :=
  let! t := h_ReadTrust E parse_url m in
  let! p := newPanel E m t in
  let! j := get_j in
  let! original := h_lift (wire_unmarshal (j_Revision j)) EDecode in
  let! op := panel_get N (j_ID j) in
  check_operation E iter p op (pr_authorization original) (j_ID j) ;;;
  if phase_of op =? 3 then
    set_j (set_Receipt "" (j_SupersededReceipts j)) ;;; save E (dir_of m) ;;;
    finishHost E N iter (dir_of m) p events
  else
    let! current := panel_current E N iter p in
    require (bool_decide (pr_authorization current = pr_authorization original)) ESuperseded ;;;
    check_running m t ;;;
    (if phase_of op <? 3 then report E N (dir_of m) p PHASE_HOST_LOCAL_APPLIED "" else h_ret tt) ;;;
    finishHost E N iter (dir_of m) p events.

Definition resume (root restore : bool) (manifest : string) (events : list wait_event) : HM finish :=
  require root EUntrusted ;;;
  acquireHostLock E ;;;
  let! m := resolveManifest E manifest in
  let! j := h_read_json E (journal_file (dir_of m)) in
  set_j (fun _ => j) ;;;
  let! m := resolveJournalManifest m j in
  if (j_Phase j =? "completed")%string || (j_Phase j =? "unclaimed")%string then
    archiveJournal E (dir_of m) ;;; h_ret Archived
  else
    require (existsb (String.eqb (j_Phase j)) resumable) EUnknownPhase ;;;
    let! _ := authenticate E in
    let! never := unclaimed m j in
    if never then h_ret Archived
    else if restore || negb (j_Phase j =? "local_applied")%string then recover m j
    else confirm m events.
End Apply.

(** ** Theorems *)

(** How a POSIX shell splits a command line into words, for the characters the
    tool uses outside quotes; inside single quotes everything is literal, inside
    double quotes everything but dollar, backquote, backslash and exclamation. *)
Inductive sh_mode := Bare | Single | Double.
Definition sh_plain (c : ascii) : bool :=
  let n := code c in
  (Nat.leb 97 n && Nat.leb n 122) || (Nat.leb 65 n && Nat.leb n 90) || (Nat.leb 48 n && Nat.leb n 57) || Nat.eqb n 45.
Definition sh_special (c : ascii) : bool := let n := code c in Nat.eqb n 36 || Nat.eqb n 96 || Nat.eqb n 92 || Nat.eqb n 33.
Definition push (c : ascii) (cur : option (list ascii)) : option (list ascii) := Some (default [] cur ++ [c])%list.
Fixpoint sh_words (mode : sh_mode) (cur : option (list ascii)) (l : list ascii) : option (list string) :=
  match l with
  | [] => match mode, cur with
          | Bare, None => Some []
          | Bare, Some w => Some [of_chars w]
          | _, _ => None
          end
  | c :: l =>
      match mode with
      | Single => if Ascii.eqb c single_quote then sh_words Bare cur l else sh_words Single (push c cur) l
      | Double => if Ascii.eqb c dquote then sh_words Bare cur l
                  else if sh_special c then None else sh_words Double (push c cur) l
      | Bare =>
          if Ascii.eqb c " " then
            match cur with None => sh_words Bare None l | Some w => cons (of_chars w) <$> sh_words Bare None l end
          else if Ascii.eqb c single_quote then sh_words Single (Some (default [] cur)) l
          else if Ascii.eqb c dquote then sh_words Double (Some (default [] cur)) l
          else if sh_plain c then sh_words Bare (push c cur) l else None
      end
  end.

Lemma sh_quoted_body s w l :
  sh_words Single (Some w) (chars (replace_char single_quote quoted_quote s) ++ single_quote :: l)%list =
  sh_words Bare (Some (w ++ s)%list) l.
Proof.
  revert w. induction s as [|c s IH]; intros w; [simpl; by rewrite app_nil_r|].
  cbn [replace_char]. rewrite chars_app, <- app_assoc. destruct (Ascii.eqb_spec c single_quote) as [->|Hne].
  - simpl. rewrite IH. by rewrite <- !app_assoc.
  - change (chars (String c "")) with [c]. cbn [app sh_words].
    rewrite (proj2 (Ascii.eqb_neq _ _) Hne). unfold push. simpl. rewrite IH. by rewrite <- app_assoc.
Qed.
Lemma sh_quote_word s l :
  sh_words Bare None (chars (shell_quote s) ++ l)%list = sh_words Bare (Some (chars s)) l.
Proof.
  unfold shell_quote. change (chars (String single_quote ?x)) with (single_quote :: chars x).
  rewrite chars_app. change (chars (String single_quote "")) with [single_quote]. simpl. rewrite <- app_assoc.
  exact (sh_quoted_body (chars s) [] l).
Qed.
Lemma sh_plain_word word l :
  word <> "" -> forallb sh_plain (chars word) = true ->
  sh_words Bare None (chars word ++ " "%char :: l)%list = cons word <$> sh_words Bare None l.
Proof.
  assert (Hgo : forall w cur, forallb sh_plain w = true -> (cur <> None \/ w <> []) ->
    sh_words Bare cur (w ++ " "%char :: l)%list = cons (of_chars (default [] cur ++ w)%list) <$> sh_words Bare None l).
  { induction w as [|c w IH]; intros cur Hw Hne; simpl in Hw.
    - destruct cur as [x|]; [|by destruct Hne]. simpl. by rewrite app_nil_r.
    - apply andb_true_iff in Hw as [Hc Hw]. cbn [app sh_words].
      assert (Hn : forall d, sh_plain d = false -> Ascii.eqb c d = false).
      { intros d Hd. apply Ascii.eqb_neq. by intros ->; congruence. }
      rewrite (Hn " "%char), (Hn single_quote), (Hn dquote), Hc by reflexivity. unfold push. rewrite IH; [|done|by left].
      simpl. by rewrite <- app_assoc. }
  intros Hne Hw. rewrite (Hgo _ None Hw); [simpl; by rewrite of_chars_chars|]. right. intros Hc. apply Hne.
  rewrite <- (of_chars_chars word), Hc. done.
Qed.

(** The recovery command the administrator is told to run is safe to paste:
    whatever the paths of the host tool and of the manifest contain, a shell
    splits it into exactly the five words that run this tool on this manifest. *)
Theorem hostRecoveryCommand_words m (restore : bool) :
  let action := if restore then "restore" else "resume" in
  sh_words Bare None (chars (hostRecoveryCommand m action)) =
  Some ["sudo"; mf_HostTool m; action; "--manifest"; mf_ManifestPath m].
Proof.
  intros action. unfold hostRecoveryCommand. rewrite !chars_app.
  change (chars "sudo ") with (chars "sudo" ++ [" "%char])%list. rewrite <- app_assoc. cbn [app].
  rewrite sh_plain_word by done. rewrite sh_quote_word. change (chars " " ++ ?l)%list with (" "%char :: l). cbn [sh_words Ascii.eqb].
  assert (Ha : action <> "" /\ forallb sh_plain (chars action) = true) by (by destruct restore).
  change (chars " --manifest ") with (" "%char :: chars "--manifest" ++ [" "%char])%list. cbn [app].
  destruct Ha as [Ha1 Ha2]. rewrite (sh_plain_word action) by done. rewrite <- app_assoc. cbn [app]. rewrite sh_plain_word by done.
  rewrite <- (app_nil_r (chars (shell_quote (mf_ManifestPath m)))), sh_quote_word. simpl. by rewrite !of_chars_chars.
Qed.
