(* ===== verification/HostApplied.v ===== *)
(** * What [komari-host apply] leaves behind, at every point

    Up to the durable [mutating] marker the tool only reads, asks, and writes
    its own journal, lock and cache; the backups it takes then describe the files
    of the transaction as they are; from there on the recovery theorems of
    [HostCrash] apply. *)

From S2P Require Import Prelude.
From S2P Require Import GoStd.
From S2P Require Import GoPath.
From S2P Require Import External.
From S2P Require Import Credentials.
From S2P Require Import Replay.
From S2P Require Import Signing.
From S2P Require Import Privileged.
From S2P Require Import HostOps.
From S2P Require Import RuntimeConfig.
From S2P Require Import Effective.
From S2P Require Import Systemd.
From S2P Require Import HostFs.
From S2P Require Import HostService.
From S2P Require Import HostPolicy.
From S2P Require Import HostBootstrap.
From S2P Require Import HostSeal.
From S2P Require Import HostPanel.
From S2P Require Import HostFetch.
From S2P Require Import HostTx.
From S2P Require Import HostFrame.
From S2P Require Import HostCrash.
From S2P Require Import HostUpgrade.
From S2P Require Import HostApply.

Local Open Scope string_scope.
Local Open Scope Z_scope.
Local Open Scope host_scope.

(** ** Taking the backups *)

(** The contents a file had; the empty string when there was none. *)
Definition contents (fs : hfs) (p : string) : string := match fs !! p with Some n => n_data n | None => "" end.
(** The backup describes the file as it is in [fs]. *)
Definition taken_of (fs : hfs) (b : fileBackup) : Prop :=
  if b_Exists b then exists n, fs !! b_Path b = Some n /\ is_reg n = true /\ b_Mode b = n_mode n /\ b_UID b = n_uid n /\ b_GID b = n_gid n
  else fs !! b_Path b = None.

Lemma reg_not_dir n : is_reg n = true -> is_dir n = false.
Proof. unfold is_reg, is_dir. intros Hr%bool_decide_eq_true. apply bool_decide_eq_false_2. congruence. Qed.
Lemma journal_file_not_temp jdir : not_temp (journal_file jdir).
Proof. apply plain_not_temp; [by apply sep_free_const|done]. Qed.
Lemma journal_not_backup jdir k : journal_file jdir <> backup_path jdir k.
Proof. intros Heq%child_inj. apply (f_equal chars) in Heq. rewrite chars_app in Heq. discriminate Heq. Qed.

Section Backups.
Context (E : Env) `{Json hostJournal}.
Variable jdir : string.
Let jf := journal_file jdir.

(** The copy a backup makes. *)
Definition copied (b : fileBackup) (fs fs' : hfs) : Prop :=
  if b_Exists b then
    fs !! b_Backup b = None /\ exists n, fs' = <[b_Backup b := n]> fs /\ is_dir n = false /\ n_data n = contents fs (b_Path b)
  else fs' = fs.

Lemma backup_ok p h a h' :
  backup E jdir p h = (Ok a, h') ->
  (p ∈ b_Path <$> j_Backups (h_j h) /\ h' = h) \/
  (p ∉ b_Path <$> j_Backups (h_j h) /\ exists b n fs1,
     b_Path b = p /\ b_Backup b = backup_path jdir (length (j_Backups (h_j h))) /\ taken_of (h_fs h) b /\
     copied b (h_fs h) fs1 /\ h_fs h' = <[jf := n]> fs1 /\ h_j h' = add_backup b (h_j h)).
Proof.
  intros Hr. unfold backup in Hr. apply h_bind_ok in Hr as (j & h1 & [-> ->]%get_j_ok & Hr).
  destruct (existsb _ _) eqn:Ek.
  { left. apply h_ret_ok in Hr as [_ ->]. split; [|done]. apply existsb_In in Ek as (b & Hb & Hp). apply String.eqb_eq in Hp as <-.
    by apply list_elem_of_fmap_2. }
  right. split.
  { intros (b & -> & Hb)%list_elem_of_fmap. apply not_true_iff_false in Ek. apply Ek. apply existsb_In. exists b.
    by rewrite String.eqb_refl. }
  apply h_bind_ok in Hr as (st & h1 & Hst & Hr). apply h_try_ok in Hst. unfold h_lstat, read_fs, sys, lookup_node in Hst.
  destruct (e_fault E (h_tick h)); [injection Hst as <- <-; discriminate Hr|]. simpl in Hst.
  destruct (h_fs h !! p) as [x|] eqn:Ex; injection Hst as <- <-.
  - apply h_bind_ok in Hr as (u & h1 & [Hreg ->]%require_ok & Hr). apply andb_true_iff in Hreg as [Hreg _].
    apply h_bind_ok in Hr as (u1 & h1 & [_ ->]%trusted_ok & Hr).
    apply h_bind_ok in Hr as (d & h1 & [Hd ->]%read_fs_ok & Hr). cbn [h_fs ticked] in Hd. rewrite Ex, (reg_not_dir x Hreg) in Hd.
    injection Hd as <-.
    apply h_bind_ok in Hr as (u2 & h1 & Hc & Hr). apply sys_ok in Hc. cbn [h_fs ticked] in Hc.
    destruct (h_fs h !! backup_path jdir _) eqn:Eb; [done|]. injection Hc as _ <-.
    apply h_bind_ok in Hr as (u3 & h1 & (n & Hn & ->)%update_ok & Hr). cbn [h_fs put_fs ticked fresh_ino] in *.
    rewrite lookup_insert_eq in Hn. injection Hn as <-.
    apply h_bind_ok in Hr as (u4 & h1 & ->%nop_ok & Hr). apply h_bind_ok in Hr as (u5 & h1 & ->%nop_ok & Hr).
    apply h_bind_ok in Hr as (u6 & h1 & ->%set_j_ok & Hr). apply journal_save_ok in Hr as (n & Hfs & _ & Hj & _); [|apply journal_file_not_temp].
    cbn [h_fs h_j put_fs ticked fresh_ino] in *. rewrite insert_insert_eq in Hfs.
    eexists (mkBackup p _ _ _ _ true), n, _. split_and!; [done|done| | |exact Hfs|exact Hj].
    + unfold taken_of. cbn. by exists x.
    + unfold copied. cbn. split; [done|]. eexists. split; [done|]. split; [done|]. cbn. unfold contents. by rewrite Ex.
  - apply h_bind_ok in Hr as (u6 & h1 & ->%set_j_ok & Hr). apply journal_save_ok in Hr as (n & Hfs & _ & Hj & _); [|apply journal_file_not_temp].
    cbn [h_fs h_j ticked] in *. eexists (mkBackup p _ 0 0 0 false), n, _. by split_and!.
Qed.

(** The backups of [done] paths, all taken of the files as they are in [fs0]. *)
Record backed (fs0 : hfs) (done : list string) (h : Host) : Prop := {
  bk_nodup : NoDup (b_Path <$> j_Backups (h_j h));
  bk_paths : forall p, p ∈ b_Path <$> j_Backups (h_j h) <-> p ∈ done;
  bk_names : forall b, b ∈ j_Backups (h_j h) -> exists k, b_Backup b = backup_path jdir k;
  bk_taken : Forall (taken_of fs0) (j_Backups (h_j h));
  bk_intact : Forall (backup_intact (contents fs0) (h_fs h)) (j_Backups (h_j h));
  bk_off : forall q, under jdir q = false -> h_fs h !! q = fs0 !! q;
}.
Definition same_but_backups (j j' : hostJournal) : Prop := j' = set_Backups (j_Backups j') j.

Lemma taken_of_frame fs fs' b : fs !! b_Path b = fs' !! b_Path b -> taken_of fs b -> taken_of fs' b.
Proof. unfold taken_of. by intros ->. Qed.
Lemma under_jdir k : under jdir (backup_path jdir k) = true.
Proof. apply under_child. Qed.
Lemma backup_step fs0 done h p a h' :
  under jdir p = false -> backed fs0 done h -> backup E jdir p h = (Ok a, h') ->
  backed fs0 (done ++ [p]) h' /\ same_but_backups (h_j h) (h_j h').
Proof.
  intros Hp [Hnd Hps Hnm Htk Hin Hoff] Hr. apply backup_ok in Hr as [[Hk ->]|(Hk & b & n & fs1 & <- & Hbk & Hb & Hc & Hfs & Hj)].
  { split; [|by destruct (h_j h)]. split; try done. intros q. rewrite Hps, elem_of_app, list_elem_of_singleton. rewrite Hps in Hk. naive_solver. }
  rewrite Hoff in Hb || (apply (taken_of_frame _ fs0) in Hb; [|by apply Hoff]).
  assert (Hbs : j_Backups (h_j h') = (j_Backups (h_j h) ++ [b])%list) by (by rewrite Hj).
  assert (Hcont : contents (h_fs h) (b_Path b) = contents fs0 (b_Path b)) by (unfold contents; by rewrite Hoff).
  assert (Hother : forall q, q <> jf -> (b_Exists b = true -> q <> b_Backup b) -> h_fs h' !! q = h_fs h !! q).
  { intros q Hq Hq'. rewrite Hfs, lookup_insert_ne by done. unfold copied in Hc. destruct (b_Exists b); [|by rewrite Hc].
    destruct Hc as (_ & x & -> & _). rewrite lookup_insert_ne; [done|]. intros Heq. by apply Hq'. }
  split; [|unfold same_but_backups; by rewrite Hbs, Hj]. split; rewrite ?Hbs, ?fmap_app.
  - apply NoDup_app. split_and!; [done| |apply NoDup_singleton]. by intros x Hx ->%list_elem_of_singleton.
  - intros q. rewrite !elem_of_app, Hps. done.
  - intros b' [Hb'|Hb']%elem_of_app; [by apply Hnm|]. apply list_elem_of_singleton in Hb' as ->. by eexists.
  - apply Forall_app. split; [done|]. by constructor.
  - apply Forall_app. split.
    + rewrite Forall_forall in Hin |- *. intros b' Hb' He. destruct (Hin b' Hb' He) as (x & Hx & Hd). exists x. split; [|done].
      destruct (Hnm b' Hb') as [k Ek]. rewrite Hother; [done|rewrite Ek; intros Heq; by apply (journal_not_backup jdir k)|].
      intros Eb Heq. unfold copied in Hc. rewrite Eb in Hc. destruct Hc as [Hnone _]. congruence.
    + constructor; [|constructor]. intros He. unfold copied in Hc. rewrite He in Hc. destruct Hc as (_ & x & -> & Hx & Hd). exists x.
      rewrite Hfs, lookup_insert_ne, lookup_insert_eq; [by rewrite Hd, Hcont|]. rewrite Hbk. apply journal_not_backup.
  - intros q Hq. rewrite Hother; [by apply Hoff| |].
    + intros ->. unfold jf, journal_file in Hq. by rewrite under_child in Hq.
    + intros _ ->. by rewrite Hbk, under_jdir in Hq.
Qed.
Lemma backup_all fs0 paths done h a h' :
  (forall p, p ∈ paths -> under jdir p = false) -> backed fs0 done h -> h_iter (backup E jdir) paths h = (Ok a, h') ->
  backed fs0 (done ++ paths) h' /\ same_but_backups (h_j h) (h_j h').
Proof.
  unfold h_iter. generalize tt as u. revert done h. induction paths as [|p paths IH]; intros done h u Hp Hb Hr; cbn [h_fold] in Hr.
  { apply h_ret_ok in Hr as [_ ->]. rewrite app_nil_r. split; [done|]. by destruct (h_j h). }
  apply h_bind_ok in Hr as (u1 & h1 & Hs & Hr). apply (backup_step fs0 done) in Hs as [Hb1 Hs1]; [|apply Hp; by left|done].
  apply IH with (done := (done ++ [p])%list) in Hr as [Hb2 Hs2]; [|intros q Hq; apply Hp; by right|done].
  rewrite <- app_assoc in Hb2. split; [done|]. unfold same_but_backups in *. by rewrite Hs2, Hs1.
Qed.
End Backups.

(** ** The reviewed installation *)

(** The layout of an installation: its journal directory, the files of a
    transaction and its state roots are apart, and services write only below
    the state roots. *)
Record host_layout (E : Env) (m : Manifest) (dirs : list string) : Prop := {
  hl_roots : state_roots m = Some dirs;
  hl_dirs : forall d q, d ∈ dirs -> under (journalDir m) q = true -> under d q = false;
  hl_written : forall p, p ∈ helper_state m :: transaction_paths m -> under (journalDir m) p = false /\ not_temp p;
  hl_state : forall d p, d ∈ dirs -> p ∈ transaction_paths m -> under d p = false;
  hl_services : forall t fs q, under (journalDir m) q = true \/ q ∈ transaction_paths m -> e_daemon E t fs !! q = fs !! q;
}.
(** The journal's codec round trip for the journals of one transaction. *)
Definition codec_law `{Json hostJournal} `{StrictJson hostJournal} (B : list fileBackup) (dirs : list string) : Prop :=
  forall j s, journal_of B dirs j -> json_marshal j = Some s ->
    exists j' rest, decode_strict (s ++ newline) = Some (j', rest) /\ at_eof rest = true /\ journal_of B dirs j'.

Section Applied.
Context (E : Env) (N : Panel).
Context `{Crypto} `{ProtoTime} `{Wire SignedInstruction} `{Json (option entries)} `{Wire PrivilegedRevision} `{Wire HostOperation}.
Context `{StrictJson Manifest} `{StrictJson Policy} `{StrictJson Trust} `{StrictJson AccessConfig} `{Json Identity}.
Context `{JJ : Json hostJournal} `{SJ : StrictJson hostJournal} `{Json Policy} `{Json Config} `{Json AppliedRecord} `{Json RescueConfig}.
Context `{Wire ReportHostOperationRequest} `{StrictJson HelperStatus} `{HostPhases}.
Variable iter : entries -> list (string * time).
Variable parse_url : string -> option Url.
Variable error_text : cmd_err -> string.

Lemma layout_of m dirs fs0 h :
  host_layout E m dirs -> backed (journalDir m) fs0 (transaction_paths m) h -> tx_layout E (journalDir m) m dirs (j_Backups (h_j h)).
Proof.
  intros [Hr Hd Hw Hs Hsv] [Hnd Hps Hnm _ _ _]. split; try done. intros b Hb. apply Hps. by apply list_elem_of_fmap_2.
Qed.
Lemma back_up_ok m dirs h a h' :
  host_layout E m dirs -> j_Backups (h_j h) = [] -> j_Ownership (h_j h) = [] -> j_RecoveryOwnership (h_j h) = [] ->
  back_up E m h = (Ok a, h') -> codec_law (j_Backups (h_j h')) dirs ->
  backed (journalDir m) (h_fs h) (transaction_paths m) h' /\ journal_of (j_Backups (h_j h')) dirs (h_j h') /\
  recoverable (journalDir m) (j_Backups (h_j h')) (contents (h_fs h)) dirs (h_fs h').
Proof.
  intros Hlay Hb0 Ho0 Hr0 Hr Hcodec. unfold back_up, dir_of in Hr. apply h_bind_ok in Hr as (u & h1 & Hall & Hr).
  apply (backup_all E (journalDir m) (h_fs h) (transaction_paths m) []) in Hall as [Hbk Hsame].
  2: { intros p Hp. apply (hl_written _ _ _ Hlay). by right. }
  2: { split; rewrite ?Hb0; [constructor|set_solver|set_solver|constructor|constructor|done]. }
  apply h_bind_ok in Hr as (u1 & h2 & ->%set_j_ok & Hr).
  apply journal_save_ok in Hr as (n & Hfs & _ & Hj & Hk & d & Hd & Hdata); [|apply journal_file_not_temp]. cbn [h_fs h_j] in *.
  assert (HjB : j_Backups (h_j h') = j_Backups (h_j h1)) by (by rewrite Hj).
  assert (HI : journal_of (j_Backups (h_j h')) dirs (h_j h')).
  { rewrite HjB, Hj. unfold journal_of, same_but_backups in *. split; [by left|]. split; [done|]. rewrite Hsame. simpl.
    by rewrite Ho0, Hr0. }
  assert (Hback : backed (journalDir m) (h_fs h) (transaction_paths m) h').
  { destruct Hbk as [Hnd Hps Hnm Htk Hin Hoff]. split; rewrite ?HjB; try done.
    - rewrite Forall_forall in Hin |- *. intros b Hb He. destruct (Hin b Hb He) as (x & Hx & ?). exists x. split; [|done].
      destruct (Hnm b Hb) as [k Ek]. rewrite Hfs, lookup_insert_ne; [done|]. rewrite Ek. apply journal_not_backup.
    - intros q Hq. rewrite Hfs, lookup_insert_ne; [by apply Hoff|]. intros <-. unfold journal_file in Hq. by rewrite under_child in Hq. }
  split; [done|]. split; [done|]. split; [|apply Hback].
  rewrite <- Hj in Hd. destruct (Hcodec (h_j h') d HI Hd) as (j' & rest & Hdec & Heof & Hj'). exists n, j', rest.
  rewrite Hfs, lookup_insert_eq, Hdata. split; [done|]. split; [|done]. unfold is_reg. by rewrite Hk, bool_decide_eq_true_2.
Qed.

(** When the [mutating] marker is on disk, the journal beside it describes
    every file of the transaction: its backups are complete, each names the
    mode, owner and contents its file had, nothing outside the journal's
    directory has changed, and the recovery can start. *)
Theorem back_up_complete m dirs h a h' :
  host_layout E m dirs -> j_Backups (h_j h) = [] -> j_Ownership (h_j h) = [] -> j_RecoveryOwnership (h_j h) = [] ->
  back_up E m h = (Ok a, h') -> codec_law (j_Backups (h_j h')) dirs ->
  (forall p, p ∈ transaction_paths m <-> exists b, b ∈ j_Backups (h_j h') /\ b_Path b = p /\ taken_of (h_fs h) b) /\
  (forall q, under (journalDir m) q = false -> h_fs h' !! q = h_fs h !! q) /\
  recoverable (journalDir m) (j_Backups (h_j h')) (contents (h_fs h)) dirs (h_fs h').
Proof.
  intros Hlay Hb0 Ho0 Hr0 Hr Hcodec. destruct (back_up_ok m dirs h a h' Hlay Hb0 Ho0 Hr0 Hr Hcodec) as ([Hnd Hps Hnm Htk Hin Hoff] & _ & Hrec).
  split_and!; [|done|done]. intros p. rewrite <- Hps. rewrite list_elem_of_fmap. rewrite Forall_forall in Htk. split.
  - intros (b & -> & Hb). exists b. split_and!; [done|done|by apply Htk].
  - intros (b & Hb & <- & _). by exists b.
Qed.
(** ** Reports and the archive *)

Section Reports.
Variables (I : hostJournal -> Prop) (P : hfs -> Prop) (jdir : string).
Hypothesis Hsave : hkeeps I P (save E jdir).
Hypothesis Hreceipt : forall r l j, I j -> I (set_Receipt r l j).
Lemma hk_set_receipt r l : hkeeps I P (set_j (set_Receipt r l)).
Proof. apply hk_set_j. apply Hreceipt. Qed.
Hint Resolve hk_set_receipt : host.
Lemma hk_report p phase detail : hkeeps I P (report E N jdir p phase detail).
Proof. unfold report. hk. Qed.
Lemma hk_prepare : hkeeps I P (prepareRestorationReceipt E jdir).
Proof. unfold prepareRestorationReceipt. hk. Qed.
Hint Resolve hk_report hk_prepare : host.
Lemma hk_reportRestoration p detail : hkeeps I P (reportRestoration E N iter jdir p detail).
Proof. unfold reportRestoration. hk. Qed.
End Reports.

(** Moving the journal's directory moves nothing else. *)
Lemma renamed_elsewhere from to h a h' q :
  h_rename_dir E from to h = (Ok a, h') -> under from q = false -> under to q = false -> h_fs h' !! q = h_fs h !! q.
Proof.
  intros Hr%sys_ok Hf Ht. simpl in Hr. destruct (h_fs h !! from); [|done]. destruct (bool_decide _); [done|].
  injection Hr as _ <-. cbn [h_fs put_fs].
  set (f := fun '(q, n) => _). set (l := map f _).
  assert (Hl : forall n, (q, n) ∈ l <-> h_fs h !! q = Some n).
  { intros n. unfold l. rewrite list_elem_of_fmap. split.
    - intros ([q0 n0] & Heq & Hin%elem_of_map_to_list). unfold f in Heq. destruct (under from q0) eqn:Eu; [|by injection Heq as -> ->].
      injection Heq as -> ->. exfalso. apply under_spec in Eu as [->|[r ->]].
      + unfold move_path in Ht. rewrite String.eqb_refl in Ht. by rewrite under_refl in Ht.
      + unfold move_path in Ht. rewrite (proj2 (String.eqb_neq _ _) (child_neq from r)) in Ht.
        unfold child in Ht. rewrite trim_prefix_app in Ht. change (to ++ "/" ++ r) with (child to r) in Ht. by rewrite under_child in Ht.
    - intros Hq. exists (q, n). split; [unfold f; by rewrite Hf|]. by apply elem_of_map_to_list. }
  destruct (h_fs h !! q) as [n|] eqn:En.
  - assert (Hin : (q, n) ∈ l) by by apply Hl. destruct (list_to_map (M := hfs) l !! q) as [n'|] eqn:El.
    + apply elem_of_list_to_map_2, Hl in El. congruence.
    + apply not_elem_of_list_to_map_2 in El. exfalso. apply El. apply list_elem_of_fmap. by exists (q, n).
  - apply not_elem_of_list_to_map_1. intros ([q' n'] & Hq & Hin)%list_elem_of_fmap. simpl in Hq. subst q'. apply Hl in Hin. congruence.
Qed.

Lemma all_back_rename B orig from to h a h' :
  (forall b, b ∈ B -> under from (b_Path b) = false /\ under to (b_Path b) = false) ->
  h_rename_dir E from to h = (a, h') -> all_back B orig (h_fs h) -> all_back B orig (h_fs h').
Proof.
  intros Hb Hr HB. destruct a as [u|err].
  - eapply all_back_frame; [|exact HB]. intros b Hin. destruct (Hb b Hin). by eapply renamed_elsewhere.
  - unfold h_rename_dir, sys in Hr. destruct (e_fault E (h_tick h)); [by injection Hr as _ <-|]. simpl in Hr.
    destruct (h_fs h !! from); [destruct (bool_decide _)|]; by inversion Hr; subst.
Qed.
Lemma archive_back B orig jd h r h' :
  (forall b id, b ∈ B -> under jd (b_Path b) = false /\ under (jd ++ "-" ++ id) (b_Path b) = false) ->
  archiveJournal E jd h = (r, h') -> all_back B orig (h_fs h) -> all_back B orig (h_fs h').
Proof.
  intros Hb Hr HB. unfold archiveJournal, h_bind at 1, get_j in Hr. unfold h_bind at 1 in Hr.
  destruct (h_rename_dir E jd (jd ++ "-" ++ j_ID (h_j h)) h) as [r1 h1] eqn:E1.
  apply (all_back_rename B orig) in E1; [|intros b Hin; by apply Hb|done]. destruct r1 as [u|e1]; [|by injection Hr as _ <-].
  unfold nop, sys in Hr. by destruct (e_fault E (h_tick h1)); injection Hr as _ <-.
Qed.

(** The files of the transaction after a failure that was restored. *)
Lemma execute_or_restore_back v x m dirs B orig h e h' :
  m = rv_manifest v -> tx_layout E (journalDir m) m dirs B -> codec_law B dirs -> pl_manifest x = m -> pl_dirs x = dirs ->
  journal_of B dirs (h_j h) -> recoverable (journalDir m) B orig dirs (h_fs h) ->
  (forall b id, b ∈ B -> under (journalDir m ++ "-" ++ id) (b_Path b) = false) ->
  execute_or_restore E N iter parse_url error_text v x h = (Err e, h') -> (forall e', e <> EIncomplete e') ->
  all_back B orig (h_fs h').
Proof.
  intros -> Htx Hcodec Hm Hd HI HP Harch Hrun Hne. unfold execute_or_restore, dir_of in Hrun. set (m := rv_manifest v) in *.
  set (jd := journalDir m) in *.
  unfold h_bind at 1, h_try at 1 in Hrun. destruct (executeTransaction E N iter jd x h) as [r3 h3] eqn:E3.
  apply (hk_run (journal_of B dirs) (recoverable jd B orig dirs)) in E3 as (HI3 & HP3 & _); [|by eapply hk_execute|done|done].
  destruct r3 as [u|e0]; [done|]. unfold h_bind at 1, set_j at 1 in Hrun.
  unfold h_bind at 1, h_try at 1 in Hrun. match type of Hrun with context [save E jd ?k] => destruct (save E jd k) as [r4 h4] eqn:E4 end.
  apply (hk_run (journal_of B dirs) (recoverable jd B orig dirs)) in E4 as (HI4 & HP4 & _); [|by eapply hk_save_tx|exact HI3|exact HP3].
  unfold h_bind at 1, h_try at 1 in Hrun. destruct (restoreTransaction E parse_url jd m h4) as [r5 h5] eqn:E5.
  destruct r5 as [u5|e5]; [|unfold h_err in Hrun; injection Hrun as <- _; by destruct (Hne e0)].
  eapply restored_ok in E5; [|exact Htx|exact Hcodec|exact HI4|exact HP4].
  unfold h_bind at 1, h_try at 1 in Hrun. destruct (reportRestoration E N iter jd (rv_panel v) (error_text e0) h5) as [r6 h6] eqn:E6.
  apply (hk_run (fun _ => True) (all_back B orig)) in E6 as (_ & HB6 & _);
    [|by apply hk_reportRestoration; [by eapply hk_save_back|]|done|done].
  destruct r6 as [u6|e6]; [|unfold h_err in Hrun; by injection Hrun as _ <-].
  unfold h_bind at 1, h_try at 1 in Hrun. destruct (archiveJournal E jd h6) as [r7 h7] eqn:E7.
  apply (archive_back B orig) in E7; [|intros b id Hb; split; [|by apply Harch]|done].
  - destruct r7; unfold h_err in Hrun; by injection Hrun as _ <-.
  - apply (lay_paths _ _ _ _ _ Htx) in Hb. apply (lay_written _ _ _ _ _ Htx). by right.
Qed.

(** C9: an application that fails and says so after restoring has restored:
    every file of the transaction is as it was when the mutation began, with its
    type, contents, mode and owner, or absent if it was absent, wherever the
    transaction had got to. *)
Theorem failed_apply_restores v x dirs h a h1 e h2 p :
  let m := rv_manifest v in
  host_layout E m dirs -> pl_manifest x = m -> pl_dirs x = dirs ->
  j_Backups (h_j h) = [] -> j_Ownership (h_j h) = [] -> j_RecoveryOwnership (h_j h) = [] ->
  back_up E m h = (Ok a, h1) -> codec_law (j_Backups (h_j h1)) dirs ->
  execute_or_restore E N iter parse_url error_text v x h1 = (Err e, h2) -> (forall e', e <> EIncomplete e') ->
  p ∈ transaction_paths m -> (forall p' id, p' ∈ transaction_paths m -> under (journalDir m ++ "-" ++ id) p' = false) ->
  match h_fs h !! p with
  | None => h_fs h2 !! p = None
  | Some n => exists n', h_fs h2 !! p = Some n' /\ same_file n n'
  end.
Proof.
  intros m Hlay Hm Hd Hb0 Ho0 Hr0 Hbk Hcodec Hrun Hne Hp Harch.
  destruct (back_up_ok m dirs h a h1 Hlay Hb0 Ho0 Hr0 Hbk Hcodec) as (Hbacked & HI & HP).
  pose proof (layout_of _ _ _ _ Hlay Hbacked) as Htx.
  apply (execute_or_restore_back v x m dirs (j_Backups (h_j h1)) (contents (h_fs h))) in Hrun; try done.
  2: { intros b id Hb%(lay_paths _ _ _ _ _ Htx). by apply Harch. }
  apply (bk_paths _ _ _ _ Hbacked) in Hp. apply list_elem_of_fmap in Hp as (b & -> & Hb).
  pose proof (bk_taken _ _ _ _ Hbacked) as Htk. unfold all_back in Hrun. rewrite Forall_forall in Hrun, Htk. specialize (Hrun b Hb). specialize (Htk b Hb).
  unfold put_back_file, taken_of in *. destruct (b_Exists b); [|by rewrite Htk].
  destruct Htk as (n & Hn & Hreg & Hmode & Hu & Hg). rewrite Hn. destruct Hrun as (n' & Hn' & Hk & Hdata & Hm' & Ho). exists n'. split; [done|].
  unfold contents in Hdata. rewrite Hn in Hdata. injection Ho as Hu' Hg'. unfold same_file. unfold is_reg in Hreg. apply bool_decide_eq_true in Hreg.
  split_and!; congruence.
Qed.
End Applied.

(** ** Before the mutation *)

(** Where the tool keeps its own files; the last four are the journal and the
    cache of a service named [..], which [ValidService] admits. *)
Definition own_place (q : string) : bool :=
  under "/var/lib/komari-host" q || under "/var/cache/komari" q ||
  existsb (String.eqb q) ["/var/lib"; "/var/lib/transaction.json"; "/var/cache/komari-agent-rescue";
                          "/var/cache/komari-agent-rescue.release.json"].

Lemma service_cases s : ValidService s = true -> s = "." \/ s = ".." \/ plain s.
Proof.
  intros [Hne Hs]%ValidService_plain. destruct (decide (s = ".")); [by left|]. destruct (decide (s = "..")); [by right; left|].
  right. right. by split_and!.
Qed.
Lemma clean_plain_step stack s : plain s -> clean_step true stack s = s :: stack.
Proof.
  intros (H1 & H2 & H3 & _). unfold clean_step.
  by rewrite (proj2 (String.eqb_neq _ _) H1), (proj2 (String.eqb_neq _ _) H2), (proj2 (String.eqb_neq _ _) H3).
Qed.
Lemma journalDir_cases m :
  ValidService (mf_ServiceName m) = true ->
  journalDir m = "/var/lib/komari-host" \/ journalDir m = "/var/lib" \/ journalDir m = child "/var/lib/komari-host" (mf_ServiceName m).
Proof.
  intros Hv. pose proof (ValidService_plain _ Hv) as [Hne Hs]. unfold journalDir, join_path. cbn [List.filter].
  rewrite (proj2 (String.eqb_neq _ _) Hne). cbn [negb String.eqb Ascii.eqb Bool.eqb].
  change (join "/" ["/var/lib/komari-host"; mf_ServiceName m]) with (abs_path ["var"; "lib"; "komari-host"; mf_ServiceName m]).
  rewrite clean_abs_path by (repeat constructor; [by apply sep_free_const..|done]). unfold clean_elems. cbn [fold_left].
  apply service_cases in Hv as [->|[->|Hp]]; [by left|by right; left|]. right. right.
  rewrite (clean_plain_step _ (mf_ServiceName m)) by done. reflexivity.
Qed.
Lemma helperCache_cases m :
  ValidService (mf_ServiceName m) = true ->
  exists d, helperCache m = child d "komari-agent-rescue" /\
    (d = "/var/cache/komari" \/ d = "/var/cache" \/ d = child "/var/cache/komari" (mf_ServiceName m)).
Proof.
  intros Hv. pose proof (ValidService_plain _ Hv) as [Hne Hs]. unfold helperCache, join_path. cbn [List.filter].
  rewrite (proj2 (String.eqb_neq _ _) Hne). cbn [negb String.eqb Ascii.eqb Bool.eqb].
  change (join "/" ["/var/cache/komari"; mf_ServiceName m; "komari-agent-rescue"])
    with (abs_path ["var"; "cache"; "komari"; mf_ServiceName m; "komari-agent-rescue"]).
  rewrite clean_abs_path by (repeat constructor; try done; by apply sep_free_const). unfold clean_elems. cbn [fold_left].
  apply service_cases in Hv as [->|[->|Hp]].
  - exists "/var/cache/komari". by auto.
  - exists "/var/cache". by auto.
  - exists (child "/var/cache/komari" (mf_ServiceName m)). rewrite (clean_plain_step _ (mf_ServiceName m)) by done. split; [|by auto].
    rewrite clean_plain_step by (repeat split; try done; by apply sep_free_const). cbn [rev app join abs_path].
    unfold child. by rewrite !app_str_assoc.
Qed.

Section Untouched.
Context (E : Env) (N : Panel).
Variable http : nat -> string -> option (Z * Z * bytes).
Variables goos goarch : string.
Context `{Crypto} `{ProtoTime} `{Wire SignedInstruction} `{Json (option entries)} `{Wire PrivilegedRevision} `{Wire HostOperation}.
Context `{StrictJson Manifest} `{StrictJson Policy} `{StrictJson Trust} `{StrictJson AccessConfig} `{Json Identity}.
Context `{Json hostJournal} `{Wire ReportHostOperationRequest} `{HostPhases}.
Context `{Json ReleasePayload} `{Json ReleaseManifest} `{StrictJson ReleaseManifest} `{StrictJson softwareUpgrade}.
Variable iter : entries -> list (string * time).
Variable parse_url : string -> option Url.
Variable parse_float : string -> option Z.
Variable merge_json : bytes -> Config -> option Config.
Variable ReleaseVersion : string.

(** A file that exists and is none of the tool's own. *)
Variables (q : string) (n : HNode).
Hypothesis Hq : own_place q = false.
Hypothesis Hqt : not_temp q.
Hypothesis Hqd : forall t fs, e_daemon E t fs !! q = fs !! q.
Let P : hfs -> Prop := one_file q n.

Lemma own_places p : own_place p = true -> stable_at p P.
Proof. intros Hp. apply stable_other. intros ->. congruence. Qed.
Lemma temps_q : stable_temps P. Proof. by apply stable_temps_q. Qed.
Lemma new_q : stable_new P. Proof. apply stable_new_q. Qed.
Lemma keep_q : services_keep E P. Proof. by apply services_keep_q. Qed.
Hint Resolve temps_q new_q keep_q : host.

Lemma own_under_host p : under "/var/lib/komari-host" p = true -> own_place p = true.
Proof. unfold own_place. by intros ->. Qed.
Lemma own_under_cache p : under "/var/cache/komari" p = true -> own_place p = true.
Proof. unfold own_place. intros ->. by rewrite orb_true_r. Qed.
Lemma own_journal m : ValidService (mf_ServiceName m) = true -> own_place (journalDir m) = true /\ own_place (journal_file (journalDir m)) = true.
Proof.
  intros Hv. apply journalDir_cases in Hv as [->|[->| ->]]; split; try (vm_compute; reflexivity); apply own_under_host.
  - apply under_child.
  - unfold journal_file. eapply under_trans; apply under_child.
Qed.
Lemma own_cache m :
  ValidService (mf_ServiceName m) = true ->
  (own_place (helperCache m) = true /\ not_temp (helperCache m)) /\
  own_place (helperCache m ++ ".release.json") = true /\ not_temp (helperCache m ++ ".release.json").
Proof.
  intros Hv. apply helperCache_cases in Hv as (d & -> & Hd).
  assert (Heq : child d "komari-agent-rescue" ++ ".release.json" = child d "komari-agent-rescue.release.json").
  { unfold child. by rewrite !app_str_assoc. }
  rewrite Heq. split; split; try (apply plain_not_temp; [by apply sep_free_const|reflexivity]);
    (destruct Hd as [->|[->| ->]]; [vm_compute; reflexivity..|]; apply own_under_cache; eapply under_trans; apply under_child).
Qed.

Lemma hk_lock_q : hkeeps (fun _ => True) P (acquireHostLock E).
Proof. apply hk_lock_file. Qed.
Lemma hk_pending_q m : hkeeps (fun _ => True) P (rejectPendingSoftwareUpgrade E m).
Proof.
  unfold rejectPendingSoftwareUpgrade, pendingSoftwareUpgrade, glob_upgrades, names_of, lift_result. hk.
Qed.
Lemma resolve_valid path h m h' : resolveManifest E path h = (Ok m, h') -> ValidService (mf_ServiceName m) = true.
Proof.
  intros Hr. unfold resolveManifest in Hr. apply h_bind_ok in Hr as (p & h1 & _ & Hr). apply h_bind_ok in Hr as (m1 & h2 & _ & Hr).
  apply h_bind_ok in Hr as (u & h3 & [Hv _]%require_ok & Hr). apply h_bind_ok in Hr as (u1 & h4 & _ & Hr). apply h_ret_ok in Hr as [-> _].
  by bool_hyps.
Qed.
Lemma hk_chmod_own m mode : ValidService (mf_ServiceName m) = true -> hkeeps (fun _ => True) P (h_chmod E (journalDir m) mode).
Proof. intros Hv. apply hk_chmod, own_places. by apply own_journal. Qed.
Lemma hk_save_own m : ValidService (mf_ServiceName m) = true -> hkeeps (fun _ => True) P (save E (journalDir m)).
Proof.
  intros Hv. unfold save. apply hk_with_j. intros j _. apply hk_write_json; [apply temps_q|apply journal_file_not_temp|].
  apply own_places. by apply own_journal.
Qed.
Lemma hk_lift_result {A} (r : result A cmd_err) : hkeeps (fun _ => True) P (lift_result r).
Proof. unfold lift_result. hk. Qed.
Lemma hk_previous_uid p o : hkeeps (fun _ => True) P (previous_uid E p o).
Proof. unfold previous_uid. hk. Qed.
Lemma hk_working_dir d dirs : hkeeps (fun _ => True) P (check_working_dir E d dirs).
Proof. unfold check_working_dir. hk. Qed.
Lemma hk_fetch_q m t version : ValidService (mf_ServiceName m) = true -> hkeeps (fun _ => True) P (cacheHelper E http goos goarch m t version).
Proof.
  intros Hv. destruct (own_cache m Hv) as [[H1_ H2_] [H3_ H4_]].
  pose proof (own_places _ H1_). pose proof (own_places _ H3_).
  unfold cacheHelper, downloadHelper, download, verify_release, AtomicWrite. hk.
Qed.
Hint Resolve hk_lock_q hk_pending_q hk_chmod_own hk_save_own hk_lift_result hk_previous_uid hk_working_dir hk_fetch_q : host.
Lemma hk_prepareHelper_q m t a r version :
  ValidService (mf_ServiceName m) = true -> hkeeps (fun _ => True) P (prepareHelper E http goos goarch m t a r version).
Proof. intros Hv. unfold prepareHelper. hk. Qed.
Lemma hk_report_q m p phase detail : ValidService (mf_ServiceName m) = true -> hkeeps (fun _ => True) P (report E N (journalDir m) p phase detail).
Proof. intros Hv. apply hk_report; [by apply hk_save_own|done]. Qed.
Hint Resolve hk_prepareHelper_q hk_report_q : host.

Ltac hq1 :=
  lazymatch goal with
  | |- hq _ (h_bind (resolveManifest _ _) _) _ =>
      eapply hq_bind; [apply hq_of; [solve [eauto with host]|intros ? ? ?; apply resolve_valid]|let Hv := fresh "Hv" in intros ? Hv; cbn beta in Hv |- *]
  | |- hq _ (h_bind _ _) _ => apply hq_keep; [hk|intros ?; cbn beta]
  | |- hq _ (match ?x with _ => _ end) _ => destruct x
  | |- hq _ (h_err _) _ => apply hq_err
  | |- hq _ (h_ret _) _ => apply hq_ret
  end.
Lemma review_q root a : hq P (review E N iter parse_url parse_float merge_json root a) (fun v => ValidService (mf_ServiceName (rv_manifest v)) = true).
Proof.
  unfold review, dir_of. repeat hq1. done.
Qed.
Lemma claim_q a typed v : ValidService (mf_ServiceName (rv_manifest v)) = true ->
  hkeeps (fun _ => True) P (claim E N http goos goarch iter ReleaseVersion a typed v).
Proof.
  intros Hv. unfold claim, dir_of, confirmLegacyRemoteControl. apply hk_bind; [hk|]. intros _.
  apply hk_bind; [hk|]. intros operator. apply hk_bind; [hk|]. intros [helper version]. hk; by apply hk_set_j.
Qed.

(** Until the backups are taken an application changes nothing it does not
    own: whatever the administrator, the panel and the disk do, a file that
    exists outside the tool's own journal and cache directories keeps its
    contents, mode, owner and inode in every file system the review and the
    claim go through. *)
Theorem review_and_claim_change_nothing root a typed h r h' :
  h_fs h !! q = Some n ->
  (let! v := review E N iter parse_url parse_float merge_json root a in
   claim E N http goos goarch iter ReleaseVersion a typed v) h = (r, h') ->
  exists new, h_trace h' = (new ++ h_trace h)%list /\ Forall (fun fs => fs !! q = Some n) (h_fs h' :: new).
Proof.
  intros Hn Hr. eapply (hk_run (fun _ => True) P) in Hr as (_ & HP' & _ & new & Htr & Hnew); [|apply (hq_keeps P _ (fun _ => True))|done|exact Hn].
  - exists new. split; [done|]. by constructor.
  - eapply hq_bind; [apply review_q|]. intros v Hv. by apply hkeeps_hq, claim_q.
Qed.
End Untouched.

(** [ValidService] admits [..], and then the directory of the journal, which
    [apply] makes private to root, is [/var/lib] itself. *)
Lemma dotted_service_escapes m :
  mf_ServiceName m = ".." ->
  ValidService (mf_ServiceName m) = true /\ journalDir m = "/var/lib" /\ helperCache m = "/var/cache/komari-agent-rescue".
Proof. intros Hm. unfold journalDir, helperCache. rewrite Hm. repeat split; vm_compute; reflexivity. Qed.
