(* ===== verification/HostInstall.v ===== *)
(** * Installing and migrating a service ([internal/hostcmd/install_linux.go],
    [platform_linux.go])

    A fresh installation registers a service that did not exist; a migration
    moves a legacy service to the reviewed layout, keeping its identity and its
    state files. Both check every destination before they write anything. *)

From S2P Require Import Prelude.
From S2P Require Import GoStd.
From S2P Require Import GoPath.
From S2P Require Import External.
From S2P Require Import Credentials.
From S2P Require Import Privileged.
From S2P Require Import HostOps.
From S2P Require Import Systemd.
From S2P Require Import HostFs.
From S2P Require Import HostService.
From S2P Require Import HostPolicy.
From S2P Require Import HostBootstrap.
From S2P Require Import HostPanel.
From S2P Require Import HostFetch.
From S2P Require Import HostTx.
From S2P Require Import HostFrame.

Local Open Scope string_scope.
Local Open Scope Z_scope.
Local Open Scope host_scope.

(** [strings.ContainsAny(s, "\r\n\x00")]. *)
Definition has_control (s : string) : bool :=
  existsb (fun c => Nat.eqb (code c) 13 || Nat.eqb (code c) 10 || Nat.eqb (code c) 0) (chars s).
Definition state_flags : list string := ["--privileged-state-file"; "--runtime-state-file"; "--credentials-file"; "--replay-state-file"].
(** [strings.Cut(a, "=")], as the code uses it. *)
Definition option_of (a : string) : string * option string :=
  match cut a "=" with Some (k, v) => (k, Some v) | None => (a, None) end.
Definition join_words (words : list string) : string := join " " (map unitQuote words).

(** ** A fresh installation *)

Record InstallArgs := mkInstallArgs { ia_service : string; ia_account : string; ia_bindir : string; ia_daemon : list string }.

Definition install_manifest (a : InstallArgs) : Manifest :=
  let stateDir := join_path ["/var/lib/komari"; ia_service a] in
  mkManifest 2 (ia_service a) (ia_account a) "systemd" (join_path [ia_bindir a; "komari-agent"]) (join_path [ia_bindir a; "komari-host"])
    (join_path [Registry; ia_service a ++ ".policy.json"]) "" (join_path [stateDir; "credentials.json"])
    (join_path [stateDir; "runtime-config.json"]) (join_path [stateDir; "privileged.json"]) (join_path [stateDir; "nonces.json"]) "".
(** Whether the daemon's arguments disable remote control. *)
Fixpoint install_denies (deny : bool) (argv : list string) : result bool cmd_err :=
  match argv with
  | [] => Ok deny
  | a :: argv =>
      guard? negb (has_control a) else EBadArguments in
      let '(key, val) := option_of a in
      guard? negb (existsb (String.eqb key) state_flags) else EBadArguments in
      if (key =? "--disable-remote-control")%string then
        match val with
        | None => install_denies true argv
        | Some v => match parse_bool v with Some b => install_denies b argv | None => Err EBadArguments end
        end
      else install_denies deny argv
  end.
Definition install_policy (a : InstallArgs) (deny : bool) : Policy :=
  mkPolicy 2 (ia_service a) (if (ia_account a =? "root")%string then 1 else 2) true true true true deny false false false false
    false false false false "explicit-local-install" 0 None.
Definition install_argv (m : Manifest) (argv : list string) : list string :=
  (argv ++ ["--runtime-state-file"; mf_RuntimeStateFile m; "--credentials-file"; mf_CredentialsFile m;
            "--privileged-state-file"; mf_PrivilegedStateFile m; "--replay-state-file"; mf_ReplayStateFile m])%list.
Definition install_unit (m : Manifest) (stateDir : string) (argv : list string) : string :=
  lines ["[Unit]"; "Description=Komari Agent"; "After=network-online.target"; "Wants=network-online.target"; "[Service]"; "Type=simple";
         "ExecStart=" ++ join_words (mf_Executable m :: argv); "WorkingDirectory=" ++ stateDir; "User=" ++ mf_ServiceUser m;
         "Restart=on-failure"; "RestartSec=5"; "AmbientCapabilities=CAP_NET_RAW"; "CapabilityBoundingSet=CAP_NET_RAW";
         "NoNewPrivileges=true"; "[Install]"; "WantedBy=multi-user.target"].

(** What a migration writes down first. *)
Record migrationPlan := mkMigration { mp_Manifest : Manifest; mp_Policy : Policy; mp_RestartRequired : bool }.
Record MigrateArgs := mkMigrateArgs { ma_service : string; ma_deny : string; ma_commit : bool; ma_artifact : string; ma_digest : string }.

Section Install.
Context (E : Env).
Context `{Crypto} `{Json Policy} `{Json Manifest} `{Json migrationPlan} `{Json Config}.
Variable parse_float : string -> option Z.
Variable merge_json : bytes -> Config -> option Config.
(** [pflag.FlagSet.Parse] with the daemon's local flags: the positional
    arguments and the flags that were set. *)
Variable pflag_parse : list string -> option (list string * list string).

Definition ValidateInstallArgs (args : list string) : bool :=
  match pflag_parse args with
  | None => false
  | Some (positional, changed) =>
      Nat.eqb (length positional) 0 &&
      negb (existsb (fun name => existsb (String.eqb name) changed)
              ["runtime-state-file"; "privileged-state-file"; "credentials-file"; "replay-state-file"]) &&
      negb (existsb has_control args)
  end.

(** [_, err := os.Lstat(p); !os.IsNotExist(err)] is an error. *)
Definition absent (e : cmd_err) (p : string) : HM unit :=
  let! st := h_try (h_lstat E p) in
  match st with Err ENotExist => h_ret tt | _ => h_err e end.

Definition unit_path (service : string) : string := join_path ["/etc/systemd/system"; service ++ ".service"].
Definition registry_path (service : string) : string := join_path [Registry; service ++ ".json"].
Definition write_registration (m : Manifest) (p : Policy) (adjacent : string) : HM unit :=
  WriteJSON E (mf_HostPolicyFile m) p 420 ;;;
  WriteJSON E (registry_path (mf_ServiceName m)) m 420 ;;;
  WriteJSON E adjacent m 420.
Definition install (root : bool) (a : InstallArgs) : HM unit :=
  require (ValidateInstallArgs (ia_daemon a)) EBadArguments ;;;
  require root EUntrusted ;;;
  acquireHostLock E ;;;
  require (ValidService (ia_service a) && negb (has_suffix (ia_service a) ".service") && ValidService (ia_account a)) EServiceName ;;;
  absent ERegistered (registry_path (ia_service a)) ;;;
  h_iter (h_trusted E) [join_path [ia_bindir a; "komari-agent"]; join_path [ia_bindir a; "komari-host"]] ;;;
  let! (uid, gid, _) := account E (ia_account a) in
  require ((ia_account a =? "root")%string || negb (uid =? 0)) ERootAccount ;;;
  let m := install_manifest a in
  let stateDir := join_path ["/var/lib/komari"; ia_service a] in
  let adjacent := join_path [ia_bindir a; "service-config.json"] in
  let! deny := match install_denies false (ia_daemon a) with Ok b => h_ret b | Err e => h_err e end in
  h_iter (absent ERegistered) [unit_path (ia_service a); mf_HostPolicyFile m; adjacent] ;;;
  ensureTrustedDir E (dir stateDir) ;;;
  h_mkdir E stateDir 448 ;;;
  h_chown E stateDir uid gid ;;;
  h_iter (ensureTrustedDir E) [Registry; "/var/lib/komari-host"; "/run/komari"] ;;;
  write_registration m (install_policy a deny) adjacent ;;;
  let argv := install_argv m (ia_daemon a) in
  require (negb (existsb has_control argv)) EBadArguments ;;;
  ensureTrustedDir E "/etc/systemd/system" ;;;
  absent ERegistered (unit_path (ia_service a)) ;;;
  AtomicWrite E (unit_path (ia_service a)) (install_unit m stateDir argv) 384 ;;;
  ctl E ["daemon-reload"] ;;;
  ctl E ["enable"; ia_service a ++ ".service"] ;;;
  nop E.

(** ** A migration *)

(** What the loop over the old command line collects. *)
Record Migrating := mkMigrating {
  mg_runtime : string; mg_privileged : string; mg_credentials : string; mg_replay : string; mg_config : string;
  mg_disabled : bool; mg_cleaned : list string }.
Definition set_state_path (key v : string) (g : Migrating) : Migrating :=
  mkMigrating (if (key =? "--runtime-state-file")%string then v else mg_runtime g)
    (if (key =? "--privileged-state-file")%string then v else mg_privileged g)
    (if (key =? "--credentials-file")%string then v else mg_credentials g)
    (if (key =? "--replay-state-file")%string then v else mg_replay g)
    (if (key =? "--config")%string then v else mg_config g)
    (mg_disabled g) (mg_cleaned g ++ [key; v])%list.
Definition keep_args (l : list string) (disabled : bool) (g : Migrating) : Migrating :=
  mkMigrating (mg_runtime g) (mg_privileged g) (mg_credentials g) (mg_replay g) (mg_config g) disabled (mg_cleaned g ++ l)%list.
(** A relative path is taken from the service's working directory. *)
Definition absolute_in (workingDir v : string) : option string :=
  if is_abs v then Some v
  else if (workingDir =? "")%string || negb (is_abs workingDir) then None
  else Some (join_path [workingDir; v]).
Fixpoint migrate_args (workingDir deny : string) (argv : list string) (g : Migrating) : option Migrating :=
  match argv with
  | [] => Some g
  | a :: rest =>
      let '(key, val) := option_of a in
      if existsb (String.eqb key) (state_flags ++ ["--config"])%list then
        match val, rest with
        | Some v, _ => v ← absolute_in workingDir v; migrate_args workingDir deny rest (set_state_path key v g)
        | None, v :: rest => v ← absolute_in workingDir v; migrate_args workingDir deny rest (set_state_path key v g)
        | None, [] => None
        end
      else if (key =? "--disable-remote-control")%string then
        enabled ← match val with Some v => parse_bool v | None => Some true end;
        migrate_args workingDir deny rest (keep_args (if (deny =? "preserve")%string then [a] else []) enabled g)
      else if (key =? "--enable-gpu")%string || (key =? "--gpu")%string then
        _ ← match val with Some v => parse_bool v | None => Some true end;
        let a := if (key =? "--gpu")%string then "--enable-gpu" ++ match val with Some v => "=" ++ v | None => "" end else a in
        migrate_args workingDir deny rest (keep_args [a] (mg_disabled g) g)
      else migrate_args workingDir deny rest (keep_args [a] (mg_disabled g) g)
  end.

(** A state file: what the captured settings say, else the command line, else
    the file beside the old program, which has to exist. *)
Definition state_path (workingDir from_config from_args beside : string) : HM string :=
  let! p := (if (from_config =? "")%string then h_ret from_args
             else if is_abs from_config then h_ret from_config
             else if is_abs workingDir then h_ret (join_path [workingDir; from_config])
             else h_err EConversion) in
  if (p =? "")%string then
    let! st := h_try (h_lstat E beside) in
    match st with Ok _ => h_ret beside | Err _ => h_err EConversion end
  else h_ret p.

Definition migration_manifest (service : string) (o : serviceObservation) (creds runtime privileged replay : string) : Manifest :=
  mkManifest 2 service (if (so_User o =? "")%string then "root" else so_User o) "systemd"
    (join_path ["/usr/lib/komari"; service; "komari-agent"]) (join_path ["/usr/lib/komari"; service; "komari-host"])
    (join_path [Registry; service ++ ".policy.json"]) (join_path [Registry; service ++ ".migration-bootstrap.json"])
    creds runtime privileged replay "".
Definition migration_policy (service deny : string) (o : serviceObservation) (disabled gpu : bool) : Policy :=
  mkPolicy 2 service (mode_of_user (so_User o)) true true true true (disabled && (deny =? "preserve")%string) false false false gpu
    false false false false ("legacy-unknown-" ++ deny) 0 None.
Definition buildMigration (service : string) (o : serviceObservation) (deny : string) : HM (migrationPlan * list string) :=
  let! argv := match parseExecStart (so_ExecStart o) with Ok a => h_ret a | Err _ => h_err EConversion end in
  require ((deny =? "preserve")%string || (deny =? "release")%string) EBadArguments ;;;
  let d := dir (hd "" argv) in
  let! g := h_lift (migrate_args (so_WorkingDirectory o) deny (tail argv)
                     (mkMigrating "" "" "" "" "" false [join_path ["/usr/lib/komari"; service; "komari-agent"]])) EConversion in
  let! legacy := parseLegacyBootstrap parse_float merge_json E (mg_cleaned g) in
  let wd := so_WorkingDirectory o in
  let! creds := state_path wd (cfg_str "credentials-file" legacy) (mg_credentials g) (join_path [d; "credentials.json"]) in
  let! runtime := state_path wd (cfg_str "runtime-state-file" legacy) (mg_runtime g) (join_path [d; "runtime-config.json"]) in
  let! privileged := state_path wd (cfg_str "privileged-state-file" legacy) (mg_privileged g) (join_path [d; "privileged.json"]) in
  let! replay := state_path wd (cfg_str "replay-state-file" legacy) (mg_replay g) (join_path [d; "nonces.json"]) in
  h_ret (mkMigration (migration_manifest service o creds runtime privileged replay)
           (migration_policy service deny o (mg_disabled g || cfg_bool "disable-remote-control" legacy) (cfg_bool "enable-gpu" legacy)) true,
         mg_cleaned g).

(** [filepath.EvalSymlinks] of an absolute path: [links] may still be followed,
    [fuel] bounds the elements. *)
Fixpoint eval_links (fuel links : nat) (m : hfs) (at_ : string) (rest : list string) : option string :=
  match fuel, rest with
  | O, _ => None
  | _, [] => Some at_
  | S fuel, e :: rest =>
      if (e =? "")%string || (e =? ".")%string then eval_links fuel links m at_ rest
      else if (e =? "..")%string then eval_links fuel links m (dir at_) rest
      else
        let p := join_path [at_; e] in
        match m !! p with
        | None => None
        | Some n =>
            if is_link n then
              match links with
              | O => None
              | S links => eval_links fuel links m (if is_abs (n_data n) then "/" else at_) (split_on sep (n_data n) ++ rest)%list
              end
            else eval_links fuel links m p rest
        end
  end.
Definition EvalSymlinks (p : string) : HM string :=
  read_fs E (fun _ m => match eval_links 65536 255 m "/" (split_on sep p) with Some r => Ok r | None => Err ENotExist end).

(** The bootstrap of the migrated daemon. *)
Definition migrated_config (m : Manifest) (deny : string) (c : Config) : Config :=
  let c := <["replay-state-file" := VStr (mf_ReplayStateFile m)]> (<["privileged-state-file" := VStr (mf_PrivilegedStateFile m)]>
    (<["runtime-state-file" := VStr (mf_RuntimeStateFile m)]> (<["credentials-file" := VStr (mf_CredentialsFile m)]>
    (<["config-file" := VStr ""]> c)))) in
  if (deny =? "release")%string then <["disable-remote-control" := VBool false]> c else c.
Definition backup_unit (jdir : string) (i : nat) (path : string) : HM nat :=
  h_trusted E path ;;;
  let! b := h_read E path in
  AtomicWrite E (child jdir ("unit-" ++ utoa (Z.of_nat i) ++ ".backup")) b 384 ;;;
  h_ret (S i).
Definition layout_unit (argv : list string) : string := lines ["[Service]"; "ExecStart="; "ExecStart=" ++ join_words argv].
Definition unit_dir (service : string) : string := join_path ["/etc/systemd/system"; service ++ ".service.d"].

(** Everything from the first write on. *)
Definition commit_migration (plan : migrationPlan) (o : serviceObservation) (binary hostBinary bootstrap : bytes) (gid : Z) : HM unit :=
  let m := mp_Manifest plan in
  let adjacent := join_path [dir (mf_Executable m); "service-config.json"] in
  h_iter (absent ERegistered) [registry_path (mf_ServiceName m); mf_HostPolicyFile m; mf_ConfigFile m; adjacent] ;;;
  h_iter (ensureTrustedDir E) [dir (mf_Executable m); Registry; journalDir m; unit_dir (mf_ServiceName m)] ;;;
  WriteJSON E (child (journalDir m) "migration.json") plan 384 ;;;
  let! drop_ins := match splitWords (so_DropInPaths o) with Ok l => h_ret l | Err _ => h_err EConversion end in
  let! _ := h_fold (backup_unit (journalDir m)) (so_FragmentPath o :: drop_ins) O in
  AtomicWrite E (mf_Executable m) binary 493 ;;;
  AtomicWrite E (mf_HostTool m) hostBinary 493 ;;;
  AtomicWriteOwned E (mf_ConfigFile m) bootstrap 416 0 gid ;;;
  write_registration m (mp_Policy plan) adjacent ;;;
  AtomicWrite E (child (unit_dir (mf_ServiceName m)) "90-komari-trusted-layout.conf")
    (layout_unit [mf_Executable m; "--config"; mf_ConfigFile m]) 384 ;;;
  ctl E ["daemon-reload"] ;;;
  nop E.
Definition migrate (root : bool) (a : MigrateArgs) : HM migrationPlan :=
  require (ValidService (ma_service a) && negb (has_suffix (ma_service a) ".service")) EServiceName ;;;
  let! o := observe E (ma_service a) in
  let! (plan, argv) := buildMigration (ma_service a) o (ma_deny a) in
  if negb (ma_commit a) then nop E ;;; h_ret plan else
  require root EUntrusted ;;;
  acquireHostLock E ;;;
  let! binary := verifiedArtifact E (ma_artifact a) (ma_digest a) in
  let! self := h_lift (e_self E) EManifest in
  let! self := EvalSymlinks self in
  h_trusted E self ;;;
  let! hostBinary := h_read E self in
  let! bootstrap := parseLegacyBootstrap parse_float merge_json E argv in
  let m := mp_Manifest plan in
  let! (_, gid) := h_lift (e_user E (mf_ServiceUser m)) EUserUnknown in
  let! gid := h_lift (atoi gid) EBadNumber in
  let! data := h_lift (json_marshal (migrated_config m (ma_deny a) bootstrap)) EEncode in
  commit_migration plan o binary hostBinary data gid ;;;
  h_ret plan.

Definition diagnose (m : Manifest) : HM serviceObservation :=
  require (mf_InitSystem m =? "systemd")%string EManifest ;;;
  let! o := observe E (mf_ServiceName m) in
  nop E ;;; h_ret o.
End Install.

(** ** Theorems *)

(** Where an installation puts its files. *)
Definition install_targets (a : InstallArgs) : list string :=
  [registry_path (ia_service a); unit_path (ia_service a); mf_HostPolicyFile (install_manifest a);
   join_path [ia_bindir a; "service-config.json"]].

Section InstallTheorems.
Context (E : Env).
Context `{Json Policy} `{Json Manifest}.
Variable pflag_parse : list string -> option (list string * list string).
Variables (q : string) (n : HNode).
Hypothesis Hqt : not_temp q.
Hypothesis Hqd : forall t fs, e_daemon E t fs !! q = fs !! q.
Abbreviation P := (one_file q n).

Lemma temps_p : stable_temps P. Proof. by apply stable_temps_q. Qed.
Lemma new_p : stable_new P. Proof. apply stable_new_q. Qed.
Lemma keep_p : services_keep E P. Proof. by apply services_keep_q. Qed.
Hint Resolve temps_p new_p keep_p hk_lock_file : host.

Lemma hq_absent e p : hq P (absent E e p) (fun _ => p <> q).
Proof.
  unfold absent. eapply hq_bind; [apply hq_missing|]. cbn beta. intros st Hst.
  destruct st as [x|[]]; try apply hq_err. apply hq_ret. by apply Hst.
Qed.
Lemma hq_iter {A} (f : A -> HM unit) (Q : A -> Prop) l :
  (forall a, a ∈ l -> hq P (f a) (fun _ => Q a)) -> hq P (h_iter f l) (fun _ => Forall Q l).
Proof.
  unfold h_iter. generalize tt as u. induction l as [|a l IH]; intros u Hf; cbn [h_fold]; [by apply hq_ret|].
  eapply hq_bind; [apply Hf; by left|]. cbn beta. intros u1 Ha.
  intros h HI HP HT. pose proof (IH u1 (fun x Hx => Hf x (list_elem_of_further _ _ _ Hx)) h HI HP HT) as Hr.
  destruct (h_fold _ l u1 h) as [r h']. destruct Hr as (? & ? & HQ). split_and!; [done|done|]. intros b Hb. constructor; [done|by eapply HQ].
Qed.
Lemma hk_off_q p d mode : not_temp p -> p <> q -> hkeeps (fun _ => True) P (AtomicWrite E p d mode).
Proof. intros Hp Hne. apply hk_atomic_write_off; [apply temps_p|done|by apply stable_other]. Qed.
Lemma hk_json_off_q {A} `{JA : Json A} p (a : A) mode : not_temp p -> p <> q -> hkeeps (fun _ => True) P (WriteJSON E p a mode).
Proof. intros Hp Hne. apply hk_write_json; [apply temps_p|done|by apply stable_other]. Qed.
Hint Resolve hk_off_q hk_json_off_q : host.

(** A fresh installation replaces nothing: a file or directory that exists
    before, other than a temporary of the atomic writer, is untouched in every
    file system the installation goes through, whatever fails; what it would
    collide with makes it stop. *)
Theorem install_replaces_nothing root a h r h' :
  (forall p, p ∈ install_targets a -> not_temp p) -> h_fs h !! q = Some n ->
  install E pflag_parse root a h = (r, h') ->
  exists new, h_trace h' = (new ++ h_trace h)%list /\ Forall (fun fs => fs !! q = Some n) (h_fs h' :: new).
Proof.
  intros Hnt Hn Hr.
  eapply (hk_run (fun _ => True) P) in Hr as (_ & HP' & _ & new & Htr & Hnew); [|apply (hq_keeps P _ (fun _ => True))|done|exact Hn].
  { exists new. split; [done|]. by constructor. }
  unfold install. apply hq_keep; [hk|]. intros _. apply hq_keep; [hk|]. intros _. apply hq_keep; [hk|]. intros _.
  apply hq_keep; [hk|]. intros _.
  eapply hq_bind; [apply hq_absent|]. cbn beta. intros _ Hreg.
  apply hq_keep; [hk|]. intros _. apply hq_keep; [hk|]. intros [[uid gid] g]. apply hq_keep; [hk|]. intros _.
  apply hq_keep; [hk|]. intros deny.
  eapply hq_bind; [apply (hq_iter _ (fun p => p <> q)); intros p _; apply hq_absent|]. cbn beta.
  intros _ Hdest. rewrite !Forall_cons in Hdest. destruct Hdest as (Hunit & Hpol & Hadj & _).
  apply hq_keep; [hk|]. intros _. eapply hq_bind; [apply hq_mkdir|]. cbn beta. intros _ Hdir.
  apply hkeeps_hq. apply hk_bind; [apply hk_chown; by apply stable_other|]. intros _.
  assert (Hreg' : not_temp (registry_path (ia_service a))) by (apply Hnt; by left).
  assert (Hunit' : not_temp (unit_path (ia_service a))) by (apply Hnt; by right; left).
  assert (Hpol' : not_temp (mf_HostPolicyFile (install_manifest a))) by (apply Hnt; by right; right; left).
  assert (Hadj' : not_temp (join_path [ia_bindir a; "service-config.json"])) by (apply Hnt; by right; right; right; left).
  unfold write_registration, absent. hk; by apply hk_json_off_q.
Qed.
End InstallTheorems.
