(* ===== verification/HostDemo.v ===== *)
(** * A small installation

    One concrete host, on which the theorems about the host tool are applied:
    a service [komari] with its manifest, policy, state directory and an
    interrupted transaction. *)

From S2P Require Import Prelude.
From S2P Require Import GoStd.
From S2P Require Import GoPath.
From S2P Require Import External.
From S2P Require Import Credentials.
From S2P Require Import Replay.
From S2P Require Import Signing.
From S2P Require Import Privileged.
From S2P Require Import HostOps.
From S2P Require Import RuntimeConfig.
From S2P Require Import Effective.
From S2P Require Import Systemd.
From S2P Require Import HostFs.
From S2P Require Import HostService.
From S2P Require Import HostPolicy.
From S2P Require Import HostBootstrap.
From S2P Require Import HostSeal.
From S2P Require Import HostPanel.
From S2P Require Import HostFetch.
From S2P Require Import HostTx.
From S2P Require Import HostFrame.
From S2P Require Import HostCrash.
From S2P Require Import HostUpgrade.
From S2P Require Import HostApply.
From S2P Require Import HostApplied.
From S2P Require Import HostInstall.

Local Open Scope string_scope.
Local Open Scope Z_scope.
Local Open Scope host_scope.

(** ** Codecs that write one text and read one value *)

Definition one_json (A : Type) (s : string) : Json A := {| json_marshal := fun _ => Some s; json_unmarshal := fun _ => None |}.
Definition one_strict {A : Type} (a : A) : StrictJson A := {| decode_strict := fun _ => Some (a, "") |}.
Definition no_wire (A : Type) : Wire A := {| wire_marshal := fun _ => Some "W"; wire_unmarshal := fun _ => None |}.
Definition demo_phases : HostPhases :=
  {| PHASE_APPLYING := 2; PHASE_HOST_LOCAL_APPLIED := 3; PHASE_RESTORED := 4; STATE_NEEDS_MANUAL_AUTHORIZATION := 3;
     STATE_APPLYING := 4; STATE_DELIVERED := 5 |}.

(** ** The installation *)

Definition demo_manifest : Manifest :=
  mkManifest 2 "komari" "komari" "systemd" "/usr/lib/komari/komari/komari-agent" "/usr/lib/komari/komari/komari-host"
    "/etc/komari/services/komari.policy.json" "" "/var/lib/komari/komari/credentials.json" "/var/lib/komari/komari/runtime.json"
    "/var/lib/komari/komari/privileged.json" "/var/lib/komari/komari/nonces.json" "/etc/komari/services/komari.json".
Definition demo_dirs : list string := ["/var/lib/komari/komari"].
Definition demo_jdir : string := "/var/lib/komari-host/komari".
Definition demo_policy : Policy :=
  mkPolicy 2 "komari" 2 true true true true false false false false false false false false false "explicit-local-install" 0 None.
Definition demo_url (s : string) : option Url := Some (mkUrl "https" "p" "p" false "" "").

Definition dnode : HNode := mkHNode KDir 493 0 0 2 1 1 "".
Definition fnode (mode uid : Z) (d : string) : HNode := mkHNode KReg mode uid uid 1 1 2 d.
Definition demo_fs : hfs :=
  list_to_map [ ("/", dnode); ("/usr", dnode); ("/usr/bin", dnode); ("/usr/bin/systemctl", fnode 493 0 "");
     ("/usr/lib", dnode); ("/usr/lib/komari", dnode); ("/usr/lib/komari/komari", dnode);
     ("/etc", dnode); ("/etc/komari", dnode); ("/etc/komari/services", dnode);
     ("/etc/komari/services/komari.policy.json", fnode 420 0 "policy"); ("/etc/komari/services/komari.trust.json", fnode 420 0 "trust");
     ("/etc/systemd", dnode); ("/etc/systemd/system", dnode);
     ("/var", dnode); ("/var/lib", dnode); ("/var/lib/komari-host", dnode); ("/var/lib/komari-host/komari", dnode);
     ("/var/lib/komari", dnode); ("/var/lib/komari/komari", mkHNode KDir 448 1000 1000 2 1 3 "");
     ("/var/lib/komari/komari/credentials.json", mkHNode KReg 384 1000 1000 1 1 4 "secret")].
(** systemd knows one running process of the service. *)
Definition demo_show : string := join newline ["User=komari"; "FragmentPath=/f"; "MainPID=7"; "ExecStart=x"].
Definition demo_env : Env :=
  mkEnv (fun _ => false) (fun _ => [1]) (fun _ m => m) (fun _ _ => Some demo_show) (fun _ l => l) (fun _ => 5) (fun _ => "op")
    (fun _ => Some ("1000", "1000")) (fun _ _ => Some status_demo) (fun _ _ => Err true) (fun _ => "") (fun _ _ => true) None.
Definition demo_panel : Panel := mkPanel (fun _ => None) (fun _ => None) (fun _ => Err false) (fun _ => None).

(** The journal as [apply] saves it first, with the state fenced or not. *)
Definition demo_journal (phase stage : string) (backups : list fileBackup) (owners : list ownership) : hostJournal :=
  mkJournal 3 "/etc/komari/services/komari.json" "op" phase "root" "R" "O" "" [] backups owners [] "" 2 1000 false stage false.
Definition demo_host (fs : hfs) (j : hostJournal) : Host := mkHost fs 100 0 j [].

(** The backups of the files of the transaction: only the policy exists. *)
Definition demo_backups : list fileBackup :=
  [mkBackup "/etc/systemd/system/komari.service.d/95-komari-host-profile.conf" (backup_path demo_jdir 0) 0 0 0 false;
   mkBackup "/usr/lib/komari/komari/host-bootstrap.json" (backup_path demo_jdir 1) 0 0 0 false;
   mkBackup "/etc/komari/services/komari.policy.json" (backup_path demo_jdir 2) 420 0 0 true;
   mkBackup "/etc/komari/services/komari.applied.json" (backup_path demo_jdir 3) 0 0 0 false;
   mkBackup "/usr/lib/komari/komari/komari-agent-rescue" (backup_path demo_jdir 4) 0 0 0 false;
   mkBackup "/usr/lib/komari/komari/rescue.json" (backup_path demo_jdir 5) 0 0 0 false;
   mkBackup "/etc/systemd/system/komari-rescue.service" (backup_path demo_jdir 6) 0 0 0 false].
Definition demo_owners : list ownership :=
  [mkOwn "/var/lib/komari/komari" 1000 1000 448; mkOwn "/var/lib/komari/komari/credentials.json" 1000 1000 384].
(** After a crash: the marker is on disk, the state is root's, the target
    profile is half written. *)
Definition demo_mutating : hostJournal := demo_journal "mutating" "profile" demo_backups demo_owners.
Definition demo_crashed : hfs :=
  <["/etc/komari/services/komari.policy.json" := fnode 420 0 "target"]>
  (<["/usr/lib/komari/komari/host-bootstrap.json" := fnode 384 0 "bootstrap"]>
  (<["/var/lib/komari-host/komari/transaction.json" := fnode 384 0 (String "J" newline)]>
  (<["/var/lib/komari-host/komari/backup-2" := fnode 384 0 "policy"]>
  (<["/var/lib/komari/komari" := mkHNode KDir 448 0 0 2 1 3 ""]>
  (<["/var/lib/komari/komari/credentials.json" := fnode 384 0 "secret"]> demo_fs))))).
Definition demo_contents (p : string) : string := contents demo_fs p.

#[local] Instance demo_journal_json : Json hostJournal := one_json hostJournal "J".
#[local] Instance demo_journal_strict : StrictJson hostJournal := one_strict demo_mutating.
#[local] Instance demo_crypto : Crypto := hwit_crypto.
#[local] Instance demo_time : ProtoTime := Signing.wit_time.
#[local] Instance demo_instruction : Wire SignedInstruction := hwit_wire.
#[local] Instance demo_entries : Json (option entries) := countable_json (option entries).
#[local] Instance demo_revision : Wire PrivilegedRevision := no_wire PrivilegedRevision.
#[local] Instance demo_operation : Wire HostOperation := no_wire HostOperation.
#[local] Instance demo_report : Wire ReportHostOperationRequest := no_wire ReportHostOperationRequest.
#[local] Instance demo_strict_manifest : StrictJson Manifest := one_strict demo_manifest.
#[local] Instance demo_strict_policy : StrictJson Policy := one_strict demo_policy.
#[local] Instance demo_strict_trust : StrictJson Trust := one_strict hwit_trust.
#[local] Instance demo_strict_access : StrictJson AccessConfig := one_strict (mkAccess "" "").
#[local] Instance demo_identity : Json Identity := one_json Identity "I".
#[local] Instance demo_policy_json : Json Policy := one_json Policy "policy".
#[local] Instance demo_config_json : Json Config := one_json Config "config".
#[local] Instance demo_applied_json : Json AppliedRecord := one_json AppliedRecord "applied".
#[local] Instance demo_rescue_json : Json RescueConfig := one_json RescueConfig "rescue".
#[local] Instance demo_status_strict : StrictJson HelperStatus :=
  one_strict (mkHelperStatus 7 99 "/usr/lib/komari/komari/komari-agent-rescue" true true 5).
#[local] Instance demo_phase_numbers : HostPhases := demo_phases.

Lemma demo_paths : transaction_paths demo_manifest = b_Path <$> demo_backups.
Proof. vm_compute. reflexivity. Qed.
Lemma demo_layout : host_layout demo_env demo_manifest demo_dirs.
Proof.
  split.
  - vm_compute. reflexivity.
  - intros d q ->%list_elem_of_singleton Hq. apply not_true_iff_false. intros Hd.
    destruct (under_comparable _ _ _ Hq Hd) as [Hu|Hu]; vm_compute in Hu; discriminate Hu.
  - assert (Hall : forallb (fun p => negb (under (journalDir demo_manifest) p) && ordinary p)
      (helper_state demo_manifest :: transaction_paths demo_manifest) = true) by (vm_compute; reflexivity).
    rewrite forallb_In in Hall. intros p Hp. apply Hall, andb_true_iff in Hp as [Hu%negb_true_iff Ho]. by split; [|apply ordinary_not_temp].
  - assert (Hall : forallb (fun p => forallb (fun d => negb (under d p)) demo_dirs) (transaction_paths demo_manifest) = true)
      by (vm_compute; reflexivity).
    rewrite forallb_In in Hall. intros d p Hd Hp. apply Hall in Hp. rewrite forallb_In in Hp. by apply Hp, negb_true_iff in Hd.
  - done.
Qed.
Lemma demo_journal_of : journal_of demo_backups demo_dirs demo_mutating.
Proof.
  split; [by left|]. split; [done|]. repeat constructor; exists "/var/lib/komari/komari"; (split; [by left|vm_compute; reflexivity]).
Qed.
Lemma demo_codec : codec_law demo_backups demo_dirs.
Proof.
  intros j s _ _. exists demo_mutating, "". split; [done|]. split; [done|]. exact demo_journal_of.
Qed.
Lemma demo_tx_layout : tx_layout demo_env demo_jdir demo_manifest demo_dirs demo_backups.
Proof.
  destruct demo_layout as [Hr Hd Hw Hs Hsv]. split; try done.
  - intros b Hb. unfold demo_backups in Hb. repeat (apply elem_of_cons in Hb as [->|Hb]; [by eexists|]). by apply elem_of_nil in Hb.
  - intros b Hb. rewrite demo_paths. by apply list_elem_of_fmap_2.
  - apply (bool_decide_unpack _). vm_compute. exact Logic.I.
Qed.
Lemma demo_recoverable : recoverable demo_jdir demo_backups demo_contents demo_dirs demo_crashed.
Proof.
  split.
  - exists (fnode 384 0 (String "J" newline)), demo_mutating, "". split; [vm_compute; reflexivity|]. split; [done|]. split; [done|].
    split; [done|]. exact demo_journal_of.
  - unfold demo_backups. repeat constructor; intros He; try discriminate He.
    exists (fnode 384 0 "policy"). split_and!; vm_compute; reflexivity.
Qed.

(** ** The crash, the restoration *)

Definition demo_auth : HostAuthorization := hwit_auth.
Definition demo_plan : Plan :=
  mkPlan demo_manifest demo_policy hwit_trust hwit_revision demo_auth demo_dirs default_config "" "" "/".
Definition demo_start : Host := demo_host demo_crashed demo_mutating.

Lemma executeTransaction_recoverable_witness :
  let run := executeTransaction demo_env demo_panel map_to_list demo_jdir demo_plan demo_start in
  is_ok (fst run) = false /\ length (h_trace (snd run)) = 21%nat /\
  recoverable demo_jdir demo_backups demo_contents demo_dirs (h_fs (snd run)).
Proof.
  cbv zeta. split; [vm_compute; reflexivity|]. split; [vm_compute; reflexivity|].
  destruct (executeTransaction _ _ _ _ _ _) as [r h'] eqn:Hrun.
  destruct (executeTransaction_recoverable demo_env demo_panel map_to_list demo_jdir demo_manifest demo_dirs demo_backups demo_contents
    demo_tx_layout demo_codec demo_plan demo_start r h' eq_refl eq_refl demo_journal_of demo_recoverable Hrun) as (_ & Hrec & _).
  exact Hrec.
Defined.
Lemma restoreTransaction_recoverable_witness :
  let run := restoreTransaction demo_env demo_url demo_jdir demo_manifest demo_start in
  is_ok (fst run) = true /\
  exists new, h_trace (snd run) = (new ++ [])%list /\
    Forall (fun fs => recoverable demo_jdir demo_backups demo_contents demo_dirs fs \/ all_back demo_backups demo_contents fs)
      (h_fs (snd run) :: new).
Proof.
  cbv zeta. split; [vm_compute; reflexivity|].
  destruct (restoreTransaction _ _ _ _ _) as [r h'] eqn:Hrun.
  exact (restoreTransaction_recoverable demo_env demo_url demo_jdir demo_manifest demo_dirs demo_backups demo_contents
    demo_tx_layout demo_codec demo_start r h' demo_journal_of demo_recoverable Hrun).
Defined.
(** The whole story in one value: crashed again at the end of the run, read
    back, restored. *)
Definition demo_rerun (h : Host) : result hostJournal cmd_err * Host * (result unit cmd_err * Host) :=
  let read := h_read_json demo_env (journal_file demo_jdir) h in
  (read, restoreTransaction demo_env demo_url demo_jdir demo_manifest
    (mkHost (h_fs (snd read)) (h_ino (snd read)) (h_tick (snd read)) demo_mutating (h_trace (snd read)))).
Lemma demo_rerun_eq h rd h2 rb h3 :
  demo_rerun h = (rd, h2, (rb, h3)) ->
  h_read_json demo_env (journal_file demo_jdir) h = (rd, h2) /\
  restoreTransaction demo_env demo_url demo_jdir demo_manifest (mkHost (h_fs h2) (h_ino h2) (h_tick h2) demo_mutating (h_trace h2)) = (rb, h3).
Proof.
  unfold demo_rerun. destruct (h_read_json _ _ _) as [rd' h2']. cbv [fst snd]. intros [= -> -> Hback]. by rewrite Hback.
Qed.
Lemma interrupted_then_restored_witness :
  let run := executeTransaction demo_env demo_panel map_to_list demo_jdir demo_plan demo_start in
  let back := snd (demo_rerun (snd run)) in
  fst back = Ok tt /\ Forall (put_back_file demo_contents (h_fs (snd back))) demo_backups.
Proof.
  cbv zeta.
  assert (Hread : fst (fst (demo_rerun (snd (executeTransaction demo_env demo_panel map_to_list demo_jdir demo_plan demo_start))))
    = Ok demo_mutating) by (vm_compute; reflexivity).
  assert (Hback : fst (snd (demo_rerun (snd (executeTransaction demo_env demo_panel map_to_list demo_jdir demo_plan demo_start))))
    = Ok tt) by (vm_compute; reflexivity).
  destruct (executeTransaction _ _ _ _ _ _) as [r h'] eqn:Hrun. cbv [fst snd] in Hread, Hback. cbv [snd].
  destruct (demo_rerun h') as [[rd h2] [rb h3]] eqn:Hre. apply demo_rerun_eq in Hre as [Hrd Hrb]. subst rd rb.
  split; [exact eq_refl|]. apply Forall_forall. intros b Hb.
  exact (interrupted_then_restored demo_env demo_panel map_to_list demo_url demo_jdir demo_manifest demo_dirs demo_backups
    demo_contents demo_tx_layout demo_codec demo_plan demo_start r h' (h_fs h') h' demo_mutating h2 tt h3 b eq_refl eq_refl
    demo_journal_of demo_recoverable Hrun (or_introl eq_refl) eq_refl Hrd Hrb Hb).
Defined.

(** ** An application *)

Definition demo_new : hostJournal := demo_journal "prepared" "" [] [].
Definition demo_before : Host := demo_host demo_fs demo_new.
Lemma demo_before_backups : j_Backups (h_j (snd (back_up demo_env demo_manifest demo_before))) = demo_backups.
Proof. apply (bool_decide_unpack _). vm_compute. exact Logic.I. Qed.

Lemma back_up_complete_witness :
  let run := back_up demo_env demo_manifest demo_before in
  is_ok (fst run) = true /\
  (forall p, p ∈ transaction_paths demo_manifest <->
     exists b, b ∈ j_Backups (h_j (snd run)) /\ b_Path b = p /\ taken_of demo_fs b) /\
  (forall q, under demo_jdir q = false -> h_fs (snd run) !! q = demo_fs !! q) /\
  recoverable demo_jdir (j_Backups (h_j (snd run))) demo_contents demo_dirs (h_fs (snd run)).
Proof.
  cbv zeta.
  assert (Hok : fst (back_up demo_env demo_manifest demo_before) = Ok tt) by (vm_compute; reflexivity).
  pose proof demo_before_backups as Hb.
  destruct (back_up _ _ _) as [r h'] eqn:Hrun. cbv [fst snd] in *. subst r. split; [exact eq_refl|].
  exact (back_up_complete demo_env demo_manifest demo_dirs demo_before tt h' demo_layout eq_refl eq_refl eq_refl Hrun
    (eq_rect_r (fun B => codec_law B demo_dirs) demo_codec Hb)).
Defined.
Definition demo_trust : Trust := hwit_trust.
Definition demo_review : Review :=
  mkReview demo_manifest demo_policy demo_trust (HostPanel.mkClient demo_trust "" (mkAccess "" "")) hwit_revision false 1000 demo_dirs "/" default_config false.
Definition demo_text (e : cmd_err) : string := "failed".
Lemma demo_elsewhere p id : p ∈ transaction_paths demo_manifest -> under (journalDir demo_manifest ++ "-" ++ id) p = false.
Proof.
  intros Hp. assert (Hall : forallb (fun p => under "/etc" p || under "/usr" p) (transaction_paths demo_manifest) = true)
    by (vm_compute; reflexivity).
  rewrite forallb_In in Hall. apply not_true_iff_false. intros Hu.
  apply Hall, orb_true_iff in Hp as [Hd|Hd]; destruct (under_comparable _ _ _ Hd Hu) as [Hc|Hc]; vm_compute in Hc; discriminate Hc.
Qed.
Definition demo_failed (h : Host) : result unit cmd_err * Host :=
  execute_or_restore demo_env demo_panel map_to_list demo_url demo_text demo_review demo_plan h.

Lemma failed_apply_restores_witness :
  let run := demo_failed (snd (back_up demo_env demo_manifest demo_before)) in
  (match fst run with Err (EReceiptPending _) => true | _ => false end) = true /\
  exists n n', demo_fs !! "/etc/komari/services/komari.policy.json" = Some n /\
    h_fs (snd run) !! "/etc/komari/services/komari.policy.json" = Some n' /\ same_file n n'.
Proof.
  cbv zeta.
  assert (Hok : fst (back_up demo_env demo_manifest demo_before) = Ok tt) by (vm_compute; reflexivity).
  assert (Hpending : (match fst (demo_failed (snd (back_up demo_env demo_manifest demo_before))) with
    Err (EReceiptPending _) => true | _ => false end) = true) by (vm_compute; reflexivity).
  pose proof demo_before_backups as Hb.
  destruct (back_up _ _ _) as [r h1] eqn:Hrun. cbv [fst snd] in *. subst r. unfold demo_failed in *.
  destruct (execute_or_restore _ _ _ _ _ _ _ _) as [[a|e] h2] eqn:Hexec; [discriminate Hpending|].
  split; [exact Hpending|]. exists (fnode 420 0 "policy").
  pose proof (failed_apply_restores demo_env demo_panel map_to_list demo_url demo_text demo_review demo_plan demo_dirs demo_before tt h1
    e h2 "/etc/komari/services/komari.policy.json" demo_layout eq_refl eq_refl eq_refl eq_refl eq_refl Hrun
    (eq_rect_r (fun B => codec_law B demo_dirs) demo_codec Hb) Hexec) as Hr.
  assert (Hfs : h_fs demo_before !! "/etc/komari/services/komari.policy.json" = Some (fnode 420 0 "policy")) by (vm_compute; reflexivity).
  rewrite Hfs in Hr. destruct Hr as (n' & Hn' & Hs).
  - intros e' ->. discriminate Hpending.
  - do 2 right. left.
  - intros p' id. exact (demo_elsewhere p' id).
  - exists n'. split; [exact Hfs|]. split; [exact Hn'|exact Hs].
Defined.

(** ** Before the claim, and a fresh installation *)

Definition demo_credentials : string := "/var/lib/komari/komari/credentials.json".
Definition demo_secret : HNode := mkHNode KReg 384 1000 1000 1 1 4 "secret".
Definition demo_registered : Host :=
  demo_host (<["/etc/komari/services/komari.json" := fnode 384 0 "manifest"]>
    (<["/usr/lib/komari/komari/komari-agent" := fnode 493 0 "agent"]> (<["/usr/lib/komari/komari/komari-host" := fnode 493 0 "host"]> demo_fs))) demo_new.
Definition demo_binary : bytes := elf_magic ++ "rescue".
#[local] Instance demo_payload_json : Json ReleasePayload :=
  {| json_marshal := fun _ => Some "payload";
     json_unmarshal := fun _ => Some (mkPayload "komari.release.v1" "komari-agent-rescue" "1.0" "linux" "amd64" (hex_encode demo_binary)) |}.
#[local] Instance demo_release : Json ReleaseManifest := one_json ReleaseManifest "release".
#[local] Instance demo_release_strict : StrictJson ReleaseManifest := one_strict (mkRelease "payload" "rel" (Signing.wit_key ++ "payload")).
#[local] Instance demo_upgrade_strict : StrictJson softwareUpgrade := one_strict (mkUpgrade "prepared" "" "" [] [] [] zero_time "").
#[local] Instance demo_upgrade_json : Json softwareUpgrade := one_json softwareUpgrade "upgrade".
#[local] Instance demo_manifest_json : Json Manifest := one_json Manifest "manifest".
Definition demo_http (_ : nat) (_ : string) : option (Z * Z * bytes) := None.
Lemma demo_credentials_plain : not_temp demo_credentials.
Proof. apply ordinary_not_temp. vm_compute. reflexivity. Qed.

Definition demo_review_and_claim (h : Host) :=
  (let! v := review demo_env demo_panel map_to_list demo_url (fun _ => None) (fun _ c => Some c) true (mkApplyArgs "/etc/komari/services/komari.json" 5 "" "") in
   claim demo_env demo_panel demo_http "linux" "amd64" map_to_list "1.0" (mkApplyArgs "/etc/komari/services/komari.json" 5 "" "") (Some "yes") v) h.
Lemma review_and_claim_change_nothing_witness :
  let run := demo_review_and_claim demo_registered in
  is_ok (fst run) = false /\ h_fs (snd run) !! demo_credentials = Some demo_secret.
Proof.
  cbv zeta. split; [vm_compute; reflexivity|].
  destruct (demo_review_and_claim demo_registered) as [r h'] eqn:Hrun.
  destruct (review_and_claim_change_nothing demo_env demo_panel demo_http "linux" "amd64" map_to_list demo_url (fun _ => None)
    (fun _ c => Some c) "1.0" demo_credentials demo_secret eq_refl demo_credentials_plain (fun _ _ => eq_refl) true
    (mkApplyArgs "/etc/komari/services/komari.json" 5 "" "") (Some "yes") demo_registered r h' eq_refl Hrun) as (new & _ & Hnew).
  exact (Forall_inv Hnew).
Defined.

Definition demo_install : InstallArgs := mkInstallArgs "web" "komari" "/usr/lib/komari/komari" ["--endpoint=https://p"].
Lemma demo_targets_plain p : p ∈ install_targets demo_install -> not_temp p.
Proof.
  assert (Hall : forallb ordinary (install_targets demo_install) = true) by (vm_compute; reflexivity).
  rewrite forallb_In in Hall. intros Hp. by apply ordinary_not_temp, Hall.
Qed.
Lemma install_replaces_nothing_witness :
  let run := install demo_env (fun _ => Some ([], [])) true demo_install demo_registered in
  is_ok (fst run) = true /\ h_fs (snd run) !! demo_credentials = Some demo_secret.
Proof.
  cbv zeta. split; [vm_compute; reflexivity|].
  destruct (install _ _ _ _ _) as [r h'] eqn:Hrun.
  destruct (install_replaces_nothing demo_env (fun _ => Some ([], [])) demo_credentials demo_secret demo_credentials_plain
    (fun _ _ => eq_refl) true demo_install demo_registered r h' demo_targets_plain eq_refl Hrun) as (new & _ & Hnew).
  exact (Forall_inv Hnew).
Defined.
Lemma ensure_dir_terminates_witness :
  let p := "/var/lib/komari-host/web" in
  ensure_dir demo_env 5 p demo_registered = ensureTrustedDir demo_env p demo_registered.
Proof.
  intros p. apply (ensure_dir_terminates demo_env p demo_registered 5 eq_refl eq_refl); [exists dnode; vm_compute; reflexivity|vm_compute; lia].
Defined.
Lemma verifyService_settles_witness : exists h', verifyService demo_env "komari" 1000 2 demo_registered = (Ok tt, h').
Proof.
  apply (verifyService_settles demo_env "komari" "7" status_demo demo_show 1000 2); [|vm_compute; reflexivity..].
  split; try done. eexists. split; vm_compute; reflexivity.
Defined.

(** ** The helper: its binary and its heartbeat *)

Definition demo_helper : string := "/usr/lib/komari/komari/komari-agent-rescue".
Definition demo_downloads : Host :=
  demo_host (<["/usr/bin/rescue" := fnode 493 0 demo_binary]> (<["/usr/bin/rescue.json" := fnode 420 0 "{}"]>
    (<[demo_helper := fnode 493 0 demo_binary]> (<["/run" := dnode]> (<["/run/komari" := dnode]>
    (<["/run/komari/komari.helper.json" := fnode 420 0 "{}"]> demo_fs)))))) demo_new.
Lemma prepareHelper_verified_witness :
  let run := prepareHelper demo_env demo_http "linux" "amd64" demo_manifest demo_trust "/usr/bin/rescue" "/usr/bin/rescue.json" "" demo_downloads in
  fst run = Ok (demo_binary, "1.0") /\ exists payload, publisher_signed "linux" "amd64" demo_trust demo_binary payload /\ rp_Version payload = "1.0".
Proof.
  cbv zeta.
  assert (Hok : fst (prepareHelper demo_env demo_http "linux" "amd64" demo_manifest demo_trust "/usr/bin/rescue" "/usr/bin/rescue.json" ""
    demo_downloads) = Ok (demo_binary, "1.0")) by (vm_compute; reflexivity).
  split; [exact Hok|]. destruct (prepareHelper _ _ _ _ _ _ _ _ _ _) as [r h'] eqn:Hrun. cbv [fst] in Hok. subst r.
  exact (proj1 (prepareHelper_verified demo_env demo_http "linux" "amd64" demo_manifest demo_trust "/usr/bin/rescue" "/usr/bin/rescue.json" ""
    demo_downloads demo_binary "1.0" h' Hrun)).
Defined.
Definition demo_proc (_ : nat) (p : string) : option bytes :=
  if has_suffix p "/status" then Some ("Uid:" ++ String (byte_of 9) "0 0 0 0")
  else if has_suffix p "/stat" then Some "7 (komari-agent-re) S 1 7 7 0 -1 0 0 0 0 0 0 0 0 0 20 0 9 0 99 0"
  else Some "0::/system.slice/komari-rescue.service".
Definition demo_env_helper : Env :=
  mkEnv (fun _ => false) (fun _ => [1]) (fun _ m => m) (fun _ _ => Some demo_show) (fun _ l => l) (fun _ => 5) (fun _ => "op")
    (fun _ => Some ("1000", "1000")) demo_proc (fun _ _ => Ok demo_helper) (fun _ => "") (fun _ _ => true) None.
Lemma ReadHelperStatus_bound_witness :
  let run := ReadHelperStatus demo_env_helper 0 demo_manifest demo_downloads in
  is_ok (fst run) = true /\ exists fs, TrustedPath (stat_of fs) (helperBinary demo_manifest) = true.
Proof.
  cbv zeta.
  assert (Hok : is_ok (fst (ReadHelperStatus demo_env_helper 0 demo_manifest demo_downloads)) = true) by (vm_compute; reflexivity).
  split; [exact Hok|]. destruct (ReadHelperStatus _ _ _ _) as [[s|e] h'] eqn:Hrun; [|discriminate Hok].
  destruct (ReadHelperStatus_bound demo_env_helper 0 demo_manifest demo_downloads s h' Hrun) as (_ & _ & _ & _ & _ & _ & _ & Hp).
  exact Hp.
Defined.

(** ** An upgrade that fails half way *)

Definition demo_backup : string := "/var/lib/komari-host/komari/upgrade-1".
Definition demo_replacement : Replacement :=
  mkReplacement demo_manifest "1.1" demo_backup [493; 493; 493; 384] [false; false] "" ["agent"; "host"; "rescue"; "config"]
    ["AGENT"; "HOST"; "RESCUE"] (mkRescueConfig "https://p" "agent-1" "1.0" "" "" "" "" "" "" (mkActionConfig "" "" "" "")).
Definition demo_upgrading : Host :=
  demo_host (list_to_map ([(demo_backup, mkHNode KDir 448 0 0 2 1 5 ""); (demo_helper, fnode 493 0 "rescue");
    ("/usr/lib/komari/komari/komari-agent", fnode 493 0 "agent"); ("/usr/lib/komari/komari/komari-host", fnode 493 0 "host");
    ("/usr/lib/komari/komari/rescue.json", fnode 384 0 "config")] ++
    imap (fun i d => (backup_file demo_backup i, fnode 384 0 d)) ["agent"; "host"; "rescue"; "config"]) ∪ demo_fs) demo_new.
(** The disk fails once, in the middle of the replacement. *)
Definition demo_env_fault (k : nat) : Env :=
  mkEnv (fun t => Nat.eqb t k) (fun _ => [1]) (fun _ m => m) (fun _ _ => Some demo_show) (fun _ l => l) (fun _ => 5) (fun _ => "op")
    (fun _ => Some ("1000", "1000")) (fun _ _ => Some status_demo) (fun _ _ => Err true) (fun _ => "") (fun _ _ => true) None.
Definition demo_upgrade (k : nat) : result unit cmd_err * Host :=
  h_rollback (replace_programs (demo_env_fault k) demo_replacement) (restore_programs (demo_env_fault k) demo_replacement) demo_upgrading.
Lemma demo_upgrade_layout k : upgrade_layout (demo_env_fault k) demo_replacement.
Proof.
  split; try done.
  - apply (bool_decide_unpack _). vm_compute. exact Logic.I.
  - assert (Hall : forallb (fun p => ordinary p && negb (under demo_backup p)) (upgradePaths demo_manifest) = true) by (vm_compute; reflexivity).
    rewrite forallb_In in Hall. intros p [Ho Hu%negb_true_iff]%Hall%andb_true_iff. split; [by apply ordinary_not_temp|exact Hu].
Qed.
Lemma demo_backups_kept : backups_kept demo_replacement (h_fs demo_upgrading).
Proof.
  intros i d Hi. do 4 (destruct i as [|i]; [injection Hi as <-; eexists; split_and!; vm_compute; reflexivity|]). discriminate Hi.
Qed.
Lemma upgrade_backups_survive_witness :
  let run := demo_upgrade 32 in
  exists new, h_trace (snd run) = (new ++ [])%list /\ Forall (backups_kept demo_replacement) (h_fs (snd run) :: new).
Proof.
  cbv zeta. destruct (demo_upgrade 32) as [r h'] eqn:Hrun.
  exact (upgrade_backups_survive (demo_env_fault 32) demo_replacement (demo_upgrade_layout 32) demo_upgrading r h' demo_backups_kept Hrun).
Defined.

(** ** The fence of the state directory *)

Lemma demo_fenceable : fenceable demo_jdir demo_dirs demo_fs.
Proof.
  intros d ->%list_elem_of_singleton. split; [|vm_compute; reflexivity].
  assert (Hall : forallb (fun '(q, _) => negb (under "/var/lib/komari/komari" q) || (q =? "/var/lib/komari/komari")%string || (q =? demo_credentials)%string)
    (map_to_list demo_fs) = true) by (vm_compute; reflexivity).
  rewrite forallb_In in Hall. intros q n Hq Hu Hne. apply elem_of_map_to_list, Hall in Hq.
  rewrite Hu, (proj2 (String.eqb_neq _ _) Hne) in Hq. apply String.eqb_eq in Hq as ->.
  exists "/var/lib/komari/komari", "credentials.json", (mkHNode KDir 448 1000 1000 2 1 3 "").
  split_and!; try (vm_compute; reflexivity). repeat split; try done. by apply sep_free_const.
Qed.
Definition demo_fence (h : Host) : result unit cmd_err * Host := fenceStateDirectories demo_env demo_jdir demo_dirs 1000 false h.
Definition demo_fenced : result (list string) cmd_err * Host := stateDirectories demo_env demo_manifest demo_before.
Lemma demo_fenced_ok : fst demo_fenced = Ok demo_dirs.
Proof. vm_compute. reflexivity. Qed.
Lemma demo_fence_ok : is_ok (fst (demo_fence (snd demo_fenced))) = true.
Proof. vm_compute. reflexivity. Qed.
Lemma demo_fence_back_ok : is_ok (fst (restoreStateOwnership demo_env demo_dirs (snd (demo_fence (snd demo_fenced))))) = true.
Proof. vm_compute. reflexivity. Qed.
Lemma demo_journal_plain : not_temp (journal_file demo_jdir).
Proof. apply ordinary_not_temp. vm_compute. reflexivity. Qed.
Lemma demo_state_dirs : exists h, stateDirectories demo_env demo_manifest demo_before = (Ok demo_dirs, h) /\ h_fs h = demo_fs /\
  h_j h = demo_new /\ is_ok (fst (demo_fence h)) = true /\ is_ok (fst (restoreStateOwnership demo_env demo_dirs (snd (demo_fence h)))) = true.
Proof.
  assert (Hj : h_j (snd demo_fenced) = demo_new) by (vm_compute; reflexivity).
  pose proof demo_fenced_ok as Hok. pose proof demo_fence_ok as H1. pose proof demo_fence_back_ok as H2.
  unfold demo_fenced in *. destruct (stateDirectories _ _ _) as [r h] eqn:Hrun. cbv [fst snd] in *. subst r.
  exists h. destruct (stateDirectories_ok demo_env demo_jdir demo_journal_plain (fun _ _ => reflexivity _) demo_manifest _ _ _ Hrun) as (_ & Hfs & _).
  split; [exact eq_refl|]. split; [exact Hfs|]. split; [exact Hj|]. split; [exact H1|exact H2].
Qed.

Lemma fence_takes_over_witness : exists h h' n,
  demo_fence h = (Ok tt, h') /\ h_fs h = demo_fs /\ h_fs h' !! demo_credentials = Some n /\ n_uid n = 0 /\ n_gid n = 0 /\ n_data n = "secret".
Proof.
  destruct demo_state_dirs as (h & Hsd & Hfs & Hj & Hok & _).
  destruct (demo_fence h) as [[[]|e] h'] eqn:Hrun; [|discriminate Hok].
  pose proof demo_fenceable as Hf. rewrite <- Hfs in Hf.
  destruct (fence_takes_over demo_env demo_jdir demo_journal_plain (fun _ _ => reflexivity _) demo_manifest demo_before h demo_dirs 1000 false tt h'
    "/var/lib/komari/komari" demo_credentials Hsd Hf eq_refl Hrun (list_elem_of_here _ _) eq_refl) as [Hiff Hall].
  assert (Hn : h_fs h !! demo_credentials = Some demo_secret) by (rewrite Hfs; vm_compute; reflexivity).
  destruct (proj2 Hiff (ex_intro _ _ Hn)) as [n Hn']. destruct (Hall n Hn') as (Hu & Hg & _ & n0 & Hn0 & Hd).
  exists h, h', n. split; [exact Hrun|]. split; [exact Hfs|]. split; [exact Hn'|]. split; [exact Hu|]. split; [exact Hg|].
  rewrite Hn in Hn0. injection Hn0 as <-. exact Hd.
Defined.
Lemma fence_restore_roundtrip_witness : exists h h1 h2 n,
  demo_fence h = (Ok tt, h1) /\ restoreStateOwnership demo_env demo_dirs h1 = (Ok tt, h2) /\
  h_fs h2 !! demo_credentials = Some n /\ same_file demo_secret n.
Proof.
  destruct demo_state_dirs as (h & Hsd & Hfs & Hj & Hok & Hok2).
  destruct (demo_fence h) as [[[]|e] h1] eqn:Hrun; [|discriminate Hok]. cbv [snd] in Hok2.
  destruct (restoreStateOwnership demo_env demo_dirs h1) as [[[]|e] h2] eqn:Hback; [|discriminate Hok2].
  pose proof demo_fenceable as Hf. rewrite <- Hfs in Hf.
  assert (Hn : h_fs h !! demo_credentials = Some demo_secret) by (rewrite Hfs; vm_compute; reflexivity).
  destruct (fence_restore_roundtrip demo_env demo_jdir demo_journal_plain (fun _ _ => reflexivity _) demo_manifest demo_before h demo_dirs 1000
    tt h1 tt h2 "/var/lib/komari/komari" demo_credentials demo_secret Hsd Hf (f_equal j_Ownership Hj) (f_equal j_RecoveryOwnership Hj)
    Hrun Hback (list_elem_of_here _ _) eq_refl Hn) as (n & Hn' & Hs).
  exists h, h1, h2, n. split; [exact Hrun|]. split; [exact Hback|]. split; [exact Hn'|exact Hs].
Defined.
