(* ===== verification/Session.v ===== *)
(** * The panel session: state, calls and primitives ([clientcore])

    What one agent process holds while it talks to its panel, the calls it
    makes, and the monad its handlers are written in. The panel's answers, the
    clock and random identifiers are functions of the number of outside events
    so far; files are those of [Disk]; the files only root writes are seen as
    the host model shows them at that moment. *)

From S2P Require Import Prelude.
From S2P Require Import GoStd.
From S2P Require Import GoPath.
From S2P Require Import Disk.
From S2P Require Import External.
From S2P Require Import Credentials.
From S2P Require Import Replay.
From S2P Require Import Signing.
From S2P Require Import Privileged.
From S2P Require Import HostOps.
From S2P Require Import RuntimeConfig.
From S2P Require Import Effective.
From S2P Require Import HostFs.
From S2P Require Import HostService.
From S2P Require Import HostPanel.

Local Open Scope string_scope.
Local Open Scope Z_scope.

(** ** Errors of calls *)

Inductive rpc_code :=
| CodeAborted | CodeFailedPrecondition | CodeInvalidArgument | CodePermissionDenied | CodeUnauthenticated
| CodeUnavailable | CodeUnimplemented | CodeNotFound | CodeResourceExhausted | CodeUnknown.
#[export] Instance rpc_code_eq : EqDecision rpc_code.
Proof. solve_decision. Defined.

(** An error as [errors.As] and [errors.Is] see it: a Connect error with its
    code and [Retry-After] header, an ended context, a [net.Error] or
    [url.Error]. *)
Record rpc := mkRpc {
  er_connect : option (rpc_code * string);
  er_context : bool;
  er_network : bool;
  er_text : string;
}.

Inductive sess_err :=
| SRpc (e : rpc)
| SPriv (e : priv_err) | SRuntime (e : rc_err) | SHost (e : host_err) | SSign (e : sign_err) | SDisk (e : io_err)
| SMarshal | SUnmarshal
| SIdentity | SNotV2 | SBody | SSettings | SStaleSequence | SApprovalChanged
| SNoManifest | SLocalDeny | SPolicyExceeded | SHelper (e : cmd_err) | SHelperNotReady
| SNoPolicy | SBaselineBinding | SNotAccepted | SUnsupportedKind
| SInvalidObservation | SUnsigned | SSnapshot | SNoTrust | SRecordDiffers | SNotLocallyApplied
| SIdentityDiffers | SBaselineSize | SOtherInstallation | SUpgradedProposal | SNotInitialized (reason : string)
| SIncomplete | SRuntimeBaseline | SMigrationReplaces
| SFuel                       (** the model ran out of fuel *)
| SPanic.                     (** a nil pointer dereference ends the process *)

(** [connect.CodeOf] *)
Definition code_of (e : sess_err) : rpc_code :=
  match e with
  | SRpc r => match er_connect r with Some (c, _) => c | None => CodeUnknown end
  | _ => CodeUnknown
  end.
(** The codes that say a receipt will never be accepted. *)
Definition refusal (e : sess_err) : bool :=
  match code_of e with CodeAborted | CodeFailedPrecondition | CodeInvalidArgument => true | _ => false end.

(** ** Messages *)

(** [timestamppb.New] and [durationpb.New]. *)
Definition timestamp_of (t : time) : Timestamp := mkTimestamp (t_unix t) (t mod second).
Definition duration_of (d : duration) : Duration := mkDuration (idiv d second) (Z.rem d second).

Record DaemonObservation := mkObservation {
  ob_Revision : Z; ob_ConfigHash : string; ob_ApprovalGeneration : Z; ob_ServiceId : string; ob_StartupId : string;
  ob_PrivilegeMode : PrivilegeMode; ob_Capabilities : option AgentCapabilities; ob_OperationId : string;
  ob_HelperInstalled : bool; ob_HelperRunning : bool; ob_HelperAuthorized : bool; ob_HelperLeaseReady : bool;
  ob_ObservedAt : option Timestamp }.
(** [ReportPrivilegedDeliveryRequest]; [dr_Errors] are codes and messages. *)
Record DeliveryReport := mkDelivery {
  dr_AgentId : string; dr_Revision : Z; dr_State : Z; dr_ProtocolVersion : Z; dr_ReceiptId : string;
  dr_ConfigHash : string; dr_ApprovalGeneration : Z; dr_Observation : option DaemonObservation;
  dr_Errors : list (string * string); dr_FinishedAt : option Timestamp }.
(** [AcknowledgeConfigRequest] *)
Record RuntimeAck := mkAck {
  ra_AgentId : string; ra_Revision : Z; ra_Applied : bool; ra_Errors : list (string * string); ra_FinishedAt : option Timestamp }.
Record Negotiation := mkNegotiation {
  ng_AgentId : string; ng_ServiceId : string; ng_StartupId : string; ng_Mode : PrivilegeMode; ng_Actions : list Z }.
(** [InitializeNodeConfigRequest] *)
Record Proposal := mkProposal {
  pp_AgentId : string; pp_ServiceId : string; pp_PolicyHash : string; pp_Privileged : option PrivilegedConfig;
  pp_Runtime : option RuntimeConfig; pp_PreserveRuntime : bool }.
Record InitAnswer := mkInit {
  ia_Initialized : bool; ia_Privileged : option PrivilegedRevision; ia_Runtime : option DesiredConfig; ia_SkippedReason : string }.
Record NodeState := mkNodeState { nd_Desired : bool; nd_AppliedRevision : Z }.
(** A [DesiredConfig] with the agent it is addressed to. *)
Record Desired := mkDesired { de_AgentId : string; de_Config : DesiredConfig }.

#[export] Instance Duration_eq : EqDecision Duration.
Proof. solve_decision. Defined.
#[export] Instance RuntimeConfig_eq : EqDecision RuntimeConfig.
Proof. solve_decision. Defined.
#[export] Instance CapabilityState_eq : EqDecision CapabilityState.
Proof. solve_decision. Defined.
#[export] Instance AgentCapabilities_eq : EqDecision AgentCapabilities.
Proof. solve_decision. Defined.
#[export] Instance DaemonObservation_eq : EqDecision DaemonObservation.
Proof. solve_decision. Defined.
#[export] Instance DeliveryReport_eq : EqDecision DeliveryReport.
Proof. solve_decision. Defined.
#[export] Instance RuntimeAck_eq : EqDecision RuntimeAck.
Proof. solve_decision. Defined.
#[export] Instance Proposal_eq : EqDecision Proposal.
Proof. solve_decision. Defined.

(** The delivery states and host actions the agent reports, by number. *)
Class SessionEnums := {
  DELIVERY_STATE_NEEDS_CONFIRMATION : Z;
  DELIVERY_STATE_DELIVERED : Z;
  DELIVERY_STATE_FAILED : Z;
  ACTION_SET_SERVICE_IDENTITY : Z;
  ACTION_INSTALL_RESCUE_HELPER : Z;
  ACTION_REMOVE_RESCUE_HELPER : Z;
}.

(** ** The outside *)

Record Outside := mkOutside {
  o_now : nat -> time;
  o_uuid : nat -> string;
  o_delivery : nat -> string -> result (option PrivilegedRevision) rpc;      (** GetPrivilegedDelivery *)
  o_report : nat -> DeliveryReport -> result bool rpc;                        (** ReportPrivilegedDelivery: Accepted *)
  o_ack : nat -> RuntimeAck -> result bool rpc;                               (** AcknowledgeConfig: Accepted *)
  o_operation : nat -> string -> string -> result (option HostOperation) rpc; (** GetHostOperation *)
  o_negotiate : nat -> Negotiation -> result unit rpc;                        (** NegotiateHostProtocol *)
  o_initialize : nat -> Proposal -> result InitAnswer rpc;                    (** InitializeNodeConfig *)
  o_node_state : nat -> string -> result NodeState rpc;                       (** GetNodeConfigState *)
  o_desired : nat -> string -> Z -> result (option Desired) rpc;              (** GetDesiredConfig *)
  o_host : nat -> Host;                                                       (** the host's protected files *)
}.

(** The process: [privilegeState] of the operating system, and the parts of
    the [Client] that do not change after [New]. *)
Record Client := mkClient {
  cl_mode : PrivilegeMode;
  cl_privilegedOS : bool;
  cl_limitation : string;
  cl_returnRoute : CapabilityState;
  cl_goos : string;
  cl_cfg : option Config;
  cl_globalConfig : Config;
  cl_hostManifest : option Manifest;
  cl_hostPolicy : option Policy;
  cl_hostTrust : option Trust;
  cl_startupID : string;
}.

(** What the panel was told, and what became of receipts, latest first. *)
Inductive entry :=
| Reported (m : DeliveryReport) (accepted : bool)
| Acknowledged (m : RuntimeAck) (accepted : bool)
| Proposed (p : Proposal)
| Asked (after : Z).

Record Session := mkSession {
  se_world : World;
  se_tick : nat;
  se_priv : option Privileged.Store;
  se_runtime : RuntimeConfig.Store;
  se_cred : option Credentials.Store;
  se_agentID : string;
  se_reconciled : bool;
  se_log : list entry;
}.
Definition with_world (w : World) (s : Session) : Session :=
  mkSession w (se_tick s) (se_priv s) (se_runtime s) (se_cred s) (se_agentID s) (se_reconciled s) (se_log s).
Definition with_priv (p : Privileged.Store) (w : World) (s : Session) : Session :=
  mkSession w (se_tick s) (Some p) (se_runtime s) (se_cred s) (se_agentID s) (se_reconciled s) (se_log s).
Definition with_runtime (r : RuntimeConfig.Store) (w : World) (s : Session) : Session :=
  mkSession w (se_tick s) (se_priv s) r (se_cred s) (se_agentID s) (se_reconciled s) (se_log s).
Definition with_agent (a : string) (s : Session) : Session :=
  mkSession (se_world s) (se_tick s) (se_priv s) (se_runtime s) (se_cred s) a (se_reconciled s) (se_log s).
Definition with_reconciled (s : Session) : Session :=
  mkSession (se_world s) (se_tick s) (se_priv s) (se_runtime s) (se_cred s) (se_agentID s) true (se_log s).
Definition ticked_log (l : list entry) (s : Session) : Session :=
  mkSession (se_world s) (S (se_tick s)) (se_priv s) (se_runtime s) (se_cred s) (se_agentID s) (se_reconciled s) (l ++ se_log s)%list.

(** ** The monad *)

Definition SM (A : Type) : Type := Session -> result A sess_err * Session.
Declare Scope session_scope.
Delimit Scope session_scope with session.
Definition s_ret {A} (a : A) : SM A := fun s => (Ok a, s).
Definition s_err {A} (e : sess_err) : SM A := fun s => (Err e, s).
Definition s_bind {A B} (m : SM A) (k : A -> SM B) : SM B :=
  fun s => match m s with (Ok a, s') => k a s' | (Err e, s') => (Err e, s') end.
Notation "'let!' p := m 'in' k" := (s_bind m (fun p => k))
  (at level 200, p pattern, m at level 100, k at level 200) : session_scope.
Notation "m ;;; k" := (s_bind m (fun _ => k))
  (at level 100, k at level 200, right associativity) : session_scope.
Definition s_require (c : bool) (e : sess_err) : SM unit := if c then s_ret tt else s_err e.
Definition s_lift {A} (r : result A sess_err) : SM A := fun s => (r, s).
Definition s_some {A} (o : option A) (e : sess_err) : SM A := match o with Some a => s_ret a | None => s_err e end.
Definition s_get : SM Session := fun s => (Ok s, s).
(** The error of a call as a value; a panic is not one. *)
Definition s_try {A} (m : SM A) : SM (result A sess_err) := fun s =>
  match m s with
  | (Err SPanic, s') => (Err SPanic, s')
  | (r, s') => (Ok r, s')
  end.
Local Open Scope session_scope.

(** One outside event: the clock, an identifier, a call. *)
Definition s_event {A E} (f : nat -> result A E) (wrap : E -> sess_err) (log : list entry) : SM A := fun s =>
  (result_map_err wrap (f (se_tick s)), ticked_log log s).

Section Calls.
Context (O : Outside).

Definition clock : SM time := s_event (fun n => @Ok _ rpc (o_now O n)) SRpc [].
Definition newUUID : SM string := s_event (fun n => @Ok _ rpc (o_uuid O n)) SRpc [].
Definition agentIDValue : SM string := fun s => (Ok (se_agentID s), s).

(** A call whose outcome is recorded. *)
Definition report_delivery (m : DeliveryReport) : SM bool := fun s =>
  let r := o_report O (se_tick s) m in
  (result_map_err SRpc r, ticked_log [Reported m (match r with Ok a => a | Err _ => false end)] s).
Definition acknowledge_config (m : RuntimeAck) : SM bool := fun s =>
  let r := o_ack O (se_tick s) m in
  (result_map_err SRpc r, ticked_log [Acknowledged m (match r with Ok a => a | Err _ => false end)] s).
Definition get_delivery : SM (option PrivilegedRevision) :=
  let! a := agentIDValue in s_event (fun n => o_delivery O n a) SRpc [].
Definition get_operation (id : string) : SM (option HostOperation) :=
  let! a := agentIDValue in s_event (fun n => o_operation O n a id) SRpc [].
Definition get_node_state : SM NodeState :=
  let! a := agentIDValue in s_event (fun n => o_node_state O n a) SRpc [].
Definition initialize_config (p : Proposal) : SM InitAnswer :=
  s_event (fun n => o_initialize O n p) SRpc [Proposed p].
Definition get_desired (after : Z) : SM (option Desired) :=
  let! a := agentIDValue in s_event (fun n => o_desired O n a after) SRpc [Asked after].
End Calls.

(** ** The stores *)

Definition on_world {A E} (f : World -> result A E * World) (wrap : E -> sess_err) : SM A := fun s =>
  let '(r, w) := f (se_world s) in (result_map_err wrap r, with_world w s).
(** A method of the privileged store; without one it panics. *)
Definition on_priv {A} (op : Privileged.Op A) : SM A := fun s =>
  match se_priv s with
  | None => (Err SPanic, s)
  | Some p => let '(r, p, w) := op p (se_world s) in (result_map_err SPriv r, with_priv p w s)
  end.
Definition priv_state : SM Privileged.State := fun s =>
  match se_priv s with
  | None => (Err SPanic, s)
  | Some p => (Ok (pst_state p), s)
  end.
Definition on_runtime (op : RuntimeConfig.Op) : SM (Snapshot * option rc_err) := fun s =>
  let '(r, st, w) := op (se_runtime s) (se_world s) in (Ok r, with_runtime st w s).
Definition runtime_current : SM Snapshot := fun s => (Ok (rs_current (se_runtime s)), s).
(** [Receipt]: the oldest one, empty when there is none. *)
Definition runtime_receipt : SM bytes := fun s => (Ok (default "" (next_receipt (se_runtime s))), s).
(** An operation of the runtime store of which only the error matters. *)
Definition runtime_do (op : RuntimeConfig.Op) : SM unit :=
  let! r := on_runtime op in
  match snd r with None => s_ret tt | Some e => s_err (SRuntime e) end.

Definition rememberAgentID (a : string) : SM unit := fun s =>
  (Ok tt, if blank a then s else if (se_agentID s =? "")%string then with_agent a s else s).

Section Client.
Context (C : Client) `{StrictJson Manifest} `{StrictJson HostOps.Policy}.
Variable lstat : string -> option Stat.
Variable is_regular : string -> bool.
Variable describe : host_err -> string.

Definition effective_now : SM EffectiveConfig := fun s =>
  let '(e, w) := EffectiveForMode lstat is_regular describe (cl_mode C) (cl_globalConfig C)
                   (Some (se_runtime s)) (se_priv s) (se_world s) in
  (Ok e, with_world w s).
(** [capability.Detect]: the protected policy is read again each time. *)
Definition Detect (remote : bool) : SM AgentCapabilities :=
  let! e := effective_now in
  fun s =>
    let c := detect (cl_goos C) (se_priv s) e remote (cl_mode C) (cl_privilegedOS C) (cl_limitation C) in
    (Ok (mkCaps (caps_PrivilegeMode c) (caps_Gpu c) (caps_DetailedGpu c) (caps_NetworkInterfaces c) (caps_MountPoints c)
           (caps_RemoteControl c) (caps_ServiceControl c) (caps_Execution c) (caps_Webssh c) (cl_returnRoute C)
           (caps_RescueHelper c)), s).
(** [runtimeconfig.RemoteControlEnabled] and the two gates built on it. *)
Definition RuntimeRemoteControlEnabled : SM bool :=
  let! e := effective_now in s_ret (RemoteControlEnabled (ef_Privileged e)).
Definition ExecutionAllowed : SM (bool * string) :=
  let! remote := RuntimeRemoteControlEnabled in
  let! c := Detect remote in s_ret (cap_Available (caps_Execution c), cap_Limitation (caps_Execution c)).
Definition WebSSHAllowed : SM (bool * string) :=
  let! remote := RuntimeRemoteControlEnabled in
  let! c := Detect remote in s_ret (cap_Available (caps_Webssh c), cap_Limitation (caps_Webssh c)).
Definition RemoteControlAllowed (enabled : bool) : SM (bool * string) :=
  let! e := effective_now in
  fun s => (Ok (remoteAllowed (se_priv s) (enabled && RemoteControlEnabled (ef_Privileged e)) (cl_mode C)
                  (cl_privilegedOS C) (cl_limitation C)), s).

(** [identity]: the enrolled identity; under a protected trust it must be the
    one trusted, and only the trusted keys count. *)
Definition client_identity (s : Session) : option Identity :=
  match se_cred s with
  | None => None
  | Some store =>
      match StoreIdentity store with
      | (_, false) => None
      | (i, true) =>
          match cl_hostTrust C with
          | None => Some i
          | Some t =>
              if negb (id_AgentID i =? tr_AgentID t)%string || negb (id_Endpoint i =? tr_Endpoint t)%string then None
              else Some (Credentials.with_trust (tr_PanelKeys t) [1] false 1 i)
          end
      end
  end.
End Client.
