(* ===== verification/Delivery.v ===== *)
(** * Privileged and ordinary configuration delivery
    ([clientcore/privileged_apply.go], [host_applied.go], [baseline.go] and the
    configuration part of [client.go])

    How the agent decides that a delivered revision may change what it allows
    the panel to do, how it initialises a fresh installation, and how receipts
    travel back. *)

From S2P Require Import Prelude.
From S2P Require Import GoStd.
From S2P Require Import GoPath.
From S2P Require Import Disk.
From S2P Require Import External.
From S2P Require Import Credentials.
From S2P Require Import Replay.
From S2P Require Import Signing.
From S2P Require Import Privileged.
From S2P Require Import HostOps.
From S2P Require Import RuntimeConfig.
From S2P Require Import Effective.
From S2P Require Import HostFs.
From S2P Require Import HostService.
From S2P Require Import HostPanel.
From S2P Require Import HostTx.
From S2P Require Import Session.

Local Open Scope string_scope.
Local Open Scope Z_scope.
Local Open Scope session_scope.

Section Delivery.
Context `{CR : Crypto} `{PT : ProtoTime} `{PE : ProtoEnums} `{SE : SessionEnums} `{PD : ProtoDuration}.
Context `{WR : Wire PrivilegedRevision} `{WO : Wire HostOperation} `{WI : Wire SignedInstruction}.
Context `{WD : Wire DeliveryReport} `{WA : Wire RuntimeAck} `{WP : Wire Proposal}.
Context `{JS : Json Privileged.State} `{JP : Json persistedState} `{JE : Json (option entries)}.
Context `{SMf : StrictJson Manifest} `{SPo : StrictJson HostOps.Policy} `{SAp : StrictJson AppliedRecord}.
Context `{STr : StrictJson Trust} `{SHs : StrictJson HelperStatus}.
Variable iter : entries -> list (string * time).
Variable rfc3339 : time -> string.
(** [err.Error()] *)
Variable error_text : sess_err -> string.
Variable lstat : string -> option Stat.
Variable is_regular : string -> bool.
Variable describe : host_err -> string.
Variable parse_url : string -> option Url.
(** The numbers of the runtime fields a proposal built from this snapshot sets. *)
Variable populated : Snapshot -> list Z.
Context (HE : HostFs.Env) (euid : Z) (Net : Outside) (C : Client).

Definition Detect_ := Detect C lstat is_regular describe.
(** [capability.Detect(false).PrivilegeMode]. *)
Definition actual_mode : SM PrivilegeMode :=
  let! c := Detect_ false in s_ret (caps_PrivilegeMode c).
Definition identity : SM (option Identity) := fun s => (Ok (client_identity C s), s).
Definition localDeny : bool := match cl_cfg C with Some c => fl_DisableRemoteControl c | None => false end.

(** ** What was signed *)

(** The signature is checked as a recorded observation: no nonce is consumed. *)
Definition verify_signature (i : Identity) (now : time) (r : option PrivilegedRevision) : result Instruction sess_err :=
  result_map_err SSign
    (fst (fst (Verify iter (Signing.New i None) now zero_time (r ≫= pr_signature) (mkWorld empty [] [] [])))).
Definition verifyV2Revision (r : option PrivilegedRevision) : SM PrivilegedRevision :=
  let! i := identity in
  let! i := s_some i SIdentity in
  let! now := clock Net in
  let! verified := s_lift (verify_signature i now r) in
  let! r := s_some r SNotV2 in
  s_require ((pr_protocol_version r =? 2) && (in_InstructionType verified =? revision_kind)%string) SNotV2 ;;;
  let! body := s_some (wire_marshal (unsigned_revision r)) SMarshal in
  s_require ((in_Body verified =? body)%string && (pr_agent_id r =? id_AgentID i)%string && (slen (pr_unknown r) =? 0)) SBody ;;;
  let! p := s_some (pr_privileged r) SSettings in
  s_require ((slen (pc_unknown p) =? 0) && (pr_config_hash r =? Hash (settingsFromProto (Some p)))%string) SSettings ;;;
  s_ret r.

(** What was applied before this start is checked again, against the recorded
    signature. *)
Definition snapshot_matches (i : Identity) (m : Manifest) (st : State) (r : PrivilegedRevision) (v : Instruction) (body : bytes) : bool :=
  (in_InstructionType v =? revision_kind)%string && (in_Body v =? body)%string && (pr_agent_id r =? id_AgentID i)%string &&
  match pr_authorization r with Some a => (ha_service_id a =? mf_ServiceName m)%string | None => (mf_ServiceName m =? "")%string end &&
  (pr_revision r =? ps_AppliedRevision st) && (pr_config_hash r =? Hash (settingsFromProto (pr_privileged r)))%string &&
  Subset (ps_Active st) (settingsFromProto (pr_privileged r)).
Definition validatePersistedPrivileged : SM unit := fun s =>
  match se_priv s with
  | None => (Ok tt, s)
  | Some store =>
      let st := pst_state store in
      if ps_AppliedRevision st =? 0 then
        s_require (bool_decide (ps_Active st = restrictive)) SUnsigned s
      else
        (let! r := s_some (wire_unmarshal (ps_ActiveSignedRevision st)) SUnmarshal in
         let! i := identity in
         let! i := s_some i SIdentity in
         let! v := s_lift (result_map_err SSign (VerifyRecorded iter (Signing.New i None) (pr_signature r))) in
         let! body := s_some (wire_marshal (unsigned_revision r)) SMarshal in
         let! m := s_some (cl_hostManifest C) SPanic in
         s_require (snapshot_matches i m st r v body) SSnapshot) s
  end.

(** ** Receipts on their way back *)

Definition read_policy_ (m : Manifest) : SM HostOps.Policy := on_world (ReadPolicy lstat is_regular (Some m)) SHost.
Definition read_applied (m : Manifest) : SM AppliedRecord := on_world (ReadJSON lstat is_regular (AppliedPath m) true) SHost.
(** [os.IsNotExist] of the error of [ReadJSON]. *)
Definition not_exist (path : string) (e : sess_err) : bool :=
  match e with
  | SHost (HostIO NotExist) => true
  | SHost UntrustedPath => is_abs path && bool_decide (lstat (GoPath.clean path) = None)
  | _ => false
  end.
Definition observed_cap (f : AgentCapabilities -> CapabilityState) (o : option DaemonObservation) : bool :=
  match o ≫= ob_Capabilities with Some c => cap_Available (f c) | None => false end.

(** The identity that an observation names must still be the local one. *)
Definition validateSavedHostObservation (r : DeliveryReport) : SM unit :=
  let o := dr_Observation r in
  let get {A} (f : DaemonObservation -> A) (d : A) : A := match o with Some o => f o | None => d end in
  if localDeny && (observed_cap caps_RemoteControl o || observed_cap caps_Webssh o || observed_cap caps_Execution o)
  then s_err SInvalidObservation else
  if (get ob_OperationId "" =? "")%string then s_ret tt else
  match cl_hostManifest C, cl_hostTrust C with
  | Some m, Some _ =>
      let! p := read_policy_ m in
      let! mode := actual_mode in
      s_require ((mode =? get ob_PrivilegeMode 0) && (po_PrivilegeMode p =? get ob_PrivilegeMode 0) &&
                 Bool.eqb (po_HelperInstalled p) (get ob_HelperInstalled false) &&
                 Bool.eqb (po_HelperAuthorized p) (get ob_HelperAuthorized false)) SInvalidObservation ;;;
      let! record := s_try (read_applied m) in
      match record with
      | Err e => if not_exist (AppliedPath m) e then s_err SInvalidObservation else s_err e
      | Ok record =>
          let! revision := s_some (wire_unmarshal (ap_Revision record)) SUnmarshal in
          let! operation := s_some (wire_unmarshal (ap_Operation record)) SUnmarshal in
          s_require ((ap_Version record =? 2) && (pr_revision revision =? get ob_Revision 0) &&
                     (pr_config_hash revision =? get ob_ConfigHash "")%string &&
                     (pr_approval_generation revision =? get ob_ApprovalGeneration 0) &&
                     (ho_operation_id operation =? get ob_OperationId "")%string) SInvalidObservation
      end
  | _, _ => s_err SInvalidObservation
  end.

Definition enqueue (id kind payload rejected : string) : SM unit :=
  let! now := clock Net in on_priv (Enqueue now (mkReceipt id kind payload rejected)).
Definition finish (id rejected : string) : SM unit :=
  let! t := clock Net in let! now := clock Net in on_priv (Privileged.FinishReceipt rfc3339 t now id rejected).

(** The runtime acknowledgements: oldest first, until the queue is empty or one
    cannot be delivered now. The fuel is the length of the queue and one. *)
Definition runtime_rejected : sess_err := SRpc (mkRpc (Some (CodeFailedPrecondition, "")) false false "runtime ACK rejected").
Definition deliver_ack (m : RuntimeAck) : SM unit :=
  let! accepted := acknowledge_config Net m in if accepted then s_ret tt else s_err runtime_rejected.
Definition keep_refused (payload : bytes) (e : sess_err) : SM unit := fun s =>
  match se_priv s with
  | None => (Ok tt, s)
  | Some _ => (let! id := newUUID Net in enqueue id "runtime-rejected" payload (error_text e)) s
  end.
Fixpoint flush_runtime (fuel : nat) : SM unit :=
  match fuel with
  | O => s_err SFuel
  | S fuel =>
      let! payload := runtime_receipt in
      if slen payload =? 0 then s_ret tt else
      let! m := s_some (wire_unmarshal payload) SUnmarshal in
      let! r := s_try (deliver_ack m) in
      (match r with
       | Ok _ => s_ret tt
       | Err e => if refusal e then keep_refused payload e else s_err e
       end) ;;;
      runtime_do (RuntimeConfig.FinishReceipt payload) ;;;
      flush_runtime fuel
  end.

(** One entry of the privileged outbox: what the panel answers. *)
Definition deliver_report (m : DeliveryReport) : SM unit :=
  let! accepted := report_delivery Net m in if accepted then s_ret tt else s_err SNotAccepted.
Definition send_entry (e : Receipt) : SM unit :=
  if (rc_Kind e =? "privileged")%string then
    let! m := s_some (wire_unmarshal (rc_Payload e)) SUnmarshal in
    validateSavedHostObservation m ;;; deliver_report m
  else if (rc_Kind e =? "runtime")%string then
    let! m := s_some (wire_unmarshal (rc_Payload e)) SUnmarshal in
    let! _ := acknowledge_config Net m in s_ret tt
  else s_err SUnsupportedKind.
(** [first] is the first error that leaves a receipt waiting. *)
Definition flush_entry (e : Receipt) (first : option sess_err) : SM (option sess_err) :=
  if (rc_Kind e =? "runtime-rejected")%string then finish (rc_ID e) (rc_Rejected e) ;;; s_ret first else
  let! r := s_try (send_entry e) in
  match r with
  | Ok _ => finish (rc_ID e) "" ;;; s_ret first
  | Err SInvalidObservation => finish (rc_ID e) (error_text SInvalidObservation) ;;; s_ret first
  | Err err =>
      if refusal err then finish (rc_ID e) (error_text err) ;;; s_ret first
      else s_ret (Some (default err first))
  end.
Fixpoint flush_entries (l : list Receipt) (first : option sess_err) : SM (option sess_err) :=
  match l with
  | [] => s_ret first
  | e :: l => let! first := flush_entry e first in flush_entries l first
  end.
Definition flush_fuel : SM nat := fun s => (Ok (S (length (rs_receipts (se_runtime s)))), s).
Definition flushReceipts : SM unit :=
  let! fuel := flush_fuel in
  flush_runtime fuel ;;;
  fun s =>
    match se_priv s with
    | None => (Ok tt, s)
    | Some store =>
        (let! first := flush_entries (ps_Outbox (pst_state store)) None in
         match first with None => s_ret tt | Some e => s_err e end) s
    end.

(** ** The host tool's result *)

(** A look at the host's protected files. *)
Definition on_host {A} (m : HM A) : SM (result A cmd_err) := fun s =>
  (Ok (fst (m (o_host Net (se_tick s)))), ticked_log [] s).

Definition checkedHostOperation (r : PrivilegedRevision) : SM HostOperation :=
  let! t := s_some (cl_hostTrust C) SNoTrust in
  let! m := s_some (cl_hostManifest C) SPanic in
  let! record := read_applied m in
  let! local := s_some (wire_unmarshal (ap_Revision record)) SUnmarshal in
  let! original := s_some (wire_unmarshal (ap_Operation record)) SUnmarshal in
  s_require ((ap_Version record =? 2) && bool_decide (pr_authorization local = pr_authorization r) &&
             bool_decide (ho_authorization original = pr_authorization r) &&
             negb (ho_operation_id original =? "")%string) SRecordDiffers ;;;
  let! op := get_operation Net (ho_operation_id original) in
  let! t0 := clock Net in
  let! t1 := clock Net in
  let! _ := s_lift (result_map_err SHost (VerifyOperation iter t t0 t1 op (pr_authorization r) (ho_operation_id original))) in
  let! op := s_some op SPanic in
  s_require (ho_phase op =? PHASE_LOCAL_APPLIED) SNotLocallyApplied ;;;
  s_ret op.

(** ** Delivery *)

Definition failPrivileged (r : PrivilegedRevision) (cause : sess_err) : SM unit :=
  let! id := newUUID Net in
  let! a := agentIDValue in
  let! now := clock Net in
  let! payload := s_some (wire_marshal (mkDelivery a (pr_revision r) DELIVERY_STATE_FAILED 2 id (pr_config_hash r)
                    (pr_approval_generation r) None [("LOCAL_POLICY_OR_IDENTITY_REJECTED", error_text cause)]
                    (Some (timestamp_of now)))) SMarshal in
  enqueue id "privileged" payload "" ;;;
  flushReceipts ;;;
  s_err cause.

Definition localBaseline (p : HostOps.Policy) : Settings :=
  let remote := po_BaselineRemoteControl p && negb (po_ForceDenyRemoteControl p) && po_AllowRemoteControl p && negb localDeny in
  mkSettings (po_PrivilegeMode p) remote (remote && po_BaselineWebSSH p && po_AllowWebSSH p)
    (remote && po_BaselineExecution p && po_AllowExecution p) (po_BaselineGPU p && po_AllowGPU p) false.
(** [privileged.Settings{RequiredPrivilegeMode: actual}]. *)
Definition denied (actual : PrivilegeMode) : Settings := mkSettings actual false false false false false.

Definition baseline_bound (r : PrivilegedRevision) (m : Manifest) (agent : string) (actual : PrivilegeMode) : bool :=
  match pr_authorization r with
  | None => false
  | Some a =>
      (ha_service_id a =? mf_ServiceName m)%string && (ha_agent_id a =? agent)%string && (ha_revision a =? 1) &&
      (ha_config_hash a =? pr_config_hash r)%string && (ha_approval_generation a =? 1) && (ha_target_mode a =? actual)
  end.
Definition plain_cap (b : bool) : CapabilityState := mkCap b "".
(** The capabilities reported with settings that were just accepted. *)
Definition observed_caps (c : AgentCapabilities) (s : Settings) (gpu detailed helper : CapabilityState) : AgentCapabilities :=
  mkCaps (caps_PrivilegeMode c) gpu detailed
    (caps_NetworkInterfaces c) (caps_MountPoints c)
    (plain_cap (RemoteControlEnabled s)) (caps_ServiceControl c) (plain_cap (RemoteControlEnabled s && ExecutionEnabled s))
    (plain_cap (RemoteControlEnabled s && WebSSHEnabled s)) (caps_ReturnRouteProbe c) helper.

Definition acceptBaseline (r : option PrivilegedRevision) : SM unit :=
  match cl_hostManifest C, cl_hostPolicy C with
  | Some m, Some p =>
      let! st := priv_state in
      if 1 <=? ps_AppliedRevision st then flushReceipts else
      let! r := verifyV2Revision r in
      let! actual := actual_mode in
      let local := if bool_decide (settingsFromProto (pr_privileged r) = denied actual) then denied actual else localBaseline p in
      let! a := agentIDValue in
      s_require (baseline_bound r m a actual) SBaselineBinding ;;;
      let! c := Detect_ (RemoteControlEnabled local) in
      let! current := runtime_current in
      let caps := observed_caps c local (plain_cap (EnableGPU local)) (plain_cap (EnableGPU local && sn_DetailedGPU current))
                    (plain_cap false) in
      let! id := newUUID Net in
      let! now := clock Net in
      let! payload := s_some (wire_marshal (mkDelivery a 1 DELIVERY_STATE_DELIVERED 2 id (pr_config_hash r) 1
                        (Some (mkObservation 1 (pr_config_hash r) 1 (mf_ServiceName m) (cl_startupID C) actual (Some caps) ""
                                 false false false false (Some (timestamp_of now)))) [] None)) SMarshal in
      let! now := clock Net in
      on_priv (AdoptBaseline now r local actual (mkReceipt id "privileged" payload "")) ;;;
      flushReceipts
  | _, _ => s_err SNoPolicy
  end.

(** The panel's current revision is still the one that was delivered. *)
Definition same_approval (current r : PrivilegedRevision) : bool :=
  (pr_revision current =? pr_revision r) && (pr_config_hash current =? pr_config_hash r)%string &&
  (pr_approval_generation current =? pr_approval_generation r) && (pr_state current =? pr_state r) &&
  (pr_update_sequence r <=? pr_update_sequence current) &&
  bool_decide (pr_authorization current = pr_authorization r).

(** The helper flags reported with an accepted revision. *)
Definition observed_helper (m : Manifest) (p : HostOps.Policy) (s : Settings) : SM (bool * bool * bool) :=
  if RescueHelperEnabled s then
    let! status := on_host (ReadHelperStatus HE euid m) in
    match status with
    | Err e => s_err (SHelper e)
    | Ok status =>
        s_require (hs_Authorized status && hs_LeaseReady status) SHelperNotReady ;;;
        s_ret (po_HelperInstalled p, true, po_HelperAuthorized p)
    end
  else s_ret (false, false, false).

Definition apply_delivery (r : PrivilegedRevision) (m : Manifest) (p : HostOps.Policy) (actual : PrivilegeMode)
    (operation : option HostOperation) : SM unit :=
  let settings := settingsFromProto (pr_privileged r) in
  let! c := Detect_ false in
  let! current := runtime_current in
  let! helper := observed_helper m p settings in
  let '(installed, running, authorized) := helper in
  let caps := observed_caps c settings (mkCap (EnableGPU settings) (cap_Limitation (caps_Gpu c)))
                (mkCap (EnableGPU settings && sn_DetailedGPU current) (cap_Limitation (caps_DetailedGpu c)))
                (mkCap (RescueHelperEnabled settings) (cap_Limitation (caps_RescueHelper c))) in
  let! id := newUUID Net in
  let! a := agentIDValue in
  let! now := clock Net in
  let! payload := s_some (wire_marshal (mkDelivery a (pr_revision r) DELIVERY_STATE_DELIVERED 2 id (pr_config_hash r)
                    (pr_approval_generation r)
                    (Some (mkObservation (pr_revision r) (pr_config_hash r) (pr_approval_generation r) (mf_ServiceName m)
                             (cl_startupID C) actual (Some caps)
                             (match operation with Some op => ho_operation_id op | None => "" end)
                             installed running authorized (running && authorized) (Some (timestamp_of now)))) [] None)) SMarshal in
  let receipt := mkReceipt id "privileged" payload "" in
  (match operation with
   | Some op => let! now := clock Net in on_priv (ApplyHostApproved now r (Some op) actual receipt)
   | None => let! t1 := clock Net in let! t2 := clock Net in let! now := clock Net in
             on_priv (ApplyApproved t1 t2 now (Some r) actual receipt)
   end) ;;;
  flushReceipts.

(** From the online read on: [r] is what the panel says now. *)
Definition grant_current (r : PrivilegedRevision) (hostApply : bool) : SM unit :=
  match cl_hostManifest C with
  | None => failPrivileged r SNoManifest
  | Some m =>
      let! policy := s_try (read_policy_ m) in
      match policy with
      | Err e => failPrivileged r e
      | Ok p =>
          let! actual := actual_mode in
          let! checked := (if hostApply then let! op := checkedHostOperation r in s_ret (Ok (Some op))
                           else let! a := agentIDValue in let! t1 := clock Net in let! t2 := clock Net in
                                s_ret (match ValidateApproval (Some r) a (mf_ServiceName m) actual t1 t2 with
                                       | Ok _ => Ok None
                                       | Err e => Err (SPriv e)
                                       end)) in
          match checked with
          | Err e => failPrivileged r e
          | Ok operation =>
              if localDeny && RemoteControlEnabled (settingsFromProto (pr_privileged r)) then failPrivileged r SLocalDeny
              else if negb (PolicyAllows (settingsFromProto (pr_privileged r)) (Some p)) then failPrivileged r SPolicyExceeded
              else apply_delivery r m p actual operation
          end
      end
  end.

Definition note_received (r : PrivilegedRevision) : SM unit :=
  match pr_received_at r with
  | Some _ => s_ret tt
  | None =>
      let id := "received-" ++ utoa (pr_revision r) in
      let! a := agentIDValue in
      let! payload := s_some (wire_marshal (mkDelivery a (pr_revision r) DELIVERY_STATE_NEEDS_CONFIRMATION 2 id "" 0 None [] None)) SMarshal in
      enqueue id "privileged" payload ""
  end.

Definition recordPrivilegedRevision (r : option PrivilegedRevision) : SM unit :=
  let! r := verifyV2Revision r in
  if pr_installation_baseline r then acceptBaseline (Some r) else
  let! st := priv_state in
  if pr_revision r <=? ps_AppliedRevision st then flushReceipts else
  if pr_update_sequence r <? ps_LastSequence st then s_err SStaleSequence else
  let! now := clock Net in
  on_priv (RecordPending now (Some r)) ;;;
  note_received r ;;;
  let hostApply := pr_state r =? DELIVERY_STATE_APPLYING in
  if negb (pr_state r =? DELIVERY_STATE_AWAITING_AGENT) && negb hostApply then flushReceipts else
  let! current := get_delivery Net in
  let! current := verifyV2Revision current in
  s_require (same_approval current r) SApprovalChanged ;;;
  grant_current current hostApply.

(** After the receipts: a host result newer than what is active. *)
Definition reconcileHostRecord : SM unit :=
  let! m := s_some (cl_hostManifest C) SPanic in
  let! record := s_try (read_applied m) in
  match record with
  | Err e => if not_exist (AppliedPath m) e then s_ret tt else s_err e
  | Ok record =>
      let! local := s_some (wire_unmarshal (ap_Revision record)) SUnmarshal in
      let! st := priv_state in
      if pr_revision local <=? ps_AppliedRevision st then s_ret tt else
      let! r := get_delivery Net in
      recordPrivilegedRevision r
  end.

(** One turn of [runReceiptOutbox]: errors are logged, a panic ends the process. *)
Definition outbox_turn : SM unit :=
  let! _ := s_try flushReceipts in
  match cl_hostManifest C, cl_hostTrust C with
  | Some _, Some _ => let! _ := s_try reconcileHostRecord in s_ret tt
  | _, _ => s_ret tt
  end.

(** One subscription of [runPrivilegedUpdates]: the sequence to resume from. *)
Fixpoint watch_delivery (l : list (option PrivilegedRevision * Z)) (sequence : Z) : SM Z :=
  match l with
  | [] => s_ret sequence
  | (None, _) :: l => watch_delivery l sequence
  | (Some r, next) :: l =>
      rememberAgentID (pr_agent_id r) ;;;
      let! out := s_try (recordPrivilegedRevision (Some r)) in
      match out with
      | Ok _ => watch_delivery l next
      | Err _ => s_ret 0
      end
  end.

(** ** A fresh installation *)

(** What this build can do on the host, for the panel's information. *)
Definition host_actions (m : Manifest) (p : HostOps.Policy) : SM (list Z) :=
  match cl_hostTrust C with
  | None => s_ret []
  | Some t =>
      let! ready := on_host (HostActionsReady HE parse_url m) in
      if match ready with Ok b => b | Err _ => false end
      then s_ret ([ACTION_SET_SERVICE_IDENTITY] ++
                  (if negb (po_ForceDenyRescueHelper p) && negb (Nat.eqb (length (tr_ReleaseKeys t)) 0)
                   then [ACTION_INSTALL_RESCUE_HELPER] else []) ++
                  (if po_HelperInstalled p then [ACTION_REMOVE_RESCUE_HELPER] else []))%list
      else s_ret []
  end.
Definition negotiate (m : Manifest) (actual : PrivilegeMode) (actions : list Z) : SM unit :=
  let! a := agentIDValue in
  s_event (fun n => o_negotiate Net n (mkNegotiation a (mf_ServiceName m) (cl_startupID C) actual actions)) SRpc [].

Definition request_path : SM string := fun s =>
  match se_priv s with
  | None => (Err SPanic, s)
  | Some st => (Ok (join_path [dir (pst_path st); "bootstrap-request.pb"]), s)
  end.
Definition runtime_proposal (v : Snapshot) : RuntimeConfig :=
  mkRuntimeConfig "" (populated v) (Some (sn_MemoryIncludeCache v)) None (Some (sn_DetailedGPU v)) (sn_IncludeNics v)
    (sn_ExcludeNics v) (sn_IncludeMountpoints v) (Some (sn_TrafficResetDay v)) (Some (sn_GetIPAddrFromNIC v)) None
    (Some (duration_of (sn_ReportInterval v))).
Definition legacy_source (p : HostOps.Policy) : bool := has_prefix (po_DisableSource p) "legacy-".
Definition save_proposal (path : string) (pp : Proposal) : SM unit :=
  let! data := s_some (wire_marshal pp) SMarshal in
  on_world (mkdir_all (dir path)) SDisk ;;;
  on_world (atomicWrite is_regular path data 384 (-1) (-1)) SHost.

(** The request, drawn up once and saved before it is first sent; [None]: the
    agent already has privileged history. *)
Definition draw_proposal (path : string) (m : Manifest) (p : HostOps.Policy) (actual : PrivilegeMode) : SM (option Proposal) :=
  let! st := priv_state in
  if negb (ps_AppliedRevision st =? 0) || negb (ps_PendingRevision st =? 0) then s_ret None else
  let! runtime := runtime_current in
  let preserve := negb (sn_Revision runtime =? 0) || legacy_source p in
  let local := if preserve then denied actual else localBaseline p in
  let! policyData := on_world (read_file (mf_HostPolicyFile m)) SDisk in
  let! a := agentIDValue in
  let pp := mkProposal a (mf_ServiceName m) (hex_encode (sha256 policyData)) (Some (Proto local))
              (Some (runtime_proposal runtime)) preserve in
  save_proposal path pp ;;;
  s_ret (Some pp).
Definition load_proposal (path : string) (m : Manifest) (p : HostOps.Policy) (actual : PrivilegeMode) : SM (option Proposal) :=
  let! data := s_try (on_world (read_file path) SDisk) in
  match data with
  | Err (SDisk NotExist) => draw_proposal path m p actual
  | Err e => s_err e
  | Ok data =>
      s_require (slen data <=? 1048576) SBaselineSize ;;;
      let! pp := s_some (wire_unmarshal data) SUnmarshal in
      s_ret (Some pp)
  end.

(** The panel did not initialise: it has history, or the request must become a
    migration that grants nothing. *)
Definition not_initialized (path : string) (p : HostOps.Policy) (actual : PrivilegeMode) (pp : Proposal) (answer : InitAnswer) : SM unit :=
  let! state := s_try (get_node_state Net) in
  match state with
  | Ok st =>
      if nd_Desired st then flushReceipts else
      let! current := runtime_current in
      if (nd_AppliedRevision st =? 0) && negb (pp_PreserveRuntime pp) &&
         (negb (sn_Revision current =? 0) || legacy_source p ||
          (ia_SkippedReason answer =? "ordinary configuration history must be preserved")%string)
      then
        let! data := s_some (wire_marshal (mkProposal (pp_AgentId pp) (pp_ServiceId pp) (pp_PolicyHash pp)
                       (Some (Proto (denied actual))) (pp_Runtime pp) true)) SMarshal in
        on_world (atomicWrite is_regular path data 384 (-1) (-1)) SHost ;;;
        s_err SUpgradedProposal
      else s_err (SNotInitialized (ia_SkippedReason answer))
  | Err _ => s_err (SNotInitialized (ia_SkippedReason answer))
  end.

(** The answer must be the request: no other runtime or privileged
    configuration can come in through the baseline. *)
Definition same_runtime (answer : option DesiredConfig) (pp : Proposal) : bool :=
  match answer with
  | Some d => (dc_Revision d =? 1) && bool_decide (dc_Runtime d = pp_Runtime pp)
  | None => false
  end.
Definition accept_runtime (answer : InitAnswer) : SM unit :=
  let! current := runtime_current in
  if sn_Revision current <? 1 then
    let! a := agentIDValue in
    let! now := clock Net in
    let! payload := s_some (wire_marshal (mkAck a 1 true [] (Some (timestamp_of now)))) SMarshal in
    runtime_do (ApplyWithReceipt (ia_Runtime answer) payload)
  else s_ret tt.
Definition accept_answer (pp : Proposal) (answer : InitAnswer) : SM unit :=
  s_require (bool_decide (ia_Privileged answer <> None) && (pp_PreserveRuntime pp || bool_decide (ia_Runtime answer <> None))) SIncomplete ;;;
  s_require (pp_PreserveRuntime pp || same_runtime (ia_Runtime answer) pp) SRuntimeBaseline ;;;
  s_require (negb (pp_PreserveRuntime pp) || bool_decide (ia_Runtime answer = None)) SMigrationReplaces ;;;
  (if pp_PreserveRuntime pp then s_ret tt else accept_runtime answer) ;;;
  let! st := priv_state in
  (if ps_AppliedRevision st <=? 1 then acceptBaseline (ia_Privileged answer) else s_ret tt) ;;;
  flushReceipts.

Definition initializeHost : SM unit := fun s =>
  match cl_hostManifest C, cl_hostPolicy C, se_priv s with
  | Some m, Some p, Some _ =>
      (let! actual := actual_mode in
       s_require (actual =? po_PrivilegeMode p) SIdentityDiffers ;;;
       let! actions := host_actions m p in
       negotiate m actual actions ;;;
       let! path := request_path in
       let! proposal := load_proposal path m p actual in
       match proposal with
       | None => flushReceipts
       | Some pp =>
           let! a := agentIDValue in
           s_require ((pp_AgentId pp =? a)%string && (pp_ServiceId pp =? mf_ServiceName m)%string) SOtherInstallation ;;;
           let! answer := initialize_config Net pp in
           if ia_Initialized answer then accept_answer pp answer else not_initialized path p actual pp answer
       end) s
  | _, _, _ => (Ok tt, s)
  end.

(** ** Ordinary configuration *)

Definition applyDesiredConfig (desired : option Desired) : SM unit :=
  match desired with
  | None => s_ret tt
  | Some d =>
      rememberAgentID (de_AgentId d) ;;;
      let! a := agentIDValue in
      let! now := clock Net in
      let ack applied errors := mkAck a (dc_Revision (de_Config d)) applied errors (Some (timestamp_of now)) in
      let! payload := s_some (wire_marshal (ack true [])) SMarshal in
      let! out := on_runtime (ApplyWithReceipt (Some (de_Config d)) payload) in
      (match snd out with
       | None => s_ret tt
       | Some e =>
           let! payload := s_some (wire_marshal (ack false [("CONFIG_REJECTED", error_text (SRuntime e))])) SMarshal in
           runtime_do (QueueReceipt payload)
       end) ;;;
      flushReceipts
  end.

(** Until one synchronisation of this start succeeded, nothing counts as
    applied. *)
Definition SyncConfig : SM unit :=
  let! s := s_get in
  let after := if se_reconciled s then sn_Revision (rs_current (se_runtime s)) else 0 in
  let! desired := get_desired Net after in
  match desired with
  | None => s_ret tt
  | Some d =>
      rememberAgentID (de_AgentId d) ;;;
      applyDesiredConfig (Some d) ;;;
      fun s => (Ok tt, with_reconciled s)
  end.

(** One subscription of [runConfigUpdates]: a revision that fails is logged and
    the stream goes on. *)
Fixpoint watch_config (l : list (option Desired)) : SM unit :=
  match l with
  | [] => s_ret tt
  | d :: l => let! _ := s_try (applyDesiredConfig d) in watch_config l
  end.
End Delivery.
