(* ===== verification/Grants.v ===== *)
(** * What a delivery may change

    Frame rules for the session's operations, and the theorem that the settings
    in force change only by an approval that is signed, current on the panel,
    and allowed by the local policy. *)

From S2P Require Import Prelude.
From S2P Require Import GoStd.
From S2P Require Import GoPath.
From S2P Require Import Disk.
From S2P Require Import External.
From S2P Require Import Credentials.
From S2P Require Import Replay.
From S2P Require Import Signing.
From S2P Require Import Privileged.
From S2P Require Import HostOps.
From S2P Require Import RuntimeConfig.
From S2P Require Import Effective.
From S2P Require Import HostFs.
From S2P Require Import HostService.
From S2P Require Import HostPanel.
From S2P Require Import HostTx.
From S2P Require Import Session.
From S2P Require Import Delivery.

Local Open Scope string_scope.
Local Open Scope Z_scope.
Local Open Scope session_scope.

(** ** What it means to be signed *)

Section Signed.
Context `{CR : Crypto} `{PT : ProtoTime} `{WR : Wire PrivilegedRevision} `{WI : Wire SignedInstruction}.

(** The revision is, field by field, the body of an instruction that the keys
    of [i] authenticate at [now], addressed to this agent, and its hash is that
    of the settings it carries. *)
Definition v2_signed (i : Identity) (now : time) (c : PrivilegedRevision) : Prop :=
  pr_protocol_version c = 2 /\ pr_agent_id c = id_AgentID i /\ pr_unknown c = "" /\
  pr_config_hash c = Hash (settingsFromProto (pr_privileged c)) /\
  exists e si, pr_signature c = Some e /\ authentic (Signing.New i None) now e si /\
    si_instruction_type si = revision_kind /\ wire_marshal (unsigned_revision c) = Some (si_body si).
End Signed.

(** ** Frames *)

(** The settings in force, their revision, and the signature that granted them. *)
Definition grant_of (s : Session) : option (Settings * Z * bytes) :=
  (fun p => (ps_Active (pst_state p), ps_AppliedRevision (pst_state p), ps_ActiveSignedRevision (pst_state p))) <$> se_priv s.
(** Same grant, same identity. *)
Record same_grant (s s' : Session) : Prop := {
  sg_grant : grant_of s' = grant_of s;
  sg_cred : se_cred s' = se_cred s;
  sg_agent : se_agentID s' = se_agentID s;
}.
#[export] Instance same_grant_preorder : PreOrder same_grant.
Proof. split; [by split|]. intros a b c [] []. split; congruence. Qed.

(** Every run of [m], whatever its outcome, stays within [R]. *)
Definition Keeps (R : Session -> Session -> Prop) {A} (m : SM A) : Prop :=
  forall s x s', m s = (x, s') -> R s s'.

Create HintDb keeps discriminated.

Section KeepsRules.
Context (R : Session -> Session -> Prop) `{!PreOrder R}.

Lemma session_ret {A} (a : A) : Keeps R (s_ret a).
Proof. by intros s x s' [= <- <-]. Qed.
Lemma keeps_err {A} e : Keeps R (@s_err A e).
Proof. by intros s x s' [= <- <-]. Qed.
Lemma keeps_lift {A} (r : result A sess_err) : Keeps R (s_lift r).
Proof. by intros s x s' [= <- <-]. Qed.
Lemma keeps_require c e : Keeps R (s_require c e).
Proof. unfold s_require. destruct c; [apply session_ret|apply keeps_err]. Qed.
Lemma keeps_some {A} (o : option A) e : Keeps R (s_some o e).
Proof. unfold s_some. destruct o; [apply session_ret|apply keeps_err]. Qed.
Lemma keeps_get : Keeps R s_get.
Proof. by intros s x s' [= <- <-]. Qed.
Lemma session_bind {A B} (m : SM A) (k : A -> SM B) : Keeps R m -> (forall a, Keeps R (k a)) -> Keeps R (s_bind m k).
Proof.
  intros Hm Hk s x s'. unfold s_bind. destruct (m s) as [[a|e] s1] eqn:E.
  - intros H. transitivity s1; [by eapply Hm|by eapply Hk].
  - intros [= <- <-]. by eapply Hm.
Qed.
Lemma keeps_try {A} (m : SM A) : Keeps R m -> Keeps R (s_try m).
Proof.
  intros Hm s x s'. unfold s_try. destruct (m s) as [r s1] eqn:E. apply Hm in E.
  destruct r as [a|e]; [by intros [= <- <-]|]. destruct e; by intros [= <- <-].
Qed.
Lemma keeps_priv_state : Keeps R priv_state.
Proof. intros s x s'. unfold priv_state. destruct (se_priv s); by intros [= <- <-]. Qed.
Lemma keeps_agent : Keeps R agentIDValue.
Proof. by intros s x s' [= <- <-]. Qed.
Lemma keeps_current : Keeps R runtime_current.
Proof. by intros s x s' [= <- <-]. Qed.
Lemma keeps_receipt : Keeps R runtime_receipt.
Proof. by intros s x s' [= <- <-]. Qed.
Lemma keeps_fuel : Keeps R flush_fuel.
Proof. by intros s x s' [= <- <-]. Qed.
Lemma keeps_identity C : Keeps R (identity C).
Proof. by intros s x s' [= <- <-]. Qed.
Lemma keeps_request_path : Keeps R request_path.
Proof. intros s x s'. unfold request_path. destruct (se_priv s); by intros [= <- <-]. Qed.
End KeepsRules.

(** Steps that leave the stores and the identity alone and neither report a delivery nor
    send an initialisation request. *)
Definition notable (e : entry) : bool := match e with Reported _ _ | Proposed _ => true | _ => false end.
Record outward (s s' : Session) : Prop := {
  ow_priv : se_priv s' = se_priv s;
  ow_runtime : se_runtime s' = se_runtime s;
  ow_cred : se_cred s' = se_cred s;
  ow_agent : se_agentID s' = se_agentID s;
  ow_log : exists l, se_log s' = (l ++ se_log s)%list /\ Forall (fun e => notable e = false) l;
}.
#[export] Instance outward_preorder : PreOrder outward.
Proof.
  split; [split; try done; exists []; by split|]. intros a b c [? ? ? ? (l1 & H1 & F1)] [? ? ? ? (l2 & H2 & F2)].
  split; try congruence. exists (l2 ++ l1)%list. rewrite H2, H1, app_assoc. split; [done|by apply Forall_app].
Qed.

Lemma outward_event {A E} (f : nat -> result A E) wrap log :
  forallb (fun e => negb (notable e)) log = true -> Keeps outward (s_event f wrap log).
Proof.
  intros Hl s x s' [= <- <-]. split; try done. exists log. split; [done|]. apply Forall_forall. intros e He.
  rewrite forallb_In in Hl. apply Hl in He. by apply negb_true_iff.
Qed.
Lemma outward_clock O : Keeps outward (clock O).
Proof. by apply outward_event. Qed.
Lemma outward_uuid O : Keeps outward (newUUID O).
Proof. by apply outward_event. Qed.
Lemma outward_ack O m : Keeps outward (acknowledge_config O m).
Proof. intros s x s' [= <- <-]. split; try done. eexists [_]. split; [done|by constructor]. Qed.
Lemma outward_world {A E} (f : World -> result A E * World) wrap : Keeps outward (on_world f wrap).
Proof. intros s x s'. unfold on_world. destruct (f (se_world s)) as [r w]. intros [= <- <-]. split; try done. by exists []. Qed.
Lemma outward_host O {A} (m : HM A) : Keeps outward (on_host O m).
Proof. intros s x s' [= <- <-]. split; try done. by exists []. Qed.
Lemma outward_effective C `{StrictJson Manifest} `{StrictJson HostOps.Policy} lstat is_regular describe :
  Keeps outward (effective_now C lstat is_regular describe).
Proof.
  intros s x s'. unfold effective_now. destruct (EffectiveForMode _ _ _ _ _ _ _ _) as [e w]. intros [= <- <-]. split; try done. by exists [].
Qed.

(** A relation that outward steps stay within. *)
Class Inward (R : Session -> Session -> Prop) := {
  inward_preorder :: PreOrder R;
  inward : forall s s', outward s s' -> R s s';
}.
#[export] Instance same_grant_inward : Inward same_grant.
Proof. split; [exact _|]. intros s s' [Hp Hr Hc Ha _]. split; [unfold grant_of; by rewrite Hp|done|done]. Qed.
#[export] Instance outward_inward : Inward outward.
Proof. split; [exact _|done]. Qed.

Lemma keeps_outward R `{!Inward R} {A} (m : SM A) : Keeps outward m -> Keeps R m.
Proof. intros Hm s x s' H. apply inward. by eapply Hm. Qed.

#[export] Hint Resolve session_ret keeps_err keeps_lift keeps_require keeps_some keeps_get keeps_priv_state keeps_agent
  keeps_current keeps_receipt keeps_fuel keeps_identity keeps_request_path session_bind keeps_try
  outward_event outward_clock outward_uuid outward_ack outward_world outward_host outward_effective : keeps.

(** Split a handler into its steps. *)
Ltac keeps_steps :=
  repeat (intros; match goal with
  | |- Keeps _ (s_bind _ _) => apply session_bind; [exact _| |]
  | |- Keeps _ (s_try _) => apply keeps_try
  | |- Keeps _ (match ?x with _ => _ end) => destruct x
  | |- Keeps _ (let '(_, _) := ?x in _) => destruct x
  | |- Keeps _ _ => solve [eauto 4 with keeps typeclass_instances | apply keeps_outward; [exact _|eauto 4 with keeps typeclass_instances]]
  end).

(** A run whose handler is made of such steps. *)
Ltac keeps_run R H :=
  lazymatch type of H with
  | ?m ?s = _ => let Hk := fresh in assert (Hk : Keeps R m) by keeps_steps; by eapply Hk
  end.

Section GrantFrames.
Context `{CR : Crypto} `{PT : ProtoTime} `{PE : ProtoEnums} `{SE : SessionEnums} `{PD : ProtoDuration}.
Context `{WR : Wire PrivilegedRevision} `{WO : Wire HostOperation} `{WI : Wire SignedInstruction}.
Context `{WD : Wire DeliveryReport} `{WA : Wire RuntimeAck} `{WP : Wire Proposal}.
Context `{JS : Json Privileged.State} `{JP : Json persistedState} `{JE : Json (option entries)}.
Context `{SMf : StrictJson Manifest} `{SPo : StrictJson HostOps.Policy} `{SAp : StrictJson AppliedRecord}.
Context `{STr : StrictJson Trust} `{SHs : StrictJson HelperStatus}.
Variable iter : entries -> list (string * time).
Variable rfc3339 : time -> string.
Variable error_text : sess_err -> string.
Variable lstat : string -> option Stat.
Variable is_regular : string -> bool.
Variable describe : host_err -> string.
Variable parse_url : string -> option Url.
Variable populated : Snapshot -> list Z.
Context (HE : HostFs.Env) (euid : Z) (Net : Outside) (C : Client).

Abbreviation flush := (flushReceipts rfc3339 error_text lstat is_regular describe Net C).
Abbreviation record_ := (recordPrivilegedRevision iter rfc3339 error_text lstat is_regular describe HE euid Net C).

(** The store's operations that grant nothing. *)
Lemma keeps_priv {A} (op : Privileged.Op A) :
  (forall p w r p' w', op p w = (r, p', w') ->
     ps_Active (pst_state p') = ps_Active (pst_state p) /\ ps_AppliedRevision (pst_state p') = ps_AppliedRevision (pst_state p) /\
     ps_ActiveSignedRevision (pst_state p') = ps_ActiveSignedRevision (pst_state p)) ->
  Keeps same_grant (on_priv op).
Proof.
  intros Hop s x s'. unfold on_priv. destruct (se_priv s) as [p|] eqn:Ep; [|by intros [= <- <-]].
  destruct (op p (se_world s)) as [[r p'] w'] eqn:E. intros [= <- <-].
  apply Hop in E as (H1 & H2 & H3). split; [|done|done]. unfold grant_of. rewrite Ep. simpl. by rewrite H1, H2, H3.
Qed.
Lemma commit_same now next p w r p' w' :
  commit now next p w = (r, p', w') ->
  ps_Active next = ps_Active (pst_state p) -> ps_AppliedRevision next = ps_AppliedRevision (pst_state p) ->
  ps_ActiveSignedRevision next = ps_ActiveSignedRevision (pst_state p) ->
  ps_Active (pst_state p') = ps_Active (pst_state p) /\ ps_AppliedRevision (pst_state p') = ps_AppliedRevision (pst_state p) /\
  ps_ActiveSignedRevision (pst_state p') = ps_ActiveSignedRevision (pst_state p).
Proof.
  intros Hc H1 H2 H3. apply commit_state in Hc. destruct r as [[]|]; [destruct Hc as [-> _]|by rewrite Hc].
  simpl. by rewrite H1, H2, H3.
Qed.
Lemma keeps_enqueue id kind payload rejected : Keeps same_grant (enqueue Net id kind payload rejected).
Proof.
  unfold enqueue. keeps_steps. intros now. apply keeps_priv. intros p w r p' w'. unfold Enqueue.
  destruct (Nat.leb _ _); [by intros [= <- <- <-]|]. destruct (existsb _ _); [by intros [= <- <- <-]|].
  intros Hc. by apply commit_same in Hc.
Qed.
Lemma keeps_finish id rejected : Keeps same_grant (finish rfc3339 Net id rejected).
Proof.
  unfold finish. keeps_steps. intros t. keeps_steps. intros now. apply keeps_priv. intros p w r p' w' Hc. unfold Privileged.FinishReceipt in Hc. by apply commit_same in Hc.
Qed.
Lemma keeps_pending now r : Keeps same_grant (on_priv (RecordPending now r)).
Proof.
  apply keeps_priv. intros p w x p' w'. unfold RecordPending.
  destruct r as [r|]; [|by intros [= <- <- <-]]. destruct (pr_privileged r); [|by intros [= <- <- <-]].
  destruct (_ <=? _); [by intros [= <- <- <-]|]. destruct (_ || _); [by intros [= <- <- <-]|].
  intros Hc. by apply commit_same in Hc.
Qed.
(** The runtime store is not the privileged one. *)
Lemma keeps_on_runtime op : Keeps same_grant (on_runtime op).
Proof. intros s x s'. unfold on_runtime. destruct (op _ _) as [[r st] w]. intros [= <- <-]. by split. Qed.
Lemma keeps_runtime op : Keeps same_grant (runtime_do op).
Proof. unfold runtime_do. apply session_bind; [exact _|apply keeps_on_runtime|]. intros [sn [e|]]; simpl; keeps_steps. Qed.
#[local] Hint Resolve keeps_enqueue keeps_finish keeps_pending keeps_on_runtime keeps_runtime : keeps.

Lemma outward_detect b : Keeps outward (Detect_ lstat is_regular describe C b).
Proof.
  unfold Detect_, Detect. apply session_bind; [exact _|apply outward_effective|]. by intros e s x s' [= <- <-].
Qed.
Lemma outward_mode : Keeps outward (actual_mode lstat is_regular describe C).
Proof. unfold actual_mode. apply session_bind; [exact _|apply outward_detect|]. intros c. apply session_ret, _. Qed.
Lemma detect_mode goos store cfg remote mode os limitation :
  caps_PrivilegeMode (detect goos store cfg remote mode os limitation) = mode.
Proof. unfold detect. by destruct (remoteAllowed store remote mode os limitation). Qed.
Lemma mode_spec s x s' : actual_mode lstat is_regular describe C s = (x, s') -> x = Ok (cl_mode C).
Proof.
  unfold actual_mode, Detect_, Detect, s_bind, effective_now.
  destruct (EffectiveForMode _ _ _ _ _ _ _ _) as [e w]. intros [= <- _]; f_equal; apply detect_mode.
Qed.
#[local] Hint Resolve outward_detect outward_mode : keeps.

Lemma outward_verifyV2 r : Keeps outward (verifyV2Revision iter Net C r).
Proof. unfold verifyV2Revision. keeps_steps. Qed.
Lemma outward_policy m : Keeps outward (read_policy_ lstat is_regular m).
Proof. unfold read_policy_. keeps_steps. Qed.
Lemma outward_applied m : Keeps outward (read_applied lstat is_regular m).
Proof. unfold read_applied. keeps_steps. Qed.
#[local] Hint Resolve outward_verifyV2 outward_policy outward_applied : keeps.

Lemma outward_validateSaved m : Keeps outward (validateSavedHostObservation lstat is_regular describe C m).
Proof.
  unfold validateSavedHostObservation. destruct (_ && _); [apply keeps_err, _|]. destruct (_ =? _)%string; [apply session_ret, _|].
  destruct (cl_hostManifest C); [|apply keeps_err, _]. destruct (cl_hostTrust C); [|apply keeps_err, _]. keeps_steps.
Qed.
Lemma outward_checked r : Keeps outward (checkedHostOperation iter lstat is_regular Net C r).
Proof. unfold checkedHostOperation, get_operation. keeps_steps. Qed.
Lemma outward_delivery : Keeps outward (get_delivery Net).
Proof. unfold get_delivery. keeps_steps. Qed.
#[local] Hint Resolve outward_validateSaved outward_checked outward_delivery : keeps.

Lemma keeps_report m : Keeps same_grant (report_delivery Net m).
Proof. intros s x s' [= <- <-]. by split. Qed.
#[local] Hint Resolve keeps_report : keeps.
Lemma keeps_send e : Keeps same_grant (send_entry lstat is_regular describe Net C e).
Proof. unfold send_entry, deliver_report. keeps_steps. Qed.
#[local] Hint Resolve keeps_send : keeps.

Lemma keeps_refused_ payload e : Keeps same_grant (keep_refused error_text Net payload e).
Proof.
  intros s x s' H. unfold keep_refused in H. destruct (se_priv s); [keeps_run same_grant H|by injection H as <- <-].
Qed.
#[local] Hint Resolve keeps_refused_ : keeps.
Lemma keeps_flush_runtime fuel : Keeps same_grant (flush_runtime error_text Net fuel).
Proof. induction fuel as [|fuel IH]; simpl; [apply keeps_err, _|]. unfold deliver_ack. keeps_steps. Qed.
Lemma keeps_flush_entry e first : Keeps same_grant (flush_entry rfc3339 error_text lstat is_regular describe Net C e first).
Proof. unfold flush_entry. keeps_steps. Qed.
#[local] Hint Resolve keeps_flush_runtime keeps_flush_entry : keeps.
Lemma keeps_flush_entries l first : Keeps same_grant (flush_entries rfc3339 error_text lstat is_regular describe Net C l first).
Proof. revert first. induction l as [|e l IH]; intros first; simpl; keeps_steps. Qed.
#[local] Hint Resolve keeps_flush_entries : keeps.
Lemma keeps_flush : Keeps same_grant flush.
Proof.
  unfold flushReceipts. apply session_bind; [exact _|auto with keeps typeclass_instances|]. intros fuel.
  apply session_bind; [exact _|auto with keeps|]. intros _ s x s' H. destruct (se_priv s); [keeps_run same_grant H|by injection H as <- <-].
Qed.

(** Peel one step of a handler that changed the grant: the step succeeded. *)
Lemma peel {A B} (m : SM A) (k : A -> SM B) s x s' :
  s_bind m k s = (x, s') -> Keeps same_grant m -> grant_of s' <> grant_of s ->
  exists a s1, m s = (Ok a, s1) /\ k a s1 = (x, s') /\ same_grant s s1 /\ grant_of s' <> grant_of s1.
Proof.
  intros H Hm Hne. unfold s_bind in H. destruct (m s) as [[a|e] s1] eqn:E.
  - pose proof (Hm _ _ _ E) as Hk. exists a, s1. split_and!; [done|done|done|]. destruct Hk as [-> _ _]. done.
  - injection H as <- <-. destruct (Hm _ _ _ E) as [? _ _]. done.
Qed.
Lemma require_inv c e s x s' : s_require c e s = (Ok x, s') -> c = true /\ s' = s.
Proof. unfold s_require. destruct c; [by intros [= <- <-]|done]. Qed.
Lemma some_inv {A} (o : option A) e s x s' : s_some o e s = (Ok x, s') -> o = Some x /\ s' = s.
Proof. unfold s_some. destruct o; [by intros [= <- <-]|done]. Qed.
Lemma bind_inv {A B} (m : SM A) (k : A -> SM B) s b s' :
  s_bind m k s = (Ok b, s') -> exists a s1, m s = (Ok a, s1) /\ k a s1 = (Ok b, s').
Proof. unfold s_bind. destruct (m s) as [[a|e] s1]; [eauto|done]. Qed.

Lemma verifyV2_ok r s c s' :
  verifyV2Revision iter Net C r s = (Ok c, s') ->
  r = Some c /\ exists i now, client_identity C s = Some i /\ v2_signed i now c.
Proof.
  intros H. unfold verifyV2Revision in H.
  apply bind_inv in H as (oi & s1 & [= <- <-] & H). apply bind_inv in H as (i & s2 & Hi & H). apply some_inv in Hi as [Hi ->].
  apply bind_inv in H as (now & s3 & _ & H). apply bind_inv in H as (v & s4 & Hv & H). injection Hv as Hv ->.
  apply bind_inv in H as (r' & s5 & Hr & H). apply some_inv in Hr as [-> ->].
  apply bind_inv in H as ([] & s6 & Hq & H). apply require_inv in Hq as [Hq ->].
  apply bind_inv in H as (body & s7 & Hb & H). apply some_inv in Hb as [Hb ->].
  apply bind_inv in H as ([] & s8 & Hm & H). apply require_inv in Hm as [Hm ->].
  apply bind_inv in H as (p & s9 & Hp & H). apply some_inv in Hp as [Hp ->].
  apply bind_inv in H as ([] & s10 & Hh & H). apply require_inv in Hh as [Hh ->]. injection H as <- <-.
  split; [done|]. exists i, now. split; [done|]. apply andb_true_iff in Hq as [Hq Hk], Hm as [Hm Hu], Hh as [_ Hh]. apply andb_true_iff in Hm as [Hm Ha].
  rewrite Z.eqb_eq in Hq. rewrite String.eqb_eq in Hk, Hm, Ha, Hh. rewrite Z.eqb_eq in Hu. apply slen_zero in Hu. unfold v2_signed. split_and!; [done|done|done|by rewrite Hp|].
  unfold verify_signature in Hv. simpl in Hv. unfold Verify in Hv.
  destruct (pr_signature r') as [e|]; [|done].
  destruct (Signing.authenticate (Signing.New i None) now (Some e)) as [[si by_]|] eqn:Ea; [|done].
  apply authenticate_ok in Ea as [Ea _]. simpl in Hv. injection Hv as <-. simpl in Hk, Hm. exists e, si. split_and!; [done|done|done|congruence].
Qed.

Lemma keeps_fail r cause : Keeps same_grant (failPrivileged rfc3339 error_text lstat is_regular describe Net C r cause).
Proof. pose proof keeps_flush. unfold failPrivileged. keeps_steps. Qed.
Lemma keeps_note r : Keeps same_grant (note_received Net r).
Proof. unfold note_received. keeps_steps. Qed.
#[local] Hint Resolve keeps_flush keeps_fail keeps_note : keeps.

(** What the store holds after an approval changed it. *)
Definition now_granted (r : PrivilegedRevision) (s : Session) : Prop :=
  exists signed, wire_marshal r = Some signed /\
    grant_of s = Some (settingsFromProto (pr_privileged r), pr_revision r, signed).
Lemma now_granted_same r s s' : same_grant s s' -> now_granted r s -> now_granted r s'.
Proof. intros [Hg _ _] (b & Hb & H). exists b. split; [done|congruence]. Qed.

Lemma commitApproved_grants now r receipt p w x p' w' :
  commitApproved now r receipt p w = (x, p', w') ->
  p' = p \/ exists signed, wire_marshal r = Some signed /\ ps_Active (pst_state p') = settingsFromProto (pr_privileged r) /\
    ps_AppliedRevision (pst_state p') = pr_revision r /\ ps_ActiveSignedRevision (pst_state p') = signed /\
    ps_AppliedRevision (pst_state p) < pr_revision r.
Proof.
  unfold commitApproved. destruct (_ || _) eqn:E1; [intros [= <- <- <-]; by left|].
  destruct (Nat.leb _ _); [intros [= <- <- <-]; by left|]. destruct (wire_marshal r) as [signed|]; [|intros [= <- <- <-]; by left].
  intros H. apply commit_state in H. destruct x as [[]|]; [destruct H as [-> _]|by left]. right. exists signed. simpl. split_and!; try done. zbool.
Qed.
Lemma on_priv_grants (op : Privileged.Op unit) r s x s' :
  (forall p w y p' w', op p w = (y, p', w') ->
     p' = p \/ exists now receipt y', commitApproved now r receipt p w = (y', p', w')) ->
  on_priv op s = (x, s') -> grant_of s' <> grant_of s -> now_granted r s'.
Proof.
  intros Hop H Hne. unfold on_priv, grant_of in *. destruct (se_priv s) as [p|] eqn:Ep; [|injection H as <- <-; by rewrite Ep in Hne].
  destruct (op p (se_world s)) as [[y p'] w'] eqn:Eo. injection H as <- <-. simpl in *.
  assert (Hp : p' <> p) by (intros ->; done).
  apply Hop in Eo as [->|(now & receipt & y' & Hc)]; [done|].
  apply commitApproved_grants in Hc as [->|(signed & Hw & H1 & H2 & H3 & _)]; [done|].
  exists signed. split; [done|]. unfold grant_of. simpl. by rewrite H1, H2, H3.
Qed.
Lemma ApplyApproved_shape t1 t2 now r actual receipt p w y p' w' :
  ApplyApproved t1 t2 now (Some r) actual receipt p w = (y, p', w') ->
  p' = p \/ exists now receipt y', commitApproved now r receipt p w = (y', p', w').
Proof.
  unfold ApplyApproved. destruct (ValidateApproval _ _ _ _ _ _) as [[r' a]|] eqn:E; [|intros [= <- <- <-]; by left].
  unfold ValidateApproval in E. ok_inv E. eauto.
Qed.
Lemma ApplyHostApproved_shape now r op actual receipt p w y p' w' :
  ApplyHostApproved now r (Some op) actual receipt p w = (y, p', w') ->
  p' = p \/ exists now receipt y', commitApproved now r receipt p w = (y', p', w').
Proof. unfold ApplyHostApproved. destruct (_ && _); [eauto|intros [= <- <- <-]; by left]. Qed.

(** The helper was seen running, authorized and ready during the call. *)
Definition helper_seen (m : Manifest) : Prop :=
  exists n st, fst (ReadHelperStatus HE euid m (o_host Net n)) = Ok st /\ hs_Authorized st = true /\ hs_LeaseReady st = true.
Lemma observed_helper_ok m p v s h s' :
  observed_helper HE euid Net m p v s = (Ok h, s') -> RescueHelperEnabled v = true -> helper_seen m.
Proof.
  unfold observed_helper. intros H Hr. rewrite Hr in H. apply bind_inv in H as (r & s1 & Ho & H). injection Ho as <- <-.
  destruct (fst _) as [st|e] eqn:Er; [|done]. apply bind_inv in H as ([] & s2 & Hq & H). apply require_inv in Hq as [Hq ->].
  apply andb_true_iff in Hq as [??]. exists (se_tick s), st. by split_and!.
Qed.
Lemma outward_observed m p v : Keeps outward (observed_helper HE euid Net m p v).
Proof. unfold observed_helper. keeps_steps. Qed.
#[local] Hint Resolve outward_observed : keeps.

Lemma apply_delivery_grants r m p actual op s x s' :
  apply_delivery rfc3339 error_text lstat is_regular describe HE euid Net C r m p actual op s = (x, s') ->
  grant_of s' <> grant_of s ->
  now_granted r s' /\ (RescueHelperEnabled (settingsFromProto (pr_privileged r)) = true -> helper_seen m).
Proof.
  intros H Hne. unfold apply_delivery in H.
  apply peel in H as (c & s1 & _ & H & _ & Hne1); [|keeps_steps|done]. clear Hne.
  apply peel in H as (cur & s2 & _ & H & _ & Hne2); [|keeps_steps|done]. clear Hne1.
  apply peel in H as (h & s3 & Hh & H & _ & Hne3); [|keeps_steps|done]. clear Hne2.
  destruct h as [[inst run] auth].
  apply peel in H as (id & s4 & _ & H & _ & Hne4); [|keeps_steps|done]. clear Hne3.
  apply peel in H as (a & s5 & _ & H & _ & Hne5); [|keeps_steps|done]. clear Hne4.
  apply peel in H as (now & s6 & _ & H & _ & Hne6); [|keeps_steps|done]. clear Hne5.
  apply peel in H as (pl & s7 & _ & H & _ & Hne7); [|keeps_steps|done]. clear Hne6.
  split; [|by eapply observed_helper_ok].
  unfold s_bind at 1 in H. destruct (_ s7) as [y s8] eqn:Ea in H.
  assert (Hf : same_grant s8 s').
  { destruct y as [[]|]; [by eapply keeps_flush|injection H as <- <-; reflexivity]. }
  apply (now_granted_same _ s8); [done|]. destruct Hf as [Hf _ _]. rewrite Hf in Hne7. clear H Hf.
  destruct op as [op|].
  - apply peel in Ea as (n1 & s9 & _ & Ea & _ & Hn); [|keeps_steps|done].
    eapply on_priv_grants; [|exact Ea|exact Hn]. intros. by eapply ApplyHostApproved_shape.
  - apply peel in Ea as (t1 & s9 & _ & Ea & _ & Hn); [|keeps_steps|done].
    apply peel in Ea as (t2 & s10 & _ & Ea & _ & Hn2); [|keeps_steps|done].
    apply peel in Ea as (n1 & s11 & _ & Ea & _ & Hn3); [|keeps_steps|done].
    eapply on_priv_grants; [|exact Ea|exact Hn3]. intros. by eapply ApplyApproved_shape.
Qed.

(** ** The theorem *)

(** What the local side allowed, in the same call. *)
Definition locally_allowed (c : PrivilegedRevision) : Prop :=
  let v := settingsFromProto (pr_privileged c) in
  exists m p w w',
    cl_hostManifest C = Some m /\ ReadPolicy lstat is_regular (Some m) w = (Ok p, w') /\
    PolicyAllows v (Some p) = true /\
    (localDeny C = true -> RemoteControlEnabled v = false) /\
    (RescueHelperEnabled v = true -> helper_seen m).
(** An installation baseline: nothing, or what the installation itself chose. *)
Definition baseline_allowed (c : PrivilegedRevision) : Prop :=
  exists p, cl_hostPolicy C = Some p /\ pr_installation_baseline c = true /\ pr_revision c = 1 /\
    (settingsFromProto (pr_privileged c) = denied (cl_mode C) \/ settingsFromProto (pr_privileged c) = localBaseline C p).

Lemma grant_current_grants r hostApply s x s' :
  grant_current iter rfc3339 error_text lstat is_regular describe HE euid Net C r hostApply s = (x, s') ->
  grant_of s' <> grant_of s ->
  now_granted r s' /\ locally_allowed r.
Proof.
  intros H Hne. unfold grant_current in H.
  destruct (cl_hostManifest C) as [m|] eqn:Em; [|by destruct (keeps_fail _ _ _ _ _ H)].
  apply peel in H as (rp & s1 & Hrp & H & _ & Hne1); [|keeps_steps|done]. clear Hne.
  destruct rp as [p|e]; [|by destruct (keeps_fail _ _ _ _ _ H)].
  apply peel in H as (actual & s2 & _ & H & _ & Hne2); [|keeps_steps|done]. clear Hne1.
  apply peel in H as (checked & s3 & _ & H & _ & Hne3); [|keeps_steps|done]. clear Hne2.
  destruct checked as [operation|e]; [|by destruct (keeps_fail _ _ _ _ _ H)].
  destruct (localDeny C && _) eqn:Ed; [by destruct (keeps_fail _ _ _ _ _ H)|].
  destruct (PolicyAllows _ _) eqn:Ep; simpl in H; [|by destruct (keeps_fail _ _ _ _ _ H)].
  apply apply_delivery_grants in H as [Hg Hh]; [|done]. split; [done|].
  unfold s_try in Hrp. destruct (read_policy_ lstat is_regular m s) as [[p'|e] s0] eqn:Er; [|by destruct e].
  injection Hrp as <- <-. unfold read_policy_, on_world in Er.
  destruct (ReadPolicy lstat is_regular (Some m) (se_world s)) as [[p2|] w'] eqn:Ew; [|done]. injection Er as <- _.
  exists m, p2, (se_world s), w'. split_and!; [done|done|done| |done].
  intros Hd. rewrite Hd in Ed. by apply andb_false_iff in Ed as [?|?].
Qed.

Lemma AdoptBaseline_grants now r local actual receipt p w x p' w' :
  AdoptBaseline now r local actual receipt p w = (x, p', w') ->
  p' = p \/ exists signed, wire_marshal r = Some signed /\ pr_installation_baseline r = true /\ pr_revision r = 1 /\
    settingsFromProto (pr_privileged r) = local /\ ps_Active (pst_state p') = local /\ ps_AppliedRevision (pst_state p') = 1 /\ ps_ActiveSignedRevision (pst_state p') = signed.
Proof.
  unfold AdoptBaseline. intros E.
  destruct (negb _) eqn:E1; [injection E as <- <- <-; by left|].
  destruct (negb _) eqn:E2 in E; [injection E as <- <- <-; by left|].
  destruct (pr_authorization r); [|injection E as <- <- <-; by left].
  destruct (negb _) eqn:E3 in E; [injection E as <- <- <-; by left|].
  destruct (_ || _) eqn:E4; [injection E as <- <- <-; by left|].
  destruct (_ && _) eqn:E5 in E; [injection E as <- <- <-; by left|].
  destruct (Nat.leb _ _) eqn:E6; [injection E as <- <- <-; by left|].
  destruct (wire_marshal r) as [signed|] eqn:Ew; [|injection E as <- <- <-; by left].
  apply commit_state in E. destruct x as [[]|]; [destruct E as [-> _]|by left]. right. exists signed. bool_hyps. by split_and!.
Qed.
Lemma acceptBaseline_grants r s x s' :
  acceptBaseline iter rfc3339 error_text lstat is_regular describe Net C r s = (x, s') ->
  grant_of s' <> grant_of s ->
  exists c, r = Some c /\ (exists i now, client_identity C s = Some i /\ v2_signed i now c) /\
    now_granted c s' /\ baseline_allowed c.
Proof.
  intros H Hne. unfold acceptBaseline in H.
  destruct (cl_hostManifest C) as [m|] eqn:Em; [|injection H as <- <-; done].
  destruct (cl_hostPolicy C) as [p|] eqn:Ep; [|injection H as <- <-; done].
  apply peel in H as (st & s1 & Hst & H & Hs1 & Hne1); [|keeps_steps|done]. clear Hne.
  destruct (1 <=? _); [by destruct (keeps_flush _ _ _ H)|].
  apply peel in H as (c & s2 & Hv & H & _ & Hne2); [|keeps_steps|done]. clear Hne1.
  apply peel in H as (actual & s3 & Ha & H & _ & Hne3); [|keeps_steps|done]. clear Hne2. apply mode_spec in Ha. injection Ha as ->.
  apply peel in H as (a & s4 & _ & H & _ & Hne4); [|keeps_steps|done]. clear Hne3.
  apply peel in H as (u & s5 & _ & H & _ & Hne5); [|keeps_steps|done]. clear Hne4.
  apply peel in H as (caps & s6 & _ & H & _ & Hne6); [|keeps_steps|done]. clear Hne5.
  apply peel in H as (cur & s7 & _ & H & _ & Hne7); [|keeps_steps|done]. clear Hne6.
  apply peel in H as (id & s8 & _ & H & _ & Hne8); [|keeps_steps|done]. clear Hne7.
  apply peel in H as (n1 & s9 & _ & H & _ & Hne9); [|keeps_steps|done]. clear Hne8.
  apply peel in H as (pl & s10 & _ & H & _ & Hne10); [|keeps_steps|done]. clear Hne9.
  apply peel in H as (n2 & s11 & _ & H & _ & Hne11); [|keeps_steps|done]. clear Hne10.
  unfold s_bind at 1 in H. destruct (on_priv _ s11) as [y s12] eqn:Eo in H.
  assert (Hf : same_grant s12 s') by (destruct y as [[]|]; [by eapply keeps_flush|injection H as <- <-; reflexivity]).
  pose proof Hf as [Hg _ _]. rewrite Hg in Hne11. clear H.
  unfold on_priv in Eo. unfold grant_of in Hne11. destruct (se_priv s11) as [ps|] eqn:Eps; [|injection Eo as <- <-; by rewrite Eps in Hne11].
  destruct (AdoptBaseline _ _ _ _ _ ps (se_world s11)) as [[z ps'] w'] eqn:Eb. injection Eo as <- <-. simpl in Hne11.
  apply AdoptBaseline_grants in Eb as [->|(signed & Hw & HB & H1 & Hl & HA & HR & HS)]; [done|].
  apply verifyV2_ok in Hv as (-> & i & now & Hi & Hsig). exists c. split_and!; [done| | |].
  - exists i, now. split; [|done]. unfold client_identity in *. destruct Hs1 as [_ Hc _]. by rewrite Hc in Hi.
  - exists signed. split; [done|]. rewrite Hg. unfold grant_of. simpl. by rewrite HA, HR, HS, <- Hl, H1.
  - exists p. split_and!; [done|done|done|]. case_bool_decide; auto.
Qed.

(** Handling one delivered revision. *)
Lemma recordPrivilegedRevision_grants r s x s' :
  recordPrivilegedRevision iter rfc3339 error_text lstat is_regular describe HE euid Net C r s = (x, s') ->
  grant_of s' <> grant_of s ->
  exists c i now,
    client_identity C s = Some i /\ v2_signed i now c /\ now_granted c s' /\
    ((r = Some c /\ baseline_allowed c) \/
     (exists r0 n, r = Some r0 /\ o_delivery Net n (se_agentID s) = Ok (Some c) /\ same_approval c r0 = true /\ locally_allowed c)).
Proof.
  intros H Hne. unfold recordPrivilegedRevision in H.
  apply peel in H as (r0 & s1 & Hv & H & Hs1 & Hne1); [|keeps_steps|done]. clear Hne.
  apply verifyV2_ok in Hv as (-> & i & now & Hi & Hsig).
  assert (Hid : forall s2, same_grant s1 s2 -> client_identity C s2 = client_identity C s).
  { intros s2 [_ Hc _]. destruct Hs1 as [_ Hc1 _]. unfold client_identity. by rewrite Hc, Hc1. }
  destruct (pr_installation_baseline r0) eqn:Eb.
  { apply acceptBaseline_grants in H as (c & [= <-] & (i' & now' & Hi' & Hs') & Hg & Hb); [|done].
    rewrite Hid in Hi' by done. exists r0, i', now'. split_and!; try done. left. by split_and!. }
  apply peel in H as (st & s2 & _ & H & Hs2 & Hne2); [|keeps_steps|done]. clear Hne1.
  destruct (_ <=? _); [by destruct (keeps_flush _ _ _ H)|].
  destruct (_ <? _); [injection H as <- <-; done|].
  apply peel in H as (n1 & s3 & _ & H & Hs3 & Hne3); [|keeps_steps|done]. clear Hne2.
  apply peel in H as (u & s4 & _ & H & Hs4 & Hne4); [|keeps_steps|done]. clear Hne3.
  apply peel in H as (u' & s5 & _ & H & Hs5 & Hne5); [|keeps_steps|done]. clear Hne4.
  destruct (negb _ && _); [by destruct (keeps_flush _ _ _ H)|].
  apply peel in H as (cur & s6 & Hd & H & Hs6 & Hne6); [|keeps_steps|done]. clear Hne5.
  apply peel in H as (c & s7 & Hv & H & Hs7 & Hne7); [|keeps_steps|done]. clear Hne6.
  apply peel in H as (u'' & s8 & Hq & H & Hs8 & Hne8); [|keeps_steps|done]. clear Hne7.
  apply require_inv in Hq as [Hq ->]. apply verifyV2_ok in Hv as (-> & i' & now' & Hi' & Hsig').
  assert (H16 : same_grant s1 s5) by (rewrite Hs2, Hs3, Hs4, Hs5; reflexivity).
  rewrite Hid in Hi' by (by rewrite H16).
  apply grant_current_grants in H as [Hg Hl]; [|done].
  exists c, i', now'. split_and!; [done|done|done|]. right. exists r0, (se_tick s5).
  assert (Ha : se_agentID s5 = se_agentID s) by (destruct H16 as [_ _ ->]; by destruct Hs1 as [_ _ ->]).
  split_and!; try done. unfold get_delivery, s_bind, agentIDValue, s_event in Hd. rewrite Ha in Hd.
  destruct (o_delivery Net (se_tick s5) (se_agentID s)); [by injection Hd as -> _|done].
Qed.
End GrantFrames.
