(* ===== verification/Receipts.v ===== *)
(** * What happens to receipts

    Flushing the two outboxes ends, loses no receipt, and reports no observation
    that has stopped describing this host. *)

From S2P Require Import Prelude.
From S2P Require Import GoStd.
From S2P Require Import GoPath.
From S2P Require Import Disk.
From S2P Require Import External.
From S2P Require Import Credentials.
From S2P Require Import Replay.
From S2P Require Import Signing.
From S2P Require Import Privileged.
From S2P Require Import HostOps.
From S2P Require Import RuntimeConfig.
From S2P Require Import Effective.
From S2P Require Import HostFs.
From S2P Require Import HostService.
From S2P Require Import HostTx.
From S2P Require Import Session.
From S2P Require Import Delivery.
From S2P Require Import Grants.

Local Open Scope string_scope.
Local Open Scope Z_scope.
Local Open Scope session_scope.

Lemma bind_ok {A B} (m : SM A) (k : A -> SM B) s a s1 : m s = (Ok a, s1) -> s_bind m k s = k a s1.
Proof. unfold s_bind. by intros ->. Qed.
Lemma bind_err {A B} (m : SM A) (k : A -> SM B) s e s1 : m s = (Err e, s1) -> s_bind m k s = (Err e, s1).
Proof. unfold s_bind. by intros ->. Qed.

Section Receipts.
Context `{CR : Crypto} `{PT : ProtoTime} `{PE : ProtoEnums} `{SE : SessionEnums} `{PD : ProtoDuration}.
Context `{WR : Wire PrivilegedRevision} `{WO : Wire HostOperation} `{WI : Wire SignedInstruction}.
Context `{WD : Wire DeliveryReport} `{WA : Wire RuntimeAck}.
Context `{JS : Json Privileged.State} `{JP : Json persistedState} `{JE : Json (option entries)}.
Context `{SMf : StrictJson Manifest} `{SPo : StrictJson HostOps.Policy} `{SAp : StrictJson AppliedRecord}.
Variable rfc3339 : time -> string.
Variable error_text : sess_err -> string.
Variable lstat : string -> option Stat.
Variable is_regular : string -> bool.
Variable describe : host_err -> string.
Context (Net : Outside) (C : Client).

Abbreviation queue s := (rs_receipts (se_runtime s)).
Definition outbox (s : Session) : list Receipt := match se_priv s with Some p => ps_Outbox (pst_state p) | None => [] end.
Definition rejected (s : Session) : list Receipt :=
  match se_priv s with Some p => ps_RejectedReceipts (pst_state p) | None => [] end.

(** Time only goes forward, and nothing is removed from the log. *)
Record forward (s s' : Session) : Prop := {
  fw_tick : (se_tick s <= se_tick s')%nat;
  fw_log : forall e, e ∈ se_log s -> e ∈ se_log s';
}.
#[local] Instance forward_preorder : PreOrder forward.
Proof. split; [by split|]. intros a b c [] []. split; [lia|auto]. Qed.

(** ** Runtime acknowledgements *)

(** The identifiers still to be drawn are not in the outbox. *)
Definition fresh_ids (s : Session) : Prop :=
  forall r n, r ∈ outbox s -> (se_tick s <= n)%nat -> rc_ID r <> o_uuid Net n.
(** The panel accepted [p], or refused it and a copy is kept for diagnosis. *)
Definition ack_settled (s : Session) (p : bytes) : Prop :=
  exists m, wire_unmarshal p = Some m /\
    (Acknowledged m true ∈ se_log s \/
     Acknowledged m false ∈ se_log s /\
     (se_priv s = None \/ exists r, r ∈ outbox s /\ rc_Kind r = "runtime-rejected" /\ rc_Payload r = p)).

Lemma ack_run m s r s' :
  deliver_ack Net m s = (r, s') ->
  se_runtime s' = se_runtime s /\ se_priv s' = se_priv s /\ (se_tick s' = S (se_tick s)) /\
  se_log s' = Acknowledged m (is_ok r) :: se_log s /\ r <> Err SFuel.
Proof.
  unfold deliver_ack, s_bind, acknowledge_config. destruct (o_ack Net (se_tick s) m) as [[]|e]; by intros [= <- <-].
Qed.
Lemma ack_no_panic m s r s' : s_try (deliver_ack Net m) s = (r, s') -> exists x, r = Ok x /\ deliver_ack Net m s = (x, s').
Proof.
  unfold s_try, deliver_ack, s_bind, acknowledge_config.
  destruct (o_ack Net (se_tick s) m) as [[]|e]; intros [= <- <-]; eauto.
Qed.

(** Keeping a refused acknowledgement. *)
Lemma keep_refused_run p e s x s' :
  Inj (=) (=) (o_uuid Net) -> fresh_ids s -> keep_refused error_text Net p e s = (x, s') ->
  se_runtime s' = se_runtime s /\ forward s s' /\ fresh_ids s' /\ (se_priv s' = None <-> se_priv s = None) /\
  (forall r, r ∈ outbox s -> r ∈ outbox s') /\ (x <> Err SFuel) /\
  (x = Ok tt -> se_priv s' = None \/ exists r, r ∈ outbox s' /\ rc_Kind r = "runtime-rejected" /\ rc_Payload r = p).
Proof.
  intros Hinj Hf. unfold keep_refused. destruct (se_priv s) as [st|] eqn:Ep.
  2: { intros [= <- <-]. split_and!; try done. intros _. by left. }
  unfold s_bind, newUUID, enqueue, s_bind, clock, s_event, on_priv. cbn. rewrite Ep. unfold Enqueue. cbn -[Nat.leb maximum_outbox].
  set (r := mkReceipt (o_uuid Net (se_tick s)) "runtime-rejected" p (error_text e)).
  assert (Hmono : forall s1, (se_tick s <= se_tick s1)%nat -> outbox s1 = outbox s -> fresh_ids s1).
  { intros s1 Hle Ho r1 n Hr Hn. apply Hf; [by rewrite Ho in Hr|lia]. }
  assert (Hout : outbox s = ps_Outbox (pst_state st)) by (unfold outbox; by rewrite Ep).
  destruct (Nat.leb _ _).
  { intros [= <- <-]. simpl. split_and!; try done.
    - split; simpl; [lia|auto].
    - apply Hmono; [simpl; lia|by rewrite Hout].
    - intros r0. by rewrite Hout. }
  destruct (existsb _ _) eqn:Ex.
  { exfalso. apply existsb_In in Ex as (r0 & Hr0 & Hid). apply String.eqb_eq in Hid. simpl in Hid.
    apply (Hf r0 (se_tick s)); [by rewrite Hout|lia|done]. }
  destruct (commit _ _ st (se_world s)) as [[y st'] w'] eqn:Ec. apply commit_state in Ec. intros [= <- <-]. simpl.
  destruct y as [[]|e']; [destruct Ec as [Ec _]|subst st'].
  - assert (Ho : ps_Outbox (pst_state st') = (ps_Outbox (pst_state st) ++ [r])%list) by (by rewrite Ec). split_and!; try done.
    + split; simpl; [lia|auto].
    + intros r1 n Hr Hn. unfold outbox in Hr. simpl in Hr, Hn. rewrite Ho in Hr. apply elem_of_app in Hr as [Hr|Hr].
      * apply Hf; [by rewrite Hout|lia].
      * apply list_elem_of_singleton in Hr as ->. simpl. intros Hx. apply Hinj in Hx. lia.
    + intros r0 Hr. unfold outbox. simpl. rewrite Ho. rewrite Hout in Hr. apply elem_of_app. by left.
    + intros _. right. exists r. split_and!; [|done|done]. unfold outbox. simpl. rewrite Ho. apply elem_of_app. right. by left.
  - split_and!; try done.
    + split; simpl; [lia|auto].
    + apply Hmono; [simpl; lia|by rewrite Hout].
    + intros r0. by rewrite Hout.
Qed.

Lemma finish_runtime_run p s x s' :
  head (queue s) = Some p -> runtime_do (RuntimeConfig.FinishReceipt p) s = (x, s') ->
  se_priv s' = se_priv s /\ se_tick s' = se_tick s /\ se_log s' = se_log s /\ x <> Err SFuel /\
  queue s' = match x with Ok _ => tail (queue s) | Err _ => queue s end.
Proof.
  unfold runtime_do, s_bind, on_runtime, RuntimeConfig.FinishReceipt, save_queue, refuse.
  destruct (rs_receipts (se_runtime s)) as [|q rest] eqn:Eq; [done|]. simpl. intros [= ->]. rewrite String.eqb_refl.
  destruct (persist _ _ (se_world s)) as [[[]|e] w]; intros [= <- <-]; by split_and!.
Qed.

(** ** The runtime queue *)

Lemma settled_mono s s' p :
  (forall e, e ∈ se_log s -> e ∈ se_log s') -> (forall r, r ∈ outbox s -> r ∈ outbox s') -> (se_priv s = None -> se_priv s' = None) ->
  ack_settled s p -> ack_settled s' p.
Proof. intros Hl Ho Hp (m & Hm & [Ha|[Ha [Hn|(r & Hr & Hk)]]]); exists m; (split; [done|]); naive_solver. Qed.

(** One turn of the loop. *)
Lemma flush_turn p fuel s x s' :
  Inj (=) (=) (o_uuid Net) -> fresh_ids s -> head (queue s) = Some p -> p <> "" ->
  flush_runtime error_text Net (S fuel) s = (x, s') ->
  (exists s1, flush_runtime error_text Net fuel s1 = (x, s') /\ queue s1 = tail (queue s) /\ forward s s1 /\ fresh_ids s1 /\
     (forall r, r ∈ outbox s -> r ∈ outbox s1) /\ (se_priv s1 = None <-> se_priv s = None) /\ ack_settled s1 p) \/
  ((exists e, x = Err e /\ e <> SFuel) /\ queue s' = queue s /\ forward s s' /\ fresh_ids s' /\ (forall r, r ∈ outbox s -> r ∈ outbox s') /\
     (se_priv s' = None <-> se_priv s = None)).
Proof.
  intros Hinj Hf Hh Hp H. cbn [flush_runtime] in H.
  rewrite (bind_ok _ _ s p s) in H by (unfold runtime_receipt, next_receipt; by rewrite Hh). cbv beta in H.
  destruct (slen p =? 0) eqn:Ez; [exfalso; apply Hp; apply slen_zero; zbool|].
  destruct (wire_unmarshal p) as [m|] eqn:Em; [|injection H as <- <-; right; split_and!; eauto; done].
  rewrite (bind_ok _ _ s m s) in H by done. cbv beta in H.
  destruct (s_try (deliver_ack Net m) s) as [y s1] eqn:Ea. pose proof Ea as Ey. apply ack_no_panic in Ea as (r & -> & Ea).
  rewrite (bind_ok _ _ _ _ _ Ey) in H. cbv beta in H. clear Ey.
  apply ack_run in Ea as (Hr1 & Hp1 & Ht1 & Hl1 & Hnf).
  assert (Hfw : forward s s1) by (split; [lia|]; rewrite Hl1; intros e He; by right).
  assert (Hfr : fresh_ids s1).
  { intros r0 n Hr Hn. apply Hf; [|lia]. unfold outbox in *. by rewrite Hp1 in Hr. }
  assert (Hout : outbox s1 = outbox s) by (unfold outbox; by rewrite Hp1).
  (* what was done with the answer *)
  destruct ((match r with
             | Ok _ => s_ret tt
             | Err e => if refusal e then keep_refused error_text Net p e else s_err e
             end) s1) as [z s2] eqn:Ek.
  pose proof Ek as Ek'.
  assert (Hk : se_runtime s2 = se_runtime s1 /\ forward s1 s2 /\ fresh_ids s2 /\ (se_priv s2 = None <-> se_priv s1 = None) /\
    (forall r, r ∈ outbox s1 -> r ∈ outbox s2) /\ z <> Err SFuel /\
    (z = Ok tt -> r = Ok tt \/ se_priv s2 = None \/ exists r, r ∈ outbox s2 /\ rc_Kind r = "runtime-rejected" /\ rc_Payload r = p)).
  { destruct r as [[]|e]; [injection Ek as <- <-; split_and!; try done; by left|].
    destruct (refusal e) eqn:Er; [|injection Ek as <- <-; split_and!; try done; congruence].
    apply keep_refused_run in Ek as (? & ? & ? & ? & ? & ? & Hz); [|done|done]. split_and!; try done. intros Hz'. right. by apply Hz. }
  destruct Hk as (Hr2 & Hfw2 & Hfr2 & Hp2 & Ho2 & Hz & Hkept). destruct z as [[]|e].
  2: { rewrite (bind_err _ _ _ _ _ Ek') in H. injection H as <- <-. right. split_and!; [exists e; split; congruence|by rewrite Hr2, Hr1|by etransitivity|done| |by rewrite Hp2, Hp1].
       intros r0 Hr0. apply Ho2. by rewrite Hout. }
  rewrite (bind_ok _ _ _ _ _ Ek') in H. cbv beta in H. clear Ek'.
  destruct (runtime_do (RuntimeConfig.FinishReceipt p) s2) as [f s3] eqn:Ef. pose proof Ef as Ef'.
  assert (Hq2 : queue s2 = queue s) by (by rewrite Hr2, Hr1).
  apply finish_runtime_run in Ef as (Hp3 & Ht3 & Hl3 & Hf3 & Hq3); [|by rewrite Hq2].
  assert (Hfw3 : forward s s3) by (etransitivity; [exact Hfw|]; etransitivity; [exact Hfw2|]; split; [lia|by rewrite Hl3]).
  assert (Hout3 : outbox s3 = outbox s2) by (unfold outbox; by rewrite Hp3).
  assert (Hfr3 : fresh_ids s3) by (intros r0 n Hr0 Hn; apply Hfr2; [by rewrite <- Hout3|lia]).
  assert (Hkeep : forall r, r ∈ outbox s -> r ∈ outbox s3) by (intros r0 Hr0; rewrite Hout3; apply Ho2; by rewrite Hout).
  assert (Hnone : se_priv s3 = None <-> se_priv s = None) by (by rewrite Hp3, Hp2, Hp1).
  destruct f as [[]|e]; [rewrite (bind_ok _ _ _ _ _ Ef') in H|rewrite (bind_err _ _ _ _ _ Ef') in H; injection H as <- <-; right; split_and!; try done; [exists e; split; congruence|congruence]].
  left. exists s3. split_and!; try done; [congruence|]. exists m. split; [done|].
  assert (Hin : Acknowledged m (is_ok r) ∈ se_log s3) by (rewrite Hl3; apply Hfw2; rewrite Hl1; by left).
  destruct (Hkept eq_refl) as [->|Hk]; [by left|]. destruct r as [[]|e]; [by left|]. right. split; [done|].
  rewrite Hp3, Hout3. naive_solver.
Qed.


(** ** The privileged outbox *)

(** The panel accepted [e]. *)
Definition told (e : Receipt) (s : Session) : Prop :=
  (exists m, rc_Kind e = "privileged" /\ wire_unmarshal (rc_Payload e) = Some m /\ Reported m true ∈ se_log s) \/
  (exists m b, rc_Kind e = "runtime" /\ wire_unmarshal (rc_Payload e) = Some m /\ Acknowledged m b ∈ se_log s).
(** A copy of [e] is kept with the reason it was refused for. *)
Definition kept (e : Receipt) (s : Session) : Prop := exists t why, why <> "" /\ reject rfc3339 t why e ∈ rejected s.
(** Identifiers are unique and no rejected copy has to be dropped. *)
Record orderly (s : Session) : Prop := {
  od_ids : NoDup (map rc_ID (outbox s));
  od_room : (length (outbox s) + length (rejected s) <= maximum_rejected)%nat;
}.
(** From [s] to [s']: nothing is lost. *)
Record lossless (s s' : Session) : Prop := {
  ll_orderly : orderly s -> orderly s';
  ll_sub : forall e, e ∈ outbox s' -> e ∈ outbox s;
  ll_log : forall e, e ∈ se_log s -> e ∈ se_log s';
  ll_rejected : orderly s -> forall r, r ∈ rejected s -> r ∈ rejected s';
  ll_kept : orderly s -> forall e, e ∈ outbox s -> e ∈ outbox s' \/ told e s' \/ kept e s';
}.
#[local] Instance lossless_preorder : PreOrder lossless.
Proof.
  split; [split; auto|]. intros a b c [A1 A2 A3 A4 A5] [B1 B2 B3 B4 B5]. split; auto.
  intros Ho e He. destruct (A5 Ho e He) as [Hb|[Ht|(t & why & Hw & Hk)]].
  - by apply B5; [apply A1|].
  - right. left. destruct Ht as [(m & ? & ? & ?)|(m & b' & ? & ? & ?)]; [left; exists m|right; exists m, b']; split_and!; auto.
  - right. right. exists t, why. split; [done|]. apply B4; auto.
Qed.
Lemma lossless_quiet s s' : se_priv s' = se_priv s -> (forall e, e ∈ se_log s -> e ∈ se_log s') -> lossless s s'.
Proof.
  intros Hp Hl. assert (Ho : outbox s' = outbox s) by (unfold outbox; by rewrite Hp).
  assert (Hr : rejected s' = rejected s) by (unfold rejected; by rewrite Hp).
  split; rewrite ?Ho, ?Hr; auto. intros [H1 H2]. split; by rewrite ?Ho, ?Hr.
Qed.
#[local] Instance outward_lossless : Inward lossless.
Proof.
  split; [exact _|]. intros s s' [Hp _ _ _ (l & Hl & _)]. apply lossless_quiet; [done|]. intros e He. rewrite Hl. apply elem_of_app. by right.
Qed.

Lemma length_filter_split {A} (f : A -> bool) l :
  (length (List.filter (fun x => negb (f x)) l) + length (List.filter f l) = length l)%nat.
Proof. induction l as [|x l IH]; simpl; [done|]. destruct (f x); simpl; lia. Qed.
Lemma in_filter {A} (f : A -> bool) l x : x ∈ List.filter f l <-> x ∈ l /\ f x = true.
Proof. rewrite !list_elem_of_In. apply filter_In. Qed.
Lemma filter_ids (f : Receipt -> bool) l : NoDup (map rc_ID l) -> NoDup (map rc_ID (List.filter f l)).
Proof.
  induction l as [|r l IH]; simpl; [done|]. intros [Hn Hd]%NoDup_cons. destruct (f r); simpl; [|by apply IH].
  apply NoDup_cons. split; [|by apply IH]. intros (r' & Hr' & Hin)%list_elem_of_fmap. apply Hn, list_elem_of_fmap.
  apply in_filter in Hin as [Hin _]. by exists r'.
Qed.
Lemma same_id_same l (a b : Receipt) : NoDup (map rc_ID l) -> a ∈ l -> b ∈ l -> rc_ID a = rc_ID b -> a = b.
Proof.
  induction l as [|r l IH]; simpl; [set_solver|]. intros [Hn Hd]%NoDup_cons Ha Hb Hid.
  apply elem_of_cons in Ha as [->|Ha], Hb as [->|Hb]; [done| | |by apply IH]; exfalso; apply Hn, list_elem_of_fmap; eauto.
Qed.

(** Finishing the receipt [e]: it was told, or there is a reason. *)
Lemma finish_lossless e why s x s' :
  (e ∈ outbox s -> why = "" -> told e s) -> (forall e', e' ∈ outbox s -> rc_ID e' = rc_ID e -> e' = e) ->
  finish rfc3339 Net (rc_ID e) why s = (x, s') -> lossless s s'.
Proof.
  intros Hwhy Hid H. unfold finish in H. rewrite (bind_ok _ _ s (o_now Net (se_tick s)) (ticked_log [] s)) in H by done. cbv beta in H.
  set (s1 := ticked_log [] s) in *.
  rewrite (bind_ok _ _ s1 (o_now Net (se_tick s1)) (ticked_log [] s1)) in H by done. cbv beta in H. set (s2 := ticked_log [] s1) in *.
  assert (Hout : outbox s2 = outbox s) by done. assert (Hrej : rejected s2 = rejected s) by done. assert (Hlog : se_log s2 = se_log s) by done.
  unfold on_priv in H. destruct (se_priv s2) as [st|] eqn:Ep; [|injection H as <- <-; apply lossless_quiet; [done|by rewrite Hlog]].
  destruct (Privileged.FinishReceipt _ _ _ _ _ st (se_world s2)) as [[r st'] w'] eqn:Ef. injection H as <- <-.
  unfold Privileged.FinishReceipt in Ef. apply commit_state in Ef. destruct r as [[]|er]; [destruct Ef as [Ef _]|subst st'].
  2: { apply lossless_quiet; [done|by rewrite <- Hlog]. }
  set (ob := ps_Outbox (pst_state st)) in *. set (rj := ps_RejectedReceipts (pst_state st)) in *.
  assert (Hob : outbox s = ob) by (rewrite <- Hout; unfold outbox; by rewrite Ep).
  assert (Hrj : rejected s = rj) by (rewrite <- Hrej; unfold rejected; by rewrite Ep).
  set (s' := with_priv st' w' s2). assert (Hl' : se_log s' = se_log s) by done.
  assert (Hob' : outbox s' = List.filter (fun r => negb (rc_ID r =? rc_ID e)%string) ob) by (unfold outbox, s'; simpl; by rewrite Ef).
  set (t := o_now Net (se_tick s)) in *.
  set (full := if (why =? "")%string then rj else (rj ++ map (reject rfc3339 t why) (List.filter (fun r => rc_ID r =? rc_ID e)%string ob))%list) in *.
  assert (Hfull : orderly s -> rejected s' = full).
  { intros [_ Hroom]. unfold rejected, s'. simpl. rewrite Ef. simpl. fold ob rj full.
    destruct (Nat.ltb _ _) eqn:El; [|done]. exfalso. apply Nat.ltb_lt in El. rewrite Hob, Hrj in Hroom.
    pose proof (length_filter_split (fun r => rc_ID r =? rc_ID e)%string ob) as Hsp; cbv beta in Hsp. unfold full in El.
    destruct (why =? "")%string; [lia|]. rewrite length_app, length_map in El. lia. }
  split.
  - intros Ho. pose proof (Hfull Ho) as Hf. destruct Ho as [Hd Hroom]. split; rewrite Hob'; [apply filter_ids; by rewrite <- Hob|].
    rewrite Hf. rewrite Hob, Hrj in Hroom. pose proof (length_filter_split (fun r => rc_ID r =? rc_ID e)%string ob) as Hsp; cbv beta in Hsp. unfold full.
    destruct (why =? "")%string; [lia|]. rewrite length_app, length_map. lia.
  - intros e0 He. rewrite Hob' in He. apply in_filter in He as [He _]. by rewrite Hob.
  - by rewrite Hl'.
  - intros Ho r Hr. rewrite (Hfull Ho). unfold full. rewrite Hrj in Hr. destruct (why =? "")%string; [done|]. apply elem_of_app. by left.
  - intros Ho e0 He. destruct (rc_ID e0 =? rc_ID e)%string eqn:Eid.
    + apply String.eqb_eq in Eid. pose proof (Hid e0 He Eid) as ->. right. destruct (why =? "")%string eqn:Ew.
      * apply String.eqb_eq in Ew. left. destruct (Hwhy He Ew) as [(m & ? & ? & ?)|(m & b' & ? & ? & ?)];
          [left; exists m|right; exists m, b']; by rewrite Hl'.
      * right. exists t, why. split; [by apply String.eqb_neq|]. rewrite (Hfull Ho). unfold full. rewrite ?Ew.
        apply elem_of_app. right. apply list_elem_of_fmap. exists e. split; [done|]. apply in_filter. rewrite <- Hob. split; [done|by apply String.eqb_eq].
    + left. rewrite Hob'. apply in_filter. rewrite <- Hob. by rewrite Eid.
Qed.

Lemma lossless_report m : Keeps lossless (report_delivery Net m).
Proof. intros s x s' [= <- <-]. apply lossless_quiet; [done|]. intros e He. simpl. by right. Qed.
Lemma lossless_saved m : Keeps lossless (validateSavedHostObservation lstat is_regular describe C m).
Proof. apply keeps_outward; [exact _|]. apply outward_validateSaved. Qed.
#[local] Hint Resolve lossless_report lossless_saved : keeps.
Lemma lossless_send e : Keeps lossless (send_entry lstat is_regular describe Net C e).
Proof. unfold send_entry, deliver_report. keeps_steps. Qed.
Lemma send_told e s s' : send_entry lstat is_regular describe Net C e s = (Ok tt, s') -> told e s'.
Proof.
  unfold send_entry. destruct (rc_Kind e =? "privileged")%string eqn:E1.
  - intros H. apply bind_inv in H as (m & s1 & Hm & H). apply some_inv in Hm as [Hm ->].
    apply bind_inv in H as ([] & s2 & _ & H). unfold deliver_report, report_delivery, s_bind in H.
    destruct (o_report Net (se_tick s2) m) as [[]|er] eqn:Er; try done. injection H as <-. left. exists m. apply String.eqb_eq in E1.
    split_and!; [done|done|]. simpl. by left.
  - destruct (rc_Kind e =? "runtime")%string eqn:E2; [|done].
    intros H. apply bind_inv in H as (m & s1 & Hm & H). apply some_inv in Hm as [Hm ->]. unfold acknowledge_config, s_bind in H.
    destruct (o_ack Net (se_tick s) m) as [b|er] eqn:Er; [|done]. injection H as <-. right. exists m, b. apply String.eqb_eq in E2.
    split_and!; [done|done|]. simpl. by left.
Qed.

(** Entries the agent itself refused carry the reason. *)
Definition reasoned (l : list Receipt) : Prop :=
  Forall (fun e => rc_Kind e = "runtime-rejected" -> rc_Rejected e <> "") l.

Lemma try_ok_inv {A} (m : SM A) s r s' : s_try m s = (Ok r, s') -> m s = (r, s').
Proof. unfold s_try. destruct (m s) as [[a|e] s1]; [by intros [= <- <-]|]. destruct e; intros [=]; by subst. Qed.

Lemma flush_entry_lossless e first s x s' :
  (forall err, error_text err <> "") -> (rc_Kind e = "runtime-rejected" -> rc_Rejected e <> "") ->
  (forall e', e' ∈ outbox s -> rc_ID e' = rc_ID e -> e' = e) ->
  flush_entry rfc3339 error_text lstat is_regular describe Net C e first s = (x, s') -> lossless s s'.
Proof.
  intros Htext Hreason Hid H. unfold flush_entry in H.
  assert (Hfin : forall why s1 (y : result (option sess_err) sess_err) s2 k, lossless s s1 -> (why = "" -> told e s1) ->
    (finish rfc3339 Net (rc_ID e) why ;;; s_ret k) s1 = (y, s2) -> lossless s s2).
  { intros why s1 y s2 k Hl Ht Hf. transitivity s1; [done|]. unfold s_bind in Hf.
    destruct (finish rfc3339 Net (rc_ID e) why s1) as [z s3] eqn:Ef.
    assert (s2 = s3) as -> by (destruct z; by injection Hf as _ <-).
    eapply finish_lossless; [|clear Hf|exact Ef]; [auto|]. intros e' He' Hi. apply Hid; [|done]. by apply Hl. }
  destruct (rc_Kind e =? "runtime-rejected")%string eqn:Ek.
  { apply String.eqb_eq in Ek. eapply (Hfin _ s); [reflexivity| |exact H]. intros Hr. by apply Hreason in Hr. }
  destruct (s_try (send_entry lstat is_regular describe Net C e) s) as [r s1] eqn:Es. pose proof Es as Es'.
  assert (Hl : lossless s s1) by (eapply keeps_try; [apply lossless_send|exact Es]).
  destruct r as [r|er]; [|rewrite (bind_err _ _ _ _ _ Es') in H; by injection H as <- <-].
  rewrite (bind_ok _ _ _ _ _ Es') in H. cbv beta in H. apply try_ok_inv in Es. destruct r as [[]|err].
  - eapply (Hfin _ s1); [done| |exact H]. intros _. by apply send_told in Es.
  - assert (Hcase : forall b : bool, (if b then finish rfc3339 Net (rc_ID e) (error_text err) ;;; s_ret first
                      else s_ret (Some (default err first))) s1 = (x, s') -> lossless s s').
    { intros [] Hb; [|by injection Hb as <- <-]. eapply (Hfin _ s1); [done| |exact Hb]. intros Hx. by destruct (Htext err). }
    destruct err; try (by eapply Hcase). eapply (Hfin _ s1); [done| |exact H]. intros Hx. by destruct (Htext SInvalidObservation).
Qed.

(** Flushing the privileged outbox loses no receipt: with unique
    identifiers and room among the refused ones, every receipt that was waiting
    is still waiting, or the panel was told, or a copy is kept with the reason
    it was refused for, whatever calls fail on the way; nothing is added. *)
Theorem flush_entries_accounts l first s x s' :
  (forall err, error_text err <> "") -> reasoned l -> orderly s -> l ⊆ outbox s ->
  flush_entries rfc3339 error_text lstat is_regular describe Net C l first s = (x, s') ->
  orderly s' /\ outbox s' ⊆ outbox s /\
  forall e, e ∈ outbox s -> e ∈ outbox s' \/ told e s' \/ kept e s'.
Proof.
  intros Htext Hr Ho Hl H.
  assert (Hgen : forall l first s1, lossless s s1 -> reasoned l ->
    (forall e e', e ∈ l -> e' ∈ outbox s -> rc_ID e' = rc_ID e -> e' = e) ->
    flush_entries rfc3339 error_text lstat is_regular describe Net C l first s1 = (x, s') -> lossless s s').
  { clear - Htext. intros l. induction l as [|e l IH]; intros first s1 Hs Hr Hids H; [by injection H as <- <-|].
    simpl in H. apply Forall_cons in Hr as [He Hr].
    destruct (flush_entry rfc3339 error_text lstat is_regular describe Net C e first s1) as [y s2] eqn:Ee.
    assert (Hs2 : lossless s s2).
    { transitivity s1; [done|]. eapply flush_entry_lossless; [done|exact He| |exact Ee]. intros e' He' Hid.
      apply (Hids e); [by left|by apply Hs|done]. }
    destruct y as [first'|er]; [rewrite (bind_ok _ _ _ _ _ Ee) in H|rewrite (bind_err _ _ _ _ _ Ee) in H; by injection H as <- <-].
    eapply IH; [exact Hs2|done| |exact H]. intros e0 e' He0. apply Hids. by right. }
  apply Hgen in H as [H1 H2 _ _ H5]; [split_and!; auto|reflexivity|done|].
  intros e e' He He' Hid. eapply (same_id_same (outbox s)); [by destruct Ho|done|by apply Hl|done].
Qed.

(** ** What is reported *)

(** What an observation claims is so on this host: an explicit local deny is
    respected, and the result of a host operation is the one on record, under
    the identity and policy it names. *)
Definition describes_host (m : DeliveryReport) : Prop :=
  let o := dr_Observation m in
  (localDeny C = true -> observed_cap caps_RemoteControl o = false /\ observed_cap caps_Webssh o = false /\
     observed_cap caps_Execution o = false) /\
  forall ob, o = Some ob -> ob_OperationId ob <> "" ->
    ob_PrivilegeMode ob = cl_mode C /\
    exists mf w p w' record w1 w2 r op,
      cl_hostManifest C = Some mf /\
      ReadPolicy lstat is_regular (Some mf) w = (Ok p, w') /\ po_PrivilegeMode p = ob_PrivilegeMode ob /\
      po_HelperInstalled p = ob_HelperInstalled ob /\ po_HelperAuthorized p = ob_HelperAuthorized ob /\
      ReadJSON lstat is_regular (AppliedPath mf) true w1 = (Ok record, w2) /\ ap_Version record = 2 /\
      wire_unmarshal (ap_Revision record) = Some r /\ wire_unmarshal (ap_Operation record) = Some op /\
      pr_revision r = ob_Revision ob /\ pr_config_hash r = ob_ConfigHash ob /\
      pr_approval_generation r = ob_ApprovalGeneration ob /\ ho_operation_id op = ob_OperationId ob.

Lemma on_world_ok {A E} (f : World -> result A E * World) wrap s a s' :
  on_world f wrap s = (Ok a, s') -> exists w', f (se_world s) = (Ok a, w').
Proof. unfold on_world. destruct (f (se_world s)) as [[b|e] w]; [intros [= -> _]; eauto|done]. Qed.

Lemma validateSaved_ok m s s' :
  validateSavedHostObservation lstat is_regular describe C m s = (Ok tt, s') -> describes_host m.
Proof.
  unfold validateSavedHostObservation, describes_host. intros H.
  destruct (localDeny C && _) eqn:Ed; [done|]. split.
  { intros Hd. rewrite Hd in Ed. simpl in Ed. by apply orb_false_iff in Ed as [[? ?]%orb_false_iff ?]. }
  intros ob Hob Hop. rewrite Hob in H. clear Ed. apply String.eqb_neq in Hop. rewrite Hop in H.
  destruct (cl_hostManifest C) as [mf|]; [|done]. destruct (cl_hostTrust C); [|done].
  apply bind_inv in H as (p & s1 & Hp & H). apply on_world_ok in Hp as (w' & Hp).
  apply bind_inv in H as (mode & s2 & Hm & H). apply mode_spec in Hm. injection Hm as ->.
  apply bind_inv in H as ([] & s3 & Hq & H). apply require_inv in Hq as [Hq ->].
  apply bind_inv in H as (rec & s4 & Hrec & H). apply try_ok_inv in Hrec. destruct rec as [record|e]; [|by destruct (not_exist _ _ _)].
  apply on_world_ok in Hrec as (w2 & Hrec).
  apply bind_inv in H as (r & s5 & Hr & H). apply some_inv in Hr as [Hr ->].
  apply bind_inv in H as (op & s6 & Ho & H). apply some_inv in Ho as [Ho ->]. apply require_inv in H as [H _].
  apply andb_true_iff in Hq as [[[Hq1 Hq2]%andb_true_iff Hq3]%andb_true_iff Hq4].
  apply andb_true_iff in H as [[[[H1 H2]%andb_true_iff H3]%andb_true_iff H4]%andb_true_iff H5].
  rewrite Z.eqb_eq in Hq1, Hq2, H1, H2, H4. rewrite String.eqb_eq in H3, H5. apply Bool.eqb_prop in Hq3, Hq4.
  split; [done|]. exists mf, (se_world s), p, w', record, (se_world s2), w2, r, op. by split_and!.
Qed.

(** Every new report was checked. *)
Definition checked (s s' : Session) : Prop :=
  forall m a, Reported m a ∈ se_log s' -> Reported m a ∈ se_log s \/ describes_host m.
#[local] Instance checked_preorder : PreOrder checked.
Proof. split; [by left|]. intros a b c Hab Hbc m d Hm. destruct (Hbc m d Hm) as [H|H]; auto. Qed.
Lemma checked_same s s' : se_log s' = se_log s -> checked s s'.
Proof. intros Hl m a. rewrite Hl. auto. Qed.
#[local] Instance outward_checked_ : Inward checked.
Proof.
  split; [exact _|]. intros s s' [_ _ _ _ (l & Hl & Hq)] m a. rewrite Hl. intros [Hm|Hm]%elem_of_app; [|by left].
  rewrite Forall_forall in Hq. by apply Hq in Hm.
Qed.
Lemma checked_priv {A} (op : Privileged.Op A) : Keeps checked (on_priv op).
Proof.
  intros s x s'. unfold on_priv. destruct (se_priv s); [|by intros [= <- <-]].
  destruct (op _ _) as [[r p] w]. intros [= <- <-]. by apply checked_same.
Qed.
Lemma checked_runtime op : Keeps checked (runtime_do op).
Proof.
  unfold runtime_do. apply session_bind; [exact _| |].
  - intros s x s'. unfold on_runtime. destruct (op _ _) as [[r p] w]. intros [= <- <-]. by apply checked_same.
  - intros [sn [e|]]; simpl; keeps_steps.
Qed.
#[local] Hint Resolve checked_priv checked_runtime : keeps.
Lemma checked_enqueue id kind payload rej : Keeps checked (enqueue Net id kind payload rej).
Proof. unfold enqueue. keeps_steps. Qed.
Lemma checked_finish id why : Keeps checked (finish rfc3339 Net id why).
Proof. unfold finish. keeps_steps. Qed.
#[local] Hint Resolve checked_enqueue checked_finish : keeps.
Lemma checked_refused p e : Keeps checked (keep_refused error_text Net p e).
Proof. intros s x s' H. unfold keep_refused in H. destruct (se_priv s); [keeps_run checked H|by injection H as <- <-]. Qed.
Lemma checked_ack m : Keeps checked (deliver_ack Net m).
Proof. unfold deliver_ack. keeps_steps. Qed.
#[local] Hint Resolve checked_refused checked_ack : keeps.
Lemma checked_flush_runtime fuel : Keeps checked (flush_runtime error_text Net fuel).
Proof. induction fuel as [|fuel IH]; simpl; [apply keeps_err, _|]. keeps_steps. Qed.
Lemma checked_send e : Keeps checked (send_entry lstat is_regular describe Net C e).
Proof.
  unfold send_entry. destruct (_ =? _)%string; [|keeps_steps]. apply session_bind; [exact _|keeps_steps|]. intros m s x s' H.
  destruct (validateSavedHostObservation lstat is_regular describe C m s) as [y s1] eqn:Ev. pose proof Ev as Hc.
  apply outward_validateSaved in Hc. apply (inward (R := checked)) in Hc.
  destruct y as [[]|e']; [rewrite (bind_ok _ _ _ _ _ Ev) in H|rewrite (bind_err _ _ _ _ _ Ev) in H; by injection H as <- <-].
  transitivity s1; [done|]. apply validateSaved_ok in Ev. intros m' a Hm.
  assert (Hlog : se_log s' = Reported m (match o_report Net (se_tick s1) m with Ok a => a | Err _ => false end) :: se_log s1).
  { revert H. unfold deliver_report, s_bind, report_delivery. destruct (o_report Net (se_tick s1) m) as [[]|]; by intros [= <- <-]. }
  rewrite Hlog in Hm. apply elem_of_cons in Hm as [[= -> ->]|Hm]; auto.
Qed.
#[local] Hint Resolve checked_flush_runtime checked_send : keeps.
Lemma checked_flush_entries l first : Keeps checked (flush_entries rfc3339 error_text lstat is_regular describe Net C l first).
Proof. revert first. induction l as [|e l IH]; intros first; simpl; unfold flush_entry; keeps_steps. Qed.
#[local] Hint Resolve checked_flush_entries : keeps.

End Receipts.
