(* ===== verification/Baseline.v ===== *)
(** * Initialising a fresh installation

    What [initializeHost] may send and adopt, the stability of its request over
    retries, and the reconciliation at start-up. *)

From S2P Require Import Prelude.
From S2P Require Import GoStd.
From S2P Require Import GoPath.
From S2P Require Import Disk.
From S2P Require Import External.
From S2P Require Import Credentials.
From S2P Require Import Replay.
From S2P Require Import Signing.
From S2P Require Import Privileged.
From S2P Require Import HostOps.
From S2P Require Import RuntimeConfig.
From S2P Require Import Effective.
From S2P Require Import HostFs.
From S2P Require Import HostService.
From S2P Require Import HostPanel.
From S2P Require Import HostTx.
From S2P Require Import Session.
From S2P Require Import Delivery.
From S2P Require Import Grants.
From S2P Require Import Receipts.

Local Open Scope string_scope.
Local Open Scope Z_scope.
Local Open Scope session_scope.

Section Baseline.
Context `{CR : Crypto} `{PT : ProtoTime} `{PE : ProtoEnums} `{SE : SessionEnums} `{PD : ProtoDuration}.
Context `{WR : Wire PrivilegedRevision} `{WO : Wire HostOperation} `{WI : Wire SignedInstruction}.
Context `{WD : Wire DeliveryReport} `{WA : Wire RuntimeAck} `{WP : Wire Proposal}.
Context `{JS : Json Privileged.State} `{JP : Json persistedState} `{JE : Json (option entries)}.
Context `{SMf : StrictJson Manifest} `{SPo : StrictJson HostOps.Policy} `{SAp : StrictJson AppliedRecord}.
Context `{STr : StrictJson Trust} `{SHs : StrictJson HelperStatus}.
Variable iter : entries -> list (string * time).
Variable rfc3339 : time -> string.
Variable error_text : sess_err -> string.
Variable lstat : string -> option Stat.
Variable is_regular : string -> bool.
Variable describe : host_err -> string.
Variable parse_url : string -> option Url.
Variable populated : Snapshot -> list Z.
Context (HE : HostFs.Env) (euid : Z) (Net : Outside) (C : Client).

Abbreviation flush := (flushReceipts rfc3339 error_text lstat is_regular describe Net C).
Abbreviation load := (load_proposal is_regular populated C).

(** ** The request is drawn up once *)

Lemma on_world_err {A E} (f : World -> result A E * World) wrap s e s' :
  on_world f wrap s = (Err e, s') -> exists e0, e = wrap e0.
Proof. unfold on_world. destruct (f (se_world s)) as [[b|e0] w]; [done|intros [= <- _]; eauto]. Qed.

Lemma read_file_ok path w data w' :
  read_file path w = (Ok data, w') -> exists mode, w_fs w !! path = Some (mkFile data mode) /\ w_fs w' = w_fs w.
Proof.
  unfold read_file, call. destruct (hd false (w_faults w)); [done|]. simpl. destruct (w_fs w !! path) as [[d m]|]; [|done].
  intros [= -> <-]. by exists m.
Qed.

(** A successful write leaves the complete file. *)
Lemma io_bind_ok {A B} (m : IO A) (k : A -> IO B) w b w' :
  io_bind m k w = (Ok b, w') -> exists a w1, m w = (Ok a, w1) /\ k a w1 = (Ok b, w').
Proof. unfold io_bind. destruct (m w) as [[a|e] w1]; [eauto|done]. Qed.
Lemma pure_ok op w a w' : pure_call op w = (Ok a, w') -> w_fs w' = w_fs w.
Proof. unfold pure_call, call. destruct (hd false (w_faults w)); [done|]. by intros [= <- <-]. Qed.
Lemma create_ok d prefix w name w' :
  create_temp d prefix w = (Ok name, w') -> (exists r, name = temp_name d prefix r) /\ w_fs w' = <[name := mkFile "" 384]> (w_fs w).
Proof.
  unfold create_temp, call. destruct (hd false (w_faults w)); [done|]. simpl.
  destruct (pick_temp (w_fs w) d prefix (w_rand w)) as [[n rs]|] eqn:E; [|done]. intros [= <- <-]. split; [|done].
  revert E. generalize (w_rand w). intros l. induction l as [|r l IH]; simpl; [done|].
  destruct (w_fs w !! temp_name d prefix r); [done|]. intros [= <- _]. by exists r.
Qed.
Lemma chmod_ok name mode w a w' f :
  w_fs w !! name = Some f -> chmod name mode w = (Ok a, w') -> w_fs w' = <[name := mkFile (f_data f) mode]> (w_fs w).
Proof. intros Hf. unfold chmod, call. destruct (hd false (w_faults w)); [done|]. simpl. rewrite Hf. by intros [= <- <-]. Qed.
Lemma write_ok name data w a w' f :
  w_fs w !! name = Some f -> write_file name data w = (Ok a, w') -> w_fs w' = <[name := mkFile (f_data f ++ data) (f_mode f)]> (w_fs w).
Proof. intros Hf. unfold write_file, call. destruct (hd false (w_faults w)); [done|]. simpl. rewrite Hf. by intros [= <- <-]. Qed.
Lemma io_rename_ok from to w a w' f :
  w_fs w !! from = Some f -> rename from to w = (Ok a, w') -> w_fs w' = <[to := f]> (delete from (w_fs w)).
Proof. intros Hf. unfold rename, call. destruct (hd false (w_faults w)); [done|]. simpl. rewrite Hf. by intros [= <- <-]. Qed.

Lemma atomicWrite_ok path data mode w w' :
  (forall r, temp_name (dir path) ".komari-" r <> path) ->
  atomicWrite is_regular path data mode (-1) (-1) w = (Ok tt, w') -> w_fs w' !! path = Some (mkFile data mode).
Proof.
  intros Htemp. unfold atomicWrite. destruct (_ && _); [done|]. destruct (io_bind _ _ w) as [[[]|e] w1] eqn:E; intros [= <-].
  apply io_bind_ok in E as (name & w2 & Hc & E). apply create_ok in Hc as ((r & ->) & H2).
  set (name := temp_name (dir path) ".komari-" r) in *. assert (Hne : name <> path) by apply Htemp.
  unfold with_removed in E. match type of E with (let (_, _) := ?m in _) = _ => destruct m as [x w3] eqn:Eb end. destruct (remove name w3) as [y w4] eqn:Er. injection E as -> <-.
  apply io_bind_ok in Eb as ([] & w5 & Hw & Eb). apply io_bind_ok in Eb as ([] & w6 & Hr & Eb). apply pure_ok in Eb.
  unfold write_and_close in Hw. match type of Hw with (let (_, _) := ?m in _) = _ => destruct m as [x w7] eqn:Ef end. destruct (close_file name w7) as [c w8] eqn:Ec.
  destruct x as [[]|]; [|done]. injection Hw as -> ->. apply pure_ok in Ec.
  apply io_bind_ok in Ef as ([] & w9 & [= <-] & Ef). apply io_bind_ok in Ef as ([] & w10 & Hch & Ef).
  apply io_bind_ok in Ef as ([] & w11 & Hwr & Ef). apply pure_ok in Ef.
  eapply chmod_ok in Hch; [|by rewrite H2, lookup_insert_eq]. eapply write_ok in Hwr; [|by rewrite Hch, lookup_insert_eq].
  simpl in Hwr. eapply io_rename_ok in Hr; [|by rewrite Ec, Ef, Hwr, lookup_insert_eq].
  assert (H3 : w_fs w3 !! path = Some (mkFile data mode)) by (by rewrite Eb, Hr, lookup_insert_eq).
  revert Er. unfold remove, call. destruct (hd false (w_faults w3)); [by intros [= _ <-]|]. simpl.
  destruct (w_fs w3 !! name); intros [= _ <-]; simpl; [by rewrite lookup_delete_ne|done].
Qed.

(** The initialisation request is drawn up once: whatever was sent first is
    what every later start sends, as long as the saved file is there; a start
    that cannot read it back sends nothing. *)
Theorem proposal_is_stable path m p actual s pp s1 m2 p2 actual2 s2 r s3 :
  (forall q b, wire_marshal q = Some b -> wire_unmarshal b = Some q) ->
  (forall r, temp_name (dir path) ".komari-" r <> path) ->
  load path m p actual s = (Ok (Some pp), s1) ->
  w_fs (se_world s2) !! path = w_fs (se_world s1) !! path ->
  load path m2 p2 actual2 s2 = (r, s3) ->
  r = Ok (Some pp) \/ exists e, r = Err e.
Proof.
  intros Hrt Htemp H Hsame H2.
  assert (Hsaved : exists data mode, w_fs (se_world s1) !! path = Some (mkFile data mode) /\ wire_unmarshal data = Some pp).
  { unfold load_proposal in H. apply bind_inv in H as (data & sa & Hd & H). apply try_ok_inv in Hd. destruct data as [data|e].
    - apply bind_inv in H as ([] & sb & Hq & H). apply require_inv in Hq as [_ ->].
      apply bind_inv in H as (q & sc & Hu & H). apply some_inv in Hu as [Hu ->]. injection H as <- <-.
      assert (Hw : exists mode, w_fs (se_world sa) !! path = Some (mkFile data mode)); [|naive_solver].
      revert Hd. unfold on_world. destruct (read_file path (se_world s)) as [[d|] w] eqn:Er; [|done]. intros [= -> <-].
      apply read_file_ok in Er as (mode & ? & Hf). exists mode. simpl. by rewrite Hf.
    - destruct e; try done. match goal with e0 : io_err |- _ => destruct e0; try done end.
      unfold draw_proposal in H. apply bind_inv in H as (st & sb & _ & H). destruct (_ || _); [done|].
      apply bind_inv in H as (rt & sc & _ & H). apply bind_inv in H as (pd & sd & _ & H). apply bind_inv in H as (a & se & _ & H).
      apply bind_inv in H as ([] & sf & Hs & H). injection H as <- <-. unfold save_proposal in Hs.
      apply bind_inv in Hs as (data & sg & Hm & Hs). apply some_inv in Hm as [Hm ->].
      apply bind_inv in Hs as ([] & sh & _ & Hs). exists data, 384. split; [|by apply Hrt].
      revert Hs. unfold on_world. destruct (atomicWrite _ _ _ _ _ _ (se_world sh)) as [[[]|] w] eqn:Ew; [|done]. intros [= <-].
      simpl. by eapply atomicWrite_ok. }
  destruct Hsaved as (data & mode & Hfile & Hdec). unfold load_proposal in H2.
  destruct (s_try (on_world (read_file path) SDisk) s2) as [d sa] eqn:Hd. pose proof Hd as Hd'.
  assert (Hr : d = Ok (Ok data) \/ d = Ok (Err (SDisk (Fault OpRead)))).
  { revert Hd. unfold s_try, on_world, read_file, call. destruct (hd false _); [intros [= <- _]; by right|]. simpl. rewrite Hsame, Hfile.
    intros [= <- _]. by left. }
  destruct Hr as [-> | ->]; rewrite (bind_ok _ _ _ _ _ Hd') in H2; [|injection H2 as <- _; eauto].
  cbv beta iota in H2. unfold s_require in H2. destruct (_ <=? _); [|injection H2 as <- _; eauto].
  rewrite (bind_ok _ _ _ tt sa) in H2 by done. cbv beta in H2. rewrite Hdec in H2. injection H2 as <- _. by left.
Qed.

(** ** What an initialisation may install *)

(** Same ordinary settings, no new request. *)
Record calm (s s' : Session) : Prop := {
  cm_current : rs_current (se_runtime s') = rs_current (se_runtime s);
  cm_proposed : forall pp, Proposed pp ∈ se_log s' -> Proposed pp ∈ se_log s;
  cm_log : forall e, e ∈ se_log s -> e ∈ se_log s';
  cm_agent : se_agentID s' = se_agentID s;
}.
#[local] Instance calm_preorder : PreOrder calm.
Proof. split; [by split|]. intros a b c [] []. split; [congruence|auto|auto|congruence]. Qed.
#[local] Instance outward_calm : Inward calm.
Proof.
  split; [exact _|]. intros s s' [_ Hr _ Ha (l & Hl & Hq)]. split; [by rewrite Hr| | |done].
  - intros pp. rewrite Hl. intros [Hm|Hm]%elem_of_app; [|done]. rewrite Forall_forall in Hq. by apply Hq in Hm.
  - intros e He. rewrite Hl. apply elem_of_app. by right.
Qed.
Lemma calm_priv {A} (op : Privileged.Op A) : Keeps calm (on_priv op).
Proof.
  intros s x s'. unfold on_priv. destruct (se_priv s); [|by intros [= <- <-]].
  destruct (op _ _) as [[r p] w]. intros [= <- <-]. by split.
Qed.
Lemma save_queue_current l st w r st' w' :
  save_queue l st w = (r, st', w') -> rs_current st' = rs_current st.
Proof. unfold save_queue, refuse. destruct (persist _ _ w) as [[|] ?]; by intros [= <- <- <-]. Qed.
Lemma calm_queue (op : RuntimeConfig.Op) :
  (forall st w r st' w', op st w = (r, st', w') -> rs_current st' = rs_current st) -> Keeps calm (runtime_do op).
Proof.
  intros Hop. unfold runtime_do. apply session_bind; [exact _| |intros [sn [e|]]; simpl; keeps_steps].
  intros s x s'. unfold on_runtime. destruct (op _ _) as [[r p] w] eqn:E. intros [= <- <-]. apply Hop in E. by split.
Qed.
Lemma finish_current p st w r st' w' :
  RuntimeConfig.FinishReceipt p st w = (r, st', w') -> rs_current st' = rs_current st.
Proof.
  unfold RuntimeConfig.FinishReceipt. destruct (rs_receipts st); [by intros [= <- <- <-]|].
  destruct (_ =? _)%string; [apply save_queue_current|by intros [= <- <- <-]].
Qed.
Lemma calm_finish_runtime p : Keeps calm (runtime_do (RuntimeConfig.FinishReceipt p)).
Proof. apply calm_queue, finish_current. Qed.
#[local] Hint Resolve calm_priv calm_finish_runtime outward_validateSaved outward_verifyV2 outward_mode outward_detect : keeps.
Lemma calm_enqueue id kind payload rej : Keeps calm (enqueue Net id kind payload rej).
Proof. unfold enqueue. keeps_steps. Qed.
Lemma calm_finish id why : Keeps calm (finish rfc3339 Net id why).
Proof. unfold finish. keeps_steps. Qed.
Lemma calm_report m : Keeps calm (report_delivery Net m).
Proof.
  intros s x s' [= <- <-]. split; simpl; try done; [|intros; by right]. by intros pp [[=]|H]%elem_of_cons.
Qed.
#[local] Hint Resolve calm_enqueue calm_finish calm_report : keeps.
Lemma calm_refused p e : Keeps calm (keep_refused error_text Net p e).
Proof. intros s x s' H. unfold keep_refused in H. destruct (se_priv s); [keeps_run calm H|by injection H as <- <-]. Qed.
#[local] Hint Resolve calm_refused : keeps.
Lemma calm_flush_runtime fuel : Keeps calm (flush_runtime error_text Net fuel).
Proof. induction fuel as [|fuel IH]; simpl; [apply keeps_err, _|]. unfold deliver_ack. keeps_steps. Qed.
Lemma calm_flush_entries l first : Keeps calm (flush_entries rfc3339 error_text lstat is_regular describe Net C l first).
Proof.
  revert first. induction l as [|e l IH]; intros first; simpl; unfold flush_entry, send_entry, deliver_report; keeps_steps.
Qed.
#[local] Hint Resolve calm_flush_runtime calm_flush_entries : keeps.
Lemma calm_flush : Keeps calm flush.
Proof.
  unfold flushReceipts. apply session_bind; [exact _|keeps_steps|]. intros fuel.
  apply session_bind; [exact _|auto with keeps|]. intros _ s x s' H. destruct (se_priv s); [keeps_run calm H|by injection H as <- <-].
Qed.
#[local] Hint Resolve calm_flush : keeps.
Lemma calm_acceptBaseline r : Keeps calm (acceptBaseline iter rfc3339 error_text lstat is_regular describe Net C r).
Proof. unfold acceptBaseline. keeps_steps. Qed.
Lemma calm_actions m p : Keeps calm (host_actions parse_url HE Net C m p).
Proof. unfold host_actions. keeps_steps. Qed.
Lemma calm_negotiate m actual l : Keeps calm (negotiate Net C m actual l).
Proof. unfold negotiate. keeps_steps. Qed.
Lemma calm_not_initialized path p actual pp a :
  Keeps calm (not_initialized rfc3339 error_text lstat is_regular describe Net C path p actual pp a).
Proof. unfold not_initialized, get_node_state. keeps_steps. Qed.
Lemma calm_load path m p actual : Keeps calm (load path m p actual).
Proof. unfold load_proposal, draw_proposal, save_proposal. keeps_steps. Qed.
#[local] Hint Resolve calm_acceptBaseline calm_actions calm_negotiate calm_not_initialized calm_load : keeps.

(** The ordinary settings an accepted request installs: the installation's own. *)
Definition installed_runtime (pp : Proposal) (s s' : Session) : Prop :=
  pp_PreserveRuntime pp = false /\ sn_Revision (rs_current (se_runtime s)) < 1 /\
  exists rt, pp_Runtime pp = Some rt /\ fromProto (rs_current (se_runtime s)) 1 rt = Ok (rs_current (se_runtime s')).

Lemma accept_runtime_installs pp answer s x s' :
  same_runtime (ia_Runtime answer) pp = true -> pp_PreserveRuntime pp = false ->
  accept_runtime Net answer s = (x, s') ->
  (rs_current (se_runtime s') = rs_current (se_runtime s) \/ installed_runtime pp s s') /\
  (forall q, Proposed q ∈ se_log s' -> Proposed q ∈ se_log s) /\ (forall e, e ∈ se_log s -> e ∈ se_log s') /\ se_agentID s' = se_agentID s.
Proof.
  intros Hsame Hp H. unfold accept_runtime in H.
  rewrite (bind_ok _ _ s (rs_current (se_runtime s)) s) in H by done. cbv beta in H.
  destruct (sn_Revision _ <? 1) eqn:Er; [|injection H as <- <-; by split_and!; [left|..]].
  rewrite (bind_ok _ _ s (se_agentID s) s) in H by done. cbv beta in H.
  rewrite (bind_ok _ _ s (o_now Net (se_tick s)) (ticked_log [] s)) in H by done. cbv beta in H.
  unfold s_bind at 1, s_some in H. destruct (wire_marshal _) as [payload|]; [|injection H as <- <-; simpl; by split_and!; [left|..]].
  unfold s_ret, runtime_do, s_bind, on_runtime in H. simpl in H.
  destruct (ApplyWithReceipt _ _ _ _) as [[out st] w] eqn:Ea. apply Apply_cases in Ea.
  assert (Hs' : s' = with_runtime st w (ticked_log [] s)) by (destruct (snd out); by injection H as _ <-).
  rewrite Hs'. simpl. split_and!; try done. destruct Ea as [(e & _ & ->)|(dc & v & next & Hd & Hv & _ & Hf & _ & _ & _ & _ & _ & Hc & _)]; [by left|].
  right. split_and!; [done|zbool|]. rewrite Hd in Hsame. simpl in Hsame. apply andb_true_iff in Hsame as [H1 H2].
  apply Z.eqb_eq in H1. apply bool_decide_eq_true in H2. exists v. split; [congruence|]. simpl. by rewrite Hc, <- H1.
Qed.
Lemma keeps_accept_runtime answer : Keeps same_grant (accept_runtime Net answer).
Proof. unfold accept_runtime. pose proof keeps_runtime. keeps_steps. Qed.

(** What [initializeHost] did, relative to its start. *)
Record initialized (m : Manifest) (s s' : Session) : Prop := {
  in_sent : forall pp, Proposed pp ∈ se_log s' ->
    Proposed pp ∈ se_log s \/ (pp_AgentId pp = se_agentID s /\ pp_ServiceId pp = mf_ServiceName m);
  in_runtime : rs_current (se_runtime s') = rs_current (se_runtime s) \/
    exists pp, Proposed pp ∈ se_log s' /\ installed_runtime pp s s';
}.
Lemma initialized_calm m s s1 s' : calm s1 s' -> initialized m s s1 -> initialized m s s'.
Proof.
  intros [Hc Hp Hl Ha] [H1 H2]. split; [auto|]. rewrite Hc. destruct H2 as [H2|(pp & Hpp & H2)]; [by left|]. right. exists pp.
  split; [auto|]. unfold installed_runtime. by rewrite Hc.
Qed.
Lemma initialized_calm_before m s0 s s' : calm s0 s -> initialized m s s' -> initialized m s0 s'.
Proof.
  intros [Hc Hp Hl Ha] [H1 H2]. split.
  - intros pp Hpp. rewrite <- Ha. destruct (H1 pp Hpp) as [H|H]; auto.
  - rewrite <- Hc. destruct H2 as [H2|(pp & Hpp & H2)]; [by left|]. right. exists pp. split; [done|].
    unfold installed_runtime in *. by rewrite <- Hc.
Qed.
(** A step on the way: an error ends there, a result goes on. *)
Lemma initialized_bind m {A B} (f : SM A) (k : A -> SM B) s x s' :
  Keeps calm f -> (forall a s1 x s', f s = (Ok a, s1) -> k a s1 = (x, s') -> initialized m s1 s') ->
  s_bind f k s = (x, s') -> initialized m s s'.
Proof.
  intros Hf Hk H. unfold s_bind in H. destruct (f s) as [[a|e] s1] eqn:E.
  - pose proof (Hf _ _ _ E) as Hc. eapply initialized_calm_before; [exact Hc|]. by eapply Hk.
  - injection H as <- <-. apply Hf in E. eapply initialized_calm; [exact E|]. split; auto.
Qed.
Lemma initialized_keep m {A} (f : SM A) s x s' : Keeps calm f -> f s = (x, s') -> initialized m s s'.
Proof. intros Hf H. eapply initialized_calm; [by eapply Hf|]. split; auto. Qed.

Lemma accept_answer_initialized m pp answer s x s' :
  Proposed pp ∈ se_log s ->
  accept_answer iter rfc3339 error_text lstat is_regular describe Net C pp answer s = (x, s') -> initialized m s s'.
Proof.
  intros Hin H. unfold accept_answer in H.
  apply (initialized_bind m) in H; [done|keeps_steps|]. clear x s' H. intros [] s1 x s' H1 H. apply require_inv in H1 as [_ ->].
  apply (initialized_bind m) in H; [done|keeps_steps|]. clear x s' H. intros [] s1 x s' H1 H. apply require_inv in H1 as [Hsame ->].
  apply (initialized_bind m) in H; [done|keeps_steps|]. clear x s' H. intros [] s1 x s' H1 H. apply require_inv in H1 as [_ ->].
  destruct (pp_PreserveRuntime pp) eqn:Ep; [by eapply initialized_keep; [|exact H]; keeps_steps|].
  unfold s_bind at 1 in H. destruct (accept_runtime Net answer s) as [y s1] eqn:Ea.
  apply (accept_runtime_installs pp) in Ea as (Hr & Hp & Hl & Ha); [|done|done].
  assert (H1 : initialized m s s1).
  { split; [intros q Hq; left; auto|]. destruct Hr as [Hr|Hr]; [by left|]. right. exists pp. split; [auto|done]. }
  destruct y as [[]|e]; [|by injection H as <- <-]. eapply initialized_calm; [|exact H1].
  match type of H with ?f s1 = _ => assert (Hk : Keeps calm f) by keeps_steps; by eapply Hk end.
Qed.

(** An initialisation sends only requests made for this agent and this
    service, and changes the ordinary settings only to revision 1 of the request
    it sent, never when it said they are to be preserved, and never over an
    existing revision. *)
Theorem initializeHost_installs_own_request m s x s' :
  cl_hostManifest C = Some m ->
  initializeHost iter rfc3339 error_text lstat is_regular describe parse_url populated HE Net C s = (x, s') ->
  initialized m s s'.
Proof.
  intros Hm H. unfold initializeHost in H. rewrite Hm in H.
  destruct (cl_hostPolicy C) as [p|]; [|injection H as <- <-; split; auto].
  destruct (se_priv s) as [st|]; [|injection H as <- <-; split; auto].
  apply (initialized_bind m) in H; [done|keeps_steps|]. clear x s' H. intros actual s1 x s' _ H.
  apply (initialized_bind m) in H; [done|keeps_steps|]. clear x s' H. intros [] s2 x s' _ H.
  apply (initialized_bind m) in H; [done|keeps_steps|]. clear x s' H. intros actions s3 x s' _ H.
  apply (initialized_bind m) in H; [done|keeps_steps|]. clear x s' H. intros [] s4 x s' _ H.
  apply (initialized_bind m) in H; [done|keeps_steps|]. clear x s' H. intros path s5 x s' _ H.
  apply (initialized_bind m) in H; [done|keeps_steps|]. clear x s' H. intros [pp|] s6 x s' _ H.
  2: { eapply initialized_keep; [|exact H]. keeps_steps. }
  apply (initialized_bind m) in H; [done|keeps_steps|]. clear x s' H. intros a s7 x s' Ha H. injection Ha as <- <-.
  apply (initialized_bind m) in H; [done|keeps_steps|]. clear x s' H. intros [] s8 x s' Hq H. apply require_inv in Hq as [Hq ->].
  apply andb_true_iff in Hq as [Hq1 Hq2]. apply String.eqb_eq in Hq1, Hq2.
  unfold s_bind in H. destruct (initialize_config Net pp s6) as [y s9] eqn:Ei.
  assert (H9 : se_log s9 = Proposed pp :: se_log s6 /\ se_runtime s9 = se_runtime s6 /\ se_agentID s9 = se_agentID s6)
    by (by injection Ei as _ <-).
  destruct H9 as (Hl9 & Hr9 & Ha9).
  assert (Hfin : forall s', initialized m s9 s' -> initialized m s6 s').
  { intros s0 [H1 H2]. split.
    - intros q Hq. destruct (H1 q Hq) as [H0|H0]; [|right; by rewrite <- Ha9].
      rewrite Hl9 in H0. apply elem_of_cons in H0 as [[= ->]|H0]; [by right|by left].
    - rewrite <- Hr9. destruct H2 as [H2|(q & Hq & H2)]; [by left|]. right. exists q. split; [done|]. unfold installed_runtime in *. by rewrite <- Hr9. }
  apply Hfin. destruct y as [answer|e]; [|injection H as <- <-; split; auto].
  destruct (ia_Initialized answer).
  - eapply accept_answer_initialized; [|exact H]. rewrite Hl9. by left.
  - eapply initialized_keep; [|exact H]. keeps_steps.
Qed.

(** ** The whole session *)

(** The handlers the workers of [Run] call, one at a time on the stores. *)
Inductive handler :=
| OnSync                                        (** [SyncConfig], at start and by polling *)
| OnConfig (d : option Desired)                 (** a message of [WatchDesiredConfig] *)
| OnDelivery (r : option PrivilegedRevision)    (** a message of [WatchPrivilegedDelivery] *)
| OnOutbox                                      (** a turn of [runReceiptOutbox] *)
| OnInit.                                       (** [initializeHost] *)
Definition handle (h : handler) : SM unit :=
  match h with
  | OnSync => SyncConfig rfc3339 error_text lstat is_regular describe Net C
  | OnConfig d => applyDesiredConfig rfc3339 error_text lstat is_regular describe Net C d
  | OnDelivery None => s_ret tt
  | OnDelivery (Some r) =>
      rememberAgentID (pr_agent_id r) ;;;
      recordPrivilegedRevision iter rfc3339 error_text lstat is_regular describe HE euid Net C (Some r)
  | OnOutbox => outbox_turn iter rfc3339 error_text lstat is_regular describe HE euid Net C
  | OnInit => initializeHost iter rfc3339 error_text lstat is_regular describe parse_url populated HE Net C
  end.
Definition handle_all (hs : list handler) (s : Session) : Session := fold_left (fun s h => snd (handle h s)) hs s.

(** The signed revision [c] may decide what is in force: it is the
    installation's own baseline, or an approval the panel confirmed as current
    while it was handled and the local policy allows. *)
Definition rightful (i : Identity) (c : PrivilegedRevision) : Prop :=
  (exists now, v2_signed i now c) /\
  (baseline_allowed C c \/
   exists r0 n agent, o_delivery Net n agent = Ok (Some c) /\ same_approval c r0 = true /\
     locally_allowed lstat is_regular HE euid Net C c).
(** The identity is kept; the grant is kept, or is that of a rightful revision. *)
Record authorized (s s' : Session) : Prop := {
  au_cred : se_cred s' = se_cred s;
  au_grant : grant_of s' = grant_of s \/
    exists i c, client_identity C s = Some i /\ now_granted c s' /\ rightful i c;
}.
#[local] Instance authorized_preorder : PreOrder authorized.
Proof.
  split; [by split; [|left]|]. intros a b c [Hc1 H1] [Hc2 H2]. split; [congruence|].
  destruct H2 as [H2|(i & r & Hi & Hg & Hr)].
  - rewrite H2. destruct H1 as [H1|(i & r & Hi & (sg & Hw & Hg) & Hr)]; [by left|]. right. exists i, r. split_and!; [done| |done].
    exists sg. split; [done|congruence].
  - right. exists i, r. split_and!; [|done|done]. unfold client_identity in *. by rewrite Hc1 in Hi.
Qed.
Lemma same_grant_authorized s s' : same_grant s s' -> authorized s s'.
Proof. intros [Hg Hc _]. split; [done|by left]. Qed.
#[local] Instance outward_authorized : Inward authorized.
Proof. split; [exact _|]. intros s s' H. by apply same_grant_authorized, inward. Qed.
Lemma authorized_of {A} (m : SM A) : Keeps same_grant m -> Keeps authorized m.
Proof. intros Hm s x s' H. apply same_grant_authorized. by eapply Hm. Qed.
Lemma authorized_remember a : Keeps authorized (rememberAgentID a).
Proof.
  intros s x s' [= <- <-]. destruct (blank a); [reflexivity|]. destruct (_ =? _)%string; [|reflexivity]. split; [done|by left].
Qed.
Lemma authorized_runtime op : Keeps authorized (runtime_do op).
Proof. apply authorized_of, keeps_runtime. Qed.
Lemma authorized_on_runtime op : Keeps authorized (on_runtime op).
Proof. apply authorized_of, keeps_on_runtime. Qed.
Lemma authorized_flush : Keeps authorized flush.
Proof. apply authorized_of, keeps_flush. Qed.
Lemma authorized_accept_runtime answer : Keeps authorized (accept_runtime Net answer).
Proof. apply authorized_of, keeps_accept_runtime. Qed.

(** No handler touches the credentials. *)
Definition same_cred (s s' : Session) : Prop := se_cred s' = se_cred s.
#[local] Instance same_cred_preorder : PreOrder same_cred.
Proof. split; [done|]. intros a b c. unfold same_cred. congruence. Qed.
#[local] Instance outward_same_cred : Inward same_cred.
Proof. split; [exact _|]. by intros s s' []. Qed.
Lemma cred_priv {A} (op : Privileged.Op A) : Keeps same_cred (on_priv op).
Proof.
  intros s x s'. unfold on_priv. destruct (se_priv s); [|by intros [= <- <-]]. destruct (op _ _) as [[r p] w]. by intros [= <- <-].
Qed.
Lemma cred_on_runtime op : Keeps same_cred (on_runtime op).
Proof. intros s x s'. unfold on_runtime. destruct (op _ _) as [[r p] w]. by intros [= <- <-]. Qed.
Lemma cred_report m : Keeps same_cred (report_delivery Net m).
Proof. by intros s x s' [= <- <-]. Qed.
Lemma cred_initialize pp : Keeps same_cred (initialize_config Net pp).
Proof. by intros s x s' [= <- <-]. Qed.
Lemma cred_remember a : Keeps same_cred (rememberAgentID a).
Proof. intros s x s' [= <- <-]. destruct (blank a); [done|]. by destruct (_ =? _)%string. Qed.
#[local] Hint Resolve cred_priv cred_on_runtime cred_report cred_initialize cred_remember : keeps.
Lemma cred_runtime op : Keeps same_cred (runtime_do op).
Proof. unfold runtime_do. keeps_steps. Qed.
Lemma cred_refused p e : Keeps same_cred (keep_refused error_text Net p e).
Proof.
  intros s x s' H. unfold keep_refused, enqueue in H. destruct (se_priv s); [keeps_run same_cred H|by injection H as <- <-].
Qed.
#[local] Hint Resolve cred_runtime cred_refused : keeps.
Lemma cred_flush_runtime fuel : Keeps same_cred (flush_runtime error_text Net fuel).
Proof. induction fuel as [|fuel IH]; simpl; [apply keeps_err, _|]. unfold deliver_ack. keeps_steps. Qed.
Lemma cred_flush_entries l first : Keeps same_cred (flush_entries rfc3339 error_text lstat is_regular describe Net C l first).
Proof.
  revert first. induction l as [|e l IH]; intros first; simpl; unfold flush_entry, send_entry, deliver_report, finish; keeps_steps.
Qed.
#[local] Hint Resolve cred_flush_runtime cred_flush_entries : keeps.
Lemma cred_flush : Keeps same_cred flush.
Proof.
  unfold flushReceipts. apply session_bind; [exact _|keeps_steps|]. intros fuel.
  apply session_bind; [exact _|auto with keeps|]. intros _ s x s' H. destruct (se_priv s); [keeps_run same_cred H|by injection H as <- <-].
Qed.
#[local] Hint Resolve cred_flush : keeps.
Lemma cred_acceptBaseline r : Keeps same_cred (acceptBaseline iter rfc3339 error_text lstat is_regular describe Net C r).
Proof. unfold acceptBaseline. keeps_steps. Qed.
#[local] Hint Resolve cred_acceptBaseline outward_checked outward_policy outward_delivery outward_observed : keeps.
Lemma cred_fail r cause : Keeps same_cred (failPrivileged rfc3339 error_text lstat is_regular describe Net C r cause).
Proof. unfold failPrivileged, enqueue. keeps_steps. Qed.
#[local] Hint Resolve cred_fail : keeps.
Lemma cred_record r : Keeps same_cred (recordPrivilegedRevision iter rfc3339 error_text lstat is_regular describe HE euid Net C r).
Proof. unfold recordPrivilegedRevision, note_received, enqueue, grant_current, apply_delivery. keeps_steps. Qed.
#[local] Hint Resolve cred_record : keeps.

(** ** Every handler is authorized *)

Lemma authorized_acceptBaseline r : Keeps authorized (acceptBaseline iter rfc3339 error_text lstat is_regular describe Net C r).
Proof.
  intros s x s' H. split; [by eapply cred_acceptBaseline|].
  destruct (decide (grant_of s' = grant_of s)) as [|Hne]; [by left|]. right.
  apply acceptBaseline_grants in H as (c & -> & (i & now & Hi & Hs) & Hg & Hba); [|done].
  exists i, c. split_and!; [done|done|]. split; [by exists now|by left].
Qed.
Lemma authorized_record r : Keeps authorized (recordPrivilegedRevision iter rfc3339 error_text lstat is_regular describe HE euid Net C r).
Proof.
  intros s x s' H. split; [by eapply cred_record|].
  destruct (decide (grant_of s' = grant_of s)) as [|Hne]; [by left|]. right.
  apply recordPrivilegedRevision_grants in H as (c & i & now & Hi & Hs & Hg & Hcase); [|done].
  exists i, c. split_and!; [done|done|]. split; [by exists now|]. destruct Hcase as [(_ & Hba)|(r0 & n & _ & Ho & Hsame & Hl)].
  - by left.
  - right. exists r0, n, (se_agentID s). by split_and!.
Qed.
#[local] Hint Resolve authorized_acceptBaseline authorized_record authorized_remember authorized_runtime authorized_on_runtime
  authorized_flush authorized_accept_runtime : keeps.
Lemma authorized_init : Keeps authorized (initializeHost iter rfc3339 error_text lstat is_regular describe parse_url populated HE Net C).
Proof.
  intros s x s' H. unfold initializeHost in H. destruct (cl_hostManifest C) as [m|]; [|by injection H as <- <-].
  destruct (cl_hostPolicy C) as [p|]; [|by injection H as <- <-]. destruct (se_priv s); [|by injection H as <- <-].
  assert (Hi : forall pp, Keeps authorized (initialize_config Net pp))
    by (intros pp sa y sb [= <- <-]; apply same_grant_authorized; by split).
  revert H. unfold host_actions, negotiate, load_proposal, draw_proposal, save_proposal, accept_answer, not_initialized, get_node_state.
  intros H. keeps_run authorized H.
Qed.
Lemma authorized_applyDesired d : Keeps authorized (applyDesiredConfig rfc3339 error_text lstat is_regular describe Net C d).
Proof. unfold applyDesiredConfig. keeps_steps. Qed.
#[local] Hint Resolve authorized_init authorized_applyDesired : keeps.
Lemma authorized_sync : Keeps authorized (SyncConfig rfc3339 error_text lstat is_regular describe Net C).
Proof.
  assert (Hr : Keeps authorized (fun s => (@Ok unit sess_err tt, with_reconciled s)))
    by (intros s y s1 [= <- <-]; apply same_grant_authorized; by split).
  unfold SyncConfig, get_desired. keeps_steps.
Qed.
Lemma authorized_outbox : Keeps authorized (outbox_turn iter rfc3339 error_text lstat is_regular describe HE euid Net C).
Proof. pose proof outward_applied. unfold outbox_turn, reconcileHostRecord. keeps_steps. Qed.
#[local] Hint Resolve authorized_sync authorized_outbox : keeps.
Lemma authorized_handle h : Keeps authorized (handle h).
Proof. destruct h as [|d|[r|]| |]; simpl; keeps_steps. Qed.


(** ** A start without its privileged state

    [New] keeps the agent running when its privileged state cannot be opened,
    with no privileged store; the receipt worker dereferences it as soon as the
    host tool has left a result. *)
Lemma reconcile_without_store_panics m t s s1 record (r : PrivilegedRevision) :
  cl_hostManifest C = Some m -> cl_hostTrust C = Some t -> se_priv s = None -> rs_receipts (se_runtime s) = [] ->
  read_applied lstat is_regular m s = (Ok record, s1) -> wire_unmarshal (ap_Revision record) = Some r ->
  fst (outbox_turn iter rfc3339 error_text lstat is_regular describe HE euid Net C s) = Err SPanic.
Proof.
  intros Hm Ht Hp Hq Ha Hr. unfold outbox_turn.
  assert (Hf : flush s = (Ok tt, s)).
  { unfold flushReceipts. rewrite (bind_ok _ _ s (S (length (rs_receipts (se_runtime s)))) s) by done. cbv beta.
    rewrite (bind_ok _ _ s tt s); [by rewrite Hp|]. cbn [flush_runtime].
    rewrite (bind_ok _ _ s "" s); [done|]. unfold runtime_receipt, next_receipt. by rewrite Hq. }
  rewrite (bind_ok _ _ s (Ok tt) s) by (unfold s_try; by rewrite Hf). cbv beta. rewrite Hm, Ht.
  assert (H1 : se_priv s1 = None) by (pose proof (outward_applied _ _ _ _ _ _ Ha) as [-> _ _ _ _]; done).
  assert (Hp2 : reconcileHostRecord iter rfc3339 error_text lstat is_regular describe HE euid Net C s = (Err SPanic, s1)).
  { unfold reconcileHostRecord. rewrite Hm.
    rewrite (bind_ok _ _ s m s) by done. cbv beta. rewrite (bind_ok _ _ s (Ok record) s1) by (unfold s_try; by rewrite Ha). cbv beta iota.
    rewrite (bind_ok _ _ s1 r s1) by (unfold s_some; by rewrite Hr). cbv beta. apply bind_err. unfold priv_state. by rewrite H1. }
  by rewrite (bind_err _ _ s SPanic s1) by (unfold s_try; by rewrite Hp2).
Qed.
End Baseline.
