(* ===== verification/Renewal.v ===== *)
(** * Renewing the credentials ([clientcore/credential_renewal.go], [client.go])

    One exchange of the refresh token at a time, the memory of a failed one, the
    timer that renews before expiry, and the trust bundle an agent without pinned
    keys fetches. What an exchange meets outside (clocks, the panel's answers) is
    a record per attempt. *)

From S2P Require Import Prelude.
From S2P Require Import GoStd.
From S2P Require Import Disk.
From S2P Require Import External.
From S2P Require Import Credentials.
From S2P Require Import Privileged.
From S2P Require Import HostOps.
From S2P Require Import RuntimeConfig.
From S2P Require Import Effective.
From S2P Require Import Enrollment.
From S2P Require Import Session.

Local Open Scope string_scope.
Local Open Scope Z_scope.

(** ** Times and endpoints *)

(** [t.Sub(u)] saturates at the ends of [int64]. *)
Definition t_sub (t u : time) : duration := Z.max min_int64 (Z.min max_int64 (t - u)).

(** [url.Parse] by the parts the agent reads and changes, [String] back. *)
Record Address := mkAddress {
  ad_Scheme : string; ad_Host : string; ad_Path : string; ad_RawQuery : string; ad_Fragment : string }.
Section Endpoints.
Variable parse_address : string -> option Address.
Variable show_address : Address -> string.

Definition normalizeEndpoint (endpoint : string) : result string enroll_err :=
  let trimmed := trim_space endpoint in
  if (trimmed =? "")%string then Err EndpointRequired else
  let trimmed := if contains trimmed "://" then trimmed else "https://" ++ trimmed in
  match parse_address trimmed with
  | None => Err EndpointInvalid
  | Some u =>
      if negb (ad_Scheme u =? "http")%string && negb (ad_Scheme u =? "https")%string then Err EndpointScheme else
      if (ad_Host u =? "")%string then Err EndpointHost else
      Ok (show_address (mkAddress (ad_Scheme u) (ad_Host u) (trim_suffix (ad_Path u) "/") "" ""))
  end.
(** [strings.TrimRight(s, "/")] *)
Fixpoint trim_slashes (l : list ascii) : list ascii :=
  match l with
  | [] => []
  | a :: l => match trim_slashes l with
              | [] => if Nat.eqb (code a) 47 then [] else [a]
              | r => a :: r
              end
  end.
Definition connectBaseURL (endpoint : string) : option string :=
  let value := trim_space endpoint in
  if (value =? "")%string then None else
  match parse_address value with
  | None => None
  | Some u => if (ad_Scheme u =? "")%string || (ad_Host u =? "")%string then None
              else Some (of_chars (trim_slashes (chars (show_address u))))
  end.
End Endpoints.

(** ** When to renew *)

Section Delay.
Context `{CR : Crypto}.

(** The stable part of a minute an agent waits less. *)
Definition renewal_jitter (agent : string) : duration :=
  match chars (sha256 agent) with
  | a :: b :: _ => (Z.of_nat (code a) * 256 + Z.of_nat (code b)) mod 60 * second
  | _ => 0
  end.
Definition credentialRenewalDelay (i : Identity) (now : time) : duration :=
  if bool_decide (id_PendingRefresh i <> None) || (id_AccessToken i =? "")%string then 0 else
  if is_zero (id_AccessTokenExpiresAt i) then hour else
  if negb (is_zero (id_RefreshTokenExpiresAt i)) && negb (after (id_RefreshTokenExpiresAt i) (id_AccessTokenExpiresAt i))
  then Z.max 0 (t_sub (id_RefreshTokenExpiresAt i) now)
  else Z.max 0 (t_sub (t_add (id_AccessTokenExpiresAt i) (- 5 * minute - renewal_jitter (id_AgentID i))) now).
End Delay.

(** ** One exchange *)

Inductive renew_err :=
| RenewNoToken | RenewEndpoint (e : enroll_err) | RenewBegin (e : cred_err)
| RenewExchange (e : enroll_err) (answer : rpc) | RenewCommit (e : cred_err).

(** [connect.CodeOf]: only the exchange itself can carry a code. *)
Definition renew_code (e : renew_err) : rpc_code :=
  match e with
  | RenewExchange RefreshCall r => code_of (SRpc r)
  | _ => CodeUnknown
  end.
Definition permanentCredentialRejection (e : renew_err) : bool :=
  match renew_code e with CodeUnauthenticated | CodePermissionDenied => true | _ => false end.

(** What one exchange meets: the clock when it is asked for, at the steps of the
    exchange and when it failed; the identifiers drawn; the panel's answers.
    [at_error] is the error of the refresh call when it fails. *)
Record Attempt := mkRenewAttempt {
  at_check : time; at_begin : time; at_uuid : string; at_t0 : time; at_t1 : time; at_t2 : time;
  at_timestamp : string; at_nonce : string; at_bundle : option TrustBundle;
  at_call : string -> SignedEnvelope -> option (option SignedEnvelope * option AgentCredentials);
  at_error : rpc; at_commit : time; at_fail : time }.

(** The log: when each exchange was let through, when it was over and how. *)
Record Renewal := mkRenewal {
  rn_session : Session;
  rn_endpoint : string;
  rn_configured : option string;      (** the endpoint of [c.cfg], when there is one *)
  rn_token : string;
  rn_retryAt : time;
  rn_lastErr : option renew_err;
  rn_log : list (time * time * option renew_err);
}.
Definition with_cred (c : option Credentials.Store) (w : World) (s : Session) : Session :=
  mkSession w (se_tick s) (se_priv s) (se_runtime s) c (se_agentID s) (se_reconciled s) (se_log s).
Definition on_cred (c : Credentials.Store) (w : World) (s : Renewal) : Renewal :=
  mkRenewal (with_cred (Some c) w (rn_session s)) (rn_endpoint s) (rn_configured s) (rn_token s) (rn_retryAt s) (rn_lastErr s) (rn_log s).
Definition updateToken (token : string) (s : Renewal) : Renewal :=
  mkRenewal (rn_session s) (rn_endpoint s) (rn_configured s) token (rn_retryAt s) (rn_lastErr s) (rn_log s).

Section Refresh.
Context `{CR : Crypto} `{PT : ProtoTime} `{JI : Json Identity}.
Context `{JQ : Json refreshV2Request} `{SR : StrictJson refreshV2Response} `{WC : Wire AgentCredentials}.
Variable uuid_ok : string -> bool.
Variable parse_address : string -> option Address.
Variable show_address : Address -> string.
Variable C : Client.

Definition renewal_identity (s : Renewal) : option Identity := client_identity C (rn_session s).

(** The protected trust of the host stands in for the keys of the file. *)
Definition with_trust_of (i pending : Identity) : Identity :=
  Credentials.with_trust (id_ControlPlaneKeys i) (id_PolicyAlgorithms i) (id_PolicyRequireAll i)
    (id_PolicyMinimumSignatures i) pending.

Definition exchange (a : Attempt) (s : Renewal) : result unit renew_err * Renewal :=
  match renewal_identity s, se_cred (rn_session s) with
  | Some i, Some store =>
      if blank (id_RefreshToken i) then (Err RenewNoToken, s) else
      let endpoint := if (rn_endpoint s =? "")%string then id_Endpoint i else rn_endpoint s in
      match normalizeEndpoint parse_address show_address endpoint with
      | Err e => (Err (RenewEndpoint e), s)
      | Ok _ =>
          match BeginRefresh (at_begin a) (at_uuid a) store (se_world (rn_session s)) with
          | (Err e, store, w) => (Err (RenewBegin e), on_cred store w s)
          | (Ok pending, store, w) =>
              let pending := with_trust_of i pending in
              match Refresh uuid_ok (at_t0 a) (at_t1 a) (at_t2 a) (at_timestamp a) (at_nonce a) (at_bundle a) (at_call a) pending with
              | Err e => (Err (RenewExchange e (at_error a)), on_cred store w s)
              | Ok refreshed =>
                  match CommitRefresh (at_commit a) pending refreshed store w with
                  | (Err e, store, w) => (Err (RenewCommit e), on_cred store w s)
                  | (Ok _, store, w) => (Ok tt, updateToken (id_AccessToken refreshed) (on_cred store w s))
                  end
              end
          end
      end
  | _, _ => (Err RenewNoToken, s)
  end.

(** The deferred part: a failure is remembered for five seconds, a permanent
    rejection for fifteen minutes. *)
Definition retry_delay (e : renew_err) : duration := if permanentCredentialRejection e then 15 * minute else 5 * second.
Definition remember (a : Attempt) (r : result unit renew_err) (s : Renewal) : Renewal :=
  match r with
  | Ok _ => mkRenewal (rn_session s) (rn_endpoint s) (rn_configured s) (rn_token s) zero_time None ((at_check a, at_fail a, None) :: rn_log s)
  | Err e => mkRenewal (rn_session s) (rn_endpoint s) (rn_configured s) (rn_token s) (t_add (at_fail a) (retry_delay e)) (Some e)
               ((at_check a, at_fail a, Some e) :: rn_log s)
  end.
Definition refreshCredentials (old : string) (a : Attempt) (s : Renewal) : result unit renew_err * Renewal :=
  if negb (rn_token s =? old)%string && negb (rn_token s =? "")%string then (Ok tt, s) else
  match rn_lastErr s with
  | Some e =>
      if before (at_check a) (rn_retryAt s) then (Err e, s) else
      let '(r, s) := exchange a s in (r, remember a r s)
  | None => let '(r, s) := exchange a s in (r, remember a r s)
  end.

(** ** The renewal worker

    A turn of [runCredentialRenewal]: the refreshes other workers ask for before
    it and while it sleeps, the two readings of the clock, the attempt it may
    make, and whether the process is being stopped while it sleeps, after the
    attempt or while it backs off. *)
Record Turn := mkTurn {
  tn_before : list (string * Attempt); tn_now : time; tn_stop : bool; tn_meanwhile : list (string * Attempt);
  tn_wake : time; tn_attempt : Attempt; tn_stopped : bool; tn_stopBackoff : bool }.
Definition refresh_all (l : list (string * Attempt)) (s : Renewal) : Renewal :=
  fold_left (fun s c => snd (refreshCredentials c.1 c.2 s)) l s.
Inductive action := Slept (d : duration) | Renewed | RenewFailed (e : renew_err) | BackedOff (d : duration).
Inductive outcome := Running (backoff : duration) | Finished.
Definition renewal_turn (t : Turn) (backoff : duration) (s : Renewal) : outcome * list action * Renewal :=
  let s := refresh_all (tn_before t) s in
  match renewal_identity s with
  | None => (Finished, [], s)
  | Some i =>
      let delay := credentialRenewalDelay i (tn_now t) in
      let s := refresh_all (tn_meanwhile t) s in
      if tn_stop t then (Finished, [Slept delay], s) else
      match renewal_identity s with
      | None => (Finished, [Slept delay], s)
      | Some current =>
          if 0 <? credentialRenewalDelay current (tn_wake t) then (Running backoff, [Slept delay], s) else
          let '(r, s) := refreshCredentials (id_AccessToken current) (tn_attempt t) s in
          match r with
          | Ok _ => (Running (5 * second), [Slept delay; Renewed], s)
          | Err e =>
              if tn_stopped t || permanentCredentialRejection e then (Finished, [Slept delay; RenewFailed e], s)
              else if tn_stopBackoff t then (Finished, [Slept delay; RenewFailed e; BackedOff backoff], s)
              else (Running (Z.min minute (backoff * 2)), [Slept delay; RenewFailed e; BackedOff backoff], s)
          end
      end
  end.
Fixpoint run_renewal (l : list Turn) (backoff : duration) (s : Renewal) : outcome * list action * Renewal :=
  match l with
  | [] => (Running backoff, [], s)
  | t :: l =>
      match renewal_turn t backoff s with
      | (Finished, acts, s) => (Finished, acts, s)
      | (Running b, acts, s) => let '(o, rest, s) := run_renewal l b s in (o, (acts ++ rest)%list, s)
      end
  end.
Definition runCredentialRenewal (l : list Turn) (s : Renewal) : outcome * list action * Renewal :=
  run_renewal l (5 * second) s.

(** ** The trust bundle *)

Inductive trust_err := TrustNoEndpoint | TrustEndpointBad (e : enroll_err) | TrustFetch | TrustEmpty | TrustPin (e : cred_err).
(** [bundle] is the panel's answer, [now] the clock of the store. *)
Definition fetchAndPinTrustBundle (bundle : option TrustBundle) (now : time) (s : Renewal) : result unit trust_err * Renewal :=
  match se_cred (rn_session s) with
  | None => (Ok tt, s)
  | Some store =>
      let endpoint := if (rn_endpoint s =? "")%string then default "" (rn_configured s) else rn_endpoint s in
      let endpoint := if (endpoint =? "")%string
                      then match st_identity store with Some i => id_Endpoint i | None => "" end
                      else endpoint in
      if (endpoint =? "")%string then (Err TrustNoEndpoint, s) else
      match normalizeEndpoint parse_address show_address endpoint with
      | Err e => (Err (TrustEndpointBad e), s)
      | Ok _ =>
          match FetchTrustBundle bundle with
          | None => (Err TrustFetch, s)
          | Some ([], _, _, _) => (Err TrustEmpty, s)
          | Some (keys, algorithms, all, minimum) =>
              match PinTrustBundle now keys algorithms all minimum store (se_world (rn_session s)) with
              | (Err e, store, w) => (Err (TrustPin e), on_cred store w s)
              | (Ok _, store, w) => (Ok tt, on_cred store w s)
              end
          end
      end
  end.
Definition ensureTrustBundle (bundle : option TrustBundle) (now : time) (s : Renewal) : result unit trust_err * Renewal :=
  match se_cred (rn_session s) with
  | None => (Ok tt, s)
  | Some store =>
      match st_identity store with
      | None => (Ok tt, s)
      | Some i =>
          if (id_AgentID i =? "")%string || negb (bool_decide (id_ControlPlaneKeys i = [])) then (Ok tt, s)
          else fetchAndPinTrustBundle bundle now s
      end
  end.
End Refresh.

(** ** When a renewal is due *)

Section DelayTheorems.
Context `{CR : Crypto}.

Lemma renewal_jitter_range agent : 0 <= renewal_jitter agent < minute.
Proof.
  unfold renewal_jitter, minute, second. destruct (chars (sha256 agent)) as [|a [|b l]]; [lia|lia|].
  pose proof (Z.mod_pos_bound (Z.of_nat (code a) * 256 + Z.of_nat (code b)) 60). lia.
Qed.
Lemma t_sub_small t u : min_int64 <= t - u <= max_int64 -> t_sub t u = t - u.
Proof. unfold t_sub. lia. Qed.

(** The renewal worker never sleeps past the renewal window: an agent with
    no request in flight and a token whose expiry is known, and whose refresh token
    lives longer, wakes five to six minutes before the expiry, at once when that
    moment has passed; when the refresh token ends no later it sleeps to that
    boundary. No delay is negative. *)
Theorem renewal_wakes_in_time i now :
  id_PendingRefresh i = None -> id_AccessToken i <> "" -> id_AccessTokenExpiresAt i <> 0 ->
  min_int64 + hour <= id_AccessTokenExpiresAt i - now <= max_int64 ->
  min_int64 <= id_RefreshTokenExpiresAt i - now <= max_int64 ->
  let wake := now + credentialRenewalDelay i now in
  0 <= credentialRenewalDelay i now /\
  (id_RefreshTokenExpiresAt i = 0 \/ id_AccessTokenExpiresAt i < id_RefreshTokenExpiresAt i ->
     wake = now /\ id_AccessTokenExpiresAt i - now <= 6 * minute \/
     id_AccessTokenExpiresAt i - 6 * minute < wake <= id_AccessTokenExpiresAt i - 5 * minute) /\
  (id_RefreshTokenExpiresAt i <> 0 -> id_RefreshTokenExpiresAt i <= id_AccessTokenExpiresAt i ->
     wake = Z.max now (id_RefreshTokenExpiresAt i)).
Proof.
  intros Hp Ht He Hr Hr2 wake. subst wake. unfold credentialRenewalDelay. rewrite bool_decide_eq_false_2 by (by intros []).
  rewrite (proj2 (String.eqb_neq _ _) Ht). unfold is_zero, after, t_add. cbn [orb]. rewrite (proj2 (Z.eqb_neq _ _) He).
  pose proof (renewal_jitter_range (id_AgentID i)) as Hj. unfold hour, minute, second in *.
  destruct (negb (id_RefreshTokenExpiresAt i =? 0) && _) eqn:Eh.
  - apply andb_true_iff in Eh as [E1%negb_true_iff%Z.eqb_neq E2%negb_true_iff%Z.ltb_ge]. rewrite t_sub_small by lia. lia.
  - apply andb_false_iff in Eh. rewrite t_sub_small by lia. split; [lia|]. split; [lia|].
    intros H1 H2. destruct Eh as [E%negb_false_iff%Z.eqb_eq|E%negb_false_iff%Z.ltb_lt]; lia.
Qed.

(** A token the panel issued for five minutes or less is due at once. *)
Lemma short_lived_token_is_due i now :
  id_AccessTokenExpiresAt i <> 0 -> id_AccessTokenExpiresAt i < id_RefreshTokenExpiresAt i ->
  min_int64 + hour <= id_AccessTokenExpiresAt i - now <= 5 * minute -> id_PendingRefresh i = None -> id_AccessToken i <> "" ->
  credentialRenewalDelay i now = 0.
Proof.
  intros He Hr Hn Hp Ht. unfold credentialRenewalDelay. rewrite bool_decide_eq_false_2 by (by intros []).
  rewrite (proj2 (String.eqb_neq _ _) Ht). unfold is_zero, after, t_add. cbn [orb]. rewrite (proj2 (Z.eqb_neq _ _) He).
  pose proof (renewal_jitter_range (id_AgentID i)) as Hj. unfold hour, minute, second in *.
  rewrite (proj2 (Z.ltb_lt _ _) Hr), andb_false_r. unfold t_sub, max_int64, min_int64 in *. lia.
Qed.
End DelayTheorems.

(** ** What an exchange leaves behind *)

Section RefreshTheorems.
Context `{CR : Crypto} `{PT : ProtoTime} `{JI : Json Identity}.
Context `{JQ : Json refreshV2Request} `{SR : StrictJson refreshV2Response} `{WC : Wire AgentCredentials}.
Variable uuid_ok : string -> bool.
Variable parse_address : string -> option Address.
Variable show_address : Address -> string.
Variable C : Client.

Abbreviation refresh := (refreshCredentials uuid_ok parse_address show_address C).
Abbreviation refreshes := (refresh_all uuid_ok parse_address show_address C).
Abbreviation exchanging := (exchange uuid_ok parse_address show_address C).
Definition stored (s : Renewal) : option Identity := se_cred (rn_session s) ≫= st_identity.

(** The same credentials, perhaps with a request now in flight. *)
Record pending_kept (i j : Identity) : Prop := {
  pk_refresh : id_RefreshToken j = id_RefreshToken i;
  pk_access : id_AccessToken j = id_AccessToken i;
  pk_agent : id_AgentID j = id_AgentID i;
  pk_generation : id_Generation j = id_Generation i;
  pk_request : forall p, id_PendingRefresh i = Some p -> id_PendingRefresh j = Some p;
}.
#[local] Instance pending_kept_preorder : PreOrder pending_kept.
Proof. split; [by split|]. intros a b c [] []. split; try congruence. auto. Qed.

(** The next pair of the same agent, taken over for the request in flight. *)
Record rotated (i j : Identity) : Prop := {
  ro_agent : id_AgentID j = id_AgentID i;
  ro_pending : id_PendingRefresh j = None;
  ro_generation : exists g, id_Generation j = Some g /\ forall b, id_Generation i = Some b -> g = wrapu64 (b + 1);
}.

Lemma BeginRefresh_cases now uuid store w r store' w' i :
  st_identity store = Some i -> BeginRefresh now uuid store w = (r, store', w') ->
  match r with
  | Ok p => st_identity store' = Some p /\ pending_kept i p /\ id_RefreshToken i <> ""
  | Err _ => store' = store
  end.
Proof.
  intros Hi. unfold BeginRefresh. rewrite Hi. destruct (id_RefreshToken i =? "")%string eqn:Et; [by intros [= <- <- _]|].
  apply String.eqb_neq in Et. destruct (id_PendingRefresh i) as [p|] eqn:Ep.
  - intros [= <- <- _]. split_and!; [done|reflexivity|done].
  - unfold commit_identity. destruct (Credentials.persist _ _ w) as [[[]|e] w1]; intros [= <- <- _]; [|done].
    split_and!; [done| |done]. split; try done. congruence.
Qed.
Lemma CommitRefresh_cases now before after store w r store' w' :
  CommitRefresh now before after store w = (r, store', w') ->
  match r with
  | Ok _ => exists i', st_identity store' = Some i' /\ id_AgentID i' = id_AgentID before /\ id_PendingRefresh i' = None /\
      id_AccessToken i' = id_AccessToken after /\
      exists g, id_Generation i' = Some g /\ forall b, id_Generation before = Some b -> g = wrapu64 (b + 1)
  | Err _ => store' = store
  end.
Proof.
  intros H. destruct r as [[]|e].
  - pose proof H as H2. apply CommitRefresh_ok_inv in H2 as (stored & _ & Hm & _ & Hc).
    apply CommitRefresh_ok in H as (st & ps & pb & g & i' & _ & _ & _ & _ & _ & _ & Ha & Hg & Hb & Hs & Hp & _ & Hat & Hg' & _).
    exists i'. split_and!; try done.
    + unfold commit_identity in Hc. destruct (Credentials.persist _ _ w) as [[[]|] w1]; [|done]. injection Hc as <- <-. simpl in Hs. by injection Hs as <-.
    + by exists g.
  - unfold CommitRefresh in H. destruct (st_identity store) as [st|]; [|by injection H as _ <- _].
    destruct (negb (commit_matches st before after)); [by injection H as _ <- _|].
    destruct (negb (generation_follows before after)); [by injection H as _ <- _|].
    unfold commit_identity in H. destruct (Credentials.persist _ _ w) as [[[]|] w1]; [done|by injection H as _ <- _].
Qed.

(** The memory of the process apart from the stored identity. *)
Lemma exchange_cases a s r s' i :
  stored s = Some i -> exchanging a s = (r, s') ->
  rn_retryAt s' = rn_retryAt s /\ rn_lastErr s' = rn_lastErr s /\ rn_log s' = rn_log s /\
  exists j, stored s' = Some j /\
  match r with
  | Ok _ => rotated i j /\ rn_token s' = id_AccessToken j
  | Err _ => pending_kept i j /\ rn_token s' = rn_token s
  end.
Proof.
  intros Hi. unfold exchange. unfold stored in Hi. destruct (se_cred (rn_session s)) as [store|] eqn:Ec; [|done]. simpl in Hi.
  assert (Hsame : exists j, stored s = Some j /\ pending_kept i j /\ rn_token s = rn_token s)
    by (exists i; unfold stored; rewrite Ec; by split_and!).
  destruct (renewal_identity C s) as [v|]; [|by intros [= <- <-]].
  destruct (blank _); [by intros [= <- <-]|].
  destruct (normalizeEndpoint _ _ _); [|by intros [= <- <-]].
  destruct (BeginRefresh _ _ store _) as [[rb store1] w1] eqn:Eb. apply (BeginRefresh_cases _ _ _ _ _ _ _ i) in Eb; [|done].
  destruct rb as [p|e]; [|intros [= <- <-]; subst; simpl; split_and!; try done; exists i; split; [done|]; split; reflexivity].
  destruct Eb as (Hs1 & Hk & _).
  destruct (Refresh _ _ _ _ _ _ _ _ _) as [next|e]; [|intros [= <- <-]; simpl; split_and!; try done; by exists p].
  destruct (CommitRefresh _ _ _ _ _) as [[rc store2] w2] eqn:Ecm. apply CommitRefresh_cases in Ecm. destruct rc as [[]|e].
  - destruct Ecm as (j & Hj & Hag & Hpe & Hat & g & Hg & Hb). simpl in Hag, Hb. intros [= <- <-]. simpl. split_and!; try done. exists j.
    split; [done|]. split; [|done]. destruct Hk. split; [congruence|done|]. exists g. split; [done|]. intros b Hgb. apply Hb. congruence.
  - subst. intros [= <- <-]. simpl. split_and!; try done. by exists p.
Qed.

(** ** The memory of failures *)

(** Of two exchanges in a row of which the first failed, the second waits out
    its delay. The log has the latest first. *)
Definition follows (later earlier : time * time * option renew_err) : Prop :=
  match earlier with (_, over, Some e) => t_add over (retry_delay e) <= later.1.1 | _ => True end.
Fixpoint spaced (l : list (time * time * option renew_err)) : Prop :=
  match l with
  | later :: (earlier :: _) as l => follows later earlier /\ spaced l
  | _ => True
  end.
(** What is remembered is the latest outcome. *)
Definition remembers (s : Renewal) : Prop :=
  match rn_log s with
  | (_, over, Some e) :: _ => rn_lastErr s = Some e /\ rn_retryAt s = t_add over (retry_delay e)
  | _ => rn_lastErr s = None
  end.
Lemma spaced_cons x l : spaced l -> match l with y :: _ => follows x y | [] => True end -> spaced (x :: l).
Proof. destruct l; simpl; auto. Qed.

Lemma exchange_memory a s r s' :
  exchanging a s = (r, s') -> rn_retryAt s' = rn_retryAt s /\ rn_lastErr s' = rn_lastErr s /\ rn_log s' = rn_log s.
Proof.
  unfold exchange. destruct (renewal_identity C s); [|by intros [= <- <-]]. destruct (se_cred _); [|by intros [= <- <-]].
  destruct (blank _); [by intros [= <- <-]|]. destruct (normalizeEndpoint _ _ _); [|by intros [= <- <-]].
  destruct (BeginRefresh _ _ _ _) as [[[] ?] ?]; [|by intros [= <- <-]].
  destruct (Refresh _ _ _ _ _ _ _ _ _); [|by intros [= <- <-]]. destruct (CommitRefresh _ _ _ _ _) as [[[] ?] ?]; by intros [= <- <-].
Qed.
Lemma refresh_remembers old a s r s' :
  refresh old a s = (r, s') -> remembers s -> spaced (rn_log s) -> remembers s' /\ spaced (rn_log s').
Proof.
  intros H Hr Hs. unfold refreshCredentials in H. destruct (_ && _); [by injection H as <- <-|].
  assert (Hgo : match rn_lastErr s with Some e => before (at_check a) (rn_retryAt s) = false | None => True end ->
    (let '(r, s1) := exchanging a s in (r, remember a r s1)) = (r, s') -> remembers s' /\ spaced (rn_log s')).
  { intros Hc He. destruct (exchanging a s) as [r1 s1] eqn:Ex. apply exchange_memory in Ex as (_ & _ & Hl). injection He as <- <-.
    assert (Hf : match rn_log s with y :: _ => follows (at_check a, at_fail a, match r1 with Ok _ => None | Err e => Some e end) y | [] => True end).
    { unfold remembers in Hr. destruct (rn_log s) as [|[[c o] [e|]] l]; [done| |done]. destruct Hr as [Hr1 Hr2]. rewrite Hr1 in Hc.
      unfold follows. simpl. rewrite Hr2 in Hc. tlia. }
    destruct r1 as [[]|e]; simpl; rewrite Hl; (split; [done || by split|]); by apply spaced_cons. }
  destruct (rn_lastErr s) as [e|] eqn:Ee; [|by apply Hgo].
  destruct (before _ _) eqn:Eb; [by injection H as <- <-|by apply Hgo].
Qed.

(** However many workers ask for a refresh and whenever, the panel is left
    alone after a failed exchange: the next one starts at least five seconds later,
    and fifteen minutes later when the panel refused the credentials for good. *)
Theorem exchanges_are_spaced l s :
  rn_log s = [] -> rn_lastErr s = None -> spaced (rn_log (refreshes l s)).
Proof.
  intros Hl He. assert (Hi : remembers s /\ spaced (rn_log s)) by (unfold remembers; by rewrite Hl).
  clear Hl He. enough (remembers (refreshes l s) /\ spaced (rn_log (refreshes l s))) as [_ H] by exact H. revert s Hi.
  induction l as [|[old a] l IH]; intros s [Hr Hs]; [done|]. simpl. apply IH.
  destruct (refresh old a s) as [r s1] eqn:E. by eapply refresh_remembers.
Qed.


(** ** The worker *)

Definition within_backoff (act : action) : Prop := match act with BackedOff d => 5 * second <= d <= minute | _ => True end.
Definition permanent_failure (act : action) : Prop := match act with RenewFailed e => permanentCredentialRejection e = true | _ => False end.
Lemma renewal_turn_spec t b s o acts s' :
  5 * second <= b <= minute -> renewal_turn uuid_ok parse_address show_address C t b s = (o, acts, s') ->
  Forall within_backoff acts /\
  match o with
  | Running b' => 5 * second <= b' <= minute /\ Forall (fun x => ~ permanent_failure x) acts
  | Finished => True
  end.
Proof.
  intros Hb. unfold renewal_turn. destruct (renewal_identity _ _) as [i|]; [|by intros [= <- <- _]].
  destruct (tn_stop t); [intros [= <- <- _]; split; [by repeat constructor|done]|].
  destruct (renewal_identity _ _) as [j|]; [|intros [= <- <- _]; split; [by repeat constructor|done]].
  destruct (0 <? _); [intros [= <- <- _]; split; [by repeat constructor|]; split; [done|]; repeat constructor; naive_solver|].
  destruct (refresh _ _ _) as [[[]|e] s1].
  - intros [= <- <- _]. split; [by repeat constructor|]. split; [unfold minute, second; lia|]. repeat constructor; naive_solver.
  - destruct (tn_stopped t || permanentCredentialRejection e) eqn:Ep; [intros [= <- <- _]; split; [by repeat constructor|done]|].
    apply orb_false_iff in Ep as [_ Ep]. destruct (tn_stopBackoff t); intros [= <- <- _]; (split; [repeat constructor; simpl; tauto|]); [done|].
    split; [unfold minute, second in *; lia|]. repeat constructor; simpl; rewrite ?Ep; naive_solver.
Qed.

(** The renewal worker never hammers the panel and never gives up on a
    passing failure: each pause after a failed renewal lasts between five seconds
    and a minute, and a refusal of the credentials is the last thing it sees. *)
Theorem renewal_backs_off l s o acts s' :
  runCredentialRenewal uuid_ok parse_address show_address C l s = (o, acts, s') ->
  Forall within_backoff acts /\ forall before e after, acts = (before ++ RenewFailed e :: after)%list ->
    permanentCredentialRejection e = true -> o = Finished.
Proof.
  enough (Hgen : forall b, 5 * second <= b <= minute ->
    run_renewal uuid_ok parse_address show_address C l b s = (o, acts, s') -> Forall within_backoff acts /\
    forall before e after, acts = (before ++ RenewFailed e :: after)%list -> permanentCredentialRejection e = true -> o = Finished)
    by (apply Hgen; unfold minute, second; lia).
  intros b Hb. revert b s o acts s' Hb.
  induction l as [|t l IH]; intros b s o acts s' Hb H; simpl in H.
  { injection H as <- <- <-. split; [done|]. intros [|? ?] e after Ha; done. }
  destruct (renewal_turn _ _ _ _ _ _ _) as [[o1 acts1] s1] eqn:Et. apply renewal_turn_spec in Et as [Hw Ht]; [|done].
  destruct o1 as [b1|]; [|by injection H as <- <- <-]. destruct Ht as [Hb1 Hnp].
  destruct (run_renewal _ _ _ _ l b1 s1) as [[o2 rest] s2] eqn:Er. injection H as <- <- <-. apply IH in Er as [Hw2 Hp2]; [|done].
  split; [by apply Forall_app|]. intros bef e aft Ha He.
  assert (Hin : RenewFailed e ∈ acts1 \/ RenewFailed e ∈ rest) by (apply elem_of_app; rewrite Ha; apply elem_of_app; right; by left).
  destruct Hin as [Hin|Hin]; [rewrite Forall_forall in Hnp; by destruct (Hnp _ Hin)|].
  apply list_elem_of_split in Hin as (b' & a' & ->). by eapply Hp2.
Qed.

(** Keys that are pinned are never replaced by fetched ones. *)
Lemma ensureTrustBundle_keeps_pins bundle now s i :
  stored s = Some i -> id_ControlPlaneKeys i <> [] -> ensureTrustBundle parse_address show_address bundle now s = (Ok tt, s).
Proof.
  unfold stored, ensureTrustBundle. destruct (se_cred _) as [store|]; [|done]. simpl. intros -> Hk.
  rewrite bool_decide_eq_false_2 by done. by rewrite orb_true_r.
Qed.

(** ** A process whose token is not the stored one

    With an identity that has no access token and a process started with a token
    of its own, every turn of the worker sleeps for nothing, is told that somebody
    else already refreshed, and starts over. *)
Theorem renewal_spins_without_token l s i :
  renewal_identity C s = Some i -> id_AccessToken i = "" -> rn_token s <> "" ->
  Forall (fun t => tn_before t = [] /\ tn_meanwhile t = [] /\ tn_stop t = false) l ->
  runCredentialRenewal uuid_ok parse_address show_address C l s =
    (Running (5 * second), concat (map (fun _ => [Slept 0; Renewed]) l), s).
Proof.
  intros Hi Ha Ht. unfold runCredentialRenewal. induction l as [|t l IH]; intros Hall; [done|].
  apply Forall_cons in Hall as [(Hb & Hm & Hs) Hall]. simpl. unfold renewal_turn. rewrite Hb, Hm. simpl. rewrite Hi, Hs.
  assert (Hd : forall now, credentialRenewalDelay i now = 0) by (intros now; unfold credentialRenewalDelay; by rewrite Ha, orb_true_r).
  rewrite !Hd. simpl. unfold refreshCredentials. rewrite Ha, (proj2 (String.eqb_neq _ _) Ht). simpl. by rewrite IH.
Qed.
End RefreshTheorems.
