(* ===== verification/Dpop.v ===== *)
(** * Signed requests ([requestheaders/dpop.go])

    Every request of the enrolled agent carries a signature over its method,
    path, time, nonce, token and body; a request the panel answers with 401 is
    signed again once, with the token a refresh brought. *)

From S2P Require Import Prelude.
From S2P Require Import GoStd.
From S2P Require Import External.
From S2P Require Import Credentials.

Local Open Scope string_scope.
Local Open Scope Z_scope.

Definition line_feed : string := String (byte_of 10) "".

(** What the transport reads of an [http.Request]. [hr_stream]: the length is
    unknown and [GetBody] is nil. *)
Record HttpRequest := mkHttpRequest {
  hr_Method : string; hr_Path : string; hr_Authorization : string; hr_Body : option bytes; hr_stream : bool }.
(** What goes on the wire: the signature's fields, when there are any, and the
    body, of which a stream that was sent before has nothing left. *)
Record Signed := mkSigned { sg_token : string; sg_timestamp : string; sg_nonce : string; sg_signature : bytes; sg_stream : bool }.
Inductive Body := NoBody | Bytes (b : bytes) | Stream (b : bytes) | Spent.
Record Sent := mkSent { sn_Method : string; sn_Path : string; sn_Signed : option Signed; sn_Body : Body }.

Definition DPoPPrivateKey (i : Identity) : option bytes :=
  if (id_PrivateKey i =? "")%string then None else match SigningKey i with Ok k => Some k | Err _ => None end.

Section Dpop.
Context `{CR : Crypto}.

Definition body_hash (stream : bool) (b : bytes) : string := hex_encode (sha256 (if stream then "" else b)).
(** [fmt.Sprintf("%s\n%s\n%s\n%s\n%s\n%s", ...)] *)
Definition dpop_payload (method path timestamp nonce token_hash hash : string) : bytes :=
  method ++ line_feed ++ path ++ line_feed ++ timestamp ++ line_feed ++ nonce ++ line_feed ++ token_hash ++ line_feed ++ hash.
Definition signRequest (key : bytes) (r : HttpRequest) (stream : bool) (body : bytes) (unix : Z) (nonce token : string) : Signed :=
  let ts := itoa unix in
  mkSigned token ts nonce
    (ed25519_sign key (dpop_payload (hr_Method r) (hr_Path r) ts nonce (hex_encode (sha256 token)) (body_hash stream body))) stream.

(** The token of the request: the provider's, the one already in the header, or
    the stored one. *)
Definition request_token (r : HttpRequest) (provided : string) (i : Identity) : string :=
  let t := provided in
  let t := if (t =? "")%string && has_prefix (hr_Authorization r) "Bearer " then trim_prefix (hr_Authorization r) "Bearer " else t in
  if (t =? "")%string then id_AccessToken i else t.

(** What a round trip meets: the token now and after a refresh, whether the
    body can be read, the clock and nonce of each signature, the answers of the
    base transport, and [On401]. *)
Record Trip := mkTrip {
  tp_provided : string; tp_readable : bool;
  tp_unix : Z; tp_nonce : string; tp_answer : option Z;
  tp_on401 : option bool;            (** [None]: no handler; otherwise whether the refresh succeeded *)
  tp_renewed : string; tp_unix2 : Z; tp_nonce2 : string; tp_answer2 : option Z }.

Inductive trip_result := Response (status : option Z) | ReadFailed.

Definition plain (r : HttpRequest) : Sent :=
  mkSent (hr_Method r) (hr_Path r) None
    (match hr_Body r with None => NoBody | Some b => if hr_stream r then Stream b else Bytes b end).
Definition RoundTrip (identity : option Identity) (r : HttpRequest) (t : Trip) : list Sent * trip_result :=
  let forward := ([plain r], Response (tp_answer t)) in
  match identity with
  | None => forward
  | Some i =>
      match DPoPPrivateKey i with
      | None => forward
      | Some key =>
          let token := request_token r (tp_provided t) i in
          if (token =? "")%string then forward else
          let stream := bool_decide (hr_Body r <> None) && hr_stream r in
          if negb stream && bool_decide (hr_Body r <> None) && negb (tp_readable t) then ([], ReadFailed) else
          let body := match hr_Body r with Some b => b | None => "" end in
          let sent := match hr_Body r with None => NoBody | Some b => if stream then Stream b else Bytes b end in
          let first := mkSent (hr_Method r) (hr_Path r) (Some (signRequest key r stream body (tp_unix t) (tp_nonce t) token)) sent in
          let refreshed := bool_decide (tp_answer t = Some 401) && bool_decide (tp_on401 t = Some true) in
          if refreshed && (negb (tp_renewed t =? "")%string && negb (tp_renewed t =? token)%string) then
            ([first; mkSent (hr_Method r) (hr_Path r)
                       (Some (signRequest key r stream body (tp_unix2 t) (tp_nonce2 t) (tp_renewed t)))
                       (if stream then Spent else sent)],
             Response (tp_answer2 t))
          else ([first], Response (tp_answer t))
      end
  end.

(** ** What a signature covers *)

Lemma app_split_first {A} (a : A) l m l' m' : a ∉ l -> a ∉ l' -> (l ++ a :: m = l' ++ a :: m')%list -> l = l' /\ m = m'.
Proof.
  revert l'. induction l as [|b l IH]; intros [|b' l'] Hl Hl'; simpl; intros H.
  - by injection H as ->.
  - injection H as <- _. exfalso. apply Hl'. by left.
  - injection H as -> _. exfalso. apply Hl. by left.
  - injection H as <- H. destruct (IH l') as [-> ->]; [by intros ?; apply Hl; right|by intros ?; apply Hl'; right|done|done].
Qed.
Lemma app_split_last {A} (a : A) l m l' m' : a ∉ m -> a ∉ m' -> (l ++ a :: m = l' ++ a :: m')%list -> l = l' /\ m = m'.
Proof.
  intros H1 H2 H. apply (f_equal (@rev A)) in H. rewrite !rev_app_distr in H. simpl in H. rewrite <- !app_assoc in H. simpl in H.
  apply app_split_first in H as [Ht Hs].
  - apply (f_equal (@rev A)) in Ht, Hs. by rewrite !rev_involutive in Ht, Hs.
  - rewrite list_elem_of_In, <- in_rev, <- list_elem_of_In. exact H1.
  - rewrite list_elem_of_In, <- in_rev, <- list_elem_of_In. exact H2.
Qed.

Abbreviation lf := (byte_of 10).
Lemma digit_not_lf k : (k < 10)%nat -> digit k <> lf.
Proof. intros Hk. do 10 (destruct k as [|k]; [done|]). lia. Qed.
Lemma utoa_no_lf n : lf ∉ chars (utoa n).
Proof.
  unfold utoa. rewrite chars_of_chars. assert (Hg : forall fuel n acc, lf ∉ acc -> lf ∉ utoa_go fuel n acc).
  { intros fuel. induction fuel as [|fuel IH]; intros m acc Ha; simpl; [done|].
    assert (Hd : lf ∉ digit (Z.to_nat (m mod 10)) :: acc).
    { intros [Heq|Hin]%elem_of_cons; [|done]. symmetry in Heq. revert Heq. apply digit_not_lf.
      pose proof (Z.mod_pos_bound m 10). lia. }
    destruct (m / 10 =? 0); [done|]. by apply IH. }
  apply Hg. apply not_elem_of_nil.
Qed.
Lemma itoa_no_lf n : lf ∉ chars (itoa n).
Proof.
  unfold itoa. destruct (n <? 0); [|apply utoa_no_lf]. rewrite chars_app. intros [H|H]%elem_of_app; [|by apply utoa_no_lf in H].
  apply list_elem_of_singleton in H. discriminate H.
Qed.
Lemma hex_no_lf s : lf ∉ chars (hex_encode s).
Proof.
  assert (Hd : forall k, (k < 16)%nat -> hex_digit k <> lf) by (intros k Hk; do 16 (destruct k as [|k]; [done|]); lia).
  induction s as [|a s IH]; [apply not_elem_of_nil|]. unfold chars in *. cbn [hex_encode String.list_ascii_of_string]. pose proof (nat_ascii_bounded a) as Hb. fold (code a) in Hb.
  intros [H|[H|H]%elem_of_cons]%elem_of_cons; [| |done]; symmetry in H; revert H; apply Hd.
  - apply Nat.Div0.div_lt_upper_bound. lia.
  - apply Nat.mod_upper_bound. lia.
Qed.

Lemma chars_lf s t : chars (s ++ line_feed ++ t) = (chars s ++ lf :: chars t)%list.
Proof. by rewrite !chars_app. Qed.

(** A signature covers exactly one request: two requests, whatever their
    paths, whose signed payloads are the same have the same method, path, time and
    nonce, and tokens and bodies of the same hash. (A method and a nonce have no
    line feed.) *)
Theorem signature_binds_request m p unix n th h m' p' unix' n' th' h' token body token' body' stream stream' :
  lf ∉ chars m -> lf ∉ chars m' -> lf ∉ chars n -> lf ∉ chars n' ->
  th = hex_encode (sha256 token) -> th' = hex_encode (sha256 token') ->
  h = body_hash stream body -> h' = body_hash stream' body' ->
  dpop_payload m p (itoa unix) n th h = dpop_payload m' p' (itoa unix') n' th' h' ->
  m = m' /\ p = p' /\ itoa unix = itoa unix' /\ n = n' /\ sha256 token = sha256 token' /\
  sha256 (if stream then "" else body) = sha256 (if stream' then "" else body').
Proof.
  intros Hm Hm' Hn Hn' -> -> -> -> H. apply (f_equal chars) in H. unfold dpop_payload in H. rewrite !chars_lf in H.
  apply app_split_first in H as [H1 H]; [|done|done].
  assert (Hr : forall (a b c d e : list ascii), (a ++ lf :: b ++ lf :: c ++ lf :: d ++ lf :: e =
     (((a ++ lf :: b) ++ lf :: c) ++ lf :: d) ++ lf :: e)%list) by (intros; rewrite <- !app_assoc; done).
  rewrite !Hr in H. unfold body_hash in H.
  apply app_split_last in H as [H H6]; [|apply hex_no_lf..]. apply app_split_last in H as [H H5]; [|apply hex_no_lf..].
  apply app_split_last in H as [H H4]; [|done..]. apply app_split_last in H as [H2 H3]; [|apply itoa_no_lf..].
  assert (Hi : forall s t, chars s = chars t -> s = t) by (intros s t Hst; by rewrite <- (of_chars_chars s), Hst, of_chars_chars).
  apply Hi in H1, H2, H3, H4. apply Hi, hex_encode_inj in H5, H6. by split_and!.
Qed.

(** [s] is the request [r], signed by [key] over its own token, time and nonce
    and, unless it is a stream, over the body that goes with it. *)
Definition covered (key : bytes) (r : HttpRequest) (s : Sent) : Prop :=
  sn_Method s = hr_Method r /\ sn_Path s = hr_Path r /\
  exists g body, sn_Signed s = Some g /\
    sg_signature g = ed25519_sign key (dpop_payload (hr_Method r) (hr_Path r) (sg_timestamp g) (sg_nonce g)
      (hex_encode (sha256 (sg_token g))) (body_hash (sg_stream g) body)) /\
    (forall b, sn_Body s = Bytes b -> body = b /\ sg_stream g = false).

(** A round trip puts the request on the wire at most twice, the second time
    only after a 401 and a refresh that brought another token; both times with the
    method and path of the request and a signature by the agent's key that covers
    them, the token, the time, the nonce and the body; and nothing is sent when
    the body cannot be read. *)
Theorem RoundTrip_signs_and_retries_once i key r t sent out :
  DPoPPrivateKey i = Some key -> request_token r (tp_provided t) i <> "" ->
  RoundTrip (Some i) r t = (sent, out) ->
  (length sent <= 2)%nat /\ Forall (covered key r) sent /\ (out = ReadFailed -> sent = []) /\
  forall a b, sent = [a; b] -> tp_answer t = Some 401 /\ tp_on401 t = Some true /\
    exists g g', sn_Signed a = Some g /\ sn_Signed b = Some g' /\ sg_token g' <> sg_token g /\ sg_token g' = tp_renewed t.
Proof.
  intros Hk Ht. unfold RoundTrip. rewrite Hk, (proj2 (String.eqb_neq _ _) Ht).
  set (token := request_token r (tp_provided t) i) in *. destruct (_ && _ && _); [intros [= <- <-]; split_and!; [simpl; lia|done..]|].
  set (stream := bool_decide (hr_Body r <> None) && hr_stream r). set (body := match hr_Body r with Some b => b | None => "" end).
  set (wire := match hr_Body r with None => NoBody | Some b => if stream then Stream b else Bytes b end).
  assert (Hone : forall u n tok w, (forall b, w = Bytes b -> wire = Bytes b) ->
    covered key r (mkSent (hr_Method r) (hr_Path r) (Some (signRequest key r stream body u n tok)) w)).
  { intros u n tok w Hw. split_and!; [done|done|]. eexists _, body. split; [done|]. split; [done|]. simpl. intros b Hb. apply Hw in Hb.
    unfold wire, body in *. destruct (hr_Body r); [|done]. destruct stream; [done|]. by injection Hb as ->. }
  destruct (_ && (_ && _)) eqn:Er; intros [= <- <-].
  - apply andb_true_iff in Er as [[E1 E2]%andb_true_iff [_ Er]%andb_true_iff]. apply bool_decide_eq_true in E1, E2.
    apply negb_true_iff, String.eqb_neq in Er. split_and!; [simpl; lia| |done|].
    + constructor; [by apply Hone|]. constructor; [|constructor]. apply Hone. destruct stream; [done|auto].
    + intros a b [= <- <-]. split_and!; [done|done|]. eexists _, _. split_and!; [done|done|exact Er|done].
  - split_and!; [simpl; lia| |done|done]. constructor; [by apply Hone|constructor].
Qed.

(** A streamed request is sent again although its body was already consumed. *)
Theorem retried_stream_has_no_body i key r b t token :
  DPoPPrivateKey i = Some key -> request_token r (tp_provided t) i = token -> token <> "" ->
  hr_Body r = Some b -> hr_stream r = true -> tp_answer t = Some 401 -> tp_on401 t = Some true ->
  tp_renewed t <> "" -> tp_renewed t <> token ->
  exists s1 s2, fst (RoundTrip (Some i) r t) = [s1; s2] /\ sn_Body s1 = Stream b /\ sn_Body s2 = Spent.
Proof.
  intros Hk Htok Ht Hb Hs Ha Ho Hr Hne. unfold RoundTrip. rewrite Hk, Htok, (proj2 (String.eqb_neq _ _) Ht), Hb, Hs. simpl.
  rewrite Ha, Ho, !bool_decide_eq_true_2 by done. rewrite (proj2 (String.eqb_neq _ _) Hr), (proj2 (String.eqb_neq _ _) Hne). simpl. eauto.
Qed.
End Dpop.
