(* ===== verification/Executions.v ===== *)
(** * Remote executions ([clientcore/client.go], [server/execution.go])

    A command the panel assigns: its signature, the table of jobs of which at most
    four run, the process with its output limit, and the numbered events that tell
    the panel how it goes. *)

From Stdlib Require Import Sorting.Sorted.
From S2P Require Import Prelude.
From S2P Require Import GoStd.
From S2P Require Import Disk.
From S2P Require Import External.
From S2P Require Import Credentials.
From S2P Require Import Replay.
From S2P Require Import Signing.
From S2P Require Import Privileged.
From S2P Require Import HostOps.
From S2P Require Import RuntimeConfig.
From S2P Require Import Effective.
From S2P Require Import Enrollment.
From S2P Require Import Session.
From S2P Require Import Renewal.

Local Open Scope string_scope.
Local Open Scope Z_scope.

(** ** Messages *)

Record ExecutionSpec := mkExecutionSpec {
  ex_Command : string; ex_Arguments : list string; ex_WorkingDirectory : string;
  ex_Environment : list (string * string); ex_Timeout : option Duration; ex_MaxOutputBytes : Z }.
(** [xa_Execution] is the identifier of the execution, when there is one. *)
Record ExecutionAssignment := mkAssignment { xa_Execution : option string; xa_Envelope : option SignedEnvelope }.
Inductive OperationState := StateRunning | StateSucceeded | StateFailed | StateCancelled | StateDeadlineExceeded.
#[export] Instance OperationState_eq : EqDecision OperationState.
Proof. solve_decision. Defined.
(** [ev_Error]: its code; the message is the text of the error. *)
Record ExecutionEvent := mkEvent {
  ev_ExecutionId : string; ev_Sequence : Z; ev_State : OperationState; ev_Output : option (Z * bytes);
  ev_ExitCode : option Z; ev_Error : option string }.

Inductive exec_err :=
| ExecNoEnvelope | ExecNoKeys | ExecVerify (e : sign_err) | ExecType | ExecUnmarshal
| ExecDenied | ExecCommand | ExecBuild | ExecEnvironment | ExecStart | ExecOutputLimit | ExecEmit | ExecReader
| ExecContext | ExecExit.

(** ** Whose command it is *)

Record Executor := mkExecutor { xs_renewal : Renewal; xs_guard : ReplayGuard }.
Definition exec_world (s : Executor) : World := se_world (rn_session (xs_renewal s)).
Definition with_exec_world (w : World) (r : Renewal) : Renewal :=
  mkRenewal (with_world w (rn_session r)) (rn_endpoint r) (rn_configured r) (rn_token r) (rn_retryAt r) (rn_lastErr r) (rn_log r).
Definition exec_kind : string := "exec:v1".

Section Verify.
Context `{CR : Crypto} `{PT : ProtoTime} `{JI : Json Identity} `{WI : Wire SignedInstruction} `{JE : Json (option entries)}.
Context `{WS : Wire ExecutionSpec}.
Variable iter : entries -> list (string * time).
Variable parse_address : string -> option Address.
Variable show_address : Address -> string.
Variable C : Client.

(** An identity with pinned keys. *)
Definition keyed_identity (r : Renewal) : option Identity :=
  match renewal_identity C r with
  | Some i => if bool_decide (id_ControlPlaneKeys i = []) then None else Some i
  | None => None
  end.
(** [bundle] and [tnow]: what a trust bundle fetched on the way would be. *)
Definition exec_identity (bundle : option TrustBundle) (tnow : time) (r : Renewal) : option Identity * Renewal :=
  match keyed_identity r with
  | Some i => (Some i, r)
  | None =>
      match ensureTrustBundle parse_address show_address bundle tnow r with
      | (Ok _, r) => (keyed_identity r, r)
      | (Err _, r) => (keyed_identity r, r)
      end
  end.
Definition named_identity (r : Renewal) (i : Identity) : Identity :=
  if (id_AgentID i =? "")%string
  then with_credentials (se_agentID (rn_session r)) (id_AccessToken i) (id_AccessTokenExpiresAt i) (id_RefreshToken i)
         (id_RefreshTokenExpiresAt i) (id_Scopes i) i
  else i.
Definition verifyExecutionAssignment (bundle : option TrustBundle) (tnow now wall : time) (a : ExecutionAssignment) (s : Executor)
    : result ExecutionSpec exec_err * Executor :=
  match xa_Envelope a with
  | None => (Err ExecNoEnvelope, s)
  | Some _ =>
      let '(i, r) := exec_identity bundle tnow (xs_renewal s) in
      match i with
      | None => (Err ExecNoKeys, mkExecutor r (xs_guard s))
      | Some i =>
          let i := named_identity r i in
          match Verify iter (Signing.New i (Some (xs_guard s))) now wall (xa_Envelope a) (se_world (rn_session r)) with
          | (out, g, w) =>
              let s := mkExecutor (with_exec_world w r) (default (xs_guard s) g) in
              match out with
              | Err e => (Err (ExecVerify e), s)
              | Ok v =>
                  if negb (in_InstructionType v =? exec_kind)%string then (Err ExecType, s) else
                  match wire_unmarshal (in_Body v) with
                  | None => (Err ExecUnmarshal, s)
                  | Some spec => (Ok spec, s)
                  end
              end
          end
      end
  end.
End Verify.

(** ** The process *)

Inductive ctx_err := Cancelled | DeadlineExceeded.
#[export] Instance ctx_err_eq : EqDecision ctx_err.
Proof. solve_decision. Defined.
(** What the operating system makes of the command: whether it can be built and
    started, its output in the order it is read, the exit code ([None]: success),
    a read error, and the state of the context when it is over and when the agent
    looks at it again. *)
Record Process := mkProcess {
  pc_allowed : bool; pc_built : bool; pc_started : bool; pc_chunks : list (Z * bytes);
  pc_exit : option Z; pc_reader : bool; pc_ctx : option ctx_err; pc_ctx_after : option ctx_err }.

(** The command line: the arguments directly, or the command fed to a shell;
    on Windows a script file is written, unless that fails. *)
Inductive CommandLine := Direct (path : string) (args : list string) | Shell (stdin : string) | PowerShell (script : string).
Definition script_prefix : string := "[Console]::OutputEncoding = [System.Text.Encoding]::UTF8".
Definition buildTypedCommand (goos : string) (spec : ExecutionSpec) (written : bool) : option CommandLine :=
  match ex_Arguments spec with
  | _ :: _ => Some (Direct (ex_Command spec) (ex_Arguments spec))
  | [] =>
      if negb (goos =? "windows")%string then Some (Shell (ex_Command spec))
      else if written
      then Some (PowerShell (of_chars [byte_of 239; byte_of 187; byte_of 191] ++ script_prefix ++ String (byte_of 10) (ex_Command spec)))
      else None
  end.
Definition bad_variable (kv : string * string) : bool :=
  existsb (fun a => Nat.eqb (code a) 61 || Nat.eqb (code a) 0) (chars kv.1) || existsb (fun a => Nat.eqb (code a) 0) (chars kv.2).

(** ** Events *)

(** What one report call meets: the panel's sequence, or an error with whether
    the context is done after it and while the agent waits to try again. *)
Inductive answer := Accepted (sequence : Z) | Refused (done : bool) (interrupted : bool).
(** [rp_sent] is every event that was sent and [rp_accepted] those the panel
    took, latest first. *)
Record Reporter := mkReporter {
  rp_sequence : Z; rp_sent : list ExecutionEvent; rp_accepted : list ExecutionEvent; rp_answers : list answer }.
Definition send_event (e : ExecutionEvent) (r : Reporter) : answer * Reporter :=
  (hd (Refused true true) (rp_answers r), mkReporter (rp_sequence r) (e :: rp_sent r) (rp_accepted r) (tl (rp_answers r))).
Definition accept_event (e : ExecutionEvent) (accepted : Z) (r : Reporter) : Reporter :=
  mkReporter (Z.max (ev_Sequence e) accepted) (rp_sent r) (e :: rp_accepted r) (rp_answers r).
Definition numbered (id : string) (candidate : Z) (e : ExecutionEvent) : ExecutionEvent :=
  mkEvent id candidate (ev_State e) (ev_Output e) (ev_ExitCode e) (ev_Error e).

Section Execute.
Variable id : string.

(** The attempts of one event; all carry the number that follows the last
    accepted one. *)
Fixpoint report_attempts (n : nat) (candidate : Z) (e : ExecutionEvent) (r : Reporter) : bool * Reporter :=
  match n with
  | O => (false, r)
  | S n =>
      let m := numbered id candidate e in
      let '(a, r) := send_event m r in
      match a with
      | Accepted accepted => (true, accept_event m accepted r)
      | Refused true _ | Refused false true => (false, r)
      | Refused false false => report_attempts n candidate e r
      end
  end.
Definition report_event (e : ExecutionEvent) (r : Reporter) : bool * Reporter :=
  report_attempts 3 (wrapu64 (rp_sequence r + 1)) e r.
Definition running_event (o : option (Z * bytes)) : ExecutionEvent := mkEvent "" 0 StateRunning o None None.

(** The loop over the output; after an error the rest is drained. *)
Fixpoint emit_chunks (limit : Z) (total : Z) (chunks : list (Z * bytes)) (r : Reporter) : option exec_err * Reporter :=
  match chunks with
  | [] => (None, r)
  | c :: chunks =>
      if limit <? wrapu64 (slen c.2 + total) then (Some ExecOutputLimit, r) else
      match report_event (running_event (Some c)) r with
      | (true, r) => emit_chunks limit (wrapu64 (total + slen c.2)) chunks r
      | (false, r) => (Some ExecEmit, r)
      end
  end.
Definition exitCode (e : option Z) : Z := default 0 e.
Definition RunTypedExecution (goos : string) (spec : ExecutionSpec) (p : Process) (r : Reporter) : Z * option exec_err * Reporter :=
  let fail e := (-1, Some e, r) in
  if negb (pc_allowed p) then fail ExecDenied else
  if blank (ex_Command spec) then fail ExecCommand else
  match buildTypedCommand goos spec (pc_built p) with
  | None => fail ExecBuild
  | Some _ =>
      if existsb bad_variable (ex_Environment spec) then fail ExecEnvironment else
      if negb (pc_started p) then fail ExecStart else
      let '(out, r) := emit_chunks (ex_MaxOutputBytes spec) 0 (pc_chunks p) r in
      let out := match out with Some e => Some e | None => if pc_reader p then Some ExecReader else None end in
      match out with
      | Some e => (exitCode (pc_exit p), Some e, r)
      | None =>
          match pc_ctx p with
          | Some _ => (exitCode (pc_exit p), Some ExecContext, r)
          | None => (exitCode (pc_exit p), if bool_decide (pc_exit p = None) then None else Some ExecExit, r)
          end
      end
  end.

Definition execution_timeout `{ProtoDuration} (spec : ExecutionSpec) : duration :=
  match ex_Timeout spec with
  | Some d => if du_check d && (0 <? du_value d) then du_value d else 5 * minute
  | None => 5 * minute
  end.
Definition state_text (s : OperationState) : string :=
  match s with
  | StateRunning => "OPERATION_STATE_RUNNING" | StateSucceeded => "OPERATION_STATE_SUCCEEDED"
  | StateFailed => "OPERATION_STATE_FAILED" | StateCancelled => "OPERATION_STATE_CANCELLED"
  | StateDeadlineExceeded => "OPERATION_STATE_DEADLINE_EXCEEDED"
  end.
Definition final_state (ctx : option ctx_err) (failed : bool) : OperationState :=
  if failed then match ctx with
                 | Some DeadlineExceeded => StateDeadlineExceeded
                 | Some Cancelled => StateCancelled
                 | None => StateFailed
                 end
  else StateSucceeded.
(** [int32(exitCode)] *)
Definition wrap32 (z : Z) : Z := (z + 2 ^ 31) mod 2 ^ 32 - 2 ^ 31.
Definition final_event (code : Z) (st : OperationState) : ExecutionEvent :=
  mkEvent "" 0 st None (Some (wrap32 code)) (if decide (st = StateSucceeded) then None else Some (state_text st)).
(** The attempts of the final event: no pause, until the time is up. *)
Fixpoint report_final (n : nat) (e : ExecutionEvent) (r : Reporter) : bool * Reporter :=
  match n with
  | O => (false, r)
  | S n =>
      let candidate := wrapu64 (rp_sequence r + 1) in
      let m := numbered id candidate e in
      let '(a, r) := send_event m r in
      match a with
      | Accepted accepted => (true, accept_event m accepted r)
      | Refused true _ => (false, r)
      | Refused false _ => report_final n e r
      end
  end.
(** The second component: did the command run. *)
Definition executeAssignment (goos : string) (spec : ExecutionSpec) (p : Process) (r : Reporter) : bool * bool * Reporter :=
  match report_event (running_event None) r with
  | (false, r) => (false, false, r)
  | (true, r) =>
      let '(code, err, r) := RunTypedExecution goos spec p r in
      let st := final_state (pc_ctx_after p) (bool_decide (err <> None)) in
      let '(ok, r) := report_final 3 (final_event code st) r in (ok, true, r)
  end.
End Execute.

(** ** The job table

    One goroutine per accepted execution: it waits for one of the four places,
    runs, gives the place back, and leaves the table. A cancellation only marks
    the job; a waiting job that notices reports itself cancelled. *)

Inductive job_phase := JobWaiting | JobRunning | JobReleased.
#[export] Instance job_phase_eq : EqDecision job_phase.
Proof. solve_decision. Defined.
Record Job := mkJob { jb_spec : ExecutionSpec; jb_phase : job_phase; jb_cancelled : bool }.
(** [wk_started]: the commands that were given a place, latest first. *)
Record Worker := mkWorker {
  wk_exec : Executor; wk_jobs : gmap string Job; wk_events : list ExecutionEvent; wk_started : list (string * ExecutionSpec) }.
Definition places : nat := 4.
Definition running (jobs : gmap string Job) : nat := size (filter (fun kv : string * Job => jb_phase kv.2 = JobRunning) jobs).
Definition set_phase (ph : job_phase) (j : Job) : Job := mkJob (jb_spec j) ph (jb_cancelled j).
Definition cancel_job (j : Job) : Job := mkJob (jb_spec j) (jb_phase j) true.
Definition with_jobs (jobs : gmap string Job) (w : Worker) : Worker := mkWorker (wk_exec w) jobs (wk_events w) (wk_started w).
Definition tell (e : ExecutionEvent) (w : Worker) : Worker := mkWorker (wk_exec w) (wk_jobs w) (e :: wk_events w) (wk_started w).

(** What happens to the worker, in any order: messages of the lease, and the
    moves of the jobs. [allowed] is the capability when the assignment arrives;
    [alive]: the worker itself is not being stopped. *)
Inductive worker_event :=
| RecvCancellation (id : string)
| RecvAssignment (a : ExecutionAssignment) (allowed : bool) (bundle : option TrustBundle) (tnow now wall : time)
| Acquire (id : string)
| GiveUp (id : string) (alive : bool)
| Release (id : string)
| Forget (id : string).

Section Worker.
Context `{CR : Crypto} `{PT : ProtoTime} `{JI : Json Identity} `{WI : Wire SignedInstruction} `{JE : Json (option entries)}.
Context `{WS : Wire ExecutionSpec}.
Variable iter : entries -> list (string * time).
Variable parse_address : string -> option Address.
Variable show_address : Address -> string.
Variable C : Client.

Definition rejected_event (id : string) : ExecutionEvent :=
  mkEvent id 1 StateFailed None (Some (-1)) (Some "SIGNATURE_VERIFICATION_FAILED").
Definition cancelled_event (id : string) : ExecutionEvent := mkEvent id 1 StateCancelled None (Some (-1)) None.

Definition receive_assignment (a : ExecutionAssignment) (allowed : bool) (bundle : option TrustBundle) (tnow now wall : time)
    (w : Worker) : Worker :=
  match xa_Execution a, xa_Envelope a with
  | Some id, Some _ =>
      if negb allowed then w else
      match verifyExecutionAssignment iter parse_address show_address C bundle tnow now wall a (wk_exec w) with
      | (Err _, x) => tell (rejected_event id) (mkWorker x (wk_jobs w) (wk_events w) (wk_started w))
      | (Ok spec, x) =>
          let w := mkWorker x (wk_jobs w) (wk_events w) (wk_started w) in
          match wk_jobs w !! id with
          | Some _ => w
          | None => with_jobs (<[id := mkJob spec JobWaiting false]> (wk_jobs w)) w
          end
      end
  | _, _ => w
  end.
Definition worker_step (e : worker_event) (w : Worker) : Worker :=
  match e with
  | RecvCancellation id =>
      match wk_jobs w !! id with Some j => with_jobs (<[id := cancel_job j]> (wk_jobs w)) w | None => w end
  | RecvAssignment a allowed bundle tnow now wall => receive_assignment a allowed bundle tnow now wall w
  | Acquire id =>
      match wk_jobs w !! id with
      | Some j =>
          if bool_decide (jb_phase j = JobWaiting) && Nat.ltb (running (wk_jobs w)) places
          then mkWorker (wk_exec w) (<[id := set_phase JobRunning j]> (wk_jobs w)) (wk_events w) ((id, jb_spec j) :: wk_started w)
          else w
      | None => w
      end
  | GiveUp id alive =>
      match wk_jobs w !! id with
      | Some j =>
          if bool_decide (jb_phase j = JobWaiting) && (jb_cancelled j || negb alive)
          then let w := with_jobs (delete id (wk_jobs w)) w in
               if alive then tell (cancelled_event id) w else w
          else w
      | None => w
      end
  | Release id =>
      match wk_jobs w !! id with
      | Some j => if bool_decide (jb_phase j = JobRunning) then with_jobs (<[id := set_phase JobReleased j]> (wk_jobs w)) w else w
      | None => w
      end
  | Forget id =>
      match wk_jobs w !! id with
      | Some j => if bool_decide (jb_phase j = JobReleased) then with_jobs (delete id (wk_jobs w)) w else w
      | None => w
      end
  end.
Definition worker_run (l : list worker_event) (w : Worker) : Worker := fold_left (fun w e => worker_step e w) l w.
End Worker.

(** ** What the panel is told *)

Section Reports.
Variable id : string.

(** From [r] to [r']: the event [m] was sent up to three times; [ok]: it was
    taken. *)
Record reported (m : ExecutionEvent) (ok : bool) (r r' : Reporter) : Prop := {
  re_sent : exists k, (k <= 3)%nat /\ rp_sent r' = (repeat m k ++ rp_sent r)%list;
  re_accepted : if ok then rp_accepted r' = m :: rp_accepted r /\
                           exists a, Accepted a ∈ rp_answers r /\ rp_sequence r' = Z.max (ev_Sequence m) a
                else rp_accepted r' = rp_accepted r /\ rp_sequence r' = rp_sequence r;
  re_used : ok = true -> (length (rp_answers r') < length (rp_answers r))%nat;
  re_suffix : forall a, a ∈ rp_answers r' -> a ∈ rp_answers r;
  re_length : (length (rp_answers r') <= length (rp_answers r))%nat;
}.

Lemma repeat_shift {A} (m : A) k l : (repeat m k ++ m :: l = m :: repeat m k ++ l)%list.
Proof. induction k as [|k IH]; simpl; [done|by rewrite IH]. Qed.
(** One more attempt before the others. *)
Lemma reported_again m ok r r' n :
  reported m ok (mkReporter (rp_sequence r) (m :: rp_sent r) (rp_accepted r) (tl (rp_answers r))) r' ->
  (exists k, (k <= n)%nat /\ rp_sent r' = (repeat m k ++ m :: rp_sent r)%list) -> (S n <= 3)%nat -> reported m ok r r'.
Proof.
  intros [_ Ha Hu Hs Hl] (k & Hk & Hsent) Hn. simpl in *.
  assert (Htl : forall a, a ∈ tl (rp_answers r) -> a ∈ rp_answers r) by (intros a; destruct (rp_answers r); [done|by right]).
  assert (Hlen : (length (tl (rp_answers r)) <= length (rp_answers r))%nat) by (destruct (rp_answers r); simpl; lia).
  split.
  - exists (S k). split; [lia|]. by rewrite Hsent, repeat_shift.
  - destruct ok; [|done]. destruct Ha as [H1 (a & H2 & H3)]. split; [done|]. exists a. auto.
  - intros Hok. specialize (Hu Hok). lia.
  - auto.
  - lia.
Qed.
Lemma reported_once m r a :
  hd (Refused true true) (rp_answers r) = Accepted a ->
  reported m true r (accept_event m a (mkReporter (rp_sequence r) (m :: rp_sent r) (rp_accepted r) (tl (rp_answers r)))).
Proof.
  intros Ha. destruct (rp_answers r) as [|x l] eqn:El; [done|]. simpl in Ha. subst x. split; simpl.
  - exists 1%nat. split; [lia|done].
  - split; [done|]. exists a. split; [rewrite El; by left|done].
  - intros _. rewrite El. simpl. lia.
  - intros b Hb. rewrite El. by right.
  - rewrite El. simpl. lia.
Qed.
Lemma reported_lost m r : reported m false r (mkReporter (rp_sequence r) (m :: rp_sent r) (rp_accepted r) (tl (rp_answers r))).
Proof.
  split; simpl; [exists 1%nat; split; [lia|done]|done|done| |]; destruct (rp_answers r); simpl; [done|by right|lia..].
Qed.
Lemma reported_none m r : reported m false r r.
Proof. split; [exists 0%nat; split; [lia|done]|done|done|done|done]. Qed.

Lemma report_attempts_spec n e r ok r' :
  (n <= 3)%nat -> let m := numbered id (wrapu64 (rp_sequence r + 1)) e in
  report_attempts id n (wrapu64 (rp_sequence r + 1)) e r = (ok, r') ->
  reported m ok r r' /\ exists k, (k <= n)%nat /\ rp_sent r' = (repeat m k ++ rp_sent r)%list.
Proof.
  intros Hn m. set (c := wrapu64 (rp_sequence r + 1)) in *. clearbody c. revert r. induction n as [|n IH]; intros r H; simpl in H.
  { injection H as <- <-. split; [apply reported_none|]. exists 0%nat. by split. }
  fold m in H. destruct (hd _ (rp_answers r)) as [a|[] []] eqn:Eh; try (injection H as <- <-; split; [apply reported_lost|exists 1%nat; split; [lia|done]]).
  - injection H as <- <-. split; [by apply reported_once|]. exists 1%nat. split; [lia|done].
  - apply IH in H as [Hr (k & Hk & Hs)]; [|lia]. simpl in Hs. split; [eapply reported_again; [exact Hr|by exists k|lia]|].
    exists (S k). split; [lia|]. by rewrite Hs, repeat_shift.
Qed.
Lemma report_event_spec e r ok r' :
  report_event id e r = (ok, r') -> reported (numbered id (wrapu64 (rp_sequence r + 1)) e) ok r r'.
Proof. intros H. by apply report_attempts_spec in H as [H _]. Qed.
Lemma report_final_spec e r ok r' :
  report_final id 3 e r = (ok, r') -> reported (numbered id (wrapu64 (rp_sequence r + 1)) e) ok r r'.
Proof.
  enough (Hg : forall n, (n <= 3)%nat -> forall r, report_final id n e r = (ok, r') ->
    let m := numbered id (wrapu64 (rp_sequence r + 1)) e in
    reported m ok r r' /\ exists k, (k <= n)%nat /\ rp_sent r' = (repeat m k ++ rp_sent r)%list).
  { intros H. by apply Hg in H as [H _]. }
  clear r. induction n as [|n IH]; intros Hn r H m; simpl in H.
  { injection H as <- <-. split; [apply reported_none|]. exists 0%nat. by split. }
  fold m in H. destruct (hd _ (rp_answers r)) as [a|[] b] eqn:Eh; try (injection H as <- <-; split; [apply reported_lost|exists 1%nat; split; [lia|done]]).
  - injection H as <- <-. split; [by apply reported_once|]. exists 1%nat. split; [lia|done].
  - apply IH in H as [Hr (k & Hk & Hs)]; [|lia]. simpl in Hs. split; [eapply reported_again; [exact Hr|by exists k|lia]|].
    exists (S k). split; [lia|]. by rewrite Hs, repeat_shift.
Qed.

(** ** Numbering *)

(** Numbers taken so far decrease towards the start, and there is room for
    the answers to come. *)
Definition ceiling (n : nat) : Z := 2 ^ 63 + Z.of_nat n.
Record in_order (n : nat) (r : Reporter) : Prop := {
  io_sorted : StronglySorted Z.gt (map ev_Sequence (rp_accepted r));
  io_top : Forall (fun e => ev_Sequence e <= rp_sequence r) (rp_accepted r);
  io_low : 0 <= rp_sequence r;
  io_room : rp_sequence r + Z.of_nat (length (rp_answers r)) <= ceiling n;
  io_answers : forall a, Accepted a ∈ rp_answers r -> 0 <= a <= 2 ^ 63;
  io_bound : (length (rp_answers r) <= n)%nat;
}.
Lemma reported_in_order n e ok r r' :
  Z.of_nat n < 2 ^ 62 -> in_order n r -> reported (numbered id (wrapu64 (rp_sequence r + 1)) e) ok r r' -> in_order n r'.
Proof.
  intros Hn [H1 H2 H3 H4 H5 H6] [_ Ha Hu Hs Hl]. destruct ok; destruct Ha as [Ha Hq].
  2: { split; rewrite ?Ha, ?Hq; auto; lia. }
  destruct Hq as (a & Hin & Hq). specialize (Hu eq_refl). pose proof (H5 a Hin) as Hb. simpl in Hq.
  assert (Hw : wrapu64 (rp_sequence r + 1) = rp_sequence r + 1).
  { apply wrapu64_id. unfold is_uint64, max_uint64, ceiling in *. lia. }
  rewrite Hw in *. split; rewrite ?Ha.
  - simpl. constructor; [done|]. rewrite Forall_map. eapply Forall_impl; [exact H2|]. simpl. intros x Hx. lia.
  - constructor; [simpl; lia|]. eapply Forall_impl; [exact H2|]. simpl. intros x Hx. lia.
  - lia.
  - unfold ceiling in *. lia.
  - auto.
  - lia.
Qed.
End Reports.

(** ** One execution, from its announcement to its end *)

Section Execution.
Variable id : string.

(** What the panel took, in order: the state and output of each event. *)
Definition told_events (r : Reporter) : list (OperationState * option (Z * bytes)) :=
  rev (map (fun e => (ev_State e, ev_Output e)) (rp_accepted r)).
Definition ours (r : Reporter) : Prop := Forall (fun e => ev_ExecutionId e = id) (rp_sent r).
Definition volume (l : list (Z * bytes)) : Z := foldr (fun c n => slen c.2 + n) 0 l.
Definition output_of (c : Z * bytes) : OperationState * option (Z * bytes) := (StateRunning, Some c).

Lemma reported_ours m ok r r' : ev_ExecutionId m = id -> reported m ok r r' -> ours r -> ours r'.
Proof.
  intros Hm [(k & _ & Hs) _ _ _ _] Ho. unfold ours. rewrite Hs. apply Forall_app. split; [|done].
  apply Forall_forall. intros e He. apply list_elem_of_In, repeat_spec in He. by subst.
Qed.
Lemma reported_told m ok r r' :
  reported m ok r r' -> told_events r' = if ok then (told_events r ++ [(ev_State m, ev_Output m)])%list else told_events r.
Proof. intros [_ Ha _ _ _]. unfold told_events. destruct ok; destruct Ha as [-> _]; done. Qed.

Lemma emit_chunks_spec n limit chunks r out r' :
  0 <= limit < 2 ^ 63 -> Forall (fun c => slen c.2 < 2 ^ 63) chunks -> Z.of_nat n < 2 ^ 62 -> in_order n r -> ours r ->
  forall total, 0 <= total <= limit -> emit_chunks id limit total chunks r = (out, r') ->
  in_order n r' /\ ours r' /\ (forall a, a ∈ rp_answers r' -> a ∈ rp_answers r) /\
  exists sent rest, chunks = (sent ++ rest)%list /\ total + volume sent <= limit /\
    told_events r' = (told_events r ++ map output_of sent)%list /\ (out = None -> rest = []).
Proof.
  intros Hl Hc Hn Hi Ho. revert r Hi Ho. induction chunks as [|c chunks IH]; intros r Hi Ho total Ht H; simpl in H.
  { injection H as <- <-. split_and!; try done. exists [], []. simpl. rewrite app_nil_r. split_and!; [done|lia|done|done]. }
  apply Forall_cons in Hc as [Hc1 Hc]. destruct c as [stream data]. simpl in *.
  assert (Hlen : 0 <= slen data) by (unfold slen; lia).
  assert (Hw : wrapu64 (slen data + total) = slen data + total) by (apply wrapu64_id; unfold is_uint64, max_uint64; lia).
  rewrite Hw, (Z.add_comm total), Hw in H. destruct (limit <? slen data + total) eqn:El.
  { injection H as <- <-. split_and!; try done. exists [], ((stream, data) :: chunks). simpl. rewrite app_nil_r. split_and!; [done|lia|done|done]. }
  apply Z.ltb_ge in El. destruct (report_event id _ r) as [ok r1] eqn:Er. apply report_event_spec in Er. pose proof Er as Ht1.
  apply reported_told in Ht1. pose proof (re_suffix _ _ _ _ Er) as Hsuf. assert (Ho1 : ours r1) by (eapply reported_ours; [|exact Er|exact Ho]; done).
  pose proof (reported_in_order _ _ _ _ _ _ Hn Hi Er) as Hi1. destruct ok.
  - apply IH in H as (H1 & H2 & H3 & sent & rest & -> & Hv & Htold & Hout); [|done|done|done|lia]. split_and!; [done|done|auto|].
    exists ((stream, data) :: sent), rest. simpl. split_and!; [done|lia| |done]. rewrite Htold, Ht1, <- app_assoc. done.
  - injection H as <- <-. split_and!; try done. exists [], ((stream, data) :: chunks). simpl. rewrite app_nil_r. split_and!; [done|lia|done|done].
Qed.

(** The process: what it emitted is a prefix of its output within the limit,
    and a success means all of it, no error and exit code zero. *)
Lemma RunTypedExecution_spec n goos spec p r code err r' :
  0 <= ex_MaxOutputBytes spec < 2 ^ 63 -> Forall (fun c => slen c.2 < 2 ^ 63) (pc_chunks p) -> Z.of_nat n < 2 ^ 62 ->
  in_order n r -> ours r -> RunTypedExecution id goos spec p r = (code, err, r') ->
  in_order n r' /\ ours r' /\
  exists sent rest, pc_chunks p = (sent ++ rest)%list /\ volume sent <= ex_MaxOutputBytes spec /\
    told_events r' = (told_events r ++ map output_of sent)%list /\
    (err = None -> rest = [] /\ pc_exit p = None /\ pc_allowed p = true /\ pc_ctx p = None /\
       existsb bad_variable (ex_Environment spec) = false).
Proof.
  intros Hl Hc Hn Hi Ho H.
  assert (Hfail : forall e, (-1, Some e, r) = (code, err, r') -> in_order n r' /\ ours r' /\
    exists sent rest, pc_chunks p = (sent ++ rest)%list /\ volume sent <= ex_MaxOutputBytes spec /\
    told_events r' = (told_events r ++ map output_of sent)%list /\
    (err = None -> rest = [] /\ pc_exit p = None /\ pc_allowed p = true /\ pc_ctx p = None /\
       existsb bad_variable (ex_Environment spec) = false)).
  { intros e [= _ <- <-]. split_and!; try done. exists [], (pc_chunks p). simpl. rewrite app_nil_r. split_and!; [done|lia|done|done]. }
  unfold RunTypedExecution in H. destruct (pc_allowed p) eqn:Ea; [|exact (Hfail _ H)]. simpl in H.
  destruct (blank _); [exact (Hfail _ H)|]. destruct (buildTypedCommand _ _ _); [|exact (Hfail _ H)].
  destruct (existsb _ _) eqn:Ex; [exact (Hfail _ H)|]. destruct (pc_started p); [|exact (Hfail _ H)]. simpl in H.
  destruct (emit_chunks id _ 0 _ r) as [out r1] eqn:Ee.
  apply (emit_chunks_spec n) in Ee as (H1 & H2 & _ & sent & rest & Hch & Hv & Ht & Hrest); [|done..|lia].
  assert (Hr : r' = r1).
  { destruct out; [by injection H|]. destruct (pc_reader p); [by injection H|]. destruct (pc_ctx p); by injection H. }
  subst r1. split_and!; [done|done|]. exists sent, rest. split_and!; [done|lia|done|]. intros He.
  destruct out; [by injection H as _ <- |]. destruct (pc_reader p); [by injection H as _ <-|].
  destruct (pc_ctx p); [by injection H as _ <-|]. case_bool_decide; [|by injection H as _ <-].
  split_and!; try done. by apply Hrest.
Qed.

Definition fresh_reporter (answers : list answer) : Reporter := mkReporter 0 [] [] answers.

End Execution.

(** ** The worker *)

Section WorkerTheorems.
Context `{CR : Crypto} `{PT : ProtoTime} `{JI : Json Identity} `{WI : Wire SignedInstruction} `{JE : Json (option entries)}.
Context `{WS : Wire ExecutionSpec}.
Variable iter : entries -> list (string * time).
Variable parse_address : string -> option Address.
Variable show_address : Address -> string.
Variable C : Client.

(** The command is the body of an instruction that pinned keys of this agent
    authenticate and that authorizes an execution. *)
Definition commanded (a : ExecutionAssignment) (now : time) (spec : ExecutionSpec) : Prop :=
  exists e i si guard, xa_Envelope a = Some e /\ id_ControlPlaneKeys i <> [] /\
    authentic (Signing.New i guard) now e si /\ si_instruction_type si = exec_kind /\ wire_unmarshal (si_body si) = Some spec.

Lemma keyed_identity_keys r i : keyed_identity C r = Some i -> id_ControlPlaneKeys i <> [].
Proof. unfold keyed_identity. destruct (renewal_identity C r) as [j|]; [|done]. case_bool_decide; [done|]. by intros [= <-]. Qed.
Lemma exec_identity_keys bundle tnow r i r' :
  exec_identity parse_address show_address C bundle tnow r = (Some i, r') -> id_ControlPlaneKeys i <> [].
Proof.
  unfold exec_identity. destruct (keyed_identity C r) as [j|] eqn:Ek; [intros [= <- _]; by eapply keyed_identity_keys|].
  destruct (ensureTrustBundle _ _ _ _ _) as [[[]|] r1]; intros [= Hk _]; by eapply keyed_identity_keys.
Qed.
Lemma verify_commanded bundle tnow now wall a s spec s' :
  verifyExecutionAssignment iter parse_address show_address C bundle tnow now wall a s = (Ok spec, s') -> commanded a now spec.
Proof.
  unfold verifyExecutionAssignment. destruct (xa_Envelope a) as [e|] eqn:Ee; [|done].
  destruct (exec_identity _ _ _ _ _ _) as [[i|] r] eqn:Ei; [|done]. apply exec_identity_keys in Ei.
  set (j := named_identity r i). assert (Hj : id_ControlPlaneKeys j <> []).
  { unfold j, named_identity. destruct (_ =? _)%string; done. }
  destruct (Verify _ _ _ _ _ _) as [[out g] w] eqn:Ev. destruct out as [v|]; [|done].
  destruct (in_InstructionType v =? exec_kind)%string eqn:Et; [|done]. simpl. destruct (wire_unmarshal (in_Body v)) as [x|] eqn:Ex; [|done].
  intros [= <- _]. apply String.eqb_eq in Et. unfold Verify in Ev.
  destruct (Signing.authenticate _ _ _) as [[si by_]|] eqn:Ea; [|by destruct (v_replay _)]. apply authenticate_ok in Ea as [Ea _].
  assert (Hv : v = instruction_of si by_).
  { destruct (v_replay _); [|by injection Ev as <-]. destruct (Consume _ _ _ _ _ _) as [[[[]|] ?] ?]; [by injection Ev as <-|done]. }
  subst v. simpl in Et, Ex. exists e, j, si, (Some (xs_guard s)). by split_and!.
Qed.

(** How many jobs hold a place, through the table's updates. *)
Lemma running_waiting jobs id j :
  jb_phase j <> JobRunning -> (running (<[id := j]> jobs) <= running jobs)%nat.
Proof.
  intros Hj. unfold running. rewrite map_filter_insert. simpl. rewrite decide_False by done.
  rewrite map_filter_delete. apply map_subseteq_size, delete_subseteq.
Qed.
Lemma running_same jobs id j0 j :
  jobs !! id = Some j0 -> jb_phase j = jb_phase j0 -> running (<[id := j]> jobs) = running jobs.
Proof.
  intros Hid Hp. unfold running. rewrite map_filter_insert. simpl. destruct (decide (jb_phase j = JobRunning)) as [Hr|Hr].
  - rewrite map_size_insert_Some; [done|]. exists j0. apply map_lookup_filter_Some. simpl. split; [done|congruence].
  - rewrite map_filter_delete, delete_id; [done|]. apply map_lookup_filter_None. right. simpl. intros x Hx. congruence.
Qed.
Lemma running_insert jobs id j : (running (<[id := j]> jobs) <= S (running jobs))%nat.
Proof.
  unfold running. rewrite map_filter_insert. simpl. destruct (decide _).
  - rewrite map_size_insert. case_match; simpl; lia.
  - rewrite map_filter_delete. pose proof (map_subseteq_size _ _ (delete_subseteq (filter (fun kv : string * Job => jb_phase kv.2 = JobRunning) jobs) id)). lia.
Qed.
Lemma running_delete jobs id : (running (delete id jobs) <= running jobs)%nat.
Proof. unfold running. rewrite map_filter_delete. apply map_subseteq_size, delete_subseteq. Qed.

(** Every job in the table, and every command that got a place, was assigned
    while executions were allowed, and is commanded. *)
Definition assigned (l : list worker_event) (spec : ExecutionSpec) : Prop :=
  exists a bundle tnow now wall, RecvAssignment a true bundle tnow now wall ∈ l /\ commanded a now spec.
Record sound_worker (l : list worker_event) (w : Worker) : Prop := {
  so_places : (running (wk_jobs w) <= places)%nat;
  so_jobs : forall id j, wk_jobs w !! id = Some j -> assigned l (jb_spec j);
  so_started : forall id spec, (id, spec) ∈ wk_started w -> assigned l spec;
}.
Lemma assigned_more l e spec : assigned l spec -> assigned (l ++ [e])%list spec.
Proof. intros (a & b & t & n & ww & Hin & Hc). exists a, b, t, n, ww. split; [apply elem_of_app; by left|done]. Qed.
Lemma sound_more l e w : sound_worker l w -> sound_worker (l ++ [e])%list w.
Proof. intros [H1 H2 H3]. split; [done|..]; intros; eapply assigned_more; eauto. Qed.

Abbreviation stepping := (worker_step iter parse_address show_address C).
Lemma worker_step_sound l e w : sound_worker l w -> sound_worker (l ++ [e])%list (stepping e w).
Proof.
  intros Hs. pose proof (sound_more l e w Hs) as Hm. destruct Hm as [H1 H2 H3].
  assert (Hput : forall id j j0 ev st, wk_jobs w !! id = Some j0 -> jb_spec j = jb_spec j0 ->
    (running (<[id := j]> (wk_jobs w)) <= places)%nat -> (forall i sp, (i, sp) ∈ st -> assigned (l ++ [e])%list sp) ->
    sound_worker (l ++ [e])%list (mkWorker (wk_exec w) (<[id := j]> (wk_jobs w)) ev st)).
  { intros id j j0 ev st Hid Hsp Hr Hst. split; simpl; [done| |done]. intros id' j' Hl. apply lookup_insert_Some in Hl as [[<- <-]|[_ Hl]]; [rewrite Hsp|]; eauto. }
  assert (Hdel : forall id, sound_worker (l ++ [e])%list (with_jobs (delete id (wk_jobs w)) w)).
  { intros id. split; simpl; [etransitivity; [apply running_delete|done]| |done]. intros id' j' [_ Hl]%lookup_delete_Some. eauto. }
  destruct e as [id|a allowed bundle tnow now wall|id|id alive|id|id]; simpl.
  - destruct (wk_jobs w !! id) as [j|] eqn:Ej; [|done]. eapply Hput; [exact Ej|done| |done]. by rewrite (running_same _ _ j).
  - unfold receive_assignment. destruct (xa_Execution a) as [id|]; [|done]. destruct (xa_Envelope a) eqn:Ee; [|done].
    destruct allowed; [|done]. simpl. destruct (verifyExecutionAssignment _ _ _ _ _ _ _ _ _ _) as [[spec|err] x] eqn:Ev; [|by split].
    apply verify_commanded in Ev. simpl. destruct (wk_jobs w !! id) as [j|] eqn:Ej; [by split|]. split; simpl.
    + etransitivity; [apply running_waiting; done|done].
    + intros id' j' Hl. apply lookup_insert_Some in Hl as [[<- <-]|[_ Hl]]; [|eauto]. exists a, bundle, tnow, now, wall.
      split; [apply elem_of_app; right; by left|done].
    + done.
  - destruct (wk_jobs w !! id) as [j|] eqn:Ej; [|done]. destruct (_ && _) eqn:Eb; [|done]. apply andb_true_iff in Eb as [_ Eb%Nat.ltb_lt].
    eapply Hput; [exact Ej|done| |].
    + pose proof (running_insert (wk_jobs w) id (set_phase JobRunning j)). lia.
    + intros i sp [[= -> ->]|Hin]%elem_of_cons; eauto.
  - destruct (wk_jobs w !! id) as [j|] eqn:Ej; [|done]. destruct (_ && _); [|done]. destruct (Hdel id) as [D1 D2 D3].
    destruct alive; [|done]. by split.
  - destruct (wk_jobs w !! id) as [j|] eqn:Ej; [|done]. case_bool_decide; [|done]. eapply Hput; [exact Ej|done| |done].
    etransitivity; [apply running_waiting; done|done].
  - destruct (wk_jobs w !! id) as [j|] eqn:Ej; [|done]. case_bool_decide; done.
Qed.

End WorkerTheorems.
