(* ===== verification/SessionDemo.v ===== *)
(** * A small session

    One concrete agent and panel, on which the theorems about the panel session
    are applied: a fresh installation whose baseline the panel signs, and an
    agent with receipts of every fate waiting. *)

From Stdlib Require Import Sorting.Sorted.
From S2P Require Import Prelude.
From S2P Require Import GoStd.
From S2P Require Import GoPath.
From S2P Require Import Disk.
From S2P Require Import External.
From S2P Require Import Credentials.
From S2P Require Import Replay.
From S2P Require Import Signing.
From S2P Require Import Privileged.
From S2P Require Import HostOps.
From S2P Require Import RuntimeConfig.
From S2P Require Import Effective.
From S2P Require Import HostFs.
From S2P Require Import HostService.
From S2P Require Import HostPanel.
From S2P Require Import HostTx.
From S2P Require Import HostDemo.
From S2P Require Import Enrollment.
From S2P Require Import Session.
From S2P Require Import Delivery.
From S2P Require Import Grants.
From S2P Require Import Receipts.
From S2P Require Import Baseline.
From S2P Require Import Renewal.
From S2P Require Import Dpop.
From S2P Require Import Executions.

Local Open Scope string_scope.
Local Open Scope Z_scope.
Local Open Scope session_scope.

(** A codec for the messages of a list, each under its own text; anything else
    is written as [other]. *)
Fixpoint look {A} (s : string) (l : list (string * A)) : option A :=
  match l with [] => None | (n, a) :: l => if (s =? n)%string then Some a else look s l end.
Fixpoint name_of {A} `{EqDecision A} (m : A) (l : list (string * A)) (other : string) : string :=
  match l with [] => other | (n, a) :: l => if decide (m = a) then n else name_of m l other end.
Definition table_wire {A} `{EqDecision A} (l : list (string * A)) (other : string) : Wire A :=
  {| wire_marshal := fun m => Some (name_of m l other); wire_unmarshal := fun s => look s l |}.

#[local] Instance HostOperation_eq : EqDecision HostOperation.
Proof. solve_decision. Defined.

#[local] Instance sd_crypto : Crypto := hwit_crypto.
#[local] Instance sd_time : ProtoTime := Signing.wit_time.
#[local] Instance sd_enums : ProtoEnums := wit_enums.
#[local] Instance sd_pd : ProtoDuration := wit_pd.
#[local] Instance sd_session : SessionEnums :=
  {| DELIVERY_STATE_NEEDS_CONFIRMATION := 1; DELIVERY_STATE_DELIVERED := 8; DELIVERY_STATE_FAILED := 9;
     ACTION_SET_SERVICE_IDENTITY := 1; ACTION_INSTALL_RESCUE_HELPER := 2; ACTION_REMOVE_RESCUE_HELPER := 3 |}.

(** ** The panel's messages *)

(** The policy of the installation allows remote control and command
    execution from the start. *)
Definition sd_policy : HostOps.Policy :=
  HostOps.mkPolicy 2 "komari" 2 true true true true false true false true false false false false false "" 0 None.
Definition sd_local : Settings := mkSettings 2 true false true false false.
Definition sd_authorization : HostAuthorization :=
  mkHostAuthorization "agent-1" "komari" 1 (Hash sd_local) 1 [] 2 "nonce" "operator"
    (Some (mkTimestamp 1000 0)) (Some (mkTimestamp 1060 0)) "".
Definition sd_envelope : SignedEnvelope :=
  mkEnvelope "P" [mkSignature SIGNATURE_ALGORITHM_ED25519 "k1" (Signing.wit_key ++ "P")].
Definition sd_baseline : PrivilegedRevision :=
  mkPrivilegedRevision 2 true 8 "agent-1" 1 (Hash sd_local) 1 1 (Some (Proto sd_local)) (Some sd_authorization) None
    (Some sd_envelope) None "".
(** The host tool's last result: revision 7 under operation [op-1]. *)
Definition sd_applied : PrivilegedRevision :=
  mkPrivilegedRevision 2 false 8 "agent-1" 7 (Hash sd_local) 1 4 (Some (Proto sd_local)) None None None None "".
Definition sd_operation : HostOperation := mkHostOperation "op-1" 3 None None None "".

#[local] Instance sd_revisions : Wire PrivilegedRevision :=
  table_wire [("R", unsigned_revision sd_baseline); ("B", sd_baseline); ("A", sd_applied)] "?".
#[local] Instance sd_operations : Wire HostOperation := table_wire [("O", sd_operation)] "?".
#[local] Instance sd_instructions : Wire SignedInstruction :=
  {| wire_marshal := fun _ => Some "P";
     wire_unmarshal := fun s => if (s =? "P")%string
       then Some (mkSignedInstruction "agent-1" "n" revision_kind "R" (Some (mkTimestamp 1000 0)) (Some (mkTimestamp 1060 0)))
       else None |}.

Definition sd_caps : AgentCapabilities :=
  let c := plain_cap true in mkCaps 2 c c c c c c c c c c.
Definition sd_observation (op : string) : DaemonObservation :=
  mkObservation 7 (Hash sd_local) 1 "komari" "boot" 2 (Some sd_caps) op false false false false None.
Definition sd_report (id op : string) : DeliveryReport :=
  mkDelivery "agent-1" 7 8 2 id (Hash sd_local) 1 (Some (sd_observation op)) [] None.
#[local] Instance sd_reports : Wire DeliveryReport :=
  table_wire [("D1", sd_report "d1" "op-1"); ("D2", sd_report "d2" "op-0"); ("D3", sd_report "d3" "")] "report".
Definition sd_ack (revision : Z) : RuntimeAck := mkAck "agent-1" revision true [] None.
#[local] Instance sd_acks : Wire RuntimeAck := table_wire [("A1", sd_ack 1); ("A2", sd_ack 2);
    ("A3", mkAck "agent-1" 1 true [] (Some (timestamp_of (1030 * second))))] "ack".

#[local] Instance sd_state : Json Privileged.State := Privileged.wit_json.
#[local] Instance sd_runtime_json : Json persistedState := RuntimeConfig.wit_json.
#[local] Instance sd_entries : Json (option entries) := countable_json (option entries).
#[local] Instance sd_manifest : StrictJson Manifest := one_strict demo_manifest.
#[local] Instance sd_strict_policy : StrictJson HostOps.Policy := one_strict sd_policy.
#[local] Instance sd_record : StrictJson AppliedRecord := one_strict (mkApplied 2 "A" "O").
#[local] Instance sd_trust : StrictJson Trust := one_strict hwit_trust.
#[local] Instance sd_status : StrictJson HelperStatus :=
  one_strict (mkHelperStatus 7 99 "/usr/lib/komari/komari/komari-agent-rescue" true true 5).

(** ** The agent and the outside *)

Definition sd_flags : Config := mkConfig "" "" 0 "" "" "" 1 true false false false false.
Definition sd_runtime : RuntimeConfig.Snapshot := FromFlags sd_flags.
Definition sd_populated (_ : Snapshot) : list Z := [1; 8].
Definition sd_proposal : Proposal :=
  mkProposal "agent-1" "komari" (hex_encode "policy") (Some (Proto sd_local)) (Some (runtime_proposal sd_populated sd_runtime)) false.
#[local] Instance sd_proposals : Wire Proposal := one_wire sd_proposal "Q".

Definition sd_rpc (code : rpc_code) : rpc := mkRpc (Some (code, "")) false false "x".
(** The panel accepts [d1], [d3] later, and the first acknowledgement; it
    refuses the second one for good. *)
Definition sd_net : Outside :=
  mkOutside (fun _ => 1030 * second) (fun n => bits_of (Pos.of_succ_nat n)) (fun _ _ => Err (sd_rpc CodeUnavailable))
    (fun _ m => if (dr_ReceiptId m =? "d1")%string then Ok true else Err (sd_rpc CodeUnavailable))
    (fun _ a => if ra_Revision a =? 1 then Ok true else Err (sd_rpc CodeFailedPrecondition))
    (fun _ _ _ => Err (sd_rpc CodeUnavailable)) (fun _ _ => Ok tt)
    (fun _ p => Ok (mkInit true (Some sd_baseline) (Some (mkDesiredConfig 1 (pp_Runtime p))) ""))
    (fun _ _ => Ok (mkNodeState false 0)) (fun _ _ _ => Err (sd_rpc CodeUnavailable))
    (fun _ => demo_host demo_fs demo_mutating).
Definition sd_client : Client :=
  mkClient 2 true "" (plain_cap true) "linux" (Some sd_flags) sd_flags (Some demo_manifest) (Some sd_policy) (Some hwit_trust) "boot".
Definition sd_identity : Identity :=
  mkIdentity "https://p" "agent-1" "" "" "" None None "t" 0 "r" 0 [] [hwit_key "k1"] [1] false 1 0 0.

Definition sd_disk : World :=
  mkWorld (list_to_map [("/etc/komari/services/komari.policy.json", mkFile "policy" 420);
                        ("/etc/komari/services/komari.applied.json", mkFile "applied" 420)])
    [] ["1"; "2"; "3"; "4"; "5"; "6"; "7"; "8"; "9"] [].
Definition sd_session0 (outbox : list Receipt) (queue : list bytes) : Session :=
  mkSession sd_disk 0
    (Some (Privileged.mkStore "/k/privileged.json"
       (mkState 0 "" outbox [] 0 restrictive None 0 0 None 0 [] "" "" zero_time zero_time) zero_hash))
    (RuntimeConfig.mkStore "/k/rc.json" sd_runtime None queue)
    (Some (Credentials.mkStore "/k/credentials.json" (Some sd_identity))) "agent-1" false [].
Definition sd_lstat (_ : string) : option Stat := Some (mkStat 0 493 false).
Definition sd_regular (_ : string) : bool := true.
Definition sd_describe (_ : host_err) : string := "error".
Definition sd_text (_ : sess_err) : string := "refused".

#[local] Instance sd_uuid_inj : Inj (=) (=) (o_uuid sd_net).
Proof.
  intros a b H. simpl in H. apply (f_equal of_bits) in H. rewrite !of_bits_of in H. injection H as H. by apply SuccNat2Pos.inj.
Defined.

Definition sd_init := initializeHost map_to_list itoa sd_text sd_lstat sd_regular sd_describe demo_url sd_populated demo_env sd_net sd_client.
Definition sd_outbox : list Receipt :=
  [mkReceipt "d1" "privileged" "D1" ""; mkReceipt "d2" "privileged" "D2" ""; mkReceipt "d3" "privileged" "D3" ""].
Definition sd_flush := flushReceipts itoa sd_text sd_lstat sd_regular sd_describe sd_net sd_client.

(** ** Receipts *)

Definition sd_waiting : Session := sd_session0 sd_outbox ["A1"; "A2"].

Lemma sd_fresh : fresh_ids sd_net sd_waiting.
Proof.
  intros r n Hr _. assert (Hid : forallb (fun c => Nat.eqb (code c) 48 || Nat.eqb (code c) 49) (chars (rc_ID r)) = false).
  { change (outbox sd_waiting) with sd_outbox in Hr. repeat (apply elem_of_cons in Hr as [->|Hr]; [reflexivity|]). by apply not_elem_of_nil in Hr. }
  intros He. rewrite He in Hid. simpl in Hid. revert Hid. generalize (Pos.of_succ_nat n). intros q.
  induction q as [q IH|q IH|]; simpl; [exact IH|exact IH|done].
Defined.
Lemma sd_orderly : orderly sd_waiting.
Proof. split; [|vm_compute; lia]. apply (bool_decide_unpack _). vm_compute. exact I. Defined.


(** One report is accepted, one stopped being true, one cannot be sent now. *)
Lemma flush_entries_accounts_witness :
  let '(x, s') := flush_entries itoa sd_text sd_lstat sd_regular sd_describe sd_net sd_client sd_outbox None sd_waiting in
  map rc_ID (outbox s') = ["d3"] /\ forall e, e ∈ sd_outbox -> e ∈ outbox s' \/ told e s' \/ kept itoa e s'.
Proof.
  destruct (flush_entries itoa sd_text sd_lstat sd_regular sd_describe sd_net sd_client sd_outbox None sd_waiting) as [x s'] eqn:E.
  assert (Hs : map rc_ID (outbox s') = ["d3"]) by (change s' with (snd (x, s')); rewrite <- E; vm_compute; reflexivity).
  assert (Hr : reasoned sd_outbox) by (repeat constructor; discriminate).
  assert (Ht : forall err, sd_text err <> "") by (intros err; discriminate).
  destruct (flush_entries_accounts itoa sd_text sd_lstat sd_regular sd_describe sd_net sd_client sd_outbox None sd_waiting x s'
    Ht Hr sd_orderly (fun e He => He) E) as (_ & _ & H).
  split; [exact Hs|exact H].
Defined.


(** ** A fresh installation *)

(** The panel's answer is taken over: the runtime settings the agent proposed,
    and the signed baseline. *)
Lemma initializeHost_installs_own_request_witness :
  let '(x, s') := sd_init (sd_session0 [] []) in
  sn_Revision (rs_current (se_runtime s')) = 1 /\ initialized demo_manifest (sd_session0 [] []) s'.
Proof.
  destruct (sd_init (sd_session0 [] [])) as [x s'] eqn:E. split.
  - change s' with (snd (x, s')). rewrite <- E. vm_compute. reflexivity.
  - exact (initializeHost_installs_own_request map_to_list itoa sd_text sd_lstat sd_regular sd_describe demo_url sd_populated
      demo_env sd_net sd_client demo_manifest (sd_session0 [] []) x s' eq_refl E).
Defined.

(** The panel signed the baseline this session ends with. *)
Lemma initializeHost_grants_baseline :
  let s' := snd (sd_init (sd_session0 [] [])) in
  grant_of s' = Some (sd_local, 1, "B").
Proof. vm_compute. reflexivity. Qed.

Definition sd_path : string := "/k/bootstrap-request.pb".
Definition sd_load := load_proposal sd_regular sd_populated sd_client sd_path demo_manifest sd_policy 2.
(** A second start sends what the first one saved. *)
Lemma proposal_is_stable_witness :
  let '(r, s1) := sd_load (sd_session0 [] []) in
  let '(r2, s2) := sd_load s1 in
  r = Ok (Some sd_proposal) /\ (r2 = Ok (Some sd_proposal) \/ exists e, r2 = Err e).
Proof.
  destruct (sd_load (sd_session0 [] [])) as [r s1] eqn:E1. destruct (sd_load s1) as [r2 s2] eqn:E2.
  assert (Hr : r = Ok (Some sd_proposal)) by (change r with (fst (r, s1)); rewrite <- E1; vm_compute; reflexivity).
  split; [exact Hr|]. rewrite Hr in E1.
  refine (proposal_is_stable itoa sd_lstat sd_regular demo_url sd_populated sd_client sd_path demo_manifest sd_policy 2 (sd_session0 [] []) sd_proposal s1
    demo_manifest sd_policy 2 s1 r2 s2 _ _ E1 eq_refl E2).
  - intros q b Hq. exact (one_wire_roundtrip sd_proposal "Q" q b Hq).
  - intros suffix Hs. vm_compute in Hs. discriminate Hs.
Defined.

(** ** Renewal

    The identity of [Enrollment]'s witnesses, with a request in flight; the
    panel answers, or is away. *)

#[local] Instance sd_identity_json : Json Identity := ewit_json.
#[local] Instance sd_refresh_request : Json refreshV2Request := ewit_request_json.
#[local] Instance sd_refresh_response : StrictJson refreshV2Response := ewit_response.
#[local] Instance sd_issued : Wire AgentCredentials := ewit_wire.
Definition sd_plain : Client :=
  mkClient 2 true "" (plain_cap true) "linux" (Some sd_flags) sd_flags None None None "boot".
Definition sd_renewal : Renewal :=
  mkRenewal (mkSession sd_disk 0 None (RuntimeConfig.mkStore "/k/rc.json" sd_runtime None [])
    (Some (Credentials.mkStore "/k/credentials.json" (Some ewit_identity))) "agent-1" false []) "https://p" None "at" 0 None [].
Definition sd_attempt (t : Z) (answer : bool) : Attempt :=
  mkRenewAttempt (t * second) (t * second) "new" (t * second) (t * second) (t * second) "t" "n" None
    (fun _ _ => if answer then Some (Some ewit_envelope, Some ewit_issued) else None) (sd_rpc CodeUnavailable) (t * second) (t * second).
Definition sd_address (_ : string) : option Address := Some (mkAddress "https" "p" "" "" "").
Definition sd_refresh := refreshCredentials (fun _ => true) sd_address ad_Host sd_plain.

Lemma renewal_wakes_in_time_witness :
  let i := mkIdentity "https://p" "agent-1" "" "" "" None None "at" (600 * second) "rt" (9000 * second) [] [] [] false 0 0 0 in
  600 * second - 6 * minute < 0 + credentialRenewalDelay i 0 <= 600 * second - 5 * minute.
Proof.
  intros i.
  destruct (renewal_wakes_in_time i 0 eq_refl ltac:(discriminate) ltac:(discriminate)
    ltac:(vm_compute; split; discriminate) ltac:(vm_compute; split; discriminate)) as (_ & H & _).
  destruct H as [[_ H]|H]; [right; vm_compute; reflexivity| |exact H].
  exfalso. apply H. vm_compute. reflexivity.
Defined.


(** Three requests while the panel is away: the second comes too early. *)
Lemma exchanges_are_spaced_witness :
  let s' := refresh_all (fun _ => true) sd_address ad_Host sd_plain
              [("at", sd_attempt 30 false); ("at", sd_attempt 33 false); ("at", sd_attempt 36 false)] sd_renewal in
  length (rn_log s') = 2%nat /\ spaced (rn_log s').
Proof.
  intros s'. split; [vm_compute; reflexivity|].
  exact (exchanges_are_spaced (fun _ => true) sd_address ad_Host sd_plain _ sd_renewal eq_refl eq_refl).
Defined.

Definition sd_turn (t : Z) (answer : bool) : Turn := mkTurn [] (t * second) false [] (t * second) (sd_attempt t answer) false false.
Lemma renewal_backs_off_witness :
  let '(o, acts, _) := runCredentialRenewal (fun _ => true) sd_address ad_Host sd_plain [sd_turn 20 false; sd_turn 30 true] sd_renewal in
  o = Running (5 * second) /\ Forall within_backoff acts.
Proof.
  destruct (runCredentialRenewal (fun _ => true) sd_address ad_Host sd_plain [sd_turn 20 false; sd_turn 30 true] sd_renewal)
    as [[o acts] s'] eqn:E. split.
  - change o with (fst (fst (o, acts, s'))). rewrite <- E. vm_compute. reflexivity.
  - destruct (renewal_backs_off (fun _ => true) sd_address ad_Host sd_plain _ _ _ _ _ E) as [H _]. exact H.
Defined.

(** ** Signed requests *)

Lemma signature_binds_request_witness :
  let p := dpop_payload "POST" "/a" (itoa 5) "n" (hex_encode (sha256 "at")) (body_hash false "{}") in
  p = p /\ sha256 "at" = sha256 "at".
Proof.
  intros p. split; [reflexivity|].
  destruct (signature_binds_request "POST" "/a" 5 "n" (hex_encode (sha256 "at")) (body_hash false "{}") "POST" "/a" 5 "n"
    (hex_encode (sha256 "at")) (body_hash false "{}") "at" "{}" "at" "{}" false false
    ltac:(apply (bool_decide_unpack _); vm_compute; exact I) ltac:(apply (bool_decide_unpack _); vm_compute; exact I)
    ltac:(apply (bool_decide_unpack _); vm_compute; exact I) ltac:(apply (bool_decide_unpack _); vm_compute; exact I)
    eq_refl eq_refl eq_refl eq_refl eq_refl) as (_ & _ & _ & _ & H & _).
  exact H.
Defined.

Definition sd_trip : Trip := mkTrip "at" true 5 "n" (Some 401) (Some true) "at2" 6 "n2" (Some 200).
Definition sd_request : HttpRequest := mkHttpRequest "POST" "/a" "" (Some "{}") false.
(** A 401 and a refresh: the request goes out twice, the second time with the
    new token. *)
Lemma RoundTrip_signs_and_retries_once_witness :
  let '(sent, out) := RoundTrip (Some ewit_identity) sd_request sd_trip in
  length sent = 2%nat /\ out = Response (Some 200) /\ Forall (covered (ewit_panel ++ ewit_panel) sd_request) sent.
Proof.
  destruct (RoundTrip (Some ewit_identity) sd_request sd_trip) as [sent out] eqn:E.
  assert (Hk : DPoPPrivateKey ewit_identity = Some (ewit_panel ++ ewit_panel)) by (vm_compute; reflexivity).
  assert (Hr : length sent = 2%nat /\ out = Response (Some 200)).
  { change ((fun p : list Sent * trip_result => length (fst p) = 2%nat /\ snd p = Response (Some 200)) (sent, out)). rewrite <- E. vm_compute. split; reflexivity. }
  split; [exact (proj1 Hr)|]. split; [exact (proj2 Hr)|].
  destruct (RoundTrip_signs_and_retries_once ewit_identity (ewit_panel ++ ewit_panel) sd_request sd_trip sent out Hk
    ltac:(vm_compute; discriminate) E) as (_ & H & _). exact H.
Defined.

(** ** Executions *)

Definition sd_spec : ExecutionSpec := mkExecutionSpec "uptime" [] "" [] None 1000.
#[local] Instance sd_specs : Wire ExecutionSpec :=
  {| wire_marshal := fun _ => Some "S"; wire_unmarshal := fun s => if (s =? "S")%string then Some sd_spec else None |}.
Definition sd_instruction : Wire SignedInstruction :=
  {| wire_marshal := fun _ => Some "P";
     wire_unmarshal := fun _ => Some (mkSignedInstruction "agent-1" "nonce-1" exec_kind "S" (Some (mkTimestamp 1000 0)) (Some (mkTimestamp 1060 0))) |}.
Definition sd_process : Process := mkProcess true true true [(1, "up 3 days"); (1, ", 2 users")] None false None None.


Definition sd_assignment : ExecutionAssignment := mkAssignment (Some "e1") (Some sd_envelope).
Definition sd_received : worker_event := RecvAssignment sd_assignment true None 0 (1030 * second) (1030 * second).
(** The keys of [sd_identity] are the file's own: no protected trust. *)
Definition sd_worker : Worker :=
  mkWorker (mkExecutor
    (mkRenewal (mkSession sd_disk 0 None (RuntimeConfig.mkStore "/k/rc.json" sd_runtime None [])
       (Some (Credentials.mkStore "/k/credentials.json" (Some sd_identity))) "agent-1" false []) "https://p" None "t" 0 None [])
    (NewReplayGuard "/k/nonces.json" "")) ∅ [] [].
Definition sd_work (l : list worker_event) : Worker :=
  worker_run (WI := sd_instruction) map_to_list sd_address ad_Host sd_plain l sd_worker.


(** A lease that delivers the same assignment again while the command runs: the
    nonce is spent, and the running execution is reported failed. *)
Lemma redelivered_assignment_reported_failed :
  let w := sd_work [sd_received; Acquire "e1"; sd_received] in
  running (wk_jobs w) = 1%nat /\ wk_events w = [rejected_event "e1"] /\ ev_State (rejected_event "e1") = StateFailed.
Proof. vm_compute. split; [reflexivity|]. split; reflexivity. Qed.
