(* ===== verification/Rescue.v ===== *)
(** * The rescue helper's machine ([rescue/actions.go], [actions_linux.go])

    The helper runs as root, edits firewalls through their own tools and keeps
    two small files. This file is the world of its actions: files whose calls may
    fail one by one ([Disk]), an environment of oracles indexed by the number of
    the call (the clock, which tools are installed, what each command answers),
    and a log of the commands started, each with the files as they were then. *)

From S2P Require Import Prelude.
From S2P Require Import GoStd.
From S2P Require Import GoPath.
From S2P Require Import Disk.
From S2P Require Import External.
From S2P Require Import HostUpgrade.

Local Open Scope string_scope.
Local Open Scope Z_scope.

(** ** State and effects *)

(** [Ran]: a command and whether it failed; [Started]: one nobody waits for. *)
Inductive event :=
| Ran (argv : list string) (failed : bool) (files : fsys)
| Started (argv : list string).
Record Machine := mkMachine { rm_world : World; rm_tick : nat; rm_log : list event }.

(** Standard output, standard error and, when it failed, the error's text. *)
Record Outcome := mkOutcome { oc_Stdout : string; oc_Stderr : string; oc_error : option string }.
Record Env := mkEnv {
  re_euid : Z;
  re_pid : Z;
  re_now : nat -> time;
  re_look : nat -> string -> option string;              (** [exec.LookPath] *)
  re_run : nat -> list string -> Outcome;
  re_start : nat -> list string -> bool;                 (** [Cmd.Start] *)
  re_self : nat -> option string;                        (** [os.Executable] *)
  re_getenv : string -> string;
  re_text : io_err -> string;                            (** the text of a system error *)
  re_readdir : nat -> string -> option (list (string * bool));  (** names, and whether directories *)
  re_glob : nat -> string -> option (list string);
  re_interfaces : nat -> option (list string);           (** the names [net.Interfaces] lists *)
  re_torn : nat -> nat;                                  (** what an interrupted write leaves *)
  re_timer : nat -> bool;                                (** a timer fires before the context ends *)
}.

Inductive rescue_err :=
| EIo (e : io_err)
| ECommand (argv : list string) (stderr text : string)
| EMissing (tool : string)
| ENotRoot
| EArguments
| EUnsupported (action : Z)
| ERollbackRetired
| EIsolationActive
| EService
| EInterfaces
| EMode
| ERoutes
| EControlPlane
| EResolve
| ECancelled
| ENoFirewall
| EMechanism (m : string)
| EAlreadyOpen (port : Z) (until : time)
| EReconcile (e : rescue_err)
| EPersistDeadline (e : rescue_err)
| EPersistMechanism (e : rescue_err)
| ESaveIsolation (e : rescue_err)
| ERevoke (failures : list rescue_err)
| EDiagnostics.

Definition RM (A : Type) : Type := Machine -> result A rescue_err * Machine.
Definition r_ret {A} (a : A) : RM A := fun s => (Ok a, s).
Definition r_err {A} (e : rescue_err) : RM A := fun s => (Err e, s).
Definition r_bind {A B} (m : RM A) (k : A -> RM B) : RM B := fun s =>
  match m s with
  | (Ok a, s) => k a s
  | (Err e, s) => (Err e, s)
  end.
(** The error handled by the caller. *)
Definition r_try {A} (m : RM A) : RM (result A rescue_err) := fun s => let '(r, s) := m s in (Ok r, s).
Definition r_wrap {A} (f : rescue_err -> rescue_err) (m : RM A) : RM A := fun s =>
  match m s with (Ok a, s) => (Ok a, s) | (Err e, s) => (Err (f e), s) end.
Definition r_guard (b : bool) (e : rescue_err) : RM unit := if b then r_ret tt else r_err e.

Declare Scope rescue_scope.
Delimit Scope rescue_scope with rescue.
Notation "'let!' p ':=' m 'in' k" := (r_bind m (fun p => k))
  (at level 10, p pattern, m at level 100, k at level 200) : rescue_scope.
Notation "m ;;; k" := (r_bind m (fun _ => k)) (at level 100, k at level 200, right associativity) : rescue_scope.
Local Open Scope rescue_scope.

Definition r_io {A} (m : IO A) : RM A := fun s =>
  let '(r, w) := m (rm_world s) in (result_map_err EIo r, mkMachine w (rm_tick s) (rm_log s)).
(** The files a deferred [os.Remove] cleans up. *)
Definition r_removed {A} (path : string) (m : RM A) : RM A := fun s =>
  let '(r, s) := m s in (r, snd (r_io (remove path) s)).

Section Effects.
Context (E : Env).

Definition ask {A} (f : nat -> A) : RM A := fun s => (Ok (f (rm_tick s)), mkMachine (rm_world s) (S (rm_tick s)) (rm_log s)).
Definition r_now : RM time := ask (re_now E).
Definition LookPath (tool : string) : RM (option string) := ask (fun t => re_look E t tool).

Definition run_command (argv : list string) : RM Outcome := fun s =>
  let o := re_run E (rm_tick s) argv in
  (Ok o, mkMachine (rm_world s) (S (rm_tick s))
     (Ran argv (bool_decide (oc_error o <> None)) (w_fs (rm_world s)) :: rm_log s)).
Definition platformCommand (argv : list string) : RM Outcome := run_command argv.
(** A command whose failure is an error that quotes its standard error. *)
Definition command (argv : list string) : RM unit :=
  let! o := platformCommand argv in
  match oc_error o with
  | None => r_ret tt
  | Some text => r_err (ECommand argv (trim_space (oc_Stderr o)) text)
  end.
Definition start_command (argv : list string) : RM unit := fun s =>
  ((if re_start E (rm_tick s) argv then Ok tt else Err (ECommand argv "" "")),
   mkMachine (rm_world s) (S (rm_tick s)) (Started argv :: rm_log s)).

(** [os.WriteFile]: the file is created or truncated first; a write that is cut
    short leaves a prefix. *)
Definition truncate_file (path : string) (mode : Z) : IO unit :=
  call OpWrite (fun w =>
    let m := match w_fs w !! path with Some f => f_mode f | None => mode end in
    (Ok tt, set_fs (<[path := mkFile "" m]> (w_fs w)) w)).
Definition fill_file (torn : nat) (path data : string) : IO unit := fun w =>
  let m := match w_fs w !! path with Some f => f_mode f | None => 0 end in
  let written d := <[path := mkFile d m]> (w_fs w) in
  let w' := mkWorld (w_fs w) (tail (w_faults w)) (w_rand w) (w_trace w) in
  if hd false (w_faults w) then (Err (Fault OpWrite), set_fs (written (String.substring 0 torn data)) w')
  else (Ok tt, set_fs (written data) w').
Definition WriteFile (path data : string) (mode : Z) : RM unit :=
  let! torn := ask (re_torn E) in
  r_io (truncate_file path mode ;; fill_file torn path data).

(** [os.CreateTemp] with a suffix after the random part. *)
Fixpoint pick_named (m : fsys) (d prefix suffix : string) (rand : list string) : option (string * list string) :=
  match rand with
  | [] => None
  | r :: rs => let name := temp_name d prefix (r ++ suffix) in
               match m !! name with
               | None => Some (name, rs)
               | Some _ => pick_named m d prefix suffix rs
               end
  end.
Definition CreateTemp (d prefix suffix : string) : IO string :=
  call OpCreateTemp (fun w =>
    match pick_named (w_fs w) d prefix suffix (w_rand w) with
    | None => (Err NoTempName, w)
    | Some (name, rs) =>
        let m := <[name := mkFile "" 384]> (w_fs w) in
        (Ok name, mkWorld m (w_faults w) rs (m :: w_trace w))
    end).
(** [os.IsNotExist], and a deletion that tolerates a file already gone. *)
Definition is_not_exist (e : rescue_err) : bool := match e with EIo NotExist => true | _ => false end.
Definition remove_if_exists (path : string) : RM unit :=
  let! r := r_try (r_io (remove path)) in
  match r with
  | Ok _ => r_ret tt
  | Err e => if is_not_exist e then r_ret tt else r_err e
  end.
End Effects.

(** ** Configuration and results *)

Record ActionConfig := mkActionConfig {
  cf_AgentPath : string; cf_ConfigPath : string; cf_RuntimeStatePath : string; cf_ServiceName : string;
  cf_RuntimeIdentity : string; cf_RuntimeUser : string; cf_ControlPlaneURL : string;
  cf_IsolationStatePath : string; cf_PrivilegedStatePath : string }.

Definition isPrivileged (E : Env) : bool := re_euid E =? 0.
Definition isolationPath (config : ActionConfig) : string :=
  if (trim_space (cf_IsolationStatePath config) =? "")%string then "/etc/komari-agent/rescue-isolation.json"
  else trim_space (cf_IsolationStatePath config).

Definition uniqueStrings (values : list string) : list string :=
  sort_strings (rev (fold_left (fun result value =>
    if negb (value =? "")%string && negb (existsb (String.eqb value) result) then value :: result else result) values [])).
Definition uniqueUint32 (values : list Z) : list Z :=
  rev (fold_left (fun result value => if existsb (Z.eqb value) result then result else value :: result) values []).

(** What keeps an opened port from staying open. *)
Inductive ExpiryMechanism :=
| EXPIRY_MECHANISM_UNSPECIFIED | EXPIRY_MECHANISM_NFTABLES_TIMEOUT | EXPIRY_MECHANISM_SYSTEMD_TIMER | EXPIRY_MECHANISM_HELPER_RECONCILE.
#[export] Instance ExpiryMechanism_eq : EqDecision ExpiryMechanism.
Proof. solve_decision. Defined.

(** What the panel is told about the daemon behind an opened port. *)
Record SSHDaemonState := mkDaemon {
  ds_Running : bool; ds_Reachable : bool; ds_ListenAddresses : list string;
  ds_ObservedListenPorts : list Z; ds_Limitation : string }.
Record TemporarySSHAccess := mkSSHAccess {
  ta_Port : Z; ta_Granted : bool; ta_GrantedAt : time; ta_ExpiresAt : time; ta_ExpiryMechanism : ExpiryMechanism; ta_SshdState : option SSHDaemonState }.
(** [AfterReport] is what is left to do once the result has been reported. *)
Record ActionResult := mkResult {
  ar_Stdout : string; ar_Stderr : string; ar_AfterReport : option (RM unit);
  ar_Diagnostics : option bytes; ar_SSHAccess : option TemporarySSHAccess }.
Definition said (stdout : string) : ActionResult := mkResult stdout "" None None None.
Definition later (stdout : string) (k : RM unit) : ActionResult := mkResult stdout "" (Some k) None None.

(** ** Reasoning about runs

    [safe I P m]: from files that satisfy [I], [m] ends in such files and every
    event it logs satisfies [P], whatever the outcome. *)

Definition files (s : Machine) : fsys := w_fs (rm_world s).
Definition adds (P : event -> Prop) (s s' : Machine) : Prop :=
  exists new, rm_log s' = (new ++ rm_log s)%list /\ Forall P new.
Definition safe {A} (I : fsys -> Prop) (P : event -> Prop) (m : RM A) : Prop :=
  forall s, I (files s) -> I (files (snd (m s))) /\ adds P s (snd (m s)).

Lemma adds_same P s s' : rm_log s' = rm_log s -> adds P s s'.
Proof. intros H. by exists []. Qed.
Lemma adds_trans P s1 s2 s3 : adds P s1 s2 -> adds P s2 s3 -> adds P s1 s3.
Proof.
  intros (n1 & H1 & F1) (n2 & H2 & F2). exists (n2 ++ n1)%list.
  split; [by rewrite H2, H1, app_assoc|by apply Forall_app].
Qed.
Lemma adds_impl (P Q : event -> Prop) s s' : (forall e, P e -> Q e) -> adds P s s' -> adds Q s s'.
Proof. intros HPQ (n & H & F). exists n. split; [done|]. eapply Forall_impl; eauto. Qed.
Lemma safe_impl {A} I (P Q : event -> Prop) (m : RM A) : (forall e, P e -> Q e) -> safe I P m -> safe I Q m.
Proof. intros HPQ Hm s Hs. destruct (Hm s Hs) as [? ?]. split; [done|]. by eapply adds_impl. Qed.

Section Safe.
Context (E : Env) (I : fsys -> Prop) (P : event -> Prop).
Lemma safe_same {A} (m : RM A) : (forall s, files (snd (m s)) = files s /\ rm_log (snd (m s)) = rm_log s) -> safe I P m.
Proof. intros H s Hs. destruct (H s) as [Hf Hl]. rewrite Hf. split; [done|by apply adds_same]. Qed.
Lemma safe_ret {A} (a : A) : safe I P (r_ret a).
Proof. by apply safe_same. Qed.
Lemma safe_err {A} e : safe I P (@r_err A e).
Proof. by apply safe_same. Qed.
Lemma safe_ask {A} (f : nat -> A) : safe I P (ask f).
Proof. by apply safe_same. Qed.
(** The continuation may count on what the first part returned. *)
Lemma safe_bind_val {A B} (Q : A -> Prop) (m : RM A) (k : A -> RM B) :
  (forall s a s', m s = (Ok a, s') -> Q a) -> safe I P m -> (forall a, Q a -> safe I P (k a)) -> safe I P (r_bind m k).
Proof.
  intros HQ Hm Hk s Hs. unfold r_bind. specialize (HQ s). destruct (Hm s Hs) as [Hi Ha].
  destruct (m s) as [[a|e] s1]; simpl in *; [|done].
  destruct (Hk a (HQ a s1 eq_refl) s1 Hi) as [? ?]. split; [done|]. by eapply adds_trans.
Qed.
Lemma safe_bind {A B} (m : RM A) (k : A -> RM B) : safe I P m -> (forall a, safe I P (k a)) -> safe I P (r_bind m k).
Proof. intros Hm Hk. apply (safe_bind_val (fun _ => True)); eauto. Qed.
Lemma safe_try {A} (m : RM A) : safe I P m -> safe I P (r_try m).
Proof. intros Hm s Hs. unfold r_try. specialize (Hm s Hs). by destruct (m s). Qed.
Lemma safe_wrap {A} f (m : RM A) : safe I P m -> safe I P (r_wrap f m).
Proof. intros Hm s Hs. unfold r_wrap. specialize (Hm s Hs). by destruct (m s) as [[?|?] ?]. Qed.
Lemma safe_io {A} (m : IO A) : keeps I m -> safe I P (r_io m).
Proof.
  intros Hm s Hs. unfold r_io. specialize (Hm (rm_world s) Hs). destruct (m (rm_world s)) as [r w].
  split; [apply Hm|by apply adds_same].
Qed.
Lemma safe_removed {A} path (m : RM A) : stable_off path I -> safe I P m -> safe I P (r_removed path m).
Proof.
  intros HI Hm s Hs. unfold r_removed. specialize (Hm s Hs). destruct (m s) as [r s1].
  destruct (safe_io (remove path) (keeps_remove I path HI) s1 (proj1 Hm)) as [? ?].
  split; [done|]. eapply adds_trans; [apply Hm|done].
Qed.
Lemma safe_write path data mode : stable_off path I -> safe I P (WriteFile E path data mode).
Proof.
  intros HI. apply safe_bind; [apply safe_ask|intros n]. apply safe_io. apply keeps_bind; [|intros _].
  - apply keeps_call. intros w Hw. apply grows_step; [|done]. by apply HI.
  - intros w Hw. unfold fill_file. destruct (hd false (w_faults w)); apply grows_step; try done; by apply HI.
Qed.
Lemma safe_create d prefix suffix :
  (forall r, stable_off (temp_name d prefix (r ++ suffix)) I) -> safe I P (r_io (CreateTemp d prefix suffix)).
Proof.
  intros HI. apply safe_io, keeps_call. intros w Hw. destruct (pick_named _ _ _ _ _) as [[name rs]|] eqn:Hp; [|by apply grows_same].
  apply grows_step; [|done]. simpl. revert Hp. generalize (w_rand w). induction l as [|r l IH]; [done|]. simpl.
  destruct (w_fs w !! temp_name d prefix (r ++ suffix)); [done|]. intros [= <- <-]. by apply HI.
Qed.
Lemma safe_guard b e : safe I P (r_guard b e).
Proof. unfold r_guard. destruct b; [apply safe_ret|apply safe_err]. Qed.
Lemma safe_run argv : (forall b fs, I fs -> P (Ran argv b fs)) -> safe I P (run_command E argv).
Proof. intros H s Hs. split; [done|]. eexists [_]. split; [reflexivity|]. constructor; [by apply H|done]. Qed.
Lemma safe_command argv : (forall b fs, I fs -> P (Ran argv b fs)) -> safe I P (command E argv).
Proof.
  intros H. apply safe_bind; [by apply safe_run|]. intros o. destruct (oc_error o); [apply safe_err|apply safe_ret].
Qed.
End Safe.
Create HintDb rescue.
#[export] Hint Resolve safe_ret safe_err safe_try safe_wrap safe_io safe_removed safe_ask safe_guard : rescue.
#[export] Hint Resolve keeps_read : rescue.

(** Take a program apart at its binds and case distinctions. *)
Ltac safe_step :=
  lazymatch goal with
  | |- safe _ _ (r_bind _ _) => apply safe_bind; [|intros ?]
  | |- safe _ _ (r_try _) => apply safe_try
  | |- safe _ _ (r_wrap _ _) => apply safe_wrap
  | |- safe _ _ (match ?x with _ => _ end) => destruct x
  | |- _ => solve [auto with rescue disk]
  end.
Ltac safe_all := repeat safe_step.

Lemma CreateTemp_name d prefix suffix s name s' :
  r_io (CreateTemp d prefix suffix) s = (Ok name, s') -> exists r, name = temp_name d prefix (r ++ suffix).
Proof.
  unfold r_io, CreateTemp, call. destruct (hd false _); [done|]. simpl.
  destruct (pick_named _ _ _ _ _) as [[n rs]|] eqn:Hp; [|done]. intros [= <- _]. revert Hp.
  generalize (w_rand (rm_world s)). induction l as [|r l IH]; [done|]. simpl. destruct (_ !! _); [done|].
  intros [= <- _]. by exists r.
Qed.
(** A file written without error is there. *)
Lemma WriteFile_ok E path data mode s s' :
  WriteFile E path data mode s = (Ok tt, s') ->
  (exists f, files s' !! path = Some f /\ f_data f = data) /\ rm_log s' = rm_log s.
Proof.
  unfold WriteFile, r_bind, ask, r_io, io_bind, truncate_file, fill_file, call. simpl.
  destruct (hd false (w_faults _)); simpl; [done|]. destruct (hd false (tail _)); simpl; [done|].
  intros [= <-]. unfold files. simpl. rewrite !lookup_insert_eq. split; [by eexists|done].
Qed.
(** ** Runs that succeed *)

Lemma r_bind_ok {A B} (m : RM A) (k : A -> RM B) s b s' :
  r_bind m k s = (Ok b, s') -> exists a s1, m s = (Ok a, s1) /\ k a s1 = (Ok b, s').
Proof. unfold r_bind. destruct (m s) as [[a|e] s1]; [|done]. intros H. by exists a, s1. Qed.
Lemma r_bind_inv {A B} (m : RM A) (k : A -> RM B) s r s' :
  r_bind m k s = (r, s') -> (exists e, m s = (Err e, s') /\ r = Err e) \/ (exists a s1, m s = (Ok a, s1) /\ k a s1 = (r, s')).
Proof. unfold r_bind. destruct (m s) as [[a|e] s1]; intros Hr; [right; by exists a, s1|]. left. exists e. by injection Hr as <- <-. Qed.
Lemma r_guard_ok b e s a s' : r_guard b e s = (Ok a, s') -> b = true /\ s' = s.
Proof. unfold r_guard. destruct b; intros [= <- <-]; done. Qed.
