(* ===== verification/RescueSsh.v ===== *)
(** * Temporary SSH access ([rescue/ssh_access_linux.go])

    A port is opened for fifteen minutes with whichever firewall tool the host
    has. The deadline is written to a file before the rule is installed, and
    reconciled before every lease, so that the window closes without the panel. *)

From S2P Require Import Prelude.
From S2P Require Import GoStd.
From S2P Require Import GoPath.
From S2P Require Import Disk.
From S2P Require Import External.
From S2P Require Import Systemd.
From S2P Require Import HostFs.
From S2P Require Import HostFetch.
From S2P Require Import Rescue.

Local Open Scope string_scope.
Local Open Scope Z_scope.
Local Open Scope rescue_scope.

(** ** Data *)

Definition temporarySSHDuration : duration := 15 * minute.
Definition temporarySSHTable : string := "komari_temp_ssh".
Definition temporarySSHSet : string := "temp_ssh".
Definition temporarySSHUnit : string := "komari-temp-ssh-revoke".
Definition temporarySSHMark : string := "komari-temp-ssh".
Definition defaultSSHPort : Z := 22.

(** [sshAccessMechanism] is a string: a file may hold any. *)
Definition mechanismNftablesSet : string := "nftables-set".
Definition mechanismUFW : string := "ufw".
Definition mechanismFirewalld : string := "firewalld".
Definition mechanismIptables : string := "iptables".

Record sshAccessState := mkAccessState {
  sa_Port : Z; sa_GrantedAt : time; sa_ExpiresAt : time; sa_Mechanism : string; sa_Expiry : ExpiryMechanism }.
#[export] Instance sshAccessState_eq : EqDecision sshAccessState.
Proof. solve_decision. Defined.

Definition sshAccessStatePath (config : ActionConfig) : string := join_path [dir (isolationPath config); "rescue-temp-ssh.json"].

Definition durationForNft (value : duration) : string :=
  if Z.rem value minute =? 0 then itoa (Z.quot value minute) ++ "m" else itoa (Z.quot value second) ++ "s".

Section Access.
Context (E : Env) `{JS : Json sshAccessState}.
Variable config : ActionConfig.

(** ** The recorded deadline *)

Definition saveSSHAccessState (state : sshAccessState) : RM unit :=
  match json_marshal state with
  | None => r_err (EIo EncodeFailed)
  | Some data =>
      r_io (mkdir_all (dir (sshAccessStatePath config))) ;;;
      WriteFile E (sshAccessStatePath config) data 384
  end.
Definition loadSSHAccessState : RM sshAccessState :=
  let! data := r_io (read_file (sshAccessStatePath config)) in
  match json_unmarshal data with Some state => r_ret state | None => r_err (EIo DecodeFailed) end.
Definition removeSSHAccessState : RM unit := remove_if_exists (sshAccessStatePath config).

(** ** Firewall tools *)

Definition tcp (port : Z) : string := utoa port ++ "/tcp".
Definition ufw_allow (port : Z) : list string := ["ufw"; "allow"; tcp port].
Definition ufw_delete (port : Z) : list string := ["ufw"; "delete"; "allow"; tcp port].
Definition firewalld_add (port : Z) : list string := ["firewall-cmd"; "--add-port=" ++ tcp port].
Definition firewalld_remove (port : Z) : list string := ["firewall-cmd"; "--remove-port=" ++ tcp port].
Definition iptables_rule (port : Z) : list string :=
  ["-p"; "tcp"; "--dport"; utoa port; "-m"; "comment"; "--comment"; temporarySSHMark; "-j"; "ACCEPT"].
Definition iptables_insert (port : Z) : list string := (["iptables"; "-I"; "INPUT"; "1"] ++ iptables_rule port)%list.
Definition iptables_delete (port : Z) : list string := (["iptables"; "-D"; "INPUT"] ++ iptables_rule port)%list.
Definition nft_element (port : Z) : list string :=
  ["nft"; "add"; "element"; "inet"; temporarySSHTable; temporarySSHSet;
   "{ " ++ utoa port ++ " timeout " ++ durationForNft temporarySSHDuration ++ " }"].
Definition nft_delete : list string := ["nft"; "delete"; "table"; "inet"; temporarySSHTable].

Definition detectFirewallMechanism : RM string :=
  let! ufw := LookPath E "ufw" in
  let! active := match ufw with
                 | None => r_ret false
                 | Some path =>
                     let! o := run_command E [path; "status"] in
                     r_ret (bool_decide (oc_error o = None) &&
                            contains (of_chars (map lower (chars (oc_Stdout o)))) "status: active")
                 end in
  if active then r_ret mechanismUFW else
  let! firewalld := LookPath E "firewall-cmd" in
  let! running := match firewalld with
                  | None => r_ret false
                  | Some path => let! o := run_command E [path; "--state"] in r_ret (bool_decide (oc_error o = None))
                  end in
  if running then r_ret mechanismFirewalld else
  let! nft := LookPath E "nft" in
  if bool_decide (is_Some nft) then r_ret mechanismNftablesSet else
  let! iptables := LookPath E "iptables" in
  if bool_decide (is_Some iptables) then r_ret mechanismIptables else r_err ENoFirewall.

Definition nft_script : string :=
  "table inet " ++ temporarySSHTable ++ " {
	set " ++ temporarySSHSet ++ " {
		type inet_service
		flags timeout
	}
	chain input {
		type filter hook input priority -150; policy accept;
		tcp dport @" ++ temporarySSHSet ++ " accept
	}
}
".
Definition installNftablesSSHAccess (port : Z) : RM unit :=
  let directory := dir (sshAccessStatePath config) in
  r_io (mkdir_all directory) ;;;
  let! path := r_io (CreateTemp directory ".komari-temp-ssh-" ".conf") in
  r_removed path (
    r_io (write_file path nft_script ;; close_file path) ;;;
    command E ["nft"; "-f"; path] ;;;
    command E (nft_element port)).
Definition deleteNftablesSSHAccess : RM unit :=
  let! nft := LookPath E "nft" in
  if bool_decide (nft = None) then r_ret tt else
  let! listed := platformCommand E ["nft"; "list"; "table"; "inet"; temporarySSHTable] in
  if bool_decide (oc_error listed <> None) then r_ret tt else command E nft_delete.

(** ** The revocation timer *)

Definition stop_timer_unit (unit_name : string) : RM unit :=
  let! _ := platformCommand E ["systemctl"; "stop"; unit_name] in r_ret tt.
Definition cancelSSHAccessTimer : RM unit :=
  let! systemctl := LookPath E "systemctl" in
  if bool_decide (systemctl = None) then r_ret tt else
  stop_timer_unit (temporarySSHUnit ++ ".timer") ;;; stop_timer_unit (temporarySSHUnit ++ ".service").
Definition timer_arguments (binary self : string) : list string :=
  app [binary; "--unit=" ++ temporarySSHUnit; "--on-active=" ++ itoa (Z.quot temporarySSHDuration second);
       "--timer-property=AccuracySec=1s"; "--description=Revoke Komari temporary SSH access";
       self; "--revoke-temporary-ssh"]
    (let path := trim_space (cf_IsolationStatePath config) in
     if (path =? "")%string then [] else ["--isolation-state-file"; path]).
Definition armSSHAccessTimer : RM unit :=
  let! binary := LookPath E "systemd-run" in
  match binary with
  | None => r_err (EMissing "systemd-run")
  | Some binary =>
      cancelSSHAccessTimer ;;;
      let! self := ask (re_self E) in
      match self with
      | None => r_err (EMissing "executable")
      | Some self => command E (timer_arguments binary self)
      end
  end.

(** ** Installing and removing the rule *)

Definition installSSHAccessRule (port : Z) (mechanism : string) : RM ExpiryMechanism :=
  if (mechanism =? mechanismNftablesSet)%string then
    installNftablesSSHAccess port ;;; r_ret EXPIRY_MECHANISM_NFTABLES_TIMEOUT
  else
  (if (mechanism =? mechanismUFW)%string then command E (ufw_allow port)
   else if (mechanism =? mechanismFirewalld)%string then command E (firewalld_add port)
   else if (mechanism =? mechanismIptables)%string then command E (iptables_insert port)
   else r_ret tt) ;;;
  let! armed := r_try armSSHAccessTimer in
  r_ret (match armed with Ok _ => EXPIRY_MECHANISM_SYSTEMD_TIMER | Err _ => EXPIRY_MECHANISM_HELPER_RECONCILE end).
Definition removeSSHAccessRule (state : sshAccessState) : RM unit :=
  let port := sa_Port state in
  if (sa_Mechanism state =? mechanismNftablesSet)%string then deleteNftablesSSHAccess
  else if (sa_Mechanism state =? mechanismUFW)%string then command E (ufw_delete port)
  else if (sa_Mechanism state =? mechanismFirewalld)%string then command E (firewalld_remove port)
  else if (sa_Mechanism state =? mechanismIptables)%string then command E (iptables_delete port)
  else r_err (EMechanism (sa_Mechanism state)).

(** ** Closing *)

Definition failure (r : result unit rescue_err) : list rescue_err := match r with Ok _ => [] | Err e => [e] end.
Definition revokeSSHAccess (state : sshAccessState) : RM unit :=
  let! rule := r_try (removeSSHAccessRule state) in
  let! timer := r_try cancelSSHAccessTimer in
  let! file := r_try removeSSHAccessState in
  match (failure rule ++ failure timer ++ failure file)%list with
  | [] => r_ret tt
  | failures => r_err (ERevoke failures)
  end.
Definition sweepOrphanedSSHAccess : RM unit := deleteNftablesSSHAccess ;;; cancelSSHAccessTimer.
(** [time.Now] is read unless the closing is forced. *)
Definition not_due (force : bool) (state : sshAccessState) : RM bool :=
  if force then r_ret false else let! now := r_now E in r_ret (before now (sa_ExpiresAt state)).
Definition closeTemporarySSHAccess (force : bool) : RM unit :=
  let! loaded := r_try loadSSHAccessState in
  match loaded with
  | Err e => if is_not_exist e then (if force then sweepOrphanedSSHAccess else r_ret tt) else r_err e
  | Ok state =>
      let! early := not_due force state in
      if early then r_ret tt else revokeSSHAccess state
  end.
Definition ReconcileTemporarySSHAccess : RM unit := closeTemporarySSHAccess false.
Definition CloseTemporarySSHAccess : RM unit := closeTemporarySSHAccess true.

(** ** Is the daemon reachable? *)

Definition procRootDirectory : string :=
  let value := trim_space (re_getenv E "HOST_PROC") in if (value =? "")%string then "/proc" else value.
Definition read_maybe (path : string) : RM (option string) :=
  let! r := r_try (r_io (read_file path)) in r_ret (match r with Ok data => Some data | Err _ => None end).

(** [strconv.ParseUint(s, 16, 32)]. *)
Definition hex_value (a : ascii) : option Z :=
  let n := Z.of_nat (code a) in
  if (48 <=? n) && (n <=? 57) then Some (n - 48) else
  if (97 <=? n) && (n <=? 102) then Some (n - 87) else
  if (65 <=? n) && (n <=? 70) then Some (n - 55) else None.
Fixpoint parse_hex_go (acc : Z) (l : list ascii) : option Z :=
  match l with
  | [] => Some acc
  | a :: l => match hex_value a with
              | None => None
              | Some v => let acc := acc * 16 + v in if 2 ^ 32 <=? acc then None else parse_hex_go acc l
              end
  end.
Definition parse_hex32 (s : string) : option Z := match chars s with [] => None | l => parse_hex_go 0 l end.

(** One line of [/proc/net/tcp]: its local port when it is listening. *)
Definition listening_port (line : string) : option Z :=
  let f := fields line in
  if Nat.ltb (length f) 4 || negb (nth 3 f "" =? "0A")%string then None else
  match cut (nth 1 f "") ":" with
  | None => None
  | Some (_, portHex) => parse_hex32 portHex
  end.
Definition ports_of (content : string) : list Z := omap listening_port (tail (split_on (byte_of 10) content)).
Definition ports_read (r : result string rescue_err) : list Z := match r with Ok content => ports_of content | Err _ => [] end.
Definition listeningTCPPorts : RM (list Z) :=
  let! v4 := r_try (r_io (read_file (join_path [procRootDirectory; "net"; "tcp"]))) in
  let! v6 := r_try (r_io (read_file (join_path [procRootDirectory; "net"; "tcp6"]))) in
  match v4, v6 with
  | Err _, Err lastErr => r_err lastErr
  | _, _ => r_ret (uniqueUint32 (ports_read v4 ++ ports_read v6)%list)
  end.

Fixpoint some_active (units : list string) : RM bool :=
  match units with
  | [] => r_ret false
  | u :: units =>
      let! o := platformCommand E ["systemctl"; "is-active"; "--quiet"; u] in
      if bool_decide (oc_error o = None) then r_ret true else some_active units
  end.
Fixpoint some_sshd (entries : list (string * bool)) : RM bool :=
  match entries with
  | [] => r_ret false
  | (name, directory) :: entries =>
      if negb directory || bool_decide (atoi name = None) then some_sshd entries else
      let! comm := read_maybe (join_path [procRootDirectory; name; "comm"]) in
      if (trim_space (default "" comm) =? "sshd")%string then r_ret true else some_sshd entries
  end.
Definition sshDaemonRunning : RM bool :=
  let! systemctl := LookPath E "systemctl" in
  let! active := if bool_decide (is_Some systemctl) then some_active ["sshd"; "ssh"] else r_ret false in
  if active then r_ret true else
  let! entries := ask (fun t => re_readdir E t procRootDirectory) in
  match entries with None => r_ret false | Some entries => some_sshd entries end.

Definition listen_address (line : string) : option string :=
  let trimmed := trim_space line in
  if (trimmed =? "")%string || has_prefix trimmed "#" then None else
  match fields trimmed with
  | key :: value :: _ => if equal_fold key "ListenAddress" then Some value else None
  | _ => None
  end.
Fixpoint addresses_in (files : list string) : RM (list string) :=
  match files with
  | [] => r_ret []
  | file :: files =>
      let! content := read_maybe file in
      let! rest := addresses_in files in
      r_ret (match content with
             | None => rest
             | Some c => omap listen_address (split_on (byte_of 10) c) ++ rest
             end)%list
  end.
Definition sshdListenAddresses : RM (list string) :=
  let! entries := ask (fun t => re_glob E t "/etc/ssh/sshd_config.d/*.conf") in
  let! addresses := addresses_in ("/etc/ssh/sshd_config" :: default [] entries) in
  r_ret (uniqueStrings addresses).

Definition inspectSSHDaemon (port : Z) : RM SSHDaemonState :=
  let! listening := r_try listeningTCPPorts in
  let observed := match listening with Ok l => l | Err _ => [] end in
  let reachable := existsb (Z.eqb port) observed in
  let limitation := match listening with
                    | Err (EIo e) => "could not read listening sockets: " ++ re_text E e
                    | _ => ""
                    end in
  let! running := sshDaemonRunning in
  let! addresses := sshdListenAddresses in
  r_ret (mkDaemon running reachable addresses observed
    (if negb running then "sshd does not appear to be running, so opening the firewall cannot allow a login"
     else if negb reachable && negb (Nat.eqb (length observed) 0) then
       "nothing is listening on port " ++ utoa port ++ "; sshd may be bound to another port or to a private address only"
     else limitation)).

(** ** The two actions *)

(** The second look at the file: a window that is still open. *)
Definition open_window : RM (option sshAccessState) :=
  let! existing := r_try loadSSHAccessState in
  match existing with
  | Err _ => r_ret None
  | Ok state => let! now := r_now E in r_ret (if after (sa_ExpiresAt state) now then Some state else None)
  end.
Definition access_result (port : Z) (granted : bool) (from until : time) (expiry : ExpiryMechanism) (daemon : option SSHDaemonState) : ActionResult :=
  mkResult "" "" None None (Some (mkSSHAccess port granted from until expiry daemon)).

Definition chosen_port (requestedPort : Z) : Z :=
  if (requestedPort =? 0) || (65535 <? requestedPort) then defaultSSHPort else requestedPort.
(** From the recorded deadline on. *)
Definition open_and_record (state : sshAccessState) (daemon : SSHDaemonState) : RM ActionResult :=
  let port := sa_Port state in
  let! installed := r_try (installSSHAccessRule port (sa_Mechanism state)) in
  match installed with
  | Err e => let! _ := r_try removeSSHAccessState in r_err e
  | Ok expiry =>
      let state := mkAccessState port (sa_GrantedAt state) (sa_ExpiresAt state) (sa_Mechanism state) expiry in
      let! saved := r_try (saveSSHAccessState state) in
      match saved with
      | Err e =>
          let! _ := r_try (removeSSHAccessRule state) in
          let! _ := r_try cancelSSHAccessTimer in
          r_err (EPersistMechanism e)
      | Ok _ => r_ret (access_result port true (sa_GrantedAt state) (sa_ExpiresAt state) expiry (Some daemon))
      end
  end.
Definition grantTemporarySSHAccess (requestedPort : Z) : RM ActionResult :=
  r_guard (isPrivileged E) ENotRoot ;;;
  let port := chosen_port requestedPort in
  r_wrap EReconcile ReconcileTemporarySSHAccess ;;;
  let! existing := open_window in
  match existing with
  | Some st => r_err (EAlreadyOpen (sa_Port st) (sa_ExpiresAt st))
  | None =>
      let! daemon := inspectSSHDaemon port in
      let! mechanism := detectFirewallMechanism in
      let! granted := r_now E in
      let state := mkAccessState port granted (t_add granted temporarySSHDuration) mechanism EXPIRY_MECHANISM_UNSPECIFIED in
      r_wrap EPersistDeadline (saveSSHAccessState state) ;;;
      open_and_record state daemon
  end.
Definition revokeTemporarySSHAccess : RM ActionResult :=
  r_guard (isPrivileged E) ENotRoot ;;;
  let! loaded := r_try loadSSHAccessState in
  match loaded with
  | Err e => if is_not_exist e then r_ret (said "no temporary SSH access is open
") else r_err e
  | Ok state =>
      revokeSSHAccess state ;;;
      r_ret (access_result (sa_Port state) false (sa_GrantedAt state) (sa_ExpiresAt state) EXPIRY_MECHANISM_UNSPECIFIED None)
  end.
End Access.

(** ** Names of files *)

(** A path joined from two parts ends with the second one. *)
Lemma split_go_sep acc l r : split_go sep acc (l ++ sep :: r)%list = (split_go sep acc l ++ split_go sep [] r)%list.
Proof.
  revert acc. induction l as [|a l IH]; intros acc; simpl; [done|].
  destruct (Ascii.eqb a sep); rewrite IH; done.
Qed.
Lemma join_ends (es : list string) e : exists x, join "/" (es ++ [e])%list = x ++ e.
Proof.
  destruct es as [|a es]; [by exists ""|]. rewrite join_snoc by done. exists (join "/" (a :: es) ++ "/").
  by rewrite <- !app_str_assoc.
Qed.
Lemma clean_ends p e : plain e -> split_on sep p = split_on sep e \/ (exists es, split_on sep p = es ++ split_on sep e)%list ->
  exists x, clean p = x ++ e.
Proof.
  intros He Hs. assert (Hse : split_on sep e = [e]).
  { unfold split_on. rewrite split_go_last by apply He. simpl. by rewrite of_chars_chars. }
  assert (exists es, split_on sep p = es ++ [e])%list as [es Hp].
  { rewrite Hse in Hs. destruct Hs as [->|[es ->]]; [by exists []|by exists es]. }
  assert (exists es', elems p = es' ++ [e])%list as [es' He'].
  { unfold elems, clean_elems. rewrite Hp, fold_left_app. simpl. set (st := fold_left _ _ _).
    assert (Hst : clean_step (is_abs p) st e = e :: st).
    { destruct He as (H1 & H2 & H3 & _). unfold clean_step.
      by rewrite (proj2 (String.eqb_neq _ _) H1), (proj2 (String.eqb_neq _ _) H2), (proj2 (String.eqb_neq _ _) H3). }
    rewrite Hst. simpl. by eexists. }
  unfold clean. rewrite He'. destruct (join_ends es' e) as [x Hx]. destruct (is_abs p).
  - exists ("/" ++ x). by rewrite Hx, app_str_assoc.
  - destruct (es' ++ [e])%list eqn:Ee; [by apply app_eq_nil in Ee as [_ ?]|]. by exists x.
Qed.
Lemma join_path_ends d e : plain e -> exists x, join_path [d; e] = x ++ e.
Proof.
  intros He. assert (Hne : negb (e =? "")%string = true) by (apply negb_true_iff, String.eqb_neq, He).
  unfold join_path. simpl. rewrite Hne. destruct (negb (d =? "")%string); simpl.
  - apply clean_ends; [done|]. right. unfold split_on. exists (split_go sep [] (chars d)).
    rewrite !chars_app. simpl. apply split_go_sep.
  - apply clean_ends; [done|]. by left.
Qed.
Lemma last_char_neq (x y : string) a b : a <> b -> x ++ String a "" <> y ++ String b "".
Proof.
  intros Hab H. apply Hab. apply (f_equal (fun s => last (chars s))) in H.
  rewrite !chars_app in H. simpl in H. rewrite !last_snoc in H. congruence.
Qed.
(** The state file is never taken for a temporary file. *)
Lemma state_path_not_temp config d prefix r : temp_name d prefix (r ++ ".conf") <> sshAccessStatePath config.
Proof.
  unfold sshAccessStatePath. destruct (join_path_ends (dir (isolationPath config)) "rescue-temp-ssh.json") as [x ->].
  { unfold plain. split_and!; [done|done|done|]. by apply (bool_decide_unpack (sep ∉ chars "rescue-temp-ssh.json")). }
  assert (exists y, temp_name d prefix (r ++ ".conf") = y ++ String "f" "") as [y ->].
  { unfold temp_name. destruct (has_suffix d "/").
    - exists (d ++ prefix ++ r ++ ".con"). by rewrite !app_str_assoc.
    - exists (d ++ "/" ++ prefix ++ r ++ ".con"). by rewrite !app_str_assoc. }
  replace "rescue-temp-ssh.json" with ("rescue-temp-ssh.jso" ++ String "n" "") by done.
  rewrite <- app_str_assoc. intros H. by apply last_char_neq in H.
Qed.

(** ** Rules in the log *)

Definition is_open (argv : list string) : bool :=
  match argv with
  | tool :: verb :: _ =>
      (tool =? "ufw")%string && (verb =? "allow")%string || (tool =? "firewall-cmd")%string && has_prefix verb "--add-port=" ||
      (tool =? "iptables")%string && (verb =? "-I")%string || (tool =? "nft")%string && (verb =? "add")%string
  | _ => false
  end.
Definition is_close (argv : list string) : bool :=
  match argv with
  | tool :: verb :: _ =>
      (tool =? "ufw")%string && (verb =? "delete")%string || (tool =? "firewall-cmd")%string && has_prefix verb "--remove-port=" ||
      (tool =? "iptables")%string && (verb =? "-D")%string || (tool =? "nft")%string && (verb =? "delete")%string
  | _ => false
  end.
Definition of_nft (argv : list string) : bool := match argv with tool :: _ => (tool =? "nft")%string | [] => false end.

Definition open_argv (mechanism : string) (port : Z) : list string :=
  if (mechanism =? mechanismUFW)%string then ufw_allow port
  else if (mechanism =? mechanismFirewalld)%string then firewalld_add port
  else if (mechanism =? mechanismIptables)%string then iptables_insert port else nft_element port.
Definition close_argv (mechanism : string) (port : Z) : list string :=
  if (mechanism =? mechanismUFW)%string then ufw_delete port
  else if (mechanism =? mechanismFirewalld)%string then firewalld_remove port
  else if (mechanism =? mechanismIptables)%string then iptables_delete port else nft_delete.

(** The rules nothing but the agent removes; nftables' own expire. *)
Definition lasting (mechanism : string) : bool :=
  existsb (String.eqb mechanism) [mechanismUFW; mechanismFirewalld; mechanismIptables].
Definition known_mechanism (mechanism : string) : bool := (mechanism =? mechanismNftablesSet)%string || lasting mechanism.

(** Installed and not removed since; the log is latest first. *)
Fixpoint live (mechanism : string) (port : Z) (log : list event) : bool :=
  match log with
  | [] => false
  | Ran argv false _ :: log =>
      if bool_decide (argv = open_argv mechanism port) then true
      else if bool_decide (argv = close_argv mechanism port) then false
      else live mechanism port log
  | _ :: log => live mechanism port log
  end.
Definition failed_close (log : list event) : bool :=
  existsb (fun ev => match ev with Ran argv true _ => is_close argv | _ => false end) log.

(** Events that leave lasting rules alone, and events that open nothing. *)
Definition neutral (ev : event) : Prop :=
  match ev with Ran argv _ _ => of_nft argv = true \/ (is_open argv = false /\ is_close argv = false) | Started _ => True end.
Definition opens_nothing (ev : event) : Prop :=
  match ev with Ran argv _ _ => is_open argv = false | Started _ => True end.

Lemma lasting_cases mechanism :
  lasting mechanism = true -> mechanism = mechanismUFW \/ mechanism = mechanismFirewalld \/ mechanism = mechanismIptables.
Proof. unfold lasting. simpl. intros H. bool_hyps. naive_solver. Qed.
Lemma known_cases mechanism : known_mechanism mechanism = true -> mechanism = mechanismNftablesSet \/ lasting mechanism = true.
Proof. unfold known_mechanism. intros H. bool_hyps. tauto. Qed.
Lemma prefixed p s : has_prefix (p ++ s) p = true.
Proof. apply prefix_iff. by exists s. Qed.
Lemma rule_argv mechanism port :
  lasting mechanism = true ->
  of_nft (open_argv mechanism port) = false /\ is_open (open_argv mechanism port) = true /\
  of_nft (close_argv mechanism port) = false /\ is_close (close_argv mechanism port) = true.
Proof.
  intros [->|[->| ->]]%lasting_cases; split_and!; try reflexivity.
  - change (has_prefix ("--add-port=" ++ tcp port) "--add-port=" || false || false = true). by rewrite prefixed.
  - change (has_prefix ("--remove-port=" ++ tcp port) "--remove-port=" || false || false = true). by rewrite prefixed.
Qed.
Lemma live_neutral mechanism port new log :
  lasting mechanism = true -> Forall neutral new -> live mechanism port (new ++ log)%list = live mechanism port log.
Proof.
  intros Hl. destruct (rule_argv mechanism port Hl) as (Ho1 & Ho2 & Hc1 & Hc2).
  induction 1 as [|[argv [] fs|argv] new Hev _ IH]; [done|exact IH| |exact IH]. simpl.
  rewrite !bool_decide_eq_false_2; [exact IH|..]; intros ->; destruct Hev as [Hn|[Hn1 Hn2]]; congruence.
Qed.
Lemma failed_close_app new log : failed_close (new ++ log)%list = failed_close new || failed_close log.
Proof. unfold failed_close. apply existsb_app. Qed.
Lemma failed_close_grows P s s' : adds P s s' -> failed_close (rm_log s) = true -> failed_close (rm_log s') = true.
Proof. intros (new & -> & _) H. rewrite failed_close_app, H. apply orb_true_r. Qed.

Section AccessTheorems.
Context (E : Env) `{JL : JsonLaws sshAccessState}.
Variable config : ActionConfig.
(** [encoding/json] reads back the states the code writes: a port, two instants
    and ASCII names. *)
Hypothesis Hjson : forall st, known_mechanism (sa_Mechanism st) = true -> json_ok st.
Notation path := (sshAccessStatePath config).

(** The state file decodes to [st]. *)
Definition recorded (m : fsys) (st : sshAccessState) : Prop :=
  exists f, m !! path = Some f /\ json_unmarshal (f_data f) = Some st.
Lemma recorded_inj m st st' : recorded m st -> recorded m st' -> st = st'.
Proof. intros (f & H1 & H2) (f' & H3 & H4). congruence. Qed.

(** Both: the state file stays as it is, and nothing lasting is touched. *)
Definition quiet {A} (m : RM A) : Prop :=
  forall x, safe (fun fs => fs !! path = x) (fun ev => neutral ev /\ opens_nothing ev) m.

Lemma lookup_stable x name : name <> path -> stable_off name (fun fs : fsys => fs !! path = x).
Proof. intros Hn m f Hm. by rewrite lookup_insert_ne, lookup_delete_ne. Qed.

Lemma quiet_cancel : quiet (cancelSSHAccessTimer E).
Proof. intros x. unfold cancelSSHAccessTimer, stop_timer_unit, platformCommand, LookPath. safe_all; apply safe_run; intros; simpl; auto. Qed.
Lemma quiet_read name : quiet (r_try (r_io (read_file name))).
Proof. intros x. safe_all. Qed.
Lemma quiet_detect : quiet (detectFirewallMechanism E).
Proof.
  intros x. unfold detectFirewallMechanism, LookPath.
  safe_all; apply safe_run; intros; simpl; rewrite ?andb_false_r; auto.
Qed.
Lemma quiet_delete_nft : quiet (deleteNftablesSSHAccess E).
Proof.
  intros x. unfold deleteNftablesSSHAccess, LookPath, platformCommand.
  safe_all; first [apply safe_run | apply safe_command]; intros; simpl; auto.
Qed.
Lemma quiet_arm : quiet (armSSHAccessTimer E config).
Proof.
  intros x. unfold armSSHAccessTimer, LookPath. safe_all; [apply quiet_cancel|].
  apply safe_command. intros. simpl. rewrite ?andb_false_r. auto.
Qed.
Lemma quiet_active units : quiet (some_active E units).
Proof.
  induction units as [|u units IH]; intros x; simpl; unfold platformCommand; safe_all; try apply IH.
  apply safe_run. intros. simpl. auto.
Qed.
Lemma quiet_maybe name : quiet (read_maybe name).
Proof. intros x. unfold read_maybe. safe_all. Qed.
Lemma quiet_sshd entries : quiet (some_sshd E entries).
Proof.
  induction entries as [|[name d] entries IH]; intros x; simpl; safe_all; try apply IH. apply quiet_maybe.
Qed.
Lemma quiet_addresses files : quiet (addresses_in files).
Proof. induction files as [|f files IH]; intros x; simpl; safe_all; first [apply IH|apply quiet_maybe]. Qed.
Lemma quiet_inspect port : quiet (inspectSSHDaemon E port).
Proof.
  intros x. unfold inspectSSHDaemon, listeningTCPPorts, sshDaemonRunning, sshdListenAddresses, LookPath.
  safe_all; first [apply quiet_active | apply quiet_sshd | apply quiet_addresses].
Qed.
Lemma quiet_load : quiet (loadSSHAccessState config).
Proof. intros x. unfold loadSSHAccessState. safe_all. Qed.
Lemma quiet_window : quiet (open_window E config).
Proof. intros x. unfold open_window, r_now. safe_all. apply quiet_load. Qed.

(** What removing the rule of a state can do: nothing opens, and a failure of a
    known_mechanism mechanism is in the log. *)
Lemma remove_opens_nothing I st : safe I opens_nothing (removeSSHAccessRule E st).
Proof.
  unfold removeSSHAccessRule, deleteNftablesSSHAccess, LookPath, platformCommand.
  safe_all; first [apply safe_run | apply safe_command]; intros; reflexivity.
Qed.
Lemma remove_keeps_file x st : safe (fun fs => fs !! path = x) (fun _ => True) (removeSSHAccessRule E st).
Proof.
  unfold removeSSHAccessRule, deleteNftablesSSHAccess, LookPath, platformCommand.
  safe_all; first [apply safe_run | apply safe_command]; done.
Qed.
Lemma command_ran argv s r s' :
  command E argv s = (r, s') ->
  rm_log s' = Ran argv (negb (is_ok r)) (files s) :: rm_log s /\ rm_world s' = rm_world s.
Proof.
  unfold command, platformCommand, r_bind, run_command. simpl. destruct (oc_error _); intros [= <- <-]; done.
Qed.
Lemma remove_effect st s r s' :
  removeSSHAccessRule E st s = (r, s') -> known_mechanism (sa_Mechanism st) = true ->
  match r with
  | Ok _ => lasting (sa_Mechanism st) = true -> live (sa_Mechanism st) (sa_Port st) (rm_log s') = false
  | Err _ => failed_close (rm_log s') = true
  end.
Proof.
  intros Hr Hk. apply known_cases in Hk as [Hm|Hl].
  - unfold removeSSHAccessRule in Hr. rewrite Hm in *. simpl in Hr.
    unfold deleteNftablesSSHAccess, r_bind, LookPath, ask, platformCommand, run_command in Hr. simpl in Hr.
    destruct (bool_decide _) in Hr; [by injection Hr as <- <-|]. simpl in Hr.
    destruct (bool_decide _) in Hr; [by injection Hr as <- <-|].
    apply command_ran in Hr as [-> _]. by destruct r.
  - assert (Hc : command E (close_argv (sa_Mechanism st) (sa_Port st)) s = (r, s')).
    { rewrite <- Hr. unfold removeSSHAccessRule. by destruct (lasting_cases _ Hl) as [->|[->| ->]]. }
    apply command_ran in Hc as [-> _]. destruct (rule_argv _ (sa_Port st) Hl) as (_ & Ho & _ & Hc).
    destruct r; simpl; [|by rewrite Hc]. intros _.
    rewrite bool_decide_eq_false_2, bool_decide_eq_true_2; [done..|]. intros Heq.
    rewrite Heq in Hc. by destruct (lasting_cases _ Hl) as [Hx|[Hx|Hx]]; rewrite Hx in Hc.
Qed.

(** ** Results of the steps *)

Lemma run_safe {A} I P (m : RM A) s r s' : safe I P m -> m s = (r, s') -> I (files s) -> I (files s') /\ adds P s s'.
Proof. intros Hm Hr Hs. specialize (Hm s Hs). by rewrite Hr in Hm. Qed.
Lemma run_quiet {A} (m : RM A) s r s' :
  quiet m -> m s = (r, s') -> files s' !! path = files s !! path /\ adds neutral s s' /\ adds opens_nothing s s'.
Proof.
  intros Hm Hr. destruct (run_safe _ _ _ _ _ _ (Hm (files s !! path)) Hr eq_refl) as [Hf Ha].
  split_and!; [done|..]; eapply adds_impl; try exact Ha; naive_solver.
Qed.
Lemma recorded_same m m' st : m' !! path = m !! path -> recorded m st -> recorded m' st.
Proof. unfold recorded. by intros ->. Qed.
Lemma load_ok s st s' : loadSSHAccessState config s = (Ok st, s') -> recorded (files s) st.
Proof.
  intros Hr. apply r_bind_ok in Hr as (data & s1 & H1 & H2). unfold r_io, read_file, call in H1.
  destruct (hd false _); [done|]. simpl in H1. destruct (w_fs (rm_world s) !! path) as [f|] eqn:Hf; [|done].
  injection H1 as <- <-. exists f. split; [done|]. by destruct (json_unmarshal _); [injection H2 as <- _|].
Qed.
Lemma silent_log {A} (m : RM A) s r s' : safe (fun _ => True) (fun _ => False) m -> m s = (r, s') -> rm_log s' = rm_log s.
Proof.
  intros Hm Hr. destruct (run_safe _ _ _ _ _ _ Hm Hr I) as [_ (new & -> & Hn)]. destruct new; [done|]. by inversion Hn.
Qed.
Lemma silent_save st : safe (fun _ => True) (fun _ => False) (saveSSHAccessState E config st).
Proof.
  unfold saveSSHAccessState. destruct (json_marshal st); [|apply safe_err].
  apply safe_bind; [apply safe_io, keeps_pure|intros _]. by apply safe_write.
Qed.
Lemma keeps_true {A} (m : IO A) : keeps (fun _ => True) m -> safe (fun _ => True) (fun _ => False) (r_io m).
Proof. apply safe_io. Qed.
Lemma silent_remove : safe (fun _ => True) (fun _ => False) (removeSSHAccessState config).
Proof.
  unfold removeSSHAccessState, remove_if_exists. safe_all. by apply safe_io, keeps_remove.
Qed.
Lemma save_windows_ok st s s' :
  saveSSHAccessState E config st s = (Ok tt, s') -> known_mechanism (sa_Mechanism st) = true -> recorded (files s') st.
Proof.
  intros Hr Hk. unfold saveSSHAccessState in Hr. destruct (json_marshal st) as [data|] eqn:Hd; [|done].
  apply r_bind_ok in Hr as ([] & s1 & _ & H2). apply WriteFile_ok in H2 as [(f & Hf & Hdata) _].
  exists f. split; [done|]. rewrite Hdata. eapply json_roundtrip; [by apply Hjson|done].
Qed.
Lemma detect_known s m s' : detectFirewallMechanism E s = (Ok m, s') -> known_mechanism m = true.
Proof.
  unfold detectFirewallMechanism. intros Hr.
  repeat (apply r_bind_ok in Hr as (? & ? & _ & Hr); simpl in Hr;
    try match type of Hr with (if ?b then _ else _) _ = _ => destruct b; [injection Hr as <- _; done|] end). done.
Qed.

(** Installing a rule: the only opening command is the one of the mechanism. *)
Lemma install_safe (J : fsys -> Prop) (P : event -> Prop) port m :
  (forall d pre r, stable_off (temp_name d pre (r ++ ".conf")) J) ->
  (forall argv b fs, is_open argv = false -> is_close argv = false -> J fs -> P (Ran argv b fs)) ->
  (known_mechanism m = true -> forall b fs, J fs -> P (Ran (open_argv m port) b fs)) ->
  safe J P (installSSHAccessRule E config port m).
Proof.
  intros HJ Hother Hopen. unfold installSSHAccessRule.
  assert (Harm : safe J P (armSSHAccessTimer E config)).
  { unfold armSSHAccessTimer, cancelSSHAccessTimer, stop_timer_unit, platformCommand, LookPath.
    safe_all; first [apply safe_run | apply safe_command]; intros; apply Hother; simpl; rewrite ?andb_false_r; done. }
  assert (Hcmd : known_mechanism m = true -> safe J P (command E (open_argv m port))).
  { intros Hk. apply safe_command. intros. by apply Hopen. }
  destruct (String.eqb_spec m mechanismNftablesSet) as [->|_].
  { apply safe_bind; [|intros; apply safe_ret]. unfold installNftablesSSHAccess.
    apply safe_bind; [apply safe_io, keeps_pure|intros _].
    eapply (safe_bind_val _ _ (fun name => exists d pre r, name = temp_name d pre (r ++ ".conf"))).
    - intros s name s' Hr. apply CreateTemp_name in Hr as [r ->]. by do 3 eexists.
    - apply safe_create. intros. apply HJ.
    - intros name (d & pre & r & ->). apply safe_removed; [apply HJ|]. apply safe_bind; [|intros _].
      + apply safe_io. apply keeps_bind; [apply keeps_write, HJ|intros _; apply keeps_pure].
      + apply safe_bind; [|intros _; by apply Hcmd]. apply safe_command. intros. by apply Hother. }
  apply safe_bind; [|intros _; apply safe_bind; [by apply safe_try|intros; apply safe_ret]].
  destruct (String.eqb_spec m mechanismUFW) as [->|_]; [by apply Hcmd|].
  destruct (String.eqb_spec m mechanismFirewalld) as [->|_]; [by apply Hcmd|].
  destruct (String.eqb_spec m mechanismIptables) as [->|_]; [by apply Hcmd|]. apply safe_ret.
Qed.
Lemma state_stable x d pre r : stable_off (temp_name d pre (r ++ ".conf")) (fun fs : fsys => fs !! path = x).
Proof. apply lookup_stable, state_path_not_temp. Qed.

Lemma tcp_inj p p' : 0 <= p < 2 ^ 32 -> 0 <= p' < 2 ^ 32 -> tcp p = tcp p' -> p = p'.
Proof.
  intros Hp Hp' Heq. apply utoa_inj; [done..|]. apply (f_equal chars) in Heq. unfold tcp in Heq.
  rewrite !chars_app in Heq. apply app_inv_tail in Heq. apply (f_equal of_chars) in Heq. by rewrite !of_chars_chars in Heq.
Qed.
Lemma open_argv_inj m p p' : lasting m = true -> 0 <= p < 2 ^ 32 -> 0 <= p' < 2 ^ 32 -> open_argv m p = open_argv m p' -> p = p'.
Proof.
  intros [->|[->| ->]]%lasting_cases Hp Hp' Heq.
  - apply tcp_inj; [done..|]. by injection Heq.
  - apply tcp_inj; [done..|]. by injection Heq.
  - apply utoa_inj; [done..|]. by injection Heq.
Qed.
Lemma open_argv_mechanism m m' p p' : lasting m = true -> lasting m' = true -> open_argv m p = open_argv m' p' -> m = m'.
Proof. intros [->|[->| ->]]%lasting_cases [->|[->| ->]]%lasting_cases; done. Qed.
Lemma close_not_open m m' p p' : lasting m = true -> lasting m' = true -> open_argv m p <> close_argv m' p'.
Proof. intros [->|[->| ->]]%lasting_cases [->|[->| ->]]%lasting_cases; done. Qed.

Lemma install_effect port m s r s' :
  installSSHAccessRule E config port m s = (r, s') -> known_mechanism m = true -> 0 <= port < 2 ^ 32 ->
  forall m' p', lasting m' = true -> 0 <= p' < 2 ^ 32 -> live m' p' (rm_log s') = true ->
    live m' p' (rm_log s) = true \/ (is_ok r = true /\ m' = m /\ p' = port).
Proof.
  intros Hr Hk Hp m' p' Hl' Hp' Hlive. destruct (known_cases _ Hk) as [->|Hl].
  { assert (Hs : safe (fun _ => True) neutral (installSSHAccessRule E config port mechanismNftablesSet)).
    { apply install_safe; [done|simpl; auto|]. intros. by left. }
    destruct (run_safe _ _ _ _ _ _ Hs Hr I) as [_ (new & Hlog & Hn)]. left. by rewrite Hlog, live_neutral in Hlive. }
  assert (Heq : installSSHAccessRule E config port m s =
    r_bind (command E (open_argv m port)) (fun _ => let! armed := r_try (armSSHAccessTimer E config) in
      r_ret (match armed with Ok _ => EXPIRY_MECHANISM_SYSTEMD_TIMER | Err _ => EXPIRY_MECHANISM_HELPER_RECONCILE end)) s).
  { by destruct (lasting_cases _ Hl) as [->|[->| ->]]. }
  rewrite Heq in Hr. unfold r_bind at 1 in Hr. destruct (command E (open_argv m port) s) as [r1 s1] eqn:E1.
  apply command_ran in E1 as [Hlog1 _]. destruct r1 as [[]|e].
  - unfold r_bind, r_try in Hr. destruct (armSSHAccessTimer E config s1) as [r2 s2] eqn:E2.
    destruct (run_quiet _ _ _ _ quiet_arm E2) as (_ & (new & Hlog2 & Hn) & _). injection Hr as <- <-.
    rewrite Hlog2, live_neutral, Hlog1 in Hlive by done. simpl in Hlive.
    destruct (bool_decide (open_argv m port = open_argv m' p')) eqn:Ho.
    + right. bool_hyps. pose proof (open_argv_mechanism _ _ _ _ Hl Hl' Ho) as <-. split_and!; [done..|].
      by apply open_argv_inj in Ho.
    + rewrite bool_decide_eq_false_2 in Hlive by (by apply close_not_open). by left.
  - injection Hr as <- <-. rewrite Hlog1 in Hlive. by left.
Qed.

(** ** No lasting rule without its deadline *)

Definition is_port (p : Z) : Prop := 0 <= p < 2 ^ 32.
Definition closed (log : list event) : Prop := forall m p, lasting m = true -> is_port p -> live m p log = false.
Definition accounted (s : Machine) : Prop :=
  failed_close (rm_log s) = true \/
  forall m p, lasting m = true -> is_port p -> live m p (rm_log s) = true ->
    exists st, recorded (files s) st /\ sa_Mechanism st = m /\ sa_Port st = p.
Definition all_closed (s : Machine) : Prop := failed_close (rm_log s) = true \/ closed (rm_log s).

Lemma live_opens_nothing m p s s' :
  lasting m = true -> adds opens_nothing s s' -> live m p (rm_log s') = true -> live m p (rm_log s) = true.
Proof.
  intros Hl (new & -> & Hn). induction Hn as [|[argv [] fs|argv] new Hev _ IH]; [done|exact IH| |exact IH]. simpl.
  rewrite bool_decide_eq_false_2; [by case_bool_decide|]. intros ->.
  destruct (rule_argv m p Hl) as (_ & Ho & _). simpl in Hev. congruence.
Qed.
Lemma closed_opens_nothing s s' : adds opens_nothing s s' -> all_closed s -> all_closed s'.
Proof.
  intros Ha [Hf|Hc]; [left; by eapply failed_close_grows|]. right. intros m p Hl Hp. apply not_true_iff_false. intros Hlive.
  pose proof (live_opens_nothing _ _ _ _ Hl Ha Hlive) as Hold. by rewrite Hc in Hold.
Qed.
Lemma closed_accounted s : all_closed s -> accounted s.
Proof. intros [Hf|Hc]; [by left|]. right. intros m p Hl Hp Hlive. by rewrite Hc in Hlive. Qed.
Lemma accounted_quiet {A} (m : RM A) s r s' : quiet m -> m s = (r, s') -> accounted s -> accounted s'.
Proof.
  intros Hm Hr [Hf|Ha]; destruct (run_quiet _ _ _ _ Hm Hr) as (Hfile & Hneu & _).
  - left. by eapply failed_close_grows.
  - right. intros mm p Hl Hp Hlive. destruct Hneu as (new & Hlog & Hn). rewrite Hlog, live_neutral in Hlive by done.
    destruct (Ha mm p Hl Hp Hlive) as (st & Hst & ? & ?). exists st. split; [by eapply recorded_same|done].
Qed.
Lemma same_log_adds P s s' : rm_log s' = rm_log s -> adds P s s'.
Proof. apply adds_same. Qed.

(** Taking a recorded rule away: nothing lasting is left, or the log shows a
    removal that failed. *)
Lemma remove_closes st s r s' :
  removeSSHAccessRule E st s = (r, s') -> (known_mechanism (sa_Mechanism st) = true \/ closed (rm_log s)) ->
  (forall m p, lasting m = true -> is_port p -> live m p (rm_log s) = true -> m = sa_Mechanism st /\ p = sa_Port st) ->
  failed_close (rm_log s') = true \/ closed (rm_log s').
Proof.
  intros Hr Hk Honly. destruct (run_safe _ _ _ _ _ _ (remove_opens_nothing (fun _ => True) st) Hr I) as [_ Ho].
  destruct (known_mechanism (sa_Mechanism st)) eqn:Hkn.
  - pose proof (remove_effect _ _ _ _ Hr Hkn) as He. destruct r; [|by left]. right. intros m p Hl Hp.
    apply not_true_iff_false. intros Hlive. pose proof (live_opens_nothing _ _ _ _ Hl Ho Hlive) as Hold.
    destruct (Honly m p Hl Hp Hold) as [-> ->]. by rewrite He in Hlive.
  - destruct Hk as [?|Hc]; [done|]. apply (closed_opens_nothing s s' Ho). by right.
Qed.
Lemma revoke_closes st s r s' :
  revokeSSHAccess E config st s = (r, s') -> recorded (files s) st -> accounted s -> all_closed s'.
Proof.
  intros Hr Hst Ha. unfold revokeSSHAccess, r_bind, r_try in Hr.
  destruct (removeSSHAccessRule E st s) as [r1 s1] eqn:E1. destruct (cancelSSHAccessTimer E s1) as [r2 s2] eqn:E2.
  destruct (removeSSHAccessState config s2) as [r3 s3] eqn:E3.
  assert (s' = s3) as -> by (destruct (failure r1 ++ failure r2 ++ failure r3)%list; by injection Hr).
  apply (closed_opens_nothing s2); [apply same_log_adds; by eapply silent_log; [apply silent_remove|]|].
  apply (closed_opens_nothing s1); [by eapply run_quiet in E2; [apply E2|apply quiet_cancel]|].
  destruct Ha as [Hf|Ha].
  { left. destruct (run_safe _ _ _ _ _ _ (remove_opens_nothing (fun _ => True) st) E1 I) as [_ Ho]. by eapply failed_close_grows. }
  apply (remove_closes st s r1 s1 E1).
  - destruct (known_mechanism (sa_Mechanism st)) eqn:Hk; [by left|]. right. intros m p Hl Hp. apply not_true_iff_false. intros Hlive.
    destruct (Ha m p Hl Hp Hlive) as (st' & Hst' & <- & _). rewrite (recorded_inj _ _ _ Hst Hst') in Hk.
    unfold known_mechanism in Hk. by rewrite Hl, orb_true_r in Hk.
  - intros m p Hl Hp Hlive. destruct (Ha m p Hl Hp Hlive) as (st' & Hst' & <- & <-). by rewrite (recorded_inj _ _ _ Hst Hst').
Qed.
Lemma close_accounted force s r s' : closeTemporarySSHAccess E config force s = (r, s') -> accounted s -> accounted s'.
Proof.
  intros Hr Ha. unfold closeTemporarySSHAccess in Hr. unfold r_bind at 1, r_try in Hr.
  destruct (loadSSHAccessState config s) as [l s1] eqn:El.
  pose proof (accounted_quiet _ _ _ _ quiet_load El Ha) as Ha1.
  destruct l as [st|e].
  - pose proof (load_ok _ _ _ El) as Hst. destruct (run_quiet _ _ _ _ quiet_load El) as (Hf & _).
    apply (recorded_same _ _ _ Hf) in Hst. unfold r_bind in Hr.
    destruct (not_due E force st s1) as [rd s2] eqn:Ed.
    assert (rm_log s2 = rm_log s1 /\ files s2 = files s1 /\ exists b, rd = Ok b) as (Hl2 & Hf2 & b & ->).
    { revert Ed. unfold not_due. destruct force; intros [= <- <-]; split_and!; try done; by eexists. }
    assert (Ha2 : accounted s2) by (unfold accounted; by rewrite Hl2, Hf2).
    destruct b; [by injection Hr as <- <-|]. apply closed_accounted. eapply revoke_closes; [exact Hr| |done]. by rewrite Hf2.
  - destruct (is_not_exist e); [|by injection Hr as <- <-]. destruct force; [|by injection Hr as <- <-].
    eapply accounted_quiet; [|exact Hr|done]. intros x. apply safe_bind; [apply quiet_delete_nft|intros _; apply quiet_cancel].
Qed.

(** ** Granting *)

Lemma open_and_record_accounted st d s r s' :
  open_and_record E config st d s = (r, s') -> known_mechanism (sa_Mechanism st) = true -> is_port (sa_Port st) ->
  all_closed s -> accounted s'.
Proof.
  intros Hr Hk Hp Hc. unfold open_and_record in Hr. unfold r_bind at 1, r_try in Hr.
  destruct (installSSHAccessRule E config (sa_Port st) (sa_Mechanism st) s) as [r1 s1] eqn:E1.
  assert (Hs : safe (fun _ => True) (fun _ => True) (installSSHAccessRule E config (sa_Port st) (sa_Mechanism st))) by by apply install_safe.
  destruct (run_safe _ _ _ _ _ _ Hs E1 I) as [_ Hadds].
  assert (H1 : failed_close (rm_log s1) = true \/ (forall m p, lasting m = true -> is_port p -> live m p (rm_log s1) = true ->
    is_ok r1 = true /\ m = sa_Mechanism st /\ p = sa_Port st)).
  { destruct Hc as [Hf|Hc]; [left; by eapply failed_close_grows|]. right. intros m p Hl Hpp Hlive.
    destruct (install_effect _ _ _ _ _ E1 Hk Hp m p Hl Hpp Hlive) as [Hold|?]; [|done]. by rewrite Hc in Hold. }
  clear Hc Hadds Hs E1 s. destruct r1 as [expiry|e].
  - set (st2 := mkAccessState _ _ _ _ _) in *. unfold r_bind at 1 in Hr.
    destruct (saveSSHAccessState E config st2 s1) as [r2 s2] eqn:E2.
    pose proof (silent_log _ _ _ _ (silent_save st2) E2) as Hlog. destruct r2 as [[]|e].
    + apply save_windows_ok in E2; [|done]. injection Hr as <- <-. unfold accounted. rewrite Hlog. destruct H1 as [Hf|H1]; [by left|].
      right. intros m p Hl Hpp Hlive. exists st2. destruct (H1 m p Hl Hpp Hlive) as (_ & -> & ->). done.
    + unfold r_bind in Hr. destruct (removeSSHAccessRule E st2 s2) as [r3 s3] eqn:E3. rewrite <- Hlog in H1.
      destruct (cancelSSHAccessTimer E s3) as [r4 s4] eqn:E4. injection Hr as <- <-.
      apply closed_accounted, (closed_opens_nothing s3); [by eapply run_quiet in E4; [apply E4|apply quiet_cancel]|].
      destruct H1 as [Hf|H1].
      * left. destruct (run_safe _ _ _ _ _ _ (remove_opens_nothing (fun _ => True) st2) E3 I) as [_ Ho]. by eapply failed_close_grows.
      * apply (remove_closes st2 s2 r3 s3 E3); [by left|]. intros m p Hl Hpp Hlive. by destruct (H1 m p Hl Hpp Hlive).
  - unfold r_bind in Hr. destruct (removeSSHAccessState config s1) as [r2 s2] eqn:E2. injection Hr as <- <-.
    unfold accounted. rewrite (silent_log _ _ _ _ silent_remove E2). destruct H1 as [Hf|H1]; [by left|].
    right. intros m p Hl Hpp Hlive. by destruct (H1 m p Hl Hpp Hlive).
Qed.

(** The window the reconciliation left is one the second look still sees: the
    deadline does not pass, and the file can be read, between the two. *)
Definition steady (s : Machine) : Prop :=
  forall s1, ReconcileTemporarySSHAccess E config s = (Ok tt, s1) ->
  forall st, recorded (files s1) st -> fst (open_window E config s1) = Ok (Some st).

Lemma chosen_is_port p : is_port p -> is_port (chosen_port p).
Proof. unfold chosen_port, is_port, defaultSSHPort. intros Hp. destruct ((p =? 0) || (65535 <? p)); lia. Qed.

Lemma grant_accounted port s r s' :
  grantTemporarySSHAccess E config port s = (r, s') -> is_port port -> steady s -> accounted s -> accounted s'.
Proof.
  intros Hr Hp Hsteady Ha. unfold grantTemporarySSHAccess in Hr. unfold r_bind at 1 in Hr.
  destruct (r_guard _ _ s) as [[[]|e] s0] eqn:E0.
  2: { unfold r_guard in E0. destruct (isPrivileged E); [done|]. injection E0 as <- <-. by injection Hr as <- <-. }
  apply r_guard_ok in E0 as [_ ->]. unfold r_bind at 1, r_wrap in Hr.
  destruct (ReconcileTemporarySSHAccess E config s) as [r1 s1] eqn:E1.
  pose proof (close_accounted false s r1 s1 E1 Ha) as Ha1. destruct r1 as [[]|e]; [|by injection Hr as <- <-].
  specialize (Hsteady s1 E1). unfold r_bind at 1 in Hr. destruct (open_window E config s1) as [r2 s2] eqn:E2.
  pose proof (accounted_quiet _ _ _ _ quiet_window E2 Ha1) as Ha2.
  destruct (run_quiet _ _ _ _ quiet_window E2) as (Hfile & _). simpl in Hsteady.
  destruct r2 as [[st|]|e]; [by injection Hr as <- <-| |by injection Hr as <- <-].
  assert (Hc : all_closed s2).
  { destruct Ha2 as [Hf|Ha2]; [by left|]. right. intros m p Hl Hpp. apply not_true_iff_false. intros Hlive.
    destruct (Ha2 m p Hl Hpp Hlive) as (st & Hst & _). apply (recorded_same (files s2) (files s1)) in Hst; [|done].
    by specialize (Hsteady st Hst). }
  clear Ha Ha1 Ha2 E1 E2 Hsteady. unfold r_bind at 1 in Hr. destruct (inspectSSHDaemon E _ s2) as [r3 s3] eqn:E3.
  apply (closed_opens_nothing s2 s3) in Hc; [|by eapply run_quiet in E3; [apply E3|apply quiet_inspect]].
  destruct r3 as [daemon|e]; [|injection Hr as <- <-; by apply closed_accounted].
  unfold r_bind at 1 in Hr. destruct (detectFirewallMechanism E s3) as [r4 s4] eqn:E4.
  apply (closed_opens_nothing s3 s4) in Hc; [|by eapply run_quiet in E4; [apply E4|apply quiet_detect]].
  destruct r4 as [mechanism|e]; [|injection Hr as <- <-; by apply closed_accounted]. apply detect_known in E4.
  unfold r_bind at 1, r_now, ask in Hr. unfold r_bind, r_wrap in Hr.
  match type of Hr with context [saveSSHAccessState E config ?st ?x] => set (st0 := st) in *; set (s5 := x) in * end.
  assert (Hc5 : all_closed s5) by exact Hc. destruct (saveSSHAccessState E config st0 s5) as [r6 s6] eqn:E6.
  assert (Hc6 : all_closed s6) by (unfold all_closed; rewrite (silent_log _ _ _ _ (silent_save st0) E6); exact Hc5).
  destruct r6 as [[]|e]; [|injection Hr as <- <-; by apply closed_accounted].
  eapply open_and_record_accounted; [exact Hr|done|by apply chosen_is_port|done].
Qed.

(** ** The requests of a helper's life *)

Inductive request := GrantAccess (port : Z) | RevokeAccess | ReconcileAccess | CloseAccess.
Definition perform (rq : request) (s : Machine) : Machine :=
  match rq with
  | GrantAccess port => snd (grantTemporarySSHAccess E config port s)
  | RevokeAccess => snd (revokeTemporarySSHAccess E config s)
  | ReconcileAccess => snd (ReconcileTemporarySSHAccess E config s)
  | CloseAccess => snd (CloseTemporarySSHAccess E config s)
  end.
Definition admissible (rq : request) (s : Machine) : Prop :=
  match rq with GrantAccess port => is_port port /\ steady s | _ => True end.
Inductive reachable : Machine -> Prop :=
| reach_start w t : w_fs w !! path = None -> reachable (mkMachine w t [])
| reach_step rq s : reachable s -> admissible rq s -> reachable (perform rq s).

Lemma revoke_accounted s r s' : revokeTemporarySSHAccess E config s = (r, s') -> accounted s -> accounted s'.
Proof.
  intros Hr Ha. unfold revokeTemporarySSHAccess in Hr. unfold r_bind at 1 in Hr.
  destruct (r_guard _ _ s) as [[[]|e] s0] eqn:E0.
  2: { unfold r_guard in E0. destruct (isPrivileged E); [done|]. injection E0 as <- <-. by injection Hr as <- <-. }
  apply r_guard_ok in E0 as [_ ->]. unfold r_bind at 1, r_try in Hr.
  destruct (loadSSHAccessState config s) as [l s1] eqn:El. pose proof (accounted_quiet _ _ _ _ quiet_load El Ha) as Ha1.
  destruct l as [st|e]; [|destruct (is_not_exist e); by injection Hr as <- <-].
  pose proof (load_ok _ _ _ El) as Hst. destruct (run_quiet _ _ _ _ quiet_load El) as (Hf & _).
  apply (recorded_same _ _ _ Hf) in Hst. unfold r_bind in Hr. destruct (revokeSSHAccess E config st s1) as [r2 s2] eqn:E2.
  apply revoke_closes in E2; [|done..]. apply closed_accounted in E2. by destruct r2; injection Hr as <- <-.
Qed.
Lemma reachable_accounted s : reachable s -> accounted s.
Proof.
  induction 1 as [w t Hw|rq s _ IH Had]; [by right|]. destruct rq; simpl.
  - destruct (grantTemporarySSHAccess E config port s) as [r s'] eqn:Er. destruct Had. by eapply grant_accounted.
  - destruct (revokeTemporarySSHAccess E config s) as [r s'] eqn:Er. by eapply revoke_accounted.
  - destruct (ReconcileTemporarySSHAccess E config s) as [r s'] eqn:Er. by eapply close_accounted.
  - destruct (CloseTemporarySSHAccess E config s) as [r s'] eqn:Er. by eapply close_accounted.
Qed.


(** ** The deadline is written ahead *)

Definition opening_recorded (ev : event) : Prop :=
  match ev with
  | Ran argv _ fs => is_open argv = true -> exists st, recorded fs st /\ argv = open_argv (sa_Mechanism st) (sa_Port st) /\
      sa_ExpiresAt st = t_add (sa_GrantedAt st) temporarySSHDuration
  | Started _ => True
  end.
Lemma opens_nothing_recorded ev : opens_nothing ev -> opening_recorded ev.
Proof. destruct ev; simpl; congruence. Qed.
Lemma quiet_opening {A} (m : RM A) : quiet m -> safe (fun _ => True) opening_recorded m.
Proof.
  intros Hm s _. split; [done|]. destruct (Hm _ s eq_refl) as [_ Ha]. eapply adds_impl; [|exact Ha].
  intros ev [_ Ho]. by apply opens_nothing_recorded.
Qed.
Lemma silent_opening {A} (m : RM A) : safe (fun _ => True) (fun _ => False) m -> safe (fun _ => True) opening_recorded m.
Proof. by apply safe_impl. Qed.
Lemma remove_opening st : safe (fun _ => True) opening_recorded (removeSSHAccessRule E st).
Proof. eapply safe_impl; [|apply remove_opens_nothing]. apply opens_nothing_recorded. Qed.
Lemma revoke_opening st : safe (fun _ => True) opening_recorded (revokeSSHAccess E config st).
Proof.
  unfold revokeSSHAccess. safe_all; [apply remove_opening|apply quiet_opening, quiet_cancel|apply silent_opening, silent_remove].
Qed.
Lemma close_opening force : safe (fun _ => True) opening_recorded (closeTemporarySSHAccess E config force).
Proof.
  unfold closeTemporarySSHAccess, not_due, r_now, sweepOrphanedSSHAccess.
  safe_all; first [apply quiet_opening, quiet_load | apply revoke_opening | apply quiet_opening, quiet_delete_nft | apply quiet_opening, quiet_cancel].
Qed.
Lemma record_then_open st daemon :
  known_mechanism (sa_Mechanism st) = true -> sa_ExpiresAt st = t_add (sa_GrantedAt st) temporarySSHDuration ->
  safe (fun _ => True) opening_recorded (r_wrap EPersistDeadline (saveSSHAccessState E config st) ;;; open_and_record E config st daemon).
Proof.
  intros Hk He s _. split; [done|]. unfold r_bind at 1, r_wrap. destruct (saveSSHAccessState E config st s) as [r1 s1] eqn:E1.
  pose proof (silent_log _ _ _ _ (silent_save st) E1) as Hl. destruct r1 as [[]|e]; [|by apply adds_same].
  apply (adds_trans _ s s1); [by apply adds_same|]. apply save_windows_ok in E1; [|done].
  unfold open_and_record. unfold r_bind at 1, r_try at 1.
  destruct (installSSHAccessRule E config (sa_Port st) (sa_Mechanism st) s1) as [r2 s2] eqn:E2.
  apply (adds_trans _ s1 s2).
  - eapply (run_safe (fun fs => recorded fs st)); [|exact E2|done]. apply install_safe.
    + intros d pre r m f (g & Hg & Hd). split; exists g; split; try done;
        [rewrite lookup_insert_ne|rewrite lookup_delete_ne]; try done; apply state_path_not_temp.
    + intros argv b fs Ho _ _. simpl. congruence.
    + intros _ b fs Hfs _. by exists st.
  - match goal with |- adds _ _ (snd (?m s2)) => assert (Hm : safe (fun _ => True) opening_recorded m) end.
    { destruct r2; safe_all; first [apply silent_opening, silent_save | apply remove_opening | apply quiet_opening, quiet_cancel | apply silent_opening, silent_remove]. }
    by destruct (Hm s2 I).
Qed.

(** The deadline is on disk before the port is open: whenever a grant starts
    a command that opens a port, with whatever tool, the deadline file names that
    port, that tool and an expiry fifteen minutes after the grant. *)
Theorem grant_writes_ahead port s :
  adds opening_recorded s (snd (grantTemporarySSHAccess E config port s)).
Proof.
  assert (Hm : safe (fun _ => True) opening_recorded (grantTemporarySSHAccess E config port)); [|by destruct (Hm s I)].
  unfold grantTemporarySSHAccess. apply safe_bind; [apply safe_guard|intros _].
  apply safe_bind; [apply safe_wrap, close_opening|intros _].
  apply safe_bind; [apply quiet_opening, quiet_window|intros [st|]; [apply safe_err|]].
  apply safe_bind; [apply quiet_opening, quiet_inspect|intros daemon].
  eapply (safe_bind_val _ _ (fun m => known_mechanism m = true)); [apply detect_known|apply quiet_opening, quiet_detect|intros m Hk].
  apply safe_bind; [apply safe_ask|intros granted]. by apply record_then_open.
Qed.

(** ** The deadline is enforced *)

Lemma stop_unit_ran u s :
  exists s', stop_timer_unit E u s = (Ok tt, s') /\ rm_world s' = rm_world s /\ failed_close (rm_log s') = failed_close (rm_log s).
Proof. eexists. split; [reflexivity|]. simpl. split; [done|]. by destruct (bool_decide _). Qed.
Lemma cancel_ran s :
  exists s', cancelSSHAccessTimer E s = (Ok tt, s') /\ rm_world s' = rm_world s /\ failed_close (rm_log s') = failed_close (rm_log s).
Proof.
  unfold cancelSSHAccessTimer, LookPath. unfold r_bind at 1, ask. destruct (bool_decide _); [by eexists|].
  match goal with |- context [r_bind _ _ ?x] => destruct (stop_unit_ran (temporarySSHUnit ++ ".timer") x) as (s1 & H1 & Hw1 & Hf1) end.
  unfold r_bind at 1. rewrite H1. destruct (stop_unit_ran (temporarySSHUnit ++ ".service") s1) as (s2 & H2 & Hw2 & Hf2).
  exists s2. split; [done|]. split; [by rewrite Hw2, Hw1|by rewrite Hf2, Hf1].
Qed.
Definition removals_work : Prop := forall t argv, is_close argv = true -> oc_error (re_run E t argv) = None.
Lemma closing_ran argv s :
  removals_work -> is_close argv = true ->
  exists s', command E argv s = (Ok tt, s') /\ rm_world s' = rm_world s /\ failed_close (rm_log s') = failed_close (rm_log s).
Proof.
  intros Hrun Hc. unfold command, platformCommand, r_bind, run_command. rewrite (Hrun _ _ Hc).
  eexists. split; [reflexivity|]. by rewrite bool_decide_eq_false_2 by (by intros Hn; apply Hn).
Qed.
Lemma remove_ran st s :
  removals_work -> known_mechanism (sa_Mechanism st) = true ->
  exists s', removeSSHAccessRule E st s = (Ok tt, s') /\ rm_world s' = rm_world s /\ failed_close (rm_log s') = failed_close (rm_log s).
Proof.
  intros Hrun Hk. destruct (known_cases _ Hk) as [Hm|Hl].
  - unfold removeSSHAccessRule. rewrite Hm. simpl. unfold deleteNftablesSSHAccess, LookPath, platformCommand.
    unfold r_bind at 1, ask. destruct (bool_decide _); [by eexists|]. unfold r_bind at 1, run_command. cbv zeta.
    match goal with |- context [bool_decide ?P] => destruct (bool_decide P) end; [by eexists|].
    match goal with |- context [command E nft_delete ?x] => destruct (closing_ran nft_delete x Hrun eq_refl) as (s1 & H1 & Hw & Hf) end.
    exists s1. by rewrite H1, Hw, Hf.
  - destruct (rule_argv _ (sa_Port st) Hl) as (_ & _ & _ & Hc).
    destruct (closing_ran _ s Hrun Hc) as (s1 & H1 & Hw & Hf). exists s1. rewrite <- H1. split; [|done].
    unfold removeSSHAccessRule. by destruct (lasting_cases _ Hl) as [->|[->| ->]].
Qed.
Lemma revoke_ran st s :
  removals_work -> known_mechanism (sa_Mechanism st) = true -> w_faults (rm_world s) = [] ->
  exists s', revokeSSHAccess E config st s = (Ok tt, s') /\ files s' !! path = None /\
    failed_close (rm_log s') = failed_close (rm_log s).
Proof.
  intros Hrun Hk Hnf. destruct (remove_ran st s Hrun Hk) as (s1 & H1 & Hw1 & Hf1). destruct (cancel_ran s1) as (s2 & H2 & Hw2 & Hf2).
  unfold revokeSSHAccess, r_bind, r_try. rewrite H1, H2. unfold removeSSHAccessState, remove_if_exists, r_bind, r_try, r_io, remove, call.
  rewrite Hw2, Hw1, Hnf. simpl. destruct (w_fs (rm_world s) !! path) eqn:Ep; simpl.
  - eexists. split; [reflexivity|]. unfold files. simpl. by rewrite lookup_delete_eq, Hf2, Hf1.
  - eexists. split; [reflexivity|]. unfold files. simpl. by rewrite Ep, Hf2, Hf1.
Qed.
Lemma load_recorded_windows s st :
  recorded (files s) st -> w_faults (rm_world s) = [] ->
  loadSSHAccessState config s = (Ok st, mkMachine (mkWorld (files s) [] (w_rand (rm_world s)) (w_trace (rm_world s))) (rm_tick s) (rm_log s)).
Proof.
  intros (f & Hf & Hd) Hnf. unfold loadSSHAccessState, r_bind, r_io, read_file, call. rewrite Hnf. unfold files in *. simpl.
  rewrite Hf. simpl. by rewrite Hd.
Qed.

Lemma close_closes force s st :
  accounted s -> failed_close (rm_log s) = false -> removals_work -> w_faults (rm_world s) = [] ->
  recorded (files s) st -> known_mechanism (sa_Mechanism st) = true -> force = true \/ sa_ExpiresAt st <= re_now E (rm_tick s) ->
  exists s', closeTemporarySSHAccess E config force s = (Ok tt, s') /\ files s' !! path = None /\ closed (rm_log s').
Proof.
  intros Ha Hfc Hrun Hnf Hst Hk Hdue. unfold closeTemporarySSHAccess.
  unfold r_bind at 1, r_try. rewrite (load_recorded_windows s st Hst Hnf). unfold not_due, r_now, ask, r_bind, before.
  set (s1 := mkMachine _ _ _).
  assert (Hrev : forall s2, files s2 = files s -> rm_log s2 = rm_log s -> w_faults (rm_world s2) = [] ->
    exists s', revokeSSHAccess E config st s2 = (Ok tt, s') /\ files s' !! path = None /\ closed (rm_log s')).
  { intros s2 Hf2 Hl2 Hn2. destruct (revoke_ran st s2 Hrun Hk Hn2) as (s3 & H3 & Hfile & Hf3). exists s3.
    split; [done|]. split; [done|]. destruct (revoke_closes st s2 _ _ H3) as [Hf|]; [by rewrite Hf2| | |done].
    - unfold accounted. by rewrite Hf2, Hl2.
    - rewrite Hf3, Hl2 in Hf. congruence. }
  destruct force; [by apply Hrev|]. destruct Hdue as [?|Hdue]; [done|]. simpl.
  rewrite (proj2 (Z.ltb_ge _ _) Hdue). by apply Hrev.
Qed.


(** ** What goes wrong when something fails *)

(** When the tool refuses to remove the rule, the deadline is deleted all the
    same: the port stays open and no later reconciliation tries again. *)
Theorem failed_removal_forgets_window st s :
  w_faults (rm_world s) = [] -> files s !! path <> None -> lasting (sa_Mechanism st) = true ->
  live (sa_Mechanism st) (sa_Port st) (rm_log s) = true ->
  (forall t, oc_error (re_run E t (close_argv (sa_Mechanism st) (sa_Port st))) <> None) ->
  exists e s', revokeSSHAccess E config st s = (Err e, s') /\
    live (sa_Mechanism st) (sa_Port st) (rm_log s') = true /\
    exists s2, ReconcileTemporarySSHAccess E config s' = (Ok tt, s2) /\ rm_log s2 = rm_log s'.
Proof.
  intros Hnf Hfile Hl Hlive Hfail.
  assert (exists e s1, removeSSHAccessRule E st s = (Err e, s1)) as (e & s1 & H1).
  { assert (Hc : removeSSHAccessRule E st s = command E (close_argv (sa_Mechanism st) (sa_Port st)) s).
    { unfold removeSSHAccessRule. by destruct (lasting_cases _ Hl) as [->|[->| ->]]. }
    rewrite Hc. unfold command, platformCommand, r_bind, run_command. specialize (Hfail (rm_tick s)).
    destruct (oc_error _); [by do 2 eexists|done]. }
  assert (Hcmd : command E (close_argv (sa_Mechanism st) (sa_Port st)) s = (Err e, s1)).
  { rewrite <- H1. unfold removeSSHAccessRule. by destruct (lasting_cases _ Hl) as [->|[->| ->]]. }
  apply command_ran in Hcmd as [Hlog1 Hw1]. destruct (cancel_ran s1) as (s2 & H2 & Hw2 & _).
  destruct (run_quiet _ _ _ _ quiet_cancel H2) as (_ & (new & Hlog2 & Hn) & _).
  unfold revokeSSHAccess, r_bind at 1, r_try at 1. rewrite H1. unfold r_bind at 1, r_try at 1. rewrite H2.
  unfold removeSSHAccessState, remove_if_exists, r_bind, r_try, r_io, remove, call. rewrite Hw2, Hw1, Hnf. simpl.
  unfold files in Hfile. destruct (w_fs (rm_world s) !! path) eqn:Ep; [|done]. simpl.
  eexists _, _. split; [reflexivity|]. simpl. split.
  - rewrite Hlog2, live_neutral, Hlog1 by done. exact Hlive.
  - unfold ReconcileTemporarySSHAccess, closeTemporarySSHAccess, loadSSHAccessState, r_bind, r_try, r_io, read_file, call. simpl.
    rewrite lookup_delete_eq. simpl. by eexists.
Qed.

(** The deadline is rewritten in place while the port is open: the file is empty
    on the way, *)
Lemma recording_truncates data mode s s' :
  WriteFile E path data mode s = (Ok tt, s') -> exists m f, m ∈ w_trace (rm_world s') /\ m !! path = Some f /\ f_data f = "".
Proof.
  unfold WriteFile, r_bind, ask, r_io, io_bind, truncate_file, fill_file, call. simpl.
  destruct (hd false (w_faults _)); simpl; [done|]. destruct (hd false (tail _)); simpl; [done|].
  intros [= <-]. simpl. eexists _, _. split; [right; left|]. by rewrite lookup_insert_eq.
Qed.
(** and with a file that does not decode no closing, forced or not, removes
    anything. *)
Lemma unreadable_deadline_never_closes force f s :
  w_faults (rm_world s) = [] -> files s !! path = Some f -> json_unmarshal (f_data f) = None ->
  exists s', closeTemporarySSHAccess E config force s = (Err (EIo DecodeFailed), s') /\ rm_log s' = rm_log s /\ files s' = files s.
Proof.
  intros Hnf Hf Hd. unfold closeTemporarySSHAccess, loadSSHAccessState, r_bind, r_try, r_io, read_file, call. rewrite Hnf. unfold files in *.
  simpl. rewrite Hf. simpl. rewrite Hd. by eexists.
Qed.
End AccessTheorems.
