(* ===== verification/RescueActions.v ===== *)
(** * The other rescue actions ([rescue/actions.go], [actions_linux.go])

    Power, restart and network isolation. What severs the connection to the panel
    is left to do after the result has been reported. *)

From S2P Require Import Prelude.
From S2P Require Import GoStd.
From S2P Require Import GoPath.
From S2P Require Import Disk.
From S2P Require Import External.
From S2P Require Import Systemd.
From S2P Require Import HostFs.
From S2P Require Import HostFetch.
From S2P Require Import Rescue.
From S2P Require Import RescueSsh.

Local Open Scope string_scope.
Local Open Scope Z_scope.
Local Open Scope rescue_scope.

(** ** Data *)

Inductive NetworkIsolationMode :=
| NETWORK_ISOLATION_MODE_UNSPECIFIED | NETWORK_ISOLATION_MODE_NONE
| NETWORK_ISOLATION_MODE_PUBLIC_INTERFACES | NETWORK_ISOLATION_MODE_TAILSCALE_INTERFACES
| NETWORK_ISOLATION_MODE_CONTROL_PLANE_ONLY | NetworkIsolationMode_other (n : Z).
#[export] Instance NetworkIsolationMode_eq : EqDecision NetworkIsolationMode.
Proof. solve_decision. Defined.
Inductive RescueAction :=
| RESCUE_ACTION_DIAGNOSTICS | RESCUE_ACTION_DETAILED_CPU_METRICS | RESCUE_ACTION_DETAILED_MEMORY_METRICS
| RESCUE_ACTION_TEMPORARY_SSH_ACCESS | RESCUE_ACTION_REVOKE_TEMPORARY_SSH_ACCESS
| RESCUE_ACTION_ROLLBACK_PRIVILEGED_CONFIG | RESCUE_ACTION_SHUTDOWN | RESCUE_ACTION_REBOOT
| RESCUE_ACTION_BLOCK_PUBLIC_INTERFACES | RESCUE_ACTION_BLOCK_TAILSCALE_INTERFACES
| RESCUE_ACTION_ISOLATE_CONTROL_PLANE | RESCUE_ACTION_RESTORE_NETWORK | RESCUE_ACTION_ROLLBACK_ONLINE_CONFIG
| RescueAction_other (n : Z).
#[export] Instance RescueAction_eq : EqDecision RescueAction.
Proof. solve_decision. Defined.

Record isolationState := mkIsolation { is_Mode : NetworkIsolationMode; is_Interfaces : list string; is_AppliedAt : time }.
#[export] Instance isolationState_eq : EqDecision isolationState.
Proof. solve_decision. Defined.
(** [net.IP], by [To4] and [String]; [url.Parse], by the parts read. *)
Record IP := mkIP { ip_v4 : bool; ip_text : string }.
Record ControlURL := mkControl { cu_Scheme : string; cu_Hostname : string; cu_Port : string }.

Definition maximumActionOutput : Z := 2 ^ 20.
Definition linuxIsolationTable : string := "komari_rescue".

(** ** Output *)

Definition truncated_suffix : string := "
[output truncated]
".
Definition limitBytes (value : string) (limit : Z) : string :=
  if slen value <=? limit then value
  else if limit <=? slen truncated_suffix then String.substring 0 (Z.to_nat limit) value
  else String.substring 0 (Z.to_nat (limit - slen truncated_suffix)) value ++ truncated_suffix.
Definition deadlineForAssignment (now value : time) : time := if is_zero value then t_add now (2 * minute) else value.

(** ** Rule sets *)

(** [strconv.Quote]; bytes beyond ASCII are taken to be printable. *)
Definition quote_char (a : ascii) : string :=
  let n := code a in
  if Nat.eqb n 34 then "\" ++ String a ""
  else if Nat.eqb n 92 then "\\"
  else if Nat.eqb n 7 then "\a" else if Nat.eqb n 8 then "\b" else if Nat.eqb n 12 then "\f"
  else if Nat.eqb n 10 then "\n" else if Nat.eqb n 13 then "\r" else if Nat.eqb n 9 then "\t" else if Nat.eqb n 11 then "\v"
  else if Nat.ltb n 32 || Nat.eqb n 127 then "\x" ++ hex_encode (String a "")
  else String a "".
Definition dquote_str : string := String (byte_of 34) "".
Definition strconv_Quote (s : string) : string := dquote_str ++ String.concat "" (map quote_char (chars s)) ++ dquote_str.

Definition interfaceIsolationRules (interfaces : list string) : string :=
  let set := join ", " (map strconv_Quote interfaces) in
  "table inet " ++ linuxIsolationTable ++ " {
 chain input { type filter hook input priority -50; policy accept; iifname { " ++ set ++ " } drop; }
 chain output { type filter hook output priority -50; policy accept; oifname { " ++ set ++ " } drop; }
}
".
(** One family of addresses: what may come in and what may go out. *)
Definition family_input (family : string) (addresses : list string) (port : string) : string :=
  if Nat.eqb (length addresses) 0 then "" else
  " " ++ family ++ " saddr { " ++ join ", " addresses ++ " } tcp sport " ++ port ++ " ct state established accept;" ++
  " " ++ family ++ " saddr { " ++ join ", " addresses ++ " } udp sport " ++ port ++ " ct state established accept;".
Definition family_output (family : string) (addresses : list string) (port : string) : string :=
  if Nat.eqb (length addresses) 0 then "" else
  " " ++ family ++ " daddr { " ++ join ", " addresses ++ " } tcp dport " ++ port ++ " accept;" ++
  " " ++ family ++ " daddr { " ++ join ", " addresses ++ " } udp dport " ++ port ++ " accept;".
Definition controlPlaneIsolationRules (addresses : list IP) (port : Z) : string :=
  let ipv4 := map ip_text (List.filter ip_v4 addresses) in
  let ipv6 := map ip_text (List.filter (fun a => negb (ip_v4 a)) addresses) in
  "table inet " ++ linuxIsolationTable ++ " {
 chain input { type filter hook input priority -50; policy accept; iifname lo accept;" ++
    family_input "ip" ipv4 (utoa port) ++ family_input "ip6" ipv6 (utoa port) ++ " drop; }
 chain output { type filter hook output priority -50; policy accept; oifname lo accept;" ++
    family_output "ip" ipv4 (utoa port) ++ family_output "ip6" ipv6 (utoa port) ++ " drop; }
}
".
(** [strings.Replace(s, old, new, 1)]. *)
Fixpoint replace_first (s old new : string) : string :=
  if has_prefix s old then new ++ trim_prefix s old else
  match s with
  | EmptyString => EmptyString
  | String a r => String a (replace_first r old new)
  end.

Section Actions.
Context (E : Env) `{JI : Json isolationState} `{JS : Json sshAccessState}.
Variable config : ActionConfig.
(** [json.Unmarshal] of the routes [ip -j route] prints, by their devices. *)
Variable decode_routes : bytes -> option (list string).
Variable parse_control : string -> option ControlURL.
(** The resolver, and the metrics collector. *)
Variable lookup_ip : nat -> string -> option (list IP).
Variable collect_diagnostics : nat -> bool -> bool -> option bytes.

(** ** Commands *)

Definition waitForCommit : RM unit := let! fired := ask (re_timer E) in r_guard fired ECancelled.

Definition diagnostic_checks : list (list string) :=
  [["uname"; "-a"]; ["uptime"]; ["free"; "-h"]; ["df"; "-h"]; ["ip"; "-brief"; "address"]; ["ip"; "route"; "show"];
   ["systemctl"; "--failed"; "--no-pager"; "--plain"]].
Definition nl : string := String (byte_of 10) "".
Fixpoint run_checks (checks : list (list string)) : RM string :=
  match checks with
  | [] => r_ret ""
  | check :: checks =>
      let! o := platformCommand E check in
      let! rest := run_checks checks in
      r_ret ("$ " ++ join " " check ++ nl ++ oc_Stdout o ++ oc_Stderr o ++
             match oc_error o with Some text => "error=" ++ text ++ nl | None => "" end ++ nl ++ rest)
  end.
Definition machineDiagnostics : RM ActionResult :=
  let! output := run_checks diagnostic_checks in r_ret (said (limitBytes output maximumActionOutput)).
Definition performanceDiagnostics (includeCPU includeMemory : bool) : RM ActionResult :=
  let! report := ask (fun t => collect_diagnostics t includeCPU includeMemory) in
  match report with
  | None => r_err EDiagnostics
  | Some report => r_ret (mkResult "" "" None (Some report) None)
  end.
Definition rollbackPrivilegedConfig : RM ActionResult := r_err ERollbackRetired.

Definition preparePowerAction (reboot : bool) : RM ActionResult :=
  r_guard (isPrivileged E) ENotRoot ;;;
  let verb := if reboot then "reboot" else "poweroff" in
  let message := if reboot then "reboot" else "shutdown" in
  r_ret (later ("machine_" ++ message ++ "=scheduled" ++ nl) (waitForCommit ;;; start_command E ["systemctl"; verb])).

(** [strings.ContainsAny(service, "/\\\x00\n\r")]. *)
Definition bad_service_char (a : ascii) : bool :=
  let n := code a in Nat.eqb n 47 || Nat.eqb n 92 || Nat.eqb n 0 || Nat.eqb n 10 || Nat.eqb n 13.
Definition prepareAgentRestart : RM ActionResult :=
  r_guard (isPrivileged E) ENotRoot ;;;
  let service := trim_space (cf_ServiceName config) in
  r_guard (negb ((service =? "")%string || existsb bad_service_char (chars service))) EService ;;;
  r_ret (later ("online_config_rollback=accepted" ++ nl ++ "agent_restart=scheduled" ++ nl)
           (waitForCommit ;;; start_command E ["systemctl"; "restart"; service ++ ".service"])).

(** ** Network isolation *)

Definition saveIsolationState (state : isolationState) : RM unit :=
  match json_marshal state with
  | None => r_err (EIo EncodeFailed)
  | Some data =>
      r_io (mkdir_all (dir (isolationPath config))) ;;; WriteFile E (isolationPath config) data 384
  end.
Definition networkIsolationStatus : RM (NetworkIsolationMode * list string) :=
  let! data := r_try (r_io (read_file (isolationPath config))) in
  r_ret (match data with
         | Err _ => (NETWORK_ISOLATION_MODE_NONE, [])
         | Ok data => match json_unmarshal data with
                      | None => (NETWORK_ISOLATION_MODE_UNSPECIFIED, [])
                      | Some state => (is_Mode state, is_Interfaces state)
                      end
         end).
Definition ensureNoActiveIsolation : RM unit :=
  let! status := networkIsolationStatus in
  r_guard (bool_decide (status.1 = NETWORK_ISOLATION_MODE_NONE) || bool_decide (status.1 = NETWORK_ISOLATION_MODE_UNSPECIFIED))
    EIsolationActive.

Definition deleteNftIsolation : RM unit :=
  let! nft := LookPath E "nft" in
  if bool_decide (nft = None) then r_err (EMissing "nft") else
  let! listed := platformCommand E ["nft"; "list"; "table"; "inet"; linuxIsolationTable] in
  if bool_decide (oc_error listed <> None) then r_ret tt else
  command E ["nft"; "delete"; "table"; "inet"; linuxIsolationTable].
Definition checkTable : string := linuxIsolationTable ++ "_check_" ++ itoa (re_pid E).
Definition check_script (script : string) : string :=
  replace_first script ("table inet " ++ linuxIsolationTable) ("table inet " ++ checkTable).
Definition nft_check (path : string) : list string := ["nft"; "-c"; "-f"; path].
Definition nft_apply (path : string) : list string := ["nft"; "-f"; path].
Definition applyNftScript (script : string) : RM unit :=
  let! nft := LookPath E "nft" in
  if bool_decide (nft = None) then r_err (EMissing "nft") else
  let directory := dir (isolationPath config) in
  r_io (mkdir_all directory) ;;;
  let! path := r_io (CreateTemp directory ".komari-nft-" ".conf") in
  r_removed path (
    r_io (write_file path script ;; close_file path) ;;;
    WriteFile E path (check_script script) 384 ;;;
    command E (nft_check path) ;;;
    WriteFile E path script 384 ;;;
    let! _ := r_try deleteNftIsolation in
    command E (nft_apply path)).

(** What the isolation actions do once their result is reported. *)
Definition isolate (mode : NetworkIsolationMode) (interfaces : list string) (script : string) : RM unit :=
  waitForCommit ;;;
  let! now := r_now E in
  r_wrap ESaveIsolation (saveIsolationState (mkIsolation mode interfaces now)) ;;;
  let! applied := r_try (applyNftScript script) in
  match applied with
  | Ok _ => r_ret tt
  | Err e => let! _ := r_try (r_io (remove (isolationPath config))) in r_err e
  end.

Fixpoint default_devices (families : list (list string)) : RM (list string) :=
  match families with
  | [] => r_ret []
  | family :: families =>
      let! o := platformCommand E ("ip" :: family) in
      match oc_error o with
      | Some _ => default_devices families
      | None =>
          match decode_routes (oc_Stdout o) with
          | None => r_err ERoutes
          | Some devices =>
              let! rest := default_devices families in
              r_ret (List.filter (fun d => negb (d =? "")%string && negb (d =? "lo")%string) devices ++ rest)%list
          end
      end
  end.
Definition interfacesForMode (mode : NetworkIsolationMode) : RM (list string) :=
  let! names :=
    match mode with
    | NETWORK_ISOLATION_MODE_PUBLIC_INTERFACES =>
        default_devices [["-j"; "route"; "show"; "default"]; ["-j"; "-6"; "route"; "show"; "default"]]
    | NETWORK_ISOLATION_MODE_TAILSCALE_INTERFACES =>
        let! interfaces := ask (re_interfaces E) in
        match interfaces with
        | None => r_err EInterfaces
        | Some names => r_ret (List.filter (fun n => has_prefix (of_chars (map lower (chars n))) "tailscale") names)
        end
    | _ => r_err EMode
    end in
  let names := uniqueStrings names in
  if Nat.eqb (length names) 0 then r_err EInterfaces else r_ret names.

Definition prepareInterfaceIsolation (mode : NetworkIsolationMode) : RM ActionResult :=
  r_guard (isPrivileged E) ENotRoot ;;;
  let! interfaces := interfacesForMode mode in
  r_ret (later ("network_isolation=scheduled" ++ nl ++ "interfaces=" ++ join "," interfaces ++ nl)
           (isolate mode interfaces (interfaceIsolationRules interfaces))).

Definition resolveControlPlane (endpoint : string) : RM (list IP * Z) :=
  match parse_control (trim_space endpoint) with
  | None => r_err EControlPlane
  | Some u =>
      r_guard (negb (cu_Hostname u =? "")%string && ((cu_Scheme u =? "http")%string || (cu_Scheme u =? "https")%string)) EControlPlane ;;;
      let! port :=
        if (cu_Port u =? "")%string then r_ret (if (cu_Scheme u =? "http")%string then 80 else 443)
        else match parse_udec (chars (cu_Port u)) with
             | Some v => r_guard ((1 <=? v) && (v <=? 65535)) EControlPlane ;;; r_ret v
             | None => r_err EControlPlane
             end in
      let! addresses := ask (fun t => lookup_ip t (cu_Hostname u)) in
      match addresses with
      | None | Some [] => r_err EResolve
      | Some addresses => r_ret (addresses, port)
      end
  end.
Definition prepareControlPlaneIsolation : RM ActionResult :=
  r_guard (isPrivileged E) ENotRoot ;;;
  let! resolved := resolveControlPlane (cf_ControlPlaneURL config) in
  r_ret (later ("network_isolation=control-plane-only-scheduled" ++ nl)
           (isolate NETWORK_ISOLATION_MODE_CONTROL_PLANE_ONLY [] (controlPlaneIsolationRules resolved.1 resolved.2))).
Definition restoreNetwork : RM ActionResult :=
  r_guard (isPrivileged E) ENotRoot ;;;
  deleteNftIsolation ;;;
  let! _ := r_try (r_io (remove (isolationPath config))) in
  r_ret (said ("network_isolation=removed" ++ nl)).

(** ** Dispatch *)

Definition ExecuteAction (action : RescueAction) (arguments : list string) (sshPort : Z) : RM ActionResult :=
  r_guard (Nat.eqb (length arguments) 0) EArguments ;;;
  match action with
  | RESCUE_ACTION_DIAGNOSTICS => machineDiagnostics
  | RESCUE_ACTION_DETAILED_CPU_METRICS => performanceDiagnostics true false
  | RESCUE_ACTION_DETAILED_MEMORY_METRICS => performanceDiagnostics false true
  | RESCUE_ACTION_TEMPORARY_SSH_ACCESS => grantTemporarySSHAccess E config sshPort
  | RESCUE_ACTION_REVOKE_TEMPORARY_SSH_ACCESS => revokeTemporarySSHAccess E config
  | RESCUE_ACTION_ROLLBACK_PRIVILEGED_CONFIG => rollbackPrivilegedConfig
  | RESCUE_ACTION_SHUTDOWN => preparePowerAction false
  | RESCUE_ACTION_REBOOT => preparePowerAction true
  | RESCUE_ACTION_BLOCK_PUBLIC_INTERFACES =>
      ensureNoActiveIsolation ;;; prepareInterfaceIsolation NETWORK_ISOLATION_MODE_PUBLIC_INTERFACES
  | RESCUE_ACTION_BLOCK_TAILSCALE_INTERFACES =>
      ensureNoActiveIsolation ;;; prepareInterfaceIsolation NETWORK_ISOLATION_MODE_TAILSCALE_INTERFACES
  | RESCUE_ACTION_ISOLATE_CONTROL_PLANE => ensureNoActiveIsolation ;;; prepareControlPlaneIsolation
  | RESCUE_ACTION_RESTORE_NETWORK => restoreNetwork
  | RESCUE_ACTION_ROLLBACK_ONLINE_CONFIG => prepareAgentRestart
  | RescueAction_other n => r_err (EUnsupported n)
  end.
End Actions.

(** ** Theorems *)

Lemma slen_app s t : slen (s ++ t) = slen s + slen t.
Proof.
  unfold slen. induction s as [|a s IH]; [done|]. change (String a s ++ t) with (String a (s ++ t)).
  cbn [String.length]. lia.
Qed.
Lemma slen_substring n s : (n <= String.length s)%nat -> slen (String.substring 0 n s) = Z.of_nat n.
Proof.
  unfold slen. intros Hn. f_equal. revert s Hn. induction n as [|n IH]; intros s Hn; destruct s; simpl in *; try lia. rewrite IH; lia.
Qed.
(** A bound on everything reported. *)
Lemma limitBytes_bound value limit : 0 <= limit -> slen (limitBytes value limit) <= limit.
Proof.
  intros Hl. unfold limitBytes. destruct (Z.leb_spec (slen value) limit) as [|Hlt]; [done|].
  unfold slen in Hlt. destruct (Z.leb_spec limit (slen truncated_suffix)) as [Hs|Hs].
  - rewrite slen_substring; lia.
  - rewrite slen_app, slen_substring; unfold slen in *; lia.
Qed.

Section ActionTheorems.
Context (E : Env) `{JIL : JsonLaws isolationState} `{JS : Json sshAccessState}.
Variable config : ActionConfig.
Notation path := (isolationPath config).
(** [encoding/json] reads back the isolation states the code writes, and the
    random names of temporary files are not the name of the state file. *)
Hypothesis Hjson : forall st : isolationState, json_ok st.
Hypothesis Htemp : forall d r, temp_name d ".komari-nft-" (r ++ ".conf") <> path.

Definition is_apply (ev : event) : bool :=
  match ev with Ran [tool; flag; _] _ _ => (tool =? "nft")%string && (flag =? "-f")%string | _ => false end.
Definition holds (fs : fsys) (name data : string) : Prop := exists f, fs !! name = Some f /\ f_data f = data.
Definition isolated (fs : fsys) (mode : NetworkIsolationMode) (interfaces : list string) : Prop :=
  exists f st, fs !! path = Some f /\ json_unmarshal (f_data f) = Some st /\ is_Mode st = mode /\ is_Interfaces st = interfaces.

(** The rules that were loaded: the file held exactly the script, the same script
    under another table name had been checked before, and the state file already
    said which isolation this is. *)
Definition loaded (mode : NetworkIsolationMode) (interfaces : list string) (script : string) (log : list event) : Prop :=
  forall after name failed fs before, log = (after ++ Ran (nft_apply name) failed fs :: before)%list ->
    holds fs name script /\ isolated fs mode interfaces /\
    exists fs', Ran (nft_check name) false fs' ∈ before /\ holds fs' name (check_script E script).

Lemma quiet_nothing_loaded mode interfaces script new log :
  Forall (fun ev => is_apply ev = false) new -> loaded mode interfaces script log -> loaded mode interfaces script (new ++ log)%list.
Proof.
  intros Hn Hl. induction Hn as [|ev new Hev _ IH]; [done|]. intros after name failed fs before Heq.
  destruct after as [|x after]; simpl in Heq; [by injection Heq as -> _|]. injection Heq as _ Heq. by eapply IH.
Qed.

Section Loading.
Variables (mode : NetworkIsolationMode) (interfaces : list string) (script : string).
Notation J := (fun fs => isolated fs mode interfaces).
Notation no_load := (fun ev => is_apply ev = false).

Lemma isolated_stable name : name <> path -> stable_off name J.
Proof.
  intros Hn m f (g & st & Hg & Hrest). split; exists g, st; split; try done; [by rewrite lookup_insert_ne|by rewrite lookup_delete_ne].
Qed.
Lemma delete_no_load (I : fsys -> Prop) : safe I no_load (deleteNftIsolation E).
Proof.
  unfold deleteNftIsolation, LookPath, platformCommand. safe_all; first [apply safe_run | apply safe_command]; done.
Qed.
Lemma run_adds {A} (I : fsys -> Prop) P (m : RM A) s r s' : safe I P m -> m s = (r, s') -> I (files s) -> I (files s') /\ adds P s s'.
Proof. apply run_safe. Qed.
Lemma adds_no_load s s' : adds no_load s s' -> Forall no_load (rm_log s) -> Forall no_load (rm_log s').
Proof. intros (new & -> & Hn) Hs. by apply Forall_app. Qed.
Lemma no_load_loaded log : Forall no_load log -> loaded mode interfaces script log.
Proof.
  intros Hl after name failed fs before ->. apply Forall_app in Hl as [_ Hl]. by inversion Hl.
Qed.

(** The end of [applyNftScript]: from the checked script on. *)
Definition load_checked (name : string) : RM unit :=
  WriteFile E name script 384 ;;;
  let! _ := r_try (deleteNftIsolation E) in command E (nft_apply name).
Lemma load_checked_spec name s r s' fs' :
  name <> path -> J (files s) -> Forall no_load (rm_log s) ->
  Ran (nft_check name) false fs' ∈ rm_log s -> holds fs' name (check_script E script) ->
  load_checked name s = (r, s') -> loaded mode interfaces script (rm_log s').
Proof.
  intros Hn HJ Hno Hin Hfs Hr. unfold load_checked in Hr.
  assert (Hw : safe J (fun _ => False) (WriteFile E name script 384)) by by apply safe_write, isolated_stable.
  apply r_bind_inv in Hr as [(e & E1 & _)|([] & s1 & E1 & Hr)].
  { destruct (run_safe _ _ _ _ _ _ Hw E1 HJ) as [_ (new & Hl & Hnew)]. destruct new; [|by inversion Hnew].
    rewrite Hl. by apply no_load_loaded. }
  destruct (run_safe _ _ _ _ _ _ Hw E1 HJ) as [HJ1 _]. apply WriteFile_ok in E1 as [Hh1 Hlog1].
  apply r_bind_inv in Hr as [(e & E2 & _)|(x & s2 & E2 & Hr)].
  { exfalso. unfold r_try in E2. by destruct (deleteNftIsolation E s1). }
  assert (Hd : safe (fun fs => J fs /\ holds fs name script) no_load (r_try (deleteNftIsolation E))) by apply safe_try, delete_no_load.
  destruct (run_safe _ _ _ _ _ _ Hd E2 (conj HJ1 Hh1)) as [[HJ2 Hh2] (new & Hl2 & Hnew)].
  apply command_ran in Hr as [Hl3 _]. intros after name' failed fs before Heq. rewrite Hl3 in Heq.
  destruct after as [|ev after]; simpl in Heq; injection Heq as H1 H2.
  - intros. subst. split; [done|]. split; [done|]. exists fs'. split; [|done]. rewrite Hl2, Hlog1. apply elem_of_app. by right.
  - exfalso. intros. rewrite Hl2, Hlog1 in H2. assert (Hall : Forall no_load (new ++ rm_log s)%list) by by apply Forall_app.
    rewrite H2 in Hall. apply Forall_app in Hall as [_ Hall]. by inversion Hall.
Qed.

Lemma temp_body_spec name s r s' :
  name <> path -> J (files s) -> Forall no_load (rm_log s) ->
  (r_io (write_file name script ;; close_file name) ;;;
   WriteFile E name (check_script E script) 384 ;;;
   command E (nft_check name) ;;; load_checked name) s = (r, s') ->
  loaded mode interfaces script (rm_log s').
Proof.
  intros Hn HJ Hno Hr.
  assert (Hw : safe J (fun _ => False) (r_io (write_file name script ;; close_file name))).
  { apply safe_io, keeps_bind; [apply keeps_write; by apply isolated_stable|intros _; apply keeps_pure]. }
  assert (Hc : safe J (fun _ => False) (WriteFile E name (check_script E script) 384)) by by apply safe_write, isolated_stable.
  assert (Hsilent : forall s0 s1, adds (fun _ => False) s0 s1 -> rm_log s1 = rm_log s0).
  { intros s0 s1 (new & -> & Hnew). destruct new; [done|by inversion Hnew]. }
  apply r_bind_inv in Hr as [(e & E1 & _)|([] & s1 & E1 & Hr)]; destruct (run_safe _ _ _ _ _ _ Hw E1 HJ) as [HJ1 Hl1%Hsilent];
    [rewrite Hl1; by apply no_load_loaded|].
  apply r_bind_inv in Hr as [(e & E2 & _)|([] & s2 & E2 & Hr)]; destruct (run_safe _ _ _ _ _ _ Hc E2 HJ1) as [HJ2 Hl2%Hsilent];
    [rewrite Hl2, Hl1; by apply no_load_loaded|].
  apply WriteFile_ok in E2 as [Hh2 _].
  apply r_bind_inv in Hr as [(e & E3 & _)|([] & s3 & E3 & Hr)]; apply command_ran in E3 as [Hl3 Hw3].
  { apply no_load_loaded. rewrite Hl3, Hl2, Hl1. by constructor. }
  apply (load_checked_spec name s3 r s' (files s2)); [done| | | |done|exact Hr].
  - unfold files. rewrite Hw3. exact HJ2.
  - rewrite Hl3, Hl2, Hl1. by constructor.
  - rewrite Hl3. left.
Qed.
Lemma apply_loaded s r s' :
  J (files s) -> Forall no_load (rm_log s) -> applyNftScript E config script s = (r, s') ->
  loaded mode interfaces script (rm_log s').
Proof.
  intros HJ Hno Hr. unfold applyNftScript, LookPath in Hr.
  apply r_bind_inv in Hr as [(e & [=] & _)|(nft & s1 & E1 & Hr)]. injection E1 as <- <-.
  set (s1 := mkMachine _ _ _) in Hr. assert (HJ1 : J (files s1)) by exact HJ. assert (Hno1 : Forall no_load (rm_log s1)) by exact Hno.
  destruct (bool_decide _); [injection Hr as <- <-; by apply no_load_loaded|].
  assert (Hp : safe J no_load (r_io (mkdir_all (dir path)))) by apply safe_io, keeps_pure.
  apply r_bind_inv in Hr as [(e & E2 & _)|([] & s2 & E2 & Hr)]; destruct (run_safe _ _ _ _ _ _ Hp E2 HJ1) as [HJ2 Ha2];
    pose proof (adds_no_load _ _ Ha2 Hno1) as Hno2; [by apply no_load_loaded|].
  assert (Ht : safe J no_load (r_io (CreateTemp (dir path) ".komari-nft-" ".conf"))).
  { apply safe_create. intros r0. by apply isolated_stable. }
  apply r_bind_inv in Hr as [(e & E3 & _)|(name & s3 & E3 & Hr)]; destruct (run_safe _ _ _ _ _ _ Ht E3 HJ2) as [HJ3 Ha3];
    pose proof (adds_no_load _ _ Ha3 Hno2) as Hno3; [by apply no_load_loaded|].
  apply CreateTemp_name in E3 as [suffix ->]. unfold r_removed in Hr.
  match type of Hr with (let '(_, _) := ?m s3 in _) = _ => destruct (m s3) as [r4 s4] eqn:E4 end.
  apply temp_body_spec in E4; [|done..]. injection Hr as <- <-.
  replace (rm_log (snd _)) with (rm_log s4); [done|]. unfold r_io. by destruct (remove _ _).
Qed.
End Loading.

(** An isolation is applied as it was checked: the rules given to the kernel
    are exactly the script of the action, after the same script under another
    table name passed the dry run, and when they are loaded the state file
    already names the isolation, so the panel is told of it and it can be
    restored. *)
Theorem isolation_is_checked_and_recorded mode interfaces script s :
  Forall (fun ev => is_apply ev = false) (rm_log s) ->
  loaded mode interfaces script (rm_log (snd (isolate E config mode interfaces script s))).
Proof.
  intros Hno. destruct (isolate E config mode interfaces script s) as [r s'] eqn:Hr. simpl.
  unfold isolate, waitForCommit, r_now in Hr.
  apply r_bind_inv in Hr as [(e & E1 & _)|([] & s1 & E1 & Hr)].
  { apply no_load_loaded. apply r_bind_inv in E1 as [(? & [=] & _)|(b & s2 & E2 & E1)].
    injection E2 as <- <-. unfold r_guard in E1. destruct (re_timer E _); [done|]. injection E1 as _ <-. exact Hno. }
  assert (Hno1 : Forall (fun ev => is_apply ev = false) (rm_log s1)).
  { apply r_bind_ok in E1 as (b & s2 & E2 & E1). injection E2 as <- <-. apply r_guard_ok in E1 as [_ ->]. exact Hno. }
  apply r_bind_inv in Hr as [(e & [=] & _)|(now & s2 & E2 & Hr)]. injection E2 as <- <-.
  set (s2 := mkMachine _ _ _) in Hr. assert (Hno2 : Forall (fun ev => is_apply ev = false) (rm_log s2)) by exact Hno1.
  set (st := mkIsolation _ _ _) in Hr. unfold r_bind at 1, r_wrap in Hr.
  destruct (saveIsolationState E config st s2) as [r3 s3] eqn:E3.
  assert (Hs : safe (fun _ => True) (fun _ => False) (saveIsolationState E config st)).
  { unfold saveIsolationState. destruct (json_marshal st); [|apply safe_err].
    apply safe_bind; [apply safe_io, keeps_pure|intros _; by apply safe_write]. }
  pose proof (silent_log _ _ _ _ Hs E3) as Hl3. destruct r3 as [[]|e].
  2: { injection Hr as <- <-. apply no_load_loaded. by rewrite Hl3. }
  assert (HJ3 : isolated (files s3) mode interfaces).
  { unfold saveIsolationState in E3. destruct (json_marshal st) as [data|] eqn:Hd; [|done].
    apply r_bind_ok in E3 as ([] & s4 & _ & E4). apply WriteFile_ok in E4 as [(f & Hf & Hdata) _].
    exists f, st. rewrite Hdata. split; [done|]. split; [|done]. by eapply json_roundtrip. }
  unfold r_bind, r_try in Hr. destruct (applyNftScript E config script s3) as [r4 s4] eqn:E4.
  rewrite <- Hl3 in Hno2. pose proof (apply_loaded mode interfaces script s3 r4 s4 HJ3 Hno2 E4) as Hload.
  destruct r4 as [[]|e]; [by injection Hr as <- <-|].
  destruct (r_io (remove path) s4) as [r5 s5] eqn:E5. injection Hr as <- <-.
  assert (rm_log s5 = rm_log s4) as -> by (unfold r_io in E5; destruct (remove _ _); by injection E5 as _ <-). done.
Qed.
End ActionTheorems.
