(* ===== verification/RescueWatch.v ===== *)
(** * The rescue gate ([rescue/host_authorization.go])

    The helper may act only while the panel keeps saying so: a signed revision
    every second on a stream, fresh, never replayed, approved, and not denied by
    the administrator's policy. [watchAuthorization] is one goroutine; each
    iteration of its loop is a step on the gate's state, driven by what the
    [select] delivers: a frame of the current stream, a change of the credentials
    file, a tick. Closing the gate closes the temporary SSH window. *)

From S2P Require Import Prelude.
From S2P Require Import GoStd.
From S2P Require Import Disk.
From S2P Require Import External.
From S2P Require Import Credentials.
From S2P Require Import Replay.
From S2P Require Import Signing.
From S2P Require Import HostOps.
From S2P Require Import HostService.
From S2P Require Import Session.
From S2P Require Import Renewal.
From S2P Require Import Rescue.
From S2P Require Import RescueSsh.

Local Open Scope string_scope.
Local Open Scope Z_scope.

(** ** Identity and authorization *)

Section Gate.
Context `{CR : Crypto} `{PT : ProtoTime} `{PE : ProtoEnums} `{SE : SessionEnums}.
Context `{WI : Wire SignedInstruction} `{JO : Json (option entries)} `{WR : Wire PrivilegedRevision}.
Context `{JI : Json Identity} `{JS : Json sshAccessState}.
Variable iter : entries -> list (string * time).
Variable trust : Trust.

(** [candidate] is what [ReadCandidate] returned: the daemon's credentials file. *)
Definition readHostIdentity (candidate : option bytes) : option Identity :=
  match candidate ≫= json_unmarshal with
  | None => None
  | Some id =>
      if negb (id_AgentID id =? tr_AgentID trust)%string || negb (id_Endpoint id =? tr_Endpoint trust)%string ||
         (id_AccessToken id =? "")%string then None
      else Some (Credentials.with_trust (tr_PanelKeys trust) [1] false 1 id)
  end.

(** A policy that could not be read denies. *)
Definition policy_allows (policy : option Policy) : bool :=
  match policy with
  | None => false
  | Some p => po_AllowRescueHelper p && negb (po_ForceDenyRescueHelper p) && po_HelperInstalled p && po_HelperAuthorized p
  end.
Definition rescue_enabled (r : PrivilegedRevision) : bool :=
  match pr_privileged r with Some p => get_bool (pc_rescue_helper p) | None => false end.
Definition rescueRevisionAllowed (r : PrivilegedRevision) : bool :=
  rescue_enabled r &&
  ((pr_state r =? DELIVERY_STATE_APPLYING) || (pr_state r =? DELIVERY_STATE_DELIVERED) || (pr_state r =? DELIVERY_STATE_AWAITING_AGENT)).

Inductive gate_err :=
| GatePolicy | GateCredentials | GateCall | GateRevision (e : host_err) | GateIdle
| GatePayload | GateTime | GateStale | GateStream | GateSilent.
(** One shot over a unary call; [answer] is the panel's, [None] a failure. *)
Definition checkAuthorization (policy : option Policy) (candidate : option bytes) (answer : option (option PrivilegedRevision)) (now : time)
    : result unit gate_err :=
  guard? policy_allows policy else GatePolicy in
  match readHostIdentity candidate with
  | None => Err GateCredentials
  | Some _ =>
      match answer with
      | None => Err GateCall
      | Some r =>
          match VerifySignedRevision iter trust now r with
          | Err e => Err (GateRevision e)
          | Ok r => guard? rescueRevisionAllowed r else GateIdle in Ok tt
          end
      end
  end.

(** ** Heartbeats *)

Definition authorizationSilence : duration := 10 * second.
Record heartbeatCursor := mkCursor { hc_issued : time; hc_sequence : Z }.
(** When the instruction inside a verified revision was issued. *)
Definition issued_at (r : PrivilegedRevision) : result time gate_err :=
  match pr_signature r ≫= (fun e => wire_unmarshal (env_payload e)) with
  | None => Err GatePayload
  | Some i => match si_issued_at i with
              | None => Err GateTime
              | Some t => if ts_check t then Ok (ts_time t) else Err GateTime
              end
  end.
(** [clock] is read by the verifier, [now] before. *)
Definition accept (c : heartbeatCursor) (r : option PrivilegedRevision) (clock now : time)
    : result (PrivilegedRevision * heartbeatCursor) gate_err :=
  match VerifySignedRevision iter trust clock r with
  | Err e => Err (GateRevision e)
  | Ok r =>
      try? issued := issued_at r in
      if (authorizationSilence <=? t_sub now issued) || after issued (t_add now second) || negb (after issued (hc_issued c)) ||
         (pr_update_sequence r <? hc_sequence c) then Err GateStale
      else Ok (r, mkCursor issued (pr_update_sequence r))
  end.

(** ** The watch *)

Record Gate := mkGate {
  g_authorized : bool;
  g_leaseReady : bool;
  g_machine : Machine;                (** where the SSH window lives *)
  g_changes : bool;                   (** the notifications of the credentials file still come *)
  g_token : string;                   (** [connectedToken] *)
  g_frames : bool;                    (** a stream is open *)
  g_cursor : heartbeatCursor;
  g_lastFrame : time; g_nextRetry : time; g_lastLocal : time; g_lastPublish : time; g_lastCredentialCheck : time;
  g_backoff : duration;
  g_published : list HelperStatus;    (** heartbeats written, latest first *)
}.
Definition initialBackoff : duration := 500 * millisecond.
Definition first_gate (changes : bool) (m : Machine) : Gate :=
  mkGate false false m changes "" false (mkCursor zero_time 0) zero_time zero_time zero_time zero_time zero_time initialBackoff [].

Context (E : Env).
Variable config : ActionConfig.

Definition deny (g : Gate) : Gate :=
  mkGate false false
    (if g_authorized g then snd (CloseTemporarySSHAccess E config (g_machine g)) else g_machine g)
    (g_changes g) (g_token g) (g_frames g) (g_cursor g) (g_lastFrame g) (g_nextRetry g) (g_lastLocal g) (g_lastPublish g)
    (g_lastCredentialCheck g) (g_backoff g) (g_published g).
Definition disconnect (now : time) (g : Gate) : Gate :=
  let g := deny g in
  mkGate (g_authorized g) (g_leaseReady g) (g_machine g) (g_changes g) (g_token g) false (g_cursor g) (g_lastFrame g)
    (t_add now (g_backoff g)) (g_lastLocal g) (g_lastPublish g) (g_lastCredentialCheck g)
    (Z.min (30 * second) (g_backoff g * 2)) (g_published g).
(** [now] is read only when the credentials are unavailable. *)
Definition handoff (now : time) (candidate : option bytes) (g : Gate) : Gate :=
  match readHostIdentity candidate with
  | None => disconnect now g
  | Some id =>
      if (id_AccessToken id =? g_token g)%string then g else
      mkGate (g_authorized g) (g_leaseReady g) (g_machine g) (g_changes g) (g_token g) false (g_cursor g) (g_lastFrame g)
        zero_time (g_lastLocal g) (g_lastPublish g) (g_lastCredentialCheck g) initialBackoff (g_published g)
  end.

Definition with_changes (b : bool) (g : Gate) : Gate :=
  mkGate (g_authorized g) (g_leaseReady g) (g_machine g) b (g_token g) (g_frames g) (g_cursor g) (g_lastFrame g)
    (g_nextRetry g) (g_lastLocal g) (g_lastPublish g) (g_lastCredentialCheck g) (g_backoff g) (g_published g).
Definition accepted (c : heartbeatCursor) (now : time) (g : Gate) : Gate :=
  mkGate (g_authorized g) (g_leaseReady g) (g_machine g) (g_changes g) (g_token g) (g_frames g) c
    (if before (hc_issued c) now then hc_issued c else now)
    (g_nextRetry g) (g_lastLocal g) (g_lastPublish g) (g_lastCredentialCheck g) (g_backoff g) (g_published g).
Definition open_gate (g : Gate) : Gate :=
  mkGate true true (g_machine g) (g_changes g) (g_token g) (g_frames g) (g_cursor g) (g_lastFrame g)
    (g_nextRetry g) (g_lastLocal g) (g_lastPublish g) (g_lastCredentialCheck g) initialBackoff (g_published g).
(** A frame of the stream; the policy is read last. *)
Definition on_frame (now clock : time) (r : option PrivilegedRevision) (policy : option Policy) (g : Gate) : Gate :=
  match accept (g_cursor g) r clock now with
  | Err _ => disconnect now g
  | Ok (r, c) =>
      let g := accepted c now g in
      if negb (rescueRevisionAllowed r) then deny g
      else if negb (policy_allows policy) then deny g else open_gate g
  end.

(** What a tick may read: the clock and the file at a hand-off, the file when it
    reconnects, the policy, and the process's identity for the heartbeat. *)
Record TickReads := mkReads {
  tk_handoff_now : time; tk_handoff : option bytes; tk_connect : option bytes; tk_policy : option Policy;
  tk_ticks : option Z; tk_executable : option string; tk_observed : time; tk_written : bool }.
Definition check_credentials (now : time) (i : TickReads) (g : Gate) : Gate :=
  if negb (g_changes g) && (5 * second <=? t_sub now (g_lastCredentialCheck g)) then
    handoff (tk_handoff_now i) (tk_handoff i)
      (mkGate (g_authorized g) (g_leaseReady g) (g_machine g) (g_changes g) (g_token g) (g_frames g) (g_cursor g) (g_lastFrame g)
        (g_nextRetry g) (g_lastLocal g) (g_lastPublish g) now (g_backoff g) (g_published g))
  else g.
(** [None]: the credentials are unavailable and the iteration is over. *)
Definition reconnect (now : time) (i : TickReads) (g : Gate) : option Gate :=
  if negb (g_frames g) && negb (before now (g_nextRetry g)) then
    match readHostIdentity (tk_connect i) with
    | None => None
    | Some id =>
        Some (mkGate (g_authorized g) (g_leaseReady g) (g_machine g) (g_changes g) (id_AccessToken id) true (g_cursor g)
          (if is_zero (g_lastFrame g) || negb (g_authorized g) then now else g_lastFrame g)
          (g_nextRetry g) (g_lastLocal g) (g_lastPublish g) (g_lastCredentialCheck g) (g_backoff g) (g_published g))
    end
  else Some g.
Definition check_silence (now : time) (g : Gate) : Gate :=
  if g_frames g && (authorizationSilence <=? t_sub now (g_lastFrame g)) then disconnect now g else g.
Definition check_policy (now : time) (i : TickReads) (g : Gate) : Gate :=
  if 500 * millisecond <=? t_sub now (g_lastLocal g) then
    let g := mkGate (g_authorized g) (g_leaseReady g) (g_machine g) (g_changes g) (g_token g) (g_frames g) (g_cursor g) (g_lastFrame g)
               (g_nextRetry g) now (g_lastPublish g) (g_lastCredentialCheck g) (g_backoff g) (g_published g) in
    if policy_allows (tk_policy i) then g else deny g
  else g.
Definition publishHostStatus (i : TickReads) (g : Gate) : option HelperStatus :=
  match tk_ticks i, tk_executable i with
  | Some ticks, Some executable =>
      if tk_written i then Some (mkHelperStatus (re_pid E) ticks executable (g_authorized g) (g_leaseReady g) (tk_observed i)) else None
  | _, _ => None
  end.
Definition publish_due (now : time) (i : TickReads) (g : Gate) : Gate :=
  if 2 * second <=? t_sub now (g_lastPublish g) then
    mkGate (g_authorized g) (g_leaseReady g) (g_machine g) (g_changes g) (g_token g) (g_frames g) (g_cursor g) (g_lastFrame g)
      (g_nextRetry g) (g_lastLocal g) now (g_lastCredentialCheck g) (g_backoff g)
      (match publishHostStatus i g with Some s => s :: g_published g | None => g_published g end)
  else g.
Definition on_tick (now : time) (i : TickReads) (g : Gate) : Gate :=
  let g := check_credentials now i g in
  match reconnect now i g with
  | None => disconnect now g
  | Some g => publish_due now i (check_policy now i (check_silence now g))
  end.

Inductive watch_event :=
| Changed (now : time) (candidate : option bytes)
| ChangesClosed
| StreamError (now : time)
| Frame (now clock : time) (r : option PrivilegedRevision) (policy : option Policy)
| Tick (now : time) (reads : TickReads).
(** A stream that was replaced delivers nothing any more. *)
Definition watch_step (g : Gate) (ev : watch_event) : Gate :=
  match ev with
  | Changed now candidate => handoff now candidate g
  | ChangesClosed => with_changes false g
  | StreamError now => if g_frames g then disconnect now g else g
  | Frame now clock r policy => if g_frames g then on_frame now clock r policy g else g
  | Tick now reads => on_tick now reads g
  end.
(** [watchAuthorization]: when the process stops the gate closes. *)
Definition watch (changes : bool) (m : Machine) (evs : list watch_event) : Gate :=
  fold_left watch_step evs (first_gate changes m).
Definition watchAuthorization (changes : bool) (m : Machine) (evs : list watch_event) : Gate := deny (watch changes m evs).

(** [receiveAuthorization]: the frames of one stream, from the panel's answers:
    every message must come with the header of the watch protocol. *)
Inductive stream_frame := FrameErr (e : gate_err) | FrameMsg (r : option PrivilegedRevision).
Fixpoint receiveAuthorization (messages : list (bool * option PrivilegedRevision)) : list stream_frame :=
  match messages with
  | [] => [FrameErr GateStream]
  | (header, r) :: messages => if header then FrameMsg r :: receiveAuthorization messages else [FrameErr GateCall]
  end.
End Gate.

(** ** Theorems *)

Section GateTheorems.
Context `{CR : Crypto} `{PT : ProtoTime} `{PE : ProtoEnums} `{SE : SessionEnums}.
Context `{WI : Wire SignedInstruction} `{JO : Json (option entries)} `{WR : Wire PrivilegedRevision}.
Context `{JI : Json Identity} `{JL : JsonLaws sshAccessState}.
Variable iter : entries -> list (string * time).
Variable trust : Trust.
Context (E : Env).
Variable config : ActionConfig.
Notation step := (watch_step iter trust E config).
Notation watch := (watch iter trust E config).

(** Every clock a run reads is after year one. *)
Definition clock_of (ev : watch_event) : time :=
  match ev with Changed now _ | StreamError now | Frame now _ _ _ | Tick now _ => now | ChangesClosed => 1 end.

(** The panel's word that holds the gate open: a frame the run received, signed by
    the panel, approving the helper, fresh when it arrived, at a moment when the
    administrator's policy allowed it; the silence is counted from then, or from
    when the panel signed it if that was earlier. *)
Record spoken (evs : list watch_event) (g : Gate) (now ti : time) (r : PrivilegedRevision) (policy : Policy) : Prop := {
  sp_received : exists clock r0, Frame now clock r0 (Some policy) ∈ evs /\ VerifySignedRevision iter trust clock r0 = Ok r;
  sp_allowed : rescueRevisionAllowed r = true;
  sp_policy : policy_allows (Some policy) = true;
  sp_issued : issued_at r = Ok ti;
  sp_fresh : t_sub now ti < authorizationSilence /\ ti <= now + second;
  sp_silence : g_lastFrame g = Z.min now ti /\ 0 < g_lastFrame g;
}.
Record gate_inv (evs : list watch_event) (g : Gate) : Prop := {
  gi_cursor : 0 <= hc_issued (g_cursor g);
  gi_stream : g_authorized g = true -> g_frames g = true \/ g_nextRetry g = zero_time;
  gi_spoken : g_authorized g = true -> exists now ti r policy, spoken evs g now ti r policy;
}.

Lemma spoken_more evs evs' g g' now ti r policy :
  g_lastFrame g' = g_lastFrame g -> spoken evs g now ti r policy -> spoken (evs ++ evs') g' now ti r policy.
Proof.
  intros Hl [(clock & r0 & Hin & Hv) Ha Hp Hi Hf Hs]. split; try done; [|by rewrite Hl].
  exists clock, r0. split; [apply elem_of_app; by left|done].
Qed.
Lemma inv_more evs evs' g : gate_inv evs g -> gate_inv (evs ++ evs') g.
Proof.
  intros [Hc Hs Hk]. split; [done..|]. intros Ha. destruct (Hk Ha) as (now & ti & r & policy & Hsp).
  exists now, ti, r, policy. by eapply spoken_more.
Qed.
(** A closed gate needs no justification. *)
Lemma inv_closed evs g : 0 <= hc_issued (g_cursor g) -> g_authorized g = false -> gate_inv evs g.
Proof. intros Hc Ha. split; [done| |]; intros Hau; congruence. Qed.
(** Bookkeeping that keeps the stream and the silence. *)
Lemma inv_same evs g g' :
  gate_inv evs g -> g_authorized g' = g_authorized g -> g_cursor g' = g_cursor g -> g_lastFrame g' = g_lastFrame g ->
  (g_authorized g = true -> g_frames g' = true \/ g_nextRetry g' = zero_time) -> gate_inv evs g'.
Proof.
  intros [Hc _ Hk] Ha Hcu Hl Hst. split; rewrite ?Ha, ?Hcu; [done..|]. intros Hau.
  destruct (Hk Hau) as (now & ti & r & policy & Hsp). exists now, ti, r, policy.
  rewrite <- (app_nil_r evs). by eapply spoken_more.
Qed.
Lemma inv_disconnect evs now g : gate_inv evs g -> gate_inv evs (disconnect E config now g).
Proof. intros [Hc _ _]. by apply inv_closed. Qed.
Lemma inv_deny evs g : gate_inv evs g -> gate_inv evs (deny E config g).
Proof. intros [Hc _ _]. by apply inv_closed. Qed.
Lemma inv_handoff evs now c g : gate_inv evs g -> gate_inv evs (handoff trust E config now c g).
Proof.
  intros Hi. unfold handoff. destruct (readHostIdentity trust c); [|by apply inv_disconnect].
  destruct (_ =? _)%string; [done|]. eapply inv_same; try done. by right.
Qed.

Lemma accept_ok c r0 clock now r c' :
  accept iter trust c r0 clock now = Ok (r, c') ->
  VerifySignedRevision iter trust clock r0 = Ok r /\ issued_at r = Ok (hc_issued c') /\
  t_sub now (hc_issued c') < authorizationSilence /\ hc_issued c' <= now + second /\
  hc_issued c < hc_issued c' /\ hc_sequence c <= hc_sequence c' /\ hc_sequence c' = pr_update_sequence r.
Proof.
  unfold accept. destruct (VerifySignedRevision _ _ _ _) as [r1|] eqn:Ev; [|done].
  destruct (issued_at r1) as [ti|] eqn:Ei; [|done]. destruct (_ || _) eqn:Eb; [done|]. intros [= <- <-]. simpl.
  unfold after, t_add in Eb. bool_hyps. split_and!; try done; lia.
Qed.
Lemma inv_frame evs now clock r policy g :
  0 < now -> g_frames g = true -> gate_inv evs g ->
  gate_inv (evs ++ [Frame now clock r policy]) (on_frame iter trust E config now clock r policy g).
Proof.
  intros Hnow Hf Hi. unfold on_frame. destruct (accept iter trust (g_cursor g) r clock now) as [[r1 c]|] eqn:Ea.
  2: { by apply inv_disconnect, inv_more. }
  apply accept_ok in Ea as (Hv & His & Hfresh & Hfut & Hlt & _). pose proof (gi_cursor _ _ Hi) as Hc.
  destruct (rescueRevisionAllowed r1) eqn:Hal; cbn [negb]; [|apply inv_closed; simpl; [lia|done]].
  destruct policy as [p|]; [|apply inv_closed; simpl; [lia|done]].
  destruct (policy_allows (Some p)) eqn:Hp; cbn [negb]; [|apply inv_closed; simpl; [lia|done]].
  split; simpl; [lia|by left|]. intros _. exists now, (hc_issued c), r1, p. split; try done.
  - exists clock, r. split; [apply elem_of_app; right; by left|done].
  - simpl. unfold before. destruct (Z.ltb_spec (hc_issued c) now); lia.
Qed.
Lemma inv_tick evs now i g : 0 < now -> gate_inv evs g -> gate_inv evs (on_tick trust E config now i g).
Proof.
  intros Hnow Hi. unfold on_tick.
  assert (H1 : gate_inv evs (check_credentials trust E config now i g)).
  { unfold check_credentials. destruct (_ && _); [|done]. apply inv_handoff. eapply inv_same; try done. apply Hi. }
  revert H1. generalize (check_credentials trust E config now i g). clear g Hi. intros g Hi.
  destruct (reconnect trust now i g) as [g1|] eqn:Er; [|by apply inv_disconnect].
  assert (H2 : gate_inv evs g1).
  { unfold reconnect in Er. destruct (_ && _); [|by injection Er as <-].
    destruct (readHostIdentity trust (tk_connect i)); [|done]. injection Er as <-.
    split; simpl; [apply Hi|by left|]. intros Ha. destruct (gi_spoken _ _ Hi Ha) as (t & ti & r & p & Hsp).
    exists t, ti, r, p. rewrite <- (app_nil_r evs). eapply spoken_more; [|exact Hsp]. simpl.
    rewrite Ha. simpl. destruct (sp_silence _ _ _ _ _ _ Hsp) as [_ Hpos]. unfold is_zero.
    by rewrite (proj2 (Z.eqb_neq _ _)) by lia. }
  assert (H3 : gate_inv evs (check_silence E config now g1)).
  { unfold check_silence. destruct (_ && _); [by apply inv_disconnect|done]. }
  assert (H4 : gate_inv evs (check_policy E config now i (check_silence E config now g1))).
  { unfold check_policy. destruct (_ <=? _); [|done]. destruct (policy_allows _).
    - eapply inv_same; try done. apply H3.
    - apply inv_deny. eapply inv_same; try done. apply H3. }
  unfold publish_due. destruct (_ <=? _); [|done]. eapply inv_same; try done. apply H4.
Qed.
Lemma inv_step evs ev g : 0 < clock_of ev -> gate_inv evs g -> gate_inv (evs ++ [ev]) (step g ev).
Proof.
  intros Hc Hi. destruct ev as [now c| |now|now clock r p|now i]; simpl in *.
  - by apply inv_handoff, inv_more.
  - apply inv_more. eapply inv_same; try done. apply Hi.
  - destruct (g_frames g); [by apply inv_disconnect, inv_more|by apply inv_more].
  - destruct (g_frames g) eqn:Hf; [by apply inv_frame|by apply inv_more].
  - by apply inv_tick, inv_more.
Qed.
Lemma watch_snoc changes m evs ev : watch changes m (evs ++ [ev]) = step (watch changes m evs) ev.
Proof. unfold RescueWatch.watch. by rewrite fold_left_app. Qed.
Lemma watch_inv changes m evs : Forall (fun ev => 0 < clock_of ev) evs -> gate_inv evs (watch changes m evs).
Proof.
  induction evs as [|ev evs IH] using rev_ind; intros Hc.
  - by apply inv_closed.
  - apply Forall_app in Hc as [Hc Hev]. rewrite watch_snoc. apply inv_step; [by inversion Hev|by apply IH].
Qed.

(** ** Freshness *)

Lemma t_sub_exact now t : t_sub now t < authorizationSilence -> now - t < authorizationSilence.
Proof. unfold t_sub, authorizationSilence, max_int64, min_int64, second. lia. Qed.
(** After a tick an open gate has a stream that was not silent for too long. *)
Lemma tick_fresh evs now i g :
  0 < now -> gate_inv evs g -> g_authorized (on_tick trust E config now i g) = true ->
  t_sub now (g_lastFrame (on_tick trust E config now i g)) < authorizationSilence.
Proof.
  intros Hnow Hi. unfold on_tick.
  assert (H1 : gate_inv evs (check_credentials trust E config now i g)).
  { unfold check_credentials. destruct (_ && _); [|done]. apply inv_handoff. eapply inv_same; try done. apply Hi. }
  revert H1. generalize (check_credentials trust E config now i g). clear g Hi. intros g Hi.
  destruct (reconnect trust now i g) as [g1|] eqn:Er; [|done].
  assert (Hstream : g_authorized g1 = true -> g_frames g1 = true).
  { unfold reconnect, before in Er. destruct (g_frames g) eqn:Ef; simpl in Er; [by injection Er as <-|].
    destruct (Z.ltb_spec now (g_nextRetry g)); simpl in Er.
    - injection Er as <-. intros Ha. destruct (gi_stream _ _ Hi Ha) as [?|Hz]; [done|]. rewrite Hz in *. unfold zero_time in *. lia.
    - destruct (readHostIdentity trust (tk_connect i)); [|done]. by injection Er as <-. }
  assert (Hp : forall g0, g_authorized (publish_due E now i (check_policy E config now i g0)) = true ->
    g_authorized g0 = true /\ g_lastFrame (publish_due E now i (check_policy E config now i g0)) = g_lastFrame g0).
  { intros g0. unfold publish_due, check_policy. destruct (_ <=? _); destruct (_ <=? _); try destruct (policy_allows _); done. }
  intros Ha. destruct (Hp _ Ha) as [Ha1 ->]. revert Ha1. unfold check_silence. destruct (g_frames g1) eqn:Ef; simpl.
  - destruct (Z.leb_spec authorizationSilence (t_sub now (g_lastFrame g1))); [done|]. done.
  - intros Ha1. specialize (Hstream Ha1). congruence.
Qed.

(** C4: the gate never stands open on stale words: whenever it is open after a
    tick, for any order of frames, ticks, file changes and stream errors before
    it, the run received a revision that the panel signed, that approves the
    helper, that the administrator's policy did not contradict, and that the panel
    issued less than ten seconds before this tick. *)
Theorem authorization_is_fresh changes m evs now reads :
  Forall (fun ev => 0 < clock_of ev) evs -> 0 < now ->
  g_authorized (watch changes m (evs ++ [Tick now reads])) = true ->
  exists clock t r0 ti r policy,
    Frame t clock r0 (Some policy) ∈ evs /\ VerifySignedRevision iter trust clock r0 = Ok r /\
    rescueRevisionAllowed r = true /\ policy_allows (Some policy) = true /\
    issued_at r = Ok ti /\ now - ti < authorizationSilence.
Proof.
  intros Hc Hnow Ha. rewrite watch_snoc in *. simpl in *. pose proof (watch_inv changes m evs Hc) as Hi.
  pose proof (t_sub_exact _ _ (tick_fresh evs now reads _ Hnow Hi Ha)) as Hfresh.
  destruct (gi_spoken _ _ (inv_tick evs now reads _ Hnow Hi) Ha) as (t & ti & r & policy & [(clock & r0 & Hin & Hv) Hal Hp His _ [Hl _]]).
  exists clock, t, r0, ti, r, policy. split_and!; try done. lia.
Qed.

(** ** Withdrawal *)

(** Every step that closes the gate closes the SSH window with it. *)
Lemma deny_machine g : g_machine (deny E config g) = if g_authorized g then snd (CloseTemporarySSHAccess E config (g_machine g)) else g_machine g.
Proof. done. Qed.
Definition follows (g g' : Gate) : Prop :=
  g_machine g' = if g_authorized g && negb (g_authorized g') then snd (CloseTemporarySSHAccess E config (g_machine g)) else g_machine g.
(** [quietly]: the gate is not opened on the way. *)
Definition quietly (g g' : Gate) : Prop := follows g g' /\ (g_authorized g' = true -> g_authorized g = true).
Lemma quietly_refl g g' : g_machine g' = g_machine g -> g_authorized g' = g_authorized g -> quietly g g'.
Proof. intros Hm Ha. split; [|by rewrite Ha]. unfold follows. rewrite Hm, Ha. by destruct (g_authorized g). Qed.
Lemma quietly_trans g1 g2 g3 : quietly g1 g2 -> quietly g2 g3 -> quietly g1 g3.
Proof.
  unfold quietly, follows. intros [H1 Ha1] [H2 Ha2]. rewrite H1 in H2. clear H1.
  destruct (g_authorized g1), (g_authorized g2), (g_authorized g3); simpl in *; naive_solver.
Qed.
Lemma quietly_deny g : quietly g (deny E config g).
Proof. split; [|done]. unfold follows. simpl. by destruct (g_authorized g). Qed.
Lemma quietly_disconnect now g : quietly g (disconnect E config now g).
Proof. eapply quietly_trans; [apply quietly_deny|by apply quietly_refl]. Qed.
Lemma quietly_handoff now c g : quietly g (handoff trust E config now c g).
Proof.
  unfold handoff. destruct (readHostIdentity trust c); [|apply quietly_disconnect].
  destruct (_ =? _)%string; by apply quietly_refl.
Qed.
Lemma quietly_tick now i g : quietly g (on_tick trust E config now i g).
Proof.
  unfold on_tick. apply (quietly_trans _ (check_credentials trust E config now i g)).
  { unfold check_credentials. destruct (_ && _); [|by apply quietly_refl].
    eapply quietly_trans; [|apply quietly_handoff]. by apply quietly_refl. }
  generalize (check_credentials trust E config now i g). clear g. intros g.
  destruct (reconnect trust now i g) as [g1|] eqn:Er; [|apply quietly_disconnect].
  assert (H1 : quietly g g1).
  { unfold reconnect in Er. destruct (_ && _); [|injection Er as <-; by apply quietly_refl].
    destruct (readHostIdentity trust (tk_connect i)); [|done]. injection Er as <-. by apply quietly_refl. }
  assert (H2 : quietly g1 (check_silence E config now g1)).
  { unfold check_silence. destruct (_ && _); [apply quietly_disconnect|by apply quietly_refl]. }
  assert (H3 : forall g2, quietly g2 (check_policy E config now i g2)).
  { intros g2. unfold check_policy. destruct (_ <=? _); [|by apply quietly_refl].
    destruct (policy_allows _); [by apply quietly_refl|]. eapply quietly_trans; [|apply quietly_deny]. by apply quietly_refl. }
  assert (H4 : forall g2, quietly g2 (publish_due E now i g2)).
  { intros g2. unfold publish_due. destruct (_ <=? _); by apply quietly_refl. }
  eauto using quietly_trans.
Qed.
Lemma step_follows g ev : follows g (step g ev).
Proof.
  assert (Hsame : follows g g) by by apply (quietly_refl g g).
  destruct ev as [now c| |now|now clock r p|now i]; simpl.
  - apply quietly_handoff.
  - by apply (quietly_refl g).
  - destruct (g_frames g); [apply quietly_disconnect|done].
  - destruct (g_frames g); [|done]. unfold on_frame. destruct (accept _ _ _ _ _ _) as [[r1 c]|]; [|apply quietly_disconnect].
    assert (Hd : follows g (deny E config (accepted c now g))).
    { eapply (quietly_trans _ (accepted c now g)); [by apply quietly_refl|apply quietly_deny]. }
    destruct (rescueRevisionAllowed r1); cbn [negb]; [|done]. destruct (policy_allows p); cbn [negb]; [|done].
    unfold follows. simpl. by rewrite andb_false_r.
  - apply quietly_tick.
Qed.


(** ** Replays *)

Lemma cursor_disconnect now g : g_cursor (disconnect E config now g) = g_cursor g.
Proof. done. Qed.
Lemma cursor_handoff now c g : g_cursor (handoff trust E config now c g) = g_cursor g.
Proof. unfold handoff. destruct (readHostIdentity trust c); [|done]. by destruct (_ =? _)%string. Qed.
Lemma cursor_tick now i g : g_cursor (on_tick trust E config now i g) = g_cursor g.
Proof.
  unfold on_tick. assert (H1 : g_cursor (check_credentials trust E config now i g) = g_cursor g).
  { unfold check_credentials. destruct (_ && _); [by rewrite cursor_handoff|done]. }
  rewrite <- H1. generalize (check_credentials trust E config now i g). clear g H1. intros g.
  destruct (reconnect trust now i g) as [g1|] eqn:Er; [|done].
  assert (g_cursor g1 = g_cursor g) as <-.
  { unfold reconnect in Er. destruct (_ && _); [|by injection Er as <-].
    destruct (readHostIdentity trust (tk_connect i)); [|done]. by injection Er as <-. }
  unfold publish_due, check_policy, check_silence.
  repeat match goal with |- context [if ?b then _ else _] => destruct b end; done.
Qed.
Lemma cursor_step g ev : hc_issued (g_cursor g) <= hc_issued (g_cursor (step g ev)).
Proof.
  destruct ev as [now c| |now|now clock r p|now i]; simpl.
  - by rewrite cursor_handoff.
  - done.
  - by destruct (g_frames g).
  - destruct (g_frames g); [|done]. unfold on_frame. destruct (accept _ _ _ _ _ _) as [[r1 c]|] eqn:Ea; [|done].
    apply accept_ok in Ea as (_ & _ & _ & _ & Hlt & _).
    destruct (rescueRevisionAllowed r1), (policy_allows p); simpl; lia.
  - by rewrite cursor_tick.
Qed.
Lemma cursor_steps evs g : hc_issued (g_cursor g) <= hc_issued (g_cursor (fold_left step evs g)).
Proof.
  revert g. induction evs as [|ev evs IH]; intros g; simpl; [done|]. etrans; [apply (cursor_step g ev)|apply IH].
Qed.

(** No heartbeat counts twice: once a frame has been accepted, a frame issued
    no later than it (the same one replayed, or an older one, even across
    reconnections) closes the gate instead of keeping it open. *)
Theorem replayed_heartbeat_closes_gate g now clock r0 r c policy evs now2 clock2 r0' policy2 :
  g_frames g = true -> accept iter trust (g_cursor g) r0 clock now = Ok (r, c) ->
  (forall r', VerifySignedRevision iter trust clock2 r0' = Ok r' -> exists ti, issued_at r' = Ok ti /\ ti <= hc_issued c) ->
  g_frames (fold_left step evs (step g (Frame now clock r0 policy))) = true ->
  g_authorized (step (fold_left step evs (step g (Frame now clock r0 policy))) (Frame now2 clock2 r0' policy2)) = false.
Proof.
  intros Hf Ha Hold. set (g1 := step g _). intros Hf2.
  assert (Hc1 : hc_issued (g_cursor g1) = hc_issued c).
  { unfold g1. simpl. rewrite Hf. unfold on_frame. rewrite Ha.
    by destruct (rescueRevisionAllowed r), (policy_allows policy). }
  pose proof (cursor_steps evs g1) as Hle. simpl. rewrite Hf2. unfold on_frame.
  destruct (accept iter trust _ r0' clock2 now2) as [[r' c']|] eqn:Ea; [|done].
  apply accept_ok in Ea as (Hv & His & _ & _ & Hlt & _). destruct (Hold r' Hv) as (ti & Hti & Hle2).
  rewrite His in Hti. injection Hti as <-. lia.
Qed.
End GateTheorems.
