(* ===== verification/RescueHelper.v ===== *)
(** * The rescue helper ([rescue/helper.go])

    What the helper is started with, how it verifies an assignment, how long it
    may take, what it reports, and the loop that leases one assignment after the
    other. *)

From S2P Require Import Prelude.
From S2P Require Import GoStd.
From S2P Require Import GoPath.
From S2P Require Import Disk.
From S2P Require Import External.
From S2P Require Import Credentials.
From S2P Require Import Replay.
From S2P Require Import Signing.
From S2P Require Import HostOps.
From S2P Require Import Enrollment.
From S2P Require Import Session.
From S2P Require Import Renewal.
From S2P Require Import Rescue.
From S2P Require Import RescueSsh.
From S2P Require Import RescueActions.
From S2P Require Import RescueWatch.

Local Open Scope string_scope.
Local Open Scope Z_scope.

Definition requestTimeout : duration := 30 * second.
Definition leaseTimeout : duration := 29 * minute.
Definition reconnectDelay : duration := 5 * second.
Definition maximumEventOutput : Z := 64 * 1024.
Definition instanceFileMode : Z := 384.    (* 0o600 *)

(** ** Messages *)

Inductive OperationState :=
| OPERATION_STATE_SUCCEEDED | OPERATION_STATE_FAILED | OPERATION_STATE_CANCELLED | OPERATION_STATE_DEADLINE_EXCEEDED
| OPERATION_STATE_CANCEL_REQUESTED | OperationState_other (n : Z).
#[export] Instance OperationState_eq : EqDecision OperationState.
Proof. solve_decision. Defined.
Record RescueSession := mkRescueSession {
  ss_SessionId : string; ss_Action : RescueAction; ss_Arguments : list string; ss_SshPort : Z;
  ss_DeadlineAt : option Timestamp; ss_State : OperationState }.
Record RescueAssignment := mkRescueAssignment {
  ra_AssignmentId : string; ra_Session : option RescueSession; ra_LeaseExpiresAt : option Timestamp;
  ra_Envelope : option SignedEnvelope }.
Record RescueEvent := mkRescueEvent {
  rv_SessionId : string; rv_Sequence : Z; rv_State : OperationState; rv_Output : string;
  rv_Error : option (string * string); rv_Diagnostics : option bytes; rv_SshAccess : option TemporarySSHAccess }.
Record RescueHelperStatus := mkRescueStatus {
  rt_Version : string; rt_HelperInstanceId : string; rt_NetworkIsolation : NetworkIsolationMode;
  rt_BlockedInterfaces : list string; rt_Error : option (string * string) }.

(** ** Texts *)

Definition truncateError (value : string) : string :=
  let value := trim_space value in if 512 <? slen value then String.substring 0 512 value else value.
Definition ends_with_newline (s : string) : bool := match last (chars s) with Some a => Nat.eqb (code a) 10 | None => false end.
Definition finalOutput (result : ActionResult) (state : OperationState) : string :=
  if bool_decide (state = OPERATION_STATE_CANCELLED) || bool_decide (state = OPERATION_STATE_DEADLINE_EXCEEDED) then "" else
  let output := ar_Stdout result in
  let output :=
    if 0 <? slen (ar_Stderr result) then
      (if (0 <? slen output) && negb (ends_with_newline output) then output ++ nl else output) ++
      "[stderr]" ++ nl ++ ar_Stderr result
    else output in
  limitBytes output maximumEventOutput.

Section Endpoint.
Variable parse_address : string -> option Address.
Inductive helper_err :=
| HelperRead (e : host_err) | HelperCandidate | HelperDecode | HelperMismatch
| HelperEndpoint | HelperScheme | HelperToken | HelperAccess | HelperInstance (e : io_err) | HelperBadInstance.
(** The helper keeps the text it was given. *)
Definition normalizeHelperEndpoint (endpoint : string) : result string helper_err :=
  let value := of_chars (trim_slashes (chars (trim_space endpoint))) in
  match parse_address value with
  | None => Err HelperEndpoint
  | Some u =>
      if (ad_Scheme u =? "")%string || (ad_Host u =? "")%string then Err HelperEndpoint else
      if negb (ad_Scheme u =? "http")%string && negb (ad_Scheme u =? "https")%string then Err HelperScheme else Ok value
  end.
End Endpoint.

(** ** The identifier of this instance *)

Definition atomicWrite (path data : string) (mode : Z) : IO unit :=
  replace_file (dir path) ".komari-rescue-" data mode (fun name => rename name path).
(** [fresh] is the identifier [uuid.NewString] draws. *)
Definition loadOrCreateInstanceID (uuid_ok : string -> bool) (fresh path : string) (w : World) : result string helper_err * World :=
  match read_file path w with
  | (Ok data, w) =>
      let value := trim_space data in if uuid_ok value then (Ok value, w) else (Err HelperBadInstance, w)
  | (Err NotExist, w) =>
      match (mkdir_all (dir path) ;; atomicWrite path (fresh ++ nl) instanceFileMode) w with
      | (Ok _, w) => (Ok fresh, w)
      | (Err e, w) => (Err (HelperInstance e), w)
      end
  | (Err e, w) => (Err (HelperInstance e), w)
  end.

(** ** Starting *)

Record Config := mkConfig {
  hf_HostManifest : string; hf_Endpoint : string; hf_Token : string; hf_AgentID : string; hf_InstanceIDPath : string;
  hf_Version : string; hf_IgnoreUnsafeCert : bool; hf_CFAccessClientID : string; hf_CFAccessClientSecret : string;
  hf_CredentialsFile : string; hf_ReplayFile : string; hf_Action : ActionConfig }.
Record Helper := mkHelper {
  hp_manifest : option Manifest; hp_hostTrust : option Trust; hp_credentialsPath : string; hp_baseURL : string;
  hp_ignoreUnsafeCert : bool; hp_token : string; hp_agentID : string; hp_instanceID : string; hp_version : string;
  hp_cfAccessClientID : string; hp_cfAccessClientSecret : string; hp_action : ActionConfig;
  hp_credStore : option Credentials.Store; hp_identity : Identity; hp_replayGuard : ReplayGuard }.

Section New.
Context `{JI : Json Identity} `{SM : StrictJson Manifest} `{ST : StrictJson Trust} `{SA : StrictJson AccessConfig}.
Variable lstat : string -> option Stat.
Variable is_regular : string -> bool.
Variable parse_url : string -> option Url.
Variable parse_address : string -> option Address.
Variable uuid_ok : string -> bool.
(** [DefaultPath], [DefaultReplayPath], and [os.UserConfigDir]. *)
Variables default_credentials default_replay : string.
Variable user_config : option string.

Definition DefaultInstanceIDPath : string :=
  match user_config with
  | Some directory => if blank directory then ".komari-rescue-instance" else join_path [directory; "komari-agent"; "rescue-instance"]
  | None => ".komari-rescue-instance"
  end.

Definition with_identity_of (id : Identity) (c : Config) : Config :=
  mkConfig (hf_HostManifest c) (if (id_Endpoint id =? "")%string then hf_Endpoint c else id_Endpoint id) (id_AccessToken id)
    (if (id_AgentID id =? "")%string then hf_AgentID c else id_AgentID id) (hf_InstanceIDPath c) (hf_Version c)
    (hf_IgnoreUnsafeCert c) (hf_CFAccessClientID c) (hf_CFAccessClientSecret c) (hf_CredentialsFile c) (hf_ReplayFile c) (hf_Action c).
Definition with_token (token : string) (c : Config) : Config :=
  mkConfig (hf_HostManifest c) (hf_Endpoint c) token (hf_AgentID c) (hf_InstanceIDPath c) (hf_Version c)
    (hf_IgnoreUnsafeCert c) (hf_CFAccessClientID c) (hf_CFAccessClientSecret c) (hf_CredentialsFile c) (hf_ReplayFile c) (hf_Action c).
Definition pinned_config (t : Trust) (id secret : string) (c : Config) : Config :=
  mkConfig (hf_HostManifest c) (tr_Endpoint t) (hf_Token c) (tr_AgentID t) (hf_InstanceIDPath c) (hf_Version c)
    false id secret (hf_CredentialsFile c) (hf_ReplayFile c) (hf_Action c).

(** The credentials: the daemon's file on a managed host, the store otherwise.
    [candidate] is what [ReadCandidate] returned. *)
Definition helper_identity (candidate : option bytes) (c : Config) (w : World)
    : result (option Credentials.Store * Identity * Config) helper_err * World :=
  if negb (hf_HostManifest c =? "")%string then
    (match candidate with
     | None => Err HelperCandidate
     | Some data => match json_unmarshal data with
                    | None => Err HelperDecode
                    | Some id => Ok (None, id, with_token (id_AccessToken id) c)
                    end
     end, w)
  else
    match Credentials.Open default_credentials (hf_CredentialsFile c) w with
    | (Err _, w) => (Ok (None, no_identity, c), w)
    | (Ok store, w) =>
        (Ok (match st_identity store with
             | Some id => if (id_AccessToken id =? "")%string then (Some store, no_identity, c)
                          else (Some store, id, with_identity_of id c)
             | None => (Some store, no_identity, c)
             end), w)
    end.
(** The root-pinned identity of a managed host. *)
Definition pin_host (identity : Identity) (c : Config) (w : World)
    : result (option Manifest * option Trust * Identity * Config) helper_err * World :=
  if (hf_HostManifest c =? "")%string then (Ok (None, None, identity, c), w) else
  match ReadManifest lstat is_regular (hf_HostManifest c) w with
  | (Err e, w) => (Err (HelperRead e), w)
  | (Ok m, w) =>
      match ReadTrust lstat is_regular parse_url m w with
      | (Err e, w) => (Err (HelperRead e), w)
      | (Ok t, w) =>
          if negb (id_AgentID identity =? tr_AgentID t)%string || negb (id_Endpoint identity =? tr_Endpoint t)%string ||
             negb (hf_CredentialsFile c =? mf_CredentialsFile m)%string then (Err HelperMismatch, w) else
          let identity := Credentials.with_trust (tr_PanelKeys t) [1] false 1 identity in
          let pinned id secret := Ok (Some m, Some t, identity, pinned_config t id secret c) in
          if (tr_AccessConfigFile t =? "")%string then (pinned (hf_CFAccessClientID c) (hf_CFAccessClientSecret c), w) else
          match ReadAccess lstat is_regular t w with
          | (Err e, w) => (Err (HelperRead e), w)
          | (Ok a, w) => (pinned (acc_ClientID a) (acc_ClientSecret a), w)
          end
      end
  end.
Definition New (candidate : option bytes) (fresh : string) (c : Config) (w : World) : result Helper helper_err * World :=
  match helper_identity candidate c w with
  | (Err e, w) => (Err e, w)
  | (Ok (store, identity, c), w) =>
      match pin_host identity c w with
      | (Err e, w) => (Err e, w)
      | (Ok (manifest, trust, identity, c), w) =>
          match normalizeHelperEndpoint parse_address (hf_Endpoint c) with
          | Err e => (Err e, w)
          | Ok baseURL =>
              if blank (hf_Token c) then (Err HelperToken, w) else
              if xorb (blank (hf_CFAccessClientID c)) (blank (hf_CFAccessClientSecret c)) then (Err HelperAccess, w) else
              let instancePath := if blank (hf_InstanceIDPath c) then DefaultInstanceIDPath else trim_space (hf_InstanceIDPath c) in
              match loadOrCreateInstanceID uuid_ok fresh instancePath w with
              | (Err e, w) => (Err e, w)
              | (Ok instanceID, w) =>
                  (Ok (mkHelper manifest trust (hf_CredentialsFile c) baseURL (hf_IgnoreUnsafeCert c) (trim_space (hf_Token c))
                         (trim_space (hf_AgentID c)) instanceID (hf_Version c) (trim_space (hf_CFAccessClientID c))
                         (trim_space (hf_CFAccessClientSecret c)) (hf_Action c) store identity
                         (NewReplayGuard default_replay (hf_ReplayFile c))), w)
              end
          end
      end
  end.
End New.

(** ** Assignments *)

Inductive verify_err := VrNil | VrNoEnvelope | VrNoKeys | VrSignature (e : sign_err) | VrType | VrBody | VrSessionID | VrAction | VrPort.
Inductive exec_err :=
| ExWithdrawn | ExVerify (e : verify_err) | ExPayload | ExReport | ExAcknowledged (n : Z) | ExWithdrawnCommit | ExCommit (e : rescue_err).
Definition rescue_kind : string := "rescue:v1".

(** The helper at work: its firewall and files, the deadline of the operation it
    is in, what it reported (and whether the panel acknowledged it), what it
    committed after the report, the leases it asked for. *)
Record Running := mkRunning {
  rn_helper : Helper; rn_machine : Machine; rn_deadline : option time;
  rn_events : list (RescueEvent * bool); rn_commits : list RescueAction; rn_leases : list string;
  rn_statuses : list RescueHelperStatus }.
Definition on_machine (m : Machine) (s : Running) : Running :=
  mkRunning (rn_helper s) m (rn_deadline s) (rn_events s) (rn_commits s) (rn_leases s) (rn_statuses s).
Definition with_keys (id : Identity) (h : Helper) : Helper :=
  mkHelper (hp_manifest h) (hp_hostTrust h) (hp_credentialsPath h) (hp_baseURL h) (hp_ignoreUnsafeCert h) (hp_token h) (hp_agentID h)
    (hp_instanceID h) (hp_version h) (hp_cfAccessClientID h) (hp_cfAccessClientSecret h) (hp_action h) (hp_credStore h) id (hp_replayGuard h).
Definition with_guard (g : ReplayGuard) (h : Helper) : Helper :=
  mkHelper (hp_manifest h) (hp_hostTrust h) (hp_credentialsPath h) (hp_baseURL h) (hp_ignoreUnsafeCert h) (hp_token h) (hp_agentID h)
    (hp_instanceID h) (hp_version h) (hp_cfAccessClientID h) (hp_cfAccessClientSecret h) (hp_action h) (hp_credStore h) (hp_identity h) g.
Definition on_helper (h : Helper) (s : Running) : Running :=
  mkRunning h (rn_machine s) (rn_deadline s) (rn_events s) (rn_commits s) (rn_leases s) (rn_statuses s).
Definition on_files (w : World) (m : Machine) : Machine := mkMachine w (rm_tick m) (rm_log m).

Section Assignments.
Context `{CR : Crypto} `{PT : ProtoTime} `{WI : Wire SignedInstruction} `{JO : Json (option entries)} `{WS : Wire RescueSession}.
Variable iter : entries -> list (string * time).

(** The pinned identity, or the store's when the helper has no keys. *)
Definition signing_identity (h : Helper) : Helper * Identity :=
  match id_ControlPlaneKeys (hp_identity h), hp_credStore h ≫= st_identity with
  | [], Some id => if Nat.eqb (length (id_ControlPlaneKeys id)) 0 then (h, hp_identity h) else (with_keys id h, id)
  | _, _ => (h, hp_identity h)
  end.
Definition named (agent : string) (i : Identity) : Identity :=
  if (id_AgentID i =? "")%string
  then mkIdentity (id_Endpoint i) agent (id_PrivateKey i) (id_PublicKey i) (id_KeyID i) (id_Generation i) (id_PendingRefresh i)
         (id_AccessToken i) (id_AccessTokenExpiresAt i) (id_RefreshToken i) (id_RefreshTokenExpiresAt i) (id_Scopes i)
         (id_ControlPlaneKeys i) (id_PolicyAlgorithms i) (id_PolicyRequireAll i) (id_PolicyMinimumSignatures i) (id_EnrolledAt i) (id_UpdatedAt i)
  else i.
(** The unsigned copy beside the envelope may not contradict the signed one. *)
Definition outer_matches (outer : option RescueSession) (signed : RescueSession) : result unit verify_err :=
  match outer with
  | None => Ok tt
  | Some o =>
      guard? (ss_SessionId o =? "")%string || (ss_SessionId o =? ss_SessionId signed)%string else VrSessionID in
      guard? bool_decide (ss_Action o = ss_Action signed) else VrAction in
      guard? (ss_SshPort o =? ss_SshPort signed) else VrPort in
      Ok tt
  end.
Definition verifyRescueAssignment (now wall : time) (a : option RescueAssignment) (s : Running) : result RescueSession verify_err * Running :=
  match a with
  | None => (Err VrNil, s)
  | Some a =>
      match ra_Envelope a with
      | None => (Err VrNoEnvelope, s)
      | Some _ =>
          let '(h, identity) := signing_identity (rn_helper s) in
          let s := on_helper h s in
          if Nat.eqb (length (id_ControlPlaneKeys identity)) 0 then (Err VrNoKeys, s) else
          let verifier := Signing.New (named (hp_agentID h) identity) (Some (hp_replayGuard h)) in
          match Verify iter verifier now wall (ra_Envelope a) (rm_world (rn_machine s)) with
          | (out, g, w) =>
              let s := on_machine (on_files w (rn_machine s)) (on_helper (with_guard (default (hp_replayGuard h) g) h) s) in
              (match out with
               | Err e => Err (VrSignature e)
               | Ok i =>
                   if negb (in_InstructionType i =? rescue_kind)%string then Err VrType else
                   match wire_unmarshal (in_Body i) with
                   | None => Err VrBody
                   | Some signed => try? _ := outer_matches (ra_Session a) signed in Ok signed
                   end
               end, s)
          end
      end
  end.

(** The token of a request: on a managed host the one of the daemon's file now. *)
Definition authorize `{JI : Json Identity} (candidate : option bytes) (h : Helper) : string :=
  match hp_hostTrust h with
  | None => hp_token h
  | Some t => match readHostIdentity t candidate with Some id => id_AccessToken id | None => "" end
  end.
(** Does the second lease of a running assignment cancel it? *)
Definition watchCancellation (assignmentID : string) (leased : option RescueAssignment) : bool :=
  match leased with
  | Some a => match ra_Session a with
              | Some session => (ra_AssignmentId a =? assignmentID)%string && bool_decide (ss_State session = OPERATION_STATE_CANCEL_REQUESTED)
              | None => false
              end
  | None => false
  end.

(** How long the operation may take: what the lease says (two minutes if it says
    nothing), shortened by the session's deadline and by the instruction's. *)
Definition earlier (deadline : time) (t : option time) : time :=
  match t with Some t => if before t deadline then t else deadline | None => deadline end.
Definition valid_time (t : option Timestamp) : option time := if is_valid t then Some (as_time t) else None.
Definition operation_deadline (now : time) (lease : option Timestamp) (session : RescueSession) (i : SignedInstruction) : time :=
  let deadline := default (deadlineForAssignment now zero_time) (valid_time lease) in
  let deadline := earlier deadline (valid_time (ss_DeadlineAt session)) in
  earlier deadline (match si_expires_at i with Some t => Some (ts_time t) | None => None end).

Context (E : Env) `{JI : Json isolationState} `{JS : Json sshAccessState}.
Variable decode_routes : bytes -> option (list string).
Variable parse_control : string -> option ControlURL.
Variable lookup_ip : nat -> string -> option (list IP).
Variable collect_diagnostics : nat -> bool -> bool -> option bytes.
Variable error_text : rescue_err -> string.

(** What one operation meets: the gate at the start and before the commit, the
    clocks, whether the panel cancelled it or its deadline passed while it ran,
    the panel's answer to the report (the sequence it acknowledges). *)
Record Operation := mkOperation {
  op_authorized : bool; op_now : time; op_verify : time; op_wall : time; op_cancelled : bool; op_exceeded : bool;
  op_answer : option Z; op_authorizedCommit : bool }.
Definition outcome_state (op : Operation) (r : result ActionResult rescue_err) : OperationState * option (string * string) :=
  if op_cancelled op then (OPERATION_STATE_CANCELLED, Some ("CANCELLED", "rescue operation was cancelled by the server"))
  else if op_exceeded op then (OPERATION_STATE_DEADLINE_EXCEEDED, Some ("DEADLINE_EXCEEDED", "rescue operation exceeded its deadline"))
  else match r with
       | Ok _ => (OPERATION_STATE_SUCCEEDED, None)
       | Err e => (OPERATION_STATE_FAILED, Some ("ACTION_FAILED", truncateError (error_text e)))
       end.
Definition no_result : ActionResult := mkResult "" "" None None None.
Definition reportEvent (answer : option Z) (ev : RescueEvent) (s : Running) : result unit exec_err * Running :=
  let told ok := mkRunning (rn_helper s) (rn_machine s) (rn_deadline s) ((ev, ok) :: rn_events s) (rn_commits s) (rn_leases s) (rn_statuses s) in
  match answer with
  | None => (Err ExReport, told false)
  | Some n => if n <? rv_Sequence ev then (Err (ExAcknowledged n), told false) else (Ok tt, told true)
  end.
Definition managed (s : Running) : bool := bool_decide (is_Some (hp_hostTrust (rn_helper s))).
Definition commit (action : RescueAction) (k : RM unit) (s : Running) : result unit exec_err * Running :=
  let '(r, m) := k (rn_machine s) in
  (match r with Ok _ => Ok tt | Err e => Err (ExCommit e) end,
   mkRunning (rn_helper s) m (rn_deadline s) (rn_events s) (action :: rn_commits s) (rn_leases s) (rn_statuses s)).
Definition perform_session (op : Operation) (deadline : time) (session : RescueSession) (s : Running) : result unit exec_err * Running :=
  let '(r, m) := ExecuteAction E (hp_action (rn_helper s)) decode_routes parse_control lookup_ip collect_diagnostics
                   (ss_Action session) (ss_Arguments session) (ss_SshPort session) (rn_machine s) in
  let s := mkRunning (rn_helper s) m (Some deadline) (rn_events s) (rn_commits s) (rn_leases s) (rn_statuses s) in
  let result := match r with Ok a => a | Err _ => no_result end in
  let '(state, detail) := outcome_state op r in
  let succeeded := bool_decide (state = OPERATION_STATE_SUCCEEDED) in
  let ev := mkRescueEvent (ss_SessionId session) 1 state (finalOutput result state) detail
              (if succeeded then ar_Diagnostics result else None) (if succeeded then ar_SSHAccess result else None) in
  match reportEvent (op_answer op) ev s with
  | (Err e, s) => (Err e, s)
  | (Ok _, s) =>
      match ar_AfterReport result with
      | Some k =>
          if negb succeeded then (Ok tt, s) else
          if managed s && negb (op_authorizedCommit op) then (Err ExWithdrawnCommit, s) else commit (ss_Action session) k s
      | None => (Ok tt, s)
      end
  end.
Definition execute (op : Operation) (a : RescueAssignment) (s : Running) : result unit exec_err * Running :=
  if managed s && negb (op_authorized op) then (Err ExWithdrawn, s) else
  match verifyRescueAssignment (op_verify op) (op_wall op) (Some a) s with
  | (Err e, s) => (Err (ExVerify e), s)
  | (Ok session, s) =>
      match ra_Envelope a ≫= (fun e => wire_unmarshal (env_payload e)) with
      | None => (Err ExPayload, s)
      | Some i => perform_session op (operation_deadline (op_now op) (ra_LeaseExpiresAt a) session i) session s
      end
  end.

(** ** The loop *)

Definition reportStatus (status : option string) (s : Running) : Running :=
  let '(r, m) := networkIsolationStatus (hp_action (rn_helper s)) (rn_machine s) in
  let '(mode, interfaces) := match r with Ok x => x | Err _ => (NETWORK_ISOLATION_MODE_NONE, []) end in
  mkRunning (rn_helper s) m (rn_deadline s) (rn_events s) (rn_commits s) (rn_leases s)
    (mkRescueStatus (hp_version (rn_helper s)) (hp_instanceID (rn_helper s)) mode interfaces
       (match status with Some text => Some ("HELPER_CONNECTION", truncateError text) | None => None end) :: rn_statuses s).
Definition reconcile (s : Running) : Running :=
  on_machine (snd (ReconcileTemporarySSHAccess E (hp_action (rn_helper s)) (rn_machine s))) s.

Inductive lease_answer := LeaseFailed (text : string) | LeaseGiven (a : option RescueAssignment).
(** One turn: the gate when it begins and when it leases, the panel's answer, the
    operation, and whether the process is being stopped meanwhile. *)
Record Round := mkRound {
  rd_authorized : bool; rd_leaseAuthorized : bool; rd_lease : lease_answer; rd_operation : Operation; rd_text : exec_err -> string;
  rd_stopped : bool; rd_wait : bool }.
Definition lease (rd : Round) (after : string) (s : Running) : lease_answer * Running :=
  if managed s && negb (rd_leaseAuthorized rd) then (LeaseFailed "rescue authorization is withdrawn or unverifiable", s)
  else (rd_lease rd, mkRunning (rn_helper s) (rn_machine s) (rn_deadline s) (rn_events s) (rn_commits s) (after :: rn_leases s) (rn_statuses s)).
(** [None]: [Run] returns. *)
Definition run_round (rd : Round) (after : string) (s : Running) : option string * Running :=
  if managed s && negb (rd_authorized rd) then ((if rd_wait rd then Some after else None), s) else
  let s := reconcile s in
  match lease rd after s with
  | (LeaseFailed text, s) =>
      if rd_stopped rd then (None, s) else
      ((if rd_wait rd then Some after else None), reportStatus (Some text) s)
  | (LeaseGiven (Some (mkRescueAssignment id (Some session) expires envelope)), s) =>
      match execute (rd_operation rd) (mkRescueAssignment id (Some session) expires envelope) s with
      | (Err e, s) =>
          if rd_stopped rd then (None, s) else
          ((if rd_wait rd then Some id else None), reportStatus (Some (rd_text rd e)) s)
      | (Ok _, s) => (Some id, reportStatus None s)
      end
  | (LeaseGiven _, s) => (Some after, reportStatus None s)
  end.
Fixpoint run_rounds (l : list Round) (after : string) (s : Running) : Running :=
  match l with
  | [] => s
  | rd :: l => match run_round rd after s with
               | (Some after, s) => run_rounds l after s
               | (None, s) => s
               end
  end.
Inductive run_err := RunPrepare | RunClose (e : rescue_err) | RunPublish | RunStatus.
(** [Run]: on a managed host whatever window is open is closed before anything
    else; elsewhere the panel must accept a first status. *)
Definition start (prepared published accepted : bool) (s : Running) : result unit run_err * Running :=
  if managed s then
    if negb prepared then (Err RunPrepare, s) else
    match CloseTemporarySSHAccess E (hp_action (rn_helper s)) (rn_machine s) with
    | (Err e, m) => (Err (RunClose e), on_machine m s)
    | (Ok _, m) =>
        if negb published then (Err RunPublish, on_machine m s) else (Ok tt, reconcile (on_machine m s))
    end
  else
    let s := reportStatus None (reconcile s) in
    if accepted then (Ok tt, s) else (Err RunStatus, s).
Definition Run (prepared published accepted : bool) (l : list Round) (s : Running) : result unit run_err * Running :=
  match start prepared published accepted s with
  | (Err e, s) => (Err e, s)
  | (Ok _, s) => (Ok tt, run_rounds l "" s)
  end.
End Assignments.

(** ** Theorems *)

Section HelperTheorems.
Context `{CR : Crypto} `{PT : ProtoTime} `{WI : Wire SignedInstruction} `{JO : Json (option entries)} `{WS : Wire RescueSession}.
Variable iter : entries -> list (string * time).

(** A session the panel commands: an envelope authentic under pinned keys, of the
    rescue kind, whose body it is, and which the unsigned copy does not
    contradict. *)
Record commanded (h : Helper) (now : time) (a : RescueAssignment) (session : RescueSession) (i : SignedInstruction) : Prop := {
  cm_signed : exists e identity, ra_Envelope a = Some e /\ id_ControlPlaneKeys identity <> [] /\
    (identity = hp_identity h \/ (id_ControlPlaneKeys (hp_identity h) = [] /\ (hp_credStore h ≫= st_identity) = Some identity)) /\
    authentic (Signing.New (named (hp_agentID h) identity) (Some (hp_replayGuard h))) now e i;
  cm_kind : si_instruction_type i = rescue_kind;
  cm_body : wire_unmarshal (si_body i) = Some session;
  cm_outer : outer_matches (ra_Session a) session = Ok tt;
}.
Lemma signing_identity_from h h' identity :
  signing_identity h = (h', identity) -> id_ControlPlaneKeys identity <> [] ->
  (identity = hp_identity h \/ (id_ControlPlaneKeys (hp_identity h) = [] /\ (hp_credStore h ≫= st_identity) = Some identity)) /\
  hp_agentID h' = hp_agentID h /\ hp_replayGuard h' = hp_replayGuard h /\ hp_hostTrust h' = hp_hostTrust h /\ hp_action h' = hp_action h.
Proof.
  unfold signing_identity. destruct (id_ControlPlaneKeys (hp_identity h)) as [|k ks] eqn:Ek; [|intros [= <- <-]; naive_solver].
  destruct (hp_credStore h ≫= st_identity) as [id|]; [|intros [= <- <-]; congruence].
  destruct (id_ControlPlaneKeys id) eqn:Ei; simpl; intros [= <- <-]; naive_solver.
Qed.
(** Verification touches the nonces and the keys, nothing else. *)
Definition only_verified (s s' : Running) : Prop :=
  rm_log (rn_machine s') = rm_log (rn_machine s) /\ rn_events s' = rn_events s /\ rn_commits s' = rn_commits s /\
  hp_hostTrust (rn_helper s') = hp_hostTrust (rn_helper s) /\ hp_action (rn_helper s') = hp_action (rn_helper s).
Lemma signing_identity_same h : hp_hostTrust (signing_identity h).1 = hp_hostTrust h /\ hp_action (signing_identity h).1 = hp_action h.
Proof.
  unfold signing_identity. destruct (id_ControlPlaneKeys (hp_identity h)); [|done].
  destruct (hp_credStore h ≫= st_identity) as [id|]; [|done]. by destruct (Nat.eqb _ _).
Qed.
Lemma verify_only now wall a s out s' : verifyRescueAssignment iter now wall a s = (out, s') -> only_verified s s'.
Proof.
  unfold verifyRescueAssignment. destruct a as [a|]; [|by intros [= <- <-]].
  destruct (ra_Envelope a) as [e|]; [|by intros [= <- <-]].
  destruct (signing_identity_same (rn_helper s)) as [Ht Ha]. destruct (signing_identity (rn_helper s)) as [h identity]. simpl in *.
  destruct (Nat.eqb _ _); [by intros [= <- <-]|]. destruct (Verify _ _ _ _ _ _) as [[v g] w]. by intros [= <- <-].
Qed.
Lemma assignment_commanded now wall a s session s' :
  verifyRescueAssignment iter now wall (Some a) s = (Ok session, s') -> exists i, commanded (rn_helper s) now a session i /\
    (ra_Envelope a ≫= fun e => wire_unmarshal (env_payload e)) = Some i.
Proof.
  unfold verifyRescueAssignment. destruct (ra_Envelope a) as [e|] eqn:Ee; [|done].
  destruct (signing_identity (rn_helper s)) as [h identity] eqn:Eh.
  destruct (id_ControlPlaneKeys identity) as [|k ks] eqn:Ek; simpl; [done|].
  assert (Hne : id_ControlPlaneKeys identity <> []) by (by rewrite Ek).
  destruct (signing_identity_from _ _ _ Eh Hne) as (Hfrom & Hag & Hg & _). rewrite Hag, Hg.
  destruct (Verify _ _ _ _ _ _) as [[out g] w] eqn:Ev. destruct out as [v|]; [|done].
  destruct (in_InstructionType v =? rescue_kind)%string eqn:Et; [|done]. simpl.
  destruct (wire_unmarshal (in_Body v)) as [x|] eqn:Ex; [|done].
  destruct (outer_matches (ra_Session a) x) as [[]|] eqn:Em; [|done].
  intros [= <- _]. apply String.eqb_eq in Et. unfold Verify in Ev.
  destruct (Signing.authenticate _ _ _) as [[si by_]|] eqn:Ea; [|by destruct (v_replay _)]. apply authenticate_ok in Ea as [Ea _].
  assert (Hv : v = instruction_of si by_).
  { destruct (v_replay _); [|by injection Ev as <-]. destruct (Consume _ _ _ _ _ _) as [[[[]|] ?] ?]; [by injection Ev as <-|done]. }
  subst v. simpl in Et, Ex. exists si. split; [|by destruct Ea as (_ & _ & _ & ? & _)].
  split; [|done..]. exists e, identity. by split_and!.
Qed.

Lemma operation_deadline_shortens now l session i :
  let d := operation_deadline now l session i in
  d <= default (now + 2 * minute) (valid_time l) /\
  (forall t, valid_time (ss_DeadlineAt session) = Some t -> d <= t) /\
  (forall t, si_expires_at i = Some t -> d <= ts_time t).
Proof.
  unfold operation_deadline, earlier, before, deadlineForAssignment, t_add. change (is_zero zero_time) with true. cbv iota.
  destruct (valid_time l) as [tl|]; destruct (valid_time (ss_DeadlineAt session)) as [ts|]; destruct (si_expires_at i) as [te|]; simpl;
    repeat match goal with |- context [?a <? ?b] => destruct (Z.ltb_spec a b) | H : context [?a <? ?b] |- _ => destruct (Z.ltb_spec a b) end;
    split_and!; try (intros ? [=]; subst); lia.
Qed.

Context (E : Env) `{JI : Json isolationState} `{JS : Json sshAccessState}.
Variable decode_routes : bytes -> option (list string).
Variable parse_control : string -> option ControlURL.
Variable lookup_ip : nat -> string -> option (list IP).
Variable collect_diagnostics : nat -> bool -> bool -> option bytes.
Variable error_text : rescue_err -> string.
Notation execute := (execute iter E decode_routes parse_control lookup_ip collect_diagnostics error_text).
Notation ExecuteAction := (ExecuteAction E).

(** What is reported of an operation is bounded, and a commit follows an
    acknowledged success only. *)
Record reported_once (op : Operation) (session : RescueSession) (s s' : Running) : Prop := {
  ro_event : exists ev ok, rn_events s' = (ev, ok) :: rn_events s /\ rv_SessionId ev = ss_SessionId session /\ rv_Sequence ev = 1 /\
    slen (rv_Output ev) <= maximumEventOutput /\
    (ok = true <-> exists n, op_answer op = Some n /\ 1 <= n) /\
    (rn_commits s' = rn_commits s \/
     (rn_commits s' = ss_Action session :: rn_commits s /\ ok = true /\ rv_State ev = OPERATION_STATE_SUCCEEDED /\
      op_cancelled op = false /\ op_exceeded op = false /\ (managed s = true -> op_authorizedCommit op = true)));
}.
Lemma finalOutput_bound r st : slen (finalOutput r st) <= maximumEventOutput.
Proof.
  unfold finalOutput. destruct (_ || _); [vm_compute; discriminate|]. apply limitBytes_bound. vm_compute. discriminate.
Qed.
Lemma perform_session_reported op deadline session s r s' :
  perform_session E decode_routes parse_control lookup_ip collect_diagnostics error_text op deadline session s = (r, s') ->
  reported_once op session s s' /\ rn_deadline s' = Some deadline.
Proof.
  unfold perform_session. destruct (RescueActions.ExecuteAction _ _ _ _ _ _ _ _ _ _) as [ar m].
  destruct (outcome_state error_text op ar) as [state detail] eqn:Es. unfold reportEvent. set (ev := mkRescueEvent _ _ _ _ _ _ _).
  assert (Hb : slen (rv_Output ev) <= maximumEventOutput) by apply finalOutput_bound.
  destruct (op_answer op) as [n|] eqn:Ea.
  2: { intros [= <- <-]. split; [|done]. split. exists ev, false. split_and!; try done; [|by left].
       split; [done|]. rewrite Ea. by intros (? & [=] & _). }
  destruct (Z.ltb_spec n (rv_Sequence ev)) as [Hn|Hn]; simpl in Hn.
  { intros [= <- <-]. split; [|done]. split. exists ev, false. split_and!; try done; [|by left].
    split; [done|]. rewrite Ea. intros (? & [= <-] & ?). lia. }
  assert (Hok : true = true <-> exists n0, op_answer op = Some n0 /\ 1 <= n0) by (split; [intros _; by exists n|done]).
  assert (Hplain : forall s2 r2, (r2, s2) = (r, s') -> rn_events s2 = (ev, true) :: rn_events s -> rn_commits s2 = rn_commits s ->
    rn_deadline s2 = Some deadline -> reported_once op session s s' /\ rn_deadline s' = Some deadline).
  { intros s2 r2 [= -> ->] He Hc Hd. split; [|done]. split. exists ev, true. split_and!; try done. by left. }
  destruct (ar_AfterReport _) as [k|] eqn:Ek; [|intros Heq; by eapply Hplain].
  destruct (bool_decide (state = OPERATION_STATE_SUCCEEDED)) eqn:Esu; cbn [negb]; [|intros Heq; by eapply Hplain].
  destruct (managed _ && negb (op_authorizedCommit op)) eqn:Em; [intros Heq; by eapply Hplain|].
  unfold commit. simpl. destruct (k m) as [kr km]. intros [= <- <-]. split; [|done]. split. exists ev, true. split_and!; try done. right.
  apply bool_decide_eq_true in Esu. subst state. unfold outcome_state in Es.
  destruct (op_cancelled op); [done|]. destruct (op_exceeded op); [done|]. split_and!; try done.
  intros Hm. unfold managed in *. simpl in Em. rewrite Hm in Em. by destruct (op_authorizedCommit op).
Qed.

End HelperTheorems.

Section StartTheorems.
Context `{JI : Json Identity} `{SM : StrictJson Manifest} `{ST : StrictJson Trust} `{SA : StrictJson AccessConfig}.
Variable lstat : string -> option Stat.
Variable is_regular : string -> bool.
Variable parse_url : string -> option Url.
Variable parse_address : string -> option Address.
Variable uuid_ok : string -> bool.
Variables default_credentials default_replay : string.
Variable user_config : option string.
Notation New := (RescueHelper.New lstat is_regular parse_url parse_address uuid_ok default_credentials default_replay user_config).

(** On a managed host the helper can only be who root says: it starts only
    when the daemon's credentials name the agent and the panel of the root-pinned
    trust and are the file of the manifest, and then it verifies with the pinned
    keys alone (one Ed25519 signature), talks to the pinned panel and checks its
    certificate, whatever its own configuration says. *)
Theorem New_pins_host candidate fresh c w h w' :
  New candidate fresh c w = (Ok h, w') -> hf_HostManifest c <> "" ->
  exists m t id w1 w2 w3,
    ReadManifest lstat is_regular (hf_HostManifest c) w = (Ok m, w1) /\ ReadTrust lstat is_regular parse_url m w1 = (Ok t, w2) /\
    (candidate ≫= json_unmarshal) = Some id /\ id_AgentID id = tr_AgentID t /\ id_Endpoint id = tr_Endpoint t /\
    hf_CredentialsFile c = mf_CredentialsFile m /\
    hp_manifest h = Some m /\ hp_hostTrust h = Some t /\ hp_identity h = Credentials.with_trust (tr_PanelKeys t) [1] false 1 id /\
    normalizeHelperEndpoint parse_address (tr_Endpoint t) = Ok (hp_baseURL h) /\ hp_ignoreUnsafeCert h = false /\
    hp_agentID h = trim_space (tr_AgentID t) /\ hp_token h = trim_space (id_AccessToken id) /\ hp_token h <> "" /\
    loadOrCreateInstanceID uuid_ok fresh (if blank (hf_InstanceIDPath c) then DefaultInstanceIDPath user_config else trim_space (hf_InstanceIDPath c)) w3 =
      (Ok (hp_instanceID h), w').
Proof.
  unfold RescueHelper.New, helper_identity. intros Hr Hm. apply String.eqb_neq in Hm. rewrite Hm in Hr. cbn [negb] in Hr.
  destruct candidate as [data|]; [|done]. destruct (json_unmarshal data) as [id|] eqn:Hid; [|done].
  unfold pin_host in Hr. cbn [with_token hf_HostManifest] in Hr. rewrite Hm in Hr.
  destruct (ReadManifest _ _ _ w) as [[m|] w1] eqn:Em; [|done]. destruct (ReadTrust _ _ _ m w1) as [[t|] w2] eqn:Et; [|done].
  cbn [hf_CredentialsFile] in Hr. destruct (negb _ || _ || _) eqn:Eb; [done|].
  apply orb_false_iff in Eb as [[Ea Ee]%orb_false_iff Ec].
  apply negb_false_iff, String.eqb_eq in Ea. apply negb_false_iff, String.eqb_eq in Ee. apply negb_false_iff, String.eqb_eq in Ec.
  destruct (tr_AccessConfigFile t =? "")%string; [|destruct (ReadAccess _ _ t w2) as [[a|] w3]; [|done]]; cbn -[loadOrCreateInstanceID normalizeHelperEndpoint blank DefaultInstanceIDPath] in Hr;
    destruct (normalizeHelperEndpoint _ _) as [base|] eqn:En; try done;
    destruct (blank (id_AccessToken id)) eqn:Eblank; try done; destruct (xorb _ _); try done;
    match type of Hr with context [loadOrCreateInstanceID ?a ?b ?c ?x] => destruct (loadOrCreateInstanceID a b c x) as [[iid|] w4] eqn:El end; try done;
    injection Hr as <- <-; cbn; eexists m, t, id, w1, w2, _; split_and!; try done;
    unfold blank in Eblank; by apply String.eqb_neq.
Qed.

(** The instance keeps its name: once an identifier was obtained, every later
    start reads the same one, and a crash while it is first written leaves the
    file absent or whole. *)
Theorem instance_id_is_stable fresh path w id w1 :
  uuid_ok fresh = true -> trim_space (fresh ++ nl) = fresh ->
  temps_avoid (dir path) ".komari-rescue-" path w -> w_trace w = [] ->
  loadOrCreateInstanceID uuid_ok fresh path w = (Ok id, w1) ->
  Forall (old_or_new path (mkFile (fresh ++ nl) instanceFileMode) (w_fs w)) (w_trace w1) /\
  forall fresh' w2, w_fs w2 = w_fs w1 -> w_faults w2 = [] ->
    fst (loadOrCreateInstanceID uuid_ok fresh' path w2) = Ok id.
Proof.
  intros Hu Htrim Hav Htr Hr. unfold loadOrCreateInstanceID in Hr.
  assert (Hread : forall f fresh' w2, w_fs w2 !! path = Some f -> trim_space (f_data f) = id -> uuid_ok id = true ->
    w_faults w2 = [] -> fst (loadOrCreateInstanceID uuid_ok fresh' path w2) = Ok id).
  { intros f fresh' w2 Hf Hd Hok Hnf. unfold loadOrCreateInstanceID, read_file, call. rewrite Hnf. simpl. rewrite Hf, Hd. by rewrite Hok. }
  unfold read_file, call in Hr. simpl in Hr. destruct (hd false (w_faults w)); [done|]. simpl in Hr.
  destruct (w_fs w !! path) as [f|] eqn:Ef.
  - destruct (uuid_ok (trim_space (f_data f))) eqn:Eu; [|done]. injection Hr as <- <-. simpl. rewrite Htr. split; [done|].
    intros fresh' w2 Hw2 Hnf. eapply Hread; [by rewrite Hw2|done|done|done].
  - set (w0 := mkWorld _ _ _ _) in Hr. unfold io_bind, mkdir_all, pure_call, call in Hr. simpl in Hr.
    destruct (hd false (tail (w_faults w))); [done|]. set (w0' := mkWorld _ _ _ _) in Hr.
    destruct (atomicWrite path (fresh ++ nl) instanceFileMode w0') as [[[]|e] w3] eqn:Ea; [|done]. injection Hr as <- <-.
    apply (replace_file_atomic (dir path) ".komari-rescue-" path (fresh ++ nl) instanceFileMode) in Ea; [|apply publishes_rename|exact Hav|simpl; by rewrite Htr].
    destruct Ea as [Hok _ _ Hcrash]. specialize (Hok eq_refl). split; [exact Hcrash|].
    intros fresh' w2 Hw2 Hnf. eapply Hread; [rewrite Hw2, Hok; apply lookup_insert_eq|exact Htrim|done|done].
Qed.
End StartTheorems.
