(* ===== verification/RescueDemo.v ===== *)
(** * A small host under rescue

    One concrete helper, firewall and panel, on which the theorems about the
    rescue helper are applied. *)

From S2P Require Import Prelude.
From S2P Require Import GoStd.
From S2P Require Import GoPath.
From S2P Require Import Disk.
From S2P Require Import External.
From S2P Require Import Credentials.
From S2P Require Import Replay.
From S2P Require Import Signing.
From S2P Require Import Privileged.
From S2P Require Import HostOps.
From S2P Require Import Enrollment.
From S2P Require Import Session.
From S2P Require Import Renewal.
From S2P Require Import SessionDemo.
From S2P Require Import Rescue.
From S2P Require Import RescueSsh.
From S2P Require Import RescueActions.
From S2P Require Import RescueWatch.
From S2P Require Import RescueHelper.

Local Open Scope string_scope.
Local Open Scope Z_scope.

(** ** A host with ufw *)

Definition expiry_code (e : ExpiryMechanism) : Z :=
  match e with
  | EXPIRY_MECHANISM_UNSPECIFIED => 0 | EXPIRY_MECHANISM_NFTABLES_TIMEOUT => 1
  | EXPIRY_MECHANISM_SYSTEMD_TIMER => 2 | EXPIRY_MECHANISM_HELPER_RECONCILE => 3
  end.
Definition expiry_of (n : Z) : ExpiryMechanism :=
  if n =? 1 then EXPIRY_MECHANISM_NFTABLES_TIMEOUT else if n =? 2 then EXPIRY_MECHANISM_SYSTEMD_TIMER
  else if n =? 3 then EXPIRY_MECHANISM_HELPER_RECONCILE else EXPIRY_MECHANISM_UNSPECIFIED.
Definition access_tuple (st : sshAccessState) : Z * Z * Z * string * Z :=
  (sa_Port st, sa_GrantedAt st, sa_ExpiresAt st, sa_Mechanism st, expiry_code (sa_Expiry st)).
Definition access_of (x : Z * Z * Z * string * Z) : sshAccessState :=
  let '(p, g, e, m, x) := x in mkAccessState p g e m (expiry_of x).
#[local] Instance access_countable : Countable sshAccessState.
Proof. apply (inj_countable' access_tuple access_of). by intros [p g e m []]. Defined.
#[local] Instance rd_json : Json sshAccessState := countable_json sshAccessState.
#[local] Instance rd_laws : JsonLaws sshAccessState := countable_json_laws sshAccessState.
Lemma rd_json_ok : forall st, known_mechanism (sa_Mechanism st) = true -> json_ok st.
Proof. done. Defined.

Definition rd_look (tool : string) : option string :=
  if existsb (String.eqb tool) ["ufw"; "systemctl"; "systemd-run"] then Some ("/usr/bin/" ++ tool) else None.
Definition rd_run (argv : list string) : Outcome :=
  mkOutcome (if bool_decide (argv = ["/usr/bin/ufw"; "status"]) then "Status: active" else "") "" None.
(** Every reading of the clock is [pace] later than the call before. *)
Definition rd_env (pace : duration) : Env :=
  mkEnv 0 7 (fun t => (1000 * second + Z.of_nat t * pace)) (fun _ => rd_look) (fun _ => rd_run) (fun _ _ => true)
    (fun _ => Some "/usr/bin/komari-agent-rescue") (fun _ => "") (fun _ => "error") (fun _ _ => None) (fun _ _ => None) (fun _ => None)
    (fun _ => 0%nat) (fun _ => true).
Definition rd_config : ActionConfig :=
  mkActionConfig "/opt/komari/agent" "" "" "komari" "" "" "https://p" "/var/lib/komari/isolation.json" "".
Definition rd_start : Machine := mkMachine (mkWorld ∅ [] ["1"; "2"; "3"; "4"] []) 0 [].
Definition rd_granted (pace : duration) : Machine := perform (rd_env pace) rd_config (GrantAccess 22) rd_start.

Lemma rd_steady E m : w_fs (rm_world m) !! sshAccessStatePath rd_config = None -> w_faults (rm_world m) = [] -> steady E rd_config m.
Proof.
  intros Hn Hf s1. unfold ReconcileTemporarySSHAccess, closeTemporarySSHAccess, loadSSHAccessState, r_bind, r_try, r_io, read_file, call.
  rewrite Hf. simpl. rewrite Hn. simpl. intros [= <-] st (f & Hl & _). unfold files in Hl. simpl in Hl. congruence.
Qed.
Lemma rd_reachable pace : reachable (rd_env pace) rd_config (rd_granted pace).
Proof.
  apply (reach_step _ _ (GrantAccess 22) rd_start).
  - apply reach_start. apply lookup_empty.
  - split; [split; [discriminate|reflexivity]|]. apply rd_steady; [apply lookup_empty|reflexivity].
Qed.


Lemma grant_writes_ahead_witness :
  adds (opening_recorded rd_config) rd_start (rd_granted second) /\ existsb (fun ev => match ev with Ran argv _ _ => is_open argv | _ => false end) (rm_log (rd_granted second)) = true.
Proof. split; [apply (grant_writes_ahead (rd_env second) rd_config rd_json_ok 22 rd_start)|vm_compute; reflexivity]. Defined.

(** The state on record, and ten minutes between two calls: at the next one the
    deadline has passed. *)
Definition rd_recorded (m : Machine) : option sshAccessState :=
  match files m !! sshAccessStatePath rd_config with Some f => json_unmarshal (f_data f) | None => None end.
Lemma rd_recorded_some m st : rd_recorded m = Some st -> recorded rd_config (files m) st.
Proof. unfold rd_recorded, recorded. destruct (files m !! sshAccessStatePath rd_config) as [f|]; [|done]. intros ?. by exists f. Qed.
Definition rd_window (pace : duration) : sshAccessState :=
  mkAccessState 22 (1000 * second + 5 * pace) (1000 * second + 5 * pace + 15 * minute) "ufw" EXPIRY_MECHANISM_SYSTEMD_TIMER.
Lemma rd_removals pace : removals_work (rd_env pace).
Proof. intros t argv _. reflexivity. Qed.


(** ** When things go wrong *)

(** The deadline passes between the two readings of a second grant's clock: the
    reconciliation finds the first window still open, the second look no longer;
    the new window takes its place on record and the first port stays open. *)
Definition rd_late : Env :=
  let E := rd_env second in
  mkEnv (re_euid E) (re_pid E) (fun t => if Nat.ltb t 16 then 1000 * second else 2000 * second) (re_look E) (re_run E) (re_start E)
    (re_self E) (re_getenv E) (re_text E) (re_readdir E) (re_glob E) (re_interfaces E) (re_torn E) (re_timer E).
Definition rd_twice : Machine := perform rd_late rd_config (GrantAccess 2222) (perform rd_late rd_config (GrantAccess 22) rd_start).
Lemma second_grant_forgets_first :
  live mechanismUFW 22 (rm_log rd_twice) = true /\ live mechanismUFW 2222 (rm_log rd_twice) = true /\
  sa_Port <$> rd_recorded rd_twice = Some 2222.
Proof. split_and!; vm_compute; reflexivity. Qed.

(** A bare nftables host: the kernel itself holds the fifteen minutes. *)
Example nft_element_22 :
  nft_element 22 = ["nft"; "add"; "element"; "inet"; "komari_temp_ssh"; "temp_ssh"; "{ 22 timeout 15m }"].
Proof. reflexivity. Qed.
Example listening_ex :
  map listening_port ["   0: 0100007F:0016 00000000:0000 0A 00000000:00000000"; "   1: 0100007F:1F90 00000000:0000 01 0"; "x"] =
  [Some 22; None; None].
Proof. vm_compute. reflexivity. Qed.

(** ** Isolation *)

Definition mode_code (m : NetworkIsolationMode) : Z :=
  match m with
  | NETWORK_ISOLATION_MODE_UNSPECIFIED => 1 | NETWORK_ISOLATION_MODE_NONE => 2 | NETWORK_ISOLATION_MODE_PUBLIC_INTERFACES => 3
  | NETWORK_ISOLATION_MODE_TAILSCALE_INTERFACES => 4 | NETWORK_ISOLATION_MODE_CONTROL_PLANE_ONLY => 5
  | NetworkIsolationMode_other _ => 0
  end.
Definition mode_of (x : Z * Z) : NetworkIsolationMode :=
  let '(k, n) := x in
  if k =? 1 then NETWORK_ISOLATION_MODE_UNSPECIFIED else if k =? 2 then NETWORK_ISOLATION_MODE_NONE
  else if k =? 3 then NETWORK_ISOLATION_MODE_PUBLIC_INTERFACES else if k =? 4 then NETWORK_ISOLATION_MODE_TAILSCALE_INTERFACES
  else if k =? 5 then NETWORK_ISOLATION_MODE_CONTROL_PLANE_ONLY else NetworkIsolationMode_other n.
Definition other_mode (m : NetworkIsolationMode) : Z := match m with NetworkIsolationMode_other n => n | _ => 0 end.
#[local] Instance isolation_countable : Countable isolationState.
Proof.
  apply (inj_countable' (fun s => ((mode_code (is_Mode s), other_mode (is_Mode s)), is_Interfaces s, is_AppliedAt s))
           (fun '(m, i, t) => mkIsolation (mode_of m) i t)). by intros [[] i t].
Defined.
#[local] Instance rd_iso_json : Json isolationState := countable_json isolationState.
#[local] Instance rd_iso_laws : JsonLaws isolationState := countable_json_laws isolationState.

Lemma rd_iso_ok : forall st : isolationState, json_ok st.
Proof. done. Defined.

Definition rd_nft : Env :=
  let E := rd_env second in
  mkEnv (re_euid E) (re_pid E) (re_now E) (fun _ tool => Some ("/usr/sbin/" ++ tool)) (re_run E) (re_start E)
    (re_self E) (re_getenv E) (re_text E) (re_readdir E) (re_glob E) (re_interfaces E) (re_torn E) (re_timer E).
Lemma rd_temps : forall d r, temp_name d ".komari-nft-" (r ++ ".conf") <> isolationPath rd_config.
Proof.
  intros d r. assert (exists y, temp_name d ".komari-nft-" (r ++ ".conf") = y ++ String "f" "") as [y ->].
  { unfold temp_name. destruct (has_suffix d "/").
    - exists (d ++ ".komari-nft-" ++ r ++ ".con"). by rewrite !HostFs.app_str_assoc.
    - exists (d ++ "/" ++ ".komari-nft-" ++ r ++ ".con"). by rewrite !HostFs.app_str_assoc. }
  change (isolationPath rd_config) with ("/var/lib/komari/isolation.jso" ++ String "n" ""). by apply last_char_neq.
Qed.
Definition rd_rules : string := interfaceIsolationRules ["eth0"; "eth1"].
Lemma isolation_is_checked_and_recorded_witness :
  let s' := snd (isolate rd_nft rd_config NETWORK_ISOLATION_MODE_PUBLIC_INTERFACES ["eth0"; "eth1"] rd_rules rd_start) in
  existsb is_apply (rm_log s') = true /\
  loaded rd_nft rd_config NETWORK_ISOLATION_MODE_PUBLIC_INTERFACES ["eth0"; "eth1"] rd_rules (rm_log s').
Proof.
  split; [vm_compute; reflexivity|].
  apply (isolation_is_checked_and_recorded rd_nft rd_config rd_iso_ok rd_temps NETWORK_ISOLATION_MODE_PUBLIC_INTERFACES
    ["eth0"; "eth1"] rd_rules rd_start). constructor.
Defined.
Example rules_ex :
  interfaceIsolationRules ["eth0"] = "table inet komari_rescue {
 chain input { type filter hook input priority -50; policy accept; iifname { " ++ dquote_str ++ "eth0" ++ dquote_str ++ " } drop; }
 chain output { type filter hook output priority -50; policy accept; oifname { " ++ dquote_str ++ "eth0" ++ dquote_str ++ " } drop; }
}
".
Proof. vm_compute. reflexivity. Qed.

(** ** The gate *)

#[local] Instance rd_crypto : Crypto := hwit_crypto.
#[local] Instance rd_time : ProtoTime := Signing.wit_time.
#[local] Instance rd_enums : ProtoEnums := Privileged.wit_enums.
#[local] Instance rd_session : SessionEnums :=
  {| DELIVERY_STATE_NEEDS_CONFIRMATION := 1; DELIVERY_STATE_DELIVERED := 8; DELIVERY_STATE_FAILED := 9;
     ACTION_SET_SERVICE_IDENTITY := 1; ACTION_INSTALL_RESCUE_HELPER := 2; ACTION_REMOVE_RESCUE_HELPER := 3 |}.
#[local] Instance rd_wire : Wire SignedInstruction := hwit_wire.
#[local] Instance rd_nonces : Json (option entries) := countable_json (option entries).

Definition rd_settings : Privileged.Settings := mkSettings 2 false false true false true.
Definition rd_revision : PrivilegedRevision :=
  mkPrivilegedRevision 2 false 5 "agent-1" 7 (Hash rd_settings) 1 4 (Some (Proto rd_settings)) (Some hwit_auth) None (Some (hwit_env "P")) None "".
#[local] Instance rd_revisions : Wire PrivilegedRevision := one_wire (unsigned_revision rd_revision) "R".
Definition rd_identity : Identity :=
  mkIdentity "https://p" "agent-1" "" "" "" None None "token" (2000 * second) "" zero_time [] [] [] false 0 zero_time zero_time.
#[local] Instance rd_identities : Json Identity :=
  {| json_marshal := fun _ => None; json_unmarshal := fun s => if (s =? "ID")%string then Some rd_identity else None |}.
Definition rd_policy : Policy := mkPolicy 2 "komari" 2 false false false false false false false false false true false true true "" 7 None.
Definition rd_reads : TickReads := mkReads (1000 * second) (Some "ID") (Some "ID") (Some rd_policy) (Some 7) (Some "/opt/helper") (1000 * second) true.
Notation rd_watch := (watch map_to_list hwit_trust (rd_env second) rd_config).
Notation rd_step := (watch_step map_to_list hwit_trust (rd_env second) rd_config).
Definition rd_frame (now : time) : watch_event := Frame now now (Some rd_revision) (Some rd_policy).
Definition rd_events : list watch_event := [Tick (1003 * second) rd_reads; rd_frame (1004 * second)].

Lemma authorization_is_fresh_witness :
  g_authorized (rd_watch true rd_start (rd_events ++ [Tick (1005 * second) rd_reads])) = true /\
  exists clock t r0 ti r policy,
    Frame t clock r0 (Some policy) ∈ rd_events /\ VerifySignedRevision map_to_list hwit_trust clock r0 = Ok r /\
    rescueRevisionAllowed r = true /\ policy_allows (Some policy) = true /\
    issued_at r = Ok ti /\ 1005 * second - ti < authorizationSilence.
Proof.
  assert (Ha : g_authorized (rd_watch true rd_start (rd_events ++ [Tick (1005 * second) rd_reads])) = true) by (vm_compute; reflexivity).
  split; [exact Ha|].
  apply (authorization_is_fresh map_to_list hwit_trust (rd_env second) rd_config true rd_start rd_events (1005 * second) rd_reads);
    [repeat constructor|reflexivity|exact Ha].
Defined.
(** Ten seconds after the panel signed its last word the gate is closed. *)
Example silence_closes_gate :
  g_authorized (rd_watch true rd_start (rd_events ++ [Tick (1010 * second) rd_reads])) = false.
Proof. vm_compute. reflexivity. Qed.

Definition rd_gate (m : Machine) : Gate :=
  mkGate true true m true "token" true (mkCursor zero_time 0) (1004 * second) zero_time zero_time zero_time zero_time initialBackoff [].

Lemma replayed_heartbeat_closes_gate_witness :
  g_authorized (rd_step (rd_gate rd_start) (rd_frame (1004 * second))) = true /\
  g_authorized (rd_step (fold_left rd_step [] (rd_step (rd_gate rd_start) (rd_frame (1004 * second)))) (rd_frame (1004 * second))) = false.
Proof.
  split; [vm_compute; reflexivity|].
  refine (replayed_heartbeat_closes_gate map_to_list hwit_trust (rd_env second) rd_config (rd_gate rd_start) (1004 * second) (1004 * second)
    (Some rd_revision) rd_revision (mkCursor (1000 * second) 4) (Some rd_policy) [] (1004 * second) (1004 * second) (Some rd_revision) (Some rd_policy) _ _ _ _).
  - reflexivity.
  - vm_compute. reflexivity.
  - intros r' Hr. assert (Hv : VerifySignedRevision map_to_list hwit_trust (1004 * second) (Some rd_revision) = Ok rd_revision) by (vm_compute; reflexivity).
    rewrite Hv in Hr. injection Hr as <-. exists (1000 * second). split; [vm_compute; reflexivity|reflexivity].
  - vm_compute. reflexivity.
Defined.

(** ** The helper *)

Definition rd_helper : Helper :=
  mkHelper None (Some hwit_trust) "/var/lib/komari/credentials.json" "https://p" false "token" "agent-1" "instance" "1.0" "" ""
    rd_config None (Credentials.with_trust [hwit_key "k1"] [1] false 1 rd_identity) (NewReplayGuard "/var/lib/komari/nonces.json" "").
Definition rd_reboot : RescueSession := mkRescueSession "session-1" RESCUE_ACTION_REBOOT [] 0 None (OperationState_other 1).
Definition rd_assignment : RescueAssignment :=
  mkRescueAssignment "a-1" (Some rd_reboot) (Some (mkTimestamp 1050 0)) (Some (hwit_env "P")).
Definition rd_operation : Operation :=
  mkOperation true (1005 * second) (1005 * second) (1005 * second) false false (Some 1) true.
Definition rd_running : Running := mkRunning rd_helper rd_start None [] [] [] [].

Section Operation.
#[local] Instance rd_rescue_wire : Wire SignedInstruction :=
  {| wire_marshal := fun _ => None; wire_unmarshal := fun s => if (s =? "P")%string then Some (hwit_instr rescue_kind "B") else None |}.
#[local] Instance rd_sessions : Wire RescueSession :=
  {| wire_marshal := fun _ => None; wire_unmarshal := fun s => if (s =? "B")%string then Some rd_reboot else None |}.
Definition rd_execute (op : Operation) : result unit exec_err * Running :=
  execute map_to_list (rd_env second) (fun _ => None) (fun _ => None) (fun _ _ => None) (fun _ _ _ => None) (fun _ => "error")
    op rd_assignment rd_running.

(** An operation the panel did not acknowledge commits nothing. *)
Example unacknowledged_commits_nothing :
  rn_commits (snd (rd_execute (mkOperation true (1005 * second) (1005 * second) (1005 * second) false false None true))) = [].
Proof. vm_compute. reflexivity. Qed.
End Operation.

Definition rd_manifest : Manifest :=
  mkManifest 2 "komari" "komari" "systemd" "/opt/agent" "/opt/host" "/etc/komari/policy.json" "" "/var/lib/komari/credentials.json" "" "" ""
    "/etc/komari/manifest.json".
Section Starting.
#[local] Instance rd_manifests : StrictJson Manifest := {| decode_strict := fun s => if (s =? "M")%string then Some (rd_manifest, "") else None |}.
#[local] Instance rd_trusts : StrictJson Trust := {| decode_strict := fun s => if (s =? "T")%string then Some (hwit_trust, "") else None |}.
#[local] Instance rd_access : StrictJson AccessConfig := {| decode_strict := fun _ => None |}.
Definition rd_lstat (path : string) : option Stat := Some (mkStat 0 420 false).
Definition rd_url (s : string) : option Url := Some (mkUrl "https" "p" "p" false "" "").
Definition rd_address (s : string) : option Address := Some (mkAddress "https" "p" "" "" "").
Definition rd_uuid (s : string) : bool := (s =? "8c5e-1")%string.
Definition rd_files : World :=
  mkWorld (<["/etc/komari/manifest.json" := mkFile "M" 420]> (<[TrustPath rd_manifest := mkFile "T" 420]> ∅)) [] ["1"; "2"] [].
Definition rd_settings_file : Config :=
  mkConfig "/etc/komari/manifest.json" "https://elsewhere" "other" "agent-9" "/var/lib/komari/instance" "1.0" true "" ""
    "/var/lib/komari/credentials.json" "" rd_config.
Definition rd_new : result Helper helper_err * World :=
  New rd_lstat (fun _ => true) rd_url rd_address rd_uuid "/c" "/r" None (Some "ID") "8c5e-1" rd_settings_file rd_files.

Lemma New_pins_host_witness :
  exists h w', rd_new = (Ok h, w') /\ hf_HostManifest rd_settings_file <> "" /\
  exists m t id w1 w2 w3,
    ReadManifest rd_lstat (fun _ => true) "/etc/komari/manifest.json" rd_files = (Ok m, w1) /\ ReadTrust rd_lstat (fun _ => true) rd_url m w1 = (Ok t, w2) /\
    (Some "ID" ≫= json_unmarshal) = Some id /\ id_AgentID id = tr_AgentID t /\ id_Endpoint id = tr_Endpoint t /\
    hf_CredentialsFile rd_settings_file = mf_CredentialsFile m /\
    hp_manifest h = Some m /\ hp_hostTrust h = Some t /\ hp_identity h = Credentials.with_trust (tr_PanelKeys t) [1] false 1 id /\
    normalizeHelperEndpoint rd_address (tr_Endpoint t) = Ok (hp_baseURL h) /\ hp_ignoreUnsafeCert h = false /\
    hp_agentID h = trim_space (tr_AgentID t) /\ hp_token h = trim_space (id_AccessToken id) /\ hp_token h <> "" /\
    loadOrCreateInstanceID rd_uuid "8c5e-1" "/var/lib/komari/instance" w3 = (Ok (hp_instanceID h), w').
Proof.
  destruct rd_new as [r w'] eqn:En. assert (Hok : is_ok r = true) by (change r with (fst (r, w')); rewrite <- En; vm_compute; reflexivity).
  destruct r as [h|e]; [|discriminate]. exists h, w'. split; [reflexivity|]. assert (Hm : hf_HostManifest rd_settings_file <> "") by discriminate.
  split; [exact Hm|].
  exact (New_pins_host rd_lstat (fun _ => true) rd_url rd_address rd_uuid "/c" "/r" None (Some "ID") "8c5e-1" rd_settings_file rd_files h w' En Hm).
Defined.

Definition rd_first : result string helper_err * World := loadOrCreateInstanceID rd_uuid "8c5e-1" "/var/lib/komari/instance" rd_files.
Lemma instance_id_is_stable_witness :
  fst rd_first = Ok "8c5e-1" /\
  Forall (old_or_new "/var/lib/komari/instance" (mkFile ("8c5e-1" ++ nl) instanceFileMode) (w_fs rd_files)) (w_trace (snd rd_first)) /\
  forall fresh' w2, w_fs w2 = w_fs (snd rd_first) -> w_faults w2 = [] ->
    fst (loadOrCreateInstanceID rd_uuid fresh' "/var/lib/komari/instance" w2) = Ok "8c5e-1".
Proof.
  assert (Hf : fst rd_first = Ok "8c5e-1") by (vm_compute; reflexivity). split; [exact Hf|].
  apply (instance_id_is_stable rd_uuid "8c5e-1" "/var/lib/komari/instance" rd_files "8c5e-1" (snd rd_first)).
  - reflexivity.
  - vm_compute. reflexivity.
  - apply temps_avoid_all. repeat constructor; vm_compute; discriminate.
  - reflexivity.
  - fold rd_first. rewrite <- Hf. by destruct rd_first.
Defined.
End Starting.
