(* ===== verification/GoUrl.v ===== *)
(** * URLs ([net/url])

    The part of [net/url] the file relay uses: escaping in each position of a
    URL, query strings and how they are parsed, and how a URL is written. A
    query written by [encode_values] is read back unchanged, so a key that was
    deleted is gone for whoever parses the URL. *)

From S2P Require Import Prelude.
From S2P Require Import GoStd.
From stdpp Require Import sorting.

Local Open Scope string_scope.

(** ** Escaping *)

Inductive encoding := encodePath | encodePathSegment | encodeHost | encodeQueryComponent | encodeFragment.

Definition one_of (s : string) (a : ascii) : bool := existsb (Ascii.eqb a) (chars s).
Definition alphanumeric (a : ascii) : bool :=
  let n := code a in
  (Nat.leb 97 n && Nat.leb n 122) || (Nat.leb 65 n && Nat.leb n 90) || (Nat.leb 48 n && Nat.leb n 57).
Definition quote_mark : string := String "034"%char "".

Definition shouldEscape (mode : encoding) (a : ascii) : bool :=
  if alphanumeric a then false
  else if match mode with encodeHost => one_of ("!$&'()*+,;=:[]<>" ++ quote_mark) a | _ => false end then false
  else if one_of "-_.~" a then false
  else if one_of "$&+,/:;=?@" a then
    match mode with
    | encodePath => Ascii.eqb a "?"
    | encodePathSegment => one_of "/;,?" a
    | encodeQueryComponent => true
    | encodeHost => true
    | encodeFragment => false
    end
  else match mode with encodeFragment => negb (one_of "!()*" a) | _ => true end.

Definition upper_hex (n : nat) : ascii := if Nat.ltb n 10 then byte_of (48 + n) else byte_of (55 + n).
Definition space : ascii := " "%char.
Definition escape1 (mode : encoding) (a : ascii) : list ascii :=
  if shouldEscape mode a then
    match mode with
    | encodeQueryComponent =>
        if Ascii.eqb a space then ["+"%char]
        else ["%"%char; upper_hex (Nat.div (code a) 16); upper_hex (Nat.modulo (code a) 16)]
    | _ => ["%"%char; upper_hex (Nat.div (code a) 16); upper_hex (Nat.modulo (code a) 16)]
    end
  else [a].
Definition escape (mode : encoding) (s : string) : string := of_chars (chars s ≫= escape1 mode).
Definition QueryEscape : string -> string := escape encodeQueryComponent.
Definition PathEscape : string -> string := escape encodePathSegment.

Definition unhex (a : ascii) : option nat :=
  let n := code a in
  if Nat.leb 48 n && Nat.leb n 57 then Some (n - 48)%nat
  else if Nat.leb 97 n && Nat.leb n 102 then Some (n - 87)%nat
  else if Nat.leb 65 n && Nat.leb n 70 then Some (n - 55)%nat
  else None.
Fixpoint unescape_go (plus : bool) (l : list ascii) : option (list ascii) :=
  match l with
  | [] => Some []
  | a :: r =>
      if Ascii.eqb a "%" then
        match r with
        | h :: k :: r' =>
            match unhex h, unhex k with
            | Some x, Some y => cons (byte_of (16 * x + y)) <$> unescape_go plus r'
            | _, _ => None
            end
        | _ => None
        end
      else cons (if plus && Ascii.eqb a "+" then space else a) <$> unescape_go plus r
  end.
Definition QueryUnescape (s : string) : option string := of_chars <$> unescape_go true (chars s).
Definition PathUnescape (s : string) : option string := of_chars <$> unescape_go false (chars s).

(** ** Query strings *)

(** [strings.Cut] at a one-byte separator: before, after, whether it was there. *)
Fixpoint cut_go (c : ascii) (l : list ascii) : list ascii * list ascii * bool :=
  match l with
  | [] => ([], [], false)
  | a :: r => if Ascii.eqb a c then ([], r, true)
              else let '(x, y, found) := cut_go c r in (a :: x, y, found)
  end.
Definition cut (c : ascii) (s : string) : string * string * bool :=
  let '(x, y, found) := cut_go c (chars s) in (of_chars x, of_chars y, found).

Notation Values := (gmap string (list string)).
Definition Get (k : string) (m : Values) : string := default "" (head (default [] (m !! k))).
Definition Set_ (k v : string) (m : Values) : Values := <[k := [v]]> m.
Definition Del (k : string) (m : Values) : Values := delete k m.
Definition add_value (m : Values) (kv : string * string) : Values :=
  <[kv.1 := (default [] (m !! kv.1) ++ [kv.2])%list]> m.

(** One setting of a query: [None] when [ParseQuery] skips it. *)
Definition parse_setting (s : string) : option (string * string) :=
  if contains s ";" then None
  else if (s =? "")%string then None
  else let '(k, v, _) := cut "=" s in
       match QueryUnescape k, QueryUnescape v with Some k, Some v => Some (k, v) | _, _ => None end.
Definition query_pairs (q : string) : list (string * string) := omap parse_setting (split_on "&" q).
Definition ParseQuery (q : string) : Values := foldl add_value ∅ (query_pairs q).

Definition str_le (a b : string) : Prop := String.leb a b = true.
#[export] Instance str_le_dec : RelDecision str_le := fun a b => decide (String.leb a b = true).
Definition sorted_keys (m : Values) : list string := merge_sort str_le (elements (dom m)).
Definition setting (kv : string * string) : string := QueryEscape kv.1 ++ "=" ++ QueryEscape kv.2.
Definition pairs_of (m : Values) : list (string * string) :=
  sorted_keys m ≫= fun k => pair k <$> default [] (m !! k).
Definition encode_values (m : Values) : string := GoStd.join "&" (setting <$> pairs_of m).

(** ** URLs *)

(** [u_user] is the user information as [Userinfo.String] writes it. *)
Record URL := mkURL {
  U_Scheme : string; U_Opaque : string; U_User : option string; U_Host : string; U_Path : string; U_RawPath : string;
  U_OmitHost : bool; U_ForceQuery : bool; U_RawQuery : string; U_Fragment : string; U_RawFragment : string }.

Definition Query (u : URL) : Values := ParseQuery (U_RawQuery u).
Definition with_query (q : string) (u : URL) : URL :=
  mkURL (U_Scheme u) (U_Opaque u) (U_User u) (U_Host u) (U_Path u) (U_RawPath u) (U_OmitHost u) (U_ForceQuery u) q
        (U_Fragment u) (U_RawFragment u).
Definition with_path (p : string) (u : URL) : URL :=
  mkURL (U_Scheme u) (U_Opaque u) (U_User u) (U_Host u) p "" (U_OmitHost u) (U_ForceQuery u) (U_RawQuery u)
        (U_Fragment u) (U_RawFragment u).

Definition validEncoded (mode : encoding) (s : string) : bool :=
  forallb (fun a => one_of "!$&'()*+,;=:@[]%" a || negb (shouldEscape mode a)) (chars s).
Definition escaped (mode : encoding) (raw plain : string) : string :=
  if negb (raw =? "")%string && validEncoded mode raw && bool_decide (PathUnescape raw = Some plain) then raw
  else if match mode with encodePath => (plain =? "*")%string | _ => false end then "*" else escape mode plain.
Definition EscapedPath (u : URL) : string := escaped encodePath (U_RawPath u) (U_Path u).
Definition EscapedFragment (u : URL) : string := escaped encodeFragment (U_RawFragment u) (U_Fragment u).

Definition nonempty (s : string) : bool := negb (s =? "")%string.
Definition authority_string (u : URL) : string :=
  if nonempty (U_Scheme u) || nonempty (U_Host u) || bool_decide (is_Some (U_User u)) then
    if U_OmitHost u && negb (nonempty (U_Host u)) && bool_decide (U_User u = None) then ""
    else (if nonempty (U_Host u) || nonempty (U_Path u) || bool_decide (is_Some (U_User u)) then "//" else "") ++
         match U_User u with Some ui => ui ++ "@" | None => "" end ++ escape encodeHost (U_Host u)
  else "".
(** The path, kept apart from what precedes it. *)
Definition path_string (before : string) (u : URL) : string :=
  let path := EscapedPath u in
  if nonempty path && negb (has_prefix path "/") && nonempty (U_Host u) then "/" ++ path
  else if negb (nonempty before) && contains (let '(x, _, _) := cut "/" path in x) ":" then "./" ++ path
  else path.
(** [URL.String] *)
Definition url_string (u : URL) : string :=
  let scheme := if nonempty (U_Scheme u) then U_Scheme u ++ ":" else "" in
  let front :=
    if nonempty (U_Opaque u) then scheme ++ U_Opaque u
    else let authority := scheme ++ authority_string u in authority ++ path_string authority u in
  front ++ (if U_ForceQuery u || nonempty (U_RawQuery u) then "?" ++ U_RawQuery u else "") ++
  (if nonempty (U_Fragment u) then "#" ++ EscapedFragment u else "").

(** ** Escaping is read back *)

Lemma of_chars_append a b : of_chars (a ++ b) = of_chars a ++ of_chars b.
Proof. induction a as [|x a IH]; [done|]. change (String x (of_chars (a ++ b)%list) = String x (of_chars a ++ of_chars b)). by rewrite IH. Qed.
(** The 256 bytes decide what is said of one byte. *)
Lemma byte_cases (P : ascii -> bool) : forallb (fun n => P (byte_of n)) (seq 0 256) = true -> forall a, P a = true.
Proof.
  rewrite forallb_forall. intros H a. rewrite <- (ascii_nat_embedding a). apply H.
  apply in_seq. split; [lia|]. apply nat_ascii_bounded.
Qed.
Lemma unescape_escape1 a r :
  unescape_go true (escape1 encodeQueryComponent a ++ r) = cons a <$> unescape_go true r.
Proof.
  assert (H : match escape1 encodeQueryComponent a with
              | [x] => (Ascii.eqb x a && negb (Ascii.eqb x "%") && negb (Ascii.eqb x "+")) || (Ascii.eqb x "+" && Ascii.eqb a space)
              | [p; h; k] => Ascii.eqb p "%" && bool_decide ((unhex h ≫= fun x => (fun y => byte_of (16 * x + y)) <$> unhex k) = Some a)
              | _ => false
              end = true).
  { revert a. apply byte_cases. vm_compute. reflexivity. }
  destruct (escape1 encodeQueryComponent a) as [|x [|h [|k [|? ?]]]]; try done.
  - apply orb_true_iff in H as [H|H].
    + apply andb_true_iff in H as [H Hp]. apply andb_true_iff in H as [H Hc]. apply Ascii.eqb_eq in H as ->.
      apply negb_true_iff in Hc, Hp. cbn [app unescape_go]. by rewrite Hc, Hp.
    + apply andb_true_iff in H as [H Hs]. apply Ascii.eqb_eq in H as ->, Hs as ->. done.
  - apply andb_true_iff in H as [Hp H]. apply Ascii.eqb_eq in Hp as ->. apply bool_decide_eq_true in H.
    cbn [app unescape_go Ascii.eqb Bool.eqb]. destruct (unhex h) as [y|]; [|done]. destruct (unhex k) as [z|]; [|done].
    cbn in H |- *. by injection H as ->.
Qed.

Lemma QueryUnescape_QueryEscape s : QueryUnescape (QueryEscape s) = Some s.
Proof.
  unfold QueryUnescape, QueryEscape, escape. rewrite chars_of_chars.
  rewrite <- (of_chars_chars s) at 2. generalize (chars s). intros l.
  enough (H : unescape_go true (l ≫= escape1 encodeQueryComponent) = Some l) by by rewrite H.
  induction l as [|a l IH]; [done|]. rewrite bind_cons, unescape_escape1, IH. done.
Qed.

(** An escaped text holds none of the characters that structure a query. *)
Definition plain_query (a : ascii) : bool := negb (one_of "&;=" a).
Lemma escape_plain s : forallb plain_query (chars (QueryEscape s)) = true.
Proof.
  unfold QueryEscape, escape. rewrite chars_of_chars. induction (chars s) as [|a l IH]; [done|].
  rewrite bind_cons, forallb_app, IH, andb_true_r. revert a. apply byte_cases. vm_compute. reflexivity.
Qed.

Lemma forallb_weaken {A} (p q : A -> bool) l : (forall a, p a = true -> q a = true) -> forallb p l = true -> forallb q l = true.
Proof. rewrite !forallb_forall. auto. Qed.

Lemma cut_go_plain c l r : forallb (fun a => negb (Ascii.eqb a c)) l = true -> cut_go c (l ++ c :: r) = (l, r, true).
Proof.
  induction l as [|a l IH]; cbn; [by rewrite Ascii.eqb_refl|].
  intros [Ha Hl]%andb_true_iff. apply negb_true_iff in Ha. rewrite Ha. by rewrite IH.
Qed.
Lemma contains_char s c : contains s (String c "") = existsb (Ascii.eqb c) (chars s).
Proof.
  induction s as [|a s IH]; [done|].
  change (String.prefix (String c "") (String a s) || contains s (String c "") = Ascii.eqb c a || existsb (Ascii.eqb c) (chars s)).
  rewrite IH. f_equal. cbn. destruct (Ascii.eqb_spec c a); destruct (ascii_dec c a); try done. by destruct s.
Qed.
Lemma plain_existsb c l : one_of "&;=" c = true -> forallb plain_query l = true -> existsb (Ascii.eqb c) l = false.
Proof.
  intros Hc. induction l as [|a l IH]; [done|]. cbn [forallb existsb]. intros [Ha Hl]%andb_true_iff.
  rewrite IH by done. rewrite orb_false_r. destruct (Ascii.eqb_spec c a) as [->|]; [|done].
  unfold plain_query in Ha. by rewrite Hc in Ha.
Qed.
Lemma chars_setting kv : chars (setting kv) = (chars (QueryEscape kv.1) ++ "="%char :: chars (QueryEscape kv.2))%list.
Proof. unfold setting. rewrite !chars_app. done. Qed.

Lemma parse_setting_setting kv : parse_setting (setting kv) = Some kv.
Proof.
  unfold parse_setting. rewrite contains_char, chars_setting, existsb_app. cbn [existsb].
  rewrite !(plain_existsb ";" _) by (done || apply escape_plain). change (false || (Ascii.eqb ";" "=" || false)) with false. cbn iota.
  destruct (String.eqb_spec (setting kv) "") as [He|_].
  { apply (f_equal chars) in He. rewrite chars_setting in He. by destruct (chars (QueryEscape kv.1)). }
  unfold cut. rewrite chars_setting, cut_go_plain.
  - rewrite !of_chars_chars, !QueryUnescape_QueryEscape. by destruct kv.
  - eapply forallb_weaken; [|apply escape_plain]. intros a Ha. unfold plain_query in Ha.
    destruct (Ascii.eqb_spec a "="); [by subst|done].
Qed.

Lemma split_go_free c acc l : existsb (Ascii.eqb c) l = false -> split_go c acc l = [of_chars (rev acc ++ l)%list].
Proof.
  revert acc. induction l as [|a l IH]; intros acc; cbn [existsb split_go]; [by rewrite app_nil_r|].
  intros [Ha Hl]%orb_false_iff. rewrite Ascii.eqb_sym in Ha. rewrite Ha, IH by done. cbn [rev]. by rewrite <- app_assoc.
Qed.
Lemma split_go_cut c acc l r : existsb (Ascii.eqb c) l = false ->
  split_go c acc (l ++ c :: r) = of_chars (rev acc ++ l)%list :: split_go c [] r.
Proof.
  revert acc. induction l as [|a l IH]; intros acc; cbn [existsb app split_go]; [by rewrite Ascii.eqb_refl, app_nil_r|].
  intros [Ha Hl]%orb_false_iff. rewrite Ascii.eqb_sym in Ha. rewrite Ha, IH by done. cbn [rev]. by rewrite <- app_assoc.
Qed.
Lemma split_join c es : es <> [] -> Forall (fun e => existsb (Ascii.eqb c) (chars e) = false) es ->
  split_on c (GoStd.join (String c "") es) = es.
Proof.
  intros Hne Hes. unfold split_on. induction Hes as [|e es He Hes IH]; [done|].
  destruct es as [|e' es].
  { change (GoStd.join (String c "") [e]) with e. rewrite split_go_free by done. exact (f_equal (fun x => [x]) (of_chars_chars e)). }
  change (GoStd.join (String c "") (e :: e' :: es)) with (e ++ String c "" ++ GoStd.join (String c "") (e' :: es)).
  rewrite chars_app. change (chars (String c "" ++ ?s)) with (c :: chars s). rewrite split_go_cut by done.
  rewrite (of_chars_chars e : of_chars (rev [] ++ chars e)%list = e). f_equal. by apply IH.
Qed.

Lemma query_pairs_settings kvs : query_pairs (GoStd.join "&" (setting <$> kvs)) = kvs.
Proof.
  destruct kvs as [|kv kvs]; [done|]. unfold query_pairs. rewrite (split_join "&").
  - generalize (kv :: kvs). intros l. induction l as [|x l IH]; [done|]. cbn. rewrite parse_setting_setting. by rewrite IH.
  - done.
  - apply Forall_fmap, Forall_true. intros x. unfold compose. rewrite chars_setting, existsb_app. cbn [existsb].
    rewrite !(plain_existsb "&" _) by (done || apply escape_plain). done.
Qed.

(** ** Queries are read back *)

Definition values_at (k : string) (kvs : list (string * string)) : list string :=
  snd <$> filter (fun kv => kv.1 = k) kvs.
Lemma lookup_add_values m kvs k :
  foldl add_value m kvs !! k =
  match values_at k kvs with [] => m !! k | vs => Some (default [] (m !! k) ++ vs)%list end.
Proof.
  revert m. induction kvs as [|[k' v] kvs IH]; intros m; [done|]. cbn [foldl]. rewrite IH. unfold values_at, add_value. cbn [fst snd].
  rewrite filter_cons. destruct (decide _) as [<-|Hne]; cbn [fst snd] in *.
  - rewrite lookup_insert_eq. cbn. destruct (snd <$> _); [done|]. by rewrite <- app_assoc.
  - by rewrite lookup_insert_ne.
Qed.
Lemma values_at_app k a b : values_at k (a ++ b) = (values_at k a ++ values_at k b)%list.
Proof. unfold values_at. by rewrite filter_app, fmap_app. Qed.
Lemma values_at_same k vs : values_at k (pair k <$> vs) = vs.
Proof.
  unfold values_at. induction vs as [|v vs IH]; [done|]. rewrite fmap_cons, filter_cons, decide_True by done.
  by rewrite fmap_cons, IH.
Qed.
Lemma values_at_other k k' vs : k' <> k -> values_at k (pair k' <$> vs) = [].
Proof.
  intros Hne. unfold values_at. induction vs as [|v vs IH]; [done|]. rewrite fmap_cons, filter_cons, decide_False by done. done.
Qed.
Lemma values_at_keys (m : Values) k ks : NoDup ks ->
  values_at k (ks ≫= fun k => pair k <$> default [] (m !! k)) = if decide (k ∈ ks) then default [] (m !! k) else [].
Proof.
  induction 1 as [|k' ks Hn _ IH]; [done|]. rewrite bind_cons, values_at_app, IH.
  destruct (decide (k' = k)) as [->|Hne].
  - rewrite values_at_same, (decide_False (P := k ∈ ks)) by done. rewrite decide_True by set_solver. by rewrite app_nil_r.
  - rewrite values_at_other by done. cbn [app]. destruct (decide (k ∈ ks)); [rewrite decide_True by set_solver|rewrite decide_False by set_solver]; done.
Qed.
Lemma values_at_pairs m k : values_at k (pairs_of m) = default [] (m !! k).
Proof.
  unfold pairs_of, sorted_keys. rewrite values_at_keys.
  - destruct (decide _) as [|Hn]; [done|]. rewrite merge_sort_Permutation, elem_of_elements, elem_of_dom in Hn.
    apply eq_None_not_Some in Hn. by rewrite Hn.
  - rewrite merge_sort_Permutation. apply NoDup_elements.
Qed.

(** What [Encode] writes, [ParseQuery] reads back. *)
Lemma ParseQuery_encode m : map_Forall (fun _ vs => vs <> []) m -> ParseQuery (encode_values m) = m.
Proof.
  intros Hm. apply map_eq. intros k. unfold ParseQuery, encode_values. rewrite query_pairs_settings, lookup_add_values, values_at_pairs.
  rewrite lookup_empty. destruct (m !! k) as [vs|] eqn:E; [|done]. cbn. apply Hm in E. by destruct vs.
Qed.
Lemma ParseQuery_values q : map_Forall (fun _ vs => vs <> []) (ParseQuery q).
Proof.
  intros k vs Hk. unfold ParseQuery in Hk. rewrite lookup_add_values, lookup_empty in Hk. destruct (values_at k _) eqn:E; [done|].
  by injection Hk as <-.
Qed.

(** A key deleted from a query is gone for whoever parses the URL, and every
    other setting is kept. *)
Lemma Query_del k u :
  Query (with_query (encode_values (Del k (Query u))) u) = delete k (Query u).
Proof.
  unfold Query. cbn. apply ParseQuery_encode. apply map_Forall_delete, ParseQuery_values.
Qed.
