(* ===== verification/Accounts.v ===== *)
(** * Accounts of the workspace ([core/osidentity], [terminal/account_unix.go])

    Terminals and file operations run in processes of the operating system
    account their assignment names. This file models how that account is
    resolved and authorised, how a command is prepared for it, and how a
    terminal is opened in its login shell. *)

From S2P Require Import Prelude.
From S2P Require Import GoStd.
From S2P Require Import GoPath.
From S2P Require Import GoUrl.

Local Open Scope string_scope.
Local Open Scope Z_scope.

(** ** What the host answers *)

(** [user.User] *)
Record User := mkUser { us_Uid : string; us_Gid : string; us_Username : string; us_HomeDir : string }.
#[export] Instance User_eq : EqDecision User.
Proof. solve_decision. Defined.

(** [ah_WorkspaceUsers] is the variable KOMARI_WORKSPACE_USERS of the agent;
    [ah_getent] is [None] when the program is not installed, and otherwise what
    [getent passwd uid] prints ([None] when it fails); [ah_start] says whether a
    command starts. *)
Record Cmd := mkCmd {
  cmd_Path : string; cmd_Args : list string; cmd_Env : list string; cmd_Dir : string;
  cmd_Credential : option (Z * Z * list Z) }.
Record AccountHost := mkAccountHost {
  ah_lookup : string -> option User;
  ah_current : option User;
  ah_WorkspaceUsers : string;
  ah_euid : Z;
  ah_group_ids : User -> option (list string);
  ah_getent : option (string -> list string -> option string);
  ah_passwd : option string;
  ah_executable : option string;
  ah_start : Cmd -> bool;
}.

Inductive acct_err :=
| AccountNameRequired | AccountMissing | CurrentUnknown | AccountNotListed | RootNotListed | CannotSwitch
| NotANumber | GroupsUnknown | NoExecutable | StartFailed
| ReadShell | LineTooLong | ShellNotAbsolute | ShellMissing.
#[export] Instance acct_err_eq : EqDecision acct_err.
Proof. solve_decision. Defined.

(** ** The identity *)

(** [strings.ContainsAny(name, "\x00\r\n")] *)
Definition breaks_line (name : string) : bool :=
  existsb (fun a => Nat.eqb (code a) 0 || Nat.eqb (code a) 13 || Nat.eqb (code a) 10) (chars name).
Definition listed (allowed username : string) : bool :=
  existsb (fun entry => (trim_space entry =? username)%string) (split_on "," allowed).

Definition Resolve (H : AccountHost) (name : string) : result User acct_err :=
  guard? negb ((name =? "")%string || negb (name =? trim_space name)%string || (128 <? slen name) || breaks_line name)
    else AccountNameRequired in
  match ah_lookup H name with
  | None => Err AccountMissing
  | Some target =>
      match ah_current H with
      | None => Err CurrentUnknown
      | Some current =>
          let allowed := ah_WorkspaceUsers H in
          let decision :=
            if negb (allowed =? "")%string then
              if listed allowed (us_Username target) then None else Some AccountNotListed
            else if (us_Uid target =? "0")%string then Some RootNotListed else None in
          match decision with
          | Some e => Err e
          | None =>
              guard? (us_Uid current =? "0")%string || (us_Uid current =? us_Uid target)%string else CannotSwitch in
              Ok target
          end
      end
  end.

Definition Environment (u : User) : list string :=
  ["PATH=/usr/local/bin:/usr/bin:/bin"; "HOME=" ++ us_HomeDir u; "USER=" ++ us_Username u;
   "LOGNAME=" ++ us_Username u; "TERM=xterm-256color"; "LANG=C.UTF-8"; "LC_ALL=C.UTF-8"].

(** [strconv.ParseUint(s, 10, 32)] *)
Definition parse_uint32 (s : string) : option Z :=
  match parse_udec (chars s) with Some z => if z <? 2 ^ 32 then Some z else None | None => None end.

Definition Configure (H : AccountHost) (u : User) (cmd : Cmd) (directory : string) : result Cmd acct_err :=
  match parse_uint32 (us_Uid u) with
  | None => Err NotANumber
  | Some uid =>
      match parse_uint32 (us_Gid u) with
      | None => Err NotANumber
      | Some gid =>
          let dir := if (directory =? "")%string then us_HomeDir u else directory in
          if ah_euid H =? 0 then
            match ah_group_ids H u with
            | None => Err GroupsUnknown
            | Some ids =>
                match mapM parse_uint32 ids with
                | None => Err NotANumber
                | Some groups => Ok (mkCmd (cmd_Path cmd) (cmd_Args cmd) (Environment u) dir (Some (uid, gid, groups)))
                end
            end
          else Ok (mkCmd (cmd_Path cmd) (cmd_Args cmd) (Environment u) dir (cmd_Credential cmd))
      end
  end.

(** ** The login shell *)

(** [bufio.Scanner] over lines: a line of 65536 bytes or more without its end
    is too long for its buffer. [Err] holds the lines before that one. *)
Definition max_token : nat := Z.to_nat 65536.
Definition drop_cr (l : list ascii) : list ascii :=
  match rev l with "013"%char :: r => rev r | _ => l end.
Fixpoint scan_go (acc : list ascii) (l : list ascii) : list (list ascii) :=
  match l with
  | [] => match acc with [] => [] | _ => [rev acc] end
  | a :: r => if Ascii.eqb a "010" then rev acc :: scan_go [] r else scan_go (a :: acc) r
  end.
Definition fits (line : list ascii) : bool := Nat.ltb (length line) max_token.
Fixpoint shell_of_lines (lines : list (list ascii)) (username uid : string) : result string acct_err :=
  match lines with
  | [] => Err ShellMissing
  | raw :: rest =>
      guard? fits raw else LineTooLong in
      match split_on ":" (of_chars (drop_cr raw)) with
      | [name; _; id; _; _; _; shell] =>
          if negb ((name =? username)%string && (id =? uid)%string) then shell_of_lines rest username uid else
          let shell := if (shell =? "")%string then "/bin/sh" else shell in
          guard? is_abs shell && (clean shell =? shell)%string else ShellNotAbsolute in
          Ok shell
      | _ => shell_of_lines rest username uid
      end
  end.
Definition loginShellFromPasswd (input username uid : string) : result string acct_err :=
  shell_of_lines (scan_go [] (chars input)) username uid.

Definition accountLoginShell (H : AccountHost) (u : User) : result string acct_err :=
  match ah_getent H with
  | Some getent =>
      match getent (us_Uid u) (Environment u) with
      | None => Err ReadShell
      | Some output => loginShellFromPasswd output (us_Username u) (us_Uid u)
      end
  | None =>
      match ah_passwd H with
      | None => Err ReadShell
      | Some passwd => loginShellFromPasswd passwd (us_Username u) (us_Uid u)
      end
  end.

(** ** Opening a terminal *)

Definition dq : string := String "034"%char "".
Definition nl : string := String "010"%char "".
Definition accountShellPrelude : string :=
  "if [ ! -e " ++ dq ++ "$HOME/.hushlogin" ++ dq ++ " ]; then" ++ nl ++
  "if [ -r /run/motd.dynamic ]; then cat /run/motd.dynamic; elif [ -r /var/run/motd.dynamic ]; then cat /var/run/motd.dynamic; fi" ++ nl ++
  "[ ! -r /etc/motd ] || cat /etc/motd" ++ nl ++ "fi" ++ nl ++ "exec " ++ dq ++ "$1" ++ dq ++ " -i -l".
Definition buildAccountShellCommand (shell : string) : Cmd :=
  mkCmd "/bin/sh" ["/bin/sh"; "-c"; accountShellPrelude; "komari-workspace"; shell] [] "" None.

Record terminalImpl := mkTerminal { tm_shell : string; tm_workingDir : string; tm_cmd : Cmd }.

Definition newTerminalAs (H : AccountHost) (username shell directory : string) : result terminalImpl acct_err :=
  try? u := Resolve H username in
  try? shell := (if (shell =? "")%string then accountLoginShell H u else Ok shell) in
  guard? is_abs shell && (clean shell =? shell)%string else ShellNotAbsolute in
  try? cmd := Configure H u (buildAccountShellCommand shell) directory in
  let cmd := mkCmd (cmd_Path cmd) (cmd_Args cmd) (cmd_Env cmd ++ [("SHELL=" ++ shell)%string])%list (cmd_Dir cmd) (cmd_Credential cmd) in
  guard? ah_start H cmd else StartFailed in
  Ok (mkTerminal shell (cmd_Dir cmd) cmd).

(** The command of a file worker ([startFileWorker] up to its pipes). *)
Definition WorkerArgument : string := "--workspace-file-worker".
Definition worker_command (H : AccountHost) (username : string) : result (User * Cmd) acct_err :=
  try? u := Resolve H username in
  match ah_executable H with
  | None => Err NoExecutable
  | Some executable =>
      try? cmd := Configure H u (mkCmd executable [executable; WorkerArgument] [] "" None) "" in
      Ok (u, cmd)
  end.

(** ** What a command runs as *)

(** The kernel gives a started process the credential of its command, or the
    agent's own. *)
Definition runs_as (H : AccountHost) (cmd : Cmd) : Z :=
  match cmd_Credential cmd with Some (uid, _, _) => uid | None => ah_euid H end.

(** [user.Current] names the user the agent runs as (it is not setuid). *)
Definition current_is_effective (H : AccountHost) : Prop :=
  forall u, ah_current H = Some u -> us_Uid u = utoa (ah_euid H) /\ 0 <= ah_euid H < 2 ^ 32.
(** [user.Lookup] answers with an account of the host, whose number is written
    in decimal without leading zeros. *)
Definition numbers_are_canonical (H : AccountHost) : Prop :=
  forall name u, ah_lookup H name = Some u -> exists n, us_Uid u = utoa n /\ 0 <= n < 2 ^ 32.

(** An account may be used: it exists under that name, the administrator's list
    (when there is one) names it, and root only if the list does. *)
Definition authorised (H : AccountHost) (name : string) (u : User) : Prop :=
  ah_lookup H name = Some u /\ name <> "" /\ trim_space name = name /\ slen name <= 128 /\ breaks_line name = false /\
  (if (ah_WorkspaceUsers H =? "")%string then us_Uid u <> "0" else listed (ah_WorkspaceUsers H) (us_Username u) = true) /\
  (exists c, ah_current H = Some c /\ (us_Uid c = "0" \/ us_Uid c = us_Uid u)).

Lemma Resolve_ok H name u : Resolve H name = Ok u <-> authorised H name u.
Proof.
  unfold Resolve, authorised. split.
  - intros Hr. destruct (_ || _ || _ || _) eqn:Eg; [done|]. cbn [negb] in Hr.
    destruct (ah_lookup H name) as [t|]; [|done]. destruct (ah_current H) as [c|]; [|done]. cbn zeta in Hr.
    destruct (ah_WorkspaceUsers H =? "")%string; cbn [negb] in Hr.
    + destruct (String.eqb_spec (us_Uid t) "0"); [done|]. ok_inv Hr. bool_hyps. eauto 10 using Z.lt_le_incl with lia.
    + destruct (listed _ _) eqn:El; [|done]. ok_inv Hr. bool_hyps. eauto 10.
  - intros (Hl & Hne & Ht & Hs & Hb & Hallow & c & Hc & Hsame). rewrite Hl, Hc, Hb, Ht.
    rewrite String.eqb_refl. destruct (String.eqb_spec name "") as [|_]; [done|]. rewrite (proj2 (Z.ltb_ge _ _)) by done. cbn.
    assert (((us_Uid c =? "0") || (us_Uid c =? us_Uid u))%string = true) as ->.
    { apply orb_true_iff. rewrite !String.eqb_eq. done. }
    destruct (ah_WorkspaceUsers H =? "")%string; cbn; [|by rewrite Hallow]. by destruct (String.eqb_spec (us_Uid u) "0").
Qed.

(** ** Every process runs as the account that was named *)

Lemma parse_uint32_utoa n : 0 <= n < 2 ^ 32 -> parse_uint32 (utoa n) = Some n.
Proof.
  intros Hn. unfold parse_uint32. rewrite parse_udec_utoa by lia. by destruct (Z.ltb_spec n (2 ^ 32)); [|lia].
Qed.

Lemma Configure_ok H u cmd directory cmd' :
  Configure H u cmd directory = Ok cmd' ->
  cmd_Path cmd' = cmd_Path cmd /\ cmd_Args cmd' = cmd_Args cmd /\ cmd_Env cmd' = Environment u /\
  cmd_Dir cmd' = (if (directory =? "")%string then us_HomeDir u else directory) /\
  is_Some (parse_uint32 (us_Uid u)) /\
  (if ah_euid H =? 0
   then exists uid gid groups, cmd_Credential cmd' = Some (uid, gid, groups) /\ parse_uint32 (us_Uid u) = Some uid /\
                               parse_uint32 (us_Gid u) = Some gid /\
                               (ah_group_ids H u ≫= mapM parse_uint32) = Some groups
   else cmd_Credential cmd' = cmd_Credential cmd).
Proof.
  unfold Configure. intros Hc. destruct (parse_uint32 (us_Uid u)) as [uid|] eqn:Eu; [|done].
  destruct (parse_uint32 (us_Gid u)) as [gid|]; [|done]. destruct (ah_euid H =? 0).
  - destruct (ah_group_ids H u) as [ids|]; [|done]. cbn. destruct (mapM parse_uint32 ids) as [groups|]; [|done].
    injection Hc as <-. cbn. split_and!; eauto 10.
  - injection Hc as <-. cbn. eauto 10.
Qed.

(** A configured command runs as the account it was configured for. *)
Lemma configured_runs_as H name u cmd directory cmd' :
  current_is_effective H -> Resolve H name = Ok u -> Configure H u cmd directory = Ok cmd' -> cmd_Credential cmd = None ->
  parse_uint32 (us_Uid u) = Some (runs_as H cmd').
Proof.
  intros Hcur Hr Hc Hn. apply Resolve_ok in Hr as (_ & _ & _ & _ & _ & _ & c & Hc' & Hsame).
  apply Configure_ok in Hc as (_ & _ & _ & _ & _ & Hcred). unfold runs_as.
  destruct (Z.eqb_spec (ah_euid H) 0) as [H0|H0].
  - destruct Hcred as (uid & gid & groups & -> & -> & _). done.
  - rewrite Hcred, Hn. destruct (Hcur c Hc') as [Huid Hrange]. rewrite Huid in Hsame. destruct Hsame as [Hz|Hs].
    + exfalso. apply H0. apply utoa_inj; [lia|lia|exact Hz].
    + rewrite <- Hs. by apply parse_uint32_utoa.
Qed.

Lemma worker_command_ok H username u cmd :
  worker_command H username = Ok (u, cmd) ->
  Resolve H username = Ok u /\ cmd_Env cmd = Environment u /\ cmd_Dir cmd = us_HomeDir u /\
  (exists e, ah_executable H = Some e /\ cmd_Path cmd = e /\ cmd_Args cmd = [e; WorkerArgument]) /\
  (current_is_effective H -> parse_uint32 (us_Uid u) = Some (runs_as H cmd)).
Proof.
  unfold worker_command. destruct (Resolve H username) as [t|] eqn:Er; [|done]. destruct (ah_executable H) as [e|] eqn:Ee; [|done].
  destruct (Configure H t _ "") as [c|] eqn:Ec; [|done]. intros [= -> ->].
  pose proof (Configure_ok _ _ _ _ _ Ec) as (Hp & Ha & He & Hd & _). split_and!; eauto 10.
  intros Hcur. by eapply configured_runs_as.
Qed.

Lemma terminal_start_ok H username shell directory t :
  newTerminalAs H username shell directory = Ok t ->
  exists u sh cmd, Resolve H username = Ok u /\
    (if (shell =? "")%string then accountLoginShell H u else Ok shell) = Ok sh /\
    is_abs sh = true /\ clean sh = sh /\
    Configure H u (buildAccountShellCommand sh) directory = Ok cmd /\
    tm_cmd t = mkCmd (cmd_Path cmd) (cmd_Args cmd) (cmd_Env cmd ++ [("SHELL=" ++ sh)%string])%list (cmd_Dir cmd) (cmd_Credential cmd) /\
    tm_shell t = sh /\ tm_workingDir t = cmd_Dir cmd /\ ah_start H (tm_cmd t) = true.
Proof.
  unfold newTerminalAs. destruct (Resolve H username) as [u|]; [|done].
  destruct (if (shell =? "")%string then _ else _) as [sh|] eqn:Es; [|done].
  destruct (is_abs sh && _) eqn:Ea; [|done]. destruct (Configure H u _ directory) as [cmd|] eqn:Ec; [|done].
  destruct (ah_start H _) eqn:Est; [|done]. intros [= <-]. bool_hyps. exists u, sh, cmd. split_and!; done.
Qed.

(** A terminal opens only for an account the host knows and the
    administrator admits (root only when his list names it), and runs as that
    account; its environment is the seven variables of that account and its
    shell, nothing of the agent's; the shell is an absolute, clean path, handed
    over as an argument and not as text of the script. *)
Theorem terminal_runs_as_account H username shell directory t :
  current_is_effective H -> numbers_are_canonical H ->
  newTerminalAs H username shell directory = Ok t ->
  exists u, authorised H username u /\ us_Uid u = utoa (runs_as H (tm_cmd t)) /\
    cmd_Env (tm_cmd t) = (Environment u ++ [("SHELL=" ++ tm_shell t)%string])%list /\
    cmd_Args (tm_cmd t) = ["/bin/sh"; "-c"; accountShellPrelude; "komari-workspace"; tm_shell t] /\
    is_abs (tm_shell t) = true /\ clean (tm_shell t) = tm_shell t /\
    (runs_as H (tm_cmd t) = 0 -> listed (ah_WorkspaceUsers H) (us_Username u) = true).
Proof.
  intros Hcur Hcan Ht. destruct (terminal_start_ok _ _ _ _ _ Ht) as (u & sh & cmd & Hr & _ & Habs & Hcl & Hc & Hcmd & Hsh & _ & _).
  pose proof (Configure_ok _ _ _ _ _ Hc) as (_ & Hargs & Henv & _ & _ & _).
  pose proof (configured_runs_as _ _ _ _ _ _ Hcur Hr Hc eq_refl) as Hrun.
  pose proof (proj1 (Resolve_ok _ _ _) Hr) as Hauth. destruct (Hcan username u (proj1 Hauth)) as (n & Hn & Hrange).
  rewrite Hn, parse_uint32_utoa in Hrun by done. injection Hrun as ->. exists u. rewrite Hcmd, Hsh. unfold runs_as. cbn [cmd_Env cmd_Args cmd_Credential].
  change (match cmd_Credential cmd with Some (uid, _, _) => uid | None => ah_euid H end) with (runs_as H cmd).
  split_and!; try done; [by rewrite Henv|].
  intros H0. rewrite H0 in Hn. destruct Hauth as (_ & _ & _ & _ & _ & Hallow & _). destruct (ah_WorkspaceUsers H =? "")%string; [|done].
  by destruct Hallow.
Qed.

(** ** The password database is read as it is written *)

Record passwd_entry := mkPasswd { pe_name : string; pe_uid : string; pe_other : string * string * string * string; pe_shell : string }.
Definition passwd_line (e : passwd_entry) : string :=
  let '(password, gid, gecos, home) := pe_other e in
  GoStd.join ":" [pe_name e; password; pe_uid e; gid; gecos; home; pe_shell e].
Definition free_of (c : ascii) (s : string) : Prop := existsb (Ascii.eqb c) (chars s) = false.
Definition fields (e : passwd_entry) : list string :=
  let '(password, gid, gecos, home) := pe_other e in [pe_name e; password; pe_uid e; gid; gecos; home; pe_shell e].
Record well_formed (e : passwd_entry) : Prop := {
  wf_fields : Forall (free_of ":") (fields e);
  wf_line : free_of "010" (passwd_line e);
  wf_cr : drop_cr (chars (passwd_line e)) = chars (passwd_line e);
  wf_short : fits (chars (passwd_line e)) = true;
}.
Definition database (es : list passwd_entry) : string :=
  of_chars (es ≫= fun e => (chars (passwd_line e) ++ ["010"%char])%list).
Definition names_account (username uid : string) (e : passwd_entry) : bool :=
  ((pe_name e =? username) && (pe_uid e =? uid))%string.
Definition usable_shell (shell : string) : result string acct_err :=
  let shell := if (shell =? "")%string then "/bin/sh" else shell in
  if is_abs shell && (clean shell =? shell)%string then Ok shell else Err ShellNotAbsolute.

Lemma scan_go_line acc l r : existsb (Ascii.eqb "010") l = false ->
  scan_go acc (l ++ "010"%char :: r) = (rev acc ++ l)%list :: scan_go [] r.
Proof.
  revert acc. induction l as [|a l IH]; intros acc; cbn [existsb app scan_go]; [by rewrite Ascii.eqb_refl, app_nil_r|].
  intros [Ha Hl]%orb_false_iff. rewrite Ascii.eqb_sym in Ha. rewrite Ha, IH by done. cbn [rev]. by rewrite <- app_assoc.
Qed.
Lemma passwd_line_fields e : passwd_line e = GoStd.join ":" (fields e).
Proof. unfold passwd_line, fields. by destruct (pe_other e) as [[[? ?] ?] ?]. Qed.
Lemma shell_of_line e rest username uid : well_formed e ->
  shell_of_lines (chars (passwd_line e) :: rest) username uid =
  if names_account username uid e then usable_shell (pe_shell e) else shell_of_lines rest username uid.
Proof.
  intros [Hf Hl Hc Hs]. cbn [shell_of_lines]. rewrite Hs, Hc, of_chars_chars. rewrite passwd_line_fields, (split_join ":") by
    (done || by unfold fields; destruct (pe_other e) as [[[? ?] ?] ?]).
  unfold fields. destruct (pe_other e) as [[[? ?] ?] ?]. unfold names_account.
  destruct ((pe_name e =? username) && (pe_uid e =? uid))%string; done.
Qed.

(** The login shell read is that of the first entry of the account. *)
Theorem login_shell_is_the_accounts es username uid :
  Forall well_formed es ->
  loginShellFromPasswd (database es) username uid =
  match List.find (names_account username uid) es with
  | Some e => usable_shell (pe_shell e)
  | None => Err ShellMissing
  end.
Proof.
  unfold loginShellFromPasswd, database. rewrite chars_of_chars. induction 1 as [|e es He _ IH]; [done|].
  rewrite bind_cons, <- app_assoc. cbn [app]. rewrite scan_go_line by apply (wf_line e He). cbn [rev app List.find].
  rewrite shell_of_line by done. destruct (names_account username uid e); [done|exact IH].
Qed.
