(* ===== verification/Workspace.v ===== *)
(** * File workers of the workspace ([files/worker.go], [clientcore/files.go])

    File operations run in one worker process per grant ("scope"), as the
    account the assignment names. The executor's methods run in many goroutines:
    every critical section is one event here, and a run is any sequence of
    events. A worker is another user's process: what it answers is arbitrary. *)

From S2P Require Import Prelude.
From S2P Require Import GoStd.
From S2P Require Import Files.
From S2P Require Import Accounts.

Local Open Scope string_scope.
Local Open Scope Z_scope.

(** ** Operations and events *)

Inductive FileOperation :=
| FILE_OPERATION_UNSPECIFIED | FILE_OPERATION_LIST | FILE_OPERATION_LIST_ROOTS | FILE_OPERATION_STAT | FILE_OPERATION_CREATE
| FILE_OPERATION_MKDIR | FILE_OPERATION_DELETE | FILE_OPERATION_MOVE | FILE_OPERATION_COPY | FILE_OPERATION_CHMOD
| FILE_OPERATION_CHOWN | FILE_OPERATION_SEARCH | FILE_OPERATION_DOWNLOAD_STREAM | FILE_OPERATION_UPLOAD_STREAM
| FILE_OPERATION_OTHER (n : Z).
#[export] Instance FileOperation_eq : EqDecision FileOperation.
Proof. solve_decision. Defined.

Definition operationName (operation : FileOperation) : string :=
  match operation with
  | FILE_OPERATION_LIST => "list"
  | FILE_OPERATION_LIST_ROOTS => "list_roots"
  | FILE_OPERATION_STAT => "stat"
  | FILE_OPERATION_CREATE => "create"
  | FILE_OPERATION_MKDIR => "mkdir"
  | FILE_OPERATION_DELETE => "delete"
  | FILE_OPERATION_MOVE => "move"
  | FILE_OPERATION_COPY => "copy"
  | FILE_OPERATION_CHMOD => "chmod"
  | FILE_OPERATION_CHOWN => "chown"
  | FILE_OPERATION_SEARCH => "search"
  | FILE_OPERATION_DOWNLOAD_STREAM => "download_stream"
  | FILE_OPERATION_UPLOAD_STREAM => "upload_stream"
  | _ => ""
  end.

(** [FileEntry], [SearchMatch] and [AgentFileEvent]; a time is [None] when it is
    not set. *)
Record FileEntry := mkFileEntry {
  fy_Name : string; fy_Path : string; fy_Directory : bool; fy_Symlink : bool; fy_Mode : string; fy_ModeOctal : string;
  fy_Uid : Z; fy_Gid : Z; fy_Owner : string; fy_Group : string; fy_Target : string; fy_Size : Z; fy_ModifiedAt : option time }.
Record SearchMatch := mkMatch { sm_Path : string; sm_Line : Z; sm_Text : string; sm_Directory : bool }.
Record FileEvent := mkFileEvent {
  fe_RequestId : string; fe_Operation : FileOperation; fe_Success : bool; fe_Error : string; fe_Path : string;
  fe_Entries : list FileEntry; fe_Matches : list SearchMatch; fe_Limited : bool }.
Definition failure (operation : FileOperation) (error : string) : FileEvent :=
  mkFileEvent "" operation false error "" [] [] false.

Definition workerTransferURL : string := "_workspace_transfer_url".
Definition effective_name (operation : FileOperation) (args : arguments) : string :=
  let override := argString args "_op" in
  if negb (override =? "")%string then override else operationName operation.
Definition is_stream (name : string) : bool := ((name =? "upload_stream") || (name =? "download_stream"))%string.
(** A relay address in remote metadata is dropped. *)
Definition worker_arguments (args : arguments) : arguments := delete workerTransferURL args.

(** ** The executor *)

(** Where a goroutine of [Execute] stands: not begun, arguments prepared, worker
    chosen, registered with it, request written, leaving (the deferred
    function is still to run), returned. *)
Inductive phase :=
| Begun
| Prepared (args : arguments)
| Chosen (w : nat) (args : arguments)
| Registered (w : nat) (args : arguments)
| Waiting (w : nat)
| Leaving (w : nat) (event : FileEvent)
| Returned (event : FileEvent).
Record Call := mkCall {
  ca_scope : string; ca_username : string; ca_request : string; ca_operation : FileOperation; ca_args : arguments;
  ca_relay : option string;       (** the relay this call opened *)
  ca_done : bool;                 (** its context has ended *)
  ca_response : option FileEvent; (** its one-place channel *)
  ca_phase : phase }.

(** [wk_pending] maps a request to the call whose channel waits for it;
    [wk_reading] is what the reader goroutine has decoded and not yet passed on;
    [wk_received] and [wk_decoded] record what went down and came up the pipes. *)
Record Worker := mkWorker {
  wk_username : string; wk_user : User; wk_cmd : Cmd;
  wk_pending : gmap string nat; wk_lastUsed : time; wk_closed : bool;
  wk_reading : option (option nat * FileEvent); wk_ended : bool;
  wk_received : list (nat * string * FileOperation * arguments);
  wk_decoded : list (string * FileEvent) }.
Record Pool := mkPool { po_scopes : gmap string nat; po_workers : list Worker; po_calls : list Call; po_now : time }.

Definition set_phase (f : phase) (c : Call) : Call :=
  mkCall (ca_scope c) (ca_username c) (ca_request c) (ca_operation c) (ca_args c) (ca_relay c) (ca_done c) (ca_response c) f.
Definition set_relay (r : option string) (c : Call) : Call :=
  mkCall (ca_scope c) (ca_username c) (ca_request c) (ca_operation c) (ca_args c) r (ca_done c) (ca_response c) (ca_phase c).
Definition set_done (c : Call) : Call :=
  mkCall (ca_scope c) (ca_username c) (ca_request c) (ca_operation c) (ca_args c) (ca_relay c) true (ca_response c) (ca_phase c).
(** A send that does not block: dropped when the channel is full. *)
Definition put_response (e : FileEvent) (c : Call) : Call :=
  match ca_response c with
  | Some _ => c
  | None => mkCall (ca_scope c) (ca_username c) (ca_request c) (ca_operation c) (ca_args c) (ca_relay c) (ca_done c) (Some e) (ca_phase c)
  end.
Definition stop (w : Worker) : Worker :=
  mkWorker (wk_username w) (wk_user w) (wk_cmd w) (wk_pending w) (wk_lastUsed w) true (wk_reading w) (wk_ended w)
           (wk_received w) (wk_decoded w).
Definition set_pending (m : gmap string nat) (now : time) (w : Worker) : Worker :=
  mkWorker (wk_username w) (wk_user w) (wk_cmd w) m now (wk_closed w) (wk_reading w) (wk_ended w) (wk_received w) (wk_decoded w).
Definition receive (r : nat * string * FileOperation * arguments) (w : Worker) : Worker :=
  mkWorker (wk_username w) (wk_user w) (wk_cmd w) (wk_pending w) (wk_lastUsed w) (wk_closed w) (wk_reading w) (wk_ended w)
           (wk_received w ++ [r])%list (wk_decoded w).
Definition reading (r : option (option nat * FileEvent)) (decoded : list (string * FileEvent)) (w : Worker) : Worker :=
  mkWorker (wk_username w) (wk_user w) (wk_cmd w) (wk_pending w) (wk_lastUsed w) (wk_closed w) r (wk_ended w)
           (wk_received w) (wk_decoded w ++ decoded)%list.
Definition end_reading (w : Worker) : Worker :=
  mkWorker (wk_username w) (wk_user w) (wk_cmd w) (wk_pending w) (wk_lastUsed w) (wk_closed w) (wk_reading w) true
           (wk_received w) (wk_decoded w).

Definition on_call (c : nat) (f : Call -> Call) (p : Pool) : Pool :=
  mkPool (po_scopes p) (po_workers p) (alter f c (po_calls p)) (po_now p).
Definition on_worker (w : nat) (f : Worker -> Worker) (p : Pool) : Pool :=
  mkPool (po_scopes p) (alter f w (po_workers p)) (po_calls p) (po_now p).
Definition move_to (c : nat) (f : phase) : Pool -> Pool := on_call c (set_phase f).
Definition fail_call (c : nat) (call : Call) (error : string) : Pool -> Pool :=
  move_to c (Returned (failure (ca_operation call) error)).

(** [startFileWorker]: [None] when a pipe or the process cannot be made. *)
Definition startFileWorker (H : AccountHost) (pipes : bool) (now : time) (username : string) : option Worker :=
  match worker_command H username with
  | Err _ => None
  | Ok (u, cmd) =>
      if pipes && ah_start H cmd then Some (mkWorker username u cmd ∅ now false None false [] []) else None
  end.

(** ** The events *)

Inductive pool_event :=
| PCall (scope username request : string) (operation : FileOperation) (args : arguments)
| PPrepare (c : nat) (relay : option string)
| PFind (c : nat) (H : AccountHost) (pipes : bool)
| PRegister (c : nat)
| PSend (c : nat) (ok : bool)
| PAnswer (c : nat)
| PContext (c : nat)
| PExpire (c : nat)
| PWorkerGone (c : nat)
| PLeave (c : nat)
| PDecode (w : nat) (r : option (string * FileEvent))
| PPush (w : nat)
| PTick
| PClose
| PTime (t : time).

(** Checks, arguments and relay, before any lock is taken. *)
Definition prepare (c : nat) (call : Call) (relay : option string) (p : Pool) : Pool :=
  if ca_done call then fail_call c call "context canceled" p
  else if (ca_scope call =? "")%string || (ca_request call =? "")%string
       then fail_call c call "a scoped workspace assignment is required" p
  else let args := worker_arguments (ca_args call) in
       if is_stream (effective_name (ca_operation call) args) then
         match relay with
         | None => fail_call c call "transfer relay" p
         | Some endpoint =>
             move_to c (Prepared (<[workerTransferURL := VString endpoint]> args)) (on_call c (set_relay (Some endpoint)) p)
         end
       else move_to c (Prepared args) p.

(** The critical section of [e.mu], then the check of the account. *)
Definition live_worker (scope : string) (p : Pool) : option nat :=
  match po_scopes p !! scope with
  | Some w => match po_workers p !! w with
              | Some worker => if wk_closed worker then None else Some w
              | None => None
              end
  | None => None
  end.
Definition choose (c : nat) (call : Call) (w : nat) (args : arguments) (p : Pool) : Pool :=
  match po_workers p !! w with
  | Some worker =>
      if (wk_username worker =? ca_username call)%string then move_to c (Chosen w args) p
      else fail_call c call "workspace OS account cannot change" p
  | None => p
  end.
Definition find_worker (c : nat) (call : Call) (args : arguments) (H : AccountHost) (pipes : bool) (p : Pool) : Pool :=
  match live_worker (ca_scope call) p with
  | Some w => choose c call w args p
  | None =>
      let p := mkPool (delete (ca_scope call) (po_scopes p)) (po_workers p) (po_calls p) (po_now p) in
      match startFileWorker H pipes (po_now p) (ca_username call) with
      | None => fail_call c call "file worker did not start" p
      | Some worker =>
          let w := length (po_workers p) in
          choose c call w args
            (mkPool (<[ca_scope call := w]> (po_scopes p)) (po_workers p ++ [worker])%list (po_calls p) (po_now p))
      end
  end.

(** The critical section of [w.mu] in [Execute]. *)
Definition register (c : nat) (call : Call) (w : nat) (worker : Worker) (args : arguments) (p : Pool) : Pool :=
  if wk_closed worker then fail_call c call "file worker is closed" p
  else match wk_pending worker !! ca_request call with
       | Some _ => fail_call c call "duplicate worker request" p
       | None =>
           move_to c (Registered w args)
             (on_worker w (set_pending (<[ca_request call := c]> (wk_pending worker)) (po_now p)) p)
       end.
(** Writing the request; a closed pipe refuses it. *)
Definition send_request (c : nat) (call : Call) (w : nat) (worker : Worker) (args : arguments) (ok : bool) (p : Pool) : Pool :=
  if ok && negb (wk_closed worker) then
    move_to c (Waiting w) (on_worker w (receive (c, ca_request call, ca_operation call, args)) p)
  else move_to c (Leaving w (failure (ca_operation call) "send file worker request")) (on_worker w stop p).

Definition idle_limit : duration := 3 * minute.
Definition expired_worker (now : time) (w : Worker) : bool :=
  wk_closed w || (bool_decide (wk_pending w = ∅) && (idle_limit <=? now - wk_lastUsed w)).
(** The workers of the scopes that [drop] selects are stopped and forgotten. *)
Definition in_scope (p : Pool) (w : nat) : bool := existsb (fun kv => Nat.eqb w kv.2) (map_to_list (po_scopes p)).
Definition kept (drop : Worker -> bool) (p : Pool) (w : nat) : bool :=
  match po_workers p !! w with Some k => negb (drop k) | None => true end.
Definition sweep (drop : Worker -> bool) (p : Pool) : Pool :=
  mkPool (filter (fun kv : string * nat => kept drop p kv.2 = true) (po_scopes p))
         (imap (fun i k => if in_scope p i && drop k then stop k else k) (po_workers p))
         (po_calls p) (po_now p).

(** One event; [None] when it cannot happen in that state. *)
Definition pool_step (e : pool_event) (p : Pool) : option Pool :=
  match e with
  | PCall scope username request operation args =>
      Some (mkPool (po_scopes p) (po_workers p)
                   (po_calls p ++ [mkCall scope username request operation args None false None Begun])%list (po_now p))
  | PPrepare c relay =>
      call ← po_calls p !! c;
      match ca_phase call with Begun => Some (prepare c call relay p) | _ => None end
  | PFind c H pipes =>
      call ← po_calls p !! c;
      match ca_phase call with Prepared args => Some (find_worker c call args H pipes p) | _ => None end
  | PRegister c =>
      call ← po_calls p !! c;
      match ca_phase call with
      | Chosen w args => worker ← po_workers p !! w; Some (register c call w worker args p)
      | _ => None
      end
  | PSend c ok =>
      call ← po_calls p !! c;
      match ca_phase call with
      | Registered w args => worker ← po_workers p !! w; Some (send_request c call w worker args ok p)
      | _ => None
      end
  | PAnswer c =>
      call ← po_calls p !! c;
      match ca_phase call, ca_response call with
      | Waiting w, Some event => Some (move_to c (Leaving w event) p)
      | _, _ => None
      end
  | PContext c => call ← po_calls p !! c; Some (on_call c set_done p)
  | PExpire c =>
      call ← po_calls p !! c;
      match ca_phase call with
      | Waiting w =>
          if ca_done call
          then Some (move_to c (Leaving w (failure (ca_operation call) "context ended")) (on_worker w stop p)) else None
      | _ => None
      end
  | PWorkerGone c =>
      call ← po_calls p !! c;
      match ca_phase call with
      | Waiting w =>
          worker ← po_workers p !! w;
          if wk_closed worker
          then Some (move_to c (Leaving w (failure (ca_operation call) "OS account file worker exited or was cancelled")) p)
          else None
      | _ => None
      end
  | PLeave c =>
      call ← po_calls p !! c;
      match ca_phase call with
      | Leaving w event =>
          worker ← po_workers p !! w;
          Some (move_to c (Returned event)
                  (on_worker w (set_pending (delete (ca_request call) (wk_pending worker)) (po_now p)) p))
      | _ => None
      end
  | PDecode w r =>
      worker ← po_workers p !! w;
      if wk_ended worker then None
      else match wk_reading worker, r with
           | Some _, _ => None
           | None, None => Some (on_worker w (fun k => end_reading (stop k)) p)
           | None, Some (id, event) => Some (on_worker w (reading (Some (wk_pending worker !! id, event)) [(id, event)]) p)
           end
  | PPush w =>
      worker ← po_workers p !! w;
      match wk_reading worker with
      | Some (Some c, event) => Some (on_call c (put_response event) (on_worker w (reading None []) p))
      | Some (None, _) => Some (on_worker w (reading None []) p)
      | None => None
      end
  | PTick => Some (sweep (expired_worker (po_now p)) p)
  | PClose => Some (sweep (fun _ => true) p)
  | PTime t => if po_now p <=? t then Some (mkPool (po_scopes p) (po_workers p) (po_calls p) t) else None
  end.
(** A run; an event that cannot happen where it stands ends it. *)
Fixpoint pool_run (events : list pool_event) (p : Pool) : option Pool :=
  match events with
  | [] => Some p
  | e :: rest => p' ← pool_step e p; pool_run rest p'
  end.
Definition NewExecutor (now : time) : Pool := mkPool ∅ [] [] now.

(** ** What every run preserves *)

(** The relay address a call sends down is the one it opened itself. *)
Definition good_args (call : Call) (args : arguments) : Prop :=
  match ca_relay call with
  | Some endpoint => args = <[workerTransferURL := VString endpoint]> (worker_arguments (ca_args call)) /\
                     is_stream (effective_name (ca_operation call) (worker_arguments (ca_args call))) = true
  | None => args = worker_arguments (ca_args call)
  end.
(** The worker a call uses, and the one it is registered with. *)
Definition phase_worker (f : phase) : option nat :=
  match f with Chosen w _ | Registered w _ | Waiting w | Leaving w _ => Some w | _ => None end.
Definition registered_at (f : phase) : option nat :=
  match f with Registered w _ | Waiting w | Leaving w _ => Some w | _ => None end.
Definition has_returned (f : phase) : Prop := match f with Returned _ => True | _ => False end.

Section Runs.
(** What is known of the host each time a worker is started. *)
Variable good_host : AccountHost -> Prop.

Definition started (k : Worker) : Prop :=
  exists H, good_host H /\ worker_command H (wk_username k) = Ok (wk_user k, wk_cmd k).

(** Workers and calls keep what identifies them; the records of the pipes grow. *)
Record wext (k k' : Worker) : Prop := {
  wx_username : wk_username k' = wk_username k;
  wx_user : wk_user k' = wk_user k;
  wx_cmd : wk_cmd k' = wk_cmd k;
  wx_received : wk_received k `prefix_of` wk_received k';
  wx_decoded : wk_decoded k `prefix_of` wk_decoded k' }.
Record cext (c c' : Call) : Prop := {
  cx_scope : ca_scope c' = ca_scope c;
  cx_username : ca_username c' = ca_username c;
  cx_request : ca_request c' = ca_request c;
  cx_operation : ca_operation c' = ca_operation c;
  cx_args : ca_args c' = ca_args c;
  cx_relay : ca_phase c = Begun \/ ca_relay c' = ca_relay c;
  cx_begun : ca_phase c <> Begun -> ca_phase c' <> Begun;
  cx_worker : forall w, phase_worker (ca_phase c) = Some w -> phase_worker (ca_phase c') = Some w \/ has_returned (ca_phase c');
  cx_returned : has_returned (ca_phase c) -> ca_phase c' = ca_phase c }.
Record pext (p p' : Pool) : Prop := {
  px_workers : forall w k, po_workers p !! w = Some k -> exists k', po_workers p' !! w = Some k' /\ wext k k';
  px_calls : forall c call, po_calls p !! c = Some call -> exists call', po_calls p' !! c = Some call' /\ cext call call' }.

#[local] Instance wext_refl : Reflexive wext.
Proof. done. Qed.
#[local] Instance wext_trans : Transitive wext.
Proof. intros x y z H1 H2; destruct H1, H2; split; try congruence; etrans; eauto. Qed.
#[local] Instance cext_refl : Reflexive cext.
Proof. intros x. split; auto. Qed.
#[local] Instance cext_trans : Transitive cext.
Proof.
  intros x y z H1 H2; destruct H1, H2; split; try congruence; eauto.
  - destruct cx_relay0 as [H|H]; [by left|]. rewrite <- H. destruct cx_relay1 as [H'|H']; [|by right].
    left. destruct (ca_phase x) eqn:E; [done|..]; exfalso; by apply cx_begun0 in H'.
  - intros w Hw. destruct (cx_worker0 w Hw) as [H|H]; [auto|]. right. by rewrite (cx_returned1 H).
  - intros H. rewrite cx_returned1; [auto|]. by rewrite cx_returned0.
Qed.
#[local] Instance pext_refl : Reflexive pext.
Proof. intros p. split; intros; eexists; by split. Qed.
#[local] Instance pext_trans : Transitive pext.
Proof.
  intros x y z H1 H2. destruct H1 as [A B], H2 as [C D]. split; intros i o Hi.
  - destruct (A _ _ Hi) as (k & Hk & ?), (C _ _ Hk) as (k' & Hk' & ?). exists k'. split; [done|by etrans].
  - destruct (B _ _ Hi) as (k & Hk & ?), (D _ _ Hk) as (k' & Hk' & ?). exists k'. split; [done|by etrans].
Qed.

Lemma pext_on_worker w f p : (forall k, wext k (f k)) -> pext p (on_worker w f p).
Proof.
  intros Hf. split; intros i o Hi; [|by exists o]. cbn. destruct (decide (i = w)) as [->|Hne].
  - rewrite list_lookup_alter_eq, Hi. eauto.
  - rewrite list_lookup_alter_ne by done. by exists o.
Qed.
Lemma pext_on_call c f p : (forall call, po_calls p !! c = Some call -> cext call (f call)) -> pext p (on_call c f p).
Proof.
  intros Hf. split; intros i o Hi; [by exists o|]. cbn. destruct (decide (i = c)) as [->|Hne].
  - rewrite list_lookup_alter_eq, Hi. eauto.
  - rewrite list_lookup_alter_ne by done. by exists o.
Qed.
Lemma cext_move call f :
  ~ has_returned (ca_phase call) -> f <> Begun ->
  (forall w, phase_worker (ca_phase call) = Some w -> phase_worker f = Some w \/ has_returned f) -> cext call (set_phase f call).
Proof. intros Hr Hb Hw. split; cbn; auto. done. Qed.
Lemma pext_move c call f p :
  po_calls p !! c = Some call -> ~ has_returned (ca_phase call) -> f <> Begun ->
  (forall w, phase_worker (ca_phase call) = Some w -> phase_worker f = Some w \/ has_returned f) -> pext p (move_to c f p).
Proof. intros Hc Hr Hb Hw. apply pext_on_call. intros call' Hc'. rewrite Hc in Hc'. injection Hc' as <-. by apply cext_move. Qed.
Lemma pext_workers p ws scopes now :
  (forall w k, po_workers p !! w = Some k -> exists k', ws !! w = Some k' /\ wext k k') ->
  pext p (mkPool scopes ws (po_calls p) now).
Proof. intros Hw. split; [exact Hw|]. intros c call Hc. by exists call. Qed.

(** ** The invariant *)

Definition own_failure (call : Call) (event : FileEvent) : Prop := exists text, event = failure (ca_operation call) text.
Definition serves (p : Pool) (w : nat) (call : Call) : Prop :=
  exists k, po_workers p !! w = Some k /\ wk_username k = ca_username call.
(** The request of the call went down the pipe of worker [w]. *)
Definition sent (p : Pool) (w c : nat) (call : Call) : Prop :=
  exists k args, po_workers p !! w = Some k /\ (c, ca_request call, ca_operation call, args) ∈ wk_received k.
(** Worker [w] runs as the account of the call and answered under its request. *)
Definition heard (p : Pool) (w : nat) (call : Call) (event : FileEvent) : Prop :=
  exists k, po_workers p !! w = Some k /\ wk_username k = ca_username call /\ (ca_request call, event) ∈ wk_decoded k.

Definition phase_ok (p : Pool) (c : nat) (call : Call) (f : phase) : Prop :=
  match f with
  | Begun => True
  | Prepared args => good_args call args
  | Chosen w args | Registered w args => good_args call args /\ serves p w call
  | Waiting w => serves p w call /\ sent p w c call
  | Leaving w event => serves p w call /\ (own_failure call event \/ sent p w c call /\ heard p w call event)
  | Returned event => own_failure call event \/ exists w, sent p w c call /\ heard p w call event
  end.
Record call_ok (p : Pool) (c : nat) (call : Call) : Prop := {
  co_begun : ca_phase call = Begun -> ca_relay call = None;
  co_phase : phase_ok p c call (ca_phase call);
  co_response : forall event, ca_response call = Some event ->
    exists w, heard p w call event /\ (phase_worker (ca_phase call) = Some w \/ has_returned (ca_phase call)) }.
Record worker_ok (p : Pool) (w : nat) (k : Worker) : Prop := {
  wo_started : started k;
  wo_received : forall c id op args, (c, id, op, args) ∈ wk_received k ->
    exists call, po_calls p !! c = Some call /\ ca_request call = id /\ ca_operation call = op /\
      ca_username call = wk_username k /\ ca_phase call <> Begun /\ good_args call args;
  wo_reading : forall c event, wk_reading k = Some (Some c, event) ->
    exists call, po_calls p !! c = Some call /\ heard p w call event /\
      (phase_worker (ca_phase call) = Some w \/ has_returned (ca_phase call)) }.

(** Who waits for what: a request is registered with a worker exactly while its
    call is between registration and return. *)
Definition pend (p : Pool) (w : nat) : gmap string nat := match po_workers p !! w with Some k => wk_pending k | None => ∅ end.
Definition regd (p : Pool) (c : nat) : option (nat * string) :=
  call ← po_calls p !! c; w ← registered_at (ca_phase call); Some (w, ca_request call).
Definition links (p : Pool) : Prop := forall w id c, pend p w !! id = Some c <-> regd p c = Some (w, id).

Record pool_ok (p : Pool) : Prop := {
  po_call_ok : forall c call, po_calls p !! c = Some call -> call_ok p c call;
  po_worker_ok : forall w k, po_workers p !! w = Some k -> worker_ok p w k;
  po_links : links p }.

Lemma serves_mono p p' w call : pext p p' -> serves p w call -> serves p' w call.
Proof. intros Hp (k & Hk & Hu). destruct (px_workers _ _ Hp _ _ Hk) as (k' & Hk' & Hx). exists k'. split; [done|]. by rewrite (wx_username _ _ Hx). Qed.
Lemma sent_mono p p' w c call : pext p p' -> sent p w c call -> sent p' w c call.
Proof.
  intros Hp (k & args & Hk & Hin). destruct (px_workers _ _ Hp _ _ Hk) as (k' & Hk' & Hx). exists k', args. split; [done|].
  destruct (wx_received _ _ Hx) as [x ->]. by apply elem_of_app; left.
Qed.
Lemma heard_mono p p' w call event : pext p p' -> heard p w call event -> heard p' w call event.
Proof.
  intros Hp (k & Hk & Hu & Hin). destruct (px_workers _ _ Hp _ _ Hk) as (k' & Hk' & Hx). exists k'. split_and!; [done|by rewrite (wx_username _ _ Hx)|].
  destruct (wx_decoded _ _ Hx) as [x ->]. by apply elem_of_app; left.
Qed.
Lemma heard_call p w call call' event : cext call call' -> heard p w call event -> heard p w call' event.
Proof. intros [] (k & ? & ? & ?). exists k. by rewrite cx_username0, cx_request0. Qed.
Lemma good_args_mono call call' args : cext call call' -> ca_phase call <> Begun -> good_args call args -> good_args call' args.
Proof. intros [] Hb. unfold good_args. destruct cx_relay0 as [|Hr]; [done|]. by rewrite Hr, cx_args0, cx_operation0. Qed.

Lemma phase_ok_mono p p' c call f : pext p p' -> phase_ok p c call f -> phase_ok p' c call f.
Proof.
  intros Hp Hf. destruct f as [| | | | |w ev|ev]; try done; cbn in *.
  - destruct Hf. eauto using serves_mono.
  - destruct Hf. eauto using serves_mono.
  - destruct Hf. eauto using serves_mono, sent_mono.
  - destruct Hf as [Hs [Ho|[? ?]]]; (split; [by eapply serves_mono|]); [by left|right]. eauto using sent_mono, heard_mono.
  - destruct Hf as [Ho|(w & ? & ?)]; [by left|right]. exists w. eauto using sent_mono, heard_mono.
Qed.
Lemma call_ok_mono p p' c call : pext p p' -> call_ok p c call -> call_ok p' c call.
Proof.
  intros Hp [Hb Hf Hr]. split; [done|by eapply phase_ok_mono|].
  intros ev He. destruct (Hr ev He) as (w & ? & ?). exists w. split; [by eapply heard_mono|done].
Qed.
Lemma worker_ok_mono p p' w k : pext p p' -> worker_ok p w k -> worker_ok p' w k.
Proof.
  intros Hp [Hs Hrc Hrd]. split; [done| |].
  - intros c id op args Hin. destruct (Hrc _ _ _ _ Hin) as (call & Hc & Hid & Hop & Hu & Hb & Hg).
    destruct (px_calls _ _ Hp _ _ Hc) as (call' & Hc' & Hx). exists call'. pose proof (good_args_mono _ _ _ Hx Hb Hg).
    destruct Hx. split_and!; try done; try congruence. auto.
  - intros c ev He. destruct (Hrd _ _ He) as (call & Hc & Hh & Hw). destruct (px_calls _ _ Hp _ _ Hc) as (call' & Hc' & Hx).
    exists call'. split_and!; [done|eapply heard_call; [done|by eapply heard_mono]|]. destruct Hx. destruct Hw as [Hw|Hw]; [auto|].
    right. by rewrite cx_returned0.
Qed.

Lemma calls_after p p' c f :
  pext p p' -> po_calls p' = alter f c (po_calls p) ->
  (forall c call, po_calls p !! c = Some call -> call_ok p c call) ->
  (forall call, po_calls p !! c = Some call -> call_ok p' c call -> call_ok p' c (f call)) ->
  forall i call, po_calls p' !! i = Some call -> call_ok p' i call.
Proof.
  intros Hp Hc Hall Hf i call Hi. rewrite Hc in Hi. destruct (decide (i = c)) as [->|Hne].
  - rewrite list_lookup_alter_eq in Hi. destruct (po_calls p !! c) as [old|] eqn:E; [|done]. injection Hi as <-.
    apply Hf; [done|]. eapply call_ok_mono; eauto.
  - rewrite list_lookup_alter_ne in Hi by done. eapply call_ok_mono; eauto.
Qed.
Lemma workers_after p p' w f :
  pext p p' -> po_workers p' = alter f w (po_workers p) ->
  (forall w k, po_workers p !! w = Some k -> worker_ok p w k) ->
  (forall k, po_workers p !! w = Some k -> worker_ok p' w k -> worker_ok p' w (f k)) ->
  forall i k, po_workers p' !! i = Some k -> worker_ok p' i k.
Proof.
  intros Hp Hc Hall Hf i k Hi. rewrite Hc in Hi. destruct (decide (i = w)) as [->|Hne].
  - rewrite list_lookup_alter_eq in Hi. destruct (po_workers p !! w) as [old|] eqn:E; [|done]. injection Hi as <-.
    apply Hf; [done|]. eapply worker_ok_mono; eauto.
  - rewrite list_lookup_alter_ne in Hi by done. eapply worker_ok_mono; eauto.
Qed.
Lemma links_same p p' : (forall w, pend p' w = pend p w) -> (forall c, regd p' c = regd p c) -> links p -> links p'.
Proof. intros Hw Hc Hl w id c. by rewrite Hw, Hc. Qed.

Lemma pend_on_worker w f p i : (forall k, wk_pending (f k) = wk_pending k) -> pend (on_worker w f p) i = pend p i.
Proof.
  intros Hf. unfold pend. cbn. destruct (decide (i = w)) as [->|Hne]; [rewrite list_lookup_alter_eq|by rewrite list_lookup_alter_ne].
  by destruct (po_workers p !! w); cbn; rewrite ?Hf.
Qed.
Lemma regd_on_call c f p i :
  (forall call, po_calls p !! c = Some call ->
     ca_request (f call) = ca_request call /\ registered_at (ca_phase (f call)) = registered_at (ca_phase call)) ->
  regd (on_call c f p) i = regd p i.
Proof.
  intros Hf. unfold regd. cbn. destruct (decide (i = c)) as [->|Hne]; [rewrite list_lookup_alter_eq|by rewrite list_lookup_alter_ne].
  destruct (po_calls p !! c) as [call|]; [|done]. cbn. destruct (Hf call eq_refl) as [-> ->]. done.
Qed.
Lemma lookup_move c f p call : po_calls p !! c = Some call -> po_calls (move_to c f p) !! c = Some (set_phase f call).
Proof. intros Hc. cbn. by rewrite list_lookup_alter_eq, Hc. Qed.

Lemma ok_on_call c call f p :
  pool_ok p -> po_calls p !! c = Some call -> cext call (f call) ->
  registered_at (ca_phase (f call)) = registered_at (ca_phase call) ->
  (forall p', pext p p' -> call_ok p' c call -> call_ok p' c (f call)) -> pool_ok (on_call c f p).
Proof.
  intros [Hcs Hws Hl] Hc Hx Hreg Hf.
  assert (Hsame : forall call', po_calls p !! c = Some call' -> call' = call) by congruence.
  assert (Hp : pext p (on_call c f p)) by (apply pext_on_call; intros call' Hc'; by rewrite (Hsame _ Hc')). split.
  - eapply calls_after; [exact Hp|done|done|]. intros call' Hc'. rewrite (Hsame _ Hc'). by apply Hf.
  - intros w k Hk. eapply worker_ok_mono; [exact Hp|]. by apply Hws.
  - eapply links_same; [| |exact Hl]; [done|]. intros i. apply regd_on_call. intros call' Hc'. rewrite (Hsame _ Hc'). split; [apply Hx|done].
Qed.
Lemma call_ok_phase p c call f :
  call_ok p c call -> f <> Begun ->
  (forall w, phase_worker (ca_phase call) = Some w -> phase_worker f = Some w \/ has_returned f) ->
  ~ has_returned (ca_phase call) -> phase_ok p c call f -> call_ok p c (set_phase f call).
Proof.
  intros [Hb Hf Hr] Hne Hw Hn Hok. split; [done|exact Hok|]. intros ev He. destruct (Hr ev He) as (w & Hh & Hpw). exists w.
  split; [exact Hh|]. destruct Hpw as [Hpw|]; [by apply Hw|done].
Qed.
(** A goroutine goes on without touching its worker. *)
Lemma ok_move c call f p :
  pool_ok p -> po_calls p !! c = Some call -> ~ has_returned (ca_phase call) -> f <> Begun ->
  (forall w, phase_worker (ca_phase call) = Some w -> phase_worker f = Some w \/ has_returned f) ->
  registered_at f = registered_at (ca_phase call) -> phase_ok p c call f -> pool_ok (move_to c f p).
Proof.
  intros Hok Hc Hr Hb Hw Hreg Hf. apply (ok_on_call c call); try done; [by apply cext_move|].
  intros p' Hp Hco. apply call_ok_phase; try done. by eapply phase_ok_mono.
Qed.
Lemma ok_fail c call p text :
  pool_ok p -> po_calls p !! c = Some call -> ~ has_returned (ca_phase call) -> registered_at (ca_phase call) = None ->
  pool_ok (fail_call c call text p).
Proof.
  intros Hp Hc Hr Hreg. apply (ok_move c call); try done; [by right|]. left. by eexists.
Qed.

(** A worker changes without its registrations changing. *)
Lemma ok_on_worker w f p :
  pool_ok p -> (forall k, wext k (f k)) -> (forall k, wk_pending (f k) = wk_pending k) ->
  (forall k, po_workers p !! w = Some k -> worker_ok (on_worker w f p) w k -> worker_ok (on_worker w f p) w (f k)) ->
  pool_ok (on_worker w f p).
Proof.
  intros [Hcs Hws Hl] Hx Hpd Hf. pose proof (pext_on_worker w f p Hx) as Hp. split.
  - intros c call Hc. eapply call_ok_mono; [exact Hp|]. by apply Hcs.
  - eapply workers_after; [exact Hp|done|done|done].
  - eapply links_same; [| |exact Hl]; [|done]. intros i. by apply pend_on_worker.
Qed.
Lemma wext_stop k : wext k (stop k).
Proof. done. Qed.
Lemma worker_ok_stop p w k : worker_ok p w k -> worker_ok p w (stop k).
Proof. intros []. by split. Qed.
Lemma ok_stop w p : pool_ok p -> pool_ok (on_worker w stop p).
Proof. intros Hp. apply ok_on_worker; [done..|]. intros k _. apply worker_ok_stop. Qed.
Lemma serves_at p w call k : po_workers p !! w = Some k -> serves p w call -> wk_username k = ca_username call.
Proof. intros Hk (k' & Hk' & Hu). rewrite Hk in Hk'. by injection Hk' as <-. Qed.

(** ** Each event keeps it *)

Ltac in_phase H := rewrite ?H; try (intros []; done); try done; try (cbn; intros; by left).

Lemma move_on_call c f g p : move_to c f (on_call c g p) = on_call c (fun x => set_phase f (g x)) p.
Proof. unfold move_to, on_call. cbn. by rewrite list_alter_alter_eq. Qed.

Lemma ok_prepare c call relay p :
  pool_ok p -> po_calls p !! c = Some call -> ca_phase call = Begun -> pool_ok (prepare c call relay p).
Proof.
  intros Hp Hc Hb. assert (Hfail : forall text, pool_ok (fail_call c call text p)).
  { intros text. apply ok_fail; try done; in_phase Hb. }
  pose proof (co_begun _ _ _ (po_call_ok _ Hp _ _ Hc) Hb) as Hrel. unfold prepare.
  destruct (ca_done call); [done|]. destruct (_ || _); [done|]. cbn zeta. destruct (is_stream _) eqn:Es.
  - destruct relay as [endpoint|]; [|done]. rewrite move_on_call. apply (ok_on_call c call); try done.
    + split; cbn; try done; [by left| |]; rewrite Hb; done.
    + by rewrite Hb.
    + intros p' _ [Hb' Hf Hr]. split; cbn; [done|by split|]. intros ev He. destruct (Hr ev He) as (w & Hh & Hpw). rewrite Hb in Hpw.
      by destruct Hpw.
  - apply (ok_move c call); try done; in_phase Hb. cbn. unfold good_args. by rewrite Hrel.
Qed.

Lemma ok_choose c call w args p k :
  pool_ok p -> po_calls p !! c = Some call -> ca_phase call = Prepared args -> po_workers p !! w = Some k ->
  pool_ok (choose c call w args p).
Proof.
  intros Hp Hc Hph Hk. unfold choose. rewrite Hk. destruct (String.eqb_spec (wk_username k) (ca_username call)) as [Hu|Hu].
  - apply (ok_move c call); try done; in_phase Hph. split; [|by exists k].
    pose proof (co_phase _ _ _ (po_call_ok _ Hp _ _ Hc)) as Hg. by rewrite Hph in Hg.
  - apply ok_fail; try done; in_phase Hph.
Qed.
Lemma ok_scopes scopes now p :
  pool_ok p -> pool_ok (mkPool scopes (po_workers p) (po_calls p) now).
Proof.
  intros [Hcs Hws Hl]. set (p' := mkPool _ _ _ _).
  assert (Hx : pext p p') by (split; intros i o Hi; by exists o).
  split; [intros c call Hc; eapply call_ok_mono; [exact Hx|by apply Hcs]|intros w k Hk; eapply worker_ok_mono; [exact Hx|by apply Hws]|exact Hl].
Qed.
Lemma ok_new_worker scopes k p :
  pool_ok p -> started k -> wk_pending k = ∅ -> wk_received k = [] -> wk_reading k = None ->
  pool_ok (mkPool scopes (po_workers p ++ [k]) (po_calls p) (po_now p)).
Proof.
  intros [Hcs Hws Hl] Hs Hpd Hrc Hrd. set (p' := mkPool _ _ _ _).
  assert (Hx : pext p p').
  { apply pext_workers. intros w k' Hk'. exists k'. split; [by apply lookup_app_l_Some|done]. }
  split.
  - intros c call Hc. eapply call_ok_mono; [exact Hx|by apply Hcs].
  - intros w k' Hk'. apply lookup_app_Some in Hk' as [Hk'|[_ Hk']]; [eapply worker_ok_mono; [exact Hx|by apply Hws]|].
    apply list_lookup_singleton_Some in Hk' as [_ <-]. split; [done|rewrite Hrc|rewrite Hrd; done].
    intros ???? Hin. by apply elem_of_nil in Hin.
  - eapply links_same; [| |exact Hl]; [|done]. intros w. unfold pend. cbn. destruct (po_workers p !! w) as [k'|] eqn:E.
    + by rewrite (lookup_app_l_Some _ _ _ _ E).
    + rewrite lookup_app_r by by apply lookup_ge_None. destruct (w - _)%nat as [|n]; cbn; [done|by destruct n].
Qed.
Lemma ok_find c call args H pipes p :
  good_host H -> pool_ok p -> po_calls p !! c = Some call -> ca_phase call = Prepared args ->
  pool_ok (find_worker c call args H pipes p).
Proof.
  intros HH Hp Hc Hph. unfold find_worker, live_worker.
  assert (Hnew : forall scopes, pool_ok
     match startFileWorker H pipes (po_now p) (ca_username call) with
     | None => fail_call c call "file worker did not start" (mkPool scopes (po_workers p) (po_calls p) (po_now p))
     | Some worker => choose c call (length (po_workers p)) args
            (mkPool (<[ca_scope call := length (po_workers p)]> scopes) (po_workers p ++ [worker]) (po_calls p) (po_now p))
     end).
  { intros scopes. unfold startFileWorker. destruct (worker_command H (ca_username call)) as [[u cmd]|] eqn:Ew.
    - destruct (pipes && ah_start H cmd).
      + eapply ok_choose; [|exact Hc|exact Hph|cbn; by apply list_lookup_middle].
        apply ok_new_worker; try done. by exists H.
      + apply ok_fail; [by apply ok_scopes|exact Hc|in_phase Hph..].
    - apply ok_fail; [by apply ok_scopes|exact Hc|in_phase Hph..]. }
  destruct (po_scopes p !! ca_scope call) as [w|]; [|apply Hnew]. destruct (po_workers p !! w) as [k|] eqn:Ek; [|apply Hnew].
  destruct (wk_closed k); [apply Hnew|]. eapply ok_choose; eauto.
Qed.

Lemma regd_at p c call : po_calls p !! c = Some call -> regd p c = (fun w => (w, ca_request call)) <$> registered_at (ca_phase call).
Proof. intros Hc. unfold regd. rewrite Hc. cbn. by destruct (registered_at _). Qed.
Lemma move_on_worker c f w g p : move_to c f (on_worker w g p) = on_worker w g (move_to c f p).
Proof. done. Qed.
Lemma pend_at p w k : po_workers p !! w = Some k -> pend p w = wk_pending k.
Proof. intros Hk. unfold pend. by rewrite Hk. Qed.

(** Registration and return change one link each. *)
Lemma ok_relink c call f w k m p :
  pool_ok p -> po_calls p !! c = Some call -> po_workers p !! w = Some k -> ~ has_returned (ca_phase call) -> f <> Begun ->
  (forall w, phase_worker (ca_phase call) = Some w -> phase_worker f = Some w \/ has_returned f) ->
  phase_ok p c call f ->
  (forall i id c', (if decide (i = w) then m else pend p i) !! id = Some c' <->
     (if decide (c' = c) then (fun w => (w, ca_request call)) <$> registered_at f else regd p c') = Some (i, id)) ->
  pool_ok (move_to c f (on_worker w (set_pending m (po_now p)) p)).
Proof.
  intros [Hcs Hws Hl] Hc Hk Hr Hb Hw Hph Hlink. set (p1 := on_worker w (set_pending m (po_now p)) p).
  assert (Hx1 : pext p p1) by by apply pext_on_worker.
  assert (Hx : pext p (move_to c f p1)) by (etrans; [exact Hx1|by eapply pext_move]). split.
  - eapply calls_after; [exact Hx|done|done|]. intros call' Hc' Hco. rewrite Hc in Hc'. injection Hc' as <-.
    apply call_ok_phase; try done. by eapply phase_ok_mono.
  - eapply (workers_after p _ w); [exact Hx|done|done|]. intros k' _ []. by split.
  - intros i id c'. specialize (Hlink i id c'). unfold pend at 1. cbn.
    assert ((match alter (set_pending m (po_now p)) w (po_workers p) !! i with Some k => wk_pending k | None => ∅ end)
            = if decide (i = w) then m else pend p i) as ->.
    { destruct (decide (i = w)) as [->|Hne]; [by rewrite list_lookup_alter_eq, Hk|by rewrite list_lookup_alter_ne]. }
    rewrite Hlink. unfold regd at 2. cbn. destruct (decide (c' = c)) as [->|Hne].
    + rewrite list_lookup_alter_eq, Hc. cbn. by destruct (registered_at f).
    + by rewrite list_lookup_alter_ne.
Qed.

Lemma ok_register c call w k args p :
  pool_ok p -> po_calls p !! c = Some call -> ca_phase call = Chosen w args -> po_workers p !! w = Some k ->
  pool_ok (register c call w k args p).
Proof.
  intros Hp Hc Hph Hk. unfold register. destruct (wk_closed k); [apply ok_fail; try done; in_phase Hph|].
  destruct (wk_pending k !! ca_request call) eqn:Epd; [apply ok_fail; try done; in_phase Hph|].
  pose proof (co_phase _ _ _ (po_call_ok _ Hp _ _ Hc)) as Hg. rewrite Hph in Hg.
  eapply (ok_relink c call); try done; [in_phase Hph|rewrite Hph; cbn; auto|].
  pose proof (regd_at _ _ _ Hc) as Hreg. rewrite Hph in Hreg. cbn in Hreg. pose proof (po_links _ Hp) as Hl.
  intros i id c'. rewrite <- (pend_at _ _ _ Hk) in *. cbn. destruct (decide (i = w)) as [->|Hi].
  - destruct (decide (id = ca_request call)) as [->|Hid].
    + rewrite lookup_insert_eq. destruct (decide (c' = c)) as [->|Hc']; [done|]. split; [congruence|].
      intros H. apply Hl in H. congruence.
    + rewrite lookup_insert_ne by done. rewrite (Hl w id c'). destruct (decide (c' = c)) as [->|Hc']; [|done].
      rewrite Hreg. split; [done|]. intros [=]. congruence.
  - rewrite (Hl i id c'). destruct (decide (c' = c)) as [->|Hc']; [|done]. rewrite Hreg. split; [done|]. intros [=]. congruence.
Qed.

Lemma ok_leave c call w k ev p :
  pool_ok p -> po_calls p !! c = Some call -> ca_phase call = Leaving w ev -> po_workers p !! w = Some k ->
  pool_ok (move_to c (Returned ev) (on_worker w (set_pending (delete (ca_request call) (wk_pending k)) (po_now p)) p)).
Proof.
  intros Hp Hc Hph Hk. pose proof (co_phase _ _ _ (po_call_ok _ Hp _ _ Hc)) as Hg. rewrite Hph in Hg.
  eapply (ok_relink c call); try done; [in_phase Hph|by right| |].
  { destruct Hg as [_ [Ho|Hh]]; [by left|right]. by exists w. }
  pose proof (regd_at _ _ _ Hc) as Hreg. rewrite Hph in Hreg. cbn in Hreg. pose proof (po_links _ Hp) as Hl.
  rewrite <- (pend_at _ _ _ Hk). intros i id c'. cbn. destruct (decide (i = w)) as [->|Hi].
  - destruct (decide (id = ca_request call)) as [->|Hid].
    + rewrite lookup_delete_eq. split; [done|]. destruct (decide (c' = c)) as [->|Hc']; [done|]. intros H.
      apply Hl in H. apply Hl in Hreg. congruence.
    + rewrite lookup_delete_ne by done. rewrite (Hl w id c'). destruct (decide (c' = c)) as [->|Hc']; [|done].
      rewrite Hreg. split; [|done]. intros [=]. congruence.
  - rewrite (Hl i id c'). destruct (decide (c' = c)) as [->|Hc']; [|done]. rewrite Hreg. split; [|done]. intros [=]. congruence.
Qed.

Lemma ok_send c call w k args ok p :
  pool_ok p -> po_calls p !! c = Some call -> ca_phase call = Registered w args -> po_workers p !! w = Some k ->
  pool_ok (send_request c call w k args ok p).
Proof.
  intros Hp Hc Hph Hk. pose proof (co_phase _ _ _ (po_call_ok _ Hp _ _ Hc)) as Hg. rewrite Hph in Hg. destruct Hg as [Hg Hs].
  unfold send_request. destruct (ok && negb (wk_closed k)).
  - set (r := (c, ca_request call, ca_operation call, args)).
    assert (Hx : forall k, wext k (receive r k)) by (intros k'; split; try done; by apply prefix_app_r).
    apply (ok_move c call); try done; in_phase Hph; [|split; [by eapply serves_mono; [apply pext_on_worker|]|]].
    + apply ok_on_worker; try done. intros k' Hk' [Hst Hrc Hrd]. split; [done| |done].
      cbn [wk_received receive]. intros c' id op args' Hin. apply elem_of_app in Hin as [Hin|Hin]; [by eapply Hrc|].
      apply list_elem_of_singleton in Hin. injection Hin as -> -> -> ->. exists call. rewrite Hk in Hk'. injection Hk' as <-.
      split_and!; try done; [exact (eq_sym (serves_at _ _ _ _ Hk Hs))|by rewrite Hph].
    + exists (receive r k), args. split; [cbn; by rewrite list_lookup_alter_eq, Hk|]. cbn. apply elem_of_app. right. by apply list_elem_of_singleton.
  - rewrite move_on_worker. apply ok_stop. apply (ok_move c call); try done; in_phase Hph. split; [done|]. left. by eexists.
Qed.

Lemma ok_push c event w k p :
  pool_ok p -> po_workers p !! w = Some k -> wk_reading k = Some (Some c, event) ->
  pool_ok (on_call c (put_response event) (on_worker w (reading None []) p)).
Proof.
  intros Hp Hk Hrd. destruct (wo_reading _ _ _ (po_worker_ok _ Hp _ _ Hk) _ _ Hrd) as (call & Hc & Hh & Hw).
  assert (Hx : forall k, wext k (reading None [] k)) by (intros k'; split; try done; cbn; by rewrite app_nil_r).
  assert (Hp1 : pool_ok (on_worker w (reading None []) p)).
  { apply ok_on_worker; try done. intros k' _ [Hst Hrc _]. by split. }
  assert (Hput : cext call (put_response event call)) by (unfold put_response; destruct (ca_response call); split; cbn; auto).
  apply (ok_on_call c call); try done; unfold put_response; destruct (ca_response call) eqn:Er; try done.
  intros p' Hx' [Hb Hf Hr]. split; [done|exact Hf|]. cbn. intros ev [= <-]. exists w. split; [|done].
  eapply heard_mono; [etrans; [by apply (pext_on_worker w)|exact Hx']|exact Hh].
Qed.

Lemma ok_decode id event w k p :
  pool_ok p -> po_workers p !! w = Some k ->
  pool_ok (on_worker w (reading (Some (wk_pending k !! id, event)) [(id, event)]) p).
Proof.
  intros Hp Hk. assert (Hx : forall k', wext k' (reading (Some (wk_pending k !! id, event)) [(id, event)] k')).
  { intros k'. split; try done. cbn. by apply prefix_app_r. }
  apply ok_on_worker; try done. intros k' Hk' [Hst Hrc _]. rewrite Hk in Hk'. injection Hk' as <-. split; [done..|].
  cbn. intros c ev [= Hpd <-]. rewrite <- (pend_at _ _ _ Hk) in Hpd. apply (po_links _ Hp) in Hpd.
  unfold regd in Hpd. destruct (po_calls p !! c) as [call|] eqn:Hc; [|done]. cbn in Hpd.
  destruct (registered_at (ca_phase call)) as [w'|] eqn:Hreg; [|done]. injection Hpd as -> Hid. exists call.
  pose proof (co_phase _ _ _ (po_call_ok _ Hp _ _ Hc)) as Hg.
  assert (Hs : serves p w call) by (destruct (ca_phase call); try discriminate Hreg; injection Hreg as ->; by destruct Hg).
  split_and!; [done| |left; destruct (ca_phase call); try discriminate Hreg; exact Hreg].
  exists (reading (Some (wk_pending k !! id, event)) [(id, event)] k). split_and!; [cbn; by rewrite list_lookup_alter_eq, Hk|by rewrite <- (serves_at _ _ _ _ Hk Hs)|].
  cbn. apply elem_of_app. right. rewrite Hid. by apply list_elem_of_singleton.
Qed.

Lemma ok_sweep drop p : pool_ok p -> pool_ok (sweep drop p).
Proof.
  intros [Hcs Hws Hl]. set (p' := sweep drop p).
  assert (Hlook : forall w, po_workers p' !! w = (fun k => if in_scope p w && drop k then stop k else k) <$> po_workers p !! w).
  { intros w. unfold p', sweep. cbn. by rewrite list_lookup_imap. }
  assert (Hx : pext p p').
  { split; [|intros c call Hc; by exists call]. intros w k Hk. rewrite Hlook, Hk. eexists. split; [done|]. by destruct (_ && _). }
  split.
  - intros c call Hc. eapply call_ok_mono; [exact Hx|by apply Hcs].
  - intros w k Hk. rewrite Hlook in Hk. destruct (po_workers p !! w) as [k0|] eqn:E; [|done]. injection Hk as <-.
    pose proof (worker_ok_mono _ _ _ _ Hx (Hws _ _ E)). destruct (_ && _); [by apply worker_ok_stop|done].
  - eapply links_same; [| |exact Hl]; [|done]. intros w. unfold pend. rewrite Hlook. destruct (po_workers p !! w); cbn; [|done].
    by destruct (_ && _).
Qed.
Lemma ok_new_call call p :
  pool_ok p -> ca_phase call = Begun -> ca_relay call = None -> ca_response call = None ->
  pool_ok (mkPool (po_scopes p) (po_workers p) (po_calls p ++ [call]) (po_now p)).
Proof.
  intros [Hcs Hws Hl] Hb Hr Hre. set (p' := mkPool _ _ _ _).
  assert (Hx : pext p p').
  { split; [intros w k Hk; by exists k|]. intros c k' Hk'. exists k'. split; [by apply lookup_app_l_Some|done]. }
  split.
  - intros c call' Hc. apply lookup_app_Some in Hc as [Hc|[_ Hc]]; [eapply call_ok_mono; [exact Hx|by apply Hcs]|].
    apply list_lookup_singleton_Some in Hc as [_ <-]. split; [done|by rewrite Hb|by rewrite Hre].
  - intros w k Hk. eapply worker_ok_mono; [exact Hx|by apply Hws].
  - eapply links_same; [| |exact Hl]; [done|]. intros c. unfold regd. cbn. destruct (po_calls p !! c) as [c'|] eqn:E.
    + by rewrite (lookup_app_l_Some _ _ _ _ E).
    + rewrite lookup_app_r by by apply lookup_ge_None. destruct (c - _)%nat as [|n]; cbn; [by rewrite Hb|done].
Qed.

Definition good_event (e : pool_event) : Prop := match e with PFind _ H _ => good_host H | _ => True end.
Inductive reachable : Pool -> Prop :=
| reach_new now : reachable (NewExecutor now)
| reach_step p e p' : reachable p -> good_event e -> pool_step e p = Some p' -> reachable p'.

Lemma pool_step_ok e p p' : good_event e -> pool_ok p -> pool_step e p = Some p' -> pool_ok p'.
Proof.
  intros He Hp Hstep. destruct e; cbn in Hstep; cbn in He;
    repeat match type of Hstep with
    | (?o ≫= _) = Some _ => let E := fresh "El" in destruct o eqn:E; [cbn in Hstep|done]
    | match ?x with _ => _ end = Some _ => let E := fresh "Em" in destruct x eqn:E; try discriminate Hstep
    end; try (injection Hstep as <-).
  - by apply ok_new_call.
  - by apply ok_prepare.
  - by apply ok_find.
  - by apply ok_register.
  - by apply ok_send.
  - (* PAnswer *) pose proof (po_call_ok _ Hp _ _ El) as [_ Hf Hr]. rewrite Em in Hf, Hr. destruct Hf as [Hs Hsent].
    apply (ok_move c c0); try done; in_phase Em. split; [done|]. right. split; [done|].
    destruct (Hr _ Em0) as (w' & Hh & [[= ->]|[]]). done.
  - (* PContext *) apply (ok_on_call c c0); try done; [split; cbn; auto|]. intros p' _ []. by split.
  - (* PExpire *) rewrite move_on_worker. apply ok_stop. pose proof (co_phase _ _ _ (po_call_ok _ Hp _ _ El)) as Hf. rewrite Em in Hf. destruct Hf.
    apply (ok_move c c0); try done; in_phase Em. split; [done|]. left. by eexists.
  - (* PWorkerGone *) pose proof (co_phase _ _ _ (po_call_ok _ Hp _ _ El)) as Hf. rewrite Em in Hf. destruct Hf.
    apply (ok_move c c0); try done; in_phase Em. split; [done|]. left. by eexists.
  - by apply ok_leave.
  - by apply ok_decode.
  - (* the reader ends *) apply ok_on_worker; try done. intros k' _ []. by split.
  - (* a push *) by eapply ok_push.
  - apply ok_on_worker; try done; [intros k'; split; try done; cbn; by rewrite app_nil_r|]. intros k' _ []. by split.
  - by apply ok_sweep.
  - by apply ok_sweep.
  - by apply ok_scopes.
Qed.
Lemma reachable_ok p : reachable p -> pool_ok p.
Proof.
  induction 1 as [now|p e p' _ IH He Hs]; [|by eapply pool_step_ok].
  split; [done|done|]. intros w id c. unfold pend, regd. cbn. rewrite !lookup_nil. cbn. by rewrite lookup_empty.
Qed.

(** C18: every request an executor writes goes to a process of the account its
    assignment names, which that account's authorisation admitted when the
    process was started and which has that account's environment and nothing of
    the agent's; the arguments are the assignment's without any relay address of
    its own, and a relay address in them is the one the agent opened for that
    very call. This holds in every state that any interleaving of calls, workers'
    answers, failures and timeouts can reach. *)
Theorem operations_run_as_their_account p w k c id op args :
  (forall H, good_host H -> current_is_effective H) ->
  reachable p -> po_workers p !! w = Some k -> (c, id, op, args) ∈ wk_received k ->
  exists call H, po_calls p !! c = Some call /\ ca_request call = id /\ ca_operation call = op /\
    good_host H /\ authorised H (ca_username call) (wk_user k) /\
    parse_uint32 (us_Uid (wk_user k)) = Some (runs_as H (wk_cmd k)) /\
    cmd_Env (wk_cmd k) = Environment (wk_user k) /\
    delete workerTransferURL args = delete workerTransferURL (ca_args call) /\
    (forall endpoint, args !! workerTransferURL = Some endpoint ->
       exists own, ca_relay call = Some own /\ endpoint = VString own /\
         is_stream (effective_name op (worker_arguments (ca_args call))) = true).
Proof.
  intros Hgood Hp Hk Hin. apply reachable_ok in Hp. destruct (po_worker_ok _ Hp _ _ Hk) as [(H & HH & Hcmd) Hrc _].
  destruct (Hrc _ _ _ _ Hin) as (call & Hc & <- & <- & Hu & _ & Hg).
  apply worker_command_ok in Hcmd as (Hr & Henv & _ & _ & Hrun). rewrite <- Hu in Hr.
  exists call, H. split_and!; auto; [by apply Resolve_ok|..]; unfold good_args, worker_arguments in *; destruct (ca_relay call) as [own|].
  - destruct Hg as [-> _]. by rewrite delete_insert_eq, delete_delete_eq.
  - subst. by rewrite delete_delete_eq.
  - destruct Hg as [-> Hs]. intros ep. rewrite lookup_insert_eq. intros [= <-]. by exists own.
  - subst. intros ep. by rewrite lookup_delete_eq.
Qed.

(** C19: what [Execute] returns is either an error made by the agent itself or an
    answer that the worker decoded under the very request the call had sent it,
    and that worker runs as the account the call named: answers never cross from
    one request or account to another, whatever workers write. *)
Theorem answers_are_routed p c call event :
  reachable p -> po_calls p !! c = Some call -> ca_phase call = Returned event ->
  own_failure call event \/
  exists w k args, po_workers p !! w = Some k /\ wk_username k = ca_username call /\
    (ca_request call, event) ∈ wk_decoded k /\ (c, ca_request call, ca_operation call, args) ∈ wk_received k.
Proof.
  intros Hp Hc Hph. apply reachable_ok in Hp. pose proof (co_phase _ _ _ (po_call_ok _ Hp _ _ Hc)) as Hf. rewrite Hph in Hf.
  destruct Hf as [Ho|(w & (k & args & Hk & Hs) & (k' & Hk' & Hu & Hh))]; [by left|right].
  rewrite Hk in Hk'. injection Hk' as <-. by exists w, k, args.
Qed.

(** At any time at most one call waits under a request of a worker, and the
    worker's table holds exactly the calls that wait. *)
Theorem pending_is_exact p w k id c :
  reachable p -> po_workers p !! w = Some k ->
  (wk_pending k !! id = Some c <->
   exists call, po_calls p !! c = Some call /\ ca_request call = id /\ registered_at (ca_phase call) = Some w).
Proof.
  intros Hp Hk. apply reachable_ok in Hp. rewrite <- (pend_at _ _ _ Hk), (po_links _ Hp w id c). unfold regd. split.
  - destruct (po_calls p !! c) as [call|]; [|done]. cbn. destruct (registered_at _) as [w'|] eqn:E; [|done]. intros [= -> <-]. eauto.
  - intros (call & Hc & Hid & Hr). rewrite Hc. cbn. by rewrite Hr, <- Hid.
Qed.
End Runs.

(** ** A call returns *)

Definition about (c : nat) (e : pool_event) : Prop :=
  match e with
  | PPrepare i _ | PFind i _ _ | PRegister i | PSend i _ | PAnswer i | PExpire i | PWorkerGone i | PLeave i => i = c
  | _ => False
  end.
(** A call waits for one thing only: its worker, while the worker is alive, has
    not answered, and the call's own context has not ended. *)
Definition unblocked (p : Pool) (call : Call) : Prop :=
  match ca_phase call with
  | Waiting w => ca_done call = true \/ is_Some (ca_response call) \/
                 exists k, po_workers p !! w = Some k /\ wk_closed k = true
  | _ => True
  end.
Definition no_host : AccountHost := mkAccountHost (fun _ => None) None "" 0 (fun _ => None) None None None (fun _ => false).
Definition returns (c : nat) (n : nat) (p : Pool) : Prop :=
  exists events p', (length events <= n)%nat /\ Forall (about c) events /\ pool_run events p = Some p' /\
    exists call', po_calls p' !! c = Some call' /\ has_returned (ca_phase call').

Lemma returns_now c n p call : po_calls p !! c = Some call -> has_returned (ca_phase call) -> returns c n p.
Proof. intros Hc Hr. exists [], p. split_and!; [cbn; lia|done|done|]. by exists call. Qed.
Lemma returns_step c n p e p' : about c e -> pool_step e p = Some p' -> returns c n p' -> returns c (S n) p.
Proof.
  intros He Hs (es & q & Hn & Hes & Hrun & Hret). exists (e :: es), q. split_and!; [cbn; lia|by constructor| |done].
  cbn. by rewrite Hs.
Qed.
Lemma returns_fail c n p call text : po_calls p !! c = Some call -> returns c n (fail_call c call text p).
Proof. intros Hc. eapply returns_now; [by apply lookup_move|done]. Qed.

(** A write that fails, and what is left of a call once it is leaving. *)
Lemma leaving_returns good_host c n p call w event :
  pool_ok good_host p -> po_calls p !! c = Some call -> ca_phase call = Leaving w event -> returns c (S n) p.
Proof.
  intros Hp Hc Hph. pose proof (co_phase _ _ _ (po_call_ok _ _ Hp _ _ Hc)) as Hf. rewrite Hph in Hf. destruct Hf as [(k & Hk & _) _].
  eapply (returns_step _ _ _ (PLeave c)); [done|cbn; rewrite Hc; cbn; rewrite Hph, Hk; done|].
  eapply returns_now; [by apply lookup_move|done].
Qed.
Lemma waiting_returns good_host c n p call w :
  pool_ok good_host p -> po_calls p !! c = Some call -> ca_phase call = Waiting w -> unblocked p call -> returns c (S (S n)) p.
Proof.
  intros Hp Hc Hph Hu. unfold unblocked in Hu. rewrite Hph in Hu.
  assert (Hgo : forall e p', about c e -> good_event good_host e -> pool_step e p = Some p' ->
                forall ev, po_calls p' !! c = Some (set_phase (Leaving w ev) call) -> returns c (S (S n)) p).
  { intros e p' Ha Hg Hs ev Hc'. eapply returns_step; [exact Ha|exact Hs|].
    eapply leaving_returns; [by eapply pool_step_ok|exact Hc'|done]. }
  destruct Hu as [Hd|[[ev Hre]|(k & Hk & Hcl)]].
  - eapply (Hgo (PExpire c)); [done|done|cbn; rewrite Hc; cbn; rewrite Hph, Hd; done|by apply lookup_move].
  - eapply (Hgo (PAnswer c)); [done|done|cbn; rewrite Hc; cbn; rewrite Hph, Hre; done|by apply lookup_move].
  - eapply (Hgo (PWorkerGone c)); [done|done|cbn; rewrite Hc; cbn; rewrite Hph, Hk; cbn; by rewrite Hcl|by apply lookup_move].
Qed.
Lemma registered_returns good_host c n p call w args :
  pool_ok good_host p -> po_calls p !! c = Some call -> ca_phase call = Registered w args -> returns c (S (S n)) p.
Proof.
  intros Hp Hc Hph. pose proof (co_phase _ _ _ (po_call_ok _ _ Hp _ _ Hc)) as Hf. rewrite Hph in Hf. destruct Hf as [_ (k & Hk & _)].
  eapply (returns_step _ _ _ (PSend c false)); [done|cbn; rewrite Hc; cbn; rewrite Hph, Hk; done|]. cbn.
  eapply (leaving_returns good_host); [|by apply lookup_move|done].
  eapply (pool_step_ok _ (PSend c false)); [done|exact Hp|cbn; rewrite Hc; cbn; rewrite Hph, Hk; done].
Qed.

Lemma chosen_returns good_host c n p call w args :
  pool_ok good_host p -> po_calls p !! c = Some call -> ca_phase call = Chosen w args -> returns c (S (S (S n))) p.
Proof.
  intros Hp Hc Hph. pose proof (co_phase _ _ _ (po_call_ok _ _ Hp _ _ Hc)) as Hf. rewrite Hph in Hf. destruct Hf as [_ (k & Hk & _)].
  assert (Hs : pool_step (PRegister c) p = Some (register c call w k args p)) by (cbn; rewrite Hc; cbn; by rewrite Hph, Hk).
  eapply returns_step; [|exact Hs|]; [done|]. pose proof (pool_step_ok good_host (PRegister c) p _ I Hp Hs) as Hp'.
  unfold register in *. destruct (wk_closed k); [by eapply returns_fail|]. destruct (wk_pending k !! _); [by eapply returns_fail|].
  eapply (registered_returns good_host); [exact Hp'|by apply lookup_move|done].
Qed.
Lemma choose_returns good_host c n p call w args k :
  pool_ok good_host p -> po_calls p !! c = Some call -> ca_phase call = Prepared args -> po_workers p !! w = Some k ->
  returns c (S (S (S n))) (choose c call w args p).
Proof.
  intros Hp Hc Hph Hk. pose proof (ok_choose good_host c call w args p k Hp Hc Hph Hk) as Hp'. unfold choose in *. rewrite Hk in *.
  destruct (_ =? _)%string; [|by eapply returns_fail].
  eapply (chosen_returns good_host); [exact Hp'|by apply lookup_move|done].
Qed.
Lemma prepared_returns good_host c n p call args :
  pool_ok good_host p -> po_calls p !! c = Some call -> ca_phase call = Prepared args -> returns c (S (S (S (S n)))) p.
Proof.
  intros Hp Hc Hph. eapply (returns_step _ _ _ (PFind c no_host false)); [done|cbn; rewrite Hc; cbn; by rewrite Hph|].
  unfold find_worker, live_worker.
  assert (Hfail : forall scopes, returns c (S (S (S n)))
    match startFileWorker no_host false (po_now p) (ca_username call) with
    | None => fail_call c call "file worker did not start" (mkPool scopes (po_workers p) (po_calls p) (po_now p))
    | Some worker => choose c call (length (po_workers p)) args
           (mkPool (<[ca_scope call := length (po_workers p)]> scopes) (po_workers p ++ [worker]) (po_calls p) (po_now p))
    end).
  { intros scopes. unfold startFileWorker. destruct (worker_command _ _) as [[u cmd]|]; cbn [andb]; by eapply returns_fail. }
  destruct (po_scopes p !! _) as [w|]; [|apply Hfail]. destruct (po_workers p !! w) as [k|] eqn:Hk; [|apply Hfail].
  destruct (wk_closed k); [apply Hfail|]. by eapply choose_returns.
Qed.

(** A call of [Execute] that is not waiting for its worker returns within
    five steps of its own, whatever the other goroutines and the workers do; one
    that waits does so as soon as the worker has answered or is gone or its own
    context has ended. No worker can hold a call for ever. *)
Theorem unblocked_call_returns good_host p c call :
  reachable good_host p -> po_calls p !! c = Some call -> unblocked p call -> returns c 5 p.
Proof.
  intros Hp Hc Hu. apply reachable_ok in Hp. destruct (ca_phase call) as [|args|w args|w args|w|w event|event] eqn:Hph.
  - eapply (returns_step _ _ _ (PPrepare c None)); [done|cbn; rewrite Hc; cbn; by rewrite Hph|].
    pose proof (ok_prepare good_host c call None p Hp Hc Hph) as Hp'. unfold prepare in *.
    destruct (ca_done call); [by eapply returns_fail|]. destruct (_ || _); [by eapply returns_fail|]. cbn zeta in *.
    destruct (is_stream _); [by eapply returns_fail|]. eapply prepared_returns; [exact Hp'|by apply lookup_move|done].
  - by eapply prepared_returns.
  - by eapply chosen_returns.
  - by eapply registered_returns.
  - by eapply waiting_returns.
  - by eapply leaving_returns.
  - eapply returns_now; [exact Hc|by rewrite Hph].
Qed.
