(* ===== verification/Relay.v ===== *)
(** * The transfer relay ([files/worker_transfer.go], [requestheaders/auth.go])

    A file worker runs as another account and must not hold the agent's token.
    For each upload or download the agent opens a loopback address with a random
    path, forwards exactly one request from it to the panel, and adds the
    credentials itself. Requests of the worker arrive concurrently; the atomic
    swap of [consumed] puts them in an order, and a run is that sequence. *)

From S2P Require Import Prelude.
From S2P Require Import GoStd.
From S2P Require Import GoUrl.
From S2P Require Import Files.
From S2P Require Import Workspace.

Local Open Scope string_scope.
Local Open Scope Z_scope.

(** ** Headers *)

(** [http.Header] with one value per canonical name, which is all the code uses. *)
Notation Header := (gmap string string).
Definition header_get (h : Header) (name : string) : string := default "" (h !! name).

(** The credentials of the agent as [cmd/flags] and the session hold them. *)
Record Credential := mkCredential { cr_Token : string; cr_CFAccessClientID : string; cr_CFAccessClientSecret : string }.
Definition ApplyAgentAuthentication (headers : Header) (c : Credential) : Header :=
  let headers := <["Authorization" := "Bearer " ++ cr_Token c]> headers in
  if nonempty (cr_CFAccessClientID c) && nonempty (cr_CFAccessClientSecret c)
  then <["CF-Access-Client-Secret" := cr_CFAccessClientSecret c]> (<["CF-Access-Client-Id" := cr_CFAccessClientID c]> headers)
  else headers.

(** ** The transfer address *)

Inductive relay_err := InvalidRelay | TransferRequired | InvalidEndpoint | UnparsableUpstream | NoSecret | NoListener.

(** [URL.Hostname] *)
Definition hostname (host : string) : string :=
  let '(before, _, found) := cut ":" host in
  if negb found then host
  else let '(bracketed, _, closing) := cut "]" host in
       if closing then trim_prefix bracketed "[" else before.
(** [strings.TrimRight(s, "/")] *)
Definition trim_slashes (s : string) : string := srev (of_chars (GoPath.strip_seps (chars (srev s)))).

Section Relay.
(** [url.Parse] *)
Variable parse_url : string -> option URL.

Definition buildFileTransferURL (Endpoint : string) (c : Credential) (args : arguments) : result string relay_err :=
  let endpoint := argString args workerTransferURL in
  if nonempty endpoint then
    match parse_url endpoint with
    | Some base =>
        if (U_Scheme base =? "http")%string && (hostname (U_Host base) =? "127.0.0.1")%string && bool_decide (U_User base = None) &&
           (U_RawQuery base =? "")%string && (U_Fragment base =? "")%string
        then Ok (url_string base) else Err InvalidRelay
    | None => Err InvalidRelay
    end
  else
    let id := trim_space (argString args "transfer_id") in
    let token := trim_space (argString args "transfer_token") in
    guard? negb ((id =? "")%string || (token =? "")%string) else TransferRequired in
    match parse_url (trim_space Endpoint) with
    | Some base =>
        guard? nonempty (U_Scheme base) && nonempty (U_Host base) else InvalidEndpoint in
        let base := with_path (trim_slashes (U_Path base) ++ "/api/clients/transfer/" ++ PathEscape id) base in
        let query := Set_ "transfer_token" token (Set_ "token" (cr_Token c) (Query base)) in
        Ok (url_string (with_query (encode_values query) base))
    | None => Err InvalidEndpoint
    end.

(** The upstream address a relay keeps: the token is taken out of the query. *)
Definition upstream_url (Endpoint : string) (c : Credential) (args : arguments) : result URL relay_err :=
  try? upstream := buildFileTransferURL Endpoint c args in
  match parse_url upstream with
  | None => Err UnparsableUpstream
  | Some u => Ok (with_query (encode_values (Del "token" (Query u))) u)
  end.

(** ** The relay *)

Record Relay := mkRelay { rl_upstream : URL; rl_path : string; rl_consumed : bool; rl_stopped : bool }.
(** [newWorkerTransferRelay]; [secret] is what the random source yields and
    [listening] whether a loopback port could be had. *)
Definition newWorkerTransferRelay (Endpoint : string) (c : Credential) (args : arguments) (secret : option string) (listening : bool)
  : result Relay relay_err :=
  try? u := upstream_url Endpoint c args in
  match secret with
  | None => Err NoSecret
  | Some bytes => guard? listening else NoListener in Ok (mkRelay u ("/" ++ hex_encode bytes) false false)
  end.
End Relay.

(** What the worker sends, what goes to the panel, what comes back. *)
Record LoopbackRequest := mkLoopback {
  lr_Method : string; lr_Path : string; lr_RawQuery : string; lr_Header : Header; lr_ContentLength : Z; lr_Body : bytes }.
Record UpstreamRequest := mkUpstream {
  ur_Method : string; ur_URL : string; ur_Header : Header; ur_ContentLength : Z; ur_Body : bytes; ur_Cancelled : bool }.
(** How an error of [http.Client.Do] answers [errors.Is] and [errors.As]. *)
Record TransferError := mkTransferError {
  te_canceled : bool; te_timeout : bool; te_dns : bool; te_certificate : bool; te_refused : bool; te_reset : bool; te_eof : bool }.
Record Reply := mkReply { rp_Status : Z; rp_Header : Header; rp_Body : bytes }.

Definition transferFailureReason (e : TransferError) : string :=
  if te_canceled e then "request canceled"
  else if te_timeout e then "upstream timeout"
  else if te_dns e then "DNS lookup failed"
  else if te_certificate e then "upstream TLS certificate verification failed"
  else if te_refused e then "upstream connection refused"
  else if te_reset e then "upstream connection reset"
  else if te_eof e then "upstream connection ended unexpectedly"
  else "upstream transport or TLS failure".

Definition request_headers : list string :=
  ["Content-Type"; "Accept"; "Accept-Encoding"; "Content-Range"; "X-Komari-Transfer-ID"; "X-Komari-Transfer-Token";
   "X-Komari-Transfer-Offset"; "X-Komari-Transfer-Length"].
Definition response_headers : list string := ["Content-Type"; "Content-Length"; "Content-Range"].
(** The named headers that are set, copied. *)
Definition copy_headers (names : list string) (from to : Header) : Header :=
  foldl (fun h name => let value := header_get from name in if nonempty value then <[name := value]> h else h) to names.

(** [http.Error] and [http.NotFound] *)
Definition plain_reply (status : Z) (text : string) : Reply :=
  mkReply status {["Content-Type" := "text/plain; charset=utf-8"; "X-Content-Type-Options" := "nosniff"]}
          (text ++ String "010"%char "").
(** The request sent upstream. [credential] is read when the request is made, so
    a token refreshed meanwhile is the one used. *)
Definition upstream_request (rl : Relay) (credential : Credential) (r : LoopbackRequest) : UpstreamRequest :=
  mkUpstream "POST" (url_string (rl_upstream rl))
    (ApplyAgentAuthentication (copy_headers request_headers (lr_Header r) ∅) credential)
    (lr_ContentLength r) (lr_Body r) (rl_stopped rl).
(** One request of the worker: [valid] is whether the upstream request can be
    made at all, [answer] what the panel does with it. *)
Definition handle (rl : Relay) (credential : Credential) (valid : bool) (answer : UpstreamRequest -> Reply + TransferError)
    (r : LoopbackRequest) : Relay * list UpstreamRequest * Reply :=
  if negb ((lr_Path r =? rl_path rl)%string && (lr_RawQuery r =? "")%string && (lr_Method r =? "POST")%string)
  then (rl, [], plain_reply 404 "404 page not found")
  else if rl_consumed rl then (rl, [], plain_reply 409 "transfer already consumed")
  else
    let rl' := mkRelay (rl_upstream rl) (rl_path rl) true (rl_stopped rl) in
    if negb valid then (rl', [], plain_reply 502 "cannot create transfer request")
    else
      let request := upstream_request rl credential r in
      match answer request with
      | inr e => (rl', [request], plain_reply 502 ("workspace transfer relay failed: " ++ transferFailureReason e))
      | inl reply => (rl', [request], mkReply (rp_Status reply) (copy_headers response_headers (rp_Header reply) ∅) (rp_Body reply))
      end.
(** The end of [Execute], or of its context, stops the relay. *)
Definition stop_relay (rl : Relay) : Relay := mkRelay (rl_upstream rl) (rl_path rl) (rl_consumed rl) true.

Inductive relay_event :=
| RRequest (credential : Credential) (valid : bool) (answer : UpstreamRequest -> Reply + TransferError) (r : LoopbackRequest)
| RStop.
Fixpoint relay_run (events : list relay_event) (rl : Relay) : Relay * list UpstreamRequest * list Reply :=
  match events with
  | [] => (rl, [], [])
  | RStop :: rest => relay_run rest (stop_relay rl)
  | RRequest c valid answer r :: rest =>
      let '(rl1, sent, reply) := handle rl c valid answer r in
      let '(rl2, sent', replies) := relay_run rest rl1 in (rl2, (sent ++ sent')%list, reply :: replies)
  end.

(** ** One request, and no credential in it that the worker could see *)

Definition keeps_names (names : list string) (h : Header) : Prop := forall name, is_Some (h !! name) -> name ∈ names.
Lemma copy_headers_spec names from to name :
  copy_headers names from to !! name =
  if decide (name ∈ names /\ header_get from name <> "") then Some (header_get from name) else to !! name.
Proof.
  unfold copy_headers. revert to. induction names as [|n names IH]; intros to; cbn [foldl].
  - rewrite decide_False; [done|]. intros [H _]. by apply elem_of_nil in H.
  - rewrite IH. unfold nonempty. destruct (decide (name ∈ names /\ header_get from name <> "")) as [[Hin Hne]|Hn].
    + rewrite decide_True; [done|]. by split; [right|].
    + destruct (String.eqb_spec (header_get from n) "") as [He|He]; cbn.
      * rewrite decide_False; [done|]. intros [Hin Hne]. apply elem_of_cons in Hin as [->|Hin]; [done|]. by apply Hn.
      * destruct (decide (name = n)) as [->|Hnn].
        { rewrite lookup_insert_eq, decide_True; [done|]. split; [by left|done]. }
        rewrite lookup_insert_ne by done. rewrite decide_False; [done|]. intros [Hin Hne]. apply elem_of_cons in Hin as [->|Hin]; [done|]. by apply Hn.
Qed.
Lemma copied_names names from : keeps_names names (copy_headers names from ∅).
Proof.
  intros name. rewrite copy_headers_spec. destruct (decide _) as [[Hin _]|_]; [done|]. rewrite lookup_empty. by intros [].
Qed.

Definition credential_headers : list string := ["Authorization"; "CF-Access-Client-Id"; "CF-Access-Client-Secret"].
Lemma authentication_names names h c :
  keeps_names names h -> keeps_names (names ++ credential_headers) (ApplyAgentAuthentication h c).
Proof.
  intros Hh name. unfold ApplyAgentAuthentication. destruct (_ && _); rewrite ?lookup_insert_is_Some'; rewrite elem_of_app; unfold credential_headers;
    repeat setoid_rewrite elem_of_cons; intros H; destruct_or?; subst; try (by auto 10); left; by apply Hh.
Qed.
Lemma authentication_token h c : ApplyAgentAuthentication h c !! "Authorization" = Some ("Bearer " ++ cr_Token c).
Proof.
  unfold ApplyAgentAuthentication. destruct (_ && _); [|by rewrite lookup_insert_eq].
  rewrite !lookup_insert_ne by done. by rewrite lookup_insert_eq.
Qed.

(** A request that may go upstream. *)
Definition admitted (rl : Relay) (r : LoopbackRequest) : Prop :=
  lr_Path r = rl_path rl /\ lr_RawQuery r = "" /\ lr_Method r = "POST".
(** What the worker may learn from an answer: the panel's reply without its
    other headers, or one of the agent's fixed texts. *)
Definition fixed_texts : list string :=
  ["404 page not found"; "transfer already consumed"; "cannot create transfer request"] ++
  map (String.append "workspace transfer relay failed: ")
    ["request canceled"; "upstream timeout"; "DNS lookup failed"; "upstream TLS certificate verification failed";
     "upstream connection refused"; "upstream connection reset"; "upstream connection ended unexpectedly";
     "upstream transport or TLS failure"].
Definition discreet (sent : list UpstreamRequest) (events : list relay_event) (reply : Reply) : Prop :=
  (exists status text, text ∈ fixed_texts /\ reply = plain_reply status text) \/
  (keeps_names response_headers (rp_Header reply) /\
   exists c valid answer r u panel, RRequest c valid answer r ∈ events /\ u ∈ sent /\ answer u = inl panel /\
     rp_Status reply = rp_Status panel /\ rp_Body reply = rp_Body panel).

Lemma reason_is_fixed e : "workspace transfer relay failed: " ++ transferFailureReason e ∈ fixed_texts.
Proof.
  unfold transferFailureReason. repeat (destruct (_ e)); apply (bool_decide_unpack (_ ∈ fixed_texts)); vm_compute; exact I.
Qed.

Lemma handle_spec rl c valid answer r rl' sent reply :
  handle rl c valid answer r = (rl', sent, reply) ->
  rl_upstream rl' = rl_upstream rl /\ rl_path rl' = rl_path rl /\ (rl_consumed rl = true -> rl_consumed rl' = true) /\
  (sent = [] \/ rl_consumed rl = false /\ rl_consumed rl' = true /\ admitted rl r /\ sent = [upstream_request rl c r]) /\
  discreet sent [RRequest c valid answer r] reply.
Proof.
  assert (Hplain : forall status text, text ∈ fixed_texts -> forall s e, discreet s e (plain_reply status text)).
  { intros status text Ht s e. left. by exists status, text. }
  unfold handle. destruct (_ && _ && _) eqn:Ha; cbn [negb].
  2: { intros [= <- <- <-]. split_and!; auto. apply Hplain. by left. }
  assert (Hadm : admitted rl r) by (bool_hyps; by split_and!).
  destruct (rl_consumed rl) eqn:Ec. { intros [= <- <- <-]. split_and!; auto. apply Hplain. right; by left. }
  destruct valid; cbn [negb]. 2: { intros [= <- <- <-]. cbn. split_and!; auto. apply Hplain. right; right; by left. }
  destruct (answer _) as [panel|e] eqn:Ean; intros [= <- <- <-]; cbn [rl_upstream rl_path rl_consumed]; (split_and!; [done..|right; by split_and!|]).
  - right. split; [exact (copied_names response_headers (rp_Header panel))|]. exists c, true, answer, r, (upstream_request rl c r), panel.
    split_and!; try done; by left.
  - apply Hplain, reason_is_fixed.
Qed.

Lemma discreet_more sent events reply sent' events' :
  (forall u, u ∈ sent -> u ∈ sent') -> (forall e, e ∈ events -> e ∈ events') -> discreet sent events reply -> discreet sent' events' reply.
Proof.
  intros Hs He [H|(Hn & c & v & a & r & u & panel & H1 & H2 & H3)]; [by left|right]. split; [done|].
  exists c, v, a, r, u, panel. auto.
Qed.

Lemma relay_run_spec events rl rl' sent replies :
  relay_run events rl = (rl', sent, replies) ->
  (rl_consumed rl = true -> sent = []) /\ (length sent <= 1)%nat /\
  (forall u, u ∈ sent -> exists c valid answer r stopped, RRequest c valid answer r ∈ events /\ admitted rl r /\
     u = upstream_request (mkRelay (rl_upstream rl) (rl_path rl) false stopped) c r) /\
  Forall (discreet sent events) replies.
Proof.
  revert rl sent replies. induction events as [|[c valid answer r|] events IH]; intros rl sent replies; cbn [relay_run].
  - intros [= <- <- <-]. split_and!; [done|cbn; lia| |constructor]. intros u Hu. by apply elem_of_nil in Hu.
  - destruct (handle rl c valid answer r) as [[rl1 s1] reply] eqn:Eh. destruct (relay_run events rl1) as [[rl2 s2] rs] eqn:Er.
    intros [= <- <- <-]. destruct (IH _ _ _ Er) as (Hc & Hl & Hu & Hd). destruct (handle_spec _ _ _ _ _ _ _ _ Eh) as (Hup & Hpa & Hco & Hs & Hd1).
    assert (Hnone : s1 = [] \/ s2 = []). { destruct Hs as [->|(_ & Hc1 & _)]; [by left|right; by apply Hc]. }
    split_and!.
    + intros Hcon. destruct Hs as [->|(Hc0 & _)]; [|congruence]. cbn. apply Hc. by apply Hco.
    + destruct Hs as [->|(_ & Hc1 & _ & ->)]; [exact Hl|]. rewrite (Hc Hc1). cbn. lia.
    + intros u Hin. apply elem_of_app in Hin as [Hin|Hin].
      * destruct Hs as [->|(Hc0 & _ & Hadm & ->)]; [by apply elem_of_nil in Hin|]. apply list_elem_of_singleton in Hin as ->.
        exists c, valid, answer, r, (rl_stopped rl). split_and!; [by left|done|]. destruct rl as [a b cons stp]. cbn in Hc0. by subst.
      * destruct (Hu u Hin) as (c' & v' & a' & r' & st & Hev & Hadm & ->). exists c', v', a', r', st. unfold admitted in *.
        rewrite Hup, Hpa in *. split_and!; [by right|apply Hadm..|done].
    + constructor.
      * eapply discreet_more; [| |exact Hd1]; [intros u; rewrite elem_of_app; by left|]. intros e He. apply list_elem_of_singleton in He as ->. by left.
      * eapply Forall_impl; [exact Hd|]. intros x. apply discreet_more; [intros u; rewrite elem_of_app; by right|by right].
  - intros Hr. destruct (IH _ _ _ Hr) as (Hc & Hl & Hu & Hd). split_and!; [exact Hc|exact Hl| |].
    + intros u Hin. destruct (Hu u Hin) as (c' & v' & a' & r' & st & Hev & Hadm & ->). exists c', v', a', r', st. by split_and!; [right|..].
    + eapply Forall_impl; [exact Hd|]. intros x. apply discreet_more; [done|by right].
Qed.

