(* ===== verification/FileService.v ===== *)
(** * File commands of the panel ([clientcore/files.go])

    How one leased assignment becomes a call of the executor: the time it may
    take, the arguments built from the command, and the two messages sent back. *)

From S2P Require Import Prelude.
From S2P Require Import GoStd.
From S2P Require Import Files.
From S2P Require Import Effective.
From S2P Require Import Workspace.

Local Open Scope string_scope.
Local Open Scope Z_scope.

(** [FileAssignment], both as leased and as the attach response repeats it;
    numbers are the unsigned 32-bit ones of the message. *)
Record FileAssignment := mkFileAssignment {
  fa_AssignmentId : string; fa_RequestId : string; fa_WorkspaceId : string; fa_SystemUser : string;
  fa_Operation : FileOperation; fa_TimeoutSeconds : Z; fa_Arguments : option arguments;
  fa_Path : string; fa_Destination : string; fa_Mode : string; fa_Owner : string; fa_Group : string; fa_Query : string;
  fa_Recursive : bool; fa_Overwrite : bool; fa_ContentSearch : bool; fa_MaxResults : Z }.

Definition fileOperationTimeout : duration := 5 * minute.
Definition fileStreamOperationLimit : duration := 30 * minute.
Definition stream_operation (o : FileOperation) : bool :=
  bool_decide (o = FILE_OPERATION_DOWNLOAD_STREAM) || bool_decide (o = FILE_OPERATION_UPLOAD_STREAM).
Definition operation_timeout (a : FileAssignment) : duration :=
  if stream_operation (fa_Operation a) then fileStreamOperationLimit
  else if 0 <? fa_TimeoutSeconds a then wrap64 (fa_TimeoutSeconds a * second)
  else fileOperationTimeout.

(** [putString]: a field fills an argument that the map does not give. *)
Definition putString (key value : string) (args : arguments) : arguments :=
  if (value =? "")%string then args
  else match args !! key with Some _ => args | None => <[key := VString value]> args end.
Definition put_flag (set : bool) (key : string) (args : arguments) : arguments :=
  if set then <[key := VBool true]> args else args.
Definition command_arguments (a : FileAssignment) : arguments :=
  let args := default ∅ (fa_Arguments a) in
  let args := putString "path" (fa_Path a) args in
  let args := putString "destination" (fa_Destination a) args in
  let args := putString "source" (fa_Path a) args in
  let args := putString "mode" (fa_Mode a) args in
  let args := putString "owner" (fa_Owner a) args in
  let args := putString "group" (fa_Group a) args in
  let args := putString "query" (fa_Query a) args in
  let args := put_flag (fa_Recursive a) "recursive" args in
  let args := put_flag (fa_Overwrite a) "overwrite" args in
  let args := put_flag (fa_ContentSearch a) "content" args in
  if 0 <? fa_MaxResults a then <["max_results" := VNumber (fa_MaxResults a)]> args else args.

(** A call of [Executor.Execute]. *)
Record ExecuteCall := mkExecute {
  xc_scope : string; xc_username : string; xc_request : string; xc_operation : FileOperation; xc_args : arguments }.
Definition execute_call (command : FileAssignment) : ExecuteCall :=
  mkExecute (fa_WorkspaceId command) (fa_SystemUser command) (fa_RequestId command) (fa_Operation command) (command_arguments command).
Definition with_request (id : string) (operation : FileOperation) (e : FileEvent) : FileEvent :=
  mkFileEvent id (if bool_decide (fe_Operation e = FILE_OPERATION_UNSPECIFIED) then operation else fe_Operation e)
    (fe_Success e) (fe_Error e) (fe_Path e) (fe_Entries e) (fe_Matches e) (fe_Limited e).

Inductive file_message :=
| FAttach (agent assignment request : string)
| FEvent (event : FileEvent).
Inductive attach_err := AttachSend | AttachReceive | AttachMissing | AttachReport.

(** [send1] and [send2] are whether the two sends succeed, [received] the
    response ([None]: the stream failed), [execute] the executor. *)
Definition attachFileOperation (agent : string) (assignment : FileAssignment) (send1 : bool)
    (received : option (option FileAssignment)) (execute : ExecuteCall -> FileEvent) (send2 : bool)
  : result unit attach_err * list file_message * list ExecuteCall :=
  let attach := FAttach agent (fa_AssignmentId assignment) (fa_RequestId assignment) in
  if negb send1 then (Err AttachSend, [attach], [])
  else match received with
  | None => (Err AttachReceive, [attach], [])
  | Some None => (Err AttachMissing, [attach], [])
  | Some (Some command) =>
      let call := execute_call command in
      let event := with_request (fa_RequestId command) (fa_Operation command) (execute call) in
      (if send2 then Ok tt else Err AttachReport, [attach; FEvent event], [call])
  end.

(** One message of the lease stream: [allowed] is the capability when it
    arrives, [ended] whether the context ends while all four places are taken. *)
Definition lease_file (assignment : option FileAssignment) (allowed : CapabilityState) (ended : bool) : option FileAssignment :=
  match assignment with
  | None => None
  | Some a => if cap_Available allowed then if ended then None else Some a else None
  end.

Lemma lookup_putString key value args name :
  putString key value args !! name =
  if decide (name = key /\ value <> "" /\ args !! key = None) then Some (VString value) else args !! name.
Proof.
  unfold putString. destruct (String.eqb_spec value "") as [->|Hv]; [by rewrite decide_False by tauto|].
  destruct (args !! key) eqn:E; [rewrite decide_False by (intros (? & ? & ?); congruence); done|].
  destruct (decide (name = key)) as [->|Hn].
  - by rewrite lookup_insert_eq, decide_True.
  - rewrite lookup_insert_ne by done. rewrite decide_False; [done|tauto].
Qed.
Lemma lookup_put_flag set key args name :
  put_flag set key args !! name = if set && bool_decide (name = key) then Some (VBool true) else args !! name.
Proof.
  unfold put_flag. destruct set; [|done]. cbn. case_bool_decide as Hn; [subst; by rewrite lookup_insert_eq|by rewrite lookup_insert_ne].
Qed.

(** The text fields of the message, by the argument they fill. *)
Definition string_fields (a : FileAssignment) : list (string * string) :=
  [("path", fa_Path a); ("destination", fa_Destination a); ("source", fa_Path a); ("mode", fa_Mode a); ("owner", fa_Owner a);
   ("group", fa_Group a); ("query", fa_Query a)].
Definition flag_fields : list string := ["recursive"; "overwrite"; "content"; "max_results"].
Definition field_value (name : string) (fields : list (string * string)) : option string :=
  head (snd <$> filter (fun kv : string * string => kv.1 = name /\ kv.2 <> "") fields).
Definition put_strings (fields : list (string * string)) (args : arguments) : arguments :=
  foldl (fun args kv => putString kv.1 kv.2 args) args fields.

Lemma lookup_put_strings fields args name :
  put_strings fields args !! name =
  match args !! name with Some v => Some v | None => VString <$> field_value name fields end.
Proof.
  unfold put_strings, field_value. revert args. induction fields as [|[k v] fields IH]; intros args; cbn [foldl]; [by destruct (args !! name)|].
  rewrite IH, lookup_putString. cbn [fst snd]. rewrite filter_cons. cbn [fst snd].
  destruct (decide (name = k /\ v <> "" /\ args !! k = None)) as [(-> & Hv & Hn)|Hno].
  - rewrite Hn, decide_True by done. done.
  - destruct (args !! name) eqn:E; [done|]. rewrite decide_False; [done|]. intros [-> Hv]. by apply Hno.
Qed.
Lemma command_arguments_text a name :
  name ∉ flag_fields -> command_arguments a !! name = put_strings (string_fields a) (default ∅ (fa_Arguments a)) !! name.
Proof.
  unfold flag_fields. rewrite !not_elem_of_cons. intros (H1 & H2 & H3 & H4 & _). unfold command_arguments.
  destruct (0 <? _); rewrite ?lookup_insert_ne by done; rewrite !lookup_put_flag, !(bool_decide_eq_false_2 (name = _)) by done;
    by rewrite !andb_false_r.
Qed.

(** An assignment is carried out at most once, and as the command of the
    attach response says: in its workspace, for its account, with the arguments
    the map gives; a field of the message fills only a text argument the map
    leaves out; the answer carries the command's request. *)
Theorem file_command_is_carried_out agent assignment send1 received execute send2 r messages calls :
  attachFileOperation agent assignment send1 received execute send2 = (r, messages, calls) ->
  match calls with
  | [] => forall e, FEvent e ∉ messages
  | [call] => exists command event, received = Some (Some command) /\
      xc_scope call = fa_WorkspaceId command /\ xc_username call = fa_SystemUser command /\
      xc_request call = fa_RequestId command /\ xc_operation call = fa_Operation command /\
      messages = [FAttach agent (fa_AssignmentId assignment) (fa_RequestId assignment); FEvent event] /\
      fe_RequestId event = fa_RequestId command /\
      (fe_Operation event = FILE_OPERATION_UNSPECIFIED -> fa_Operation command = FILE_OPERATION_UNSPECIFIED) /\
      (forall name, name ∉ flag_fields ->
         xc_args call !! name = match default ∅ (fa_Arguments command) !! name with
                                | Some v => Some v
                                | None => VString <$> field_value name (string_fields command)
                                end)
  | _ => False
  end.
Proof.
  unfold attachFileOperation. intros H.
  destruct send1; cbn [negb] in H; [|injection H as <- <- <-; intros e He; set_solver].
  destruct received as [[command|]|]; [|injection H as <- <- <-; intros e He; set_solver..].
  injection H as <- <- <-. exists command. eexists. split_and!; [done..| |].
  - unfold with_request. cbn. by case_bool_decide.
  - intros name Hf. unfold execute_call. cbn [xc_args]. by rewrite command_arguments_text, lookup_put_strings.
Qed.
