(* ===== verification/RemoteSession.v ===== *)
(** * Remote terminal sessions ([clientcore/client.go], [terminal/terminal.go])

    One attached session is four goroutines around a bounded channel: a reader
    of the terminal, a waiter for its end, a sender towards the panel, and the
    loop that carries out commands. Each event below is one of their steps
    between two synchronisations; a run is any sequence of them. The panel, the
    terminal and the capability at each check are arbitrary. *)

From S2P Require Import Prelude.
From S2P Require Import GoStd.
From S2P Require Import Effective.
From S2P Require Import Accounts.

Local Open Scope string_scope.
Local Open Scope Z_scope.

(** ** Opening ([openSession], [unixTerminal.Resize]) *)

Inductive open_err := OpenWithdrawn (reason : string) | OpenAccount (e : acct_err) | OpenResize.
(** [pty.Winsize] has 16-bit fields. *)
Definition winsize (cols rows : Z) : Z * Z := (rows mod 2 ^ 16, cols mod 2 ^ 16).
(** What is opened, and whether a terminal that was started has been closed. *)
Definition openSession (allowed : CapabilityState) (cols rows : Z) (create : result terminalImpl acct_err) (resized : bool)
  : result (terminalImpl * option (Z * Z)) open_err * bool :=
  if negb (cap_Available allowed) then (Err (OpenWithdrawn (cap_Limitation allowed)), false)
  else match create with
  | Err e => (Err (OpenAccount e), false)
  | Ok t =>
      if (0 <? cols) && (0 <? rows) then
        if resized then (Ok (t, Some (winsize cols rows)), false) else (Err OpenResize, true)
      else (Ok (t, None), false)
  end.

(** ** Messages *)

Inductive close_reason := CLOSE_REASON_NORMAL | CLOSE_REASON_FAILED.
Inductive payload :=
| POutput (data : bytes)
| PClosed (reason : close_reason) (exit_code : option Z)
| PAck.                              (** an event without content *)
(** [AgentSessionEvent] as it is sent. *)
Record sent_event := mkSent { se_Sequence : Z; se_Accepted : Z; se_payload : payload }.
Inductive session_command :=
| CInput (data : bytes)
| CResize (size : option (Z * Z))
| CFile
| CClose
| CEmpty.
Record session_response := mkResponse { sr_Sequence : Z; sr_Command : session_command }.

(** The messages sent when the terminal cannot be opened. *)
Inductive attach_message := AMAttach (agent assignment session : string) | AMEvent (e : sent_event).
Definition attach_failure (agent assignment session : string) (attached : bool) : list attach_message :=
  AMAttach agent assignment session :: (if attached then [AMEvent (mkSent 1 0 (PClosed CLOSE_REASON_FAILED None))] else []).
Definition session_size (size : option (Z * Z)) : Z * Z := match size with Some s => s | None => (80, 24) end.

(** ** The goroutines *)

Definition outbound_capacity : nat := 32.
Definition read_buffer : nat := Z.to_nat 32768.

(** [RQuit]: it returned with a chunk it could not pass on. *)
Inductive reader := RReading | RHolding (data : bytes) (last : bool) | RStopped | RQuit.
Inductive waiter := WWaiting | WHolding (reason : close_reason) (exit_code : option Z) | WStopped.
Inductive sender := SIdle | SHolding (e : payload) | SFailed | SStopped.
Inductive commander := MReceiving | MAcknowledging | MReturned.
Inductive session_end := EndStream | EndWithdrawn | EndTerminal | EndFileCommand | EndEmpty | EndClosed | EndSend | EndContext.

(** What was done to the terminal. *)
Inductive terminal_action := TWrite (data : bytes) | TResize (rows cols : Z).
Record Session := mkSession {
  ss_queue : list payload;
  ss_reader : reader; ss_waiter : waiter; ss_sender : sender; ss_main : commander;
  ss_sequence : Z; ss_accepted : Z; ss_done : bool;
  ss_read : list bytes;                 (** every chunk the reader has read *)
  ss_sent : list sent_event;            (** every event the panel was sent *)
  ss_carried : list (Z * list terminal_action); (** the commands carried out, by their number *)
  ss_actions : list (terminal_action * bool);   (** every action, with the capability at its own check *)
  ss_end : option session_end }.
Definition session_start : Session := mkSession [] RReading WWaiting SIdle MReceiving 0 0 false [] [] [] [] None.

Definition upd (s : Session) (q : list payload) (r : reader) (w : waiter) (sd : sender) (m : commander) : Session :=
  mkSession q r w sd m (ss_sequence s) (ss_accepted s) (ss_done s) (ss_read s) (ss_sent s) (ss_carried s) (ss_actions s) (ss_end s).
Definition with_queue q s := upd s q (ss_reader s) (ss_waiter s) (ss_sender s) (ss_main s).
Definition with_reader r s := upd s (ss_queue s) r (ss_waiter s) (ss_sender s) (ss_main s).
Definition with_waiter w s := upd s (ss_queue s) (ss_reader s) w (ss_sender s) (ss_main s).
Definition with_sender sd s := upd s (ss_queue s) (ss_reader s) (ss_waiter s) sd (ss_main s).
Definition with_main m s := upd s (ss_queue s) (ss_reader s) (ss_waiter s) (ss_sender s) m.
Definition note_read (b : bytes) (s : Session) : Session :=
  mkSession (ss_queue s) (ss_reader s) (ss_waiter s) (ss_sender s) (ss_main s) (ss_sequence s) (ss_accepted s) (ss_done s)
    (ss_read s ++ [b])%list (ss_sent s) (ss_carried s) (ss_actions s) (ss_end s).
Definition note_sent (sequence : Z) (e : sent_event) (s : Session) : Session :=
  mkSession (ss_queue s) (ss_reader s) (ss_waiter s) (ss_sender s) (ss_main s) sequence (ss_accepted s) (ss_done s)
    (ss_read s) (ss_sent s ++ [e])%list (ss_carried s) (ss_actions s) (ss_end s).
Definition note_action (a : terminal_action) (allowed : bool) (s : Session) : Session :=
  mkSession (ss_queue s) (ss_reader s) (ss_waiter s) (ss_sender s) (ss_main s) (ss_sequence s) (ss_accepted s) (ss_done s)
    (ss_read s) (ss_sent s) (ss_carried s) (ss_actions s ++ [(a, allowed)])%list (ss_end s).
(** [accepted.Store(response.Sequence)] *)
Definition store_accepted (n : Z) (actions : list terminal_action) (s : Session) : Session :=
  mkSession (ss_queue s) (ss_reader s) (ss_waiter s) (ss_sender s) (ss_main s) (ss_sequence s) n (ss_done s)
    (ss_read s) (ss_sent s) (ss_carried s ++ [(n, actions)])%list (ss_actions s) (ss_end s).
Definition cancel (s : Session) : Session :=
  mkSession (ss_queue s) (ss_reader s) (ss_waiter s) (ss_sender s) (ss_main s) (ss_sequence s) (ss_accepted s) true
    (ss_read s) (ss_sent s) (ss_carried s) (ss_actions s) (ss_end s).
(** The loop returns: its deferred calls cancel the session and close the
    terminal. *)
Definition finish_session (e : session_end) (s : Session) : Session :=
  let s := cancel s in
  mkSession (ss_queue s) (ss_reader s) (ss_waiter s) (ss_sender s) MReturned (ss_sequence s) (ss_accepted s) (ss_done s)
    (ss_read s) (ss_sent s) (ss_carried s) (ss_actions s) (Some e).
Definition room (s : Session) : bool := Nat.ltb (length (ss_queue s)) outbound_capacity.
Definition enqueue (e : payload) (s : Session) : Session := with_queue (ss_queue s ++ [e])%list s.

(** ** Events *)

Inductive session_event :=
| TRead (data : bytes) (failed : bool)
| TPush
| TExit (failed : bool)
| TPushExit
| TDequeue
| TTransmit (ok : bool)
| TCommand (r : option session_response) (allowed : bool) (checked : bool) (ok : bool)
| TAck
| TSendFailed
| TContextEnded
| TCancel
| TQuit (who : nat).

(** [Session.Write] and [Session.Resize]: a second look at the capability, then
    the terminal itself. *)
Definition on_terminal (a : terminal_action) (checked ok : bool) (s : Session) : Session * bool :=
  if checked then (note_action a checked s, ok) else (s, false).

(** One response of the panel: [allowed] at the loop's own check, [checked] at
    the terminal's, [ok] whether the terminal accepts the call. *)
Definition command (r : option session_response) (allowed checked ok : bool) (s : Session) : Session :=
  match r with
  | None => finish_session EndStream s
  | Some response =>
      if negb allowed then finish_session EndWithdrawn s
      else
        let carried actions (sk : Session * bool) :=
          if sk.2 then with_main MAcknowledging (store_accepted (sr_Sequence response) actions sk.1)
          else finish_session EndTerminal sk.1 in
        match sr_Command response with
        | CInput data => carried [TWrite data] (on_terminal (TWrite data) checked ok s)
        | CResize (Some (cols, rows)) =>
            let '(h, w) := winsize cols rows in carried [TResize h w] (on_terminal (TResize h w) checked ok s)
        | CResize None => carried [] (s, true)
        | CFile => finish_session EndFileCommand s
        | CClose => finish_session EndClosed s
        | CEmpty => finish_session EndEmpty s
        end
  end.

(** The sender numbers what has content and stamps it with the last command
    carried out. *)
Definition transmit (e : payload) (ok : bool) (s : Session) : Session :=
  let sequence := match e with PAck => ss_sequence s | _ => wrapu64 (ss_sequence s + 1) end in
  let number := match e with PAck => 0 | _ => sequence end in
  if ok then with_sender SIdle (note_sent sequence (mkSent number (ss_accepted s) e) s)
  else with_sender SFailed s.

Definition session_step (e : session_event) (s : Session) : option Session :=
  match e with
  | TRead data failed =>
      match ss_reader s with
      | RReading =>
          if negb (Nat.leb (String.length data) read_buffer) then None
          else if (data =? "")%string then Some (with_reader (if failed then RStopped else RReading) s)
          else Some (with_reader (RHolding data failed) (note_read data s))
      | _ => None
      end
  | TPush =>
      match ss_reader s with
      | RHolding data last => if room s then Some (with_reader (if last then RStopped else RReading) (enqueue (POutput data) s)) else None
      | _ => None
      end
  | TExit failed =>
      match ss_waiter s with
      | WWaiting => Some (with_waiter (if failed then WHolding CLOSE_REASON_FAILED (Some (-1)) else WHolding CLOSE_REASON_NORMAL None) s)
      | _ => None
      end
  | TPushExit =>
      match ss_waiter s with
      | WHolding reason code => if room s then Some (with_waiter WStopped (enqueue (PClosed reason code) s)) else None
      | _ => None
      end
  | TDequeue =>
      match ss_sender s, ss_queue s with
      | SIdle, e :: rest => Some (with_sender (SHolding e) (with_queue rest s))
      | _, _ => None
      end
  | TTransmit ok => match ss_sender s with SHolding e => Some (transmit e ok s) | _ => None end
  | TCommand r allowed checked ok => match ss_main s with MReceiving => Some (command r allowed checked ok s) | _ => None end
  | TAck =>
      match ss_main s with
      | MAcknowledging => if room s then Some (with_main MReceiving (enqueue PAck s)) else None
      | _ => None
      end
  | TSendFailed =>
      match ss_main s, ss_sender s with
      | MAcknowledging, SFailed => Some (with_sender SStopped (finish_session EndSend s))
      | _, _ => None
      end
  | TContextEnded => match ss_main s with MAcknowledging => if ss_done s then Some (finish_session EndContext s) else None | _ => None end
  | TCancel => Some (cancel s)
  | TQuit who =>
      if negb (ss_done s) then None
      else match who with
      | O => match ss_reader s with RHolding _ _ => Some (with_reader RQuit s) | _ => None end
      | S O => match ss_waiter s with WHolding _ _ => Some (with_waiter WStopped s) | _ => None end
      | _ => match ss_sender s with SIdle => Some (with_sender SStopped s) | _ => None end
      end
  end.
Inductive session_reachable : Session -> Prop :=
| sreach_start : session_reachable session_start
| sreach_step s e s' : session_reachable s -> session_step e s = Some s' -> session_reachable s'.

(** ** What every run keeps *)

Definition outputs (es : list payload) : list bytes := omap (fun e => match e with POutput d => Some d | _ => None end) es.
Definition has_content (e : payload) : bool := match e with PAck => false | _ => true end.
Definition with_content (es : list sent_event) : list sent_event :=
  filter (fun e => has_content (se_payload e) = true) es.
Definition held_output (s : Session) : list payload := match ss_sender s with SHolding e => [e] | _ => [] end.
Definition read_output (s : Session) : list payload := match ss_reader s with RHolding d _ => [POutput d] | _ => [] end.
Definition sender_alive (s : Session) : Prop := match ss_sender s with SIdle | SHolding _ => True | _ => False end.
(** The chunks on their way, oldest first. *)
Definition in_flight (s : Session) : list payload := (held_output s ++ ss_queue s ++ read_output s)%list.

(** What is to be sent of what was read: all of it in order as long as the
    session lasts, and never anything else. *)
Record session_ok (s : Session) : Prop := {
  so_prefix : outputs (se_payload <$> ss_sent s) `prefix_of` ss_read s;
  so_alive : sender_alive s -> (outputs (se_payload <$> ss_sent s) ++ outputs (in_flight s))%list `prefix_of` ss_read s;
  so_whole : sender_alive s -> ss_reader s <> RQuit -> (outputs (se_payload <$> ss_sent s) ++ outputs (in_flight s))%list = ss_read s;
  so_count : ss_sequence s = wrapu64 (Z.of_nat (length (with_content (ss_sent s))));
  so_number : forall i e, with_content (ss_sent s) !! i = Some e -> se_Sequence e = wrapu64 (Z.of_nat i + 1);
  so_accepted : ss_accepted s = 0 \/ exists actions, (ss_accepted s, actions) ∈ ss_carried s;
  so_acks : Forall (fun e => se_Accepted e = 0 \/ exists actions, (se_Accepted e, actions) ∈ ss_carried s) (ss_sent s);
  so_carried : forall n actions a, (n, actions) ∈ ss_carried s -> a ∈ actions -> (a, true) ∈ ss_actions s;
  so_gated : forall a allowed, (a, allowed) ∈ ss_actions s -> allowed = true }.

Lemma outputs_app a b : outputs (a ++ b) = (outputs a ++ outputs b)%list.
Proof. apply omap_app. Qed.
Lemma with_content_snoc l x : with_content (l ++ [x]) = (with_content l ++ if has_content (se_payload x) then [x] else [])%list.
Proof. unfold with_content. rewrite filter_app, filter_cons, filter_nil. by destruct (has_content (se_payload x)). Qed.

(** A step that only moves chunks along keeps the account of them. *)
Lemma session_ok_same s s' :
  session_ok s -> ss_sent s' = ss_sent s -> ss_read s' = ss_read s -> (sender_alive s' -> sender_alive s) ->
  (sender_alive s' -> outputs (in_flight s') `prefix_of` outputs (in_flight s)) ->
  (sender_alive s' -> ss_reader s' <> RQuit -> ss_reader s <> RQuit /\ outputs (in_flight s') = outputs (in_flight s)) ->
  ss_sequence s' = ss_sequence s -> ss_accepted s' = ss_accepted s -> ss_carried s' = ss_carried s ->
  ss_actions s' = ss_actions s -> session_ok s'.
Proof.
  intros [] Hs Hr Ha Hp Hw Hq Hac Hc Hx. split; rewrite ?Hs, ?Hr, ?Hq, ?Hac, ?Hc, ?Hx; auto.
  - intros H. etrans; [|by apply so_alive0, Ha]. apply prefix_app. by apply Hp.
  - intros H Hd. destruct (Hw H Hd) as [Hd' ->]. apply so_whole0; auto.
Qed.
Lemma ok_cancel s : session_ok s -> session_ok (cancel s).
Proof. intros H. by apply (session_ok_same s). Qed.
Lemma ok_finish e s : session_ok s -> session_ok (finish_session e s).
Proof. intros H. by apply (session_ok_same s). Qed.
Lemma ok_action a allowed s : session_ok s -> allowed = true -> session_ok (note_action a allowed s).
Proof.
  intros [] Ha. split; try done; cbn [ss_actions note_action ss_carried].
  - intros n actions b Hin Hb. apply elem_of_app. left. by eapply so_carried0.
  - intros b al Hin. apply elem_of_app in Hin as [Hin|Hin]; [by eapply so_gated0|].
    apply list_elem_of_singleton in Hin. by injection Hin as _ ->.
Qed.
Lemma ok_store n actions s :
  session_ok s -> (forall a, a ∈ actions -> (a, true) ∈ ss_actions s) -> session_ok (store_accepted n actions s).
Proof.
  intros [] Ha. split; try done; cbn [ss_accepted ss_carried store_accepted ss_sent ss_actions].
  - right. exists actions. apply elem_of_app. right. by apply list_elem_of_singleton.
  - eapply Forall_impl; [exact so_acks0|]. intros e [H|[acts H]]; [by left|right]. exists acts. apply elem_of_app. by left.
  - intros m acts a Hin Hb. apply elem_of_app in Hin as [Hin|Hin]; [by eapply so_carried0|].
    apply list_elem_of_singleton in Hin. injection Hin as -> ->. by apply Ha.
Qed.
Lemma ok_main m s : session_ok s -> session_ok (with_main m s).
Proof. intros H. by apply (session_ok_same s). Qed.
Lemma ok_command r allowed checked ok s : session_ok s -> session_ok (command r allowed checked ok s).
Proof.
  intros H. unfold command. destruct r as [response|]; [|by apply ok_finish]. destruct allowed; cbn [negb]; [|by apply ok_finish].
  assert (Hcarry : forall actions sk, session_ok sk.1 -> (forall a, a ∈ actions -> sk.2 = true -> (a, true) ∈ ss_actions sk.1) -> session_ok
     (if sk.2 then with_main MAcknowledging (store_accepted (sr_Sequence response) actions sk.1) else finish_session EndTerminal sk.1)).
  { intros actions [sk b] Hk Hin. cbn in *. destruct b; [|by apply ok_finish]. apply ok_main, ok_store; auto. }
  assert (Hterm : forall a, session_ok (on_terminal a checked ok s).1 /\
      (forall b, b ∈ [a] -> (on_terminal a checked ok s).2 = true -> (b, true) ∈ ss_actions (on_terminal a checked ok s).1)).
  { intros a. unfold on_terminal. destruct checked; cbn; [|done]. split; [by apply ok_action|].
    intros b Hb _. apply list_elem_of_singleton in Hb as ->. apply elem_of_app. right. by apply list_elem_of_singleton. }
  destruct (sr_Command response) as [data|[[cols rows]|]| | |]; try (by apply ok_finish); cbn [winsize].
  - apply Hcarry; apply Hterm.
  - apply Hcarry; apply Hterm.
  - apply Hcarry; [done|]. intros a Ha. by apply elem_of_nil in Ha.
Qed.
Lemma ok_transmit e ok s : session_ok s -> ss_sender s = SHolding e -> session_ok (transmit e ok s).
Proof.
  intros H He. unfold transmit. destruct ok; [|by apply (session_ok_same s)].
  assert (Hal : sender_alive s) by (unfold sender_alive; by rewrite He). destruct H.
  specialize (so_alive0 Hal). specialize (so_whole0 Hal). unfold in_flight, held_output in *. rewrite He in *. rewrite !outputs_app in *.
  assert (Ho : forall n, outputs (se_payload <$> (ss_sent s ++ [mkSent n (ss_accepted s) e])%list) = (outputs (se_payload <$> ss_sent s) ++ outputs [e])%list).
  { intros n. by rewrite fmap_app, outputs_app. }
  set (sequence := match e with PAck => ss_sequence s | _ => wrapu64 (ss_sequence s + 1) end).
  assert (Hnum : has_content e = true -> sequence = wrapu64 (ss_sequence s + 1)) by by destruct e.
  assert (Hack : has_content e = false -> sequence = ss_sequence s) by by destruct e.
  split; cbn [ss_sent note_sent with_sender upd ss_read ss_done ss_sequence ss_accepted ss_carried ss_actions]; unfold in_flight, held_output, read_output in *;
    cbn [ss_sender ss_queue ss_reader note_sent with_sender upd]; rewrite ?Ho, ?outputs_app; auto.
  - etrans; [|exact so_alive0]. rewrite app_assoc. by apply prefix_app_r.
  - intros _. cbn [outputs omap app]. by rewrite <- app_assoc.
  - intros _ Hd. rewrite <- app_assoc. by apply so_whole0.
  - rewrite with_content_snoc. cbn [se_payload]. destruct (has_content e) eqn:Ec.
    + rewrite length_app, Hnum, so_count0, wrapu64_add_l by done. f_equal. cbn. lia.
    + rewrite app_nil_r, Hack by done. exact so_count0.
  - intros i x. rewrite with_content_snoc. cbn [se_payload]. destruct (has_content e) eqn:Ec; [|rewrite app_nil_r; apply so_number0].
    intros Hx. apply lookup_app_Some in Hx as [Hx|[Hi Hx]]; [by apply so_number0|].
    apply list_lookup_singleton_Some in Hx as [Hi0 <-]. cbn. destruct e; try discriminate Ec; rewrite (Hnum eq_refl), so_count0, wrapu64_add_l; f_equal; lia.
  - apply Forall_app. split; [exact so_acks0|]. by apply Forall_singleton.
Qed.

Lemma ok_read data failed s :
  session_ok s -> ss_reader s = RReading -> session_ok (with_reader (RHolding data failed) (note_read data s)).
Proof.
  intros [] Hr. assert (Hq : ss_reader s <> RQuit) by by rewrite Hr.
  assert (Hf : outputs (in_flight (with_reader (RHolding data failed) (note_read data s))) = (outputs (in_flight s) ++ [data])%list).
  { unfold in_flight, held_output, read_output. cbn [ss_sender ss_queue ss_reader with_reader upd note_read]. rewrite Hr, !outputs_app.
    by rewrite app_nil_r, <- app_assoc. }
  split; cbn [ss_sent with_reader upd note_read ss_read ss_done ss_sequence ss_accepted ss_carried ss_actions]; auto; rewrite ?Hf.
  - etrans; [exact so_prefix0|]. by apply prefix_app_r.
  - intros Ha. rewrite app_assoc, so_whole0 by done. reflexivity.
  - intros Ha _. rewrite app_assoc. f_equal. by apply so_whole0.
Qed.

Ltac same_session s := apply (session_ok_same s); try done;
  unfold sender_alive, in_flight, held_output, read_output; cbn [ss_sender ss_queue ss_reader with_reader with_queue with_waiter with_sender with_main upd enqueue].

Ltac flows := intros; rewrite ?outputs_app; cbn; rewrite ?app_nil_r; first [done | reflexivity | split; [done|reflexivity]].

Lemma session_step_ok e s s' : session_ok s -> session_step e s = Some s' -> session_ok s'.
Proof.
  intros H Hs. destruct e; cbn [session_step] in Hs.
  - (* TRead *) destruct (ss_reader s) eqn:Er; try discriminate Hs. destruct (negb _); [done|]. destruct (data =? "")%string.
    + injection Hs as <-. same_session s; rewrite Er; destruct failed; flows.
    + injection Hs as <-. by apply ok_read.
  - (* TPush *) destruct (ss_reader s) as [|data fin| |] eqn:Er; try discriminate Hs. destruct (room s); [|done]. injection Hs as <-.
    same_session s; rewrite Er; destruct fin; flows.
  - (* TExit *) destruct (ss_waiter s); try discriminate Hs. injection Hs as <-. same_session s.
  - (* TPushExit *) destruct (ss_waiter s); try discriminate Hs. destruct (room s); [|done]. injection Hs as <-.
    same_session s; flows.
  - (* TDequeue *) destruct (ss_sender s) eqn:Es; try discriminate Hs. destruct (ss_queue s) eqn:Eq; [done|]. injection Hs as <-.
    same_session s; rewrite ?Es, ?Eq; destruct p; flows.
  - (* TTransmit *) destruct (ss_sender s) eqn:Es; try discriminate Hs. injection Hs as <-. by apply ok_transmit.
  - (* TCommand *) destruct (ss_main s); try discriminate Hs. injection Hs as <-. by apply ok_command.
  - (* TAck *) destruct (ss_main s); try discriminate Hs. destruct (room s); [|done]. injection Hs as <-.
    same_session s; flows.
  - (* TSendFailed *) destruct (ss_main s); try discriminate Hs. destruct (ss_sender s) eqn:Es; try discriminate Hs. injection Hs as <-.
    same_session s.
  - (* TContextEnded *) destruct (ss_main s); try discriminate Hs. destruct (ss_done s); [|done]. injection Hs as <-. by apply ok_finish.
  - injection Hs as <-. by apply ok_cancel.
  - (* TQuit *) destruct (ss_done s); [|done]. destruct who as [|[|who]]; cbn in Hs.
    + destruct (ss_reader s) eqn:Er; try discriminate Hs. injection Hs as <-. same_session s; rewrite Er.
      intros _. rewrite !outputs_app. cbn. rewrite app_nil_r. apply prefix_app, prefix_app_r. done.
    + destruct (ss_waiter s); try discriminate Hs. injection Hs as <-. same_session s.
    + destruct (ss_sender s) eqn:Es; try discriminate Hs. injection Hs as <-. same_session s.
Qed.
Lemma session_reachable_ok s : session_reachable s -> session_ok s.
Proof.
  induction 1 as [|s e s' _ IH Hs]; [|by eapply session_step_ok].
  split; try done.
  - by left.
  - by intros n actions a Hin%elem_of_nil.
  - by intros a al Hin%elem_of_nil.
Qed.

(** C27: in every state any interleaving of the four goroutines can reach, what
    the panel was sent of the terminal's output is a prefix of what the terminal
    printed, in order and without a gap; while the sender works and the reader
    has not given up, the rest is in flight and nothing is lost. The events with
    content are numbered 1, 2, 3, ...; a command number acknowledged to the
    panel is that of a command whose effect on the terminal has taken place,
    with the capability granted at that moment. *)
Theorem session_is_faithful s :
  session_reachable s -> Z.of_nat (length (ss_sent s)) < 2 ^ 64 ->
  prefix (outputs (se_payload <$> ss_sent s)) (ss_read s) /\
  (sender_alive s -> ss_reader s <> RQuit -> (outputs (se_payload <$> ss_sent s) ++ outputs (in_flight s))%list = ss_read s) /\
  (forall i e, with_content (ss_sent s) !! i = Some e -> se_Sequence e = Z.of_nat i + 1) /\
  Forall (fun e => se_Accepted e = 0 \/
    exists actions, (se_Accepted e, actions) ∈ ss_carried s /\ forall a, a ∈ actions -> (a, true) ∈ ss_actions s) (ss_sent s).
Proof.
  intros Hr Hn. destruct (session_reachable_ok s Hr). split_and!; [done|done| |].
  - intros i e He. rewrite (so_number0 _ _ He). apply wrapu64_id. unfold is_uint64. apply lookup_lt_Some in He.
    assert (length (with_content (ss_sent s)) <= length (ss_sent s))%nat by apply length_filter. unfold max_uint64. lia.
  - eapply Forall_impl; [exact so_acks0|]. intros e [He|[acts Hin]]; [by left|right]. exists acts. eauto.
Qed.

(** ** The capability gate *)

Fixpoint session_run (events : list session_event) (s : Session) : option Session :=
  match events with
  | [] => Some s
  | e :: rest => s' ← session_step e s; session_run rest s'
  end.

Lemma on_terminal_actions a checked ok s :
  ss_actions (on_terminal a checked ok s).1 = (ss_actions s ++ if checked then [(a, true)] else [])%list.
Proof. unfold on_terminal. destruct checked; cbn; [done|by rewrite app_nil_r]. Qed.
Lemma command_actions r allowed checked ok s :
  ss_actions (command r allowed checked ok s) = ss_actions s \/ (exists x, r = Some x) /\ allowed = true /\ checked = true.
Proof.
  unfold command. destruct r as [x|]; [|by left]. destruct allowed; cbn [negb]; [|by left]. destruct checked; [right; eauto|left].
  destruct (sr_Command x) as [data|[[cols rows]|]| | |]; done.
Qed.
Lemma step_actions e s s' :
  session_step e s = Some s' ->
  ss_actions s' = ss_actions s \/ exists r ok, e = TCommand (Some r) true true ok /\ ss_main s = MReceiving.
Proof.
  destruct e; cbn [session_step]; intros Hs;
    repeat match type of Hs with
    | match ?x with _ => _ end = Some _ => let E := fresh "E" in destruct x eqn:E; try discriminate Hs
    end; injection Hs as <-; try (by left); try (unfold transmit; destruct ok; by left).
  destruct (command_actions r allowed checked ok s) as [H|([x ->] & -> & ->)]; [by left|right; eauto].
Qed.
Lemma step_returned e s s' : session_step e s = Some s' -> ss_main s = MReturned -> ss_main s' = MReturned.
Proof.
  destruct e; cbn [session_step]; intros Hs Hm;
    repeat match type of Hs with
    | match ?x with _ => _ end = Some _ => let E := fresh "E" in destruct x eqn:E; try discriminate Hs
    end; try congruence; injection Hs as <-; try done.
  unfold transmit. by destruct ok.
Qed.
Lemma run_returned events s s' : session_run events s = Some s' -> ss_main s = MReturned -> ss_actions s' = ss_actions s.
Proof.
  revert s. induction events as [|e events IH]; intros s; cbn; [by intros [= ->]|].
  destruct (session_step e s) as [s1|] eqn:Es; [|done]. cbn. intros Hr Hm. rewrite (IH _ Hr) by (by eapply step_returned).
  destruct (step_actions _ _ _ Es) as [H|(r & ok & _ & H)]; [done|congruence].
Qed.

(** C28: the terminal is touched only by a command that arrives while the
    capability is granted, both when the loop takes it and when the terminal
    carries it out; the first command after a withdrawal ends the session, and
    from then on nothing any goroutine does touches the terminal again. *)
Theorem terminal_is_gated s :
  (forall e s', session_step e s = Some s' -> ss_actions s' <> ss_actions s -> exists r ok, e = TCommand (Some r) true true ok) /\
  (forall r checked ok s1 events s2,
     session_step (TCommand (Some r) false checked ok) s = Some s1 -> session_run events s1 = Some s2 ->
     ss_end s1 = Some EndWithdrawn /\ ss_done s1 = true /\ ss_actions s2 = ss_actions s).
Proof.
  split.
  - intros e s' Hs Hne. destruct (step_actions _ _ _ Hs) as [H|(r & ok & -> & _)]; [done|eauto].
  - intros r checked ok s1 events s2 Hs Hrun. cbn [session_step] in Hs. destruct (ss_main s); try discriminate Hs. injection Hs as <-.
    split_and!; [done..|]. by rewrite (run_returned _ _ _ Hrun).
Qed.

(** The end of the shell can be reported before the last of its output: the
    waiter and the reader fill the same channel. *)
Lemma close_overtakes_output :
  exists s, session_reachable s /\
    se_payload <$> ss_sent s = [PClosed CLOSE_REASON_NORMAL None; POutput "bye"].
Proof.
  assert (Hrun : forall events s s', session_reachable s -> session_run events s = Some s' -> session_reachable s').
  { intros events. induction events as [|e events IH]; intros s s' Hs; cbn; [by intros [= <-]|].
    destruct (session_step e s) as [s1|] eqn:Es; [|done]. cbn. apply IH. by eapply sreach_step. }
  destruct (session_run [TRead "bye" true; TExit false; TPushExit; TPush; TDequeue; TTransmit true; TDequeue; TTransmit true] session_start) as [s|] eqn:E;
    [|vm_compute in E; discriminate E].
  exists s. split; [eapply Hrun; [apply sreach_start|exact E]|]. vm_compute in E. injection E as <-. reflexivity.
Qed.
