(* ===== verification/Telemetry.v ===== *)
(** * Reporting to the panel ([clientcore/client.go])

    The loops that submit metrics and reports, how they tell failures apart, and
    the start of a session. What the outside does at each step (clocks, answers,
    whether the context outlives a wait) is a function of the number of events so
    far, as in [Session]; other workers may renew the credentials between any two
    of them. *)

From S2P Require Import Prelude.
From S2P Require Import GoStd.
From S2P Require Import Disk.
From S2P Require Import External.
From S2P Require Import Credentials.
From S2P Require Import Privileged.
From S2P Require Import Effective.
From S2P Require Import Enrollment.
From S2P Require Retry.
From S2P Require Import Session.
From S2P Require Import Renewal.

Local Open Scope string_scope.
Local Open Scope Z_scope.

(** ** Failures *)

(** What [errors.As] and [errors.Is] find in an error of the session and of the
    refresh. *)
Definition no_rpc (text : string) : rpc := mkRpc None false false text.
Definition rpc_of_session (e : sess_err) : rpc := match e with SRpc r => r | _ => no_rpc "" end.
Definition rpc_of_renewal (e : renew_err) : rpc :=
  match e with RenewExchange RefreshCall r => r | _ => no_rpc "" end.

Definition has_code (f : rpc_code -> bool) (e : rpc) : bool :=
  match er_connect e with Some (c, _) => f c | None => false end.
Definition isUnsupported : rpc -> bool := has_code (fun c => match c with CodeUnimplemented | CodeNotFound => true | _ => false end).
Definition isPermissionDenied : rpc -> bool := has_code (fun c => match c with CodePermissionDenied => true | _ => false end).
Definition rpc_isAuthRejection : rpc -> bool :=
  has_code (fun c => match c with CodeUnauthenticated | CodePermissionDenied => true | _ => false end).
Definition rpc_isRateLimited : rpc -> bool := has_code (fun c => match c with CodeResourceExhausted => true | _ => false end).
Definition rpc_isTransientRejection (e : rpc) : bool := rpc_isRateLimited e || rpc_isAuthRejection e.

(** [classify]: what the caller of a session is told. *)
Inductive session_result :=
| EndNil
| EndPermissionDenied (e : rpc)
| EndLegacyFallback (e : rpc)
| EndError (e : rpc).
Definition classify (e : rpc) : session_result :=
  if er_context e then EndError e
  else if isPermissionDenied e then EndPermissionDenied e
  else match er_connect e with
  | Some (c, _) => match c with CodeUnavailable | CodeUnimplemented => EndLegacyFallback e | _ => EndError e end
  | None => if er_network e then EndLegacyFallback e else EndError e
  end.

(** The failure as the retry policy sees it. *)
Definition failure_of (e : rpc) : Retry.failure :=
  match er_connect e with
  | None => Retry.Transport
  | Some (c, after) =>
      Retry.ConnectError
        match c with
        | CodeUnauthenticated => Retry.CodeUnauthenticated
        | CodePermissionDenied => Retry.CodePermissionDenied
        | CodeResourceExhausted => Retry.CodeResourceExhausted
        | _ => Retry.CodeOther
        end after
  end.

(** ** The outside and the state *)

(** What becomes of a batch on the stream: the send failed and the error found by
    receiving (or, failing that, of the send itself), no acknowledgement came, or
    one with the accepted sequence. *)
Inductive stream_answer := StreamBroken (e : rpc) | StreamAck (accepted : Z).
Record Reports := mkReports {
  ro_now : nat -> time;
  ro_metrics : nat -> Z -> result Z rpc;              (** SubmitMetrics: the accepted sequence *)
  ro_report : nat -> Z -> result unit rpc;            (** SubmitReport *)
  ro_stream : nat -> Z -> stream_answer;              (** one batch on the metrics stream *)
  ro_attempt : nat -> Attempt;                        (** what a refresh meets *)
  ro_meanwhile : nat -> list (string * Attempt);      (** refreshes of other workers *)
  ro_random : nat -> Z;                               (** of the jitter *)
  ro_awake : nat -> bool;                             (** does the context outlive this wait? *)
  ro_interval : nat -> duration;                      (** [runtimeconfig.Current().ReportInterval] *)
}.

(** What was sent and waited for, latest first. *)
Inductive report_entry :=
| SentMetrics (sequence : Z) (answer : result Z rpc)
| SentReport (sequence : Z) (answer : result unit rpc)
| SentBatch (sequence : Z) (answer : stream_answer)
| Refreshed (answer : option rpc)
| Waited (d : duration).
Record Reporter := mkReporter {
  rp_renewal : Renewal;
  rp_tick : nat;
  rp_sequence : Z;                    (** [c.sequence] *)
  rp_retry : Retry.retryPolicy;
  rp_nextInfo : time;
  rp_cancelled : bool;                (** [cancelProbes] was called *)
  rp_log : list report_entry }.

Definition logged (e : report_entry) (s : Reporter) : Reporter :=
  mkReporter (rp_renewal s) (S (rp_tick s)) (rp_sequence s) (rp_retry s) (rp_nextInfo s) (rp_cancelled s) (e :: rp_log s).
Definition with_renewal (r : Renewal) (s : Reporter) : Reporter :=
  mkReporter r (rp_tick s) (rp_sequence s) (rp_retry s) (rp_nextInfo s) (rp_cancelled s) (rp_log s).
Definition with_sequence (n : Z) (s : Reporter) : Reporter :=
  mkReporter (rp_renewal s) (rp_tick s) n (rp_retry s) (rp_nextInfo s) (rp_cancelled s) (rp_log s).
Definition with_retry (p : Retry.retryPolicy) (s : Reporter) : Reporter :=
  mkReporter (rp_renewal s) (rp_tick s) (rp_sequence s) p (rp_nextInfo s) (rp_cancelled s) (rp_log s).
Definition with_nextInfo (t : time) (s : Reporter) : Reporter :=
  mkReporter (rp_renewal s) (rp_tick s) (rp_sequence s) (rp_retry s) t (rp_cancelled s) (rp_log s).
Definition cancelProbes (s : Reporter) : Reporter :=
  mkReporter (rp_renewal s) (rp_tick s) (rp_sequence s) (rp_retry s) (rp_nextInfo s) true (rp_log s).
Definition Reset (s : Reporter) : Reporter := with_retry (Retry.Reset (rp_retry s)) s.

Section Loops.
Context `{CR : Crypto} `{PT : ProtoTime} `{JI : Json Identity}.
Context `{JQ : Json refreshV2Request} `{SR : StrictJson refreshV2Response} `{WC : Wire AgentCredentials}.
Variable uuid_ok : string -> bool.
Variable parse_address : string -> option Address.
Variable show_address : Address -> string.
Variable C : Client.
(** [flags.GlobalConfig]: two numbers, as the command line sets them. *)
Variable ReconnectInterval InfoReportInterval : Z.
Variable parse_time : string -> option time.
(** [errors.Is(e, context.Canceled)]. *)
Variable is_canceled : rpc -> bool.
Variable R : Reports.

Notation refresh := (refreshCredentials uuid_ok parse_address show_address C).
Definition elsewhere (s : Reporter) : Reporter :=
  with_renewal (refresh_all uuid_ok parse_address show_address C (ro_meanwhile R (rp_tick s)) (rp_renewal s)) s.

(** ** One submission *)

(** [advanceSequence]: the compare-and-swap loop leaves the larger number. *)
Definition advanceSequence (accepted : Z) (s : Reporter) : Reporter :=
  if accepted <=? rp_sequence s then s else with_sequence accepted s.
Definition SubmitMetrics (s : Reporter) : option rpc * Reporter :=
  let s := elsewhere s in
  let sequence := wrapu64 (rp_sequence s + 1) in
  let answer := ro_metrics R (rp_tick s) sequence in
  let s := logged (SentMetrics sequence answer) (with_sequence sequence s) in
  match answer with
  | Ok accepted => (None, advanceSequence accepted s)
  | Err e => (Some e, s)
  end.
Definition SubmitReport (s : Reporter) : option rpc * Reporter :=
  let s := elsewhere s in
  let sequence := wrapu64 (rp_sequence s + 1) in
  let answer := ro_report R (rp_tick s) sequence in
  let s := logged (SentReport sequence answer) (with_sequence sequence s) in
  match answer with Ok _ => (None, s) | Err e => (Some e, s) end.

(** [retry.Wait]: false when the context ended. *)
Definition Wait (e : option rpc) (s : Reporter) : bool * Reporter :=
  let '(d, p) := Retry.next ReconnectInterval parse_time (ro_random R (rp_tick s)) (ro_now R (rp_tick s)) (failure_of <$> e) (rp_retry s) in
  (ro_awake R (rp_tick s), logged (Waited d) (with_retry p s)).

(** ** After a failure

    The same steps follow a failed batch and a failed report; [again] is the
    submission repeated once after a successful refresh. *)
Inductive verdict := Recovered | Continue | Return (r : session_result).
Definition enrolled (s : Reporter) : bool :=
  match se_cred (rn_session (rp_renewal s)) with Some store => Enrolled store | None => false end.
Definition ride_out (e : rpc) (s : Reporter) : verdict * Reporter :=
  if negb (rpc_isTransientRejection e) then (Return (classify e), s)
  else let '(awake, s) := Wait (Some e) s in (if awake then Continue else Return EndNil, s).
Definition after_failure (again : Reporter -> option rpc * Reporter) (e : rpc) (s : Reporter) : verdict * Reporter :=
  if isPermissionDenied e then (Return (classify e), cancelProbes s)
  else if rpc_isAuthRejection e then
    let '(r, renewal) := refresh (rn_token (rp_renewal s)) (ro_attempt R (rp_tick s)) (rp_renewal s) in
    match r with
    | Err refreshErr =>
        let re := rpc_of_renewal refreshErr in
        let s := logged (Refreshed (Some re)) (with_renewal renewal s) in
        if isPermissionDenied re then (Return (classify re), cancelProbes s)
        else if rpc_isAuthRejection re || is_canceled re then (Return (classify re), s)
        else if negb (enrolled s) then (Return (classify e), s)
        else ride_out e s
    | Ok _ =>
        let s := logged (Refreshed None) (with_renewal renewal s) in
        match again s with
        | (None, s) => (Recovered, s)
        | (Some _, s) => ride_out e s
        end
    end
  else ride_out e s.

(** ** The loop *)

Definition info_interval : duration := wrap64 (Z.max InfoReportInterval 1 * minute).
Definition schedule_info (s : Reporter) : Reporter := with_nextInfo (t_add (ro_now R (rp_tick s)) info_interval) s.
(** The pause between two batches. *)
Definition pause (s : Reporter) : option session_result * Reporter :=
  let s := Reset s in
  let interval := ro_interval R (rp_tick s) in
  let interval := if interval <=? 0 then 3 * second else interval in
  (if ro_awake R (rp_tick s) then None else Some EndNil, logged (Waited interval) s).
(** The report that is due, if one is. *)
Definition info_turn (s : Reporter) : option session_result * Reporter :=
  if before (ro_now R (rp_tick s)) (rp_nextInfo s) then pause s
  else match SubmitReport s with
  | (None, s) => pause (schedule_info s)
  | (Some e, s) =>
      match after_failure SubmitReport e s with
      | (Recovered, s) => pause (Reset (schedule_info s))
      | (Continue, s) => (None, s)
      | (Return r, s) => (Some r, s)
      end
  end.
(** One turn of [runUnaryMetricLoop]: [None] when it goes round again. *)
Definition metric_turn (s : Reporter) : option session_result * Reporter :=
  match SubmitMetrics s with
  | (None, s) => info_turn s
  | (Some e, s) =>
      match after_failure SubmitMetrics e s with
      | (Recovered, s) => info_turn (Reset s)
      | (Continue, s) => (None, s)
      | (Return r, s) => (Some r, s)
      end
  end.
Fixpoint metric_loop (turns : nat) (s : Reporter) : option session_result * Reporter :=
  match turns with
  | O => (None, s)
  | S n => match metric_turn s with
           | (None, s) => metric_loop n s
           | r => r
           end
  end.
Definition runUnaryMetricLoop (turns : nat) (s : Reporter) : option session_result * Reporter :=
  metric_loop turns (with_retry (Retry.mkRetry 0) (schedule_info s)).

(** ** The stream of batches ([runMetricStream])

    One batch: collected unless one is still unacknowledged, sent, acknowledged. *)
Inductive stream_verdict := StreamGo | StreamDown (e : rpc) | StreamContext.
Definition stream_batch (pending : option Z) (s : Reporter) : stream_verdict * option Z * Reporter :=
  let s := elsewhere s in
  let '(sequence, s) := match pending with
    | Some q => (q, s)
    | None => let q := wrapu64 (rp_sequence s + 1) in (q, with_sequence q s)
    end in
  let answer := ro_stream R (rp_tick s) sequence in
  let s := logged (SentBatch sequence answer) s in
  match answer with
  | StreamBroken e => (StreamDown e, Some sequence, s)
  | StreamAck accepted =>
      if accepted <? sequence then (StreamDown (no_rpc "metrics ACK sequence is behind sent sequence"), Some sequence, s)
      else
        let s := Reset (advanceSequence accepted s) in
        let '(failed, s) :=
          if before (ro_now R (rp_tick s)) (rp_nextInfo s) then (None, s)
          else match SubmitReport s with
               | (Some e, s) => (Some e, s)
               | (None, s) => (None, schedule_info s)
               end in
        match failed with
        | Some e => (StreamDown e, None, s)
        | None =>
            let interval := ro_interval R (rp_tick s) in
            let interval := if interval <=? 0 then 3 * second else interval in
            (if ro_awake R (rp_tick s) then StreamGo else StreamContext, None, logged (Waited interval) s)
        end
  end.
(** The batches and the streams they go over; [None] when the turns run out, and
    the unary loop takes over when the panel has no stream. *)
Fixpoint stream_loop (turns : nat) (pending : option Z) (s : Reporter) : option session_result * option Z * Reporter :=
  match turns with
  | O => (None, pending, s)
  | S n =>
      match stream_batch pending s with
      | (StreamGo, pending, s) => stream_loop n pending s
      | (StreamContext, pending, s) => (Some EndNil, pending, s)
      | (StreamDown e, pending, s) =>
          if isUnsupported e then let '(r, s) := runUnaryMetricLoop n s in (r, pending, s)
          else match Wait (Some e) s with
               | (true, s) => stream_loop n pending s
               | (false, s) => (Some EndNil, pending, s)
               end
      end
  end.
Definition runMetricStream (turns : nat) (s : Reporter) : option session_result * option Z * Reporter :=
  stream_loop turns None (with_retry (Retry.mkRetry 0) (schedule_info s)).

(** ** The start of a session ([Run])

    A call repeated until it succeeds; [call] is [SyncConfig] or [SubmitReport]. *)
Fixpoint start_loop (turns : nat) (call : Reporter -> option rpc * Reporter) (s : Reporter) : option (option session_result) * Reporter :=
  match turns with
  | O => (None, s)
  | S n =>
      match call s with
      | (None, s) => (Some None, s)
      | (Some e, s) =>
          if isPermissionDenied e then (Some (Some (classify e)), s)
          else if negb (rpc_isTransientRejection e) then (Some (Some (classify e)), s)
          else match Wait (Some e) s with
               | (true, s) => start_loop n call s
               | (false, s) => (Some (Some EndNil), s)
               end
      end
  end.

Inductive worker :=
| HostInitialization | AgentEvents | ConfigUpdates | ReceiptOutbox | PrivilegedUpdates | PingProbes | ExecutionWorker
| RemoteSessions | FileOperations | ReturnRouteProbes.
Definition started_workers (initPending privileged returnRoute : bool) : list worker :=
  ((if initPending then [HostInitialization] else []) ++ [AgentEvents; ConfigUpdates; ReceiptOutbox] ++
   (if privileged then [PrivilegedUpdates] else []) ++ [PingProbes; ExecutionWorker; RemoteSessions; FileOperations] ++
   (if returnRoute then [ReturnRouteProbes] else []))%list.

(** How far [Run] came: the workers it started, and what it returned, if it has. *)
Record Run_state := mkRun { run_workers : list worker; run_result : option session_result; run_reporter : Reporter }.
Definition Run (turns : nat) (SyncConfig : Reporter -> option rpc * Reporter) (initPending : bool) (s : Reporter) : Run_state :=
  match start_loop turns SyncConfig (with_retry (Retry.mkRetry 0) s) with
  | (None, s) => mkRun [] None s
  | (Some (Some r), s) => mkRun [] (Some r) s
  | (Some None, s) =>
      match start_loop turns SubmitReport s with
      | (None, s) => mkRun [] None s
      | (Some (Some r), s) => mkRun [] (Some r) s
      | (Some None, s) =>
          let workers := started_workers initPending (match se_priv (rn_session (rp_renewal s)) with Some _ => true | None => false end)
                           (cap_Available (cl_returnRoute C)) in
          let '(r, s) := runUnaryMetricLoop turns s in mkRun workers r s
      end
  end.

(** ** A denied session stops everything *)

Lemma classify_denied e x : classify e = EndPermissionDenied x -> isPermissionDenied e = true.
Proof.
  unfold classify. destruct (er_context e); [done|]. destruct (isPermissionDenied e); [done|].
  destruct (er_connect e) as [[[] ?]|]; try done. by destruct (er_network e).
Qed.
Lemma denied_is_transient e : isPermissionDenied e = true -> rpc_isAuthRejection e = true /\ rpc_isTransientRejection e = true.
Proof.
  unfold isPermissionDenied, rpc_isTransientRejection, rpc_isAuthRejection, rpc_isRateLimited, has_code.
  destruct (er_connect e) as [[[] ?]|]; done.
Qed.

(** Every verdict that denial is final comes with the probes cancelled. *)
Definition final_when_denied (r : option session_result) (s : Reporter) : Prop :=
  forall e, r = Some (EndPermissionDenied e) -> rp_cancelled s = true.
Lemma ride_out_denied e s v s' x : ride_out e s = (v, s') -> isPermissionDenied e = false -> v <> Return (EndPermissionDenied x).
Proof.
  unfold ride_out. intros Hr Hd ->. destruct (rpc_isTransientRejection e); cbn [negb] in Hr.
  - destruct (Wait (Some e) s) as [[] ?]; injection Hr; discriminate.
  - injection Hr as Hc _. apply classify_denied in Hc. congruence.
Qed.
Lemma after_failure_denied again e s v s' x :
  after_failure again e s = (v, s') -> v = Return (EndPermissionDenied x) -> rp_cancelled s' = true.
Proof.
  unfold after_failure. intros Hr ->. destruct (isPermissionDenied e) eqn:Ed; [by injection Hr as _ <-|].
  destruct (rpc_isAuthRejection e).
  2: { exfalso. by eapply ride_out_denied. }
  destruct (refreshCredentials _ _ _ _ _ _ _) as [[u|re] renewal].
  - destruct (again _) as [[?|] ?]; [exfalso; by eapply ride_out_denied|done].
  - destruct (isPermissionDenied (rpc_of_renewal re)) eqn:Er; [by injection Hr as _ <-|].
    destruct (_ || _). { injection Hr as Hc _. apply classify_denied in Hc. congruence. }
    destruct (negb _). { injection Hr as Hc _. apply classify_denied in Hc. congruence. }
    exfalso. by eapply ride_out_denied.
Qed.
Lemma pause_denied s : final_when_denied (pause s).1 (pause s).2.
Proof. unfold pause, final_when_denied. cbn. by destruct (ro_awake _ _). Qed.
Lemma info_turn_denied s : final_when_denied (info_turn s).1 (info_turn s).2.
Proof.
  unfold info_turn. destruct (before _ _); [apply pause_denied|]. destruct (SubmitReport s) as [[e|] s1]; [|apply pause_denied].
  destruct (after_failure _ _ _) as [[| |r] s2] eqn:Ea; [apply pause_denied|done|].
  intros x [= ->]. by eapply after_failure_denied.
Qed.
Lemma metric_turn_denied s : final_when_denied (metric_turn s).1 (metric_turn s).2.
Proof.
  unfold metric_turn. destruct (SubmitMetrics s) as [[e|] s1]; [|apply info_turn_denied].
  destruct (after_failure _ _ _) as [[| |r] s2] eqn:Ea; [apply info_turn_denied|done|].
  intros x [= ->]. by eapply after_failure_denied.
Qed.
Lemma metric_loop_denied turns s : final_when_denied (metric_loop turns s).1 (metric_loop turns s).2.
Proof.
  revert s. induction turns as [|n IH]; intros s; cbn [metric_loop]; [done|].
  pose proof (metric_turn_denied s) as Ht. destruct (metric_turn s) as [[r|] s1]; [exact Ht|apply IH].
Qed.

(** When the loop reports that the panel revoked the agent, the other
    workers have been cancelled; and a batch the panel answers so ends the loop
    at once: nothing is sent, waited for or refreshed after it. *)
Theorem denied_session_is_final turns s :
  final_when_denied (runUnaryMetricLoop turns s).1 (runUnaryMetricLoop turns s).2 /\
  (forall e s1, SubmitMetrics s = (Some e, s1) -> isPermissionDenied e = true ->
     metric_loop (S turns) s = (Some (classify e), cancelProbes s1)).
Proof.
  split; [apply metric_loop_denied|]. intros e s1 Hs Hd. cbn [metric_loop]. unfold metric_turn. rewrite Hs. unfold after_failure. by rewrite Hd.
Qed.

(** ** No turn without a wait *)

Definition sane_random : Prop := forall n, 0 <= ro_random R n < Retry.rand_max.
Definition waited (s : Reporter) : Prop := exists d rest, rp_log s = Waited d :: rest /\ 0 < d.
Definition submissions (l : list report_entry) : nat :=
  length (filter (fun e => match e with SentMetrics _ _ | SentReport _ _ | SentBatch _ _ => true | _ => false end = true) l).

Lemma submissions_cons e l : submissions (e :: l) = (match e with SentMetrics _ _ | SentReport _ _ | SentBatch _ _ => 1 | _ => 0 end + submissions l)%nat.
Proof. unfold submissions. rewrite filter_cons. by destruct e. Qed.
Lemma Wait_log e s b s' : Wait e s = (b, s') -> exists d, rp_log s' = Waited d :: rp_log s /\ (sane_random -> 0 < d) /\ rp_sequence s' = rp_sequence s.
Proof.
  unfold Wait. destruct (Retry.next _ _ _ _ _ _) as [d p] eqn:En. intros [= _ <-]. exists d. split_and!; [done| |done].
  intros Hr. unfold Retry.next in En. specialize (Hr (rp_tick s)).
  assert (Hj : forall x, 0 < Retry.jitter (ro_random R (rp_tick s)) x).
  { intros x. pose proof (proj1 (Retry.jitter_bounds _ x Hr)). unfold second in *. lia. }
  destruct (failure_of <$> e); injection En as <- _; apply Hj.
Qed.
Lemma pause_waits s : exists d, rp_log (pause s).2 = Waited d :: rp_log s /\ 0 < d.
Proof. unfold pause. cbn. eexists. split; [done|]. destruct (Z.leb_spec (ro_interval R (rp_tick s)) 0); unfold second; lia. Qed.
Lemma ride_out_log e s v s' : ride_out e s = (v, s') -> submissions (rp_log s') = submissions (rp_log s) /\ (sane_random -> v = Continue -> waited s').
Proof.
  unfold ride_out. destruct (negb _); [by intros [= <- <-]|]. destruct (Wait (Some e) s) as [b s1] eqn:Ew. intros [= <- <-].
  destruct (Wait_log _ _ _ _ Ew) as (d & Hl & Hd & _). rewrite Hl, submissions_cons. split; [done|]. intros Hr _. exists d, (rp_log s). auto.
Qed.
Lemma after_failure_log again e s v s' :
  (forall t, submissions (rp_log (again t).2) = S (submissions (rp_log t))) ->
  after_failure again e s = (v, s') ->
  (submissions (rp_log s') <= S (submissions (rp_log s)))%nat /\ (sane_random -> v = Continue -> waited s').
Proof.
  intros Hag. unfold after_failure. destruct (isPermissionDenied e); [intros [= <- <-]; split; [cbn -[submissions]; lia|done]|].
  destruct (rpc_isAuthRejection e).
  2: { intros Hr. destruct (ride_out_log _ _ _ _ Hr) as [-> Hw]. split; [lia|done]. }
  destruct (refreshCredentials _ _ _ _ _ _ _) as [[u|re] renewal].
  - match goal with |- context [again ?t] => pose proof (Hag t) as Ht; destruct (again t) as [[e'|] s1] end; cbn [snd] in Ht.
    + intros Hr. destruct (ride_out_log _ _ _ _ Hr) as [-> Hw]. rewrite Ht. cbn [rp_log logged with_renewal]. rewrite submissions_cons. split; [cbn -[submissions]; lia|done].
    + intros [= <- <-]. rewrite Ht. cbn [rp_log logged with_renewal]. rewrite submissions_cons. split; [cbn -[submissions]; lia|done].
  - destruct (isPermissionDenied _); [intros [= <- <-]; cbn -[submissions]; rewrite submissions_cons; split; [cbn -[submissions]; lia|done]|].
    destruct (_ || _); [intros [= <- <-]; cbn -[submissions]; rewrite submissions_cons; split; [cbn -[submissions]; lia|done]|].
    destruct (negb _); [intros [= <- <-]; cbn -[submissions]; rewrite submissions_cons; split; [cbn -[submissions]; lia|done]|].
    intros Hr. destruct (ride_out_log _ _ _ _ Hr) as [-> Hw]. cbn [rp_log logged with_renewal]. rewrite submissions_cons. split; [cbn -[submissions]; lia|done].
Qed.
Lemma SubmitMetrics_log s : submissions (rp_log (SubmitMetrics s).2) = S (submissions (rp_log s)).
Proof.
  unfold SubmitMetrics. cbn zeta. destruct (ro_metrics _ _ _); cbn [snd]; unfold advanceSequence; try destruct (_ <=? _); cbn [rp_log with_sequence logged elsewhere with_renewal]; by rewrite submissions_cons.
Qed.
Lemma SubmitReport_log s : submissions (rp_log (SubmitReport s).2) = S (submissions (rp_log s)).
Proof. unfold SubmitReport. cbn zeta. destruct (ro_report _ _ _); cbn -[submissions]; by rewrite submissions_cons. Qed.

Lemma pause_log s : submissions (rp_log (pause s).2) = submissions (rp_log s).
Proof. destruct (pause_waits s) as (d & -> & _). by rewrite submissions_cons. Qed.
Definition turn_ok (extra : nat) (s : Reporter) (r : option session_result * Reporter) : Prop :=
  (submissions (rp_log r.2) <= extra + submissions (rp_log s))%nat /\ (sane_random -> r.1 = None -> waited r.2).
Lemma pause_ok s : turn_ok 0 s (pause s).
Proof. split; [rewrite pause_log; lia|]. intros _ _. destruct (pause_waits s) as (d & Hl & Hd). by exists d, (rp_log s). Qed.
Lemma info_turn_ok s : turn_ok 2 s (info_turn s).
Proof.
  unfold info_turn. destruct (before _ _). { destruct (pause_ok s). split; [lia|done]. }
  pose proof (SubmitReport_log s) as Hl. destruct (SubmitReport s) as [[e|] s1]; cbn [snd] in Hl.
  - destruct (after_failure SubmitReport e s1) as [v s2] eqn:Ea. destruct (after_failure_log _ _ _ _ _ SubmitReport_log Ea) as [Hn Hw].
    destruct v as [| |r].
    + destruct (pause_ok (Reset (schedule_info s2))) as [Hp Hq]. split; [|done]. cbn [rp_log Reset with_retry schedule_info with_nextInfo] in Hp. lia.
    + split; [cbn [snd]; lia|]. intros Hr _. by apply Hw.
    + split; [cbn [snd]; lia|done].
  - destruct (pause_ok (schedule_info s1)) as [Hp Hq]. split; [|done]. cbn [rp_log schedule_info with_nextInfo] in Hp. lia.
Qed.
Lemma metric_turn_ok s : turn_ok 4 s (metric_turn s).
Proof.
  unfold metric_turn. pose proof (SubmitMetrics_log s) as Hl. destruct (SubmitMetrics s) as [[e|] s1]; cbn [snd] in Hl.
  - destruct (after_failure SubmitMetrics e s1) as [v s2] eqn:Ea. destruct (after_failure_log _ _ _ _ _ SubmitMetrics_log Ea) as [Hn Hw].
    destruct v as [| |r].
    + destruct (info_turn_ok (Reset s2)) as [Hp Hq]. split; [|done]. cbn [rp_log Reset with_retry] in Hp. lia.
    + split; [cbn [snd]; lia|]. intros Hr _. by apply Hw.
    + split; [cbn [snd]; lia|done].
  - destruct (info_turn_ok s1) as [Hp Hq]. split; [lia|done].
Qed.

(** Whatever the panel answers, one turn of the loop makes at most four
    submissions, and never goes round again without having waited: no answer
    makes the agent a busy loop. *)
Theorem every_turn_waits s r s' :
  metric_turn s = (r, s') ->
  (submissions (rp_log s') <= 4 + submissions (rp_log s))%nat /\
  (sane_random -> r = None -> exists d rest, rp_log s' = Waited d :: rest /\ 0 < d).
Proof. intros Ht. pose proof (metric_turn_ok s) as [Hn Hw]. rewrite Ht in *. by split. Qed.

(** ** Numbers only grow *)

Definition number_of (e : report_entry) : option Z :=
  match e with SentMetrics q _ | SentReport q _ | SentBatch q _ => Some q | _ => None end.
Definition accepted_of (e : report_entry) : option Z :=
  match e with SentMetrics _ (Ok a) | SentBatch _ (StreamAck a) => Some a | _ => None end.
Definition numbers (l : list report_entry) : list Z := (omap number_of l ++ omap accepted_of l)%list.
(** Each number sent is larger than every number sent or accepted before it. *)
Fixpoint rising (l : list report_entry) : Prop :=
  match l with
  | [] => True
  | e :: rest => (forall q, number_of e = Some q -> Forall (fun x => x < q) (numbers rest)) /\ rising rest
  end.
Definition ordered (bound k : Z) (s : Reporter) : Prop :=
  rising (rp_log s) /\ Forall (fun x => x <= rp_sequence s) (numbers (rp_log s)) /\ 0 <= rp_sequence s <= bound + k.
(** The panel accepts no number beyond [bound]. *)
Definition accepts_below (bound : Z) : Prop := forall n q a, ro_metrics R n q = Ok a -> 0 <= a <= bound.

Lemma numbers_cons e l x : x ∈ numbers (e :: l) <-> number_of e = Some x \/ accepted_of e = Some x \/ x ∈ numbers l.
Proof.
  unfold numbers. rewrite !elem_of_app, !list_elem_of_omap. setoid_rewrite elem_of_cons. split.
  - intros [(y & [->|Hy] & Hn)|(y & [->|Hy] & Hn)]; eauto 10.
  - intros [H|[H|[(y & Hy & Hn)|(y & Hy & Hn)]]]; eauto 10.
Qed.
Lemma ordered_weaken bound k k' s : ordered bound k s -> k <= k' -> ordered bound k' s.
Proof. intros (? & ? & ?) Hk. split_and!; [done|done|lia|lia]. Qed.
Lemma ordered_same bound k s s' : rp_log s' = rp_log s -> rp_sequence s' = rp_sequence s -> ordered bound k s -> ordered bound k s'.
Proof. unfold ordered. by intros -> ->. Qed.
Lemma ordered_quiet bound k s s' e :
  rp_log s' = e :: rp_log s -> number_of e = None -> accepted_of e = None -> rp_sequence s' = rp_sequence s ->
  ordered bound k s -> ordered bound k s'.
Proof.
  unfold ordered. intros -> Hn Ha -> (Hr & Hf & Hb). split_and!; [split; [by rewrite Hn|done]|apply Forall_forall|lia|lia].
  intros x Hx. apply numbers_cons in Hx as [Hx|[Hx|Hx]]; [congruence|congruence|]. by eapply Forall_forall in Hf.
Qed.
Lemma ordered_sent bound k s s' e :
  ordered bound k s -> bound + k + 1 < 2 ^ 64 -> rp_log s' = e :: rp_log s -> number_of e = Some (rp_sequence s + 1) ->
  (forall a, accepted_of e = Some a -> a <= rp_sequence s') -> rp_sequence s + 1 <= rp_sequence s' <= bound + (k + 1) ->
  ordered bound (k + 1) s'.
Proof.
  intros (Hr & Hf & Hb) Hlt Hl Hn Ha Hs. unfold ordered. rewrite Hl. rewrite Forall_forall in Hf. split_and!; [split; [|done]|apply Forall_forall|lia|lia].
  - intros q Hq. rewrite Hn in Hq. injection Hq as <-. apply Forall_forall. intros x Hx. specialize (Hf x Hx). lia.
  - intros x Hx. apply numbers_cons in Hx as [Hx|[Hx|Hx]]; [rewrite Hn in Hx; injection Hx as <-; lia|by apply Ha|]. specialize (Hf x Hx). lia.
Qed.
Lemma next_number bound k s : ordered bound k s -> bound + k + 1 < 2 ^ 64 -> wrapu64 (rp_sequence s + 1) = rp_sequence s + 1.
Proof. intros (_ & _ & Hb) Hlt. apply wrapu64_id. unfold is_uint64, max_uint64. lia. Qed.
Lemma SubmitMetrics_ordered bound k s :
  accepts_below bound -> 0 <= k -> bound + k + 1 < 2 ^ 64 -> ordered bound k s -> ordered bound (k + 1) (SubmitMetrics s).2.
Proof.
  intros Hacc Hk Hlt Ho. unfold SubmitMetrics. cbn zeta. change (rp_sequence (elsewhere s)) with (rp_sequence s).
  rewrite (next_number _ _ _ Ho Hlt). destruct (ro_metrics R _ _) as [a|e] eqn:Em.
  - cbn [snd]. unfold advanceSequence. cbn [rp_sequence logged with_sequence]. apply Hacc in Em.
    destruct (Z.leb_spec a (rp_sequence s + 1)); eapply (ordered_sent _ _ s); try done; cbn [rp_sequence logged with_sequence]; destruct Ho as (_ & _ & Hb);
      try lia; intros x [= <-]; lia.
  - eapply (ordered_sent _ _ s); try done. cbn. destruct Ho as (_ & _ & Hb). lia.
Qed.
Lemma SubmitReport_ordered bound k s :
  0 <= k -> bound + k + 1 < 2 ^ 64 -> ordered bound k s -> ordered bound (k + 1) (SubmitReport s).2.
Proof.
  intros Hk Hlt Ho. unfold SubmitReport. cbn zeta. change (rp_sequence (elsewhere s)) with (rp_sequence s).
  rewrite (next_number _ _ _ Ho Hlt). destruct (ro_report R _ _); eapply (ordered_sent _ _ s); try done; cbn; destruct Ho as (_ & _ & Hb); lia.
Qed.
Lemma ride_out_ordered bound k e s v s' : ride_out e s = (v, s') -> ordered bound k s -> ordered bound k s'.
Proof.
  unfold ride_out. destruct (negb _); [by intros [= _ <-]|]. destruct (Wait (Some e) s) as [b s1] eqn:Ew. intros [= _ <-].
  destruct (Wait_log _ _ _ _ Ew) as (d & Hl & _ & Hq). by eapply ordered_quiet.
Qed.
Lemma after_failure_ordered bound k again e s v s' :
  (forall j t, 0 <= j -> bound + j + 1 < 2 ^ 64 -> ordered bound j t -> ordered bound (j + 1) (again t).2) ->
  0 <= k -> bound + k + 1 < 2 ^ 64 -> after_failure again e s = (v, s') -> ordered bound k s -> ordered bound (k + 1) s'.
Proof.
  intros Hag Hk Hlt. unfold after_failure. destruct (isPermissionDenied e).
  { intros [= _ <-] Ho. eapply ordered_weaken; [by eapply (ordered_same _ _ s)|lia]. }
  destruct (rpc_isAuthRejection e).
  2: { intros Hr Ho. eapply ordered_weaken; [by eapply ride_out_ordered|lia]. }
  destruct (refreshCredentials _ _ _ _ _ _ _) as [[u|re] renewal].
  - match goal with |- context [again ?t] => set (t1 := t) end. intros Hr Ho.
    assert (Ho1 : ordered bound k t1) by by eapply (ordered_quiet _ _ s).
    specialize (Hag k t1 Hk Hlt Ho1). destruct (again t1) as [[e'|] s1]; cbn [snd] in Hag; [by eapply ride_out_ordered|by injection Hr as _ <-].
  - match goal with |- context [logged ?x ?y] => set (t1 := logged x y) end. intros Hr Ho.
    assert (Ho1 : ordered bound (k + 1) t1) by (eapply ordered_weaken; [by eapply (ordered_quiet _ _ s)|lia]).
    destruct (isPermissionDenied _). { injection Hr as _ <-. by eapply (ordered_same _ _ t1). }
    destruct (_ || _); [by injection Hr as _ <-|]. destruct (negb _); [by injection Hr as _ <-|]. by eapply ride_out_ordered.
Qed.
Lemma pause_ordered bound k s : ordered bound k s -> ordered bound k (pause s).2.
Proof. intros Ho. by eapply (ordered_quiet _ _ s). Qed.
Lemma info_turn_ordered bound k s :
  0 <= k -> bound + k + 2 < 2 ^ 64 -> ordered bound k s -> ordered bound (k + 2) (info_turn s).2.
Proof.
  intros Hk Hlt Ho. unfold info_turn. destruct (before _ _). { eapply ordered_weaken; [by apply pause_ordered|lia]. }
  pose proof (SubmitReport_ordered bound k s Hk ltac:(lia) Ho) as Ho1. destruct (SubmitReport s) as [[e|] s1]; cbn [snd] in Ho1.
  - destruct (after_failure SubmitReport e s1) as [v s2] eqn:Ea.
    assert (Ho2 : ordered bound (k + 2) s2).
    { replace (k + 2) with (k + 1 + 1) by lia. eapply after_failure_ordered; [apply SubmitReport_ordered|..|exact Ea|exact Ho1]; lia. }
    destruct v as [| |r]; [|exact Ho2..]. apply pause_ordered. by eapply (ordered_same _ _ s2).
  - eapply ordered_weaken; [apply pause_ordered; by eapply (ordered_same _ _ s1)|lia].
Qed.
Lemma metric_turn_ordered bound k s :
  accepts_below bound -> 0 <= k -> bound + k + 4 < 2 ^ 64 -> ordered bound k s -> ordered bound (k + 4) (metric_turn s).2.
Proof.
  intros Hacc Hk Hlt Ho. unfold metric_turn.
  pose proof (SubmitMetrics_ordered bound k s Hacc Hk ltac:(lia) Ho) as Ho1. destruct (SubmitMetrics s) as [[e|] s1]; cbn [snd] in Ho1.
  - destruct (after_failure SubmitMetrics e s1) as [v s2] eqn:Ea.
    assert (Ho2 : ordered bound (k + 2) s2).
    { replace (k + 2) with (k + 1 + 1) by lia. eapply after_failure_ordered; [|..|exact Ea|exact Ho1]; [|lia..].
      intros j t Hj Hjl Hot. by apply SubmitMetrics_ordered. }
    destruct v as [| |r].
    + replace (k + 4) with (k + 2 + 2) by lia. apply info_turn_ordered; [lia|lia|]. by eapply (ordered_same _ _ s2).
    + eapply ordered_weaken; [exact Ho2|lia].
    + eapply ordered_weaken; [exact Ho2|lia].
  - replace (k + 4) with (k + 1 + 3) by lia. eapply ordered_weaken; [apply (info_turn_ordered bound (k + 1)); [lia|lia|exact Ho1]|lia].
Qed.
Lemma metric_loop_ordered bound turns k s :
  accepts_below bound -> 0 <= k -> bound + k + 4 * Z.of_nat turns < 2 ^ 64 -> ordered bound k s ->
  ordered bound (k + 4 * Z.of_nat turns) (metric_loop turns s).2.
Proof.
  intros Hacc. revert k s. induction turns as [|n IH]; intros k s Hk Hlt Ho; cbn [metric_loop].
  - eapply ordered_weaken; [exact Ho|lia].
  - pose proof (metric_turn_ordered bound k s Hacc Hk ltac:(lia) Ho) as Ho1. destruct (metric_turn s) as [[r|] s1]; cbn [snd] in Ho1.
    + eapply ordered_weaken; [exact Ho1|lia].
    + replace (k + 4 * Z.of_nat (S n)) with (k + 4 + 4 * Z.of_nat n) by lia. apply IH; [lia|lia|exact Ho1].
Qed.

(** Over any run of the loop, retries after a refresh, reports and the
    panel's jumps ahead included, every batch or report carries a number larger
    than all numbers sent and all numbers the panel accepted before it, as long
    as 64 bits hold them: the panel never sees a number twice. *)
Theorem numbers_only_grow bound turns s :
  accepts_below bound -> bound + 4 * Z.of_nat turns < 2 ^ 64 -> 0 <= rp_sequence s <= bound -> rp_log s = [] ->
  rising (rp_log (runUnaryMetricLoop turns s).2).
Proof.
  intros Hacc Hlt Hs Hl. unfold runUnaryMetricLoop. eapply (metric_loop_ordered bound turns 0); [done|lia|lia|].
  unfold ordered. cbn [rp_log with_retry schedule_info with_nextInfo rp_sequence]. rewrite Hl. split_and!; [done|constructor|lia|lia].
Qed.

(** ** A denial after a refresh

    The second submission's own error is dropped: the loop rides out the first
    one, and learns of the denial only a back-off later. *)
Lemma denial_after_refresh_is_ridden_out s e s1 renewal e2 s2 :
  SubmitMetrics s = (Some e, s1) -> isPermissionDenied e = false -> rpc_isAuthRejection e = true ->
  refresh (rn_token (rp_renewal s1)) (ro_attempt R (rp_tick s1)) (rp_renewal s1) = (Ok tt, renewal) ->
  SubmitMetrics (logged (Refreshed None) (with_renewal renewal s1)) = (Some e2, s2) -> isPermissionDenied e2 = true ->
  metric_turn s = let '(awake, s3) := Wait (Some e) s2 in (if awake then None else Some EndNil, s3).
Proof.
  intros Hs Hd Ha Hr Hs2 _. unfold metric_turn. rewrite Hs. unfold after_failure. rewrite Hd, Ha, Hr, Hs2. unfold ride_out.
  unfold rpc_isTransientRejection. rewrite Ha, orb_true_r. cbn [negb]. by destruct (Wait (Some e) s2) as [[] ?].
Qed.

(** ** The stream loses nothing *)

Definition batches (l : list report_entry) : list (Z * stream_answer) :=
  omap (fun e => match e with SentBatch q a => Some (q, a) | _ => None end) l.
Definition quiet (s s' : Reporter) : Prop := batches (rp_log s') = batches (rp_log s).
Lemma quiet_trans s t u : quiet s t -> quiet t u -> quiet s u.
Proof. unfold quiet. congruence. Qed.
Lemma Wait_quiet e s : quiet s (Wait e s).2.
Proof. unfold Wait. by destruct (Retry.next _ _ _ _ _ _). Qed.
Lemma SubmitMetrics_quiet s : quiet s (SubmitMetrics s).2.
Proof. unfold SubmitMetrics. cbn zeta. destruct (ro_metrics _ _ _); cbn; unfold advanceSequence; try destruct (_ <=? _); done. Qed.
Lemma SubmitReport_quiet s : quiet s (SubmitReport s).2.
Proof. unfold SubmitReport. cbn zeta. by destruct (ro_report _ _ _). Qed.
Lemma ride_out_quiet e s : quiet s (ride_out e s).2.
Proof. unfold ride_out. destruct (negb _); [done|]. pose proof (Wait_quiet (Some e) s). by destruct (Wait (Some e) s). Qed.
Lemma after_failure_quiet again e s : (forall t, quiet t (again t).2) -> quiet s (after_failure again e s).2.
Proof.
  intros Hag. unfold after_failure. destruct (isPermissionDenied e); [done|]. destruct (rpc_isAuthRejection e); [|apply ride_out_quiet].
  destruct (refreshCredentials _ _ _ _ _ _ _) as [[u|re] renewal].
  - match goal with |- context [again ?t] => pose proof (Hag t) as Ht; destruct (again t) as [[e'|] s1] end; [|exact Ht].
    eapply quiet_trans; [exact Ht|apply ride_out_quiet].
  - destruct (isPermissionDenied _); [done|]. destruct (_ || _); [done|]. destruct (negb _); [done|]. exact (ride_out_quiet e (logged (Refreshed (Some (rpc_of_renewal re))) (with_renewal renewal s))).
Qed.
Lemma info_turn_quiet s : quiet s (info_turn s).2.
Proof.
  unfold info_turn. destruct (before _ _); [done|]. pose proof (SubmitReport_quiet s) as H1.
  destruct (SubmitReport s) as [[e|] s1]; [|exact H1]. pose proof (after_failure_quiet SubmitReport e s1 SubmitReport_quiet) as H2.
  destruct (after_failure _ _ _) as [[| |r] s2]; by eapply quiet_trans.
Qed.
Lemma metric_loop_quiet turns s : quiet s (metric_loop turns s).2.
Proof.
  revert s. induction turns as [|n IH]; intros s; cbn [metric_loop]; [done|].
  assert (Ht : quiet s (metric_turn s).2).
  { unfold metric_turn. pose proof (SubmitMetrics_quiet s) as H1. destruct (SubmitMetrics s) as [[e|] s1].
    - pose proof (after_failure_quiet SubmitMetrics e s1 SubmitMetrics_quiet) as H2.
      destruct (after_failure _ _ _) as [[| |r] s2]; (eapply quiet_trans; [exact H1|]); try exact H2.
      eapply quiet_trans; [exact H2|apply (info_turn_quiet (Reset s2))].
    - eapply quiet_trans; [exact H1|apply info_turn_quiet]. }
  destruct (metric_turn s) as [[r|] s1]; [exact Ht|]. eapply quiet_trans; [exact Ht|apply IH].
Qed.

Definition acknowledged (q : Z) (l : list (Z * stream_answer)) : Prop := exists a, (q, StreamAck a) ∈ l /\ q <= a.
Definition nothing_lost (pending : option Z) (s : Reporter) : Prop :=
  forall q a, (q, a) ∈ batches (rp_log s) -> acknowledged q (batches (rp_log s)) \/ pending = Some q.
Lemma stream_batch_keeps pending s v pending' s' :
  stream_batch pending s = (v, pending', s') -> nothing_lost pending s -> nothing_lost pending' s'.
Proof.
  unfold stream_batch. cbn zeta. change (rp_sequence (elsewhere s)) with (rp_sequence s).
  set (start := match pending with Some q => (q, elsewhere s) | None => (wrapu64 (rp_sequence s + 1), with_sequence (wrapu64 (rp_sequence s + 1)) (elsewhere s)) end).
  assert (Hstart : batches (rp_log start.2) = batches (rp_log s) /\ (forall q, pending = Some q -> start.1 = q)).
  { unfold start. destruct pending; (split; [done|]); [by intros ? [= <-]|done]. }
  destruct start as [q s1]. cbn [fst snd] in Hstart. destruct Hstart as [Hb Hq]. intros Hr Hlost.
  assert (Hnew : forall a p t, batches (rp_log t) = (q, a) :: batches (rp_log s) ->
            (p = Some q \/ exists n, a = StreamAck n /\ q <= n) -> nothing_lost p t).
  { intros a p t Ht Hp x b Hin. rewrite Ht in *. apply elem_of_cons in Hin as [[= -> ->]|Hin].
    - destruct Hp as [->|(n & -> & Hn)]; [by right|]. left. exists n. split; [by left|done].
    - destruct (Hlost x b Hin) as [(n & Hn & Hle)|Hpe]; [left; exists n; split; [by right|done]|]. apply Hq in Hpe as <-.
      destruct Hp as [->|(n & -> & Hn)]; [by right|]. left. exists n. split; [by left|done]. }
  destruct (ro_stream R (rp_tick s1) q) as [e|accepted] eqn:Ea.
  { injection Hr as _ <- <-. eapply Hnew; [rewrite <- Hb; reflexivity|by left]. }
  destruct (Z.ltb_spec accepted q). { injection Hr as _ <- <-. eapply Hnew; [rewrite <- Hb; reflexivity|by left]. }
  set (s2 := Reset _) in Hr. assert (H2 : batches (rp_log s2) = (q, StreamAck accepted) :: batches (rp_log s)).
  { unfold s2, advanceSequence. destruct (_ <=? _); rewrite <- Hb; reflexivity. }
  assert (Hok : forall t, quiet s2 t -> nothing_lost None t).
  { intros t Ht. eapply Hnew; [unfold quiet in Ht; by rewrite Ht|]. right. exists accepted. by split. }
  destruct (before _ _); [injection Hr as _ <- <-; by apply Hok|]. pose proof (SubmitReport_quiet s2) as Hq2.
  destruct (SubmitReport s2) as [[e|] s3]; injection Hr as _ <- <-; by apply Hok.
Qed.

(** On the stream a batch is either acknowledged by the panel, with a number
    at least its own, or it is the one the agent still holds and sends again on
    the next stream: no broken stream loses a batch. *)
Theorem stream_loses_nothing turns s r pending' s' :
  batches (rp_log s) = [] -> runMetricStream turns s = (r, pending', s') -> nothing_lost pending' s'.
Proof.
  intros Hl. unfold runMetricStream. assert (H0 : nothing_lost None (with_retry (Retry.mkRetry 0) (schedule_info s))).
  { intros q a Hin. change (rp_log (with_retry _ (schedule_info s))) with (rp_log s) in Hin. rewrite Hl in Hin. by apply elem_of_nil in Hin. }
  revert H0. generalize (with_retry (Retry.mkRetry 0) (schedule_info s)) as s0. generalize (@None Z) as pending. clear s Hl.
  induction turns as [|n IH]; intros pending s0 H0; cbn [stream_loop]; [by intros [= _ <- <-]|].
  destruct (stream_batch pending s0) as [[v p1] s1] eqn:Eb. pose proof (stream_batch_keeps _ _ _ _ _ Eb H0) as H1.
  assert (Hquiet : forall t, quiet s1 t -> nothing_lost p1 t) by (intros t Ht q a; unfold quiet in Ht; rewrite Ht; apply H1).
  destruct v as [|e|]; [by apply IH| |by intros [= _ <- <-]]. destruct (isUnsupported e).
  - pose proof (metric_loop_quiet n (with_retry (Retry.mkRetry 0) (schedule_info s1))) as Hm. unfold runUnaryMetricLoop.
    destruct (metric_loop _ _) as [r2 s2]. intros [= _ <- <-]. by apply Hquiet.
  - pose proof (Wait_quiet (Some e) s1) as Hw. destruct (Wait (Some e) s1) as [[] s2]; [apply IH; by apply Hquiet|].
    intros [= _ <- <-]. by apply Hquiet.
Qed.

(** ** The start *)

Lemma start_loop_ok turns call s s' : start_loop turns call s = (Some None, s') -> exists t, call t = (None, s').
Proof.
  revert s. induction turns as [|n IH]; intros s; cbn [start_loop]; [done|]. destruct (call s) as [[e|] s1] eqn:Ec.
  - destruct (isPermissionDenied e); [done|]. destruct (negb _); [done|]. destruct (Wait (Some e) s1) as [[] s2]; [apply IH|done].
  - intros [= <-]. by exists s.
Qed.
(** A session starts its workers only after the configuration has been
    synchronised and the first report accepted, in that order; and when it ends
    because the panel revoked the agent, none was started or they have all been
    cancelled. *)
Theorem workers_start_last turns SyncConfig initPending s :
  let run := Run turns SyncConfig initPending s in
  (run_workers run <> [] -> exists t1 s1 t2 s2, SyncConfig t1 = (None, s1) /\ SubmitReport t2 = (None, s2) /\
     run_reporter run = (runUnaryMetricLoop turns s2).2) /\
  (forall e, run_result run = Some (EndPermissionDenied e) -> run_workers run = [] \/ rp_cancelled (run_reporter run) = true).
Proof.
  cbn zeta. unfold Run. destruct (start_loop turns SyncConfig _) as [[[r|]|] s1] eqn:E1; cbn; [split; [done|by left]| |split; [done|by left]].
  destruct (start_loop turns SubmitReport s1) as [[[r|]|] s2] eqn:E2; cbn; [split; [done|by left]| |split; [done|by left]].
  destruct (start_loop_ok _ _ _ _ E1) as [t1 H1], (start_loop_ok _ _ _ _ E2) as [t2 H2].
  pose proof (metric_loop_denied turns (with_retry (Retry.mkRetry 0) (schedule_info s2))) as Hd.
  unfold runUnaryMetricLoop. destruct (metric_loop turns _) as [r s3] eqn:E3. cbn. split.
  - intros _. exists t1, s1, t2, s2. by rewrite E3.
  - intros e ->. right. by apply (Hd e).
Qed.
End Loops.
