(* ===== verification/WorkspaceDemo.v ===== *)
(** * A small workspace

    One host with two accounts, one executor, one relay, one terminal and one
    reporting loop, on which the theorems about them are applied. *)

From S2P Require Import Prelude.
From S2P Require Import GoStd.
From S2P Require Import Disk.
From S2P Require Import Credentials.
From S2P Require Import Effective.
From S2P Require Import Enrollment.
From S2P Require Retry.
From S2P Require Import Session.
From S2P Require Import Renewal.
From S2P Require Import SessionDemo.
From S2P Require Import GoUrl.
From S2P Require Import Files.
From S2P Require Import Accounts.
From S2P Require Import Workspace.
From S2P Require Import Relay.
From S2P Require Import FileService.
From S2P Require Import RemoteSession.
From S2P Require Import Telemetry.

Local Open Scope string_scope.
Local Open Scope Z_scope.

(** ** A terminal of [alice], opened by an agent that runs as root *)

Definition wd_alice : User := mkUser "1000" "100" "alice" "/home/alice".
Definition wd_root : User := mkUser "0" "0" "root" "/root".
Definition wd_host : AccountHost :=
  mkAccountHost (fun n => if (n =? "alice")%string then Some wd_alice else if (n =? "root")%string then Some wd_root else None)
    (Some wd_root) "alice,root" 0 (fun _ => Some ["100"; "27"]) None
    (Some ("alice:x:1000:100::/home/alice:/bin/bash" ++ nl)) (Some "/usr/bin/agent") (fun _ => true).

Lemma wd_effective : current_is_effective wd_host.
Proof. intros u [= <-]. split; [reflexivity|cbn; lia]. Qed.
Lemma wd_canonical : numbers_are_canonical wd_host.
Proof.
  intros name u. cbn. destruct (name =? "alice")%string; [intros [= <-]; exists 1000; split; [reflexivity|lia]|].
  destruct (name =? "root")%string; [|done]. intros [= <-]. exists 0. split; [reflexivity|lia].
Qed.
Lemma wd_terminal : exists t, newTerminalAs wd_host "alice" "" "" = Ok t /\ tm_shell t = "/bin/bash" /\ runs_as wd_host (tm_cmd t) = 1000.
Proof. eexists. split_and!; [vm_compute; reflexivity|reflexivity|reflexivity]. Qed.

Lemma terminal_runs_as_account_witness :
  exists t u, tm_shell t = "/bin/bash" /\ us_Uid u = "1000" /\ authorised wd_host "alice" u /\
    cmd_Env (tm_cmd t) = (Environment u ++ ["SHELL=/bin/bash"])%list.
Proof.
  destruct wd_terminal as (t & Ht & Hs & Hr).
  destruct (terminal_runs_as_account wd_host "alice" "" "" t wd_effective wd_canonical Ht) as (u & Ha & Hu & He & _).
  exists t, u. rewrite Hs in He. rewrite Hr in Hu. split; [exact Hs|]. split; [exact Hu|]. split; [exact Ha|exact He].
Defined.

(** ** An executor: one worker, a listing that is answered *)

Definition wd_entry : FileEvent := mkFileEvent "" FILE_OPERATION_LIST true "" "/" [] [] false.
Definition wd_start : list pool_event :=
  [PCall "s1" "alice" "r1" FILE_OPERATION_LIST (<["path" := VString "/"]> ∅); PPrepare 0 None; PFind 0 wd_host true; PRegister 0; PSend 0 true].
Definition wd_answer : list pool_event := [PDecode 0 (Some ("r1", wd_entry)); PPush 0; PAnswer 0; PLeave 0].
Definition wd_good (H : AccountHost) : Prop := H = wd_host.
Definition wd_run (events : list pool_event) : Pool := default (NewExecutor 0) (pool_run events (NewExecutor 0)).

(** A concrete run uses no other host. *)
Ltac run_good := repeat (apply List.Forall_cons; [exact I || reflexivity|]); apply List.Forall_nil.

Lemma run_reachable good events p p' :
  reachable good p -> Forall (good_event good) events -> pool_run events p = Some p' -> reachable good p'.
Proof.
  revert p. induction events as [|e events IH]; intros p Hp He; cbn; [by intros [= <-]|].
  apply Forall_cons in He as [He Hes]. destruct (pool_step e p) as [p1|] eqn:Es; [|done]. cbn. apply IH; [|done]. by eapply reach_step.
Qed.
Lemma wd_reachable events : Forall (good_event wd_good) events -> is_Some (pool_run events (NewExecutor 0)) -> reachable wd_good (wd_run events).
Proof.
  intros He [p Hp]. unfold wd_run. rewrite Hp. cbn. eapply run_reachable; [apply reach_new|exact He|exact Hp].
Qed.
Lemma wd_sent : reachable wd_good (wd_run wd_start).
Proof. apply wd_reachable; [run_good|eexists; vm_compute; reflexivity]. Qed.
Lemma wd_done : reachable wd_good (wd_run (wd_start ++ wd_answer)).
Proof. apply wd_reachable; [run_good|eexists; vm_compute; reflexivity]. Qed.

Lemma operations_run_as_their_account_witness :
  exists k args, po_workers (wd_run wd_start) !! 0%nat = Some k /\ wk_received k = [(0%nat, "r1", FILE_OPERATION_LIST, args)] /\
    parse_uint32 (us_Uid (wk_user k)) = Some 1000 /\ cmd_Env (wk_cmd k) = Environment (wk_user k).
Proof.
  destruct (po_workers (wd_run wd_start) !! 0%nat) as [k|] eqn:Ek; [|exfalso; vm_compute in Ek; discriminate Ek].
  assert (Hk : wk_received k = [(0%nat, "r1", FILE_OPERATION_LIST, <["path" := VString "/"]> ∅)] /\ us_Uid (wk_user k) = "1000" /\ True).
  { vm_compute in Ek. injection Ek as <-. split_and!; reflexivity. }
  destruct Hk as (Hk & Hu & _). exists k, (<["path" := VString "/"]> ∅). split; [reflexivity|]. split; [exact Hk|].
  destruct (operations_run_as_their_account wd_good (wd_run wd_start) 0 k 0 "r1" FILE_OPERATION_LIST (<["path" := VString "/"]> ∅))
    as (call & H & _ & _ & _ & _ & _ & _ & Henv & _).
  - intros H ->. exact wd_effective.
  - exact wd_sent.
  - exact Ek.
  - rewrite Hk. by left.
  - split; [rewrite Hu; vm_compute; reflexivity|exact Henv].
Defined.

Lemma answers_are_routed_witness :
  exists call, po_calls (wd_run (wd_start ++ wd_answer)) !! 0%nat = Some call /\ ca_phase call = Returned wd_entry /\
    exists w k, po_workers (wd_run (wd_start ++ wd_answer)) !! w = Some k /\ ("r1", wd_entry) ∈ wk_decoded k.
Proof.
  destruct (po_calls (wd_run (wd_start ++ wd_answer)) !! 0%nat) as [call|] eqn:Ec; [|exfalso; vm_compute in Ec; discriminate Ec].
  assert (Hc : ca_phase call = Returned wd_entry /\ ca_request call = "r1") by (vm_compute in Ec; injection Ec as <-; split; reflexivity).
  destruct Hc as [Hp Hr]. exists call. split; [reflexivity|]. split; [exact Hp|].
  destruct (answers_are_routed wd_good _ 0 call wd_entry wd_done Ec Hp) as [[text Ho]|(w & k & args & Hk & _ & Hd & _)].
  - exfalso. discriminate Ho.
  - exists w, k. split; [exact Hk|]. rewrite <- Hr. exact Hd.
Defined.

(** The listing has been sent and its context ends: the call comes back. *)
Lemma unblocked_call_returns_witness : returns 0 5 (wd_run (wd_start ++ [PContext 0])).
Proof.
  destruct (po_calls (wd_run (wd_start ++ [PContext 0])) !! 0%nat) as [call|] eqn:Ec; [|exfalso; vm_compute in Ec; discriminate Ec].
  assert (Hc : ca_done call = true /\ ca_phase call = Waiting 0) by (vm_compute in Ec; injection Ec as <-; split; reflexivity).
  destruct Hc as [Hd Hp]. refine (unblocked_call_returns wd_good _ 0 call _ Ec _).
  - apply wd_reachable; [run_good|eexists; vm_compute; reflexivity].
  - unfold unblocked. rewrite Hp. left. exact Hd.
Defined.

(** The account of a scope is that of its living worker: after three idle minutes
    the same scope gets a worker of another account. *)
Definition wd_idle : list pool_event :=
  [PTime (3 * minute); PTick; PCall "s1" "root" "r2" FILE_OPERATION_LIST ∅; PPrepare 1 None; PFind 1 wd_host true].
Lemma idle_scope_changes_account :
  wk_username <$> po_workers (wd_run (wd_start ++ wd_answer ++ wd_idle)) = ["alice"; "root"] /\
  po_scopes (wd_run (wd_start ++ wd_answer ++ wd_idle)) = {["s1" := 1%nat]}.
Proof. split; vm_compute; reflexivity. Qed.

(** ** A relay: the first request is forwarded, the second refused *)

Definition wd_url : URL := mkURL "https" "" None "panel" "/api/clients/transfer/t1" "" false false "token=at&transfer_token=tt" "" "".
Definition wd_parse (s : string) : option URL :=
  if (s =? "https://panel")%string then Some (mkURL "https" "" None "panel" "" "" false false "" "" "")
  else if (s =? "https://panel/api/clients/transfer/t1?token=at&transfer_token=tt")%string then Some wd_url else None.
Definition wd_credential (token : string) : Credential := mkCredential token "" "".
Definition wd_args : arguments := <["transfer_id" := VString "t1"]> (<["transfer_token" := VString "tt"]> ∅).
Definition wd_secret : string := "01".
Definition wd_relay : result Relay relay_err := newWorkerTransferRelay wd_parse "https://panel" (wd_credential "at") wd_args (Some wd_secret) true.
Definition wd_request : relay_event :=
  RRequest (wd_credential "at2") true (fun _ => inl (mkReply 200 ∅ "done")) (mkLoopback "POST" "/3031" "" ∅ 4 "data").


(** ** A terminal session: a command, then two chunks of output *)

Definition wd_session : list session_event :=
  [TRead "$ " false; TPush; TCommand (Some (mkResponse 7 (CInput "ls"))) true true true; TDequeue; TTransmit true; TAck;
   TRead "a b" false; TPush; TDequeue; TTransmit true; TDequeue; TTransmit true].
Lemma session_run_reachable events s s' : session_reachable s -> session_run events s = Some s' -> session_reachable s'.
Proof.
  revert s. induction events as [|e events IH]; intros s Hs; cbn; [by intros [= <-]|].
  destruct (session_step e s) as [s1|] eqn:Es; [|done]. cbn. apply IH. by eapply sreach_step.
Qed.
Lemma session_is_faithful_witness :
  exists s, session_run wd_session session_start = Some s /\ ss_read s = ["$ "; "a b"] /\
    map se_Sequence (ss_sent s) = [1; 0; 2] /\
    prefix (outputs (se_payload <$> ss_sent s)) (ss_read s).
Proof.
  destruct (session_run wd_session session_start) as [s|] eqn:E; [|exfalso; vm_compute in E; discriminate E].
  assert (H : ss_read s = ["$ "; "a b"] /\ map se_Sequence (ss_sent s) = [1; 0; 2]) by (vm_compute in E; injection E as <-; split; reflexivity).
  exists s. split; [reflexivity|]. split; [exact (proj1 H)|]. split; [exact (proj2 H)|].
  assert (Hlen : length (ss_sent s) = 3%nat) by (rewrite <- (length_map se_Sequence), (proj2 H); reflexivity).
  refine (proj1 (session_is_faithful s (session_run_reachable _ _ _ (sreach_start) E) _)). rewrite Hlen. reflexivity.
Defined.

(** The capability is withdrawn while output is on its way. *)
Lemma terminal_is_gated_witness :
  exists s1 s2, session_step (TCommand (Some (mkResponse 8 (CInput "rm"))) false true true) session_start = Some s1 /\
    session_run [TRead "x" false; TPush] s1 = Some s2 /\ ss_end s1 = Some EndWithdrawn /\ ss_actions s2 = [].
Proof.
  destruct (session_step (TCommand (Some (mkResponse 8 (CInput "rm"))) false true true) session_start) as [s1|] eqn:E1;
    [|exfalso; vm_compute in E1; discriminate E1].
  destruct (session_run [TRead "x" false; TPush] s1) as [s2|] eqn:E2.
  2: { exfalso. vm_compute in E1. injection E1 as <-. vm_compute in E2. discriminate E2. }
  destruct (proj2 (terminal_is_gated session_start) _ _ _ s1 _ s2 E1 E2) as (He & _ & Ha).
  exists s1, s2. split; [reflexivity|]. split; [exact E2|]. split; [exact He|exact Ha].
Defined.

(** ** Three turns of the reporting loop

    The panel is ahead once, and sheds load once. *)

#[local] Existing Instances sd_crypto sd_time sd_identity_json sd_refresh_request sd_refresh_response sd_issued.
Definition wd_reports : Reports :=
  {| ro_now := fun n => Z.of_nat n * second;
     ro_metrics := fun n _ => if Nat.eqb n 0 then Ok 5 else if Nat.eqb n 2 then Err (sd_rpc CodeResourceExhausted) else Ok 0;
     ro_report := fun _ _ => Ok tt;
     ro_stream := fun n q => if Nat.eqb n 0 then StreamBroken (sd_rpc CodeUnavailable) else StreamAck q;
     ro_attempt := fun _ => sd_attempt 30 true;
     ro_meanwhile := fun _ => [];
     ro_random := fun _ => 0;
     ro_awake := fun _ => true;
     ro_interval := fun _ => 0 |}.
Definition wd_reporter : Reporter := mkReporter sd_renewal 0 3 (Retry.mkRetry 0) 0 false [].

Lemma numbers_only_grow_witness :
  let s := (runUnaryMetricLoop (fun _ => true) sd_address ad_Host sd_plain 5 5 (fun _ => None) (fun _ => false) wd_reports 3 wd_reporter).2 in
  omap number_of (rp_log s) = [7; 6; 4] /\ rising (rp_log s).
Proof.
  intros s. split; [vm_compute; reflexivity|].
  refine (numbers_only_grow (fun _ => true) sd_address ad_Host sd_plain 5 5 (fun _ => None) (fun _ => false) wd_reports 5 3 wd_reporter _ _ _ _).
  - intros n q a. cbn. destruct (Nat.eqb n 0); [intros [= <-]; lia|]. destruct (Nat.eqb n 2); [discriminate|intros [= <-]; lia].
  - reflexivity.
  - cbn. lia.
  - reflexivity.
Defined.

Lemma stream_loses_nothing_witness :
  let '(r, pending, s) := runMetricStream (fun _ => true) sd_address ad_Host sd_plain 5 5 (fun _ => None) (fun _ => false) wd_reports 3 wd_reporter in
  map fst (batches (rp_log s)) = [5; 4; 4] /\ nothing_lost pending s.
Proof.
  destruct (runMetricStream (fun _ => true) sd_address ad_Host sd_plain 5 5 (fun _ => None) (fun _ => false) wd_reports 3 wd_reporter) as [[r pending] s] eqn:E.
  split.
  - change s with (snd (r, pending, s)). rewrite <- E. vm_compute. reflexivity.
  - exact (stream_loses_nothing (fun _ => true) sd_address ad_Host sd_plain 5 5 (fun _ => None) (fun _ => false) wd_reports 3 wd_reporter r pending s eq_refl E).
Defined.
