(* ===== verification/LocalAuth.v ===== *)
(** * Is an operator present? ([core/localauth/authenticate_linux.go])

    Before a privilege change is adopted, the host's own [sudo] or [su] is asked
    to authenticate a person. A verification is a sequence of commands; the
    outcome of each is that of an arbitrary host, by its place in the sequence. *)

From S2P Require Import Prelude.
From S2P Require Import GoStd.
From S2P Require Import HostFetch.

Local Open Scope string_scope.
Local Open Scope Z_scope.

(** ** The host *)

(** What becomes of a command: it does not start, ends with success or an error,
    or is still running when the time is up. *)
Inductive ending := NotStarted | Ended (ok : bool) | StillRunning.
(** [ah_listing] is what [sudo -l] prints and whether it succeeds; [ah_ending]
    the end of the n-th command of the verification. *)
Record AuthHost := mkAuthHost {
  ah_SUDO_USER : string; ah_Username : option string; ah_Getuid : Z; ah_Geteuid : Z;
  ah_sudo : option string; ah_su : option string;
  ah_listing : list string -> string * bool;
  ah_exists : string -> bool;
  ah_shadow : option string;
  ah_tty : bool;
  ah_ending : nat -> list string -> ending }.

Inductive Method := MethodSudoPassword | MethodCallerPassword | MethodRootPassword.
Record Result := mkResult { res_Method : Method; res_Operator : string }.
Inductive auth_err :=
| SudoMissing | SuMissing | TerminalRequired | AccountUnusable (reason : string) | SudoRefused (operator : string) | SuRefused (account : string).

(** What was run, in order. *)
Inductive ran := Ran (argv : list string) (e : ending).
Definition verification (A : Type) : Type := list ran -> result A auth_err * list ran.
Definition v_ret {A} (a : A) : verification A := fun l => (Ok a, l).
Definition v_fail {A} (e : auth_err) : verification A := fun l => (Err e, l).
Definition v_bind {A B} (m : verification A) (k : A -> verification B) : verification B :=
  fun l => match m l with (Ok a, l) => k a l | (Err e, l) => (Err e, l) end.
Notation "'do!' p <- m ; k" := (v_bind m (fun p => k))
  (at level 100, p pattern, m at next level, k at level 200, right associativity) : auth_scope.
Declare Scope auth_scope.
Delimit Scope auth_scope with auth.
Local Open Scope auth_scope.

Section Host.
Variable H : AuthHost.

Definition run (argv : list string) : verification ending :=
  fun l => let e := ah_ending H (length l) argv in (Ok e, (l ++ [Ran argv e])%list).
(** [runBounded]: a command that does not end in time is killed. *)
Definition runBounded (argv : list string) : verification bool :=
  do! e <- run argv ; v_ret match e with Ended true => true | _ => false end.

(** ** Who asks *)

Definition callerName : string :=
  let value := trim_space (ah_SUDO_USER H) in
  if negb (value =? "")%string then value
  else match ah_Username H with
       | Some name => if negb (name =? "")%string then name else itoa (ah_Getuid H)
       | None => itoa (ah_Getuid H)
       end.
(** The process is root and the person behind it is another account. *)
Definition for_another (operator : string) : bool :=
  (ah_Geteuid H =? 0) && negb (operator =? "")%string && negb (operator =? "root")%string.

(** ** What sudo would do *)

Record sudoState := mkSudo { available : bool; requiresPassword : bool }.
Definition lower_text (s : string) : string := of_chars (map lower (chars s)).
Definition parseSudoOutput (output : string) (ok : bool) : sudoState :=
  if negb ok then if contains (lower_text output) "password" then mkSudo true true else mkSudo false false
  else mkSudo true (negb (contains output "NOPASSWD")).
Definition inspectSudo (operator : string) : sudoState :=
  match ah_sudo H with
  | None => mkSudo false false
  | Some binary =>
      let '(output, ok) := ah_listing H (if for_another operator then [binary; "-l"; "-U"; operator; "-n"] else [binary; "-ln"]) in
      parseSudoOutput output ok
  end.

(** ** The account's password *)

(** The verdict of one line of the shadow file, if it is the account's. *)
Definition shadow_verdict (account line : string) : option (option string) :=
  match split_on ":" line with
  | name :: hash :: _ =>
      if negb (name =? account)%string then None
      else if (hash =? "")%string then Some (Some "the account has an empty password")
      else if (hash =? "*")%string || has_prefix hash "!" then Some (Some "password authentication is disabled for the account")
      else Some None
  | _ => None
  end.
Fixpoint shadow_reason (account : string) (lines : list string) : option string :=
  match lines with
  | [] => None
  | line :: rest => match shadow_verdict account line with Some verdict => verdict | None => shadow_reason account rest end
  end.
(** [accountLocked]: the reason, if it is. *)
Definition accountLocked (account : string) : option string :=
  if negb (ah_exists H account) then Some "no such account on this host"
  else match ah_shadow H with
       | None => None
       | Some data => shadow_reason account (split_on "010" data)
       end.

Definition verifyPassword (account : string) : verification unit :=
  match ah_su H with
  | None => v_fail SuMissing
  | Some binary =>
      match accountLocked account with
      | Some reason => v_fail (AccountUnusable reason)
      | None =>
          if negb (ah_tty H) then v_fail TerminalRequired
          else do! ok <- runBounded [binary; account; "-c"; "true"] ; if ok then v_ret tt else v_fail (SuRefused account)
      end
  end.

Definition verifyThroughSudo (operator : string) : verification unit :=
  match ah_sudo H with
  | None => v_fail SudoMissing
  | Some binary =>
      do! _ <- run [binary; "-k"] ;
      if negb (ah_tty H) then v_fail TerminalRequired
      else
        do! command <- (if for_another operator
                        then do! _ <- run [binary; "-u"; operator; "-k"] ; v_ret [binary; "-u"; operator; "sudo"; "-v"]
                        else v_ret [binary; "-v"]) ;
        do! ok <- runBounded command ;
        if ok then v_ret tt
        else if for_another operator then verifyPassword operator
        else v_fail (SudoRefused operator)
  end.

Definition Verify : verification Result :=
  let operator := callerName in
  let state := inspectSudo operator in
  if available state && requiresPassword state then
    do! _ <- verifyThroughSudo operator ; v_ret (mkResult MethodSudoPassword operator)
  else if available state then
    do! _ <- verifyPassword operator ; v_ret (mkResult MethodCallerPassword operator)
  else
    do! _ <- verifyPassword "root" ; v_ret (mkResult MethodRootPassword operator).

(** ** What a success rests on *)

(** A command that authenticates, and how its account must be. *)
Definition authenticates (operator : string) (m : Method) (argv : list string) : Prop :=
  match m with
  | MethodSudoPassword =>
      (exists sudo, ah_sudo H = Some sudo /\
         argv = if for_another operator then [sudo; "-u"; operator; "sudo"; "-v"] else [sudo; "-v"]) \/
      (for_another operator = true /\ accountLocked operator = None /\
         exists su, ah_su H = Some su /\ argv = [su; operator; "-c"; "true"])
  | MethodCallerPassword => accountLocked operator = None /\ exists su, ah_su H = Some su /\ argv = [su; operator; "-c"; "true"]
  | MethodRootPassword => accountLocked "root" = None /\ exists su, ah_su H = Some su /\ argv = [su; "root"; "-c"; "true"]
  end.

Lemma runBounded_ok argv l l' : runBounded argv l = (Ok true, l') -> l' = (l ++ [Ran argv (Ended true)])%list.
Proof. unfold runBounded, v_bind, run, v_ret. destruct (ah_ending H (length l) argv) as [|[]|]; intros [= <-]; done. Qed.
Lemma verifyPassword_ok account l l' u :
  verifyPassword account l = (Ok u, l') ->
  ah_tty H = true /\ accountLocked account = None /\
  exists su, ah_su H = Some su /\ l' = (l ++ [Ran [su; account; "-c"; "true"] (Ended true)])%list.
Proof.
  unfold verifyPassword. destruct (ah_su H) as [su|]; [|done]. destruct (accountLocked account); [done|].
  destruct (ah_tty H); [|done]. cbn [negb]. unfold v_bind. destruct (runBounded _ l) as [[[]|] l1] eqn:E; [|done|done].
  intros [= _ <-]. apply runBounded_ok in E. eauto.
Qed.
Lemma verifyThroughSudo_ok operator l l' u :
  verifyThroughSudo operator l = (Ok u, l') ->
  ah_tty H = true /\ exists before argv, l' = (before ++ [Ran argv (Ended true)])%list /\
    authenticates operator MethodSudoPassword argv /\
    exists sudo e, ah_sudo H = Some sudo /\ before !! length l = Some (Ran [sudo; "-k"] e).
Proof.
  unfold verifyThroughSudo. destruct (ah_sudo H) as [sudo|] eqn:Es; [|done].
  unfold v_bind at 1. cbn [run]. set (l1 := (l ++ [Ran [sudo; "-k"] (ah_ending H (length l) [sudo; "-k"])])%list).
  assert (Hk : forall more, (l1 ++ more)%list !! length l = Some (Ran [sudo; "-k"] (ah_ending H (length l) [sudo; "-k"]))).
  { intros more. unfold l1. rewrite <- app_assoc. by apply list_lookup_middle. }
  destruct (ah_tty H); [|done]. cbn [negb]. unfold v_bind at 1.
  set (command := if for_another operator then [sudo; "-u"; operator; "sudo"; "-v"] else [sudo; "-v"]).
  assert (Hc : exists more, (if for_another operator
       then v_bind (run [sudo; "-u"; operator; "-k"]) (fun _ => v_ret [sudo; "-u"; operator; "sudo"; "-v"])
       else v_ret [sudo; "-v"]) l1 = (Ok command, (l1 ++ more)%list)).
  { unfold command. destruct (for_another operator); [by eexists|]. exists []. by rewrite app_nil_r. }
  destruct Hc as [more ->]. unfold v_bind. destruct (runBounded command (l1 ++ more)%list) as [[[]|] l2] eqn:E; [| |done].
  - intros [= _ <-]. apply runBounded_ok in E. subst l2. split; [done|]. exists (l1 ++ more)%list, command. split_and!; [done| |by eauto].
    left. by exists sudo.
  - destruct (for_another operator) eqn:Ef; [|done]. intros Hv. apply verifyPassword_ok in Hv as (Ht & Hl & su & Hsu & ->).
    split; [done|]. exists l2, [su; operator; "-c"; "true"]. split_and!; [done| |].
    + right. split_and!; eauto.
    + exists sudo. eexists. split; [done|]. unfold runBounded, v_bind, run, v_ret in E. injection E as _ <-.
      rewrite <- app_assoc. apply Hk.
Qed.


(** ** A process that is root already

    [su] does not ask root for a password. Run as root, for an operator whose
    password is usable, the verification therefore succeeds with nobody present:
    without sudo, with a rule that asks nothing, and even after [sudo] has
    refused the person at the terminal. *)
Definition su_trusts_root : Prop :=
  ah_Geteuid H = 0 -> forall n su account, ah_su H = Some su -> ah_ending H n [su; account; "-c"; "true"] = Ended true.
Lemma verifyPassword_as_root account l su :
  su_trusts_root -> ah_Geteuid H = 0 -> ah_su H = Some su -> ah_tty H = true -> accountLocked account = None ->
  exists l', verifyPassword account l = (Ok tt, l').
Proof.
  intros Hroot He Hsu Ht Hl. unfold verifyPassword. rewrite Hsu, Hl, Ht. cbn [negb]. unfold v_bind, runBounded, v_bind, run, v_ret.
  rewrite (Hroot He _ _ _ Hsu). eauto.
Qed.
Lemma root_verifies_nobody su :
  su_trusts_root -> ah_Geteuid H = 0 -> ah_su H = Some su -> ah_tty H = true ->
  callerName <> "" -> callerName <> "root" -> accountLocked callerName = None -> accountLocked "root" = None ->
  exists r l, Verify [] = (Ok r, l).
Proof.
  intros Hroot He Hsu Ht Hne Hnr Hl Hlr. unfold Verify.
  assert (Hf : for_another callerName = true).
  { unfold for_another. rewrite He. cbn. destruct (String.eqb_spec callerName ""), (String.eqb_spec callerName "root"); done. }
  assert (Hv : forall account l, accountLocked account = None -> exists l', verifyPassword account l = (Ok tt, l')) by
    (intros; by eapply verifyPassword_as_root).
  destruct (inspectSudo callerName) as [av rq] eqn:Ei. cbn [available requiresPassword]. unfold v_bind at 1 2 3.
  destruct av, rq; cbn [andb]; try (destruct (Hv callerName [] Hl) as [l' ->]; cbn; eauto); try (destruct (Hv "root" [] Hlr) as [l' ->]; cbn; eauto).
  unfold verifyThroughSudo. destruct (ah_sudo H) as [sudo|] eqn:Es; [|unfold inspectSudo in Ei; rewrite Es in Ei; discriminate Ei].
  rewrite Ht, Hf. cbn [negb]. unfold runBounded, v_bind, run, v_ret.
  destruct (ah_ending H _ [sudo; "-u"; callerName; "sudo"; "-v"]) as [|[]|]; eauto;
    match goal with |- context [verifyPassword callerName ?l] => destruct (Hv callerName l Hl) as [l' ->] end; eauto.
Qed.
End Host.

(** ** A host

    An operator whose [sudo] asks for a password and gets the right one. *)
Definition la_host : AuthHost :=
  mkAuthHost "" (Some "alice") 1000 1000 (Some "/usr/bin/sudo") (Some "/usr/bin/su") (fun _ => ("(ALL) ALL", true)) (fun _ => true) None true
    (fun _ _ => Ended true).
