(* ===== verification/Resolver.v ===== *)
(** * Name resolution and dialling ([dnsresolver/resolver.go])

    Addresses in order of preference, the dial loop over them, the resolver with
    its fallback servers, and the cache of HTTP clients. What the network does
    is arbitrary; [net.ParseIP] is a parameter that says which family a text is
    an address of. *)

From S2P Require Import Prelude.
From S2P Require Import GoStd.

Local Open Scope string_scope.
Local Open Scope Z_scope.

(** ** Servers *)

Definition DNSServers : list string :=
  ["[2606:4700:4700::1111]:53"; "[2606:4700:4700::1001]:53"; "[2001:4860:4860::8888]:53"; "[2001:4860:4860::8844]:53";
   "114.114.114.114:53"; "1.1.1.1:53"; "8.8.8.8:53"; "8.8.4.4:53"; "223.5.5.5:53"; "119.29.29.29:53"].

Definition normalizeDNSServer (s : string) : string :=
  let s := trim_space s in
  let colons := count_char ":" s in
  if (has_prefix s "[" && contains s "]:") || (Nat.eqb colons 1 && negb (contains s "]")) then s
  else if Nat.leb 2 colons && negb (contains s "]") then "[" ++ s ++ "]:53"
  else if negb (contains s ":") then s ++ ":53"
  else s.

(** ** The package's state *)

Record ClientKey := mkKey { ck_timeout : duration; ck_ignoreUnsafeCert : bool; ck_preferIPVersion : string }.
#[export] Instance ClientKey_eq : EqDecision ClientKey.
Proof. solve_decision. Defined.
#[export] Instance ClientKey_countable : Countable ClientKey.
Proof.
  refine (inj_countable' (fun k => (ck_timeout k, ck_ignoreUnsafeCert k, ck_preferIPVersion k))
            (fun '(t, u, p) => mkKey t u p) _). by intros [].
Qed.

(** A resolver is the system's or the one with the custom server; it is chosen
    when a transport is built. *)
Inductive resolver := DefaultResolver | CustomResolver.
Record Transport := mkTransport { tr_dial_timeout : duration; tr_insecure : bool; tr_prefer : string; tr_resolver : resolver }.
(** A client of the cache; [hc_id] is its address, [hc_h2c] the transport for
    unencrypted streams. *)
Record HttpClient := mkHttpClient { hc_id : nat; hc_base : Transport; hc_h2c : option Transport; hc_timeout : option duration }.
Record Package := mkPackage {
  pk_custom : string;                      (** [CustomDNSServer] *)
  pk_hasIPv4 : option bool;                (** [preferV4Once] and its result *)
  pk_clients : gmap ClientKey HttpClient;
  pk_made : nat }.

Definition SetCustomDNSServer (server : string) (p : Package) : Package :=
  if (server =? "")%string then p else mkPackage (normalizeDNSServer server) (pk_hasIPv4 p) (pk_clients p) (pk_made p).
Definition GetCustomResolver (p : Package) : resolver := if (pk_custom p =? "")%string then DefaultResolver else CustomResolver.

(** The dial of the custom resolver: the server that answered. *)
Definition first_reachable (up : string -> bool) (servers : list string) : option string :=
  List.find up servers.
Definition resolver_dial (p : Package) (up : string -> bool) : option string :=
  let server := pk_custom p in
  if negb (server =? "")%string && up server then Some server
  else first_reachable up (List.filter (fun s => negb (s =? server)%string) DNSServers).

(** ** Preference *)

Inductive family := V4 | V6.
#[export] Instance family_eq : EqDecision family.
Proof. solve_decision. Defined.

Definition normalizeIPVersionPreference (v : string) : string :=
  if (v =? "4")%string || (v =? "6")%string then v else "".

(** An address of an interface: [None] when it has none; whether it is loopback. *)
Record Interface := mkInterface { if_up : bool; if_loopback : bool; if_addrs : list (option (family * bool)) }.
Definition usable_v4 (a : option (family * bool)) : bool := match a with Some (V4, false) => true | _ => false end.
Definition detect_ipv4 (ifaces : list Interface) : bool :=
  existsb (fun i => if_up i && negb (if_loopback i) && existsb usable_v4 (if_addrs i)) ifaces.
Definition preferIPv4First (ifaces : list Interface) (p : Package) : bool * Package :=
  match pk_hasIPv4 p with
  | Some b => (b, p)
  | None => let b := detect_ipv4 ifaces in (b, mkPackage (pk_custom p) (Some b) (pk_clients p) (pk_made p))
  end.

Section Net.
(** [net.ParseIP] and [To4]. *)
Variable parse_ip : string -> option family.

Definition preferred (v ip : string) : bool :=
  match parse_ip ip with
  | Some V4 => (v =? "4")%string
  | Some V6 => (v =? "6")%string
  | None => false
  end.
Definition partition_ips (v : string) (ips : list string) : list string :=
  (List.filter (preferred v) ips ++ List.filter (fun ip => negb (preferred v ip)) ips)%list.
Definition sortIPsByPreference (ifaces : list Interface) (preference : string) (ips : list string) (p : Package) : list string * Package :=
  let v := normalizeIPVersionPreference preference in
  if (v =? "")%string then
    let '(v4, p) := preferIPv4First ifaces p in (partition_ips (if v4 then "4" else "6") ips, p)
  else (partition_ips v ips, p).

(** ** Dialling

    The same loop serves every transport; [lookup] is what the resolver finds
    and [up] which addresses accept the connection. *)
Inductive dial_err := BadAddress | LookupFailed | AllFailed.
Definition dial (ifaces : list Interface) (preference : string) (split : option (string * string))
    (lookup : string -> option (list string)) (up : string -> bool) (p : Package) : result (string * string) dial_err * Package :=
  match split with
  | None => (Err BadAddress, p)
  | Some (host, port) =>
      match lookup host with
      | None => (Err LookupFailed, p)
      | Some ips =>
          let '(ips, p) := sortIPsByPreference ifaces preference ips p in
          (match List.find up ips with Some ip => Ok (ip, port) | None => Err AllFailed end, p)
      end
  end.

(** ** Clients *)

Definition default_timeout (t d : duration) : duration := if t <=? 0 then d else t.
Definition buildTransportWithPreference (timeout : duration) (insecure : bool) (preference : string) (p : Package) : Transport :=
  mkTransport (default_timeout timeout (30 * second)) insecure preference (GetCustomResolver p).
Definition cached (key : ClientKey) (make : nat -> HttpClient) (p : Package) : HttpClient * Package :=
  match pk_clients p !! key with
  | Some c => (c, p)
  | None => let c := make (pk_made p) in
            (c, mkPackage (pk_custom p) (pk_hasIPv4 p) (<[key := c]> (pk_clients p)) (S (pk_made p)))
  end.
Definition getHTTPClient (timeout : duration) (ignoreUnsafeCert : bool) (preference : string) (p : Package) : HttpClient * Package :=
  let timeout := default_timeout timeout (30 * second) in
  cached (mkKey timeout ignoreUnsafeCert preference)
    (fun id => mkHttpClient id (buildTransportWithPreference timeout ignoreUnsafeCert preference p) None (Some timeout)) p.
Definition GetHTTPClient (timeout : duration) (ignoreUnsafeCert : bool) (p : Package) : HttpClient * Package :=
  getHTTPClient timeout ignoreUnsafeCert "" p.
Definition GetHTTPClientWithPreference (timeout : duration) (ignoreUnsafeCert : bool) (preference : string) (p : Package) : HttpClient * Package :=
  getHTTPClient timeout ignoreUnsafeCert (normalizeIPVersionPreference preference) p.
Definition GetStreamingHTTPClientWithPreference (ignoreUnsafeCert : bool) (preference : string) (p : Package) : HttpClient * Package :=
  let preference := normalizeIPVersionPreference preference in
  cached (mkKey (-1) ignoreUnsafeCert preference)
    (fun id => mkHttpClient id (buildTransportWithPreference (15 * second) ignoreUnsafeCert preference p)
                 (Some (mkTransport (15 * second) false preference (GetCustomResolver p))) None) p.
(** [SmartStreamTransport.RoundTrip] *)
Definition transport_for (c : HttpClient) (scheme : string) : Transport :=
  match hc_h2c c with Some h2c => if (scheme =? "http")%string then h2c else hc_base c | None => hc_base c end.

(** ** The addresses are tried in order of preference *)

Lemma filter_split {A} (f : A -> bool) l : (List.filter f l ++ List.filter (fun x => negb (f x)) l)%list ≡ₚ l.
Proof.
  induction l as [|x l IH]; [done|]. cbn. destruct (f x); cbn; [by rewrite IH|]. by rewrite <- Permutation_middle, IH.
Qed.
Lemma find_app {A} (f : A -> bool) l m : List.find f (l ++ m) = match List.find f l with Some x => Some x | None => List.find f m end.
Proof. induction l as [|x l IH]; [done|]. cbn. by destruct (f x). Qed.
Lemma find_filter {A} (f g : A -> bool) l : List.find f (List.filter g l) = List.find (fun x => g x && f x) l.
Proof. induction l as [|x l IH]; [done|]. cbn. destruct (g x); cbn; by rewrite ?IH. Qed.
Lemma find_ext {A} (f g : A -> bool) l : (forall x, x ∈ l -> f x = g x) -> List.find f l = List.find g l.
Proof.
  induction l as [|x l IH]; [done|]. intros H. cbn. rewrite (H x) by by left. destruct (g x); [done|]. apply IH. intros y Hy. apply H. by right.
Qed.

(** The preference in force: the configured one, or IPv4 exactly when an
    interface of the host has it. *)
Definition preference_in_force (ifaces : list Interface) (preference : string) (p : Package) : string :=
  let v := normalizeIPVersionPreference preference in
  if (v =? "")%string then if fst (preferIPv4First ifaces p) then "4" else "6" else v.
Lemma sorted_is_partition ifaces preference ips p :
  fst (sortIPsByPreference ifaces preference ips p) = partition_ips (preference_in_force ifaces preference p) ips.
Proof. unfold sortIPsByPreference, preference_in_force. destruct (_ =? _)%string; [|done]. by destruct (preferIPv4First ifaces p). Qed.

(** Dialling tries every resolved address once, the preferred family first and
    in the resolver's order within a family: the connection is to the first
    reachable address of the preferred family if there is one, otherwise to the
    first reachable one of the others; it fails only when none is reachable. *)
Theorem dial_follows_preference ifaces preference host port lookup up p ips :
  lookup host = Some ips ->
  fst (sortIPsByPreference ifaces preference ips p) ≡ₚ ips /\
  fst (dial ifaces preference (Some (host, port)) lookup up p) =
    let v := preference_in_force ifaces preference p in
    match List.find (fun ip => preferred v ip && up ip) ips with
    | Some ip => Ok (ip, port)
    | None => match List.find up ips with Some ip => Ok (ip, port) | None => Err AllFailed end
    end.
Proof.
  intros Hl. cbn zeta. rewrite sorted_is_partition. split; [apply filter_split|].
  unfold dial. rewrite Hl. pose proof (sorted_is_partition ifaces preference ips p) as Hs.
  destruct (sortIPsByPreference ifaces preference ips p) as [sorted p']. cbn [fst] in *. subst sorted. unfold partition_ips.
  rewrite find_app, !find_filter. set (v := preference_in_force ifaces preference p).
  destruct (List.find (fun ip => preferred v ip && up ip) ips) as [ip|] eqn:E; [done|].
  rewrite (find_ext (fun x => negb (preferred v x) && up x) up); [done|]. intros x Hx.
  pose proof (List.find_none _ _ E x (proj1 (list_elem_of_In _ _) Hx)) as Hn. cbn in Hn. destruct (preferred v x); cbn in *; by rewrite ?Hn.
Qed.

(** The custom server is asked whenever it can be reached, and otherwise the
    first of the built-in ones that can; without a custom server the built-in
    ones are never asked. *)
Theorem resolver_falls_back p up :
  (pk_custom p = "" -> GetCustomResolver p = DefaultResolver) /\
  (pk_custom p <> "" -> GetCustomResolver p = CustomResolver /\
     resolver_dial p up = if up (pk_custom p) then Some (pk_custom p) else List.find up DNSServers).
Proof.
  unfold GetCustomResolver, resolver_dial, first_reachable. split; [by intros ->|]. intros Hne.
  destruct (String.eqb_spec (pk_custom p) "") as [|_]; [done|]. split; [done|]. cbn [negb andb]. destruct (up (pk_custom p)) eqn:Eu; [done|].
  rewrite find_filter. apply find_ext. intros s _. destruct (String.eqb_spec s (pk_custom p)) as [->|_]; cbn; by rewrite ?Eu.
Qed.
End Net.

Lemma dial_follows_preference_witness :
  let parse := fun a : string => if (a =? "::1")%string then Some V6 else Some V4 in
  fst (dial parse [] "4" (Some ("h", "443")) (fun _ => Some ["::1"; "10.0.0.1"; "10.0.0.2"]) (fun a => negb (a =? "10.0.0.1")%string)
    (mkPackage "" None ∅ 0)) = Ok ("10.0.0.2", "443").
Proof.
  cbn zeta. match goal with |- fst (dial ?f ?i ?v (Some (?h, ?o)) ?l ?u ?p) = _ =>
    exact (eq_trans (proj2 (dial_follows_preference f i v h o l u p _ eq_refl)) eq_refl) end.
Defined.

(** ** The cache *)

(** What is asked of the package, in any order. *)
Inductive request :=
| AskClient (timeout : duration) (ignoreUnsafeCert : bool) (preference : string)
| AskPlain (timeout : duration) (ignoreUnsafeCert : bool)
| AskStream (ignoreUnsafeCert : bool) (preference : string)
| AskServer (server : string)
| AskFamily (ifaces : list Interface).
Definition answer (r : request) (p : Package) : option HttpClient * Package :=
  match r with
  | AskClient t u v => let '(c, p) := GetHTTPClientWithPreference t u v p in (Some c, p)
  | AskPlain t u => let '(c, p) := GetHTTPClient t u p in (Some c, p)
  | AskStream u v => let '(c, p) := GetStreamingHTTPClientWithPreference u v p in (Some c, p)
  | AskServer s => (None, SetCustomDNSServer s p)
  | AskFamily i => (None, snd (preferIPv4First i p))
  end.
Definition start_package : Package := mkPackage "" None ∅ 0.
Inductive package_reachable : Package -> Prop :=
| pkg_start : package_reachable start_package
| pkg_step r p : package_reachable p -> package_reachable (snd (answer r p)).

(** A client does what its key says. *)
Definition client_ok (k : ClientKey) (c : HttpClient) : Prop :=
  tr_insecure (hc_base c) = ck_ignoreUnsafeCert k /\ tr_prefer (hc_base c) = ck_preferIPVersion k /\
  (forall h, hc_h2c c = Some h -> tr_insecure h = false /\ tr_prefer h = ck_preferIPVersion k) /\
  (if decide (ck_timeout k = -1) then hc_timeout c = None else hc_timeout c = Some (ck_timeout k) /\ tr_dial_timeout (hc_base c) = ck_timeout k).
Record package_ok (p : Package) : Prop := {
  po_ok : forall k c, pk_clients p !! k = Some c -> client_ok k c;
  po_fresh : forall k c, pk_clients p !! k = Some c -> (hc_id c < pk_made p)%nat;
  po_distinct : forall k k' c c', pk_clients p !! k = Some c -> pk_clients p !! k' = Some c' -> hc_id c = hc_id c' -> k = k' }.

Lemma cached_ok key make p :
  package_ok p -> client_ok key (make (pk_made p)) -> hc_id (make (pk_made p)) = pk_made p ->
  package_ok (snd (cached key make p)) /\ pk_clients (snd (cached key make p)) !! key = Some (fst (cached key make p)) /\
  (forall k c, pk_clients p !! k = Some c -> pk_clients (snd (cached key make p)) !! k = Some c).
Proof.
  intros [H1 H2 H3] Hm Hid. unfold cached. destruct (pk_clients p !! key) as [c|] eqn:E; [by split_and!|]. cbn. split_and!.
  - split; cbn.
    + intros k c. rewrite lookup_insert_Some. intros [[<- <-]|[_ Hk]]; [done|by apply H1].
    + intros k c. rewrite lookup_insert_Some. intros [[<- <-]|[_ Hk]]; [lia|]. specialize (H2 _ _ Hk). lia.
    + intros k k' c c'. rewrite !lookup_insert_Some. intros [[<- <-]|[_ Hk]] [[<- <-]|[_ Hk']] He; [done| | |by eapply H3];
        [specialize (H2 _ _ Hk')|specialize (H2 _ _ Hk)]; lia.
  - by rewrite lookup_insert_eq.
  - intros k c Hk. rewrite lookup_insert_ne; [done|]. congruence.
Qed.
Lemma default_timeout_pos t d : 0 < d -> 0 < default_timeout t d.
Proof. unfold default_timeout. destruct (Z.leb_spec t 0); lia. Qed.
Lemma plain_client_ok t u v p id : client_ok (mkKey (default_timeout t (30 * second)) u v)
  (mkHttpClient id (buildTransportWithPreference (default_timeout t (30 * second)) u v p) None (Some (default_timeout t (30 * second)))).
Proof.
  pose proof (default_timeout_pos t (30 * second) ltac:(done)) as Ht. unfold client_ok, buildTransportWithPreference. cbn -[default_timeout].
  rewrite decide_False by lia. split_and!; try done. unfold default_timeout at 1. destruct (Z.leb_spec (default_timeout t (30 * second)) 0); [lia|done].
Qed.
Lemma stream_client_ok u v p id : client_ok (mkKey (-1) u v)
  (mkHttpClient id (buildTransportWithPreference (15 * second) u v p) (Some (mkTransport (15 * second) false v (GetCustomResolver p))) None).
Proof. unfold client_ok. cbn. rewrite decide_True by done. split_and!; try done. by intros h [= <-]. Qed.

(** What a call of [cached] establishes, for the goal that contains it. *)
Ltac use_cached Hp H L K :=
  match goal with |- context [cached ?k ?m ?p] =>
    let C := fresh in
    assert (C : client_ok k (m (pk_made p))) by first [apply plain_client_ok | apply stream_client_ok];
    destruct (cached_ok k m p Hp C eq_refl) as (H & L & K); clear C; destruct (cached k m p); cbn [fst snd] in H, L, K
  end.

Lemma answer_ok r p : package_ok p ->
  package_ok (snd (answer r p)) /\ (forall k c, pk_clients p !! k = Some c -> pk_clients (snd (answer r p)) !! k = Some c).
Proof.
  intros Hp. destruct r as [t u v|t u|u v|s|i]; cbn [answer].
  - unfold GetHTTPClientWithPreference, getHTTPClient. use_cached Hp H L K. by split.
  - unfold GetHTTPClient, getHTTPClient. use_cached Hp H L K. by split.
  - unfold GetStreamingHTTPClientWithPreference. use_cached Hp H L K. by split.
  - unfold SetCustomDNSServer. destruct (_ =? _)%string; [by split|]. destruct Hp. by split.
  - unfold preferIPv4First. destruct (pk_hasIPv4 p); [by split|]. destruct Hp. by split.
Qed.
Lemma package_reachable_ok p : package_reachable p -> package_ok p.
Proof. induction 1 as [|r p _ IH]; [split; cbn; intros *; by rewrite lookup_empty|]. by apply answer_ok. Qed.

(** However the package has been used before, a client that is handed out checks
    certificates exactly as asked, prefers the family that was asked for and has
    the time limit that was asked for (a stream has none); asking again gives
    the same client, and other settings another one. *)
Theorem clients_match_their_settings p timeout u v :
  package_reachable p ->
  let '(c, p1) := GetHTTPClientWithPreference timeout u v p in
  let '(c', p2) := GetStreamingHTTPClientWithPreference u v p1 in
  tr_insecure (hc_base c) = u /\ tr_prefer (hc_base c) = normalizeIPVersionPreference v /\
  hc_timeout c = Some (default_timeout timeout (30 * second)) /\
  tr_insecure (hc_base c') = u /\ tr_prefer (hc_base c') = normalizeIPVersionPreference v /\ hc_timeout c' = None /\
  hc_id c <> hc_id c' /\
  fst (GetHTTPClientWithPreference timeout u v p2) = c.
Proof.
  intros Hp. apply package_reachable_ok in Hp. unfold GetHTTPClientWithPreference, getHTTPClient, GetStreamingHTTPClientWithPreference.
  set (t := default_timeout timeout (30 * second)). set (w := normalizeIPVersionPreference v).
  assert (Ht : 0 < t) by by apply default_timeout_pos.
  use_cached Hp H1 L1 K1. use_cached H1 H2 L2 K2.
  destruct (po_ok _ H1 _ _ L1) as (A1 & A2 & _ & A3). cbn in A1, A2, A3. rewrite decide_False in A3 by lia.
  destruct (po_ok _ H2 _ _ L2) as (B1 & B2 & _ & B3). cbn in B1, B2, B3.
  split_and!; try done; [by destruct A3| |].
  - intros Hid. pose proof (po_distinct _ H2 _ _ _ _ (K2 _ _ L1) L2 Hid) as Hk. injection Hk as Hk. lia.
  - unfold cached. by rewrite (K2 _ _ L1).
Qed.

(** The resolver is chosen when a client is built: a custom server set later
    does not reach a client that is already in the cache. *)
Lemma later_server_is_not_used server u v : server <> "" ->
  let '(c, p) := GetStreamingHTTPClientWithPreference u v start_package in
  fst (GetStreamingHTTPClientWithPreference u v (SetCustomDNSServer server p)) = c /\ tr_resolver (hc_base c) = DefaultResolver.
Proof.
  intros Hs. unfold GetStreamingHTTPClientWithPreference, cached at 1. cbn [start_package pk_clients pk_made]. rewrite lookup_empty. cbn.
  unfold SetCustomDNSServer. destruct (String.eqb_spec server "") as [|_]; [done|]. unfold cached. cbn. by rewrite lookup_insert_eq.
Qed.
