(* ===== verification/Probes.v ===== *)
(** * Latency and route probes ([server/task.go], [server/route.go])

    What a latency probe reports from what it measures, and what a route probe
    concludes from the packets it receives. The network and the parsers of
    addresses and packets (the standard library's and golang.org/x/net's) are
    parameters. *)

From S2P Require Import Prelude.
From S2P Require Import GoStd.
From S2P Require Import GoUrl.
From S2P Require Import HostFetch.
From S2P Require Import Relay.

Local Open Scope string_scope.
Local Open Scope Z_scope.

(** Addresses in the form [net.IP.Equal] compares. *)
Inductive ip := IPv4 (a : Z) | IPv6 (a : Z).
#[export] Instance ip_eq : EqDecision ip.
Proof. solve_decision. Defined.
Definition is_v4 (a : ip) : bool := match a with IPv4 _ => true | IPv6 _ => false end.
Definition of_version (version : Z) (a : ip) : bool := ((version =? 4) && is_v4 a) || ((version =? 6) && negb (is_v4 a)).

Definition trim_brackets (s : string) : string :=
  let bracket := fun a => Ascii.eqb a "[" || Ascii.eqb a "]" in
  let strip := fix strip l := match l with a :: r => if bracket a then strip r else l | [] => [] end in
  of_chars (rev (strip (rev (strip (chars s))))).

(** ** Latency *)

Record Network := mkNetwork {
  nw_parse_ip : string -> option ip;                              (** [net.ParseIP] *)
  nw_split : string -> option (string * string);                  (** [net.SplitHostPort] *)
  nw_lookup : string -> option (list string);                     (** [net.LookupHost] *)
  nw_parse_url : string -> option URL;                            (** [url.Parse] *)
  nw_port : URL -> string;                                        (** [URL.Port] *)
  nw_port_known : string -> bool;                                 (** [net.LookupPort("tcp", port)] *)
  nw_icmp : nat -> string -> duration -> option (Z * duration);   (** packets received and their average *)
  nw_tcp : nat -> string -> string -> duration -> option duration;
  nw_http : nat -> URL -> string -> duration -> option (duration * Z) }.

Section Latency.
Variable N : Network.

Definition resolveIP (target : string) : option string :=
  match nw_parse_ip N target with
  | Some _ => Some target
  | None => match nw_lookup N target with Some (a :: _) => Some a | _ => None end
  end.
Definition milliseconds (d : duration) : Z := idiv d millisecond.

(** [n] numbers the measurement. *)
Definition icmpPing (n : nat) (target : string) (timeout : duration) : option Z :=
  let host := match nw_split N target with Some (h, _) => h | None => target end in
  match resolveIP (trim_brackets host) with
  | None => None
  | Some a => match nw_icmp N n a timeout with
              | Some (received, average) => if received =? 0 then None else Some (milliseconds average)
              | None => None
              end
  end.
Definition tcpPing (n : nat) (target : string) (timeout : duration) : option Z :=
  let '(host, port) := match nw_split N target with Some hp => hp | None => (target, "80") end in
  match resolveIP (trim_brackets host) with
  | None => None
  | Some a => milliseconds <$> nw_tcp N n a port timeout
  end.
Definition normalizeHTTPPingTarget (target : string) : option URL :=
  let target :=
    if negb (has_prefix target "http://") && negb (has_prefix target "https://") then
      "http://" ++ (if Nat.ltb 1 (count_char ":" target) && negb (has_prefix target "[") then "[" ++ target ++ "]" else target)
    else target in
  match nw_parse_url N target with
  | None => None
  | Some u =>
      if negb ((U_Scheme u =? "http")%string || (U_Scheme u =? "https")%string) then None
      else if (U_Host u =? "")%string || (hostname (U_Host u) =? "")%string || bool_decide (is_Some (U_User u)) ||
              negb (U_Fragment u =? "")%string then None
      else if negb (nw_port N u =? "")%string && negb (nw_port_known N (nw_port N u)) then None
      else Some u
  end.
Definition httpPing (n : nat) (target : string) (timeout : duration) : option Z :=
  match normalizeHTTPPingTarget target with
  | None => None
  | Some u =>
      match resolveIP (hostname (U_Host u)) with
      | None => None
      | Some a =>
          match nw_http N n u a timeout with
          | Some (latency, status) => if (200 <=? status) && (status <? 400) then Some (milliseconds latency) else None
          | None => None
          end
      end
  end.

Definition highLatencyThreshold : Z := 1000.
Definition retryDropThresholdTcping : Z := 800.
Definition measure (pingType target : string) (timeout : duration) (n : nat) : option Z :=
  if (pingType =? "icmp")%string then icmpPing n target timeout
  else if (pingType =? "tcp")%string then tcpPing n target timeout
  else if (pingType =? "http")%string then httpPing n target timeout
  else None.
(** The measurements left after the first was too high. *)
Fixpoint retry_high (tcp : bool) (m : nat -> option Z) (first : Z) (n retries : nat) : Z :=
  match retries with
  | O => -1
  | S k =>
      match m n with
      | None => -1
      | Some second =>
          if second <=? highLatencyThreshold then
            if tcp && (retryDropThresholdTcping <? first - second) then -1 else second
          else retry_high tcp m first (S n) k
      end
  end.
Definition ProbePing (pingType target : string) (timeout : duration) : Z :=
  let timeout := if timeout <=? 0 then 3 * second else timeout in
  let m := measure pingType target timeout in
  match m 0%nat with
  | None => -1
  | Some first => if highLatencyThreshold <? first then retry_high (pingType =? "tcp")%string m first 1 3 else first
  end.

Lemma retry_high_spec tcp m first n retries r :
  retry_high tcp m first n retries = r ->
  r = -1 \/
  exists i, (i < retries)%nat /\ m (n + i)%nat = Some r /\ r <= highLatencyThreshold /\
    (tcp = true -> first - r <= retryDropThresholdTcping) /\
    forall j, (j < i)%nat -> exists x, m (n + j)%nat = Some x /\ highLatencyThreshold < x.
Proof.
  revert n. induction retries as [|k IH]; intros n; cbn [retry_high]; [by left|].
  destruct (m n) as [x|] eqn:Em; [|by left]. destruct (Z.leb_spec x highLatencyThreshold).
  - destruct (tcp && _) eqn:Et; intros <-; [by left|right]. exists 0%nat. rewrite Nat.add_0_r. split; [lia|]. split; [done|]. split; [done|]. split; [|intros; lia].
    intros ->. cbn in Et. by apply Z.ltb_ge in Et.
  - intros Hr. destruct (IH (S n) Hr) as [->|(i & Hi & Hm & Hle & Ht & Hb)]; [by left|right].
    exists (S i). replace (n + S i)%nat with (S n + i)%nat by lia. split_and!; try done; [lia|].
    intros [|j] Hj; [rewrite Nat.add_0_r; eauto|]. replace (n + S j)%nat with (S n + j)%nat by lia. apply Hb. lia.
Qed.

(** What a probe reports is a loss, or a latency it measured, within one second:
    the first one, or the first within a second of the three that follow; a TCP
    connection that was more than 800 ms slower the first time counts as a loss
    (its first packet was sent again). *)
Theorem ProbePing_is_measured pingType target timeout r :
  ProbePing pingType target timeout = r ->
  r = -1 \/
  r <= highLatencyThreshold /\
  exists t i, 0 < t /\ (timeout <= 0 \/ t = timeout) /\ (i <= 3)%nat /\ measure pingType target t i = Some r /\
    (forall j, (j < i)%nat -> exists x, measure pingType target t j = Some x /\ highLatencyThreshold < x) /\
    (pingType = "tcp" -> forall first, measure pingType target t 0 = Some first -> first - r <= retryDropThresholdTcping).
Proof.
  unfold ProbePing. set (t := if timeout <=? 0 then 3 * second else timeout). cbn zeta.
  assert (Ht : 0 < t /\ (timeout <= 0 \/ t = timeout)) by (unfold t, second; destruct (Z.leb_spec timeout 0); lia).
  destruct (measure pingType target t 0%nat) as [first|] eqn:E0; [|by left].
  destruct (Z.ltb_spec highLatencyThreshold first) as [Hhigh|Hlow].
  - intros Hr. destruct (retry_high_spec _ _ _ _ _ _ Hr) as [->|(i & Hi & Hm & Hle & Hd & Hb)]; [by left|right]. split; [done|].
    exists t, (S i). split_and!; [lia|tauto|lia|done| |].
    + intros [|j] Hj; [eauto|]. apply Hb. lia.
    + intros -> f. rewrite E0. intros [= <-]. by apply Hd.
  - intros <-. right. split; [done|]. exists t, 0%nat. split_and!; [lia|tauto|lia|done|intros; lia|].
    intros _ f. rewrite E0. intros [= <-]. unfold retryDropThresholdTcping. lia.
Qed.
End Latency.

(** ** Routes *)

Inductive protocol := ICMPv4 | ICMPv6.
#[export] Instance protocol_eq : EqDecision protocol.
Proof. solve_decision. Defined.
Inductive message_type := EchoRequest | EchoReply | OtherType.
(** The bodies that carry the packet they answer. *)
Inductive quoting := TimeExceeded | DstUnreach | PacketTooBig | ParamProb.
Inductive message_body := Echo (id sequence : Z) | Quotes (kind : quoting) (data : bytes) | OtherBody.
Record Message := mkMessage { ms_Type : message_type; ms_Body : message_body }.
Record Header := mkHeader { hd_Version : Z; hd_Protocol : Z; hd_Dst : option ip; hd_Len : Z }.

(** [parse_message] and [parse_header] are golang.org/x/net's parsers. *)
Record Packets := mkPackets {
  pp_parse_ip : string -> option ip;
  pp_message : protocol -> bytes -> option Message;
  pp_header : protocol -> bytes -> option Header }.

Definition version_of (p : protocol) : Z := match p with ICMPv4 => 4 | ICMPv6 => 6 end.
Definition number_of_protocol (p : protocol) : Z := match p with ICMPv4 => 1 | ICMPv6 => 58 end.
Definition quotedICMPData (b : message_body) : option bytes := match b with Quotes _ d => Some d | _ => None end.

Section Route.
Variable P : Packets.
Variable proto : protocol.

(** Where the quoted packet's own message begins: IPv4 headers vary in length. *)
Definition header_length (h : Header) : Z := match proto with ICMPv4 => hd_Len h | ICMPv6 => 40 end.
Definition is_probe (m : Message) (t : message_type) (id sequence : Z) : bool :=
  match ms_Type m, t with
  | EchoReply, EchoReply | EchoRequest, EchoRequest =>
      match ms_Body m with Echo i s => (i =? id) && (s =? sequence) | _ => false end
  | _, _ => false
  end.
Definition matchesRouteReply (reply : option Message) (destination : ip) (id sequence : Z) (peer : string) : bool :=
  match reply with
  | None => false
  | Some m =>
      match ms_Type m with
      | EchoReply => is_probe m EchoReply id sequence && bool_decide (pp_parse_ip P peer = Some destination)
      | _ =>
          match quotedICMPData (ms_Body m) with
          | None => false
          | Some quoted =>
              match pp_header P proto quoted with
              | None => false
              | Some h =>
                  if negb ((hd_Version h =? version_of proto) && (hd_Protocol h =? number_of_protocol proto) &&
                           bool_decide (hd_Dst h = Some destination) && (header_length h <=? slen quoted)) then false
                  else match pp_message P proto (of_chars (drop (Z.to_nat (header_length h)) (chars quoted))) with
                       | Some inner => is_probe inner EchoRequest id sequence
                       | None => false
                       end
              end
          end
      end
  end.

Record Hop := mkHop { hp_Ttl : Z; hp_Ip : string; hp_Latency : duration; hp_Timeout : bool }.
(** What the socket yields until the deadline: packets with their sender and the
    time since the probe was sent, then silence or an error. *)
Inductive end_of_wait := Silence | ReadFailed.
Record Answers := mkAnswers { an_packets : list (bytes * string * duration); an_end : end_of_wait }.
Inductive route_err := TargetRequired | BadVersion (v : Z) | BadProtocol (p : string) | NoAddress | ResolveFailed
| SocketFailed | RouteContext | SetTTLFailed | SendFailed | RouteReadFailed | Panicked.

(** [readIPv4RouteReply], [readIPv6RouteReply]: packets that answer another
    probe are passed over. *)
Fixpoint readRouteReply (destination : ip) (id sequence : Z) (packets : list (bytes * string * duration)) (e : end_of_wait)
  : result (option (bool * Hop)) route_err :=
  match packets with
  | [] => match e with Silence => Ok None | ReadFailed => Err RouteReadFailed end
  | (data, peer, elapsed) :: rest =>
      let reply := pp_message P proto data in
      if matchesRouteReply reply destination id sequence peer then
        Ok (Some (match reply with Some m => match ms_Type m with EchoReply => true | _ => false end | None => false end,
                  mkHop sequence peer elapsed false))
      else readRouteReply destination id sequence rest e
  end.

(** What one time-to-live meets: the context, setting it, sending, the answers. *)
Record Step := mkStep { st_context : bool; st_ttl : bool; st_sent : bool; st_answers : Answers }.
Fixpoint trace (destination : ip) (id : Z) (steps : Z -> Step) (ttl : Z) (hops : nat) : list Hop * option route_err :=
  match hops with
  | O => ([], None)
  | S n =>
      let s := steps ttl in
      if negb (st_context s) then ([], Some RouteContext)
      else if negb (st_ttl s) then ([], Some SetTTLFailed)
      else if negb (st_sent s) then ([], Some SendFailed)
      else match readRouteReply destination id ttl (an_packets (st_answers s)) (an_end (st_answers s)) with
           | Err e => ([], Some e)
           | Ok None => let '(l, e) := trace destination id steps (ttl + 1) n in (mkHop ttl "" 0 true :: l, e)
           | Ok (Some (true, hop)) => ([hop], None)
           | Ok (Some (false, hop)) => let '(l, e) := trace destination id steps (ttl + 1) n in (hop :: l, e)
           end
  end.
(** [traceRouteICMPv4], [traceRouteICMPv6]; [socket] is whether it opens. *)
Definition traceRoute (socket : bool) (destination : ip) (id : Z) (steps : Z -> Step) (maxHops : Z) : list Hop * option route_err :=
  if negb socket then ([], Some SocketFailed) else trace destination id steps 1 (Z.to_nat maxHops).

(** A hop is a silence, or it has the sender of a packet received for it that
    answers the very probe. *)
Definition hop_ok (destination : ip) (id : Z) (steps : Z -> Step) (h : Hop) : Prop :=
  hp_Timeout h = true /\ hp_Ip h = "" \/
  hp_Timeout h = false /\ exists data, (data, hp_Ip h, hp_Latency h) ∈ an_packets (st_answers (steps (hp_Ttl h))) /\
    matchesRouteReply (pp_message P proto data) destination id (hp_Ttl h) (hp_Ip h) = true.
Definition reached (destination : ip) (h : Hop) : Prop := pp_parse_ip P (hp_Ip h) = Some destination.

Lemma readRouteReply_ok destination id sequence packets e last hop :
  readRouteReply destination id sequence packets e = Ok (Some (last, hop)) ->
  hp_Ttl hop = sequence /\ hp_Timeout hop = false /\
  (exists data, (data, hp_Ip hop, hp_Latency hop) ∈ packets /\
     matchesRouteReply (pp_message P proto data) destination id sequence (hp_Ip hop) = true) /\
  (last = true -> reached destination hop).
Proof.
  induction packets as [|[[data peer] elapsed] rest IH]; cbn [readRouteReply]; [by destruct e|].
  destruct (matchesRouteReply _ _ _ _ _) eqn:Em.
  - intros [= Hl <-]. cbn. split_and!; [done|done|exists data; split; [by left|done]|].
    intros ->. unfold reached. cbn. unfold matchesRouteReply in Em. destruct (pp_message P proto data) as [m|]; [|done].
    destruct (ms_Type m); try done. bool_hyps. done.
  - intros Hr. destruct (IH Hr) as (H1 & H2 & (d & Hd & Hm) & H3). split_and!; try done. exists d. split; [by right|done].
Qed.
Lemma trace_ok destination id steps ttl n l e :
  trace destination id steps ttl n = (l, e) ->
  (length l <= n)%nat /\ (forall i h, l !! i = Some h -> hp_Ttl h = ttl + Z.of_nat i /\ hop_ok destination id steps h) /\
  (e = None -> (length l < n)%nat -> exists h, last l = Some h /\ reached destination h).
Proof.
  revert ttl l e. induction n as [|n IH]; intros ttl l e; cbn [trace]; [intros [= <- <-]; split_and!; [done|done|cbn; lia]|].
  destruct (st_context (steps ttl)); cbn [negb]; [|by intros [= <- <-]; split_and!; [cbn; lia|done|done]].
  destruct (st_ttl (steps ttl)); cbn [negb]; [|by intros [= <- <-]; split_and!; [cbn; lia|done|done]].
  destruct (st_sent (steps ttl)); cbn [negb]; [|by intros [= <- <-]; split_and!; [cbn; lia|done|done]].
  assert (Hmore : forall hop l' e', trace destination id steps (ttl + 1) n = (l', e') -> hp_Ttl hop = ttl -> hop_ok destination id steps hop ->
    (length (hop :: l') <= S n)%nat /\
    (forall i h, (hop :: l') !! i = Some h -> hp_Ttl h = ttl + Z.of_nat i /\ hop_ok destination id steps h) /\
    (e' = None -> (length (hop :: l') < S n)%nat -> exists h, last (hop :: l') = Some h /\ reached destination h)).
  { intros hop l' e' Ht Hh Hok. destruct (IH _ _ _ Ht) as (Hl & Hi & Hr). split_and!; [cbn; lia| |].
    - intros [|i] h; cbn; [intros [= <-]; split; [lia|done]|]. intros Hk. destruct (Hi _ _ Hk). split; [lia|done].
    - intros He Hlt. destruct Hr as (h & Hlast & Hre); [done|cbn in Hlt; lia|]. exists h. split; [|done]. rewrite last_cons, Hlast. done. }
  destruct (readRouteReply _ _ _ _ _) as [[[[] hop]|]|] eqn:Er.
  - intros [= <- <-]. apply readRouteReply_ok in Er as (H1 & H2 & (d & Hd & Hm) & H3). split_and!; [cbn; lia| |].
    + intros [|i] h; cbn; [|done]. intros [= <-]. split; [lia|]. right. split; [done|]. exists d. rewrite H1. by split.
    + intros _ _. exists hop. split; [done|by apply H3].
  - apply readRouteReply_ok in Er as (H1 & H2 & (d & Hd & Hm) & _). destruct (trace destination id steps (ttl + 1) n) as [l' e'] eqn:Et.
    intros [= <- <-]. apply (Hmore hop _ _ eq_refl); [done|]. right. split; [done|]. exists d. rewrite H1. by split.
  - destruct (trace destination id steps (ttl + 1) n) as [l' e'] eqn:Et. intros [= <- <-]. apply (Hmore _ _ _ eq_refl); [done|]. by left.
  - intros [= <- <-]. split_and!; [cbn; lia|done|done].
Qed.

End Route.

(** A router on the way, then the destination. *)
Definition demo_packets : Packets :=
  mkPackets (fun a => if (a =? "10.0.0.9")%string then Some (IPv4 9) else Some (IPv4 1))
    (fun _ data => if (data =? "exceeded")%string then Some (mkMessage OtherType (Quotes TimeExceeded "quoted"))
       else if (data =? "quoted")%string then Some (mkMessage EchoRequest (Echo 7 1))
       else if (data =? "reply")%string then Some (mkMessage EchoReply (Echo 7 3)) else None)
    (fun _ _ => Some (mkHeader 4 1 (Some (IPv4 9)) 0)).
Definition demo_steps (ttl : Z) : Step :=
  mkStep true true true (mkAnswers
    (if ttl =? 1 then [("noise", "10.0.0.7", 3); ("exceeded", "10.0.0.1", 5)] else if ttl =? 3 then [("reply", "10.0.0.9", 8)] else []) Silence).

(** ** An assignment *)

Record RouteAssignment := mkRoute {
  ra_Target : string; ra_IpVersion : Z; ra_Protocol : string; ra_MaxHops : Z; ra_HopTimeout : option duration }.
Section Assignment.
Variable N : Network.
(** [Resolver.LookupIP] *)
Variable lookup_ip : string -> option (list ip).
(** A tracer of either family; [None] when it panics. *)
Variable tracer : protocol -> ip -> Z -> duration -> option (list Hop * option route_err).

Definition resolveRouteTarget (target : string) (version : Z) : result ip route_err :=
  let target := match nw_split N target with Some (h, _) => h | None => target end in
  match nw_parse_ip N (trim_brackets target) with
  | Some a => if of_version version a then Ok a else Err NoAddress
  | None =>
      match lookup_ip target with
      | None => Err ResolveFailed
      | Some addresses => match List.find (of_version version) addresses with Some a => Ok a | None => Err NoAddress end
      end
  end.
Definition route_hops (maxHops : Z) : Z := if (maxHops <? 1) || (64 <? maxHops) then 30 else maxHops.
Definition hop_timeout (t : option duration) : duration :=
  match t with Some d => if 0 <? d then d else 900 * millisecond | None => 900 * millisecond end.
Definition probeReturnRoute (assignment : option RouteAssignment) : list Hop * option route_err :=
  match assignment with
  | None => ([], Some TargetRequired)
  | Some a =>
      if blank (ra_Target a) then ([], Some TargetRequired)
      else if negb ((ra_IpVersion a =? 4) || (ra_IpVersion a =? 6)) then ([], Some (BadVersion (ra_IpVersion a)))
      else if negb (ra_Protocol a =? "")%string && negb (equal_fold (ra_Protocol a) "icmp") then ([], Some (BadProtocol (ra_Protocol a)))
      else match resolveRouteTarget (ra_Target a) (ra_IpVersion a) with
           | Err e => ([], Some e)
           | Ok destination =>
               match tracer (if ra_IpVersion a =? 6 then ICMPv6 else ICMPv4) destination (route_hops (ra_MaxHops a)) (hop_timeout (ra_HopTimeout a)) with
               | Some r => r
               | None => ([], Some Panicked)
               end
           end
  end.

(** A route is traced only to an address of the family the assignment names,
    with that family's packets, at most 64 hops and a positive wait for each. *)
Theorem probeReturnRoute_bounded a hops :
  probeReturnRoute (Some a) = (hops, None) ->
  exists proto destination n t, tracer proto destination n t = Some (hops, None) /\
    resolveRouteTarget (ra_Target a) (ra_IpVersion a) = Ok destination /\
    version_of proto = ra_IpVersion a /\ is_v4 destination = bool_decide (proto = ICMPv4) /\ 1 <= n <= 64 /\ 0 < t.
Proof.
  unfold probeReturnRoute. destruct (blank _); [done|]. destruct ((_ =? 4) || _) eqn:Ev; cbn [negb]; [|done].
  destruct (_ && _); [done|]. destruct (resolveRouteTarget _ _) as [destination|] eqn:Er; [|done].
  set (proto := if ra_IpVersion a =? 6 then ICMPv6 else ICMPv4).
  destruct (tracer _ _ _ _) as [r|] eqn:Et; [|done]. intros ->.
  assert (Hv : version_of proto = ra_IpVersion a /\ of_version (ra_IpVersion a) destination = true).
  { split; [unfold proto; destruct (Z.eqb_spec (ra_IpVersion a) 6); bool_hyps; cbn; lia|].
    unfold resolveRouteTarget in Er. destruct (nw_parse_ip N _) as [x|].
    - destruct (of_version _ x) eqn:Eo; [|done]. by injection Er as <-.
    - destruct (lookup_ip _) as [l|]; [|done]. destruct (List.find _ l) as [x|] eqn:Ef; [|done]. injection Er as <-.
      by apply List.find_some in Ef as [_ Ef]. }
  destruct Hv as [Hv Ho]. exists proto, destination, (route_hops (ra_MaxHops a)), (hop_timeout (ra_HopTimeout a)). split_and!; try done.
  - unfold of_version in Ho. rewrite <- Hv in Ho. destruct proto, (is_v4 destination); done.
  - unfold route_hops. destruct (Z.ltb_spec (ra_MaxHops a) 1), (Z.ltb_spec 64 (ra_MaxHops a)); cbn; lia.
  - unfold route_hops. destruct (Z.ltb_spec (ra_MaxHops a) 1), (Z.ltb_spec 64 (ra_MaxHops a)); cbn; lia.
  - unfold hop_timeout. destruct (ra_HopTimeout a) as [d|]; [|done]. by destruct (Z.ltb_spec 0 d).
Qed.
End Assignment.

(** The two families are the same code with other constants. *)
Definition matchesIPv4RouteReply (P : Packets) := matchesRouteReply P ICMPv4.
Definition matchesIPv6RouteReply (P : Packets) := matchesRouteReply P ICMPv6.
Definition readIPv4RouteReply (P : Packets) := readRouteReply P ICMPv4.
Definition readIPv6RouteReply (P : Packets) := readRouteReply P ICMPv6.
Definition traceRouteICMPv4 (P : Packets) := traceRoute P ICMPv4.
Definition traceRouteICMPv6 (P : Packets) := traceRoute P ICMPv6.
