(* ===== verification/Subscriptions.v ===== *)
(** * The standing subscriptions of a session ([clientcore/client.go])

    Six workers of a session have one shape: wait for their capability, open a
    stream, handle what it delivers, and open it again after a pause that
    [Retry] decides. Two more poll for probes. The loops are turns over a state;
    the panel's answers are functions of the step number. *)

From S2P Require Import Prelude.
From S2P Require Import GoStd.
From S2P Require Import Effective.
From S2P Require Retry.
From S2P Require Import Session.
From S2P Require Import Telemetry.
From S2P Require Import Probes.

Local Open Scope string_scope.
Local Open Scope Z_scope.

(** ** The outside *)

Section Subscriptions.
Variable ReconnectInterval : Z.
Variable parse_time : string -> option time.

(** [M] is the message of the stream. *)
Record Subscription (M : Type) := mkSubscription {
  sb_now : nat -> time;
  sb_random : nat -> Z;
  sb_awake : nat -> bool;                                   (** does the context outlive this wait? *)
  sb_allowed : nat -> CapabilityState;                      (** the capability of the worker *)
  sb_open : nat -> result (list M * option rpc) rpc }.      (** the messages, and [stream.Err()] *)
Arguments sb_now {M}.
Arguments sb_random {M}.
Arguments sb_awake {M}.
Arguments sb_allowed {M}.
Arguments sb_open {M}.

Inductive pace := Paused (d : duration) | Opened (messages : nat).
(** [S] is what the worker keeps across streams. *)
Record Subscriber (A : Type) := mkSubscriber { su_tick : nat; su_retry : Retry.retryPolicy; su_state : A; su_log : list pace }.
Arguments mkSubscriber {A}.
Arguments su_tick {A}.
Arguments su_retry {A}.
Arguments su_state {A}.
Arguments su_log {A}.
Definition paced {A} (e : pace) (s : Subscriber A) : Subscriber A :=
  mkSubscriber (S (su_tick s)) (su_retry s) (su_state s) (e :: su_log s).
Definition with_policy {A} (p : Retry.retryPolicy) (s : Subscriber A) : Subscriber A :=
  mkSubscriber (su_tick s) p (su_state s) (su_log s).
Definition with_state {A} (a : A) (s : Subscriber A) : Subscriber A :=
  mkSubscriber (su_tick s) (su_retry s) a (su_log s).

Inductive ending := Unsupported | ContextEnded.

Section Loop.
Context {M A : Type}.
Variable O : Subscription M.
(** What the worker does with a message; false when the context ended meanwhile. *)
Variable handle : nat -> M -> A -> A * bool.
(** Does the worker wait for a capability before it opens a stream? *)
Variable gated : bool.

(** [retry.Wait] *)
Definition wait_turn (e : option rpc) (s : Subscriber A) : option ending * Subscriber A :=
  let '(d, p) := Retry.next ReconnectInterval parse_time (sb_random O (su_tick s)) (sb_now O (su_tick s)) (failure_of <$> e) (su_retry s) in
  (if sb_awake O (su_tick s) then None else Some ContextEnded, paced (Paused d) (with_policy p s)).
(** [waitForCapability] gives its second and false when the capability is not
    granted; the loop then looks again. *)
Definition waitForCapability (s : Subscriber A) : bool * Subscriber A :=
  if cap_Available (sb_allowed O (su_tick s)) then (true, s) else (false, paced (Paused second) s).
Fixpoint handle_all (n : nat) (l : list M) (a : A) : A * bool :=
  match l with
  | [] => (a, true)
  | m :: l => let '(a, go) := handle n m a in if go then handle_all n l a else (a, false)
  end.
(** A stream, from its opening to the pause after it. *)
Definition open_turn (s : Subscriber A) : option ending * Subscriber A :=
  match sb_open O (su_tick s) with
  | Err e => if isUnsupported e then (Some Unsupported, s) else wait_turn (Some e) s
  | Ok (messages, e) =>
      let '(a, go) := handle_all (su_tick s) messages (su_state s) in
      let s := paced (Opened (length messages)) (with_state a s) in
      if negb go then (Some ContextEnded, s)
      else
        let s := match messages with [] => s | _ => with_policy (Retry.Reset (su_retry s)) s end in
        match e with
        | Some e => if isUnsupported e then (Some Unsupported, s) else wait_turn (Some e) s
        | None => wait_turn None s
        end
  end.
(** One turn of the loop: [None] when it goes round again. *)
Definition subscription_turn (s : Subscriber A) : option ending * Subscriber A :=
  if gated then
    match waitForCapability s with
    | (true, s) => open_turn s
    | (false, s') => (if sb_awake O (su_tick s) then None else Some ContextEnded, s')
    end
  else open_turn s.
Fixpoint subscription_loop (turns : nat) (s : Subscriber A) : option ending * Subscriber A :=
  match turns with
  | 0%nat => (None, s)
  | S n => match subscription_turn s with (None, s) => subscription_loop n s | r => r end
  end.

(** ** No busy loop *)

Definition sane : Prop := forall n, 0 <= sb_random O n < Retry.rand_max.
(** Every stream that was opened is followed by a pause of a second or more,
    unless the loop ended there. *)
Fixpoint spaced_out (l : list pace) : Prop :=
  match l with
  | [] => True
  | Paused d :: rest => second <= d /\ match rest with Opened _ :: rest => spaced_out rest | _ => spaced_out rest end
  | Opened _ :: _ => False
  end.

Lemma wait_turn_log e s r s' : wait_turn e s = (r, s') -> sane ->
  exists d, second <= d /\ su_log s' = Paused d :: su_log s /\ su_state s' = su_state s.
Proof.
  unfold wait_turn. destruct (Retry.next _ _ _ _ _ _) as [d p] eqn:En. intros [= _ <-] Hs. exists d. split; [|done].
  unfold Retry.next in En. destruct (failure_of <$> e) as [f|]; injection En as <- _; by apply Retry.jitter_bounds.
Qed.
Definition paused_after (l l' : list pace) : Prop :=
  exists d, second <= d /\ (l' = Paused d :: l \/ exists n, l' = Paused d :: Opened n :: l).
Lemma open_turn_log s r s' : sane -> open_turn s = (r, s') -> r = None -> paused_after (su_log s) (su_log s').
Proof.
  intros Hs Ht ->. unfold open_turn in Ht.
  assert (Hw : forall e t, (su_log t = su_log s \/ exists n, su_log t = Opened n :: su_log s) -> wait_turn e t = (None, s') ->
    paused_after (su_log s) (su_log s')).
  { intros e t Hl Hw. destruct (wait_turn_log _ _ _ _ Hw Hs) as (d & Hd & -> & _). exists d. split; [done|].
    destruct Hl as [->|[k ->]]; [by left|right; by exists k]. }
  destruct (sb_open O (su_tick s)) as [[messages e]|e].
  - destruct (handle_all _ _ _) as [a []]; cbn zeta in Ht; cbn [negb] in Ht; [|discriminate Ht].
    set (u := match messages with [] => _ | _ => _ end) in Ht.
    assert (Hu : exists n, su_log u = Opened n :: su_log s) by (exists (length messages); unfold u; by destruct messages).
    destruct e as [e|]; [destruct (isUnsupported e); [discriminate Ht|]|]; eapply Hw; [right; exact Hu|exact Ht|right; exact Hu|exact Ht].
  - destruct (isUnsupported e); [discriminate Ht|]. eapply Hw; [by left|exact Ht].
Qed.
Lemma turn_log s s' : sane -> subscription_turn s = (None, s') -> paused_after (su_log s) (su_log s').
Proof.
  intros Hs Ht. unfold subscription_turn in Ht. destruct gated; [|by eapply open_turn_log]. unfold waitForCapability in Ht.
  destruct (cap_Available (sb_allowed O (su_tick s))); [by eapply open_turn_log|]. injection Ht as _ <-. exists second. split; [done|]. by left.
Qed.

(** Whatever the panel answers and however its streams end, a worker never opens
    a stream again, nor looks at its capability again, without a pause of at
    least a second. *)
Theorem subscriptions_are_paced turns s s' :
  sane -> spaced_out (su_log s) -> subscription_loop turns s = (None, s') -> spaced_out (su_log s').
Proof.
  intros Hs. revert s. induction turns as [|n IH]; intros s Hl; cbn [subscription_loop]; [by intros [= <-]|].
  destruct (subscription_turn s) as [[r|] s1] eqn:Et; [done|]. apply IH.
  destruct (turn_log _ _ Hs Et) as (d & Hd & [->|[k ->]]); cbn [spaced_out]; [|by split].
  split; [done|]. destruct (su_log s) as [|[d'|k] rest]; [done|done|by cbn in Hl].
Qed.

Definition unsupported_answer : Prop :=
  exists n, match sb_open O n with
            | Err e => isUnsupported e = true
            | Ok (_, e) => exists e', e = Some e' /\ isUnsupported e' = true
            end.
Lemma open_turn_unsupported s s' : open_turn s = (Some Unsupported, s') -> unsupported_answer.
Proof.
  assert (Hw : forall e t, wait_turn e t <> (Some Unsupported, s')).
  { intros e t. unfold wait_turn. destruct (Retry.next _ _ _ _ _ _). by destruct (sb_awake O (su_tick t)). }
  unfold open_turn. intros Ho. exists (su_tick s). destruct (sb_open O (su_tick s)) as [[messages e]|e].
  - destruct (handle_all _ _ _) as [a []]; cbn zeta in Ho; cbn [negb] in Ho; [|discriminate Ho].
    destruct e as [e|]; [|by apply Hw in Ho]. exists e. split; [done|]. destruct (isUnsupported e); [done|by apply Hw in Ho].
  - destruct (isUnsupported e); [done|by apply Hw in Ho].
Qed.

(** A worker gives up only when the panel does not have the call, or its context
    ends; every other failure is ridden out. *)
Theorem subscriptions_persist turns s s' :
  subscription_loop turns s = (Some Unsupported, s') -> unsupported_answer.
Proof.
  revert s. induction turns as [|n IH]; intros s; cbn [subscription_loop]; [done|].
  destruct (subscription_turn s) as [[r|] s1] eqn:Et; [|apply IH]. intros [= -> ->]. unfold subscription_turn in Et.
  destruct gated; [|by eapply open_turn_unsupported]. unfold waitForCapability in Et.
  destruct (cap_Available (sb_allowed O (su_tick s))); [by eapply open_turn_unsupported|]. by destruct (sb_awake O (su_tick s)).
Qed.
End Loop.

(** ** The events of the panel ([runAgentEvents])

    [after] is the identifier the next stream resumes from. *)
Section AgentEvents.
(** The answer to an acknowledgement. *)
Variable acknowledge : nat -> string -> option rpc.
Record EventState := mkEvents { ev_after : string; ev_acknowledged : list string }.
Definition on_event (n : nat) (event : option string) (s : EventState) : EventState * bool :=
  match event with
  | None => (s, true)
  | Some id => match acknowledge n id with
               | Some _ => (s, true)
               | None => (mkEvents id (id :: ev_acknowledged s), true)
               end
  end.
Definition runAgentEvents (O : Subscription (option string)) (turns : nat) (s : Subscriber EventState) :=
  subscription_loop O on_event false turns s.

(** The subscription resumes after the last event that was acknowledged. *)
Definition resumes_well (s : EventState) : Prop :=
  ev_after s = default "" (head (ev_acknowledged s)).
Lemma handle_events_resume n l s : resumes_well s -> resumes_well (fst (handle_all on_event n l s)).
Proof.
  revert s. induction l as [|[id|] l IH]; intros s Hs; cbn; [done| |by apply IH].
  destruct (acknowledge n id); [by apply IH|]. by apply IH.
Qed.
(** An event whose acknowledgement failed is passed over when a later one on the
    same stream is acknowledged: the next stream resumes after the later one. *)
Lemma failed_ack_is_passed_over n e1 e2 err s :
  acknowledge n e1 = Some err -> acknowledge n e2 = None ->
  let s' := fst (handle_all on_event n [Some e1; Some e2] s) in
  ev_after s' = e2 /\ (e1 <> e2 -> e1 ∉ ev_acknowledged s -> e1 ∉ ev_acknowledged s').
Proof.
  intros H1 H2. cbn. rewrite H1. cbn. rewrite H2. cbn. split; [done|]. intros Hne Hn. rewrite not_elem_of_cons. by split.
Qed.
End AgentEvents.

(** ** Leases of terminals and file operations ([runRemoteSessions], [runFileOperations])

    An assignment is started when the capability is granted as it arrives and
    one of four places is free; the loop waits for a place, or for the end. *)
Section Leases.
Context {T : Type}.
(** The capability when a message arrives, and whether a place comes free before
    the context ends. *)
Variable allowed : nat -> nat -> CapabilityState.
Variable place : nat -> nat -> bool.
Definition on_lease (n : nat) (assignment : option T) (started : list T) : list T * bool :=
  match assignment with
  | None => (started, true)
  | Some a =>
      if negb (cap_Available (allowed n (length started))) then (started, true)
      else if place n (length started) then ((started ++ [a])%list, true) else (started, false)
  end.
Definition runLeases (O : Subscription (option T)) (turns : nat) (s : Subscriber (list T)) :=
  subscription_loop O on_lease true turns s.

(** Nothing starts that was not assigned, in the order it was assigned. *)
Lemma handle_leases_in_order n l started :
  exists more, fst (handle_all on_lease n l started) = (started ++ more)%list /\ more `sublist_of` omap id l.
Proof.
  revert started. induction l as [|[a|] l IH]; intros started; cbn.
  - exists []. rewrite app_nil_r. by split.
  - destruct (cap_Available _); cbn [negb].
    + destruct (place n _).
      * destruct (IH (started ++ [a])%list) as (more & -> & Hm). exists (a :: more). rewrite <- app_assoc. split; [done|]. by apply sublist_skip.
      * exists []. rewrite app_nil_r. split; [done|]. apply sublist_nil_l.
    + destruct (IH started) as (more & -> & Hm). exists more. split; [done|]. by apply sublist_cons.
  - apply IH.
Qed.
End Leases.
End Subscriptions.
