(* ===== verification/Polls.v ===== *)
(** * Polling for probes ([runPingProbes], [runReturnRouteProbes] of
    [clientcore/client.go])

    A worker leases one assignment at a time, carries it out and submits the
    result; a lease that fails or is empty is followed by a pause. *)

From S2P Require Import Prelude.
From S2P Require Import GoStd.
From S2P Require Retry.
From S2P Require Import Session.
From S2P Require Import Telemetry.
From S2P Require Import Probes.

Local Open Scope string_scope.
Local Open Scope Z_scope.

Record PingAssignment := mkPing {
  pa_AssignmentId : string; pa_TaskId : string; pa_Protocol : string; pa_Target : string; pa_Timeout : option duration }.
Record PingResult := mkPingResult { pr_AssignmentId : string; pr_TaskId : string; pr_Protocol : string; pr_LatencyMs : Z }.
Record LeasedRoute := mkLeasedRoute { lr_AssignmentId : string; lr_TaskId : string; lr_Route : RouteAssignment }.
Record RouteResult := mkRouteResult { rr_AssignmentId : string; rr_TaskId : string; rr_Hops : list Hop; rr_Error : option route_err }.

Section Poll.
Variable ReconnectInterval : Z.
Variable parse_time : string -> option time.
Context {A R : Type}.
(** [pl_submit] answers a submission; its errors are logged only. *)
Record Panel := mkPanel {
  pl_now : nat -> time;
  pl_random : nat -> Z;
  pl_awake : nat -> bool;
  pl_lease : nat -> result (option A) rpc;
  pl_submit : nat -> R -> option rpc }.
Variable P : Panel.
(** How the n-th assignment is carried out. *)
Variable carry_out : nat -> A -> R.

Inductive poll_entry := Leased (a : A) | Submitted (r : R) (failed : option rpc) | Rested (d : duration).
Record Poller := mkPoller { po_tick : nat; po_retry : Retry.retryPolicy; po_log : list poll_entry }.
Inductive poll_end := PollUnsupported | PollContext.

Definition rest (e : option rpc) (s : Poller) : option poll_end * Poller :=
  let '(d, p) := Retry.next ReconnectInterval parse_time (pl_random P (po_tick s)) (pl_now P (po_tick s)) (failure_of <$> e) (po_retry s) in
  (if pl_awake P (po_tick s) then None else Some PollContext, mkPoller (S (po_tick s)) p (Rested d :: po_log s)).
Definition poll_turn (s : Poller) : option poll_end * Poller :=
  match pl_lease P (po_tick s) with
  | Err e => if isUnsupported e then (Some PollUnsupported, s) else rest (Some e) s
  | Ok None => rest None (mkPoller (po_tick s) (Retry.Reset (po_retry s)) (po_log s))
  | Ok (Some a) =>
      let r := carry_out (po_tick s) a in
      (None, mkPoller (S (po_tick s)) (Retry.Reset (po_retry s)) (Submitted r (pl_submit P (po_tick s) r) :: Leased a :: po_log s))
  end.
Fixpoint poll_loop (turns : nat) (s : Poller) : option poll_end * Poller :=
  match turns with
  | O => (None, s)
  | S n => match poll_turn s with (None, s) => poll_loop n s | r => r end
  end.

(** A log in which every assignment is followed at once by its one result, and
    no pause is shorter than a second. *)
Fixpoint answered (l : list poll_entry) : Prop :=
  match l with
  | [] => True
  | Rested d :: l => second <= d /\ answered l
  | Submitted r _ :: Leased a :: l => (exists n, r = carry_out n a) /\ answered l
  | _ => False
  end.
Lemma rest_answered e s : (forall n, 0 <= pl_random P n < Retry.rand_max) -> answered (po_log s) -> answered (po_log (rest e s).2).
Proof.
  intros Hs Ha. unfold rest. destruct (Retry.next _ _ _ _ _ _) as [d p] eqn:En. cbn. split; [|done].
  unfold Retry.next in En. destruct (failure_of <$> e); injection En as <- _; by apply Retry.jitter_bounds.
Qed.

(** Every leased assignment is carried out once and its result submitted once,
    before anything else is leased; between assignments the panel is not asked
    again without a pause of a second or more. *)
Theorem assignments_are_answered turns s :
  (forall n, 0 <= pl_random P n < Retry.rand_max) -> answered (po_log s) -> answered (po_log (poll_loop turns s).2).
Proof.
  intros Hs. revert s. induction turns as [|n IH]; intros s Ha; cbn [poll_loop]; [done|].
  assert (Ht : answered (po_log (poll_turn s).2)).
  { unfold poll_turn. destruct (pl_lease P (po_tick s)) as [[a|]|e].
    - cbn. split; [by eexists|done].
    - by apply rest_answered.
    - destruct (isUnsupported e); [done|by apply rest_answered]. }
  destruct (poll_turn s) as [[r|] s1]; [exact Ht|by apply IH].
Qed.
End Poll.
Arguments Panel : clear implicits.

(** ** The two workers *)

Definition ping_timeout (t : option duration) : duration :=
  match t with Some d => if 0 <? d then d else 3 * second | None => 3 * second end.
Definition ping_result (N : nat -> Network) (n : nat) (a : PingAssignment) : PingResult :=
  mkPingResult (pa_AssignmentId a) (pa_TaskId a) (pa_Protocol a)
    (ProbePing (N n) (pa_Protocol a) (pa_Target a) (ping_timeout (pa_Timeout a))).
Definition runPingProbes ReconnectInterval parse_time (P : Panel PingAssignment PingResult) (N : nat -> Network) turns s :=
  poll_loop ReconnectInterval parse_time P (ping_result N) turns s.

Definition route_result (N : Network) (lookup_ip : string -> option (list ip))
    (tracer : nat -> protocol -> ip -> Z -> duration -> option (list Hop * option route_err)) (n : nat) (a : LeasedRoute) : RouteResult :=
  let '(hops, e) := probeReturnRoute N lookup_ip (tracer n) (Some (lr_Route a)) in
  mkRouteResult (lr_AssignmentId a) (lr_TaskId a) hops e.
Definition runReturnRouteProbes ReconnectInterval parse_time (P : Panel LeasedRoute RouteResult) N lookup_ip tracer turns s :=
  poll_loop ReconnectInterval parse_time P (route_result N lookup_ip tracer) turns s.

(** What the panel is told of a latency is a loss or at most a second. *)
Lemma ping_result_bounded N n a : pr_LatencyMs (ping_result N n a) <= highLatencyThreshold.
Proof. destruct (ProbePing_is_measured (N n) (pa_Protocol a) (pa_Target a) (ping_timeout (pa_Timeout a)) _ eq_refl) as [H|[H _]]; cbn in *; [rewrite H|]; done. Qed.
