(* ===== verification/Startup.v ===== *)
(** * How a session is built and rebuilt ([New] of [clientcore/client.go] and the
    loop of [cmd/root.go])

    [New] opens the stores, decides whose endpoint and token the agent uses, and
    ties itself to the host's protected trust. The daemon rebuilds a session that
    ended, at a pace that grows while sessions are short. *)

From S2P Require Import Prelude.
From S2P Require Import GoStd.
From S2P Require Import Disk.
From S2P Require Import External.
From S2P Require Import Credentials.
From S2P Require Import Replay.
From S2P Require Import Signing.
From S2P Require Import Privileged.
From S2P Require Import HostOps.
From S2P Require Import RuntimeConfig.
From S2P Require Import Effective.
From S2P Require Import Enrollment.
From S2P Require Retry.
From S2P Require Import Session.
From S2P Require Import Delivery.
From S2P Require Import Renewal.
From S2P Require Import Telemetry.

Local Open Scope string_scope.
Local Open Scope Z_scope.

(** ** A new client *)

(** The flags [New] reads, beside those of [RuntimeConfig.Config]. *)
Record Launch := mkLaunch {
  la_CredentialsFile : string; la_PrivilegedStateFile : string; la_ServiceManifestFile : string;
  la_Endpoint : string; la_Token : string; la_flags : Config }.
Inductive start_err :=
| Unconfigured | BadEndpoint | TrustDiffers | PersistedState (e : sess_err) | TrustInvalid (e : host_err).
Record Started := mkStarted { sd_client : Client; sd_session : Session; sd_endpoint : string; sd_token : string; sd_baseURL : string }.

Section New.
Context `{CR : Crypto} `{PT : ProtoTime} `{JI : Json Identity} `{JS : Json Privileged.State} `{JE : Json (option entries)}.
Context `{WR : Wire PrivilegedRevision} `{WI : Wire SignedInstruction}.
Context `{SMf : StrictJson Manifest} `{SPo : StrictJson HostOps.Policy} `{STr : StrictJson Trust}.
Variable iter : entries -> list (string * time).
Variable lstat : string -> option Stat.
Variable is_regular : string -> bool.
Variable parse_url : string -> option Url.
Variable parse_address : string -> option Address.
Variable show_address : Address -> string.
(** The default paths of the two stores. *)
Variable default_credentials default_privileged : string.
(** What the process is, as in [Client]. *)
Variable process : option Manifest -> option HostOps.Policy -> option Trust -> Client.

(** The identity that is used instead of the flags. *)
Definition enrolled_identity (store : option Credentials.Store) : option Identity :=
  match store with
  | Some st => match StoreIdentity st with
               | (i, true) => if negb (id_AgentID i =? "")%string && negb (id_AccessToken i =? "")%string then Some i else None
               | (_, false) => None
               end
  | None => None
  end.
Definition chosen (stored flag : string) : string := if (trim_space stored =? "")%string then trim_space flag else trim_space stored.

(** The installed host, if a manifest is configured and readable with its
    policy. *)
Definition read_host (file : string) (w : World) : option (Manifest * HostOps.Policy) * World :=
  if (file =? "")%string then (None, w)
  else match ReadManifest lstat is_regular file w with
  | (Err _, w) => (None, w)
  | (Ok m, w) => match ReadPolicy lstat is_regular (Some m) w with
                 | (Err _, w) => (None, w)
                 | (Ok p, w) => (Some (m, p), w)
                 end
  end.

Definition New (l : Launch) (runtime : RuntimeConfig.Store) (w : World) : result Started start_err * World :=
  let '(credential, w) := match Credentials.Open default_credentials (la_CredentialsFile l) w with
                          | (Ok s, w) => (Some s, w) | (Err _, w) => (None, w) end in
  let identity := enrolled_identity credential in
  let endpoint := chosen (from_option id_Endpoint "" identity) (la_Endpoint l) in
  let token := chosen (from_option id_AccessToken "" identity) (la_Token l) in
  let agent := trim_space (from_option id_AgentID "" identity) in
  if (endpoint =? "")%string || (token =? "")%string then (Err Unconfigured, w)
  else match connectBaseURL parse_address show_address endpoint with
  | None => (Err BadEndpoint, w)
  | Some base =>
      let '(priv, w) := match Privileged.Open default_privileged (la_PrivilegedStateFile l) w with
                        | (Ok s, w) => (Some s, w) | (Err _, w) => (None, w) end in
      let priv := match credential with None => None | Some _ => priv end in
      let session := fun w => mkSession w 0 priv runtime credential agent false [] in
      let '(host, w) := read_host (la_ServiceManifestFile l) w in
      match host with
      | None => (Ok (mkStarted (process None None None) (session w) endpoint token base), w)
      | Some (m, p) =>
          match ReadTrust lstat is_regular parse_url m w with
          | (Err e, w) =>
              if not_exist lstat (TrustPath m) (SHost e)
              then (Ok (mkStarted (process (Some m) (Some p) None) (session w) endpoint token base), w)
              else (Err (TrustInvalid e), w)
          | (Ok trust, w) =>
              if negb (tr_AgentID trust =? agent)%string || negb (tr_Endpoint trust =? endpoint)%string then (Err TrustDiffers, w)
              else
                let C := process (Some m) (Some p) (Some trust) in
                match validatePersistedPrivileged iter C (session w) with
                | (Err e, s) => (Err (PersistedState e), se_world s)
                | (Ok _, s) => (Ok (mkStarted C s endpoint token base), se_world s)
                end
          end
      end
  end.

(** A client of [New] as it was built for its trust. *)
Definition keeps_trust : Prop := forall m p t, cl_hostTrust (process m p t) = t.

Lemma validate_unchanged C s r s' : validatePersistedPrivileged iter C s = (r, s') -> s' = s.
Proof.
  unfold validatePersistedPrivileged. destruct (se_priv s) as [store|]; [|by intros [= _ <-]].
  assert (Hreq : forall c e (t : Session) r', s_require c e t = (r', s') -> s' = t) by (intros [] ? ? ?; cbn; by intros [= _ <-]).
  destruct (_ =? 0); [apply Hreq|]. unfold s_bind, s_some, Delivery.identity, s_lift, s_ret, s_err.
  repeat match goal with
  | |- context [match ?x with Some _ => _ | None => _ end] => destruct x; try (by intros [= _ <-])
  | |- context [match ?x with Ok _ => _ | Err _ => _ end] => destruct x; try (by intros [= _ <-])
  end.
  apply Hreq.
Qed.

End New.

(** ** The daemon *)

(** How a session ended: it could not be built, or [Run] returned. *)
Inductive outcome := NotBuilt (e : start_err) | RunEnded (r : session_result).
Inductive verdict := ExitUnconfigured | ExitDenied (e : rpc) | TryAgain.
Definition handleSessionOutcome (o : outcome) : verdict :=
  match o with
  | NotBuilt Unconfigured => ExitUnconfigured
  | NotBuilt _ => TryAgain
  | RunEnded (EndPermissionDenied e) => ExitDenied e
  | RunEnded _ => TryAgain
  end.

(** The sessions of a daemon, in order: how each ended, how long it took, and
    whether the daemon is still wanted after the pause. *)
Record Attempted := mkAttempted { at_outcome : outcome; at_length : duration; at_random : Z; at_wanted : bool }.
Inductive daemon_end := Exited (v : verdict) | Signalled.
Section Daemon.
Variable ReconnectInterval : Z.
Fixpoint daemon (restarts : Z) (l : list Attempted) : list duration * option daemon_end :=
  match l with
  | [] => ([], None)
  | a :: l =>
      match handleSessionOutcome (at_outcome a) with
      | TryAgain =>
          let restarts := wrap64 ((if minute <=? at_length a then 0 else restarts) + 1) in
          let d := Retry.RestartDelay ReconnectInterval (at_random a) restarts in
          if at_wanted a then let '(ds, e) := daemon restarts l in (d :: ds, e) else ([d], Some Signalled)
      | v => ([], Some (Exited v))
      end
  end.

(** How many sessions in a row were short, up to this one. *)
Definition streak (l : list Attempted) : Z :=
  fold_left (fun k a => (if minute <=? at_length a then 0 else k) + 1) l 0.
Lemma daemon_delays k l ds e :
  daemon k l = (ds, e) -> 0 <= k -> k + Z.of_nat (length l) < max_int64 ->
  forall i d, ds !! i = Some d -> exists a before, take (S i) l = (before ++ [a])%list /\
    d = Retry.RestartDelay ReconnectInterval (at_random a)
          (fold_left (fun k a => (if minute <=? at_length a then 0 else k) + 1) (take (S i) l) k).
Proof.
  revert k ds e. induction l as [|a l IH]; intros k ds e; cbn [daemon]; [by intros [= <- <-]|].
  destruct (handleSessionOutcome (at_outcome a)); try (by intros [= <- <-]).
  set (k' := (if minute <=? at_length a then 0 else k) + 1). intros Hd Hk Hm.
  assert (Hk' : 0 <= k' <= k + 1) by (unfold k'; destruct (_ <=? _); lia). cbn [length] in Hm.
  rewrite wrap64_id in Hd by (unfold is_int64, min_int64, max_int64 in *; lia).
  destruct (at_wanted a).
  - destruct (daemon k' l) as [ds' e'] eqn:Er. injection Hd as <- <-. intros [|i] d; cbn [lookup].
    + intros [= <-]. by exists a, [].
    + cbn. intros Hi. destruct (IH _ _ _ Er ltac:(lia) ltac:(lia) i d Hi) as (b & before & Ht & ->).
      exists b, (a :: before). cbn [take fold_left]. by rewrite Ht.
  - injection Hd as <- <-. intros [|i] d; cbn; [|done]. intros [= <-]. by exists a, [].
Qed.

(** The daemon leaves on its own only when it was never configured or the panel
    has revoked it; every other end of a session is followed by a pause that is
    the restart delay of the number of short sessions in a row, and is never
    shorter than a second. *)
Theorem daemon_restarts_at_its_pace l ds e :
  Z.of_nat (length l) < max_int64 -> (forall a, a ∈ l -> 0 <= at_random a < Retry.rand_max) -> daemon 0 l = (ds, e) ->
  (forall v, e = Some (Exited v) -> exists a, a ∈ l /\ v = handleSessionOutcome (at_outcome a) /\ v <> TryAgain) /\
  (forall i d, ds !! i = Some d -> second <= d /\ exists n, d = Retry.RestartDelay ReconnectInterval n (streak (take (S i) l))).
Proof.
  intros Hlen Hr Hd. split.
  - clear Hlen Hr. revert ds e Hd. generalize 0 as k. induction l as [|a l IH]; intros k ds e; cbn [daemon]; [by intros [= <- <-]|].
    destruct (handleSessionOutcome (at_outcome a)) eqn:Eo; try (intros [= <- <-] v [= <-]; exists a; split_and!; [by left|done|done]).
    destruct (at_wanted a); [|by intros [= <- <-]]. destruct (daemon _ l) as [ds' e'] eqn:Er. intros [= <- <-] v Hv.
    destruct (IH _ _ _ Er v Hv) as (b & Hb & H). exists b. split; [by right|done].
  - intros i d Hi. destruct (daemon_delays 0 l ds e Hd ltac:(lia) ltac:(lia) i d Hi) as (a & before & Ht & ->). split; [|by eexists].
    apply Retry.jitter_bounds, Hr. rewrite <- (take_drop (S i) l), Ht. set_solver.
Qed.
End Daemon.
