(* ===== verification/StartDemo.v ===== *)
(** * A small start

    The client that [New] builds on an enrolled host with protected trust, and a
    daemon whose sessions end. *)

From S2P Require Import Prelude.
From S2P Require Import GoStd.
From S2P Require Import Disk.
From S2P Require Import External.
From S2P Require Import Credentials.
From S2P Require Import Signing.
From S2P Require Import Privileged.
From S2P Require Import HostOps.
From S2P Require Import RuntimeConfig.
From S2P Require Import Effective.
From S2P Require Import HostDemo.
From S2P Require Import Enrollment.
From S2P Require Retry.
From S2P Require Import Session.
From S2P Require Import Delivery.
From S2P Require Import Renewal.
From S2P Require Import Telemetry.
From S2P Require Import SessionDemo.
From S2P Require Import Startup.

Local Open Scope string_scope.
Local Open Scope Z_scope.

#[local] Existing Instance sd_crypto.
#[local] Existing Instance sd_time.
#[local] Existing Instance sd_revisions.
#[local] Existing Instance sd_instructions.
#[local] Existing Instance sd_manifest.
#[local] Existing Instance sd_strict_policy.
#[local] Existing Instance sd_trust.
#[local] Existing Instance sd_entries.
(** The identity on disk, and the privileged settings of the signed baseline. *)
#[local] Instance st_identity_json : Json Identity := Credentials.wit_json sd_identity.
Definition st_state : Privileged.State :=
  mkState 0 "B" [] [] 1 sd_local None 0 0 None 0 [] "" "" zero_time zero_time.
#[local] Instance st_state_json : Json Privileged.State :=
  {| json_marshal := fun _ => Some "S"; json_unmarshal := fun _ => Some st_state |}.
Definition st_disk : World :=
  mkWorld (list_to_map
    [("/etc/komari/services/komari.policy.json", mkFile "policy" 420); ("/etc/komari/services/komari.json", mkFile "manifest" 420);
     ("/etc/komari/services/komari.trust.json", mkFile "trust" 420); ("/k/credentials.json", mkFile "{}" 384);
     ("/k/privileged.json", mkFile "S" 384)]) [] ["1"; "2"] [].
Definition st_process (m : option Manifest) (p : option HostOps.Policy) (t : option Trust) : Client :=
  mkClient 2 true "" (plain_cap true) "linux" (Some sd_flags) sd_flags m p t "boot".
Definition st_launch : Launch :=
  mkLaunch "/k/credentials.json" "/k/privileged.json" "/etc/komari/services/komari.json" "https://flag" "flag" sd_flags.
Definition st_new : result Started start_err * World :=
  New map_to_list sd_lstat sd_regular demo_url sd_address (fun a => (ad_Scheme a ++ "://" ++ ad_Host a)%string) "/c" "/p" st_process st_launch
    (RuntimeConfig.mkStore "/k/rc.json" sd_runtime None []) st_disk.


(** Two sessions that cannot be built, then no configuration. *)
Lemma daemon_restarts_at_its_pace_witness :
  let l := [mkAttempted (NotBuilt BadEndpoint) second 5 true; mkAttempted (NotBuilt TrustDiffers) second 7 true;
            mkAttempted (NotBuilt Unconfigured) 0 0 true] in
  snd (daemon 5 0 l) = Some (Exited ExitUnconfigured) /\
  forall i d, fst (daemon 5 0 l) !! i = Some d -> second <= d.
Proof.
  cbn zeta. set (l := [_; _; _]). split; [vm_compute; reflexivity|]. intros i d Hi.
  refine (proj1 (proj2 (daemon_restarts_at_its_pace 5 l _ _ _ _ (surjective_pairing _)) i d Hi)); [vm_compute; reflexivity|].
  intros a Ha. assert (F : Forall (fun a => 0 <= at_random a < Retry.rand_max) l).
  { repeat (apply List.Forall_cons; [vm_compute; split; congruence|]). apply List.Forall_nil. }
  rewrite Forall_forall in F. exact (F a Ha).
Defined.
