(* ===== verification/FileTree.v ===== *)
(** * A directory tree with links and inodes, for the file operations ([files/])

    What listing, searching, copying and moving need of a file system: the
    directories are inodes that hold their entries, paths are walked from the
    root through symbolic links, and a hard link is a second entry for an inode.
    Every system call has a number; the system may refuse it, and says what time
    it is and which random names are drawn then. The functions of [os] and
    [path/filepath] the package calls are here; the package is [FileOps]. *)

From stdpp Require Import sorting.
From S2P Require Import Prelude.
From S2P Require Import GoStd.
From S2P Require Import GoPath.
From S2P Require Import Inodes.

Local Open Scope string_scope.
Local Open Scope Z_scope.

(** ** The tree *)

(** [letters] are those [FileMode.String] prints for a special file. *)
Inductive body := Regular (data : bytes) | Directory (entries : gmap string nat) | Symlink (target : string) | Special (letters : string).
(** [nd_perm] are the twelve Unix bits. *)
Record Node := mkNode { nd_body : body; nd_perm : Z; nd_uid : Z; nd_gid : Z; nd_mtime : time }.
(** The root is inode 0. *)
Record Tree := mkTree { tr_nodes : gmap nat Node; tr_next : nat }.
Abbreviation path := (list string) (only parsing).

Definition is_dir (n : Node) : bool := match nd_body n with Directory _ => true | _ => false end.
Definition is_regular (n : Node) : bool := match nd_body n with Regular _ => true | _ => false end.
Definition is_symlink (n : Node) : bool := match nd_body n with Symlink _ => true | _ => false end.
Definition with_body (b : body) (n : Node) : Node := mkNode b (nd_perm n) (nd_uid n) (nd_gid n) (nd_mtime n).
Definition with_perm (p : Z) (n : Node) : Node := mkNode (nd_body n) p (nd_uid n) (nd_gid n) (nd_mtime n).
Definition with_ids (u g p : Z) (n : Node) : Node := mkNode (nd_body n) p u g (nd_mtime n).
Definition with_mtime (m : time) (n : Node) : Node := mkNode (nd_body n) (nd_perm n) (nd_uid n) (nd_gid n) m.
Definition entries_of (t : Tree) (i : nat) : option (gmap string nat) :=
  match nd_body <$> tr_nodes t !! i with Some (Directory es) => Some es | _ => None end.
Definition link_of (t : Tree) (i : nat) : option string :=
  match nd_body <$> tr_nodes t !! i with Some (Symlink target) => Some target | _ => None end.

(** ** Errors *)

Inductive refusal := Denied | IOFailure | CrossDevice.
Inductive errno := ENOENT | ENOTDIR | EEXIST | ELOOP | EISDIR | ENOTEMPTY | EINVAL | EPERM | Refused (r : refusal).
(** [Package] are the messages [Inodes] names already. *)
Inductive op_err :=
| Sys (e : errno) | Package (e : file_err)
| NotRegular | ThroughNonDirectory | OntoNonRegular | OntoDirectory | SameFileTwice | NotEmptyHanded | RecursiveRequired
| QueryRequired | UnknownAccount (user : bool) | InvalidAccountId (user : bool) | UnsupportedOperation | Unmarshalable | Unfinished.
#[export] Instance refusal_eq : EqDecision refusal.
Proof. solve_decision. Defined.
#[export] Instance errno_eq : EqDecision errno.
Proof. solve_decision. Defined.
#[export] Instance op_err_eq : EqDecision op_err.
Proof. solve_decision. Defined.
Definition not_exist (e : op_err) : bool := bool_decide (e = Sys ENOENT).

(** ** The system around the calls *)

Record System := mkSystem {
  sy_refuse : nat -> option refusal;
  sy_now : nat -> time;
  sy_names : nat -> list string;          (** the random parts [os.CreateTemp] tries *)
  sy_umask : Z;
  sy_uid : Z; sy_gid : Z;
  sy_chown_mode : Z -> Z;                 (** what [chown] leaves of the mode *)
  sy_cwd : list string;
  sy_home : option string;                (** [os.UserHomeDir] *)
  sy_dir_size : nat -> Z;
  sy_passwd : option string; sy_group : option string }.

(** [searchMatch]; a search appends what it finds to a slice of its closure. *)
Record searchMatch := mkFound { fo_Path : string; fo_Line : Z; fo_Text : string; fo_IsDir : bool }.
Record St := mkSt { st_tree : Tree; st_call : nat; st_found : list searchMatch }.
Definition F (A : Type) : Type := St -> result A op_err * St.
Definition f_ret {A} (a : A) : F A := fun s => (Ok a, s).
Definition f_err {A} (e : op_err) : F A := fun s => (Err e, s).
Definition f_bind {A B} (m : F A) (k : A -> F B) : F B :=
  fun s => match m s with (Ok a, s) => k a s | (Err e, s) => (Err e, s) end.
Definition f_try {A} (m : F A) : F (result A op_err) := fun s => let '(r, s) := m s in (Ok r, s).
(** [defer]: [last] runs whatever happened, and its error is dropped. *)
Definition f_defer {A} (last : F unit) (m : F A) : F A := fun s => let '(r, s) := m s in (r, snd (last s)).
Notation "'let*' p ':=' m 'in' k" := (f_bind m (fun p => k))
  (at level 200, p pattern, m at level 100, k at level 200, right associativity) : go_scope.
Notation "m >> k" := (f_bind m (fun _ => k)) (at level 100, k at level 200, right associativity) : go_scope.

(** ** Walking a path *)

Section Walk.
Variable t : Tree.
(** Is a link in the last place followed? *)
Variable follow : bool.
(** The inode reached and the directories above it. *)
Fixpoint walk (links : nat) : nat -> list nat -> list string -> result (nat * list nat) errno :=
  fix go (cur : nat) (up : list nat) (comps : list string) {struct comps} :=
    match comps with
    | [] => Ok (cur, up)
    | c :: rest =>
        match entries_of t cur with
        | None => Err ENOTDIR
        | Some es =>
            if (c =? "")%string || (c =? ".")%string then go cur up rest
            else if (c =? "..")%string then match up with [] => go cur [] rest | u :: up => go u up rest end
            else
              match es !! c with
              | None => Err ENOENT
              | Some i =>
                  match link_of t i with
                  | Some target =>
                      if follow || negb (bool_decide (rest = [])) then
                        match links with
                        | O => Err ELOOP
                        | S l => if is_abs target then walk l 0%nat [] (split_on sep target ++ rest)%list
                                 else walk l cur up (split_on sep target ++ rest)%list
                        end
                      else go i (cur :: up) rest
                  | None => go i (cur :: up) rest
                  end
              end
        end
    end.
End Walk.

Definition max_links : nat := 40.
Definition resolve (t : Tree) (follow : bool) (p : path) : result (nat * list nat) errno := walk t follow max_links 0 [] p.
Definition special_name (c : string) : bool := (c =? "")%string || (c =? ".")%string || (c =? "..")%string.
(** The directory a path names an entry of, those above it, its entries and the name. *)
Definition place (t : Tree) (p : path) : result (nat * list nat * gmap string nat * string) errno :=
  match rev p with
  | [] => Err EEXIST
  | c :: r =>
      if special_name c then Err EEXIST else
      try? (d, up) := resolve t true (rev r) in
      match entries_of t d with Some es => Ok (d, up, es, c) | None => Err ENOTDIR end
  end.

Definition set_node (i : nat) (n : Node) (t : Tree) : Tree := mkTree (<[i := n]> (tr_nodes t)) (tr_next t).
Definition update_node (f : Node -> Node) (i : nat) (t : Tree) : Tree := mkTree (alter f i (tr_nodes t)) (tr_next t).
(** New entries of a directory; its modification time moves. *)
Definition set_entries (d : nat) (es : gmap string nat) (now : time) : Tree -> Tree :=
  update_node (fun n => with_mtime now (with_body (Directory es) n)) d.
(** A new inode under a name. *)
Definition attach (d : nat) (es : gmap string nat) (c : string) (n : Node) (now : time) (t : Tree) : Tree :=
  set_entries d (<[c := tr_next t]> es) now (mkTree (<[tr_next t := n]> (tr_nodes t)) (S (tr_next t))).

(** ** Calls *)

Section Calls.
Variable Y : System.

(** A component list for a path: a relative one starts at the working directory. *)
Definition at_path (p : string) : path := if is_abs p then split_on sep p else (sy_cwd Y ++ split_on sep p)%list.

Definition sys {A} (f : nat -> Tree -> result (A * Tree) errno) : F A := fun s =>
  let n := st_call s in
  match sy_refuse Y n with
  | Some r => (Err (Sys (Refused r)), mkSt (st_tree s) (S n) (st_found s))
  | None =>
      match f n (st_tree s) with
      | Ok (a, t) => (Ok a, mkSt t (S n) (st_found s))
      | Err e => (Err (Sys e), mkSt (st_tree s) (S n) (st_found s))
      end
  end.
Definition sys_read {A} (f : Tree -> result A errno) : F A := sys (fun _ t => try? a := f t in Ok (a, t)).

Definition node_at (t : Tree) (follow : bool) (p : path) : result (nat * Node) errno :=
  try? (i, _) := resolve t follow p in
  match tr_nodes t !! i with Some n => Ok (i, n) | None => Err ENOENT end.
Definition os_stat (p : path) : F (nat * Node) := sys_read (fun t => node_at t true p).
Definition os_lstat (p : path) : F (nat * Node) := sys_read (fun t => node_at t false p).
Definition os_readlink (p : path) : F string :=
  sys_read (fun t => try? (_, n) := node_at t false p in match nd_body n with Symlink target => Ok target | _ => Err EINVAL end).
(** [os.Open], and reading an open file to its end. *)
Definition os_open (p : path) : F nat := sys_read (fun t => try? (i, _) := node_at t true p in Ok i).
Definition fd_read (i : nat) : F bytes :=
  sys_read (fun t => match nd_body <$> tr_nodes t !! i with
    | Some (Regular data) => Ok data
    | Some (Directory _) => Err EISDIR
    | _ => Err EINVAL
    end).

Record DirEntry := mkDirEntry { de_name : string; de_node : nat * Node }.
Definition str_le (a b : string) : Prop := String.leb a b = true.
#[export] Instance str_le_dec a b : Decision (str_le a b).
Proof. unfold str_le. apply _. Defined.
(** [os.ReadDir]: by name. The type of an entry is that of its inode at this time. *)
Definition os_readdir (p : path) : F (list DirEntry) :=
  sys_read (fun t => try? (d, _) := resolve t true p in
    match entries_of t d with
    | None => Err ENOTDIR
    | Some es => Ok (omap (fun c => i ← es !! c; n ← tr_nodes t !! i; Some (mkDirEntry c (i, n))) (merge_sort str_le (elements (dom es))))
    end).

Definition fresh_node (b : body) (perm : Z) (now : time) : Node := mkNode b (Z.ldiff perm (sy_umask Y)) (sy_uid Y) (sy_gid Y) now.
Definition os_mkdir (p : path) (perm : Z) : F unit :=
  sys (fun n t => try? (d, _, es, c) := place t p in
    match es !! c with
    | Some _ => Err EEXIST
    | None => Ok (tt, attach d es c (fresh_node (Directory ∅) (Z.land perm 511) (sy_now Y n)) (sy_now Y n) t)
    end).
Definition os_symlink (target : string) (p : path) : F unit :=
  sys (fun n t => try? (d, _, es, c) := place t p in
    match es !! c with
    | Some _ => Err EEXIST
    | None => Ok (tt, attach d es c (mkNode (Symlink target) 511 (sy_uid Y) (sy_gid Y) (sy_now Y n)) (sy_now Y n) t)
    end).
(** The first name that is not taken. *)
Definition os_create_temp (directory : path) (prefix : string) : F (path * nat) :=
  sys (fun n t => try? (d, _) := resolve t true directory in
    match entries_of t d with
    | None => Err ENOTDIR
    | Some es =>
        match List.find (fun c => negb (special_name c) && bool_decide (es !! c = None)) (map (String.append prefix) (sy_names Y n)) with
        | None => Err EEXIST
        | Some c => Ok ((directory ++ [c], tr_next t)%list, attach d es c (fresh_node (Regular "") 384 (sy_now Y n)) (sy_now Y n) t)
        end
    end).
(** Calls on a descriptor, that is, on an inode. *)
Definition fd_write (i : nat) (data : bytes) : F unit :=
  sys (fun n t => Ok (tt, update_node (fun nd => with_mtime (sy_now Y n) (with_body (Regular data) nd)) i t)).
Definition fd_chmod (i : nat) (perm : Z) : F unit := sys (fun _ t => Ok (tt, update_node (with_perm perm) i t)).
Definition fd_call : F unit := sys (fun _ t => Ok (tt, t)).

Definition os_update (f : nat -> Node -> Node) (p : path) : F unit :=
  sys (fun n t => try? (i, _) := node_at t true p in Ok (tt, update_node (f n) i t)).
Definition os_chmod (p : path) (perm : Z) : F unit := os_update (fun _ => with_perm perm) p.
Definition os_chtimes (p : path) (m : time) : F unit := os_update (fun _ => with_mtime m) p.
(** An identifier of [-1] leaves the old one; the kernel reads 32 bits. *)
Definition chosen_id (v old : Z) : Z := if wrapu32 v =? 2 ^ 32 - 1 then old else wrapu32 v.
Definition os_chown (p : path) (uid gid : Z) : F unit :=
  os_update (fun _ n => with_ids (chosen_id uid (nd_uid n)) (chosen_id gid (nd_gid n))
    (if is_dir n then nd_perm n else sy_chown_mode Y (nd_perm n)) n) p.

(** [os.Link]: the last link is not followed. *)
Definition os_link (p q : path) : F unit :=
  sys (fun n t => try? (i, nd) := node_at t false p in
    try? (d, _, es, c) := place t q in
    match es !! c with
    | Some _ => Err EEXIST
    | None => if is_dir nd then Err EPERM else Ok (tt, set_entries d (<[c := i]> es) (sy_now Y n) t)
    end).
(** [unlink], and [rmdir] of an empty directory. *)
Definition os_remove (p : path) : F unit :=
  sys (fun n t => try? (d, _, es, c) := place t p in
    match es !! c with
    | None => Err ENOENT
    | Some i =>
        match entries_of t i with
        | Some es' => if bool_decide (es' = ∅) then Ok (tt, set_entries d (delete c es) (sy_now Y n) t) else Err ENOTEMPTY
        | None => Ok (tt, set_entries d (delete c es) (sy_now Y n) t)
        end
    end).
(** [renameat2]: a directory goes nowhere below itself, and replaces nothing but
    an empty directory. *)
Definition sys_rename (noreplace : bool) (p q : path) : F unit :=
  sys (fun n t =>
    try? (d1, _, es1, c1) := place t p in
    try? (d2, up2, _, c2) := place t q in
    match es1 !! c1 with
    | None => Err ENOENT
    | Some i =>
        if bool_decide (i ∈ d2 :: up2) then Err EINVAL else
        let moved t := let t := set_entries d1 (delete c1 es1) (sy_now Y n) t in
                       match entries_of t d2 with
                       | Some es2 => Ok (tt, set_entries d2 (<[c2 := i]> es2) (sy_now Y n) t)
                       | None => Err ENOTDIR
                       end in
        match entries_of t d2 ≫= fun es2 => es2 !! c2 with
        | None => moved t
        | Some j =>
            if noreplace then Err EEXIST
            else if Nat.eqb i j then Ok (tt, t)
            else match entries_of t i, entries_of t j with
                 | None, None => moved t
                 | None, Some _ => Err EISDIR
                 | Some _, None => Err ENOTDIR
                 | Some _, Some es => if bool_decide (es = ∅) then moved t else Err ENOTEMPTY
                 end
        end
    end).
(** [os.Rename] looks at the destination first: it refuses any directory that is
    not the source itself. *)
Definition os_rename (p q : path) : F unit :=
  let* target := f_try (os_lstat q) in
  match target with
  | Ok (j, n) =>
      if is_dir n then
        let* source := os_lstat p in
        if Nat.eqb (fst source) j then sys_rename false p q else f_err (Sys EEXIST)
      else sys_rename false p q
  | Err _ => sys_rename false p q
  end.

(** [os.MkdirAll]; the components are in reverse. *)
Fixpoint mkdir_all_rev (rp : list string) (perm : Z) : F unit :=
  let* known := f_try (os_stat (rev rp)) in
  match known with
  | Ok (_, n) => if is_dir n then f_ret tt else f_err (Sys ENOTDIR)
  | Err _ =>
      match rp with [] => f_ret tt | _ :: parent => mkdir_all_rev parent perm end >>
      let* made := f_try (os_mkdir (rev rp) perm) in
      match made with
      | Ok _ => f_ret tt
      | Err e =>
          let* there := f_try (os_lstat (rev rp)) in
          match there with Ok (_, n) => if is_dir n then f_ret tt else f_err e | Err _ => f_err e end
      end
  end.
Definition os_mkdir_all (p : path) (perm : Z) : F unit := mkdir_all_rev (rev p) perm.

(** [os.RemoveAll]: a directory's entries go first; one that stays does not
    keep the others. *)
Fixpoint remove_all (fuel : nat) (p : path) : F unit :=
  let* gone := f_try (os_remove p) in
  match gone with
  | Ok _ => f_ret tt
  | Err e =>
      if not_exist e then f_ret tt else
      match fuel with
      | O => f_err Unfinished
      | S fuel =>
          let* node := f_try (os_lstat p) in
          match node with
          | Ok (_, n) =>
              if negb (is_dir n) then f_err e else
              let* listed := f_try (os_readdir p) in
              match listed with
              | Err _ => f_err e
              | Ok children =>
                  let* first := fold_left (fun m child =>
                    let* first := m in
                    let* r := f_try (remove_all fuel (p ++ [de_name child])%list) in
                    f_ret (match first, r with None, Err e => Some e | _, _ => first end)) children (f_ret None) in
                  let* gone := f_try (os_remove p) in
                  match gone with
                  | Ok _ => f_ret tt
                  | Err e => if not_exist e then f_ret tt else f_err (default e first)
                  end
              end
          | Err e' => if not_exist e' then f_ret tt else f_err e
          end
      end
  end.

(** [filepath.WalkDir]: what the function asks for, and the walk. *)
Inductive verdict := Go | SkipDir | SkipAll.
Fixpoint walk_children (walk : path -> DirEntry -> F verdict) (p : path) (l : list DirEntry) : F verdict :=
  match l with
  | [] => f_ret Go
  | c :: l =>
      let* v := walk (p ++ [de_name c])%list c in
      match v with Go => walk_children walk p l | SkipDir => f_ret Go | SkipAll => f_ret SkipAll end
  end.
Section WalkDir.
Variable visit : path -> option DirEntry -> option op_err -> F verdict.
Fixpoint walk_dir (fuel : nat) (p : path) (d : DirEntry) : F verdict :=
  match fuel with
  | O => f_err Unfinished
  | S fuel =>
      let* v := visit p (Some d) None in
      match v with
      | SkipDir => f_ret (if is_dir (snd (de_node d)) then Go else SkipDir)
      | SkipAll => f_ret SkipAll
      | Go =>
          if negb (is_dir (snd (de_node d))) then f_ret Go else
          let* listed := f_try (os_readdir p) in
          match listed with
          | Ok l => walk_children (walk_dir fuel) p l
          | Err e =>
              let* v := visit p (Some d) (Some e) in
              match v with SkipDir => f_ret Go | SkipAll => f_ret SkipAll | Go => f_ret Go end
          end
      end
  end.
Definition WalkDir (fuel : nat) (root : path) (name : string) : F unit :=
  let* info := f_try (os_lstat root) in
  match info with
  | Err e => visit root None (Some e) >> f_ret tt
  | Ok n => walk_dir fuel root (mkDirEntry name n) >> f_ret tt
  end.
End WalkDir.
End Calls.
