(* ===== verification/FileOps.v ===== *)
(** * The file operations on a directory tree ([files/ops.go], [files/execute.go], Unix)

    Listing, describing, creating, removing, copying, moving, re-owning and
    searching, and the typed event the panel receives. [Files] holds the
    arguments, paths and modes they share with uploads, [FileTree] the file
    system. *)

From S2P Require Import Prelude.
From S2P Require Import GoStd.
From S2P Require Import GoPath.
From S2P Require Import Inodes.
From S2P Require Import Files.
From S2P Require Import Accounts.
From S2P Require Import Workspace.
From S2P Require Import FileTree.

Local Open Scope string_scope.
Local Open Scope Z_scope.

(** ** Text in JSON *)

(** The length of the UTF-8 sequence a text starts with. *)
Definition byte_in (a : ascii) (lo hi : nat) : bool := Nat.leb lo (code a) && Nat.leb (code a) hi.
Definition rune_len (l : list ascii) : option nat :=
  match l with
  | [] => None
  | a :: l =>
      if Nat.ltb (code a) 128 then Some 1%nat else
      match l with
      | [] => None
      | b :: l =>
          if byte_in a 194 223 && byte_in b 128 191 then Some 2%nat else
          match l with
          | [] => None
          | c :: l =>
              if byte_in c 128 191 &&
                 ((byte_in a 224 224 && byte_in b 160 191) || (byte_in a 237 237 && byte_in b 128 159) ||
                  ((byte_in a 225 236 || byte_in a 238 239) && byte_in b 128 191)) then Some 3%nat else
              match l with
              | [] => None
              | d :: _ =>
                  if byte_in c 128 191 && byte_in d 128 191 &&
                     ((byte_in a 240 240 && byte_in b 144 191) || (byte_in a 244 244 && byte_in b 128 143) ||
                      (byte_in a 241 243 && byte_in b 128 191)) then Some 4%nat else None
              end
          end
      end
  end.
Definition replacement : list ascii := map byte_of [239; 191; 189]%nat.
(** What a string is after [json.Marshal] and [json.Unmarshal]. *)
Fixpoint json_go (keep : nat) (l : list ascii) : list ascii :=
  match l with
  | [] => []
  | a :: r =>
      match keep with
      | S k => a :: json_go k r
      | O => match rune_len l with Some (S k) => a :: json_go k r | _ => (replacement ++ json_go 0 r)%list end
      end
  end.
Definition json_text (s : string) : string := of_chars (json_go 0 (chars s)).
(** [time.Time.MarshalJSON] refuses a year outside [0, 9999]. *)
Definition encodable (t : time) : bool := (-31622400 * second <=? t) && (t <? 315537897600 * second).

(** ** Descriptions *)

Record fileInfo := mkFileInfo {
  fi_Name : string; fi_Path : string; fi_IsDir : bool; fi_IsSymlink : bool; fi_Size : Z; fi_Mode : string; fi_ModeOctal : string;
  fi_UID : Z; fi_GID : Z; fi_Owner : string; fi_Group : string; fi_ModifiedAt : time; fi_Target : string }.

(** [FileMode.String] and [%04o] of the permission bits. *)
Definition bit_letter (perm : Z) (b : Z) (letter : string) : string := if Z.testbit perm b then letter else "-".
Definition mode_string (n : Node) : string :=
  let letters := match nd_body n with Directory _ => "d" | Symlink _ => "L" | Special l => l | Regular _ => "" end ++
    (if Z.testbit (nd_perm n) 11 then "u" else "") ++ (if Z.testbit (nd_perm n) 10 then "g" else "") ++
    (if Z.testbit (nd_perm n) 9 then "t" else "") in
  (if (letters =? "")%string then "-" else letters) ++
  bit_letter (nd_perm n) 8 "r" ++ bit_letter (nd_perm n) 7 "w" ++ bit_letter (nd_perm n) 6 "x" ++
  bit_letter (nd_perm n) 5 "r" ++ bit_letter (nd_perm n) 4 "w" ++ bit_letter (nd_perm n) 3 "x" ++
  bit_letter (nd_perm n) 2 "r" ++ bit_letter (nd_perm n) 1 "w" ++ bit_letter (nd_perm n) 0 "x".
Definition perm_of (n : Node) : Z := Z.land (nd_perm n) 511.
Definition octal_digit (z : Z) : ascii := digit (Z.to_nat (z mod 8)).
Definition octal4 (z : Z) : string := of_chars [octal_digit (z / 512); octal_digit (z / 64); octal_digit (z / 8); octal_digit z].

(** [accountField]: the first line of a file whose [key] field is the key.
    [bufio.Scanner] stops at a line too long for it. *)
Fixpoint account_lines (lines : list (list ascii)) (key : string) (keyField valueField : nat) : option string :=
  match lines with
  | [] => None
  | raw :: rest =>
      if negb (fits raw) then None else
      let line := trim_space (of_chars (drop_cr raw)) in
      if (line =? "")%string || has_prefix line "#" then account_lines rest key keyField valueField else
      let fields := split_on ":" line in
      match fields !! keyField, fields !! valueField with
      | Some k, Some v => if (k =? key)%string then Some v else account_lines rest key keyField valueField
      | _, _ => account_lines rest key keyField valueField
      end
  end.
Definition accountField (key : string) (file : option string) (keyField valueField : nat) : option string :=
  text ← file; account_lines (scan_go [] (chars text)) (trim_space key) keyField valueField.

(** What an operation answers as JSON; [Status] are the objects that describe no
    file. *)
Inductive status := Created | Deleted | Moved | Copied | ModeSet (mode : string) | Owned (uid gid : Z) | Transferred (what : string).
Inductive payload := PFiles (l : list fileInfo) | PFile (f : fileInfo) | PStatus (s : status) | PMatches (l : list searchMatch) (limited : bool).

Definition searchResultLimit : nat := 500.

Section Operations.
Variable Y : System.
(** [strings.ToLower] (the tables of Unicode). *)
Variable to_lower : string -> string.
(** Turns of a walk or levels of a removal. *)
Variable fuel : nat.

Abbreviation at_path := (FileTree.at_path Y).
Abbreviation resolved p := (resolveFilePath (sy_home Y) p).

Definition node_size (i : nat) (n : Node) : Z :=
  match nd_body n with Regular data => slen data | Symlink target => slen target | Directory _ => sy_dir_size Y i | Special _ => 0 end.
Definition fileOwnership (n : Node) : Z * Z * string * string :=
  (nd_uid n, nd_gid n, default "" (accountField (itoa (nd_uid n)) (sy_passwd Y) 2 0),
   default "" (accountField (itoa (nd_gid n)) (sy_group Y) 2 0)).
Definition info_of (i : nat) (n : Node) (name p : string) (symlink : bool) (target : string) : fileInfo :=
  let '(uid, gid, owner, group) := fileOwnership n in
  mkFileInfo name p (is_dir n) symlink (node_size i n) (mode_string n) (octal4 (perm_of n)) uid gid owner group (nd_mtime n) target.
Definition describeFile (p : string) (symlink : bool) : F fileInfo :=
  let* (i, n) := if symlink then os_lstat Y (at_path p) else os_stat Y (at_path p) in
  let item := info_of i n (base p) p symlink "" in
  if negb symlink then f_ret item else
  let* linked := f_try (os_readlink Y (at_path p)) in
  match linked with
  | Err _ => f_ret item
  | Ok target =>
      let* behind := f_try (os_stat Y (at_path p)) in
      match behind with
      | Ok (j, m) => f_ret (info_of j m (base p) p symlink target)
      | Err _ => f_ret (info_of i n (base p) p symlink target)
      end
  end.

(** [json.Marshal] of descriptions. *)
Definition json_info (f : fileInfo) : fileInfo :=
  mkFileInfo (json_text (fi_Name f)) (json_text (fi_Path f)) (fi_IsDir f) (fi_IsSymlink f) (fi_Size f) (fi_Mode f) (fi_ModeOctal f)
    (fi_UID f) (fi_GID f) (json_text (fi_Owner f)) (json_text (fi_Group f)) (fi_ModifiedAt f) (json_text (fi_Target f)).
Definition marshal (l : list fileInfo) : F (list fileInfo) :=
  if forallb (fun f => encodable (fi_ModifiedAt f)) l then f_ret (map json_info l) else f_err Unmarshalable.

(** Directories first, then by name without its case; stable. *)
Definition listed_before (a b : fileInfo) : bool :=
  if negb (Bool.eqb (fi_IsDir a) (fi_IsDir b)) then fi_IsDir a
  else String.ltb (to_lower (fi_Name a)) (to_lower (fi_Name b)).
Fixpoint insert_info (x : fileInfo) (l : list fileInfo) : list fileInfo :=
  match l with
  | [] => [x]
  | y :: r => if listed_before y x then y :: insert_info x r else x :: l
  end.
Definition sort_infos (l : list fileInfo) : list fileInfo := fold_right insert_info [] l.

Fixpoint describe_all (root : string) (l : list DirEntry) : F (list fileInfo) :=
  match l with
  | [] => f_ret []
  | e :: l =>
      let* r := f_try (describeFile (join_path [root; de_name e]) (is_symlink (snd (de_node e)))) in
      let* rest := describe_all root l in
      f_ret (match r with Ok info => info :: rest | Err _ => rest end)
  end.
Definition listFiles (root : string) : F payload :=
  let root := resolved root in
  let* entries := os_readdir Y (at_path root) in
  let* files := describe_all root entries in
  let* l := marshal (sort_infos files) in f_ret (PFiles l).
Definition listFilesystemRoots : F payload :=
  let* info := describeFile "/" false in
  let* l := marshal [mkFileInfo "/" "/" (fi_IsDir info) (fi_IsSymlink info) (fi_Size info) (fi_Mode info) (fi_ModeOctal info)
    (fi_UID info) (fi_GID info) (fi_Owner info) (fi_Group info) (fi_ModifiedAt info) (fi_Target info)] in f_ret (PFiles l).
Definition isSymlink (p : path) : F bool :=
  let* r := f_try (os_lstat Y p) in f_ret (match r with Ok (_, n) => is_symlink n | Err _ => false end).
Definition statFile (p : string) : F payload :=
  let p := resolved p in
  let* link := isSymlink (at_path p) in
  let* info := describeFile p link in
  let* l := marshal [info] in
  match l with [info] => f_ret (PFile info) | _ => f_err Unmarshalable end.

(** ** Creating, removing, modes and owners *)

Definition replaceableFile (p : path) : F (option (nat * Node)) :=
  let* r := f_try (os_lstat Y p) in
  match r with
  | Err e => if not_exist e then f_ret None else f_err e
  | Ok (i, n) => if is_regular n then f_ret (Some (i, n)) else f_err (Package NonRegularTarget)
  end.
Definition preserveReplacementMetadata (temporary : path) (existing : option (nat * Node)) : F unit :=
  match existing with
  | None => os_chmod Y temporary 420
  | Some (_, n) =>
      let* r := f_try (os_chown Y temporary (nd_uid n) (nd_gid n)) in
      match r with
      | Err _ => f_err (Package OwnershipLost)
      | Ok _ => os_chmod Y temporary (nd_perm n)
      end
  end.
(** The deferred removal runs on every path but the one that ends with the
    rename. *)
Definition unless_done {A} (undo : F unit) (m : F A) : F A := fun s =>
  match m s with (Ok a, s) => (Ok a, s) | (Err e, s) => (Err e, snd (undo s)) end.
Definition syncDirectory (d : path) : F unit := let* _ := os_open Y d in fd_call Y.
Definition parent (p : path) : path := removelast p.
Definition createFileWithMode (p modeValue : string) : F payload :=
  match requestedMode modeValue with
  | Err e => f_err (Package e)
  | Ok mode =>
      let p := resolved p in
      if (p =? "/")%string || (p =? ".")%string then f_err (Package PathRequired) else
      let p := at_path p in
      os_mkdir_all Y (parent p) 493 >>
      let* existing := replaceableFile p in
      let* (temporary, _) := os_create_temp Y (parent p) ".komari-empty-" in
      unless_done (os_remove Y temporary)
        (preserveReplacementMetadata temporary existing >>
         match mode with Some m => os_chmod Y temporary (syscallMode m) | None => f_ret tt end >>
         fd_call Y >>
         os_rename Y temporary p) >>
      syncDirectory (parent p) >> f_ret (PStatus Created)
  end.
Definition mkdir (p modeValue : string) : F payload :=
  let p := resolved p in
  match (if blank modeValue then Ok 493 else parseMode modeValue) with
  | Err e => f_err (Package e)
  | Ok mode => os_mkdir_all Y (at_path p) mode >> f_ret (PStatus Created)
  end.
Definition deletePath (p : string) (recursive : bool) : F payload :=
  let cleaned := resolved p in
  if (cleaned =? "/")%string || (cleaned =? "")%string then f_err (Package RootRefused) else
  let* _ := os_lstat Y (at_path cleaned) in
  (if recursive then remove_all Y fuel (at_path cleaned) else os_remove Y (at_path cleaned)) >>
  f_ret (PStatus Deleted).
Definition chmodPath (p modeValue : string) : F payload :=
  let p := resolved p in
  match parseMode modeValue with
  | Err e => f_err (Package e)
  | Ok mode => os_chmod Y (at_path p) (syscallMode mode) >> f_ret (PStatus (ModeSet (octal4 mode)))
  end.
Definition resolveUnixAccount (value : string) (isUser : bool) : result Z op_err :=
  let value := trim_space value in
  if (value =? "")%string || (value =? "-")%string then Ok (-1) else
  match atoi value with
  | Some parsed => Ok parsed
  | None =>
      match accountField value (if isUser then sy_passwd Y else sy_group Y) 0 2 with
      | Some id => match atoi id with Some parsed => Ok parsed | None => Err (InvalidAccountId isUser) end
      | None => Err (UnknownAccount isUser)
      end
  end.
(** One of the two identifiers: the number, then the name, which wins. *)
Definition requested_id (args : arguments) (number name : string) (isUser : bool) : result Z op_err :=
  let id := match args !! number with Some _ => argInt64 args number | None => -1 end in
  let account := argString args name in
  if (account =? "")%string then Ok id else resolveUnixAccount account isUser.
Definition chownPath (args : arguments) : F payload :=
  let p := resolved (argString args "path") in
  match requested_id args "uid" "owner" true with
  | Err e => f_err e
  | Ok uid =>
      match requested_id args "gid" "group" false with
      | Err e => f_err e
      | Ok gid => os_chown Y (at_path p) uid gid >> f_ret (PStatus (Owned uid gid))
      end
  end.

(** ** Copying *)

(** [copyRegularFile] once the source is open and the directory is there. *)
Definition publish_copy (input : nat) (destination : path) (info : nat * Node) (overwrite : bool) : F unit :=
  let* there := f_try (os_lstat Y destination) in
  match there with
  | Ok (j, existing) =>
      if negb overwrite then f_err (Package DestinationExists)
      else if negb (is_regular existing) then f_err OntoNonRegular
      else if Nat.eqb (fst info) j then f_err SameFileTwice else f_ret tt
  | Err e => if not_exist e then f_ret tt else f_err e
  end >>
  let* (output, fd) := os_create_temp Y (parent destination) ".komari-copy-" in
  f_defer (os_remove Y output)
    (let* data := fd_read Y input in
     fd_write Y fd data >>
     fd_chmod Y fd (perm_of (snd info)) >>
     fd_call Y >>
     fd_call Y >>
     os_chtimes Y output (nd_mtime (snd info)) >>
     if overwrite then os_rename Y output destination else os_link Y output destination).
Definition copyRegularFile (source destination : path) (info : nat * Node) (overwrite : bool) : F unit :=
  if negb (is_regular (snd info)) then f_err NotRegular else
  let* input := os_open Y source in
  os_mkdir_all Y (parent destination) 493 >>
  publish_copy input destination info overwrite.
(** [copySymlink] once the target is known. *)
Definition publish_link (target : string) (destination : path) (overwrite : bool) : F unit :=
  let* there := f_try (os_lstat Y destination) in
  match there with
  | Ok (_, existing) =>
      if negb overwrite then f_err (Package DestinationExists)
      else if is_dir existing then f_err OntoDirectory
      else os_remove Y destination
  | Err e => if not_exist e then f_ret tt else f_err e
  end >>
  os_symlink Y target destination.
Definition copySymlink (source destination : path) (overwrite : bool) : F unit :=
  let* target := os_readlink Y source in
  os_mkdir_all Y (parent destination) 493 >>
  publish_link target destination overwrite.
(** The function [copyDirectory] hands to [filepath.WalkDir]. *)
Definition copy_entry (source destination : path) (overwrite : bool) (p : path) (entry : option DirEntry) (walkErr : option op_err) : F verdict :=
  match walkErr, entry with
  | Some e, _ => f_err e
  | None, None => f_err NotEmptyHanded
  | None, Some entry =>
      let relative := drop (length source) p in
      let target := (destination ++ relative)%list in
      let* info := match relative with [] => f_ret (de_node entry) | _ => os_lstat Y p end in
      if is_symlink (snd (de_node entry)) then copySymlink p target overwrite >> f_ret Go
      else if is_dir (snd (de_node entry)) then
        let* there := f_try (os_lstat Y target) in
        match there with
        | Ok (_, existing) => if is_dir existing then f_ret tt else f_err ThroughNonDirectory
        | Err e => if not_exist e then f_ret tt else f_err e
        end >>
        os_mkdir_all Y target (perm_of (snd info)) >>
        os_chmod Y target (perm_of (snd info)) >>
        os_chtimes Y target (nd_mtime (snd info)) >> f_ret Go
      else copyRegularFile p target info overwrite >> f_ret Go
  end.
Definition copyDirectory (source destination : path) (name : string) (overwrite : bool) : F unit :=
  os_mkdir_all Y (parent destination) 493 >>
  (if overwrite then f_ret tt else os_mkdir Y destination 493) >>
  WalkDir Y (copy_entry source destination overwrite) fuel source name.
Definition copyPath (source destination : string) (recursive overwrite : bool) : F payload :=
  let source := resolved source in
  let destination := resolved destination in
  if samePath source destination then f_err (Package SamePaths) else
  let* info := os_lstat Y (at_path source) in
  if is_dir (snd info) then
    if negb recursive then f_err RecursiveRequired
    else if pathContains source destination then f_err (Package IntoItself)
    else copyDirectory (at_path source) (at_path destination) (base source) overwrite >> f_ret (PStatus Copied)
  else if is_symlink (snd info) then copySymlink (at_path source) (at_path destination) overwrite >> f_ret (PStatus Copied)
  else copyRegularFile (at_path source) (at_path destination) info overwrite >> f_ret (PStatus Copied).

(** ** Moving *)

(** [errors.Is(err, syscall.EXDEV) || errors.Is(err, syscall.Errno(17))]; on
    Linux 17 is [EEXIST]. *)
Definition isCrossDeviceRename (e : op_err) : bool := bool_decide (e = Sys (Refused CrossDevice)) || bool_decide (e = Sys EEXIST).
Definition renameWithoutOverwrite : path -> path -> F unit := sys_rename Y true.
Definition movePath (source destination : string) (overwrite : bool) : F payload :=
  let source := resolved source in
  let destination := resolved destination in
  if samePath source destination then f_ret (PStatus Moved) else
  if pathContains source destination then f_err (Package IntoItself) else
  let from := at_path source in
  let to := at_path destination in
  (if overwrite then f_ret tt else
   let* there := f_try (os_lstat Y to) in
   match there with
   | Ok _ => f_err (Package DestinationExists)
   | Err e => if not_exist e then f_ret tt else f_err e
   end) >>
  os_mkdir_all Y (parent to) 493 >>
  let* renamed := f_try ((if overwrite then os_rename Y else renameWithoutOverwrite) from to) in
  match renamed with
  | Ok _ => f_ret (PStatus Moved)
  | Err e =>
      if negb (isCrossDeviceRename e) then f_err e else
      let* info := os_lstat Y from in
      (if is_symlink (snd info) then copySymlink from to overwrite
       else if is_dir (snd info) then copyDirectory from to (base source) overwrite
       else copyRegularFile from to info overwrite) >>
      remove_all Y fuel from >> f_ret (PStatus Moved)
  end.

(** ** Searching *)

(** The lines of a scanner with a buffer of 1 MiB: it stops at a longer one. *)
Definition max_line : nat := Z.to_nat 1048576.
Fixpoint first_line (query : string) (lines : list (list ascii)) (number : Z) : option (Z * string) :=
  match lines with
  | [] => None
  | raw :: rest =>
      if negb (Nat.ltb (length raw) max_line) then None else
      let text := of_chars (drop_cr raw) in
      if contains (to_lower text) query then Some (number, of_chars (take 300 (chars text)))
      else first_line query rest (number + 1)
  end.
(** A special file is one that cannot be read here. *)
Definition matchFileContent (p : string) (at_p : path) (lowerQuery : string) : F (option searchMatch) :=
  let* r := f_try (os_stat Y at_p) in
  match r with
  | Err _ => f_ret None
  | Ok (i, n) =>
      if is_dir n || (10 * 1024 * 1024 <? node_size i n) then f_ret None else
      let* opened := f_try (os_open Y at_p) in
      match opened with
      | Err _ => f_ret None
      | Ok fd =>
          let* r := f_try (fd_read Y fd) in
          f_ret (match r with
                 | Err _ => None
                 | Ok data => (fun '(line, text) => mkFound p line text false) <$> first_line lowerQuery (scan_go [] (chars data)) 1
                 end)
      end
  end.
Definition add_match (m : searchMatch) : F unit := fun s => (Ok tt, mkSt (st_tree s) (st_call s) (st_found s ++ [m])).
Definition full : F bool := fun s => (Ok (Nat.leb searchResultLimit (length (st_found s))), s).
Definition path_string (root : string) (relative : path) : string :=
  match relative with [] => root | _ => join_path [root; join "/" relative] end.
Definition search_entry (query : string) (includeContent : bool) (root : string) (p : path) (entry : option DirEntry) (walkErr : option op_err) : F verdict :=
  let* enough := full in
  if (enough : bool) then f_ret SkipAll else
  let relative := drop (length (at_path root)) p in
  match walkErr, entry with
  | Some e, _ =>
      match relative with
      | [] => f_err e
      | _ => f_ret (match entry with Some d => if is_dir (snd (de_node d)) then SkipDir else Go | None => Go end)
      end
  | None, None => f_ret Go
  | None, Some d =>
      let nameMatch := contains (to_lower (de_name d)) (to_lower query) in
      if nameMatch && negb includeContent then add_match (mkFound (path_string root relative) 0 "" (is_dir (snd (de_node d)))) >> f_ret Go
      else if includeContent && negb (is_dir (snd (de_node d))) && negb (is_symlink (snd (de_node d))) then
        let* m := matchFileContent (path_string root relative) p (to_lower query) in
        match m with Some m => add_match m >> f_ret Go | None => f_ret Go end
      else f_ret Go
  end.
Definition searchFiles (args : arguments) : F payload :=
  let query := argString args "query" in
  if (query =? "")%string then f_err QueryRequired else
  let root := resolved (argString args "path") in
  (fun s => (Ok tt, mkSt (st_tree s) (st_call s) [])) >>
  WalkDir Y (search_entry query (argBool args "content") root) fuel (at_path root) (base root) >>
  fun s => (Ok (PMatches (map (fun m => mkFound (json_text (fo_Path m)) (fo_Line m) (json_text (fo_Text m)) (fo_IsDir m)) (st_found s))
    (Nat.leb searchResultLimit (length (st_found s)))), s).

(** ** The event *)

(** The operations on streams are [Uploads] and [Downloads]. *)
Variable streams : string -> arguments -> option (F payload).
Definition execute (operation : string) (args : arguments) : F payload :=
  if (operation =? "list")%string then listFiles (argString args "path")
  else if (operation =? "list_roots")%string then listFilesystemRoots
  else if (operation =? "stat")%string then statFile (argString args "path")
  else if (operation =? "create")%string then createFileWithMode (argString args "path") (argString args "mode")
  else if (operation =? "mkdir")%string then mkdir (argString args "path") (argString args "mode")
  else if (operation =? "delete")%string then deletePath (argString args "path") (argBool args "recursive")
  else if (operation =? "move")%string then movePath (argString args "source") (argString args "destination") (argBool args "overwrite")
  else if (operation =? "copy")%string then
    copyPath (argString args "source") (argString args "destination") (argBool args "recursive") (argBool args "overwrite")
  else if (operation =? "chmod")%string then chmodPath (argString args "path") (argString args "mode")
  else if (operation =? "chown")%string then chownPath args
  else if (operation =? "search")%string then searchFiles args
  else default (f_err UnsupportedOperation) (streams operation args).

Definition needsStatAfter (operation : string) : bool :=
  bool_decide (operation ∈ ["create"; "mkdir"; "move"; "copy"; "chmod"; "chown"]).
Definition eventPath (operation : string) (args : arguments) : string :=
  if (operation =? "move")%string || (operation =? "copy")%string then argString args "destination"
  else if (operation =? "list_roots")%string then "" else argString args "path".
Definition wrap32 (z : Z) : Z := (z + 2 ^ 31) mod 2 ^ 32 - 2 ^ 31.
Definition fileEntry (f : fileInfo) : FileEntry :=
  mkFileEntry (fi_Name f) (fi_Path f) (fi_IsDir f) (fi_IsSymlink f) (fi_Mode f) (fi_ModeOctal f) (wrap32 (fi_UID f)) (wrap32 (fi_GID f))
    (fi_Owner f) (fi_Group f) (fi_Target f) (if 0 <? fi_Size f then fi_Size f else 0)
    (if is_zero (fi_ModifiedAt f) then None else Some (fi_ModifiedAt f)).
Definition decodeEntries (p : payload) : list FileEntry :=
  match p with
  | PFiles l => map fileEntry l
  | PFile f => if (fi_Path f =? "")%string then [] else [fileEntry f]
  | PStatus _ | PMatches _ _ => []
  end.
Definition found_match (m : searchMatch) : SearchMatch := mkMatch (fo_Path m) (wrapu32 (Z.max (fo_Line m) 0)) (fo_Text m) (fo_IsDir m).
Variable error_text : op_err -> string.
Variable unsupported_text : FileOperation -> string.
Definition Execute (operation : FileOperation) (args : arguments) : St -> FileEvent * St := fun s =>
  let name := effective_name operation args in
  if (name =? "")%string then (failure operation (unsupported_text operation), s) else
  match execute name args s with
  | (Err e, s) => (failure operation (error_text e), s)
  | (Ok answer, s) =>
      let p := eventPath name args in
      if (name =? "search")%string then
        (match answer with
         | PMatches l limited => mkFileEvent "" operation true "" p [] (map found_match l) limited
         | _ => mkFileEvent "" operation true "" p [] [] false
         end, s)
      else
        let entries := decodeEntries answer in
        let '(entries, s) :=
          match entries with
          | [] => if needsStatAfter name then
                    match statFile p s with (Ok stat, s) => (decodeEntries stat, s) | (Err _, s) => (entries, s) end
                  else (entries, s)
          | _ => (entries, s)
          end in
        (mkFileEvent "" operation true "" p entries [] false, s)
  end.
End Operations.
