(* ===== verification/FileCopy.v ===== *)
(** * What copying does to the tree ([files/ops.go])

    [copyPath] without leave to overwrite, in any outcome and however the system
    refuses its calls, only adds: no file, link or mode that existed is another
    afterwards. A copied directory that succeeded is a copy, entry by entry. *)

From stdpp Require Import sorting.
From S2P Require Import Prelude.
From S2P Require Import GoStd.
From S2P Require Import GoPath.
From S2P Require Import Inodes.
From S2P Require Import Files.
From S2P Require Import FileTree.
From S2P Require Import FileOps.

Local Open Scope string_scope.
Local Open Scope Z_scope.

(** ** Well-formed trees *)

(** Inodes are below the counter, and the entries of a directory are inodes with
    ordinary names. *)
Record tree_ok (t : Tree) : Prop := {
  to_bound : forall i n, tr_nodes t !! i = Some n -> (i < tr_next t)%nat;
  to_entry : forall d es c i, entries_of t d = Some es -> es !! c = Some i -> is_Some (tr_nodes t !! i) /\ special_name c = false;
  to_root : is_Some (entries_of t 0) }.

Lemma entries_of_node t i es : entries_of t i = Some es -> exists n, tr_nodes t !! i = Some n /\ nd_body n = Directory es.
Proof. unfold entries_of. destruct (tr_nodes t !! i) as [n|]; cbn; [|done]. destruct (nd_body n) eqn:E; try done. intros [= ->]. eauto. Qed.
Lemma entries_of_bound t i es : tree_ok t -> entries_of t i = Some es -> (i < tr_next t)%nat.
Proof. intros Ht (n & Hn & _)%entries_of_node. by eapply to_bound. Qed.
Lemma link_of_none t i es : entries_of t i = Some es -> link_of t i = None.
Proof. intros (n & Hn & Hb)%entries_of_node. unfold link_of. rewrite Hn. cbn. by rewrite Hb. Qed.

(** ** Walking *)

Lemma walk_cons t f l cur up c rest :
  walk t f l cur up (c :: rest) =
  match entries_of t cur with
  | None => Err ENOTDIR
  | Some es =>
      if (c =? "")%string || (c =? ".")%string then walk t f l cur up rest
      else if (c =? "..")%string then match up with [] => walk t f l cur [] rest | u :: up => walk t f l u up rest end
      else match es !! c with
           | None => Err ENOENT
           | Some i =>
               match link_of t i with
               | Some target =>
                   if f || negb (bool_decide (rest = [])) then
                     match l with
                     | O => Err ELOOP
                     | S l => if is_abs target then walk t f l 0%nat [] (split_on sep target ++ rest)%list
                              else walk t f l cur up (split_on sep target ++ rest)%list
                     end
                   else walk t f l i (cur :: up) rest
               | None => walk t f l i (cur :: up) rest
               end
           end
  end.
Proof. by destruct l. Qed.
Lemma walk_nil t f l cur up : walk t f l cur up [] = Ok (cur, up).
Proof. by destruct l. Qed.

(** A walk that follows its last link can be continued. *)
Lemma walk_app t f l p : forall cur up d ups q, q <> [] -> walk t true l cur up p = Ok (d, ups) ->
  exists l', walk t f l cur up (p ++ q)%list = walk t f l' d ups q.
Proof.
  induction l as [|l IHl] in p |- *; induction p as [|c p IHp]; intros cur up d ups q Hq; rewrite ?walk_nil; try (intros [= <- <-]; by eexists);
    cbn [app]; rewrite !walk_cons; (destruct (entries_of t cur) as [es|]; [|done]);
    (destruct ((c =? "") || (c =? "."))%string; [by apply IHp|]);
    (destruct (c =? "..")%string; [destruct up; by apply IHp|]);
    (destruct (es !! c) as [i|]; [|done]); (destruct (link_of t i) as [target|]; [|by apply IHp]); cbn [orb]; [done|].
  rewrite (bool_decide_eq_false_2 (p ++ q = [])%list) by (by intros [_ ->]%app_eq_nil). rewrite orb_true_r.
  destruct (is_abs target); rewrite app_assoc; by apply IHl.
Qed.
Lemma walk_app_inv t l p q : forall cur up r, walk t true l cur up (p ++ q)%list = Ok r ->
  exists l' d ups, walk t true l cur up p = Ok (d, ups) /\ walk t true l' d ups q = Ok r.
Proof.
  induction l as [|l IHl] in p |- *; induction p as [|c p IHp]; intros cur up r; rewrite ?walk_nil; cbn [app]; try (intros H; by repeat eexists);
    rewrite !walk_cons; (destruct (entries_of t cur) as [es|]; [|done]);
    (destruct ((c =? "") || (c =? "."))%string; [by apply IHp|]);
    (destruct (c =? "..")%string; [destruct up; by apply IHp|]);
    (destruct (es !! c) as [i|]; [|done]); (destruct (link_of t i) as [target|]; [|by apply IHp]); cbn [orb]; [done|].
  destruct (is_abs target); rewrite app_assoc; by apply IHl.
Qed.
(** Not following the last link changes nothing when it is none. *)
Lemma walk_nofollow t l p : forall cur up i ups, walk t false l cur up p = Ok (i, ups) -> link_of t i = None ->
  walk t true l cur up p = Ok (i, ups).
Proof.
  induction l as [|l IHl] in p |- *; induction p as [|c p IHp]; intros cur up i ups; rewrite ?walk_nil; try done;
    rewrite !walk_cons; (destruct (entries_of t cur) as [es|]; [|done]);
    (destruct ((c =? "") || (c =? "."))%string; [by apply IHp|]);
    (destruct (c =? "..")%string; [destruct up; by apply IHp|]);
    (destruct (es !! c) as [k|]; [|done]); (destruct (link_of t k) as [target|] eqn:El; [|by apply IHp]);
    cbn [orb]; (destruct (decide (p = [])) as [->|Hp]; [rewrite bool_decide_eq_true_2 by done; cbn [negb]; rewrite walk_nil; intros [= -> _]; congruence|]);
    rewrite (bool_decide_eq_false_2 (p = [])) by done; cbn [negb]; [done|].
  destruct (is_abs target); by apply IHl.
Qed.

(** ** Growth *)

(** Entries are added, and links and their targets stay. *)
Record extends (t t' : Tree) : Prop := {
  ex_dir : forall i es, entries_of t i = Some es -> exists es', entries_of t' i = Some es' /\ es ⊆ es';
  ex_link : forall i, is_Some (tr_nodes t !! i) -> link_of t' i = link_of t i }.
Lemma walk_extends t t' f l p : tree_ok t -> extends t t' ->
  forall cur up r, walk t f l cur up p = Ok r -> walk t' f l cur up p = Ok r.
Proof.
  intros Ht Hx. induction l as [|l IHl] in p |- *; induction p as [|c p IHp]; intros cur up r; rewrite ?walk_nil; try done;
    rewrite !walk_cons; (destruct (entries_of t cur) as [es|] eqn:Ee; [|done]); destruct (ex_dir _ _ Hx _ _ Ee) as (es' & -> & Hes);
    (destruct ((c =? "") || (c =? "."))%string; [by apply IHp|]);
    (destruct (c =? "..")%string; [destruct up; by apply IHp|]);
    (destruct (es !! c) as [i|] eqn:Ec; [|done]); rewrite (lookup_weaken _ _ _ _ Ec Hes);
    rewrite (ex_link _ _ Hx i) by (by eapply to_entry); (destruct (link_of t i) as [target|]; [|by apply IHp]);
    (destruct (f || _); [|by apply IHp]); [done|].
  destruct (is_abs target); by apply IHl.
Qed.

(** [node_le a b]: [b] is [a], or the same directory with more in it. *)
Definition node_le (a b : Node) : Prop :=
  a = b \/ exists es es', nd_body a = Directory es /\ nd_body b = Directory es' /\ es ⊆ es' /\
    nd_perm b = nd_perm a /\ nd_uid b = nd_uid a /\ nd_gid b = nd_gid a.
Definition only_adds (t t' : Tree) : Prop :=
  (tr_next t <= tr_next t')%nat /\ forall i a, tr_nodes t !! i = Some a -> exists b, tr_nodes t' !! i = Some b /\ node_le a b.
#[export] Instance node_le_preorder : PreOrder node_le.
Proof.
  split; [by left|]. intros a b c [->|(es & es' & Ha & Hb & Hs & H1 & H2 & H3)]; [done|].
  intros [<-|(fs & fs' & Hb' & Hc & Hs' & H4 & H5 & H6)]; right; [by exists es, es'|].
  rewrite Hb in Hb'. injection Hb' as <-. exists es, fs'. split_and!; [done|done|by etrans|congruence..].
Qed.
#[export] Instance only_adds_preorder : PreOrder only_adds.
Proof.
  split; [split; [done|]; intros i a Ha; by exists a|]. intros t u v [H1 G1] [H2 G2]. split; [lia|]. intros i a Ha.
  destruct (G1 _ _ Ha) as (b & Hb & Hab). destruct (G2 _ _ Hb) as (c & Hc & Hbc). exists c. split; [done|]. by etrans.
Qed.
Lemma only_adds_extends t t' : only_adds t t' -> extends t t'.
Proof.
  intros [_ H]. split.
  - intros i es (n & Hn & Hb)%entries_of_node. destruct (H _ _ Hn) as (m & Hm & [->|(fs & fs' & Hf & Hf' & Hs & _)]).
    + exists es. unfold entries_of. rewrite Hm. cbn. by rewrite Hb.
    + rewrite Hb in Hf. injection Hf as <-. exists fs'. unfold entries_of. rewrite Hm. cbn. by rewrite Hf'.
  - intros i [n Hn]. destruct (H _ _ Hn) as (m & Hm & [->|(fs & fs' & Hf & Hf' & _)]); unfold link_of; rewrite Hm, Hn; [done|].
    cbn. by rewrite Hf, Hf'.
Qed.

(** ** Weakest preconditions over trees *)

Definition wp {A} (m : F A) (Q : result A op_err -> Tree -> Prop) (t : Tree) : Prop :=
  forall s, st_tree s = t -> Q (fst (m s)) (st_tree (snd (m s))).
Lemma wp_ret {A} (a : A) (Q : result A op_err -> Tree -> Prop) t : Q (Ok a) t -> wp (f_ret a) Q t.
Proof. by intros HQ s <-. Qed.
Lemma wp_err {A} e (Q : result A op_err -> Tree -> Prop) t : Q (Err e) t -> wp (f_err e) Q t.
Proof. by intros HQ s <-. Qed.
Lemma wp_bind {A B} (m : F A) (k : A -> F B) (Q : result B op_err -> Tree -> Prop) t :
  wp m (fun r t' => match r with Ok a => wp (k a) Q t' | Err e => Q (Err e) t' end) t -> wp (f_bind m k) Q t.
Proof.
  intros H s Hs. specialize (H s Hs). unfold f_bind. destruct (m s) as [[a|e] s1]; cbn in *; [by apply H|done].
Qed.
Lemma wp_try {A} (m : F A) (Q : result (result A op_err) op_err -> Tree -> Prop) t : wp m (fun r => Q (Ok r)) t -> wp (f_try m) Q t.
Proof. intros H s Hs. specialize (H s Hs). unfold f_try. by destruct (m s). Qed.
Lemma wp_defer {A} last (m : F A) (Q : result A op_err -> Tree -> Prop) t :
  wp m (fun r t' => wp last (fun _ => Q r) t') t -> wp (f_defer last m) Q t.
Proof. intros H s Hs. specialize (H s Hs). unfold f_defer. destruct (m s) as [r s1]; cbn in *. by apply H. Qed.
Lemma wp_conseq {A} (m : F A) (Q Q' : result A op_err -> Tree -> Prop) t : wp m Q t -> (forall r t', Q r t' -> Q' r t') -> wp m Q' t.
Proof. intros H HQ s Hs. apply HQ, H, Hs. Qed.
Lemma wp_run {A} (m : F A) (Q : result A op_err -> Tree -> Prop) s r s' : wp m Q (st_tree s) -> m s = (r, s') -> Q r (st_tree s').
Proof. intros H Hm. specialize (H s eq_refl). by rewrite Hm in H. Qed.

Section Copy.
Variable Y : System.
Variable fuel : nat.

Lemma wp_sys {A} (f : nat -> Tree -> result (A * Tree) errno) (Q : result A op_err -> Tree -> Prop) t :
  (forall r, Q (Err (Sys (Refused r))) t) ->
  (forall n, match f n t with Ok (a, t') => Q (Ok a) t' | Err e => Q (Err (Sys e)) t end) -> wp (sys Y f) Q t.
Proof.
  intros Hr Hf s Hs. unfold sys. destruct (sy_refuse Y (st_call s)); [by rewrite Hs; apply Hr|].
  rewrite Hs. specialize (Hf (st_call s)). by destruct (f (st_call s) t) as [[a t']|e].
Qed.
Lemma wp_read {A} (f : Tree -> result A errno) (Q : result A op_err -> Tree -> Prop) t :
  (forall r, Q (Err (Sys (Refused r))) t) -> match f t with Ok a => Q (Ok a) t | Err e => Q (Err (Sys e)) t end -> wp (sys_read Y f) Q t.
Proof. intros Hr Hf. apply wp_sys; [done|]. intros _. by destruct (f t). Qed.
(** A call that only looks. *)
Lemma wp_look {A} (f : Tree -> result A errno) (Q : result A op_err -> Tree -> Prop) t : (forall r, Q r t) -> wp (sys_read Y f) Q t.
Proof. intros HQ. apply wp_read; [done|]. by destruct (f t). Qed.

(** ** Local changes *)

Definition plain_file (t : Tree) (i : nat) : Prop := exists n, tr_nodes t !! i = Some n /\ is_regular n = true.
Definition same_meta (a b : Node) : Prop := nd_perm b = nd_perm a /\ nd_uid b = nd_uid a /\ nd_gid b = nd_gid a.
(** All that may differ is the directory [d], which may have a new entry [nm], and
    new files (temporary ones that could not be removed), besides new inodes. *)
Record local (d : nat) (nm : string) (t t' : Tree) : Prop := {
  lo_next : (tr_next t <= tr_next t')%nat;
  lo_ok : tree_ok t';
  lo_same : forall i, (i < tr_next t)%nat -> i <> d -> tr_nodes t' !! i = tr_nodes t !! i;
  lo_dir : exists a b es es', tr_nodes t !! d = Some a /\ tr_nodes t' !! d = Some b /\ nd_body a = Directory es /\ nd_body b = Directory es' /\
    same_meta a b /\ es ⊆ es' /\
    forall k i, es' !! k = Some i -> es !! k = Some i \/ ((tr_next t <= i)%nat /\ (k = nm \/ plain_file t' i)) }.

Lemma local_refl d nm t es : tree_ok t -> entries_of t d = Some es -> local d nm t t.
Proof.
  intros Ht (n & Hn & Hb)%entries_of_node. split; [done|done|done|].
  exists n, n, es, es. split_and!; try done. by left.
Qed.
Lemma plain_file_bound t i : tree_ok t -> plain_file t i -> (i < tr_next t)%nat.
Proof. intros Ht (n & Hn & _). by eapply to_bound. Qed.
Lemma local_trans d nm t u v : tree_ok t -> local d nm t u -> local d nm u v -> local d nm t v.
Proof.
  intros Ht H1 H2. pose proof (lo_next _ _ _ _ H1). pose proof (lo_next _ _ _ _ H2). split; [lia|apply (lo_ok _ _ _ _ H2)| |].
  - intros i Hi Hd. rewrite (lo_same _ _ _ _ H2), (lo_same _ _ _ _ H1); [done|done|done|lia|done].
  - destruct (lo_dir _ _ _ _ H1) as (a & b & es & es' & Ha & Hb & Ba & Bb & (M1 & M2 & M3) & Hs & He).
    destruct (lo_dir _ _ _ _ H2) as (b' & c & fs & fs' & Hb' & Hc & Bb' & Bc & (N1 & N2 & N3) & Hs' & He').
    rewrite Hb in Hb'. injection Hb' as <-. rewrite Bb in Bb'. injection Bb' as <-.
    exists a, c, es, fs'. split_and!; try done; [split_and!; congruence|by etrans|].
    intros k i [Hk|(Hi & Hk)]%He'; [|right; split; [lia|done]].
    destruct (He _ _ Hk) as [?|(Hi & [->|(n & Hn & Hr)])]; [by left|by right; split; [|left]|right; split; [done|right]].
    exists n. split; [|done]. rewrite (lo_same _ _ _ _ H2); [done| |].
    + eapply to_bound; [apply (lo_ok _ _ _ _ H1)|done].
    + intros ->. rewrite Hb in Hn. injection Hn as ->. unfold is_regular in Hr. by rewrite Bb in Hr.
Qed.
Lemma local_adds d nm t t' : tree_ok t -> local d nm t t' -> only_adds t t'.
Proof.
  intros Ht H. split; [apply (lo_next _ _ _ _ H)|]. intros i a Ha.
  destruct (lo_dir _ _ _ _ H) as (a' & b & es & es' & Ha' & Hb & Ba & Bb & (M1 & M2 & M3) & Hs & _).
  destruct (decide (i = d)) as [->|Hd].
  - rewrite Ha in Ha'. injection Ha' as <-. exists b. split; [done|]. right. by exists es, es'.
  - exists a. split; [|done]. rewrite (lo_same _ _ _ _ H); [done|by eapply to_bound|done].
Qed.

(** The steps local changes are made of. *)
Definition tame (f : Node -> Node) (n : Node) : Prop :=
  match nd_body n with Regular _ => is_regular (f n) = true | b => nd_body (f n) = b end.
Lemma tame_perm p n : tame (with_perm p) n.
Proof. unfold tame, is_regular. by destruct n as [[]]. Qed.
Lemma tame_mtime m n : tame (with_mtime m) n.
Proof. unfold tame, is_regular. by destruct n as [[]]. Qed.
Definition tame_at (f : Node -> Node) (i : nat) (t : Tree) : Prop := forall n, tr_nodes t !! i = Some n -> tame f n.
Lemma tame_entries f i t : tame_at f i t -> forall k, entries_of (update_node f i t) k = entries_of t k.
Proof.
  intros Hf k. unfold entries_of, update_node. cbn. destruct (decide (k = i)) as [->|Hk]; [|by rewrite lookup_alter_ne].
  rewrite lookup_alter_eq. destruct (tr_nodes t !! i) as [n|] eqn:Hn; [|done]. cbn. specialize (Hf n Hn). unfold tame, is_regular in Hf.
  destruct (nd_body n); [|by rewrite Hf..]. by destruct (nd_body (f n)).
Qed.
Lemma update_is_some f i t k : is_Some (tr_nodes (update_node f i t) !! k) <-> is_Some (tr_nodes t !! k).
Proof. unfold update_node. cbn. apply lookup_alter_is_Some. Qed.
Lemma tame_ok f i t : tame_at f i t -> tree_ok t -> tree_ok (update_node f i t).
Proof.
  intros Hf Ht. split.
  - intros k n Hn. assert (is_Some (tr_nodes t !! k)) as [m Hm] by (apply (update_is_some f i); by eexists). exact (to_bound _ Ht _ _ Hm).
  - intros d es c k. rewrite tame_entries by done. intros He Hc. destruct (to_entry _ Ht _ _ _ _ He Hc) as [H1 H2].
    split; [by apply update_is_some|done].
  - rewrite tame_entries by done. apply (to_root _ Ht).
Qed.
Lemma local_update d nm t u f i : local d nm t u -> tame_at f i u -> (tr_next t <= i)%nat -> d <> i -> local d nm t (update_node f i u).
Proof.
  intros H Hf Hi Hd. split; [apply (lo_next _ _ _ _ H)|by apply tame_ok; [|apply (lo_ok _ _ _ _ H)]| |].
  - intros k Hk Hkd. unfold update_node. cbn. rewrite lookup_alter_ne by lia. by apply (lo_same _ _ _ _ H).
  - destruct (lo_dir _ _ _ _ H) as (a & b & es & es' & Ha & Hb & Ba & Bb & M & Hs & He).
    exists a, b, es, es'. split_and!; try done; [unfold update_node; cbn; by rewrite lookup_alter_ne|].
    intros k j Hk. destruct (He _ _ Hk) as [?|(Hj & [->|(n & Hn & Hr)])]; [by left|by right; split; [|left]|right; split; [done|right]].
    unfold plain_file, update_node. cbn. destruct (decide (j = i)) as [->|Hji]; [|rewrite lookup_alter_ne by done; eauto].
    rewrite lookup_alter_eq, Hn. exists (f n). split; [done|]. specialize (Hf n Hn). unfold tame, is_regular in Hr, Hf. by destruct (nd_body n).
Qed.
Definition empty_node (n : Node) : Prop := match nd_body n with Directory es => es = ∅ | _ => True end.
Definition alloc (n : Node) (t : Tree) : Tree := mkTree (<[tr_next t := n]> (tr_nodes t)) (S (tr_next t)).
Lemma alloc_old n t i : (i < tr_next t)%nat -> tr_nodes (alloc n t) !! i = tr_nodes t !! i.
Proof. intros Hi. cbn. by rewrite lookup_insert_ne by lia. Qed.
Lemma alloc_entries n t i : (i < tr_next t)%nat -> entries_of (alloc n t) i = entries_of t i.
Proof. intros Hi. unfold entries_of. by rewrite alloc_old. Qed.
Lemma alloc_ok n t : tree_ok t -> empty_node n -> tree_ok (alloc n t).
Proof.
  intros Ht Hn. split.
  - intros i m. cbn. destruct (decide (i = tr_next t)) as [->|Hi]; [lia|]. rewrite lookup_insert_ne by done. intros Hm.
    pose proof (to_bound _ Ht _ _ Hm). lia.
  - intros d es c i He Hc. destruct (decide (d = tr_next t)) as [->|Hd].
    + unfold entries_of, alloc in He. cbn in He. rewrite lookup_insert_eq in He. cbn in He. unfold empty_node in Hn.
      destruct (nd_body n); try done. injection He as <-. by rewrite Hn, lookup_empty in Hc.
    + assert (He' : entries_of t d = Some es) by (unfold entries_of, alloc in He; cbn in He; by rewrite lookup_insert_ne in He by done).
      destruct (to_entry _ Ht _ _ _ _ He' Hc) as [[m Hm] Hs]. split; [|done]. exists m. rewrite alloc_old; [done|]. by eapply to_bound.
  - destruct (to_root _ Ht) as [es He]. exists es. rewrite alloc_entries; [done|]. by eapply entries_of_bound.
Qed.
Lemma local_alloc d nm t u n : local d nm t u -> empty_node n -> local d nm t (alloc n u).
Proof.
  intros H Hn. pose proof (lo_ok _ _ _ _ H) as Hu. pose proof (lo_next _ _ _ _ H). split; [cbn; lia|by apply alloc_ok| |].
  - intros i Hi Hd. rewrite alloc_old by lia. by apply (lo_same _ _ _ _ H).
  - destruct (lo_dir _ _ _ _ H) as (a & b & es & es' & Ha & Hb & Ba & Bb & M & Hs & He).
    exists a, b, es, es'. rewrite alloc_old by (by eapply to_bound). split_and!; try done.
    intros k i [?|(Hi & [->|(m & Hm & Hr)])]%He; [by left|by right; split; [|left]|right; split; [done|right]].
    exists m. rewrite alloc_old by (by eapply to_bound). done.
Qed.

(** New entries for the directory of a local change. *)
Lemma entries_set d es now t k : is_Some (tr_nodes t !! d) ->
  entries_of (set_entries d es now t) k = if decide (k = d) then Some es else entries_of t k.
Proof.
  intros [n Hn]. unfold entries_of, set_entries, update_node. cbn. destruct (decide (k = d)) as [->|Hk]; [|by rewrite lookup_alter_ne].
  by rewrite lookup_alter_eq, Hn.
Qed.
Lemma set_entries_other d es now t k : k <> d -> tr_nodes (set_entries d es now t) !! k = tr_nodes t !! k.
Proof. intros Hk. unfold set_entries, update_node. cbn. by rewrite lookup_alter_ne. Qed.
Lemma set_entries_some d es now t k : is_Some (tr_nodes (set_entries d es now t) !! k) <-> is_Some (tr_nodes t !! k).
Proof. apply update_is_some. Qed.
Lemma set_entries_ok d es now t : tree_ok t -> is_Some (entries_of t d) ->
  (forall c i, es !! c = Some i -> is_Some (tr_nodes t !! i) /\ special_name c = false) -> tree_ok (set_entries d es now t).
Proof.
  intros Ht [es0 He0] Hes. assert (Hd : is_Some (tr_nodes t !! d)) by (apply entries_of_node in He0 as (n & Hn & _); by exists n). split.
  - intros k n Hn. assert (is_Some (tr_nodes t !! k)) as [m Hm] by (apply (set_entries_some d es now); by eexists). exact (to_bound _ Ht _ _ Hm).
  - intros k es' c i. rewrite entries_set by done. rewrite set_entries_some. destruct (decide (k = d)); [intros [= <-]; apply Hes|].
    intros. by eapply to_entry.
  - rewrite entries_set by done. destruct (decide _); [done|]. apply (to_root _ Ht).
Qed.
Lemma local_entries d nm t u es es1 es2 now : local d nm t u -> entries_of t d = Some es -> entries_of u d = Some es1 -> es ⊆ es2 ->
  (forall k i, es2 !! k = Some i -> es1 !! k = Some i \/
     ((tr_next t <= i)%nat /\ (k = nm \/ plain_file u i) /\ is_Some (tr_nodes u !! i) /\ special_name k = false)) ->
  local d nm t (set_entries d es2 now u).
Proof.
  intros H He He1 Hs Hn. pose proof (lo_ok _ _ _ _ H) as Hu.
  split; [apply (lo_next _ _ _ _ H)| | |].
  - apply set_entries_ok; [done|by eexists|]. intros c i [Hc|(_ & _ & ? & ?)]%Hn; [by eapply to_entry|done].
  - intros i Hi Hd. rewrite set_entries_other by done. by apply (lo_same _ _ _ _ H).
  - destruct (lo_dir _ _ _ _ H) as (a & b & es' & es1' & Ha & Hb & Ba & Bb & M & _ & Hold).
    assert (es' = es) as -> by (unfold entries_of in He; rewrite Ha in He; cbn in He; rewrite Ba in He; congruence).
    assert (es1' = es1) as -> by (unfold entries_of in He1; rewrite Hb in He1; cbn in He1; rewrite Bb in He1; congruence).
    exists a, (with_mtime now (with_body (Directory es2) b)), es, es2. split_and!; try done.
    { unfold set_entries, update_node. cbn. by rewrite lookup_alter_eq, Hb. }
    assert (Hp : forall i, plain_file u i -> plain_file (set_entries d es2 now u) i).
    { intros i (n & Hi & Hr). exists n. rewrite set_entries_other; [done|]. intros ->. rewrite Hb in Hi. injection Hi as ->. unfold is_regular in Hr. by rewrite Bb in Hr. }
    intros k i [Hk|(Hi & Hk & _)]%Hn; [|right; split; [done|]; destruct Hk; [by left|right; by apply Hp]].
    apply Hold in Hk as [?|(? & Hk)]; [by left|right; split; [done|]]. destruct Hk; [by left|right; by apply Hp].
Qed.
Lemma local_attach d nm t u es es1 c n now : local d nm t u -> entries_of t d = Some es -> entries_of u d = Some es1 ->
  es1 !! c = None -> special_name c = false -> empty_node n -> c = nm \/ is_regular n = true -> local d nm t (attach d es1 c n now u).
Proof.
  intros H He He1 Hc Hsp Hn Hk. pose proof (lo_ok _ _ _ _ H) as Hu. pose proof (lo_next _ _ _ _ H).
  assert (Hb : (d < tr_next u)%nat) by (by eapply entries_of_bound).
  assert (Hs : es ⊆ es1).
  { destruct (lo_dir _ _ _ _ H) as (a & b & fs & fs1 & Ha & Hb' & Ba & Bb & _ & Hs & _).
    unfold entries_of in He, He1. rewrite Ha in He. rewrite Hb' in He1. cbn in He, He1. rewrite Ba in He. rewrite Bb in He1. by simplify_eq. }
  change (attach d es1 c n now u) with (set_entries d (<[c := tr_next u]> es1) now (alloc n u)).
  apply local_entries with es es1; [by apply local_alloc|done|by rewrite alloc_entries|apply insert_subseteq_r; [by eapply lookup_weaken_None|done]|].
  intros k i. destruct (decide (k = c)) as [->|Hkc]; [|rewrite lookup_insert_ne by done; by left].
  rewrite lookup_insert_eq. intros [= <-]. right. split; [lia|]. split; [|split; [|done]].
  - destruct Hk as [->|Hr]; [by left|right]. exists n. split; [|done]. cbn. by rewrite lookup_insert_eq.
  - exists n. cbn. by rewrite lookup_insert_eq.
Qed.

(** ** Paths below a known directory *)

Lemma special_split c : special_name c = false -> ((c =? "") || (c =? "."))%string = false /\ (c =? "..")%string = false.
Proof. unfold special_name. intros H. by apply orb_false_iff in H. Qed.
Lemma place_snoc t q c d up es : special_name c = false -> resolve t true q = Ok (d, up) -> entries_of t d = Some es ->
  place t (q ++ [c])%list = Ok (d, up, es, c).
Proof. intros Hc Hq He. unfold place. rewrite rev_app_distr. cbn [rev app]. by rewrite Hc, rev_involutive, Hq, He. Qed.
Lemma resolve_app t f q c d up : resolve t true q = Ok (d, up) -> exists l', resolve t f (q ++ [c])%list = walk t f l' d up [c].
Proof. exact (walk_app t f max_links q 0%nat [] d up [c] ltac:(discriminate)). Qed.
Lemma resolve_extends t u f q r : tree_ok t -> extends t u -> resolve t f q = Ok r -> resolve u f q = Ok r.
Proof. exact (fun H1 H2 => walk_extends t u f max_links q H1 H2 0%nat [] r). Qed.
Lemma resolve_app_inv t q c r : resolve t true (q ++ [c])%list = Ok r ->
  exists l' d up, resolve t true q = Ok (d, up) /\ walk t true l' d up [c] = Ok r.
Proof. exact (walk_app_inv t max_links q [c] 0%nat [] r). Qed.
Lemma resolve_nofollow t q i up : resolve t false q = Ok (i, up) -> link_of t i = None -> resolve t true q = Ok (i, up).
Proof. exact (walk_nofollow t max_links q 0%nat [] i up). Qed.
#[local] Opaque resolve.
Lemma resolve_snoc t f q c d up es i : special_name c = false -> resolve t true q = Ok (d, up) -> entries_of t d = Some es ->
  es !! c = Some i -> f = false \/ link_of t i = None -> resolve t f (q ++ [c])%list = Ok (i, d :: up).
Proof.
  intros Hc Hq He Hi Hf. destruct (resolve_app t f q c d up Hq) as [l' ->].
  rewrite walk_cons, He. destruct (special_split _ Hc) as [-> ->]. rewrite Hi.
  destruct Hf as [-> | ->]; [|by rewrite walk_nil]. rewrite bool_decide_eq_true_2 by done. cbn [orb negb].
  rewrite walk_nil. by destruct (link_of t i).
Qed.
Lemma node_at_child t f q c d up es i n : special_name c = false -> resolve t true q = Ok (d, up) -> entries_of t d = Some es ->
  es !! c = Some i -> tr_nodes t !! i = Some n -> f = false \/ is_symlink n = false -> node_at t f (q ++ [c])%list = Ok (i, n).
Proof.
  intros Hc Hq He Hi Hn Hf. unfold node_at. erewrite resolve_snoc; [|done..|].
  - by rewrite Hn.
  - destruct Hf as [->|Hf]; [by left|right]. unfold link_of. rewrite Hn. cbn. unfold is_symlink in Hf. by destruct (nd_body n).
Qed.
Lemma node_at_absent t f q c d up es : special_name c = false -> resolve t true q = Ok (d, up) -> entries_of t d = Some es ->
  es !! c = None -> node_at t f (q ++ [c])%list = Err ENOENT.
Proof.
  intros Hc Hq He Hi. unfold node_at. destruct (resolve_app t f q c d up Hq) as [l' ->].
  rewrite walk_cons, He. destruct (special_split _ Hc) as [-> ->]. by rewrite Hi.
Qed.
Lemma node_at_dir t q d up es : resolve t true q = Ok (d, up) -> entries_of t d = Some es ->
  exists n, node_at t true q = Ok (d, n) /\ is_dir n = true.
Proof.
  intros Hq (n & Hn & Hb)%entries_of_node. exists n. unfold node_at. rewrite Hq, Hn. split; [done|]. unfold is_dir. by rewrite Hb.
Qed.

(** A path that resolves has a directory before it. *)
Lemma resolve_before t q c r : resolve t true (q ++ [c])%list = Ok r ->
  exists d up es, resolve t true q = Ok (d, up) /\ entries_of t d = Some es /\ (special_name c = false -> is_Some (es !! c)).
Proof.
  intros (l' & d & up & Hq & Hr)%resolve_app_inv. rewrite walk_cons in Hr. destruct (entries_of t d) as [es|] eqn:He; [|done].
  exists d, up, es. split_and!; [done..|]. intros Hc. destruct (special_split _ Hc) as [H1 H2]. rewrite H1, H2 in Hr.
  destruct (es !! c); [by eexists|done].
Qed.

(** ** What the calls do *)

Ltac wp_end := first [by apply wp_ret|by apply wp_err].

Lemma mkdir_taken t q c perm (Q : result unit op_err -> Tree -> Prop) r : tree_ok t -> resolve t true (q ++ [c])%list = Ok r ->
  (forall e, Q (Err e) t) -> wp (os_mkdir Y (q ++ [c])%list perm) Q t.
Proof.
  intros Ht Hq HQ. apply wp_sys; [intros; apply HQ|]. intros n. destruct (resolve_before _ _ _ _ Hq) as (d & up & es & Hd & He & Hc).
  destruct (special_name c) eqn:Es.
  - unfold place. rewrite rev_app_distr. cbn [rev app]. rewrite Es. apply HQ.
  - rewrite (place_snoc _ _ _ _ _ _ Es Hd He). destruct (Hc eq_refl) as [i ->]. apply HQ.
Qed.
(** [os.MkdirAll] of a directory that is there changes nothing, whatever is
    refused. *)
Lemma mkdir_all_noop t p perm d up es : tree_ok t -> resolve t true p = Ok (d, up) -> entries_of t d = Some es ->
  wp (os_mkdir_all Y p perm) (fun _ t' => t' = t) t.
Proof.
  intros Ht. unfold os_mkdir_all. rewrite <- (rev_involutive p) at 1. generalize (rev p) as rp. clear p. intros rp. revert d up es.
  induction rp as [|c rp IH]; intros d up es Hp He; cbn [mkdir_all_rev]; apply wp_bind, wp_try.
  - apply wp_read.
    + intros r. apply wp_bind, wp_ret, wp_bind, wp_try, wp_sys; [intros|]; [|intros n; cbn]; apply wp_bind, wp_try, wp_look; intros [[j m]|]; cbn; try (by apply wp_err);
      destruct (is_dir m); wp_end.
    + destruct (node_at_dir _ _ _ _ _ Hp He) as (n & -> & Hn). rewrite Hn. by apply wp_ret.
  - cbn [rev] in *. apply wp_read.
    + intros r. destruct (resolve_before _ _ _ _ Hp) as (d0 & up0 & es0 & Hd & He0 & Hc).
      apply wp_bind. eapply wp_conseq; [by eapply IH|]. intros [[]|e] t' ->; [|done].
      apply wp_bind, wp_try. eapply mkdir_taken; [done..|]. intros e. apply wp_bind, wp_try, wp_look. intros [[j m]|]; [|by apply wp_err].
      destruct (is_dir m); wp_end.
    + destruct (node_at_dir _ _ _ _ _ Hp He) as (n & -> & Hn). rewrite Hn. by apply wp_ret.
Qed.
(** In any case it only adds. *)
Lemma attach_adds t d es c n now : tree_ok t -> entries_of t d = Some es -> es !! c = None -> special_name c = false -> empty_node n ->
  local d c t (attach d es c n now t).
Proof. intros. eapply local_attach; try done; [by eapply local_refl|by left]. Qed.
Lemma place_entries t p d up es c : place t p = Ok (d, up, es, c) ->
  entries_of t d = Some es /\ special_name c = false /\ p = (removelast p ++ [c])%list /\ resolve t true (removelast p) = Ok (d, up).
Proof.
  unfold place. destruct (rev p) as [|c' r] eqn:Er; [done|]. apply (f_equal (@rev _)) in Er. rewrite rev_involutive in Er. cbn [rev] in Er.
  destruct (special_name c') eqn:Es; [done|]. destruct (resolve t true (rev r)) as [[d' up']|] eqn:Ed; [|done].
  destruct (entries_of t d') as [es'|] eqn:Ee; [|done]. intros [= -> -> -> ->]. split_and!; [done|done|..]; by rewrite Er, removelast_last.
Qed.
Lemma mkdir_adds t p perm : tree_ok t -> wp (os_mkdir Y p perm) (fun r t' =>
  (t' = t /\ is_ok r = false) \/ exists d up es c now, place t p = Ok (d, up, es, c) /\ es !! c = None /\
    r = Ok tt /\ t' = attach d es c (fresh_node Y (Directory ∅) (Z.land perm 511) now) now t) t.
Proof.
  intros Ht. apply wp_sys; [by left|]. intros n. destruct (place t p) as [[[[d up] es] c]|e] eqn:Ep; [|by left].
  destruct (es !! c) eqn:Ec; [by left|]. right. by exists d, up, es, c, (sy_now Y n).
Qed.
Definition adds (t t' : Tree) : Prop := tree_ok t' /\ only_adds t t'.
Lemma adds_refl t : tree_ok t -> adds t t.
Proof. by split. Qed.
Lemma all_adds_trans t u v : adds t u -> adds u v -> adds t v.
Proof. intros [_ H1] [H2 H3]. split; [done|by etrans]. Qed.
Lemma adds_local d nm t t' : tree_ok t -> local d nm t t' -> adds t t'.
Proof. intros Ht H. split; [apply (lo_ok _ _ _ _ H)|by eapply local_adds]. Qed.
Lemma mkdir_adds' t p perm : tree_ok t -> wp (os_mkdir Y p perm) (fun _ t' => adds t t') t.
Proof.
  intros Ht. eapply wp_conseq; [by apply mkdir_adds|]. intros r t' [[-> _]|(d & up & es & c & now & Hp & Hc & _ & ->)]; [by apply adds_refl|].
  apply place_entries in Hp as (He & Hs & _). eapply adds_local; [done|]. by apply attach_adds.
Qed.
Lemma mkdir_all_adds t p perm : tree_ok t -> wp (os_mkdir_all Y p perm) (fun _ t' => adds t t') t.
Proof.
  unfold os_mkdir_all. generalize (rev p) as rp. clear p. intros rp. revert t.
  assert (Hmk : forall t rp, tree_ok t -> wp (let* made := f_try (os_mkdir Y (rev rp) perm) in
      match made with Ok _ => f_ret tt | Err e => let* there := f_try (os_lstat Y (rev rp)) in
        match there with Ok (_, n) => if is_dir n then f_ret tt else f_err e | Err _ => f_err e end end) (fun _ t' => adds t t') t).
  { intros t rp' Ht. apply wp_bind, wp_try. eapply wp_conseq; [by apply mkdir_adds'|]. intros [[]|e] t' Ha; [by apply wp_ret|].
    apply wp_bind, wp_try, wp_look. intros [[j m]|]; [|by apply wp_err]. destruct (is_dir m); wp_end. }
  induction rp as [|c rp IH]; intros t Ht; cbn [mkdir_all_rev]; apply wp_bind, wp_try, wp_look;
    (intros [[j m]|e]; [destruct (is_dir m); [apply wp_ret|apply wp_err]; by apply adds_refl|]).
  - by apply wp_bind, wp_ret, Hmk.
  - apply wp_bind. eapply wp_conseq; [by apply IH|]. intros [[]|e'] t' Ha; [|done].
    eapply wp_conseq; [apply Hmk, Ha|]. intros r u Hu. by eapply all_adds_trans.
Qed.

(** ** Copying a file or a link without overwriting *)

Section Target.
Variables (t : Tree) (q : path) (nm : string) (d : nat) (up : list nat) (es : gmap string nat).
Hypothesis Ht : tree_ok t.
Hypothesis Hnm : special_name nm = false.
Hypothesis Hq : resolve t true q = Ok (d, up).
Hypothesis He : entries_of t d = Some es.

Lemma target_bound : (d < tr_next t)%nat.
Proof using Ht He. by eapply entries_of_bound. Qed.
Lemma local_resolves u : local d nm t u -> resolve u true q = Ok (d, up).
Proof using Ht Hq. intros H. apply (resolve_extends t); [done| |done]. by apply only_adds_extends, (local_adds d nm). Qed.
Lemma local_extends_entries u es1 : local d nm t u -> entries_of u d = Some es1 -> es ⊆ es1.
Proof using He.
  intros H He1. destruct (lo_dir _ _ _ _ H) as (a & b & fs & fs1 & Ha & Hb & Ba & Bb & _ & Hs & _).
  unfold entries_of in He, He1. rewrite Ha in He. rewrite Hb in He1. cbn in He, He1. rewrite Ba in He. rewrite Bb in He1. by simplify_eq.
Qed.

(** The temporary file [c] with inode [tr_next t] and node [n]. *)
Record temp (c : string) (n : Node) (es1 : gmap string nat) (u : Tree) : Prop := {
  tp_local : local d nm t u;
  tp_entries : entries_of u d = Some es1;
  tp_entry : es1 !! c = Some (tr_next t);
  tp_name : special_name c = false;
  tp_node : tr_nodes u !! tr_next t = Some n;
  tp_file : is_regular n = true }.
Lemma temp_updated c n es1 u f : temp c n es1 u -> tame f n -> temp c (f n) es1 (update_node f (tr_next t) u).
Proof using Ht He.
  intros [H1 H2 H3 H4 H5 H6] Hf. pose proof target_bound. split; try done.
  - apply local_update; [done|by intros ? [= <-]%(eq_trans (eq_sym H5))|lia|lia].
  - rewrite tame_entries; [done|]. by intros ? [= <-]%(eq_trans (eq_sym H5)).
  - unfold update_node. cbn. by rewrite lookup_alter_eq, H5.
  - unfold tame, is_regular in *. by destruct (nd_body n).
Qed.
Lemma regular_not_link n : is_regular n = true -> is_symlink n = false.
Proof using. unfold is_regular, is_symlink. by destruct (nd_body n). Qed.
Lemma temp_node_at c n es1 u f : temp c n es1 u -> node_at u f (q ++ [c])%list = Ok (tr_next t, n).
Proof using Ht Hq.
  intros [H1 H2 H3 H4 H5 H6]. apply (node_at_child u f q c d up es1 _ n H4 (local_resolves _ H1) H2 H3 H5). right. by apply regular_not_link.
Qed.
Lemma wp_temp_update c n es1 u f (Q : result unit op_err -> Tree -> Prop) : temp c n es1 u -> (forall k, tame (f k) n) ->
  (forall e, Q (Err e) u) -> (forall k, temp c (f k n) es1 (update_node (f k) (tr_next t) u) -> Q (Ok tt) (update_node (f k) (tr_next t) u)) ->
  wp (os_update Y f (q ++ [c])%list) Q u.
Proof using Ht Hq He.
  intros Htp Hf HQ Hok. apply wp_sys; [intros; apply HQ|]. intros k. rewrite (temp_node_at _ _ _ _ true Htp). by apply Hok, temp_updated.
Qed.
Lemma wp_fd_update c n es1 u (f : nat -> Node -> Node) (Q : result unit op_err -> Tree -> Prop) : temp c n es1 u -> (forall k, tame (f k) n) ->
  (forall e, Q (Err e) u) -> (forall k, temp c (f k n) es1 (update_node (f k) (tr_next t) u) -> Q (Ok tt) (update_node (f k) (tr_next t) u)) ->
  wp (sys Y (fun k u => Ok (tt, update_node (f k) (tr_next t) u))) Q u.
Proof using Ht He. intros Htp Hf HQ Hok. apply wp_sys; [intros; apply HQ|]. intros k. by apply Hok, temp_updated. Qed.
(** Its removal: at worst it stays. *)
Lemma wp_temp_remove c n es1 u (Q : result unit op_err -> Tree -> Prop) : temp c n es1 u -> es ⊆ delete c es1 ->
  (forall r, Q r u) -> (forall now, local d nm t (set_entries d (delete c es1) now u) -> Q (Ok tt) (set_entries d (delete c es1) now u)) ->
  wp (os_remove Y (q ++ [c])%list) Q u.
Proof using Ht Hq He.
  intros Htp Hs HQ Hok. apply wp_sys; [intros; apply HQ|]. intros k. destruct Htp as [H1 H2 H3 H4 H5 H6].
  rewrite (place_snoc _ _ _ _ _ _ H4 (local_resolves _ H1) H2), H3.
  unfold entries_of at 1. rewrite H5. cbn. unfold is_regular in H6. destruct (nd_body n); try done.
  apply Hok. eapply local_entries; [done|done|done|done|]. intros c' i [_ Hi]%lookup_delete_Some. by left.
Qed.

(** The last step: the finished file gets its name, and the temporary one goes. *)
Lemma link_temp c n u : temp c n (<[c := tr_next t]> es) u -> es !! c = None ->
  wp (os_link Y (q ++ [c])%list (q ++ [nm])%list) (fun r v => wp (os_remove Y (q ++ [c])%list) (fun _ w => local d nm t w /\
    (r = Ok tt -> es !! nm = None /\ tr_nodes w !! tr_next t = Some n /\
      exists es', entries_of w d = Some es' /\ es' !! nm = Some (tr_next t))) v) u.
Proof using Ht Hq He.
  clear Hnm. intros Htp Ec. pose proof (tp_local _ _ _ _ Htp) as Hl.
  assert (Hfail : forall e : op_err, wp (os_remove Y (q ++ [c])%list) (fun _ w => local d nm t w /\
    (Err (A := unit) e = Ok tt -> es !! nm = None /\ tr_nodes w !! tr_next t = Some n /\
      exists es', entries_of w d = Some es' /\ es' !! nm = Some (tr_next t))) u).
  { intros e. eapply wp_temp_remove; [done|by rewrite delete_insert_id|by intros|by intros]. }
  apply wp_sys; [intros; apply Hfail|]. intros k. rewrite (temp_node_at _ _ _ _ false Htp).
  destruct (special_name nm) eqn:Hspecial; [unfold place; rewrite rev_app_distr; cbn [rev app]; rewrite Hspecial; apply Hfail|].
  rewrite (place_snoc _ _ _ _ _ _ Hspecial (local_resolves _ Hl) (tp_entries _ _ _ _ Htp)).
  destruct (<[c := tr_next t]> es !! nm) eqn:En; [apply Hfail|].
  assert (Hcn : c <> nm) by (intros ->; by rewrite lookup_insert_eq in En). rewrite lookup_insert_ne in En by done.
  assert (Hd : is_dir n = false) by (pose proof (tp_file _ _ _ _ Htp) as Hf; unfold is_dir, is_regular in *; by destruct (nd_body n)). rewrite Hd.
  pose proof target_bound as Hb.
  set (es2 := <[nm := tr_next t]> (<[c := tr_next t]> es)). set (v := set_entries d es2 (sy_now Y k) u).
  assert (Hnode : is_Some (tr_nodes u !! d)) by (destruct (entries_of_node _ _ _ (tp_entries _ _ _ _ Htp)) as (x & Hx & _); by exists x).
  assert (Hv : local d nm t v).
  { eapply local_entries; [done|done|apply (tp_entries _ _ _ _ Htp)| |].
    - apply insert_subseteq_r; [done|]. by apply insert_subseteq.
    - intros k' i'. unfold es2. destruct (decide (k' = nm)) as [->|Hk]; [|rewrite lookup_insert_ne by done; by left].
      rewrite lookup_insert_eq. intros [= <-]. right. split_and!; [lia|by left|by eexists; apply (tp_node _ _ _ _ Htp)|done]. }
  assert (Htv : temp c n es2 v).
  { split; [done| | |apply (tp_name _ _ _ _ Htp)| |apply (tp_file _ _ _ _ Htp)].
    - unfold v. rewrite entries_set by done. by rewrite decide_True.
    - unfold es2. rewrite lookup_insert_ne by done. by rewrite lookup_insert_eq.
    - unfold v. rewrite set_entries_other by lia. apply (tp_node _ _ _ _ Htp). }
  assert (Hes : es ⊆ delete c es2).
  { unfold es2. rewrite delete_insert_ne by done. rewrite delete_insert_id by done. by apply insert_subseteq. }
  eapply wp_temp_remove; [done|done| |].
  - intros r. split; [done|]. intros _. split_and!; [done|apply (tp_node _ _ _ _ Htv)|]. exists es2. split; [apply (tp_entries _ _ _ _ Htv)|].
    unfold es2. by rewrite lookup_insert_eq.
  - intros now Hw. split; [done|]. intros _. split_and!; [done| |].
    + rewrite set_entries_other by lia. apply (tp_node _ _ _ _ Htv).
    + exists (delete c es2). rewrite entries_set; [|destruct (entries_of_node _ _ _ (tp_entries _ _ _ _ Htv)) as (x & Hx & _); by exists x].
      split; [by rewrite decide_True|]. rewrite lookup_delete_ne by done. unfold es2. by rewrite lookup_insert_eq.
Qed.

(** What [copyRegularFile] made when it succeeded. *)
Definition data_made (data : bytes) (info : nat * Node) (u : Tree) : Prop :=
  es !! nm = None /\ exists n es', entries_of u d = Some es' /\ es' !! nm = Some (tr_next t) /\ tr_nodes u !! tr_next t = Some n /\
    nd_body n = Regular data /\ nd_perm n = perm_of (snd info) /\ nd_mtime n = nd_mtime (snd info).
Lemma publish_local i m info : tr_nodes t !! i = Some m ->
  wp (publish_copy Y i (q ++ [nm])%list info false) (fun r u => local d nm t u /\
    (r = Ok tt -> exists data, nd_body m = Regular data /\ data_made data info u)) t.
Proof using Ht Hq He.
  clear Hnm. intros Em. set (Post := fun (r : result unit op_err) u => local d nm t u /\ (r = Ok tt -> exists data, nd_body m = Regular data /\ data_made data info u)).
  assert (Hbad : forall (e : op_err) u, local d nm t u -> Post (Err e) u) by (by split).
  assert (Hno : forall e : op_err, Post (Err e) t) by (intros; apply Hbad; by eapply local_refl).
  unfold publish_copy, parent. rewrite removelast_last.
  apply wp_bind, wp_try, wp_look. intros there. apply wp_bind.
  destruct there as [[j ex]|e]; [apply wp_err, Hno|]. destruct (not_exist e); [|apply wp_err, Hno]. apply wp_ret.
  apply wp_bind, wp_sys; [intros; apply Hno|]. intros k. rewrite Hq, He.
  destruct (List.find _ _) as [c|] eqn:Ec; [|apply Hno]. apply List.find_some in Ec as [_ Ec].
  apply andb_true_iff in Ec as [Esp Ec]. apply negb_true_iff in Esp. apply bool_decide_eq_true in Ec.
  set (n0 := fresh_node Y (Regular "") 384 (sy_now Y k)). cbn iota.
  assert (H1 : temp c n0 (<[c := tr_next t]> es) (attach d es c n0 (sy_now Y k) t)).
  { assert (Hb : d <> tr_next t) by (pose proof target_bound; lia).
    split; [apply (local_attach d nm t t es es); try done; [by eapply local_refl|by right]| |by rewrite lookup_insert_eq|done| |done].
    - change (attach d es c n0 (sy_now Y k) t) with (set_entries d (<[c := tr_next t]> es) (sy_now Y k) (alloc n0 t)).
      rewrite entries_set; [by rewrite decide_True|]. destruct (entries_of_node _ _ _ He) as (n & Hn & _). exists n. rewrite alloc_old; [done|apply target_bound].
    - unfold attach. rewrite set_entries_other by done. cbn. by rewrite lookup_insert_eq. }
  set (t1 := attach d es c n0 (sy_now Y k) t) in *. clearbody t1 n0.
  apply wp_defer.
  assert (Hfail : forall (e' : op_err) n u, temp c n (<[c := tr_next t]> es) u ->
    wp (os_remove Y (q ++ [c])%list) (fun _ v => Post (Err e') v) u).
  { intros e' n u Htp. eapply wp_temp_remove; [done|by rewrite delete_insert_id| |]; intros; apply Hbad; [apply (tp_local _ _ _ _ Htp)|done]. }
  assert (Hi : forall data, nd_body <$> tr_nodes t1 !! i = Some (Regular data) -> nd_body m = Regular data).
  { intros data Hd. rewrite (lo_same _ _ _ _ (tp_local _ _ _ _ H1)) in Hd; [rewrite Em in Hd; by injection Hd|by eapply to_bound|].
    intros ->. pose proof (tp_entries _ _ _ _ H1) as Hx. unfold entries_of in Hx. by rewrite Hd in Hx. }
  apply wp_bind, wp_read; [intros; by eapply Hfail|]. destruct (nd_body <$> tr_nodes t1 !! i) as [[data| | |]|] eqn:Ed; try (by eapply Hfail).
  specialize (Hi _ eq_refl). unfold fd_write. apply wp_bind.
  eapply (wp_fd_update c n0 _ t1 (fun k n => with_mtime (sy_now Y k) (with_body (Regular data) n))); [done| |intros; by eapply Hfail|].
  { intros ?. pose proof (tp_file _ _ _ _ H1) as Hf. unfold is_regular in Hf. unfold tame. by destruct (nd_body n0). }
  intros k1 H2. match type of H2 with temp _ ?n _ ?u => set (n1 := n) in H2; set (t2 := u) in * end.
  unfold fd_chmod. apply wp_bind. eapply (wp_fd_update c n1 _ t2 (fun _ => with_perm (perm_of (snd info)))); [done|intros ?; apply tame_perm| |].
  { intros; by eapply Hfail. }
  intros k2 H3. match type of H3 with temp _ ?n _ ?u => set (n2 := n) in H3; set (t3 := u) in * end.
  do 2 (apply wp_bind, wp_sys; [intros; by eapply Hfail|intros _]).
  unfold os_chtimes. apply wp_bind. eapply (wp_temp_update c n2 _ t3 (fun _ => with_mtime (nd_mtime (snd info)))); [done|intros ?; apply tame_mtime| |].
  { intros; by eapply Hfail. }
  intros k3 H4. match type of H4 with temp _ ?n _ ?u => set (n3 := n) in H4; set (t4 := u) in * end.
  eapply wp_conseq; [by eapply link_temp|]. intros r v Hv. eapply wp_conseq; [exact Hv|]. intros _ w [Hw Hr]. split; [done|].
  intros Hok. destruct (Hr Hok) as (Hn & Hnode & es' & Hes' & Hin). exists data. split; [done|]. split; [done|]. exists n3, es'. by split_and!.
Qed.
Definition file_made (p : path) (info : nat * Node) (r : result unit op_err) (u : Tree) : Prop :=
  r = Ok tt -> exists i m data, node_at t true p = Ok (i, m) /\ nd_body m = Regular data /\ data_made data info u.
Lemma node_at_node u f p i n : node_at u f p = Ok (i, n) -> tr_nodes u !! i = Some n.
Proof using. unfold node_at. destruct (resolve u f p) as [[i' ups]|]; [|done]. destruct (tr_nodes u !! i') eqn:E; [|done]. by intros [= <- <-]. Qed.
Lemma copy_file_local p info :
  wp (copyRegularFile Y p (q ++ [nm])%list info false) (fun r u => local d nm t u /\ file_made p info r u) t.
Proof using Ht Hq He.
  clear Hnm. assert (Hno : forall e : op_err, local d nm t t /\ file_made p info (Err e) t) by (split; [by eapply local_refl|done]).
  unfold copyRegularFile. destruct (negb (is_regular (snd info))); [apply wp_err, Hno|].
  apply wp_bind, wp_read; [intros; apply Hno|]. destruct (node_at t true p) as [[i m]|e] eqn:Ei; [|apply Hno].
  unfold parent. rewrite removelast_last. apply wp_bind. eapply wp_conseq; [by eapply mkdir_all_noop|]. intros [[]|e] t' ->; [|apply Hno].
  eapply wp_conseq; [apply (publish_local i m); by eapply node_at_node|]. intros r u [Hl Hr]. split; [done|]. intros Hok.
  destruct (Hr Hok) as (data & Hm & Hd). by exists i, m, data.
Qed.

Definition target_made (target : string) (u : Tree) : Prop :=
  es !! nm = None /\ exists n es', entries_of u d = Some es' /\ es' !! nm = Some (tr_next t) /\ tr_nodes u !! tr_next t = Some n /\
    nd_body n = Symlink target.
Lemma publish_link_local target :
  wp (publish_link Y target (q ++ [nm])%list false) (fun r u => local d nm t u /\ (r = Ok tt -> target_made target u)) t.
Proof using Ht Hq He.
  clear Hnm. assert (Hno : forall e : op_err, local d nm t t /\ (Err (A := unit) e = Ok tt -> target_made target t)) by (split; [by eapply local_refl|done]).
  unfold publish_link. apply wp_bind, wp_try, wp_look. intros there. apply wp_bind.
  destruct there as [[j ex]|e]; [apply wp_err, Hno|]. destruct (not_exist e); [|apply wp_err, Hno]. apply wp_ret.
  apply wp_sys; [intros; apply Hno|]. intros k.
  destruct (special_name nm) eqn:Hspecial; [unfold place; rewrite rev_app_distr; cbn [rev app]; rewrite Hspecial; apply Hno|].
  rewrite (place_snoc _ _ _ _ _ _ Hspecial Hq He). destruct (es !! nm) eqn:En; [apply Hno|].
  set (n := mkNode (Symlink target) 511 (sy_uid Y) (sy_gid Y) (sy_now Y k)).
  assert (Hb : d <> tr_next t) by (pose proof target_bound; lia).
  split; [by apply attach_adds|]. intros _. split; [done|]. exists n, (<[nm := tr_next t]> es). split_and!; try done.
  - change (attach d es nm n (sy_now Y k) t) with (set_entries d (<[nm := tr_next t]> es) (sy_now Y k) (alloc n t)).
    rewrite entries_set; [by rewrite decide_True|]. destruct (entries_of_node _ _ _ He) as (x & Hx & _). exists x.
    rewrite alloc_old; [done|apply target_bound].
  - by rewrite lookup_insert_eq.
  - unfold attach. rewrite set_entries_other by done. cbn. by rewrite lookup_insert_eq.
Qed.
Definition link_made (p : path) (r : result unit op_err) (u : Tree) : Prop :=
  r = Ok tt -> exists i m target, node_at t false p = Ok (i, m) /\ nd_body m = Symlink target /\ target_made target u.
Lemma copy_link_local p : wp (copySymlink Y p (q ++ [nm])%list false) (fun r u => local d nm t u /\ link_made p r u) t.
Proof using Ht Hq He.
  clear Hnm. assert (Hno : forall e : op_err, local d nm t t /\ link_made p (Err e) t) by (split; [by eapply local_refl|done]).
  unfold copySymlink. apply wp_bind, wp_read; [intros; apply Hno|]. destruct (node_at t false p) as [[i m]|e] eqn:Ei; [|apply Hno].
  destruct (nd_body m) as [| |target|] eqn:Em; try apply Hno. cbn iota.
  unfold parent. rewrite removelast_last. apply wp_bind. eapply wp_conseq; [by eapply mkdir_all_noop|]. intros [[]|e] t' ->; [|apply Hno].
  eapply wp_conseq; [apply publish_link_local|]. intros r u [Hl Hr]. split; [done|]. intros Hok. exists i, m, target. split_and!; [done|done|by apply Hr].
Qed.

(** A new directory. *)
Record made (n : Node) (u : Tree) : Prop := {
  md_local : local d nm t u;
  md_entries : entries_of u d = Some (<[nm := tr_next t]> es);
  md_node : tr_nodes u !! tr_next t = Some n;
  md_body : nd_body n = Directory ∅ }.
Lemma made_attach n now : es !! nm = None -> nd_body n = Directory ∅ -> made n (attach d es nm n now t).
Proof using Ht Hnm Hq He.
  intros En Hn. assert (Hb : d <> tr_next t) by (pose proof target_bound; lia). split; [| | |done].
  - apply attach_adds; try done. unfold empty_node. by rewrite Hn.
  - change (attach d es nm n now t) with (set_entries d (<[nm := tr_next t]> es) now (alloc n t)).
    rewrite entries_set; [by rewrite decide_True|]. destruct (entries_of_node _ _ _ He) as (x & Hx & _). exists x.
    rewrite alloc_old; [done|apply target_bound].
  - unfold attach. rewrite set_entries_other by done. cbn. by rewrite lookup_insert_eq.
Qed.
Lemma made_update n u f : made n u -> tame f n -> made (f n) (update_node f (tr_next t) u).
Proof using Ht He.
  intros [H1 H2 H3 H4] Hf. pose proof target_bound. split.
  - apply local_update; [done|by intros ? [= <-]%(eq_trans (eq_sym H3))|lia|lia].
  - rewrite tame_entries; [done|]. by intros ? [= <-]%(eq_trans (eq_sym H3)).
  - unfold update_node. cbn. by rewrite lookup_alter_eq, H3.
  - unfold tame in Hf. rewrite H4 in Hf. done.
Qed.
Lemma made_node_at n u : made n u -> node_at u true (q ++ [nm])%list = Ok (tr_next t, n).
Proof using Ht Hnm Hq.
  intros [H1 H2 H3 H4]. apply (node_at_child u true q nm d up (<[nm := tr_next t]> es) _ n Hnm (local_resolves _ H1) H2); [by rewrite lookup_insert_eq|done|].
  right. unfold is_symlink. by rewrite H4.
Qed.
Lemma wp_made_update n u f (Q : result unit op_err -> Tree -> Prop) : made n u -> (forall k, tame (f k) n) ->
  (forall e, Q (Err e) u) -> (forall k, made (f k n) (update_node (f k) (tr_next t) u) -> Q (Ok tt) (update_node (f k) (tr_next t) u)) ->
  wp (os_update Y f (q ++ [nm])%list) Q u.
Proof using Ht Hnm Hq He.
  intros Hm Hf HQ Hok. apply wp_sys; [intros; apply HQ|]. intros k. rewrite (made_node_at _ _ Hm). by apply Hok, made_update.
Qed.
Lemma mkdir_all_one perm (Q : result unit op_err -> Tree -> Prop) : es !! nm = None ->
  (forall e, Q (Err e) t) -> (forall n u, made n u -> Q (Ok tt) u) -> wp (os_mkdir_all Y (q ++ [nm])%list perm) Q t.
Proof using Ht Hnm Hq He.
  intros En Hno Hok. unfold os_mkdir_all. rewrite rev_app_distr. cbn [rev app mkdir_all_rev]. rewrite rev_involutive.
  assert (Hrest : wp (mkdir_all_rev Y (rev q) perm >> (let* made := f_try (os_mkdir Y (q ++ [nm])%list perm) in
      match made with Ok _ => f_ret tt | Err e => let* there := f_try (os_lstat Y (q ++ [nm])%list) in
        match there with Ok (_, n) => if is_dir n then f_ret tt else f_err e | Err _ => f_err e end end)) Q t).
  { apply wp_bind. eapply wp_conseq; [by eapply (mkdir_all_noop t q)|]. intros [[]|e] t' ->; [|apply Hno].
    apply wp_bind, wp_try, wp_sys.
    - intros r. apply wp_bind, wp_try, wp_read; [intros; by apply wp_err|]. rewrite (node_at_absent _ _ _ _ _ _ _ Hnm Hq He En). by apply wp_err.
    - intros k. rewrite (place_snoc _ _ _ _ _ _ Hnm Hq He), En. apply wp_ret. eapply Hok. by apply made_attach. }
  apply wp_bind, wp_try, wp_read; [by intros|]. by rewrite (node_at_absent _ _ _ _ _ _ _ Hnm Hq He En).
Qed.

Definition vacant : Prop := forall j, es !! nm = Some j -> plain_file t j.
(** What [copy_entry] does for a directory. *)
Lemma dir_local perm mt (Q : result verdict op_err -> Tree -> Prop) : vacant ->
  (forall e, Q (Err e) t) -> (forall e u, local d nm t u -> Q (Err e) u) ->
  (forall n u, es !! nm = None -> made n u -> nd_perm n = perm -> Q (Ok Go) u) ->
  wp (let* there := f_try (os_lstat Y (q ++ [nm])%list) in
      match there with
      | Ok (_, existing) => if is_dir existing then f_ret tt else f_err ThroughNonDirectory
      | Err e => if not_exist e then f_ret tt else f_err e
      end >>
      os_mkdir_all Y (q ++ [nm])%list perm >>
      os_chmod Y (q ++ [nm])%list perm >>
      os_chtimes Y (q ++ [nm])%list mt >> f_ret Go) Q t.
Proof using Ht Hnm Hq He.
  intros Hv Hno Herr Hok. apply wp_bind, wp_try, wp_read; [intros; apply wp_bind, wp_err, Hno|].
  destruct (es !! nm) as [j|] eqn:En.
  - destruct (Hv _ En) as (n & Hn & Hr). rewrite (node_at_child _ _ _ _ _ _ _ _ _ Hnm Hq He En Hn) by by left.
    assert (is_dir n = false) as -> by (unfold is_dir, is_regular in *; by destruct (nd_body n)). apply wp_bind, wp_err, Hno.
  - rewrite (node_at_absent _ _ _ _ _ _ _ Hnm Hq He En). cbn. apply wp_bind, wp_ret, wp_bind.
    apply mkdir_all_one; [done|done|]. intros n u Hm. apply wp_bind.
    eapply wp_made_update; [done|intros ?; apply tame_perm|intros; by eapply Herr, md_local|]. intros _ Hm1. apply wp_bind.
    eapply wp_made_update; [done|intros ?; apply tame_mtime|intros; by eapply Herr, md_local|]. intros _ Hm2. apply wp_ret.
    by eapply Hok.
Qed.
(** What it made of an entry. *)
Definition entry_made (p : path) (a : Node) (u : Tree) : Prop :=
  if is_symlink a then link_made p (Ok tt) u
  else exists info, node_at t false p = Ok info /\
    if is_dir a then es !! nm = None /\ exists n, made n u /\ nd_perm n = perm_of (snd info) else file_made p info (Ok tt) u.
Lemma entry_local source destination p entry : vacant -> drop (length source) p <> [] ->
  (destination ++ drop (length source) p = q ++ [nm])%list ->
  wp (copy_entry Y source destination false p (Some entry) None) (fun r u => local d nm t u /\
    forall v, r = Ok v -> v = Go /\ entry_made p (snd (de_node entry)) u) t.
Proof using Ht Hnm Hq He.
  intros Hv Hrel Heq. assert (Hrefl : local d nm t t) by by eapply local_refl. unfold copy_entry. rewrite Heq.
  destruct (drop (length source) p) as [|c0 r0]; [done|]. apply wp_bind, wp_read; [by split|].
  destruct (node_at t false p) as [info|e] eqn:Ei; [|by split]. unfold entry_made. rewrite Ei.
  destruct (is_symlink (snd (de_node entry))).
  { apply wp_bind. eapply wp_conseq; [by apply copy_link_local|]. intros [[]|e] u [Hl Hm]; [|by split]. apply wp_ret. split; [done|].
    by intros v [= <-]. }
  destruct (is_dir (snd (de_node entry))).
  - apply dir_local; [done|by split|by split|]. intros n u En Hm Hp. split; [apply (md_local _ _ Hm)|]. intros v [= <-]. split; [done|].
    exists info. split_and!; [done|done|]. by exists n.
  - apply wp_bind. eapply wp_conseq; [by apply copy_file_local|]. intros [[]|e] u [Hl Hm]; [|by split]. apply wp_ret. split; [done|].
    intros v [= <-]. split; [done|]. by exists info.
Qed.
End Target.

(** ** A copy of a tree *)

Inductive below (t : Tree) (i : nat) : nat -> Prop :=
| below_refl : below t i i
| below_entry k es c j : below t i k -> entries_of t k = Some es -> es !! c = Some j -> below t i j.
(** The inodes of the copy are in [lo, hi). *)
Inductive is_copy (t u : Tree) (lo hi : nat) : nat -> nat -> Prop :=
| copied_file i j a b data : tr_nodes t !! i = Some a -> tr_nodes u !! j = Some b -> (lo <= j < hi)%nat ->
    nd_body a = Regular data -> nd_body b = Regular data -> nd_perm b = perm_of a -> nd_mtime b = nd_mtime a -> is_copy t u lo hi i j
| copied_link i j a b target : tr_nodes t !! i = Some a -> tr_nodes u !! j = Some b -> (lo <= j < hi)%nat ->
    nd_body a = Symlink target -> nd_body b = Symlink target -> is_copy t u lo hi i j
| copied_dir i j a b es es' : tr_nodes t !! i = Some a -> tr_nodes u !! j = Some b -> (lo <= j < hi)%nat ->
    nd_body a = Directory es -> nd_body b = Directory es' -> nd_perm b = perm_of a ->
    (forall c k, es !! c = Some k -> exists k', es' !! c = Some k' /\ is_copy t u lo hi k k') -> is_copy t u lo hi i j.

Lemma below_trans t i k j : below t i k -> below t k j -> below t i j.
Proof. intros H. induction 1; [done|]. by eapply below_entry. Qed.
Lemma below_bound t i k : tree_ok t -> (i < tr_next t)%nat -> below t i k -> (k < tr_next t)%nat.
Proof.
  intros Ht Hi. induction 1 as [|k es c j _ IH He Hc]; [done|]. destruct (to_entry _ Ht _ _ _ _ He Hc) as [[n Hn] _]. by eapply to_bound.
Qed.
Lemma entries_same t v i : tr_nodes v !! i = tr_nodes t !! i -> entries_of v i = entries_of t i.
Proof. unfold entries_of. by intros ->. Qed.
Lemma below_same t v i k : (forall j, below t i j -> tr_nodes v !! j = tr_nodes t !! j) -> below v i k -> below t i k.
Proof.
  intros H. induction 1 as [|k es c j Hk IH He Hc]; [by apply below_refl|]. eapply below_entry; [done| |done]. by rewrite <- (entries_same t v k), He by by apply H.
Qed.
(** Only the inodes of the original and of the copy matter. *)
Lemma is_copy_source t v u lo hi i j : (forall k, below t i k -> tr_nodes v !! k = tr_nodes t !! k) -> is_copy v u lo hi i j -> is_copy t u lo hi i j.
Proof.
  revert i j. fix IH 4. intros i j H Hc. pose proof (H i (below_refl _ _)) as Hi.
  destruct Hc as [i j a b data Ha Hb Hj Ba Bb|i j a b target Ha Hb Hj Ba Bb|i j a b es es' Ha Hb Hj Ba Bb Hp Hall].
  - rewrite Hi in Ha. by eapply copied_file.
  - rewrite Hi in Ha. by eapply copied_link.
  - rewrite Hi in Ha. eapply copied_dir; try done. intros c k Hk. destruct (Hall c k Hk) as (k' & Hk' & Hck). exists k'. split; [done|].
    apply IH; [|done]. intros j' Hj'. apply H. eapply below_trans; [|done]. eapply below_entry; [apply below_refl| |done].
    unfold entries_of. rewrite Ha. cbn. by rewrite Ba.
Qed.
Lemma is_copy_dest t u w lo hi lo' hi' i j : (forall k, (lo <= k < hi)%nat -> tr_nodes w !! k = tr_nodes u !! k) ->
  (lo' <= lo)%nat -> (hi <= hi')%nat -> is_copy t u lo hi i j -> is_copy t w lo' hi' i j.
Proof.
  intros H Hlo Hhi. revert i j. fix IH 3. intros i j Hc.
  destruct Hc as [i j a b data Ha Hb Hj Ba Bb|i j a b target Ha Hb Hj Ba Bb|i j a b es es' Ha Hb Hj Ba Bb Hp Hall]; rewrite <- (H j Hj) in Hb.
  - eapply copied_file; try done; lia.
  - eapply copied_link; try done; lia.
  - eapply copied_dir; try done; [lia|]. intros c k Hk. destruct (Hall c k Hk) as (k' & Hk' & Hck). exists k'. split; [done|]. by apply IH.
Qed.

(** ** The walk *)

Lemma local_nested d nm t v fd c w : local d nm t v -> (tr_next t <= fd)%nat -> d <> fd -> local fd c v w -> local d nm t w.
Proof.
  intros H Hfd Hd Hc. pose proof (lo_next _ _ _ _ H). pose proof (lo_next _ _ _ _ Hc). split; [lia|apply (lo_ok _ _ _ _ Hc)| |].
  - intros i Hi Hid. rewrite (lo_same _ _ _ _ Hc), (lo_same _ _ _ _ H); [done|done|done|lia|lia].
  - destruct (lo_dir _ _ _ _ H) as (a & b & es & es' & Ha & Hb & Ba & Bb & M & Hs & He). exists a, b, es, es'.
    split_and!; try done; [rewrite (lo_same _ _ _ _ Hc); [done|by eapply to_bound; [apply (lo_ok _ _ _ _ H)|]|done]|].
    intros k i [?|(Hi & [->|(m & Hm & Hr)])]%He; [by left|by right; split; [|left]|right; split; [done|right]].
    exists m. split; [|done]. rewrite (lo_same _ _ _ _ Hc); [done|by eapply to_bound; [apply (lo_ok _ _ _ _ H)|]|].
    intros ->. destruct (lo_dir _ _ _ _ Hc) as (x & _ & fs & _ & Hx & _ & Bx & _). rewrite Hm in Hx. injection Hx as ->.
    unfold is_regular in Hr. by rewrite Bx in Hr.
Qed.

Section Walk.
Variables source destination : path.
Abbreviation W := (walk_dir Y (copy_entry Y source destination false)).

(** The entry is what the path leads to, and the copy does not go into it. *)
Definition from_source (t : Tree) (d : nat) (p : path) (entry : DirEntry) : Prop :=
  node_at t false p = Ok (de_node entry) /\ forall k, below t (fst (de_node entry)) k -> k <> d.
Definition copied_entry (t : Tree) (entry : DirEntry) (d : nat) (nm : string) (u : Tree) : Prop :=
  exists j es', entries_of u d = Some es' /\ es' !! nm = Some j /\ is_copy t u (tr_next t) (tr_next u) (fst (de_node entry)) j.
Definition walk_post (t : Tree) (d : nat) (nm : string) (p : path) (entry : DirEntry) (r : result verdict op_err) (u : Tree) : Prop :=
  local d nm t u /\ forall v, r = Ok v -> v = Go /\ (from_source t d p entry -> copied_entry t entry d nm u).
Definition walk_ok (turns : nat) : Prop := forall t q nm d up es rel entry,
  tree_ok t -> special_name nm = false -> (destination ++ rel = q ++ [nm])%list -> rel <> [] -> resolve t true q = Ok (d, up) ->
  entries_of t d = Some es -> vacant t nm es ->
  wp (W turns (source ++ rel)%list entry) (walk_post t d nm (source ++ rel)%list entry) t.

(** How the new directory [fd] changes while its entries are copied. *)
Record steps (fd : nat) (v u : Tree) : Prop := {
  sp_next : (tr_next v <= tr_next u)%nat;
  sp_same : forall x, (x < tr_next v)%nat -> x <> fd -> tr_nodes u !! x = tr_nodes v !! x;
  sp_dir : forall n es, tr_nodes v !! fd = Some n -> nd_body n = Directory es ->
    exists m es', tr_nodes u !! fd = Some m /\ nd_body m = Directory es' /\ es ⊆ es' /\ nd_perm m = nd_perm n }.
Lemma steps_refl fd v : steps fd v v.
Proof. split; [done|done|]. intros n es Hn Hb. by exists n, es. Qed.
Lemma steps_trans fd v w u : steps fd v w -> steps fd w u -> steps fd v u.
Proof.
  intros [N1 S1 D1] [N2 S2 D2]. split; [lia| |].
  - intros x Hx Hf. rewrite S2, S1; [done|done|done|lia|done].
  - intros n es Hn Hb. destruct (D1 _ _ Hn Hb) as (m & es1 & Hm & Bm & Hs & Pm). destruct (D2 _ _ Hm Bm) as (m' & es2 & Hm' & Bm' & Hs' & Pm').
    exists m', es2. split_and!; [done|done|by etrans|congruence].
Qed.
Lemma local_steps fd c v w : local fd c v w -> steps fd v w.
Proof.
  intros H. split; [apply (lo_next _ _ _ _ H)|apply (lo_same _ _ _ _ H)|]. intros n es Hn Hb.
  destruct (lo_dir _ _ _ _ H) as (a & b & es1 & es2 & Ha & Hb' & Ba & Bb & (Hp & _) & Hs & _).
  rewrite Hn in Ha. injection Ha as <-. rewrite Hb in Ba. injection Ba as <-. by exists b, es2.
Qed.

Section Children.
Variables (turns : nat) (t : Tree) (q : path) (nm : string) (d : nat) (up : list nat) (es : gmap string nat) (rel : path) (fd : nat).
Hypothesis IH : walk_ok turns.
Hypothesis Ht : tree_ok t.
Hypothesis Hnm : special_name nm = false.
Hypothesis Heq : (destination ++ rel = q ++ [nm])%list.
Hypothesis Hq : resolve t true q = Ok (d, up).
Hypothesis He : entries_of t d = Some es.
Hypothesis Hfd : (tr_next t <= fd)%nat.

Record loop (v : Tree) : Prop := {
  lp_local : local d nm t v;
  lp_named : exists esd, entries_of v d = Some esd /\ esd !! nm = Some fd;
  lp_dir : is_Some (entries_of v fd) }.
Lemma fd_not_d : d <> fd.
Proof using Ht He Hfd. pose proof (entries_of_bound _ _ _ Ht He). lia. Qed.
Lemma loop_resolves v : loop v -> resolve v true (q ++ [nm])%list = Ok (fd, d :: up).
Proof using Ht Hnm Hq.
  intros [Hl (esd & Hd & Hn) [esv Hv]]. apply (resolve_snoc v true q nm d up esd fd Hnm (local_resolves t q nm d up Ht Hq v Hl) Hd Hn).
  right. by eapply link_of_none.
Qed.
Lemma loop_step c v w : loop v -> local fd c v w -> loop w.
Proof using Ht He Hfd.
  intros [Hl (esd & Hd & Hn) [esv Hv]] Hw. pose proof fd_not_d. split.
  - by eapply local_nested.
  - exists esd. split; [|done]. rewrite (entries_same v w d); [done|]. apply (lo_same _ _ _ _ Hw); [|done].
    eapply entries_of_bound; [apply (lo_ok _ _ _ _ Hl)|done].
  - destruct (lo_dir _ _ _ _ Hw) as (_ & b & _ & es2 & _ & Hb & _ & Bb & _). exists es2. unfold entries_of. rewrite Hb. cbn. by rewrite Bb.
Qed.
Lemma vacant_step c c' v w esv esw : tree_ok v -> c' <> c -> local fd c v w -> entries_of v fd = Some esv -> entries_of w fd = Some esw ->
  vacant v c' esv -> vacant w c' esw.
Proof using.
  intros Hok Hc H Hv Hw Hva x Hx. destruct (lo_dir _ _ _ _ H) as (a & b & es1 & es2 & Ha & Hb & Ba & Bb & _ & _ & Hn).
  unfold entries_of in Hv, Hw. rewrite Ha in Hv. rewrite Hb in Hw. cbn in Hv, Hw. rewrite Ba in Hv. rewrite Bb in Hw. injection Hv as ->. injection Hw as ->.
  destruct (Hn _ _ Hx) as [Hold|(_ & [->|?])]; [|done|done]. destruct (Hva _ Hold) as (m & Hm & Hr). exists m. split; [|done].
  destruct (decide (x = fd)) as [->|Hxf]; [rewrite Ha in Hm; injection Hm as ->; unfold is_regular in Hr; by rewrite Ba in Hr|].
  rewrite (lo_same _ _ _ _ H); [done| |done]. exact (to_bound _ Hok _ _ Hm).
Qed.

(** The original of the directory, at [t]. *)
Record original (i : nat) (ups : list nat) (esi : gmap string nat) : Prop := {
  og_path : resolve t true (source ++ rel)%list = Ok (i, ups);
  og_entries : entries_of t i = Some esi;
  og_apart : forall k, below t i k -> k <> d }.
Definition listed (esi : gmap string nat) (e : DirEntry) : Prop :=
  esi !! de_name e = Some (fst (de_node e)) /\ tr_nodes t !! fst (de_node e) = Some (snd (de_node e)).
Lemma original_kept i ups esi v : original i ups esi -> local d nm t v ->
  forall k, below t i k -> tr_nodes v !! k = tr_nodes t !! k.
Proof using Ht.
  intros Ho Hl k Hk. apply (lo_same _ _ _ _ Hl); [|by apply (og_apart _ _ _ Ho)].
  eapply below_bound; [done| |done]. eapply entries_of_bound; [done|apply (og_entries _ _ _ Ho)].
Qed.
Lemma listed_below i ups esi e : original i ups esi -> listed esi e -> below t i (fst (de_node e)).
Proof using. intros Ho [Hl _]. eapply below_entry; [apply below_refl|apply (og_entries _ _ _ Ho)|done]. Qed.
Lemma listed_from_source i ups esi v e : original i ups esi -> listed esi e -> special_name (de_name e) = false -> loop v ->
  from_source v fd (source ++ rel ++ [de_name e])%list e.
Proof using Ht Hfd.
  intros Ho Hl Hsp Hv. pose proof (original_kept _ _ _ v Ho (lp_local _ Hv)) as Hk.
  pose proof (listed_below _ _ _ _ Ho Hl) as Hb. split.
  - rewrite app_assoc. destruct (de_node e) as [k n] eqn:En. destruct Hl as [Hl1 Hl2]. rewrite En in Hl1. rewrite En in Hl2. cbn in Hl1, Hl2.
    apply (node_at_child v false (source ++ rel)%list (de_name e) i ups esi k n Hsp); [|by rewrite (entries_same t v i) by (apply Hk, below_refl); apply (og_entries _ _ _ Ho)|done|by rewrite Hk|by left].
    apply (resolve_extends t); [done| |apply (og_path _ _ _ Ho)]. apply only_adds_extends, (local_adds d nm); [done|apply (lp_local _ Hv)].
  - intros k Hk' ->. assert (Hbk : below t (fst (de_node e)) fd).
    { eapply below_same; [|exact Hk']. intros j Hj. apply Hk. by eapply below_trans. }
    assert (fd < tr_next t)%nat; [|lia]. eapply below_bound; [done| |eapply below_trans; [exact Hb|exact Hbk]].
    eapply entries_of_bound; [done|apply (og_entries _ _ _ Ho)].
Qed.

Definition all_copied (l : list DirEntry) (u : Tree) : Prop := forall e, e ∈ l -> exists j es', entries_of u fd = Some es' /\
  es' !! de_name e = Some j /\ is_copy t u (tr_next t) (tr_next u) (fst (de_node e)) j.
Lemma children_spec l : forall v, loop v -> NoDup (map de_name l) ->
  (forall e, e ∈ l -> special_name (de_name e) = false /\ forall esv, entries_of v fd = Some esv -> vacant v (de_name e) esv) ->
  wp (walk_children (W turns) (source ++ rel)%list l) (fun r u => steps fd v u /\ loop u /\
    forall x, r = Ok x -> x = Go /\
      ((exists i ups esi, original i ups esi /\ forall e, e ∈ l -> listed esi e) -> all_copied l u)) v.
Proof using Ht Hnm Heq Hq He Hfd IH.
  induction l as [|e l IHl]; intros v Hv Hnd Hl; cbn [walk_children].
  { apply wp_ret. split_and!; [apply steps_refl|done|]. intros x [= <-]. split; [done|]. intros _ e Hin. by apply elem_of_nil in Hin. }
  cbn [map] in Hnd. apply NoDup_cons in Hnd as [Hnin Hnd]. destruct (Hl e ltac:(by left)) as [Hsp Hva]. destruct (lp_dir _ Hv) as [esv Hesv].
  apply wp_bind. rewrite <- app_assoc. eapply wp_conseq.
  { apply (IH v (q ++ [nm])%list (de_name e) fd (d :: up) esv (rel ++ [de_name e])%list e); [apply (lo_ok _ _ _ _ (lp_local _ Hv))|done| |by destruct rel|by apply loop_resolves|done|by apply Hva].
    by rewrite app_assoc, Heq. }
  intros r w [Hw Hr]. pose proof (loop_step _ _ _ Hv Hw) as Hlw. destruct r as [x|err]; [|split_and!; [by eapply local_steps|done|done]].
  destruct (Hr _ eq_refl) as [-> Hcp]. eapply wp_conseq.
  { apply (IHl w Hlw Hnd). intros e' He'. destruct (Hl e' ltac:(by right)) as [Hsp' Hva']. split; [done|]. intros esw Hesw.
    eapply vacant_step; [apply (lo_ok _ _ _ _ (lp_local _ Hv))| |exact Hw|exact Hesv|exact Hesw|by apply Hva'].
    intros Hc. apply Hnin. rewrite <- Hc. apply list_elem_of_fmap. by exists e'. }
  intros r u (Hsteps & Hu & Hok). split_and!; [eapply steps_trans; [by eapply local_steps|done]|done|]. intros x Hx.
  destruct (Hok _ Hx) as [-> Hrest]. split; [done|]. intros (i & ups & esi & Ho & Hall).
  assert (Hrest' : all_copied l u) by (apply Hrest; exists i, ups, esi; split; [done|]; intros; apply Hall; by right).
  intros e' [->|Hin]%elem_of_cons; [|by apply Hrest'].
  assert (Hle : listed esi e) by (apply Hall; by left).
  destruct (Hcp (listed_from_source _ _ _ v e Ho Hle Hsp Hv)) as (j & es1 & He1 & Hj & Hcopy).
  apply entries_of_node in He1 as (n1 & Hn1 & Hb1). destruct (sp_dir _ _ _ Hsteps _ _ Hn1 Hb1) as (n2 & es2 & Hn2 & Hb2 & Hsub & _).
  exists j, es2. split_and!; [unfold entries_of; rewrite Hn2; cbn; by rewrite Hb2|by eapply lookup_weaken|].
  pose proof (lo_next _ _ _ _ (lp_local _ Hv)). apply (is_copy_source t v).
  { intros k Hk. eapply original_kept; [done|apply (lp_local _ Hv)|]. eapply below_trans; [by eapply listed_below|done]. }
  eapply is_copy_dest; [|done|apply (sp_next _ _ _ Hsteps)|exact Hcopy]. intros k Hk. apply (sp_same _ _ _ Hsteps); [lia|].
  intros ->. pose proof (entries_of_bound _ _ _ (lo_ok _ _ _ _ (lp_local _ Hv)) Hesv). lia.
Qed.
End Children.

(** ** Directories as they are listed *)

Definition dir_entry (t : Tree) (es : gmap string nat) (c : string) : option DirEntry :=
  i ← es !! c; n ← tr_nodes t !! i; Some (mkDirEntry c (i, n)).
Definition dir_listing (t : Tree) (es : gmap string nat) : list DirEntry := omap (dir_entry t es) (merge_sort str_le (elements (dom es))).
Lemma dir_entry_inv t es c e : dir_entry t es c = Some e -> de_name e = c /\ es !! c = Some (fst (de_node e)) /\ tr_nodes t !! fst (de_node e) = Some (snd (de_node e)).
Proof. unfold dir_entry. destruct (es !! c) as [i|]; [|done]. cbn. destruct (tr_nodes t !! i) as [n|] eqn:En; [|done]. by intros [= <-]. Qed.
Lemma listing_nodup t es : NoDup (map de_name (dir_listing t es)).
Proof.
  unfold dir_listing. assert (Hn : NoDup (merge_sort str_le (elements (dom es)))) by (rewrite merge_sort_Permutation; apply NoDup_elements).
  revert Hn. generalize (merge_sort str_le (elements (dom es))) as l. induction l as [|c l IH]; [constructor|].
  intros [Hc Hl]%NoDup_cons. cbn [omap list_omap]. destruct (dir_entry t es c) as [e|] eqn:Ee; [|by apply IH]. cbn [map].
  apply NoDup_cons. split; [|by apply IH]. apply dir_entry_inv in Ee as (Hname & _). intros (e' & He1 & He')%list_elem_of_fmap.
  apply list_elem_of_omap in He' as (c' & Hc' & He'). apply dir_entry_inv in He' as (Hname' & _). congruence.
Qed.
Lemma listing_elem t es e : e ∈ dir_listing t es <-> dir_entry t es (de_name e) = Some e.
Proof.
  unfold dir_listing. rewrite list_elem_of_omap. split.
  - intros (c & _ & He). pose proof He as (-> & _)%dir_entry_inv. done.
  - intros He. exists (de_name e). split; [|done]. rewrite merge_sort_Permutation, elem_of_elements, elem_of_dom.
    apply dir_entry_inv in He as (_ & -> & _). by eexists.
Qed.
Lemma wp_readdir t p (Q : result (list DirEntry) op_err -> Tree -> Prop) : (forall e, Q (Err e) t) ->
  (forall i ups es, resolve t true p = Ok (i, ups) -> entries_of t i = Some es -> Q (Ok (dir_listing t es)) t) -> wp (os_readdir Y p) Q t.
Proof.
  intros HQ Hok. apply wp_read; [intros; apply HQ|]. destruct (resolve t true p) as [[i ups]|] eqn:Er; [|apply HQ].
  destruct (entries_of t i) as [es|] eqn:Ee; [|apply HQ]. by eapply Hok.
Qed.

Lemma node_at_resolves t p i a : node_at t false p = Ok (i, a) -> is_symlink a = false ->
  exists ups, resolve t true p = Ok (i, ups) /\ tr_nodes t !! i = Some a.
Proof.
  unfold node_at. destruct (resolve t false p) as [[i' ups]|] eqn:Er; [|done]. destruct (tr_nodes t !! i') as [n|] eqn:En; [|done].
  intros [= -> ->] Hs. exists ups. split; [|done]. apply resolve_nofollow; [done|]. unfold link_of. rewrite En. cbn. unfold is_symlink in Hs.
  by destruct (nd_body a).
Qed.
Lemma leaf_copied t d nm es p entry u : tree_ok u -> is_dir (snd (de_node entry)) = false -> from_source t d p entry ->
  entry_made t nm d es p (snd (de_node entry)) u -> copied_entry t entry d nm u.
Proof.
  intros Hu Hd [Hs _] Hm. destruct (de_node entry) as [i a] eqn:En. unfold copied_entry. rewrite En. cbn [fst snd] in *.
  pose proof (node_at_node _ _ _ _ _ Hs) as Ha. unfold entry_made in Hm. destruct (is_symlink a) eqn:El.
  - destruct (Hm eq_refl) as (i' & m & target & Hi & Bm & _ & n & es' & He' & Hin & Hn & Bn). rewrite Hs in Hi. injection Hi as <- <-.
    exists (tr_next t), es'. split_and!; [done|done|]. eapply copied_link; try done. split; [done|]. exact (to_bound _ Hu _ _ Hn).
  - destruct Hm as (info & Hi & Hm). rewrite Hs in Hi. injection Hi as <-. rewrite Hd in Hm.
    destruct (Hm eq_refl) as (i' & m & data & Hi & Bm & _ & n & es' & He' & Hin & Hn & Bn & Pn & Mn). cbn [snd] in *.
    destruct (node_at_resolves _ _ _ _ Hs El) as (ups & Hr & _). unfold node_at in Hi. rewrite Hr, Ha in Hi. injection Hi as <- <-.
    exists (tr_next t), es'. split_and!; [done|done|]. eapply copied_file; try done. split; [done|]. exact (to_bound _ Hu _ _ Hn).
Qed.
(** A directory, once it has been made: its entries are listed and walked. *)
Lemma after_made turns t q nm d up es rel entry n u : walk_ok turns -> tree_ok t -> special_name nm = false ->
  (destination ++ rel = q ++ [nm])%list -> resolve t true q = Ok (d, up) -> entries_of t d = Some es -> made t nm d es n u ->
  is_dir (snd (de_node entry)) = true -> (from_source t d (source ++ rel)%list entry -> nd_perm n = perm_of (snd (de_node entry))) ->
  wp (let* listed := f_try (os_readdir Y (source ++ rel)%list) in
      match listed with
      | Ok l => walk_children (W turns) (source ++ rel)%list l
      | Err e => let* v := copy_entry Y source destination false (source ++ rel)%list (Some entry) (Some e) in
                 match v with SkipDir => f_ret Go | SkipAll => f_ret SkipAll | Go => f_ret Go end
      end) (walk_post t d nm (source ++ rel)%list entry) u.
Proof.
  intros IH Ht Hnm Heq Hq He Hmade Ed Hperm. pose proof (md_local _ _ _ _ _ _ Hmade) as Hl.
  assert (Els : is_symlink (snd (de_node entry)) = false) by (unfold is_dir, is_symlink in *; by destruct (nd_body _)).
  apply wp_bind, wp_try, wp_readdir.
  { intros e. apply wp_bind, wp_err. split; [done|by intros]. }
  intros i ups esi Hres Hesi.
  assert (Hloop : loop t nm d (tr_next t) u).
  { split; [done|exists (<[nm := tr_next t]> es); split; [apply (md_entries _ _ _ _ _ _ Hmade)|by rewrite lookup_insert_eq]|].
    exists ∅. unfold entries_of. rewrite (md_node _ _ _ _ _ _ Hmade). cbn. by rewrite (md_body _ _ _ _ _ _ Hmade). }
  eapply wp_conseq.
  { apply (children_spec turns t q nm d up es rel (tr_next t) IH Ht Hnm Heq Hq He ltac:(done) (dir_listing u esi) u Hloop); [apply listing_nodup|].
    intros e He'%listing_elem. apply dir_entry_inv in He' as (_ & Hc & _). split; [by eapply to_entry; [apply (lo_ok _ _ _ _ Hl)|..]|].
    intros esv Hesv. unfold entries_of in Hesv. rewrite (md_node _ _ _ _ _ _ Hmade) in Hesv. cbn in Hesv.
    rewrite (md_body _ _ _ _ _ _ Hmade) in Hesv. injection Hesv as <-. by intros x Hx. }
  intros r w (Hsteps & Hlw & Hr). pose proof (lp_local _ _ _ _ _ Hlw) as Hlocal. split; [done|]. intros v Hv'. destruct (Hr _ Hv') as [-> Hall].
  split; [done|]. intros Hfrom. specialize (Hperm Hfrom). destruct Hfrom as [Hsrc Hapart]. destruct (de_node entry) as [i' a] eqn:En. cbn [fst snd] in *.
  destruct (node_at_resolves _ _ _ _ Hsrc Els) as (ups' & Hri & Ha).
  assert (Hi' : entries_of t i' = Some esi /\ i = i').
  { assert (Hx : resolve u true (source ++ rel)%list = Ok (i', ups')) by (apply (resolve_extends t); [done|by apply only_adds_extends, (local_adds d nm)|done]).
    rewrite Hx in Hres. injection Hres as -> ->. split; [|done]. rewrite <- Hesi. symmetry. apply entries_same, (lo_same _ _ _ _ Hl); [exact (to_bound _ Ht _ _ Ha)|].
    apply Hapart, below_refl. }
  destruct Hi' as [Hei ->].
  assert (Ho : original t d rel i' ups' esi) by (by split).
  assert (Hcopies : all_copied t (tr_next t) (dir_listing u esi) w).
  { apply Hall. exists i', ups', esi. split; [done|]. intros e He'%listing_elem. apply dir_entry_inv in He' as (_ & Hc & Hn). split; [done|].
    rewrite <- Hn. symmetry. apply (original_kept t nm d rel Ht _ _ _ u Ho Hl). eapply below_entry; [apply below_refl|done|done]. }
  destruct (sp_dir _ _ _ Hsteps _ _ (md_node _ _ _ _ _ _ Hmade) (md_body _ _ _ _ _ _ Hmade)) as (m & esw & Hm & Bm & _ & Pm).
  destruct (lp_named _ _ _ _ _ Hlw) as (esd & Hesd & Hfd). exists (tr_next t), esd. rewrite En. split_and!; [done|done|].
  assert (Ba : nd_body a = Directory esi) by (unfold entries_of in Hei; rewrite Ha in Hei; cbn in Hei; destruct (nd_body a); by simplify_eq).
  eapply (copied_dir _ _ _ _ i' (tr_next t) a m esi esw); [done|done| |done|done|congruence|].
  { split; [done|]. exact (to_bound _ (lo_ok _ _ _ _ Hlocal) _ _ Hm). }
  intros c k Hk. destruct (to_entry _ Ht _ _ _ _ Hei Hk) as [[nk Hnk] _].
  assert (Hnk' : tr_nodes u !! k = Some nk).
  { rewrite <- Hnk. apply (original_kept t nm d rel Ht _ _ _ u Ho Hl). eapply below_entry; [apply below_refl|done|done]. }
  destruct (Hcopies (mkDirEntry c (k, nk))) as (j & es2 & Hes2 & Hj & Hcopy).
  { apply listing_elem. unfold dir_entry. cbn. rewrite Hk. cbn. by rewrite Hnk'. }
  exists j. split; [|done]. unfold entries_of in Hes2. rewrite Hm in Hes2. cbn in Hes2. rewrite Bm in Hes2. by injection Hes2 as ->.
Qed.
Lemma walk_spec turns : walk_ok turns.
Proof.
  induction turns as [|turns IH]; intros t q nm d up es rel entry Ht Hnm Heq Hrel Hq He Hv; cbn [walk_dir].
  { apply wp_err. split; [by eapply local_refl|done]. }
  assert (Hdrop : drop (length source) (source ++ rel)%list = rel) by by rewrite drop_app_length.
  apply wp_bind. eapply wp_conseq.
  { apply (entry_local t q nm d up es Ht Hnm Hq He source destination (source ++ rel)%list entry Hv); by rewrite Hdrop. }
  intros r u [Hl Hr]. destruct r as [x|e]; [|by split]. destruct (Hr _ eq_refl) as [-> Hm]. clear Hr.
  destruct (is_dir (snd (de_node entry))) eqn:Ed; cbn [negb].
  2: { apply wp_ret. split; [done|]. intros v [= <-]. split; [done|]. intros Hs. by eapply leaf_copied; [apply (lo_ok _ _ _ _ Hl)|..]. }
  assert (Els : is_symlink (snd (de_node entry)) = false) by (unfold is_dir, is_symlink in *; by destruct (nd_body _)).
  unfold entry_made in Hm. rewrite Els, Ed in Hm. destruct Hm as (info & Hinfo & Hnone & n & Hmade & Hperm).
  eapply wp_conseq; [apply (after_made turns t q nm d up es rel entry n u IH Ht Hnm Heq Hq He Hmade Ed)|done].
  intros [Hsrc _]. rewrite Hsrc in Hinfo. by injection Hinfo as <-.
Qed.

(** The directory at the root of the walk: [copyDirectory] has just made [fd]
    for it. *)
Definition apart (t : Tree) (d : nat) (entry : DirEntry) : Prop :=
  is_dir (snd (de_node entry)) = true /\ from_source t d source entry.
Lemma root_dir t q nm d up es perm mt u n (Q : result verdict op_err -> Tree -> Prop) :
  tree_ok t -> special_name nm = false -> resolve t true q = Ok (d, up) -> entries_of t d = Some es -> made t nm d es n u ->
  (forall e w, local d nm t w -> Q (Err e) w) -> (forall n w, made t nm d es n w -> nd_perm n = perm -> Q (Ok Go) w) ->
  wp (let* there := f_try (os_lstat Y (q ++ [nm])%list) in
      match there with
      | Ok (_, existing) => if is_dir existing then f_ret tt else f_err ThroughNonDirectory
      | Err e => if not_exist e then f_ret tt else f_err e
      end >>
      os_mkdir_all Y (q ++ [nm])%list perm >>
      os_chmod Y (q ++ [nm])%list perm >>
      os_chtimes Y (q ++ [nm])%list mt >> f_ret Go) Q u.
Proof.
  intros Ht Hnm Hq He Hm Herr Hok. pose proof (md_local _ _ _ _ _ _ Hm) as Hl. pose proof (local_resolves t q nm d up Ht Hq u Hl) as Hru.
  assert (Hfd : <[nm := tr_next t]> es !! nm = Some (tr_next t)) by by rewrite lookup_insert_eq.
  assert (Hdir : entries_of u (tr_next t) = Some ∅) by (unfold entries_of; rewrite (md_node _ _ _ _ _ _ Hm); cbn; by rewrite (md_body _ _ _ _ _ _ Hm)).
  assert (Hx : is_dir n = true) by (unfold is_dir; by rewrite (md_body _ _ _ _ _ _ Hm)).
  assert (Hr : resolve u true (q ++ [nm])%list = Ok (tr_next t, d :: up)).
  { apply (resolve_snoc u true q nm d up _ _ Hnm Hru (md_entries _ _ _ _ _ _ Hm) Hfd). right. by eapply link_of_none. }
  assert (Hrest : wp (os_mkdir_all Y (q ++ [nm])%list perm >> os_chmod Y (q ++ [nm])%list perm >> os_chtimes Y (q ++ [nm])%list mt >> f_ret Go) Q u).
  { apply wp_bind. eapply wp_conseq; [eapply (mkdir_all_noop u); [apply (lo_ok _ _ _ _ Hl)|exact Hr|exact Hdir]|].
    intros [[]|e] u' ->; [|by apply Herr]. apply wp_bind.
    apply (wp_made_update t q nm d up es Ht Hnm Hq He n u (fun _ => with_perm perm) _ Hm); [intros ?; apply tame_perm|intros; by apply Herr|]. intros _ Hm1. apply wp_bind.
    apply (wp_made_update t q nm d up es Ht Hnm Hq He _ _ (fun _ => with_mtime mt) _ Hm1); [intros ?; apply tame_mtime|intros; apply Herr, (md_local _ _ _ _ _ _ Hm1)|]. intros _ Hm2.
    apply wp_ret. by eapply Hok. }
  apply wp_bind, wp_try, wp_read; [intros; apply wp_bind, wp_err; by apply Herr|].
  rewrite (node_at_child u false q nm d up _ _ n Hnm Hru (md_entries _ _ _ _ _ _ Hm) Hfd (md_node _ _ _ _ _ _ Hm)) by by left.
  rewrite Hx. apply wp_bind, wp_ret, Hrest.
Qed.
Lemma root_spec turns t q nm d up es n u entry : tree_ok t -> special_name nm = false -> resolve t true q = Ok (d, up) ->
  entries_of t d = Some es -> destination = (q ++ [nm])%list -> made t nm d es n u ->
  wp (W turns source entry) (fun r w => local d nm t w /\
    forall v, r = Ok v -> apart t d entry -> copied_entry t entry d nm w) u.
Proof.
  intros Ht Hnm Hq He Heq Hm. pose proof (md_local _ _ _ _ _ _ Hm) as Hl.
  assert (Hdrop : drop (length source) source = []) by (rewrite <- (app_nil_r source) at 2; apply drop_app_length).
  destruct turns as [|turns]; cbn [walk_dir]; [by apply wp_err|]. apply wp_bind. unfold copy_entry at 1. rewrite Hdrop, app_nil_r, Heq.
  apply wp_bind, wp_ret. pose proof (local_resolves t q nm d up Ht Hq u Hl) as Hru.
  pose proof (entries_of_bound _ _ _ Ht He) as Hb.
  destruct (is_symlink (snd (de_node entry))) eqn:El.
  { apply wp_bind. eapply wp_conseq; [apply (copy_link_local u q nm d up _ (lo_ok _ _ _ _ Hl) Hru (md_entries _ _ _ _ _ _ Hm))|].
    intros r w [Hw _]. assert (Hlw : local d nm t w) by by eapply local_trans. destruct r as [[]|e]; [|by split]. apply wp_ret.
    assert (is_dir (snd (de_node entry)) = false) as Hd by (unfold is_dir, is_symlink in *; by destruct (nd_body _)). rewrite Hd. apply wp_ret.
    split; [done|]. intros v _ [Hx _]. congruence. }
  destruct (is_dir (snd (de_node entry))) eqn:Ed; cbn [negb].
  - apply (root_dir t q nm d up es _ _ u n _ Ht Hnm Hq He Hm).
    + by split.
    + intros n' w Hmw Hpw.
      pose proof (after_made turns t q nm d up es [] entry n' w (walk_spec turns) Ht Hnm ltac:(by rewrite app_nil_r) Hq He Hmw Ed ltac:(by intros)) as Ha.
      rewrite !app_nil_r, Heq in Ha. eapply wp_conseq; [exact Ha|].
      intros r x [Hx Hr]. split; [done|]. intros v Hv [_ Hsrc]. destruct (Hr _ Hv) as [_ Hc]. by apply Hc.
  - apply wp_bind. eapply wp_conseq; [apply (copy_file_local u q nm d up _ (lo_ok _ _ _ _ Hl) Hru (md_entries _ _ _ _ _ _ Hm))|].
    intros r w [Hw _]. assert (Hlw : local d nm t w) by by eapply local_trans. destruct r as [[]|e]; [|by split]. apply wp_ret. apply wp_ret.
    split; [done|]. intros v _ [Hx _]. congruence.
Qed.
End Walk.

(** ** The operations *)

Lemma wp_and {A} (m : F A) (P Q : result A op_err -> Tree -> Prop) t : wp m P t -> wp m Q t -> wp m (fun r u => P r u /\ Q r u) t.
Proof. intros HP HQ s Hs. split; [by apply HP|by apply HQ]. Qed.
Lemma publish_copy_adds t i q nm info : tree_ok t -> is_Some (tr_nodes t !! i) ->
  wp (publish_copy Y i (q ++ [nm])%list info false) (fun _ u => adds t u) t.
Proof.
  intros Ht [m Hm]. destruct (resolve t true q) as [[d up]|e] eqn:Hq; [destruct (entries_of t d) as [es|] eqn:He|].
  - eapply wp_conseq; [by apply (publish_local t q nm d up es Ht Hq He i m)|]. intros r u [Hl _]. by eapply adds_local.
  - unfold publish_copy, parent. rewrite removelast_last. apply wp_bind, wp_try, wp_look. intros there. apply wp_bind.
    destruct there as [[j ex]|e]; [|destruct (not_exist e)]; try (apply wp_err; by apply adds_refl).
    apply wp_ret, wp_bind, wp_sys; [intros; by apply adds_refl|]. intros k. rewrite Hq, He. by apply adds_refl.
  - unfold publish_copy, parent. rewrite removelast_last. apply wp_bind, wp_try, wp_look. intros there. apply wp_bind.
    destruct there as [[j ex]|e']; [|destruct (not_exist e')]; try (apply wp_err; by apply adds_refl).
    apply wp_ret, wp_bind, wp_sys; [intros; by apply adds_refl|]. intros k. rewrite Hq. by apply adds_refl.
Qed.
Lemma adds_node t u i : adds t u -> is_Some (tr_nodes t !! i) -> is_Some (tr_nodes u !! i).
Proof. intros [_ [_ H]] [n Hn]. destruct (H _ _ Hn) as (b & Hb & _). by exists b. Qed.
Lemma copy_file_adds t p q nm info : tree_ok t -> wp (copyRegularFile Y p (q ++ [nm])%list info false) (fun _ u => adds t u) t.
Proof.
  intros Ht. unfold copyRegularFile. destruct (negb (is_regular (snd info))); [apply wp_err; by apply adds_refl|].
  apply wp_bind, wp_read; [intros; by apply adds_refl|]. destruct (node_at t true p) as [[i m]|e] eqn:Ei; [|by apply adds_refl].
  unfold parent. rewrite removelast_last. apply wp_bind. eapply wp_conseq; [by apply mkdir_all_adds|]. intros [[]|e] t1 Ha; [|done].
  eapply wp_conseq; [apply publish_copy_adds; [apply Ha|]|].
  - eapply adds_node; [done|]. exists m. unfold node_at in Ei. destruct (resolve t true p) as [[i' ups]|]; [|done].
    destruct (tr_nodes t !! i') eqn:E; [|done]. by injection Ei as <- <-.
  - intros r u Hu. by eapply all_adds_trans.
Qed.
Lemma publish_link_adds t target q nm : tree_ok t -> wp (publish_link Y target (q ++ [nm])%list false) (fun _ u => adds t u) t.
Proof.
  intros Ht. destruct (resolve t true q) as [[d up]|e] eqn:Hq; [destruct (entries_of t d) as [es|] eqn:He|].
  - eapply wp_conseq; [by apply (publish_link_local t q nm d up es Ht Hq He target)|]. intros r u [Hl _]. by eapply adds_local.
  - unfold publish_link. apply wp_bind, wp_try, wp_look. intros there. apply wp_bind.
    destruct there as [[j ex]|e]; [|destruct (not_exist e)]; try (apply wp_err; by apply adds_refl).
    apply wp_ret, wp_sys; [intros; by apply adds_refl|]. intros k. unfold place. rewrite rev_app_distr. cbn [rev app].
    destruct (special_name nm); [by apply adds_refl|]. rewrite rev_involutive, Hq, He. by apply adds_refl.
  - unfold publish_link. apply wp_bind, wp_try, wp_look. intros there. apply wp_bind.
    destruct there as [[j ex]|e']; [|destruct (not_exist e')]; try (apply wp_err; by apply adds_refl).
    apply wp_ret, wp_sys; [intros; by apply adds_refl|]. intros k. unfold place. rewrite rev_app_distr. cbn [rev app].
    destruct (special_name nm); [by apply adds_refl|]. rewrite rev_involutive, Hq. by apply adds_refl.
Qed.
Lemma copy_link_adds t p q nm : tree_ok t -> wp (copySymlink Y p (q ++ [nm])%list false) (fun _ u => adds t u) t.
Proof.
  intros Ht. unfold copySymlink, os_readlink. apply wp_bind, wp_look. intros [target|e]; [|by apply adds_refl].
  unfold parent. rewrite removelast_last. apply wp_bind. eapply wp_conseq; [by apply mkdir_all_adds|]. intros [[]|e] t1 Ha; [|done].
  eapply wp_conseq; [apply publish_link_adds, Ha|]. intros r u Hu. by eapply all_adds_trans.
Qed.

(** A successful copy of a directory that lies in none of what it copies. *)
Definition directory_copied (t : Tree) (source : path) (destination : path) (w : Tree) : Prop :=
  forall q nm d up es i a, destination = (q ++ [nm])%list -> resolve t true q = Ok (d, up) -> entries_of t d = Some es ->
    node_at t false source = Ok (i, a) -> is_dir a = true -> (forall k, below t i k -> k <> d) ->
    exists es' j, entries_of w d = Some es' /\ es' !! nm = Some j /\ is_copy t w (tr_next t) (tr_next w) i j.
Lemma copy_directory_spec t source destination name : tree_ok t ->
  wp (copyDirectory Y fuel source destination name false) (fun r w => adds t w /\ (r = Ok tt -> directory_copied t source destination w)) t.
Proof.
  intros Ht. unfold copyDirectory. apply wp_bind.
  eapply (wp_conseq _ (fun _ t1 => adds t t1 /\ forall d up es, resolve t true (parent destination) = Ok (d, up) -> entries_of t d = Some es -> t1 = t)).
  { apply wp_and; [by apply mkdir_all_adds|].
    destruct (resolve t true (parent destination)) as [[d up]|] eqn:Hp; [destruct (entries_of t d) as [es|] eqn:He|]; [|by intros s _ ? ? ? [= <- _]; rewrite He|done].
    eapply wp_conseq; [by eapply mkdir_all_noop|]. by intros r t' -> d0 up0 es0. }
  intros [[]|e] t1 [Ha Hsame]; [|by split]. apply wp_bind. eapply wp_conseq; [apply mkdir_adds, Ha|].
  intros r t2 [[-> Hr]|(d & up & es & c & now & Hp & Hc & -> & ->)]; [destruct r; [done|by split]|].
  destruct (place_entries _ _ _ _ _ _ Hp) as (He & Hsp & Hdest & Hres).
  set (n := fresh_node Y (Directory ∅) (Z.land 493 511) now). assert (Ht1 : tree_ok t1) by apply Ha.
  pose proof (made_attach t1 (removelast destination) c d up es Ht1 Hsp Hres He n now Hc eq_refl) as Hm.
  set (t2 := attach d es c n now t1) in *. clearbody t2. pose proof (md_local _ _ _ _ _ _ Hm) as Hl.
  assert (Hadds : forall w, local d c t1 w -> adds t w) by (intros w Hw; eapply all_adds_trans; [done|by eapply adds_local]).
  unfold WalkDir. apply wp_bind, wp_try, wp_read; [intros; apply wp_bind, wp_err; split; [by apply Hadds|done]|].
  destruct (node_at t2 false source) as [[i a]|e] eqn:Ei; [|apply wp_bind, wp_err; split; [by apply Hadds|done]].
  apply wp_bind. eapply wp_conseq.
  { apply (root_spec source destination fuel t1 (removelast destination) c d up es n t2 (mkDirEntry name (i, a)) Ht1 Hsp Hres He Hdest Hm). }
  intros r w [Hw Hr]. destruct r as [v|e]; [|split; [by apply Hadds|done]]. apply wp_ret. split; [by apply Hadds|]. intros _.
  intros q nm d' up' es' i' a' -> Hq' He' Hi' Hd' Hap. unfold parent in Hsame. rewrite removelast_last in *.
  pose proof (Hsame _ _ _ Hq' He') as ->. apply app_inj_tail in Hdest as [_ <-]. rewrite Hq' in Hres. injection Hres as <- <-.
  assert (Hii : i' = i /\ a' = a).
  { unfold node_at in Ei, Hi'. destruct (resolve t false source) as [[x ups]|] eqn:Ex; [|done].
    rewrite (resolve_extends t t2 false source (x, ups) Ht) in Ei; [|by apply only_adds_extends, (local_adds d' nm)|done].
    destruct (tr_nodes t !! x) as [m|] eqn:Em; [|done]. injection Hi' as -> ->.
    rewrite (lo_same _ _ _ _ Hl), Em in Ei; [by injection Ei|exact (to_bound _ Ht _ _ Em)|apply Hap, below_refl]. }
  destruct Hii as [<- <-]. destruct (Hr v eq_refl) as (j & fs & Hfs & Hj & Hcopy); [by repeat split|]. exists fs, j. by split_and!.
Qed.

Lemma split_go_nonempty c acc l : split_go c acc l <> [].
Proof. revert acc. induction l as [|a l IH]; intros acc; cbn; [done|]. destruct (Ascii.eqb a c); [done|apply IH]. Qed.
Lemma at_path_last p : exists q nm, at_path Y p = (q ++ [nm])%list.
Proof.
  assert (H : at_path Y p <> []).
  { unfold at_path, split_on. destruct (is_abs p); [apply split_go_nonempty|]. intros [_ Hn]%app_eq_nil. by eapply split_go_nonempty. }
  destruct (exists_last H) as (q & nm & ->). by exists q, nm.
Qed.

(** C11: Copying without leave to overwrite, whatever comes of it and whatever the
    system refuses: every file, link and directory there was is still there with
    its contents, mode and owner; directories have at most more entries. *)
Theorem copy_only_adds source destination recursive s r s' :
  tree_ok (st_tree s) -> copyPath Y fuel source destination recursive false s = (r, s') ->
  tree_ok (st_tree s') /\ only_adds (st_tree s) (st_tree s').
Proof.
  intros Ht Hc. cut (adds (st_tree s) (st_tree s')); [done|]. revert Hc. apply (wp_run _ (fun _ w => adds (st_tree s) w)).
  revert Ht. generalize (st_tree s) as t. intros t Ht.
  assert (Hrefl : adds t t) by by apply adds_refl. unfold copyPath. destruct (samePath _ _); [by apply wp_err|].
  apply wp_bind, wp_look. intros [info|e]; [|done]. destruct (at_path_last (resolveFilePath (sy_home Y) destination)) as (q & nm & ->).
  destruct (is_dir (snd info)).
  - destruct recursive; [|by apply wp_err]. destruct (pathContains _ _); [by apply wp_err|]. cbn [negb]. apply wp_bind.
    eapply wp_conseq; [by apply copy_directory_spec|]. intros [[]|e] w [Hw _]; [by apply wp_ret|done].
  - destruct (is_symlink (snd info)); apply wp_bind.
    + eapply wp_conseq; [by apply copy_link_adds|]. intros [[]|e] w Hw; [by apply wp_ret|done].
    + eapply wp_conseq; [by apply copy_file_adds|]. intros [[]|e] w Hw; [by apply wp_ret|done].
Qed.

(** C23: A directory copied to a place outside it is there as a copy: every entry, at
    any depth, has a counterpart of its name; a file its bytes, permission bits
    and time, a link its target, a directory its permission bits. *)
Theorem copied_directory_is_copy source destination s answer s' q nm d up es i a :
  tree_ok (st_tree s) -> copyPath Y fuel source destination true false s = (Ok answer, s') ->
  node_at (st_tree s) false (at_path Y (resolveFilePath (sy_home Y) source)) = Ok (i, a) -> is_dir a = true ->
  at_path Y (resolveFilePath (sy_home Y) destination) = (q ++ [nm])%list ->
  resolve (st_tree s) true q = Ok (d, up) -> entries_of (st_tree s) d = Some es ->
  (forall k, below (st_tree s) i k -> k <> d) ->
  exists es' j, entries_of (st_tree s') d = Some es' /\ es' !! nm = Some j /\
    is_copy (st_tree s) (st_tree s') (tr_next (st_tree s)) (tr_next (st_tree s')) i j.
Proof.
  intros Ht Hc. set (t := st_tree s) in *. intros Hi Ha Hdest Hq He Hap.
  cut (Ok answer = Ok (E := op_err) answer -> directory_copied t (at_path Y (resolveFilePath (sy_home Y) source)) (at_path Y (resolveFilePath (sy_home Y) destination)) (st_tree s')).
  { intros H. by eapply H. }
  revert Hc. apply (wp_run _ (fun r w => r = Ok answer -> directory_copied t _ _ w)). fold t.
  unfold copyPath. destruct (samePath _ _); [by apply wp_err|].
  apply wp_bind, wp_read; [done|]. rewrite Hi. cbn [snd]. rewrite Ha.
  destruct (pathContains _ _); [by apply wp_err|]. cbn [negb]. apply wp_bind.
  eapply wp_conseq; [by apply copy_directory_spec|]. intros [[]|e] w [Hw Hok]; [|done]. apply wp_ret. intros _. by apply Hok.
Qed.
End Copy.
