(* ===== verification/FileView.v ===== *)
(** * Looking at the tree: listing, describing and searching ([files/ops.go])

    They change nothing; a listing is in its order, and a search is bounded. *)

From stdpp Require Import sorting.
From S2P Require Import Prelude.
From S2P Require Import GoStd.
From S2P Require Import GoPath.
From S2P Require Import Files.
From S2P Require Import FileTree.
From S2P Require Import FileOps.

Local Open Scope string_scope.
Local Open Scope Z_scope.

(** ** What only looks *)

Section View.
Variable Y : System.
Variable to_lower : string -> string.
Variable fuel : nat.

Definition quiet {A} (m : F A) : Prop := forall s, st_tree (snd (m s)) = st_tree s /\ st_found (snd (m s)) = st_found s.
Lemma quiet_ret {A} (a : A) : quiet (f_ret a).
Proof. by intros s. Qed.
Lemma quiet_err {A} e : quiet (f_err (A := A) e).
Proof. by intros s. Qed.
Lemma quiet_bind {A B} (m : F A) (k : A -> F B) : quiet m -> (forall a, quiet (k a)) -> quiet (f_bind m k).
Proof.
  intros Hm Hk s. specialize (Hm s). unfold f_bind. destruct (m s) as [[a|e] s1]; cbn in *; [|done].
  destruct (Hk a s1) as [H1 H2], Hm as [H3 H4]. split; congruence.
Qed.
Lemma quiet_try {A} (m : F A) : quiet m -> quiet (f_try m).
Proof. intros Hm s. specialize (Hm s). unfold f_try. by destruct (m s). Qed.
Lemma reading_quiet {A} (f : Tree -> result A errno) : quiet (sys_read Y f).
Proof. intros s. unfold sys_read, sys. destruct (sy_refuse Y _); [done|]. by destruct (f (st_tree s)). Qed.
Ltac look := intros; repeat first [apply quiet_ret|apply quiet_err|apply reading_quiet|apply quiet_try|apply quiet_bind; [|intros]|break_match_goal].

Lemma describe_quiet p l : quiet (describeFile Y p l).
Proof. unfold describeFile. look. Qed.
Lemma marshal_quiet l : quiet (marshal l).
Proof. unfold marshal. look. Qed.
Lemma describe_all_quiet root l : quiet (describe_all Y root l).
Proof. induction l; cbn [describe_all]; [look|]. repeat (apply quiet_bind; [|intros]); [apply quiet_try, describe_quiet|done|look]. Qed.
Lemma list_quiet root : quiet (listFiles Y to_lower root).
Proof.
  unfold listFiles. apply quiet_bind; [apply reading_quiet|]. intros. apply quiet_bind; [apply describe_all_quiet|]. intros.
  apply quiet_bind; [apply marshal_quiet|look].
Qed.
Lemma roots_quiet : quiet (listFilesystemRoots Y).
Proof. unfold listFilesystemRoots. apply quiet_bind; [apply describe_quiet|]. intros. apply quiet_bind; [apply marshal_quiet|look]. Qed.
Lemma stat_quiet p : quiet (statFile Y p).
Proof.
  unfold statFile, isSymlink. apply quiet_bind; [look|]. intros. apply quiet_bind; [apply describe_quiet|]. intros.
  apply quiet_bind; [apply marshal_quiet|look].
Qed.

(** ** The search *)

(** The tree stays, and a search has not found more than it may. *)
Definition seen (t : Tree) (s : St) : Prop := st_tree s = t /\ (length (st_found s) <= searchResultLimit)%nat.
Definition looks {A} (m : F A) : Prop := forall t s, seen t s -> seen t (snd (m s)).
Lemma quiet_looks {A} (m : F A) : quiet m -> looks m.
Proof. intros Hm t s [Ht Hl]. destruct (Hm s) as [H1 H2]. split; congruence. Qed.
Lemma looks_bind {A B} (m : F A) (k : A -> F B) : looks m -> (forall a, looks (k a)) -> looks (f_bind m k).
Proof. intros Hm Hk t s Hs. specialize (Hm t s Hs). unfold f_bind. destruct (m s) as [[a|e] s1]; cbn in *; [by apply Hk|done]. Qed.
Ltac calm := intros; apply quiet_looks; look.

Lemma content_quiet p at_p q : quiet (matchFileContent Y to_lower p at_p q).
Proof. unfold matchFileContent. look. Qed.
(** A visit adds one match at most, and none when there are enough. *)
Lemma add_found (k : F verdict) t s m : quiet k -> st_tree s = t -> (length (st_found s) < searchResultLimit)%nat ->
  seen t (snd ((add_match m >> k) s)).
Proof.
  intros Hk Ht Hl. unfold f_bind, add_match. apply quiet_looks; [done|]. split; [done|]. cbn [st_found]. rewrite length_app. cbn [length]. lia.
Qed.
Lemma search_looks query content root p d e : looks (search_entry Y to_lower query content root p d e).
Proof.
  intros t s Hs. unfold search_entry. unfold f_bind at 1, full. destruct (Nat.leb_spec searchResultLimit (length (st_found s))) as [Hl|Hl]; [done|].
  destruct e as [e|]; [by destruct (drop _ p)|]. destruct d as [d|]; [|done].
  destruct (contains _ _ && _); [apply add_found; [look|apply Hs|done]|].
  destruct (content && _ && _); [|done]. unfold f_bind at 1.
  match goal with |- context [matchFileContent Y to_lower ?a ?b ?c s] => destruct (content_quiet a b c s) as [H1 H2]; destruct (matchFileContent Y to_lower a b c s) as [[[m|]|err] s1] end;
    cbn in H1, H2 |- *; destruct Hs as [Hs1 Hs2]; [|split; congruence..].
  split; cbn [st_tree st_found]; [congruence|]. rewrite length_app, H2. cbn [length]. lia.
Qed.
Lemma children_look walk p l : (forall q c, looks (walk q c)) -> looks (walk_children walk p l).
Proof.
  intros Hw. induction l as [|c l IH]; cbn [walk_children]; [calm|]. apply looks_bind; [apply Hw|]. intros [| |]; [done|calm..].
Qed.
Lemma walk_looks visit turns : (forall p d e, looks (visit p d e)) -> forall p d, looks (walk_dir Y visit turns p d).
Proof.
  intros Hv. induction turns as [|turns IH]; intros p d; cbn [walk_dir]; [calm|].
  apply looks_bind; [apply Hv|]. intros [| |]; [|calm..]. destruct (negb _); [calm|].
  apply looks_bind; [calm|]. intros [l|e]; [by apply children_look|]. apply looks_bind; [apply Hv|calm].
Qed.
Lemma WalkDir_looks visit turns root name : (forall p d e, looks (visit p d e)) -> looks (WalkDir Y visit turns root name).
Proof.
  intros Hv. unfold WalkDir. apply looks_bind; [calm|]. intros [n|e]; (apply looks_bind; [|calm]); [by apply walk_looks|apply Hv].
Qed.

(** C26: Listing, describing and searching leave the tree as it is, whatever the
    system refuses; a search answers 500 matches at most, and says that it was
    limited exactly when there are 500. *)
Theorem views_change_nothing args p s :
  st_tree (snd (listFiles Y to_lower p s)) = st_tree s /\ st_tree (snd (statFile Y p s)) = st_tree s /\
  st_tree (snd (listFilesystemRoots Y s)) = st_tree s /\ st_tree (snd (searchFiles Y to_lower fuel args s)) = st_tree s /\
  match fst (searchFiles Y to_lower fuel args s) with
  | Ok (PMatches l limited) => (length l <= searchResultLimit)%nat /\ (limited = true <-> length l = searchResultLimit)
  | Ok _ => False
  | Err _ => True
  end.
Proof.
  split; [apply list_quiet|]. split; [apply stat_quiet|]. split; [apply roots_quiet|].
  unfold searchFiles. destruct (_ =? _)%string; [done|]. unfold f_bind at 1 3.
  set (s0 := mkSt (st_tree s) (st_call s) []). unfold f_bind at 1 2.
  match goal with |- context [WalkDir Y ?v fuel ?r ?n s0] =>
    pose proof (WalkDir_looks v fuel r n (fun p d e => search_looks _ _ _ p d e) (st_tree s) s0) as Hw; destruct (WalkDir Y v fuel r n s0) as [[[]|e] s1] end;
    cbn -[Nat.leb searchResultLimit] in Hw |- *; (destruct Hw as [Ht Hl]; [split; [done|cbn; unfold searchResultLimit; lia]|]); [|done].
  split; [done|]. rewrite length_map. split; [done|]. rewrite Nat.leb_le. lia.
Qed.
End View.
