(* ===== verification/Downloads.v ===== *)
(** * Downloads ([files/stream.go], [sendDownloadStream])

    A range of a file is posted to the panel. The request goes out at most once;
    its body is what the file holds while it is sent. *)

From S2P Require Import Prelude.
From S2P Require Import GoStd.
From S2P Require Import GoUrl.
From S2P Require Import Files.
From S2P Require Import Workspace.
From S2P Require Import Relay.
From S2P Require Import FileTree.
From S2P Require Import FileOps.

Local Open Scope string_scope.
Local Open Scope Z_scope.

Inductive download_err :=
| InvalidRange | NoTransferURL (e : relay_err) | NotStated (e : op_err) | IsADirectory | BeyondTheEnd | FileChanged | NotOpened (e : op_err)
| NoSlot | RequestFailed | EndpointRefused (status : Z) (message : string).
(** The request: a section of an open file, with the length it declares. *)
Record Post := mkPost { po_URL : string; po_Length : Z; po_Header : gmap string string; po_File : nat; po_Offset : Z }.
(** What came of posting it: no answer, or a status and a body. *)
Inductive posted := Unanswered | Answered (status : Z) (message : string).

Section Download.
Variable Y : System.
Variable parse_url : string -> option URL.
Variable parse_time : string -> option time.
Variables (endpoint : string) (credential : Credential).
(** Is a slot free before the deadline, and what the panel answers. *)
Variable slot : bool.
Variable panel : Post -> bytes -> posted.

(** [io.SectionReader]: the bytes of the section the file has by then. A body
    shorter than its declared length fails the request. *)
Definition section (data : bytes) (offset length : Z) : bytes := of_chars (take (Z.to_nat length) (drop (Z.to_nat offset) (chars data))).
Definition expected_time (args : arguments) : option time :=
  let modified := trim_space (argString args "modified_at") in
  if (modified =? "")%string then None else parse_time modified.
Definition download_headers (args : arguments) (offset length : Z) : gmap string string :=
  let fileSize := argInt64 args "file_size" in
  let h := <["X-Komari-Transfer-Length" := itoa length]> (<["X-Komari-Transfer-Offset" := itoa offset]>
    (<["X-Komari-Transfer-Token" := trim_space (argString args "transfer_token")]>
    (<["X-Komari-Transfer-ID" := trim_space (argString args "transfer_id")]>
    (<["Accept-Encoding" := "identity"]> (<["Accept" := "application/json"]> (<["Content-Type" := "application/octet-stream"]> ∅)))))) in
  if 0 <? fileSize
  then <["Content-Range" := "bytes " ++ itoa offset ++ "-" ++ itoa (wrap64 (offset + length - 1)) ++ "/" ++ itoa fileSize]> h else h.
(** The result, the request if one was sent, and the system afterwards. *)
Definition sendDownloadStream (args : arguments) (s : St) : result Z download_err * option (Post * bytes) * St :=
  let p := FileTree.at_path Y (resolveFilePath (sy_home Y) (argString args "path")) in
  let offset := argInt64 args "offset" in
  let length := argInt64 args "length" in
  if (offset <? 0) || (length <=? 0) || (maxTransferChunkSize <? length) then (Err InvalidRange, None, s) else
  match buildFileTransferURL parse_url endpoint credential args with
  | Err e => (Err (NoTransferURL e), None, s)
  | Ok url =>
      match os_stat Y p s with
      | (Err e, s) => (Err (NotStated e), None, s)
      | (Ok (i, n), s) =>
          let size := node_size Y i n in
          if is_dir n then (Err IsADirectory, None, s)
          else if (size <? offset) || (size - offset <? length) then (Err BeyondTheEnd, None, s)
          else if (0 <? argInt64 args "file_size") && negb (size =? argInt64 args "file_size") then (Err FileChanged, None, s)
          else if match expected_time args with Some t => negb (nd_mtime n =? t) | None => false end then (Err FileChanged, None, s)
          else
            match os_open Y p s with
            | (Err e, s) => (Err (NotOpened e), None, s)
            | (Ok fd, s) =>
                if negb slot then (Err NoSlot, None, s) else
                let request := mkPost url length (download_headers args offset length) fd offset in
                match fd_read Y fd s with
                | (Err _, s) => (Err RequestFailed, Some (request, ""), s)
                | (Ok data, s) =>
                    let body := section data offset length in
                    if slen body <? length then (Err RequestFailed, Some (request, body), s) else
                    match panel request body with
                    | Unanswered => (Err RequestFailed, Some (request, body), s)
                    | Answered status message =>
                        if (status <? 200) || (300 <=? status)
                        then (Err (EndpointRefused status (trim_space (of_chars (take 4096 (chars message))))), Some (request, body), s)
                        else (Ok length, Some (request, body), s)
                    end
                end
            end
      end
  end.

Lemma chars_length s : length (chars s) = String.length s.
Proof. induction s as [|a s IH]; [done|]. cbn. by f_equal. Qed.
Lemma read_result {A} (f : Tree -> result A errno) s r s' : sys_read Y f s = (r, s') -> st_tree s' = st_tree s /\ forall a, r = Ok a -> f (st_tree s) = Ok a.
Proof.
  unfold sys_read, sys. destruct (sy_refuse Y _); [by intros [= <- <-]|]. destruct (f (st_tree s)) as [a|e]; intros [= <- <-]; (split; [done|]); by intros ? [= <-].
Qed.
Lemma stat_read t p i n data : node_at t true p = Ok (i, n) ->
  match nd_body <$> tr_nodes t !! i with Some (Regular data) => Ok data | Some (Directory _) => Err EISDIR | _ => Err EINVAL end = Ok data ->
  nd_body n = Regular data.
Proof.
  unfold node_at. destruct (resolve t true p) as [[j ups]|]; [|done]. destruct (tr_nodes t !! j) as [m|] eqn:Em; [|done].
  intros [= -> ->]. rewrite Em. cbn. by destruct (nd_body n); intros; simplify_eq.
Qed.
Lemma section_length data offset len : 0 < len -> slen (section data offset len) <? len = false -> slen (section data offset len) = len.
Proof. unfold slen, section. intros Hl He. apply Z.ltb_ge in He. rewrite <- chars_length, chars_of_chars, length_take in *. lia. Qed.
Ltac guard_as E := match goal with |- (if ?c then _ else _) = _ -> _ => destruct c eqn:E end.
(** C25: A download that succeeds has sent one request, for a range of at most 128
    MiB that lies in the file, whose body is exactly these bytes of the file and
    whose declared length is theirs; the panel has answered it with success. When
    it fails before that, nothing was sent. The tree is as it was. *)
Theorem download_sends_its_range args s r sent s' : sendDownloadStream args s = (r, sent, s') ->
  st_tree s' = st_tree s /\
  (forall sentLength, r = Ok sentLength -> exists post body i n data status message,
    sent = Some (post, body) /\ panel post body = Answered status message /\ 200 <= status < 300 /\
    node_at (st_tree s) true (FileTree.at_path Y (resolveFilePath (sy_home Y) (argString args "path"))) = Ok (i, n) /\
    nd_body n = Regular data /\ 0 <= po_Offset post /\ po_Offset post + po_Length post <= slen data /\
    0 < po_Length post <= maxTransferChunkSize /\ sentLength = po_Length post /\ slen body = po_Length post /\
    chars body = take (Z.to_nat (po_Length post)) (drop (Z.to_nat (po_Offset post)) (chars data)) /\
    (forall t, expected_time args = Some t -> nd_mtime n = t) /\
    (0 < argInt64 args "file_size" -> slen data = argInt64 args "file_size")) /\
  (forall e, r = Err e -> match e with RequestFailed | EndpointRefused _ _ => is_Some sent | _ => sent = None end).
Proof.
  unfold sendDownloadStream. set (p := FileTree.at_path Y _). set (offset := argInt64 args "offset"). set (len := argInt64 args "length").
  guard_as Erange; [intros [= <- <- <-]; split_and!; [done|done|by intros ? [= <-]]|].
  destruct (buildFileTransferURL _ _ _ _) as [url|e]; [|intros [= <- <- <-]; split_and!; [done|done|by intros ? [= <-]]].
  destruct (os_stat Y p s) as [[[i n]|e] s1] eqn:Es; apply read_result in Es as [Ht1 Hs]; [|intros [= <- <- <-]; split_and!; [done|done|by intros ? [= <-]]].
  specialize (Hs _ eq_refl). guard_as Ed; [intros [= <- <- <-]; split_and!; [done|done|by intros ? [= <-]]|].
  guard_as Eend; [intros [= <- <- <-]; split_and!; [done|done|by intros ? [= <-]]|].
  guard_as Esize; [intros [= <- <- <-]; split_and!; [done|done|by intros ? [= <-]]|].
  guard_as Etime; [intros [= <- <- <-]; split_and!; [done|done|by intros ? [= <-]]|].
  destruct (os_open Y p s1) as [[fd|e] s2] eqn:Eo; apply read_result in Eo as [Ht2 Ho]; [|intros [= <- <- <-]; split_and!; [congruence|done|by intros ? [= <-]]].
  specialize (Ho _ eq_refl). rewrite Ht1, Hs in Ho. injection Ho as <-.
  destruct slot; cbn [negb]; [|intros [= <- <- <-]; split_and!; [congruence|done|by intros ? [= <-]]].
  destruct (fd_read Y i s2) as [[data|e] s3] eqn:Ef; apply read_result in Ef as [Ht3 Hf];
    [|intros [= <- <- <-]; split_and!; [congruence|done|intros ? [= <-]; by eexists]].
  assert (Ht : st_tree s3 = st_tree s) by congruence. specialize (Hf _ eq_refl). cbn beta in Hf. rewrite Ht2, Ht1 in Hf.
  pose proof (stat_read _ _ _ _ _ Hs Hf) as Hn.
  guard_as Elen; [intros [= <- <- <-]; split_and!; [done|done|intros ? [= <-]; by eexists]|].
  destruct (panel _ _) as [|status message] eqn:Ep; [intros [= <- <- <-]; split_and!; [done|done|intros ? [= <-]; by eexists]|].
  guard_as Est; [intros [= <- <- <-]; split_and!; [done|done|intros ? [= <-]; by eexists]|].
  intros [= <- <- <-]. split; [done|]. split; [|by intros]. intros sentLength [= <-].
  unfold node_size in *. rewrite Hn in *. zbool. eexists _, _, i, n, data, status, message. split; [reflexivity|]. split; [exact Ep|].
  cbn [po_Offset po_Length]. split_and!; try done; try lia.
  - apply section_length; [lia|]. by apply Z.ltb_ge.
  - unfold section. by rewrite chars_of_chars.
  - intros t Et. rewrite Et in Etime. by zbool.
Qed.
End Download.
