(* ===== verification/FileDemo.v ===== *)
(** * A small directory tree

    A home directory with a file, a link and a directory, on which the theorems
    about copying are applied, and a move that loses data. *)

From S2P Require Import Prelude.
From S2P Require Import GoStd.
From S2P Require Import GoPath.
From S2P Require Import Inodes.
From S2P Require Import Files.
From S2P Require Import FileTree.
From S2P Require Import FileOps.
From S2P Require Import FileCopy.
From S2P Require Import GoUrl.
From S2P Require Import Relay.
From S2P Require Import Downloads.

Local Open Scope string_scope.
Local Open Scope Z_scope.

Definition fd_system : System :=
  mkSystem (fun _ => None) (fun n => Z.of_nat n + 100) (fun _ => ["1"; "2"]) 18 0 0 (fun p => p) [] (Some "/root") (fun _ => 4096)
    (Some ("root:x:0:0::/root:/bin/sh" ++ String "010" "")) None.
Definition fd_dir (l : list (string * nat)) : Node := mkNode (Directory (list_to_map l)) 493 0 0 1.
Definition fd_file (data : string) : Node := mkNode (Regular data) 420 0 0 7.
(** [/a/b/f], [/a/b/b/g], and [/a/l], a link to [b]. *)
Definition fd_tree : Tree :=
  mkTree (list_to_map
    [(0%nat, fd_dir [("a", 1%nat)]); (1%nat, fd_dir [("b", 2%nat); ("l", 6%nat)]); (2%nat, fd_dir [("f", 3%nat); ("b", 4%nat)]);
     (3%nat, fd_file "outer"); (4%nat, fd_dir [("g", 5%nat)]); (5%nat, fd_file "inner"); (6%nat, mkNode (Symlink "b") 511 0 0 1)]) 7.
Definition fd_start : St := mkSt fd_tree 0 [].

(** A tree is well formed when a run over its nodes says so. *)
Definition tree_check (t : Tree) : bool :=
  forallb (fun '(i, n) => Nat.ltb i (tr_next t) &&
    match nd_body n with
    | Directory es => forallb (fun '(c, j) => negb (special_name c) && bool_decide (is_Some (tr_nodes t !! j))) (map_to_list es)
    | _ => true
    end) (map_to_list (tr_nodes t)) && bool_decide (is_Some (entries_of t 0)).
Lemma tree_check_ok t : tree_check t = true -> tree_ok t.
Proof.
  unfold tree_check. intros [Hall H0]%andb_true_iff. rewrite forallb_In in Hall. apply bool_decide_eq_true in H0.
  assert (Hn : forall i n, tr_nodes t !! i = Some n -> (i < tr_next t)%nat /\
    forall es c j, nd_body n = Directory es -> es !! c = Some j -> is_Some (tr_nodes t !! j) /\ special_name c = false).
  { intros i n Hi%elem_of_map_to_list. specialize (Hall _ Hi). cbn in Hall. apply andb_true_iff in Hall as [Hl Hb]. apply Nat.ltb_lt in Hl.
    split; [done|]. intros es c j Hes Hc. rewrite Hes in Hb. rewrite forallb_In in Hb. apply elem_of_map_to_list in Hc. specialize (Hb _ Hc).
    cbn in Hb. apply andb_true_iff in Hb as [H1 H2]. apply negb_true_iff in H1. by apply bool_decide_eq_true in H2. }
  split; [intros i n Hi; by apply Hn in Hi as [? _]| |done].
  intros d es c i (n & Hd & Hb)%entries_of_node Hc. apply Hn in Hd as [_ Hd]. by eapply Hd.
Qed.
Lemma fd_tree_ok : tree_ok fd_tree.
Proof. apply tree_check_ok. vm_compute. reflexivity. Qed.

Lemma copy_only_adds_witness :
  fst (copyPath fd_system 9 "/a/b" "/c/d" true false fd_start) = Ok (PStatus Copied) /\
  only_adds fd_tree (st_tree (snd (copyPath fd_system 9 "/a/b" "/c/d" true false fd_start))).
Proof.
  split; [vm_compute; reflexivity|].
  exact (proj2 (copy_only_adds fd_system 9 "/a/b" "/c/d" true fd_start _ _ fd_tree_ok (surjective_pairing _))).
Defined.

(** Three bytes of a file, sent to a relay. *)
Definition fd_args : arguments :=
  list_to_map [("path", VString "/a/b/f"); ("offset", VNumber 1); ("length", VNumber 3); ("file_size", VNumber 5);
    ("_workspace_transfer_url", VString "http://127.0.0.1:9/t")].
Definition fd_url (_ : string) : option URL := Some (mkURL "http" "" None "127.0.0.1:9" "/t" "" false false "" "" "").
Definition fd_download : result Z download_err * option (Post * bytes) * St :=
  sendDownloadStream fd_system fd_url (fun _ => None) "https://p" (mkCredential "t" "" "") true (fun _ _ => Downloads.Answered 204 "") fd_args fd_start.
Lemma download_sends_its_range_witness : exists post,
  fst fd_download = (Ok 3, Some (post, "ute")) /\ po_Length post = 3 /\ st_tree (snd fd_download) = fd_tree.
Proof.
  destruct fd_download as [[r sent] s'] eqn:E.
  assert (Hr : (r, option_map snd sent) = (Ok 3, Some "ute")).
  { change r with (fst (fst (r, sent, s'))). change sent with (snd (fst (r, sent, s'))) at 2. rewrite <- E. vm_compute. reflexivity. }
  destruct (download_sends_its_range fd_system fd_url (fun _ => None) "https://p" (mkCredential "t" "" "") true (fun _ _ => Downloads.Answered 204 "")
    fd_args fd_start r sent s' E) as (Ht & Hok & _).
  injection Hr as -> Hs. destruct (Hok 3 eq_refl) as (post & body & _ & _ & _ & _ & _ & -> & _ & _ & _ & _ & _ & _ & _ & Hl & _).
  injection Hs as ->. exists post. split; [reflexivity|]. split; [symmetry; exact Hl|exact Ht].
Defined.

(** What lies below a directory is in any list that is closed. *)
Definition closed (t : Tree) (l : list nat) : bool :=
  forallb (fun k => match entries_of t k with Some es => forallb (fun e => bool_decide (snd e ∈ l)) (map_to_list es) | None => true end) l.
Lemma below_closed t l i k : closed t l = true -> i ∈ l -> below t i k -> k ∈ l.
Proof.
  intros Hc Hi. induction 1 as [|k es c j _ IH He Hj]; [done|]. unfold closed in Hc. rewrite forallb_In in Hc. specialize (Hc _ IH). rewrite He in Hc.
  rewrite forallb_In in Hc. apply elem_of_map_to_list in Hj. specialize (Hc _ Hj). by apply bool_decide_eq_true in Hc.
Qed.
Lemma copied_directory_is_copy_witness :
  exists es' j, entries_of (st_tree (snd (copyPath fd_system 9 "/a/b" "/e" true false fd_start))) 0 = Some es' /\ es' !! "e" = Some j /\
    is_copy fd_tree (st_tree (snd (copyPath fd_system 9 "/a/b" "/e" true false fd_start))) 7
      (tr_next (st_tree (snd (copyPath fd_system 9 "/a/b" "/e" true false fd_start)))) 2 j.
Proof.
  refine (copied_directory_is_copy fd_system 9 "/a/b" "/e" fd_start (PStatus Copied) _ [""] "e" 0 [] (list_to_map [("a", 1%nat)]) 2
    (fd_dir [("f", 3%nat); ("b", 4%nat)]) fd_tree_ok _ _ _ _ _ _ _); [|vm_compute; reflexivity..|].
  - apply run_outcome2. vm_compute. reflexivity.
  - intros k Hk ->. assert (H : 0%nat ∈ [2; 3; 4; 5]%nat).
    { eapply below_closed; [|left|exact Hk]. vm_compute. reflexivity. }
    set_solver.
Defined.

(** The files that can be reached from a directory. *)
Fixpoint reach (fuel : nat) (t : Tree) (i : nat) : list nat :=
  match fuel with
  | O => []
  | S fuel => i :: match entries_of t i with Some es => map_to_list es ≫= fun '(_, j) => reach fuel t j | None => [] end
  end.
Definition somewhere (data : string) (s : St) : bool :=
  existsb (fun i => match nd_body <$> tr_nodes (st_tree s) !! i with Some (Regular d) => (d =? data)%string | _ => false end)
    (reach (tr_next (st_tree s)) (st_tree s) 0).

(** [movePath] over an existing directory: [os.Rename] answers [EEXIST], which is
    17, which [isCrossDeviceRename] takes for another device. The source is
    merged into the destination, here onto itself, and then removed: what was in
    [/a/b/b/g] is nowhere, although the move succeeded. *)
Lemma move_over_parent_loses_data :
  fst (movePath fd_system 9 "/a/b" "/a" true fd_start) = Ok (PStatus Moved) /\
  somewhere "inner" fd_start = true /\ somewhere "inner" (snd (movePath fd_system 9 "/a/b" "/a" true fd_start)) = false.
Proof. vm_compute. repeat split. Qed.
(** [pathContains] compares texts: through a link a directory is copied into
    itself, and the walk meets what it has just made, without end. *)
Lemma copy_into_itself_through_link :
  Forall (fun fuel => fst (copyPath fd_system fuel "/a/b" "/a/l/x" true false fd_start) = Err Unfinished) [5; 10; 15]%nat.
Proof. repeat (apply List.Forall_cons; [vm_compute; reflexivity|]). apply List.Forall_nil. Qed.
