(* ===== verification/Worker.v ===== *)
(** * The loop of a file worker ([files/worker.go], [ServeWorker])

    The child of [Workspace]'s executor: it decodes requests, runs up to four at
    a time and writes each answer under a lock. A run is a sequence of what its
    goroutines do; what an operation answers is [FileOps.Execute]'s. *)

From S2P Require Import Prelude.
From S2P Require Import GoStd.
From S2P Require Import Files.
From S2P Require Import Workspace.

Local Open Scope string_scope.

Record workerRequest := mkWorkerRequest { wq_ID : string; wq_Operation : FileOperation; wq_Args : arguments }.
Record workerResponse := mkWorkerResponse { wr_ID : string; wr_Event : FileEvent }.
Definition slots : nat := 4.

(** Where the loop stands: decoding, waiting for a slot, waiting for the tasks
    after the end of the input, returned. *)
Inductive serving := Decoding | WaitingForSlot (r : workerRequest) | Draining | Returned (failed : bool).
Record Server := mkServer { sv_loop : serving; sv_tasks : gmap nat workerRequest; sv_next : nat; sv_output : list workerResponse }.
Definition start_server : Server := mkServer Decoding ∅ 0 [].

Inductive serve_event :=
| Decoded (r : workerRequest) | EndOfInput | DecodeFailed
| Answered (task : nat) (event : FileEvent).                 (** [Execute] returned and its answer is encoded *)
Definition start_task (r : workerRequest) (s : Server) : Server :=
  mkServer Decoding (<[sv_next s := r]> (sv_tasks s)) (S (sv_next s)) (sv_output s).
(** The slot comes free, and [tasks.Done]. *)
Definition end_task (task : nat) (response : workerResponse) (s : Server) : Server :=
  let s := mkServer (sv_loop s) (delete task (sv_tasks s)) (sv_next s) (sv_output s ++ [response]) in
  match sv_loop s with
  | WaitingForSlot r => start_task r s
  | Draining => if bool_decide (sv_tasks s = ∅) then mkServer (Returned false) ∅ (sv_next s) (sv_output s) else s
  | _ => s
  end.
Definition serve_step (e : serve_event) (s : Server) : Server :=
  match sv_loop s, e with
  | Returned _, _ => s
  | Decoding, Decoded r =>
      if Nat.ltb (size (sv_tasks s)) slots then start_task r s else mkServer (WaitingForSlot r) (sv_tasks s) (sv_next s) (sv_output s)
  | Decoding, EndOfInput =>
      mkServer (if bool_decide (sv_tasks s = ∅) then Returned false else Draining) (sv_tasks s) (sv_next s) (sv_output s)
  | Decoding, DecodeFailed => mkServer (Returned true) (sv_tasks s) (sv_next s) (sv_output s)
  | _, Answered task event =>
      match sv_tasks s !! task with
      | Some r => end_task task (mkWorkerResponse (wq_ID r) event) s
      | None => s
      end
  | _, _ => s
  end.
Definition ServeWorker (l : list serve_event) : Server := fold_left (fun s e => serve_step e s) l start_server.

(** ** Every request is answered once *)

(** The requests the loop took, in order, are those answered, running or waiting. *)
Fixpoint taken (l : list serve_event) (s : Server) : list workerRequest :=
  match l with
  | [] => []
  | e :: l => match sv_loop s, e with Decoding, Decoded r => r :: taken l (serve_step e s) | _, _ => taken l (serve_step e s) end
  end.
Definition waiting (s : Server) : list workerRequest := match sv_loop s with WaitingForSlot r => [r] | _ => [] end.
Definition accounted (s : Server) : list string :=
  (map wr_ID (sv_output s) ++ map (fun p => wq_ID (snd p)) (map_to_list (sv_tasks s)) ++ map wq_ID (waiting s))%list.
Record serve_ok (s : Server) : Prop := {
  so_fresh : forall k r, sv_tasks s !! k = Some r -> (k < sv_next s)%nat;
  so_slots : (size (sv_tasks s) <= slots)%nat;
  so_wait : forall r, sv_loop s = WaitingForSlot r -> size (sv_tasks s) = slots;
  so_done : sv_loop s = Returned false -> sv_tasks s = ∅ }.

Lemma start_task_ok r s : serve_ok s -> (size (sv_tasks s) < slots)%nat -> serve_ok (start_task r s) /\
  accounted (start_task r s) ≡ₚ (map wr_ID (sv_output s) ++ map (fun p => wq_ID (snd p)) (map_to_list (sv_tasks s)) ++ [wq_ID r])%list.
Proof.
  intros Hs Hl. assert (Hn : sv_tasks s !! sv_next s = None).
  { destruct (sv_tasks s !! sv_next s) eqn:E; [|done]. apply (so_fresh _ Hs) in E. lia. }
  split; [split|].
  - intros k r'. cbn. destruct (decide (k = sv_next s)) as [->|Hk]; [lia|]. rewrite lookup_insert_ne by done. intros H%(so_fresh _ Hs). lia.
  - cbn. rewrite map_size_insert_None by done. lia.
  - done.
  - done.
  - unfold accounted, waiting. cbn. rewrite app_nil_r. rewrite map_to_list_insert by done. cbn. apply Permutation_app_head. apply Permutation_cons_append.
Qed.
Lemma end_task_ok task r event s : serve_ok s -> sv_tasks s !! task = Some r ->
  serve_ok (end_task task (mkWorkerResponse (wq_ID r) event) s) /\
  accounted (end_task task (mkWorkerResponse (wq_ID r) event) s) ≡ₚ accounted s.
Proof.
  intros Hs Ht. set (s1 := mkServer (sv_loop s) (delete task (sv_tasks s)) (sv_next s) (sv_output s ++ [mkWorkerResponse (wq_ID r) event])).
  assert (Hsize : size (sv_tasks s) = S (size (delete task (sv_tasks s)))).
  { rewrite <- (insert_delete_id _ _ _ Ht) at 1. by rewrite map_size_insert_None by by rewrite lookup_delete_eq. }
  assert (Hbase : (map wr_ID (sv_output s1) ++ map (fun p => wq_ID (snd p)) (map_to_list (sv_tasks s1)))%list ≡ₚ
    (map wr_ID (sv_output s) ++ map (fun p => wq_ID (snd p)) (map_to_list (sv_tasks s)))%list).
  { unfold s1. cbn. rewrite map_app. cbn. rewrite <- app_assoc. cbn. rewrite <- (map_to_list_delete _ _ _ Ht). done. }
  assert (Hfresh : forall k r', sv_tasks s1 !! k = Some r' -> (k < sv_next s)%nat) by (intros k r'; cbn; intros [_ H]%lookup_delete_Some; by eapply so_fresh).
  assert (Hloop : sv_loop s1 = sv_loop s) by done. assert (Hsz : size (sv_tasks s1) = size (delete task (sv_tasks s))) by done.
  unfold end_task. fold s1. rewrite Hloop. pose proof (so_slots _ Hs).
  destruct (sv_loop s) as [|w| |f] eqn:El.
  - split; [split; [done|lia|by rewrite Hloop|by rewrite Hloop]|]. unfold accounted, waiting. rewrite Hloop, El. cbn [map]. by rewrite !app_nil_r, Hbase.
  - assert (H1 : serve_ok (mkServer Decoding (sv_tasks s1) (sv_next s) (sv_output s1))) by (split; [done|cbn [sv_tasks]; lia|done|done]).
    destruct (start_task_ok w _ H1 ltac:(cbn [sv_tasks]; lia)) as [H2 H3].
    change (start_task w s1) with (start_task w (mkServer Decoding (sv_tasks s1) (sv_next s) (sv_output s1))). split; [exact H2|]. rewrite H3.
    unfold accounted, waiting. rewrite El. cbn [map sv_output sv_tasks]. by rewrite !app_assoc, Hbase.
  - destruct (bool_decide (sv_tasks s1 = ∅)) eqn:Eb.
    + apply bool_decide_eq_true in Eb. split; [split; [by intros ? ?; cbn; rewrite lookup_empty|cbn; rewrite map_size_empty; unfold slots; lia|done|done]|]. unfold accounted, waiting. cbn [sv_loop sv_output sv_tasks map]. rewrite El. cbn [map].
      rewrite !app_nil_r, <- Hbase, Eb. by rewrite map_to_list_empty, app_nil_r.
    + split; [split; [done|lia|by rewrite Hloop|by rewrite Hloop]|]. unfold accounted, waiting. rewrite Hloop, El. cbn [map]. by rewrite !app_nil_r, Hbase.
  - split; [split; [done|lia|by rewrite Hloop|]|].
    + rewrite Hloop. intros [= ->]. pose proof (so_done _ Hs El) as He. by rewrite He, lookup_empty in Ht.
    + unfold accounted, waiting. rewrite Hloop, El. cbn [map]. by rewrite !app_nil_r, Hbase.
Qed.
Lemma serve_step_ok e s : serve_ok s -> serve_ok (serve_step e s) /\
  accounted (serve_step e s) ≡ₚ (accounted s ++ match sv_loop s, e with Decoding, Decoded r => [wq_ID r] | _, _ => [] end)%list.
Proof.
  intros Hs.
  assert (Hanswer : forall task event, serve_ok (match sv_tasks s !! task with Some r => end_task task (mkWorkerResponse (wq_ID r) event) s | None => s end) /\
    accounted (match sv_tasks s !! task with Some r => end_task task (mkWorkerResponse (wq_ID r) event) s | None => s end) ≡ₚ (accounted s ++ [])%list).
  { intros task event. rewrite app_nil_r. destruct (sv_tasks s !! task) eqn:Et; [by apply end_task_ok|done]. }
  unfold serve_step. destruct (sv_loop s) as [|w| |f] eqn:El; [|destruct e; rewrite ?app_nil_r; try done; rewrite <- (app_nil_r (accounted s)); apply Hanswer..|by rewrite app_nil_r].
  destruct e as [r| | |task event]; [|rewrite ?app_nil_r..|apply Hanswer].
  - destruct (Nat.ltb_spec (size (sv_tasks s)) slots) as [Hlt|Hge].
    + destruct (start_task_ok r s Hs Hlt) as [H1 H2]. split; [done|]. rewrite H2. unfold accounted, waiting. rewrite El. cbn [map]. by rewrite app_nil_r, app_assoc.
    + pose proof (so_slots _ Hs). split; [split; [apply Hs|done|cbn; lia|done]|]. unfold accounted, waiting. cbn [sv_loop sv_output sv_tasks map]. rewrite El. cbn [map].
      by rewrite app_nil_r, app_assoc.
  - split; [split; [apply Hs|apply Hs|by destruct (bool_decide _)|]|].
    + cbn. destruct (bool_decide _) eqn:Eb; [|done]. intros _. by apply bool_decide_eq_true in Eb.
    + unfold accounted, waiting. cbn [sv_loop sv_output sv_tasks]. rewrite El. by destruct (bool_decide _).
  - split; [split; [apply Hs|apply Hs|done|done]|]. unfold accounted, waiting. cbn [sv_loop sv_output sv_tasks]. by rewrite El.
Qed.
(** C24: A worker runs four operations at a time at most. Every request it took is
    answered, running or waiting for a slot, and answered once; when the loop has
    ended with the input, all of them are answered. *)
Theorem requests_are_answered_once l :
  let s := ServeWorker l in
  (size (sv_tasks s) <= slots)%nat /\ accounted s ≡ₚ map wq_ID (taken l start_server) /\
  (sv_loop s = Returned false -> map wr_ID (sv_output s) ≡ₚ map wq_ID (taken l start_server)).
Proof.
  cbn zeta. unfold ServeWorker.
  assert (H : forall s, serve_ok s -> serve_ok (fold_left (fun s e => serve_step e s) l s) /\
    accounted (fold_left (fun s e => serve_step e s) l s) ≡ₚ (accounted s ++ map wq_ID (taken l s))%list).
  { induction l as [|e l IH]; intros s Hs; cbn [fold_left taken]; [by rewrite app_nil_r|].
    destruct (serve_step_ok e s Hs) as [H1 H2]. destruct (IH _ H1) as [H3 H4]. split; [done|]. rewrite H4, H2, <- app_assoc.
    by destruct (sv_loop s), e. }
  destruct (H start_server) as [H1 H2]; [split; [by intros ? ?; cbn; rewrite lookup_empty|cbn; rewrite map_size_empty; unfold slots; lia|done|done]|]. cbn [app] in H2. split; [apply H1|]. split; [done|]. intros Hr. rewrite <- H2.
  unfold accounted, waiting. rewrite Hr, (so_done _ H1 Hr). by rewrite map_to_list_empty, !app_nil_r.
Qed.
