(* ===== verification/Update.v ===== *)
(** * Self-update ([update/update.go])

    Which release a snapshot build would install, and the gate in front of all of
    it: [CheckAndUpdate] refuses. The updater library and GitHub are parameters. *)

From S2P Require Import Prelude.
From S2P Require Import GoStd.
From S2P Require Import GoUrl.

Local Open Scope string_scope.
Local Open Scope Z_scope.

Definition snapshotVersionPrefix : string := "Snapshot-".
Inductive buildTrack := stableTrack | snapshotTrack.
Record githubReleaseAsset := mkAsset { as_ID : Z; as_Name : string; as_Size : Z; as_URL : string }.
Record githubRelease := mkRelease {
  gr_TagName : string; gr_Name : string; gr_Body : string; gr_Draft : bool; gr_Prerelease : bool; gr_HTMLURL : string;
  gr_PublishedAt : time; gr_Assets : list githubReleaseAsset }.
Record snapshotReleaseCandidate := mkCandidate {
  sc_TagName : string; sc_Name : string; sc_Body : string; sc_HTMLURL : string; sc_PublishedAt : time; sc_Asset : githubReleaseAsset }.

Definition detectBuildTrack (version : string) : buildTrack := if has_prefix version snapshotVersionPrefix then snapshotTrack else stableTrack.
Definition expectedAssetName (goos goarch : string) : string :=
  "komari-agent-" ++ goos ++ "-" ++ goarch ++ (if (goos =? "windows")%string then ".exe" else "").
Definition findReleaseAsset (release : githubRelease) (assetName : string) : option githubReleaseAsset :=
  List.find (fun asset => (as_Name asset =? assetName)%string) (gr_Assets release).
Definition candidate_of (release : githubRelease) (asset : githubReleaseAsset) : snapshotReleaseCandidate :=
  mkCandidate (gr_TagName release) (gr_Name release) (gr_Body release) (gr_HTMLURL release) (gr_PublishedAt release) asset.
(** The candidate of a release, if it is one. *)
Definition admissible (assetName : string) (release : githubRelease) : option snapshotReleaseCandidate :=
  if gr_Draft release || negb (gr_Prerelease release) || negb (has_prefix (gr_TagName release) snapshotVersionPrefix) then None
  else candidate_of release <$> findReleaseAsset release assetName.
(** Later, or as late with a greater tag. *)
Definition newer (c latest : snapshotReleaseCandidate) : bool :=
  after (sc_PublishedAt c) (sc_PublishedAt latest) ||
  ((sc_PublishedAt c =? sc_PublishedAt latest) && String.ltb (sc_TagName latest) (sc_TagName c)).
Definition select_step (assetName : string) (latest : option snapshotReleaseCandidate) (release : githubRelease) : option snapshotReleaseCandidate :=
  match admissible assetName release with
  | None => latest
  | Some c => match latest with None => Some c | Some l => if newer c l then Some c else latest end
  end.
Definition selectLatestSnapshotRelease (releases : list githubRelease) (assetName : string) : option snapshotReleaseCandidate :=
  fold_left (select_step assetName) releases None.
Definition snapshotNeedsUpdate (currentVersion : string) (latest : snapshotReleaseCandidate) : bool := negb (currentVersion =? sc_TagName latest)%string.
Definition splitRepoSlug (slug : string) : option (string * string) :=
  match split_on "/" slug with
  | [owner; repo] => if (owner =? "")%string || (repo =? "")%string then None else Some (owner, repo)
  | _ => None
  end.
Definition releases_endpoint (owner repo : string) (page : Z) : string :=
  "https://api.github.com/repos/" ++ PathEscape owner ++ "/" ++ PathEscape repo ++ "/releases?per_page=100&page=" ++ itoa page.

(** ** The check *)

Inductive update_err := SelfUpdateDisabled | BadSlug | ListFailed (page : Z) | NoExecutable | NotReplaced (tag : string) | NoVersion | CheckFailed | NoUpdater.
Inductive update_end := InContainer | NothingSuitable | Current | Replaced (tag : string).
(** What the updater is given ([selfupdate.Release]). *)
Record Release := mkSelfRelease {
  re_AssetURL : string; re_AssetByteSize : Z; re_AssetID : Z; re_URL : string; re_ReleaseNotes : string; re_Name : string;
  re_PublishedAt : time; re_RepoOwner : string; re_RepoName : string }.
Definition selfUpdateReleaseFromSnapshot (owner repo : string) (c : snapshotReleaseCandidate) : Release :=
  mkSelfRelease (as_URL (sc_Asset c)) (as_Size (sc_Asset c)) (as_ID (sc_Asset c)) (sc_HTMLURL c) (sc_Body c) (sc_Name c) (sc_PublishedAt c) owner repo.

Section Check.
Variables (CurrentVersion Repo goos goarch : string).
Variable container : bool.
(** A page of releases as GitHub answers it; [None] for any failure. *)
Variable page_of : string -> option (list githubRelease).
Variable executable : option string.
Variable update_to : Release -> string -> bool.
(** The library on a stable version: parsing, and updating to the latest. *)
Context {Version : Type}.
(** Whether its updater can be made. *)
Variable updater_made : bool.
Variable parse_version : string -> option Version.
Variable update_self : Version -> option (Version * bool).

(** The pages until one that is not full; [fuel] bounds their number. *)
Fixpoint list_pages (fuel : nat) (owner repo : string) (page : Z) : option (result (list githubRelease) update_err) :=
  match fuel with
  | O => None
  | S fuel =>
      match page_of (releases_endpoint owner repo page) with
      | None => Some (Err (ListFailed page))
      | Some l =>
          if Nat.ltb (length l) 100 then Some (Ok l)
          else match list_pages fuel owner repo (page + 1) with Some (Ok rest) => Some (Ok (l ++ rest)%list) | r => r end
      end
  end.
Definition listGitHubReleases (fuel : nat) (owner repo : string) := list_pages fuel owner repo 1.
Definition checkAndUpdateSnapshot (fuel : nat) : option (result update_end update_err) :=
  if container then Some (Ok InContainer) else
  match splitRepoSlug Repo with
  | None => Some (Err BadSlug)
  | Some (owner, repo) =>
      match listGitHubReleases fuel owner repo with
      | None => None
      | Some (Err e) => Some (Err e)
      | Some (Ok releases) =>
          match selectLatestSnapshotRelease releases (expectedAssetName goos goarch) with
          | None => Some (Ok NothingSuitable)
          | Some latest =>
              if negb (snapshotNeedsUpdate CurrentVersion latest) then Some (Ok Current) else
              match executable with
              | None => Some (Err NoExecutable)
              | Some path =>
                  if update_to (selfUpdateReleaseFromSnapshot owner repo latest) path
                  then Some (Ok (Replaced (sc_TagName latest))) else Some (Err (NotReplaced (sc_TagName latest)))
              end
          end
      end
  end.
(** [equal] says whether the library's version is the current one. *)
Definition checkAndUpdateStable (current : Version) (tag : Version -> string) : result update_end update_err :=
  match update_self current with
  | None => Err CheckFailed
  | Some (latest, equal) => Ok (if equal then Current else Replaced (tag latest))
  end.
Definition trim_v (version : string) : string := trim_prefix (trim_prefix version "v") "V".
Definition checkAndUpdateStandaloneLegacy (fuel : nat) (tag : Version -> string) : option (result update_end update_err) :=
  if negb updater_made then Some (Err NoUpdater) else
  match detectBuildTrack CurrentVersion with
  | snapshotTrack => checkAndUpdateSnapshot fuel
  | stableTrack =>
      match parse_version (trim_v CurrentVersion) with
      | None => Some (Err NoVersion)
      | Some current => Some (checkAndUpdateStable current tag)
      end
  end.
End Check.
(** What the daemon calls. *)
Definition CheckAndUpdate : result update_end update_err := Err SelfUpdateDisabled.
(** [DoUpdateWorks]: a check for each tick of six hours; its error is dropped. *)
Definition DoUpdateWorks (ticks : nat) : list (result update_end update_err) := replicate ticks CheckAndUpdate.

(** ** What is selected *)

Lemma string_ltb_trans a b c : String.ltb a b = true -> String.ltb b c = true -> String.ltb a c = true.
Proof.
  revert b c. induction a as [|x a IH]; intros [|y b] [|z c]; try done. unfold String.ltb in *. cbn [String.compare].
  destruct (Ascii.compare x y) eqn:E1; try done; intros H1; destruct (Ascii.compare y z) eqn:E2; try done; intros H2.
  - apply Ascii.compare_eq_iff in E1 as ->. rewrite E2. by eapply IH.
  - apply Ascii.compare_eq_iff in E1 as ->. by rewrite E2.
  - apply Ascii.compare_eq_iff in E2 as ->. by rewrite E1.
  - assert (Ascii.compare x z = Lt) as ->; [|done]. unfold Ascii.compare in *. rewrite N.compare_lt_iff in *. lia.
Qed.
Lemma string_ltb_irrefl a : String.ltb a a = false.
Proof. unfold String.ltb. assert (H : String.compare a a = Eq) by (pose proof (String.compare_antisym a a); by destruct (String.compare a a)). by rewrite H. Qed.
Lemma newer_trans a b c : newer a b = true -> newer b c = true -> newer a c = true.
Proof.
  unfold newer, after. rewrite !orb_true_iff, !andb_true_iff, !Z.ltb_lt, !Z.eqb_eq. intros [H1|[H1 S1]] [H2|[H2 S2]].
  - left. lia.
  - left. lia.
  - left. lia.
  - right. split; [lia|]. by eapply string_ltb_trans.
Qed.
Lemma newer_irrefl a : newer a a = false.
Proof. unfold newer, after. by rewrite Z.ltb_irrefl, string_ltb_irrefl, andb_false_r. Qed.

(** The release a snapshot build takes is one of those listed: a published
    prerelease with a snapshot tag that carries the asset of this platform; and no
    other such release is newer, by time and then by tag. None is taken only when
    there is none. *)
Theorem selected_release_is_newest releases assetName :
  match selectLatestSnapshotRelease releases assetName with
  | None => forall r, r ∈ releases -> admissible assetName r = None
  | Some l =>
      (exists r, r ∈ releases /\ gr_Draft r = false /\ gr_Prerelease r = true /\ has_prefix (gr_TagName r) snapshotVersionPrefix = true /\
         sc_TagName l = gr_TagName r /\ sc_PublishedAt l = gr_PublishedAt r /\ sc_Asset l ∈ gr_Assets r /\ as_Name (sc_Asset l) = assetName) /\
      forall r c, r ∈ releases -> admissible assetName r = Some c -> newer c l = false
  end.
Proof.
  assert (Hadm : forall r c, admissible assetName r = Some c -> gr_Draft r = false /\ gr_Prerelease r = true /\
    has_prefix (gr_TagName r) snapshotVersionPrefix = true /\ sc_TagName c = gr_TagName r /\ sc_PublishedAt c = gr_PublishedAt r /\
    sc_Asset c ∈ gr_Assets r /\ as_Name (sc_Asset c) = assetName).
  { intros r c. unfold admissible. destruct (gr_Draft r), (gr_Prerelease r), (has_prefix _ _); cbn; try done.
    destruct (findReleaseAsset r assetName) as [a|] eqn:Ea; [|done]. intros [= <-]. apply List.find_some in Ea as [Ha Hn].
    apply String.eqb_eq in Hn. apply list_elem_of_In in Ha. by split_and!. }
  cut (match selectLatestSnapshotRelease releases assetName with
       | None => forall r, r ∈ releases -> admissible assetName r = None
       | Some l => (exists r, r ∈ releases /\ admissible assetName r = Some l) /\
           forall r c, r ∈ releases -> admissible assetName r = Some c -> newer c l = false
       end).
  { destruct (selectLatestSnapshotRelease _ _) as [l|]; [|done]. intros [(r & Hr & Hl) H]. split; [|done]. exists r. split; [done|]. by apply Hadm. }
  unfold selectLatestSnapshotRelease. induction releases as [|r l IH] using rev_ind; [by intros r Hr%elem_of_nil|].
  rewrite fold_left_app. cbn [fold_left]. unfold select_step at 1. destruct (fold_left _ l None) as [b|].
  - destruct IH as [(rb & Hrb & Hb) IH]. destruct (admissible assetName r) as [c|] eqn:Ec; [destruct (newer c b) eqn:En|].
    + split; [exists r; split; [set_solver|done]|]. intros r' c' [Hr'|Hr']%elem_of_app Hc'.
      * destruct (newer c' c) eqn:E; [|done]. pose proof (newer_trans _ _ _ E En). by rewrite (IH r' c' Hr' Hc') in *.
      * apply list_elem_of_singleton in Hr' as ->. rewrite Ec in Hc'. injection Hc' as <-. apply newer_irrefl.
    + split; [exists rb; split; [set_solver|done]|]. intros r' c' [Hr'|Hr']%elem_of_app Hc'; [by eapply IH|].
      apply list_elem_of_singleton in Hr' as ->. rewrite Ec in Hc'. by injection Hc' as <-.
    + split; [exists rb; split; [set_solver|done]|]. intros r' c' [Hr'|Hr']%elem_of_app Hc'; [by eapply IH|].
      apply list_elem_of_singleton in Hr' as ->. congruence.
  - destruct (admissible assetName r) as [c|] eqn:Ec.
    + split; [exists r; split; [set_solver|done]|]. intros r' c' [Hr'|Hr']%elem_of_app Hc'; [by rewrite IH in Hc'|].
      apply list_elem_of_singleton in Hr' as ->. rewrite Ec in Hc'. injection Hc' as <-. apply newer_irrefl.
    + intros r' [Hr'|Hr']%elem_of_app; [by apply IH|]. by apply list_elem_of_singleton in Hr' as ->.
Qed.

(** The listing ends with the first page that is not full. *)
Lemma listing_ends page_of fuel owner repo k l : (k < fuel)%nat ->
  page_of (releases_endpoint owner repo (1 + Z.of_nat k)) = Some l -> (length l < 100)%nat ->
  listGitHubReleases page_of fuel owner repo <> None.
Proof.
  unfold listGitHubReleases. intros Hk Hp Hl. revert k fuel Hk Hp. generalize 1 as page.
  intros page k. revert page. induction k as [|k IH]; intros page [|fuel] Hk Hp; try lia; cbn [list_pages].
  - rewrite Z.add_0_r in Hp. rewrite Hp. apply Nat.ltb_lt in Hl. by rewrite Hl.
  - destruct (page_of (releases_endpoint owner repo page)) as [l0|]; [|done]. destruct (Nat.ltb _ _); [done|].
    specialize (IH (page + 1) fuel ltac:(lia)). rewrite <- Z.add_assoc in IH. specialize (IH ltac:(by replace (1 + Z.of_nat k) with (Z.of_nat (S k)) by lia)).
    by destruct (list_pages _ _ _ _ _) as [[]|].
Qed.
(** The daemon replaces nothing: every check it makes is refused. *)
Lemma daemon_never_updates ticks : Forall (fun r => r = Err SelfUpdateDisabled) (DoUpdateWorks ticks).
Proof. unfold DoUpdateWorks. apply Forall_replicate. done. Qed.
