(* ===== verification/Traffic.v ===== *)
(** * Traffic since the last reset ([utils/utils.go], [monitoring/unit/net.go])

    The panel sets the day of the month on which traffic starts over. The
    calendar is that of the host's clock: a date, and the time since its midnight;
    that each midnight exists is assumed. Counters of the interfaces and
    [filepath.Match] are parameters. *)

From S2P Require Import Prelude.
From S2P Require Import GoStd.
From S2P Require Import Disk.
From S2P Require Import External.
From S2P Require Import NetStatic.

Local Open Scope string_scope.
Local Open Scope Z_scope.

(** ** The calendar *)

Record Date := mkDate { d_Year : Z; d_Month : Z; d_Day : Z }.
Definition leap (y : Z) : bool := (y mod 4 =? 0) && (negb (y mod 100 =? 0) || (y mod 400 =? 0)).
Definition days_in (y m : Z) : Z :=
  if m =? 2 then (if leap y then 29 else 28) else if (m =? 4) || (m =? 6) || (m =? 9) || (m =? 11) then 30 else 31.
(** [time.Date] of the first day of a month that may be one past December. *)
Definition first_of (y m : Z) : Date := if 12 <? m then mkDate (y + 1) 1 1 else mkDate y m 1.
(** [AddDate(0, 0, -1)] *)
Definition day_before (d : Date) : Date :=
  if 1 <? d_Day d then mkDate (d_Year d) (d_Month d) (d_Day d - 1)
  else if 1 <? d_Month d then mkDate (d_Year d) (d_Month d - 1) (days_in (d_Year d) (d_Month d - 1))
  else mkDate (d_Year d - 1) 12 31.
Definition date_ltb (a b : Date) : bool :=
  (d_Year a <? d_Year b) || ((d_Year a =? d_Year b) && ((d_Month a <? d_Month b) || ((d_Month a =? d_Month b) && (d_Day a <? d_Day b)))).
(** The current moment: a date and what has passed since midnight. It lies
    before a midnight exactly when its date does. *)
Record Moment := mkMoment { mo_Date : Date; mo_Since : duration }.

Definition getActualResetDate (year month resetDay : Z) : Date :=
  let lastDayOfMonth := d_Day (day_before (first_of year (month + 1))) in
  if resetDay <=? lastDayOfMonth then mkDate year month resetDay
  else let '(nextYear, nextMonth) := if 12 <? month + 1 then (year + 1, 1) else (year, month + 1) in mkDate nextYear nextMonth 1.
Definition GetLastResetDate (resetDay : Z) (current : Moment) : Moment :=
  if (resetDay <? 1) || (31 <? resetDay) then current else
  let year := d_Year (mo_Date current) in
  let month := d_Month (mo_Date current) in
  let this := getActualResetDate year month resetDay in
  if negb (date_ltb (mo_Date current) this) then mkMoment this 0
  else let '(prevYear, prevMonth) := if month - 1 <? 1 then (year - 1, 12) else (year, month - 1) in
       mkMoment (getActualResetDate prevYear prevMonth resetDay) 0.

Definition date_ok (d : Date) : Prop := 1 <= d_Month d <= 12 /\ 1 <= d_Day d <= days_in (d_Year d) (d_Month d).
Definition date_le (a b : Date) : Prop := date_ltb b a = false.
Lemma date_ltb_spec a b : date_ltb a b = true <->
  d_Year a < d_Year b \/ d_Year a = d_Year b /\ (d_Month a < d_Month b \/ d_Month a = d_Month b /\ d_Day a < d_Day b).
Proof. unfold date_ltb. rewrite !orb_true_iff, !andb_true_iff, !orb_true_iff, !andb_true_iff, !Z.ltb_lt, !Z.eqb_eq. tauto. Qed.
Lemma date_le_spec a b : date_le a b <->
  d_Year a < d_Year b \/ d_Year a = d_Year b /\ (d_Month a < d_Month b \/ d_Month a = d_Month b /\ d_Day a <= d_Day b).
Proof. unfold date_le. rewrite <- not_true_iff_false, date_ltb_spec. lia. Qed.
Lemma days_in_range y m : 28 <= days_in y m <= 31.
Proof. unfold days_in. destruct (m =? 2); [destruct (leap y); lia|]. destruct (_ || _); lia. Qed.
(** The code's last day of a month is the month's length. *)
Lemma last_day y m : 1 <= m <= 12 -> d_Day (day_before (first_of y (m + 1))) = days_in y m.
Proof.
  intros Hm. unfold first_of. destruct (Z.ltb_spec 12 (m + 1)).
  - assert (m = 12) as -> by lia. reflexivity.
  - unfold day_before. cbn [d_Day d_Month d_Year]. destruct (Z.ltb_spec 1 (m + 1)); [|lia]. cbn. by replace (m + 1 - 1) with m by lia.
Qed.
(** A reset falls on its day, or on the first of the next month. *)
Lemma actual_cases y m k : 1 <= m <= 12 ->
  getActualResetDate y m k = mkDate y m k /\ k <= days_in y m \/
  days_in y m < k /\ (m < 12 /\ getActualResetDate y m k = mkDate y (m + 1) 1 \/ m = 12 /\ getActualResetDate y m k = mkDate (y + 1) 1 1).
Proof.
  intros Hm. unfold getActualResetDate. rewrite last_day by done. destruct (Z.leb_spec k (days_in y m)); [by left|right].
  split; [done|]. destruct (Z.ltb_spec 12 (m + 1)); [right|left]; (split; [lia|done]).
Qed.

(** The date found is a reset date that is not after today, and no reset date
    lies between it and today. *)
Theorem last_reset_is_the_latest k current :
  1 <= k <= 31 -> date_ok (mo_Date current) ->
  let r := mo_Date (GetLastResetDate k current) in
  mo_Since (GetLastResetDate k current) = 0 /\ date_le r (mo_Date current) /\
  (exists y m, 1 <= m <= 12 /\ r = getActualResetDate y m k) /\
  (forall y m, 1 <= m <= 12 -> date_le (getActualResetDate y m k) (mo_Date current) -> date_le (getActualResetDate y m k) r).
Proof.
  intros Hk [Hm Hd]. cbn zeta. unfold GetLastResetDate.
  destruct (Z.ltb_spec k 1); [lia|]. destruct (Z.ltb_spec 31 k); [lia|]. cbn [orb].
  destruct (mo_Date current) as [cy cm cd]. cbn [d_Year d_Month d_Day] in *.
  destruct (date_ltb (mkDate cy cm cd) (getActualResetDate cy cm k)) eqn:Elt; cbn [negb].
  - apply date_ltb_spec in Elt. set (prev := if cm - 1 <? 1 then (cy - 1, 12) else (cy, cm - 1)).
    assert (Hprev : exists py pm, prev = (py, pm) /\ 1 <= pm <= 12 /\ (1 < cm /\ py = cy /\ pm = cm - 1 \/ cm = 1 /\ py = cy - 1 /\ pm = 12)).
    { unfold prev. destruct (Z.ltb_spec (cm - 1) 1); eexists _, _; (split; [reflexivity|lia]). }
    destruct Hprev as (py & pm & -> & Hpm & Hp). cbn [mo_Date mo_Since]. split; [done|].
    pose proof (days_in_range py pm) as Hr.
    assert (Hle : date_le (getActualResetDate py pm k) (mkDate cy cm cd)).
    { apply date_le_spec. destruct (actual_cases py pm k Hpm) as [[-> ?]|[? [[? ->]|[? ->]]]]; cbn; lia. }
    split; [done|]. split; [by exists py, pm|]. intros y m Hym Hy.
    destruct (decide (y = py /\ m = pm)) as [[-> ->]|Hnp]; [apply date_le_spec; lia|].
    destruct (decide (y = cy /\ m = cm)) as [[-> ->]|Hnc]; [rewrite date_le_spec in Hy; lia|]. rewrite date_le_spec in *.
    destruct (actual_cases py pm k Hpm) as [[Ep ?]|[? [[? Ep]|[? Ep]]]]; rewrite Ep in *;
      destruct (actual_cases y m k Hym) as [[E ?]|[? [[? E]|[? E]]]]; rewrite E in *; cbn in *;
      destruct (actual_cases cy cm k Hm) as [[Ec ?]|[? [[? Ec]|[? Ec]]]]; rewrite Ec in *; cbn in *; lia.
  - cbn [mo_Date mo_Since]. split; [done|]. split; [exact Elt|]. split; [by exists cy, cm|].
    intros y m Hym Hy. destruct (decide (y = cy /\ m = cm)) as [[-> ->]|Hnc]; [apply date_le_spec; lia|]. change (date_le (getActualResetDate cy cm k) (mkDate cy cm cd)) in Elt. rewrite date_le_spec in *.
    destruct (actual_cases cy cm k Hm) as [[Ec ?]|[? [[? Ec]|[? Ec]]]]; rewrite Ec in *;
      destruct (actual_cases y m k Hym) as [[E ?]|[? [[? E]|[? E]]]]; rewrite E in *; cbn in *; lia.
Qed.
Lemma last_reset_is_the_latest_witness :
  mo_Date (GetLastResetDate 30 (mkMoment (mkDate 2023 3 15) 0)) = mkDate 2023 3 1 /\
  date_le (mkDate 2023 3 1) (mkDate 2023 3 15).
Proof.
  split; [vm_compute; reflexivity|].
  exact (proj1 (proj2 (last_reset_is_the_latest 30 (mkMoment (mkDate 2023 3 15) 0) ltac:(lia) ltac:(split; vm_compute; split; congruence)))).
Defined.

(** ** Which interfaces count *)

Definition loopbackNames : list string := ["br"; "cni"; "docker"; "podman"; "flannel"; "lo"; "veth"; "virbr"; "vmbr"; "tap"; "fwbr"; "fwpr"].
Definition nicPatterns (values : list string) : gset string :=
  list_to_set (List.filter (fun v => negb (v =? "")%string) (map trim_space values)).

Section Speed.
(** [filepath.Match]; a pattern that is malformed matches nothing. *)
Variable Match : string -> string -> bool.

Definition shouldInclude (nicName : string) (includeNics excludeNics : gset string) : bool :=
  if existsb (fun p => has_prefix nicName p) loopbackNames then false
  else if existsb (fun p => Match p nicName) (elements includeNics) then true
  else if existsb (fun p => Match p nicName) (elements excludeNics) then false
  else bool_decide (includeNics = ∅).
(** A counter of an interface: its name, what it sent and what it received. *)
Definition Counter : Type := string * (Z * Z).
Definition included (includeNics excludeNics : gset string) (l : list Counter) : list Counter :=
  List.filter (fun c => shouldInclude c.1 includeNics excludeNics) l.
Inductive traffic_err := CountersFailed | NoInterfaces.
Definition add_counter (t : Z * Z) (c : Counter) : Z * Z := (wrapu64 (t.1 + c.2.1), wrapu64 (t.2 + c.2.2)).
Definition collectNetworkTotals (ioCounters : option (list Counter)) (includeNics excludeNics : gset string) : result (Z * Z) traffic_err :=
  match ioCounters with
  | None => Err CountersFailed
  | Some [] => Err NoInterfaces
  | Some l => Ok (fold_left add_counter (included includeNics excludeNics l) (0, 0))
  end.
Definition InterfaceList (ioCounters : option (list Counter)) (includeNics excludeNics : gset string) : result (list string) traffic_err :=
  match ioCounters with
  | None => Err CountersFailed
  | Some l => Ok (map fst (included includeNics excludeNics l))
  end.

(** ** Speed *)

(** [uint64(float64(delta) / elapsed.Seconds())]. *)
Variable rate : Z -> duration -> Z.
Record networkSpeedState := mkSpeed { sp_totalUp : Z; sp_totalDown : Z; sp_sampledAt : option time }.
Definition safeCounterDelta (current previous : Z) : Z := if previous <=? current then current - previous else 0.
Definition updateNetworkSpeedSample (totalUp totalDown : Z) (now : time) (s : networkSpeedState) : (Z * Z) * networkSpeedState :=
  match sp_sampledAt s with
  | None => ((0, 0), mkSpeed totalUp totalDown (Some now))
  | Some at_ =>
      let elapsed := now - at_ in
      if elapsed <=? 0 then ((0, 0), s)
      else ((rate (safeCounterDelta totalUp (sp_totalUp s)) elapsed, rate (safeCounterDelta totalDown (sp_totalDown s)) elapsed),
            mkSpeed totalUp totalDown (Some now))
  end.
Definition getNetworkSpeedFallback (ioCounters : option (list Counter)) (includeNics excludeNics : gset string) (now : time) (s : networkSpeedState)
    : result (Z * Z * (Z * Z)) traffic_err * networkSpeedState :=
  match collectNetworkTotals ioCounters includeNics excludeNics with
  | Err e => (Err e, s)
  | Ok (up, down) => let '(speeds, s) := updateNetworkSpeedSample up down now s in (Ok (up, down, speeds), s)
  end.

(** ** Totals and speed *)

Context `{Json NetStatic}.
Variable SaveFilePath : string.
(** [Unix()] of a moment of the host's clock. *)
Variable unix_of : Moment -> Z.
Definition add_traffic (includeNics excludeNics : gset string) (t : Z * Z) (kv : string * TrafficData) : Z * Z :=
  if shouldInclude kv.1 includeNics excludeNics then (wrapu64 (t.1 + td_Tx kv.2), wrapu64 (t.2 + td_Rx kv.2)) else t.
(** Totals up and down, speeds up and down, and the error beside them. *)
Definition NetworkSpeed (include exclude : list string) (resetDay : Z) (now : time) (moment : Moment) (ioCounters : option (list Counter))
    (s : Sys) (sp : networkSpeedState) (w : World) : (Z * Z * (Z * Z)) * option traffic_err * Sys * networkSpeedState * World :=
  let includeNics := nicPatterns include in
  let excludeNics := nicPatterns exclude in
  if resetDay =? 0 then
    let '(r, sp) := getNetworkSpeedFallback ioCounters includeNics excludeNics now sp in
    (match r with Ok t => (t, None) | Err e => (0, 0, (0, 0), Some e) end, s, sp, w)
  else
    let '(_, s, w) := StartOrContinue SaveFilePath now s w in
    let start := wrapu64 (unix_of (GetLastResetDate resetDay moment)) in
    let '(s, nicStatics) := GetTotalTrafficBetween start (wrapu64 (unix_of moment)) s in
    let '(up, down) := fold_left (add_traffic includeNics excludeNics) (map_to_list nicStatics) (0, 0) in
    let '(r, sp) := getNetworkSpeedFallback ioCounters includeNics excludeNics now sp in
    (match r with Ok (_, _, speeds) => (up, down, speeds, None) | Err e => (up, down, (0, 0), Some e) end, s, sp, w).

Lemma wrapu64_swap a x y : wrapu64 (wrapu64 (a + x) + y) = wrapu64 (wrapu64 (a + y) + x).
Proof. unfold wrapu64. rewrite !Zplus_mod_idemp_l. f_equal. lia. Qed.
Lemma add_traffic_comm includeNics excludeNics t x y :
  add_traffic includeNics excludeNics (add_traffic includeNics excludeNics t x) y = add_traffic includeNics excludeNics (add_traffic includeNics excludeNics t y) x.
Proof.
  unfold add_traffic. destruct (shouldInclude x.1 _ _), (shouldInclude y.1 _ _); try done. cbn [fst snd]. f_equal; apply wrapu64_swap.
Qed.
(** The order in which Go ranges over the map does not show in the totals. *)
Lemma totals_do_not_depend_on_order includeNics excludeNics l l' : l ≡ₚ l' ->
  fold_left (add_traffic includeNics excludeNics) l (0, 0) = fold_left (add_traffic includeNics excludeNics) l' (0, 0).
Proof.
  intros Hp. generalize (0, 0). induction Hp as [|x l l' _ IH|x y l|l1 l2 l3 _ IH1 _ IH2]; intros t; cbn [fold_left].
  - done.
  - apply IH.
  - by rewrite add_traffic_comm.
  - by rewrite IH1.
Qed.
(** An interface named like a loopback or a virtual one never counts, not even
    when it is listed; without a list, the others count unless they are excluded. *)
Lemma shouldInclude_spec nicName includeNics excludeNics :
  shouldInclude nicName includeNics excludeNics = true <->
  (forall p, p ∈ loopbackNames -> has_prefix nicName p = false) /\
  ((exists p, p ∈ includeNics /\ Match p nicName = true) \/
   includeNics = ∅ /\ forall p, p ∈ excludeNics -> Match p nicName = false).
Proof.
  assert (Hex : forall f (l : list string), existsb f l = true <-> exists p, p ∈ l /\ f p = true).
  { intros f l. rewrite existsb_exists. split; intros (p & Hp & Hf); exists p; (split; [|done]); by apply list_elem_of_In. }
  assert (Hnx : forall f (l : list string), existsb f l = false <-> forall p, p ∈ l -> f p = false).
  { intros f l. rewrite <- not_true_iff_false, Hex. split; [|naive_solver congruence].
    intros Hn p Hp. destruct (f p) eqn:E; [|done]. destruct Hn. by exists p. }
  unfold shouldInclude. destruct (existsb (fun p => has_prefix nicName p) loopbackNames) eqn:El.
  - split; [done|]. intros [Hl _]. apply Hex in El as (p & Hp & Hf). by rewrite (Hl p Hp) in Hf.
  - rewrite Hnx in El. destruct (existsb (fun p => Match p nicName) (elements includeNics)) eqn:Ei.
    + apply Hex in Ei as (p & Hp & Hf). split; [|done]. intros _. split; [done|]. left. exists p. split; [by apply elem_of_elements|done].
    + rewrite Hnx in Ei. assert (Hni : forall p, p ∈ includeNics -> Match p nicName = false) by (intros p Hp; apply Ei; by apply elem_of_elements).
      destruct (existsb (fun p => Match p nicName) (elements excludeNics)) eqn:Ex.
      * apply Hex in Ex as (p & Hp & Hf). split; [done|]. intros [_ [(q & Hq & Hf')|[_ Hn]]]; [by rewrite Hni in Hf'|].
        rewrite Hn in Hf; [done|]. by apply elem_of_elements.
      * rewrite Hnx in Ex. rewrite bool_decide_eq_true. split.
        -- intros ->. split; [done|]. right. split; [done|]. intros p Hp. apply Ex. by apply elem_of_elements.
        -- intros [_ [(q & Hq & Hf')|[-> _]]]; [by rewrite Hni in Hf'|done].
Qed.
End Speed.
