(* ===== verification/Launch.v ===== *)
(** * From the command line to the first session ([cmd/root.go],
    [cmd/service_config.go], [cmd/service_discovery_linux.go],
    [cmd/autodiscovery.go], [cmd/flags], [utils/idna.go])

    Every command starts by putting its settings together: flags, the files of
    the installed service, the environment and a configuration file. The daemon
    then takes its locks, opens its stores and, with a discovery key, obtains a
    token. The settings are the map of [HostBootstrap]. *)

From S2P Require Import Prelude.
From S2P Require Import GoStd.
From S2P Require Import GoPath.
From S2P Require Import Disk.
From S2P Require Import External.
From S2P Require Import Privileged.
From S2P Require Import HostOps.
From S2P Require Import RuntimeConfig.
From S2P Require Import HostBootstrap.
From S2P Require Import HostFetch.
From S2P Require Import GoUrl.
From S2P Require Import Relay.
From S2P Require Import Startup.

Local Open Scope string_scope.
Local Open Scope Z_scope.

(** ** The environment *)

(** The [env] tags of [flags.Config], in the order of its fields. *)
Definition env_fields : list (string * string) := [
  ("auto-discovery-key", "AGENT_AUTO_DISCOVERY_KEY"); ("server-name", "AGENT_SERVER_NAME");
  ("disable-auto-update", "AGENT_DISABLE_AUTO_UPDATE"); ("token", "AGENT_TOKEN"); ("endpoint", "AGENT_ENDPOINT");
  ("ignore-unsafe-cert", "AGENT_IGNORE_UNSAFE_CERT"); ("reconnect-interval", "AGENT_RECONNECT_INTERVAL");
  ("info-report-interval", "AGENT_INFO_REPORT_INTERVAL"); ("custom-dns", "AGENT_CUSTOM_DNS");
  ("cf-access-client-id", "AGENT_CF_ACCESS_CLIENT_ID"); ("cf-access-client-secret", "AGENT_CF_ACCESS_CLIENT_SECRET");
  ("disable-remote-control", "AGENT_DISABLE_REMOTE_CONTROL"); ("show-warning", "AGENT_SHOW_WARNING");
  ("custom-ipv4", "AGENT_CUSTOM_IPV4"); ("custom-ipv6", "AGENT_CUSTOM_IPV6"); ("host-proc", "HOST_PROC");
  ("config-file", "AGENT_CONFIG_FILE"); ("prefer-ip-version", "AGENT_PREFER_IP_VERSION");
  ("runtime-state-file", "AGENT_RUNTIME_STATE_FILE"); ("privileged-state-file", "AGENT_PRIVILEGED_STATE_FILE");
  ("replay-state-file", "AGENT_REPLAY_STATE_FILE"); ("credentials-file", "AGENT_CREDENTIALS_FILE")].
(** The configuration keys that a public file may no longer hold. *)
Definition retired_keys : list string := ["interval"; "max_retries"; "include_nics"; "exclude_nics"; "include_mountpoints"; "month_rotate";
  "memory_include_cache"; "enable_gpu"; "detailed_gpu"; "get_ip_addr_from_nic"; "disable_compression"].
Definition no_underscores (s : string) : string := of_chars (List.filter (fun a => negb (Ascii.eqb a "_")) (chars s)).

Definition deny : string := "disable-remote-control".
Definition manifest_file : string := "service-manifest-file".

Inductive launch_err :=
| NoExecutable | LinkUnresolved | NoManifestOfService | UnitWithoutManifest (unit : string) | InstallationWithoutManifest (path : string)
| ManifestUnreadable (e : host_err) | ConfigUnreadable (e : io_err) | ConfigUntrusted | ConfigRetired | ConfigInvalid
| BadPreference | AccessIncomplete_ | Locked (e : io_err) | RuntimeInvalid (e : rc_err) | PrivilegedUnreadable (e : io_err)
| NoServerName | Unsent | StatusRefused (status : Z) (body : string) | NotDecoded | Refused_ (message : string) | NotSaved (e : io_err).

Section Launch.
Context `{SMf : StrictJson Manifest}.
(** [os.Getenv], and [os.Executable] with its links resolved. *)
Variable env : string -> string.
Variable executable : option (option string).
Variable parent_is_init : bool.
(** The unit files of the two directories, with what they hold when readable. *)
Variable units : list (string * option string).
(** The flags [--service-manifest] and [--standalone]. *)
Variable serviceManifestPath : string.
Variable standaloneMode : bool.
Variable lstat : string -> option Stat.
Variable is_regular : string -> bool.
Variable parse_float : string -> option Z.
(** [json.Unmarshal] onto the settings, and the keys of an object. *)
Variable merge_json : bytes -> Config -> option Config.
Variable json_keys : bytes -> option (list string).
Variable to_lower : string -> string.

Definition set_env (c : Config) (field : string * string) : Config :=
  let '(f, tag) := field in
  let v := env tag in
  if (v =? "")%string then c
  else match assoc f config_fields with
       | None => c
       | Some k => match parse_value parse_float k v with Some x => <[f := x]> c | None => c end
       end.
Definition loadFromEnv (c : Config) : Config := fold_left set_env env_fields c.

(** ** The installed service *)

Definition diagnoseMissingManifest (real : string) : option launch_err :=
  if parent_is_init && negb (env "INVOCATION_ID" =? "")%string then Some NoManifestOfService
  else match List.find (fun '(_, text) => match text with Some b => contains b real | None => false end) units with
       | Some (p, _) => Some (UnitWithoutManifest (base p))
       | None => if has_prefix real "/opt/komari/" || has_prefix real "/usr/lib/komari/" then Some (InstallationWithoutManifest real) else None
       end.
Definition is_missing (e : host_err) : bool := match e with HostIO NotExist => true | _ => false end.
Definition readServiceConfig (w : World) : result (option Manifest) launch_err * World :=
  match executable with
  | None => (Err NoExecutable, w)
  | Some None => (Err LinkUnresolved, w)
  | Some (Some real) =>
      let path := if (serviceManifestPath =? "")%string then join_path [dir real; "service-config.json"] else serviceManifestPath in
      match ReadManifest lstat is_regular path w with
      | (Ok m, w) => (Ok (Some m), w)
      | (Err e, w) =>
          if is_missing e && (serviceManifestPath =? "")%string then
            (match (if standaloneMode then None else diagnoseMissingManifest real) with Some e => Err e | None => Ok None end, w)
          else (Err (ManifestUnreadable e), w)
      end
  end.
(** [serviceConfig.apply]: paths that no flag has set. *)
Definition or_path (c : Config) (p : string * string) : Config := if (cfg_str p.1 c =? "")%string then <[p.1 := VStr p.2]> c else c.
Definition service_paths (m : Manifest) : list (string * string) :=
  [("credentials-file", mf_CredentialsFile m); ("runtime-state-file", mf_RuntimeStateFile m);
   ("privileged-state-file", mf_PrivilegedStateFile m); ("replay-state-file", mf_ReplayStateFile m); ("config-file", mf_ConfigFile m)].
Definition apply_service (installed : option Manifest) (c : Config) : Config :=
  match installed with
  | None => c
  | Some m => fold_left or_path (service_paths m) c
  end.

(** ** The configuration file *)

Definition is_retired (key : string) : bool :=
  existsb (fun name => (to_lower (no_underscores key) =? no_underscores name)%string) retired_keys.
Definition DecodeLocalConfig (data : bytes) (c : Config) : result Config launch_err :=
  match json_keys data with
  | None => Err ConfigInvalid
  | Some keys => if existsb is_retired keys then Err ConfigRetired else match merge_json data c with Some c => Ok c | None => Err ConfigInvalid end
  end.
(** A file of the reviewed installation, which only root may have written. *)
Definition is_protected (installed : option Manifest) (file : string) : bool :=
  match installed with
  | Some m => (mf_Version m =? ManifestVersion) &&
      ((file =? mf_ConfigFile m)%string || (file =? join_path [dir (mf_Executable m); "host-bootstrap.json"])%string)
  | None => false
  end.
Definition read_config (installed : option Manifest) (c : Config) (w : World) : result Config launch_err * World :=
  let file := cfg_str "config-file" c in
  if (file =? "")%string then (Ok c, w) else
  match read_file file w with
  | (Err e, w) => (Err (ConfigUnreadable e), w)
  | (Ok data, w) =>
      (if is_protected installed file then
         if negb (TrustedPath lstat file) then Err ConfigUntrusted
         else match merge_json data c with Some c => Ok c | None => Err ConfigInvalid end
       else DecodeLocalConfig data c, w)
  end.
(** What every command does first ([PersistentPreRunE]). *)
Definition bootstrap (c : Config) (w : World) : result (option Manifest * Config) launch_err * World :=
  match readServiceConfig w with
  | (Err e, w) => (Err e, w)
  | (Ok installed, w) =>
      let c := apply_service installed c in
      let c := match installed with Some m => <[manifest_file := VStr (mf_ManifestPath m)]> c | None => c end in
      let forceDeny := cfg_bool deny c in
      let c := loadFromEnv c in
      let forceDeny := forceDeny || cfg_bool deny c in
      match read_config installed c w with
      | (Err e, w) => (Err e, w)
      | (Ok c, w) => (Ok (installed, <[deny := VBool (cfg_bool deny c || forceDeny)]> c), w)
      end
  end.

(** ** What wins *)

Lemma set_env_other c p f : p.1 <> f -> set_env c p !! f = c !! f.
Proof.
  destruct p as [g tag]. cbn [fst set_env]. intros Hg. destruct (_ =? _)%string; [done|]. destruct (assoc g config_fields) as [k|]; [|done].
  destruct (parse_value _ k _); [|done]. by rewrite lookup_insert_ne.
Qed.
Lemma set_all_other l c f : f ∉ map fst l -> fold_left set_env l c !! f = c !! f.
Proof.
  revert c. induction l as [|p l IH]; intros c Hf; [done|]. cbn [fold_left]. cbn in Hf. rewrite IH by set_solver. apply set_env_other. set_solver.
Qed.
Lemma set_all_one l c f tag : NoDup (map fst l) -> (f, tag) ∈ l -> fold_left set_env l c !! f = set_env c (f, tag) !! f.
Proof.
  revert c. induction l as [|p l IH]; intros c Hn Hf; [by apply elem_of_nil in Hf|]. cbn [fold_left]. cbn in Hn. apply NoDup_cons in Hn as [Hp Hn].
  apply elem_of_cons in Hf as [<-|Hf].
  - by rewrite set_all_other.
  - rewrite IH by done. assert (Hne : p.1 <> f).
    { intros <-. apply Hp. apply list_elem_of_fmap. by exists (p.1, tag). }
    pose proof (set_env_other c p f Hne) as Hsame. revert Hsame. generalize (set_env c p) as c1. intros c1 Hsame. cbn [set_env].
    destruct (_ =? _)%string; [done|]. destruct (assoc f config_fields) as [k|]; [|done]. destruct (parse_value _ k _); [|done].
    by rewrite !lookup_insert_eq.
Qed.
Lemma env_fields_distinct : NoDup (map fst env_fields).
Proof. apply (bool_decide_unpack _). vm_compute. exact I. Qed.
(** A setting comes from the environment when it is set and can be parsed. *)
Lemma loadFromEnv_at f tag c : (f, tag) ∈ env_fields ->
  loadFromEnv c !! f =
    if (env tag =? "")%string then c !! f
    else match assoc f config_fields ≫= (fun k => parse_value parse_float k (env tag)) with Some x => Some x | None => c !! f end.
Proof.
  intros Hf. unfold loadFromEnv. rewrite (set_all_one _ _ f tag env_fields_distinct Hf). cbn [set_env].
  destruct (_ =? _)%string; [done|]. destruct (assoc f config_fields) as [k|]; cbn; [|done].
  destruct (parse_value _ k _); [by rewrite lookup_insert_eq|done].
Qed.
Lemma apply_service_deny installed c : apply_service installed c !! deny = c !! deny.
Proof.
  destruct installed as [m|]; [|done]. cbn [apply_service service_paths fold_left].
  assert (Ho : forall c p, p.1 <> deny -> or_path c p !! deny = c !! deny).
  { intros c' p Hp. unfold or_path. destruct (_ =? _)%string; [|done]. by rewrite lookup_insert_ne. }
  by rewrite !Ho.
Qed.
Lemma cfg_bool_same f (c c' : Config) : c !! f = c' !! f -> cfg_bool f c = cfg_bool f c'.
Proof. unfold cfg_bool. by intros ->. Qed.

(** Remote control denied by a flag or by the environment stays denied, whatever
    the installed service, the configuration file and the rest of the environment
    hold; a configuration file can only add a denial. *)
Theorem denial_is_kept c w m c' w' :
  bootstrap c w = (Ok (m, c'), w') ->
  (cfg_bool deny c = true \/ parse_bool (env "AGENT_DISABLE_REMOTE_CONTROL") = Some true) -> cfg_bool deny c' = true.
Proof.
  unfold bootstrap. destruct (readServiceConfig w) as [[installed|e] w1]; [|done].
  set (c1 := match installed with Some _ => _ | None => _ end). cbn zeta. destruct (read_config _ _ w1) as [[c2|e] w2]; [|done].
  intros [= <- <- <-] Hd. unfold cfg_bool at 1. rewrite lookup_insert_eq. apply orb_true_iff. right.
  assert (H1 : cfg_bool deny c1 = cfg_bool deny c).
  { apply cfg_bool_same. unfold c1. destruct installed as [m|]; [rewrite lookup_insert_ne by done|]; apply apply_service_deny. }
  apply orb_true_iff. destruct Hd as [Hd|Hd]; [left; by rewrite H1|right].
  unfold cfg_bool. rewrite (loadFromEnv_at deny "AGENT_DISABLE_REMOTE_CONTROL") by (apply (bool_decide_unpack _); vm_compute; exact I).
  destruct (String.eqb_spec (env "AGENT_DISABLE_REMOTE_CONTROL") "") as [He|He]; [by rewrite He in Hd|]. cbn. by rewrite Hd.
Qed.
(** A denial that is not spelled as [strconv.ParseBool] has it is passed over
    without a word. *)
Lemma unparsable_denial_is_ignored c w c' w' :
  env "AGENT_DISABLE_REMOTE_CONTROL" = "yes" -> env "AGENT_CONFIG_FILE" = "" -> cfg_bool deny c = false -> cfg_str "config-file" c = "" ->
  bootstrap c w = (Ok (None, c'), w') -> cfg_bool deny c' = false.
Proof.
  intros Hd Hf Hc Hcf. unfold bootstrap. destruct (readServiceConfig w) as [[[m|]|e] w1]; [|cbn [apply_service]; cbn zeta|done].
  { cbn zeta. by destruct (read_config _ _ w1) as [[c2|e] w2]. }
  assert (H1 : cfg_str "config-file" (loadFromEnv c) = "").
  { unfold cfg_str. rewrite (loadFromEnv_at "config-file" "AGENT_CONFIG_FILE") by (apply (bool_decide_unpack _); vm_compute; exact I). by rewrite Hf. }
  assert (H2 : cfg_bool deny (loadFromEnv c) = false).
  { rewrite <- Hc. apply cfg_bool_same. rewrite (loadFromEnv_at deny "AGENT_DISABLE_REMOTE_CONTROL") by (apply (bool_decide_unpack _); vm_compute; exact I). by rewrite Hd. }
  revert H1 H2. generalize (loadFromEnv c) as c1. intros c1 H1 H2.
  assert (Hr : read_config None c1 w1 = (Ok c1, w1)) by (unfold read_config; by rewrite H1). rewrite Hr, Hc, H2. intros Hb.
  assert (c' = <[deny := VBool (cfg_bool deny c1 || (false || false))]> c1) as -> by congruence.
  unfold cfg_bool at 1. rewrite lookup_insert_eq. by rewrite H2.
Qed.

Lemma or_path_at f c p : cfg_str f (or_path c p) = if (p.1 =? f)%string && (cfg_str f c =? "")%string then p.2 else cfg_str f c.
Proof.
  unfold or_path. destruct (String.eqb_spec p.1 f) as [->|Hn]; cbn [andb].
  - destruct (_ =? _)%string; [|done]. unfold cfg_str. by rewrite lookup_insert_eq.
  - destruct (_ =? _)%string; [|done]. unfold cfg_str. by rewrite lookup_insert_ne.
Qed.
Lemma or_paths_at f l c : NoDup (map fst l) ->
  cfg_str f (fold_left or_path l c) = if (cfg_str f c =? "")%string then default "" (assoc f l) else cfg_str f c.
Proof.
  revert c. induction l as [|p l IH]; intros c Hn; cbn [fold_left].
  - unfold assoc. cbn. by destruct (String.eqb_spec (cfg_str f c) "").
  - cbn in Hn. apply NoDup_cons in Hn as [Hp Hn]. rewrite IH, or_path_at by done. unfold assoc. cbn [List.find].
    destruct (String.eqb_spec p.1 f) as [<-|]; cbn [andb]; [|done]. destruct (String.eqb_spec (cfg_str p.1 c) "") as [He|He].
    + cbn. destruct (String.eqb_spec p.2 "") as [->|]; [|done]. destruct (List.find (fun e => (e.1 =? p.1)%string) l) as [q|] eqn:Eq; [|done].
      exfalso. apply List.find_some in Eq as [Hq Eq]. apply String.eqb_eq in Eq. apply Hp. rewrite <- Eq. apply list_elem_of_fmap.
      exists q. split; [done|]. by apply list_elem_of_In.
    + destruct (String.eqb_spec (cfg_str p.1 c) ""); done.
Qed.
Lemma cfg_str_same f (c c' : Config) : c !! f = c' !! f -> cfg_str f c = cfg_str f c'.
Proof. unfold cfg_str. by intros ->. Qed.

(** Without a configuration file, a text setting is the one of the environment;
    if that has none, of the command line; and a path neither names is the
    installed service's. *)
Theorem settings_precedence c w m c' w' f tag :
  bootstrap c w = (Ok (m, c'), w') -> (f, tag) ∈ env_fields -> assoc f config_fields = Some FStr ->
  env "AGENT_CONFIG_FILE" = "" -> cfg_str "config-file" c = "" -> from_option mf_ConfigFile "" m = "" ->
  cfg_str f c' =
    if negb (env tag =? "")%string then env tag
    else if negb (cfg_str f c =? "")%string then cfg_str f c
    else default "" (m ≫= fun m => assoc f (service_paths m)).
Proof.
  intros Hb Hf Hk Hec Hcc Hmc. unfold bootstrap in Hb. destruct (readServiceConfig w) as [[installed|e] w1]; [|done]. revert Hb.
  set (c1 := match installed with Some _ => _ | None => _ end). cbn zeta. intros Hb.
  assert (installed = m) as -> by (destruct (read_config _ _ w1) as [[?|?] ?]; congruence).
  assert (Hc1 : forall g, g <> manifest_file -> cfg_str g c1 = if (cfg_str g c =? "")%string then default "" (m ≫= fun m => assoc g (service_paths m)) else cfg_str g c).
  { intros g Hg. unfold c1. destruct m as [m|]; cbn [apply_service].
    - rewrite (cfg_str_same g _ (fold_left or_path (service_paths m) c)) by (rewrite lookup_insert_ne by done; done).
      apply or_paths_at. apply (bool_decide_unpack _). vm_compute. exact I.
    - by destruct (String.eqb_spec (cfg_str g c) ""). }
  assert (Hfile : cfg_str "config-file" (loadFromEnv c1) = "").
  { rewrite (cfg_str_same "config-file" _ c1).
    - rewrite Hc1, Hcc by done. destruct m as [m|]; [exact Hmc|done].
    - rewrite (loadFromEnv_at "config-file" "AGENT_CONFIG_FILE") by (apply (bool_decide_unpack _); vm_compute; exact I). by rewrite Hec. }
  assert (Hr : read_config m (loadFromEnv c1) w1 = (Ok (loadFromEnv c1), w1)) by (unfold read_config; by rewrite Hfile).
  rewrite Hr in Hb. assert (c' = <[deny := VBool (cfg_bool deny (loadFromEnv c1) || (cfg_bool deny c1 || cfg_bool deny (loadFromEnv c1)))]> (loadFromEnv c1)) as -> by congruence.
  assert (Hnd : f <> deny) by (intros ->; discriminate Hk).
  assert (Hnm : f <> manifest_file) by (intros ->; discriminate Hk).
  rewrite (cfg_str_same f _ (loadFromEnv c1)) by (by rewrite lookup_insert_ne).
  unfold cfg_str at 1. rewrite (loadFromEnv_at f tag _ Hf). destruct (String.eqb_spec (env tag) "") as [He|He]; cbn [negb].
  - change (match c1 !! f with Some (VStr s) => s | _ => "" end) with (cfg_str f c1). rewrite Hc1 by done. by destruct (_ =? _)%string.
  - rewrite Hk. done.
Qed.
End Launch.

(** ** Discovery *)

Record AutoDiscoveryConfig := mkDiscovery { di_UUID : string; di_Token : string }.
Record RegisterResponse := mkRegister { rr_Status : string; rr_Message : string; rr_UUID : string; rr_Token : string }.

Section Discovery.
Context `{JD : Json AutoDiscoveryConfig}.
Variable env : string -> string.
(** [os.Executable] and [os.Hostname]. *)
Variable program : option string.
Variable system_hostname : string.
(** [url.Parse], [URL.Port], [net.ParseIP] and [idna.ToASCII]. *)
Variable parse_url : string -> option URL.
Variable url_port : URL -> string.
Variable is_ip : string -> bool.
Variable idna : string -> option string.
(** What the panel answers to a request for an address, with its headers and
    the key in its body; the response as JSON. *)
Variable panel : string -> Header -> string -> option (Z * bytes).
Variable decode_response : bytes -> option RegisterResponse.

Definition with_host (h : string) (u : URL) : URL :=
  mkURL (U_Scheme u) (U_Opaque u) (U_User u) h (U_Path u) (U_RawPath u) (U_OmitHost u) (U_ForceQuery u) (U_RawQuery u) (U_Fragment u) (U_RawFragment u).
(** [utils.ConvertIDNToASCII]; on an error the code keeps the address it has. *)
Definition ConvertIDNToASCII (address : string) : string :=
  match parse_url address with
  | None => address
  | Some u =>
      let h := hostname (U_Host u) in
      if is_ip h then url_string u
      else match idna h with
           | None => address
           | Some ascii => url_string (with_host (if (url_port u =? "")%string then ascii else ascii ++ ":" ++ url_port u) u)
           end
  end.

Definition getAutoDiscoveryFilePath : string :=
  let configured := trim_space (env "AGENT_AUTO_DISCOVERY_FILE") in
  if negb (configured =? "")%string then configured
  else match program with None => "auto-discovery.json" | Some e => join_path [dir e; "auto-discovery.json"] end.
Definition loadAutoDiscoveryConfig (w : World) : result (option AutoDiscoveryConfig) launch_err * World :=
  match w_fs w !! getAutoDiscoveryFilePath with
  | None => (Ok None, w)
  | Some _ =>
      match read_file getAutoDiscoveryFilePath w with
      | (Err e, w) => (Err (ConfigUnreadable e), w)
      | (Ok data, w) => (match json_unmarshal data with Some c => Ok (Some c) | None => Err NotDecoded end, w)
      end
  end.
Definition saveAutoDiscoveryConfig (config : AutoDiscoveryConfig) (w : World) : result unit launch_err * World :=
  match json_marshal config with
  | None => (Err NotDecoded, w)
  | Some data =>
      match overwrite_file getAutoDiscoveryFilePath data 420 w with       (* 0o644 *)
      | (Err e, w) => (Err (NotSaved e), w)
      | (Ok _, w) => (Ok tt, w)
      end
  end.
Definition autoDiscoveryServerName (configured hostname : string) : option string :=
  if negb (trim_space configured =? "")%string then Some (trim_space configured)
  else if negb (trim_space hostname =? "")%string then Some (trim_space hostname)
  else None.
Definition register_url (c : Config) (serverName : string) : string :=
  ConvertIDNToASCII (trim_suffix (cfg_str "endpoint" c) "/") ++ "/api/clients/register?name=" ++ QueryEscape serverName.
Definition register_headers (c : Config) : Header :=
  ApplyAgentAuthentication (<["Content-Type" := "application/json"]> ∅)
    (mkCredential (cfg_str "auto-discovery-key" c) (cfg_str "cf-access-client-id" c) (cfg_str "cf-access-client-secret" c)).
(** The settings with the new token, and the address the request went to. *)
Definition registerWithAutoDiscovery (c : Config) (w : World) : result Config launch_err * option string * World :=
  match autoDiscoveryServerName (cfg_str "server-name" c) system_hostname with
  | None => (Err NoServerName, None, w)
  | Some serverName =>
      let url := register_url c serverName in
      if negb (bool_decide (is_Some (parse_url url))) then (Err Unsent, None, w) else
      match panel url (register_headers c) (cfg_str "auto-discovery-key" c) with
      | None => (Err Unsent, Some url, w)
      | Some (status, body) =>
          if negb (status =? 200) then (Err (StatusRefused status body), Some url, w) else
          match decode_response body with
          | None => (Err NotDecoded, Some url, w)
          | Some r =>
              if negb (rr_Status r =? "success")%string then (Err (Refused_ (rr_Message r)), Some url, w) else
              match saveAutoDiscoveryConfig (mkDiscovery (rr_UUID r) (rr_Token r)) w with
              | (Err e, w) => (Err e, Some url, w)
              | (Ok _, w) => (Ok (<["token" := VStr (rr_Token r)]> c), Some url, w)
              end
          end
      end
  end.
Definition handleAutoDiscovery (c : Config) (w : World) : result Config launch_err * option string * World :=
  match loadAutoDiscoveryConfig w with
  | (Ok (Some config), w) => (Ok (<["token" := VStr (di_Token config)]> c), None, w)
  | (_, w) => registerWithAutoDiscovery c w
  end.

(** A host registers once: when a registration has succeeded, every later start
    that can read the file uses the token it was given, whatever its flags say,
    and asks the panel for nothing. *)
Theorem discovery_registers_once `{JL : !JsonLaws AutoDiscoveryConfig} c w c1 url w1 c2 w2 :
  handleAutoDiscovery c w = (Ok c1, Some url, w1) ->
  (forall a, json_ok a) -> w_fs w2 = w_fs w1 -> w_faults w2 = [] ->
  exists w3, handleAutoDiscovery c2 w2 = (Ok (<["token" := VStr (cfg_str "token" c1)]> c2), None, w3) /\ w_fs w3 = w_fs w1.
Proof.
  intros Hh Hok Hfs Hfaults. unfold handleAutoDiscovery in Hh.
  assert (Hr : exists w0, registerWithAutoDiscovery c w0 = (Ok c1, Some url, w1)).
  { destruct (loadAutoDiscoveryConfig w) as [[[config|]|e] w0]; [done|by exists w0..]. }
  destruct Hr as [w0 Hr]. clear Hh. unfold registerWithAutoDiscovery in Hr.
  destruct (autoDiscoveryServerName _ _) as [name|]; [|done]. destruct (negb (bool_decide _)); [done|].
  destruct (panel _ _ _) as [[status body]|]; [|done]. destruct (negb (status =? 200)); [done|].
  destruct (decode_response body) as [r|]; [|done]. destruct (negb (_ =? _)%string); [done|].
  destruct (saveAutoDiscoveryConfig _ w0) as [[[]|e] w'] eqn:Es; [|done]. injection Hr as <- _ ->.
  unfold saveAutoDiscoveryConfig in Es. destruct (json_marshal _) as [data|] eqn:Em; [|done].
  destruct (overwrite_file _ data 420 w0) as [[[]|e] w'] eqn:Eo; [|done]. injection Es as ->.
  assert (Hf : exists f, w_fs w1 !! getAutoDiscoveryFilePath = Some f /\ f_data f = data).
  { unfold overwrite_file, call in Eo. destruct (hd false _); [done|]. injection Eo as <-. cbn. eexists. by rewrite lookup_insert_eq. }
  destruct Hf as (f & Hf & Hd). unfold handleAutoDiscovery, loadAutoDiscoveryConfig. rewrite Hfs, Hf.
  unfold read_file, call. rewrite Hfaults. cbn [hd w_fs]. rewrite Hfs, Hf, Hd, (json_roundtrip _ _ (Hok _) Em).
  unfold cfg_str at 1. rewrite lookup_insert_eq. eexists. by split.
Qed.
(** The token, which authenticates as this host, is saved for every account of
    the host to read. *)
Lemma discovery_token_is_world_readable config w w' :
  saveAutoDiscoveryConfig config w = (Ok tt, w') -> w_fs w !! getAutoDiscoveryFilePath = None ->
  exists data, json_marshal config = Some data /\ w_fs w' !! getAutoDiscoveryFilePath = Some (mkFile data 420).
Proof.
  unfold saveAutoDiscoveryConfig. destruct (json_marshal config) as [data|]; [|done].
  destruct (overwrite_file _ data 420 w) as [[[]|e] w1] eqn:Eo; [|done]. intros [= ->] Hn. exists data. split; [done|].
  unfold overwrite_file, call in Eo. destruct (hd false _); [done|]. injection Eo as <-. cbn. by rewrite Hn, lookup_insert_eq.
Qed.

(** ** The daemon *)

Context `{JS : Json Privileged.State} `{JR : Json persistedState} `{CR : Crypto} `{PD : ProtoDuration}.
(** [time.Duration(seconds * float64(time.Second))], from the bits. *)
Variable interval_of : Z -> duration.
Variable default_privileged default_runtime : string.

Definition cfg_int (f : string) (c : Config) : Z := match c !! f with Some (VInt z) => z | _ => 0 end.
Definition cfg_float (f : string) (c : Config) : Z := match c !! f with Some (VFloat b) => b | _ => 0 end.
Definition flags_of (c : Config) : RuntimeConfig.Config :=
  RuntimeConfig.mkConfig (cfg_str manifest_file c) (cfg_str "token" c) (interval_of (cfg_float "interval" c)) (cfg_str "include-nics" c)
    (cfg_str "exclude-nics" c) (cfg_str "include-mountpoints" c) (cfg_int "month-rotate" c) (cfg_bool "memory-include-cache" c)
    (cfg_bool "enable-gpu" c) (cfg_bool "detailed-gpu" c) (cfg_bool deny c) (cfg_bool "get-ip-addr-from-nic" c).
Definition launch_of (c : Config) : Launch :=
  mkLaunch (cfg_str "credentials-file" c) (cfg_str "privileged-state-file" c) (cfg_str manifest_file c) (cfg_str "endpoint" c) (cfg_str "token" c) (flags_of c).
Definition or_default (p d : string) : string := if (p =? "")%string then d else p.
(** The checks, the two locks, the two stores and discovery, before the first
    session. *)
Definition start_daemon (c : Config) (w : World) : result (Config * RuntimeConfig.Store * Privileged.Store) launch_err * World :=
  let prefer := cfg_str "prefer-ip-version" c in
  if negb ((prefer =? "") || (prefer =? "4") || (prefer =? "6"))%string then (Err BadPreference, w)
  else if xorb (cfg_str "cf-access-client-id" c =? "")%string (cfg_str "cf-access-client-secret" c =? "")%string then (Err AccessIncomplete_, w)
  else
  match Acquire (or_default (cfg_str "privileged-state-file" c) default_privileged ++ ".daemon.lock") w with
  | (Err e, w) => (Err (Locked e), w)
  | (Ok _, w) =>
  match Acquire (or_default (cfg_str "runtime-state-file" c) default_runtime ++ ".daemon.lock") w with
  | (Err e, w) => (Err (Locked e), w)
  | (Ok _, w) =>
  match RuntimeConfig.New default_runtime (FromFlags (flags_of c)) (cfg_str "runtime-state-file" c) w with
  | (Err e, w) => (Err (RuntimeInvalid e), w)
  | (Ok runtime, w) =>
  match Privileged.Open default_privileged (cfg_str "privileged-state-file" c) w with
  | (Err e, w) => (Err (PrivilegedUnreadable e), w)
  | (Ok priv, w) =>
      if (cfg_str "auto-discovery-key" c =? "")%string then (Ok (c, runtime, priv), w)
      else match handleAutoDiscovery c w with
           | (Err e, _, w) => (Err e, w)
           | (Ok c, _, w) => (Ok (c, runtime, priv), w)
           end
  end end end end.
End Discovery.

(** ** What is shown and reported *)

(** [config show]: an address without what could authenticate. *)
Definition redactedEndpoint (parse_url : string -> option URL) (value : string) : string :=
  if (value =? "")%string then "" else
  match parse_url value with
  | None => "<configured endpoint; redacted>"
  | Some u =>
      if (U_Host u =? "")%string || negb ((U_Scheme u =? "http")%string || (U_Scheme u =? "https")%string) then "<configured endpoint; redacted>"
      else url_string (mkURL (U_Scheme u) (U_Opaque u) None (U_Host u) (U_Path u) (U_RawPath u) (U_OmitHost u) (U_ForceQuery u) "" "" (U_RawFragment u))
  end.
(** What is shown does not depend on the user information, the query or the
    fragment. *)
Lemma redaction_forgets parse_url parse_url' v v' u user query fragment raw : v <> "" -> v' <> "" ->
  parse_url v = Some u ->
  parse_url' v' = Some (mkURL (U_Scheme u) (U_Opaque u) user (U_Host u) (U_Path u) (U_RawPath u) (U_OmitHost u) (U_ForceQuery u) query fragment raw) ->
  redactedEndpoint parse_url v = redactedEndpoint parse_url' v'.
Proof.
  intros Hv Hv' H H'. unfold redactedEndpoint. rewrite H, H'. cbn [U_Host U_Scheme].
  destruct (String.eqb_spec v ""), (String.eqb_spec v' ""); [done..|]. by destruct (_ || _).
Qed.

(** [recover verify] *)
Definition digest_limit : Z := 2 ^ 30.
Definition fileSHA256 `{Crypto} (data : bytes) : string := hex_encode (sha256 (of_chars (take (Z.to_nat digest_limit) (chars data)))).
Definition checksum_verified `{Crypto} (data : bytes) (expected : string) : bool :=
  equal_fold (fileSHA256 data) (trim_space expected).
(** What follows the first gibibyte is not looked at. *)
Lemma verification_ignores_the_rest `{Crypto} data rest expected : Z.of_nat (length (chars data)) = digest_limit ->
  checksum_verified (of_chars (chars data ++ rest)) expected = checksum_verified data expected.
Proof.
  intros Hl. unfold checksum_verified, fileSHA256. rewrite chars_of_chars, take_app_le by lia. by rewrite <- Hl, Nat2Z.id.
Qed.

(** [installation.Observe] *)
Record Observation := mkInstallation {
  in_ObservedAt : time; in_StartupId : string; in_OperatingSystem : string; in_PrivilegeMode : Z; in_Transport : string; in_Executable : string;
  in_ProcessUser : string; in_ProcessUserId : string; in_DisableAutoUpdate : option bool; in_IgnoreUnsafeCertificate : option bool;
  in_DisableRemoteControl : option bool; in_DaemonSelfUpdateSupported : option bool; in_ConfigFile : string; in_ServiceManifest : string;
  in_RuntimeStateFile : string; in_PrivilegedStateFile : string; in_ServiceName : string; in_InitSystem : string }.
Section Observe.
Context `{SMf : StrictJson Manifest}.
Variable lstat : string -> option Stat.
Variable is_regular : string -> bool.
Variable goos : string.
Variable program : option string.
Variable eval_links : string -> option string.
Variable current_user : option (string * string).
Variable default_privileged default_runtime : string.
Definition Observe (config : option Config) (startupID : string) (mode : Z) (now : time) (w : World) : Observation * World :=
  let executable := match program with Some e => default e (eval_links e) | None => "" end in
  let '(user, uid) := default ("", "") current_user in
  match config with
  | None => (mkInstallation now startupID goos mode "Connect-RPC" executable user uid None None None None "" "" "" "" "" "", w)
  | Some c =>
      let '(r, w) := ReadManifest lstat is_regular (cfg_str manifest_file c) w in
      let '(service, init) := match r with Ok m => (mf_ServiceName m, mf_InitSystem m) | Err _ => ("", "") end in
      (mkInstallation now startupID goos mode "Connect-RPC" executable user uid
         (Some (cfg_bool "disable-auto-update" c)) (Some (cfg_bool "ignore-unsafe-cert" c)) (Some (cfg_bool deny c)) (Some false)
         (cfg_str "config-file" c) (cfg_str manifest_file c) (or_default (cfg_str "runtime-state-file" c) default_runtime)
         (or_default (cfg_str "privileged-state-file" c) default_privileged) service init, w)
  end.
(** The seven settings the panel learns: an observation tells nothing of the
    others, the tokens, keys and addresses among them. *)
Lemma observation_tells_seven_settings c c' startupID mode now w :
  (forall f, f ∈ ["disable-auto-update"; "ignore-unsafe-cert"; deny; "config-file"; manifest_file; "runtime-state-file"; "privileged-state-file"] -> c !! f = c' !! f) ->
  Observe (Some c) startupID mode now w = Observe (Some c') startupID mode now w.
Proof.
  intros Hs. unfold Observe, cfg_bool, cfg_str. by rewrite !Hs by set_solver.
Qed.
End Observe.

(** ** A standalone start *)

Definition ln_manifests : StrictJson Manifest := {| decode_strict := fun _ => None |}.
Definition ln_env (name : string) : string :=
  if (name =? "AGENT_DISABLE_REMOTE_CONTROL")%string then "true" else if (name =? "AGENT_ENDPOINT")%string then "https://env" else "".
Definition ln_world : World := mkWorld ∅ [] [] [].
Definition ln_flags : Config := <["token" := VStr "t"]> (<["endpoint" := VStr "https://flag"]> default_config).
Definition ln_run : result (option Manifest * Config) launch_err * World :=
  let S := ln_manifests in
  bootstrap ln_env (Some (Some "/opt/agent/komari-agent")) false [] "" true (fun _ => None) (fun _ => true) (fun _ => None) (fun _ c => Some c)
    (fun _ => Some []) (fun s => s) ln_flags ln_world.
Lemma denial_is_kept_witness : exists c w, ln_run = (Ok (None, c), w) /\ cfg_bool deny c = true.
Proof.
  assert (E : match fst ln_run with Ok (None, _) => True | _ => False end) by (vm_compute; exact I).
  destruct ln_run as [[[[m|] c]|e] w] eqn:Er; try destruct E. exists c, w. split; [reflexivity|].
  exact (denial_is_kept (SMf := ln_manifests) ln_env (Some (Some "/opt/agent/komari-agent")) false [] "" true (fun _ => None) (fun _ => true) (fun _ => None)
    (fun _ c => Some c) (fun _ => Some []) (fun s => s) ln_flags ln_world None c w Er (or_intror eq_refl)).
Defined.
Lemma settings_precedence_witness : exists c w, ln_run = (Ok (None, c), w) /\ cfg_str "endpoint" c = "https://env".
Proof.
  assert (E : match fst ln_run with Ok (None, _) => True | _ => False end) by (vm_compute; exact I).
  destruct ln_run as [[[[m|] c]|e] w] eqn:Er; try destruct E. exists c, w. split; [reflexivity|].
  refine (settings_precedence (SMf := ln_manifests) ln_env (Some (Some "/opt/agent/komari-agent")) false [] "" true (fun _ => None) (fun _ => true) (fun _ => None)
    (fun _ c => Some c) (fun _ => Some []) (fun s => s) ln_flags ln_world None c w "endpoint" "AGENT_ENDPOINT" Er _ _ _ _ _);
    [apply (bool_decide_unpack _)|..]; vm_compute; try reflexivity; exact I.
Defined.

(** ** A registration *)

#[export] Instance AutoDiscoveryConfig_eq : EqDecision AutoDiscoveryConfig.
Proof. solve_decision. Defined.
#[export] Instance AutoDiscoveryConfig_countable : Countable AutoDiscoveryConfig.
Proof. by refine (inj_countable' (fun a => (di_UUID a, di_Token a)) (fun '(u, t) => mkDiscovery u t) _); intros []. Defined.
Definition ln_json : Json AutoDiscoveryConfig := countable_json AutoDiscoveryConfig.
Definition ln_laws : @JsonLaws AutoDiscoveryConfig ln_json := countable_json_laws AutoDiscoveryConfig.
Definition ln_key : Config := <["auto-discovery-key" := VStr "key"]> (<["endpoint" := VStr "https://p/"]> default_config).
Definition ln_url (_ : string) : option URL := Some (mkURL "https" "" None "p" "" "" false false "" "" "").
Definition ln_discover (c : Config) (w : World) : result Config launch_err * option string * World :=
  let J := ln_json in
  handleAutoDiscovery (fun _ => "") (Some "/opt/agent/komari-agent") "host" ln_url (fun _ => "") (fun _ => false) (fun h => Some h)
    (fun _ _ key => if (key =? "key")%string then Some (200, "ok") else None) (fun _ => Some (mkRegister "success" "" "u" "tok")) c w.
Lemma discovery_registers_once_witness : exists w3,
  cfg_str "token" (match fst (fst (ln_discover ln_key ln_world)) with Ok c => c | Err _ => ∅ end) = "tok" /\
  ln_discover default_config (forget_trace (snd (ln_discover ln_key ln_world))) = (Ok (<["token" := VStr "tok"]> default_config), None, w3).
Proof.
  set (run := ln_discover ln_key ln_world).
  assert (E : match run with (Ok c, Some _, w) => cfg_str "token" c = "tok" /\ w_faults w = [] | _ => False end) by (vm_compute; split; reflexivity).
  destruct run as [[[c|e] [url|]] w] eqn:Er; try destruct E. cbn [fst snd].
  destruct (discovery_registers_once (JD := ln_json) (fun _ => "") (Some "/opt/agent/komari-agent") "host" ln_url (fun _ => "") (fun _ => false) (fun h => Some h)
    (fun _ _ key => if (key =? "key")%string then Some (200, "ok") else None) (fun _ => Some (mkRegister "success" "" "u" "tok"))
    (JL := ln_laws) ln_key ln_world c url w default_config (forget_trace w) Er (fun _ => I) eq_refl H0) as (w3 & Hw & _).
  exists w3. split; [exact H|]. rewrite H in Hw. exact Hw.
Defined.
