(* ===== verification/Login.v ===== *)
(** * Enrolling and unenrolling by hand ([cmd/login.go], and the login store of
    [cmd/service_config.go])

    The commands an operator runs: each opens the credentials, decides from what
    they hold, talks to the panel and saves what it was given. The conversation
    with the panel is [Enrollment]'s, the file [Credentials]'s. *)

From S2P Require Import Prelude.
From S2P Require Import GoStd.
From S2P Require Import GoPath.
From S2P Require Import Disk.
From S2P Require Import External.
From S2P Require Import Credentials.
From S2P Require Import HostOps.
From S2P Require Import Enrollment.
From S2P Require Import Renewal.

Local Open Scope string_scope.
Local Open Scope Z_scope.

(** ** What a command meets *)

(** The installed service as the commands see it: the account it runs as and the
    credentials it uses. *)
Record Caller := mkCaller { ca_euid : Z; ca_service : option Manifest; ca_NoPin : bool; ca_Endpoint : string; ca_CredentialsFile : string }.
(** What the conversation brings: random bytes, the panel's answers, the clock. *)
Record Conversation := mkConversation {
  co_drawn : option (bytes * bytes); co_begin : option BeginResponse; co_events : list poll_event; co_approved_at : time;
  co_bundle : option TrustBundle; co_saved_at : time; co_pinned_at : time }.
Record RefreshTalk := mkRefreshTalk {
  rt_uuid : string; rt_begun_at : time; rt_t0 : time; rt_t1 : time; rt_t2 : time; rt_timestamp : string; rt_nonce : string;
  rt_bundle : option TrustBundle; rt_call : string -> SignedEnvelope -> option (option SignedEnvelope * option AgentCredentials);
  rt_committed_at : time }.

Inductive login_err :=
| AddressRequired | StoreUnreadable (e : io_err) | AlreadyEnrolled (endpoint agent : string) | MustRunAs (account : string)
| NotWritable (e : io_err) | NotRemoved (e : io_err) | BadAddress (e : enroll_err) | NotEnrolled_ | Refused (e : enroll_err)
| NotStored (e : cred_err) | TrustUnavailable | EmptyTrust | NotPinned (e : cred_err).

Section Login.
Context `{Crypto} `{ProtoTime} `{ProtoDuration} `{Json Identity}.
Context `{Json refreshV2Request} `{StrictJson refreshV2Response} `{Wire AgentCredentials}.
Variable raw_url_b64 : bytes -> string.
Variable uuid_ok : string -> bool.
Variable parse_address : string -> option Address.
Variable show_address : Address -> string.
Variable default_credentials : string.

(** [prepareLoginStore]: can the file be written, before the panel is asked. *)
Definition prepareLoginStore (a : Caller) (path : string) (w : World) : result unit login_err * World :=
  let wrong := match ca_service a with
               | Some m => (ca_euid a =? 0) && negb (mf_ServiceUser m =? "")%string && negb (mf_ServiceUser m =? "root")%string &&
                           (GoPath.clean path =? GoPath.clean (mf_CredentialsFile m))%string
               | None => false
               end in
  if wrong then (Err (MustRunAs (from_option mf_ServiceUser "" (ca_service a))), w) else
  match mkdir_all (dir path) w with
  | (Err e, w) => (Err (NotWritable e), w)
  | (Ok _, w) =>
      match create_temp (dir path) ".komari-login-" w with
      | (Err e, w) => (Err (NotWritable e), w)
      | (Ok name, w) =>
          match close_file name w with
          | (Err e, w) => (Err (NotWritable e), snd (remove name w))
          | (Ok _, w) => match remove name w with (Err e, w) => (Err (NotRemoved e), w) | (Ok _, w) => (Ok tt, w) end
          end
      end
  end.

(** [pinTrust] *)
Definition pinTrust (now : time) (bundle : option TrustBundle) (s : Store) (w : World) : result unit login_err * Store * World :=
  match FetchTrustBundle bundle with
  | None => (Err TrustUnavailable, s, w)
  | Some (keys, algorithms, all, minimum) =>
      match keys with
      | [] => (Err EmptyTrust, s, w)
      | _ => match PinTrustBundle now keys algorithms all minimum s w with
             | (Err e, s, w) => (Err (NotPinned e), s, w)
             | (Ok _, s, w) => (Ok tt, s, w)
             end
      end
  end.

(** [login]: [None] while the operator has not decided. The warning is why the
    keys could not be pinned. *)
Definition login (a : Caller) (t : Conversation) (w : World) : option (result (Identity * option login_err) login_err) * World :=
  if blank (ca_Endpoint a) then (Some (Err AddressRequired), w) else
  match Credentials.Open default_credentials (ca_CredentialsFile a) w with
  | (Err e, w) => (Some (Err (StoreUnreadable e)), w)
  | (Ok store, w) =>
      let '(existing, present) := StoreIdentity store in
      if present && negb (id_AgentID existing =? "")%string
      then (Some (Err (AlreadyEnrolled (id_Endpoint existing) (id_AgentID existing))), w) else
      match prepareLoginStore a (st_path store) w with
      | (Err e, w) => (Some (Err e), w)
      | (Ok _, w) =>
          match normalizeEndpoint parse_address show_address (ca_Endpoint a) with
          | Err e => (Some (Err (BadAddress e)), w)
          | Ok endpoint =>
              match fst (enroll raw_url_b64 endpoint (co_drawn t) None (co_begin t) (co_events t) (co_approved_at t)) with
              | None => (None, w)
              | Some (Err e) => (Some (Err (Refused e)), w)
              | Some (Ok identity) =>
                  match Save (co_saved_at t) identity store w with
                  | (Err e, _, w) => (Some (Err (NotStored e)), w)
                  | (Ok _, store, w) =>
                      if ca_NoPin a then (Some (Ok (identity, None)), w)
                      else match pinTrust (co_pinned_at t) (co_bundle t) store w with
                           | (Err e, _, w) => (Some (Ok (identity, Some e)), w)
                           | (Ok _, _, w) => (Some (Ok (identity, None)), w)
                           end
                  end
              end
          end
      end
  end.

(** [refresh] *)
Definition refresh (a : Caller) (t : RefreshTalk) (w : World) : result Identity login_err * World :=
  match Credentials.Open default_credentials (ca_CredentialsFile a) w with
  | (Err e, w) => (Err (StoreUnreadable e), w)
  | (Ok store, w) =>
      let '(identity, present) := StoreIdentity store in
      if negb present then (Err NotEnrolled_, w) else
      match normalizeEndpoint parse_address show_address (id_Endpoint identity) with
      | Err e => (Err (BadAddress e), w)
      | Ok _ =>
          match BeginRefresh (rt_begun_at t) (rt_uuid t) store w with
          | (Err e, _, w) => (Err (NotStored e), w)
          | (Ok pending, store, w) =>
              match Refresh uuid_ok (rt_t0 t) (rt_t1 t) (rt_t2 t) (rt_timestamp t) (rt_nonce t) (rt_bundle t) (rt_call t) pending with
              | Err e => (Err (Refused e), w)
              | Ok renewed =>
                  match CommitRefresh (rt_committed_at t) pending renewed store w with
                  | (Err e, _, w) => (Err (NotStored e), w)
                  | (Ok _, _, w) => (Ok renewed, w)
                  end
              end
          end
      end
  end.

(** [reauth]: [Ok None] when the sign-in has not expired. *)
Definition reauth (a : Caller) (now : time) (t : Conversation) (w : World) : option (result (option Identity) login_err) * World :=
  match Credentials.Open default_credentials (ca_CredentialsFile a) w with
  | (Err e, w) => (Some (Err (StoreUnreadable e)), w)
  | (Ok store, w) =>
      let '(identity, present) := StoreIdentity store in
      if negb present then (Some (Err NotEnrolled_), w) else
      if negb (RefreshExpired identity now) then (Some (Ok None), w) else
      match normalizeEndpoint parse_address show_address (id_Endpoint identity) with
      | Err e => (Some (Err (BadAddress e)), w)
      | Ok endpoint =>
          match Reauth raw_url_b64 endpoint (co_drawn t) identity (co_begin t) (co_events t) (co_approved_at t) with
          | None => (None, w)
          | Some (Err e) => (Some (Err (Refused e)), w)
          | Some (Ok renewed) =>
              match Save (co_saved_at t) renewed store w with
              | (Err e, _, w) => (Some (Err (NotStored e)), w)
              | (Ok _, _, w) => (Some (Ok (Some renewed)), w)
              end
          end
      end
  end.

(** [logout]: the agent that was removed. *)
Definition logout (a : Caller) (w : World) : result (option string) login_err * World :=
  match Credentials.Open default_credentials (ca_CredentialsFile a) w with
  | (Err e, w) => (Err (StoreUnreadable e), w)
  | (Ok store, w) =>
      let '(identity, present) := StoreIdentity store in
      if negb present then (Ok None, w) else
      match Credentials.Clear store w with
      | (Err e, _, w) => (Err (NotStored e), w)
      | (Ok _, _, w) => (Ok (Some (id_AgentID identity)), w)
      end
  end.

(** [trust refresh] *)
Definition trust_refresh (a : Caller) (now : time) (bundle : option TrustBundle) (w : World) : result unit login_err * World :=
  match Credentials.Open default_credentials (ca_CredentialsFile a) w with
  | (Err e, w) => (Err (StoreUnreadable e), w)
  | (Ok store, w) =>
      let '(identity, present) := StoreIdentity store in
      if negb present then (Err NotEnrolled_, w) else
      match normalizeEndpoint parse_address show_address (id_Endpoint identity) with
      | Err e => (Err (BadAddress e), w)
      | Ok _ => let '(r, _, w) := pinTrust now bundle store w in (r, w)
      end
  end.

(** [status]: what it says of the sign-in. *)
Inductive sign_in := Expired | Renewing | Valid.
Definition sign_in_of (i : Identity) (now : time) : sign_in :=
  if RefreshExpired i now then Expired else if NeedsRefresh i now then Renewing else Valid.
(** The address the operator is told to open. *)
Definition printed_target (p : Prompt) : string :=
  if blank (pm_VerificationURIComplete p) then pm_VerificationURI p else pm_VerificationURIComplete p.

(** ** The trace does not matter to a writer *)

Definition retrace (tr : list fsys) (w : World) : World := mkWorld (w_fs w) (w_faults w) (w_rand w) tr.
Definition blind {A} (m : IO A) : Prop := forall w tr, exists tr', m (retrace tr w) = (fst (m w), retrace tr' (snd (m w))).
Lemma blind_bind {A B} (m : IO A) (k : A -> IO B) : blind m -> (forall a, blind (k a)) -> blind (io_bind m k).
Proof.
  intros Hm Hk w tr. unfold io_bind. destruct (Hm w tr) as [tr' ->]. destruct (m w) as [[a|e] w1]; cbn [fst snd]; [apply Hk|by exists tr'].
Qed.
Lemma blind_call {A} op (f : World -> result A io_err * World) :
  (forall w tr, exists tr', f (retrace tr w) = (fst (f w), retrace tr' (snd (f w)))) -> blind (call op f).
Proof.
  intros Hf w tr. unfold call. cbn [w_faults retrace w_fs w_rand w_trace]. destruct (hd false (w_faults w)); [by exists tr|].
  exact (Hf (mkWorld (w_fs w) (tail (w_faults w)) (w_rand w) (w_trace w)) tr).
Qed.
Lemma blind_pure op : blind (pure_call op).
Proof. apply blind_call. intros w tr. by exists tr. Qed.
Lemma blind_chmod name mode : blind (chmod name mode).
Proof. apply blind_call. intros w tr. cbn [w_fs retrace]. destruct (w_fs w !! name); cbn; by eexists. Qed.
Lemma blind_write name data : blind (write_file name data).
Proof. apply blind_call. intros w tr. cbn [w_fs retrace]. destruct (w_fs w !! name); cbn; by eexists. Qed.
Lemma blind_rename from to : blind (rename from to).
Proof. apply blind_call. intros w tr. cbn [w_fs retrace]. destruct (w_fs w !! from); cbn; by eexists. Qed.
Lemma blind_remove name : blind (remove name).
Proof. apply blind_call. intros w tr. cbn [w_fs retrace]. destruct (w_fs w !! name); cbn; by eexists. Qed.
Lemma blind_temp d prefix : blind (create_temp d prefix).
Proof. apply blind_call. intros w tr. cbn [w_fs retrace w_rand w_faults]. destruct (pick_temp _ _ _ _) as [[name rs]|]; cbn; by eexists. Qed.
Lemma blind_removed {A} name (body : IO A) : blind body -> blind (with_removed name body).
Proof.
  intros Hb w tr. unfold with_removed. destruct (Hb w tr) as [tr1 ->]. destruct (body w) as [r w1]. cbn [fst snd].
  destruct (blind_remove name w1 tr1) as [tr2 ->]. destruct (remove name w1) as [r' w2]. cbn [fst snd]. by exists tr2.
Qed.
Lemma blind_persist s i : blind (persist s i).
Proof.
  unfold persist. destruct (json_marshal i) as [data|]; [|intros w tr; by exists tr].
  repeat first [apply blind_pure | apply blind_chmod | apply blind_write | apply blind_rename | apply blind_temp
               | apply blind_removed | apply blind_bind; [|intros ?] | progress unfold replace_file, fill_temp, mkdir_all, sync_file, close_file, sync_directory].
Qed.

(** A path that no temporary file is named like. *)
Definition plain_path (path : string) : Prop :=
  forall r, temp_name (dir path) ".komari-credentials-" r <> path /\ temp_name (dir path) ".komari-login-" r <> path.
(** [Credentials.commit_identity_spec] wherever a command stands. *)
Lemma commit_spec_anywhere s next w r s' w' :
  plain_path (st_path s) -> commit_identity s next w = (r, s', w') ->
  match r with
  | Ok _ => st_identity s' = Some next /\ st_path s' = st_path s /\
      exists data, json_marshal next = Some data /\ w_fs w' !! st_path s = Some (mkFile data fileMode)
  | Err e => s' = s /\ (w_fs w' !! st_path s = w_fs w !! st_path s \/ e = CredIO (Fault OpSyncDir) /\
      exists data, json_marshal next = Some data /\ w_fs w' !! st_path s = Some (mkFile data fileMode))
  end.
Proof.
  intros Hp Hc. unfold commit_identity in Hc. destruct (persist s next w) as [r1 w1] eqn:Ep.
  destruct (blind_persist s next w []) as [tr Hb]. rewrite Ep in Hb. cbn [fst snd] in Hb.
  assert (Hc' : commit_identity s next (retrace [] w) = (r, s', retrace tr w')).
  { unfold commit_identity. rewrite Hb. by destruct r1 as [[]|e]; simplify_eq. }
  assert (Ha : avoids s (retrace [] w)) by (intros x _; apply Hp).
  pose proof (commit_identity_spec _ _ _ _ _ _ Ha eq_refl Hc') as Hs. destruct r as [[]|e].
  - destruct Hs as (Hi & Hsp & data & Hm & Hf). split; [done|]. split; [done|]. exists data. split; [done|].
    cbn in Hf. by rewrite Hf, lookup_insert_eq.
  - destruct Hs as (-> & [[_ Hf]|[-> Hd]]); (split; [done|]); [by left|by right].
Qed.

Lemma Open_spec default p w r w' : Credentials.Open default p w = (r, w') ->
  w_fs w' = w_fs w /\
  match r with
  | Ok s => st_path s = (if blank p then default else p) /\
      match w_fs w !! st_path s with
      | None => st_identity s = None
      | Some f => is_Some (st_identity s) /\ st_identity s = json_unmarshal (f_data f)
      end
  | Err _ => True
  end.
Proof.
  unfold Credentials.Open. set (path := if blank p then default else p). unfold read_file, call.
  destruct (hd false (w_faults w)); [by intros [= <- <-]|]. cbn [w_fs]. destruct (w_fs w !! path) as [f|] eqn:Ef.
  - destruct (json_unmarshal (f_data f)) as [i|] eqn:Ej; intros [= <- <-]; [|done]. cbn. rewrite Ef. split; [done|]. split; [done|]. split; [by eexists|done].
  - intros [= <- <-]. cbn. by rewrite Ef.
Qed.
Lemma prepare_frame a path w r w' : plain_path path -> prepareLoginStore a path w = (r, w') -> w_fs w' !! path = w_fs w !! path.
Proof.
  intros Hp. unfold prepareLoginStore. set (wrong := match ca_service a with Some _ => _ | None => _ end). destruct wrong; [by intros [= <- <-]|].
  assert (Hrm : forall name v, name <> path -> w_fs (snd (remove name v)) !! path = w_fs v !! path).
  { intros name v Hn. unfold remove, call. destruct (hd false _); [done|]. cbn [w_fs]. destruct (w_fs v !! name); [|done]. cbn. by rewrite lookup_delete_ne. }
  assert (Hpc : forall op v, w_fs (snd (pure_call op v)) = w_fs v).
  { intros op v. unfold pure_call, call. by destruct (hd false _). }
  pose proof (Hpc OpMkdirAll w) as F1. unfold mkdir_all, close_file. destruct (pure_call OpMkdirAll w) as [[[]|e] w1]; cbn in F1; [|by intros [= <- <-]; rewrite F1].
  destruct (create_temp (dir path) ".komari-login-" w1) as [[name|e] w2] eqn:Ec.
  2: { intros [= <- <-]. rewrite <- F1. revert Ec. unfold create_temp, call. destruct (hd false _); [by intros [= <- <-]|].
       destruct (pick_temp _ _ _ _) as [[? ?]|]; [done|by intros [= <- <-]]. }
  assert (F2 : name <> path /\ w_fs w2 !! path = w_fs w1 !! path).
  { revert Ec. unfold create_temp, call. destruct (hd false _); [done|]. cbn [w_fs w_rand]. destruct (pick_temp _ _ _ _) as [[n rs]|] eqn:Ep; [|done].
    intros [= <- <-]. apply pick_temp_fresh in Ep as (_ & x & _ & ->). assert (Hn := proj2 (Hp x)). split; [done|]. cbn. by rewrite lookup_insert_ne. }
  destruct F2 as [Hn F2]. pose proof (Hpc OpClose w2) as F3. destruct (pure_call OpClose w2) as [[[]|e] w3]; cbn in F3.
  - pose proof (Hrm name w3 Hn) as F4. destruct (remove name w3) as [[[]|e] w4]; cbn in F4; intros [= <- <-]; congruence.
  - pose proof (Hrm name w3 Hn) as F4. intros [= <- <-]. congruence.
Qed.

(** ** What an enrolment leaves behind *)

Lemma poll_loop_accepts accept interval events i ws :
  poll_loop accept interval events = (Some (Ok i), ws) -> exists issued, i = accept issued.
Proof.
  revert interval ws. induction events as [|[| |r] events IH]; intros interval ws; cbn [poll_loop]; [done..|].
  set (next := if 0 <? _ then _ else _). destruct (poll_state r); try (by intros [= ?]).
  - destruct (poll_loop accept next events) as [out waits] eqn:Ep. intros [= -> _]. by eapply IH.
  - destruct (poll_loop accept (boundInterval _) events) as [out waits] eqn:Ep. intros [= -> _]. by eapply IH.
  - destruct (poll_credentials r) as [issued|]; [|done]. intros [= <- _]. by exists issued.
Qed.
Lemma enroll_accepts endpoint drawn begin events now i :
  fst (enroll raw_url_b64 endpoint drawn None begin events now) = Some (Ok i) ->
  exists publicKey privateKey keyID issued, GenerateKeypair raw_url_b64 drawn = Ok (publicKey, privateKey, keyID) /\
    i = approved_identity endpoint publicKey privateKey keyID now issued.
Proof.
  unfold enroll, offered_keypair. destruct (GenerateKeypair _ drawn) as [[[pub priv] kid]|e]; [|done].
  destruct (b64_decode pub); [|done]. destruct begin as [b|]; [|done]. destruct (blank _); [done|].
  destruct (poll_loop _ _ events) as [out ws] eqn:Ep. cbn [fst]. intros ->. apply poll_loop_accepts in Ep as [issued ->]. eauto 10.
Qed.
(** The same machine and tokens; what a pin and the stamps may change. *)
Definition same_enrolment (stored i : Identity) : Prop :=
  exists e u keys algorithms all minimum, stored = with_stamps e u (Credentials.with_trust keys algorithms all minimum i).

(** C29: A login happens only on a machine that no agent is enrolled on. When it
    succeeds, the file holds, readable by its owner alone, the identity the panel
    approved for the address the operator gave, with the key drawn for it and the
    panel's keys when they could be pinned; when it fails, the file is what it was,
    unless the very last flush of the directory failed. *)
Theorem login_is_all_or_nothing a t w r w' :
  let path := if blank (ca_CredentialsFile a) then default_credentials else ca_CredentialsFile a in
  plain_path path -> login a t w = (Some r, w') ->
  match r with
  | Ok (i, warning) =>
      (forall f old, w_fs w !! path = Some f -> json_unmarshal (f_data f) = Some old -> id_AgentID old = "") /\
      normalizeEndpoint parse_address show_address (ca_Endpoint a) = Ok (id_Endpoint i) /\
      GenerateKeypair raw_url_b64 (co_drawn t) = Ok (id_PublicKey i, id_PrivateKey i, id_KeyID i) /\
      exists stored data, json_marshal stored = Some data /\ same_enrolment stored i /\
        (w_fs w' !! path = Some (mkFile data fileMode)) /\
        (warning = None -> if ca_NoPin a then id_ControlPlaneKeys stored = [] else
           id_ControlPlaneKeys stored <> [] /\ exists algorithms all minimum,
             FetchTrustBundle (co_bundle t) = Some (id_ControlPlaneKeys stored, algorithms, all, minimum))
  | Err e => w_fs w' !! path = w_fs w !! path \/ e = NotStored (CredIO (Fault OpSyncDir))
  end.
Proof.
  cbn zeta. set (path := if blank _ then _ else _). intros Hp. unfold login. destruct (blank (ca_Endpoint a)); [intros [= <- <-]; by left|].
  destruct (Credentials.Open _ _ w) as [[store|e] w1] eqn:Eo; apply Open_spec in Eo as [Hf1 Ho]; [|intros [= <- <-]; left; by rewrite Hf1].
  destruct Ho as [Hsp Ho]. fold path in Hsp.
  assert (Hold : forall i0 b, StoreIdentity store = (i0, b) -> b && negb (id_AgentID i0 =? "")%string = false ->
    forall f old, w_fs w !! path = Some f -> json_unmarshal (f_data f) = Some old -> id_AgentID old = "").
  { intros i0 b Hsi Hb f old Hf Hj. rewrite Hsp, Hf in Ho. destruct Ho as [[i Hi] Hu]. rewrite Hj in Hu. unfold StoreIdentity in Hsi. rewrite Hu in Hsi.
    injection Hsi as <- <-. cbn in Hb. apply negb_false_iff in Hb. by apply String.eqb_eq in Hb. }
  destruct (StoreIdentity store) as [i0 present] eqn:Esi. destruct (present && _) eqn:Ep; [intros [= <- <-]; left; by rewrite Hf1|].
  pose proof (Hold _ _ eq_refl Ep) as Hnew. clear Hold.
  destruct (prepareLoginStore a (st_path store) w1) as [[[]|e] w2] eqn:Epr; (apply prepare_frame in Epr; [|by rewrite Hsp]); rewrite Hsp, Hf1 in Epr;
    [|intros [= <- <-]; by left].
  destruct (normalizeEndpoint _ _ _) as [endpoint|e] eqn:En; [|intros [= <- <-]; by left].
  destruct (fst (enroll _ _ _ _ _ _ _)) as [[i|e]|] eqn:Ee; [|intros [= <- <-]; by left|done].
  apply enroll_accepts in Ee as (pub & priv & kid & issued & Hk & Hi).
  destruct (Save (co_saved_at t) i store w2) as [[[[]|e] s3] w3] eqn:Es; unfold Save in Es; (apply commit_spec_anywhere in Es; [|by rewrite Hsp]); rewrite Hsp in Es.
  2: { intros [= <- <-]. destruct Es as [_ [Es|[-> _]]]; [left; congruence|by right]. }
  destruct Es as (Hs3 & Hp3 & data & Hm & Hf3).
  set (saved := with_stamps _ (co_saved_at t) i) in *.
  assert (Hsame : same_enrolment saved i) by (unfold saved; rewrite Hi; by eexists _, _, [], [], false, 0).
  assert (Hep : id_Endpoint i = endpoint) by by rewrite Hi.
  assert (Hkp : GenerateKeypair raw_url_b64 (co_drawn t) = Ok (id_PublicKey i, id_PrivateKey i, id_KeyID i)) by (rewrite Hi; exact Hk).
  assert (Hnk : id_ControlPlaneKeys saved = []) by (unfold saved; by rewrite Hi).
  rewrite <- Hep. destruct (ca_NoPin a).
  { intros [= <- <-]. split; [done|]. split; [done|]. split; [done|]. by exists saved, data. }
  unfold pinTrust. destruct (FetchTrustBundle (co_bundle t)) as [[[[keys algorithms] all] minimum]|] eqn:Eb.
  2: { intros [= <- <-]. split; [done|]. split; [done|]. split; [done|]. by exists saved, data. }
  destruct keys as [|k keys].
  { intros [= <- <-]. split; [done|]. split; [done|]. split; [done|]. by exists saved, data. }
  unfold PinTrustBundle. rewrite Hs3. set (next := with_stamps _ (co_pinned_at t) _).
  destruct (commit_identity s3 next w3) as [[[[]|e] s4] w4] eqn:Ec; (pose proof (commit_spec_anywhere s3 next w3 _ _ _ ltac:(by rewrite Hp3) Ec) as Hc); rewrite Hp3 in Hc.
  - destruct Hc as (_ & _ & data' & Hm' & Hf'). intros [= <- <-]. split; [done|]. split; [done|]. split; [done|]. exists next, data'.
    split; [done|]. split; [by eexists _, _, (k :: keys), algorithms, all, minimum|]. split; [done|]. intros _. split; [done|]. by eexists _, _, _.
  - intros [= <- <-]. split; [done|]. split; [done|]. split; [done|]. destruct Hc as [_ [Hc|[_ (data' & Hm' & Hf')]]].
    + exists saved, data. split; [done|]. split; [done|]. split; [congruence|done].
    + exists next, data'. split; [done|]. split; [by eexists _, _, (k :: keys), algorithms, all, minimum|]. by split.
Qed.

(** Re-authentication touches nothing while the sign-in is valid. When it
    succeeds, the file holds the same agent with its keypair, its pinned keys and
    their policy, and the tokens just approved; when it fails, the file is what it
    was, unless the very last flush of the directory failed. *)
Theorem reauth_keeps_the_machine a now t w r w' :
  let path := if blank (ca_CredentialsFile a) then default_credentials else ca_CredentialsFile a in
  plain_path path -> reauth a now t w = (Some r, w') ->
  match r with
  | Ok None => w_fs w' = w_fs w
  | Ok (Some i) => exists f old stored data,
      w_fs w !! path = Some f /\ json_unmarshal (f_data f) = Some old /\ RefreshExpired old now = true /\
      id_AgentID stored = id_AgentID old /\ id_PrivateKey stored = id_PrivateKey old /\ id_PublicKey stored = id_PublicKey old /\
      id_KeyID stored = id_KeyID old /\ id_ControlPlaneKeys stored = id_ControlPlaneKeys old /\
      id_PolicyAlgorithms stored = id_PolicyAlgorithms old /\ id_PolicyRequireAll stored = id_PolicyRequireAll old /\
      id_PolicyMinimumSignatures stored = id_PolicyMinimumSignatures old /\
      id_AccessToken stored = id_AccessToken i /\ id_RefreshToken stored = id_RefreshToken i /\
      json_marshal stored = Some data /\ w_fs w' !! path = Some (mkFile data fileMode)
  | Err e => w_fs w' !! path = w_fs w !! path \/ e = NotStored (CredIO (Fault OpSyncDir))
  end.
Proof.
  cbn zeta. set (path := if blank _ then _ else _). intros Hp. unfold reauth.
  destruct (Credentials.Open _ _ w) as [[store|e] w1] eqn:Eo; apply Open_spec in Eo as [Hf1 Ho]; [|intros [= <- <-]; left; by rewrite Hf1].
  destruct Ho as [Hsp Ho]. fold path in Hsp. rewrite Hsp in Ho. unfold StoreIdentity.
  destruct (st_identity store) as [old|]; cbn [negb]; [|intros [= <- <-]; left; by rewrite Hf1].
  destruct (RefreshExpired old now) eqn:Ex; cbn [negb]; [|intros [= <- <-]; exact Hf1].
  destruct (normalizeEndpoint _ _ _) as [endpoint|e]; [|intros [= <- <-]; left; by rewrite Hf1].
  destruct (Reauth _ _ _ _ _ _ _) as [[i|e]|] eqn:Er; [|intros [= <- <-]; left; by rewrite Hf1|done].
  destruct (co_begin t) as [b|] eqn:Eb.
  2: { exfalso. revert Er. unfold Reauth, enroll. destruct (id_AgentID old =? "")%string; [done|].
       destruct (offered_keypair _ _ _) as [[[pub priv] kid]|e]; [|done]. by destruct (b64_decode pub). }
  apply Reauth_keeps_machine in Er as (K1 & K2 & K3 & K4 & K5 & K6 & K7 & K8).
  destruct (Save (co_saved_at t) i store w1) as [[[[]|e] s3] w3] eqn:Es; unfold Save in Es; (apply commit_spec_anywhere in Es; [|by rewrite Hsp]); rewrite Hsp in Es.
  2: { intros [= <- <-]. destruct Es as [_ [Es|[-> _]]]; [left; congruence|by right]. }
  destruct Es as (_ & _ & data & Hm & Hf3). intros [= <- <-]. destruct (w_fs w !! path) as [f|] eqn:Ef; [|discriminate Ho]. destruct Ho as [_ Hu].
  match type of Hm with json_marshal ?saved = _ => exists f, old, saved, data end. by split_and!.
Qed.

(** Logging out leaves no credentials. *)
Lemma logout_leaves_nothing a w r w' :
  let path := if blank (ca_CredentialsFile a) then default_credentials else ca_CredentialsFile a in
  logout a w = (Ok r, w') -> w_fs w' !! path = None.
Proof.
  cbn zeta. set (path := if blank _ then _ else _). unfold logout.
  destruct (Credentials.Open _ _ w) as [[store|e] w1] eqn:Eo; apply Open_spec in Eo as [Hf1 Ho]; [|done].
  destruct Ho as [Hsp Ho]. fold path in Hsp. rewrite Hsp in Ho. unfold StoreIdentity. destruct (st_identity store) as [old|]; cbn [negb].
  - unfold Credentials.Clear, remove, call. rewrite Hsp. destruct (hd false (w_faults w1)); [done|]. cbn [w_fs].
    destruct (w_fs w1 !! path) as [f|] eqn:Ef; intros [= <- <-]; cbn; [by rewrite lookup_delete_eq|done].
  - intros [= <- <-]. destruct (w_fs w !! path) as [f|] eqn:Ef; [by destruct Ho as [[? ?] _]|by rewrite Hf1].
Qed.
End Login.

(** ** A first login *)

Definition lg_caller : Caller := mkCaller 1000 None false "panel.example.com" "/k/credentials.json".
Definition lg_talk : Conversation :=
  mkConversation (Some ("pub", "priv")) (Some (mkBegin "u" "" "CODE" "dev" None None))
    [Answered (mkPoll STATE_PENDING None None None); Answered (mkPoll STATE_APPROVED None (Some ewit_issued) None)] 99
    (Some (mkBundle [mkTrustKey 1 ewit_panel "k1" None None] [1] true 1)) 100 101.
Definition lg_address (s : string) : option Address := Some (mkAddress "https" "panel.example.com" "" "" "").
Definition lg_show (a : Address) : string := (ad_Scheme a ++ "://" ++ ad_Host a)%string.
Definition lg_world : World := mkWorld ∅ [] ["1"; "2"; "3"] [].
Lemma lg_plain : plain_path "/k/credentials.json".
Proof. intros r. split; vm_compute; intros E; discriminate E. Qed.
Lemma login_is_all_or_nothing_witness :
  let C := ewit_crypto in let T := ewit_time in let D := ewit_dur in let J := ewit_json in
  exists i w', login (fun s => s) lg_address lg_show "/d" lg_caller lg_talk lg_world = (Some (Ok (i, None)), w') /\
    exists stored data, json_marshal stored = Some data /\ w_fs w' !! "/k/credentials.json" = Some (mkFile data fileMode) /\
      id_ControlPlaneKeys stored <> [].
Proof.
  intros C T D J. set (run := login _ _ _ _ _ _ _).
  assert (E : match fst run with Some (Ok (_, None)) => True | _ => False end) by (vm_compute; exact I).
  destruct run as [[[[i [e|]]|e]|] w'] eqn:Er; try destruct E. exists i, w'. split; [reflexivity|].
  destruct (login_is_all_or_nothing (fun s => s) lg_address lg_show "/d" lg_caller lg_talk lg_world (Ok (i, None)) w' lg_plain Er)
    as (_ & _ & _ & stored & data & Hm & _ & Hf & Hk).
  exists stored, data. split; [exact Hm|]. split; [exact Hf|]. exact (proj1 (Hk eq_refl)).
Defined.
